(* ===== verification/_CoqProject ===== *)
-Q . S2P
Prelude.v
CppString.v
Regex.v
RdsUtils.v
Metrics.v
HostInfo.v
HostList.v
World.v
ClusterTopology.v
TopologyService.v
FailoverSync.v
FailoverReader.v
FailoverWriter.v
FailoverHandler.v
MonitorContext.v
Monitor.v
EfmProxy.v
Transcode.v
StringUtil.v
DataSource.v
CacheMap.v
SlidingCache.v
CustomEndpoint.v
QueryParsing.v
Transact.v
Parse.v
AuthToken.v
SdkHelper.v
Saml.v
Secrets.v
Numeric.v
Errors.v
Descriptors.v
Registry.v
Handles.v
GetData.v
DateTime.v
TempBuf.v
Escape.v
Params.v
Scroller.v
Types.v
Column.v
Fetch.v
SetPos.v
Positioned.v
CurrentOf.v
