(* ===== verification/Prelude.v ===== *)
(** * A model of the AWS ODBC Driver for MySQL

    The driver is the MySQL ODBC connector with four things added for Aurora
    clusters: failover between the instances of a cluster, failure detection on
    the connections, custom cluster endpoints, and authentication with AWS.  This
    library models the C++ code of the added parts, of the parts of the connector
    they rest on (strings, options), and of its core (handles, descriptors, errors,
    parameters, the conversion of data), and proves what makes them correct, or where they are not.  Statements are about the code as it is:
    where it differs from its comments or from what it is for, the theorem says
    so.

    ** How the program works, and what models it

    A connection handle (DBC) has a chain of proxies, a connection handler and a
    failover handler (src/driver/connect.cc, connection_handler.cc).

    - An application works on handles: environments, connections, statements and
      descriptors.  [Descriptors] has their data (src/driver/driver.h) and the
      operations on the fields of descriptors (desc.cc); [Handles] allocates, frees,
      connects and resets them (handle.cc, my_prepared_stmt.cc, options.cc,
      connect.cc), and is shown to implement [Registry], the abstract specification
      of who owns and uses which handle.  An error is put into the handle of the
      call: [Errors] (error.cc).

    - A query is sent with the texts of its parameters in it: [Params] (execute.cc), on the
      buffer of [TempBuf] (utility.cc); [Escape] has the escaping of the catalog functions.
      [Numeric] and [DateTime] convert exact numerics, dates and times from and to
      text (utility.cc, execute.cc, results.cc, my_prepared_stmt.cc).  [Types] has the
      SQL type and the sizes of a column (utility.cc), [Column] the conversion of its
      value to the C type the application asks for, in both protocols of the client
      library (results.cc, my_stmt.cc, my_prepared_stmt.cc), and [GetData]
      gives what is long piece by piece (utility.cc).  [Fetch] moves the cursor over a
      result and converts the rows of a rowset into the buffers that are bound
      (results.cc, my_prepared_stmt.cc).  [Scroller] fetches a
      large result in pieces, with a LIMIT clause it rewrites (my_stmt.cc, utility.cc).
      [SetPos] has the operations on the rows of a rowset (SQLSetPos, SQLBulkOperations, cursor.cc)
      with the data for them that come at execution (execute.cc); [Positioned] says what
      they send, and [CurrentOf] has the statements that name a cursor (cursor.cc, execute.cc).

    - The options of a connection come from a connection string or a data
      source.  [DataSource] models the classes of options, the map of their names,
      the writer and the reader of connection strings, the numeric options, the
      defaults and the copy (src/util/installer.h, installer.cc).  [Transcode]
      and [StringUtil] model the conversion of characters and of wide strings
      (src/util/unicode_transcode.cc, stringutil.cc).  [HostList] models the
      server list (src/driver/connect.cc).
    - A query is cut into tokens and parameter markers by [Parse] (src/driver/parse.cc)
      and into statements by [QueryParsing] (query_parsing.cc), which tells whether
      a transaction is open; [Transact] has the ends of transactions (transact.cc)
      and the execution of a query with the failover it may start (execute.cc).
    - When a connection is set up the failover handler classifies the host name:
      [RdsUtils] (src/driver/rds_utils.cc), whose regular expressions are run by
      the matcher of [Regex]; [CppString] has the string functions it uses.
    - A cluster's topology is queried from it, cached and filtered by the topology
      service: [TopologyService] (src/driver/topology_service.cc) on the objects
      of [ClusterTopology] (cluster_topology_info.cc) and [HostInfo]
      (host_info.cc), which live in the store of [World].  Timings and hits go to
      [Metrics] (base_metrics_holder.cc and the cluster_aware_* files).
    - A query that fails with an error of class 08 starts a failover.
      [FailoverHandler] (failover_handler.cc) decides which one, moves the new
      connection in and reports the outcome; [FailoverReader] and [FailoverWriter]
      (failover_reader_handler.cc, failover_writer_handler.cc) are the two
      procedures, in which two tasks race for a connection; [FailoverSync] is what
      they share (failover.h).
    - Calls to the server are watched by monitors: [EfmProxy] (efm_proxy.cc)
      brackets a call, [Monitor] models the monitors, their threads, their
      container and the service (monitor.cc, monitor_thread_container.cc,
      monitor_service.cc), [MonitorContext] the counters of one call
      (monitor_connection_context.cc).
    - A custom endpoint restricts the hosts of a cluster: [CustomEndpoint]
      (custom_endpoint_info.cc, custom_endpoint_monitor.cc,
      custom_endpoint_proxy.cc), with the caches [CacheMap] (cache_map.cc) and
      [SlidingCache] (sliding_expiration_cache*.cc).
    - A proxy may get the password of a connection from AWS: [AuthToken] models the
      cache of tokens and the IAM proxy (auth_util.cc, iam_proxy.cc), [SdkHelper] the
      start and the end of the SDK (aws_sdk_helper.cc), [Saml] the HTTP client and
      the exchanges with Okta and ADFS (saml_http_client.cc, saml_util.cc,
      okta_proxy.cc, adfs_proxy.cc), [Secrets] the secrets manager
      (secrets_manager_proxy.cc).

    ** How the code is modelled

    - This file has the monads.  A pure call that can fail is a [res]: a value, an
      exception, or undefined behaviour ([UB]: a null dereference, an access out
      of range).  A call with effects is an [M S A], a function from a state to
      an outcome and a state; effects stay when it throws.
    - Objects behind a [shared_ptr] are entries of a heap and a pointer is a
      location, so that aliasing is as in the code; maps are [gmap]s, and where
      the order of an [unordered_map] could be seen it is a parameter.
    - A clock is a stream of readings, one per call of [now()].
    - Threads: an operation that holds a lock is one step; what a call does outside of
      the lock is a step of its own where other threads can see it ([op_step] of
      [Monitor]).  The failover tasks, the
      threads of the monitors and the threads that wait for them are automata
      between whose steps anything may happen; the results are about every run
      of their step functions or step relations.
    - What is not in the repository is an interface, as a class or a parameter:
      the client library and the server (what a statement answers, whether a
      connection can be made), DNS, the AWS SDK, the thread pool.  No law is
      assumed of them but those a theorem names.
    - Integers have the width the code gives them where it can matter ([to_int32],
      [to_uint32], [to_size_t] below, [to_u16] and the like); times in
      nanoseconds are not bounded.
    - A loop that is not structural has fuel.  The fuel of a definition that stands
      for a call is enough, and the theorems say so by the results they give: the
      length of the pattern and the text for the matcher, the length of the text
      for parsers of strings (a round takes at least one character), the number of
      hosts for the searches of a topology, 20 and 64 digits for 64-bit numbers, 39
      digits for an exact numeric of 128 bits.
      The one loop that need not end, that of [from_kvpair], is shown to repeat
      its state.

    ** What is shown

    - Failover: a connection that writer failover returns is live and is one to the
      writer of the topology that comes with it (the cached one when it cannot be
      queried), and no task releases it, in every interleaving
      ([writer_failover_safe]); the same for a round of reader failover
      ([reader_round_safe]), which ends when its tasks end ([polling_answers]), goes
      to hosts of the given topology ([reader_failover_host]) in the order of
      [build_hosts_list_spec].  Races that go wrong are shown as runs
      ([second_connection_leaks], [topology_without_writer_aborts]).
    - The handler: which failover an error triggers, what it leaves behind and what
      it reports ([execute_query_spec], [failover_to_writer_spec],
      [failover_to_reader_spec]); the end of a transaction ([transaction_spec]); setting up a cluster carries out a plan that is
      given as a specification ([init_cluster_info_spec]).
    - Topology: the query refines a pure specification on the rows
      ([query_for_topology_spec], [queried_topology_spec]); caching
      ([get_topology_spec]), filtering ([get_filtered_topology_spec]), the
      invariant of the store that every operation keeps
      ([topology_ops_preserve]), the fairness of the round robin
      ([get_next_reader_round_robin]).
    - Failure detection: when a node is declared dead ([checks_spec]), the interval
      a monitor keeps unless two calls overlap ([check_interval_invariant]), what a monitored call leaves
      behind ([monitored_on]), the maps of the container
      ([get_or_create_monitor_spec]) and two ways in which a context or a monitor
      is lost ([context_left_behind], [available_monitor_changes_host]).
    - Custom endpoints and caches: a turn of the monitor ([turn_spec]), what the
      filter makes of it ([custom_endpoint_filter]), the end of waiting
      ([wait_for_custom_endpoint_info_ends]); the cache refines a map with
      deadlines ([cache_map_refines]); clean-up and look-up of the sliding cache
      ([sliding_clean_up_spec], [sliding_lookup_spec]).
    - Queries: the tokenizer returns for every text and character set and what it
      finds is in the text ([parse_finds_in_range]); the parameter markers are
      those of a reference that reads byte by byte ([parse_markers]); what decides
      the type of a query ([query_type_spec]); statements round trip
      ([statements_roundtrip]).
    - Names, options and text: host names and server lists round trip
      ([rds_host_roundtrip], [host_list_roundtrip]); connection strings round trip
      ([connection_string_roundtrip]) and reading one returns unless brackets are
      misused ([from_kvpair_returns]); the numeric options ([numeric_options_roundtrip]);
      the copy of a data source ([copy_spec]); transcoding of characters and wide
      strings ([transcode_roundtrip], [wide_text_roundtrip]) and where the latter
      writes ([utf8_as_sqlwchar_bounds]).

    - Authentication: the password a connection is made with is a token that was made
      for its host, port and user, or the one of its secret ([iam_password_genuine],
      [secrets_login_genuine]); when a cached one is used, made again or tried a second
      time ([iam_connect_spec], [secrets_connect_spec], [fed_connect_spec]); how many
      may use the SDK ([sdk_helper_spec]).
    - Handles: every permitted call returns, so that no freed handle is used, and does
      what the registry says ([calls_refine_registry]); lists of owners and pointers
      agree in every store that is reached ([handles_invariant]), and a refused
      descriptor, which is not permitted, breaks that ([refused_descriptor_dangles]).
    - Descriptors: the fields of the type of a record agree whatever is set
      ([set_field_types]); what is set in a row descriptor is read back
      ([set_get_roundtrip]), the bindings of parameters are not
      ([apd_fields_unreadable]).
    - Parameters: the query that is sent has the text of each parameter, escaped and in quotes
      where it is text, in the place of its marker ([insert_params_spec]); where it
      is not: numbers as text ([number_parameter_verbatim]), and binary data that is cut
      ([binary_parameters]).  The buffer is a text that is appended to
      ([tempBuf_refines]); an escaped name is read as a pattern of itself by a server that reads
      backslashes as escapes, and stays in its literal ([escape_roundtrip]).
    - Fetching: which rowset a call moves to, by the tables of the ODBC reference, and what
      it writes ([fetch_scroll_spec]); calls of SQLFetch deliver all rows, in their order
      ([fetches_deliver]); nothing is written outside of the arrays that are bound,
      whatever the server answers ([fetch_in_bounds]).  After a row that cannot be
      converted the cursor may be lost ([stuck_behind_error]).
    - Positioned operations: for each row that is asked for, one statement with a key, that of the row unless
      the place that is noted is not where the result stands ([key_places]), and, for updates, its values ([positioned_delete_spec], [positioned_update_spec]); values that come at
      execution, in pieces, are sent as if they had been bound ([update_with_data_spec]); the
      key is the first unique one whose columns are in the result ([usable_key_spec]); WHERE CURRENT OF
      ([current_of_delete_spec]), and names of cursors that cannot be confused
      ([cursor_names_apart]).  What goes wrong is in [SetPosExamples] and [CurrentOfExamples]: rows that
      have been fetched again ([wrong_row_deleted]), columns that are not bound ([unbound_set]).
    - Columns: an integer that fits into the C type is what the application gets
      ([integer_value_delivered]); the text protocol and prepared statements give the
      same, but for bytes without a sign and columns with ZEROFILL ([protocols_agree]); a type of a fixed size is
      written with its size, whatever the length of the buffer ([fixed_sizes]); the sizes
      and types that are told of columns ([display_size_fits], [sizes_capped],
      [catalog_agrees]); however long the buffers are, the pieces of a value make up the value
      ([binary_pieces], [ansi_pieces], [binhex_pieces]).
    - Prefetching: however many rows are fetched, in pieces of whatever size, they are the
      ones that LIMIT n or LIMIT o, n and the bound of the statement select, or all
      ([prefetch_delivers]); the clause that is written is read back
      ([limit_written_is_read]); clauses that are misread ([limit_offset_swapped],
      [locking_lost], [limit_prefix]) and memory that is left ([moved_memory]).
    - Dates and times: a timestamp that is sent is read back ([timestamp_roundtrip]), a time is
      the number of its seconds ([time_value]), the two readers of timestamps agree
      ([complete_timestamp_agrees]), and a time as a number is defined for texts with digits
      ([time_as_long_defined]).
    - Exact numerics: the number a text gives ([sqlnum_from_str_spec]), the way back
      ([sqlnum_roundtrip]) and where it reads behind its buffer
      ([sqlnum_to_str_overruns]); the table of errors is the one of the last version
      that was set ([ov_init_last]).

    The proofs rest on the invariants and lemmas of each file; the lemmas of the
    monads, [preserves] and the hint database [odbc] of this file are shared by
    all.

    ** What is not modelled

    The ODBC functions that execute and describe (the call that binds a
    column, the catalog functions, and unicode.cc and ansi.cc, which convert their
    arguments): buffers and calls of the client library; of the statements that name a cursor, the updates, which
    prepare a statement of their own; long data for statements that are executed; connecting; logging, telemetry, the set-up dialogs, and the
    sources copied from the MySQL server (src/mysql_strings, src/mysql_sys,
    src/include), which are not the driver's own; of the added parts, the forwarding
    methods of the proxy chain; the calls of the installer library in installer.cc;
    conversions through a MySQL character set in stringutil.cc; reports of the
    metrics. *)

From Stdlib Require String.
From Stdlib Require Export ZArith Lia Ascii.
From stdpp Require Export prelude gmap strings.

(** ** Strings

    A [std::string] is the list of its bytes.  Literals are written as
    Rocq strings and coerced. *)

Abbreviation str := (list ascii).

Coercion String.list_ascii_of_string : string >-> list.

Declare Scope odbc_scope.
Delimit Scope odbc_scope with odbc.

(** [S!"text"] is the byte list of a literal. *)
Notation "'S!' s" := (String.list_ascii_of_string s%string) (at level 1, s at level 0, only parsing) : odbc_scope.
#[global] Open Scope odbc_scope.

(** ** Exceptions and undefined behaviour

    A call returns a value, throws a C++ exception, or runs into
    undefined behaviour (a null dereference, an access out of range).
    [no_return] is no exception of the program: it stands for a loop that
    has used up its fuel, which nothing catches. *)

Inductive exn :=
  | runtime_error (what : str)
  | invalid_argument (what : str)
  | string_error (what : str)
  | length_error (what : str)
  | c_string (what : str)
  | saml_http_exception (what : str)
  | json_exception (what : str)
  | myerror (retcode : Z)
  | no_return.

Inductive res (A : Type) :=
  | Ok (a : A)
  | Throw (e : exn)
  | UB.
Arguments Ok {A} a.
Arguments Throw {A} e.
Arguments UB {A}.

#[export] Instance exn_eq_dec : EqDecision exn.
Proof. solve_decision. Defined.

#[export] Instance res_eq_dec {A} `{EqDecision A} : EqDecision (res A).
Proof. solve_decision. Defined.

#[export] Instance res_ret : MRet res := λ A a, Ok a.
#[export] Instance res_bind : MBind res := λ A B k r,
  match r with Ok a => k a | Throw e => Throw e | UB => UB end.

Definition is_ok {A} (r : res A) : bool :=
  match r with Ok _ => true | _ => false end.

(** The effects of a call stay when it throws: the state is returned
    beside the outcome. *)
Definition M (S A : Type) : Type := S → res A * S.

#[export] Instance M_ret {S} : MRet (M S) := λ A a s, (Ok a, s).
#[export] Instance M_bind {S} : MBind (M S) := λ A B k m s,
  match m s with
  | (Ok a, s') => k a s'
  | (Throw e, s') => (Throw e, s')
  | (UB, s') => (UB, s')
  end.

Section MonadOps.
Context {S : Type}.

Definition get : M S S := λ s, (Ok s, s).
Definition put (s : S) : M S unit := λ _, (Ok tt, s).
Definition modify (f : S → S) : M S unit := λ s, (Ok tt, f s).
Definition gets {A} (f : S → A) : M S A := λ s, (Ok (f s), s).
Definition throw {A} (e : exn) : M S A := λ s, (Throw e, s).
Definition undefined {A} : M S A := λ s, (UB, s).
Definition lift {A} (r : res A) : M S A := λ s, (r, s).

(** Dereference of something that may be null. *)
Definition deref {A} (o : option A) : M S A :=
  match o with Some a => mret a | None => undefined end.

(** [try { m } catch (std::runtime_error) { h }]. *)
Definition catch_runtime {A} (m : M S A) (h : str → M S A) : M S A := λ s,
  match m s with
  | (Throw (runtime_error w), s') => h w s'
  | r => r
  end.

(** [try { m } catch (MYERROR &e) { h(e.retcode) }]. *)
Definition catch_myerror {A} (m : M S A) (h : Z → A) : M S A := λ s,
  match m s with
  | (Throw (myerror r), s') => (Ok (h r), s')
  | r => r
  end.
End MonadOps.

(** A loop over a list with an effectful body. *)
Fixpoint mapM_ {S A} (f : A → M S unit) (l : list A) : M S unit :=
  match l with
  | [] => mret tt
  | x :: l' => f x;; mapM_ f l'
  end.

(** ** Reasoning about the monads *)

Section MonadLemmas.
Context {S : Type}.

Lemma bind_Ok {A B} (m : M S A) (k : A → M S B) s a s' :
  m s = (Ok a, s') → (m ≫= k) s = k a s'.
Proof. intros H. unfold mbind, M_bind. by rewrite H. Qed.

Lemma bind_inv_Ok {A B} (m : M S A) (k : A → M S B) s b s'' :
  (m ≫= k) s = (Ok b, s'') →
  ∃ a s', m s = (Ok a, s') ∧ k a s' = (Ok b, s'').
Proof.
  unfold mbind, M_bind. destruct (m s) as [[a|e|] s'] eqn:Hm; intros H; simplify_eq.
  eauto.
Qed.

Lemma bind_assoc {A B C} (m : M S A) (k : A → M S B) (h : B → M S C) s :
  ((m ≫= k) ≫= h) s = (m ≫= (λ a, k a ≫= h)) s.
Proof. unfold mbind, M_bind. by destruct (m s) as [[a|e|] s']. Qed.

Lemma bind_cong {A B} (m : M S A) (k k' : A → M S B) s :
  (∀ a s', k a s' = k' a s') → (m ≫= k) s = (m ≫= k') s.
Proof. intros Hk. unfold mbind, M_bind. destruct (m s) as [[a|e|] s']; done. Qed.

Lemma gets_bind {A B} (f : S → A) (k : A → M S B) s : (gets f ≫= k) s = k (f s) s.
Proof. done. Qed.

Lemma modify_bind {B} f (k : unit → M S B) s : (modify f ≫= k) s = k tt (f s).
Proof. done. Qed.

Lemma get_bind {B} (k : S → M S B) s : (get ≫= k) s = k s s.
Proof. done. Qed.

Lemma ret_bind {A B} (a : A) (k : A → M S B) s : (mret a ≫= k) s = k a s.
Proof. done. Qed.
End MonadLemmas.

(** A predicate that every outcome of a call keeps, exceptional ones too. *)
Definition preserves {S A} (P : S → Prop) (m : M S A) : Prop :=
  ∀ s, P s → P (m s).2.

Section Preserves.
Context {S : Type} (P : S → Prop).

Lemma preserves_ret {A} (a : A) : preserves P (mret a).
Proof. by intros s Hs. Qed.
Lemma preserves_throw {A} e : preserves P (throw (A := A) e).
Proof. by intros s Hs. Qed.
Lemma preserves_undefined {A} : preserves P (undefined (A := A)).
Proof. by intros s Hs. Qed.
Lemma preserves_gets {A} (f : S → A) : preserves P (gets f).
Proof. by intros s Hs. Qed.
Lemma preserves_get : preserves P get.
Proof. by intros s Hs. Qed.
Lemma preserves_modify f : (∀ s, P s → P (f s)) → preserves P (modify f).
Proof. intros Hf s Hs. by apply Hf. Qed.
Lemma preserves_deref {A} (o : option A) : preserves P (deref o).
Proof. by destruct o; intros s Hs. Qed.
Lemma preserves_lift {A} (r : res A) : preserves P (lift r).
Proof. by intros s Hs. Qed.

(** The state-dependent form: [m] is run from a known state. *)
Lemma bind_at {A B} (m : M S A) (k : A → M S B) s :
  P (m s).2 → (∀ a, preserves P (k a)) → P ((m ≫= k) s).2.
Proof.
  intros Hm Hk. unfold mbind, M_bind.
  destruct (m s) as [[a|e|] s']; simpl in *; [by apply Hk|done|done].
Qed.

Lemma preserves_bind {A B} (m : M S A) (k : A → M S B) :
  preserves P m → (∀ a, preserves P (k a)) → preserves P (m ≫= k).
Proof.
  intros Hm Hk s Hs. unfold mbind, M_bind. specialize (Hm s Hs).
  destruct (m s) as [[a|e|] s']; simpl in *; [by apply Hk|done|done].
Qed.

Lemma preserves_mapM {A} (f : A → M S unit) l :
  (∀ a, preserves P (f a)) → preserves P (mapM_ f l).
Proof.
  intros Hf. induction l as [|x l IH]; simpl; [apply preserves_ret|].
  apply preserves_bind; auto.
Qed.
End Preserves.

Lemma bind_keeps {S A B} (P : S → Prop) (m : M S A) (h : A → M S B) s :
  P (m s).2 → (∀ a s', m s = (Ok a, s') → P s' → P (h a s').2) → P ((m ≫= h) s).2.
Proof. intros Hm Hh. unfold mbind, M_bind. destruct (m s) as [[a|x|] s'] eqn:E; [|exact Hm..]. by apply Hh. Qed.

Lemma preserves_catch {S A} (P : S → Prop) (m : M S A) h : preserves P m → preserves P (catch_myerror m h).
Proof. intros Hm s Hs. specialize (Hm s Hs). unfold catch_myerror. by destruct (m s) as [[|[]|] ?]. Qed.

Lemma preserves_Ok {S A} (P : S → Prop) (m : M S A) s a s' : preserves P m → m s = (Ok a, s') → P s → P s'.
Proof. intros Hm E Hs. specialize (Hm s Hs). by rewrite E in Hm. Qed.

Create HintDb odbc discriminated.
#[export] Hint Resolve preserves_ret preserves_throw preserves_undefined preserves_gets
  preserves_get preserves_deref preserves_lift preserves_bind preserves_mapM : odbc.

(** Splits a [preserves] goal along the structure of the program. *)
Ltac solve_preserves :=
  repeat match goal with
  | |- preserves _ (mret _) => apply preserves_ret
  | |- preserves _ (mbind _ _) => apply preserves_bind; [|intros ?]
  | |- preserves _ (match ?x with _ => _ end) => destruct x
  | |- preserves _ (deref _) => apply preserves_deref
  | |- preserves _ (throw _) => apply preserves_throw
  | |- preserves _ undefined => apply preserves_undefined
  | |- preserves _ (gets _) => apply preserves_gets
  | |- preserves _ get => apply preserves_get
  | |- preserves _ (lift _) => apply preserves_lift
  | |- preserves _ (mapM_ _ _) => apply preserves_mapM; intros ?
  | |- preserves _ (modify _) => apply preserves_modify; intros ? ?
  | _ => progress eauto with odbc
  end.

(** Case analysis on every scrutinee of the goal, remembering equations. *)
Ltac case_matches := repeat case_match; simplify_eq/=; try done.

(** ** Machine integers *)

Definition int32_min : Z := -2147483648.
Definition int32_max : Z := 2147483647.
Definition int64_max : Z := 9223372036854775807.
Definition in_int32 (z : Z) : Prop := (int32_min ≤ z ≤ int32_max)%Z.

(** Conversion to [unsigned int], and back to [int] (two's complement). *)
Definition to_uint32 (z : Z) : Z := (z mod 2 ^ 32)%Z.
Definition to_int32 (z : Z) : Z :=
  let u := (z mod 2 ^ 32)%Z in if (u <? 2 ^ 31)%Z then u else (u - 2 ^ 32)%Z.
(** Conversion to [size_t] on a 64-bit target. *)
Definition to_size_t (z : Z) : Z := (z mod 2 ^ 64)%Z.

Lemma to_size_t_small z : (0 ≤ z < 2 ^ 64)%Z → to_size_t z = z.
Proof. apply Z.mod_small. Qed.

Lemma to_int32_id z : in_int32 z → to_int32 z = z.
Proof.
  unfold in_int32, to_int32, int32_min, int32_max. intros Hz.
  destruct (decide (0 ≤ z)%Z).
  - rewrite Z.mod_small by lia. destruct (Z.ltb_spec z (2 ^ 31)); lia.
  - replace (z mod 2 ^ 32)%Z with (z + 2 ^ 32)%Z; [destruct (Z.ltb_spec (z + 2 ^ 32) (2 ^ 31)); lia|].
    rewrite <- (Z.mod_add z 1) by lia. rewrite Z.mod_small; lia.
Qed.

(** A bitwise or of parts that do not overlap is a sum. *)
Lemma lor_high n a b : (0 ≤ n → 0 ≤ b < 2 ^ n → Z.lor (a * 2 ^ n) b = a * 2 ^ n + b)%Z.
Proof.
  intros Hn Hb. rewrite <- Z.add_lor_land.
  enough (Z.land (a * 2 ^ n) b = 0)%Z as -> by lia. apply Z.bits_inj'. intros m Hm.
  rewrite Z.land_spec, Z.bits_0, <- Z.shiftl_mul_pow2 by done. destruct (decide (m < n)%Z).
  - by rewrite Z.shiftl_spec_low.
  - rewrite <- (Z.mod_small b (2 ^ n)) by done. rewrite Z.mod_pow2_bits_high by lia. apply andb_false_r.
Qed.

(** ** Transitive closure of a step relation *)

Section Star.
Context {A : Type} (R : A → A → Prop).

Lemma rtc_invariant (P : A → Prop) x y :
  (∀ a b, P a → R a b → P b) → P x → rtc R x y → P y.
Proof. intros Hstep HP Hr. induction Hr; eauto. Qed.
End Star.

(** ** Lists *)

Section Lists.
Context {A : Type}.
Implicit Types l : list A.

Lemma filter_partition_length (P : A → Prop) `{∀ x, Decision (P x)} l :
  length (filter P l) + length (filter (λ x, ¬ P x) l) = length l.
Proof.
  induction l as [|x l IH]; [done|]. rewrite !filter_cons.
  case_decide; case_decide; simpl; first [done|lia].
Qed.

Lemma filter_cons_bool (f : A → bool) x l :
  filter (λ y, f y) (x :: l) = if f x then x :: filter (λ y, f y) l else filter (λ y, f y) l.
Proof. rewrite filter_cons. by destruct (f x). Qed.

Lemma NoDup_app_single l x : NoDup l → x ∉ l → NoDup (l ++ [x]).
Proof.
  intros Hl Hx. apply NoDup_app. split; [done|]. split; [|apply NoDup_singleton].
  intros y Hy ->%list_elem_of_singleton. done.
Qed.
End Lists.
