(* ===== verification/CppString.v ===== *)
(** The parts of [std::string] and of the C string functions that the driver
    uses: search, substring, replacement, decimal printing, case folding and
    the lexicographic order, on byte lists. *)

From S2P Require Import Prelude.

(** ** Search and substrings *)

(** Whether [p] is a prefix of [s]. *)
Fixpoint starts_with (p s : str) : bool :=
  match p, s with
  | [], _ => true
  | a :: p', b :: s' => bool_decide (a = b) && starts_with p' s'
  | _ :: _, [] => false
  end.

(** [s.find(p, 0)]: the first position where [p] occurs, [None] for [npos]. *)
Fixpoint find (p s : str) : option nat :=
  if starts_with p s then Some 0 else
  match s with
  | [] => None
  | _ :: s' => S <$> find p s'
  end.

(** [s.substr(pos, n)] for [pos <= s.size()]; larger [pos] throws. *)
Definition substr (s : str) (pos n : nat) : str := take n (drop pos s).

(** [s.replace(pos, n, t)]. *)
Definition replace (s : str) (pos n : nat) (t : str) : str :=
  take pos s ++ t ++ drop (pos + n) s.

(** [s.erase(pos, n)]. *)
Definition erase (s : str) (pos n : nat) : str := take pos s ++ drop (pos + n) s.

(** ** Decimal printing: [std::to_string] *)

Definition digit (n : N) : ascii := ascii_of_N (48 + n).

Fixpoint pos_digits (fuel : nat) (n : N) (acc : str) : str :=
  match fuel with
  | O => acc
  | S fuel' =>
    let acc' := digit (n mod 10)%N :: acc in
    if (n <? 10)%N then acc' else pos_digits fuel' (n / 10)%N acc'
  end.

Definition N_to_string (n : N) : str := pos_digits (S (N.to_nat (N.log2 n))) n [].

Definition to_string (z : Z) : str :=
  match z with
  | Zneg p => "-"%char :: N_to_string (Npos p)
  | _ => N_to_string (Z.to_N z)
  end.

(** ** Case folding *)

Definition is_upper (c : ascii) : bool :=
  let n := N_of_ascii c in (65 <=? n)%N && (n <=? 90)%N.
Definition is_lower (c : ascii) : bool :=
  let n := N_of_ascii c in (97 <=? n)%N && (n <=? 122)%N.
Definition tolower (c : ascii) : ascii :=
  if is_upper c then ascii_of_N (N_of_ascii c + 32) else c.
Definition toupper (c : ascii) : ascii :=
  if is_lower c then ascii_of_N (N_of_ascii c - 32) else c.

(** [strcasecmp(a, b) == 0], on strings without embedded NUL. *)
Definition strcaseeq (a b : str) : bool := bool_decide (tolower <$> a = tolower <$> b).

(** ** The order of [std::string] and of [std::set<std::string>] *)

Fixpoint str_ltb (a b : str) : bool :=
  match a, b with
  | [], [] => false
  | [], _ :: _ => true
  | _ :: _, [] => false
  | x :: a', y :: b' =>
    if (N_of_ascii x <? N_of_ascii y)%N then true
    else if (N_of_ascii y <? N_of_ascii x)%N then false
    else str_ltb a' b'
  end.

(** Insertion into a [std::set<std::string>], kept as its sorted list. *)
Fixpoint set_insert (x : str) (l : list str) : list str :=
  match l with
  | [] => [x]
  | y :: l' => if str_ltb x y then x :: y :: l' else if str_ltb y x then y :: set_insert x l' else y :: l'
  end.

(** ** Properties *)

Lemma starts_with_app p s : starts_with p (p ++ s) = true.
Proof. induction p as [|a p IH]; [done|]. simpl. by rewrite bool_decide_true. Qed.

Lemma starts_with_spec p s : starts_with p s = true ↔ ∃ t, s = p ++ t.
Proof.
  split; [|intros [t ->]; apply starts_with_app].
  revert s. induction p as [|a p IH]; intros s H; [by exists s|].
  destruct s as [|b s]; [done|]. simpl in H.
  apply andb_true_iff in H as [->%bool_decide_eq_true H].
  destruct (IH _ H) as [t ->]. by exists t.
Qed.

Lemma find_Some_spec p s i :
  find p s = Some i →
  ∃ a b, s = a ++ p ++ b ∧ length a = i ∧ ∀ j, j < i → starts_with p (drop j s) = false.
Proof.
  revert i. induction s as [|c s IH]; intros i H; simpl in H.
  - destruct (starts_with p []) eqn:E; simplify_eq.
    apply starts_with_spec in E as [t ->]. exists [], t. split_and!; [done..|lia].
  - destruct (starts_with p (c :: s)) eqn:E; simplify_eq.
    + apply starts_with_spec in E as [t ->]. exists [], t. split_and!; [done..|lia].
    + apply fmap_Some in H as (k & Hk & ->).
      destruct (IH _ Hk) as (a & b & -> & <- & Hmin).
      exists (c :: a), b. split_and!; [done..|].
      intros [|j] Hj; [done|]. simpl. apply Hmin. lia.
Qed.

Lemma find_unfold p s :
  find p s = if starts_with p s then Some 0 else
             match s with [] => None | _ :: s' => S <$> find p s' end.
Proof. by destruct s. Qed.

Lemma find_None_spec p s : find p s = None ↔ ∀ a b, s ≠ a ++ p ++ b.
Proof.
  split.
  - intros H a b ->. induction a as [|c a IH]; rewrite find_unfold in H; simpl in H.
    + by rewrite starts_with_app in H.
    + case_match; [done|]. destruct (find p (a ++ p ++ b)); done || by apply IH.
  - intros H. destruct (find p s) as [i|] eqn:E; [|done].
    destruct (find_Some_spec _ _ _ E) as (a & b & Heq & _). by destruct (H a b).
Qed.

(** Case analysis on the comparisons of the goal. *)
Ltac case_ltb :=
  repeat match goal with |- context [(?m <? ?n)%N] => destruct (N.ltb_spec m n) end.

Lemma str_ltb_irrefl a : str_ltb a a = false.
Proof. induction a as [|x a IH]; [done|]. simpl. by rewrite N.ltb_irrefl. Qed.

Lemma str_ltb_trans a b c : str_ltb a b = true → str_ltb b c = true → str_ltb a c = true.
Proof.
  revert b c. induction a as [|x a IH]; intros [|y b] [|z c]; simpl; try done.
  case_ltb; intros; try done; try lia. by eapply IH.
Qed.

Lemma str_ltb_connected a b : str_ltb a b = false → str_ltb b a = false → a = b.
Proof.
  revert b. induction a as [|x a IH]; intros [|y b]; simpl; try done.
  case_ltb; intros; try done; try lia.
  assert (N_of_ascii x = N_of_ascii y) as Hxy by lia.
  apply (f_equal ascii_of_N) in Hxy. rewrite !ascii_N_embedding in Hxy. f_equal; auto.
Qed.

Lemma elem_of_set_insert x y l : y ∈ set_insert x l ↔ y = x ∨ y ∈ l.
Proof.
  induction l as [|z l IH]; simpl; [set_solver|].
  destruct (str_ltb x z) eqn:E1; [set_solver|].
  destruct (str_ltb z x) eqn:E2; [set_solver|].
  assert (x = z) as -> by (by apply str_ltb_connected). set_solver.
Qed.

Lemma tolower_idemp c : tolower (tolower c) = tolower c.
Proof. destruct c as [[] [] [] [] [] [] [] []]; vm_compute; reflexivity. Qed.

Lemma strcaseeq_refl a : strcaseeq a a = true.
Proof. by apply bool_decide_true. Qed.

(** Printing is injective on digits strings: used to compare host:port pairs. *)
Lemma pos_digits_app fuel n acc : pos_digits fuel n acc = pos_digits fuel n [] ++ acc.
Proof.
  revert n acc. induction fuel as [|f IH]; intros n acc; [done|].
  simpl. destruct (n <? 10)%N; [done|]. rewrite (IH _ (_ :: acc)), (IH _ [_]).
  by rewrite <- app_assoc.
Qed.

(** *** Decimal digits read back *)

Definition digit_value (c : ascii) : N := (N_of_ascii c - 48)%N.
Definition digits_value (s : str) : N := foldl (λ a c, (a * 10 + digit_value c)%N) 0%N s.
Definition is_digit (c : ascii) : bool := let n := N_of_ascii c in (48 <=? n)%N && (n <=? 57)%N.

(** [isspace], and what [strtoul] and [atol] skip and read. *)
Definition is_space (c : ascii) : bool := let n := N_of_ascii c in (n =? 32)%N || ((9 <=? n)%N && (n <=? 13)%N).

Fixpoint skip_spaces (s : str) : str :=
  match s with c :: s' => if is_space c then skip_spaces s' else s | [] => [] end.

Fixpoint leading_digits (s : str) : str :=
  match s with c :: s' => if is_digit c then c :: leading_digits s' else [] | [] => [] end.

Lemma digit_mod n : digit_value (digit (n mod 10)) = (n mod 10)%N ∧ is_digit (digit (n mod 10)) = true.
Proof.
  assert (n mod 10 < 10)%N as H by (apply N.mod_lt; lia).
  generalize dependent (n mod 10)%N. intros m Hm.
  assert (m = 0 ∨ m = 1 ∨ m = 2 ∨ m = 3 ∨ m = 4 ∨ m = 5 ∨ m = 6 ∨ m = 7 ∨ m = 8 ∨ m = 9)%N as Hc by lia.
  by destruct_or! Hc; subst.
Qed.

Lemma pos_digits_value fuel n :
  (n < 2 ^ N.of_nat fuel)%N →
  digits_value (pos_digits fuel n []) = n ∧ Forall (λ c, is_digit c = true) (pos_digits fuel n []).
Proof.
  revert n. induction fuel as [|f IH]; intros n Hn; [simpl in Hn; by replace n with 0%N by lia|].
  destruct (digit_mod n) as [Hv Hd]. simpl. destruct (N.ltb_spec n 10) as [Hlt|Hge].
  - rewrite N.mod_small in * by done. split; [|by constructor]. unfold digits_value. simpl. lia.
  - rewrite pos_digits_app. destruct (IH (n / 10)%N) as [IHv IHd].
    { apply N.Div0.div_lt_upper_bound. rewrite Nat2N.inj_succ, N.pow_succ_r' in Hn. lia. }
    unfold digits_value in *. rewrite foldl_app, IHv. split.
    + simpl. rewrite Hv. pose proof (N.div_mod n 10). lia.
    + apply Forall_app. split; [done|by constructor].
Qed.

Lemma length_N_to_string n w : (n < 10 ^ N.of_nat w)%N → w ≠ 0%nat → (length (N_to_string n) ≤ w)%nat.
Proof.
  unfold N_to_string. generalize (S (N.to_nat (N.log2 n))) as fuel. intros fuel. revert n w.
  induction fuel as [|fuel IH]; intros n w Hn Hw; cbn [pos_digits]; [simpl; lia|].
  destruct (N.ltb_spec n 10); [simpl; lia|]. rewrite pos_digits_app, length_app. destruct w as [|[|w]]; [done|lia|].
  assert (length (pos_digits fuel (n / 10) []) ≤ S w)%nat; [|simpl; lia].
  apply IH; [|done]. apply N.Div0.div_lt_upper_bound. rewrite (Nat2N.inj_succ (S w)), N.pow_succ_r' in Hn. lia.
Qed.

Lemma N_to_string_value n :
  digits_value (N_to_string n) = n ∧ Forall (λ c, is_digit c = true) (N_to_string n).
Proof.
  apply pos_digits_value. rewrite Nat2N.inj_succ, N2Nat.id.
  destruct (decide (n = 0)%N) as [->|]; [done|]. apply N.log2_spec. lia.
Qed.

Lemma leading_digits_all s : Forall (λ c, is_digit c = true) s → leading_digits s = s.
Proof. induction 1 as [|c s Hc Hs IH]; simpl; [done|]. by rewrite Hc, IH. Qed.

Lemma digits_value_snoc s c : digits_value (s ++ [c]) = (digits_value s * 10 + digit_value c)%N.
Proof. unfold digits_value. by rewrite foldl_app. Qed.

Lemma digits_value_app s t : digits_value (s ++ t) = (digits_value s * 10 ^ N.of_nat (length t) + digits_value t)%N.
Proof.
  induction t as [|c t IH] using rev_ind; [rewrite app_nil_r; unfold digits_value; simpl; lia|].
  rewrite app_assoc, !digits_value_snoc, IH, length_app, Nat2N.inj_add, N.pow_add_r. simpl length. rewrite N.pow_1_r. lia.
Qed.

Lemma digit_value_bound c : is_digit c = true → (digit_value c < 10)%N.
Proof. unfold is_digit, digit_value. intros [H1%N.leb_le H2%N.leb_le]%andb_true_iff. lia. Qed.

Lemma digits_value_bound s : Forall (λ c, is_digit c = true) s → (digits_value s < 10 ^ N.of_nat (length s))%N.
Proof.
  induction s as [|c s IH] using rev_ind; [intros _; unfold digits_value; simpl; lia|].
  intros [Hs Hc%Forall_inv%digit_value_bound]%Forall_app. rewrite digits_value_snoc, length_app, Nat2N.inj_add, N.pow_add_r.
  specialize (IH Hs). simpl length. rewrite N.pow_1_r. lia.
Qed.

Lemma to_string_chars z : Forall (λ c, is_digit c = true ∨ c = "-"%char) (to_string z).
Proof.
  destruct z as [|p|p]; simpl; try (apply Forall_cons; split; [by right|]);
    (eapply Forall_impl; [apply N_to_string_value|auto]).
Qed.

Lemma to_string_inj z z' : to_string z = to_string z' → z = z'.
Proof.
  assert (∀ n t, N_to_string n ≠ "-"%char :: t) as Hneg.
  { intros n t E. destruct (N_to_string_value n) as [_ H]. rewrite E in H. by apply Forall_inv in H. }
  assert (∀ n m, N_to_string n = N_to_string m → n = m) as Hinj.
  { intros n m E. rewrite <- (proj1 (N_to_string_value n)), <- (proj1 (N_to_string_value m)). by rewrite E. }
  destruct z as [|p|p], z' as [|p'|p']; unfold to_string; intros E; try done;
    try (by destruct (Hneg _ _ E)); try (by destruct (Hneg _ _ (eq_sym E)));
    [..|injection E as E]; apply Hinj in E; simpl in E; congruence.
Qed.

(** The last separator splits a text whose end has none. *)
Lemma split_last (c : ascii) (a a' b b' : str) :
  c ∉ b → c ∉ b' → a ++ c :: b = a' ++ c :: b' → a = a' ∧ b = b'.
Proof.
  revert a'. induction a as [|x a IH]; intros [|y a'] Hb Hb' E; simplify_eq/=; try done.
  - exfalso. apply Hb. set_solver.
  - exfalso. apply Hb'. set_solver.
  - destruct (IH a' Hb Hb') as [-> ->]; [done|done].
Qed.
