(* ===== verification/Regex.v ===== *)
(** [std::regex] with the ECMAScript grammar, as far as the driver uses it.

    [compile] reads a pattern, [run] is the backtracking matcher: it lists
    the ways to match in the priority order of the ECMAScript semantics
    (left alternative first, greedy quantifiers longest first), each with
    the captures it makes.  [regex_match] and [regex_search] take the first
    one, as the library does.  [mtch] is the declarative meaning of a
    pattern; [run_spec] shows that the matcher finds exactly the matches it
    allows, captures included. *)

From S2P Require Import Prelude CppString.

(** ** Patterns *)

(** A bracket expression: an optional negation and a list of ranges. *)
Record cclass := CClass { negated : bool; ranges : list (ascii * ascii) }.

Inductive regex :=
  | REmpty
  | RChar (c : ascii)
  | RAny
  | RClass (k : cclass)
  | RBol
  | REol
  | RSeq (r1 r2 : regex)
  | RAlt (r1 r2 : regex)
  | RGroup (n : nat) (r : regex)
  | RRep (lo : nat) (hi : option nat) (greedy : bool) (r : regex).

(** [std::regex_constants::icase] folds letters before it compares. *)
Definition char_eqb (icase : bool) (a b : ascii) : bool :=
  if icase then bool_decide (tolower a = tolower b) else bool_decide (a = b).

Definition in_range (c : ascii) (r : ascii * ascii) : bool :=
  (N_of_ascii r.1 <=? N_of_ascii c)%N && (N_of_ascii c <=? N_of_ascii r.2)%N.

Definition in_class (icase : bool) (k : cclass) (c : ascii) : bool :=
  let hit := existsb (in_range c) (ranges k)
    || (icase && (existsb (in_range (tolower c)) (ranges k) || existsb (in_range (toupper c)) (ranges k))) in
  xorb (negated k) hit.

(** [.] matches everything but line terminators. *)
Definition any_char (c : ascii) : bool :=
  negb (bool_decide (c = "010"%char) || bool_decide (c = "013"%char)).

(** ** The matcher *)

Record mstate := MState { pos : nat; rest : str; caps : list (nat * str) }.

(** The characters consumed between two states of one match. *)
Definition consumed (st st' : mstate) : str := take (length (rest st) - length (rest st')) (rest st).

Definition set_cap (n : nat) (st st' : mstate) : mstate :=
  MState (pos st') (rest st') ((n, consumed st st') :: caps st').

(** An optional iteration that consumes nothing is refused. *)
Definition progress (st st' : mstate) : bool := length (rest st') <? length (rest st).

Fixpoint rep_opt (iter : mstate → list mstate) (greedy : bool) (n : nat) (st : mstate) : list mstate :=
  match n with
  | O => [st]
  | S n' =>
    let more := filter (λ st', progress st st' = true) (iter st) ≫= rep_opt iter greedy n' in
    if greedy then more ++ [st] else st :: more
  end.

Fixpoint rep_min (iter : mstate → list mstate) (k : nat) (cont : mstate → list mstate) (st : mstate) : list mstate :=
  match k with
  | O => cont st
  | S k' => iter st ≫= rep_min iter k' cont
  end.

(** Iterations allowed beyond the minimum: each consumes a character. *)
Definition rep_bound (lo : nat) (hi : option nat) (st : mstate) : nat :=
  match hi with Some m => m - lo | None => length (rest st) end.

Definition step_char (ok : ascii → bool) (st : mstate) : list mstate :=
  match rest st with
  | c :: s => if ok c then [MState (S (pos st)) s (caps st)] else []
  | [] => []
  end.

Fixpoint run (icase : bool) (r : regex) (st : mstate) : list mstate :=
  match r with
  | REmpty => [st]
  | RChar c => step_char (char_eqb icase c) st
  | RAny => step_char any_char st
  | RClass k => step_char (in_class icase k) st
  | RBol => if pos st =? 0 then [st] else []
  | REol => match rest st with [] => [st] | _ => [] end
  | RSeq r1 r2 => run icase r1 st ≫= run icase r2
  | RAlt r1 r2 => run icase r1 st ++ run icase r2 st
  | RGroup n r => set_cap n st <$> run icase r st
  | RRep lo hi g r =>
    rep_min (run icase r) lo (λ st', rep_opt (run icase r) g (rep_bound lo hi st') st') st
  end.

(** A compiled [std::regex]: the flag and the pattern. *)
Record std_regex := StdRegex { icase : bool; pattern : regex }.

(** What [std::smatch] holds after a successful match. *)
Record smatch := SMatch { prefix : str; whole : str; suffix : str; groups : list (nat * str) }.

(** [m.str(i)]: empty for a group that took no part. *)
Definition m_str (m : smatch) (i : nat) : str :=
  match i with
  | O => whole m
  | _ => match list_find (λ p, p.1 = i) (groups m) with Some (_, p) => p.2 | None => [] end
  end.

Fixpoint mark_count (r : regex) : nat :=
  match r with
  | RSeq a b | RAlt a b => mark_count a + mark_count b
  | RGroup _ a => S (mark_count a)
  | RRep _ _ _ a => mark_count a
  | _ => 0
  end.

(** [m.size()] after a successful match with [re]. *)
Definition m_size (re : std_regex) : nat := S (mark_count (pattern re)).

Definition to_smatch (pre s : str) (st : mstate) : smatch :=
  SMatch pre (consumed (MState 0 s []) st) (rest st) (caps st).

Definition full (st : mstate) : Prop := rest st = [].
#[export] Instance full_dec st : Decision (full st).
Proof. unfold full. apply _. Defined.

Definition regex_match (s : str) (re : std_regex) : option smatch :=
  match list_find full (run (icase re) (pattern re) (MState 0 s [])) with
  | Some (_, st) => Some (to_smatch [] s st)
  | None => None
  end.

(** The leftmost start wins. *)
Fixpoint search_from (re : std_regex) (pre s : str) : option smatch :=
  match run (icase re) (pattern re) (MState (length pre) s []) with
  | st :: _ => Some (to_smatch pre s st)
  | [] => match s with [] => None | c :: s' => search_from re (pre ++ [c]) s' end
  end.
Definition regex_search (s : str) (re : std_regex) : option smatch := search_from re [] s.

Definition regex_matches (s : str) (re : std_regex) : bool := bool_decide (is_Some (regex_match s re)).

(** ** Reading a pattern *)

Definition escape_atom (c : ascii) : regex :=
  if bool_decide (c = "s"%char) then RClass (CClass false [(" "%char, " "%char); ("009"%char, "013"%char)])
  else if bool_decide (c = "W"%char) then RClass (CClass true [("a"%char, "z"%char); ("A"%char, "Z"%char); ("0"%char, "9"%char); ("_"%char, "_"%char)])
  else RChar c.

Fixpoint read_class (fuel : nat) (s : str) (acc : list (ascii * ascii)) : option (list (ascii * ascii) * str) :=
  match fuel, s with
  | S f, "]"%char :: s' => Some (rev acc, s')
  | S f, "\"%char :: c :: s' => read_class f s' ((c, c) :: acc)
  | S f, a :: "-"%char :: b :: s' => read_class f s' ((a, b) :: acc)
  | S f, a :: s' => read_class f s' ((a, a) :: acc)
  | _, _ => None
  end.

Fixpoint read_nat (s : str) (acc : nat) : nat * str :=
  match s with
  | c :: s' =>
    let n := N_of_ascii c in
    if ((48 <=? n) && (n <=? 57))%N then read_nat s' (acc * 10 + N.to_nat (n - 48)) else (acc, s)
  | [] => (acc, [])
  end.

Definition read_lazy (s : str) : bool * str :=
  match s with "?"%char :: s' => (false, s') | _ => (true, s) end.

Definition read_quant (a : regex) (s : str) : option (regex * str) :=
  let mk lo hi s' := let '(g, s'') := read_lazy s' in Some (RRep lo hi g a, s'') in
  match s with
  | "*"%char :: s' => mk 0 None s'
  | "+"%char :: s' => mk 1 None s'
  | "?"%char :: s' => mk 0 (Some 1) s'
  | "{"%char :: s' =>
    let '(lo, s1) := read_nat s' 0 in
    match s1 with
    | "}"%char :: s2 => mk lo (Some lo) s2
    | ","%char :: s2 =>
      match read_nat s2 0 with
      | (_, "}"%char :: s3) =>
        match s2 with "}"%char :: _ => mk lo None s3 | _ => mk lo (Some (read_nat s2 0).1) s3 end
      | _ => None
      end
    | _ => None
    end
  | _ => Some (a, s)
  end.

Fixpoint read_alt (fuel : nat) (s : str) (n : nat) : option (regex * str * nat) :=
  match fuel with
  | O => None
  | S f =>
    '(r1, s1, n1) ← read_seq f s n;
    match s1 with
    | "|"%char :: s2 => '(r2, s3, n3) ← read_alt f s2 n1; Some (RAlt r1 r2, s3, n3)
    | _ => Some (r1, s1, n1)
    end
  end
with read_seq (fuel : nat) (s : str) (n : nat) : option (regex * str * nat) :=
  match fuel with
  | O => None
  | S f =>
    match s with
    | [] | "|"%char :: _ | ")"%char :: _ => Some (REmpty, s, n)
    | _ =>
      '(a, s1, n1) ← read_atom f s n;
      '(q, s2) ← read_quant a s1;
      '(r, s3, n3) ← read_seq f s2 n1;
      Some (match r with REmpty => q | _ => RSeq q r end, s3, n3)
    end
  end
with read_atom (fuel : nat) (s : str) (n : nat) : option (regex * str * nat) :=
  match fuel with
  | O => None
  | S f =>
    match s with
    | "("%char :: s' =>
      '(r, s1, n1) ← read_alt f s' (S n);
      match s1 with ")"%char :: s2 => Some (RGroup (S n) r, s2, n1) | _ => None end
    | "["%char :: "^"%char :: s' => '(k, s1) ← read_class (length s') s' []; Some (RClass (CClass true k), s1, n)
    | "["%char :: s' => '(k, s1) ← read_class (length s') s' []; Some (RClass (CClass false k), s1, n)
    | "."%char :: s' => Some (RAny, s', n)
    | "^"%char :: s' => Some (RBol, s', n)
    | "$"%char :: s' => Some (REol, s', n)
    | "\"%char :: c :: s' => Some (escape_atom c, s', n)
    | c :: s' => Some (RChar c, s', n)
    | [] => None
    end
  end.

(** Every call reads a character or ends a level: three calls per character
    are enough fuel. *)
Definition compile (p : str) : option regex :=
  match read_alt (3 * length p + 3) p 0 with
  | Some (r, [], _) => Some r
  | _ => None
  end.

(** The constructor [std::regex(p, flags)]; the driver's patterns are all
    well formed ([REmpty] stands for [std::regex_error]). *)
Definition mk_regex (icase : bool) (p : str) : std_regex := StdRegex icase (default REmpty (compile p)).

(** ** The declarative meaning *)

Definition eat (ok : ascii → bool) (st st' : mstate) : Prop :=
  ∃ c s, rest st = c :: s ∧ ok c = true ∧ st' = MState (S (pos st)) s (caps st).

Fixpoint mtch (icase : bool) (r : regex) : relation mstate := λ st st',
  match r with
  | REmpty => st' = st
  | RChar c => eat (char_eqb icase c) st st'
  | RAny => eat any_char st st'
  | RClass k => eat (in_class icase k) st st'
  | RBol => st' = st ∧ pos st = 0
  | REol => st' = st ∧ rest st = []
  | RSeq r1 r2 => ∃ st1, mtch icase r1 st st1 ∧ mtch icase r2 st1 st'
  | RAlt r1 r2 => mtch icase r1 st st' ∨ mtch icase r2 st st'
  | RGroup n r => ∃ st1, mtch icase r st st1 ∧ st' = set_cap n st st1
  | RRep lo hi _ r => ∃ st1 k,
      nsteps (mtch icase r) lo st st1 ∧
      k ≤ rep_bound lo hi st1 ∧
      nsteps (λ a b, mtch icase r a b ∧ progress a b = true) k st1 st'
  end.

(** ** The matcher finds exactly the matches *)

Lemma elem_of_step_char ok st st' : st' ∈ step_char ok st ↔ eat ok st st'.
Proof.
  unfold step_char, eat. destruct st as [p [|c s] cs]; simpl.
  - split; [by intros ?%not_elem_of_nil|by intros (?&?&?&_)].
  - destruct (ok c) eqn:E; split.
    + intros ->%list_elem_of_singleton. eauto.
    + intros (c' & s' & [= <- <-] & _ & ->). by apply list_elem_of_singleton.
    + by intros ?%not_elem_of_nil.
    + intros (c' & s' & [= <- <-] & H & _). congruence.
Qed.

Section RepSpec.
Context (iter : mstate → list mstate) (R : relation mstate).
Hypothesis iter_spec : ∀ st st', st' ∈ iter st ↔ R st st'.

Lemma elem_of_rep_opt g n st st' :
  st' ∈ rep_opt iter g n st ↔
  ∃ k, k ≤ n ∧ nsteps (λ a b, R a b ∧ progress a b = true) k st st'.
Proof.
  revert st. induction n as [|n IH]; intros st; simpl.
  - rewrite list_elem_of_singleton. split; [intros ->; exists 0; eauto using nsteps|].
    intros (k & Hk & Hs). assert (k = 0) as -> by lia. by inversion Hs.
  - assert (st' ∈ (filter (λ st'0, progress st st'0 = true) (iter st) ≫= rep_opt iter g n) ∨ st' = st ↔
      ∃ k, k ≤ S n ∧ nsteps (λ a b, R a b ∧ progress a b = true) k st st') as Hmain.
    { rewrite list_elem_of_bind. split.
      - intros [(y & Hy & [Hp Hi]%list_elem_of_filter)| ->]; [|exists 0; split; [lia|constructor]].
        apply IH in Hy as (k & ? & ?). exists (S k). split; [lia|].
        econstructor; [split; [by apply iter_spec|done]|done].
      - intros (k & Hk & Hs). inversion Hs as [|? ? y ? [HR Hp] Hr]; subst; [by right|].
        left. exists y. rewrite IH, list_elem_of_filter, iter_spec.
        split; [|done]. eexists; split; [|done]. lia. }
    rewrite <- Hmain. destruct g; [rewrite elem_of_app, list_elem_of_singleton|rewrite elem_of_cons]; tauto.
Qed.

Lemma elem_of_rep_min k cont (Q : relation mstate) st st' :
  (∀ a b, b ∈ cont a ↔ Q a b) →
  st' ∈ rep_min iter k cont st ↔ ∃ st1, nsteps R k st st1 ∧ Q st1 st'.
Proof.
  intros HQ. revert st. induction k as [|k IH]; intros st; simpl.
  - rewrite HQ. split; [eauto using nsteps|]. intros (? & Hs & ?). by inversion Hs; subst.
  - rewrite list_elem_of_bind. split.
    + intros (y & (st1 & ? & ?)%IH & ?%iter_spec). eauto using nsteps.
    + intros (st1 & Hs & ?). inversion Hs; subst. eexists; split; [apply IH; eauto|by apply iter_spec].
Qed.
End RepSpec.

Lemma run_spec ic r st st' : st' ∈ run ic r st ↔ mtch ic r st st'.
Proof.
  revert st st'. induction r; intros st st'; simpl; try apply elem_of_step_char.
  - by rewrite list_elem_of_singleton.
  - destruct (Nat.eqb_spec (pos st) 0) as [E|E]; [rewrite list_elem_of_singleton|rewrite elem_of_nil].
    + split; [by intros ->|by intros []].
    + split; [done|by intros []].
  - destruct (rest st) eqn:E; [rewrite list_elem_of_singleton|rewrite elem_of_nil].
    + split; [by intros ->|by intros []].
    + split; [done|by intros []].
  - rewrite list_elem_of_bind. setoid_rewrite IHr1. setoid_rewrite IHr2. split; intros (y & ? & ?); eauto.
  - by rewrite elem_of_app, IHr1, IHr2.
  - rewrite list_elem_of_fmap. setoid_rewrite IHr. split; intros (y & ? & ?); eauto.
  - rewrite elem_of_rep_min; [|done|intros a b; by apply elem_of_rep_opt].
    split.
    + intros (st1 & Hs & k & Hk & Hs'). by exists st1, k.
    + intros (st1 & k & Hs & Hk & Hs'). exists st1. eauto.
Qed.

(** ** Matches consume a prefix of the input *)

Definition extends (st st' : mstate) : Prop :=
  ∃ w, rest st = w ++ rest st' ∧ pos st' = pos st + length w.

#[export] Instance extends_preorder : PreOrder extends.
Proof.
  split.
  - intros st. exists []. simpl. split; [done|lia].
  - intros a b c (w1 & H1 & H2) (w2 & H3 & H4). exists (w1 ++ w2).
    rewrite H1, H3, length_app, app_assoc. split; [done|lia].
Qed.

Lemma eat_extends ok st st' : eat ok st st' → extends st st'.
Proof. intros (c & s & Hr & _ & ->). exists [c]. simpl. rewrite Hr. split; [done|lia]. Qed.

Lemma nsteps_extends (R : relation mstate) n a b :
  (∀ a b, R a b → extends a b) → nsteps R n a b → extends a b.
Proof. intros HR. induction 1 as [|? a b c ?? IH]; [done|]. etrans; eauto. Qed.

Lemma mtch_extends ic r st st' : mtch ic r st st' → extends st st'.
Proof.
  revert st st'. induction r; intros st st'; simpl; try apply eat_extends.
  - by intros ->.
  - by intros [-> _].
  - by intros [-> _].
  - intros (st1 & ?%IHr1 & ?%IHr2). by etrans.
  - intros [?%IHr1|?%IHr2]; done.
  - intros (st1 & (w & Hw)%IHr & ->). by exists w.
  - intros (st1 & k & H1 & _ & H2).
    apply nsteps_extends in H1; [|done]. apply nsteps_extends in H2; [by etrans|]. naive_solver.
Qed.

Lemma consumed_app p s w cs st : rest st = s → consumed (MState p (w ++ s) cs) st = w.
Proof.
  intros H. unfold consumed. simpl. rewrite H, length_app.
  replace (length w + length s - length s) with (length w) by lia. apply take_app_length.
Qed.

Lemma list_find_is_Some {A} (P : A → Prop) `{∀ x, Decision (P x)} l :
  is_Some (list_find P l) ↔ ∃ x, x ∈ l ∧ P x.
Proof.
  split.
  - intros [[i x] (Hx & HP & _)%list_find_Some]. eauto using list_elem_of_lookup_2.
  - intros (x & Hx & HP). by eapply list_find_elem_of.
Qed.

(** [regex_match] succeeds exactly on the strings that the pattern describes. *)
Lemma regex_match_spec s re :
  is_Some (regex_match s re) ↔
  ∃ st, mtch (icase re) (pattern re) (MState 0 s []) st ∧ rest st = [].
Proof.
  unfold regex_match. setoid_rewrite <- run_spec.
  rewrite <- (list_find_is_Some full). destruct (list_find _ _) as [[? ?]|]; naive_solver.
Qed.

(** ** The language of a pattern

    Away from anchors and captures a pattern is a set of words. *)

Fixpoint anchor_free (r : regex) : bool :=
  match r with
  | RBol | REol => false
  | RSeq a b | RAlt a b => anchor_free a && anchor_free b
  | RGroup _ a | RRep _ _ _ a => anchor_free a
  | _ => true
  end.

Definition one_char (ok : ascii → bool) (w : str) : Prop := ∃ c, w = [c] ∧ ok c = true.

Definition rep_count (lo : nat) (hi : option nat) (n : nat) : Prop :=
  lo ≤ n ∧ match hi with Some m => n ≤ lo + (m - lo) | None => True end.

Fixpoint lang (icase : bool) (r : regex) (w : str) : Prop :=
  match r with
  | REmpty | RBol | REol => w = []
  | RChar c => one_char (char_eqb icase c) w
  | RAny => one_char any_char w
  | RClass k => one_char (in_class icase k) w
  | RSeq a b => ∃ w1 w2, w = w1 ++ w2 ∧ lang icase a w1 ∧ lang icase b w2
  | RAlt a b => lang icase a w ∨ lang icase b w
  | RGroup _ a => lang icase a w
  | RRep lo hi _ a => ∃ ws, w = concat ws ∧ Forall (lang icase a) ws ∧ rep_count lo hi (length ws)
  end.

(** [reads r w st st']: between two states the word [w] is consumed. *)
Definition reads (w : str) (st st' : mstate) : Prop :=
  rest st = w ++ rest st' ∧ pos st' = pos st + length w.

Lemma reads_app w1 w2 a b c : reads w1 a b → reads w2 b c → reads (w1 ++ w2) a c.
Proof. intros [H1 H2] [H3 H4]. split; [by rewrite H1, H3, app_assoc|]. rewrite length_app. lia. Qed.

Lemma reads_nil st : reads [] st st.
Proof. split; simpl; [done|lia]. Qed.

(** A relation between states that consumes the words of a language. *)
Definition sound_for (L : str → Prop) (R : relation mstate) : Prop :=
  ∀ st st', R st st' → ∃ w, L w ∧ reads w st st'.
Definition complete_for (L : str → Prop) (R : relation mstate) : Prop :=
  ∀ st w t, L w → rest st = w ++ t → ∃ st', R st st' ∧ rest st' = t.

Lemma eat_sound ok : sound_for (one_char ok) (eat ok).
Proof.
  intros st st' (c & s & Hr & Hok & ->). exists [c]. split; [by exists c|].
  split; simpl; [by rewrite Hr|lia].
Qed.

Lemma eat_complete ok : complete_for (one_char ok) (eat ok).
Proof. intros st w t (c & -> & Hok) Hr. eexists. split; [by exists c, t|done]. Qed.

Lemma nsteps_sound L R n :
  sound_for L R → sound_for (λ w, ∃ ws, w = concat ws ∧ Forall L ws ∧ length ws = n) (nsteps R n).
Proof.
  intros HR st st' Hs. induction Hs as [x|n x y z Hxy _ (w & (ws & -> & Hws & <-) & Hr)].
  - exists []. split; [by exists []|apply reads_nil].
  - destruct (HR _ _ Hxy) as (w & Hw & Hrw). exists (w ++ concat ws).
    split; [exists (w :: ws); split_and!; [done|by constructor|done]|by eapply reads_app].
Qed.

Lemma nsteps_complete L R ws :
  complete_for L R → Forall L ws →
  ∀ st t, rest st = concat ws ++ t → ∃ st', nsteps R (length ws) st st' ∧ rest st' = t.
Proof.
  intros HR Hws. induction Hws as [|w ws Hw _ IH]; intros st t Hr; simpl in *.
  - eexists; split; [constructor|done].
  - rewrite <- app_assoc in Hr. destruct (HR _ _ _ Hw Hr) as (y & Hy & Hry).
    destruct (IH _ _ Hry) as (z & Hz & Hrz). exists z. split; [by econstructor|done].
Qed.

Definition nonempty (w : str) : Prop := w ≠ [].

Lemma concat_filter_nonempty (ws : list str) : concat (filter (λ w, w ≠ []) ws) = concat ws.
Proof.
  induction ws as [|w ws IH]; [done|]. rewrite filter_cons. case_decide; simpl; rewrite IH; [done|].
  by rewrite H.
Qed.

Lemma length_concat_nonempty (ws : list str) : Forall nonempty ws → length ws ≤ length (concat ws).
Proof.
  induction 1 as [|w ws Hw _ IH]; simpl; [done|]. rewrite length_app.
  destruct w; [by destruct Hw|simpl; lia].
Qed.

Lemma progress_complete L R :
  complete_for L R →
  complete_for (λ w, L w ∧ nonempty w) (λ a b, R a b ∧ progress a b = true).
Proof.
  intros HR st w t [Hw Hne] Hr. destruct (HR _ _ _ Hw Hr) as (st' & H & Ht).
  exists st'. split; [|done]. split; [done|]. unfold progress. apply Nat.ltb_lt.
  rewrite Hr, Ht, length_app. destruct w; [by destruct Hne|simpl; lia].
Qed.

Lemma rep_complete L R lo hi w :
  complete_for L R → (∃ ws, w = concat ws ∧ Forall L ws ∧ rep_count lo hi (length ws)) →
  ∀ st t, rest st = w ++ t →
  ∃ st' st1 k, nsteps R lo st st1 ∧ k ≤ rep_bound lo hi st1 ∧
    nsteps (λ a b, R a b ∧ progress a b = true) k st1 st' ∧ rest st' = t.
Proof.
  intros HR (ws & -> & Hws & [Hlo Hhi]) st t Hr.
  pose proof (take_drop lo ws) as Htd.
  assert (Forall L (take lo ws)) by by apply Forall_take.
  assert (Forall (λ w, L w ∧ nonempty w) (filter (λ w, w ≠ []) (drop lo ws))) as Hd.
  { apply Forall_forall. intros x [? Hx]%list_elem_of_filter. split; [|done].
    apply (proj1 (Forall_forall L ws) Hws). rewrite <- Htd. set_solver. }
  rewrite <- Htd, concat_app, <- app_assoc in Hr.
  destruct (nsteps_complete L R (take lo ws) HR H st _ Hr) as (st1 & Hn1 & Hr1).
  rewrite length_take, Nat.min_l in Hn1 by lia.
  rewrite <- (concat_filter_nonempty (drop lo ws)) in Hr1.
  destruct (nsteps_complete _ _ _ (progress_complete L R HR) Hd st1 t Hr1) as (st' & Hn2 & Hr2).
  exists st', st1, (length (filter (λ w, w ≠ []) (drop lo ws))). split_and!; [done| |done..].
  destruct hi as [m|]; simpl.
  - etrans; [apply length_filter|]. rewrite length_drop. lia.
  - rewrite Hr1, length_app.
    etrans; [apply length_concat_nonempty; by eapply Forall_impl; [exact Hd|intros ? []]|lia].
Qed.

Lemma mtch_sound ic r : anchor_free r = true → sound_for (lang ic r) (mtch ic r).
Proof.
  induction r as [| | | | | |a IHa b IHb|a IHa b IHb|n a IH|lo hi g a IH]; simpl; intros Haf; try apply eat_sound; try done.
  - intros st st' ->. exists []. split; [done|apply reads_nil].
  - apply andb_true_iff in Haf as [Ha Hb]. intros st st' (st1 & (w1 & ? & ?)%IHa & (w2 & ? & ?)%IHb); [|done..].
    exists (w1 ++ w2). split; [by exists w1, w2|by eapply reads_app].
  - apply andb_true_iff in Haf as [Ha Hb]. intros st st' [(w & ? & ?)%IHa|(w & ? & ?)%IHb]; eauto.
  - intros st st' (st1 & (w & ? & ?)%IH & ->); [|done]. by exists w.
  - intros st st' (st1 & k & H1 & Hk & H2).
    apply (nsteps_sound _ _ _ (IH Haf)) in H1 as (w1 & (ws1 & -> & Hws1 & <-) & Hr1).
    apply (nsteps_sound (lang ic a)) in H2 as (w2 & (ws2 & -> & Hws2 & <-) & Hr2);
      [|intros ?? [? _]; by apply IH].
    exists (concat ws1 ++ concat ws2). split; [|by eapply reads_app].
    exists (ws1 ++ ws2). split_and!; [by rewrite concat_app|by apply Forall_app|].
    rewrite length_app. split; [lia|]. destruct hi; simpl in Hk; [lia|done].
Qed.

Lemma mtch_complete ic r : anchor_free r = true → complete_for (lang ic r) (mtch ic r).
Proof.
  induction r as [| | | | | |a IHa b IHb|a IHa b IHb|n a IH|lo hi g a IH]; simpl; intros Haf; try apply eat_complete; try done.
  - intros st w t -> Hr. by exists st.
  - apply andb_true_iff in Haf as [Ha Hb]. intros st w t (w1 & w2 & -> & H1 & H2) Hr.
    rewrite <- app_assoc in Hr. destruct (IHa Ha _ _ _ H1 Hr) as (st1 & ? & Hr1).
    destruct (IHb Hb _ _ _ H2 Hr1) as (st2 & ? & ?). eauto.
  - apply andb_true_iff in Haf as [Ha Hb].
    intros st w t [H|H] Hr; [destruct (IHa Ha _ _ _ H Hr) as (? & ? & ?)|destruct (IHb Hb _ _ _ H Hr) as (? & ? & ?)]; eauto.
  - intros st w t H Hr. destruct (IH Haf _ _ _ H Hr) as (st1 & ? & ?). eexists; split; [eauto|done].
  - intros st w t H Hr. destruct (rep_complete _ _ _ _ _ (IH Haf) H st t Hr) as (st' & st1 & k & ? & ? & ? & ?). eauto 10.
Qed.

(** Matching is membership in the language. *)
Lemma regex_matches_lang s re :
  anchor_free (pattern re) = true →
  regex_matches s re = true ↔ lang (icase re) (pattern re) s.
Proof.
  intros Haf. unfold regex_matches. rewrite bool_decide_eq_true, regex_match_spec. split.
  - intros (st & Hm & Hr). destruct (mtch_sound _ _ Haf _ _ Hm) as (w & Hw & [Hs _]).
    simpl in Hs. by rewrite Hr, app_nil_r in Hs; subst.
  - intros Hl. apply (mtch_complete _ _ Haf (MState 0 s []) s []); [done|]. by rewrite app_nil_r.
Qed.

(** ** Captures are made by groups only *)

Fixpoint group_free (r : regex) : bool :=
  match r with
  | RGroup _ _ => false
  | RSeq a b | RAlt a b => group_free a && group_free b
  | RRep _ _ _ a => group_free a
  | _ => true
  end.

Lemma nsteps_caps (R : relation mstate) n a b :
  (∀ a b, R a b → caps b = caps a) → nsteps R n a b → caps b = caps a.
Proof. intros HR. induction 1 as [|? a b c Hab ? IH]; [done|]. rewrite IH. eauto. Qed.

Lemma mtch_caps ic r st st' : group_free r = true → mtch ic r st st' → caps st' = caps st.
Proof.
  revert st st'. induction r as [| | | | | |a IHa b IHb|a IHa b IHb|n a IH|lo hi g a IH]; simpl; intros st st' Hgf;
    try (by intros (? & ? & ? & ? & ->)); try done.
  - by intros ->.
  - by intros [-> _].
  - by intros [-> _].
  - apply andb_true_iff in Hgf as [Ha Hb]. intros (st1 & H1 & H2). rewrite (IHb _ _ Hb H2). eauto.
  - apply andb_true_iff in Hgf as [Ha Hb]. intros [H|H]; eauto.
  - intros (st1 & k & H1 & _ & H2). apply nsteps_caps in H1; [|eauto].
    apply nsteps_caps in H2; [congruence|naive_solver].
Qed.

(** A plain piece of a pattern reads a word of its language and nothing else. *)
Definition plain (r : regex) : bool := anchor_free r && group_free r.

Definition advance (w : str) (st : mstate) : mstate :=
  MState (pos st + length w) (drop (length w) (rest st)) (caps st).

Lemma mtch_plain ic r st st' :
  plain r = true →
  mtch ic r st st' ↔ ∃ w t, lang ic r w ∧ rest st = w ++ t ∧ st' = advance w st.
Proof.
  intros [Ha Hg]%andb_true_iff. split.
  - intros H. destruct (mtch_sound _ _ Ha _ _ H) as (w & Hw & [Hr Hp]).
    exists w, (rest st'). split_and!; [done..|]. unfold advance.
    rewrite <- (mtch_caps _ _ _ _ Hg H), <- Hp, Hr, drop_app_length. by destruct st'.
  - intros (w & t & Hw & Hr & ->).
    destruct (mtch_complete _ _ Ha _ _ _ Hw Hr) as (st' & Hm & Hr').
    assert (advance w st = st') as ->; [|done].
    destruct (mtch_extends _ _ _ _ Hm) as (w' & Hw' & Hp'). unfold advance.
    rewrite Hr, drop_app_length, <- (mtch_caps _ _ _ _ Hg Hm).
    rewrite Hr, Hr' in Hw'. apply app_inv_tail in Hw' as <-.
    rewrite <- Hp', <- Hr'. by destruct st'.
Qed.

Lemma mtch_plain_inv ic r st st' :
  plain r = true → mtch ic r st st' →
  ∃ w t, lang ic r w ∧ rest st = w ++ t ∧ st' = MState (pos st + length w) t (caps st).
Proof.
  intros Hp (w & t & Hw & Hr & ->)%mtch_plain; [|done]. exists w, t. split_and!; [done..|].
  unfold advance. by rewrite Hr, drop_app_length.
Qed.

Lemma mtch_group_inv ic n r st st' :
  plain r = true → mtch ic (RGroup n r) st st' →
  ∃ w t, lang ic r w ∧ rest st = w ++ t ∧ st' = MState (pos st + length w) t ((n, w) :: caps st).
Proof.
  intros Hp (st1 & (w & t & Hw & Hr & ->)%mtch_plain_inv & ->); [|done].
  exists w, t. split_and!; [done..|]. unfold set_cap. simpl. do 3 f_equal.
  destruct st as [p s cs]. simpl in *. subst s. by apply consumed_app.
Qed.

(** [(r)?] takes part or leaves everything as it is. *)
Lemma mtch_opt_inv ic g r st st' :
  mtch ic (RRep 0 (Some 1) g r) st st' → st' = st ∨ mtch ic r st st'.
Proof.
  intros (st1 & k & H1 & Hk & H2). inversion H1; subst. simpl in Hk.
  destruct k as [|[|k]]; [|..|lia].
  - left. by inversion H2.
  - right. inversion H2 as [|? ? ? ? [H _] H']; subst. by inversion H'; subst.
Qed.

(** The search finds a match that starts at the front when there is one. *)
Lemma regex_search_front s re st :
  mtch (icase re) (pattern re) (MState 0 s []) st →
  ∃ st', regex_search s re = Some (to_smatch [] s st') ∧ mtch (icase re) (pattern re) (MState 0 s []) st'.
Proof.
  intros H%run_spec. unfold regex_search. destruct s; simpl;
    destruct (run _ _ _) as [|st' l] eqn:E; try (by apply not_elem_of_nil in H);
    exists st'; (split; [done|]); apply run_spec; rewrite E; constructor.
Qed.
