(* ===== verification/RdsUtils.v ===== *)
(** [RDS_UTILS] (src/driver/rds_utils.cc): classification of Aurora host
    names and extraction of their parts by regular expressions. *)

From S2P Require Import Prelude CppString Regex.

(** ** The patterns, as the source spells them *)

(** [src/driver/rds_utils.cc:33-35] AURORA_DNS_PATTERN *)
Definition AURORA_DNS_PATTERN : std_regex := Eval vm_compute in mk_regex true
  "(.+)\.(proxy-|cluster-|cluster-ro-|cluster-custom-)?([a-zA-Z0-9]+\.([a-zA-Z0-9\-]+)\.rds\.amazonaws\.com)".
(** [src/driver/rds_utils.cc:36-37] AURORA_PROXY_DNS_PATTERN *)
Definition AURORA_PROXY_DNS_PATTERN : std_regex := Eval vm_compute in mk_regex true
  "(.+)\.(proxy-)+([a-zA-Z0-9]+\.[a-zA-Z0-9\-]+\.rds\.amazonaws\.com)".
(** [src/driver/rds_utils.cc:38-40] AURORA_CLUSTER_PATTERN *)
Definition AURORA_CLUSTER_PATTERN : std_regex := Eval vm_compute in mk_regex true
  "(.+)\.(cluster-|cluster-ro-)+([a-zA-Z0-9]+\.[a-zA-Z0-9\-]+\.rds\.amazonaws\.com)".
(** [src/driver/rds_utils.cc:41-42] AURORA_WRITER_CLUSTER_PATTERN *)
Definition AURORA_WRITER_CLUSTER_PATTERN : std_regex := Eval vm_compute in mk_regex true
  "(.+)\.(cluster-)+([a-zA-Z0-9]+\.[a-zA-Z0-9\-]+\.rds\.amazonaws\.com)".
(** [src/driver/rds_utils.cc:43-44] AURORA_READER_CLUSTER_PATTERN *)
Definition AURORA_READER_CLUSTER_PATTERN : std_regex := Eval vm_compute in mk_regex true
  "(.+)\.(cluster-ro-)+([a-zA-Z0-9]+\.[a-zA-Z0-9\-]+\.rds\.amazonaws\.com)".
(** [src/driver/rds_utils.cc:45-46] AURORA_CUSTOM_CLUSTER_PATTERN *)
Definition AURORA_CUSTOM_CLUSTER_PATTERN : std_regex := Eval vm_compute in mk_regex true
  "(.+)\.(cluster-custom-)+([a-zA-Z0-9]+\.[a-zA-Z0-9\-]+\.rds\.amazonaws\.com)".
(** [src/driver/rds_utils.cc:47-49] AURORA_CHINA_DNS_PATTERN *)
Definition AURORA_CHINA_DNS_PATTERN : std_regex := Eval vm_compute in mk_regex true
  "(.+)\.(proxy-|cluster-|cluster-ro-|cluster-custom-)?([a-zA-Z0-9]+\.(rds\.[a-zA-Z0-9\-]+|[a-zA-Z0-9\-]+\.rds)\.amazonaws\.com\.cn)".
(** [src/driver/rds_utils.cc:50-52] AURORA_CHINA_PROXY_DNS_PATTERN *)
Definition AURORA_CHINA_PROXY_DNS_PATTERN : std_regex := Eval vm_compute in mk_regex true
  "(.+)\.(proxy-)+([a-zA-Z0-9]+\.(rds\.[a-zA-Z0-9\-]+|[a-zA-Z0-9\-]+\.rds)\.amazonaws\.com\.cn)".
(** [src/driver/rds_utils.cc:53-55] AURORA_CHINA_CLUSTER_PATTERN *)
Definition AURORA_CHINA_CLUSTER_PATTERN : std_regex := Eval vm_compute in mk_regex true
  "(.+)\.(cluster-|cluster-ro-)+([a-zA-Z0-9]+\.(rds\.[a-zA-Z0-9\-]+|[a-zA-Z0-9\-]+\.rds)\.amazonaws\.com\.cn)".
(** [src/driver/rds_utils.cc:56-58] AURORA_CHINA_WRITER_CLUSTER_PATTERN *)
Definition AURORA_CHINA_WRITER_CLUSTER_PATTERN : std_regex := Eval vm_compute in mk_regex true
  "(.+)\.(cluster-)+([a-zA-Z0-9]+\.(rds\.[a-zA-Z0-9\-]+|[a-zA-Z0-9\-]+\.rds)\.amazonaws\.com\.cn)".
(** [src/driver/rds_utils.cc:59-61] AURORA_CHINA_READER_CLUSTER_PATTERN *)
Definition AURORA_CHINA_READER_CLUSTER_PATTERN : std_regex := Eval vm_compute in mk_regex true
  "(.+)\.(cluster-ro-)+([a-zA-Z0-9]+\.(rds\.[a-zA-Z0-9\-]+|[a-zA-Z0-9\-]+\.rds)\.amazonaws\.com\.cn)".
(** [src/driver/rds_utils.cc:62-64] AURORA_CHINA_CUSTOM_CLUSTER_PATTERN *)
Definition AURORA_CHINA_CUSTOM_CLUSTER_PATTERN : std_regex := Eval vm_compute in mk_regex true
  "(.+)\.(cluster-custom-)+([a-zA-Z0-9]+\.(rds\.[a-zA-Z0-9\-]+|[a-zA-Z0-9\-]+\.rds)\.amazonaws\.com\.cn)".
(** [src/driver/rds_utils.cc:65-66] IPV4_PATTERN *)
Definition IPV4_PATTERN : std_regex := Eval vm_compute in mk_regex false
  "^(([1-9]|[1-9][0-9]|1[0-9]{2}|2[0-4][0-9]|25[0-5])\.){1}(([0-9]|[1-9][0-9]|1[0-9]{2}|2[0-4][0-9]|25[0-5])\.){2}([0-9]|[1-9][0-9]|1[0-9]{2}|2[0-4][0-9]|25[0-5])$".
(** [src/driver/rds_utils.cc:67-67] IPV6_PATTERN *)
Definition IPV6_PATTERN : std_regex := Eval vm_compute in mk_regex false
  "^[0-9a-fA-F]{1,4}(:[0-9a-fA-F]{1,4}){7}$".
(** [src/driver/rds_utils.cc:68-69] IPV6_COMPRESSED_PATTERN *)
Definition IPV6_COMPRESSED_PATTERN : std_regex := Eval vm_compute in mk_regex false
  "^(([0-9A-Fa-f]{1,4}(:[0-9A-Fa-f]{1,4}){0,5})?)::(([0-9A-Fa-f]{1,4}(:[0-9A-Fa-f]{1,4}){0,5})?)$".

(** ** Classification *)

(** [src/driver/rds_utils.cc:72-72] RDS_UTILS::is_dns_pattern_valid *)
Definition is_dns_pattern_valid (host : str) : bool := bool_decide (is_Some (find "?" host)).

(** [src/driver/rds_utils.cc:74-76] RDS_UTILS::is_rds_dns *)
Definition is_rds_dns (host : str) : bool :=
  regex_matches host AURORA_DNS_PATTERN || regex_matches host AURORA_CHINA_DNS_PATTERN.

(** [src/driver/rds_utils.cc:78-80] RDS_UTILS::is_rds_cluster_dns *)
Definition is_rds_cluster_dns (host : str) : bool :=
  regex_matches host AURORA_CLUSTER_PATTERN || regex_matches host AURORA_CHINA_CLUSTER_PATTERN.

(** [src/driver/rds_utils.cc:82-84] RDS_UTILS::is_rds_proxy_dns *)
Definition is_rds_proxy_dns (host : str) : bool :=
  regex_matches host AURORA_PROXY_DNS_PATTERN || regex_matches host AURORA_CHINA_PROXY_DNS_PATTERN.

(** [src/driver/rds_utils.cc:86-89] RDS_UTILS::is_rds_writer_cluster_dns *)
Definition is_rds_writer_cluster_dns (host : str) : bool :=
  regex_matches host AURORA_WRITER_CLUSTER_PATTERN || regex_matches host AURORA_CHINA_WRITER_CLUSTER_PATTERN.

(** [src/driver/rds_utils.cc:91-94] RDS_UTILS::is_rds_reader_cluster_dns *)
Definition is_rds_reader_cluster_dns (host : str) : bool :=
  regex_matches host AURORA_READER_CLUSTER_PATTERN || regex_matches host AURORA_CHINA_READER_CLUSTER_PATTERN.

(** [src/driver/rds_utils.cc:96-99] RDS_UTILS::is_rds_custom_cluster_dns *)
Definition is_rds_custom_cluster_dns (host : str) : bool :=
  regex_matches host AURORA_CUSTOM_CLUSTER_PATTERN || regex_matches host AURORA_CHINA_CUSTOM_CLUSTER_PATTERN.

(** [src/driver/rds_utils.cc:206-206] RDS_UTILS::is_ipv4 *)
Definition is_ipv4 (host : str) : bool := regex_matches host IPV4_PATTERN.

(** [src/driver/rds_utils.cc:207-209] RDS_UTILS::is_ipv6 *)
Definition is_ipv6 (host : str) : bool :=
  regex_matches host IPV6_PATTERN || regex_matches host IPV6_COMPRESSED_PATTERN.

(** ** Extraction

    Every extraction runs one lambda on the general pattern, and on the
    pattern for China when the first result is empty. *)

(** [src/driver/rds_utils.cc:145-150] RDS_UTILS::get_rds_cluster_id *)
Definition first_nonempty (f : std_regex → str) (p1 p2 : std_regex) : str :=
  match f p1 with [] => f p2 | r => r end.

(** [src/driver/rds_utils.cc:108-126] RDS_UTILS::get_rds_cluster_host_url *)
Definition cluster_host_url_with (host : str) (pat : std_regex) : str :=
  match regex_search host pat with
  | Some m =>
    if 1 <? m_size pat then
      let gr1 := if 1 <? m_size pat then m_str m 1 else [] in
      let gr2 := if 2 <? m_size pat then m_str m 2 else [] in
      let gr3 := if 3 <? m_size pat then m_str m 3 else [] in
      if negb (bool_decide (gr1 = [])) && negb (bool_decide (gr3 = [])) &&
         (strcaseeq gr2 "cluster-" || strcaseeq gr2 "cluster-ro-")
      then gr1 ++ S!".cluster-" ++ gr3
      else []
    else []
  | None => []
  end.

(** [src/driver/rds_utils.cc:107-134] RDS_UTILS::get_rds_cluster_host_url *)
Definition get_rds_cluster_host_url (host : str) : str :=
  first_nonempty (cluster_host_url_with host) AURORA_CLUSTER_PATTERN AURORA_CHINA_CLUSTER_PATTERN.

(** [src/driver/rds_utils.cc:137-143] RDS_UTILS::get_rds_cluster_id *)
Definition cluster_id_with (host : str) (pat : std_regex) : str :=
  match regex_search host pat with
  | Some m => if (1 <? m_size pat) && negb (bool_decide (m_str m 2 = [])) then m_str m 1 else []
  | None => []
  end.

(** [src/driver/rds_utils.cc:136-151] RDS_UTILS::get_rds_cluster_id *)
Definition get_rds_cluster_id (host : str) : str :=
  first_nonempty (cluster_id_with host) AURORA_DNS_PATTERN AURORA_CHINA_DNS_PATTERN.

(** [src/driver/rds_utils.cc:154-160] RDS_UTILS::get_rds_instance_id *)
Definition instance_id_with (host : str) (pat : std_regex) : str :=
  match regex_search host pat with
  | Some m => if (1 <? m_size pat) && bool_decide (m_str m 2 = []) then m_str m 1 else []
  | None => []
  end.

(** [src/driver/rds_utils.cc:153-168] RDS_UTILS::get_rds_instance_id *)
Definition get_rds_instance_id (host : str) : str :=
  first_nonempty (instance_id_with host) AURORA_DNS_PATTERN AURORA_CHINA_DNS_PATTERN.

(** [src/driver/rds_utils.cc:170-179] RDS_UTILS::get_rds_instance_host_pattern *)
Definition instance_host_pattern_with (host : str) (pat : std_regex) : str :=
  match regex_search host pat with
  | Some m => if (4 <? m_size pat) && negb (bool_decide (m_str m 3 = [])) then S!"?." ++ m_str m 3 else []
  | None => []
  end.

(** [src/driver/rds_utils.cc:169-187] RDS_UTILS::get_rds_instance_host_pattern *)
Definition get_rds_instance_host_pattern (host : str) : str :=
  first_nonempty (instance_host_pattern_with host) AURORA_DNS_PATTERN AURORA_CHINA_DNS_PATTERN.

(** [src/driver/rds_utils.cc:190-196] RDS_UTILS::get_rds_region *)
Definition region_with (host : str) (pat : std_regex) : str :=
  match regex_search host pat with
  | Some m => if (4 <? m_size pat) && negb (bool_decide (m_str m 4 = [])) then m_str m 4 else []
  | None => []
  end.

(** [src/driver/rds_utils.cc:189-204] RDS_UTILS::get_rds_region *)
Definition get_rds_region (host : str) : str :=
  first_nonempty (region_with host) AURORA_DNS_PATTERN AURORA_CHINA_DNS_PATTERN.

(** ** The shape of the general pattern *)

(** A literal as a chain of characters. *)
Fixpoint lit (s : str) : regex :=
  match s with
  | [] => REmpty
  | [c] => RChar c
  | c :: s' => RSeq (RChar c) (lit s')
  end.

Definition alnum_class : cclass := CClass false [("a"%char, "z"%char); ("A"%char, "Z"%char); ("0"%char, "9"%char)].
Definition label_class : cclass :=
  CClass false [("a"%char, "z"%char); ("A"%char, "Z"%char); ("0"%char, "9"%char); ("-"%char, "-"%char)].

Definition prefix_re : regex :=
  RAlt (lit "proxy-") (RAlt (lit "cluster-") (RAlt (lit "cluster-ro-") (lit "cluster-custom-"))).

Definition some_of (k : cclass) : regex := RRep 1 None true (RClass k).

Definition dns_re : regex :=
  RSeq (RGroup 1 (RRep 1 None true RAny)) (RSeq (RChar ".")
    (RSeq (RRep 0 (Some 1) true (RGroup 2 prefix_re))
      (RGroup 3 (RSeq (some_of alnum_class) (RSeq (RChar ".")
        (RSeq (RGroup 4 (some_of label_class)) (lit ".rds.amazonaws.com"))))))).

Lemma dns_pattern_shape : AURORA_DNS_PATTERN = StdRegex true dns_re.
Proof. reflexivity. Qed.

Lemma lang_lit s w : lang true (lit s) w ↔ tolower <$> w = tolower <$> s.
Proof.
  revert w. induction s as [|c s IH]; intros w; simpl.
  - split; [by intros ->|]. by destruct w.
  - assert (one_char (char_eqb true c) w ↔ ∃ d, w = [d] ∧ tolower c = tolower d) as Hc.
    { unfold one_char, char_eqb. setoid_rewrite bool_decide_eq_true. done. }
    destruct s as [|c' s].
    { rewrite Hc. split; [intros (d & -> & Hd); csimpl; by rewrite Hd|].
      destruct w as [|d [|??]]; csimpl; intros [=]. by exists d. }
    split.
    + intros (w1 & w2 & -> & (d & -> & Hd%bool_decide_eq_true) & ?%IH). csimpl in *. congruence.
    + destruct w as [|d w]; [done|]. csimpl. intros [= Hd Hw].
      exists [d], w. split_and!; [done|exists d; split; [done|by apply bool_decide_eq_true]|by apply IH].
Qed.

Lemma repeat_one_char ok w :
  (∃ ws, w = concat ws ∧ Forall (one_char ok) ws ∧ rep_count 1 None (length ws)) ↔
  w ≠ [] ∧ Forall (λ c, ok c = true) w.
Proof.
  split.
  - intros (ws & -> & Hws & [Hlo _]). split.
    + destruct ws as [|v ws]; simpl in *; [lia|]. inversion Hws as [|? ? (c & -> & _)]; subst. done.
    + clear Hlo. induction Hws as [|v ws (c & -> & Hc) _ IH]; simpl; [constructor|by constructor].
  - intros [Hne Hw]. exists ((λ c, [c]) <$> w). split_and!.
    + clear Hne Hw. by induction w as [|c w IH]; csimpl; f_equal.
    + apply Forall_fmap. eapply Forall_impl; [exact Hw|]. intros c Hc. by exists c.
    + rewrite length_fmap. split; [destruct w; [done|simpl; lia]|done].
Qed.

Lemma lang_some_of ic k w :
  lang ic (some_of k) w ↔ w ≠ [] ∧ Forall (λ c, in_class ic k c = true) w.
Proof. apply repeat_one_char. Qed.

Lemma lang_some_any ic w :
  lang ic (RRep 1 None true RAny) w ↔ w ≠ [] ∧ Forall (λ c, any_char c = true) w.
Proof. apply repeat_one_char. Qed.

(** The words that the optional second group accepts. *)
Definition prefixes : list str := [S!"proxy-"; S!"cluster-"; S!"cluster-ro-"; S!"cluster-custom-"].
Definition is_prefix (p : str) : Prop := p = [] ∨ tolower <$> p ∈ prefixes.

Lemma lang_prefix_re p : lang true prefix_re p ↔ tolower <$> p ∈ prefixes.
Proof.
  unfold prefix_re. cbn [lang]. rewrite !lang_lit. unfold prefixes. split.
  - intros [H|[H|[H|H]]]; rewrite H; apply (bool_decide_unpack _); vm_compute; done.
  - intros H. repeat (apply elem_of_cons in H as [H|H]); [auto..|by apply not_elem_of_nil in H].
Qed.

(** ** Splitting a host name at its dots *)

Fixpoint fields (s : str) : list str :=
  match s with
  | [] => [[]]
  | c :: s' =>
    if bool_decide (c = "."%char) then [] :: fields s'
    else match fields s' with f :: fs => (c :: f) :: fs | [] => [[c]] end
  end.

Definition dot_free (s : str) : Prop := Forall (λ c, c ≠ "."%char) s.

Lemma fields_not_nil s : fields s ≠ [].
Proof. destruct s as [|c s]; [done|]. simpl. case_bool_decide; [done|]. by destruct (fields s). Qed.

Lemma fields_app a b : fields (a ++ "."%char :: b) = fields a ++ fields b.
Proof.
  induction a as [|c a IH]; [done|]. simpl. case_bool_decide; [by rewrite IH|].
  rewrite IH. by destruct (fields a) as [|f fs] eqn:E; [apply fields_not_nil in E|].
Qed.

Lemma fields_dot b : fields ("."%char :: b) = [] :: fields b.
Proof. done. Qed.

Lemma fields_dot_free s : dot_free s → fields s = [s].
Proof. induction 1 as [|c s Hc _ IH]; [done|]. simpl. by rewrite bool_decide_false, IH. Qed.

Lemma fields_single s f : fields s = [f] → s = f.
Proof.
  revert f. induction s as [|c s IH]; intros f; simpl; [by intros [=]|].
  case_bool_decide; [by intros [= _ ?%fields_not_nil]|].
  destruct (fields s) as [|g [|??]] eqn:E; intros [=]; subst.
  - by destruct (fields_not_nil s).
  - f_equal. auto.
Qed.

(** ** A prefix ends in a dash, a label of letters and digits has none *)

Definition dash_free (s : str) : Prop := Forall (λ c, c ≠ "-"%char) s.

Lemma dash_split p1 x1 p2 x2 :
  (p1 = [] ∨ last p1 = Some "-"%char) → (p2 = [] ∨ last p2 = Some "-"%char) →
  dash_free x1 → dash_free x2 → p1 ++ x1 = p2 ++ x2 → p1 = p2 ∧ x1 = x2.
Proof.
  assert (∀ p x k : str, (p ++ k = [] ∨ last (p ++ k) = Some "-"%char) → dash_free (k ++ x) → k = []) as Haux.
  { intros p x k Hl Hd. destruct k as [|c k] using rev_ind; [done|].
    rewrite app_assoc in Hl. rewrite last_snoc in Hl. apply Forall_app in Hd as [Hd _].
    apply Forall_app in Hd as [_ Hd]. apply Forall_cons in Hd as [Hd _].
    destruct Hl as [Hl|Hl]; [by destruct (p ++ k)|congruence]. }
  intros H1 H2 Hx1 Hx2 Heq. apply app_eq_inv in Heq as [(k & -> & ->)|(k & -> & ->)].
  - assert (k = []) as -> by (by eapply (Haux p2 x1)). by rewrite app_nil_r.
  - assert (k = []) as -> by (by eapply (Haux p1 x2)). by rewrite app_nil_r.
Qed.

Lemma is_prefix_last p : is_prefix p → p = [] ∨ last p = Some "-"%char.
Proof.
  intros [->|H]; [by left|right].
  assert (last (tolower <$> p) = Some "-"%char) as Hl.
  { unfold prefixes in H.
    repeat (apply elem_of_cons in H as [H|H]; [by rewrite H|]). by apply not_elem_of_nil in H. }
  rewrite fmap_last in Hl. apply fmap_Some in Hl as (c & -> & Hc). f_equal.
  by destruct c as [[] [] [] [] [] [] [] []]; vm_compute in Hc.
Qed.

(** What the general pattern reads, with its captures. *)
Definition tail_lit : str := ".rds.amazonaws.com".

Record dns_parts := DnsParts { d_id : str; d_prefix : str; d_label : str; d_region : str; d_tail : str }.

Definition parts_ok (d : dns_parts) : Prop :=
  d_id d ≠ [] ∧ Forall (λ c, any_char c = true) (d_id d) ∧ is_prefix (d_prefix d) ∧
  d_label d ≠ [] ∧ Forall (λ c, in_class true alnum_class c = true) (d_label d) ∧
  d_region d ≠ [] ∧ Forall (λ c, in_class true label_class c = true) (d_region d) ∧
  tolower <$> d_tail d = tail_lit.

Definition group3 (d : dns_parts) : str := d_label d ++ "."%char :: d_region d ++ d_tail d.
Definition join (d : dns_parts) : str := d_id d ++ "."%char :: d_prefix d ++ group3 d.

Definition dns_caps (d : dns_parts) : list (nat * str) :=
  (3, group3 d) :: (4, d_region d) ::
  (if bool_decide (d_prefix d = []) then [] else [(2, d_prefix d)]) ++ [(1, d_id d)].

(** Every match reads a host name of five parts and captures them. *)
Lemma dns_match_parts s st :
  mtch true dns_re (MState 0 s []) st →
  ∃ d, parts_ok d ∧ s = join d ++ rest st ∧ caps st = dns_caps d.
Proof.
  unfold dns_re. intros (s1 & H1 & s2 & H2 & s3 & H3 & s4 & H4 & ->).
  apply mtch_group_inv in H1 as (id & t1 & Hid & Hs & ->); [|done]. apply lang_some_any in Hid as [Hid1 Hid2].
  apply mtch_plain_inv in H2 as (w2 & t2 & (c & -> & Hc%bool_decide_eq_true) & Ht1 & ->); [|done].
  assert (c = "."%char) as -> by (by destruct c as [[] [] [] [] [] [] [] []]; vm_compute in Hc).
  assert (∃ p t3, is_prefix p ∧ t2 = p ++ t3 ∧ rest s3 = t3 ∧
    caps s3 = (if bool_decide (p = []) then [] else [(2, p)]) ++ [(1, id)]) as (p & t3 & Hp & Ht2 & Hs3 & Hc3).
  { apply mtch_opt_inv in H3 as [->|(p & t3 & Hp & Ht2 & ->)%mtch_group_inv]; [|..|done].
    - exists [], t2. split_and!; [by left|done..].
    - apply lang_prefix_re in Hp. exists p, t3. split_and!; [by right|done..|]. simpl.
      rewrite bool_decide_false; [done|]. intros ->. unfold prefixes in Hp.
      repeat (apply elem_of_cons in Hp as [Hp|Hp]; [done|]). by apply not_elem_of_nil in Hp. }
  destruct H4 as (s5 & H5 & s6 & H6 & s7 & H7 & H8).
  apply mtch_plain_inv in H5 as (x & t4 & Hx & Ht3 & ->); [|done]. apply lang_some_of in Hx as [Hx1 Hx2].
  apply mtch_plain_inv in H6 as (w6 & t5 & (c & -> & Hc6%bool_decide_eq_true) & Ht4 & ->); [|done].
  assert (c = "."%char) as -> by (by destruct c as [[] [] [] [] [] [] [] []]; vm_compute in Hc6).
  apply mtch_group_inv in H7 as (reg & t6 & Hreg & Ht5 & ->); [|done]. apply lang_some_of in Hreg as [Hr1 Hr2].
  apply mtch_plain_inv in H8 as (tl & t7 & Htl & Ht6 & ->); [|done]. apply lang_lit in Htl.
  exists (DnsParts id p x reg tl). simpl in *. subst. unfold join, group3, dns_caps. simpl. split_and!.
  - by split_and!.
  - by rewrite Ht3, <- !app_assoc, <- !app_comm_cons, <- !app_assoc, <- !app_comm_cons, <- !app_assoc.
  - rewrite Hc3. do 2 f_equal. unfold consumed. simpl. rewrite Ht3.
    rewrite !length_app. simpl. rewrite !length_app.
    replace (_ - _) with (length (x ++ "."%char :: reg ++ tl)) by (rewrite length_app; simpl; rewrite length_app; lia).
    replace (x ++ "."%char :: reg ++ tl ++ t7) with ((x ++ "."%char :: reg ++ tl) ++ t7)
      by (by rewrite <- app_assoc, <- app_comm_cons, <- app_assoc).
    apply take_app_length.
Qed.

(** ** Host names have one reading *)

(** Field lists of the same host, read from the left: the parts agree. *)
Lemma alnum_dash_free x : Forall (λ c, in_class true alnum_class c = true) x → dash_free x ∧ dot_free x.
Proof.
  intros H. split; (eapply Forall_impl; [exact H|]); intros c Hc ->; by vm_compute in Hc.
Qed.
Lemma label_dot_free x : Forall (λ c, in_class true label_class c = true) x → dot_free x.
Proof. intros H. eapply Forall_impl; [exact H|]. intros c Hc ->. by vm_compute in Hc. Qed.

Lemma lower_dot_free f : dot_free (tolower <$> f) → dot_free f.
Proof.
  unfold dot_free. rewrite Forall_fmap. intros H. eapply Forall_impl; [exact H|].
  simpl. by intros c Hc ->.
Qed.

Lemma tolower_dot c : tolower c = "."%char → c = "."%char.
Proof. destruct c as [[] [] [] [] [] [] [] []]; intros H; by vm_compute in H. Qed.

Lemma prefix_dot_free p : is_prefix p → dot_free p.
Proof.
  intros [->|H]; [constructor|]. apply lower_dot_free. unfold prefixes in H.
  repeat (apply elem_of_cons in H as [H|H]; [rewrite H; apply (bool_decide_unpack _); by vm_compute|]).
  by apply not_elem_of_nil in H.
Qed.

(** The tail of a match spells ".rds.amazonaws.com" up to case. *)
Lemma tail_fields tl t :
  tolower <$> tl = tail_lit →
  ∃ f1 f2 f3, tl = "."%char :: f1 ++ "."%char :: f2 ++ "."%char :: f3 ∧
    (tolower <$> f1 = S!"rds") ∧ (tolower <$> f2 = S!"amazonaws") ∧
    dot_free f3 ∧ fields (tl ++ t) = [[]; f1; f2] ++ fields (f3 ++ t).
Proof.
  intros H.
  change (tolower <$> tl = "."%char :: S!"rds" ++ "."%char :: S!"amazonaws" ++ "."%char :: S!"com") in H.
  apply fmap_cons_inv in H as (c1 & l1 & Hc1 & H & ->). symmetry in H.
  apply fmap_app_inv in H as (f1 & l2 & H1 & H & ->). symmetry in H.
  apply fmap_cons_inv in H as (c2 & l3 & Hc2 & H & ->). symmetry in H.
  apply fmap_app_inv in H as (f2 & l4 & H2 & H & ->). symmetry in H.
  apply fmap_cons_inv in H as (c3 & f3 & Hc3 & H3 & ->).
  symmetry in Hc1, Hc2, Hc3. apply tolower_dot in Hc1 as ->, Hc2 as ->, Hc3 as ->.
  assert (dot_free f1 ∧ dot_free f2 ∧ dot_free f3) as (Hd1 & Hd2 & Hd3).
  { split_and!; apply lower_dot_free; [rewrite <- H1|rewrite <- H2|rewrite <- H3];
      apply (bool_decide_unpack _); by vm_compute. }
  exists f1, f2, f3. split_and!; [done..|].
  rewrite <- !app_comm_cons, <- !app_assoc, <- !app_comm_cons, <- !app_assoc, <- !app_comm_cons.
  rewrite fields_dot, !fields_app, (fields_dot_free f1), (fields_dot_free f2) by done. done.
Qed.

(** The fields of a host name, when its identifier has no dot. *)
Lemma join_fields d t :
  parts_ok d →
  ∃ f1 f2 f3, d_tail d = "."%char :: f1 ++ "."%char :: f2 ++ "."%char :: f3 ∧
    (tolower <$> f1 = S!"rds") ∧ (tolower <$> f2 = S!"amazonaws") ∧ dot_free f3 ∧
    fields (join d ++ t) =
      fields (d_id d) ++ [d_prefix d ++ d_label d; d_region d; f1; f2] ++ fields (f3 ++ t).
Proof.
  intros (_ & _ & Hp & _ & Hx & _ & Hr & Htl).
  destruct (tail_fields _ t Htl) as (f1 & f2 & f3 & Heq & H1 & H2 & H3 & Hf).
  exists f1, f2, f3. split_and!; [done..|].
  assert (join d ++ t = d_id d ++ "."%char :: (d_prefix d ++ d_label d) ++ "."%char :: d_region d ++ d_tail d ++ t) as ->
    by (unfold join, group3; by simplify_list_eq).
  rewrite Heq in Hf |- *. rewrite <- app_comm_cons in Hf |- *. rewrite fields_dot in Hf. injection Hf as Hf.
  rewrite !fields_app, Hf, (fields_dot_free (_ ++ _)), (fields_dot_free (d_region d)); [done|..].
  - by apply label_dot_free.
  - apply Forall_app. split; [by apply prefix_dot_free|by apply alnum_dash_free].
Qed.

(** The reading of a host name whose identifier has no dot is unique, the
    text after the host included. *)
Lemma join_inj d d' t t' :
  parts_ok d → parts_ok d' → dot_free (d_id d) → t = [] ∨ t = S!".cn" →
  d_tail d = tail_lit → join d' ++ t' = join d ++ t → d' = d ∧ t' = t.
Proof.
  intros Hd Hd' Hid Ht Htl Heq.
  destruct (join_fields d t Hd) as (f1 & f2 & f3 & H0 & H1 & H2 & H3 & Hf).
  destruct (join_fields d' t' Hd') as (g1 & g2 & g3 & G0 & G1 & G2 & G3 & Gf).
  rewrite Heq, Hf, (fields_dot_free (d_id d)) in Gf by done. clear Hf.
  assert (∃ fs, fields (f3 ++ t) = f3 :: fs ∧ length fs ≤ 1) as (fs & Hfs & Hlen).
  { destruct Ht as [->| ->]; [exists []|exists [S!"cn"]].
    - rewrite app_nil_r, fields_dot_free by done. split; [done|simpl; lia].
    - simpl. rewrite fields_app, fields_dot_free by done. split; [done|simpl; lia]. }
  rewrite Hfs in Gf.
  destruct (fields (d_id d')) as [|i [|j l]] eqn:Ei; [by apply fields_not_nil in Ei| |].
  - simpl in Gf. injection Gf as Hi Hq Hr _ _ _. apply fields_single in Ei as <-.
    destruct Hd as (_ & _ & Hp & _ & Hx & _), Hd' as (_ & _ & Hp' & _ & Hx' & _ & _ & Htl').
    apply dash_split in Hq as [Hpp Hxx]; [|by first [apply is_prefix_last|apply alnum_dash_free]..].
    assert (∀ e u, join e ++ u = (d_id e ++ "."%char :: d_prefix e ++ d_label e ++ "."%char :: d_region e) ++ d_tail e ++ u) as Hj
      by (intros e u; unfold join, group3; by simplify_list_eq).
    rewrite !Hj, <- Hi, <- Hpp, <- Hxx, <- Hr in Heq. apply app_inv_head in Heq.
    apply app_inj_1 in Heq as [? ->]; [by destruct d, d'; simpl in *; subst|].
    by rewrite <- (length_fmap tolower), Htl', Htl.
  - exfalso. pose proof (f_equal length Gf) as Hl. simpl in Hl. rewrite length_app in Hl. simpl in Hl.
    destruct (fields (g3 ++ t')) as [|u us] eqn:Eu; [by apply fields_not_nil in Eu|]. simpl in Hl.
    destruct l as [|k l]; [|simpl in Hl; lia]. simpl in Gf. injection Gf as _ _ _ _ Hg1 _ _.
    subst g1. rewrite G1 in H2. done.
Qed.

Lemma parts_join_lang d : parts_ok d → lang true dns_re (join d).
Proof.
  intros (H1 & H2 & Hp & H3 & H4 & H5 & H6 & H7). unfold dns_re, join, group3.
  exists (d_id d), ("."%char :: d_prefix d ++ d_label d ++ "."%char :: d_region d ++ d_tail d).
  split_and!; [done|by apply lang_some_any|].
  exists [("."%char)], (d_prefix d ++ d_label d ++ "."%char :: d_region d ++ d_tail d).
  split_and!; [done|by exists "."%char|].
  exists (d_prefix d), (d_label d ++ "."%char :: d_region d ++ d_tail d). split_and!; [done| |].
  { destruct Hp as [->|Hp].
    - exists []. split_and!; [done|constructor|]. unfold rep_count. simpl. lia.
    - exists [d_prefix d]. split_and!; [by rewrite concat_cons, app_nil_r| |].
      + constructor; [by apply lang_prefix_re|constructor].
      + unfold rep_count. simpl. lia. }
  exists (d_label d), ("."%char :: d_region d ++ d_tail d). split_and!; [done|by apply lang_some_of|].
  exists ["."%char], (d_region d ++ d_tail d). split_and!; [done|by exists "."%char|].
  exists (d_region d), (d_tail d). split_and!; [done|by apply lang_some_of|by apply lang_lit].
Qed.

(** Searching a host name finds its five parts. *)
Lemma search_parts d t :
  parts_ok d → dot_free (d_id d) → t = [] ∨ t = S!".cn" → d_tail d = tail_lit →
  ∃ m, regex_search (join d ++ t) AURORA_DNS_PATTERN = Some m ∧
    m_str m 1 = d_id d ∧ m_str m 2 = d_prefix d ∧ m_str m 3 = group3 d ∧ m_str m 4 = d_region d.
Proof.
  intros Hd Hid Ht Htl. rewrite dns_pattern_shape.
  destruct (mtch_complete true dns_re eq_refl (MState 0 (join d ++ t) []) (join d) t (parts_join_lang d Hd) eq_refl)
    as (st & Hst & _).
  destruct (regex_search_front (join d ++ t) (StdRegex true dns_re) st Hst) as (st' & Hs & Hm).
  eexists. split; [exact Hs|].
  apply dns_match_parts in Hm as (d' & Hd' & Heq & Hc). symmetry in Heq.
  apply join_inj in Heq as [-> _]; [|done..].
  unfold to_smatch, m_str. simpl. rewrite Hc. unfold dns_caps. simpl.
  by case_bool_decide as Hp; simpl; [rewrite Hp|].
Qed.

(** ** The parts of a host name are what the driver extracts *)

(** [id.p x.region.rds.amazonaws.com], with [p] one of the endpoint
    prefixes or empty (an instance endpoint). *)
Definition host_name (id p x region : str) : str :=
  id ++ S!"." ++ p ++ x ++ S!"." ++ region ++ S!".rds.amazonaws.com".

Definition is_id (id : str) : Prop := id ≠ [] ∧ Forall (λ c, any_char c = true ∧ c ≠ "."%char) id.
Definition is_label (x : str) : Prop := x ≠ [] ∧ Forall (λ c, in_class true alnum_class c = true) x.
Definition is_region (r : str) : Prop := r ≠ [] ∧ Forall (λ c, in_class true label_class c = true) r.

Lemma host_name_parts id p x region :
  is_id id → is_prefix p → is_label x → is_region region →
  let d := DnsParts id p x region tail_lit in
  parts_ok d ∧ dot_free id ∧ host_name id p x region = join d.
Proof.
  intros [Hid Hid'] Hp [Hx Hx'] [Hr Hr'] d. split; [|split].
  - split_and!; try done. eapply Forall_impl; [exact Hid'|]. by intros c [? _].
  - eapply Forall_impl; [exact Hid'|]. by intros c [_ ?].
  - unfold host_name, join, group3. simpl. unfold tail_lit. by simplify_list_eq.
Qed.

(** The match of [AURORA_DNS_PATTERN] on a host name, possibly followed by ".cn". *)
Lemma host_name_search id p x region t :
  is_id id → is_prefix p → is_label x → is_region region → t = [] ∨ t = S!".cn" →
  ∃ m, regex_search (host_name id p x region ++ t) AURORA_DNS_PATTERN = Some m ∧
    m_str m 1 = id ∧ m_str m 2 = p ∧
    m_str m 3 = x ++ S!"." ++ region ++ S!".rds.amazonaws.com" ∧ m_str m 4 = region.
Proof.
  intros Hid Hp Hx Hr Ht. destruct (host_name_parts id p x region Hid Hp Hx Hr) as (Hok & Hdf & ->).
  by apply search_parts.
Qed.

Lemma app_not_nil {A} (l k : list A) : l ≠ [] → l ++ k ≠ [].
Proof. by destruct l. Qed.

Lemma first_nonempty_l f p1 p2 r : f p1 = r → r ≠ [] → first_nonempty f p1 p2 = r.
Proof. unfold first_nonempty. intros ->. by destruct r. Qed.

(** For every Aurora host name id.px.region.rds.amazonaws.com, whatever
    the case of the endpoint prefix p, the region, the instance host
    pattern, and the instance identifier (no prefix) or the cluster
    identifier (a prefix) extracted by [RDS_UTILS] are the parts the name
    was built from. *)
Theorem rds_host_roundtrip id p x region :
  is_id id → is_prefix p → is_label x → is_region region →
  let host := host_name id p x region in
  get_rds_region host = region ∧
  get_rds_instance_host_pattern host = S!"?." ++ x ++ S!"." ++ region ++ S!".rds.amazonaws.com" ∧
  (p = [] → get_rds_instance_id host = id) ∧
  (p ≠ [] → get_rds_cluster_id host = id).
Proof.
  intros Hid Hp Hx Hr host.
  destruct (host_name_search id p x region [] Hid Hp Hx Hr (or_introl eq_refl)) as (m & Hm & H1 & H2 & H3 & H4).
  rewrite app_nil_r in Hm. destruct Hid as [Hid _], Hx as [Hx _], Hr as [Hr _].
  unfold host, get_rds_region, get_rds_instance_host_pattern, get_rds_instance_id, get_rds_cluster_id.
  split_and!; [| |intros Hp0..]; apply first_nonempty_l;
    unfold region_with, instance_host_pattern_with, instance_id_with, cluster_id_with;
    try rewrite Hm, ?H1, ?H2, ?H3, ?H4; simpl; try done.
  - by rewrite bool_decide_false.
  - rewrite bool_decide_false; [done|by apply app_not_nil].
  - by rewrite bool_decide_true.
  - by rewrite bool_decide_false.
Qed.

Lemma rds_host_roundtrip_witness :
  get_rds_region (host_name "db-1" "cluster-RO-" "xyz" "us-east-2") = S!"us-east-2" ∧
  get_rds_cluster_id (host_name "db-1" "cluster-RO-" "xyz" "us-east-2") = S!"db-1".
Proof.
  destruct (rds_host_roundtrip "db-1" "cluster-RO-" "xyz" "us-east-2") as (H1 & _ & _ & H2).
  - split; [done|]. repeat constructor; done.
  - right. by right; right; left.
  - split; [done|]. repeat constructor; done.
  - split; [done|]. repeat constructor; done.
  - split; [exact H1|by apply H2].
Defined.

(** The China form id.x.region.rds.amazonaws.com.cn is captured by the
    general pattern, tried first with [regex_search]: the instance host
    pattern derived from it has lost the ".cn" suffix, so the instance
    endpoints the driver builds from it are not in the cluster's domain. *)
Theorem china_host_pattern_truncated id p x region :
  is_id id → is_prefix p → is_label x → is_region region →
  get_rds_instance_host_pattern (host_name id p x region ++ S!".cn") =
    S!"?." ++ x ++ S!"." ++ region ++ S!".rds.amazonaws.com".
Proof.
  intros Hid Hp Hx Hr.
  destruct (host_name_search id p x region ".cn" Hid Hp Hx Hr (or_intror eq_refl)) as (m & Hm & _ & _ & H3 & _).
  apply first_nonempty_l; [|done]. unfold instance_host_pattern_with.
  rewrite Hm, H3. simpl. rewrite bool_decide_false; [done|by apply app_not_nil, Hx].
Qed.

Lemma china_host_pattern_truncated_witness :
  get_rds_instance_host_pattern (host_name "db" "" "xyz" "cn-north-1" ++ S!".cn") =
    S!"?.xyz.cn-north-1.rds.amazonaws.com".
Proof.
  apply (china_host_pattern_truncated "db" "" "xyz" "cn-north-1").
  - split; [done|]. repeat constructor; done.
  - by left.
  - split; [done|]. repeat constructor; done.
  - split; [done|]. repeat constructor; done.
Defined.

(** ** IPv4 addresses *)

Definition digit_class (a b : ascii) : regex := RClass (CClass false [(a, b)]).

Definition octet_alt (first : ascii) : regex :=
  RAlt (digit_class first "9")
    (RAlt (RSeq (digit_class "1" "9") (digit_class "0" "9"))
      (RAlt (RSeq (RChar "1") (RRep 2 (Some 2) true (digit_class "0" "9")))
        (RAlt (RSeq (RChar "2") (RSeq (digit_class "0" "4") (digit_class "0" "9")))
          (RSeq (RChar "2") (RSeq (RChar "5") (digit_class "0" "5")))))).

Definition ipv4_re (e : regex) : regex :=
  RSeq (RRep 1 (Some 1) true (RGroup 1 (RSeq (RGroup 2 (octet_alt "1")) (RChar "."))))
    (RSeq (RRep 2 (Some 2) true (RGroup 3 (RSeq (RGroup 4 (octet_alt "0")) (RChar "."))))
      (match e with REmpty => RGroup 5 (octet_alt "0") | _ => RSeq (RGroup 5 (octet_alt "0")) e end)).

Lemma ipv4_shape : IPV4_PATTERN = StdRegex false (RSeq RBol (ipv4_re REol)).
Proof. reflexivity. Qed.

(** The words of one to three digits. *)
Definition digits : str := (λ n, digit (N.of_nat n)) <$> seq 0 10.
Definition digit_words : list str :=
  ((λ c, [c]) <$> digits) ++
  (a ← digits; b ← digits; mret [a; b]) ++
  (a ← digits; b ← digits; c ← digits; mret [a; b; c]).

Lemma digit_class_digit a b c :
  in_class false (CClass false [(a, b)]) c = true →
  (48 ≤ N_of_ascii a)%N → (N_of_ascii b ≤ 57)%N → c ∈ digits.
Proof.
  unfold in_class, in_range. simpl. rewrite !orb_false_r. intros [Hc1 Hc2]%andb_true_iff Ha Hb.
  apply N.leb_le in Hc1, Hc2. apply list_elem_of_fmap. exists (N.to_nat (N_of_ascii c - 48)). split.
  - unfold digit. rewrite N2Nat.id. replace (48 + (N_of_ascii c - 48))%N with (N_of_ascii c) by lia.
    by rewrite ascii_N_embedding.
  - apply elem_of_seq. lia.
Qed.

Lemma digits_words a b c :
  a ∈ digits → b ∈ digits → c ∈ digits →
  [a] ∈ digit_words ∧ [a; b] ∈ digit_words ∧ [a; b; c] ∈ digit_words.
Proof.
  intros Ha Hb Hc. unfold digit_words. rewrite !elem_of_app. split_and!.
  - left. apply list_elem_of_fmap. by exists a.
  - right; left. apply list_elem_of_bind. exists a. split; [|done].
    apply list_elem_of_bind. exists b. split; [|done]. by apply list_elem_of_singleton.
  - right; right. apply list_elem_of_bind. exists a. split; [|done].
    apply list_elem_of_bind. exists b. split; [|done].
    apply list_elem_of_bind. exists c. split; [|done]. by apply list_elem_of_singleton.
Qed.

Lemma concat_two (L : str → Prop) w :
  (∃ ws, w = concat ws ∧ Forall L ws ∧ rep_count 2 (Some 2) (length ws)) ↔
  ∃ u v, w = u ++ v ∧ L u ∧ L v.
Proof.
  split.
  - intros (ws & -> & Hws & H1 & H2). destruct ws as [|u [|v [|??]]]; simpl in *; try lia.
    decompose_Forall. exists u, v. by rewrite app_nil_r.
  - intros (u & v & -> & Hu & Hv). exists [u; v]. simpl. rewrite app_nil_r.
    split_and!; [done|by repeat constructor|]. unfold rep_count. simpl. lia.
Qed.

Lemma concat_one (L : str → Prop) w :
  (∃ ws, w = concat ws ∧ Forall L ws ∧ rep_count 1 (Some 1) (length ws)) ↔ L w.
Proof.
  split.
  - intros (ws & -> & Hws & H1 & H2). destruct ws as [|u [|??]]; simpl in *; try lia.
    decompose_Forall. by rewrite app_nil_r.
  - intros Hw. exists [w]. simpl. rewrite app_nil_r.
    split_and!; [done|by repeat constructor|]. unfold rep_count. simpl. lia.
Qed.

Lemma octet_words f w :
  f = "0"%char ∨ f = "1"%char → lang false (octet_alt f) w → w ∈ digit_words.
Proof.
  intros Hf.
  assert (∀ k c, one_char (char_eqb false k) [c] → k ∈ digits → c ∈ digits) as Hch
    by (intros k c (d & [= ->] & <-%bool_decide_eq_true); done).
  assert (∀ a b c, one_char (in_class false (CClass false [(a, b)])) [c] →
    (48 ≤ N_of_ascii a)%N → (N_of_ascii b ≤ 57)%N → c ∈ digits) as Hcl
    by (intros a b c (d & [= ->] & Hd); eauto using digit_class_digit).
  assert ("1"%char ∈ digits ∧ "2"%char ∈ digits ∧ "5"%char ∈ digits) as (H1 & H2 & H5)
    by (split_and!; apply (bool_decide_unpack _); by vm_compute).
  assert (48 ≤ N_of_ascii f)%N by (destruct Hf as [->| ->]; by vm_compute).
  unfold octet_alt. cbn [lang digit_class]. setoid_rewrite concat_two.
  intros [Hw|[Hw|[Hw|[Hw|Hw]]]].
  - destruct Hw as (c & -> & Hc). eapply digits_words; eapply digit_class_digit; eauto; by vm_compute.
  - destruct Hw as (? & ? & -> & (a & -> & Ha) & (b & -> & Hb)).
    eapply (digits_words a b b); eapply digit_class_digit; eauto; by vm_compute.
  - destruct Hw as (? & ? & -> & (a & -> & Ha%bool_decide_eq_true) & (? & ? & -> & (b & -> & Hb) & (c & -> & Hc))).
    subst a. eapply (digits_words "1" b c); [done|eapply digit_class_digit; eauto; by vm_compute..].
  - destruct Hw as (? & ? & -> & (a & -> & Ha%bool_decide_eq_true) & (? & ? & -> & (b & -> & Hb) & (c & -> & Hc))).
    subst a. eapply (digits_words "2" b c); [done|eapply digit_class_digit; eauto; by vm_compute..].
  - destruct Hw as (? & ? & -> & (a & -> & Ha%bool_decide_eq_true) & (? & ? & -> & (b & -> & Hb%bool_decide_eq_true) & (c & -> & Hc))).
    subst a b. eapply (digits_words "2" "5" c); [done|done|eapply digit_class_digit; eauto; by vm_compute].
Qed.

(** Decided by running the matcher on every word of up to three digits. *)
Definition octets (lo : nat) : list str := (λ n, to_string (Z.of_nat n)) <$> seq lo (256 - lo).
Definition octet_check (f : ascii) (lo : nat) : bool :=
  let vs := octets lo in
  forallb (λ w, bool_decide (regex_matches w (StdRegex false (octet_alt f)) = existsb (λ v, bool_decide (w = v)) vs)) digit_words
  && forallb (λ v, bool_decide (v ∈ digit_words)) vs.

Lemma octet_checked : octet_check "0" 0 = true ∧ octet_check "1" 1 = true.
Proof. split; vm_compute; reflexivity. Qed.

Lemma octet_lang f lo w :
  (f = "0"%char ∧ lo = 0) ∨ (f = "1"%char ∧ lo = 1) →
  lang false (octet_alt f) w ↔ ∃ n, lo ≤ n ≤ 255 ∧ w = to_string (Z.of_nat n).
Proof.
  intros Hf. assert (octet_check f lo = true) as Hc
    by (pose proof octet_checked as [H0 H1]; destruct Hf as [[-> ->]|[-> ->]]; [exact H0|exact H1]).
  unfold octet_check in Hc. apply andb_true_iff in Hc as [Hc1 Hc2].
  assert (lo ≤ 1) by (destruct Hf as [[_ ->]|[_ ->]]; lia).
  rewrite forallb_forall in Hc1, Hc2.
  assert (∀ v, v ∈ octets lo ↔ ∃ n, lo ≤ n ≤ 255 ∧ v = to_string (Z.of_nat n)) as Hoct.
  { intros v. unfold octets. rewrite list_elem_of_fmap. setoid_rewrite elem_of_seq.
    split; intros (n & ? & ?); exists n; split; done || lia. }
  assert (w ∈ digit_words → lang false (octet_alt f) w ↔ ∃ n, lo ≤ n ≤ 255 ∧ w = to_string (Z.of_nat n)) as Hmain.
  { intros Hw. specialize (Hc1 w (proj1 (list_elem_of_In _ _) Hw)). apply bool_decide_eq_true in Hc1.
    rewrite <- (regex_matches_lang w (StdRegex false (octet_alt f)) eq_refl), Hc1, existsb_exists.
    setoid_rewrite bool_decide_eq_true. setoid_rewrite <- list_elem_of_In. setoid_rewrite Hoct. split.
    - intros (v & (n & ? & ->) & ->). by exists n.
    - intros (n & ? & ->). eexists. split; [by exists n|done]. }
  split.
  - intros Hl. apply Hmain; [|done]. eapply octet_words; [|exact Hl]. destruct Hf as [[-> _]|[-> _]]; auto.
  - intros Hw. apply Hmain; [|done]. specialize (Hc2 w). eapply bool_decide_eq_true, Hc2.
    by apply list_elem_of_In, Hoct.
Qed.

Lemma lang_dotted ic n a w :
  lang ic (RSeq (RGroup n a) (RChar ".")) w ↔ ∃ u, w = u ++ S!"." ∧ lang ic a u.
Proof.
  simpl. split.
  - intros (u & v & -> & Hu & (c & -> & Hc)). exists u. split; [|done]. do 2 f_equal.
    unfold char_eqb in Hc. destruct ic; apply bool_decide_eq_true in Hc; [|done].
    by apply tolower_dot.
  - intros (u & -> & Hu). exists u, S!".". split_and!; [done..|]. exists "."%char. split; [done|].
    by destruct ic.
Qed.

Lemma mtch_drop_eol ic a b c st st' :
  mtch ic (RSeq a (RSeq b (RSeq c REol))) st st' ∧ rest st' = [] ↔
  mtch ic (RSeq a (RSeq b c)) st st' ∧ rest st' = [].
Proof.
  simpl. split.
  - intros [(s1 & H1 & s2 & H2 & s3 & H3 & -> & H4) H5]. eauto 10.
  - intros [(s1 & H1 & s2 & H2 & H3) H5]. split; [|done]. eauto 15.
Qed.

(** [is_ipv4] accepts exactly the dotted decimals with a first octet in
    1..255 and three octets in 0..255, printed without leading zeros. *)
Theorem is_ipv4_spec host :
  is_ipv4 host = true ↔
  ∃ a b c d, 1 ≤ a ≤ 255 ∧ b ≤ 255 ∧ c ≤ 255 ∧ d ≤ 255 ∧
    host = to_string (Z.of_nat a) ++ S!"." ++ to_string (Z.of_nat b) ++ S!"." ++
           to_string (Z.of_nat c) ++ S!"." ++ to_string (Z.of_nat d).
Proof.
  unfold is_ipv4, regex_matches. rewrite bool_decide_eq_true, regex_match_spec, ipv4_shape. cbn [icase pattern].
  assert ((∃ st, mtch false (RSeq RBol (ipv4_re REol)) (MState 0 host []) st ∧ rest st = []) ↔
    ∃ st, mtch false (ipv4_re REmpty) (MState 0 host []) st ∧ rest st = []) as ->.
  { split; intros (st & Hm & Hr).
    - destruct Hm as (st1 & [-> _] & Hm). exists st. by apply mtch_drop_eol.
    - exists st. split; [|done]. eexists; split; [by split|]. by apply mtch_drop_eol. }
  trans (regex_matches host (StdRegex false (ipv4_re REmpty)) = true).
  { unfold regex_matches. by rewrite bool_decide_eq_true, regex_match_spec. }
  rewrite regex_matches_lang by done. cbn [icase pattern ipv4_re].
  pose proof (λ w, octet_lang "1" 1 w (or_intror (conj eq_refl eq_refl))) as O1.
  pose proof (λ w, octet_lang "0" 0 w (or_introl (conj eq_refl eq_refl))) as O0.
  assert (∀ w, lang false (RRep 1 (Some 1) true (RGroup 1 (RSeq (RGroup 2 (octet_alt "1")) (RChar ".")))) w ↔
    ∃ n, 1 ≤ n ≤ 255 ∧ w = to_string (Z.of_nat n) ++ S!".") as H1.
  { intros w. cbn [lang]. rewrite concat_one.
    setoid_rewrite (lang_dotted false 2 (octet_alt "1")). setoid_rewrite O1.
    naive_solver. }
  assert (∀ w, lang false (RRep 2 (Some 2) true (RGroup 3 (RSeq (RGroup 4 (octet_alt "0")) (RChar ".")))) w ↔
    ∃ m n, m ≤ 255 ∧ n ≤ 255 ∧ w = to_string (Z.of_nat m) ++ S!"." ++ to_string (Z.of_nat n) ++ S!".") as H2.
  { intros w. cbn [lang]. rewrite concat_two. setoid_rewrite (lang_dotted false 4 (octet_alt "0")).
    setoid_rewrite O0. split.
    - intros (? & ? & -> & (? & -> & m & Hm & ->) & (? & -> & n & Hn & ->)).
      exists m, n. split_and!; [lia..|]. by rewrite <- app_assoc.
    - intros (m & n & Hm & Hn & ->). eexists _, _. split; [by rewrite app_assoc|].
      split; eexists; (split; [done|]); eexists; (split; [|done]); lia. }
  cbn [lang]. split.
  - intros (w1 & w2 & -> & (a & Ha & ->)%H1 & (w3 & w4 & -> & (b & c & Hb & Hc & ->)%H2 & (d & Hd & ->)%O0)).
    exists a, b, c, d. split_and!; [lia..|]. by simplify_list_eq.
  - intros (a & b & c & d & Ha & Hb & Hc & Hd & ->).
    exists (to_string (Z.of_nat a) ++ S!"."), ((to_string (Z.of_nat b) ++ S!"." ++ to_string (Z.of_nat c) ++ S!".") ++ to_string (Z.of_nat d)).
    split; [by simplify_list_eq|]. split; [apply H1; eauto|].
    eexists _, _. split; [done|]. split; [apply H2; by exists b, c|].
    apply O0. exists d. split; [lia|done].
Qed.

(** ** Writer and reader endpoints are cluster endpoints *)

Definition endpoint_re (p t : regex) : regex :=
  RSeq (RGroup 1 (RRep 1 None true RAny)) (RSeq (RChar ".") (RSeq (RRep 1 None true (RGroup 2 p)) t)).

Lemma endpoint_mono p p' t w :
  (∀ v, lang true p v → lang true p' v) → lang true (endpoint_re p t) w → lang true (endpoint_re p' t) w.
Proof.
  intros Hp (w1 & w2 & -> & H1 & w3 & w4 & -> & H3 & w5 & w6 & -> & (ws & -> & Hws & Hn) & H6).
  exists w1, (w3 ++ concat ws ++ w6). split_and!; [done..|].
  exists w3, (concat ws ++ w6). split_and!; [done..|].
  exists (concat ws), w6. split_and!; [done| |done]. exists ws. split_and!; [done| |done].
  eapply Forall_impl; [exact Hws|]. apply Hp.
Qed.

(** The five endpoint patterns share their shape and differ in the prefix. *)
Lemma endpoint_shapes :
  ∃ t t',
    AURORA_CLUSTER_PATTERN = StdRegex true (endpoint_re (RAlt (lit "cluster-") (lit "cluster-ro-")) t) ∧
    AURORA_CHINA_CLUSTER_PATTERN = StdRegex true (endpoint_re (RAlt (lit "cluster-") (lit "cluster-ro-")) t') ∧
    AURORA_WRITER_CLUSTER_PATTERN = StdRegex true (endpoint_re (lit "cluster-") t) ∧
    AURORA_CHINA_WRITER_CLUSTER_PATTERN = StdRegex true (endpoint_re (lit "cluster-") t') ∧
    AURORA_READER_CLUSTER_PATTERN = StdRegex true (endpoint_re (lit "cluster-ro-") t) ∧
    AURORA_CHINA_READER_CLUSTER_PATTERN = StdRegex true (endpoint_re (lit "cluster-ro-") t') ∧
    anchor_free t = true ∧ anchor_free t' = true.
Proof. eexists _, _. split_and!; reflexivity. Qed.

(** A writer endpoint and a reader endpoint of a cluster are both
    recognised as cluster endpoints. *)
Theorem writer_or_reader_is_cluster host :
  is_rds_writer_cluster_dns host || is_rds_reader_cluster_dns host = true → is_rds_cluster_dns host = true.
Proof.
  destruct endpoint_shapes as (t & t' & E1 & E2 & E3 & E4 & E5 & E6 & Ht & Ht').
  unfold is_rds_cluster_dns, is_rds_writer_cluster_dns, is_rds_reader_cluster_dns.
  rewrite E1, E2, E3, E4, E5, E6, !orb_true_iff, !regex_matches_lang by (simpl; done).
  intros [[H|H]|[H|H]]; [left|right|left|right]; (eapply endpoint_mono; [|exact H]); intros v Hv; [by left|by left|by right|by right].
Qed.

Lemma writer_or_reader_is_cluster_witness :
  is_rds_cluster_dns "db.cluster-ro-xyz.us-east-2.rds.amazonaws.com" = true.
Proof. apply writer_or_reader_is_cluster. vm_compute. reflexivity. Defined.
