(* ===== verification/Metrics.v ===== *)
(** Performance metrics: the timing histograms of [BASE_METRICS_HOLDER]
    (src/driver/base_metrics_holder.cc), the hit counters, the metrics of one
    cluster and the static tables of [CLUSTER_AWARE_METRICS_CONTAINER].
    Reports (strings with floating point columns) are not modelled. *)

From Stdlib Require Import Floats.SpecFloat.
From S2P Require Import Prelude CppString.

Local Open Scope Z_scope.

(** ** IEEE binary64 *)

Abbreviation double := spec_float.
Definition double_of_Z (z : Z) : double := binary_normalize 53 1024 z 0 false.
Definition dadd : double → double → double := SFadd 53 1024.
Definition dsub : double → double → double := SFsub 53 1024.
Definition ddiv : double → double → double := SFdiv 53 1024.
Definition dmul : double → double → double := SFmul 53 1024.

(** Conversion to an integer truncates towards zero. *)
Definition dtrunc (d : double) : Z :=
  match d with
  | S754_finite s m e =>
    let a := if (0 <=? e) then Z.pos m * 2 ^ e else Z.pos m / 2 ^ (- e) in
    if s then - a else a
  | _ => 0
  end.

(** [src/driver/base_metrics_holder.h:67-67] HISTOGRAM_BUCKETS *)
Definition HISTOGRAM_BUCKETS : nat := 20.

(** [LONG_MAX] on a 64-bit Unix target. *)
Definition LONG_MAX : Z := int64_max.

(** [src/driver/base_metrics_holder.h:66-77] BASE_METRICS_HOLDER *)
Record BASE_METRICS_HOLDER := Holder {
  longest_query_time_ms : Z;
  number_of_queries_issued : Z;
  old_hist_breakpoints : option (list Z);
  old_hist_counts : option (list Z);
  shortest_query_time_ms : Z;
  total_query_time_ms : double;
  perf_metrics_hist_breakpoints : option (list Z);
  perf_metrics_hist_counts : option (list Z)
}.

(** [src/driver/base_metrics_holder.cc:32-32] BASE_METRICS_HOLDER::BASE_METRICS_HOLDER *)
Definition new_holder : BASE_METRICS_HOLDER := Holder 0 0 None None LONG_MAX (double_of_Z 0) None None.

(** ** Histograms *)

(** [src/driver/base_metrics_holder.cc:126-130] BASE_METRICS_HOLDER::create_initial_histogram *)
Definition bucket_size (lower_bound upper_bound : Z) : Z :=
  let d := dmul (ddiv (dsub (double_of_Z upper_bound) (double_of_Z lower_bound)) (double_of_Z 20))
                (ddiv (double_of_Z 5) (double_of_Z 4)) in
  let b := dtrunc d in
  if b <? 1 then 1 else b.

(** [src/driver/base_metrics_holder.cc:125-136] BASE_METRICS_HOLDER::create_initial_histogram *)
Definition create_initial_histogram (lower_bound upper_bound : Z) : list Z :=
  let b := bucket_size lower_bound upper_bound in
  (λ i, lower_bound + Z.of_nat i * b) <$> seq 0 HISTOGRAM_BUCKETS.

(** The bucket that takes a value: the first breakpoint from index 1 on
    that is not below it; values above the last breakpoint go nowhere. *)
Fixpoint find_bucket (i : nat) (bps : list Z) (value : Z) : option nat :=
  match bps with
  | [] => None
  | b :: bps' => if value <=? b then Some (i - 1)%nat else find_bucket (S i) bps' value
  end.

(** [src/driver/base_metrics_holder.cc:149-154] BASE_METRICS_HOLDER::add_to_histogram *)
Definition add_to_counts (counts bps : list Z) (value number_of_times : Z) : list Z :=
  match find_bucket 1 (tail bps) value with
  | Some i => alter (λ c, c + number_of_times) i counts
  | None => counts
  end.

(** [src/driver/base_metrics_holder.cc:138-156] BASE_METRICS_HOLDER::add_to_histogram *)
Definition add_to_histogram (counts : option (list Z)) (bps : list Z) (value number_of_times lo hi : Z) :
    option (list Z) * list Z :=
  match counts with
  | None => (None, create_initial_histogram lo hi)
  | Some cs => (Some (add_to_counts cs bps value number_of_times), bps)
  end.

(** [src/driver/base_metrics_holder.cc:165-173] BASE_METRICS_HOLDER::check_and_create_performance_histogram *)
Definition check_and_create_performance_histogram (h : BASE_METRICS_HOLDER) : list Z * list Z :=
  (default (replicate HISTOGRAM_BUCKETS 0) (perf_metrics_hist_counts h),
   default (replicate HISTOGRAM_BUCKETS 0) (perf_metrics_hist_breakpoints h)).

(** The lower bound both callers pass. *)
Definition current_lower_bound (h : BASE_METRICS_HOLDER) : Z :=
  if shortest_query_time_ms h =? LONG_MAX then 0 else shortest_query_time_ms h.

(** [src/driver/base_metrics_holder.cc:158-163] BASE_METRICS_HOLDER::add_to_performance_histogram *)
Definition add_to_performance_histogram (value number_of_times : Z) (h : BASE_METRICS_HOLDER) : BASE_METRICS_HOLDER :=
  let '(counts, bps) := check_and_create_performance_histogram h in
  let '(counts', bps') := add_to_histogram (Some counts) bps value number_of_times
                            (current_lower_bound h) (longest_query_time_ms h) in
  Holder (longest_query_time_ms h) (number_of_queries_issued h) (old_hist_breakpoints h) (old_hist_counts h)
    (shortest_query_time_ms h) (total_query_time_ms h) (Some bps') counts'.

(** The loop over the saved histogram. *)
Fixpoint readd (counts bps : list Z) (old : list (Z * Z)) : list Z :=
  match old with
  | [] => counts
  | (b, c) :: old' => readd (add_to_counts counts bps b c) bps old'
  end.

(** [src/driver/base_metrics_holder.cc:175-193] BASE_METRICS_HOLDER::repartition_histogram *)
Definition repartition_histogram (counts bps : list Z) (lo hi : Z) : list Z * list Z :=
  let old_counts := counts in
  let old_bps := bps in
  let bps' := create_initial_histogram lo hi in
  (readd counts bps' (zip old_bps old_counts), bps').

(** [src/driver/base_metrics_holder.cc:195-200] BASE_METRICS_HOLDER::repartition_performance_histogram *)
Definition repartition_performance_histogram (h : BASE_METRICS_HOLDER) : BASE_METRICS_HOLDER :=
  let '(counts, bps) := check_and_create_performance_histogram h in
  let '(counts', bps') := repartition_histogram counts bps (current_lower_bound h) (longest_query_time_ms h) in
  Holder (longest_query_time_ms h) (number_of_queries_issued h) (Some bps) (Some counts)
    (shortest_query_time_ms h) (total_query_time_ms h) (Some bps') (Some counts').

Definition set_longest (q : Z) (h : BASE_METRICS_HOLDER) : BASE_METRICS_HOLDER :=
  Holder q (number_of_queries_issued h) (old_hist_breakpoints h) (old_hist_counts h)
    (shortest_query_time_ms h) (total_query_time_ms h) (perf_metrics_hist_breakpoints h) (perf_metrics_hist_counts h).

(** [src/driver/base_metrics_holder.cc:57-63] BASE_METRICS_HOLDER::register_query_execution_time *)
Definition register_totals (q : Z) (h : BASE_METRICS_HOLDER) : BASE_METRICS_HOLDER :=
  let shortest := if q <? shortest_query_time_ms h then (if q =? 0 then 1 else q) else shortest_query_time_ms h in
  Holder (longest_query_time_ms h) (number_of_queries_issued h + 1) (old_hist_breakpoints h) (old_hist_counts h)
    shortest (dadd (total_query_time_ms h) (double_of_Z q))
    (perf_metrics_hist_breakpoints h) (perf_metrics_hist_counts h).

(** [src/driver/base_metrics_holder.cc:48-64] BASE_METRICS_HOLDER::register_query_execution_time *)
Definition register_query_execution_time (q : Z) (h : BASE_METRICS_HOLDER) : BASE_METRICS_HOLDER :=
  let h1 := if longest_query_time_ms h <? q then repartition_performance_histogram (set_longest q h) else h in
  register_totals q (add_to_performance_histogram q 1 h1).

(** ** Hit counters *)

(** [src/driver/cluster_aware_hit_metrics_holder.h:35-46] CLUSTER_AWARE_HIT_METRICS_HOLDER *)
Record HIT_HOLDER := HitHolder { number_of_reports : Z; number_of_hits : Z }.

(** [src/driver/cluster_aware_hit_metrics_holder.cc:36-41] CLUSTER_AWARE_HIT_METRICS_HOLDER::register_metrics *)
Definition register_hit (is_hit : bool) (h : HIT_HOLDER) : HIT_HOLDER :=
  HitHolder (number_of_reports h + 1) (if is_hit then number_of_hits h + 1 else number_of_hits h).

(** ** The metrics of one cluster or instance *)

(** [src/driver/cluster_aware_metrics.h:38-60] CLUSTER_AWARE_METRICS *)
Record CLUSTER_AWARE_METRICS := Metrics {
  failure_detection : BASE_METRICS_HOLDER;
  writer_failover_procedure : BASE_METRICS_HOLDER;
  reader_failover_procedure : BASE_METRICS_HOLDER;
  topology_query : BASE_METRICS_HOLDER;
  failover_connects : HIT_HOLDER;
  invalid_initial_connection : HIT_HOLDER;
  use_cached_topology : HIT_HOLDER
}.

(** [src/driver/cluster_aware_metrics.cc:32-32] CLUSTER_AWARE_METRICS::CLUSTER_AWARE_METRICS *)
Definition new_metrics : CLUSTER_AWARE_METRICS :=
  Metrics new_holder new_holder new_holder new_holder (HitHolder 0 0) (HitHolder 0 0) (HitHolder 0 0).

(** The seven measurements. *)
Inductive measurement :=
  | MFailureDetection (ms : Z)
  | MWriterFailover (ms : Z)
  | MReaderFailover (ms : Z)
  | MTopologyQuery (ms : Z)
  | MFailoverConnects (hit : bool)
  | MInvalidInitialConnection (hit : bool)
  | MUseCachedTopology (hit : bool).

(** [src/driver/cluster_aware_metrics.cc:36-62] CLUSTER_AWARE_METRICS::register_failure_detection_time and its siblings *)
Definition register_measurement (m : measurement) (c : CLUSTER_AWARE_METRICS) : CLUSTER_AWARE_METRICS :=
  let 'Metrics fd wf rf tq fc iic uct := c in
  match m with
  | MFailureDetection ms => Metrics (register_query_execution_time ms fd) wf rf tq fc iic uct
  | MWriterFailover ms => Metrics fd (register_query_execution_time ms wf) rf tq fc iic uct
  | MReaderFailover ms => Metrics fd wf (register_query_execution_time ms rf) tq fc iic uct
  | MTopologyQuery ms => Metrics fd wf rf (register_query_execution_time ms tq) fc iic uct
  | MFailoverConnects hit => Metrics fd wf rf tq (register_hit hit fc) iic uct
  | MInvalidInitialConnection hit => Metrics fd wf rf tq fc (register_hit hit iic) uct
  | MUseCachedTopology hit => Metrics fd wf rf tq fc iic (register_hit hit uct)
  end.

(** ** The container and its static tables *)

(** [src/driver/cluster_aware_metrics_container.cc:34-35] CLUSTER_AWARE_METRICS_CONTAINER::cluster_metrics, instance_metrics *)
Record metrics_tables := Tables {
  cluster_metrics : gmap str CLUSTER_AWARE_METRICS;
  instance_metrics : gmap str CLUSTER_AWARE_METRICS
}.

(** [src/driver/cluster_aware_metrics_container.h:40-40] DEFAULT_CLUSTER_ID *)
Definition DEFAULT_CLUSTER_ID : str := "no_id".

(** The two options of the data source that the container reads. *)
Record metrics_options := MOptions { opt_GATHER_PERF_METRICS : bool; opt_GATHER_PERF_METRICS_PER_INSTANCE : bool }.

(** [src/driver/cluster_aware_metrics_container.h:73-76] CLUSTER_AWARE_METRICS_CONTAINER

    [dbc_proxy] is the host and port of the connection when [dbc] and its
    proxy are set, [ds] the options when the data source is set. *)
Record METRICS_CONTAINER := Container {
  can_gather : bool;
  dbc_proxy : option (str * Z);
  ds : option metrics_options;
  mc_cluster_id : str
}.

(** [src/driver/cluster_aware_metrics_container.cc:46-48] CLUSTER_AWARE_METRICS_CONTAINER::set_cluster_id *)
Definition mc_set_cluster_id (id : str) (c : METRICS_CONTAINER) : METRICS_CONTAINER :=
  Container (can_gather c) (dbc_proxy c) (ds c) id.

(** [src/driver/cluster_aware_metrics_container.cc:78-80] CLUSTER_AWARE_METRICS_CONTAINER::set_gather_metric *)
Definition set_gather_metric (gather : bool) (c : METRICS_CONTAINER) : METRICS_CONTAINER :=
  Container gather (dbc_proxy c) (ds c) (mc_cluster_id c).

(** [src/driver/cluster_aware_metrics_container.cc:119-124] CLUSTER_AWARE_METRICS_CONTAINER::is_enabled *)
Definition is_enabled (c : METRICS_CONTAINER) : bool :=
  match ds c with Some o => opt_GATHER_PERF_METRICS o | None => can_gather c end.

(** [src/driver/cluster_aware_metrics_container.cc:126-131] CLUSTER_AWARE_METRICS_CONTAINER::is_instance_metrics_enabled *)
Definition is_instance_metrics_enabled (c : METRICS_CONTAINER) : bool :=
  match ds c with Some o => opt_GATHER_PERF_METRICS_PER_INSTANCE o | None => can_gather c end.

(** [src/driver/cluster_aware_metrics_container.cc:133-141] CLUSTER_AWARE_METRICS_CONTAINER::get_cluster_metrics, get_instance_metrics *)
Definition get_metrics (key : str) (t : gmap str CLUSTER_AWARE_METRICS) : CLUSTER_AWARE_METRICS :=
  default new_metrics (t !! key).

(** [src/driver/cluster_aware_metrics_container.cc:143-150] CLUSTER_AWARE_METRICS_CONTAINER::get_curr_conn_url *)
Definition get_curr_conn_url (c : METRICS_CONTAINER) : str :=
  match dbc_proxy c with
  | Some (h, p) => h ++ S!":" ++ to_string p
  | None => "[Unknown Url]"
  end.

(** [src/driver/cluster_aware_metrics_container.cc:152-162] CLUSTER_AWARE_METRICS_CONTAINER::register_metrics *)
Definition register_metrics (c : METRICS_CONTAINER) (m : measurement) (t : metrics_tables) : metrics_tables :=
  if negb (is_enabled c) then t else
  let t1 := Tables (<[mc_cluster_id c := register_measurement m (get_metrics (mc_cluster_id c) (cluster_metrics t))]> (cluster_metrics t))
                   (instance_metrics t) in
  if is_instance_metrics_enabled c then
    let url := get_curr_conn_url c in
    Tables (cluster_metrics t1) (<[url := register_measurement m (get_metrics url (instance_metrics t1))]> (instance_metrics t1))
  else t1.

(** [src/driver/cluster_aware_metrics_container.cc:114-117] CLUSTER_AWARE_METRICS_CONTAINER::reset_metrics *)
Definition reset_metrics (t : metrics_tables) : metrics_tables := Tables ∅ ∅.

(** ** Well-formed histograms *)

Definition zsum (l : list Z) : Z := foldr Z.add 0 l.

#[export] Instance zsum_permutation : Proper ((≡ₚ) ==> (=)) zsum.
Proof. induction 1; simpl; lia. Qed.

(** Both arrays exist together, have one entry per bucket, and the
    breakpoints never decrease. *)
Definition hist_ok (h : BASE_METRICS_HOLDER) : Prop :=
  match perf_metrics_hist_counts h, perf_metrics_hist_breakpoints h with
  | None, None => True
  | Some cs, Some bs =>
    length cs = HISTOGRAM_BUCKETS ∧ length bs = HISTOGRAM_BUCKETS ∧
    (∀ i j x y, (i ≤ j)%nat → bs !! i = Some x → bs !! j = Some y → x ≤ y) ∧ Forall (λ c, 0 ≤ c) cs
  | _, _ => False
  end.

Lemma bucket_size_pos lo hi : 1 ≤ bucket_size lo hi.
Proof.
  unfold bucket_size. cbv zeta. generalize (dtrunc (dmul (ddiv (dsub (double_of_Z hi) (double_of_Z lo)) (double_of_Z 20))
    (ddiv (double_of_Z 5) (double_of_Z 4)))).
  intros b. destruct (Z.ltb_spec b 1); lia.
Qed.

Lemma create_initial_histogram_ok lo hi :
  length (create_initial_histogram lo hi) = HISTOGRAM_BUCKETS ∧
  ∀ i j x y, (i ≤ j)%nat → create_initial_histogram lo hi !! i = Some x →
    create_initial_histogram lo hi !! j = Some y → x ≤ y.
Proof.
  unfold create_initial_histogram. split; [by rewrite length_fmap, length_seq|].
  intros i j x y Hij. rewrite !list_lookup_fmap, !fmap_Some.
  intros (a & [-> _]%lookup_seq & ->) (b & [-> _]%lookup_seq & ->).
  pose proof (bucket_size_pos lo hi). nia.
Qed.

Lemma find_bucket_bound i bps v k :
  find_bucket i bps v = Some k → (1 ≤ i → i - 1 ≤ k ∧ k < i - 1 + length bps)%nat.
Proof.
  revert i. induction bps as [|b bps IH]; intros i; simpl; [done|].
  destruct (v <=? b); intros H; simplify_eq; [lia|]. intros Hi. specialize (IH (S i) H). lia.
Qed.

Lemma length_add_to_counts cs bs v n : length (add_to_counts cs bs v n) = length cs.
Proof. unfold add_to_counts. destruct (find_bucket _ _ _); [apply length_alter|done]. Qed.

Lemma zsum_alter (cs : list Z) i n :
  (i < length cs)%nat → zsum (alter (λ c, c + n) i cs) = zsum cs + n.
Proof.
  revert i. induction cs as [|c cs IH]; intros [|i] Hi; simpl in *; try lia.
  specialize (IH i). simpl in IH. unfold alter in IH. rewrite IH; lia.
Qed.

(** Whether a value falls into one of the buckets. *)
Definition in_histogram (bs : list Z) (v : Z) : bool := bool_decide (is_Some (find_bucket 1 (tail bs) v)).

Lemma zsum_add_to_counts cs bs v n :
  length cs = HISTOGRAM_BUCKETS → length bs = HISTOGRAM_BUCKETS →
  zsum (add_to_counts cs bs v n) = zsum cs + (if in_histogram bs v then n else 0).
Proof.
  intros Hc Hb. unfold add_to_counts, in_histogram.
  destruct (find_bucket 1 (tail bs) v) as [k|] eqn:E; simpl; [|lia].
  apply zsum_alter. apply find_bucket_bound in E; [|lia].
  assert (length (tail bs) = 19)%nat by (destruct bs; simpl in *; [done|by injection Hb]).
  rewrite Hc. unfold HISTOGRAM_BUCKETS. lia.
Qed.

Lemma add_to_counts_nonneg cs bs v n :
  0 ≤ n → Forall (λ c, 0 ≤ c) cs → Forall (λ c, 0 ≤ c) (add_to_counts cs bs v n).
Proof.
  intros Hn Hcs. unfold add_to_counts. destruct (find_bucket _ _ _); [|done].
  apply Forall_alter; [done|]. intros. lia.
Qed.

Lemma readd_ok cs bs old :
  length (readd cs bs old) = length cs ∧
  (Forall (λ p, 0 ≤ p.2) old → Forall (λ c, 0 ≤ c) cs → Forall (λ c, 0 ≤ c) (readd cs bs old)).
Proof.
  revert cs. induction old as [|[b c] old IH]; intros cs; simpl; [done|].
  destruct (IH (add_to_counts cs bs b c)) as [H1 H2]. rewrite length_add_to_counts in H1.
  split; [done|]. intros [? ?]%Forall_cons ?. apply H2; [done|]. by apply add_to_counts_nonneg.
Qed.

Lemma zsum_readd cs bs old :
  length cs = HISTOGRAM_BUCKETS → length bs = HISTOGRAM_BUCKETS →
  zsum (readd cs bs old) = zsum cs + zsum ((λ p, if in_histogram bs p.1 then p.2 else 0) <$> old).
Proof.
  intros Hc Hb. revert cs Hc. induction old as [|[b c] old IH]; intros cs Hc; [rewrite fmap_nil; simpl; lia|].
  rewrite fmap_cons. simpl readd. rewrite IH by (by rewrite length_add_to_counts).
  rewrite zsum_add_to_counts by done. simpl. lia.
Qed.

Lemma hist_ok_created h cs bs :
  hist_ok h → check_and_create_performance_histogram h = (cs, bs) →
  length cs = HISTOGRAM_BUCKETS ∧ length bs = HISTOGRAM_BUCKETS ∧
  (∀ i j x y, (i ≤ j)%nat → bs !! i = Some x → bs !! j = Some y → x ≤ y) ∧ Forall (λ c, 0 ≤ c) cs.
Proof.
  unfold hist_ok, check_and_create_performance_histogram. generalize HISTOGRAM_BUCKETS. intros n.
  destruct (perf_metrics_hist_counts h), (perf_metrics_hist_breakpoints h); intros Hok [= <- <-]; try done.
  simpl default. split; [by rewrite length_replicate|]. split; [by rewrite length_replicate|].
  split; [|by apply Forall_replicate].
  intros i j x y _ [-> _]%lookup_replicate [-> _]%lookup_replicate. lia.
Qed.

Lemma repartition_ok h : hist_ok h → hist_ok (repartition_performance_histogram h).
Proof.
  intros Hok. unfold repartition_performance_histogram.
  destruct (check_and_create_performance_histogram h) as [cs bs] eqn:E.
  destruct (hist_ok_created _ _ _ Hok E) as (Hc & Hb & _ & Hnn). unfold repartition_histogram, hist_ok. simpl.
  destruct (readd_ok cs (create_initial_histogram (current_lower_bound h) (longest_query_time_ms h)) (zip bs cs)) as [H1 H2].
  destruct (create_initial_histogram_ok (current_lower_bound h) (longest_query_time_ms h)) as [H3 H4].
  split_and!; [by rewrite H1|done|done|]. apply H2; [|done].
  apply Forall_forall. intros [b c] Hbc%elem_of_zip_r. by eapply Forall_forall in Hnn.
Qed.

Lemma add_performance_ok v h : hist_ok h → hist_ok (add_to_performance_histogram v 1 h).
Proof.
  intros Hok. unfold add_to_performance_histogram.
  destruct (check_and_create_performance_histogram h) as [cs bs] eqn:E.
  destruct (hist_ok_created _ _ _ Hok E) as (Hc & Hb & Hm & Hnn). unfold hist_ok. simpl.
  split_and!; [by rewrite length_add_to_counts|done|done|]. by apply add_to_counts_nonneg.
Qed.

Lemma set_longest_ok q h : hist_ok h → hist_ok (set_longest q h).
Proof. done. Qed.

Lemma register_ok q h : hist_ok h → hist_ok (register_query_execution_time q h).
Proof.
  intros Hok. unfold register_query_execution_time, register_totals.
  assert (hist_ok (if longest_query_time_ms h <? q then repartition_performance_histogram (set_longest q h) else h)) as H1
    by (destruct (longest_query_time_ms h <? q); [by apply repartition_ok|done]).
  by apply (add_performance_ok q) in H1.
Qed.
#[export] Hint Resolve repartition_ok add_performance_ok register_ok : odbc.

Definition register_all (qs : list Z) (h : BASE_METRICS_HOLDER) : BASE_METRICS_HOLDER :=
  foldl (λ h q, register_query_execution_time q h) h qs.

Lemma repartition_fields h :
  let h' := repartition_performance_histogram h in
  longest_query_time_ms h' = longest_query_time_ms h ∧
  number_of_queries_issued h' = number_of_queries_issued h ∧
  shortest_query_time_ms h' = shortest_query_time_ms h.
Proof. done. Qed.

Lemma register_fields q h :
  let h' := register_query_execution_time q h in
  longest_query_time_ms h' = Z.max (longest_query_time_ms h) q ∧
  number_of_queries_issued h' = number_of_queries_issued h + 1 ∧
  shortest_query_time_ms h' = (if q <? shortest_query_time_ms h then (if q =? 0 then 1 else q) else shortest_query_time_ms h).
Proof.
  unfold register_query_execution_time.
  destruct (Z.ltb_spec (longest_query_time_ms h) q); simpl; split; [lia| |lia|]; done.
Qed.

Lemma register_all_snoc qs q h :
  register_all (qs ++ [q]) h = register_query_execution_time q (register_all qs h).
Proof. unfold register_all. by rewrite foldl_app. Qed.

Lemma foldr_max_snoc l a : 0 ≤ a → foldr Z.max 0 (l ++ [a]) = Z.max (foldr Z.max 0 l) a.
Proof. intros Ha. induction l as [|x l IH]; simpl; lia. Qed.

Lemma foldr_min_snoc l a m : foldr Z.min m (l ++ [a]) = Z.min (foldr Z.min m l) a.
Proof. induction l as [|x l IH]; simpl; lia. Qed.

Lemma foldr_min_ge1 l : 1 ≤ foldr Z.min LONG_MAX (Z.max 1 <$> l).
Proof. induction l as [|x l IH]; [done|]. 
  change (1 ≤ Z.min (Z.max 1 x) (foldr Z.min LONG_MAX (Z.max 1 <$> l))). apply Z.min_glb; [lia|exact IH]. Qed.

(** A timing holder reports the longest time, the number of times and
    the shortest time (a zero counted as one millisecond) of exactly the
    non-negative times registered with it, and its histogram keeps one
    count per bucket and ordered breakpoints. *)
Theorem register_all_summary qs :
  Forall (λ q, 0 ≤ q) qs →
  let h := register_all qs new_holder in
  longest_query_time_ms h = foldr Z.max 0 qs ∧
  number_of_queries_issued h = Z.of_nat (length qs) ∧
  shortest_query_time_ms h = foldr Z.min LONG_MAX ((λ q, Z.max 1 q) <$> qs) ∧
  hist_ok h.
Proof.
  induction qs as [|q qs IH] using rev_ind; intros Hqs; [by split_and!|].
  apply Forall_app in Hqs as [Hqs Hq]. apply Forall_inv in Hq. cbn beta in Hq.
  destruct (IH Hqs) as (H1 & H2 & H3 & H4). rewrite register_all_snoc. cbv zeta.
  destruct (register_fields q (register_all qs new_holder)) as (-> & -> & ->).
  rewrite H1, H2, H3, length_app, foldr_max_snoc by exact Hq.
  split; [done|]. split; [simpl; lia|]. split; [|by apply register_ok].
  rewrite fmap_app. change ((λ q, Z.max 1 q) <$> [q]) with [Z.max 1 q]. rewrite foldr_min_snoc.
  pose proof (foldr_min_ge1 qs) as Hge. revert Hge.
  change (λ q0, Z.max 1 q0) with (Z.max 1). generalize (foldr Z.min LONG_MAX (Z.max 1 <$> qs)). intros m Hge.
  destruct (Z.ltb_spec q m), (Z.eqb_spec q 0). all: lia.
Qed.

Lemma register_all_summary_witness :
  shortest_query_time_ms (register_all [5; 0; 9] new_holder) = 1 ∧ hist_ok (register_all [5; 0; 9] new_holder).
Proof.
  destruct (register_all_summary [5; 0; 9]) as (_ & _ & H & H'); [by repeat (apply Forall_cons_2; [lia|])|].
  split; [exact H|exact H'].
Defined.

(** When a longer time than all before arrives, the histogram is
    repartitioned by adding the old counts to the counters that already
    hold them: the new total is the old total plus every old count whose old
    breakpoint lies inside the new range, so that samples are counted twice. *)
Theorem repartition_recounts h cs bs :
  hist_ok h → check_and_create_performance_histogram h = (cs, bs) →
  let h' := repartition_performance_histogram h in
  let bs' := create_initial_histogram (current_lower_bound h) (longest_query_time_ms h) in
  hist_ok h' ∧ perf_metrics_hist_breakpoints h' = Some bs' ∧
  ∃ cs', perf_metrics_hist_counts h' = Some cs' ∧
    zsum cs' = zsum cs + zsum ((λ p, if in_histogram bs' p.1 then p.2 else 0) <$> zip bs cs).
Proof.
  intros Hok E h' bs'. destruct (hist_ok_created _ _ _ Hok E) as (Hc & Hb & _ & _).
  split; [by apply repartition_ok|]. subst h' bs'. unfold repartition_performance_histogram. rewrite E.
  split; [done|]. exists (readd cs (create_initial_histogram (current_lower_bound h) (longest_query_time_ms h)) (zip bs cs)).
  split; [done|]. apply zsum_readd; [done|]. apply create_initial_histogram_ok.
Qed.

(** Times 1, 2 and 3: the third registration finds a total of 3 already and
    turns it into more than the 3 samples there are. *)
Lemma repartition_recounts_witness :
  let h := set_longest 3 (register_all [1; 2] new_holder) in
  (zsum <$> perf_metrics_hist_counts h) = Some 3 ∧
  (zsum <$> perf_metrics_hist_counts (repartition_performance_histogram h)) = Some 6 ∧
  hist_ok (repartition_performance_histogram h).
Proof.
  assert (hist_ok (set_longest 3 (register_all [1; 2] new_holder))) as Hok
    by (apply set_longest_ok; do 2 apply register_ok; exact I).
  destruct (repartition_recounts _ _ _ Hok eq_refl) as (H & _ & cs' & E & Hs).
  split; [by vm_compute|]. split; [|exact H]. rewrite E. simpl. rewrite Hs. by vm_compute.
Defined.

(** Registering a measurement changes nothing when gathering is off;
    when it is on, it changes exactly the entry of the current cluster and,
    if per-instance gathering is on, the entry of the current host:port. *)
Theorem register_metrics_spec c m t :
  let t' := register_metrics c m t in
  (∀ k, cluster_metrics t' !! k =
        if is_enabled c && bool_decide (k = mc_cluster_id c)
        then Some (register_measurement m (get_metrics k (cluster_metrics t)))
        else cluster_metrics t !! k) ∧
  (∀ k, instance_metrics t' !! k =
        if is_enabled c && is_instance_metrics_enabled c && bool_decide (k = get_curr_conn_url c)
        then Some (register_measurement m (get_metrics k (instance_metrics t)))
        else instance_metrics t !! k).
Proof.
  unfold register_metrics. destruct (is_enabled c); [|done].
  destruct (is_instance_metrics_enabled c); simpl; split; intros k; try done;
    case_bool_decide; subst; by simplify_map_eq.
Qed.
