(* ===== verification/HostInfo.v ===== *)
(** One host of a cluster: [HOST_INFO] (src/driver/host_info.h,
    src/driver/host_info.cc).  The class is a record, its methods are
    functions on the record; objects shared through [shared_ptr] live in the
    store of World.v. *)

From S2P Require Import Prelude CppString RdsUtils.

(** [src/driver/host_info.h:37-37] HOST_STATE *)
Inductive HOST_STATE := UP | DOWN.

#[export] Instance HOST_STATE_eq_dec : EqDecision HOST_STATE.
Proof. solve_decision. Defined.

(** [src/driver/host_info.h:41-79] HOST_INFO *)
Record HOST_INFO := HostInfo {
  hi_host : str;
  hi_host_id : str;
  hi_port : Z;
  host_state : HOST_STATE;
  is_writer : bool;
  session_id : str;
  hi_last_updated : str;
  replica_lag : str;
  instance_name : str
}.

#[export] Instance HOST_INFO_eq_dec : EqDecision HOST_INFO.
Proof. solve_decision. Defined.

(** [src/driver/host_info.h:63-63] HOST_INFO::NO_PORT *)
Definition NO_PORT : Z := -1.

(** [src/driver/host_info.cc:49-54] HOST_INFO::HOST_INFO *)
Definition new_host_state (host : str) (port : Z) (state : HOST_STATE) (writer : bool) : HOST_INFO :=
  HostInfo host (get_rds_instance_id host) port state writer [] [] [] [].

(** [src/driver/host_info.cc:42-47] HOST_INFO::HOST_INFO *)
Definition new_host (host : str) (port : Z) : HOST_INFO := new_host_state host port UP false.

(** [src/driver/host_info.cc:40-40] HOST_INFO::HOST_INFO *)
Definition default_host : HOST_INFO := new_host [] NO_PORT.

(** [src/driver/host_info.cc:61-75] HOST_INFO::get_host, get_host_id, get_port *)
Definition get_host (h : HOST_INFO) : str := hi_host h.
Definition get_host_id (h : HOST_INFO) : str := hi_host_id h.
Definition get_port (h : HOST_INFO) : Z := hi_port h.

(** [src/driver/host_info.h:72-72] HOST_INFO::HOST_PORT_SEPARATOR *)
Definition HOST_PORT_SEPARATOR : str := ":".

(** [src/driver/host_info.cc:80-82] HOST_INFO::get_host_port_pair *)
Definition get_host_port_pair (h : HOST_INFO) : str :=
  get_host h ++ HOST_PORT_SEPARATOR ++ to_string (get_port h).

(** [src/driver/host_info.cc:85-87] HOST_INFO::equal_host_port_pair *)
Definition equal_host_port_pair (h hi : HOST_INFO) : bool :=
  bool_decide (get_host_port_pair h = get_host_port_pair hi).

(** [src/driver/host_info.cc:89-91] HOST_INFO::get_host_state *)
Definition get_host_state (h : HOST_INFO) : HOST_STATE := host_state h.

(** [src/driver/host_info.cc:93-95] HOST_INFO::set_host_state *)
Definition set_host_state (s : HOST_STATE) (h : HOST_INFO) : HOST_INFO :=
  HostInfo (hi_host h) (hi_host_id h) (hi_port h) s (is_writer h) (session_id h) (hi_last_updated h)
    (replica_lag h) (instance_name h).

(** [src/driver/host_info.cc:97-103] HOST_INFO::is_host_up, is_host_down *)
Definition is_host_up (h : HOST_INFO) : bool := bool_decide (host_state h = UP).
Definition is_host_down (h : HOST_INFO) : bool := bool_decide (host_state h = DOWN).

(** [src/driver/host_info.cc:105-107] HOST_INFO::is_host_writer *)
Definition is_host_writer (h : HOST_INFO) : bool := is_writer h.

(** [src/driver/host_info.cc:108-110] HOST_INFO::mark_as_writer *)
Definition mark_as_writer (writer : bool) (h : HOST_INFO) : HOST_INFO :=
  HostInfo (hi_host h) (hi_host_id h) (hi_port h) (host_state h) writer (session_id h) (hi_last_updated h)
    (replica_lag h) (instance_name h).

(** Assignment of the four public members, as [create_host] does it. *)
Definition set_properties (name session updated lag : str) (h : HOST_INFO) : HOST_INFO :=
  HostInfo (hi_host h) (hi_host_id h) (hi_port h) (host_state h) (is_writer h) session updated lag name.

(** [src/driver/host_info.cc:113-115] HOST_INFO::is_host_same *)
Definition is_host_same (h1 h2 : HOST_INFO) : bool := bool_decide (instance_name h1 = instance_name h2).

(** The buffer that prints a host has 1024 bytes; [sprintf] writes past it
    when the text and its terminator do not fit. *)
Definition hostspec_buffer : nat := 1024.

(** [src/driver/host_info.h:81-86] operator<< *)
Definition print_host (h : HOST_INFO) : res str :=
  let text := S!"HostSpec[host=" ++ get_host h ++ S!", port=" ++ to_string (get_port h) ++ S!", " ++
              (if is_host_writer h then S!"WRITER" else S!"READER") ++ S!", " ++ hi_last_updated h ++ S!"]" in
  if length text <? hostspec_buffer then Ok text else UB.

(** ** Facts *)

Lemma host_up_or_down h : is_host_down h = negb (is_host_up h).
Proof. unfold is_host_down, is_host_up. by destruct (host_state h). Qed.

Lemma set_host_state_pair s h : get_host_port_pair (set_host_state s h) = get_host_port_pair h.
Proof. done. Qed.

Lemma set_host_state_writer s h : is_host_writer (set_host_state s h) = is_host_writer h.
Proof. done. Qed.
#[export] Hint Rewrite set_host_state_pair set_host_state_writer : odbc.

(** The host:port text determines both. *)
Lemma host_port_pair_inj h h' :
  get_host_port_pair h = get_host_port_pair h' ↔ hi_host h = hi_host h' ∧ hi_port h = hi_port h'.
Proof.
  unfold get_host_port_pair, get_host, get_port. split; [|by intros [-> ->]].
  assert (∀ z, ":"%char ∉ to_string z) as Hs.
  { intros z Hz. pose proof (to_string_chars z) as H. rewrite Forall_forall in H. by destruct (H _ Hz). }
  intros E. apply (split_last ":"%char) in E as [E1 E2]; [|apply Hs..]. split; [done|]. by apply to_string_inj.
Qed.

Lemma equal_host_port_pair_spec h h' :
  equal_host_port_pair h h' = true ↔ hi_host h = hi_host h' ∧ hi_port h = hi_port h'.
Proof. unfold equal_host_port_pair. by rewrite bool_decide_eq_true, host_port_pair_inj. Qed.
