(* ===== verification/HostList.v ===== *)
(** The server list of a data source, [host[:port],host[:port],...]
    (src/driver/connect.cc): [parse_host_list] and [get_host_info_from_ds]. *)

From S2P Require Import Prelude CppString HostInfo.

Local Open Scope Z_scope.

(** ** [atol] *)

(** The number at the start, 0 when there is none, clamped to [long]. *)
Definition atol (s : str) : Z :=
  match skip_spaces s with
  | "-"%char :: s' => Z.max (- int64_max - 1) (- Z.of_N (digits_value (leading_digits s')))
  | "+"%char :: s' => Z.min int64_max (Z.of_N (digits_value (leading_digits s')))
  | s' => Z.min int64_max (Z.of_N (digits_value (leading_digits s')))
  end.

(** ** [parse_host_list] *)

(** [src/driver/driver.h:303-306] Srv_host_detail *)
Record Srv_host_detail := HostDetail { name : str; port : Z }.

(** The text up to the first of some characters, and the rest from it on:
    [substr] and [find_first_of]. *)
Fixpoint until (stop : ascii → bool) (s : str) : str * str :=
  match s with
  | [] => ([], [])
  | c :: s' => if stop c then ([], s) else let '(a, b) := until stop s' in (c :: a, b)
  end.

Definition is_comma (c : ascii) : bool := bool_decide (c = ","%char).
Definition is_separator (c : ascii) : bool := is_comma c || bool_decide (c = ":"%char).

(** The test of a port text. *)
Definition bad_port (tmp_port : str) : bool :=
  let val := atol tmp_port in
  ((val =? 0) && bool_decide (tmp_port = [])) || (65535 <? val) || (val <? 0).

(** [src/driver/connect.cc:222-275] parse_host_list

    [s] is the part of [hosts] from [pos_i] on; every turn of the loop
    consumes a comma, so the length is fuel enough. *)
Fixpoint parse_from (fuel : nat) (hosts s : str) (default_port : Z) : res (list Srv_host_detail) :=
  match fuel with
  | O => Ok []
  | S fuel' =>
    let more d rest := match rest with
                       | [] => Ok [d]
                       | _ :: s' => l ← parse_from fuel' hosts s' default_port; Ok (d :: l)
                       end in
    let '(host, rest) := until is_separator s in
    match rest with
    | ":"%char :: s' =>
      let '(tmp_port, rest') := until is_comma s' in
      if bad_port tmp_port then Throw (string_error (S!"Invalid port value in " ++ hosts))
      else more (HostDetail host (atol tmp_port)) rest'
    | _ => more (HostDetail host default_port) rest
    end
  end.

(** [src/driver/connect.cc:222-275] parse_host_list *)
Definition parse_host_list (hosts_str : option str) (default_port : Z) : res (list Srv_host_detail) :=
  let hosts := default [] hosts_str in
  parse_from (S (length hosts)) hosts hosts default_port.

(** [src/driver/connect.cc:277-302] get_host_info_from_ds

    The port of a host is an [int]. *)
Definition get_host_info_from_ds (opt_SERVER : option str) (opt_PORT : Z) : res HOST_INFO :=
  match parse_host_list opt_SERVER opt_PORT with
  | Throw (string_error _) => Throw (runtime_error (S!"Invalid server '" ++ default [] opt_SERVER ++ S!"'."))
  | Throw e => Throw e
  | UB => UB
  | Ok [] => Throw (runtime_error "No host was retrieved from the data source.")
  | Ok (h :: _) => Ok (new_host (name h) (to_int32 (port h)))
  end.

(** ** Properties *)

Lemma until_spec stop s a b : until stop s = (a, b) → s = a ++ b ∧ Forall (λ c, stop c = false) a ∧
  match b with [] => True | c :: _ => stop c = true end.
Proof.
  revert a b. induction s as [|c s IH]; intros a b; simpl; [by intros [= <- <-]|].
  destruct (stop c) eqn:E; [by intros [= <- <-]|]. destruct (until stop s) as [a' b'].
  intros [= <- <-]. destruct (IH _ _ eq_refl) as (-> & Ha & Hb). auto.
Qed.

Lemma until_app stop a c b : Forall (λ x, stop x = false) a → stop c = true → until stop (a ++ c :: b) = (a, c :: b).
Proof. induction 1 as [|x a Hx Ha IH]; intros Hc; simpl; [by rewrite Hc|]. by rewrite Hx, IH. Qed.

Lemma until_all stop a : Forall (λ x, stop x = false) a → until stop a = (a, []).
Proof. induction 1 as [|x a Hx Ha IH]; simpl; [done|]. by rewrite Hx, IH. Qed.

Lemma digit_not_special c : is_digit c = true → is_space c = false ∧ c ≠ "-"%char ∧ c ≠ "+"%char ∧ is_comma c = false.
Proof.
  unfold is_digit, is_space, is_comma. intros H. split; [|split; [|split]].
  - apply andb_true_iff in H as [H1%N.leb_le H2]. destruct (N.eqb_spec (N_of_ascii c) 32); [lia|].
    destruct (N.leb_spec (N_of_ascii c) 13); [lia|]. by rewrite andb_false_r.
  - by intros ->.
  - by intros ->.
  - apply bool_decide_eq_false. by intros ->.
Qed.

(** [atol] reads back what [to_string] prints. *)
Lemma atol_to_string n : 0 ≤ n ≤ int64_max → atol (to_string n) = n ∧ to_string n ≠ [] ∧
  Forall (λ c, is_comma c = false) (to_string n).
Proof.
  intros Hn. assert (to_string n = N_to_string (Z.to_N n)) as -> by (destruct n; done || lia).
  destruct (N_to_string_value (Z.to_N n)) as [Hv Hd]. set (s := N_to_string (Z.to_N n)) in *.
  assert (s ≠ []) as Hne.
  { subst s. unfold N_to_string. cbn [pos_digits]. destruct (Z.to_N n <? 10)%N; [done|]. rewrite pos_digits_app.
    intros [_ ?]%app_eq_nil. done. }
  split; [|split; [done|]].
  - unfold atol. destruct s as [|c s]; [done|]. pose proof (Forall_inv Hd) as Hc. simpl in Hc.
    destruct (digit_not_special c Hc) as (Hs & Hm & Hp & _). simpl. rewrite Hs.
    rewrite (leading_digits_all (c :: s) Hd) || idtac.
    assert (Z.min int64_max (Z.of_N (digits_value (leading_digits (c :: s)))) = n) as Hval
      by (rewrite leading_digits_all, Hv by done; lia).
    destruct c as [[] [] [] [] [] [] [] []]; try done; exact Hval.
  - eapply Forall_impl; [exact Hd|]. intros c Hc. by apply digit_not_special.
Qed.

(** ** What a server list is parsed to *)

(** The text of one entry, and of a list of entries. *)
Definition print_detail (d : Srv_host_detail) : str := name d ++ ":" ++ to_string (port d).

Fixpoint print_list (l : list Srv_host_detail) : str :=
  match l with
  | [] => []
  | [d] => print_detail d
  | d :: l' => print_detail d ++ "," ++ print_list l'
  end.

Definition detail_ok (d : Srv_host_detail) : Prop :=
  Forall (λ c, is_separator c = false) (name d) ∧ 0 ≤ port d ≤ 65535.

#[export] Instance detail_ok_dec d : Decision (detail_ok d).
Proof. unfold detail_ok. apply _. Defined.

Lemma port_text_ok p : 0 ≤ p ≤ 65535 → bad_port (to_string p) = false ∧ atol (to_string p) = p.
Proof.
  intros Hp. destruct (atol_to_string p) as (Ha & Hne & _); [unfold int64_max; lia|].
  unfold bad_port. rewrite Ha, (bool_decide_eq_false_2 _ Hne), andb_false_r. split; [|done].
  destruct (Z.ltb_spec 65535 p), (Z.ltb_spec p 0); lia || done.
Qed.

Lemma parse_from_entry fuel hosts d default_port rest :
  detail_ok d → match rest with [] => True | c :: _ => c = ","%char end →
  parse_from (S fuel) hosts (print_detail d ++ rest) default_port =
  match rest with
  | [] => Ok [d]
  | _ :: s' => l ← parse_from fuel hosts s' default_port; Ok (d :: l)
  end.
Proof.
  intros [Hn Hp] Hrest. destruct (port_text_ok _ Hp) as [Hb Ha].
  destruct (atol_to_string (port d)) as (_ & _ & Hc); [unfold int64_max; lia|].
  unfold print_detail. rewrite <- !(assoc_L (++)). cbn [parse_from String.list_ascii_of_string app].
  rewrite (until_app is_separator (name d) ":"%char) by done.
  assert (until is_comma (to_string (port d) ++ rest) = (to_string (port d), rest)) as ->.
  { destruct rest as [|c rest]; [rewrite (right_id_L [] (++)); by apply until_all|subst c; by apply until_app]. }
  rewrite Hb, Ha. by destruct d, rest.
Qed.

Lemma parse_from_print fuel hosts l default_port :
  Forall detail_ok l → l ≠ [] → (length (print_list l) < fuel)%nat →
  parse_from fuel hosts (print_list l) default_port = Ok l.
Proof.
  intros Hl. revert fuel. induction Hl as [|d l Hd Hl IH]; [done|]. intros fuel _ Hf.
  destruct fuel as [|fuel]; [lia|]. destruct l as [|d' l].
  - cbn [print_list]. rewrite <- (right_id_L [] (++) (print_detail d)). by rewrite parse_from_entry.
  - change (print_list (d :: d' :: l)) with (print_detail d ++ ","%char :: print_list (d' :: l)) in *.
    rewrite parse_from_entry by done. rewrite IH; [done..|]. rewrite (length_app (print_detail d)) in Hf. cbn [length] in Hf. lia.
Qed.

(** What holds of an entry of a parsed list. *)
Definition entry_ok (default_port : Z) (d : Srv_host_detail) : Prop :=
  Forall (λ c, is_separator c = false) (name d) ∧ 0 ≤ port d ∧ (port d ≤ 65535 ∨ port d = default_port).

Definition parse_ok (hosts : str) (default_port : Z) (r : res (list Srv_host_detail)) : Prop :=
  match r with
  | Ok l => l ≠ [] ∧ Forall (entry_ok default_port) l
  | Throw e => e = string_error (S!"Invalid port value in " ++ hosts)
  | UB => False
  end.

Lemma parse_from_ok fuel hosts s default_port :
  (length s < fuel)%nat → 0 ≤ default_port → parse_ok hosts default_port (parse_from fuel hosts s default_port).
Proof.
  intros Hf Hd. revert s Hf. induction fuel as [|fuel IH]; [lia|]. intros s Hf. cbn [parse_from].
  destruct (until is_separator s) as [host rest] eqn:E. destruct (until_spec _ _ _ _ E) as (Hs & Hh & Hr).
  assert (∀ d rest', (length rest' ≤ length rest)%nat → entry_ok default_port d → parse_ok hosts default_port
    (match rest' with [] => Ok [d] | _ :: s' => l ← parse_from fuel hosts s' default_port; Ok (d :: l) end)) as Hmore.
  { intros d rest' Hlen Hok. destruct rest' as [|c s']; [split; [done|]; by apply Forall_singleton|].
    assert (length s' < fuel)%nat as Hs' by (rewrite Hs, length_app in Hf; simpl in Hlen; lia).
    specialize (IH s' Hs'). destruct (parse_from fuel hosts s' default_port); simpl; [|done|done].
    destruct IH as [_ IH]. split; [done|]. by constructor. }
  assert (entry_ok default_port (HostDetail host default_port)) as Hdef by (split; [done|]; simpl; auto).
  destruct rest as [|c s']; [exact (Hmore _ [] (le_n _) Hdef)|]. destruct (decide (c = ":"%char)) as [->|Hc].
  - destruct (until is_comma s') as [tmp_port rest'] eqn:E'. destruct (until_spec _ _ _ _ E') as (-> & _ & _).
    destruct (bad_port tmp_port) eqn:Hb; [done|]. unfold bad_port in Hb.
    apply orb_false_iff in Hb as [[_ Hb1%Z.ltb_ge]%orb_false_iff Hb2%Z.ltb_ge].
    apply Hmore; [simpl; rewrite length_app; lia|]. split; simpl; auto.
  - pose proof (Hmore _ (c :: s') (le_n _) Hdef) as Hg.
    destruct c as [[] [] [] [] [] [] [] []]; try exact Hg; done.
Qed.

(** A server list printed as [host:port,host:port,...], with host names
    free of commas and colons and ports that fit 16 bits, is parsed back to
    the same hosts, and the connection goes to the first of them. *)
Theorem host_list_roundtrip l default_port :
  Forall detail_ok l → l ≠ [] →
  parse_host_list (Some (print_list l)) default_port = Ok l ∧
  get_host_info_from_ds (Some (print_list l)) default_port =
    match head l with Some d => Ok (new_host (name d) (to_int32 (port d))) | None => UB end.
Proof.
  intros Hl Hne. assert (parse_host_list (Some (print_list l)) default_port = Ok l) as E
    by (exact (parse_from_print _ _ l default_port Hl Hne (le_n _))).
  split; [done|]. unfold get_host_info_from_ds. rewrite E. by destruct l.
Qed.

Lemma host_list_roundtrip_witness :
  let l := [HostDetail "db-1.example.com" 3306; HostDetail "10.0.0.7" 65535] in
  parse_host_list (Some (S!"db-1.example.com:3306,10.0.0.7:65535")) 3307 = Ok l ∧
  get_host_info_from_ds (Some (S!"db-1.example.com:3306,10.0.0.7:65535")) 3307 = Ok (new_host "db-1.example.com" 3306).
Proof.
  intros l. assert (Forall detail_ok l) as Hl by (apply (bool_decide_unpack _); by vm_compute).
  exact (host_list_roundtrip l 3307 Hl ltac:(discriminate)).
Defined.

(** For every SERVER text and non-negative default port the loop ends:
    either it throws the invalid-port error, or it returns a non-empty list
    whose names hold no separator (so no name is an IPv6 address) and whose
    ports are 16-bit values or the default.  Hence reading the data source
    never reports a missing host: the only error is the invalid server. *)
Theorem host_list_total hosts_str default_port :
  0 ≤ default_port →
  parse_ok (default [] hosts_str) default_port (parse_host_list hosts_str default_port) ∧
  match get_host_info_from_ds hosts_str default_port with
  | Ok h => Forall (λ c, is_separator c = false) (get_host h)
  | Throw e => e = runtime_error (S!"Invalid server '" ++ default [] hosts_str ++ S!"'.")
  | UB => False
  end.
Proof.
  intros Hd. assert (parse_ok (default [] hosts_str) default_port (parse_host_list hosts_str default_port)) as H
    by (apply parse_from_ok; [lia|done]).
  split; [done|]. unfold get_host_info_from_ds. destruct (parse_host_list hosts_str default_port); simpl in H.
  - destruct H as [Hne Ha]. destruct a as [|d l]; [done|]. by destruct (Forall_inv Ha).
  - by subst e.
  - done.
Qed.

Lemma host_list_total_witness :
  parse_host_list (Some (S!"db:70000")) 3306 = Throw (string_error "Invalid port value in db:70000") ∧
  get_host_info_from_ds (Some (S!"2001:db8::1")) 3306 = Ok (new_host "2001" 0) ∧
  get_host_info_from_ds None 3306 = Ok (new_host "" 3306) ∧
  match get_host_info_from_ds None 3306 with
  | Ok h => Forall (λ c, is_separator c = false) (get_host h)
  | Throw e => e = runtime_error (S!"Invalid server '" ++ default [] None ++ S!"'.")
  | UB => False
  end.
Proof.
  split; [by vm_compute|]. split; [by vm_compute|]. split; [by vm_compute|].
  exact (proj2 (host_list_total None 3306 ltac:(lia))).
Defined.

(** A port text that is no number counts as port 0, although the comment
    beside the test says such a text is told from a zero. *)
Lemma port_text_without_number : parse_host_list (Some (S!"db:abc")) 3306 = Ok [HostDetail "db" 0].
Proof. by vm_compute. Qed.
