(* ===== verification/World.v ===== *)
(** The objects of the topology layer and the store they live in.  Every
    object the code shares through a [shared_ptr] is an entry of a heap, a
    [shared_ptr] is the optional location of an entry ([None] is the null
    pointer), and a method is a computation over the store.  The store also
    holds the static variables ([topology_cache], the metrics tables) and the
    clocks, which are streams of readings consumed one per call.

    The mutexes of the code make the operations below atomic; operations of
    different threads interleave only between them. *)

From S2P Require Import Prelude CppString HostInfo Metrics.

Local Open Scope Z_scope.

Abbreviation loc := positive.

(** [src/driver/cluster_topology_info.h:64-76] CLUSTER_TOPOLOGY_INFO

    [std::set<std::string>] is a [gset]: the code inserts, erases and tests
    membership. *)
Record CLUSTER_TOPOLOGY_INFO := Topology {
  current_reader : Z;
  t_last_updated : Z;
  down_hosts : gset str;
  last_used_reader : option loc;
  writers : list loc;
  readers : list loc
}.

(** [src/driver/allowed_and_blocked_hosts.h:39-72] ALLOWED_AND_BLOCKED_HOSTS *)
Record ALLOWED_AND_BLOCKED_HOSTS := AllowedAndBlocked {
  allowed_host_ids : gset str;
  blocked_host_ids : gset str
}.

(** [src/driver/topology_service.h:106-116] TOPOLOGY_SERVICE *)
Record TOPOLOGY_SERVICE := TopologyService {
  refresh_rate_in_ms : Z;
  ts_cluster_id : str;
  cluster_instance_host : option loc;
  ts_metrics_container : loc;
  allowed_and_blocked_hosts : option ALLOWED_AND_BLOCKED_HOSTS
}.

(** The clocks: the n-th reading of [time(0)] in seconds and of
    [steady_clock] in milliseconds. *)
Record clocks := Clocks { time_at : nat → Z; steady_at : nat → Z; ticks : nat }.

Record world := World {
  w_hosts : gmap loc HOST_INFO;
  w_topologies : gmap loc CLUSTER_TOPOLOGY_INFO;
  w_services : gmap loc TOPOLOGY_SERVICE;
  w_containers : gmap loc METRICS_CONTAINER;
  topology_cache : gmap str loc;
  w_tables : metrics_tables;
  w_clocks : clocks
}.

(** ** Heaps *)

Class Stored (T : Type) := {
  heap : world → gmap loc T;
  set_heap : gmap loc T → world → world;
  heap_set_heap m w : heap (set_heap m w) = m;
  set_heap_heap w : set_heap (heap w) w = w
}.

#[export] Program Instance hosts_stored : Stored HOST_INFO := {|
  heap := w_hosts;
  set_heap m w := World m (w_topologies w) (w_services w) (w_containers w) (topology_cache w) (w_tables w) (w_clocks w) |}.
Solve Obligations with by intros; try destruct w.

#[export] Program Instance topologies_stored : Stored CLUSTER_TOPOLOGY_INFO := {|
  heap := w_topologies;
  set_heap m w := World (w_hosts w) m (w_services w) (w_containers w) (topology_cache w) (w_tables w) (w_clocks w) |}.
Solve Obligations with by intros; try destruct w.

#[export] Program Instance services_stored : Stored TOPOLOGY_SERVICE := {|
  heap := w_services;
  set_heap m w := World (w_hosts w) (w_topologies w) m (w_containers w) (topology_cache w) (w_tables w) (w_clocks w) |}.
Solve Obligations with by intros; try destruct w.

#[export] Program Instance containers_stored : Stored METRICS_CONTAINER := {|
  heap := w_containers;
  set_heap m w := World (w_hosts w) (w_topologies w) (w_services w) m (topology_cache w) (w_tables w) (w_clocks w) |}.
Solve Obligations with by intros; try destruct w.

Section HeapOps.
Context {T : Type} `{Stored T}.

(** [std::make_shared<T>]. *)
Definition make_shared (x : T) : M world loc := λ w,
  let p := fresh (dom (heap w)) in (Ok p, set_heap (<[p := x]> (heap w)) w).

(** [*p]. *)
Definition load (p : loc) : M world T := λ w,
  (match heap w !! p with Some x => Ok x | None => UB end, w).

(** Assignment through [p], which must point to an object. *)
Definition update (p : loc) (f : T → T) : M world unit := λ w,
  match heap w !! p with
  | Some x => (Ok tt, set_heap (<[p := f x]> (heap w)) w)
  | None => (UB, w)
  end.
End HeapOps.

(** ** The static variables and the clocks *)

Definition set_cache (c : gmap str loc) (w : world) : world :=
  World (w_hosts w) (w_topologies w) (w_services w) (w_containers w) c (w_tables w) (w_clocks w).
Definition set_tables (t : metrics_tables) (w : world) : world :=
  World (w_hosts w) (w_topologies w) (w_services w) (w_containers w) (topology_cache w) t (w_clocks w).
Definition tick (w : world) : world :=
  World (w_hosts w) (w_topologies w) (w_services w) (w_containers w) (topology_cache w) (w_tables w)
    (Clocks (time_at (w_clocks w)) (steady_at (w_clocks w)) (S (ticks (w_clocks w)))).

(** [time(0)]. *)
Definition time0 : M world Z := λ w, (Ok (time_at (w_clocks w) (ticks (w_clocks w))), tick w).
(** [steady_clock::now()]. *)
Definition steady_now : M world Z := λ w, (Ok (steady_at (w_clocks w) (ticks (w_clocks w))), tick w).

(** The time the next call of [time(0)] returns. *)
Definition next_time (w : world) : Z := time_at (w_clocks w) (ticks (w_clocks w)).

(** Registration with the container at [p]. *)
Definition register_with (p : loc) (m : measurement) : M world unit :=
  c ← load p; modify (λ w, set_tables (register_metrics c m (w_tables w)) w).

(** ** Laws *)

Section HeapLaws.
Context {T : Type} `{Stored T}.

Lemma load_Ok (p : loc) (x : T) w : heap w !! p = Some x → load p w = (Ok x, w).
Proof. unfold load. by intros ->. Qed.

Lemma load_bind {A} (p : loc) (x : T) (k : T → M world A) w :
  heap w !! p = Some x → (load p ≫= k) w = k x w.
Proof. intros Hx. apply bind_Ok. by apply load_Ok. Qed.

Lemma load_bind_None {A} (p : loc) (k : T → M world A) w :
  heap w !! p = None → (load p ≫= k) w = (UB, w).
Proof. intros Hx. unfold mbind, M_bind, load. by rewrite Hx. Qed.

Lemma load_inv (p : loc) (x : T) w w' : load p w = (Ok x, w') → heap w !! p = Some x ∧ w' = w.
Proof. unfold load. destruct (heap w !! p); intros [= -> ->]; done. Qed.

Lemma update_Ok (p : loc) f (x : T) w :
  heap w !! p = Some x → update p f w = (Ok tt, set_heap (<[p := f x]> (heap w)) w).
Proof. unfold update. by intros ->. Qed.

Lemma make_shared_fresh (w : world) : heap w !! fresh (dom (heap (T := T) w)) = None.
Proof. apply not_elem_of_dom. apply is_fresh. Qed.
End HeapLaws.

(** ** Clock readings *)

Definition next_steady (w : world) : Z := steady_at (w_clocks w) (ticks (w_clocks w)).

Lemma time0_bind {A} (k : Z → M world A) w : (time0 ≫= k) w = k (next_time w) (tick w).
Proof. done. Qed.

Lemma steady_now_bind {A} (k : Z → M world A) w : (steady_now ≫= k) w = k (next_steady w) (tick w).
Proof. done. Qed.

(** Registration only touches the metrics tables. *)
Lemma register_with_bind {A} p c m (k : unit → M world A) w :
  w_containers w !! p = Some c →
  (register_with p m ≫= k) w = k tt (set_tables (register_metrics c m (w_tables w)) w).
Proof. intros Hc. unfold register_with. by rewrite bind_assoc, (load_bind p c). Qed.
