(* ===== verification/ClusterTopology.v ===== *)
(** The topology of one cluster: the methods of [CLUSTER_TOPOLOGY_INFO]
    (src/driver/cluster_topology_info.cc) on the object at a location of the
    store, the partition invariant, and the round robin over the readers. *)

From S2P Require Import Prelude CppString HostInfo Metrics World.

Local Open Scope Z_scope.

(** ** Field updates *)

Definition set_readers_writers (ws rs : list loc) (t : CLUSTER_TOPOLOGY_INFO) : CLUSTER_TOPOLOGY_INFO :=
  Topology (current_reader t) (t_last_updated t) (down_hosts t) (last_used_reader t) ws rs.
Definition set_updated (time : Z) (t : CLUSTER_TOPOLOGY_INFO) : CLUSTER_TOPOLOGY_INFO :=
  Topology (current_reader t) time (down_hosts t) (last_used_reader t) (writers t) (readers t).
Definition set_current_reader (i : Z) (t : CLUSTER_TOPOLOGY_INFO) : CLUSTER_TOPOLOGY_INFO :=
  Topology i (t_last_updated t) (down_hosts t) (last_used_reader t) (writers t) (readers t).
Definition set_down_hosts (d : gset str) (t : CLUSTER_TOPOLOGY_INFO) : CLUSTER_TOPOLOGY_INFO :=
  Topology (current_reader t) (t_last_updated t) d (last_used_reader t) (writers t) (readers t).

(** ** Methods *)

(** [src/driver/cluster_topology_info.cc:40-43] get_random_number

    [rand seed] is what [rand()] returns after [srand(seed)]. *)
Definition get_random_number (rand : Z → Z) : M world Z :=
  now ← time0; mret (rand (to_uint32 now)).

(** [src/driver/cluster_topology_info.cc:105-107] CLUSTER_TOPOLOGY_INFO::update_time *)
Definition update_time (this : loc) : M world unit :=
  now ← time0; update this (set_updated now).

(** [src/driver/cluster_topology_info.cc:45-47] CLUSTER_TOPOLOGY_INFO::CLUSTER_TOPOLOGY_INFO *)
Definition new_topology : M world loc :=
  this ← make_shared (Topology (-1) 0 ∅ None [] []);
  update_time this;;
  mret this.

(** The copies of the hosts of a vector. *)
Fixpoint copy_hosts (hs : list loc) : M world (list loc) :=
  match hs with
  | [] => mret []
  | h :: hs' => hi ← load (T := HOST_INFO) h; h' ← make_shared hi; rest ← copy_hosts hs'; mret (h' :: rest)
  end.

(** [src/driver/cluster_topology_info.cc:50-60] CLUSTER_TOPOLOGY_INFO::CLUSTER_TOPOLOGY_INFO *)
Definition copy_topology (src_info : loc) : M world loc :=
  t ← load (T := CLUSTER_TOPOLOGY_INFO) src_info;
  ws ← copy_hosts (writers t);
  rs ← copy_hosts (readers t);
  make_shared (Topology (current_reader t) (t_last_updated t) ∅ (last_used_reader t) ws rs).

(** [src/driver/cluster_topology_info.cc:74-77] CLUSTER_TOPOLOGY_INFO::add_host *)
Definition add_host (this host_info : loc) : M world unit :=
  hi ← load host_info;
  update this (λ t, if is_host_writer hi
                    then set_readers_writers (writers t ++ [host_info]) (readers t) t
                    else set_readers_writers (writers t) (readers t ++ [host_info]) t);;
  update_time this.

(** [vector::erase(find(...))]: the first occurrence goes. *)
Fixpoint erase_first (x : loc) (l : list loc) : list loc :=
  match l with
  | [] => []
  | y :: l' => if decide (x = y) then l' else y :: erase_first x l'
  end.

(** [src/driver/cluster_topology_info.cc:79-90] CLUSTER_TOPOLOGY_INFO::remove_host *)
Definition remove_host (this host_info : loc) : M world unit :=
  update this (λ t, set_readers_writers (erase_first host_info (writers t)) (erase_first host_info (readers t)) t);;
  update_time this.

(** [src/driver/cluster_topology_info.cc:92-94] CLUSTER_TOPOLOGY_INFO::total_hosts *)
Definition total_hosts (t : CLUSTER_TOPOLOGY_INFO) : nat := (length (writers t) + length (readers t))%nat.

(** [src/driver/cluster_topology_info.cc:96-98] CLUSTER_TOPOLOGY_INFO::num_readers *)
Definition num_readers (t : CLUSTER_TOPOLOGY_INFO) : nat := length (readers t).

(** [src/driver/cluster_topology_info.cc:109-115] CLUSTER_TOPOLOGY_INFO::get_writer *)
Definition get_writer (this : loc) : M world loc :=
  t ← load this;
  match writers t with
  | [] => throw (runtime_error "No writer available")
  | w :: _ => mret w
  end.

(** The index [get_next_reader] moves to; [cur >= num] and [%] convert the
    [int] to [size_t]. *)
Definition next_index (rand_value cur : Z) (num : nat) : Z :=
  let n := Z.of_nat num in
  if cur =? -1 then to_int32 (to_size_t rand_value mod n)
  else if n <=? to_size_t cur then to_int32 (to_size_t cur mod n)
  else to_int32 (to_size_t (cur + 1) mod n).

(** [src/driver/cluster_topology_info.cc:117-135] CLUSTER_TOPOLOGY_INFO::get_next_reader *)
Definition get_next_reader (rand : Z → Z) (this : loc) : M world loc :=
  t ← load this;
  match readers t with
  | [] => throw (runtime_error "No reader available")
  | _ =>
    r ← (if current_reader t =? -1 then get_random_number rand else mret 0);
    let i := next_index r (current_reader t) (length (readers t)) in
    update this (set_current_reader i);;
    deref (readers t !! Z.to_nat i)
  end.

(** The message of [get_reader]: [+ i] moves the pointer to the literal, so
    it is a suffix of the text, and undefined outside it. *)
Definition index_message (i : Z) : res str :=
  let msg := S!"No reader available at index " in
  if (0 <=? i) && (i <=? Z.of_nat (length msg)) then Ok (drop (Z.to_nat i) msg) else UB.

(** [src/driver/cluster_topology_info.cc:137-143] CLUSTER_TOPOLOGY_INFO::get_reader *)
Definition get_reader (this : loc) (i : Z) : M world loc :=
  t ← load this;
  if (i <? 0) || (Z.of_nat (length (readers t)) <=? i)
  then msg ← lift (index_message i); throw (runtime_error msg)
  else deref (readers t !! Z.to_nat i).

(** [src/driver/cluster_topology_info.cc:145-151] CLUSTER_TOPOLOGY_INFO::get_readers, get_writers *)
Definition get_readers (t : CLUSTER_TOPOLOGY_INFO) : list loc := readers t.
Definition get_writers (t : CLUSTER_TOPOLOGY_INFO) : list loc := writers t.

(** [src/driver/cluster_topology_info.cc:153-158] CLUSTER_TOPOLOGY_INFO::get_instances *)
Definition get_instances (t : CLUSTER_TOPOLOGY_INFO) : list loc := writers t ++ readers t.

(** [src/driver/cluster_topology_info.cc:160-162] CLUSTER_TOPOLOGY_INFO::get_last_used_reader *)
Definition t_get_last_used_reader (t : CLUSTER_TOPOLOGY_INFO) : option loc := last_used_reader t.

(** [src/driver/cluster_topology_info.cc:164-166] CLUSTER_TOPOLOGY_INFO::set_last_used_reader *)
Definition t_set_last_used_reader (this : loc) (reader : option loc) : M world unit :=
  update this (λ t, Topology (current_reader t) (t_last_updated t) (down_hosts t) reader (writers t) (readers t)).

(** [src/driver/cluster_topology_info.cc:168-171] CLUSTER_TOPOLOGY_INFO::mark_host_down *)
Definition t_mark_host_down (this host : loc) : M world unit :=
  update host (set_host_state DOWN);;
  hi ← load (T := HOST_INFO) host;
  update this (λ t, set_down_hosts ({[get_host_port_pair hi]} ∪ down_hosts t) t).

(** [src/driver/cluster_topology_info.cc:173-176] CLUSTER_TOPOLOGY_INFO::mark_host_up *)
Definition t_mark_host_up (this host : loc) : M world unit :=
  update host (set_host_state UP);;
  hi ← load (T := HOST_INFO) host;
  update this (λ t, set_down_hosts (down_hosts t ∖ {[get_host_port_pair hi]}) t).

(** [src/driver/cluster_topology_info.cc:178-180] CLUSTER_TOPOLOGY_INFO::get_down_hosts *)
Definition t_get_down_hosts (t : CLUSTER_TOPOLOGY_INFO) : gset str := down_hosts t.

(** ** The partition invariant *)

(** The hosts of a topology exist, writers are marked as writers and readers
    are not; what the cache names exists. *)
Definition topology_ok (hosts : gmap loc HOST_INFO) (t : CLUSTER_TOPOLOGY_INFO) : Prop :=
  Forall (λ h, is_host_writer <$> hosts !! h = Some true) (writers t) ∧
  Forall (λ h, is_host_writer <$> hosts !! h = Some false) (readers t).

Definition store_ok (w : world) : Prop :=
  map_Forall (λ _ t, topology_ok (w_hosts w) t) (w_topologies w) ∧
  map_Forall (λ _ p, is_Some (w_topologies w !! p)) (topology_cache w).

(** Hosts stay where they are and keep their role. *)
Definition hosts_grow (h h' : gmap loc HOST_INFO) : Prop :=
  ∀ p, is_Some (h !! p) → is_host_writer <$> h' !! p = is_host_writer <$> h !! p.

Lemma role_grow h h' b l :
  hosts_grow h h' → Forall (λ p, is_host_writer <$> h !! p = Some b) l →
  Forall (λ p, is_host_writer <$> h' !! p = Some b) l.
Proof.
  intros Hg Hl. eapply Forall_impl; [exact Hl|]. intros p Hp. simpl in *. rewrite Hg; [done|].
  by apply fmap_Some in Hp as (? & -> & _).
Qed.

Lemma topology_ok_grow h h' t : hosts_grow h h' → topology_ok h t → topology_ok h' t.
Proof. intros Hg [Hw Hr]. split; by eapply role_grow. Qed.

Lemma hosts_grow_refl h : hosts_grow h h.
Proof. by intros p. Qed.

Lemma hosts_grow_fresh h x : hosts_grow h (<[fresh (dom h) := x]> h).
Proof.
  intros p Hp. destruct (decide (p = fresh (dom h))) as [->|Hne]; [|by rewrite lookup_insert_ne].
  apply elem_of_dom in Hp. by destruct (is_fresh (dom h)).
Qed.

Lemma hosts_grow_alter h p x f :
  h !! p = Some x → is_host_writer (f x) = is_host_writer x → hosts_grow h (<[p := f x]> h).
Proof.
  intros Hx Hf q Hq. destruct (decide (q = p)) as [->|Hne]; [|by rewrite lookup_insert_ne].
  by rewrite lookup_insert_eq, Hx; simpl; rewrite Hf.
Qed.
#[export] Hint Resolve hosts_grow_refl hosts_grow_fresh hosts_grow_alter : odbc.

Lemma store_ok_hosts w h :
  hosts_grow (w_hosts w) h → store_ok w → store_ok (set_heap (Stored := hosts_stored) h w).
Proof.
  intros Hg [Ht Hc]. split; [|exact Hc]. intros p t Hp. eapply topology_ok_grow; [exact Hg|]. by eapply Ht.
Qed.

Lemma store_ok_topology w p t :
  topology_ok (w_hosts w) t → store_ok w → store_ok (set_heap (<[p := t]> (w_topologies w)) w).
Proof.
  intros Ht [Hts Hc]. split; simpl.
  - intros q t' [[<- <-]|[Hne Hq]]%lookup_insert_Some; [done|by eapply Hts].
  - intros k q Hq. rewrite lookup_insert_is_Some'. right. by eapply Hc.
Qed.

Lemma store_ok_tick w : store_ok w → store_ok (tick w).
Proof. done. Qed.
Lemma store_ok_tables t w : store_ok w → store_ok (set_tables t w).
Proof. done. Qed.
#[export] Hint Resolve store_ok_hosts store_ok_topology store_ok_tick store_ok_tables : odbc.

(** *** Every operation keeps it *)

Lemma preserves_time0 : preserves store_ok time0.
Proof. intros w Hw. exact Hw. Qed.
Lemma preserves_steady : preserves store_ok steady_now.
Proof. intros w Hw. exact Hw. Qed.
Lemma preserves_load {T} `{Stored T} p : preserves store_ok (load (T := T) p).
Proof. intros w Hw. exact Hw. Qed.
#[export] Hint Resolve preserves_time0 preserves_steady preserves_load : odbc.

Lemma preserves_register p m : preserves store_ok (register_with p m).
Proof. unfold register_with. solve_preserves. Qed.

Lemma preserves_update_topology p f :
  (∀ w t, store_ok w → topology_ok (w_hosts w) t → topology_ok (w_hosts w) (f t)) → preserves store_ok (update p f).
Proof.
  intros Hf w Hw. unfold update, heap. simpl. destruct (w_topologies w !! p) as [t|] eqn:E; [|done].
  apply store_ok_topology; [|done]. apply Hf; [done|]. by eapply (proj1 Hw).
Qed.

Lemma preserves_update_host p f :
  (∀ hi, is_host_writer (f hi) = is_host_writer hi) → preserves store_ok (update p f).
Proof.
  intros Hf w Hw. unfold update, heap. simpl. destruct (w_hosts w !! p) as [hi|] eqn:E; [|done].
  apply store_ok_hosts; [|done]. eauto with odbc.
Qed.

Lemma preserves_make_host hi : preserves store_ok (make_shared (T := HOST_INFO) hi).
Proof. intros w Hw. apply store_ok_hosts; [apply hosts_grow_fresh|done]. Qed.

Lemma preserves_make_topology t :
  (∀ h, topology_ok h t) → preserves store_ok (make_shared t).
Proof. intros Ht w Hw. apply store_ok_topology; [apply Ht|done]. Qed.
#[export] Hint Resolve preserves_register preserves_make_host : odbc.

Lemma preserves_update_time this : preserves store_ok (update_time this).
Proof. unfold update_time. solve_preserves. by apply preserves_update_topology. Qed.
#[export] Hint Resolve preserves_update_time : odbc.

Lemma preserves_new_topology : preserves store_ok new_topology.
Proof.
  unfold new_topology. solve_preserves. apply preserves_make_topology.
  by intros h.
Qed.

Lemma preserves_add_host this h : preserves store_ok (add_host this h).
Proof.
  intros w Hw. unfold add_host.
  destruct (w_hosts w !! h) as [hi|] eqn:E; [|by rewrite load_bind_None].
  rewrite (load_bind h hi) by done.
  apply bind_at; [|auto with odbc]. unfold update, heap. simpl.
  destruct (w_topologies w !! this) as [t|] eqn:Et; [|done].
  apply store_ok_topology; [|done]. destruct (proj1 Hw _ _ Et) as (H1 & H2).
  destruct (is_host_writer hi) eqn:Ew; split; simpl; try done;
    apply Forall_app; split; try done; apply Forall_singleton; by rewrite E, <- Ew.
Qed.

Lemma Forall_erase_first P x l : Forall P l → Forall P (erase_first x l).
Proof. induction 1; simpl; [done|]. case_decide; [done|by constructor]. Qed.

Lemma preserves_remove_host this h : preserves store_ok (remove_host this h).
Proof.
  unfold remove_host. solve_preserves. apply preserves_update_topology.
  intros w t _ (H1 & H2). split; by apply Forall_erase_first.
Qed.

Lemma preserves_set_reader this r : preserves store_ok (t_set_last_used_reader this r).
Proof. by apply preserves_update_topology. Qed.

Lemma preserves_mark_down this h : preserves store_ok (t_mark_host_down this h).
Proof.
  unfold t_mark_host_down. solve_preserves; [by apply preserves_update_host|by apply preserves_update_topology].
Qed.

Lemma preserves_mark_up this h : preserves store_ok (t_mark_host_up this h).
Proof.
  unfold t_mark_host_up. solve_preserves; [by apply preserves_update_host|by apply preserves_update_topology].
Qed.
#[export] Hint Resolve preserves_new_topology preserves_add_host preserves_remove_host preserves_set_reader
  preserves_mark_down preserves_mark_up : odbc.

Lemma preserves_get_next_reader rand this : preserves store_ok (get_next_reader rand this).
Proof.
  unfold get_next_reader, get_random_number. apply preserves_bind; [auto with odbc|intros t].
  case_match; [solve_preserves|]. apply preserves_bind; [solve_preserves|intros r].
  apply preserves_bind; [|solve_preserves]. by apply preserves_update_topology.
Qed.

(** *** Copies *)

Definition extends (h h' : gmap loc HOST_INFO) : Prop := ∀ p x, h !! p = Some x → h' !! p = Some x.
Definition all_hosts (h : gmap loc HOST_INFO) (l : list loc) : Prop := Forall (λ p, is_Some (h !! p)) l.

(** [l'] holds the values of [l], at locations not in use before. *)
Definition copied (h h' : gmap loc HOST_INFO) (l l' : list loc) : Prop :=
  extends h h' ∧ Forall (λ p, h !! p = None) l' ∧ (λ p, h' !! p) <$> l' = (λ p, h !! p) <$> l.

Lemma extends_all h h' l : extends h h' → all_hosts h l → all_hosts h' l.
Proof. intros He Hl. eapply Forall_impl; [exact Hl|]. intros p [x Hx]. exists x. by apply He. Qed.

Lemma extends_values h h' l : extends h h' → all_hosts h l → (λ p, h' !! p) <$> l = (λ p, h !! p) <$> l.
Proof.
  intros He Hl. apply list_fmap_ext. intros i p Hp.
  destruct (Forall_lookup_1 _ _ _ _ Hl Hp) as [x Hx]. rewrite Hx. by apply He.
Qed.

Lemma extends_grow h h' : extends h h' → hosts_grow h h'.
Proof. intros He p [x Hx]. by rewrite Hx, (He _ _ Hx). Qed.

Lemma extends_fresh h x : extends h (<[fresh (dom h) := x]> h).
Proof.
  intros p y Hp. rewrite lookup_insert_ne; [done|]. intros <-.
  apply (is_fresh (dom h)). by apply elem_of_dom_2 in Hp.
Qed.

Lemma copied_fresh h x p : h !! p = Some x → copied h (<[fresh (dom h) := x]> h) [p] [fresh (dom h)].
Proof.
  intros Hp. split; [apply extends_fresh|]. split.
  - apply Forall_singleton, not_elem_of_dom, is_fresh.
  - rewrite !list_fmap_singleton, lookup_insert_eq, Hp. done.
Qed.

Lemma copied_app h h1 h2 l1 l1' l2 l2' :
  all_hosts h l1 → all_hosts h l2 → copied h h1 l1 l1' → copied h1 h2 l2 l2' → copied h h2 (l1 ++ l2) (l1' ++ l2').
Proof.
  intros Ha1 Ha2 (He1 & Hf1 & Hv1) (He2 & Hf2 & Hv2). split; [intros p x Hp; by apply He2, He1|]. split.
  - apply Forall_app. split; [done|]. eapply Forall_impl; [exact Hf2|]. intros p Hp.
    destruct (h !! p) eqn:E; [|done]. apply He1 in E. congruence.
  - rewrite !fmap_app, Hv2, (extends_values h h1) by done. f_equal.
    rewrite (extends_values h1 h2); [done|done|]. apply Forall_forall. intros p Hp.
    apply list_elem_of_lookup in Hp as [i Hi].
    assert (((λ q, h1 !! q) <$> l1') !! i = Some (h1 !! p)) as Hl by by rewrite list_lookup_fmap, Hi.
    rewrite Hv1, list_lookup_fmap in Hl. apply fmap_Some in Hl as (q & Hq & ->).
    by apply (Forall_lookup_1 _ _ _ _ Ha1 Hq).
Qed.

Lemma copy_hosts_spec hs w :
  all_hosts (w_hosts w) hs →
  ∃ hs' h', copy_hosts hs w = (Ok hs', set_heap (Stored := hosts_stored) h' w) ∧ copied (w_hosts w) h' hs hs'.
Proof.
  revert w. induction hs as [|h hs IH]; intros w Hall; simpl.
  { exists [], (w_hosts w). split; [by destruct w|]. split; [by intros p x|by split]. }
  apply Forall_cons in Hall as [[hi Hh] Hall]. rewrite (load_bind h hi) by done.
  pose proof (copied_fresh (w_hosts w) hi h Hh) as Hc.
  set (w1 := set_heap (<[fresh (dom (w_hosts w)) := hi]> (w_hosts w)) w).
  destruct (IH w1) as (hs' & h' & E & Hc'); [by eapply extends_all; [apply Hc|]|].
  exists (fresh (dom (w_hosts w)) :: hs'), h'. split.
  - erewrite (bind_Ok (make_shared hi)) by done. fold w1. by rewrite (bind_Ok _ _ _ _ _ E).
  - eapply (copied_app _ _ _ [h] [_]); [|done|exact Hc|exact Hc']. apply Forall_singleton. eauto.
Qed.

Lemma topology_ok_all hosts t : topology_ok hosts t → all_hosts hosts (get_instances t).
Proof.
  intros [Hw Hr]. apply Forall_app. split; (eapply Forall_impl; [eassumption|]);
    intros p (x & -> & _)%fmap_Some; eauto.
Qed.

(** The role of a copy is the role of the original. *)
Lemma copied_role h h' l l' b :
  copied h h' l l' → Forall (λ p, is_host_writer <$> h !! p = Some b) l →
  Forall (λ p, is_host_writer <$> h' !! p = Some b) l'.
Proof.
  intros (_ & _ & Hv) Hl. apply Forall_lookup. intros i p Hp.
  assert (((λ q, h' !! q) <$> l') !! i = Some (h' !! p)) as E by by rewrite list_lookup_fmap, Hp.
  rewrite Hv, list_lookup_fmap in E. apply fmap_Some in E as (q & Hq & ->). by apply (Forall_lookup_1 _ _ _ _ Hl Hq).
Qed.

(** Copying a topology makes new host objects with the values of the old
    ones, in the same order and roles, at locations not in use before; the
    time stamp, the index and the last reader are copied, the set of
    down hosts is not.  The copy is well-formed. *)
Theorem copy_topology_spec src w t :
  store_ok w → w_topologies w !! src = Some t →
  ∃ dst t' w', copy_topology src w = (Ok dst, w') ∧ store_ok w' ∧
    w_topologies w' = <[dst := t']> (w_topologies w) ∧ w_topologies w !! dst = None ∧
    copied (w_hosts w) (w_hosts w') (get_instances t) (get_instances t') ∧
    length (writers t') = length (writers t) ∧ length (readers t') = length (readers t) ∧
    current_reader t' = current_reader t ∧ t_last_updated t' = t_last_updated t ∧
    last_used_reader t' = last_used_reader t ∧ down_hosts t' = ∅.
Proof.
  intros Hok Ht. pose proof (proj1 Hok _ _ Ht) as Htok. destruct Htok as [Hw Hr].
  pose proof (topology_ok_all _ _ (conj Hw Hr)) as [Haw Har]%Forall_app.
  destruct (copy_hosts_spec (writers t) w Haw) as (ws & h1 & E1 & Hc1).
  set (w1 := set_heap (Stored := hosts_stored) h1 w) in *.
  destruct (copy_hosts_spec (readers t) w1) as (rs & h2 & E2 & Hc2); [by eapply extends_all; [apply Hc1|]|].
  pose proof (copied_app _ _ _ _ _ _ _ Haw Har Hc1 Hc2) as Hc.
  set (t' := Topology (current_reader t) (t_last_updated t) ∅ (last_used_reader t) ws rs).
  exists (fresh (dom (w_topologies w))), t', (set_heap (<[fresh (dom (w_topologies w)) := t']> (w_topologies w))
    (set_heap (Stored := hosts_stored) h2 w1)).
  assert (length ws = length (writers t)) as Hlw.
  { destruct Hc1 as (_ & _ & Hv). apply (f_equal length) in Hv. by rewrite !length_fmap in Hv. }
  assert (length rs = length (readers t)) as Hlr.
  { destruct Hc2 as (_ & _ & Hv). apply (f_equal length) in Hv. by rewrite !length_fmap in Hv. }
  split; [|split; [|split; [done|split; [|split; [exact Hc|by split_and!]]]]].
  - unfold copy_topology. rewrite (load_bind src t) by done.
    by rewrite (bind_Ok _ _ _ _ _ E1), (bind_Ok _ _ _ _ _ E2).
  - pose proof (extends_grow _ _ (proj1 Hc1)) as Hg1. pose proof (extends_grow _ _ (proj1 Hc2)) as Hg2.
    apply (store_ok_topology (set_heap (Stored := hosts_stored) h2 w1)); [split|].
    + eapply role_grow; [exact Hg2|]. by eapply copied_role.
    + eapply copied_role; [exact Hc2|]. by eapply role_grow.
    + apply store_ok_hosts; [exact Hg2|]. by apply store_ok_hosts.
  - apply not_elem_of_dom, is_fresh.
Qed.

Lemma copy_topology_spec_witness :
  let w := World {[1%positive := new_host_state "h" 3306 UP true]}
             {[1%positive := Topology (-1) 5 {[S!"h:3306"]} None [1%positive] []]} ∅ ∅ ∅ (Tables ∅ ∅)
             (Clocks (λ _, 0) (λ _, 0) 0) in
  ∃ dst t' w', copy_topology 1%positive w = (Ok dst, w') ∧ w_topologies w' !! dst = Some t' ∧
    length (writers t') = 1%nat ∧ down_hosts t' = ∅.
Proof.
  intros w. destruct (copy_topology_spec 1%positive w (Topology (-1) 5 {[S!"h:3306"]} None [1%positive] []))
    as (dst & t' & w' & E & _ & Ht & _ & _ & H1 & _ & _ & _ & _ & H2).
  - split; [|apply map_Forall_empty]. apply map_Forall_singleton. split; [by constructor|constructor].
  - apply lookup_singleton_eq.
  - exists dst, t', w'. rewrite Ht, lookup_insert_eq. by split_and!.
Defined.

Lemma preserves_copy_topology src : preserves store_ok (copy_topology src).
Proof.
  intros w Hw. destruct (w_topologies w !! src) as [t|] eqn:Ht.
  - destruct (copy_topology_spec src w t Hw Ht) as (dst & t' & w' & E & Hok & _). by rewrite E.
  - unfold copy_topology, mbind, M_bind, load, heap. simpl. by rewrite Ht.
Qed.

(** ** The round robin *)

(** [n] calls of [get_next_reader] in a row. *)
Fixpoint next_readers (rand : Z → Z) (this : loc) (n : nat) : M world (list loc) :=
  match n with
  | O => mret []
  | S n' => r ← get_next_reader rand this; rs ← next_readers rand this n'; mret (r :: rs)
  end.

(** What [rand()] promises. *)
Definition rand_range (rand : Z → Z) : Prop := ∀ s, 0 ≤ rand s ≤ int32_max.

Lemma next_index_range r cur num :
  (0 < num)%nat → Z.of_nat num ≤ int32_max → 0 ≤ r ≤ int32_max → -1 ≤ cur ≤ int32_max →
  0 ≤ next_index r cur num < Z.of_nat num.
Proof.
  unfold next_index, int32_max. intros Hn Hm Hr Hc.
  assert (∀ x, to_int32 (x mod Z.of_nat num) = x mod Z.of_nat num ∧ 0 ≤ x mod Z.of_nat num < Z.of_nat num) as H.
  { intros x. pose proof (Z.mod_pos_bound x (Z.of_nat num)). split; [|lia].
    apply to_int32_id. unfold in_int32, int32_min, int32_max. lia. }
  destruct (cur =? -1); [|destruct (_ <=? _)]; match goal with |- context [to_int32 (?x mod _)] =>
    destruct (H x) as [-> ?] end; lia.
Qed.

Lemma next_index_step r cur num :
  0 ≤ cur < Z.of_nat num → Z.of_nat num ≤ int32_max →
  next_index r cur num = (cur + 1) mod Z.of_nat num.
Proof.
  unfold next_index, int32_max. intros Hc Hn.
  destruct (Z.eqb_spec cur (-1)); [lia|]. rewrite !to_size_t_small by lia.
  destruct (Z.leb_spec (Z.of_nat num) cur); [lia|].
  apply to_int32_id. pose proof (Z.mod_pos_bound (cur + 1) (Z.of_nat num)).
  unfold in_int32, int32_min, int32_max. lia.
Qed.

Lemma get_next_reader_run rand this w t :
  rand_range rand → w_topologies w !! this = Some t → (0 < length (readers t))%nat →
  Z.of_nat (length (readers t)) ≤ int32_max → -1 ≤ current_reader t ≤ int32_max →
  ∃ i r w', get_next_reader rand this w = (Ok r, w') ∧ readers t !! Z.to_nat i = Some r ∧
    0 ≤ i < Z.of_nat (length (readers t)) ∧
    (0 ≤ current_reader t < Z.of_nat (length (readers t)) → i = (current_reader t + 1) mod Z.of_nat (length (readers t))) ∧
    w_topologies w' !! this = Some (set_current_reader i t).
Proof.
  intros Hrand Ht Hne Hlen Hcur.
  set (s := if current_reader t =? -1 then rand (to_uint32 (next_time w)) else 0).
  set (w1 := if current_reader t =? -1 then tick w else w).
  set (i := next_index s (current_reader t) (length (readers t))).
  assert (0 ≤ s ≤ int32_max) as Hs.
  { subst s. destruct (current_reader t =? -1); [apply Hrand|]. unfold int32_max. lia. }
  pose proof (next_index_range s (current_reader t) _ Hne Hlen Hs Hcur) as Hi. fold i in Hi.
  destruct (lookup_lt_is_Some_2 (readers t) (Z.to_nat i)) as [r Hr]; [lia|].
  exists i, r, (set_heap (<[this := set_current_reader i t]> (w_topologies w1)) w1).
  split; [|split; [done|split; [done|split]]].
  - unfold get_next_reader. rewrite (load_bind this t) by done. clear Hcur.
    destruct (readers t) as [|r0 rs] eqn:E; [done|].
    assert ((if current_reader t =? -1 then get_random_number rand else mret 0) w = (Ok s, w1)) as Hrn
      by (subst s w1; by destruct (current_reader t =? -1)).
    rewrite (bind_Ok _ _ _ _ _ Hrn). fold i.
    assert (heap w1 !! this = Some t) as Hw1 by (subst w1; by destruct (current_reader t =? -1)).
    rewrite (bind_Ok _ _ _ _ _ (update_Ok this (set_current_reader i) t w1 Hw1)). by rewrite Hr.
  - intros Hc. subst i. by apply next_index_step.
  - simpl. apply lookup_insert_eq.
Qed.

Lemma next_readers_run rand this n w t :
  rand_range rand → w_topologies w !! this = Some t → (0 < length (readers t))%nat →
  Z.of_nat (length (readers t)) ≤ int32_max → 0 ≤ current_reader t < Z.of_nat (length (readers t)) →
  ∃ l w', next_readers rand this n w = (Ok l, w') ∧ length l = n ∧
    ∀ k, (k < n)%nat → l !! k = readers t !! ((Z.to_nat (current_reader t) + 1 + k) `mod` length (readers t))%nat.
Proof.
  intros Hrand. revert w t. induction n as [|n IH]; intros w t Ht Hne Hlen Hcur.
  { exists [], w. split_and!; [done|done|lia]. }
  destruct (get_next_reader_run rand this w t) as (i & r & w1 & E & Hr & Hi & Hstep & Ht1); [done|done|done|done|lia|].
  specialize (Hstep Hcur).
  destruct (IH w1 (set_current_reader i t)) as (l & w2 & E2 & Hl & Hk); [done..|].
  exists (r :: l), w2. split; [|split; [simpl; by rewrite Hl|]].
  { simpl. by rewrite (bind_Ok _ _ _ _ _ E), (bind_Ok _ _ _ _ _ E2). }
  assert (Z.to_nat i = (Z.to_nat (current_reader t) + 1) `mod` length (readers t))%nat as Hin.
  { rewrite Hstep, Z2Nat.inj_mod, Z2Nat.inj_add, Nat2Z.id by lia. done. }
  intros [|k] Hlt; simpl; [by rewrite <- Hr, Hin, Nat.add_0_r|].
  rewrite Hk by lia. simpl. f_equal. rewrite Hin, <- Nat.add_assoc, Nat.Div0.add_mod_idemp_l. done.
Qed.

Lemma rotation_permutation {A} (l : list A) j l' :
  length l' = length l → (j < length l)%nat →
  (∀ k, (k < length l)%nat → l' !! k = l !! ((j + k) `mod` length l)%nat) →
  l' = drop j l ++ take j l.
Proof.
  intros Hlen Hj Hk. apply list_eq_same_length with (length l);
    [rewrite length_app, length_drop, length_take; lia|done|].
  intros k x y Hlt Hx Hy. rewrite Hk in Hx by done.
  destruct (decide (k < length l - j)%nat) as [Hd|Hd].
  - rewrite lookup_app_l, lookup_drop in Hy by (rewrite length_drop; lia).
    rewrite Nat.mod_small in Hx by lia. congruence.
  - rewrite lookup_app_r, length_drop, lookup_take in Hy by (rewrite length_drop; lia).
    rewrite decide_True in Hy by lia.
    rewrite <- (Nat.mod_unique (j + k) (length l) 1 (k - (length l - j))) in Hx by lia. congruence.
Qed.

(** The round robin is fair: as many calls of [get_next_reader] as there
    are readers return every reader, each as often as it is listed, in list
    order from a starting point on; the calls never go out of range. *)
Theorem get_next_reader_round_robin rand this w t :
  rand_range rand → w_topologies w !! this = Some t → (0 < length (readers t))%nat →
  Z.of_nat (length (readers t)) ≤ int32_max → -1 ≤ current_reader t ≤ int32_max →
  ∃ j w', next_readers rand this (length (readers t)) w = (Ok (drop j (readers t) ++ take j (readers t)), w') ∧
    (j < length (readers t))%nat ∧ drop j (readers t) ++ take j (readers t) ≡ₚ readers t.
Proof.
  intros Hrand Ht Hne Hlen Hcur.
  destruct (get_next_reader_run rand this w t) as (i & r & w1 & E & Hr & Hi & _ & Ht1); [done..|].
  remember (length (readers t)) as n eqn:Hn. destruct n as [|n]; [lia|].
  destruct (next_readers_run rand this n w1 (set_current_reader i t)) as (l & w2 & E2 & Hl & Hk);
    [done..|simpl; lia|simpl; lia|simpl; lia|]. simpl in Hk. rewrite <- Hn in *.
  assert (r :: l = drop (Z.to_nat i) (readers t) ++ take (Z.to_nat i) (readers t)) as Heq.
  { apply rotation_permutation; rewrite <- ?Hn; [simpl; lia|lia|].
    intros [|k] Hlt; [rewrite Nat.mod_small by lia; rewrite Nat.add_0_r; by rewrite Hr|].
    change ((r :: l) !! S k) with (l !! k). rewrite Hk by lia. f_equal. f_equal. lia. }
  exists (Z.to_nat i), w2. split; [|split; [lia|]].
  - rewrite <- Heq. simpl. by rewrite (bind_Ok _ _ _ _ _ E), (bind_Ok _ _ _ _ _ E2).
  - rewrite (Permutation_app_comm (drop _ _)). by rewrite take_drop.
Qed.

(** Three readers, [rand()] always 7: the calls start at the second reader. *)
Lemma get_next_reader_round_robin_witness :
  let t := Topology (-1) 5 ∅ None [] [4; 5; 6]%positive in
  let w := World ∅ {[1%positive := t]} ∅ ∅ ∅ (Tables ∅ ∅) (Clocks (λ _, 0) (λ _, 0) 0) in
  ∃ j w', next_readers (λ _, 7) 1%positive 3 w = (Ok (drop j [4; 5; 6]%positive ++ take j [4; 5; 6]%positive), w') ∧ (j < 3)%nat.
Proof.
  intros t w. destruct (get_next_reader_round_robin (λ _, 7) 1%positive w t) as (j & w' & E & Hj & _).
  - intros s. unfold int32_max. lia.
  - apply lookup_singleton_eq.
  - simpl. lia.
  - simpl. unfold int32_max. lia.
  - simpl. unfold int32_max. lia.
  - by exists j, w'.
Defined.

Lemma index_message_in i :
  0 ≤ i ≤ 29 → index_message i = Ok (drop (Z.to_nat i) S!"No reader available at index ").
Proof.
  intros Hi. unfold index_message. change (Z.of_nat _) with 29.
  destruct (Z.leb_spec 0 i), (Z.leb_spec i 29); done || lia.
Qed.

Lemma index_message_out i : i < 0 ∨ 29 < i → index_message i = UB.
Proof.
  intros Hi. unfold index_message. change (Z.of_nat _) with 29.
  destruct (Z.leb_spec 0 i), (Z.leb_spec i 29); done || lia.
Qed.

(** [get_reader] returns the reader at a valid index; at an index from
    the number of readers up to the length of the message it throws, with a
    message that is a suffix of the text and does not name the index (the
    empty string at the end); at other indexes, negative ones among them, the
    code moves a pointer outside its array. *)
Theorem get_reader_cases this i w t :
  w_topologies w !! this = Some t →
  let n := Z.of_nat (length (readers t)) in
  let msg := S!"No reader available at index " in
  (0 ≤ i < n → ∃ r, readers t !! Z.to_nat i = Some r ∧ get_reader this i w = (Ok r, w)) ∧
  (n ≤ i ≤ 29 → ∃ a b, msg = a ++ b ∧ length a = Z.to_nat i ∧ get_reader this i w = (Throw (runtime_error b), w)) ∧
  (i < 0 ∨ n ≤ i ∧ 29 < i → get_reader this i w = (UB, w)).
Proof.
  intros Ht n msg. unfold get_reader. rewrite (load_bind this t) by done. fold n. split; [|split].
  - intros Hi. destruct (Z.ltb_spec i 0); [lia|]. destruct (Z.leb_spec n i); [lia|]. simpl.
    destruct (lookup_lt_is_Some_2 (readers t) (Z.to_nat i)) as [r Hr]; [lia|]. exists r. by rewrite Hr.
  - intros Hi. destruct (Z.leb_spec n i); [|lia]. rewrite orb_true_r, index_message_in by lia.
    exists (take (Z.to_nat i) msg), (drop (Z.to_nat i) msg). split; [by rewrite take_drop|].
    split; [|done]. rewrite length_take. change (length msg) with 29%nat. lia.
  - intros Hi. rewrite index_message_out by lia.
    destruct (Z.ltb_spec i 0), (Z.leb_spec n i); done || lia.
Qed.

Lemma get_reader_cases_witness :
  let t := Topology (-1) 5 ∅ None [] [4; 5]%positive in
  let w := World ∅ {[1%positive := t]} ∅ ∅ ∅ (Tables ∅ ∅) (Clocks (λ _, 0) (λ _, 0) 0) in
  (∃ r, get_reader 1%positive 1 w = (Ok r, w)) ∧ get_reader 1%positive (-1) w = (UB, w).
Proof.
  intros t w. destruct (get_reader_cases 1%positive 1 w t (lookup_singleton_eq _ _)) as (H & _ & _).
  destruct (get_reader_cases 1%positive (-1) w t (lookup_singleton_eq _ _)) as (_ & _ & H').
  split; [|by apply H'; left]. destruct H as (r & _ & H); [simpl; lia|]. by exists r.
Defined.

(** ** What [add_host] does, as an equation *)

Definition with_host (host_info : loc) (hi : HOST_INFO) (t : CLUSTER_TOPOLOGY_INFO) : CLUSTER_TOPOLOGY_INFO :=
  if is_host_writer hi
  then set_readers_writers (writers t ++ [host_info]) (readers t) t
  else set_readers_writers (writers t) (readers t ++ [host_info]) t.

Lemma add_host_run this h hi w t :
  w_hosts w !! h = Some hi → w_topologies w !! this = Some t →
  add_host this h w =
    (Ok tt, tick (set_heap (<[this := set_updated (next_time w) (with_host h hi t)]> (w_topologies w)) w)).
Proof.
  intros Hh Ht. unfold add_host. rewrite (load_bind h hi) by done.
  assert (heap w !! this = Some t) as Ht' by done.
  rewrite (bind_Ok _ _ _ _ _ (update_Ok this (with_host h hi) t w Ht')).
  unfold update_time, mbind, M_bind, time0, update, heap. simpl. rewrite lookup_insert_eq.
  unfold tick, set_heap. simpl. by rewrite insert_insert_eq.
Qed.

Lemma new_topology_run w :
  let p := fresh (dom (w_topologies w)) in
  new_topology w = (Ok p, tick (set_heap (<[p := Topology (-1) (next_time w) ∅ None [] []]> (w_topologies w)) w)).
Proof.
  unfold new_topology, make_shared, update_time, mbind, M_bind, time0, update, heap. simpl.
  rewrite lookup_insert_eq. unfold tick, set_heap, mret, M_ret. simpl. by rewrite insert_insert_eq.
Qed.
