(* ===== verification/TopologyService.v ===== *)
(** The topology service: [TOPOLOGY_SERVICE] (src/driver/topology_service.h,
    src/driver/topology_service.cc), which queries the cluster for its hosts,
    caches the answer per cluster id, filters it by the allowed and blocked
    hosts and marks hosts up and down.  A pure specification of the topology
    query is given and the code is proved to compute it. *)

From S2P Require Import Prelude CppString HostInfo Metrics World ClusterTopology.

Local Open Scope Z_scope.

(** ** The connection *)

(** A row: its columns, [None] for SQL NULL. *)
Abbreviation MYSQL_ROW := (list (option str)).

(** What the service uses of a [CONNECTION_PROXY]: the code [query] returns
    for a statement, and the rows of the stored result, [None] when
    [store_result] returns null. *)
Record TOPOLOGY_CONNECTION := TopologyConnection {
  tc_query : str → Z;
  tc_store_result : str → option (list MYSQL_ROW)
}.

(** [src/driver/topology_service.h:47-53] DEFAULT_REFRESH_RATE_IN_MILLISECONDS, WRITER_SESSION_ID, RETRIEVE_TOPOLOGY_SQL *)
Definition DEFAULT_REFRESH_RATE_IN_MILLISECONDS : Z := 30000.
Definition WRITER_SESSION_ID : str := "MASTER_SESSION_ID".
Definition RETRIEVE_TOPOLOGY_SQL : str :=
  S!"SELECT SERVER_ID, SESSION_ID, LAST_UPDATE_TIMESTAMP, REPLICA_LAG_IN_MILLISECONDS     FROM information_schema.replica_host_status     WHERE time_to_sec(timediff(now(), LAST_UPDATE_TIMESTAMP)) <= 300     ORDER BY LAST_UPDATE_TIMESTAMP DESC".

(** ** Construction and settings *)

(** [src/driver/topology_service.cc:34-45] TOPOLOGY_SERVICE::TOPOLOGY_SERVICE

    [ctime] is the C function. *)
Definition new_topology_service (ctime : Z → str) : M world loc :=
  mc ← make_shared (Container false None None DEFAULT_CLUSTER_ID);
  now ← time0;
  make_shared (TopologyService DEFAULT_REFRESH_RATE_IN_MILLISECONDS (to_string now ++ ctime now) None mc None).

(** [src/driver/topology_service.cc:47-54] TOPOLOGY_SERVICE::TOPOLOGY_SERVICE

    The allowed and blocked hosts are not copied. *)
Definition copy_topology_service (ts : loc) : M world loc :=
  s ← load ts;
  make_shared (TopologyService (refresh_rate_in_ms s) (ts_cluster_id s) (cluster_instance_host s)
    (ts_metrics_container s) None).

(** [src/driver/topology_service.cc:61-65] TOPOLOGY_SERVICE::set_cluster_id *)
Definition set_cluster_id (this : loc) (cid : str) : M world unit :=
  update this (λ s, TopologyService (refresh_rate_in_ms s) cid (cluster_instance_host s) (ts_metrics_container s)
                      (allowed_and_blocked_hosts s));;
  s ← load this;
  update (ts_metrics_container s) (mc_set_cluster_id (ts_cluster_id s)).

(** [src/driver/topology_service.cc:67-79] TOPOLOGY_SERVICE::set_cluster_instance_template *)
Definition set_cluster_instance_template (this host_template : loc) : M world unit :=
  h ← load (T := HOST_INFO) host_template;
  update this (λ s, TopologyService (refresh_rate_in_ms s) (ts_cluster_id s) (Some host_template)
                      (ts_metrics_container s) (allowed_and_blocked_hosts s)).

(** [src/driver/topology_service.cc:81-83] TOPOLOGY_SERVICE::set_refresh_rate *)
Definition set_refresh_rate (this : loc) (refresh_rate : Z) : M world unit :=
  update this (λ s, TopologyService refresh_rate (ts_cluster_id s) (cluster_instance_host s) (ts_metrics_container s)
                      (allowed_and_blocked_hosts s)).

(** [src/driver/topology_service.cc:148-150] TOPOLOGY_SERVICE::set_gather_metric *)
Definition ts_set_gather_metric (this : loc) (can_gather : bool) : M world unit :=
  s ← load this; update (ts_metrics_container s) (set_gather_metric can_gather).

(** [src/driver/topology_service.h:82-84] TOPOLOGY_SERVICE::set_allowed_and_blocked_hosts *)
Definition set_allowed_and_blocked_hosts (this : loc) (hosts : option ALLOWED_AND_BLOCKED_HOSTS) : M world unit :=
  update this (λ s, TopologyService (refresh_rate_in_ms s) (ts_cluster_id s) (cluster_instance_host s)
                      (ts_metrics_container s) hosts).

(** ** The cache *)

(** [src/driver/topology_service.cc:219-233] TOPOLOGY_SERVICE::get_from_cache *)
Definition get_from_cache (this : loc) : M world (option loc) :=
  s ← load this;
  cache ← gets topology_cache;
  match cache !! ts_cluster_id s with
  | None => register_with (ts_metrics_container s) (MUseCachedTopology false);; mret None
  | Some t => register_with (ts_metrics_container s) (MUseCachedTopology true);; mret (Some t)
  end.

(** [src/driver/topology_service.cc:236-249] TOPOLOGY_SERVICE::put_to_cache *)
Definition put_to_cache (this topology_info : loc) : M world unit :=
  s ← load this;
  modify (λ w, set_cache (<[ts_cluster_id s := topology_info]> (topology_cache w)) w).

(** [src/driver/topology_service.cc:152-156] TOPOLOGY_SERVICE::clear_all *)
Definition clear_all : M world unit := modify (set_cache ∅).

(** [src/driver/topology_service.cc:158-162] TOPOLOGY_SERVICE::clear *)
Definition clear (this : loc) : M world unit :=
  s ← load this; modify (λ w, set_cache (delete (ts_cluster_id s) (topology_cache w)) w).

(** [src/driver/topology_service.cc:164-166] TOPOLOGY_SERVICE::get_cached_topology *)
Definition get_cached_topology (this : loc) : M world (option loc) := get_from_cache this.

(** [src/driver/topology_service.cc:260-263] TOPOLOGY_SERVICE::refresh_needed

    Integer division by 1000 truncates. *)
Definition refresh_needed (this : loc) (last_updated : Z) : M world bool :=
  now ← time0;
  s ← load this;
  mret (Z.quot (refresh_rate_in_ms s) 1000 <? now - last_updated).

(** [src/driver/topology_service.cc:85-92] TOPOLOGY_SERVICE::get_last_used_reader *)
Definition get_last_used_reader (this : loc) : M world (option loc) :=
  topology_info ← get_from_cache this;
  match topology_info with
  | None => mret None
  | Some p =>
    t ← load p;
    stale ← refresh_needed this (t_last_updated t);
    if stale : bool then mret None else mret (t_get_last_used_reader t)
  end.

(** [src/driver/topology_service.cc:94-103] TOPOLOGY_SERVICE::set_last_used_reader *)
Definition set_last_used_reader (this : loc) (reader : option loc) : M world unit :=
  match reader with
  | None => mret tt
  | Some _ =>
    topology_info ← get_from_cache this;
    match topology_info with Some p => t_set_last_used_reader p reader | None => mret tt end
  end.

(** [src/driver/topology_service.cc:105-116] TOPOLOGY_SERVICE::get_down_hosts *)
Definition get_down_hosts (this : loc) : M world (gset str) :=
  topology_info ← get_from_cache this;
  match topology_info with Some p => t ← load p; mret (t_get_down_hosts t) | None => mret ∅ end.

(** [src/driver/topology_service.cc:118-131] TOPOLOGY_SERVICE::mark_host_down *)
Definition mark_host_down (this : loc) (host : option loc) : M world unit :=
  match host with
  | None => mret tt
  | Some h =>
    topology_info ← get_from_cache this;
    match topology_info with Some p => t_mark_host_down p h | None => mret tt end
  end.

(** [src/driver/topology_service.cc:133-146] TOPOLOGY_SERVICE::mark_host_up *)
Definition mark_host_up (this : loc) (host : option loc) : M world unit :=
  match host with
  | None => mret tt
  | Some h =>
    topology_info ← get_from_cache this;
    match topology_info with Some p => t_mark_host_up p h | None => mret tt end
  end.

(** ** The topology query *)

(** [src/driver/topology_service.cc:251-257] TOPOLOGY_SERVICE::try_execute_query *)
Definition try_execute_query (connection : option TOPOLOGY_CONNECTION) (query : str) : option (list MYSQL_ROW) :=
  match connection with
  | Some c => if tc_query c query =? 0 then tc_store_result c query else None
  | None => None
  end.

(** [src/driver/topology_service.cc:362-369] TOPOLOGY_SERVICE::get_host_endpoint *)
Definition get_host_endpoint (this : loc) (node_name : str) : M world str :=
  s ← load this;
  p ← deref (cluster_instance_host s);
  hi ← load p;
  let host := get_host hi in
  mret (match find "?" host with Some position => replace host position 1 node_name | None => host end).

(** A column of a row; a missing column is out of range. *)
Definition column (row : MYSQL_ROW) (i : nat) : M world (option str) := lift (match row !! i with Some c => Ok c | None => UB end).

(** [src/driver/topology_service.cc:265-299] TOPOLOGY_SERVICE::create_host

    [strcmp(row[SESSION], ...)] dereferences the column before the test for
    null two lines below. *)
Definition create_host (this : loc) (row : MYSQL_ROW) : M world (option loc) :=
  server_id ← column row 0;
  match server_id with
  | None => mret None
  | Some id =>
    host_endpoint ← get_host_endpoint this id;
    s ← load this;
    template ← deref (cluster_instance_host s);
    t ← load template;
    host_info ← make_shared (new_host host_endpoint (get_port t));
    session ← column row 1;
    session_text ← deref session;
    (if decide (session_text = WRITER_SESSION_ID) then update host_info (mark_as_writer true) else mret tt);;
    updated ← column row 2;
    lag ← column row 3;
    update host_info (set_properties id session_text (default [] updated) (default [] lag));;
    mret (Some host_info)
  end.

(** [src/driver/topology_service.cc:348-360] TOPOLOGY_SERVICE::does_instance_exist

    The map is returned with the insertion made. *)
Definition does_instance_exist (instances : gmap str loc) (host_info : loc) : M world (bool * gmap str loc) :=
  hi ← load host_info;
  match instances !! instance_name hi with
  | Some _ => mret (true, instances)
  | None => mret (false, <[instance_name hi := host_info]> instances)
  end.

(** Whether a new writer row replaces the latest one. *)
Definition is_later (host_info : HOST_INFO) (latest_writer : option loc) : M world bool :=
  match latest_writer with
  | None => mret true
  | Some l => lw ← load l; mret (str_ltb (hi_last_updated lw) (hi_last_updated host_info))
  end.

(** [src/driver/topology_service.cc:312-327] TOPOLOGY_SERVICE::query_for_topology

    The loop over the rows, with the instances seen and the latest writer. *)
Fixpoint fetch_rows (this topology_info : loc) (rows : list MYSQL_ROW) (instances : gmap str loc)
    (latest_writer : option loc) : M world (gmap str loc * option loc) :=
  match rows with
  | [] => mret (instances, latest_writer)
  | row :: rows' =>
    host ← create_host this row;
    match host with
    | None => fetch_rows this topology_info rows' instances latest_writer
    | Some host_info =>
      hi ← load host_info;
      if is_host_writer hi then
        later ← is_later hi latest_writer;
        fetch_rows this topology_info rows' instances (if later : bool then Some host_info else latest_writer)
      else
        r ← does_instance_exist instances host_info;
        (if (r.1 : bool) then mret tt else add_host topology_info host_info);;
        fetch_rows this topology_info rows' r.2 latest_writer
    end
  end.

(** [src/driver/topology_service.cc:308-331] TOPOLOGY_SERVICE::query_for_topology *)
Definition read_topology (this : loc) (rows : list MYSQL_ROW) : M world loc :=
  topology_info ← new_topology;
  r ← fetch_rows this topology_info rows ∅ None;
  (match r.2 with
   | Some w => e ← does_instance_exist r.1 w; if (e.1 : bool) then mret tt else add_host topology_info w
   | None => mret tt
   end);;
  mret topology_info.

(** [src/driver/topology_service.cc:302-346] TOPOLOGY_SERVICE::query_for_topology *)
Definition query_for_topology (this : loc) (connection : option TOPOLOGY_CONNECTION) : M world (option loc) :=
  start_time_ms ← steady_now;
  topology_info ← (match try_execute_query connection RETRIEVE_TOPOLOGY_SQL with
                   | Some rows => t ← read_topology this rows; mret (Some t)
                   | None => mret None
                   end);
  end_time_ms ← steady_now;
  s ← load this;
  register_with (ts_metrics_container s) (MTopologyQuery (end_time_ms - start_time_ms));;
  mret topology_info.

(** [src/driver/topology_service.cc:168-183] TOPOLOGY_SERVICE::get_topology *)
Definition get_topology (this : loc) (connection : option TOPOLOGY_CONNECTION) (force_update : bool) : M world (option loc) :=
  cached_topology ← get_from_cache this;
  query ← (match cached_topology with
           | None => mret true
           | Some p => if force_update then mret true else t ← load p; refresh_needed this (t_last_updated t)
           end);
  if query : bool then
    latest ← query_for_topology this connection;
    match latest with
    | Some latest_topology => put_to_cache this latest_topology;; mret (Some latest_topology)
    | None => mret cached_topology
    end
  else mret cached_topology.

(** ** The filtered topology *)

(** Whether a host id passes the filter. *)
Definition host_allowed (ab : ALLOWED_AND_BLOCKED_HOSTS) (host_id : str) : bool :=
  bool_decide (host_id ∈ allowed_host_ids ab) && negb (bool_decide (host_id ∈ blocked_host_ids ab)).

(** The loop over the instances. *)
Fixpoint add_allowed (ab : ALLOWED_AND_BLOCKED_HOSTS) (filtered_topology : loc) (hosts : list loc) : M world unit :=
  match hosts with
  | [] => mret tt
  | host :: hosts' =>
    hi ← load host;
    (if host_allowed ab (get_host_id hi) then add_host filtered_topology host else mret tt);;
    add_allowed ab filtered_topology hosts'
  end.

(** [src/driver/topology_service.cc:185-202] TOPOLOGY_SERVICE::get_filtered_topology *)
Definition get_filtered_topology (this : loc) (topology : option loc) : M world (option loc) :=
  s ← load this;
  match allowed_and_blocked_hosts s with
  | None => mret topology
  | Some ab =>
    filtered_topology ← new_topology;
    p ← deref topology;
    t ← load p;
    add_allowed ab filtered_topology (get_instances t);;
    mret (Some filtered_topology)
  end.

(** [src/driver/topology_service.cc:204-216] TOPOLOGY_SERVICE::log_topology *)
Definition log_topology (topology : option loc) : M world str :=
  p ← deref topology;
  t ← load p;
  let head := S!"[TOPOLOGY_SERVICE] Topology: " in
  if decide (total_hosts t = 0%nat) then mret (head ++ S!"<empty topology>") else
  (fix go (hosts : list loc) (acc : str) : M world str :=
     match hosts with
     | [] => mret acc
     | host :: hosts' =>
       hi ← load host; text ← lift (print_host hi); go hosts' (acc ++ S!"
	" ++ text)
     end) (get_instances t) head.

(** ** Specification of the topology query *)

(** The host of a row, given the host name and port of the template. *)
Definition endpoint_of (template : str) (node_name : str) : str :=
  match find "?" template with Some position => replace template position 1 node_name | None => template end.

Definition host_of (template : HOST_INFO) (id session : str) (updated lag : option str) : HOST_INFO :=
  let h := new_host (endpoint_of (get_host template) id) (get_port template) in
  set_properties id session (default [] updated) (default [] lag)
    (if decide (session = WRITER_SESSION_ID) then mark_as_writer true h else h).

(** A row of the four columns; without a server id it is skipped. *)
Definition row_host (template : HOST_INFO) (row : MYSQL_ROW) : option HOST_INFO :=
  match row with
  | [Some id; Some session; updated; lag] => Some (host_of template id session updated lag)
  | _ => None
  end.

(** Rows the code handles without undefined behaviour: the session column is
    not null when the server id is not. *)
Definition row_ok (row : MYSQL_ROW) : Prop :=
  match row with
  | [Some _; Some _; _; _] => True
  | None :: _ => True
  | _ => False
  end.

(** The readers with the first row of each name, in row order. *)
Fixpoint first_readers (seen : list str) (hosts : list HOST_INFO) : list HOST_INFO :=
  match hosts with
  | [] => []
  | h :: hs => if is_host_writer h || bool_decide (instance_name h ∈ seen) then first_readers seen hs
               else h :: first_readers (instance_name h :: seen) hs
  end.

(** The writer row with the latest time stamp, the first of several. *)
Fixpoint last_writer (best : option HOST_INFO) (hosts : list HOST_INFO) : option HOST_INFO :=
  match hosts with
  | [] => best
  | h :: hs =>
    last_writer (if is_host_writer h then
                   match best with
                   | None => Some h
                   | Some b => if str_ltb (hi_last_updated b) (hi_last_updated h) then Some h else best
                   end
                 else best) hs
  end.

(** The topology of the hosts: its writers and its readers. *)
Definition topology_of (hosts : list HOST_INFO) : list HOST_INFO * list HOST_INFO :=
  let rs := first_readers [] hosts in
  (match last_writer None hosts with
   | Some w => if bool_decide (instance_name w ∈ instance_name <$> rs) then [] else [w]
   | None => []
   end, rs).

(** The values of a list of hosts. *)
Definition values (hosts : gmap loc HOST_INFO) (l : list loc) : list (option HOST_INFO) := (λ p, hosts !! p) <$> l.

(** ** The code computes the specification *)

(** What the query may change: the topology at [topo], new hosts, clocks. *)
Definition frame (topo : loc) (w w' : world) : Prop :=
  extends (w_hosts w) (w_hosts w') ∧ w_services w' = w_services w ∧ w_containers w' = w_containers w ∧
  topology_cache w' = topology_cache w ∧ w_tables w' = w_tables w ∧
  (∀ q, q ≠ topo → w_topologies w' !! q = w_topologies w !! q).

#[export] Instance frame_preorder topo : PreOrder (frame topo).
Proof.
  split; [intros w; split; [by intros p x|by split_and!]|].
  intros w1 w2 w3 (H1 & H2 & H3 & H4 & H5 & H6) (G1 & G2 & G3 & G4 & G5 & G6).
  split; [intros p x Hp; by apply G1, H1|]. split; [congruence|]. split; [congruence|].
  split; [congruence|]. split; [congruence|]. intros q Hq. by rewrite G6, H6.
Qed.

(** The service at [this] has the template [template]. *)
Definition has_template (this : loc) (template : HOST_INFO) (w : world) : Prop :=
  ∃ s p, w_services w !! this = Some s ∧ cluster_instance_host s = Some p ∧ w_hosts w !! p = Some template.

Lemma has_template_frame this topo template w w' :
  frame topo w w' → has_template this template w → has_template this template w'.
Proof.
  intros (He & Hs & _) (s & p & H1 & H2 & H3). exists s, p. rewrite Hs. split; [done|]. split; [done|]. by apply He.
Qed.

Lemma create_host_run this template row w :
  has_template this template w → row_ok row →
  match row_host template row with
  | None => create_host this row w = (Ok None, w)
  | Some h => let p := fresh (dom (w_hosts w)) in
              create_host this row w = (Ok (Some p), set_heap (<[p := h]> (w_hosts w)) w)
  end.
Proof.
  intros (s & p & Hs & Hp & Hh) Hrow.
  destruct row as [|[id|] row]; [done| |done].
  destruct row as [|[session|] [|updated [|lag []]]]; try done. simpl row_host. cbv zeta.
  pose proof (is_fresh (dom (w_hosts w))) as Hf.
  assert (p ≠ fresh (dom (w_hosts w))) as Hne by (intros ->; apply Hf; by apply elem_of_dom_2 in Hh).
  unfold create_host, get_host_endpoint, column, load, deref, lift, make_shared, update, mbind, M_bind, mret, M_ret, heap.
  simpl. rewrite Hs. simpl. rewrite Hp. simpl. rewrite Hh. simpl. rewrite Hs. simpl. rewrite Hp. simpl. rewrite Hh. simpl.
  unfold host_of, endpoint_of, get_host, get_port.
  destruct (decide (session = WRITER_SESSION_ID)); simpl; rewrite lookup_insert_eq; simpl.
  - rewrite lookup_insert_eq. simpl. by rewrite !insert_insert_eq.
  - by rewrite !insert_insert_eq.
Qed.

(** The state of the loop and of its specification. *)
Definition loop_state (topo : loc) (w : world) (instances : gmap str loc) (latest : option loc)
    (rs : list HOST_INFO) (best : option HOST_INFO) : Prop :=
  (∃ time rl, w_topologies w !! topo = Some (Topology (-1) time ∅ None [] rl) ∧
              values (w_hosts w) rl = Some <$> rs) ∧
  (∀ n, is_Some (instances !! n) ↔ n ∈ instance_name <$> rs) ∧
  match latest, best with
  | None, None => True
  | Some p, Some h => w_hosts w !! p = Some h
  | _, _ => False
  end.

Lemma values_extends h h' l rs : extends h h' → values h l = Some <$> rs → values h' l = Some <$> rs.
Proof.
  intros He Hl. unfold values in *. rewrite <- Hl. apply (extends_values h); [done|].
  apply Forall_lookup. intros i p Hp. apply (f_equal (λ k, k !! i)) in Hl.
  rewrite !list_lookup_fmap, Hp in Hl. simpl in Hl. destruct (rs !! i); simpl in Hl; simplify_eq. rewrite Hl. eauto.
Qed.

Lemma loop_state_hosts topo w h' inst lw rs best :
  extends (w_hosts w) h' → loop_state topo w inst lw rs best →
  loop_state topo (set_heap (Stored := hosts_stored) h' w) inst lw rs best.
Proof.
  intros He ((time & rl & Ht & Hv) & Hi & Hl). split; [|split; [done|]].
  - exists time, rl. split; [done|]. by eapply values_extends.
  - destruct lw, best; try done. by apply He.
Qed.

Lemma first_readers_ext seen seen' hosts :
  (∀ n, n ∈ seen ↔ n ∈ seen') → first_readers seen hosts = first_readers seen' hosts.
Proof.
  revert seen seen'. induction hosts as [|h hs IH]; intros seen seen' He; simpl; [done|].
  rewrite (bool_decide_ext _ _ (He (instance_name h))). destruct (_ || _); [by apply IH|].
  f_equal. apply IH. set_solver.
Qed.

Lemma frame_hosts topo w h' : extends (w_hosts w) h' → frame topo w (set_heap (Stored := hosts_stored) h' w).
Proof. intros He. split; [exact He|by split_and!]. Qed.

Lemma frame_add_host topo w t : frame topo w (tick (set_heap (<[topo := t]> (w_topologies w)) w)).
Proof. split; [by intros p x|]. split_and!; try done. intros q Hq. simpl. by rewrite lookup_insert_ne. Qed.

Lemma loop_add topo w inst lw rs best h hi :
  loop_state topo w inst lw rs best → w_hosts w !! h = Some hi → is_host_writer hi = false →
  ∃ w', add_host topo h w = (Ok tt, w') ∧ frame topo w w' ∧
    loop_state topo w' (<[instance_name hi := h]> inst) lw (rs ++ [hi]) best.
Proof.
  intros ((time & rl & Ht & Hv) & Hi & Hl) Hh Hw. eexists. split; [by eapply add_host_run|].
  split; [apply frame_add_host|]. unfold with_host. rewrite Hw. split; [|split; [|done]].
  - eexists _, (rl ++ [h]). split; [simpl; rewrite lookup_insert_eq; done|].
    unfold values in *. rewrite !fmap_app, <- Hv. simpl. by rewrite Hh.
  - intros n. rewrite lookup_insert_is_Some', Hi, fmap_app, elem_of_app. simpl.
    rewrite list_elem_of_singleton. split; (intros [->| ?]; [by right|by left]) || (intros [?| ->]; [by right|by left]).
Qed.

Lemma is_later_run topo w inst lw rs best p h :
  loop_state topo w inst lw rs best → w_hosts w !! p = Some h →
  ∃ later, is_later h lw w = (Ok later, w) ∧
    loop_state topo w inst (if later : bool then Some p else lw) rs
      (match best with
       | None => Some h
       | Some b => if str_ltb (hi_last_updated b) (hi_last_updated h) then Some h else best
       end).
Proof.
  intros (Ht & Hi & Hl) Hp. destruct lw as [q|], best as [b|]; try done.
  - exists (str_ltb (hi_last_updated b) (hi_last_updated h)). unfold is_later. rewrite (load_bind q b) by done.
    split; [done|]. split; [done|]. split; [done|]. by destruct (str_ltb _ _).
  - by exists true.
Qed.

Lemma does_instance_exist_run inst p h w :
  w_hosts w !! p = Some h →
  does_instance_exist inst p w =
    (Ok (match inst !! instance_name h with Some _ => (true, inst) | None => (false, <[instance_name h := p]> inst) end), w).
Proof. intros Hp. unfold does_instance_exist. rewrite (load_bind p h) by done. by destruct (inst !! _). Qed.

(** One row that has a host. *)
Lemma fetch_row_run this topo template row h rows hs w inst lw rs best :
  has_template this template w → row_ok row → row_host template row = Some h → loop_state topo w inst lw rs best →
  ∃ inst' lw' w' rs' best',
    fetch_rows this topo (row :: rows) inst lw w = fetch_rows this topo rows inst' lw' w' ∧ frame topo w w' ∧
    loop_state topo w' inst' lw' rs' best' ∧
    rs' ++ first_readers (instance_name <$> rs') hs = rs ++ first_readers (instance_name <$> rs) (h :: hs) ∧
    last_writer best' hs = last_writer best (h :: hs).
Proof.
  intros Htm Hrow Hh Hst. pose proof (create_host_run this template row w Htm Hrow) as Hc. rewrite Hh in Hc.
  set (p := fresh (dom (w_hosts w))) in *. set (w1 := set_heap (<[p := h]> (w_hosts w)) w).
  assert (w_hosts w1 !! p = Some h) as Hp by apply lookup_insert_eq.
  assert (extends (w_hosts w) (<[p := h]> (w_hosts w))) as He by apply extends_fresh.
  pose proof (frame_hosts topo w _ He) as Hf1. fold w1 in Hf1.
  pose proof (loop_state_hosts _ _ _ _ _ _ _ He Hst) as Hst1. fold w1 in Hst1.
  cbn [fetch_rows]. rewrite (bind_Ok _ _ _ _ _ Hc), (load_bind p h) by done.
  cbn [first_readers last_writer]. destruct (is_host_writer h) eqn:Ew.
  - destruct (is_later_run topo w1 inst lw rs best p h Hst1 Hp) as (b & Eb & Hst2).
    rewrite (bind_Ok _ _ _ _ _ Eb). by eexists _, _, _, _, _.
  - rewrite (bind_Ok _ _ _ _ _ (does_instance_exist_run inst p h w1 Hp)).
    destruct Hst1 as (Ht & Hi & Hl). destruct (inst !! instance_name h) as [q|] eqn:Eq.
    + rewrite bool_decide_true by (apply Hi; eauto). by eexists inst, lw, w1, rs, best.
    + rewrite bool_decide_false by (rewrite <- Hi, Eq; by intros [? ?]).
      destruct (loop_add topo w1 inst lw rs best p h (conj Ht (conj Hi Hl)) Hp Ew) as (w2 & E2 & Hf2 & Hst2).
      cbn [fst snd]. rewrite (bind_Ok _ _ _ _ _ E2). eexists _, _, w2, (rs ++ [h]), best.
      split; [done|]. split; [by etrans|]. split; [done|]. split; [|done].
      rewrite <- app_assoc. simpl. do 2 f_equal. apply first_readers_ext. set_solver.
Qed.

Lemma fetch_rows_run this topo template rows w inst lw rs best :
  has_template this template w → Forall row_ok rows → loop_state topo w inst lw rs best →
  ∃ inst' lw' w', fetch_rows this topo rows inst lw w = (Ok (inst', lw'), w') ∧ frame topo w w' ∧
    loop_state topo w' inst' lw' (rs ++ first_readers (instance_name <$> rs) (omap (row_host template) rows))
      (last_writer best (omap (row_host template) rows)).
Proof.
  revert w inst lw rs best. induction rows as [|row rows IH]; intros w inst lw rs best Htm Hrows Hst.
  { exists inst, lw, w. simpl. rewrite app_nil_r. split; [done|]. split; [reflexivity|done]. }
  apply Forall_cons in Hrows as [Hrow Hrows]. cbn [omap list_omap].
  destruct (row_host template row) as [h|] eqn:Eh.
  - destruct (fetch_row_run this topo template row h rows (omap (row_host template) rows) w inst lw rs best Htm Hrow Eh Hst)
      as (i1 & l1 & w1 & rs1 & b1 & -> & Hf1 & Hs1 & Hr & Hb).
    destruct (IH w1 i1 l1 rs1 b1 (has_template_frame _ _ _ _ _ Hf1 Htm) Hrows Hs1) as (i' & l' & w' & E & Hf & Hs).
    exists i', l', w'. split; [done|]. split; [by etrans|]. by rewrite Hr, Hb in Hs.
  - pose proof (create_host_run this template row w Htm Hrow) as Hc. rewrite Eh in Hc.
    cbn [fetch_rows]. rewrite (bind_Ok _ _ _ _ _ Hc). by apply IH.
Qed.

(** The object at [p] is a topology with these writers and readers, fresh
    in every other respect. *)
Definition topology_at (w : world) (p : loc) (ws rs : list HOST_INFO) : Prop :=
  ∃ t, w_topologies w !! p = Some t ∧ values (w_hosts w) (writers t) = Some <$> ws ∧
    values (w_hosts w) (readers t) = Some <$> rs ∧ current_reader t = -1 ∧ down_hosts t = ∅ ∧ last_used_reader t = None.

Lemma last_writer_writer best hosts h :
  last_writer best hosts = Some h → (∀ b, best = Some b → is_host_writer b = true) → is_host_writer h = true.
Proof.
  revert best. induction hosts as [|x hs IH]; intros best; simpl; [by intros -> Hb; apply Hb|].
  intros H Hb. eapply IH; [exact H|]. intros b. destruct (is_host_writer x) eqn:Ex; [|apply Hb].
  destruct best as [b0|]; [destruct (str_ltb _ _)|]; intros [= <-]; auto.
Qed.

Lemma read_topology_run this template rows w :
  has_template this template w → Forall row_ok rows →
  let spec := topology_of (omap (row_host template) rows) in
  ∃ p w', read_topology this rows w = (Ok p, w') ∧ frame p w w' ∧ w_topologies w !! p = None ∧
    topology_at w' p spec.1 spec.2.
Proof.
  intros Htm Hrows. unfold topology_of, read_topology. set (hosts := omap (row_host template) rows).
  pose proof (new_topology_run w) as Hn. cbv zeta in Hn. set (p := fresh (dom (w_topologies w))) in *.
  match type of Hn with _ = (Ok p, ?w1) => set (w1' := w1) in * end.
  rewrite (bind_Ok _ _ _ _ _ Hn).
  assert (frame p w w1') as Hf1 by apply frame_add_host.
  assert (loop_state p w1' ∅ None [] None) as Hs1.
  { split; [|split; [|done]].
    - eexists _, []. split; [simpl; apply lookup_insert_eq|done].
    - intros n. rewrite lookup_empty. simpl. split; [by intros [? ?]|by intros ?%elem_of_nil]. }
  assert (w_topologies w !! p = None) as Hp by (apply not_elem_of_dom, is_fresh).
  destruct (fetch_rows_run this p template rows w1' ∅ None [] None (has_template_frame _ _ _ _ _ Hf1 Htm) Hrows Hs1)
    as (inst & lw & w2 & E2 & Hf2 & (time & rl & Ht & Hv) & Hi & Hl). fold hosts in Hv, Hi, Hl. simpl in Hv, Hi.
  rewrite (bind_Ok _ _ _ _ _ E2). cbn [fst snd].
  assert (frame p w w2) as Hf by by etrans.
  assert (topology_at w2 p [] (first_readers [] hosts)) as H0 by (eexists; split; [exact Ht|by split_and!]).
  destruct lw as [q|], (last_writer None hosts) as [h|] eqn:Eh; try done; [|by exists p, w2].
  rewrite bind_assoc, (bind_Ok _ _ _ _ _ (does_instance_exist_run inst q h w2 Hl)).
  destruct (inst !! instance_name h) as [q'|] eqn:Eq.
  - rewrite bool_decide_true by (apply Hi; eauto). by exists p, w2.
  - rewrite bool_decide_false by (rewrite <- Hi, Eq; by intros [? ?]). cbn [fst].
    rewrite (bind_Ok _ _ _ _ _ (add_host_run p q h w2 _ Hl Ht)). eexists p, _. split; [done|].
    split; [etrans; [exact Hf|apply frame_add_host]|]. split; [done|].
    assert (is_host_writer h = true) as Hw by (by apply (last_writer_writer None hosts)).
    unfold with_host. rewrite Hw. eexists. split; [simpl; apply lookup_insert_eq|].
    split; [unfold values; cbn; by rewrite Hl|]. by split_and!.
Qed.

(** The service is configured: it has a template and its metrics container. *)
Definition service_ready (this : loc) (template : HOST_INFO) (w : world) : Prop :=
  has_template this template w ∧
  ∃ s c, w_services w !! this = Some s ∧ w_containers w !! ts_metrics_container s = Some c.

(** As [frame], but for the metrics tables as well. *)
Definition query_frame (topo : loc) (w w' : world) : Prop :=
  extends (w_hosts w) (w_hosts w') ∧ w_services w' = w_services w ∧ w_containers w' = w_containers w ∧
  topology_cache w' = topology_cache w ∧ (∀ q, q ≠ topo → w_topologies w' !! q = w_topologies w !! q).

Lemma query_for_topology_run this template connection w :
  service_ready this template w →
  match try_execute_query connection RETRIEVE_TOPOLOGY_SQL with
  | Some rows =>
    Forall row_ok rows →
    let spec := topology_of (omap (row_host template) rows) in
    ∃ p w', query_for_topology this connection w = (Ok (Some p), w') ∧ query_frame p w w' ∧
      w_topologies w !! p = None ∧ topology_at w' p spec.1 spec.2
  | None => ∃ w', query_for_topology this connection w = (Ok None, w') ∧ w_topologies w' = w_topologies w ∧
                  w_hosts w' = w_hosts w ∧ topology_cache w' = topology_cache w
  end.
Proof.
  intros (Htm & s & c & Hs & Hc). unfold query_for_topology.
  destruct (try_execute_query connection RETRIEVE_TOPOLOGY_SQL) as [rows|].
  - intros Hrows. assert (has_template this template (tick w)) as Htm' by exact Htm.
    destruct (read_topology_run this template rows (tick w) Htm' Hrows) as (p & w1 & E & Hf & Hp & Ht).
    destruct Hf as (F1 & F2 & F3 & F4 & F5 & F6).
    eexists p, _. split.
    { rewrite steady_now_bind, bind_assoc, (bind_Ok _ _ _ _ _ E), ret_bind, steady_now_bind.
      rewrite (load_bind this s) by (simpl; by rewrite F2).
      by rewrite (register_with_bind _ c) by (simpl; by rewrite F3). }
    split; [split; [exact F1|by split_and!]|]. split; [exact Hp|exact Ht].
  - eexists. rewrite steady_now_bind, ret_bind, steady_now_bind, (load_bind this s) by done.
    rewrite (register_with_bind _ c) by done. done.
Qed.

(** C4: The topology query: when the statement succeeds and no instance row
    has a null session, the result is a new topology object, whose writers
    and readers carry exactly the values the specification [topology_of]
    computes from the rows; nothing else changes but metrics and clocks.  When
    there is no connection, the statement fails or has no result, the answer
    is null and no topology is made. *)
Theorem query_for_topology_spec this template connection w :
  service_ready this template w →
  match try_execute_query connection RETRIEVE_TOPOLOGY_SQL with
  | Some rows =>
    Forall row_ok rows →
    let spec := topology_of (omap (row_host template) rows) in
    ∃ p w', query_for_topology this connection w = (Ok (Some p), w') ∧ query_frame p w w' ∧
      w_topologies w !! p = None ∧ topology_at w' p spec.1 spec.2
  | None => ∃ w', query_for_topology this connection w = (Ok None, w') ∧ w_topologies w' = w_topologies w ∧
                  w_hosts w' = w_hosts w ∧ topology_cache w' = topology_cache w
  end.
Proof. apply query_for_topology_run. Qed.

(** *** What the specification promises *)

Lemma first_readers_spec seen hosts :
  NoDup (instance_name <$> first_readers seen hosts) ∧
  Forall (λ r, is_host_writer r = false ∧ r ∈ hosts ∧ instance_name r ∉ seen) (first_readers seen hosts) ∧
  (∀ h, h ∈ hosts → is_host_writer h = false → instance_name h ∉ seen → instance_name h ∈ instance_name <$> first_readers seen hosts).
Proof.
  revert seen. induction hosts as [|h hs IH]; intros seen; cbn [first_readers].
  { split; [constructor|]. split; [constructor|]. by intros h ?%elem_of_nil. }
  destruct (IH seen) as (N1 & F1 & C1). destruct (IH (instance_name h :: seen)) as (N2 & F2 & C2).
  destruct (is_host_writer h) eqn:Ew; [|case_bool_decide as Hin]; cbn [orb].
  - split; [done|]. split; [eapply Forall_impl; [exact F1|]; intros r (? & ? & ?); by split_and!; [|constructor|]|].
    intros x [->|Hx]%elem_of_cons Hw Hs; [congruence|by apply C1].
  - split; [done|]. split; [eapply Forall_impl; [exact F1|]; intros r (? & ? & ?); by split_and!; [|constructor|]|].
    intros x [->|Hx]%elem_of_cons Hw Hs; [done|by apply C1].
  - split; [|split].
    + apply NoDup_cons. split; [|done]. intros (r & Hr1 & Hr2)%list_elem_of_fmap.
      rewrite Forall_forall in F2. destruct (F2 _ Hr2) as (_ & _ & Hn). apply Hn. rewrite Hr1. constructor.
    + constructor; [split_and!; [done|constructor|done]|].
      eapply Forall_impl; [exact F2|]. intros r (? & ? & Hn). split; [done|]. split; [by constructor|].
      intros Hs. apply Hn. by constructor.
    + intros x Hx Hw Hs. rewrite fmap_cons. destruct (decide (instance_name x = instance_name h)) as [->|Hne]; [constructor|].
      apply elem_of_cons. right. apply elem_of_cons in Hx as [->|Hx]; [done|].
      apply C2; [done|done|]. by intros [?|?]%elem_of_cons.
Qed.

Definition later_than (a b : HOST_INFO) : Prop := str_ltb (hi_last_updated b) (hi_last_updated a) = true.

Lemma later_than_trans a b c : later_than a b → later_than b c → later_than a c.
Proof. unfold later_than. intros H1 H2. by eapply str_ltb_trans. Qed.

Lemma not_later_later a b c : ¬ later_than a b → later_than a c → later_than b c.
Proof.
  unfold later_than. intros H1 H2. destruct (str_ltb (hi_last_updated a) (hi_last_updated b)) eqn:E;
    [by eapply str_ltb_trans|].
  apply not_true_is_false in H1. by rewrite (str_ltb_connected _ _ E H1) in H2.
Qed.

Definition candidates (best : option HOST_INFO) (hosts : list HOST_INFO) : list HOST_INFO :=
  option_list best ++ filter (λ h, is_host_writer h = true) hosts.

Lemma last_writer_spec best hosts :
  match last_writer best hosts with
  | Some w => w ∈ candidates best hosts ∧ ∀ h, h ∈ candidates best hosts → ¬ later_than h w
  | None => candidates best hosts = []
  end.
Proof.
  revert best. induction hosts as [|x hs IH]; intros best; cbn [last_writer].
  { unfold candidates. destruct best as [b|]; [|done]. simpl. split; [constructor|].
    intros h ->%list_elem_of_singleton. unfold later_than. by rewrite str_ltb_irrefl. }
  unfold candidates. rewrite filter_cons. destruct (is_host_writer x) eqn:Ex.
  2:{ rewrite decide_False by done. apply IH. }
  rewrite decide_True by done. destruct best as [b|]; [|apply (IH (Some x))].
  destruct (str_ltb (hi_last_updated b) (hi_last_updated x)) eqn:El.
  - specialize (IH (Some x)). destruct (last_writer (Some x) hs) as [w|]; [|done].
    unfold candidates in IH. simpl in *. destruct IH as [Hin Hmax]. split; [by constructor|].
    intros h [->|Hh]%elem_of_cons; [|by apply Hmax].
    intros Hl. apply (Hmax x); [constructor|]. by eapply later_than_trans.
  - specialize (IH (Some b)). destruct (last_writer (Some b) hs) as [w|]; [|done].
    unfold candidates in IH. simpl in *. destruct IH as [Hin Hmax]. split; [set_solver|].
    intros h [->|[->|Hh]%elem_of_cons]%elem_of_cons; [apply Hmax; constructor| |apply Hmax; by constructor].
    intros Hl. apply (Hmax b); [constructor|]. apply (not_later_later x); [|done].
    unfold later_than. by rewrite El.
Qed.

Lemma topology_of_ok hosts :
  let '(ws, rs) := topology_of hosts in
  NoDup (instance_name <$> ws ++ rs) ∧ (length ws ≤ 1)%nat ∧
  Forall (λ r, is_host_writer r = false ∧ r ∈ hosts) rs ∧
  (∀ h, h ∈ hosts → is_host_writer h = false → instance_name h ∈ instance_name <$> rs) ∧
  Forall (λ w, is_host_writer w = true ∧ w ∈ hosts ∧
               ∀ h, h ∈ hosts → is_host_writer h = true → ¬ later_than h w) ws ∧
  (ws = [] → ∀ h, h ∈ hosts → is_host_writer h = true →
     ∃ w, w ∈ hosts ∧ is_host_writer w = true ∧ ¬ later_than h w ∧ instance_name w ∈ instance_name <$> rs).
Proof.
  unfold topology_of. destruct (first_readers_spec [] hosts) as (Hn & Hf & Hc).
  assert (Forall (λ r, is_host_writer r = false ∧ r ∈ hosts) (first_readers [] hosts)) as Hf'
    by (eapply Forall_impl; [exact Hf|]; by intros r (? & ? & _)).
  assert (∀ h, h ∈ hosts → is_host_writer h = false → instance_name h ∈ instance_name <$> first_readers [] hosts) as Hc'
    by (intros h Hh Hw; apply Hc; [done|done|apply not_elem_of_nil]).
  pose proof (last_writer_spec None hosts) as Hl. unfold candidates in Hl. simpl in Hl.
  destruct (last_writer None hosts) as [w|]; [destruct Hl as [Hw Hmax]|].
  - apply list_elem_of_filter in Hw as [Hw1 Hw2].
    assert (∀ h, h ∈ hosts → is_host_writer h = true → ¬ later_than h w) as Hm
      by (intros h Hh1 Hh2; apply Hmax, list_elem_of_filter; done).
    case_bool_decide as Hin; simpl.
    + split; [done|]. split; [lia|]. do 2 (split; [done|]). split; [constructor|]. intros _ h Hh1 Hh2. exists w. auto.
    + split; [by apply NoDup_cons|]. split; [lia|]. do 2 (split; [done|]).
      split; [by apply Forall_singleton|done].
  - simpl. split; [done|]. split; [lia|]. do 2 (split; [done|]). split; [constructor|].
    intros _ h Hh1 Hh2. exfalso. eapply not_elem_of_nil. rewrite <- Hl. by apply list_elem_of_filter.
Qed.

(** A topology that was queried names every instance once; its readers
    are the reader rows, with every reader's name present; it has at most one
    writer, which is a writer row with a time stamp no other writer row
    exceeds; and a writer row is only dropped altogether when the latest
    writer's name is also the name of a reader. *)
Theorem queried_topology_spec this template connection rows w :
  service_ready this template w → try_execute_query connection RETRIEVE_TOPOLOGY_SQL = Some rows → Forall row_ok rows →
  let hosts := omap (row_host template) rows in
  ∃ p w' ws rs, query_for_topology this connection w = (Ok (Some p), w') ∧ topology_at w' p ws rs ∧
    NoDup (instance_name <$> ws ++ rs) ∧ (length ws ≤ 1)%nat ∧
    Forall (λ r, is_host_writer r = false ∧ r ∈ hosts) rs ∧
    (∀ h, h ∈ hosts → is_host_writer h = false → instance_name h ∈ instance_name <$> rs) ∧
    Forall (λ w, is_host_writer w = true ∧ w ∈ hosts ∧
                 ∀ h, h ∈ hosts → is_host_writer h = true → ¬ later_than h w) ws ∧
    (ws = [] → ∀ h, h ∈ hosts → is_host_writer h = true →
       ∃ w, w ∈ hosts ∧ is_host_writer w = true ∧ ¬ later_than h w ∧ instance_name w ∈ instance_name <$> rs).
Proof.
  intros Hr Hq Hrows hosts. pose proof (query_for_topology_run this template connection w Hr) as H. rewrite Hq in H.
  destruct (H Hrows) as (p & w' & E & _ & _ & Ht). pose proof (topology_of_ok hosts) as Hok. fold hosts in Ht.
  destruct (topology_of hosts) as [ws rs]. by exists p, w', ws, rs.
Qed.

(** ** The cache *)

Lemma get_from_cache_run this s c w :
  w_services w !! this = Some s → w_containers w !! ts_metrics_container s = Some c →
  ∃ t, get_from_cache this w = (Ok (topology_cache w !! ts_cluster_id s), set_tables t w).
Proof.
  intros Hs Hc. unfold get_from_cache. rewrite (load_bind this s) by done.
  rewrite (bind_Ok (gets topology_cache) _ w (topology_cache w) w) by done.
  destruct (topology_cache w !! ts_cluster_id s) as [p|] eqn:E; rewrite (register_with_bind _ c) by done; eauto.
Qed.

(** Whether [get_topology] asks the database. *)
Definition needs_query (s : TOPOLOGY_SERVICE) (force_update : bool) (w : world) : bool :=
  match topology_cache w !! ts_cluster_id s with
  | None => true
  | Some p => force_update ||
    match w_topologies w !! p with
    | Some t => Z.quot (refresh_rate_in_ms s) 1000 <? next_time w - t_last_updated t
    | None => false
    end
  end.

Lemma get_topology_decides this s c connection force_update w :
  store_ok w → w_services w !! this = Some s → w_containers w !! ts_metrics_container s = Some c →
  ∃ w1, get_topology this connection force_update w =
    (if needs_query s force_update w then
       latest ← query_for_topology this connection;
       match latest with
       | Some latest_topology => put_to_cache this latest_topology;; mret (Some latest_topology)
       | None => mret (topology_cache w !! ts_cluster_id s)
       end
     else mret (topology_cache w !! ts_cluster_id s)) w1 ∧
    (∃ t, w1 = set_tables t w ∨ w1 = tick (set_tables t w)).
Proof.
  intros Hok Hs Hc. destruct (get_from_cache_run this s c w Hs Hc) as [tb Et].
  unfold get_topology, needs_query. rewrite (bind_Ok _ _ _ _ _ Et).
  destruct (topology_cache w !! ts_cluster_id s) as [p|] eqn:E; [|eauto].
  destruct force_update; [eauto|]. destruct (proj2 Hok _ _ E) as [t Ht]. rewrite Ht.
  rewrite bind_assoc, (load_bind p t) by done. exists (tick (set_tables tb w)). split; [|eauto].
  unfold refresh_needed. by rewrite bind_assoc, time0_bind, bind_assoc, (load_bind this s).
Qed.

Lemma get_topology_run this template s connection force_update w :
  store_ok w → service_ready this template w → w_services w !! this = Some s →
  let cached := topology_cache w !! ts_cluster_id s in
  if needs_query s force_update w then
    match try_execute_query connection RETRIEVE_TOPOLOGY_SQL with
    | Some rows =>
      Forall row_ok rows →
      let spec := topology_of (omap (row_host template) rows) in
      ∃ p w', get_topology this connection force_update w = (Ok (Some p), w') ∧ w_topologies w !! p = None ∧
        topology_at w' p spec.1 spec.2 ∧ topology_cache w' = <[ts_cluster_id s := p]> (topology_cache w)
    | None => ∃ w', get_topology this connection force_update w = (Ok cached, w') ∧
                    topology_cache w' = topology_cache w ∧ w_topologies w' = w_topologies w
    end
  else ∃ w', get_topology this connection force_update w = (Ok cached, w') ∧
             topology_cache w' = topology_cache w ∧ w_topologies w' = w_topologies w ∧ w_hosts w' = w_hosts w.
Proof.
  intros Hok (Htm & s' & c & Hs' & Hc) Hs cached. assert (s' = s) as -> by congruence.
  destruct (get_topology_decides this s c connection force_update w Hok Hs Hc) as (w1 & -> & tb & Hw1).
  assert (service_ready this template w1) as Hr1
    by (destruct Hw1 as [->| ->]; (split; [exact Htm|by exists s, c])).
  pose proof (query_for_topology_run this template connection w1 Hr1) as Hq.
  assert (w_topologies w1 = w_topologies w ∧ topology_cache w1 = topology_cache w ∧ w_services w1 = w_services w ∧
          w_hosts w1 = w_hosts w) as (H1 & H2 & H3 & H4) by (by destruct Hw1 as [->| ->]).
  destruct (needs_query s force_update w); [|by exists w1].
  destruct (try_execute_query connection RETRIEVE_TOPOLOGY_SQL) as [rows|].
  - intros Hrows. destruct (Hq Hrows) as (p & w2 & E & (F1 & F2 & F3 & F4 & F5) & Hp & Ht). rewrite (bind_Ok _ _ _ _ _ E).
    exists p. unfold put_to_cache. rewrite bind_assoc, (load_bind this s) by (simpl; by rewrite F2, H3).
    eexists. split; [done|]. split; [by rewrite <- H1|]. split; [exact Ht|]. simpl. by rewrite F4, H2.
  - destruct Hq as (w2 & E & Q1 & Q2 & Q3). rewrite (bind_Ok _ _ _ _ _ E). exists w2.
    split; [done|]. by rewrite Q3, Q1.
Qed.

(** C5: [get_topology] serves the cached topology while it is younger than
    the refresh rate (whole seconds) and no update is forced.  Otherwise it
    queries: a successful query makes a new topology, which replaces the
    cached one; a failed query leaves the cache alone and returns the cached
    topology, however old (null when there is none). *)
Theorem get_topology_spec this template s connection force_update w :
  store_ok w → service_ready this template w → w_services w !! this = Some s →
  let cached := topology_cache w !! ts_cluster_id s in
  if needs_query s force_update w then
    match try_execute_query connection RETRIEVE_TOPOLOGY_SQL with
    | Some rows =>
      Forall row_ok rows →
      let spec := topology_of (omap (row_host template) rows) in
      ∃ p w', get_topology this connection force_update w = (Ok (Some p), w') ∧ w_topologies w !! p = None ∧
        topology_at w' p spec.1 spec.2 ∧ topology_cache w' = <[ts_cluster_id s := p]> (topology_cache w)
    | None => ∃ w', get_topology this connection force_update w = (Ok cached, w') ∧
                    topology_cache w' = topology_cache w ∧ w_topologies w' = w_topologies w
    end
  else ∃ w', get_topology this connection force_update w = (Ok cached, w') ∧
             topology_cache w' = topology_cache w ∧ w_topologies w' = w_topologies w ∧ w_hosts w' = w_hosts w.
Proof. apply get_topology_run. Qed.

(** A configured service, and a cluster of one writer and one reader. *)
Definition ex_template : HOST_INFO := HostInfo "?.xyz" [] 3306 UP false [] [] [] [].
Definition ex_service : TOPOLOGY_SERVICE := TopologyService 30000 "c1" (Some 1%positive) 1%positive None.
Definition ex_world : world :=
  World {[1%positive := ex_template]} ∅ {[1%positive := ex_service]} {[1%positive := Container true None None "c1"]}
    ∅ (Tables ∅ ∅) (Clocks (λ n, Z.of_nat n) (λ n, Z.of_nat n) 0).
Definition ex_rows : list MYSQL_ROW :=
  [[Some (S!"i1"); Some WRITER_SESSION_ID; Some (S!"2024-01-02"); None];
   [Some (S!"i2"); Some (S!"s2"); Some (S!"2024-01-02"); Some (S!"20")]].
Definition ex_connection : option TOPOLOGY_CONNECTION := Some (TopologyConnection (λ _, 0) (λ _, Some ex_rows)).

Lemma ex_ready : service_ready 1%positive ex_template ex_world.
Proof. split; [by exists ex_service, 1%positive|by exists ex_service, (Container true None None "c1")]. Qed.

Lemma ex_rows_ok : Forall row_ok ex_rows.
Proof. by repeat constructor. Qed.

Lemma query_for_topology_spec_witness :
  ∃ p w', query_for_topology 1%positive ex_connection ex_world = (Ok (Some p), w') ∧
    topology_at w' p (topology_of (omap (row_host ex_template) ex_rows)).1 (topology_of (omap (row_host ex_template) ex_rows)).2.
Proof.
  pose proof (query_for_topology_spec 1%positive ex_template ex_connection ex_world ex_ready) as H.
  destruct (H ex_rows_ok) as (p & w' & E & _ & _ & Ht). exists p, w'. exact (conj E Ht).
Defined.

Lemma queried_topology_spec_witness :
  ∃ p w' ws rs, query_for_topology 1%positive ex_connection ex_world = (Ok (Some p), w') ∧ topology_at w' p ws rs ∧
    NoDup (instance_name <$> ws ++ rs) ∧ (length ws ≤ 1)%nat.
Proof.
  destruct (queried_topology_spec 1%positive ex_template ex_connection ex_rows ex_world ex_ready eq_refl ex_rows_ok)
    as (p & w' & ws & rs & E & Ht & Hn & Hl & _). exists p, w', ws, rs. exact (conj E (conj Ht (conj Hn Hl))).
Defined.

Lemma get_topology_spec_witness :
  ∃ p w', get_topology 1%positive ex_connection false ex_world = (Ok (Some p), w') ∧
    topology_cache w' = <[S!"c1" := p]> ∅.
Proof.
  pose proof (get_topology_spec 1%positive ex_template ex_service ex_connection false ex_world) as H.
  destruct (H) as (p & w' & E & _ & _ & Hc); [split; apply map_Forall_empty|apply ex_ready|done|apply ex_rows_ok|].
  exists p, w'. exact (conj E Hc).
Defined.

(** ** The filter *)

Definition host_passes (ab : ALLOWED_AND_BLOCKED_HOSTS) (hosts : gmap loc HOST_INFO) (p : loc) : bool :=
  match hosts !! p with Some hi => host_allowed ab (get_host_id hi) | None => false end.
Definition writes (hosts : gmap loc HOST_INFO) (p : loc) : bool :=
  match hosts !! p with Some hi => is_host_writer hi | None => false end.

Lemma add_allowed_run ab q hs w t :
  w_topologies w !! q = Some t → all_hosts (w_hosts w) hs →
  ∃ time w', add_allowed ab q hs w = (Ok tt, w') ∧ w_hosts w' = w_hosts w ∧ topology_cache w' = topology_cache w ∧
    w_topologies w' = <[q := Topology (current_reader t) time (down_hosts t) (last_used_reader t)
      (writers t ++ filter (λ p, host_passes ab (w_hosts w) p && writes (w_hosts w) p) hs)
      (readers t ++ filter (λ p, host_passes ab (w_hosts w) p && negb (writes (w_hosts w) p)) hs)]> (w_topologies w).
Proof.
  revert w t. induction hs as [|h hs IH]; intros w t Ht Hall.
  { exists (t_last_updated t), w. rewrite !app_nil_r. split_and!; [done..|]. destruct t. by rewrite insert_id. }
  apply Forall_cons in Hall as [[hi Hh] Hall]. cbn [add_allowed]. rewrite (load_bind h hi) by done.
  assert (host_passes ab (w_hosts w) h = host_allowed ab (get_host_id hi)) as Ep by (unfold host_passes; by rewrite Hh).
  assert (writes (w_hosts w) h = is_host_writer hi) as Ew by (unfold writes; by rewrite Hh).
  rewrite !filter_cons_bool, Ep, Ew.
  destruct (host_allowed ab (get_host_id hi)) eqn:Ea; [|rewrite ret_bind; apply (IH w t Ht Hall)].
  rewrite (bind_Ok _ _ _ _ _ (add_host_run q h hi w t Hh Ht)).
  match goal with |- context [add_allowed ab q hs ?w1] => set (w1' := w1) end.
  destruct (IH w1' (set_updated (next_time w) (with_host h hi t)) ltac:(apply lookup_insert_eq) Hall)
    as (time & w' & E & Hh' & Hc' & Ht').
  exists time, w'. split; [done|]. split; [done|]. split; [done|]. rewrite Ht'. simpl. rewrite insert_insert_eq.
  f_equal. unfold with_host. destruct (is_host_writer hi); simpl; by rewrite <- app_assoc.
Qed.

Lemma filter_writers (b : bool) (hosts : gmap loc HOST_INFO) (l : list loc) (f : loc → bool) :
  Forall (λ p, is_host_writer <$> hosts !! p = Some b) l →
  filter (λ p, f p && writes hosts p) l = (if b then filter (λ p, f p) l else []) ∧
  filter (λ p, f p && negb (writes hosts p)) l = (if b then [] else filter (λ p, f p) l).
Proof.
  induction 1 as [|p l Hp Hl [IH1 IH2]]; [by destruct b|]. rewrite !filter_cons_bool, IH1, IH2.
  apply fmap_Some in Hp as (hi & Hp & Hb). unfold writes. rewrite Hp, <- Hb.
  by destruct b, (f p).
Qed.

Lemma get_filtered_topology_run this s p t w :
  store_ok w → w_services w !! this = Some s → w_topologies w !! p = Some t →
  match allowed_and_blocked_hosts s with
  | None => get_filtered_topology this (Some p) w = (Ok (Some p), w)
  | Some ab =>
    ∃ q time w', get_filtered_topology this (Some p) w = (Ok (Some q), w') ∧ w_hosts w' = w_hosts w ∧
      w_topologies w !! q = None ∧
      w_topologies w' = <[q := Topology (-1) time ∅ None
        (filter (λ h, host_passes ab (w_hosts w) h) (writers t))
        (filter (λ h, host_passes ab (w_hosts w) h) (readers t))]> (w_topologies w) ∧
      (allowed_host_ids ab = ∅ → ∀ l, filter (λ h, host_passes ab (w_hosts w) h) l = [])
  end.
Proof.
  intros Hok Hs Ht. unfold get_filtered_topology. rewrite (load_bind this s) by done.
  destruct (allowed_and_blocked_hosts s) as [ab|]; [|done].
  rewrite (bind_Ok _ _ _ _ _ (new_topology_run w)). set (q := fresh (dom (w_topologies w))).
  match goal with |- context [(deref _ ≫= _) ?w1] => set (w1' := w1) end.
  assert (w_topologies w !! q = None) as Hq by (apply not_elem_of_dom, is_fresh).
  assert (w_topologies w1' !! p = Some t) as Ht1
    by (simpl; rewrite lookup_insert_ne by congruence; exact Ht).
  cbn [deref]. rewrite ret_bind, (load_bind p t) by exact Ht1.
  destruct (proj1 Hok _ _ Ht) as [Hw Hr].
  destruct (add_allowed_run ab q (get_instances t) w1' _ (lookup_insert_eq _ _ _) (topology_ok_all _ _ (conj Hw Hr)))
    as (time & w' & E & Hh & Hc & Htp).
  exists q, time, w'. rewrite (bind_Ok _ _ _ _ _ E). split; [done|]. split; [done|]. split; [done|]. split.
  - rewrite Htp. simpl. rewrite insert_insert_eq. unfold get_instances. rewrite !filter_app.
    destruct (filter_writers true _ _ (host_passes ab (w_hosts w)) Hw) as [-> ->].
    destruct (filter_writers false _ _ (host_passes ab (w_hosts w)) Hr) as [-> ->].
    by rewrite app_nil_r.
  - intros He l. induction l as [|h l IH]; [done|]. rewrite filter_cons_bool, IH. unfold host_passes, host_allowed.
    rewrite He. by destruct (w_hosts w !! h).
Qed.

(** With allowed and blocked hosts set, the filtered topology is a new
    topology with exactly the writers and the readers whose host id is
    allowed and not blocked, in the old order and with the same host objects.
    An empty allowed set therefore filters out every host.  Without
    allowed and blocked hosts the topology itself is returned. *)
Theorem get_filtered_topology_spec this s p t w :
  store_ok w → w_services w !! this = Some s → w_topologies w !! p = Some t →
  match allowed_and_blocked_hosts s with
  | None => get_filtered_topology this (Some p) w = (Ok (Some p), w)
  | Some ab =>
    ∃ q time w', get_filtered_topology this (Some p) w = (Ok (Some q), w') ∧ w_hosts w' = w_hosts w ∧
      w_topologies w !! q = None ∧
      w_topologies w' = <[q := Topology (-1) time ∅ None
        (filter (λ h, host_passes ab (w_hosts w) h) (writers t))
        (filter (λ h, host_passes ab (w_hosts w) h) (readers t))]> (w_topologies w) ∧
      (allowed_host_ids ab = ∅ → ∀ l, filter (λ h, host_passes ab (w_hosts w) h) l = [])
  end.
Proof. apply get_filtered_topology_run. Qed.

(** A reader and a writer, both of which the filter lets through or not. *)
Definition ex_hosts : gmap loc HOST_INFO :=
  {[1%positive := HostInfo "i1.xyz" "i1" 3306 UP true [] [] [] "i1"; 2%positive := HostInfo "i2.xyz" "i2" 3306 UP false [] [] [] "i2"]}.
Definition ex_topology : CLUSTER_TOPOLOGY_INFO := Topology (-1) 0 ∅ None [1%positive] [2%positive].
Definition ex_filtered_world (ab : ALLOWED_AND_BLOCKED_HOSTS) : world :=
  World ex_hosts {[1%positive := ex_topology]} {[1%positive := TopologyService 30000 "c1" None 1%positive (Some ab)]}
    {[1%positive := Container true None None "c1"]} (<[S!"c1" := 1%positive]> ∅) (Tables ∅ ∅) (Clocks (λ _, 0) (λ _, 0) 0).

Lemma ex_filtered_ok ab : store_ok (ex_filtered_world ab).
Proof.
  split; [apply map_Forall_singleton; split; by constructor|].
  apply map_Forall_insert_2; [by exists ex_topology|apply map_Forall_empty].
Qed.

Lemma get_filtered_topology_spec_witness :
  ∃ q time w', get_filtered_topology 1%positive (Some 1%positive) (ex_filtered_world (AllowedAndBlocked ∅ {[S!"i2"]})) = (Ok (Some q), w') ∧
    w_topologies w' !! q = Some (Topology (-1) time ∅ None [] []).
Proof.
  pose proof (get_filtered_topology_spec 1%positive _ 1%positive ex_topology
    (ex_filtered_world (AllowedAndBlocked ∅ {[S!"i2"]})) (ex_filtered_ok _) eq_refl eq_refl) as H.
  destruct H as (q & time & w' & E & _ & _ & Ht & He). exists q, time, w'. split; [exact E|].
  rewrite Ht, !He by reflexivity. apply lookup_insert_eq.
Defined.

(** ** Marking hosts *)

Lemma mark_run (this h p : loc) s c hi t w (state : HOST_STATE) :
  w_services w !! this = Some s → w_containers w !! ts_metrics_container s = Some c →
  topology_cache w !! ts_cluster_id s = Some p → w_topologies w !! p = Some t → w_hosts w !! h = Some hi →
  let mark := match state with UP => mark_host_up | DOWN => mark_host_down end in
  let pair := {[get_host_port_pair hi]} in
  ∃ w', mark this (Some h) w = (Ok tt, w') ∧ w_services w' = w_services w ∧ w_containers w' = w_containers w ∧
    topology_cache w' = topology_cache w ∧ w_hosts w' = <[h := set_host_state state hi]> (w_hosts w) ∧
    w_topologies w' = <[p := set_down_hosts (match state with UP => down_hosts t ∖ pair | DOWN => pair ∪ down_hosts t end) t]> (w_topologies w).
Proof.
  intros Hs Hc Hp Ht Hh mark pair. destruct (get_from_cache_run this s c w Hs Hc) as [tb E]. rewrite Hp in E.
  destruct state; subst mark; unfold mark_host_up, mark_host_down; rewrite (bind_Ok _ _ _ _ _ E);
    unfold t_mark_host_up, t_mark_host_down, update, load, mbind, M_bind, heap; simpl; rewrite Hh; simpl;
    rewrite lookup_insert_eq; simpl; rewrite Ht; eexists; by split_and!.
Qed.

Lemma get_down_hosts_run this s c p w t :
  w_services w !! this = Some s → w_containers w !! ts_metrics_container s = Some c →
  topology_cache w !! ts_cluster_id s = Some p → w_topologies w !! p = Some t →
  ∃ w', get_down_hosts this w = (Ok (down_hosts t), w').
Proof.
  intros Hs Hc Hp Ht. destruct (get_from_cache_run this s c w Hs Hc) as [tb E]. unfold get_down_hosts.
  rewrite (bind_Ok _ _ _ _ _ E), Hp, (load_bind p t) by done. by eexists.
Qed.

(** Marking a host down sets its state and adds its host:port to the
    down hosts of the cached topology; marking it up does the reverse; the
    other down hosts stay.  With nothing cached for the cluster both are no-ops,
    and the host keeps its state. *)
Theorem mark_host_spec this s c h hi w :
  store_ok w → w_services w !! this = Some s → w_containers w !! ts_metrics_container s = Some c →
  w_hosts w !! h = Some hi →
  match topology_cache w !! ts_cluster_id s with
  | None => ∃ w1 w2, mark_host_down this (Some h) w = (Ok tt, w1) ∧ mark_host_up this (Some h) w = (Ok tt, w2) ∧
              w_hosts w1 = w_hosts w ∧ w_hosts w2 = w_hosts w ∧ w_topologies w1 = w_topologies w ∧ w_topologies w2 = w_topologies w
  | Some p => ∃ t w1 w2, w_topologies w !! p = Some t ∧
      mark_host_down this (Some h) w = (Ok tt, w1) ∧ mark_host_up this (Some h) w = (Ok tt, w2) ∧
      (∃ w3, get_down_hosts this w1 = (Ok ({[get_host_port_pair hi]} ∪ down_hosts t), w3)) ∧
      (∃ w3, get_down_hosts this w2 = (Ok (down_hosts t ∖ {[get_host_port_pair hi]}), w3)) ∧
      is_host_down <$> w_hosts w1 !! h = Some true ∧ is_host_up <$> w_hosts w2 !! h = Some true
  end.
Proof.
  intros Hok Hs Hc Hh. destruct (topology_cache w !! ts_cluster_id s) as [p|] eqn:Ep.
  - destruct (proj2 Hok _ _ Ep) as [t Ht]. exists t.
    destruct (mark_run this h p s c hi t w DOWN Hs Hc Ep Ht Hh) as (w1 & E1 & S1 & C1 & K1 & H1 & T1).
    destruct (mark_run this h p s c hi t w UP Hs Hc Ep Ht Hh) as (w2 & E2 & S2 & C2 & K2 & H2 & T2).
    exists w1, w2. split; [exact Ht|]. split; [exact E1|]. split; [exact E2|]. rewrite H1, H2, !lookup_insert_eq.
    split; [|split; [|done]].
    + apply (get_down_hosts_run this s c p _ (set_down_hosts _ t)); [by rewrite S1|by rewrite C1|by rewrite K1|].
      rewrite T1. apply lookup_insert_eq.
    + apply (get_down_hosts_run this s c p _ (set_down_hosts _ t)); [by rewrite S2|by rewrite C2|by rewrite K2|].
      rewrite T2. apply lookup_insert_eq.
  - destruct (get_from_cache_run this s c w Hs Hc) as [tb E]. rewrite Ep in E.
    unfold mark_host_down, mark_host_up. rewrite !(bind_Ok _ _ _ _ _ E). by eexists _, _.
Qed.

Lemma mark_host_spec_witness :
  let w := ex_filtered_world (AllowedAndBlocked ∅ ∅) in
  ∃ w1 w3, mark_host_down 1%positive (Some 2%positive) w = (Ok tt, w1) ∧
    get_down_hosts 1%positive w1 = (Ok ({[S!"i2.xyz:3306"]} ∪ ∅), w3).
Proof.
  intros w. pose proof (mark_host_spec 1%positive _ _ 2%positive _ w (ex_filtered_ok _) eq_refl eq_refl eq_refl) as H.
  destruct H as (t & w1 & w2 & Ht & E1 & _ & (w3 & E3) & _). injection Ht as <-. exists w1, w3. exact (conj E1 E3).
Defined.

(** ** Objects stay in place *)

(** Hosts keep their instance name, topologies their lists; objects are only
    added.  This holds for every outcome, undefined behaviour included. *)
Definition grown (w w' : world) : Prop :=
  (∀ p hi, w_hosts w !! p = Some hi → ∃ hi', w_hosts w' !! p = Some hi' ∧ instance_name hi' = instance_name hi) ∧
  (∀ p t, w_topologies w !! p = Some t →
     ∃ t', w_topologies w' !! p = Some t' ∧ writers t' = writers t ∧ readers t' = readers t).

#[export] Instance grown_preorder : PreOrder grown.
Proof.
  split; [by intros w; split; eauto|]. intros w1 w2 w3 [H1 T1] [H2 T2]. split.
  - intros p hi Hp. destruct (H1 p hi Hp) as (hi' & Hp' & E). destruct (H2 p hi' Hp') as (hi'' & ? & ?). eexists. split; [done|congruence].
  - intros p t Hp. destruct (T1 p t Hp) as (t' & Hp' & E & E'). destruct (T2 p t' Hp') as (t'' & ? & ? & ?).
    eexists. split; [done|]. split; congruence.
Qed.

Lemma grown_same w w' : w_hosts w' = w_hosts w → w_topologies w' = w_topologies w → grown w w'.
Proof. intros H1 H2. split; rewrite ?H1, ?H2; eauto. Qed.

Lemma grown_host w p x : w_hosts w !! p = None → grown w (set_heap (<[p := x]> (w_hosts w)) w).
Proof.
  intros Hp. split; simpl; [|eauto]. intros q hi Hq. exists hi. split; [|done].
  rewrite lookup_insert_ne; [done|congruence].
Qed.

Lemma grown_topology w p t :
  (∀ t0, w_topologies w !! p = Some t0 → writers t = writers t0 ∧ readers t = readers t0) →
  grown w (set_heap (<[p := t]> (w_topologies w)) w).
Proof.
  intros Hp. split; simpl; [eauto|]. intros q t0 Hq. destruct (decide (q = p)) as [->|Hne].
  - rewrite lookup_insert_eq. destruct (Hp _ Hq). eauto.
  - rewrite lookup_insert_ne by done. eauto.
Qed.

Lemma fresh_host w : w_hosts w !! fresh (dom (w_hosts w)) = None.
Proof. apply not_elem_of_dom, is_fresh. Qed.
Lemma fresh_topology w : w_topologies w !! fresh (dom (w_topologies w)) = None.
Proof. apply not_elem_of_dom, is_fresh. Qed.
#[export] Hint Resolve fresh_host fresh_topology : odbc.

(** A call that keeps [grown w0] may be prefixed and suffixed by such calls. *)
Lemma grows_bind {A B} w0 (m : M world A) (k : A → M world B) :
  preserves (grown w0) m → (∀ s a s', grown w0 s → m s = (Ok a, s') → grown w0 (k a s').2) →
  preserves (grown w0) (m ≫= k).
Proof.
  intros Hm Hk s Hs. specialize (Hm s Hs). unfold mbind, M_bind. specialize (Hk s).
  destruct (m s) as [[a|e|] s'] eqn:E; [by apply Hk|done..].
Qed.

Lemma grows_same {A} w0 (m : M world A) :
  (∀ w, w_hosts (m w).2 = w_hosts w ∧ w_topologies (m w).2 = w_topologies w) → preserves (grown w0) m.
Proof. intros Hm w Hw. destruct (Hm w). etrans; [exact Hw|by apply grown_same]. Qed.

Lemma grows_load {T} `{Stored T} w0 p : preserves (grown w0) (load (T := T) p).
Proof. by apply grows_same. Qed.
Lemma grows_time w0 : preserves (grown w0) time0.
Proof. by apply grows_same. Qed.
Lemma grows_steady w0 : preserves (grown w0) steady_now.
Proof. by apply grows_same. Qed.
Lemma grows_register w0 p m : preserves (grown w0) (register_with p m).
Proof.
  apply grows_same. intros w. unfold register_with, mbind, M_bind, load. simpl. by destruct (w_containers w !! p).
Qed.
#[export] Hint Resolve grows_load grows_time grows_steady grows_register : odbc.

Lemma grows_column w0 row i : preserves (grown w0) (column row i).
Proof. by apply grows_same. Qed.
Lemma grows_endpoint w0 this n : preserves (grown w0) (get_host_endpoint this n).
Proof. unfold get_host_endpoint. solve_preserves. Qed.
#[export] Hint Resolve grows_column grows_endpoint : odbc.

(** Updates of objects that are new, or that keep what [grown] keeps. *)
Lemma grows_update_host w0 p f :
  w_hosts w0 !! p = None ∨ (∀ hi, instance_name (f hi) = instance_name hi) → preserves (grown w0) (update p f).
Proof.
  intros Hp w [Hh Ht]. unfold update, heap. simpl. destruct (w_hosts w !! p) as [hi|] eqn:E; [|by split].
  split; simpl; [|done]. intros q x Hq. destruct (Hh q x Hq) as (x' & Hx & En).
  destruct (decide (q = p)) as [->|Hne]; [|rewrite lookup_insert_ne; eauto].
  destruct Hp as [Hp|Hp]; [congruence|]. rewrite lookup_insert_eq. eexists. split; [done|]. rewrite Hp. congruence.
Qed.

Lemma grows_update_topology w0 p f :
  w_topologies w0 !! p = None ∨ (∀ t, writers (f t) = writers t ∧ readers (f t) = readers t) →
  preserves (grown w0) (update p f).
Proof.
  intros Hp w [Hh Ht]. unfold update, heap. simpl. destruct (w_topologies w !! p) as [t|] eqn:E; [|by split].
  split; simpl; [done|]. intros q x Hq. destruct (Ht q x Hq) as (x' & Hx & E1 & E2).
  destruct (decide (q = p)) as [->|Hne]; [|rewrite lookup_insert_ne; eauto].
  destruct Hp as [Hp|Hp]; [congruence|]. rewrite lookup_insert_eq. eexists. split; [done|].
  destruct (Hp t). split; congruence.
Qed.

Lemma grown_None w w' p : grown w w' → w_hosts w' !! p = None → w_hosts w !! p = None.
Proof. intros [Hh _] Hp. destruct (w_hosts w !! p) as [hi|] eqn:E; [|done]. destruct (Hh _ _ E) as (? & ? & _). congruence. Qed.
Lemma grown_None_topology w w' p : grown w w' → w_topologies w' !! p = None → w_topologies w !! p = None.
Proof. intros [_ Ht] Hp. destruct (w_topologies w !! p) as [t|] eqn:E; [|done]. destruct (Ht _ _ E) as (? & ? & _). congruence. Qed.

Lemma grows_create_host w0 this row : preserves (grown w0) (create_host this row).
Proof.
  unfold create_host. apply preserves_bind; [auto with odbc|intros [id|]; [|solve_preserves]].
  apply preserves_bind; [auto with odbc|intros ep]. apply preserves_bind; [auto with odbc|intros s].
  apply preserves_bind; [auto with odbc|intros template]. apply preserves_bind; [auto with odbc|intros t].
  apply grows_bind; [intros w Hw; etrans; [exact Hw|]; apply grown_host; auto with odbc|].
  intros w p w' Hw Hp.
  assert (w_hosts w0 !! p = None) as Hnew by (injection Hp as <- _; eapply grown_None; [exact Hw|]; auto with odbc).
  assert (grown w0 w') as Hw' by (injection Hp as _ <-; etrans; [exact Hw|]; apply grown_host; auto with odbc).
  clear Hp. revert w' Hw'. match goal with |- ∀ w', _ → grown _ (?m w').2 => change (preserves (grown w0) m) end.
  solve_preserves; apply grows_update_host; by left.
Qed.

Lemma grows_add_host w0 topo h : w_topologies w0 !! topo = None → preserves (grown w0) (add_host topo h).
Proof. intros Ht. unfold add_host, update_time. solve_preserves; apply grows_update_topology; by left. Qed.

Lemma grows_fetch_rows w0 this topo rows inst lw :
  w_topologies w0 !! topo = None → preserves (grown w0) (fetch_rows this topo rows inst lw).
Proof.
  intros Ht. pose proof (grows_create_host w0) as Hc. pose proof (grows_add_host w0 topo) as Ha.
  revert inst lw. induction rows as [|row rows IH]; intros inst lw; cbn [fetch_rows]; [solve_preserves|].
  apply preserves_bind; [apply Hc|intros [h|]; [|apply IH]]. apply preserves_bind; [auto with odbc|intros hi].
  destruct (is_host_writer hi); (apply preserves_bind; [unfold is_later, does_instance_exist; solve_preserves|intros r]);
    [apply IH|]. apply preserves_bind; [destruct r.1; [solve_preserves|by apply Ha]|intros _; apply IH].
Qed.

Lemma grows_read_topology w0 this rows : preserves (grown w0) (read_topology this rows).
Proof.
  unfold read_topology. apply grows_bind.
  - intros w Hw. rewrite new_topology_run. etrans; [exact Hw|]. apply (grown_topology w). intros t0 Ht.
    by rewrite fresh_topology in Ht.
  - intros w p w' Hw Hp.
    assert (w_topologies w0 !! p = None) as Hnew
      by (rewrite new_topology_run in Hp; injection Hp as <- _; eapply grown_None_topology; [exact Hw|]; auto with odbc).
    assert (grown w0 w') as Hw'.
    { rewrite new_topology_run in Hp. injection Hp as _ <-. etrans; [exact Hw|]. apply (grown_topology w). intros t0 Ht.
      by rewrite fresh_topology in Ht. }
    clear Hp. revert w' Hw'. match goal with |- ∀ w', _ → grown _ (?m w').2 => change (preserves (grown w0) m) end.
    pose proof (grows_fetch_rows w0 this p) as Hf. pose proof (grows_add_host w0 p) as Ha.
    apply preserves_bind; [by apply Hf|intros r]. unfold does_instance_exist. solve_preserves; by apply Ha.
Qed.

Lemma grows_get_from_cache w0 this : preserves (grown w0) (get_from_cache this).
Proof. unfold get_from_cache. solve_preserves. Qed.
#[export] Hint Resolve grows_read_topology grows_get_from_cache : odbc.

Lemma grows_get_topology w0 this connection force_update : preserves (grown w0) (get_topology this connection force_update).
Proof. unfold get_topology, refresh_needed, query_for_topology, put_to_cache. solve_preserves; by apply grows_same. Qed.

Lemma grows_mark_up w0 this h : preserves (grown w0) (mark_host_up this h).
Proof.
  unfold mark_host_up, t_mark_host_up. solve_preserves; [apply grows_update_host|apply grows_update_topology]; by right.
Qed.

Lemma grows_mark_down w0 this h : preserves (grown w0) (mark_host_down this h).
Proof.
  unfold mark_host_down, t_mark_host_down. solve_preserves; [apply grows_update_host|apply grows_update_topology]; by right.
Qed.
#[export] Hint Resolve grows_get_topology grows_mark_up grows_mark_down : odbc.

(** ** The store stays well-formed *)

(** A host that no topology has may be given any role. *)
Definition unlisted (p : loc) (w : world) : Prop :=
  ∀ q t, w_topologies w !! q = Some t → p ∉ writers t ∧ p ∉ readers t.
Definition store_ok_beside (p : loc) (w : world) : Prop := store_ok w ∧ unlisted p w.

Lemma preserves_update_unlisted p f : preserves (store_ok_beside p) (update (T := HOST_INFO) p f).
Proof.
  intros w [[Ht Hc] Hu]. unfold update, heap. simpl. destruct (w_hosts w !! p) as [hi|] eqn:E; [|done].
  split; [|exact Hu]. split; [|exact Hc]. intros q t Hq. destruct (Ht q t Hq) as [H1 H2], (Hu q t Hq) as [N1 N2]. simpl.
  split; apply list.Forall_forall; intros h Hh; rewrite lookup_insert_ne by (intros ->; contradiction);
    [by apply (proj1 (list.Forall_forall _ _) H1)|by apply (proj1 (list.Forall_forall _ _) H2)].
Qed.

Lemma unlisted_fresh w : store_ok w → unlisted (fresh (dom (w_hosts w))) w.
Proof.
  intros [Ht _] q t Hq. destruct (Ht q t Hq) as [H1 H2].
  split; intros Hin; [apply (proj1 (list.Forall_forall _ _) H1) in Hin|apply (proj1 (list.Forall_forall _ _) H2) in Hin];
    apply fmap_Some in Hin as (hi & Hhi & _); by rewrite fresh_host in Hhi.
Qed.

Lemma preserves_column row i : preserves store_ok (column row i).
Proof. by intros w Hw. Qed.
Lemma preserves_endpoint this n : preserves store_ok (get_host_endpoint this n).
Proof. unfold get_host_endpoint. solve_preserves. Qed.
#[export] Hint Resolve preserves_column preserves_endpoint : odbc.

Lemma preserves_create_host this row : preserves store_ok (create_host this row).
Proof.
  unfold create_host. apply preserves_bind; [auto with odbc|intros [id|]; [|solve_preserves]].
  apply preserves_bind; [auto with odbc|intros ep]. apply preserves_bind; [auto with odbc|intros s].
  apply preserves_bind; [auto with odbc|intros template]. apply preserves_bind; [auto with odbc|intros t].
  intros w Hw. set (p := fresh (dom (w_hosts w))).
  match goal with |- context [(make_shared ?x ≫= ?k) w] =>
    rewrite (bind_Ok _ k w p (set_heap (<[p := x]> (w_hosts w)) w)) by done;
    assert (store_ok_beside p (set_heap (<[p := x]> (w_hosts w)) w)) as Hb
      by (split; [by apply preserves_make_host|exact (unlisted_fresh w Hw)]) end.
  match goal with |- store_ok (?m ?w1).2 => assert (preserves (store_ok_beside p) m) as Hm; [|by apply Hm] end.
  solve_preserves; first [apply preserves_update_unlisted|by intros ? ?].
Qed.
#[export] Hint Resolve preserves_create_host : odbc.

Lemma preserves_fetch_rows this topo rows inst lw : preserves store_ok (fetch_rows this topo rows inst lw).
Proof.
  revert inst lw. induction rows as [|row rows IH]; intros inst lw; cbn [fetch_rows]; [solve_preserves|].
  unfold is_later, does_instance_exist. solve_preserves.
Qed.
#[export] Hint Resolve preserves_fetch_rows : odbc.

Lemma preserves_query_for_topology this c : preserves store_ok (query_for_topology this c).
Proof. unfold query_for_topology, read_topology, does_instance_exist. solve_preserves. Qed.

(** Topologies are never deleted. *)
Definition has_topology (n : loc) (w : world) : Prop := is_Some (w_topologies w !! n).

Lemma has_update n p f : preserves (has_topology n) (update (T := CLUSTER_TOPOLOGY_INFO) p f).
Proof.
  intros w Hw. unfold update, heap. simpl. destruct (w_topologies w !! p); [|done]. unfold has_topology. simpl.
  rewrite lookup_insert_is_Some'. by right.
Qed.
Lemma has_update_host n p f : preserves (has_topology n) (update (T := HOST_INFO) p f).
Proof. intros w Hw. unfold update, heap. simpl. by destruct (w_hosts w !! p). Qed.
Lemma has_register n p m : preserves (has_topology n) (register_with p m).
Proof. intros w Hw. unfold register_with, mbind, M_bind, load. simpl. by destruct (w_containers w !! p). Qed.

Ltac solve_has := solve_preserves; first [apply has_update|apply has_update_host|apply has_register|by intros ? ?].

Lemma has_add_host n topo h : preserves (has_topology n) (add_host topo h).
Proof. unfold add_host, update_time. solve_has. Qed.
Lemma has_create_host n this row : preserves (has_topology n) (create_host this row).
Proof. unfold create_host, get_host_endpoint. solve_has. Qed.
Lemma has_fetch_rows n this topo rows inst lw : preserves (has_topology n) (fetch_rows this topo rows inst lw).
Proof.
  pose proof (has_create_host n) as Hc. pose proof (has_add_host n) as Ha.
  revert inst lw. induction rows as [|row rows IH]; intros inst lw; cbn [fetch_rows]; [solve_has|].
  apply preserves_bind; [apply Hc|intros [h|]; [|apply IH]]. unfold is_later, does_instance_exist.
  solve_preserves; first [apply IH|apply Ha|by intros ? ?].
Qed.

(** The topology that a query gives exists. *)
Lemma query_exists this c w p w' : query_for_topology this c w = (Ok (Some p), w') → has_topology p w'.
Proof.
  unfold query_for_topology. intros (t0 & w1 & _ & (o & w2 & E & H)%bind_inv_Ok)%bind_inv_Ok.
  assert (o = Some p ∧ (has_topology p w2 → has_topology p w')) as [-> Hkeep].
  { apply bind_inv_Ok in H as (t1 & w3 & E3 & (s & w4 & E4 & (u & w5 & E5 & E6)%bind_inv_Ok)%bind_inv_Ok). injection E6 as -> <-.
    split; [done|]. intros Hp. pose proof (has_register p (ts_metrics_container s) (MTopologyQuery (t1 - t0)) w4) as Hr. rewrite E5 in Hr.
    apply Hr. unfold load in E4. destruct (heap w3 !! this); [|done]. injection E4 as _ <-. by injection E3 as _ <-. }
  apply Hkeep. destruct (try_execute_query c RETRIEVE_TOPOLOGY_SQL) as [rows|]; [|done].
  apply bind_inv_Ok in E as (q & w2' & E & Eq). injection Eq as -> <-. unfold read_topology in E.
  apply bind_inv_Ok in E as (n & wn & En & (r & wr & Er & (v & wv & Ev & E)%bind_inv_Ok)%bind_inv_Ok). injection E as -> <-.
  rewrite new_topology_run in En. injection En as <- <-.
  match type of Er with fetch_rows _ ?n _ _ _ ?x = _ => assert (has_topology n x) as Hn by (eexists; apply lookup_insert_eq) end.
  match type of Er with fetch_rows _ ?n _ _ _ _ = _ => apply (has_fetch_rows n this n rows ∅ None) in Hn end. rewrite Er in Hn. simpl in Hn.
  match type of Ev with ?m _ = _ => assert (preserves (has_topology (fresh (dom (w_topologies w1)))) m) as Hm end.
  - pose proof (has_add_host (fresh (dom (w_topologies w1)))). unfold does_instance_exist.
    solve_preserves; first [done|by intros ? ?].
  - apply Hm in Hn. by rewrite Ev in Hn.
Qed.

Lemma preserves_get_from_cache this : preserves store_ok (get_from_cache this).
Proof. unfold get_from_cache. solve_preserves. Qed.
#[export] Hint Resolve preserves_query_for_topology preserves_get_from_cache : odbc.

Lemma preserves_put_to_cache this p w : store_ok w → has_topology p w → store_ok (put_to_cache this p w).2.
Proof.
  intros [Ht Hc] Hp. unfold put_to_cache, mbind, M_bind, load. destruct (heap w !! this) as [s|]; [|done].
  split; [exact Ht|]. simpl. by apply map_Forall_insert_2.
Qed.

Lemma preserves_get_topology this c force : preserves store_ok (get_topology this c force).
Proof.
  unfold get_topology. apply preserves_bind; [auto with odbc|intros cached].
  apply preserves_bind; [unfold refresh_needed; solve_preserves|intros [|]; [|solve_preserves]].
  intros w Hw. pose proof (preserves_query_for_topology this c w Hw) as Hq.
  unfold mbind at 1, M_bind at 1. destruct (query_for_topology this c w) as [[[p|]|e|] w1] eqn:E; simpl in Hq |- *; try done.
  pose proof (preserves_put_to_cache this p w1 Hq (query_exists _ _ _ _ _ E)) as Hp.
  unfold mbind, M_bind. by destruct (put_to_cache this p w1) as [[[]|e|] w2].
Qed.

Lemma preserves_add_allowed ab f hs : preserves store_ok (add_allowed ab f hs).
Proof. induction hs as [|h hs IH]; cbn [add_allowed]; solve_preserves. Qed.

(** A service, a container and a clock are not part of the invariant. *)
Lemma preserves_aside {A} (m : M world A) :
  (∀ w, w_hosts (m w).2 = w_hosts w ∧ w_topologies (m w).2 = w_topologies w ∧ topology_cache (m w).2 = topology_cache w) →
  preserves store_ok m.
Proof. intros Hm w Hw. destruct (Hm w) as (E1 & E2 & E3). unfold store_ok. by rewrite E1, E2, E3. Qed.

Lemma preserves_update_service p f : preserves store_ok (update (T := TOPOLOGY_SERVICE) p f).
Proof. apply preserves_aside. intros w. unfold update, heap. simpl. by destruct (w_services w !! p). Qed.
Lemma preserves_update_container p f : preserves store_ok (update (T := METRICS_CONTAINER) p f).
Proof. apply preserves_aside. intros w. unfold update, heap. simpl. by destruct (w_containers w !! p). Qed.

(** C16: Every operation of a topology, its two constructors included, and every
    operation of the topology service keep the store well-formed, also when they
    throw and when they end in undefined behaviour: the writers of a topology
    are writers, its readers are not, both exist, and the cache names existing
    topologies.  The one operation with a condition is [put_to_cache], which is
    private: the topology it is given must exist, as it does where the service
    calls it. *)
Theorem topology_ops_preserve this h r rand :
  (preserves store_ok new_topology ∧ preserves store_ok (copy_topology this) ∧ preserves store_ok (add_host this h) ∧
   preserves store_ok (remove_host this h) ∧ preserves store_ok (get_writer this) ∧ preserves store_ok (get_next_reader rand this) ∧
   (∀ i, preserves store_ok (get_reader this i)) ∧
   preserves store_ok (t_mark_host_down this h) ∧ preserves store_ok (t_mark_host_up this h) ∧
   preserves store_ok (t_set_last_used_reader this r) ∧ preserves store_ok (update_time this)) ∧
  (∀ ctime, preserves store_ok (new_topology_service ctime)) ∧ preserves store_ok (copy_topology_service this) ∧
  (∀ cid, preserves store_ok (set_cluster_id this cid)) ∧ preserves store_ok (set_cluster_instance_template this h) ∧
  (∀ rate, preserves store_ok (set_refresh_rate this rate)) ∧ (∀ b, preserves store_ok (ts_set_gather_metric this b)) ∧
  (∀ hosts, preserves store_ok (set_allowed_and_blocked_hosts this hosts)) ∧
  preserves store_ok clear_all ∧ preserves store_ok (clear this) ∧ preserves store_ok (get_cached_topology this) ∧
  preserves store_ok (get_last_used_reader this) ∧ preserves store_ok (set_last_used_reader this r) ∧
  preserves store_ok (get_down_hosts this) ∧ preserves store_ok (mark_host_down this r) ∧ preserves store_ok (mark_host_up this r) ∧
  (∀ c force, preserves store_ok (get_topology this c force)) ∧ (∀ t, preserves store_ok (get_filtered_topology this t)) ∧
  (∀ p w, store_ok w → has_topology p w → store_ok (put_to_cache this p w).2).
Proof.
  pose proof preserves_add_allowed as Hadd.
  assert (∀ t : TOPOLOGY_SERVICE, preserves store_ok (make_shared t)) as Hmake by (intros t; by apply preserves_aside).
  assert (∀ t : METRICS_CONTAINER, preserves store_ok (make_shared t)) as Hmakec by (intros t; by apply preserves_aside).
  pose proof preserves_update_service. pose proof preserves_update_container.
  unfold new_topology_service, copy_topology_service, set_cluster_id, set_cluster_instance_template, set_refresh_rate,
    ts_set_gather_metric, set_allowed_and_blocked_hosts, clear_all, clear, get_cached_topology, get_last_used_reader,
    set_last_used_reader, get_down_hosts, mark_host_down, mark_host_up, get_filtered_topology, refresh_needed, get_writer, get_reader.
  split; [split_and!; first [apply preserves_copy_topology|apply preserves_get_next_reader|intros; solve_preserves]|].
  split_and!; intros; try by solve_preserves.
  - intros w [Ht _]. by split; [exact Ht|apply map_Forall_empty].
  - solve_preserves. destruct H1 as [Ht Hc]. split; [exact Ht|]. by apply map_Forall_delete.
  - apply preserves_get_topology.
  - by apply preserves_put_to_cache.
Qed.

Lemma topology_ops_preserve_witness :
  let w := set_cache {[S!"c1" := 1%positive]} (ex_filtered_world (AllowedAndBlocked ∅ ∅)) in
  store_ok w ∧ store_ok (get_topology 1%positive ex_connection true w).2 ∧ store_ok (put_to_cache 1%positive 1%positive w).2.
Proof.
  intros w. assert (store_ok w) as Hw.
  { split; [apply ex_filtered_ok|]. apply map_Forall_singleton. by eexists. }
  destruct (topology_ops_preserve 1%positive 1%positive None (λ x, x)) as (_ & H).
  split; [exact Hw|]. do 15 destruct H as [_ H]. destruct H as (Hg & _ & Hp).
  split; [by apply Hg|]. apply Hp; [exact Hw|by eexists].
Defined.
