(* ===== verification/FailoverSync.v ===== *)
(** Synchronization of the failover tasks: [FAILOVER_SYNC]
    (src/driver/failover_writer_handler.cc), the connections the tasks open
    and release, and the base class [FAILOVER]. *)

From S2P Require Import Prelude.

Local Open Scope Z_scope.

(** ** [FAILOVER_SYNC] *)

(** [src/driver/failover.h:56-68] FAILOVER_SYNC

    The mutex makes every method atomic. *)
Record FAILOVER_SYNC := Sync { num_tasks : Z }.

(** [src/driver/failover_writer_handler.cc:40-43] FAILOVER_SYNC::increment_task *)
Definition increment_task : M FAILOVER_SYNC unit := modify (λ s, Sync (num_tasks s + 1)).

(** [src/driver/failover_writer_handler.cc:45-57] FAILOVER_SYNC::mark_as_complete *)
Definition mark_as_complete (cancel_other_tasks : bool) : M FAILOVER_SYNC unit :=
  s ← get;
  if cancel_other_tasks then put (Sync 0)
  else if num_tasks s <=? 0 then throw (runtime_error "Trying to cancel a failover process that is already done.")
  else put (Sync (num_tasks s - 1)).

(** [src/driver/failover_writer_handler.cc:65-68] FAILOVER_SYNC::is_completed *)
Definition is_completed (s : FAILOVER_SYNC) : bool := num_tasks s <=? 0.

(** [src/driver/failover_writer_handler.cc:59-63] FAILOVER_SYNC::wait_and_complete

    The wait ends when the tasks are done or the time is over; [timed_out]
    tells whether the time is over. *)
Definition wait_and_complete (timed_out : bool) (s : FAILOVER_SYNC) : option FAILOVER_SYNC :=
  if is_completed s || timed_out then Some (Sync 0) else None.

(** Completion is final: once done, tasks only report or fail, and
    [mark_as_complete(false)] then throws. *)
Lemma mark_completed b s r s' :
  is_completed s = true → mark_as_complete b s = (r, s') → is_completed s' = true.
Proof.
  unfold mark_as_complete, is_completed, mbind, M_bind, get, put, throw. simpl. intros Hc.
  destruct b; [by intros [= <- <-]|]. rewrite Hc. by intros [= <- <-].
Qed.

Lemma mark_true s : mark_as_complete true s = (Ok tt, Sync 0).
Proof. done. Qed.

Lemma mark_false s :
  mark_as_complete false s =
    if is_completed s then (Throw (runtime_error "Trying to cancel a failover process that is already done."), s)
    else (Ok tt, Sync (num_tasks s - 1)).
Proof. unfold mark_as_complete, is_completed, mbind, M_bind, get, put, throw. simpl. by destruct (num_tasks s <=? 0). Qed.

(** ** Connections *)

(** A [CONNECTION_PROXY*] that was opened.  The live ones are those opened and
    not yet deleted, with the host they were opened to. *)
Abbreviation conn := positive.
Abbreviation conns := (gmap conn positive).

(** What [CONNECTION_HANDLER::connect] may do: return the null pointer, or a
    connection with the answer of its [is_connected], or throw, when
    [clone_dbc] cannot allocate a connection handle
    (src/driver/connection_handler.cc:124-128). *)
Inductive connect_outcome := NoConnection | Connection (connected : bool) | ConnectThrew.

(** [src/driver/failover_writer_handler.cc:89-92] FAILOVER::connect

    The new connection, whether it is connected, and the live connections;
    [None] when it throws, which leaves [new_connection] as it was. *)
Definition connect (host : positive) (o : connect_outcome) (live : conns) : option (option conn * bool * conns) :=
  match o with
  | NoConnection => Some (None, false, live)
  | Connection b => let c := fresh (dom live) in Some (Some c, b, <[c := host]> live)
  | ConnectThrew => None
  end.

(** [src/driver/failover_writer_handler.cc:99-105] FAILOVER::release_new_connection

    Deleting a connection that is not live is undefined. *)
Definition release_new_connection (c : option conn) (live : conns) : option conns :=
  match c with
  | None => Some live
  | Some c => match live !! c with Some _ => Some (delete c live) | None => None end
  end.

Lemma fresh_conn (live : conns) : live !! fresh (dom live) = None.
Proof. apply not_elem_of_dom, is_fresh. Qed.
