(* ===== verification/FailoverReader.v ===== *)
(** Reader failover: [FAILOVER_READER_HANDLER] and the connection task
    [CONNECT_TO_READER_HANDLER] (src/driver/failover_reader_handler.cc).

    A task is an automaton whose states are the points of [operator()] between
    two operations on shared objects; a pair of tasks and the thread that
    polls them form a transition system.  The environment chooses what
    [CONNECTION_HANDLER::connect] returns and when a time-out has passed. *)

From S2P Require Import Prelude CppString HostInfo Metrics World ClusterTopology TopologyService FailoverSync.

Local Open Scope Z_scope.

(** ** The list of hosts *)

(** Whether a host is marked down. *)
Definition marked_down (hosts : gmap loc HOST_INFO) (p : loc) : bool :=
  match hosts !! p with Some hi => is_host_down hi | None => false end.

Section BuildHostsList.
  (** [std::shuffle] with the state of the random engine, which the three
      shuffles share. *)
  Context {rng : Type} (shuffle : rng → list loc → list loc * rng).

(** [src/driver/failover_reader_handler.cc:135-171] FAILOVER_READER_HANDLER::build_hosts_list *)
Definition build_hosts_list (engine : rng) (topology_info : loc) (include_writers : bool) : M world (list loc) :=
  t ← load (T := CLUSTER_TOPOLOGY_INFO) topology_info;
  hosts ← gets w_hosts;
  if forallb (λ p, bool_decide (is_Some (hosts !! p))) (get_readers t) then
    let readers_up := filter (λ p, negb (marked_down hosts p)) (get_readers t) in
    let readers_down := filter (λ p, Is_true (marked_down hosts p)) (get_readers t) in
    let '(readers_up, engine) := shuffle engine readers_up in
    let '(readers_down, engine) := shuffle engine readers_down in
    let writers := if include_writers then (shuffle engine (get_writers t)).1 else [] in
    mret (readers_up ++ readers_down ++ writers)
  else undefined.
End BuildHostsList.

(** ** The connection task *)

(** The points of [CONNECT_TO_READER_HANDLER::operator()]. *)
Inductive reader_pc :=
  | R_Start                     (** before the first [is_completed] *)
  | R_Connect                   (** before [connect(reader)] *)
  | R_MarkUp                    (** connected, before [mark_host_up] *)
  | R_Check                     (** before the second [is_completed] *)
  | R_Publish                   (** before the result is filled in *)
  | R_Complete                  (** before [mark_as_complete(true)] *)
  | R_MarkDown                  (** not connected, before [mark_host_down] *)
  | R_CheckFailed               (** before the third [is_completed] *)
  | R_Signal                    (** before [mark_as_complete(false)] *)
  | R_Release                   (** before [release_new_connection] *)
  | R_Done
  | R_Threw.                    (** ended with an exception *)

#[export] Instance reader_pc_eq_dec : EqDecision reader_pc.
Proof. solve_decision. Defined.

(** A task: its host, its point, its [new_connection], and the
    connection in its result when [result->connected] is set. *)
Record reader_task := ReaderTask {
  rt_host : loc;
  rt_pc : reader_pc;
  rt_conn : option conn;
  rt_result : option conn
}.

(** What the tasks share. *)
Record shared := Shared { sh_sync : FAILOVER_SYNC; sh_live : conns; sh_world : world }.

Definition goto (pc : reader_pc) (t : reader_task) : reader_task := ReaderTask (rt_host t) pc (rt_conn t) (rt_result t).
Definition set_world (w : world) (s : shared) : shared := Shared (sh_sync s) (sh_live s) w.

(** [src/driver/failover_reader_handler.cc:276-317] CONNECT_TO_READER_HANDLER::operator()

    One step of a task; [o] is what [connect] returns when it is called.
    [None] when the task has ended, or the behaviour is undefined. *)
Definition reader_step (ts : loc) (o : connect_outcome) (t : reader_task) (s : shared) : option (reader_task * shared) :=
  let completed := is_completed (sh_sync s) in
  match rt_pc t with
  | R_Start => Some (goto (if completed then R_Release else R_Connect) t, s)
  | R_Connect =>
    match connect (rt_host t) o (sh_live s) with
    | Some (c, connected, live) =>
      Some (ReaderTask (rt_host t) (if connected : bool then R_MarkUp else R_MarkDown) c (rt_result t),
            Shared (sh_sync s) live (sh_world s))
    | None => Some (goto R_Threw t, s)
    end
  | R_MarkUp =>
    match mark_host_up ts (Some (rt_host t)) (sh_world s) with
    | (Ok _, w) => Some (goto R_Check t, set_world w s)
    | _ => None
    end
  | R_Check => Some (goto (if completed then R_Release else R_Publish) t, s)
  | R_Publish => Some (ReaderTask (rt_host t) R_Complete (rt_conn t) (rt_conn t), s)
  | R_Complete =>
    match mark_as_complete true (sh_sync s) with
    | (Ok _, y) => Some (goto R_Done t, Shared y (sh_live s) (sh_world s))
    | (Throw _, _) => Some (goto R_Threw t, s)
    | _ => None
    end
  | R_MarkDown =>
    match mark_host_down ts (Some (rt_host t)) (sh_world s) with
    | (Ok _, w) => Some (goto R_CheckFailed t, set_world w s)
    | _ => None
    end
  | R_CheckFailed => Some (goto (if completed then R_Release else R_Signal) t, s)
  | R_Signal =>
    match mark_as_complete false (sh_sync s) with
    | (Ok _, y) => Some (goto R_Release t, Shared y (sh_live s) (sh_world s))
    | (Throw _, _) => Some (goto R_Threw t, s)
    | _ => None
    end
  | R_Release =>
    live ← release_new_connection (rt_conn t) (sh_live s);
    Some (ReaderTask (rt_host t) R_Done None (rt_result t), Shared (sh_sync s) live (sh_world s))
  | R_Done | R_Threw => None
  end.

Definition finished (t : reader_task) : bool := bool_decide (rt_pc t = R_Done) || bool_decide (rt_pc t = R_Threw).

(** ** A pair of tasks and the thread that polls them *)

(** The points of one round of [get_connection_from_hosts]. *)
Inductive poll_pc :=
  | P_Wait                      (** in [wait_and_complete] *)
  | P_First                     (** before the first future is looked at *)
  | P_Second                    (** before the second future is looked at *)
  | P_Check                     (** before the test for more futures or time *)
  | P_Return (host : loc) (c : conn)
  | P_None                      (** none connected: on to the next pair *)
  | P_Throw.                    (** a task's exception, rethrown by [get] *)

#[export] Instance poll_pc_eq_dec : EqDecision poll_pc.
Proof. solve_decision. Defined.

(** A future is valid until [get] is called; without a second host there is
    no second task. *)
Record pair_state := Pair {
  p_shared : shared;
  p_first : reader_task;
  p_second : option reader_task;
  p_first_valid : bool;
  p_second_valid : bool;
  p_pc : poll_pc
}.

(** Looking at one future: stays at [next], returns the connection, or
    rethrows. *)
Definition poll_task (t : reader_task) (valid : bool) (next : poll_pc) : bool * poll_pc :=
  if valid && finished t then
    (false, if bool_decide (rt_pc t = R_Threw) then P_Throw
            else match rt_result t with Some c => P_Return (rt_host t) c | None => next end)
  else (valid, next).

(** [src/driver/failover_reader_handler.cc:215-258] FAILOVER_READER_HANDLER::get_connection_from_hosts

    One step of the polling thread; [timed_out] tells whether
    [reader_connect_timeout_ms] have passed since the start. *)
Definition poll_step (timed_out : bool) (p : pair_state) : option pair_state :=
  let '(Pair s t1 t2 v1 v2 pc) := p in
  match pc with
  | P_Wait => y ← wait_and_complete timed_out (sh_sync s);
              Some (Pair (Shared y (sh_live s) (sh_world s)) t1 t2 v1 v2 P_First)
  | P_First => let '(v, pc') := poll_task t1 v1 P_Second in Some (Pair s t1 t2 v v2 pc')
  | P_Second => match t2 with
                | None => Some (Pair s t1 t2 v1 v2 P_Check)
                | Some t => let '(v, pc') := poll_task t v2 P_Check in Some (Pair s t1 t2 v1 v pc')
                end
  | P_Check => if negb v1 && (bool_decide (t2 = None) || negb v2) then Some (Pair s t1 t2 v1 v2 P_None)
               else Some (Pair s t1 t2 v1 v2 (if timed_out then P_None else P_First))
  | P_Return _ _ | P_None | P_Throw => None
  end.

(** What happens next: a step of a task, with the outcome of a connection
    attempt, or of the polling thread, with the time-out. *)
Inductive action := AFirst (o : connect_outcome) | ASecond (o : connect_outcome) | APoll (timed_out : bool).

Definition pair_act (ts : loc) (a : action) (p : pair_state) : option pair_state :=
  let '(Pair s t1 t2 v1 v2 pc) := p in
  match a with
  | AFirst o => '(t, s') ← reader_step ts o t1 s; Some (Pair s' t t2 v1 v2 pc)
  | ASecond o => t ← t2; '(t', s') ← reader_step ts o t s; Some (Pair s' t1 (Some t') v1 v2 pc)
  | APoll timed_out => poll_step timed_out p
  end.

(** One step of the system, and the run of a list of actions. *)
Definition pair_step (ts : loc) (p p' : pair_state) : Prop := ∃ a, pair_act ts a p = Some p'.

Fixpoint pair_exec (ts : loc) (l : list action) (p : pair_state) : option pair_state :=
  match l with
  | [] => Some p
  | a :: l' => p' ← pair_act ts a p; pair_exec ts l' p'
  end.

Definition new_task (host : loc) : reader_task := ReaderTask host R_Start None None.

(** [src/driver/failover_reader_handler.cc:182-216] FAILOVER_READER_HANDLER::get_connection_from_hosts

    The start of a round: a sync for one task per host. *)
Definition start_pair (w : world) (live : conns) (first : loc) (second : option loc) : pair_state :=
  let sync := match second with None => Sync 1 | Some _ => (increment_task (Sync 1)).2 end in
  Pair (Shared sync live w) (new_task first) (new_task <$> second) true true P_Wait.

(** ** Whole rounds *)

Inductive hosts_outcome := HConnected (host : loc) (c : conn) | HNotConnected | HThrew.

(** [src/driver/failover_reader_handler.cc:173-264] FAILOVER_READER_HANDLER::get_connection_from_hosts

    The rounds as a relation between the hosts left, the world and the live
    connections at the start, the outcome, and the world and connections at
    the end: the loop ends at the end of the list or when the global sync is
    completed; a round ends at any time its polling thread has ended.  Tasks
    that a time-out leaves behind run on until the next round starts; what they
    do beside later rounds is not followed. *)
Inductive try_hosts (ts : loc) : list loc → world → conns → hosts_outcome → world → conns → Prop :=
  | try_end w live : try_hosts ts [] w live HNotConnected w live
  | try_cancelled hosts w live : try_hosts ts hosts w live HNotConnected w live
  | try_connected h hosts w live p host c :
      rtc (pair_step ts) (start_pair w live h (head hosts)) p → p_pc p = P_Return host c →
      try_hosts ts (h :: hosts) w live (HConnected host c) (sh_world (p_shared p)) (sh_live (p_shared p))
  | try_threw h hosts w live p :
      rtc (pair_step ts) (start_pair w live h (head hosts)) p → p_pc p = P_Throw →
      try_hosts ts (h :: hosts) w live HThrew (sh_world (p_shared p)) (sh_live (p_shared p))
  | try_next h hosts w live p out w' live' :
      rtc (pair_step ts) (start_pair w live h (head hosts)) p → p_pc p = P_None →
      try_hosts ts (tail hosts) (sh_world (p_shared p)) (sh_live (p_shared p)) out w' live' →
      try_hosts ts (h :: hosts) w live out w' live'.

(** ** Reachable states *)

Lemma pair_exec_rtc ts l p p' : pair_exec ts l p = Some p' → rtc (pair_step ts) p p'.
Proof.
  revert p. induction l as [|a l IH]; intros p; simpl; [by intros [= ->]|].
  destruct (pair_act ts a p) as [p1|] eqn:E; [|done]. intros H. eapply rtc_l; [by exists a|by apply IH].
Qed.

(** A task owns a live connection to its host, and its result is the
    connection it owns. *)
Definition task_ok (live : conns) (t : reader_task) : Prop :=
  (∀ c, rt_conn t = Some c → live !! c = Some (rt_host t)) ∧
  (∀ c, rt_result t = Some c → rt_conn t = Some c ∧ (rt_pc t = R_Complete ∨ rt_pc t = R_Done)) ∧
  (rt_pc t = R_Start ∨ rt_pc t = R_Connect → rt_conn t = None).

(** What a step keeps: the host, the result, the connections of others. *)
Definition step_ok (s : shared) (t : reader_task) (s' : shared) (t' : reader_task) : Prop :=
  task_ok (sh_live s') t' ∧ rt_host t' = rt_host t ∧
  (∀ c h, sh_live s !! c = Some h → sh_live s' !! c = Some h ∨ (rt_conn t = Some c ∧ rt_conn t' = None)) ∧
  (∀ c, rt_conn t' = Some c → rt_conn t = Some c ∨ sh_live s !! c = None) ∧
  (∀ c, rt_result t = Some c → rt_result t' = Some c).

Lemma goto_ok s t s' pc :
  task_ok (sh_live s) t → sh_live s' = sh_live s →
  (rt_pc t ≠ R_Complete ∧ rt_pc t ≠ R_Done ∨ pc = R_Done) →
  (pc = R_Start ∨ pc = R_Connect → rt_conn t = None) → step_ok s t s' (goto pc t).
Proof.
  intros (Hc & Hr & Hs) Hl Hpc Hst. unfold step_ok, task_ok. rewrite Hl. simpl. split; [split; [done|split; [|done]]|].
  - intros c Hrc. destruct (Hr c Hrc) as [? Hd]. split; [done|]. destruct Hpc as [[? ?]| ->]; [by destruct Hd|by right].
  - split; [done|]. split; [by left|]. split; [by left|done].
Qed.

(** Steps that only move to another point. *)
Ltac moves := apply goto_ok;
  [ eassumption | reflexivity
  | match goal with H : rt_pc _ = _ |- _ => rewrite H end; first [by left | by right]
  | first [by intros [?|?] | by destruct (is_completed _); intros [?|?] | by auto] ].

Lemma reader_step_ok ts o t s t' s' :
  reader_step ts o t s = Some (t', s') → task_ok (sh_live s) t → step_ok s t s' t'.
Proof.
  intros Hstep Hok. pose proof Hok as (Hc & Hr & Hs). unfold reader_step in Hstep.
  cbv zeta in Hstep. destruct (rt_pc t) eqn:Epc; try done.
  - injection Hstep as <- <-. moves.
  - assert (rt_conn t = None) as Hn by auto. assert (rt_result t = None) as Hrn
      by (destruct (rt_result t) as [c|]; [destruct (Hr c eq_refl); congruence|done]).
    pose proof (fresh_conn (sh_live s)) as Hf.
    destruct o as [|b|]; simpl in Hstep; injection Hstep as <- <-; [..|moves]; unfold step_ok, task_ok; simpl; rewrite Hn, Hrn.
    + split; [split; [done|by split]|]. split; [done|]. split; [by left|]. by split.
    + split; [split; [intros c [= <-]; apply lookup_insert_eq|split; [done|by destruct b; intros [?|?]]]|].
      split; [done|]. split; [|split; [intros c [= <-]; by right|done]].
      intros c h Hch. left. rewrite lookup_insert_ne; [done|congruence].
  - destruct (mark_host_up _ _ _) as [[[]|e|] w]; [|done..]. injection Hstep as <- <-.
    moves.
  - injection Hstep as <- <-. moves.
  - injection Hstep as <- <-. unfold step_ok, task_ok. simpl. split; [split; [done|split]|].
    + intros c H. split; [done|by left].
    + by intros [?|?].
    + split; [done|]. split; [by left|]. split; [by left|]. intros c H. by apply Hr.
  - injection Hstep as <- <-. moves.
  - destruct (mark_host_down _ _ _) as [[[]|e|] w]; [|done..]. injection Hstep as <- <-.
    moves.
  - injection Hstep as <- <-. moves.
  - rewrite mark_false in Hstep. destruct (is_completed (sh_sync s)); injection Hstep as <- <-;
      moves.
  - assert (rt_result t = None) as Hrn
      by (destruct (rt_result t) as [c|]; [destruct (Hr c eq_refl) as [_ [|]]; congruence|done]).
    destruct (rt_conn t) as [c|] eqn:Ec; simpl in Hstep.
    + rewrite (Hc c eq_refl) in Hstep. simpl in Hstep. injection Hstep as <- <-.
      unfold step_ok, task_ok. simpl. rewrite Hrn. split; [split; [done|by split]|]. split; [done|].
      split; [|done]. intros c' h Hch. destruct (decide (c' = c)) as [->|Hne]; [by right|].
      left. by rewrite lookup_delete_ne.
    + injection Hstep as <- <-. unfold step_ok, task_ok. simpl. rewrite Hrn.
      split; [split; [done|by split]|]. split; [done|]. split; [by left|]. by split.
Qed.

(** Every task owns its connection alone, and what the polling thread returns
    is the result of the task of that host. *)
Definition holds (t : reader_task) (h : loc) (c : conn) : Prop := rt_host t = h ∧ rt_result t = Some c.

Record pair_ok (h1 : loc) (h2 : option loc) (p : pair_state) : Prop := {
  ok_first : task_ok (sh_live (p_shared p)) (p_first p);
  ok_second t : p_second p = Some t → task_ok (sh_live (p_shared p)) t;
  ok_disjoint t c : p_second p = Some t → rt_conn (p_first p) = Some c → rt_conn t = Some c → False;
  ok_host1 : rt_host (p_first p) = h1;
  ok_host2 : rt_host <$> p_second p = h2;
  ok_return h c : p_pc p = P_Return h c → holds (p_first p) h c ∨ ∃ t, p_second p = Some t ∧ holds t h c
}.

Lemma poll_task_ok t v next v' pc' :
  poll_task t v next = (v', pc') → (∀ h c, next ≠ P_Return h c) →
  ∀ h c, pc' = P_Return h c → holds t h c.
Proof.
  unfold poll_task. intros H Hn h c ->. destruct (v && finished t); [|by injection H as _ ->; destruct (Hn h c)].
  case_bool_decide; [done|]. destruct (rt_result t) as [c'|] eqn:E; [|by injection H as _ ->; destruct (Hn h c)].
  injection H as _ <- <-. done.
Qed.

(** Another task's step leaves a task well-formed. *)
Lemma task_ok_other s s' t t' u :
  step_ok s t s' t' → task_ok (sh_live s) u → (∀ c, rt_conn t = Some c → rt_conn u = Some c → False) →
  task_ok (sh_live s') u ∧ (∀ c, rt_conn t' = Some c → rt_conn u = Some c → False).
Proof.
  intros (_ & _ & Hdel & Hnew & _) (Hc & Hr & Hs) Hd. split.
  - split; [|done]. intros c Hu. destruct (Hdel c _ (Hc c Hu)) as [?|[Ht _]]; [done|]. by destruct (Hd c).
  - intros c Ht' Hu. destruct (Hnew c Ht') as [Ht|Hn]; [by apply (Hd c)|]. by rewrite (Hc c Hu) in Hn.
Qed.

Lemma pair_step_ok ts h1 h2 p p' : pair_ok h1 h2 p → pair_step ts p p' → pair_ok h1 h2 p'.
Proof.
  intros [H1 H2 Hd Hh1 Hh2 Hr] [a Ha]. destruct p as [s t1 t2 v1 v2 pc]. simpl in *. destruct a as [o|o|b].
  - destruct (reader_step ts o t1 s) as [[t' s']|] eqn:E; simplify_eq/=.
    pose proof (reader_step_ok _ _ _ _ _ _ E H1) as Hst. pose proof Hst as (Ht' & Hhost & _ & _ & Hres).
    split; simpl; try done; try congruence.
    + intros t Ht. eapply task_ok_other; [exact Hst|by apply H2|]. intros c. by apply (Hd t c).
    + intros t c Ht Hc1 Hc2. destruct (task_ok_other _ _ _ _ t Hst (H2 _ Ht)) as [_ Hn]; [intros c'; by apply Hd|].
      by apply (Hn c).
    + intros h c Hp. destruct (Hr h c Hp) as [[? ?]|?]; [left; split; [congruence|auto]|by right].
  - destruct t2 as [t|]; [|done]. simpl in Ha. destruct (reader_step ts o t s) as [[t' s']|] eqn:E; simplify_eq/=.
    pose proof (reader_step_ok _ _ _ _ _ _ E (H2 _ eq_refl)) as Hst. pose proof Hst as (Ht' & Hhost & _ & _ & Hres).
    destruct (task_ok_other _ _ _ _ t1 Hst H1) as [Hok Hn]; [intros c Hc1 Hc2; by apply (Hd t c)|].
    split; simpl; try done.
    + by intros ? [= <-].
    + intros ? c [= <-] Hc1 Hc2. by apply (Hn c).
    + by rewrite Hhost.
    + intros h c Hp. destruct (Hr h c Hp) as [?|(? & [= <-] & ? & ?)]; [by left|right].
      exists t'. split; [done|]. split; [congruence|auto].
  - destruct pc; simpl in Ha; try done.
    + destruct (wait_and_complete b (sh_sync s)) as [y|]; simplify_eq/=. by split.
    + destruct (poll_task t1 v1 P_Second) as [v pc'] eqn:E; simplify_eq/=. split; try done.
      intros h c Hp. left. by eapply poll_task_ok.
    + destruct t2 as [t|]; [|simplify_eq/=; by split].
      destruct (poll_task t v2 P_Check) as [v pc'] eqn:E; simplify_eq/=. split; try done.
      intros h c Hp. right. exists t. split; [done|]. by eapply poll_task_ok.
    + destruct (negb v1 && _); simplify_eq/=; split; try done; by destruct b.
Qed.

Lemma reader_round_ok ts w live h1 h2 p :
  rtc (pair_step ts) (start_pair w live h1 h2) p →
  (∀ h c, p_pc p = P_Return h c → sh_live (p_shared p) !! c = Some h ∧ (h = h1 ∨ h2 = Some h)) ∧
  (∀ t c, p_second p = Some t → rt_conn (p_first p) = Some c → rt_conn t ≠ Some c) ∧
  (∀ t, t = p_first p ∨ p_second p = Some t → is_Some (release_new_connection (rt_conn t) (sh_live (p_shared p)))).
Proof.
  intros Hr. assert (pair_ok h1 h2 p) as [H1 H2 Hd Hh1 Hh2 Hret].
  { eapply (rtc_invariant (pair_step ts)); [apply pair_step_ok| |exact Hr].
    assert (∀ y h, task_ok y (new_task h)) as Hnew by (intros y h; by split; [|split]).
    split; simpl; try done; [|by destruct h2]. intros t Ht. destruct h2; simplify_eq/=. apply Hnew. }
  split; [|split].
  - intros h c Hp. destruct (Hret h c Hp) as [[Hh Hc]|(t & Ht & Hh & Hc)].
    + split; [|left; congruence]. destruct H1 as (Hl & Hres & _). rewrite <- Hh. by apply Hl, Hres.
    + split; [|right; by rewrite <- Hh2, Ht, <- Hh]. destruct (H2 t Ht) as (Hl & Hres & _). rewrite <- Hh. by apply Hl, Hres.
  - intros t c Ht Hc1 Hc2. by apply (Hd t c).
  - intros t Ht. assert (task_ok (sh_live (p_shared p)) t) as (Hl & _) by (destruct Ht as [->|?]; auto).
    destruct (rt_conn t) as [c|]; simpl; [|eauto]. rewrite (Hl c eq_refl). eauto.
Qed.

(** C2: In every state a round of reader failover can reach, from any
    interleaving of the tasks, the polling thread and the time-out: the
    connection that was returned was opened to the returned host, which is one
    of the two hosts of the round, and it is live whatever the other task
    still does; the two tasks never own the same connection; and no task
    deletes a connection that is not live. *)
Theorem reader_round_safe ts w live h1 h2 p :
  rtc (pair_step ts) (start_pair w live h1 h2) p →
  (∀ h c, p_pc p = P_Return h c → sh_live (p_shared p) !! c = Some h ∧ (h = h1 ∨ h2 = Some h)) ∧
  (∀ t c, p_second p = Some t → rt_conn (p_first p) = Some c → rt_conn t ≠ Some c) ∧
  (∀ t, t = p_first p ∨ p_second p = Some t → is_Some (release_new_connection (rt_conn t) (sh_live (p_shared p)))).
Proof. apply reader_round_ok. Qed.

Lemma reader_round_safe_witness :
  let w := ex_filtered_world (AllowedAndBlocked ∅ ∅) in
  ∃ p, p_pc p = P_Return 1%positive 1%positive ∧ sh_live (p_shared p) !! (1%positive : conn) = Some (1%positive : loc).
Proof.
  intros w. destruct (pair_exec 1%positive
    [AFirst NoConnection; AFirst (Connection true); AFirst NoConnection; AFirst NoConnection; AFirst NoConnection;
     AFirst NoConnection; APoll false; APoll false] (start_pair w ∅ 1%positive None)) as [p|] eqn:E; [|by vm_compute in E].
  exists p. assert (p_pc p = P_Return 1%positive 1%positive) as Hp by (vm_compute in E; by injection E as <-).
  split; [exact Hp|]. by apply (reader_round_safe 1%positive w ∅ 1%positive None p (pair_exec_rtc _ _ _ _ E)) in Hp as [? _].
Defined.

(** ** Polling ends with the right answer *)

Definition result_of (t : reader_task) : option (loc * conn) := (λ c, (rt_host t, c)) <$> rt_result t.

(** Whether a task has yet to count down the sync. *)
Definition counting (t : reader_task) : Z := match rt_pc t with R_Release | R_Done => 0 | _ => 1 end.

Definition polling (pc : poll_pc) : bool :=
  match pc with P_Return _ _ | P_None | P_Throw => false | _ => true end.

(** The sync is done when no task has to count it down; a future that was
    looked at belongs to a task that has ended without a connection. *)
Record poll_ok (p : pair_state) : Prop := {
  po_sync : num_tasks (sh_sync (p_shared p)) ≤ counting (p_first p) + from_option counting 0 (p_second p);
  po_first : polling (p_pc p) = true → p_first_valid p = false → finished (p_first p) = true ∧ rt_result (p_first p) = None;
  po_second t : polling (p_pc p) = true → p_second p = Some t → p_second_valid p = false →
    finished t = true ∧ rt_result t = None
}.

Lemma counting_pos t : 0 ≤ counting t.
Proof. unfold counting. by destruct (rt_pc t). Qed.

(** A step of a task counts the sync down by what the task no longer counts,
    or finds or leaves it done. *)
Lemma reader_step_sync ts o t s t' s' n :
  reader_step ts o t s = Some (t', s') → 0 ≤ n →
  num_tasks (sh_sync s) ≤ counting t + n → num_tasks (sh_sync s') ≤ counting t' + n.
Proof.
  intros H Hn Hs. unfold reader_step in H. cbv zeta in H. unfold counting in Hs.
  destruct (rt_pc t) eqn:E; try done.
  - injection H as <- <-. unfold is_completed. destruct (num_tasks (sh_sync s) <=? 0) eqn:Ec; unfold counting; simpl; [apply Z.leb_le in Ec|]; lia.
  - destruct (connect (rt_host t) o (sh_live s)) as [[[c b] live]|]; injection H as <- <-; unfold counting; simpl; [destruct b|]; lia.
  - destruct (mark_host_up _ _ _) as [[[]|e|] w]; [|done..]. injection H as <- <-. exact Hs.
  - injection H as <- <-. unfold is_completed. destruct (num_tasks (sh_sync s) <=? 0) eqn:Ec; unfold counting; simpl; [apply Z.leb_le in Ec|]; lia.
  - injection H as <- <-. exact Hs.
  - injection H as <- <-. unfold counting. simpl. lia.
  - destruct (mark_host_down _ _ _) as [[[]|e|] w]; [|done..]. injection H as <- <-. exact Hs.
  - injection H as <- <-. unfold is_completed. destruct (num_tasks (sh_sync s) <=? 0) eqn:Ec; unfold counting; simpl; [apply Z.leb_le in Ec|]; lia.
  - rewrite mark_false in H. unfold is_completed in H. destruct (num_tasks (sh_sync s) <=? 0) eqn:Ec;
    injection H as <- <-; unfold counting; simpl; [apply Z.leb_le in Ec|]; lia.
  - destruct (release_new_connection _ _); [|done]. injection H as <- <-. unfold counting. simpl. lia.
Qed.

Lemma finished_stays ts o t s t' s' : reader_step ts o t s = Some (t', s') → finished t = false.
Proof. unfold reader_step, finished. cbv zeta. by destruct (rt_pc t). Qed.

Lemma poll_task_invalid t v next v' pc' :
  poll_task t v next = (v', pc') → polling pc' = true →
  (v = false → finished t = true ∧ rt_result t = None) → v' = false → finished t = true ∧ rt_result t = None.
Proof.
  unfold poll_task. destruct v; simpl; [|by intros [= <- <-]; auto].
  destruct (finished t); [|by intros [= <- <-]]. intros [= <- <-] Hp _ _. split; [done|].
  case_bool_decide; [done|]. by destruct (rt_result t).
Qed.

(** A look leaves the thread polling only if it was going to poll on. *)
Lemma pair_step_poll ts p p' : poll_ok p → pair_step ts p p' → poll_ok p'.
Proof.
  intros [Hs H1 H2] [a Ha]. destruct p as [s t1 t2 v1 v2 pc]. simpl in *.
  assert (0 ≤ from_option counting 0 t2) as Hn2 by (destruct t2; [apply counting_pos|done]).
  destruct a as [o|o|b]; simpl in Ha.
  - destruct (reader_step ts o t1 s) as [[t' s']|] eqn:E; simplify_eq/=. split; simpl; [by eapply reader_step_sync| |done].
    intros Hp Hv. destruct (H1 Hp Hv) as [Hf _]. by rewrite (finished_stays _ _ _ _ _ _ E) in Hf.
  - destruct t2 as [t|]; [|done]. simpl in Ha. destruct (reader_step ts o t s) as [[t' s']|] eqn:E; simplify_eq/=.
    split; simpl; [|done|].
    + rewrite Z.add_comm. eapply reader_step_sync; [exact E|apply counting_pos|]. lia.
    + intros ? Hp [= <-] Hv. destruct (H2 t Hp eq_refl Hv) as [Hf _]. by rewrite (finished_stays _ _ _ _ _ _ E) in Hf.
  - pose proof (counting_pos t1). destruct pc; try done.
    + unfold wait_and_complete in Ha. destruct (is_completed (sh_sync s) || b); simplify_eq/=. split; simpl; [lia|auto..].
    + destruct (poll_task t1 v1 P_Second) as [v pc'] eqn:E; simplify_eq/=. split; simpl; [done| |intros t _; by apply H2].
      intros Hp. eapply poll_task_invalid; [exact E|done|]. intros ?. by apply H1.
    + destruct t2 as [t|]; [|by simplify_eq/=; split].
      destruct (poll_task t v2 P_Check) as [v pc'] eqn:E; simplify_eq/=. split; simpl; [done|intros _; by apply H1|].
      intros ? Hp [= <-]. eapply poll_task_invalid; [exact E|done|]. intros ?. by apply H2.
    + destruct (negb v1 && _); simplify_eq/=; (split; simpl; [done|intros _; by apply H1|intros t _; by apply H2]).
Qed.

(** Running the polling thread for [n] steps. *)
Ltac end_in n := exists n; eexists; split; [lia|split; [cbn; unfold wait_and_complete; repeat (match goal with H : is_completed _ = true |- _ => rewrite H end; cbn); reflexivity|reflexivity]].

(** The connection the thread comes to first from its point. *)
Definition answer (p : pair_state) : poll_pc :=
  let r1 := result_of (p_first p) in
  let r2 := p_second p ≫= result_of in
  match (match p_pc p with
         | P_Second => match r2 with Some r => Some r | None => r1 end
         | _ => match r1 with Some r => Some r | None => r2 end
         end) with
  | Some (h, c) => P_Return h c
  | None => P_None
  end.

(** C3: In every state a round of reader failover can reach in which its
    tasks have ended, neither with an exception, and the polling thread has not
    ended: the polling thread ends within five more steps, from whichever point
    it is at, its wait included, and without the help of the time-out.  It
    returns the connection of the first task if that has one, otherwise that of
    the second, otherwise none; only when it was about to look at the second
    task's future, the second task comes first. *)
Theorem polling_answers ts w live h1 h2 p :
  rtc (pair_step ts) (start_pair w live h1 h2) p →
  rt_pc (p_first p) = R_Done → (∀ t, p_second p = Some t → rt_pc t = R_Done) → polling (p_pc p) = true →
  ∃ n p', (n ≤ 5)%nat ∧ pair_exec ts (replicate n (APoll false)) p = Some p' ∧ p_pc p' = answer p.
Proof.
  intros Hr Hd1 Hd2 Hp. assert (poll_ok p) as [Hs H1 H2].
  { eapply (rtc_invariant (pair_step ts)); [apply pair_step_poll| |exact Hr]. by destruct h2. }
  destruct p as [s [a1 pc1 cn1 r1] t2 v1 v2 pc]. simpl in *. subst pc1.
  assert (is_completed (sh_sync s) = true) as Hc.
  { apply Z.leb_le. unfold counting in Hs. simpl in Hs. destruct t2 as [t|]; simpl in Hs; [|lia].
    by rewrite (Hd2 t eq_refl) in Hs. }
  assert (v1 = false → r1 = None) as Hv1 by (intros E; by apply H1).
  destruct t2 as [[a2 pc2 cn2 r2]|].
  - pose proof (Hd2 _ eq_refl) as E2. simpl in E2. subst pc2.
    assert (v2 = false → r2 = None) as Hv2 by (intros E; exact (proj2 (H2 _ Hp eq_refl E))).
    destruct pc; try done; destruct r1 as [c1|], r2 as [c2|], v1, v2; (try by (discriminate (Hv1 eq_refl)));
      (try by (discriminate (Hv2 eq_refl)));
      first [by end_in 1%nat | by end_in 2%nat | by end_in 3%nat | by end_in 4%nat | by end_in 5%nat].
  - destruct pc; try done; destruct r1 as [c1|], v1, v2; (try by (discriminate (Hv1 eq_refl)));
      first [by end_in 1%nat | by end_in 2%nat | by end_in 3%nat | by end_in 4%nat | by end_in 5%nat].
Qed.

(** Both tasks have ended when the thread, past the first future, is about to
    look at the second: the second task's connection is returned although the
    first task has one. *)
Definition ex_poll_run : list action :=
  [AFirst NoConnection; ASecond NoConnection; AFirst (Connection true); ASecond (Connection true);
   AFirst NoConnection; ASecond NoConnection; AFirst NoConnection; ASecond NoConnection;
   ASecond NoConnection; ASecond NoConnection; APoll false; APoll false; AFirst NoConnection; AFirst NoConnection].

Lemma polling_answers_witness :
  ∃ p n p', pair_exec 1%positive ex_poll_run
      (start_pair (ex_filtered_world (AllowedAndBlocked ∅ ∅)) ∅ 1%positive (Some 2%positive)) = Some p ∧
    (n ≤ 5)%nat ∧ pair_exec 1%positive (replicate n (APoll false)) p = Some p' ∧ p_pc p' = P_Return 2%positive 2%positive.
Proof.
  destruct (pair_exec 1%positive ex_poll_run
    (start_pair (ex_filtered_world (AllowedAndBlocked ∅ ∅)) ∅ 1%positive (Some 2%positive))) as [p|] eqn:E; [|by vm_compute in E].
  destruct (polling_answers 1%positive _ ∅ 1%positive (Some 2%positive) p (pair_exec_rtc _ _ _ _ E)) as (n & p' & Hn & Hx & Hp').
  - vm_compute in E. by injection E as <-.
  - vm_compute in E. injection E as <-. by intros t [= <-].
  - vm_compute in E. by injection E as <-.
  - exists p, n, p'. split; [reflexivity|]. split; [exact Hn|]. split; [exact Hx|]. rewrite Hp'.
    vm_compute in E. by injection E as <-.
Defined.

(** ** The races *)

(** The service can mark these hosts. *)
Definition markable (ts : loc) (hs : list loc) (w : world) : Prop :=
  store_ok w ∧ (∃ s c, w_services w !! ts = Some s ∧ w_containers w !! ts_metrics_container s = Some c) ∧
  all_hosts (w_hosts w) hs.

Lemma mark_total ts hs h w (state : HOST_STATE) :
  markable ts hs w → h ∈ hs →
  ∃ w', match state with UP => mark_host_up | DOWN => mark_host_down end ts (Some h) w = (Ok tt, w') ∧ markable ts hs w'.
Proof.
  intros (Hok & (s & c & Hs & Hc) & Hall) Hh. pose proof Hall as Hall'.
  unfold all_hosts in Hall. rewrite Forall_forall in Hall. destruct (Hall h Hh) as [hi Hhi].
  destruct (topology_cache w !! ts_cluster_id s) as [p|] eqn:Ep.
  - destruct (proj2 Hok _ _ Ep) as [t Ht].
    destruct (mark_run ts h p s c hi t w state Hs Hc Ep Ht Hhi) as (w' & E & S1 & C1 & K1 & H1 & T1). exists w'.
    split; [exact E|]. split; [|split; [exists s, c; by rewrite S1, C1|]].
    + assert (hosts_grow (w_hosts w) (w_hosts w')) as Hg by (rewrite H1; by apply (hosts_grow_alter _ h hi (set_host_state state))).
      split; [|rewrite K1, T1].
      * rewrite T1. apply map_Forall_insert_2; [|intros q t' Hq]; (eapply topology_ok_grow; [exact Hg|]).
        -- exact (proj1 Hok _ _ Ht).
        -- exact (proj1 Hok _ _ Hq).
      * intros k q Hq. rewrite lookup_insert_is_Some'. right. by apply (proj2 Hok k).
    + rewrite H1. eapply Forall_impl; [exact Hall'|]. intros q Hq. simpl. rewrite lookup_insert_is_Some'. by right.
  - destruct (get_from_cache_run ts s c w Hs Hc) as [tb E]. rewrite Ep in E. exists (set_tables tb w).
    split; [|split; [exact Hok|split; [by exists s, c|done]]].
    destruct state; unfold mark_host_up, mark_host_down; by rewrite (bind_Ok _ _ _ _ _ E).
Qed.

(** One named step at the front of a run; the second form rewrites with what
    marking a host does. *)
Ltac act a := eapply rtc_l; [exists a; simpl; reflexivity|].
Ltac act_mark a E := eapply rtc_l; [exists a; simpl; unfold reader_step; simpl; rewrite E; reflexivity|].

Arguments mark_host_up : simpl never.
Arguments mark_host_down : simpl never.

(** Both tasks of a round may pass the test for completion before either
    reports: from any state of the service, a run exists in which both connect
    and fill in their result, the first connection is returned, and the second
    one stays open although its task has ended: nothing will release it. *)
Theorem second_connection_leaks ts w live h1 h2 :
  markable ts [h1; h2] w →
  ∃ p c1 c2 t, rtc (pair_step ts) (start_pair w live h1 (Some h2)) p ∧ p_pc p = P_Return h1 c1 ∧
    p_second p = Some t ∧ rt_pc t = R_Done ∧ rt_result t = Some c2 ∧ c1 ≠ c2 ∧ sh_live (p_shared p) !! c2 = Some h2.
Proof.
  intros Hm. destruct (mark_total ts [h1; h2] h1 w UP Hm) as (w1 & E1 & Hm1); [set_solver|].
  destruct (mark_total ts [h1; h2] h2 w1 UP Hm1) as (w2 & E2 & _); [set_solver|]. simpl in E1, E2.
  set (c1 := fresh (dom live)). set (c2 := fresh (dom (<[c1 := h1]> live))).
  assert (c1 ≠ c2) as Hne.
  { intros He. pose proof (fresh_conn (<[c1 := h1]> live)) as Hf. fold c2 in Hf. by rewrite <- He, lookup_insert_eq in Hf. }
  do 4 eexists. split.
  - act (AFirst NoConnection). act (AFirst (Connection true)). fold c1.
    act_mark (AFirst NoConnection) E1. act (AFirst NoConnection).
    act (ASecond NoConnection). act (ASecond (Connection true)). fold c2.
    act_mark (ASecond NoConnection) E2. act (ASecond NoConnection).
    act (AFirst NoConnection). act (AFirst NoConnection). act (ASecond NoConnection). act (ASecond NoConnection).
    act (APoll false). act (APoll false). apply rtc_refl.
  - simpl. split; [done|]. split; [done|]. split; [done|]. split; [done|]. split; [exact Hne|]. apply lookup_insert_eq.
Qed.

Lemma second_connection_leaks_witness :
  ∃ p c1 c2 t, rtc (pair_step 1%positive)
      (start_pair (ex_filtered_world (AllowedAndBlocked ∅ ∅)) ∅ 1%positive (Some 2%positive)) p ∧
    p_pc p = P_Return 1%positive c1 ∧ p_second p = Some t ∧ rt_pc t = R_Done ∧ rt_result t = Some c2 ∧ c1 ≠ c2 ∧
    sh_live (p_shared p) !! c2 = Some (2%positive : loc).
Proof.
  apply second_connection_leaks. split; [apply ex_filtered_ok|]. split; [by do 2 eexists|]. by repeat constructor.
Defined.

(** A failed task tests for completion and then reports in two steps; when
    the wait of the polling thread times out in between, the report throws,
    and the polling thread rethrows the exception out of reader failover
    instead of trying the next hosts. *)
Theorem failed_task_can_throw ts w live h1 h2 :
  markable ts [h1] w →
  ∃ p, rtc (pair_step ts) (start_pair w live h1 h2) p ∧ p_pc p = P_Throw ∧ rt_pc (p_first p) = R_Threw.
Proof.
  intros Hm. destruct (mark_total ts [h1] h1 w DOWN Hm) as (w1 & E1 & _); [set_solver|]. simpl in E1.
  assert (∀ y, is_completed y = false → ∃ p, rtc (pair_step ts) (Pair (Shared y live w) (new_task h1) (new_task <$> h2) true true P_Wait) p ∧
    p_pc p = P_Throw ∧ rt_pc (p_first p) = R_Threw) as Hy.
  { intros y Hy. eexists. split.
    - eapply rtc_l; [exists (AFirst NoConnection); simpl; rewrite Hy; reflexivity|].
      act (AFirst NoConnection). act_mark (AFirst NoConnection) E1.
      eapply rtc_l; [exists (AFirst NoConnection); simpl; rewrite Hy; reflexivity|].
      eapply rtc_l; [exists (APoll true); simpl; unfold wait_and_complete; rewrite orb_true_r; reflexivity|].
      act (AFirst NoConnection). act (APoll false). apply rtc_refl.
    - by split. }
  destruct h2; by apply Hy.
Qed.

Lemma failed_task_can_throw_witness :
  ∃ p, rtc (pair_step 1%positive) (start_pair (ex_filtered_world (AllowedAndBlocked ∅ ∅)) ∅ 1%positive (Some 2%positive)) p ∧
    p_pc p = P_Throw ∧ rt_pc (p_first p) = R_Threw.
Proof.
  apply failed_task_can_throw. split; [apply ex_filtered_ok|]. split; [by do 2 eexists|]. by repeat constructor.
Defined.

(** What [std::shuffle] promises. *)
Definition permutes {rng : Type} (shuffle : rng → list loc → list loc * rng) : Prop :=
  ∀ e l, (shuffle e l).1 ≡ₚ l.

Lemma build_hosts_list_run {rng} (shuffle : rng → list loc → list loc * rng) engine topology include_writers w t :
  permutes shuffle → store_ok w → w_topologies w !! topology = Some t →
  ∃ up down ws, build_hosts_list shuffle engine topology include_writers w = (Ok (up ++ down ++ ws), w) ∧
    up ≡ₚ filter (λ p, negb (marked_down (w_hosts w) p)) (readers t) ∧
    down ≡ₚ filter (λ p, Is_true (marked_down (w_hosts w) p)) (readers t) ∧
    ws ≡ₚ (if include_writers : bool then writers t else []) ∧
    up ++ down ++ ws ≡ₚ readers t ++ (if include_writers : bool then writers t else []).
Proof.
  intros Hp Hok Ht. unfold build_hosts_list. rewrite (load_bind topology t) by done.
  pose proof (topology_ok_all _ _ (proj1 Hok _ _ Ht)) as [_ Hall]%Forall_app.
  rewrite (bind_Ok (gets w_hosts) _ w (w_hosts w) w) by done.
  assert (forallb (λ p, bool_decide (is_Some (w_hosts w !! p))) (get_readers t) = true) as ->.
  { apply forallb_forall. intros p Hin. apply bool_decide_eq_true.
    rewrite Forall_forall in Hall. by apply Hall, list_elem_of_In. }
  unfold get_readers, get_writers.
  set (rup := filter (λ p, negb (marked_down (w_hosts w) p)) (readers t)).
  set (rdown := filter (λ p, Is_true (marked_down (w_hosts w) p)) (readers t)).
  pose proof (Hp engine rup) as H1. destruct (shuffle engine rup) as [up e1].
  pose proof (Hp e1 rdown) as H2. destruct (shuffle e1 rdown) as [down e2]. simpl in H1, H2.
  exists up, down, (if include_writers then (shuffle e2 (writers t)).1 else []). split; [done|].
  assert ((if include_writers then (shuffle e2 (writers t)).1 else []) ≡ₚ (if include_writers then writers t else [])) as H3
    by (destruct include_writers; [apply Hp|done]).
  split; [exact H1|]. split; [exact H2|]. split; [exact H3|]. rewrite app_assoc, H3, H1, H2. f_equiv.
  subst rup rdown. clear. induction (readers t) as [|p l IH]; [done|]. rewrite !filter_cons.
  destruct (marked_down (w_hosts w) p); simpl; [|by rewrite IH]. by rewrite <- Permutation_middle, IH.
Qed.

(** The host list of a well-formed topology holds the readers that are
    not marked down first, then the readers marked down, then, if writers are
    included, the writers; each group in some order, every host as often as in
    the topology. *)
Theorem build_hosts_list_spec {rng} (shuffle : rng → list loc → list loc * rng) engine topology include_writers w t :
  permutes shuffle → store_ok w → w_topologies w !! topology = Some t →
  ∃ up down ws, build_hosts_list shuffle engine topology include_writers w = (Ok (up ++ down ++ ws), w) ∧
    up ≡ₚ filter (λ p, negb (marked_down (w_hosts w) p)) (readers t) ∧
    down ≡ₚ filter (λ p, Is_true (marked_down (w_hosts w) p)) (readers t) ∧
    ws ≡ₚ (if include_writers : bool then writers t else []) ∧
    up ++ down ++ ws ≡ₚ readers t ++ (if include_writers : bool then writers t else []).
Proof. apply build_hosts_list_run. Qed.

Lemma build_hosts_list_spec_witness :
  ∃ up down ws, build_hosts_list (λ (e : unit) l, (rev l, e)) tt 1%positive true (ex_filtered_world (AllowedAndBlocked ∅ ∅)) =
      (Ok (up ++ down ++ ws), ex_filtered_world (AllowedAndBlocked ∅ ∅)) ∧ up ++ down ++ ws ≡ₚ [2%positive; 1%positive].
Proof.
  destruct (build_hosts_list_spec (λ (e : unit) l, (rev l, e)) tt 1%positive true
    (ex_filtered_world (AllowedAndBlocked ∅ ∅)) ex_topology) as (up & down & ws & E & _ & _ & _ & H).
  - intros e l. simpl. symmetry. apply Permutation_rev.
  - apply ex_filtered_ok.
  - apply lookup_singleton_eq.
  - exists up, down, ws. exact (conj E H).
Defined.

(** ** Reader failover as a whole *)

Section ReaderFailover.
  Context {rng : Type} (shuffle : rng → list loc → list loc * rng).

(** [src/driver/failover_reader_handler.cc:60-110] FAILOVER_READER_HANDLER::failover

    The loop of the pool's thread, with the outcome of the call: a null or
    empty topology gives no connection; otherwise the host list is built anew
    for every search until one connects or throws, or the time is over.
    [std::default_random_engine] starts in the same state [engine] each time. *)
Inductive reader_failover (ts : loc) (engine : rng) (strict : bool) : option loc → world → conns → hosts_outcome → Prop :=
  | rf_null w live : reader_failover ts engine strict None w live HNotConnected
  | rf_empty p t w live : w_topologies w !! p = Some t → total_hosts t = 0%nat →
      reader_failover ts engine strict (Some p) w live HNotConnected
  | rf_timeout p w live : reader_failover ts engine strict (Some p) w live HNotConnected
  | rf_search p t hosts w live out w' live' :
      w_topologies w !! p = Some t → total_hosts t ≠ 0%nat →
      build_hosts_list shuffle engine p (negb strict) w = (Ok hosts, w) →
      try_hosts ts hosts w live out w' live' → out ≠ HNotConnected →
      reader_failover ts engine strict (Some p) w live out
  | rf_again p t hosts w live w' live' out :
      w_topologies w !! p = Some t → total_hosts t ≠ 0%nat →
      build_hosts_list shuffle engine p (negb strict) w = (Ok hosts, w) →
      try_hosts ts hosts w live HNotConnected w' live' →
      reader_failover ts engine strict (Some p) w' live' out →
      reader_failover ts engine strict (Some p) w live out.

(** [src/driver/failover_reader_handler.cc:115-131] FAILOVER_READER_HANDLER::get_reader_connection

    The list of readers is built once; the searches repeat until one connects
    or throws, or the process is cancelled. *)
Inductive reader_searches (ts : loc) (hosts : list loc) : world → conns → hosts_outcome → Prop :=
  | rs_cancelled w live : reader_searches ts hosts w live HNotConnected
  | rs_search w live out w' live' : try_hosts ts hosts w live out w' live' → out ≠ HNotConnected →
      reader_searches ts hosts w live out
  | rs_again w live w' live' out : try_hosts ts hosts w live HNotConnected w' live' →
      reader_searches ts hosts w' live' out → reader_searches ts hosts w live out.

Definition get_reader_connection (ts : loc) (engine : rng) (p : loc) (w : world) (live : conns) (out : hosts_outcome) : Prop :=
  ∃ hosts, build_hosts_list shuffle engine p false w = (Ok hosts, w) ∧ reader_searches ts hosts w live out.
End ReaderFailover.

(** *** The world along a search *)

(** Topologies and hosts stay in place and the store stays well-formed. *)
Definition kept (w w' : world) : Prop := grown w w' ∧ (store_ok w → store_ok w').

#[export] Instance kept_preorder : PreOrder kept.
Proof.
  split; [by intros w; split|]. intros w1 w2 w3 [G1 S1] [G2 S2]. split; [by etrans|auto].
Qed.

Lemma preserves_mark_host_up ts h : preserves store_ok (mark_host_up ts h).
Proof. unfold mark_host_up, get_from_cache. solve_preserves. Qed.
Lemma preserves_mark_host_down ts h : preserves store_ok (mark_host_down ts h).
Proof. unfold mark_host_down, get_from_cache. solve_preserves. Qed.

Lemma kept_call {A} (m : M world A) w :
  (∀ w0, preserves (grown w0) m) → preserves store_ok m → kept w (m w).2.
Proof. intros Hg Hs. split; [by apply Hg|apply Hs]. Qed.

Lemma reader_step_kept ts o t s t' s' : reader_step ts o t s = Some (t', s') → kept (sh_world s) (sh_world s').
Proof.
  intros H. pose proof (kept_call (mark_host_up ts (Some (rt_host t))) (sh_world s) (λ w0, grows_mark_up w0 ts _) (preserves_mark_host_up _ _)) as Hu.
  pose proof (kept_call (mark_host_down ts (Some (rt_host t))) (sh_world s) (λ w0, grows_mark_down w0 ts _) (preserves_mark_host_down _ _)) as Hd.
  unfold reader_step in H. cbv zeta in H. destruct (rt_pc t); try (by injection H as <- <-); try done.
  - destruct (connect (rt_host t) o (sh_live s)) as [[[c b] live]|]; by injection H as <- <-.
  - destruct (mark_host_up _ _ _) as [[[]|e|] w]; [|done..]. by injection H as <- <-.
  - destruct (mark_host_down _ _ _) as [[[]|e|] w]; [|done..]. by injection H as <- <-.
  - rewrite mark_false in H. destruct (is_completed _); by injection H as <- <-.
  - destruct (release_new_connection _ _); [|done]. by injection H as <- <-.
Qed.

Lemma pair_step_kept ts p p' : pair_step ts p p' → kept (sh_world (p_shared p)) (sh_world (p_shared p')).
Proof.
  intros [a Ha]. destruct p as [s t1 t2 v1 v2 pc]. destruct a as [o|o|b]; simpl in Ha.
  - destruct (reader_step ts o t1 s) as [[t' s']|] eqn:E; simplify_eq/=. by eapply reader_step_kept.
  - destruct t2 as [t|]; [|done]. simpl in Ha. destruct (reader_step ts o t s) as [[t' s']|] eqn:E; simplify_eq/=. by eapply reader_step_kept.
  - destruct pc; simpl in Ha; try done.
    + destruct (wait_and_complete b (sh_sync s)); by simplify_eq/=.
    + destruct (poll_task t1 v1 P_Second); by simplify_eq/=.
    + destruct t2 as [t|]; [destruct (poll_task t v2 P_Check)|]; by simplify_eq/=.
    + destruct (negb v1 && _); by simplify_eq/=.
Qed.

Lemma pair_steps_kept ts p p' : rtc (pair_step ts) p p' → kept (sh_world (p_shared p)) (sh_world (p_shared p')).
Proof. induction 1; [done|]. etrans; [by eapply pair_step_kept|done]. Qed.

Lemma try_hosts_run ts hosts w live out w' live' :
  try_hosts ts hosts w live out w' live' →
  kept w w' ∧ ∀ h c, out = HConnected h c → h ∈ hosts ∧ live' !! c = Some h.
Proof.
  induction 1 as [| |h0 hosts w live p host c' Hr Hp|h0 hosts w live p Hr Hp|h0 hosts w live p out w' live' Hr Hp Ht [IHk IH]].
  - by split.
  - by split.
  - split; [by apply (pair_steps_kept _ _ _ Hr)|]. intros h c [= -> ->].
    destruct (reader_round_ok ts w live h0 (head hosts) p Hr) as [Hs _].
    destruct (Hs h c Hp) as [Hl [->|Hh]]; (split; [|done]); [by left|right]. by destruct hosts; simplify_eq/=; left.
  - split; [by apply (pair_steps_kept _ _ _ Hr)|done].
  - split; [etrans; [by apply (pair_steps_kept _ _ _ Hr)|done]|]. intros h c Ho.
    destruct (IH h c Ho) as [Hin Hl]. split; [|done]. right. destruct hosts; [done|]. by right.
Qed.

(** Reader failover connects to a host of the topology it was given: a
    reader, or, when the mode is not strict reader, a writer.  This holds
    for every shuffle that permutes, and after any number of searches. *)
Theorem reader_failover_host {rng} (shuffle : rng → list loc → list loc * rng) ts engine strict p t w live h c :
  permutes shuffle → store_ok w → w_topologies w !! p = Some t →
  reader_failover shuffle ts engine strict (Some p) w live (HConnected h c) →
  h ∈ readers t ∨ strict = false ∧ h ∈ writers t.
Proof.
  intros Hp Hok Ht H. remember (HConnected h c) as out eqn:Ho. remember (Some p) as op eqn:Eop. revert t Ht Hok.
  induction H as [|p0 t0 w live Ht0 H0|p0 w live|p0 t0 hosts w live out w' live' Ht0 H0 Hb Htry Hne|
    p0 t0 hosts w live w' live' out Ht0 H0 Hb Htry Hrec IH]; intros t Ht Hok; simplify_eq.
  - destruct (build_hosts_list_run shuffle engine p (negb strict) w t0 Hp Hok Ht0) as (up & down & ws & E & _ & _ & _ & Hperm).
    rewrite E in Hb. injection Hb as <-. destruct (try_hosts_run _ _ _ _ _ _ _ Htry) as [_ Hin].
    destruct (Hin h c eq_refl) as [Hh _]. rewrite Hperm in Hh. apply elem_of_app in Hh as [?|Hh]; [by left|right].
    destruct strict; simpl in Hh; [by apply elem_of_nil in Hh|done].
  - destruct (try_hosts_run _ _ _ _ _ _ _ Htry) as [[[_ Hg] Hs] _]. destruct (Hg p t0 Ht0) as (t' & Ht' & Ew & Er).
    rewrite <- Ew, <- Er. by apply (IH eq_refl eq_refl t' Ht'); apply Hs.
Qed.

Lemma reader_failover_host_witness :
  let w := ex_filtered_world (AllowedAndBlocked ∅ ∅) in
  reader_failover (λ (e : unit) l, (l, e)) 1%positive tt true (Some 1%positive) w ∅ (HConnected 2%positive 1%positive) ∧
  (2%positive ∈ readers ex_topology ∨ true = false ∧ 2%positive ∈ writers ex_topology).
Proof.
  intros w. assert (reader_failover (λ (e : unit) l, (l, e)) 1%positive tt true (Some 1%positive) w ∅ (HConnected 2%positive 1%positive)) as H.
  { destruct (pair_exec 1%positive
      [AFirst NoConnection; AFirst (Connection true); AFirst NoConnection; AFirst NoConnection; AFirst NoConnection;
       AFirst NoConnection; APoll false; APoll false] (start_pair w ∅ 2%positive None)) as [p|] eqn:E; [|by vm_compute in E].
    eapply (rf_search _ _ _ _ _ ex_topology [2%positive]); [reflexivity|done|reflexivity| |done].
    apply (try_connected _ 2%positive [] w ∅ p); [exact (pair_exec_rtc _ _ _ _ E)|by vm_compute in E; injection E as <-]. }
  split; [exact H|]. eapply (reader_failover_host (λ (e : unit) l, (l, e))); [|apply ex_filtered_ok|apply lookup_singleton_eq|exact H].
  by intros e l.
Defined.
