(* ===== verification/FailoverWriter.v ===== *)
(** Writer failover: the two tasks [RECONNECT_TO_WRITER_HANDLER] (task A) and
    [WAIT_NEW_WRITER_HANDLER] (task B), and the thread of
    [FAILOVER_WRITER_HANDLER::failover] that polls them
    (src/driver/failover_writer_handler.cc), as a transition system in the
    style of FailoverReader.v.  The tasks run the topology service of
    TopologyService.v on the shared store. *)

From S2P Require Import Prelude CppString HostInfo Metrics World ClusterTopology TopologyService FailoverSync FailoverReader.

Local Open Scope Z_scope.

(** [src/driver/failover.h:111-133] WRITER_FAILOVER_RESULT

    A result with [connected] set. *)
Record writer_result := WriterResult {
  is_new_host : bool;
  new_topology : loc;
  new_connection : option conn
}.

(** What the environment decides at one step of a task: what [connect]
    returns, what a query on a connection answers, what [is_connected] of a
    connection says, and what the reader handler's [get_reader_connection]
    returns. *)
Inductive reader_outcome := NoReader | GotReader (host : loc) (connected : bool) | ReaderThrew.
Record environment := Env {
  e_connect : connect_outcome;
  e_query : TOPOLOGY_CONNECTION;
  e_is_connected : bool;
  e_reader : reader_outcome
}.

(** ** Comparing hosts *)

(** The instance name of a host. *)
Definition name_of (h : loc) : M world str := hi ← load h; mret (instance_name hi).

(** [src/driver/failover_writer_handler.cc:160-168] RECONNECT_TO_WRITER_HANDLER::is_current_host_writer *)
Definition is_current_host_writer (original_writer latest_topology : loc) : M world bool :=
  original_instance ← name_of original_writer;
  if decide (original_instance = []) then mret false else
  latest_writer ← get_writer latest_topology;
  latest_instance ← name_of latest_writer;
  mret (bool_decide (latest_instance = original_instance)).

(** [src/driver/host_info.cc:113-115] HOST_INFO::is_host_same *)
Definition same_host (h1 h2 : loc) : M world bool :=
  hi1 ← load h1; hi2 ← load h2; mret (is_host_same hi1 hi2).

(** ** Task A *)

Inductive a_pc :=
  | A_Loop                      (** before [is_completed] of the loop *)
  | A_Connect                   (** before [connect(original_writer)] *)
  | A_Query                     (** before [get_topology(new_connection, true)] *)
  | A_MarkUp (topology : loc)   (** before [mark_host_up(original_writer)] *)
  | A_Check (topology : loc)    (** before the second [is_completed] *)
  | A_Publish (topology : loc)  (** before the result is filled in *)
  | A_Complete                  (** before [mark_as_complete(true)] *)
  | A_Discard                   (** before [release_new_connection] in the loop *)
  | A_Sleep
  | A_Release                   (** before the last [release_new_connection] *)
  | A_Done
  | A_Threw
  | A_Undefined.                (** undefined behaviour: a null topology *)

Record a_task := ATask { a_at : a_pc; a_conn : option conn; a_result : option writer_result }.

Definition a_goto (pc : a_pc) (t : a_task) : a_task := ATask pc (a_conn t) (a_result t).

(** [src/driver/failover_writer_handler.cc:132-136] RECONNECT_TO_WRITER_HANDLER::operator()

    The forced topology query on the new connection and the test of its
    answer: the topology when the original writer is the writer still. *)
Definition confirm_writer (ts original_writer : loc) (q : TOPOLOGY_CONNECTION) : M world (option loc) :=
  latest_topology ← get_topology ts (Some q) true;
  p ← deref latest_topology;
  t ← load p;
  if decide (0 < total_hosts t)%nat then
    is_writer ← is_current_host_writer original_writer p;
    mret (if is_writer : bool then Some p else None)
  else mret None.

(** [src/driver/failover_writer_handler.cc:118-158] RECONNECT_TO_WRITER_HANDLER::operator() *)
Definition a_step (ts original_writer : loc) (e : environment) (t : a_task) (s : shared) : option (a_task * shared) :=
  let completed := is_completed (sh_sync s) in
  match a_at t with
  | A_Loop => Some (a_goto (if completed then A_Release else A_Connect) t, s)
  | A_Connect =>
    match connect original_writer (e_connect e) (sh_live s) with
    | Some (c, connected, live) =>
      Some (ATask (if connected : bool then A_Query else A_Sleep) c (a_result t), Shared (sh_sync s) live (sh_world s))
    | None => Some (a_goto A_Threw t, s)
    end
  | A_Query =>
    let '(r, w) := confirm_writer ts original_writer (e_query e) (sh_world s) in
    Some (a_goto (match r with
                  | Ok (Some p) => A_MarkUp p
                  | Ok None => A_Discard
                  | Throw _ => A_Threw
                  | UB => A_Undefined
                  end) t, set_world w s)
  | A_MarkUp p =>
    let '(r, w) := mark_host_up ts (Some original_writer) (sh_world s) in
    Some (a_goto (if is_ok r then A_Check p else A_Undefined) t, set_world w s)
  | A_Check p => Some (a_goto (if completed then A_Release else A_Publish p) t, s)
  | A_Publish p => Some (ATask A_Complete (a_conn t) (Some (WriterResult false p (a_conn t))), s)
  | A_Complete => Some (a_goto A_Done t, Shared (mark_as_complete true (sh_sync s)).2 (sh_live s) (sh_world s))
  | A_Discard =>
    live ← release_new_connection (a_conn t) (sh_live s);
    Some (ATask A_Sleep None (a_result t), Shared (sh_sync s) live (sh_world s))
  | A_Sleep => Some (a_goto A_Loop t, s)
  | A_Release =>
    live ← release_new_connection (a_conn t) (sh_live s);
    Some (ATask A_Done None (a_result t), Shared (sh_sync s) live (sh_world s))
  | A_Done | A_Threw | A_Undefined => None
  end.

(** ** Task B *)

Inductive b_pc :=
  | B_Loop                      (** before [is_completed] of the main loop *)
  | B_IsConnected               (** before [is_writer_connected] *)
  | B_Reader                    (** in [connect_to_reader], before its loop test *)
  | B_GetReader                 (** before [get_reader_connection] *)
  | B_Refresh                   (** in the refresh loop, before its test *)
  | B_Query                     (** before [get_topology(reader_connection, true)] *)
  | B_Connect (candidate : loc) (** before [connect(writer_candidate)] *)
  | B_MarkUp (candidate : loc)
  | B_MarkDown (candidate : loc)
  | B_Sleep
  | B_Clean                     (** before [clean_up_reader_connection] *)
  | B_Publish
  | B_Complete
  | B_CleanEnd                  (** before the last [clean_up_reader_connection] *)
  | B_Release
  | B_Done
  | B_Threw
  | B_Undefined.

Record b_task := BTask {
  b_at : b_pc;
  b_topology : loc;
  b_reader : option conn;
  b_reader_host : option loc;
  b_conn : option conn;
  b_result : option writer_result
}.

Definition b_goto (pc : b_pc) (t : b_task) : b_task :=
  BTask pc (b_topology t) (b_reader t) (b_reader_host t) (b_conn t) (b_result t).

(** What the refresh loop decides after a query. *)
Inductive refresh_answer := KeepTopology | SameWriter (topology : loc) | NewWriter (topology candidate : loc) (is_reader : bool).

(** [src/driver/failover_writer_handler.cc:235-249] WAIT_NEW_WRITER_HANDLER::refresh_topology_and_connect_to_new_writer *)
Definition refresh_topology (ts original_writer : loc) (reader_host : option loc) (q : TOPOLOGY_CONNECTION) : M world refresh_answer :=
  latest_topology ← get_topology ts (Some q) true;
  p ← deref latest_topology;
  t ← load p;
  if decide (0 < total_hosts t)%nat then
    writer_candidate ← get_writer p;
    same ← same_host writer_candidate original_writer;
    if same : bool then mret (SameWriter p) else
    rh ← deref reader_host;
    is_reader ← same_host writer_candidate rh;
    mret (NewWriter p writer_candidate is_reader)
  else mret KeepTopology.

(** [src/driver/failover_writer_handler.cc:270-276] WAIT_NEW_WRITER_HANDLER::clean_up_reader_connection *)
Definition clean_up_reader_connection (reader new : option conn) (live : conns) : option (option conn * conns) :=
  match reader with
  | Some r => if decide (new = Some r) then Some (reader, live)
              else live' ← release_new_connection reader live; Some (None, live')
  | None => Some (None, live)
  end.

(** [src/driver/failover_writer_handler.cc:186-276] WAIT_NEW_WRITER_HANDLER::operator()

    The methods [connect_to_reader], [refresh_topology_and_connect_to_new_writer],
    [connect_to_writer] and [clean_up_reader_connection] are inlined. *)
Definition b_step (ts original_writer : loc) (e : environment) (t : b_task) (s : shared) : option (b_task * shared) :=
  let completed := is_completed (sh_sync s) in
  match b_at t with
  | B_Loop => Some (b_goto (if completed then B_CleanEnd else B_IsConnected) t, s)
  | B_IsConnected =>
    Some (b_goto (match b_conn t with Some _ => if e_is_connected e then B_Publish else B_Reader | None => B_Reader end) t, s)
  | B_Reader => Some (b_goto (if completed then B_Refresh else B_GetReader) t, s)
  | B_GetReader =>
    match e_reader e with
    | NoReader => Some (b_goto B_Reader t, s)
    | ReaderThrew => Some (b_goto B_Threw t, s)
    | GotReader h connected =>
      let c := fresh (dom (sh_live s)) in
      let s' := Shared (sh_sync s) (<[c := h]> (sh_live s)) (sh_world s) in
      Some (if connected : bool then BTask B_Refresh (b_topology t) (Some c) (Some h) (b_conn t) (b_result t)
            else b_goto B_Reader t, s')
    end
  | B_Refresh => Some (b_goto (if completed then B_Clean else B_Query) t, s)
  | B_Query =>
    let '(r, w) := refresh_topology ts original_writer (b_reader_host t) (e_query e) (sh_world s) in
    Some (match r with
          | Ok KeepTopology => b_goto B_Sleep t
          | Ok (SameWriter p) => BTask B_Sleep p (b_reader t) (b_reader_host t) (b_conn t) (b_result t)
          | Ok (NewWriter p w true) => BTask (B_MarkUp w) p (b_reader t) (b_reader_host t) (b_reader t) (b_result t)
          | Ok (NewWriter p w false) => BTask (B_Connect w) p (b_reader t) (b_reader_host t) (b_conn t) (b_result t)
          | Throw _ => b_goto B_Threw t
          | UB => b_goto B_Undefined t
          end, set_world w s)
  | B_Connect w =>
    match connect w (e_connect e) (sh_live s) with
    | Some (c, connected, live) =>
      Some (BTask (if connected : bool then B_MarkUp w else B_MarkDown w) (b_topology t) (b_reader t) (b_reader_host t) c (b_result t),
            Shared (sh_sync s) live (sh_world s))
    | None => Some (b_goto B_Threw t, s)
    end
  | B_MarkUp w =>
    let '(r, w') := mark_host_up ts (Some w) (sh_world s) in
    Some (b_goto (if is_ok r then B_Clean else B_Undefined) t, set_world w' s)
  | B_MarkDown w =>
    let '(r, w') := mark_host_down ts (Some w) (sh_world s) in
    Some (b_goto (if is_ok r then B_Sleep else B_Undefined) t, set_world w' s)
  | B_Sleep => Some (b_goto B_Refresh t, s)
  | B_Clean =>
    '(r, live) ← clean_up_reader_connection (b_reader t) (b_conn t) (sh_live s);
    Some (BTask B_Loop (b_topology t) r (b_reader_host t) (b_conn t) (b_result t), Shared (sh_sync s) live (sh_world s))
  | B_Publish =>
    Some (BTask B_Complete (b_topology t) (b_reader t) (b_reader_host t) (b_conn t)
            (Some (WriterResult true (b_topology t) (b_conn t))), s)
  | B_Complete => Some (b_goto B_Done t, Shared (mark_as_complete true (sh_sync s)).2 (sh_live s) (sh_world s))
  | B_CleanEnd =>
    '(r, live) ← clean_up_reader_connection (b_reader t) (b_conn t) (sh_live s);
    Some (BTask B_Release (b_topology t) r (b_reader_host t) (b_conn t) (b_result t), Shared (sh_sync s) live (sh_world s))
  | B_Release =>
    live ← release_new_connection (b_conn t) (sh_live s);
    Some (BTask B_Done (b_topology t) (b_reader t) (b_reader_host t) None (b_result t), Shared (sh_sync s) live (sh_world s))
  | B_Done | B_Threw | B_Undefined => None
  end.

(** ** The polling thread *)

Inductive w_pc :=
  | W_Wait | W_First | W_Second | W_Check
  | W_Return (r : writer_result)
  | W_NotConnected
  | W_Throw.

Record writer_state := Writer {
  w_shared : shared;
  w_a : a_task;
  w_b : b_task;
  w_a_valid : bool;
  w_b_valid : bool;
  w_at : w_pc
}.

(** Looking at a future: [ended] when its task has ended, [threw] when with
    an exception. *)
Definition poll_future (valid ended threw : bool) (result : option writer_result) (next : w_pc) : bool * w_pc :=
  if valid && ended then
    (false, if threw then W_Throw else match result with Some r => W_Return r | None => next end)
  else (valid, next).

Definition a_ended (t : a_task) : bool := match a_at t with A_Done | A_Threw => true | _ => false end.
Definition a_threw (t : a_task) : bool := match a_at t with A_Threw => true | _ => false end.
Definition b_ended (t : b_task) : bool := match b_at t with B_Done | B_Threw => true | _ => false end.
Definition b_threw (t : b_task) : bool := match b_at t with B_Threw => true | _ => false end.

(** [src/driver/failover_writer_handler.cc:339-383] FAILOVER_WRITER_HANDLER::failover *)
Definition w_poll (timed_out : bool) (p : writer_state) : option writer_state :=
  let '(Writer s a b va vb pc) := p in
  match pc with
  | W_Wait => y ← wait_and_complete timed_out (sh_sync s);
              Some (Writer (Shared y (sh_live s) (sh_world s)) a b va vb W_First)
  | W_First => let '(v, pc') := poll_future va (a_ended a) (a_threw a) (a_result a) W_Second in Some (Writer s a b v vb pc')
  | W_Second => let '(v, pc') := poll_future vb (b_ended b) (b_threw b) (b_result b) W_Check in Some (Writer s a b va v pc')
  | W_Check => Some (Writer s a b va vb (if negb va && negb vb then W_NotConnected else if timed_out then W_NotConnected else W_First))
  | W_Return _ | W_NotConnected | W_Throw => None
  end.

Inductive w_action := WA (e : environment) | WB (e : environment) | WPoll (timed_out : bool).

Definition w_act (ts original_writer : loc) (a : w_action) (p : writer_state) : option writer_state :=
  let '(Writer s ta tb va vb pc) := p in
  match a with
  | WA e => '(t, s') ← a_step ts original_writer e ta s; Some (Writer s' t tb va vb pc)
  | WB e => '(t, s') ← b_step ts original_writer e tb s; Some (Writer s' ta t va vb pc)
  | WPoll timed_out => w_poll timed_out p
  end.

Definition w_step (ts original_writer : loc) (p p' : writer_state) : Prop := ∃ a, w_act ts original_writer a p = Some p'.

(** What starting the failover gives: no tasks for a null or empty
    topology, otherwise the original writer and the two tasks. *)
Inductive failover_start := NoTopology | Started (original_writer : loc).

(** [src/driver/failover_writer_handler.cc:302-325] FAILOVER_WRITER_HANDLER::failover

    [get_writer] throws when the current topology has no writer. *)
Definition start_failover (ts : loc) (current_topology : option loc) : M world failover_start :=
  match current_topology with
  | None => mret NoTopology
  | Some p =>
    t ← load p;
    if decide (total_hosts t = 0%nat) then mret NoTopology else
    original_writer ← get_writer p;
    mark_host_down ts (Some original_writer);;
    mret (Started original_writer)
  end.

(** [src/driver/failover_writer_handler.cc:313-340] FAILOVER_WRITER_HANDLER::failover *)
Definition start_tasks (w : world) (live : conns) (current_topology : loc) : writer_state :=
  Writer (Shared (Sync 2) live w) (ATask A_Loop None None) (BTask B_Loop current_topology None None None None)
    true true W_Wait.

(** ** What the queries establish *)

Definition named (w : world) (h : loc) (n : str) : Prop := ∃ hi, w_hosts w !! h = Some hi ∧ instance_name hi = n.
Definition writer_is (w : world) (p h : loc) : Prop := ∃ t, w_topologies w !! p = Some t ∧ head (writers t) = Some h.

(** The topology names the original writer as its writer. *)
Definition confirmed (w : world) (original p : loc) : Prop :=
  ∃ h n, writer_is w p h ∧ named w h n ∧ named w original n ∧ n ≠ [].

(** The topology's writer is [h], which is another instance. *)
Definition other_writer (w : world) (original p h : loc) (n : str) : Prop :=
  ∃ n', writer_is w p h ∧ named w h n ∧ named w original n' ∧ n ≠ n'.

(** [h] is the instance of the topology's writer, and not the original. *)
Definition replaced (w : world) (original p h : loc) : Prop :=
  ∃ h' n, other_writer w original p h' n ∧ named w h n.

Lemma named_grown w w' h n : grown w w' → named w h n → named w' h n.
Proof. intros [Hh _] (hi & H & <-). destruct (Hh _ _ H) as (hi' & ? & ?). by exists hi'. Qed.

Lemma writer_is_grown w w' p h : grown w w' → writer_is w p h → writer_is w' p h.
Proof. intros [_ Ht] (t & H & Hw). destruct (Ht _ _ H) as (t' & ? & E & _). exists t'. by rewrite E. Qed.

Lemma confirmed_grown w w' o p : grown w w' → confirmed w o p → confirmed w' o p.
Proof.
  intros Hg (h & n & H1 & H2 & H3 & H4). exists h, n. split; [by eapply writer_is_grown|].
  split; [by eapply named_grown|]. split; [by eapply named_grown|done].
Qed.

Lemma other_writer_grown w w' o p h n : grown w w' → other_writer w o p h n → other_writer w' o p h n.
Proof.
  intros Hg (n' & H1 & H2 & H3 & H4). exists n'. split; [by eapply writer_is_grown|].
  split; [by eapply named_grown|]. split; [by eapply named_grown|done].
Qed.

Lemma replaced_grown w w' o p h : grown w w' → replaced w o p h → replaced w' o p h.
Proof.
  intros Hg (h' & n & H1 & H2). exists h', n. split; [by eapply other_writer_grown|by eapply named_grown].
Qed.

Lemma load_Ok_inv {T} `{Stored T} p (x : T) w w' : load p w = (Ok x, w') → heap w !! p = Some x ∧ w' = w.
Proof. apply load_inv. Qed.

Lemma get_writer_inv p h w w' : get_writer p w = (Ok h, w') → writer_is w p h ∧ w' = w.
Proof.
  intros (t & w1 & [Ht ->]%load_Ok_inv & E)%bind_inv_Ok. destruct (writers t) as [|x l] eqn:Ew; [done|].
  injection E as -> <-. split; [|done]. exists t. by rewrite Ew.
Qed.

Lemma name_of_inv h n w w' : name_of h w = (Ok n, w') → named w h n ∧ w' = w.
Proof. intros (hi & w1 & [Hh ->]%load_Ok_inv & E)%bind_inv_Ok. injection E as <- <-. split; [by exists hi|done]. Qed.

Lemma same_host_inv h1 h2 b w w' :
  same_host h1 h2 w = (Ok b, w') → ∃ n1 n2, named w h1 n1 ∧ named w h2 n2 ∧ b = bool_decide (n1 = n2) ∧ w' = w.
Proof.
  intros (hi1 & w1 & [Hh1 ->]%load_Ok_inv & (hi2 & w2 & [Hh2 ->]%load_Ok_inv & E)%bind_inv_Ok)%bind_inv_Ok.
  injection E as <- <-. eexists _, _. split; [by exists hi1|]. split; [by exists hi2|done].
Qed.

Lemma deref_inv {A} (o : option A) a (w w' : world) : deref o w = (Ok a, w') → o = Some a ∧ w' = w.
Proof. destruct o; intros [=]; by subst. Qed.

Lemma confirm_writer_inv ts o q p w w' :
  confirm_writer ts o q w = (Ok (Some p), w') → confirmed w' o p.
Proof.
  intros (lt & w1 & _ & (p' & w2 & [-> ->]%deref_inv & (t & w3 & [Ht ->]%load_Ok_inv & E)%bind_inv_Ok)%bind_inv_Ok)%bind_inv_Ok.
  destruct (decide _); [|done]. apply bind_inv_Ok in E as (b & w4 & E & E').
  destruct b; [|done]. injection E' as -> <-. unfold is_current_host_writer in E.
  apply bind_inv_Ok in E as (n & w5 & [Hn ->]%name_of_inv & E). destruct (decide (n = [])) as [|Hne]; [done|].
  apply bind_inv_Ok in E as (h & w6 & [Hw ->]%get_writer_inv & E). apply bind_inv_Ok in E as (n' & w7 & [Hn' ->]%name_of_inv & E).
  injection E as E <-. apply bool_decide_eq_true in E as ->. by exists h, n.
Qed.

Lemma refresh_topology_inv ts o rh q p c b w w' :
  refresh_topology ts o rh q w = (Ok (NewWriter p c b), w') →
  ∃ n, other_writer w' o p c n ∧ (b = true → ∃ r, rh = Some r ∧ named w' r n).
Proof.
  intros (lt & w1 & _ & (p' & w2 & [-> ->]%deref_inv & (t & w3 & [Ht ->]%load_Ok_inv & E)%bind_inv_Ok)%bind_inv_Ok)%bind_inv_Ok.
  destruct (decide _); [|done]. apply bind_inv_Ok in E as (h & w4 & [Hw ->]%get_writer_inv & E).
  apply bind_inv_Ok in E as (s & w5 & (n & n' & Hn & Hn' & -> & ->)%same_host_inv & E).
  case_bool_decide as Hne; [done|]. apply bind_inv_Ok in E as (r & w6 & [-> ->]%deref_inv & E).
  apply bind_inv_Ok in E as (s & w7 & (m & m' & Hm & Hm' & -> & ->)%same_host_inv & E). injection E as -> -> <- <-.
  assert (m = n) as -> by (destruct Hm as (? & ? & ?), Hn as (? & ? & ?); congruence).
  exists n. split; [by exists n'|]. intros ->%bool_decide_eq_true. by exists r.
Qed.

Lemma grows_confirm w0 ts o q : preserves (grown w0) (confirm_writer ts o q).
Proof. unfold confirm_writer, is_current_host_writer, name_of, get_writer. solve_preserves. Qed.

Lemma grows_refresh w0 ts o rh q : preserves (grown w0) (refresh_topology ts o rh q).
Proof. unfold refresh_topology, get_writer, same_host. solve_preserves. Qed.
#[export] Hint Resolve grows_confirm grows_refresh : odbc.

(** ** The invariant *)

(** The connection [c] was opened to a host of the new writer's instance. *)
Definition to_new_writer (o : loc) (s : shared) (p : loc) (c : option conn) : Prop :=
  ∃ x h, c = Some x ∧ sh_live s !! x = Some h ∧ replaced (sh_world s) o p h.

Definition candidate_ok (o : loc) (s : shared) (p h : loc) : Prop := ∃ n, other_writer (sh_world s) o p h n.

Record a_ok (o : loc) (s : shared) (t : a_task) : Prop := {
  a_ok_conn c : a_conn t = Some c → sh_live s !! c = Some o;
  a_ok_pc : match a_at t with
            | A_Query | A_Discard => is_Some (a_conn t)
            | A_MarkUp p | A_Check p | A_Publish p => is_Some (a_conn t) ∧ confirmed (sh_world s) o p
            | _ => True
            end;
  a_ok_result r : a_result t = Some r →
    (a_at t = A_Complete ∨ a_at t = A_Done) ∧ is_new_host r = false ∧ new_connection r = a_conn t ∧ is_Some (a_conn t) ∧
    confirmed (sh_world s) o (new_topology r)
}.

Record b_ok (o : loc) (s : shared) (t : b_task) : Prop := {
  b_ok_conn c : b_conn t = Some c → is_Some (sh_live s !! c);
  b_ok_reader c : b_at t ≠ B_Done → b_reader t = Some c → ∃ h, b_reader_host t = Some h ∧ sh_live s !! c = Some h;
  b_ok_pc : match b_at t with
            | B_Loop | B_Clean =>
              is_completed (sh_sync s) = true ∨ b_conn t = None ∨ to_new_writer o s (b_topology t) (b_conn t)
            | B_IsConnected => b_conn t = None ∨ to_new_writer o s (b_topology t) (b_conn t)
            | B_MarkUp _ | B_Publish => to_new_writer o s (b_topology t) (b_conn t)
            | B_Refresh => is_completed (sh_sync s) = true ∨ is_Some (b_reader t)
            | B_Query | B_MarkDown _ | B_Sleep => is_Some (b_reader t)
            | B_Connect h => is_Some (b_reader t) ∧ candidate_ok o s (b_topology t) h
            | _ => True
            end;
  b_ok_result r : b_result t = Some r →
    (b_at t = B_Complete ∨ b_at t = B_Done) ∧ is_new_host r = true ∧ new_connection r = b_conn t ∧
    to_new_writer o s (new_topology r) (b_conn t)
}.

(** The connections a task owns. *)
Definition a_owns (t : a_task) (c : conn) : Prop := a_conn t = Some c.
Definition b_owns (t : b_task) (c : conn) : Prop := b_conn t = Some c ∨ b_at t ≠ B_Done ∧ b_reader t = Some c.

(** What a step of one task means for the other: the world grows, completion
    is final, and only connections the task owned go. *)
Definition evolves (own own' : conn → Prop) (s s' : shared) : Prop :=
  grown (sh_world s) (sh_world s') ∧
  (is_completed (sh_sync s) = true → is_completed (sh_sync s') = true) ∧
  (∀ c h, sh_live s !! c = Some h → sh_live s' !! c = Some h ∨ own c) ∧
  (∀ c, own' c → own c ∨ sh_live s !! c = None).

Lemma to_new_writer_evolves own own' o s s' p c :
  evolves own own' s s' → (∀ x, c = Some x → own x → False) → to_new_writer o s p c → to_new_writer o s' p c.
Proof.
  intros (Hg & _ & Hl & _) Hd (x & h & -> & Hx & Hr). exists x, h. split; [done|]. split; [|by eapply replaced_grown].
  destruct (Hl x h Hx) as [?|Ho]; [done|]. by destruct (Hd x).
Qed.

Lemma a_ok_evolves own own' o s s' t :
  evolves own own' s s' → (∀ c, a_owns t c → own c → False) → a_ok o s t → a_ok o s' t.
Proof.
  intros (Hg & _ & Hl & _) Hd [H1 H2 H3]. split.
  - intros c Hc. destruct (Hl c o (H1 c Hc)) as [?|Ho]; [done|]. by destruct (Hd c).
  - destruct (a_at t); try done; destruct H2; split; try done; by eapply confirmed_grown.
  - intros r Hr. destruct (H3 r Hr) as (? & ? & ? & ? & ?). do 4 (split; [done|]). by eapply confirmed_grown.
Qed.

Lemma b_ok_evolves own own' o s s' t :
  evolves own own' s s' → (∀ c, b_owns t c → own c → False) → b_ok o s t → b_ok o s' t.
Proof.
  intros He Hd [H1 H2 H3 H4]. pose proof He as (Hg & Hc & Hl & _).
  assert (∀ p, to_new_writer o s p (b_conn t) → to_new_writer o s' p (b_conn t)) as Hw.
  { intros p. eapply to_new_writer_evolves; [exact He|]. intros x Hx. apply Hd. by left. }
  split.
  - intros c Hb. destruct (H1 c Hb) as [h Hh]. destruct (Hl c h Hh) as [?|Ho]; [by exists h|]. destruct (Hd c); [by left|done].
  - intros c Hn Hb. destruct (H2 c Hn Hb) as (h & Hh & Hch). exists h. split; [done|].
    destruct (Hl c h Hch) as [?|Ho]; [done|]. destruct (Hd c); [by right|done].
  - destruct (b_at t); try done.
    + destruct H3 as [?|[?|?]]; auto.
    + destruct H3 as [?|?]; auto.
    + destruct H3 as [?|?]; auto.
    + destruct H3 as [? (n & Hn)]. split; [done|]. exists n. by eapply other_writer_grown.
    + auto.
    + destruct H3 as [?|[?|?]]; auto.
    + auto.
  - intros r Hr. destruct (H4 r Hr) as (? & ? & ? & ?). auto.
Qed.

Lemma evolves_world own own' s w :
  grown (sh_world s) w → (∀ c, own' c → own c) → evolves own own' s (set_world w s).
Proof. intros Hg Ho. split; [done|]. split; [done|]. split; [by left|]. intros c Hc. left. by apply Ho. Qed.

Lemma evolves_same own own' s : (∀ c, own' c → own c) → evolves own own' s s.
Proof. intros Ho. destruct s. by apply (evolves_world own own' (Shared _ _ _)). Qed.

Lemma evolves_sync own own' s y :
  is_completed y = true → (∀ c, own' c → own c) → evolves own own' s (Shared y (sh_live s) (sh_world s)).
Proof. intros Hy Ho. split; [done|]. split; [done|]. split; [by left|]. intros c Hc. left. by apply Ho. Qed.

(** Opening a connection and putting it in a slot. *)
Lemma evolves_open (own own' : conn → Prop) s h :
  (∀ c, own' c → own c ∨ c = fresh (dom (sh_live s))) →
  evolves own own' s (Shared (sh_sync s) (<[fresh (dom (sh_live s)) := h]> (sh_live s)) (sh_world s)).
Proof.
  intros Ho. pose proof (fresh_conn (sh_live s)) as Hf. split; [done|]. split; [done|]. split; simpl.
  - intros c x Hc. left. rewrite lookup_insert_ne; [done|congruence].
  - intros c Hc. destruct (Ho c Hc) as [?| ->]; [by left|by right].
Qed.

Lemma evolves_connect (own own' : conn → Prop) s h o c b live :
  connect h o (sh_live s) = Some (c, b, live) → (∀ x, own' x → own x ∨ c = Some x) →
  evolves own own' s (Shared (sh_sync s) live (sh_world s)) ∧
  (∀ x, c = Some x → live !! x = Some h) ∧ (b = true → is_Some c).
Proof.
  destruct o as [|b'|]; simpl; intros [= <- <- <-] Ho.
  - split; [|done]. destruct s. apply evolves_same. intros x Hx. by destruct (Ho x Hx).
  - split; [|split; [intros x [= <-]; apply lookup_insert_eq|eauto]]. apply evolves_open. intros x Hx.
    destruct (Ho x Hx) as [?|[= <-]]; auto.
Qed.

Lemma evolves_release (own own' : conn → Prop) s c live :
  release_new_connection c (sh_live s) = Some live → (∀ x, c = Some x → own x) → (∀ x, own' x → own x) →
  evolves own own' s (Shared (sh_sync s) live (sh_world s)) ∧ (∀ x h, live !! x = Some h → sh_live s !! x = Some h).
Proof.
  destruct c as [c|]; simpl.
  - destruct (sh_live s !! c) as [h|] eqn:E; [|done]. intros [= <-] Hc Ho. split.
    + split; [done|]. split; [done|]. split; simpl; [|by left; apply Ho]. intros x h' Hx.
      destruct (decide (x = c)) as [->|Hne]; [right; by apply Hc|]. left. by rewrite lookup_delete_ne.
    + intros x h' [_ ?]%lookup_delete_Some. done.
  - intros [= <-] _ Ho. split; [|done]. destruct s. by apply evolves_same.
Qed.

Lemma a_ok_goto o s t pc :
  a_ok o s t → a_result t = None →
  match pc with
  | A_Query | A_Discard => is_Some (a_conn t)
  | A_MarkUp p | A_Check p | A_Publish p => is_Some (a_conn t) ∧ confirmed (sh_world s) o p
  | _ => True
  end → a_ok o s (a_goto pc t).
Proof. intros [H1 H2 H3] Hr Hpc. split; [exact H1|exact Hpc|]. simpl. by rewrite Hr. Qed.

Lemma a_ok_world o s t w : grown (sh_world s) w → a_ok o s t → a_ok o (set_world w s) t.
Proof.
  intros Hg. apply (a_ok_evolves (λ _, False) (λ _, False)); [|done]. by apply evolves_world.
Qed.

Lemma a_no_result o s t : a_ok o s t → a_at t ≠ A_Complete → a_at t ≠ A_Done → a_result t = None.
Proof. intros [_ _ H3] H1 H2. destruct (a_result t) as [r|]; [|done]. by destruct (H3 r eq_refl) as [[?|?] _]. Qed.

Lemma a_step_ok ts o e t s t' s' :
  a_step ts o e t s = Some (t', s') → a_ok o s t → a_ok o s' t' ∧ evolves (a_owns t) (a_owns t') s s'.
Proof.
  intros Hs Hok. pose proof (a_no_result o s t Hok) as Hnr. pose proof (a_ok_pc _ _ _ Hok) as Hpc.
  unfold a_step in Hs. cbv zeta in Hs. destruct (a_at t) eqn:Epc; try done.
  - injection Hs as <- <-. split; [|by apply evolves_same]. apply a_ok_goto; [done|by apply Hnr|]. by destruct (is_completed _).
  - destruct (connect o (e_connect e) (sh_live s)) as [[[c b] live]|] eqn:E; injection Hs as <- <-;
      [|by split; [apply a_ok_goto; [done|by apply Hnr|]|apply evolves_same]].
    destruct (evolves_connect (a_owns t) (a_owns (ATask (if b then A_Query else A_Sleep) c (a_result t))) s o _ c b live E)
      as (He & Hl & Hb); [by intros x Hx; right|]. split; [|exact He].
    split; simpl; [exact Hl|destruct b; auto|]. by rewrite Hnr.
  - destruct (confirm_writer ts o (e_query e) (sh_world s)) as [r w] eqn:E. injection Hs as <- <-.
    assert (grown (sh_world s) w) as Hg
      by (pose proof (grows_confirm (sh_world s) ts o (e_query e) (sh_world s) (reflexivity _)) as Hg; by rewrite E in Hg).
    split; [|by apply evolves_world]. apply a_ok_goto; [by apply a_ok_world|by apply Hnr|].
    destruct r as [[p|]|e'|]; simpl; try done. split; [done|]. by eapply confirm_writer_inv.
  - destruct (mark_host_up ts (Some o) (sh_world s)) as [r w] eqn:E. injection Hs as <- <-.
    assert (grown (sh_world s) w) as Hg
      by (pose proof (grows_mark_up (sh_world s) ts (Some o) (sh_world s) (reflexivity _)) as Hg; by rewrite E in Hg).
    split; [|by apply evolves_world]. apply a_ok_goto; [by apply a_ok_world|by apply Hnr|].
    destruct (is_ok r); [|done]. destruct Hpc. split; [done|]. by eapply confirmed_grown.
  - injection Hs as <- <-. split; [|by apply evolves_same]. apply a_ok_goto; [done|by apply Hnr|]. by destruct (is_completed _).
  - injection Hs as <- <-. split; [|by apply evolves_same]. destruct Hok as [H1 _ _]. destruct Hpc. split; simpl; [done|done|].
    intros r [= <-]. split_and!; auto.
  - injection Hs as <- <-. split; [|by apply evolves_sync]. destruct Hok as [H1 _ H3]. split; simpl; [done|done|].
    intros r Hr. destruct (H3 r Hr) as (_ & ? & ? & ? & ?). auto.
  - destruct (release_new_connection (a_conn t) (sh_live s)) as [live|] eqn:E; [|done]. injection Hs as <- <-.
    destruct (evolves_release (a_owns t) (a_owns (ATask A_Sleep None (a_result t))) s _ live E) as [He _]; [done..|].
    split; [|exact He]. split; simpl; [done|done|]. by rewrite Hnr.
  - injection Hs as <- <-. split; [|by apply evolves_same]. apply a_ok_goto; [done|by apply Hnr|done].
  - destruct (release_new_connection (a_conn t) (sh_live s)) as [live|] eqn:E; [|done]. injection Hs as <- <-.
    destruct (evolves_release (a_owns t) (a_owns (ATask A_Done None (a_result t))) s _ live E) as [He _]; [done..|].
    split; [|exact He]. split; simpl; [done|done|]. by rewrite Hnr.
Qed.

(** The part of [b_ok] that depends on the point alone. *)
Definition b_pc_ok (o : loc) (s : shared) (t : b_task) : Prop :=
  match b_at t with
  | B_Loop | B_Clean =>
    is_completed (sh_sync s) = true ∨ b_conn t = None ∨ to_new_writer o s (b_topology t) (b_conn t)
  | B_IsConnected => b_conn t = None ∨ to_new_writer o s (b_topology t) (b_conn t)
  | B_MarkUp _ | B_Publish => to_new_writer o s (b_topology t) (b_conn t)
  | B_Refresh => is_completed (sh_sync s) = true ∨ is_Some (b_reader t)
  | B_Query | B_MarkDown _ | B_Sleep => is_Some (b_reader t)
  | B_Connect h => is_Some (b_reader t) ∧ candidate_ok o s (b_topology t) h
  | _ => True
  end.

Lemma b_ok_goto o s t pc :
  b_ok o s t → b_result t = None → b_at t ≠ B_Done → b_pc_ok o s (b_goto pc t) → b_ok o s (b_goto pc t).
Proof. intros [H1 H2 _ _] Hr Hd Hpc. split; simpl; [exact H1|auto|exact Hpc|]. by rewrite Hr. Qed.

Lemma b_ok_world o s t w : grown (sh_world s) w → b_ok o s t → b_ok o (set_world w s) t.
Proof. intros Hg. apply (b_ok_evolves (λ _, False) (λ _, False)); [|done]. by apply evolves_world. Qed.

Lemma b_no_result o s t : b_ok o s t → b_at t ≠ B_Complete → b_at t ≠ B_Done → b_result t = None.
Proof. intros [_ _ _ H3] H1 H2. destruct (b_result t) as [r|]; [|done]. by destruct (H3 r eq_refl) as [[?|?] _]. Qed.

Lemma owns_goto t pc : b_at t ≠ B_Done → ∀ c, b_owns (b_goto pc t) c → b_owns t c.
Proof. intros Hd c [?|[_ ?]]; [by left|by right]. Qed.

(** After the clean-up the reader connection is gone or the new connection. *)
Lemma clean_up_ok o s t r live pc :
  clean_up_reader_connection (b_reader t) (b_conn t) (sh_live s) = Some (r, live) →
  b_ok o s t → b_result t = None → b_at t ≠ B_Done → pc ≠ B_Done →
  let t' := BTask pc (b_topology t) r (b_reader_host t) (b_conn t) None in
  let s' := Shared (sh_sync s) live (sh_world s) in
  (b_pc_ok o s t' → b_ok o s' t') ∧ evolves (b_owns t) (b_owns t') s s'.
Proof.
  intros E [H1 H2 _ _] Hr Hd Hpc t' s'. unfold clean_up_reader_connection in E.
  assert (r = b_reader t ∧ live = sh_live s ∨ r = None ∧ ∃ c, b_reader t = Some c ∧ b_conn t ≠ Some c ∧
    release_new_connection (Some c) (sh_live s) = Some live) as [[-> ->]|(-> & c & Er & Hne & E')].
  { destruct (b_reader t) as [c|] eqn:Er; [|injection E as <- <-; by left]. destruct (decide (b_conn t = Some c)) as [|Hne].
    - injection E as <- <-. by left.
    - destruct (release_new_connection (Some c) (sh_live s)) as [l|] eqn:E'; [|done]. injection E as <- <-. right. eauto. }
  - subst t' s'. destruct s as [y l w]. simpl. split.
    + intros Hok. split; simpl; [done|auto|exact Hok|done].
    + apply evolves_same. intros x [?|[_ ?]]; [by left|by right].
  - destruct (evolves_release (b_owns t) (b_owns t') s (Some c) live E') as [He Hl];
      [intros x [= <-]; by right|by intros x [?|[_ ?]]; [left|]|]. split; [|exact He].
    assert (∀ x h, b_conn t = Some x → sh_live s !! x = Some h → live !! x = Some h) as Hkeep.
    { intros x h Hx Hh. simpl in E'. destruct (sh_live s !! c); [|done]. injection E' as <-.
      rewrite lookup_delete_ne; [done|congruence]. }
    assert (∀ p, to_new_writer o s p (b_conn t) → to_new_writer o s' p (b_conn t)) as Hw.
    { intros p (x & h & Hx & Hh & Hrep). exists x, h. split; [done|]. split; [by apply Hkeep|done]. }
    intros Hok. split; simpl; [|done| |done].
    + intros x Hx. destruct (H1 x Hx) as [h Hh]. exists h. by apply Hkeep.
    + unfold b_pc_ok in Hok. subst t'. simpl in *. destruct pc; auto; destruct Hok as [?|Hok]; auto.
      all: destruct Hok; auto.
Qed.

(** The topology, connection and point change together after a query. *)
Lemma b_query_ok ts o t s q r w :
  refresh_topology ts o (b_reader_host t) q (sh_world s) = (r, w) → b_at t = B_Query → b_ok o s t →
  let t' := match r with
            | Ok KeepTopology => b_goto B_Sleep t
            | Ok (SameWriter p) => BTask B_Sleep p (b_reader t) (b_reader_host t) (b_conn t) (b_result t)
            | Ok (NewWriter p w true) => BTask (B_MarkUp w) p (b_reader t) (b_reader_host t) (b_reader t) (b_result t)
            | Ok (NewWriter p w false) => BTask (B_Connect w) p (b_reader t) (b_reader_host t) (b_conn t) (b_result t)
            | Throw _ => b_goto B_Threw t
            | UB => b_goto B_Undefined t
            end in
  b_ok o (set_world w s) t' ∧ evolves (b_owns t) (b_owns t') s (set_world w s).
Proof.
  intros E Epc Hok t'.
  assert (grown (sh_world s) w) as Hg.
  { pose proof (grows_refresh (sh_world s) ts o (b_reader_host t) q (sh_world s) (reflexivity _)) as Hg. by rewrite E in Hg. }
  pose proof (b_ok_world o s t w Hg Hok) as Hok'. pose proof Hok' as [H1 H2 H3 _].
  assert (b_result t = None) as Hr by (eapply b_no_result; [exact Hok|congruence..]). rewrite Epc in H3.
  assert (b_at t ≠ B_Done) as Hnd by congruence.
  split.
  - destruct r as [[|p|p h b]|e|]; subst t'.
    + by apply b_ok_goto.
    + split; simpl; [exact H1|auto|exact H3|by rewrite Hr].
    + destruct (refresh_topology_inv _ _ _ _ _ _ _ _ _ E) as (n & Ho & Hb). destruct b.
      * destruct (Hb eq_refl) as (rh & Erh & Hn). destruct H3 as [c Hc]. destruct (H2 c Hnd Hc) as (h' & Eh' & Hl).
        rewrite Erh in Eh'. injection Eh' as <-. split; simpl; [|auto| |by rewrite Hr].
        -- intros x Hx. destruct (H2 x Hnd Hx) as (h' & _ & Hh). by exists h'.
        -- exists c, rh. split; [done|]. split; [done|]. by exists h, n.
      * split; simpl; [exact H1|auto| |by rewrite Hr]. split; [exact H3|]. by exists n.
    + by apply b_ok_goto.
    + by apply b_ok_goto.
  - apply evolves_world; [exact Hg|]. destruct r as [[|p|p h [|]]|e|]; subst t'; intros c; unfold b_owns; simpl;
      intros [?|[_ ?]]; auto.
Qed.

(** Getting a reader connection, and connecting to the candidate. *)
Lemma b_reader_ok o t s h :
  b_at t = B_GetReader → b_ok o s t →
  let c := fresh (dom (sh_live s)) in
  let s' := Shared (sh_sync s) (<[c := h]> (sh_live s)) (sh_world s) in
  let t' := BTask B_Refresh (b_topology t) (Some c) (Some h) (b_conn t) (b_result t) in
  b_ok o s' t' ∧ b_ok o s' (b_goto B_Reader t) ∧ evolves (b_owns t) (b_owns t') s s' ∧
  evolves (b_owns t) (b_owns (b_goto B_Reader t)) s s'.
Proof.
  intros Epc Hok c s' t'. assert (b_result t = None) as Hr by (eapply b_no_result; [exact Hok|congruence..]).
  assert (b_at t ≠ B_Done) as Hnd by congruence.
  assert (evolves (b_owns t) (b_owns (b_goto B_Reader t)) s s') as He2.
  { apply evolves_open. intros x Hx. left. by eapply owns_goto. }
  assert (b_ok o s' (b_goto B_Reader t)) as Hok2.
  { apply b_ok_goto; [|done|done|done]. apply (b_ok_evolves (λ _, False) (λ _, False) o s); [|done|done].
    by apply evolves_open. }
  split; [|split; [exact Hok2|split; [|exact He2]]].
  - destruct Hok2 as [H1 _ _ _]. split; simpl; [exact H1| |right; eauto|by rewrite Hr].
    intros x _ [= <-]. exists h. split; [done|apply lookup_insert_eq].
  - apply evolves_open. intros x [?|[_ [= <-]]]; [left; by left|by right].
Qed.

Lemma b_connect_ok o t s h oc c b live :
  b_at t = B_Connect h → b_ok o s t → connect h oc (sh_live s) = Some (c, b, live) →
  let s' := Shared (sh_sync s) live (sh_world s) in
  let t' := BTask (if b : bool then B_MarkUp h else B_MarkDown h) (b_topology t) (b_reader t) (b_reader_host t) c (b_result t) in
  b_ok o s' t' ∧ evolves (b_owns t) (b_owns t') s s'.
Proof.
  intros Epc Hok E s' t'. assert (b_result t = None) as Hr by (eapply b_no_result; [exact Hok|congruence..]).
  assert (b_at t ≠ B_Done) as Hnd by congruence.
  pose proof (b_ok_pc _ _ _ Hok) as Hpc. rewrite Epc in Hpc. destruct Hpc as [Hrd (n & Hcand)].
  destruct (evolves_connect (b_owns t) (b_owns t') s h oc c b live E) as (He & Hl & Hb).
  { intros x [?|[_ ?]]; [by right|left; by right]. }
  destruct (evolves_connect (λ _, False) (λ x, c = Some x) s h oc c b live E) as (He' & _); [by intros x; right|].
  split; [|exact He]. destruct Hok as [_ H2 _ _]. split; simpl.
  - intros x Hx. exists h. by apply Hl.
  - intros x _ Hx. destruct (H2 x Hnd Hx) as (h' & Eh & Hh). exists h'. split; [done|].
    by destruct He' as (_ & _ & Hkeep & _); destruct (Hkeep x h' Hh).
  - destruct b; [|exact Hrd]. destruct (Hb eq_refl) as [x Hx]. exists x, h. split; [done|]. split; [by apply Hl|].
    exists h, n. split; [exact Hcand|]. by destruct Hcand as (? & _ & ? & _).
  - by rewrite Hr.
Qed.

Lemma b_step_ok ts o e t s t' s' :
  b_step ts o e t s = Some (t', s') → b_ok o s t → b_ok o s' t' ∧ evolves (b_owns t) (b_owns t') s s'.
Proof.
  intros Hs Hok. pose proof (b_no_result o s t Hok) as Hnr. pose proof (b_ok_pc _ _ _ Hok) as Hpc.
  assert (b_at t ≠ B_Complete → b_at t ≠ B_Done → ∀ pc, b_pc_ok o s (b_goto pc t) →
    b_ok o s (b_goto pc t) ∧ evolves (b_owns t) (b_owns (b_goto pc t)) s s) as Hgoto.
  { intros H1 H2 pc Hok'. split; [by apply b_ok_goto; [|apply Hnr| |]|]. apply evolves_same. by apply owns_goto. }
  unfold b_step in Hs. cbv zeta in Hs. destruct (b_at t) eqn:Epc; try done.
  - injection Hs as <- <-. apply Hgoto; [done..|]. unfold b_pc_ok. simpl. destruct (is_completed _); [done|].
    destruct Hpc as [?|Hpc]; [done|exact Hpc].
  - injection Hs as <- <-. apply Hgoto; [done..|]. unfold b_pc_ok. simpl. destruct (b_conn t) as [c|]; [|done].
    destruct (e_is_connected e); [|done]. by destruct Hpc.
  - injection Hs as <- <-. apply Hgoto; [done..|]. unfold b_pc_ok. simpl.
    destruct (is_completed (sh_sync s)) eqn:Ec; [by left|done].
  - destruct (e_reader e) as [|h b|]; [injection Hs as <- <-; by apply Hgoto| |injection Hs as <- <-; by apply Hgoto].
    destruct (b_reader_ok o t s h Epc Hok) as (? & ? & ? & ?). destruct b; by injection Hs as <- <-.
  - injection Hs as <- <-. apply Hgoto; [done..|]. unfold b_pc_ok. simpl.
    destruct (is_completed (sh_sync s)) eqn:Ec; [by left|]. by destruct Hpc.
  - destruct (refresh_topology ts o (b_reader_host t) (e_query e) (sh_world s)) as [r w] eqn:E. injection Hs as <- <-.
    exact (b_query_ok ts o t s (e_query e) r w E Epc Hok).
  - destruct (connect candidate (e_connect e) (sh_live s)) as [[[c b] live]|] eqn:E; injection Hs as <- <-;
      [by eapply b_connect_ok|by apply Hgoto].
  - destruct (mark_host_up ts (Some candidate) (sh_world s)) as [r w] eqn:E. injection Hs as <- <-.
    assert (grown (sh_world s) w) as Hg
      by (pose proof (grows_mark_up (sh_world s) ts (Some candidate) (sh_world s) (reflexivity _)) as Hg; by rewrite E in Hg).
    split; [|apply evolves_world; [exact Hg|apply owns_goto; congruence]].
    apply b_ok_goto; [by apply b_ok_world|by apply Hnr|congruence|]. unfold b_pc_ok. simpl. destruct (is_ok r); [|done].
    right. right. pose proof (b_ok_pc _ _ _ (b_ok_world o s t w Hg Hok)) as Hp. by rewrite Epc in Hp.
  - destruct (mark_host_down ts (Some candidate) (sh_world s)) as [r w] eqn:E. injection Hs as <- <-.
    assert (grown (sh_world s) w) as Hg
      by (pose proof (grows_mark_down (sh_world s) ts (Some candidate) (sh_world s) (reflexivity _)) as Hg; by rewrite E in Hg).
    split; [|apply evolves_world; [exact Hg|apply owns_goto; congruence]].
    apply b_ok_goto; [by apply b_ok_world|by apply Hnr|congruence|]. unfold b_pc_ok. simpl. by destruct (is_ok r).
  - injection Hs as <- <-. apply Hgoto; [done..|]. by right.
  - destruct (clean_up_reader_connection (b_reader t) (b_conn t) (sh_live s)) as [[r live]|] eqn:E; [|done].
    injection Hs as <- <-. rewrite Hnr by done.
    destruct (clean_up_ok o s t r live B_Loop E Hok) as [H1 H2]; [by apply Hnr|congruence|done|]. split; [by apply H1|exact H2].
  - injection Hs as <- <-. split; [|apply evolves_same; intros c [?|[_ ?]]; [by left|by right; rewrite Epc]].
    destruct Hok as [H1 H2 _ _]. split; simpl; [exact H1|intros c _; apply H2; congruence|done|].
    intros r [= <-]. simpl. auto.
  - injection Hs as <- <-. split; [|apply evolves_sync; [done|intros c [?|[? ?]]; [by left|done]]].
    destruct Hok as [H1 H2 _ H4]. split; simpl; [exact H1|done|done|]. intros r Hr. destruct (H4 r Hr) as (_ & ? & ? & ?). auto.
  - destruct (clean_up_reader_connection (b_reader t) (b_conn t) (sh_live s)) as [[r live]|] eqn:E; [|done].
    injection Hs as <- <-. rewrite Hnr by done.
    destruct (clean_up_ok o s t r live B_Release E Hok) as [H1 H2]; [by apply Hnr|congruence|done|]. split; [by apply H1|exact H2].
  - destruct (release_new_connection (b_conn t) (sh_live s)) as [live|] eqn:E; [|done]. injection Hs as <- <-.
    destruct (evolves_release (b_owns t) (b_owns (BTask B_Done (b_topology t) (b_reader t) (b_reader_host t) None (b_result t)))
      s _ live E) as [He _]; [by intros x Hx; left|by intros x [?|[? ?]]|].
    split; [|exact He]. split; simpl; [done|done|done|]. by rewrite Hnr.
Qed.

Lemma a_step_result ts o e t s t' s' r :
  a_step ts o e t s = Some (t', s') → a_ok o s t → a_result t = Some r → a_result t' = Some r.
Proof.
  intros Hs Hok Hr. destruct (a_ok_result _ _ _ Hok r Hr) as [[Epc|Epc] _]; unfold a_step in Hs; rewrite Epc in Hs; [|done].
  by injection Hs as <- <-.
Qed.

Lemma b_step_result ts o e t s t' s' r :
  b_step ts o e t s = Some (t', s') → b_ok o s t → b_result t = Some r → b_result t' = Some r.
Proof.
  intros Hs Hok Hr. destruct (b_ok_result _ _ _ Hok r Hr) as [[Epc|Epc] _]; unfold b_step in Hs; rewrite Epc in Hs; [|done].
  by injection Hs as <- <-.
Qed.

Record writer_ok (o : loc) (p : writer_state) : Prop := {
  wo_a : a_ok o (w_shared p) (w_a p);
  wo_b : b_ok o (w_shared p) (w_b p);
  wo_disjoint c : a_owns (w_a p) c → b_owns (w_b p) c → False;
  wo_return r : w_at p = W_Return r → a_result (w_a p) = Some r ∨ b_result (w_b p) = Some r
}.

Lemma a_owns_live o s t c : a_ok o s t → a_owns t c → is_Some (sh_live s !! c).
Proof. intros [H _ _] Hc. exists o. by apply H. Qed.

Lemma b_owns_live o s t c : b_ok o s t → b_owns t c → is_Some (sh_live s !! c).
Proof. intros [H1 H2 _ _] [Hc|[Hd Hc]]; [by apply H1|]. destruct (H2 c Hd Hc) as (h & _ & ?). by exists h. Qed.

(** Owning apart survives a step of either task. *)
Lemma disjoint_evolves (own own' other : conn → Prop) s s' :
  evolves own own' s s' → (∀ c, other c → is_Some (sh_live s !! c)) → (∀ c, own c → other c → False) →
  ∀ c, own' c → other c → False.
Proof.
  intros (_ & _ & _ & Hn) Hl Hd c Ho' Ho. destruct (Hn c Ho') as [?|He]; [by apply (Hd c)|].
  destruct (Hl c Ho) as [h Hh]. congruence.
Qed.

Lemma poll_future_ok valid ended threw res next v pc :
  poll_future valid ended threw res next = (v, pc) → (∀ r, next ≠ W_Return r) → ∀ r, pc = W_Return r → res = Some r.
Proof.
  unfold poll_future. intros E Hn r ->. destruct (valid && ended); [|by injection E as _ ->; destruct (Hn r)].
  destruct threw; [done|]. destruct res as [r'|]; [by injection E as _ <-|by injection E as _ ->; destruct (Hn r)].
Qed.

Lemma w_step_ok ts o p p' : writer_ok o p → w_step ts o p p' → writer_ok o p'.
Proof.
  intros [Ha Hb Hd Hr] [act Hact]. destruct p as [s a b va vb pc]. simpl in *. destruct act as [e|e|timed_out].
  - destruct (a_step ts o e a s) as [[a' s']|] eqn:E; simplify_eq/=. destruct (a_step_ok _ _ _ _ _ _ _ E Ha) as [Ha' He].
    split; simpl; [exact Ha'| | |].
    + eapply b_ok_evolves; [exact He| |exact Hb]. intros c H1 H2. by apply (Hd c).
    + eapply disjoint_evolves; [exact He| |exact Hd]. intros c. by eapply b_owns_live.
    + intros r Hp. destruct (Hr r Hp) as [?|?]; [left|by right]. by eapply a_step_result.
  - destruct (b_step ts o e b s) as [[b' s']|] eqn:E; simplify_eq/=. destruct (b_step_ok _ _ _ _ _ _ _ E Hb) as [Hb' He].
    split; simpl; [|exact Hb'| |].
    + eapply a_ok_evolves; [exact He| |exact Ha]. intros c H1 H2. by apply (Hd c).
    + intros c H1 H2. eapply (disjoint_evolves _ _ _ _ _ He); [|intros x Hx Hy; by apply (Hd x)|exact H2|exact H1].
      intros x. by eapply a_owns_live.
    + intros r Hp. destruct (Hr r Hp) as [?|?]; [by left|right]. by eapply b_step_result.
  - destruct pc; simpl in Hact; try done.
    + unfold wait_and_complete in Hact. destruct (is_completed (sh_sync s) || timed_out); simplify_eq/=.
      assert (evolves (λ _, False) (λ _, False) s (Shared (Sync 0) (sh_live s) (sh_world s))) as He by by apply evolves_sync.
      split; simpl; [by eapply a_ok_evolves|by eapply b_ok_evolves|exact Hd|done].
    + destruct (poll_future va _ _ _ _) as [v pc'] eqn:E; simplify_eq/=. split; try done. intros r Hp. left. by eapply poll_future_ok.
    + destruct (poll_future vb _ _ _ _) as [v pc'] eqn:E; simplify_eq/=. split; try done. intros r Hp. right. by eapply poll_future_ok.
    + simplify_eq/=. split; try done. intros r. simpl. by destruct (negb va && negb vb), timed_out.
Qed.

Lemma start_ok o w live topo : writer_ok o (start_tasks w live topo).
Proof.
  split; simpl; [by split|split; simpl; try done; auto| |done]. by intros c [=].
Qed.

(** *** Deleting is always defined *)

Lemma release_live c (live : conns) :
  (∀ x, c = Some x → is_Some (live !! x)) → is_Some (release_new_connection c live).
Proof. destruct c as [c|]; simpl; [|eauto]. intros H. destruct (H c eq_refl) as [h ->]. eauto. Qed.

Lemma a_progress ts o e s t :
  a_ok o s t → a_step ts o e t s = None → a_at t = A_Done ∨ a_at t = A_Threw ∨ a_at t = A_Undefined.
Proof.
  intros Hok Hs. unfold a_step in Hs. cbv zeta in Hs.
  destruct (release_live (a_conn t) (sh_live s)) as [live E]; [intros x Hx; by eapply a_owns_live|].
  destruct (a_at t) eqn:Epc; auto; try discriminate Hs.
  - by destruct (connect o (e_connect e) (sh_live s)) as [[[? ?] ?]|].
  - by destruct (confirm_writer ts o (e_query e) (sh_world s)).
  - by destruct (mark_host_up ts (Some o) (sh_world s)).
  - by rewrite E in Hs.
  - by rewrite E in Hs.
Qed.

Lemma clean_up_live o s t :
  b_ok o s t → b_at t ≠ B_Done → is_Some (clean_up_reader_connection (b_reader t) (b_conn t) (sh_live s)).
Proof.
  intros Hok Hd. unfold clean_up_reader_connection. destruct (b_reader t) as [c|] eqn:Ec; [|eauto].
  destruct (decide (b_conn t = Some c)); [eauto|].
  destruct (release_live (Some c) (sh_live s)) as [live ->]; [|by eexists].
  intros x [= <-]. eapply b_owns_live; [exact Hok|]. by right.
Qed.

Lemma b_progress ts o e s t :
  b_ok o s t → b_step ts o e t s = None → b_at t = B_Done ∨ b_at t = B_Threw ∨ b_at t = B_Undefined.
Proof.
  intros Hok Hs. unfold b_step in Hs. cbv zeta in Hs.
  destruct (release_live (b_conn t) (sh_live s)) as [live E]; [intros x Hx; eapply b_owns_live; [exact Hok|by left]|].
  pose proof (clean_up_live o s t Hok) as Hcl.
  destruct (b_at t) eqn:Epc; auto; try discriminate Hs.
  - destruct (e_reader e) as [|h [|]|]; done.
  - by destruct (refresh_topology ts o (b_reader_host t) (e_query e) (sh_world s)).
  - by destruct (connect candidate (e_connect e) (sh_live s)) as [[[? ?] ?]|].
  - by destruct (mark_host_up ts (Some candidate) (sh_world s)).
  - by destruct (mark_host_down ts (Some candidate) (sh_world s)).
  - destruct Hcl as [[r l] Hcl]; [done|]. by rewrite Hcl in Hs.
  - destruct Hcl as [[r l] Hcl]; [done|]. by rewrite Hcl in Hs.
  - by rewrite E in Hs.
Qed.

(** C1: Whatever the interleaving of the two writer failover tasks, the
    polling thread and the environment: a connection that writer failover
    returns is live, and either it was opened by task A to the original
    writer and the returned topology names the original writer's instance as
    the writer; or it was opened by task B to a host of the instance that the
    returned topology names as its writer, which is not the original one.
    The returned topology is one that a task got from the topology service
    with a forced refresh; when the query of the refresh fails that is the
    cached topology, so the theorem does not say that a query through the
    returned connection named the writer: the witness is a run where the query
    through it failed.  No task ever deletes a connection that is not live: a
    task only stops when it is done, has thrown, or met a null topology. *)
Theorem writer_failover_safe ts o w live topo p :
  rtc (w_step ts o) (start_tasks w live topo) p →
  (∀ r, w_at p = W_Return r → ∃ c h, new_connection r = Some c ∧ sh_live (w_shared p) !! c = Some h ∧
     if is_new_host r then replaced (sh_world (w_shared p)) o (new_topology r) h
     else h = o ∧ confirmed (sh_world (w_shared p)) o (new_topology r)) ∧
  (∀ e, a_step ts o e (w_a p) (w_shared p) = None →
     a_at (w_a p) = A_Done ∨ a_at (w_a p) = A_Threw ∨ a_at (w_a p) = A_Undefined) ∧
  (∀ e, b_step ts o e (w_b p) (w_shared p) = None →
     b_at (w_b p) = B_Done ∨ b_at (w_b p) = B_Threw ∨ b_at (w_b p) = B_Undefined).
Proof.
  intros Hr. assert (writer_ok o p) as [Ha Hb Hd Hret]
    by (eapply (rtc_invariant (w_step ts o)); [apply w_step_ok|apply start_ok|exact Hr]).
  split; [|split].
  - intros r Hp. destruct (Hret r Hp) as [Hres|Hres].
    + destruct (a_ok_result _ _ _ Ha r Hres) as (_ & -> & -> & [c Hc] & Hcf). exists c, o.
      split; [done|]. split; [by apply (a_ok_conn _ _ _ Ha)|done].
    + destruct (b_ok_result _ _ _ Hb r Hres) as (_ & -> & -> & (c & h & Hc & Hl & Hrep)). by exists c, h.
  - intros e. by apply a_progress.
  - intros e. by apply b_progress.
Qed.

(** The query through task A's new connection fails, and the cached topology
    confirms the original writer. *)
Definition ex_env : environment := Env (Connection true) (TopologyConnection (λ _, 1) (λ _, None)) true NoReader.
Definition ex_run : list w_action := replicate 7 (WA ex_env) ++ [WPoll false; WPoll false].

Fixpoint w_exec (ts o : loc) (l : list w_action) (p : writer_state) : option writer_state :=
  match l with
  | [] => Some p
  | a :: l' => p' ← w_act ts o a p; w_exec ts o l' p'
  end.

Lemma w_exec_rtc ts o l p p' : w_exec ts o l p = Some p' → rtc (w_step ts o) p p'.
Proof.
  revert p. induction l as [|a l IH]; intros p; simpl; [by intros [= ->]|].
  destruct (w_act ts o a p) as [p1|] eqn:E; [|done]. intros H. eapply rtc_l; [by exists a|by apply IH].
Qed.

Lemma writer_failover_safe_witness :
  ∃ p r c, rtc (w_step 1%positive 1%positive)
      (start_tasks (ex_filtered_world (AllowedAndBlocked ∅ ∅)) ∅ 1%positive) p ∧
    w_at p = W_Return r ∧ new_connection r = Some c ∧ sh_live (w_shared p) !! c = Some 1%positive.
Proof.
  destruct (w_exec 1%positive 1%positive ex_run (start_tasks (ex_filtered_world (AllowedAndBlocked ∅ ∅)) ∅ 1%positive))
    as [p|] eqn:E; [|by vm_compute in E].
  assert (w_at p = W_Return (WriterResult false 1%positive (Some 1%positive))) as Hp by (vm_compute in E; by injection E as <-).
  pose proof (w_exec_rtc _ _ _ _ _ E) as Hr.
  destruct (proj1 (writer_failover_safe _ _ _ _ _ p Hr) _ Hp) as (c & h & Hc & Hl & -> & _).
  exists p, (WriterResult false 1%positive (Some 1%positive)), c. split; [exact Hr|]. split; [exact Hp|]. split; [exact Hc|exact Hl].
Defined.

(** ** Topologies without a writer *)

Lemma needs_query_forced s w : needs_query s true w = true.
Proof. unfold needs_query. by destruct (topology_cache w !! ts_cluster_id s). Qed.

Lemma confirm_without_writer ts template s o q w rows r rs n :
  store_ok w → service_ready ts template w → w_services w !! ts = Some s →
  try_execute_query (Some q) RETRIEVE_TOPOLOGY_SQL = Some rows → Forall row_ok rows →
  topology_of (omap (row_host template) rows) = ([], r :: rs) → named w o n → n ≠ [] →
  ∃ w', confirm_writer ts o q w = (Throw (runtime_error "No writer available"), w').
Proof.
  intros Hok Hready Hs Hq Hrows Htop Hn Hne.
  pose proof (get_topology_run ts template s (Some q) true w Hok Hready Hs) as Hg.
  rewrite needs_query_forced, Hq in Hg. destruct (Hg Hrows) as (p & w1 & E & _ & (t & Ht & Hws & Hrs & _) & _).
  rewrite Htop in Hws, Hrs. simpl in Hws, Hrs.
  assert (named w1 o n) as (hi & Hhi & Hhn).
  { pose proof (grows_get_topology w ts (Some q) true w (reflexivity _)) as Hgr. rewrite E in Hgr. by eapply named_grown. }
  assert (writers t = []) as Hw by (by apply fmap_nil_inv in Hws).
  unfold confirm_writer. rewrite (bind_Ok _ _ _ _ _ E). cbn [deref]. rewrite ret_bind, (load_bind p t) by done.
  rewrite decide_True.
  2:{ unfold total_hosts. rewrite Hw. simpl. unfold values in Hrs. destruct (readers t); [done|simpl; lia]. }
  exists w1. unfold is_current_host_writer, name_of. rewrite bind_assoc, bind_assoc, (load_bind o hi) by done.
  rewrite ret_bind. rewrite Hhn, decide_False by done. rewrite bind_assoc.
  unfold get_writer. rewrite bind_assoc, (load_bind p t) by done. by rewrite Hw.
Qed.

(** When the topology that task A reads through its new connection has
    hosts but no writer (the query result names no writer session, as it may
    while the cluster elects one), task A ends with an exception, and the
    polling thread rethrows it out of writer failover at its next look, even
    when task B has a connection to the new writer ready. *)
Theorem topology_without_writer_aborts ts template s o e p rows r rs n :
  store_ok (sh_world (w_shared p)) → service_ready ts template (sh_world (w_shared p)) →
  w_services (sh_world (w_shared p)) !! ts = Some s →
  try_execute_query (Some (e_query e)) RETRIEVE_TOPOLOGY_SQL = Some rows → Forall row_ok rows →
  topology_of (omap (row_host template) rows) = ([], r :: rs) →
  named (sh_world (w_shared p)) o n → n ≠ [] →
  a_at (w_a p) = A_Query → w_at p = W_First → w_a_valid p = true →
  ∃ p1 p2, w_act ts o (WA e) p = Some p1 ∧ w_act ts o (WPoll false) p1 = Some p2 ∧ w_at p2 = W_Throw ∧ w_b p2 = w_b p.
Proof.
  intros Hok Hready Hs Hq Hrows Htop Hn Hne Ha Hp Hv.
  destruct (confirm_without_writer ts template s o (e_query e) _ rows r rs n Hok Hready Hs Hq Hrows Htop Hn Hne) as [w' E].
  destruct p as [sh a b va vb pc]. simpl in *. subst pc va. unfold a_step. cbv zeta. rewrite Ha, E.
  eexists _, _. split; [done|]. by split.
Qed.

(** Task B has published its connection; task A is about to read a topology
    of one reader. *)
Definition ex_abort_world : world :=
  World {[1%positive := ex_template; 2%positive := HostInfo "i1.xyz" "i1" 3306 UP true [] [] [] "i1"]} ∅
    {[1%positive := ex_service]} {[1%positive := Container true None None "c1"]} ∅ (Tables ∅ ∅) (Clocks (λ _, 0) (λ _, 0) 0).
Definition ex_reader_rows : list MYSQL_ROW := [[Some (S!"i2"); Some (S!"s2"); Some (S!"2024-01-02"); Some (S!"20")]].
Definition ex_abort_env : environment :=
  Env NoConnection (TopologyConnection (λ _, 0) (λ _, Some ex_reader_rows)) true NoReader.
Definition ex_abort_state : writer_state :=
  Writer (Shared (Sync 0) {[1%positive := 2%positive; 2%positive := 3%positive]} ex_abort_world)
    (ATask A_Query (Some 1%positive) None)
    (BTask B_Done 1%positive None None (Some 2%positive) (Some (WriterResult true 1%positive (Some 2%positive)))) true true W_First.

Lemma ex_abort_ready : service_ready 1%positive ex_template ex_abort_world.
Proof. split; [by exists ex_service, 1%positive|by exists ex_service, (Container true None None "c1")]. Qed.

Lemma topology_without_writer_aborts_witness :
  ∃ p1 p2, w_act 1%positive 2%positive (WA ex_abort_env) ex_abort_state = Some p1 ∧
    w_act 1%positive 2%positive (WPoll false) p1 = Some p2 ∧ w_at p2 = W_Throw ∧
    b_result (w_b p2) = Some (WriterResult true 1%positive (Some 2%positive)).
Proof.
  destruct (topology_without_writer_aborts 1%positive ex_template ex_service 2%positive ex_abort_env ex_abort_state ex_reader_rows
    (host_of ex_template "i2" "s2" (Some (S!"2024-01-02")) (Some (S!"20"))) [] (S!"i1")) as (p1 & p2 & E1 & E2 & E3 & E4).
  - split; apply map_Forall_empty.
  - apply ex_abort_ready.
  - reflexivity.
  - reflexivity.
  - by repeat constructor.
  - by vm_compute.
  - by eexists.
  - done.
  - done.
  - done.
  - done.
  - exists p1, p2. rewrite E4. split; [exact E1|]. split; [exact E2|]. split; [exact E3|reflexivity].
Defined.

(** ** Starting *)

(** Writer failover starts no task for a null or an empty topology; for
    a topology with hosts but no writer it throws before anything is
    started; otherwise it marks the topology's first writer down and starts. *)
Theorem start_failover_cases ts topo w :
  start_failover ts None w = (Ok NoTopology, w) ∧
  ∀ t, w_topologies w !! topo = Some t →
    (total_hosts t = 0%nat → start_failover ts (Some topo) w = (Ok NoTopology, w)) ∧
    (writers t = [] → readers t ≠ [] →
       start_failover ts (Some topo) w = (Throw (runtime_error "No writer available"), w)) ∧
    (∀ h hs w', writers t = h :: hs → mark_host_down ts (Some h) w = (Ok tt, w') →
       start_failover ts (Some topo) w = (Ok (Started h), w')).
Proof.
  split; [done|]. intros t Ht. unfold start_failover. rewrite (load_bind topo t) by done. unfold total_hosts.
  split; [|split].
  - intros H0. by rewrite decide_True.
  - intros Hw Hr. rewrite Hw. simpl. rewrite decide_False by (destruct (readers t); [done|simpl; lia]).
    unfold mbind at 1, M_bind at 1. unfold get_writer. rewrite (load_bind topo t) by done. by rewrite Hw.
  - intros h hs w' Hw E. rewrite Hw. simpl.
    erewrite bind_Ok by (unfold get_writer; rewrite (load_bind topo t) by done; by rewrite Hw).
    by rewrite (bind_Ok _ _ _ _ _ E).
Qed.

Lemma start_failover_cases_witness :
  start_failover 1%positive None ex_abort_world = (Ok NoTopology, ex_abort_world).
Proof. exact (proj1 (start_failover_cases 1%positive 1%positive ex_abort_world)). Defined.
