(* ===== verification/FailoverHandler.v ===== *)
(** The failover handler of a connection: [FAILOVER_HANDLER]
    (src/driver/failover_handler.cc), the part of [CONNECTION_HANDLER] that
    moves a new connection in (src/driver/connection_handler.cc), and
    [DBC::execute_query] (src/driver/connect.cc), which starts a failover.

    The state is the handler, the data source, the connection handle, the
    proxies that are open, and the store of World.v.  The two failover
    procedures are an interface: their own models are FailoverReader.v and
    FailoverWriter.v.  Writing to the log is left out. *)

From S2P Require Import Prelude CppString RdsUtils Metrics HostInfo HostList World ClusterTopology TopologyService.

Local Open Scope Z_scope.

(** ** State *)

(** An open [CONNECTION_PROXY]: whether it is connected, the autocommit bit
    of the server status, the transaction bit of the capabilities, and the
    answers to queries. *)
Record PROXY := Proxy {
  px_connected : bool;
  px_autocommit : bool;
  px_transactions : bool;
  px_queries : TOPOLOGY_CONNECTION
}.
Abbreviation proxies := (gmap positive PROXY).

(** [src/driver/driver.h:588-601] DBC

    The fields the handler uses. *)
Record DBC := Dbc {
  connection_proxy : option positive;
  login_timeout : Z;
  transaction_open : bool;
  dbc_error : option str;
  failover_threads : nat;
  last_query_time : Z
}.

(** [src/util/installer.h:447-463] DataSource

    The options the handler uses; a string option is its text, [None] when
    null. *)
Record DataSource := DSource {
  opt_SERVER : option str;
  opt_PORT : Z;
  opt_PORT_default : bool;
  opt_HOST_PATTERN : option str;
  opt_CLUSTER_ID : option str;
  opt_FAILOVER_MODE : option str;
  opt_ENABLE_CLUSTER_FAILOVER : bool;
  opt_ENABLE_FAILURE_DETECTION : bool;
  opt_CONNECT_TIMEOUT : Z;
  opt_NETWORK_TIMEOUT : Z;
  opt_READTIMEOUT : Z;
  opt_WRITETIMEOUT : Z
}.

(** [src/driver/failover.h:161-215] FAILOVER_HANDLER *)
Record FAILOVER_HANDLER := Handler {
  topology_service : loc;
  metrics_container : loc;
  cluster_id : str;
  current_topology : option loc;
  current_host : option loc;
  m_is_cluster_topology_available : bool;
  m_is_rds_proxy : bool;
  m_is_rds : bool;
  m_is_rds_custom_cluster : bool;
  is_cluster_info_initialized : bool;
  invoke_start_time_ms : Z;
  failover_start_time_ms : Z
}.

Record fstate := FState {
  f_h : FAILOVER_HANDLER;
  f_ds : DataSource;
  f_dbc : DBC;
  f_proxies : proxies;
  f_world : world
}.

Definition set_h (h : FAILOVER_HANDLER) (s : fstate) : fstate := FState h (f_ds s) (f_dbc s) (f_proxies s) (f_world s).
Definition set_ds (d : DataSource) (s : fstate) : fstate := FState (f_h s) d (f_dbc s) (f_proxies s) (f_world s).
Definition set_dbc (d : DBC) (s : fstate) : fstate := FState (f_h s) (f_ds s) d (f_proxies s) (f_world s).
Definition set_proxies (p : proxies) (s : fstate) : fstate := FState (f_h s) (f_ds s) (f_dbc s) p (f_world s).
Definition set_world (w : world) (s : fstate) : fstate := FState (f_h s) (f_ds s) (f_dbc s) (f_proxies s) w.

Definition with_host (p : option loc) (h : FAILOVER_HANDLER) : FAILOVER_HANDLER :=
  Handler (topology_service h) (metrics_container h) (cluster_id h) (current_topology h) p
    (m_is_cluster_topology_available h) (m_is_rds_proxy h) (m_is_rds h) (m_is_rds_custom_cluster h)
    (is_cluster_info_initialized h) (invoke_start_time_ms h) (failover_start_time_ms h).
Definition with_topology (t : option loc) (h : FAILOVER_HANDLER) : FAILOVER_HANDLER :=
  Handler (topology_service h) (metrics_container h) (cluster_id h) t (current_host h)
    (m_is_cluster_topology_available h) (m_is_rds_proxy h) (m_is_rds h) (m_is_rds_custom_cluster h)
    (is_cluster_info_initialized h) (invoke_start_time_ms h) (failover_start_time_ms h).
Definition with_cluster_id (c : str) (h : FAILOVER_HANDLER) : FAILOVER_HANDLER :=
  Handler (topology_service h) (metrics_container h) c (current_topology h) (current_host h)
    (m_is_cluster_topology_available h) (m_is_rds_proxy h) (m_is_rds h) (m_is_rds_custom_cluster h)
    (is_cluster_info_initialized h) (invoke_start_time_ms h) (failover_start_time_ms h).
Definition with_available (b : bool) (h : FAILOVER_HANDLER) : FAILOVER_HANDLER :=
  Handler (topology_service h) (metrics_container h) (cluster_id h) (current_topology h) (current_host h)
    b (m_is_rds_proxy h) (m_is_rds h) (m_is_rds_custom_cluster h)
    (is_cluster_info_initialized h) (invoke_start_time_ms h) (failover_start_time_ms h).
Definition with_kind (rds proxy custom : bool) (h : FAILOVER_HANDLER) : FAILOVER_HANDLER :=
  Handler (topology_service h) (metrics_container h) (cluster_id h) (current_topology h) (current_host h)
    (m_is_cluster_topology_available h) proxy rds custom
    (is_cluster_info_initialized h) (invoke_start_time_ms h) (failover_start_time_ms h).
Definition with_initialized (h : FAILOVER_HANDLER) : FAILOVER_HANDLER :=
  Handler (topology_service h) (metrics_container h) (cluster_id h) (current_topology h) (current_host h)
    (m_is_cluster_topology_available h) (m_is_rds_proxy h) (m_is_rds h) (m_is_rds_custom_cluster h)
    true (invoke_start_time_ms h) (failover_start_time_ms h).
Definition with_times (invoke failover : Z) (h : FAILOVER_HANDLER) : FAILOVER_HANDLER :=
  Handler (topology_service h) (metrics_container h) (cluster_id h) (current_topology h) (current_host h)
    (m_is_cluster_topology_available h) (m_is_rds_proxy h) (m_is_rds h) (m_is_rds_custom_cluster h)
    (is_cluster_info_initialized h) invoke failover.

Definition with_server (o : option str) (d : DataSource) : DataSource :=
  DSource o (opt_PORT d) (opt_PORT_default d) (opt_HOST_PATTERN d) (opt_CLUSTER_ID d) (opt_FAILOVER_MODE d)
    (opt_ENABLE_CLUSTER_FAILOVER d) (opt_ENABLE_FAILURE_DETECTION d) (opt_CONNECT_TIMEOUT d) (opt_NETWORK_TIMEOUT d)
    (opt_READTIMEOUT d) (opt_WRITETIMEOUT d).
Definition with_mode (o : option str) (d : DataSource) : DataSource :=
  DSource (opt_SERVER d) (opt_PORT d) (opt_PORT_default d) (opt_HOST_PATTERN d) (opt_CLUSTER_ID d) o
    (opt_ENABLE_CLUSTER_FAILOVER d) (opt_ENABLE_FAILURE_DETECTION d) (opt_CONNECT_TIMEOUT d) (opt_NETWORK_TIMEOUT d)
    (opt_READTIMEOUT d) (opt_WRITETIMEOUT d).
Definition with_detection (b : bool) (d : DataSource) : DataSource :=
  DSource (opt_SERVER d) (opt_PORT d) (opt_PORT_default d) (opt_HOST_PATTERN d) (opt_CLUSTER_ID d) (opt_FAILOVER_MODE d)
    (opt_ENABLE_CLUSTER_FAILOVER d) b (opt_CONNECT_TIMEOUT d) (opt_NETWORK_TIMEOUT d) (opt_READTIMEOUT d) (opt_WRITETIMEOUT d).

Definition with_connection (c : option positive) (d : DBC) : DBC :=
  Dbc c (login_timeout d) (transaction_open d) (dbc_error d) (failover_threads d) (last_query_time d).
Definition with_error (e : option str) (d : DBC) : DBC :=
  Dbc (connection_proxy d) (login_timeout d) (transaction_open d) e (failover_threads d) (last_query_time d).
Definition with_transaction (b : bool) (d : DBC) : DBC :=
  Dbc (connection_proxy d) (login_timeout d) b (dbc_error d) (failover_threads d) (last_query_time d).
Definition with_threads (n : nat) (d : DBC) : DBC :=
  Dbc (connection_proxy d) (login_timeout d) (transaction_open d) (dbc_error d) n (last_query_time d).
Definition with_query_time (t : Z) (d : DBC) : DBC :=
  Dbc (connection_proxy d) (login_timeout d) (transaction_open d) (dbc_error d) (failover_threads d) t.

(** A computation over the store. *)
Definition on_world {A} (m : M world A) : M fstate A := λ s, let '(r, w) := m (f_world s) in (r, set_world w s).

Definition modify_h (f : FAILOVER_HANDLER → FAILOVER_HANDLER) : M fstate unit := modify (λ s, set_h (f (f_h s)) s).
Definition modify_ds (f : DataSource → DataSource) : M fstate unit := modify (λ s, set_ds (f (f_ds s)) s).
Definition modify_dbc (f : DBC → DBC) : M fstate unit := modify (λ s, set_dbc (f (f_dbc s)) s).

(** ** Helpers *)

(** [src/util/installer.cc:425-431] get_connect_timeout *)
Definition get_connect_timeout (seconds : Z) : Z := if seconds =? 0 then 30 else seconds.
(** [src/util/installer.cc:433-439] get_network_timeout *)
Definition get_network_timeout (seconds : Z) : Z := if seconds =? 0 then 30 else seconds.

(** The copy loop of [set_remove_brackets]: a doubled closing brace becomes one. *)
Fixpoint collapse_braces (s : str) : str :=
  match s with
  | c :: s' =>
    match s' with
    | d :: s'' => if bool_decide (c = "}"%char) && bool_decide (d = "}"%char) then c :: collapse_braces s''
                  else c :: collapse_braces s'
    | [] => [c]
    end
  | [] => []
  end.

(** [src/util/installer.cc:764-807] optionStr::set_remove_brackets

    For an ASCII text without NUL.  The buffer has 1024 characters; a
    longer text is written past its end. *)
Definition set_remove_brackets (val : option str) : res (option str) :=
  match val with
  | None => Ok None
  | Some v => let out := collapse_braces v in if Z.of_nat (length out) <? 1024 then Ok (Some out) else UB
  end.

(** [src/driver/utility.cc:2520-2536] myodbc_strcasecmp

    Whether the result is 0, for texts that may be null. *)
Definition myodbc_strcasecmp_eq (s t : option str) : bool :=
  match s, t with
  | None, None => true
  | Some a, Some b => bool_decide (toupper <$> a = toupper <$> b)
  | _, _ => false
  end.

(** [src/util/installer.h:506-508] FAILOVER_MODE_STRICT_WRITER, FAILOVER_MODE_STRICT_READER, FAILOVER_MODE_READER_OR_WRITER *)
Definition FAILOVER_MODE_STRICT_WRITER : str := "STRICT WRITER".
Definition FAILOVER_MODE_STRICT_READER : str := "STRICT READER".
Definition FAILOVER_MODE_READER_OR_WRITER : str := "READER OR WRITER".

(** [src/driver/failover_handler.cc:578-580] FAILOVER_HANDLER::is_failover_mode *)
Definition is_failover_mode (expected_mode : str) (d : DataSource) : bool :=
  myodbc_strcasecmp_eq (Some expected_mode) (opt_FAILOVER_MODE d).

(** [src/driver/failover_handler.cc:410-415] FAILOVER_HANDLER::is_failover_enabled *)
Definition is_failover_enabled (s : fstate) : bool :=
  opt_ENABLE_CLUSTER_FAILOVER (f_ds s) && m_is_cluster_topology_available (f_h s) && negb (m_is_rds_proxy (f_h s)).

(** The proxy of the connection. *)
Definition current_proxy : M fstate PROXY :=
  s ← get; p ← deref (connection_proxy (f_dbc s)); deref (f_proxies s !! p).

(** [src/driver/handle.cc:117-120] DBC::close *)
Definition close : M fstate unit :=
  s ← get; p ← deref (connection_proxy (f_dbc s)); px ← deref (f_proxies s !! p);
  modify (set_proxies (<[p := Proxy false (px_autocommit px) (px_transactions px) (px_queries px)]> (f_proxies s))).

(** [src/driver/mysql_proxy.cc:395-400] MYSQL_PROXY::set_connection

    The server connection of [new] is moved in, and [new] is deleted.  The
    proxy that calls has been closed. *)
Definition set_connection (new : positive) : M fstate unit :=
  s ← get; p ← deref (connection_proxy (f_dbc s)); px ← deref (f_proxies s !! new);
  modify (set_proxies (<[p := px]> (delete new (f_proxies s)))).

(** [src/driver/connection_handler.cc:93-108] CONNECTION_HANDLER::update_connection *)
Definition update_connection (new_connection : option positive) (new_host_name : str) : M fstate unit :=
  new ← deref new_connection;
  s ← get; px ← deref (f_proxies s !! new);
  if px_connected px then
    close;;
    set_connection new;;
    modify_dbc (with_error None);;
    server ← lift (set_remove_brackets (Some new_host_name));
    modify_ds (with_server server)
  else mret tt.

(** ** The failover procedures *)

(** [src/driver/failover.h:40-53] READER_FAILOVER_RESULT *)
Record READER_FAILOVER_RESULT := ReaderResult {
  rr_connected : bool;
  rr_new_host : option loc;
  rr_new_connection : option positive
}.

(** [src/driver/failover.h:112-132] WRITER_FAILOVER_RESULT *)
Record WRITER_FAILOVER_RESULT := WriterFailoverResult {
  wr_connected : bool;
  wr_is_new_host : bool;
  wr_new_topology : option loc;
  wr_new_connection : option positive
}.

(** The procedures and the connection attempt run on the store and the open proxies. *)
Class Procedures := {
  reader_failover : option loc → M (world * proxies) READER_FAILOVER_RESULT;
  writer_failover : option loc → M (world * proxies) WRITER_FAILOVER_RESULT;
  do_connect : bool → M fstate Z
}.

Definition on_env {A} (m : M (world * proxies) A) : M fstate A := λ s,
  let '(r, (w, p)) := m (f_world s, f_proxies s) in (r, set_proxies p (set_world w s)).

(** A procedure opens connections of its own, it does not touch the ones that
    are open, and it removes no metrics container. *)
Definition env_frame (e e' : world * proxies) : Prop :=
  e.2 ⊆ e'.2 ∧ ∀ c, is_Some (w_containers e.1 !! c) → is_Some (w_containers e'.1 !! c).

(** What the handler relies on, besides: a successful procedure names a host
    (a topology with a writer) of the store and a connection it opened
    (FailoverReader.v and FailoverWriter.v prove this of the procedures). *)
Class ProcedureLaws `{Procedures} := {
  reader_failover_frame t e r e' : reader_failover t e = (r, e') → env_frame e e';
  writer_failover_frame t e r e' : writer_failover t e = (r, e') → env_frame e e';
  reader_failover_result t e res e' : reader_failover t e = (Ok res, e') → rr_connected res = true →
    ∃ h hi new px, rr_new_host res = Some h ∧ w_hosts e'.1 !! h = Some hi ∧
      rr_new_connection res = Some new ∧ e.2 !! new = None ∧ e'.2 !! new = Some px;
  writer_failover_result t e res e' : writer_failover t e = (Ok res, e') → wr_connected res = true →
    ∃ topo tp h new px, wr_new_topology res = Some topo ∧ w_topologies e'.1 !! topo = Some tp ∧ head (writers tp) = Some h ∧
      wr_new_connection res = Some new ∧ e.2 !! new = None ∧ e'.2 !! new = Some px
}.

(** ** Set-up of the handler *)

(** [src/driver/failover_handler.cc:363-367] FAILOVER_HANDLER::set_cluster_id *)
Definition set_cluster_id (cid : str) : M fstate unit :=
  modify_h (with_cluster_id cid);;
  s ← get;
  on_world (TopologyService.set_cluster_id (topology_service (f_h s)) cid);;
  on_world (update (metrics_container (f_h s)) (mc_set_cluster_id cid)).

(** [src/driver/failover_handler.cc:359-361] FAILOVER_HANDLER::set_cluster_id

    The port becomes an [int]. *)
Definition set_cluster_id_host (host : str) (port : Z) : M fstate unit :=
  set_cluster_id (host ++ S!":" ++ to_string (to_int32 port)).

(** [src/driver/failover_handler.cc:58-89] FAILOVER_HANDLER::FAILOVER_HANDLER

    [dbc] and [ds] tell whether the pointers are set; the two options are
    opt_TOPOLOGY_REFRESH_RATE and opt_GATHER_PERF_METRICS. *)
Definition new_failover_handler (dbc ds : bool) (service mc : loc) (refresh_rate : Z) (gather : bool) : M world FAILOVER_HANDLER :=
  if negb dbc then throw (runtime_error "DBC cannot be null.")
  else if negb ds then throw (runtime_error "DataSource cannot be null.")
  else
    set_refresh_rate service refresh_rate;;
    ts_set_gather_metric service gather;;
    mret (Handler service mc DEFAULT_CLUSTER_ID None None false false false false false 0 0).

(** [src/driver/failover_handler.cc:417-423] FAILOVER_HANDLER::is_rds, is_rds_proxy, is_cluster_topology_available *)
Definition is_rds (s : fstate) : bool := m_is_rds (f_h s).
Definition is_rds_proxy (s : fstate) : bool := m_is_rds_proxy (f_h s).
Definition is_cluster_topology_available (s : fstate) : bool := m_is_cluster_topology_available (f_h s).

(** [src/driver/failover_handler.cc:49-51] MYSQL_READONLY_QUERY *)
Definition MYSQL_READONLY_QUERY : str := S!"SELECT @@innodb_read_only AS is_reader".

(** [src/driver/failover_handler.cc:369-381] FAILOVER_HANDLER::is_read_only

    A null result and a null column are dereferenced. *)
Definition is_read_only : M fstate bool :=
  px ← current_proxy;
  if tc_query (px_queries px) MYSQL_READONLY_QUERY =? 0 then
    rows ← deref (tc_store_result (px_queries px) MYSQL_READONLY_QUERY);
    match rows with
    | [] => mret false
    | row :: _ => c ← lift (match row !! 0%nat with Some c => Ok c | None => UB end); v ← deref c; mret (bool_decide (v = S!"1"))
    end
  else mret false.

(** [src/driver/failover_handler.cc:425-438] FAILOVER_HANDLER::initialize_topology *)
Definition initialize_topology : M fstate unit :=
  s ← get; px ← current_proxy;
  topology ← on_world (get_topology (topology_service (f_h s)) (Some (px_queries px)) false);
  modify_h (with_topology topology);;
  match topology with
  | None => mret tt
  | Some p =>
    t ← on_world (load p);
    modify_h (with_available (bool_decide (0 < total_hosts t)%nat));;
    enabled ← gets is_failover_enabled;
    if enabled : bool then modify_dbc (with_threads (total_hosts t)) else mret tt
  end.

(** [src/driver/failover_handler.cc:440-445] FAILOVER_HANDLER::reconnect *)
Definition reconnect `{Procedures} (failover_enabled : bool) : M fstate Z :=
  s ← get;
  (match connection_proxy (f_dbc s) with
   | None => mret tt
   | Some p => px ← deref (f_proxies s !! p); if px_connected px then close else mret tt
   end);;
  do_connect failover_enabled.

(** The messages of [init_cluster_info]. *)
Definition ip_message : str := S!"Host Pattern configuration setting is required when IP address is used to connect to a cluster that provides topology information. If you would instead like to connect without failover functionality, set the 'Disable Cluster Failover' configuration property to true.".
Definition domain_message : str := S!"The provided host appears to be a custom domain. The driver requires the Host Pattern configuration setting to be set for custom domains. If you would instead like to connect without  failover functionality, set the 'Disable Cluster Failover' configuration property to true.".
Definition dns_message : str := S!"The provided host does not appear to match an expected Aurora DNS pattern. Please set the Host Pattern configuration to specify the host pattern for the cluster you are trying to connect to.".
Definition pattern_message (p : str) : str :=
  S!"Invalid host pattern: '" ++ p ++ S!"' - the host pattern must contain a '?' character as a placeholder for the DB instance identifiers  of the cluster instances".

(** A new host becomes the template of the topology service; its port becomes
    an [int]. *)
Definition set_template (host : str) (port : Z) : M fstate unit :=
  s ← get;
  on_world (p ← make_shared (new_host host (to_int32 port)); set_cluster_instance_template (topology_service (f_h s)) p).

(** Ends in an error when the cluster provides a topology. *)
Definition refuse_topology (message : str) : M fstate unit :=
  h ← gets f_h;
  if m_is_cluster_topology_available h then throw (runtime_error message) else mret tt.

Section InitClusterInfo.
(** The default port of the server the driver is built against. *)
Context (MYSQL_PORT : Z).

(** [src/driver/failover_handler.cc:153-217] FAILOVER_HANDLER::init_cluster_info

    The branch for a host pattern. *)
Definition init_from_pattern (hp clid : str) : M fstate unit :=
  d ← gets f_ds;
  let port := if negb (opt_PORT_default d) then opt_PORT d else MYSQL_PORT in
  match parse_host_list (Some hp) port with
  | Throw (string_error _) => throw (runtime_error (S!"Invalid host pattern: '" ++ hp ++ S!"' - the value could not be parsed"))
  | Throw e => throw e
  | UB => undefined
  | Ok [] => throw (runtime_error "Empty host pattern.")
  | Ok (h :: _) =>
    let host_pattern := name h in
    let host_pattern_port := HostList.port h in
    if negb (is_dns_pattern_valid host_pattern) then throw (runtime_error (pattern_message host_pattern)) else
    set_template host_pattern host_pattern_port;;
    let rds := is_rds_dns host_pattern in
    modify_h (with_kind rds (is_rds_proxy_dns host_pattern) (is_rds_custom_cluster_dns host_pattern));;
    if is_rds_proxy_dns host_pattern then throw (runtime_error "RDS Proxy url can't be used as an instance pattern.") else
    if is_rds_custom_cluster_dns host_pattern then
      throw (runtime_error "RDS Custom Cluster endpoint can't be used as an instance pattern.") else
    (if negb (bool_decide (clid = [])) then set_cluster_id clid
     else if rds then
       let cluster_rds_host := get_rds_cluster_host_url host_pattern in
       if negb (bool_decide (cluster_rds_host = [])) then set_cluster_id_host cluster_rds_host host_pattern_port else mret tt
     else mret tt);;
    initialize_topology
  end.

(** [src/driver/failover_handler.cc:218-243] FAILOVER_HANDLER::init_cluster_info

    The branch for an IP address. *)
Definition init_from_ip (clid : str) : M fstate unit :=
  (if negb (bool_decide (clid = [])) then set_cluster_id clid else mret tt);;
  initialize_topology;;
  refuse_topology ip_message;;
  modify_h (λ h, with_kind false false (m_is_rds_custom_cluster h) h).

(** [src/driver/failover_handler.cc:244-308] FAILOVER_HANDLER::init_cluster_info

    The branch for a host name. *)
Definition init_from_name (main_host : str) (main_port : Z) (clid : str) : M fstate unit :=
  let rds := is_rds_dns main_host in
  let proxy := is_rds_proxy_dns main_host in
  modify_h (λ h, with_kind rds proxy (m_is_rds_custom_cluster h) h);;
  if negb rds then
    set_template main_host main_port;;
    (if negb (bool_decide (clid = [])) then set_cluster_id clid else mret tt);;
    initialize_topology;;
    refuse_topology domain_message
  else
    let rds_instance_host := get_rds_instance_host_pattern main_host in
    if bool_decide (rds_instance_host = []) then throw (runtime_error dns_message) else
    set_template rds_instance_host main_port;;
    (if negb (bool_decide (clid = [])) then set_cluster_id clid
     else if proxy then set_cluster_id_host main_host main_port
     else
       let cluster_rds_host := get_rds_cluster_host_url main_host in
       if negb (bool_decide (cluster_rds_host = [])) then set_cluster_id_host cluster_rds_host main_port
       else set_cluster_id_host main_host main_port);;
    initialize_topology.

(** [src/driver/failover_handler.cc:135-311] FAILOVER_HANDLER::init_cluster_info *)
Definition init_cluster_info : M fstate unit :=
  h ← gets f_h;
  if is_cluster_info_initialized h then mret tt else
  d ← gets f_ds;
  main ← lift (get_host_info_from_ds (opt_SERVER d) (opt_PORT d));
  p ← on_world (make_shared main);
  modify_h (with_host (Some p));;
  let main_host := get_host main in
  let hp := default [] (opt_HOST_PATTERN d) in
  let clid := default [] (opt_CLUSTER_ID d) in
  (if negb (bool_decide (hp = [])) then init_from_pattern hp clid
   else if is_ipv4 main_host || is_ipv6 main_host then init_from_ip clid
   else init_from_name main_host (get_port main) clid);;
  modify_h with_initialized.

(** The addresses of a host name, [None] when [getaddrinfo] fails. *)
Context (getaddrinfo : str → option (list str)).

(** [src/driver/failover_handler.cc:383-408] FAILOVER_HANDLER::host_to_IP

    The last address; without any the buffer is uninitialized. *)
Definition host_to_IP (host : str) : res str :=
  match getaddrinfo host with
  | None => Ok []
  | Some l => match last l with Some ip => Ok ip | None => UB end
  end.

(** [src/driver/failover_handler.cc:313-357] FAILOVER_HANDLER::should_connect_to_new_writer

    [host == ""] compares two pointers and is false for the text of the
    option.  [get_writer] throws [std::runtime_error] when there is none. *)
Definition should_connect_to_new_writer : M fstate bool :=
  d ← gets f_ds;
  match opt_SERVER d with
  | None => mret false
  | Some host =>
    if negb (is_rds_writer_cluster_dns host) then mret false else
    host_ip ← lift (host_to_IP host);
    if bool_decide (host_ip = []) then mret false else
    init_cluster_info;;
    s ← get; px ← current_proxy; force ← is_read_only;
    topology ← on_world (get_topology (topology_service (f_h s)) (Some (px_queries px)) force);
    t ← deref topology;
    writer ← catch_runtime (w ← on_world (get_writer t); mret (Some w)) (λ _, mret None);
    match writer with
    | None => mret false
    | Some w =>
      hi ← on_world (load w);
      let writer_host := get_host hi in
      if is_rds_cluster_dns writer_host then mret false else
      writer_host_ip ← lift (host_to_IP writer_host);
      if bool_decide (writer_host_ip = []) || bool_decide (writer_host_ip = host_ip) then mret false else
      server ← lift (set_remove_brackets (Some writer_host));
      modify_ds (with_server server);;
      mret true
    end
  end.

(** The text of a string option is set and not empty. *)
Definition option_given (o : option str) : bool := match o with Some (_ :: _) => true | _ => false end.

(** [SQL_SUCCEEDED]. *)
Definition sql_succeeded (rc : Z) : bool := (rc =? 0) || (rc =? 1).

(** [src/driver/failover_handler.cc:93-133] FAILOVER_HANDLER::init_connection *)
Definition init_connection `{Procedures} : M fstate Z :=
  rc ← do_connect false;
  mc ← gets (λ s, metrics_container (f_h s));
  if negb (sql_succeeded rc) then on_world (register_with mc (MInvalidInitialConnection true));; mret rc else
  on_world (register_with mc (MInvalidInitialConnection false));;
  d ← gets f_ds;
  reconnect_with_updated_timeouts ←
    (if opt_ENABLE_CLUSTER_FAILOVER d then
       init_cluster_info;;
       s ← get;
       let d := f_ds s in
       let network_timeout := get_network_timeout (opt_NETWORK_TIMEOUT d) in
       let again := is_failover_enabled s &&
         (negb (get_connect_timeout (opt_CONNECT_TIMEOUT d) =? login_timeout (f_dbc s)) ||
          negb (network_timeout =? opt_READTIMEOUT d) || negb (network_timeout =? opt_WRITETIMEOUT d)) in
       (if option_given (opt_FAILOVER_MODE d) then mret tt else
        p ← deref (current_host (f_h s)); hi ← on_world (load p);
        modify_ds (with_mode (Some (if is_rds_reader_cluster_dns (get_host hi) then FAILOVER_MODE_READER_OR_WRITER
                                    else FAILOVER_MODE_STRICT_WRITER))));;
       mret again
     else mret false);
  should ← should_connect_to_new_writer;
  if should || reconnect_with_updated_timeouts then reconnect reconnect_with_updated_timeouts else mret rc.
End InitClusterInfo.

(** ** Failover *)

Definition msg_changed : str := S!"The active SQL connection has changed.".
Definition msg_lost : str := S!"The active SQL connection was lost.".
Definition msg_transaction : str := S!"Connection failure during transaction.".

(** What the handler reports: whether the failover succeeded, the error code
    and the message. *)
Abbreviation report := (bool * str * str)%type.
Definition succeeded : report := (true, S!"08S02", msg_changed).
Definition lost : report := (false, S!"08S01", msg_lost).

Section Failover.
Context `{Procedures}.

(** [src/driver/failover_handler.cc:507-528] FAILOVER_HANDLER::failover_to_reader *)
Definition failover_to_reader : M fstate report :=
  h ← gets f_h;
  filtered ← on_world (get_filtered_topology (topology_service h) (current_topology h));
  result ← on_env (reader_failover filtered);
  if rr_connected result then
    modify_h (with_host (rr_new_host result));;
    p ← deref (rr_new_host result); hi ← on_world (load p);
    update_connection (rr_new_connection result) (get_host hi);;
    mret succeeded
  else mret lost.

(** [src/driver/failover_handler.cc:530-572] FAILOVER_HANDLER::failover_to_writer *)
Definition failover_to_writer : M fstate report :=
  h ← gets f_h;
  result ← on_env (writer_failover (current_topology h));
  if negb (wr_connected result) then mret lost else
  new_topology ← deref (wr_new_topology result);
  new_host ← on_world (get_writer new_topology);
  (if wr_is_new_host result then
     modify_h (λ h, with_host (Some new_host) (with_topology (Some new_topology) h))
   else mret tt);;
  filtered ← on_world (get_filtered_topology (topology_service h) (Some new_topology));
  f ← deref filtered; t ← on_world (load f);
  if bool_decide (new_host ∉ get_instances t) then mret lost else
  hi ← on_world (load new_host);
  update_connection (wr_new_connection result) (get_host hi);;
  mret succeeded.

(** [src/driver/failover_handler.cc:574-576] FAILOVER_HANDLER::invoke_start_time *)
Definition invoke_start_time : M fstate unit :=
  now ← on_world steady_now; modify_h (λ h, with_times now (failover_start_time_ms h) h).

(** The choice of [trigger_failover_if_needed]: a reader failover when there
    is more than one host and the mode is not strict writer. *)
Definition reader_failover_wanted : M fstate bool :=
  s ← get;
  match current_topology (f_h s) with
  | None => mret false
  | Some p => t ← on_world (load p);
              mret (bool_decide (1 < total_hosts t)%nat && negb (is_failover_mode FAILOVER_MODE_STRICT_WRITER (f_ds s)))
  end.

(** A failover whose duration is registered. *)
Definition timed (mc : loc) (start : Z) (measure : Z → measurement) (m : M fstate report) : M fstate report :=
  r ← m; finish ← on_world steady_now; on_world (register_with mc (measure (finish - start)));; mret r.

(** [src/driver/failover_handler.cc:448-505] FAILOVER_HANDLER::trigger_failover_if_needed

    The result is whether a failover was triggered, the new error code and
    the message, [None] when it is left as it was. *)
Definition trigger_failover_if_needed (error_code : option str) : M fstate (bool * option str * option str) :=
  let ec := default [] error_code in
  enabled ← gets is_failover_enabled;
  if negb enabled || bool_decide (ec = []) then mret (false, error_code, None) else
  px ← current_proxy;
  in_transaction ← gets (λ s, negb (px_autocommit px) || transaction_open (f_dbc s));
  if starts_with "08" ec then
    failure_detection_old_state ← gets (λ s, opt_ENABLE_FAILURE_DETECTION (f_ds s));
    modify_ds (with_detection false);;
    modify_h (with_host None);;
    now ← on_world steady_now;
    h ← gets f_h;
    on_world (register_with (metrics_container h) (MFailureDetection (now - invoke_start_time_ms h)));;
    start ← on_world steady_now;
    modify_h (λ h, with_times (invoke_start_time_ms h) start h);;
    to_reader ← reader_failover_wanted;
    r ← (if to_reader : bool then timed (metrics_container h) start MReaderFailover failover_to_reader
         else timed (metrics_container h) start MWriterFailover failover_to_writer);
    let '(failover_success, code, msg) := r in
    on_world (register_with (metrics_container h) (MFailoverConnects failover_success));;
    modify_ds (with_detection failure_detection_old_state);;
    mret (if failover_success && in_transaction then (true, Some (S!"08007"), Some msg_transaction)
          else (true, Some code, Some msg))
  else mret (false, error_code, None).

(** ** Queries of the driver itself *)

(** The server behind the proxy: [ping], [real_query], [error_code], and the
    error number of an interaction timeout of the server release. *)
Class Server := {
  ER_CLIENT_INTERACTION_TIMEOUT : Z;
  ping : M fstate Z;
  real_query : str → M fstate Z;
  error_code : fstate → Z
}.
Context `{Server}.

(** [src/driver/driver.h:148-148] CHECK_IF_ALIVE *)
Definition CHECK_IF_ALIVE : Z := 1800.

(** [src/driver/error.cc:325-337] is_connection_lost

    [CR_SERVER_GONE_ERROR] and [CR_SERVER_LOST] are 2006 and 2013. *)
Definition is_connection_lost (errcode : Z) : bool :=
  (errcode =? 2006) || (errcode =? 2013) || (errcode =? ER_CLIENT_INTERACTION_TIMEOUT).

(** [src/driver/utility.cc:2431-2462] is_server_alive

    The seconds are subtracted as [ulong]. *)
Definition is_server_alive : M fstate bool :=
  seconds ← on_world time0;
  d ← gets f_dbc;
  alive ← (if CHECK_IF_ALIVE <=? to_size_t (seconds - last_query_time d) then
             r ← ping; e ← gets error_code;
             mret (negb (negb (r =? 0) && is_connection_lost e))
           else mret true);
  modify_dbc (with_query_time seconds);;
  mret alive.

(** [set_error]: the SQLSTATE is stored and [SQL_ERROR] returned. *)
Definition set_error (sqlstate : str) : M fstate Z := modify_dbc (with_error (Some sqlstate));; mret (-1).

(** [src/driver/connect.cc:1701-1754] DBC::execute_query

    The text is given with its length; the lock is left out. *)
Definition execute_query (query : str) : M fstate Z :=
  px ← current_proxy;
  if negb (px_connected px) then set_error "08S01" else
  alive ← is_server_alive;
  failed ← (if alive : bool then r ← real_query query; mret (negb (r =? 0)) else mret true);
  if negb failed then mret 0 else
  mysql_error_code ← gets error_code;
  result ← set_error "HY000";
  if negb alive || is_connection_lost mysql_error_code then
    px ← current_proxy;
    open ← gets (λ s, transaction_open (f_dbc s));
    (if (negb (px_autocommit px) && px_transactions px) || open then real_query "ROLLBACK";; mret tt else mret tt);;
    r ← trigger_failover_if_needed (Some (S!"08S01"));
    let '(triggered, code, _) := r in
    result' ← (if triggered : bool then
                 code' ← deref code;
                 if decide (code' = S!"08007") then set_error "08007"
                 else if decide (code' = S!"08S02") then set_error "08S02" else set_error "08S01"
               else mret result);
    modify_dbc (with_transaction false);;
    mret result'
  else mret result.
End Failover.

(** ** Moving a new connection in *)

(** Projections through the setters. *)
Lemma on_world_eq {A} (m : M world A) s : on_world m s = ((m (f_world s)).1, set_world (m (f_world s)).2 s).
Proof. unfold on_world. by destruct (m (f_world s)). Qed.

Lemma on_world_Ok {A} (m : M world A) s a w :
  m (f_world s) = (Ok a, w) → on_world m s = (Ok a, set_world w s).
Proof. intros E. by rewrite on_world_eq, E. Qed.

Lemma on_world_same {A} (m : M world A) s a : m (f_world s) = (Ok a, f_world s) → on_world m s = (Ok a, s).
Proof. intros E. rewrite on_world_eq, E. by destruct s. Qed.

Lemma current_proxy_run s p px :
  connection_proxy (f_dbc s) = Some p → f_proxies s !! p = Some px → current_proxy s = (Ok px, s).
Proof. intros Hp Hx. unfold current_proxy, get, mbind, M_bind, deref. rewrite Hp. simpl. by rewrite Hx. Qed.

(** The state after [update_connection] moved the connection of [new] in. *)
Definition moved_in (p new : positive) (px : PROXY) (server : str) (s : fstate) : fstate :=
  FState (f_h s) (with_server (Some server) (f_ds s)) (with_error None (f_dbc s))
    (<[p := px]> (delete new (f_proxies s))) (f_world s).

(** [update_connection] with a live connection closes the old one, moves
    the server connection of the new proxy into the proxy the application
    holds, deletes the new proxy, clears the error and records the new host
    as the server; the handle of the application keeps its proxy.  A new
    connection that is no longer connected changes nothing at all. *)
Lemma update_connection_spec s p px0 new px host :
  connection_proxy (f_dbc s) = Some p → f_proxies s !! p = Some px0 → f_proxies s !! new = Some px → p ≠ new →
  Z.of_nat (length (collapse_braces host)) < 1024 →
  update_connection (Some new) host s =
    (Ok tt, if px_connected px then moved_in p new px (collapse_braces host) s else s).
Proof.
  intros Hp Hp0 Hn Hne Hlen. unfold update_connection, get, mbind, M_bind, deref. cbn [mret M_ret].
  simpl. rewrite Hn. simpl. destruct (px_connected px) eqn:Ec; [|done].
  unfold close, set_connection, get, mbind, M_bind, deref, modify, modify_dbc, modify_ds, lift. simpl.
  rewrite Hp. simpl. rewrite Hp0. simpl. rewrite Hp. simpl. rewrite lookup_insert_ne by done. rewrite Hn.
  destruct (Z.ltb_spec (Z.of_nat (length (collapse_braces host))) 1024); [|lia].
  unfold moved_in. simpl. f_equal. f_equal. rewrite delete_insert_ne by congruence. by rewrite insert_insert_eq.
Qed.

(** ** The two failovers *)

Lemma on_env_Ok {A} (m : M (world * proxies) A) s a w p :
  m (f_world s, f_proxies s) = (Ok a, (w, p)) → on_env m s = (Ok a, set_proxies p (set_world w s)).
Proof. intros E. unfold on_env. by rewrite E. Qed.

Lemma modify_h_bind {A} f (k : unit → M fstate A) s : (modify_h f ≫= k) s = k tt (set_h (f (f_h s)) s).
Proof. done. Qed.
Lemma modify_ds_bind {A} f (k : unit → M fstate A) s : (modify_ds f ≫= k) s = k tt (set_ds (f (f_ds s)) s).
Proof. done. Qed.
Lemma modify_dbc_bind {A} f (k : unit → M fstate A) s : (modify_dbc f ≫= k) s = k tt (set_dbc (f (f_dbc s)) s).
Proof. done. Qed.

(** The connection of the application is usable: it has an open proxy. *)
Definition has_proxy (s : fstate) : Prop := ∃ p px, connection_proxy (f_dbc s) = Some p ∧ f_proxies s !! p = Some px.

(** The application is connected to the server of [px] at [host]. *)
Definition connected_to (host : str) (px : PROXY) (s : fstate) : Prop :=
  opt_SERVER (f_ds s) = Some (collapse_braces host) ∧ dbc_error (f_dbc s) = None ∧
  ∃ p, connection_proxy (f_dbc s) = Some p ∧ f_proxies s !! p = Some px.

Lemma update_connection_moves s p px0 new px host :
  connection_proxy (f_dbc s) = Some p → f_proxies s !! p = Some px0 → f_proxies s !! new = Some px → p ≠ new →
  Z.of_nat (length (collapse_braces host)) < 1024 →
  ∃ s', update_connection (Some new) host s = (Ok tt, s') ∧ f_h s' = f_h s ∧ f_world s' = f_world s ∧
    (px_connected px = true → connected_to host px s' ∧ f_proxies s' !! new = None) ∧ (px_connected px = false → s' = s).
Proof.
  intros Hp Hp0 Hn Hne Hlen. eexists. split; [by eapply update_connection_spec|].
  destruct (px_connected px); (split; [done|]; split; [done|]); (split; [intros ?|done]); [|done].
  split.
  - split; [done|]. split; [done|]. exists p. split; [done|]. simpl. apply lookup_insert_eq.
  - simpl. rewrite lookup_insert_ne by done. apply lookup_delete_eq.
Qed.

Section FailoverTheorems.
Context `{ProcedureLaws}.

(** C9: A reader failover hands the filtered topology to the reader
    procedure.  If that connects, the handler reports 08S02, the host becomes
    the current host, and the connection is moved into the proxy of the
    application with the host as its server (a connection that died meanwhile is
    not moved in, yet 08S02 is reported); if it does not, the handler
    reports 08S01 and the connection and the handler stay as they were. *)
Theorem failover_to_reader_spec s filtered w1 res w2 p2 :
  has_proxy s →
  get_filtered_topology (topology_service (f_h s)) (current_topology (f_h s)) (f_world s) = (Ok filtered, w1) →
  reader_failover filtered (w1, f_proxies s) = (Ok res, (w2, p2)) →
  (∀ h hi, rr_new_host res = Some h → w_hosts w2 !! h = Some hi → Z.of_nat (length (collapse_braces (get_host hi))) < 1024) →
  if rr_connected res then
    ∃ h hi new px s', rr_new_host res = Some h ∧ w_hosts w2 !! h = Some hi ∧ rr_new_connection res = Some new ∧
      p2 !! new = Some px ∧ failover_to_reader s = (Ok succeeded, s') ∧ current_host (f_h s') = Some h ∧
      (if px_connected px then connected_to (get_host hi) px s' ∧ f_proxies s' !! new = None
       else f_dbc s' = f_dbc s ∧ f_proxies s' = p2)
  else failover_to_reader s = (Ok lost, set_proxies p2 (set_world w2 s)).
Proof.
  intros (p & px0 & Hp & Hp0) Hf Hr Hlen. unfold failover_to_reader.
  rewrite gets_bind.
  rewrite (bind_Ok _ _ _ _ _ (on_world_Ok _ _ _ _ Hf)). rewrite (bind_Ok _ _ _ _ _ (on_env_Ok _ (set_world w1 s) _ _ _ Hr)).
  destruct (rr_connected res) eqn:Hc; [|done].
  destruct (reader_failover_result _ _ _ _ Hr Hc) as (h & hi & new & px & Hh & Hhi & Hnew & Hfresh & Hpx).
  destruct (reader_failover_frame _ _ _ _ Hr) as [Hsub _]. simpl in *.
  rewrite Hh. cbn [deref]. rewrite modify_h_bind, ret_bind.
  match goal with |- context [(on_world (load h) ≫= _) ?x] => set (s2 := x) end.
  rewrite (bind_Ok _ _ s2 hi s2) by exact (on_world_Ok (load h) s2 hi w2 (load_Ok h hi w2 Hhi)).
  destruct (update_connection_moves s2 p px0 new px (get_host hi)) as (s' & E & Eh & Ew & Hyes & Hno);
    [done|by eapply lookup_weaken|done|congruence|by apply (Hlen h)|].
  exists h, hi, new, px, s'. rewrite Hnew, (bind_Ok _ _ _ _ _ E). split; [done|]. split; [done|]. split; [done|].
  split; [done|]. split; [done|]. split; [by rewrite Eh|]. destruct (px_connected px); [by apply Hyes|].
  by rewrite Hno.
Qed.

(** C8: A writer failover that did not connect reports 08S01 and leaves the
    handler and the connection alone.  One that did makes a new writer and
    its topology current.  If the writer is among the allowed hosts of the
    topology, 08S02 is reported, whatever became of the new connection
    meanwhile: one that is still connected is moved into the proxy of the
    application, with the writer as the server of its data source (for a host
    name that fits the buffer of [set_remove_brackets]); one that is
    not is left where it is, and the application keeps its old connection
    and its data source.  If the writer is not allowed, 08S01 is reported, the
    application keeps its dead connection, and the new connection stays open
    although nothing refers to it any more. *)
Theorem failover_to_writer_spec s res w2 p2 :
  has_proxy s →
  writer_failover (current_topology (f_h s)) (f_world s, f_proxies s) = (Ok res, (w2, p2)) →
  if wr_connected res then
    ∃ topo h new px, wr_new_topology res = Some topo ∧ wr_new_connection res = Some new ∧ p2 !! new = Some px ∧
    (∃ tp, w_topologies w2 !! topo = Some tp ∧ head (writers tp) = Some h) ∧
    ∀ f w3 tf hi, get_filtered_topology (topology_service (f_h s)) (Some topo) w2 = (Ok (Some f), w3) →
    w_topologies w3 !! f = Some tf → w_hosts w3 !! h = Some hi → Z.of_nat (length (collapse_braces (get_host hi))) < 1024 →
    ∃ r s', failover_to_writer s = (Ok r, s') ∧
      (if wr_is_new_host res then current_topology (f_h s') = Some topo ∧ current_host (f_h s') = Some h else f_h s' = f_h s) ∧
      (if decide (h ∈ get_instances tf) then
         r = succeeded ∧
         (if px_connected px then connected_to (get_host hi) px s' ∧ f_proxies s' !! new = None
          else f_dbc s' = f_dbc s ∧ f_ds s' = f_ds s ∧ f_proxies s' = p2)
       else r = lost ∧ f_dbc s' = f_dbc s ∧ f_ds s' = f_ds s ∧ f_proxies s' !! new = Some px)
  else failover_to_writer s = (Ok lost, set_proxies p2 (set_world w2 s)).
Proof.
  intros (p & px0 & Hp & Hp0) Hr. unfold failover_to_writer.
  destruct (wr_connected res) eqn:Hc; [|by rewrite gets_bind, (bind_Ok _ _ _ _ _ (on_env_Ok _ s _ _ _ Hr)), Hc].
  destruct (writer_failover_result _ _ _ _ Hr Hc) as (topo & tp & h & new & px & Ht & Htp & Hh & Hnew & Hfresh & Hpx).
  destruct (writer_failover_frame _ _ _ _ Hr) as [Hsub _]. simpl in *.
  exists topo, h, new, px. split; [done|]. split; [done|]. split; [done|]. split; [by exists tp|].
  intros f w3 tf hi Hf Htf Hhi Hlen. rewrite gets_bind, (bind_Ok _ _ _ _ _ (on_env_Ok _ s _ _ _ Hr)), Hc, Ht.
  cbn [negb deref]. rewrite ret_bind.
  assert (get_writer topo w2 = (Ok h, w2)) as Hw.
  { unfold get_writer. rewrite (load_bind topo tp) by done. destruct (writers tp); [done|]. by injection Hh as ->. }
  rewrite (bind_Ok _ _ _ _ _ (on_world_Ok _ (set_proxies p2 (set_world w2 s)) _ _ Hw)).
  set (hs := if wr_is_new_host res then with_host (Some h) (with_topology (Some topo) (f_h s)) else f_h s).
  set (s2 := set_h hs (set_proxies p2 (set_world w2 s))).
  rewrite (bind_Ok _ _ _ tt s2) by (subst s2 hs; by destruct (wr_is_new_host res)).
  rewrite (bind_Ok _ _ s2 (Some f) (set_world w3 s2)) by exact (on_world_Ok _ s2 _ _ Hf).
  cbn [deref]. rewrite ret_bind. set (s3 := set_world w3 s2).
  rewrite (bind_Ok _ _ s3 tf s3) by exact (on_world_Ok (load f) s3 tf w3 (load_Ok f tf w3 Htf)).
  assert (∀ s', f_h s' = hs → if wr_is_new_host res then current_topology (f_h s') = Some topo ∧ current_host (f_h s') = Some h else f_h s' = f_h s) as Hhs
    by (intros s' ->; subst hs; by destruct (wr_is_new_host res)).
  destruct (decide (h ∈ get_instances tf)) as [Hin|Hin].
  - rewrite bool_decide_false by (by intros []).
    rewrite (bind_Ok _ _ s3 hi s3) by exact (on_world_Ok (load h) s3 hi w3 (load_Ok h hi w3 Hhi)).
    destruct (update_connection_moves s3 p px0 new px (get_host hi)) as (s' & E & Eh & Ew & Hyes & Hno);
      [done|by eapply lookup_weaken|done|congruence|done|].
    rewrite Hnew, (bind_Ok _ _ _ _ _ E). exists succeeded, s'. split; [done|]. split; [by apply Hhs; rewrite Eh|].
    split; [done|]. destruct (px_connected px); [by apply Hyes|]. by rewrite Hno.
  - rewrite bool_decide_true by done. exists lost, s3. split; [done|]. split; [by apply Hhs|]. done.
Qed.

(** What every step of a failover keeps: the metrics container, and the
    failure detection, which is off. *)
Definition detached (mc : loc) (s : fstate) : Prop :=
  is_Some (w_containers (f_world s) !! mc) ∧ opt_ENABLE_FAILURE_DETECTION (f_ds s) = false.

Lemma detached_world {A} mc (m : M world A) :
  preserves (λ w, is_Some (w_containers w !! mc)) m → preserves (detached mc) (on_world m).
Proof. intros Hm s [Hc Hd]. rewrite on_world_eq. split; [by apply Hm|done]. Qed.

Lemma detached_env {A} mc (m : M (world * proxies) A) :
  (∀ e r e', m e = (r, e') → env_frame e e') → preserves (detached mc) (on_env m).
Proof.
  intros Hm s [Hc Hd]. unfold on_env. destruct (m _) as [r [w p]] eqn:E. destruct (Hm _ _ _ E) as [_ Hw].
  split; [by apply Hw|done].
Qed.

Lemma detached_modify_h mc f : preserves (detached mc) (modify_h f).
Proof. by intros s Hs. Qed.
Lemma detached_modify_dbc mc f : preserves (detached mc) (modify_dbc f).
Proof. by intros s Hs. Qed.
Lemma detached_with_server mc o : preserves (detached mc) (modify_ds (with_server o)).
Proof. by intros s Hs. Qed.

Lemma container_topology mc p f : preserves (λ w, is_Some (w_containers w !! mc)) (update (T := CLUSTER_TOPOLOGY_INFO) p f).
Proof. intros w Hw. unfold update, heap. simpl. by destruct (w_topologies w !! p). Qed.
Lemma container_load {T} `{Stored T} mc p : preserves (λ w, is_Some (w_containers w !! mc)) (load (T := T) p).
Proof. by intros w Hw. Qed.
Lemma container_time mc : preserves (λ w, is_Some (w_containers w !! mc)) time0.
Proof. by intros w Hw. Qed.
Lemma container_add_allowed mc ab f hs : preserves (λ w, is_Some (w_containers w !! mc)) (add_allowed ab f hs).
Proof.
  induction hs as [|h hs IH]; cbn [add_allowed]; [apply preserves_ret|].
  apply preserves_bind; [apply container_load|intros hi]. apply preserves_bind; [|done].
  destruct (host_allowed _ _); [|apply preserves_ret]. unfold add_host, update_time.
  solve_preserves; first [apply container_load|apply container_topology|apply container_time].
Qed.
Lemma container_filtered mc this t : preserves (λ w, is_Some (w_containers w !! mc)) (get_filtered_topology this t).
Proof.
  unfold get_filtered_topology, new_topology, update_time.
  solve_preserves; first [apply container_load|apply container_topology|apply container_time|apply container_add_allowed|by intros w Hw].
Qed.

Lemma detached_update_connection mc c host : preserves (detached mc) (update_connection c host).
Proof.
  unfold update_connection, close, set_connection.
  solve_preserves; first [apply detached_modify_dbc|apply detached_with_server|done].
Qed.

Lemma detached_failover mc (to_reader : bool) : preserves (detached mc) (if to_reader then failover_to_reader else failover_to_writer).
Proof.
  destruct to_reader; [unfold failover_to_reader|unfold failover_to_writer, get_writer];
    solve_preserves; first [apply detached_world; first [apply container_filtered|apply container_load|solve_preserves; apply container_load]
      |apply detached_env; intros *; first [apply reader_failover_frame|apply writer_failover_frame]
      |apply detached_modify_h|apply detached_update_connection].
Qed.

Lemma register_run mc c m s :
  w_containers (f_world s) !! mc = Some c →
  on_world (register_with mc m) s = (Ok tt, set_world (set_tables (register_metrics c m (w_tables (f_world s))) (f_world s)) s).
Proof.
  intros Hc. apply on_world_Ok. unfold register_with. by rewrite (load_bind mc c).
Qed.

(** Registering keeps everything but the metrics tables. *)
Lemma register_bind {A} mc m (k : unit → M fstate A) s :
  is_Some (w_containers (f_world s) !! mc) →
  ∃ tb, (on_world (register_with mc m) ≫= k) s = k tt (set_world (set_tables tb (f_world s)) s).
Proof. intros [c Hc]. eexists. by rewrite (bind_Ok _ _ _ _ _ (register_run mc c m s Hc)). Qed.

(** The choice between the two failovers. *)
Definition wants_reader (s : fstate) : bool :=
  match current_topology (f_h s) with
  | Some p => match w_topologies (f_world s) !! p with
              | Some t => bool_decide (1 < total_hosts t)%nat && negb (is_failover_mode FAILOVER_MODE_STRICT_WRITER (f_ds s))
              | None => false
              end
  | None => false
  end.

(** The objects the failover reads exist. *)
Definition failover_ready (s : fstate) : Prop :=
  has_proxy s ∧ is_Some (w_containers (f_world s) !! metrics_container (f_h s)) ∧
  match current_topology (f_h s) with Some p => is_Some (w_topologies (f_world s) !! p) | None => True end.

(** Whether a transaction is in progress. *)
Definition in_transaction (s : fstate) : bool :=
  match connection_proxy (f_dbc s) ≫= λ p, f_proxies s !! p with
  | Some px => negb (px_autocommit px) || transaction_open (f_dbc s)
  | None => false
  end.

(** The state in which the failover runs: detection off, no current host. *)
Definition failover_entry (s s1 : fstate) : Prop :=
  f_ds s1 = with_detection false (f_ds s) ∧ f_dbc s1 = f_dbc s ∧ f_proxies s1 = f_proxies s ∧
  current_host (f_h s1) = None ∧ current_topology (f_h s1) = current_topology (f_h s) ∧
  topology_service (f_h s1) = topology_service (f_h s) ∧
  w_hosts (f_world s1) = w_hosts (f_world s) ∧ w_topologies (f_world s1) = w_topologies (f_world s) ∧
  w_services (f_world s1) = w_services (f_world s).

Lemma reader_wanted_run s :
  match current_topology (f_h s) with Some p => is_Some (w_topologies (f_world s) !! p) | None => True end →
  reader_failover_wanted s = (Ok (wants_reader s), s).
Proof.
  unfold reader_failover_wanted, wants_reader. rewrite get_bind. destruct (current_topology (f_h s)) as [p|]; [|done].
  intros [t Ht]. rewrite (bind_Ok _ _ s t s), Ht; [done|]. exact (on_world_same (load p) s t (load_Ok p t _ Ht)).
Qed.

Lemma timed_run mc start measure m s r s2 :
  m s = (r, s2) → is_Some (w_containers (f_world s2) !! mc) →
  match r with
  | Ok a => ∃ w, w_containers w = w_containers (f_world s2) ∧ timed mc start measure m s = (Ok a, set_world w s2)
  | Throw e => timed mc start measure m s = (Throw e, s2)
  | UB => timed mc start measure m s = (UB, s2)
  end.
Proof.
  intros E Hc. unfold timed. destruct r as [a|e|]; [|by unfold mbind, M_bind; rewrite E..].
  rewrite (bind_Ok _ _ _ _ _ E), (bind_Ok _ _ _ _ _ (on_world_Ok steady_now _ _ _ eq_refl)).
  match goal with |- context [(on_world (register_with _ ?x) ≫= ?k) ?y] => destruct (register_bind mc x k y Hc) as [tb ->] end.
  eexists. split; [|done]. done.
Qed.

(** What a run of the failover reports to the caller. *)
Definition reported (b : bool) (r : report) : bool * option str * option str :=
  let '(ok, code, msg) := r in
  if ok && b then (true, Some (S!"08007"), Some msg_transaction) else (true, Some code, Some msg).

(** An error code starting with 08 on a connection with failover enabled
    triggers exactly one failover: the reader failover when the topology has
    more than one host and the mode is not strict writer, the writer failover
    otherwise.  It runs with failure detection off and no current host; a
    success inside a transaction is reported as 08007, any other result as
    the failover reports it, and failure detection is then restored.  If the
    failover throws, the exception passes and failure detection stays off.
    Any other code, or failover being disabled, changes nothing. *)
Lemma trigger_failover_run s ec :
  failover_ready s →
  if is_failover_enabled s && starts_with "08" ec then
    ∃ s1, failover_entry s s1 ∧
    match (if wants_reader s then failover_to_reader else failover_to_writer) s1 with
    | (Ok r, s2) => ∃ s', trigger_failover_if_needed (Some ec) s = (Ok (reported (in_transaction s) r), s') ∧
        f_h s' = f_h s2 ∧ f_dbc s' = f_dbc s2 ∧ f_proxies s' = f_proxies s2 ∧
        f_ds s' = with_detection (opt_ENABLE_FAILURE_DETECTION (f_ds s)) (f_ds s2)
    | (Throw e, s2) => trigger_failover_if_needed (Some ec) s = (Throw e, s2) ∧ opt_ENABLE_FAILURE_DETECTION (f_ds s2) = false
    | (UB, s2) => trigger_failover_if_needed (Some ec) s = (UB, s2)
    end
  else trigger_failover_if_needed (Some ec) s = (Ok (false, Some ec, None), s).
Proof.
  intros ((p & px & Hp & Hpx) & Hmc & Ht). unfold trigger_failover_if_needed. rewrite gets_bind. cbn [default from_option id].
  destruct (is_failover_enabled s); [|done]. cbn [negb orb andb].
  assert (in_transaction s = negb (px_autocommit px) || transaction_open (f_dbc s)) as Htr
    by (unfold in_transaction; rewrite Hp; simpl; by rewrite Hpx).
  destruct (starts_with "08" ec) eqn:E08; cycle 1.
  { case_bool_decide; [done|]. by rewrite (bind_Ok _ _ _ _ _ (current_proxy_run s p px Hp Hpx)), gets_bind. }
  rewrite bool_decide_false by (by intros ->).
  rewrite (bind_Ok _ _ _ _ _ (current_proxy_run s p px Hp Hpx)), !gets_bind, modify_ds_bind, modify_h_bind, <- Htr.
  rewrite (bind_Ok _ _ _ _ _ (on_world_Ok steady_now _ _ _ eq_refl)), gets_bind.
  match goal with |- context [(on_world (register_with ?mc ?m) ≫= ?k) ?x] =>
    destruct (register_bind mc m k x Hmc) as [tb ->] end.
  rewrite (bind_Ok _ _ _ _ _ (on_world_Ok steady_now _ _ _ eq_refl)), modify_h_bind.
  match goal with |- context [(reader_failover_wanted ≫= _) ?x] => set (s1 := x) end.
  assert (wants_reader s1 = wants_reader s) as Hwr by done.
  exists s1. split; [done|]. rewrite (bind_Ok _ _ _ _ _ (reader_wanted_run s1 Ht)), Hwr.
  pose proof (detached_failover (metrics_container (f_h s)) (wants_reader s) s1 (conj Hmc eq_refl)) as Hdet.
  set (run := if wants_reader s then failover_to_reader else failover_to_writer) in *.
  match goal with |- context [if wants_reader s then timed ?mc ?st ?a _ else timed _ _ ?b _] =>
    replace (if wants_reader s then timed mc st a failover_to_reader else timed mc st b failover_to_writer)
      with (timed mc st (if wants_reader s then a else b) run) by (unfold run; clear; destruct (wants_reader s); reflexivity) end.
  destruct (run s1) as [r s2] eqn:E. destruct Hdet as [Hc Hd]. simpl in Hc, Hd.
  match goal with |- context [(timed ?mc ?st ?me run ≫= _) s1] => pose proof (timed_run mc st me run s1 r s2 E Hc) as Hrun end.
  destruct r as [[[ok code] msg]|e|].
  - destruct Hrun as (w & Hw & Hrun). rewrite (bind_Ok _ _ _ _ _ Hrun).
    match goal with |- context [(on_world (register_with ?mc ?m) ≫= ?k) ?x] =>
      destruct (register_bind mc m k x ltac:(simpl; by rewrite Hw)) as [tb2 ->] end.
    rewrite modify_ds_bind. unfold reported. eexists. split; [by destruct (ok && in_transaction s)|done].
  - unfold mbind, M_bind. by rewrite Hrun.
  - unfold mbind, M_bind. by rewrite Hrun.
Qed.
End FailoverTheorems.

(** ** A cluster of two hosts *)

Definition ex_px (b : bool) : PROXY := Proxy b false true (TopologyConnection (λ _, 0) (λ _, None)).

(** Procedures that connect to the second host, and to the writer. *)
#[export] Instance ex_procedures : Procedures := {|
  reader_failover t e :=
    match w_hosts e.1 !! 2%positive with
    | Some _ => (Ok (ReaderResult true (Some 2%positive) (Some (fresh (dom e.2)))), (e.1, <[fresh (dom e.2) := ex_px true]> e.2))
    | None => (Ok (ReaderResult false None None), e)
    end;
  writer_failover t e :=
    match t ≫= λ p, (λ tp, (p, writers tp)) <$> w_topologies e.1 !! p with
    | Some (p, h :: _) => (Ok (WriterFailoverResult true true (Some p) (Some (fresh (dom e.2)))), (e.1, <[fresh (dom e.2) := ex_px true]> e.2))
    | _ => (Ok (WriterFailoverResult false false None None), e)
    end;
  do_connect _ s := (Ok 0, s) |}.

Lemma ex_frame (e : world * proxies) : env_frame e (e.1, <[fresh (dom e.2) := ex_px true]> e.2).
Proof. split; [|done]. simpl. apply insert_subseteq, not_elem_of_dom, is_fresh. Qed.

#[export] Instance ex_procedure_laws : ProcedureLaws.
Proof.
  split; intros t e r e'; simpl.
  - destruct (w_hosts e.1 !! 2%positive); intros [= <- <-]; [apply ex_frame|done].
  - destruct (t ≫= _) as [[p [|h ws]]|]; intros [= <- <-]; [done|apply ex_frame|done].
  - destruct (w_hosts e.1 !! 2%positive) as [hi|] eqn:E; intros [= <- <-]; [|done]. intros _.
    exists 2%positive, hi, (fresh (dom e.2)), (ex_px true). split_and!; [done..| |apply lookup_insert_eq].
    apply not_elem_of_dom, is_fresh.
  - destruct (t ≫= _) as [[p [|h ws]]|] eqn:E; intros [= <- <-]; [done| |done]. intros _.
    apply bind_Some in E as (q & -> & (tp & Ht & [= -> Hw])%fmap_Some).
    exists q, tp, h, (fresh (dom e.2)), (ex_px true). split_and!; [done..|by rewrite <- Hw|done| |apply lookup_insert_eq].
    apply not_elem_of_dom, is_fresh.
Qed.

Definition ex_handler : FAILOVER_HANDLER := Handler 1%positive 1%positive (S!"c1") (Some 1%positive) None true false true false true 0 0.
Definition ex_source (mode : option str) : DataSource := DSource (Some (S!"i1.xyz")) 3306 true None None mode true true 30 30 30 30.
Definition ex_state (ab : ALLOWED_AND_BLOCKED_HOSTS) (mode : option str) : fstate :=
  FState ex_handler (ex_source mode) (Dbc (Some 1%positive) 30 false None 0 0) {[1%positive := ex_px false]} (ex_filtered_world ab).

Definition allow_all : ALLOWED_AND_BLOCKED_HOSTS := AllowedAndBlocked {[S!"i1"; S!"i2"]} ∅.
Definition allow_reader : ALLOWED_AND_BLOCKED_HOSTS := AllowedAndBlocked {[S!"i2"]} ∅.

Lemma ex_state_proxy ab mode : has_proxy (ex_state ab mode).
Proof. by exists 1%positive, (ex_px false). Qed.

Lemma ex_state_ready ab mode : failover_ready (ex_state ab mode).
Proof. split; [apply ex_state_proxy|]. split; [by eexists|by exists ex_topology]. Qed.

Lemma failover_to_reader_spec_witness :
  let s := ex_state allow_all None in
  ∃ s', failover_to_reader s = (Ok succeeded, s') ∧ current_host (f_h s') = Some 2%positive.
Proof.
  intros s. destruct (get_filtered_topology 1%positive (Some 1%positive) (f_world s)) as [rf w1] eqn:Hf.
  assert (rf = Ok (Some 2%positive)) as -> by (change rf with (rf, w1).1; rewrite <- Hf; vm_compute; reflexivity).
  assert (w_hosts w1 = ex_hosts) as Hw1 by (change w1 with (Ok (Some 2%positive), w1).2; rewrite <- Hf; vm_compute; reflexivity).
  pose proof (failover_to_reader_spec s (Some 2%positive) w1 (ReaderResult true (Some 2%positive) (Some 2%positive)) w1
    (<[2%positive := ex_px true]> {[1%positive := ex_px false]}) (ex_state_proxy _ _) Hf) as H.
  destruct H as (h & hi & new & px & s' & Hh & _ & _ & _ & E & Ec & _).
  - cbn. rewrite Hw1. reflexivity.
  - intros h hi [= <-] Hh. rewrite Hw1 in Hh. injection Hh as <-. vm_compute. reflexivity.
  - exists s'. injection Hh as <-. exact (conj E Ec).
Defined.

(** The new writer is not among the allowed hosts. *)
Lemma failover_to_writer_spec_witness :
  let s := ex_state allow_reader None in
  ∃ s', failover_to_writer s = (Ok lost, s') ∧ current_host (f_h s') = Some 1%positive ∧ f_dbc s' = f_dbc s ∧
    f_proxies s' !! 2%positive = Some (ex_px true).
Proof.
  intros s. destruct (get_filtered_topology 1%positive (Some 1%positive) (f_world s)) as [rf w3] eqn:Hf.
  assert (rf = Ok (Some 2%positive)) as -> by (change rf with (rf, w3).1; rewrite <- Hf; vm_compute; reflexivity).
  assert (w_hosts w3 = ex_hosts) as Hh3 by (change w3 with (Ok (Some 2%positive), w3).2; rewrite <- Hf; vm_compute; reflexivity).
  assert (w_topologies w3 !! 2%positive = Some (Topology (-1) 0 ∅ None [] [2%positive])) as Ht3
    by (change w3 with (Ok (Some 2%positive), w3).2; rewrite <- Hf; vm_compute; reflexivity).
  pose proof (failover_to_writer_spec s (WriterFailoverResult true true (Some 1%positive) (Some 2%positive)) (f_world s)
    (<[2%positive := ex_px true]> {[1%positive := ex_px false]}) (ex_state_proxy _ _) eq_refl) as H.
  destruct H as (topo & h & new & px & Et & En & Ep & (tp & Htp & Hh) & Hgo).
  injection Et as <-. injection En as <-. injection Htp as <-. injection Hh as <-. injection Ep as <-.
  destruct (Hgo _ _ _ _ Hf Ht3 ltac:(rewrite Hh3; reflexivity) ltac:(vm_compute; reflexivity)) as (r & s' & E & [_ Eh] & Hout).
  destruct (decide _) as [Hin|Hin] in Hout; [exfalso; revert Hin; apply (bool_decide_unpack _); by vm_compute|].
  destruct Hout as (-> & Ed & _ & Epx). exists s'. exact (conj E (conj Eh (conj Ed Epx))).
Defined.

(** ** The plan for a cluster

    What [init_cluster_info] decides from the options and the main host,
    before it asks for the topology: an error, or a template for the instance
    endpoints, an identification of the cluster, the kind of the cluster,
    and the message with which a topology is refused. *)
Inductive cluster_plan :=
  | PlanError (message : str)
  | Plan (template : option (str * Z)) (cid : option str) (rds proxy : bool) (refuse : option str).

Definition identification (host : str) (port : Z) : str := host ++ S!":" ++ to_string (to_int32 port).
Definition nonempty (s : str) : bool := negb (bool_decide (s = [])).
Definition plan_id (clid : str) (auto : option str) : option str := if nonempty clid then Some clid else auto.

Definition plan_of (MYSQL_PORT : Z) (d : DataSource) (main : HOST_INFO) : cluster_plan :=
  let hp := default [] (opt_HOST_PATTERN d) in
  let clid := default [] (opt_CLUSTER_ID d) in
  let host := get_host main in
  if nonempty hp then
    match parse_host_list (Some hp) (if opt_PORT_default d then MYSQL_PORT else opt_PORT d) with
    | Ok (h :: _) =>
      if negb (is_dns_pattern_valid (name h)) then PlanError (pattern_message (name h))
      else if is_rds_proxy_dns (name h) then PlanError (S!"RDS Proxy url can't be used as an instance pattern.")
      else if is_rds_custom_cluster_dns (name h) then PlanError (S!"RDS Custom Cluster endpoint can't be used as an instance pattern.")
      else Plan (Some (name h, HostList.port h))
             (plan_id clid (if is_rds_dns (name h) && nonempty (get_rds_cluster_host_url (name h))
                            then Some (identification (get_rds_cluster_host_url (name h)) (HostList.port h)) else None))
             (is_rds_dns (name h)) false None
    | _ => PlanError (S!"Invalid host pattern: '" ++ hp ++ S!"' - the value could not be parsed")
    end
  else if is_ipv4 host || is_ipv6 host then Plan None (plan_id clid None) false false (Some ip_message)
  else if negb (is_rds_dns host) then
    Plan (Some (host, get_port main)) (plan_id clid None) false (is_rds_proxy_dns host) (Some domain_message)
  else if nonempty (get_rds_instance_host_pattern host) then
    Plan (Some (get_rds_instance_host_pattern host, get_port main))
      (plan_id clid (Some (if is_rds_proxy_dns host || negb (nonempty (get_rds_cluster_host_url host))
                           then identification host (get_port main)
                           else identification (get_rds_cluster_host_url host) (get_port main))))
      true (is_rds_proxy_dns host) None
  else PlanError dns_message.

(** The topology service and the metrics container of the handler. *)
Definition conf (s : fstate) (svc : TOPOLOGY_SERVICE) (mc : METRICS_CONTAINER) : Prop :=
  w_services (f_world s) !! topology_service (f_h s) = Some svc ∧
  w_containers (f_world s) !! metrics_container (f_h s) = Some mc ∧
  is_Some (w_containers (f_world s) !! ts_metrics_container svc).

(** The objects of a new handler. *)
Definition fresh_handler (s : fstate) (svc : TOPOLOGY_SERVICE) (mc : METRICS_CONTAINER) : Prop :=
  is_cluster_info_initialized (f_h s) = false ∧ m_is_rds (f_h s) = false ∧ m_is_rds_proxy (f_h s) = false ∧ conf s svc mc.

(** The parts of the state the set-up leaves alone. *)
Definition same_rest (s s1 : fstate) : Prop :=
  f_ds s1 = f_ds s ∧ f_dbc s1 = f_dbc s ∧ f_proxies s1 = f_proxies s ∧
  w_topologies (f_world s1) = w_topologies (f_world s) ∧ topology_cache (f_world s1) = topology_cache (f_world s) ∧
  extends (w_hosts (f_world s)) (w_hosts (f_world s1)).

Definition has_template_at (w : world) (o : option loc) (t : str * Z) : Prop :=
  ∃ q, o = Some q ∧ w_hosts w !! q = Some (new_host t.1 (to_int32 t.2)).

(** The service and the metrics follow the plan. *)
Definition follows (template : option (str * Z)) (cid : option str) (id : str) (svc : TOPOLOGY_SERVICE) (mc : METRICS_CONTAINER)
    (s1 : fstate) : Prop :=
  ∃ svc1 mc1, conf s1 svc1 mc1 ∧
    match template with
    | Some t => has_template_at (f_world s1) (cluster_instance_host svc1) t
    | None => cluster_instance_host svc1 = cluster_instance_host svc
    end ∧
    cluster_id (f_h s1) = default id cid ∧ ts_cluster_id svc1 = default (ts_cluster_id svc) cid ∧
    mc_cluster_id mc1 = default (mc_cluster_id mc) cid.

Lemma set_template_run s svc mc h p :
  conf s svc mc → ∃ s1, set_template h p s = (Ok tt, s1) ∧ f_h s1 = f_h s ∧ same_rest s s1 ∧
    follows (Some (h, p)) None (cluster_id (f_h s)) svc mc s1.
Proof.
  intros (Hs & Hm & Hc). set (w := f_world s). set (q := fresh (dom (w_hosts w))).
  assert (w_hosts (f_world s) !! q = None) as Hq by exact (fresh_host w).
  set (svc1 := TopologyService (refresh_rate_in_ms svc) (ts_cluster_id svc) (Some q) (ts_metrics_container svc) (allowed_and_blocked_hosts svc)).
  set (w1 := set_heap (Stored := hosts_stored) (<[q := new_host h (to_int32 p)]> (w_hosts w)) w).
  set (w2 := set_heap (Stored := services_stored) (<[topology_service (f_h s) := svc1]> (w_services w1)) w1).
  exists (set_world w2 s). split.
  { unfold set_template. rewrite get_bind. apply on_world_Ok. rewrite (bind_Ok _ _ w q w1) by done.
    unfold set_cluster_instance_template. rewrite (load_bind q (new_host h (to_int32 p))) by apply lookup_insert_eq.
    by rewrite (update_Ok _ _ svc). }
  split; [done|]. split; [split_and!; try done; intros k x Hk; simpl; rewrite lookup_insert_ne; [done|congruence]|].
  exists svc1, mc. split; [split; [apply lookup_insert_eq|done]|]. split; [|done].
  exists q. split; [done|apply lookup_insert_eq].
Qed.

Lemma set_cluster_id_run s svc mc t cid :
  follows t None (cluster_id (f_h s)) svc mc s → ∃ s1, set_cluster_id cid s = (Ok tt, s1) ∧ f_h s1 = with_cluster_id cid (f_h s) ∧
    same_rest s s1 ∧ follows t (Some cid) (cluster_id (f_h s)) svc mc s1.
Proof.
  intros (svc1 & mc1 & (Hs & Hm & [c Hc]) & Ht & _). set (w := f_world s).
  set (svc2 := TopologyService (refresh_rate_in_ms svc1) cid (cluster_instance_host svc1) (ts_metrics_container svc1) (allowed_and_blocked_hosts svc1)).
  set (w1 := set_heap (Stored := services_stored) (<[topology_service (f_h s) := svc2]> (w_services w)) w).
  set (w2 := set_heap (Stored := containers_stored) (<[ts_metrics_container svc1 := mc_set_cluster_id cid c]> (w_containers w)) w1).
  assert (∃ mc2, w_containers w2 !! metrics_container (f_h s) = Some mc2) as [mc2 Hmc2].
  { destruct (decide (ts_metrics_container svc1 = metrics_container (f_h s))) as [<-|Hne]; eexists; [apply lookup_insert_eq|].
    simpl. rewrite lookup_insert_ne by done. exact Hm. }
  set (w3 := set_heap (Stored := containers_stored) (<[metrics_container (f_h s) := mc_set_cluster_id cid mc2]> (w_containers w2)) w2).
  exists (set_h (with_cluster_id cid (f_h s)) (set_world w3 s)). split.
  { unfold set_cluster_id. rewrite modify_h_bind, get_bind.
    assert (TopologyService.set_cluster_id (topology_service (f_h s)) cid w = (Ok tt, w2)) as E.
    { unfold TopologyService.set_cluster_id. rewrite (bind_Ok _ _ w tt w1) by (by rewrite (update_Ok _ _ svc1)).
      rewrite (load_bind _ svc2) by apply lookup_insert_eq. by rewrite (update_Ok _ _ c). }
    rewrite (bind_Ok _ _ _ tt (set_h (with_cluster_id cid (f_h s)) (set_world w2 s))) by exact (on_world_Ok _ (set_h _ s) _ _ E).
    apply (on_world_Ok _ (set_h (with_cluster_id cid (f_h s)) (set_world w2 s))). by rewrite (update_Ok _ _ mc2). }
  split; [done|]. split; [split_and!; try done; by intros k x Hk|]. exists svc2, (mc_set_cluster_id cid mc2). split; [|done].
  split; [apply lookup_insert_eq|]. split; [apply lookup_insert_eq|]. simpl.
  destruct (decide (metrics_container (f_h s) = ts_metrics_container svc1)) as [<-|Hne]; [rewrite lookup_insert_eq; eauto|].
  rewrite lookup_insert_ne, lookup_insert_eq by done. eauto.
Qed.

#[export] Instance same_rest_preorder : PreOrder same_rest.
Proof.
  split; [by intros s; split_and!; try done; intros k x Hk|].
  intros s1 s2 s3 (A1 & A2 & A3 & A4 & A5 & A6) (B1 & B2 & B3 & B4 & B5 & B6).
  split_and!; try congruence. intros k x Hk. by apply B6, A6.
Qed.

Definition id_step (cid : option str) : M fstate unit := match cid with Some c => set_cluster_id c | None => mret tt end.

Lemma id_step_run s svc mc t cid :
  follows t None (cluster_id (f_h s)) svc mc s →
  ∃ s1, id_step cid s = (Ok tt, s1) ∧ f_h s1 = (match cid with Some c => with_cluster_id c | None => id end) (f_h s) ∧
    same_rest s s1 ∧ follows t cid (cluster_id (f_h s)) svc mc s1.
Proof. intros Hf. destruct cid as [c|]; [by apply set_cluster_id_run|]. by exists s. Qed.

(** The code of the three branches sets the id of the plan. *)
Lemma plan_id_code clid auto m :
  m = id_step auto → (if negb (bool_decide (clid = [])) then set_cluster_id clid else m) = id_step (plan_id clid auto).
Proof. intros ->. unfold plan_id, nonempty. by destruct (negb _). Qed.

(** Template and identification in one go. *)
Definition plan_step (template : option (str * Z)) (cid : option str) : M fstate unit :=
  (match template with Some t => set_template t.1 t.2 | None => mret tt end);; id_step cid.

Lemma plan_step_run {A} s svc mc template cid (k : unit → M fstate A) :
  conf s svc mc →
  ∃ s1, (plan_step template cid ≫= k) s = k tt s1 ∧ f_h s1 = (match cid with Some c => with_cluster_id c | None => id end) (f_h s) ∧
    same_rest s s1 ∧ follows template cid (cluster_id (f_h s)) svc mc s1.
Proof.
  intros Hc. destruct template as [[h p]|]; unfold plan_step; simpl.
  - destruct (set_template_run s svc mc h p Hc) as (s1 & E1 & Eh & Hr1 & Hf1). rewrite <- Eh in Hf1.
    destruct (id_step_run s1 svc mc _ cid Hf1) as (s2 & E2 & Eh2 & Hr2 & Hf2).
    exists s2. rewrite bind_assoc, (bind_Ok _ _ _ _ _ E1), (bind_Ok _ _ _ _ _ E2), Eh2, <- Eh. split; [done|]. split; [done|].
    split; [by etrans|done].
  - assert (follows None None (cluster_id (f_h s)) svc mc s) as Hf by (by exists svc, mc).
    destruct (id_step_run s svc mc _ cid Hf) as (s1 & E & Eh & Hr & Hf').
    exists s1. by rewrite bind_assoc, ret_bind, (bind_Ok _ _ _ _ _ E).
Qed.

(** The kind of the cluster is not the business of [initialize_topology]. *)
Lemma initialize_topology_kind rds proxy :
  preserves (λ s, m_is_rds (f_h s) = rds ∧ m_is_rds_proxy (f_h s) = proxy) initialize_topology.
Proof.
  unfold initialize_topology, current_proxy. solve_preserves; try done; intros s Hs; by rewrite on_world_eq.
Qed.

(** The end of the set-up: the topology is asked for, and perhaps refused. *)
Definition finish_plan (refuse : option str) : M fstate unit :=
  initialize_topology;; (match refuse with Some m => refuse_topology m | None => mret tt end);; modify_h with_initialized.

Lemma finish_plan_run refuse s1 :
  match initialize_topology s1 with
  | (Ok _, s2) =>
    if match refuse with Some _ => m_is_cluster_topology_available (f_h s2) | None => false end
    then finish_plan refuse s1 = (Throw (runtime_error (default [] refuse)), s2)
    else finish_plan refuse s1 = (Ok tt, set_h (with_initialized (f_h s2)) s2)
  | (Throw e, s2) => finish_plan refuse s1 = (Throw e, s2)
  | (UB, s2) => finish_plan refuse s1 = (UB, s2)
  end.
Proof.
  unfold finish_plan. destruct (initialize_topology s1) as [[[]|e|] s2] eqn:E; [|unfold mbind, M_bind; by rewrite E..].
  rewrite (bind_Ok _ _ _ _ _ E). destruct refuse as [m|]; [|done].
  unfold refuse_topology. rewrite bind_assoc, gets_bind. by destruct (m_is_cluster_topology_available (f_h s2)).
Qed.

(** What a set-up does from the state [s0] on: the plan, then its end. *)
Definition runs_plan (p : cluster_plan) (svc : TOPOLOGY_SERVICE) (mc : METRICS_CONTAINER) (s0 : fstate) (out : res () * fstate) : Prop :=
  match p with
  | PlanError m => ∃ s', out = (Throw (runtime_error m), s') ∧ is_cluster_info_initialized (f_h s') = is_cluster_info_initialized (f_h s0) ∧ same_rest s0 s'
  | Plan template cid rds proxy refuse =>
    ∃ s1, same_rest s0 s1 ∧ follows template cid (cluster_id (f_h s0)) svc mc s1 ∧ current_host (f_h s1) = current_host (f_h s0) ∧
      m_is_rds (f_h s1) = rds ∧ m_is_rds_proxy (f_h s1) = proxy ∧ out = finish_plan refuse s1
  end.

Lemma plan_step_bind {A} template cid (k : unit → M fstate A) s :
  ((match template with Some t => set_template t.1 t.2 | None => mret tt end) ≫= λ _, id_step cid ≫= k) s =
  (plan_step template cid ≫= k) s.
Proof. unfold plan_step. by rewrite (bind_assoc (match template with Some t => set_template t.1 t.2 | None => mret tt end)). Qed.

Lemma same_rest_h s h : same_rest s (set_h h s).
Proof. split_and!; try done. by intros k x Hk. Qed.

(** A branch that runs a plan step and the end of the set-up. *)
Lemma plan_step_runs template cid rds proxy refuse svc mc s :
  conf s svc mc → m_is_rds (f_h s) = rds → m_is_rds_proxy (f_h s) = proxy →
  runs_plan (Plan template cid rds proxy refuse) svc mc s ((plan_step template cid ≫= λ _, finish_plan refuse) s).
Proof.
  intros Hc Hr Hp. destruct (plan_step_run s svc mc template cid (λ _, finish_plan refuse) Hc) as (s1 & E & Eh & Hs & Hf).
  exists s1. rewrite Eh. split; [done|]. split; [done|]. split; [by destruct cid|]. split; [by destruct cid|]. split; [by destruct cid|done].
Qed.

(** The plan from a state that differs in the handler's flags. *)
Lemma runs_plan_from p svc mc s h out :
  is_cluster_info_initialized h = is_cluster_info_initialized (f_h s) → cluster_id h = cluster_id (f_h s) →
  current_host h = current_host (f_h s) → runs_plan p svc mc (set_h h s) out → runs_plan p svc mc s out.
Proof.
  intros E1 E2 E3. destruct p as [m|template cid rds proxy refuse]; simpl.
  - intros (s' & -> & H1 & H2). exists s'. split; [done|]. split; [congruence|]. etrans; [apply same_rest_h|done].
  - rewrite E2, E3. intros (s1 & H1 & H2). exists s1. split; [|done]. etrans; [apply same_rest_h|done].
Qed.

(** The code of a branch, regrouped. *)
Lemma branch_regroup h p clid auto m refuse s :
  m = id_step auto →
  ((set_template h p;; (if negb (bool_decide (clid = [])) then set_cluster_id clid else m);; initialize_topology;;
    (match refuse with Some m => refuse_topology m | None => mret tt end)) ≫= λ _, modify_h with_initialized) s =
  (plan_step (Some (h, p)) (plan_id clid auto) ≫= λ _, finish_plan refuse) s.
Proof.
  intros Hm. rewrite (plan_id_code clid auto m Hm), bind_assoc, <- plan_step_bind. apply bind_cong. intros [] s1.
  rewrite bind_assoc. apply bind_cong. intros [] s2. by rewrite bind_assoc.
Qed.

Lemma branch_regroup_none h p clid auto m s :
  m = id_step auto →
  ((set_template h p;; (if negb (bool_decide (clid = [])) then set_cluster_id clid else m);; initialize_topology)
    ≫= λ _, modify_h with_initialized) s =
  (plan_step (Some (h, p)) (plan_id clid auto) ≫= λ _, finish_plan None) s.
Proof.
  intros Hm. rewrite (plan_id_code clid auto m Hm), bind_assoc, <- plan_step_bind. apply bind_cong. intros [] s1.
  rewrite bind_assoc. apply bind_cong. intros [] s2. unfold finish_plan. apply bind_cong. by intros [] s3.
Qed.

Lemma init_from_name_plan svc mc main clid s :
  conf s svc mc →
  let host := get_host main in
  runs_plan
    (if negb (is_rds_dns host) then
       Plan (Some (host, get_port main)) (plan_id clid None) false (is_rds_proxy_dns host) (Some domain_message)
     else if nonempty (get_rds_instance_host_pattern host) then
       Plan (Some (get_rds_instance_host_pattern host, get_port main))
         (plan_id clid (Some (if is_rds_proxy_dns host || negb (nonempty (get_rds_cluster_host_url host))
                              then identification host (get_port main)
                              else identification (get_rds_cluster_host_url host) (get_port main))))
         true (is_rds_proxy_dns host) None
     else PlanError dns_message) svc mc s
    ((init_from_name host (get_port main) clid ≫= λ _, modify_h with_initialized) s).
Proof.
  intros Hc host. unfold init_from_name. rewrite bind_assoc, modify_h_bind.
  eapply (runs_plan_from _ _ _ _ (with_kind (is_rds_dns host) (is_rds_proxy_dns host) (m_is_rds_custom_cluster (f_h s)) (f_h s))); [done..|].
  set (s0 := set_h _ s). assert (conf s0 svc mc) as Hc0 by exact Hc.
  assert (m_is_rds (f_h s0) = is_rds_dns host ∧ m_is_rds_proxy (f_h s0) = is_rds_proxy_dns host) as [Hr Hp] by done.
  destruct (is_rds_dns host); cbn [negb].
  - unfold nonempty at 1. destruct (bool_decide (get_rds_instance_host_pattern host = [])) eqn:Ep; cbn [negb].
    { exists s0. split; [done|]. split; [done|reflexivity]. }
    rewrite (branch_regroup_none _ _ _ (Some (if is_rds_proxy_dns host || negb (nonempty (get_rds_cluster_host_url host))
      then identification host (get_port main) else identification (get_rds_cluster_host_url host) (get_port main)))).
    + by apply plan_step_runs.
    + unfold set_cluster_id_host, nonempty, identification. destruct (is_rds_proxy_dns host); [done|]. cbn [orb]. by destruct (bool_decide (get_rds_cluster_host_url host = [])).
  - rewrite (branch_regroup _ _ _ None _ (Some domain_message)) by done. by apply plan_step_runs.
Qed.

Lemma init_from_pattern_plan MYSQL_PORT svc mc hp clid s :
  conf s svc mc → m_is_rds_proxy (f_h s) = false →
  let port := if opt_PORT_default (f_ds s) then MYSQL_PORT else opt_PORT (f_ds s) in
  0 ≤ port →
  runs_plan
    (match parse_host_list (Some hp) port with
    | Ok (h :: _) =>
      if negb (is_dns_pattern_valid (name h)) then PlanError (pattern_message (name h))
      else if is_rds_proxy_dns (name h) then PlanError (S!"RDS Proxy url can't be used as an instance pattern.")
      else if is_rds_custom_cluster_dns (name h) then PlanError (S!"RDS Custom Cluster endpoint can't be used as an instance pattern.")
      else Plan (Some (name h, HostList.port h))
             (plan_id clid (if is_rds_dns (name h) && nonempty (get_rds_cluster_host_url (name h))
                            then Some (identification (get_rds_cluster_host_url (name h)) (HostList.port h)) else None))
             (is_rds_dns (name h)) false None
    | _ => PlanError (S!"Invalid host pattern: '" ++ hp ++ S!"' - the value could not be parsed")
    end) svc mc s ((init_from_pattern MYSQL_PORT hp clid ≫= λ _, modify_h with_initialized) s).
Proof.
  intros Hc Hpx port Hport. unfold init_from_pattern. rewrite bind_assoc, gets_bind.
  replace (if negb (opt_PORT_default (f_ds s)) then opt_PORT (f_ds s) else MYSQL_PORT) with port by (by subst port; destruct (opt_PORT_default (f_ds s))).
  pose proof (parse_from_ok (S (length hp)) hp hp port ltac:(lia) Hport) as Hpok.
  unfold parse_host_list in *. cbn [default from_option id] in *. change (default [] (Some hp)) with hp.
  destruct (parse_from (S (length hp)) hp hp port) as [[|h l]|e|]; simpl in Hpok; [by destruct Hpok| |subst e|done].
  2: { exists s. split; [done|]. split; [done|reflexivity]. }
  destruct (is_dns_pattern_valid (name h)); cbn [negb]; [|exists s; split; [done|]; split; [done|reflexivity]].
  destruct (set_template_run s svc mc (name h) (HostList.port h) Hc) as (s1 & E & Eh & Hr & Hf).
  rewrite bind_assoc, (bind_Ok _ _ _ _ _ E), bind_assoc, modify_h_bind.
  set (s2 := set_h _ s1). assert (same_rest s s2) as Hr2 by (etrans; [exact Hr|apply same_rest_h]).
  assert (is_cluster_info_initialized (f_h s2) = is_cluster_info_initialized (f_h s)) as Hi by (simpl; by rewrite Eh).
  assert (follows (Some (name h, HostList.port h)) None (cluster_id (f_h s2)) svc mc s2) as Hf2
    by (simpl; rewrite Eh; exact Hf).
  assert (m_is_rds (f_h s2) = is_rds_dns (name h) ∧ m_is_rds_proxy (f_h s2) = is_rds_proxy_dns (name h)) as [Hk1 Hk2] by done.
  destruct (is_rds_proxy_dns (name h)); [by exists s2|]. destruct (is_rds_custom_cluster_dns (name h)); [by exists s2|].
  rewrite (plan_id_code clid (if is_rds_dns (name h) && nonempty (get_rds_cluster_host_url (name h))
    then Some (identification (get_rds_cluster_host_url (name h)) (HostList.port h)) else None)).
  2: { unfold set_cluster_id_host, nonempty, identification. destruct (is_rds_dns (name h)); [|done]. cbn [andb].
       by destruct (bool_decide (get_rds_cluster_host_url (name h) = [])). }
  set (cid := plan_id clid _). destruct (id_step_run s2 svc mc _ cid Hf2) as (s3 & E3 & Eh3 & Hr3 & Hf3).
  rewrite bind_assoc, (bind_Ok _ _ _ _ _ E3). exists s3. rewrite Eh3.
  split; [by etrans|]. split; [change (cluster_id (f_h s2)) with (cluster_id (f_h s1)) in Hf3; by rewrite Eh in Hf3|]. split; [destruct cid; simpl; by rewrite Eh|].
  split; [by destruct cid|]. split; [by destruct cid|]. unfold finish_plan. apply bind_cong. by intros [] s4.
Qed.

Lemma with_kind_same h : m_is_rds h = false → m_is_rds_proxy h = false → with_kind false false (m_is_rds_custom_cluster h) h = h.
Proof. destruct h. simpl. by intros -> ->. Qed.

Lemma init_from_ip_plan svc mc clid s :
  conf s svc mc → m_is_rds (f_h s) = false → m_is_rds_proxy (f_h s) = false →
  runs_plan (Plan None (plan_id clid None) false false (Some ip_message)) svc mc s
    ((init_from_ip clid ≫= λ _, modify_h with_initialized) s).
Proof.
  intros Hc Hr Hp. set (cid := plan_id clid None).
  destruct (id_step_run s svc mc None cid) as (s1 & E & Eh & Hs & Hf); [by exists svc, mc|].
  assert (m_is_rds (f_h s1) = false ∧ m_is_rds_proxy (f_h s1) = false) as Hk by (rewrite Eh; by destruct cid).
  exists s1. rewrite Eh. split; [done|]. split; [done|]. split; [by destruct cid|]. split; [by destruct cid|]. split; [by destruct cid|].
  unfold init_from_ip. rewrite (plan_id_code clid None (mret tt)), bind_assoc by done. fold cid.
  rewrite (bind_Ok _ _ _ _ _ E), bind_assoc. unfold finish_plan.
  pose proof (initialize_topology_kind _ _ _ Hk) as Hk2.
  destruct (initialize_topology s1) as [[[]|e|] s2] eqn:Ei; [|unfold mbind, M_bind; by rewrite Ei..]. simpl in Hk2.
  rewrite !(bind_Ok _ _ _ _ _ Ei). unfold refuse_topology. rewrite !bind_assoc, !gets_bind.
  destruct (m_is_cluster_topology_available (f_h s2)); [done|]. rewrite !ret_bind, !modify_h_bind.
  unfold modify_h, modify. simpl. destruct Hk2 as [K1 K2]. by rewrite (with_kind_same _ K1 K2).
Qed.

(** What the set-up does from [s0]: an error of the plan comes before the
    topology query; otherwise the query runs with template, id and kind in
    place, and a topology is kept or refused. *)
Definition plan_outcome (p : cluster_plan) (svc : TOPOLOGY_SERVICE) (mc : METRICS_CONTAINER) (s0 : fstate) (out : res () * fstate) : Prop :=
  match p with
  | PlanError m => ∃ s', out = (Throw (runtime_error m), s') ∧ is_cluster_info_initialized (f_h s') = false ∧ same_rest s0 s'
  | Plan template cid rds proxy refuse =>
    ∃ s1, same_rest s0 s1 ∧ follows template cid (cluster_id (f_h s0)) svc mc s1 ∧ current_host (f_h s1) = current_host (f_h s0) ∧
      m_is_rds (f_h s1) = rds ∧ m_is_rds_proxy (f_h s1) = proxy ∧
      match initialize_topology s1 with
      | (Ok _, s2) =>
        if match refuse with Some _ => m_is_cluster_topology_available (f_h s2) | None => false end
        then out = (Throw (runtime_error (default [] refuse)), s2)
        else out = (Ok tt, set_h (with_initialized (f_h s2)) s2)
      | (Throw e, s2) => out = (Throw e, s2)
      | (UB, s2) => out = (UB, s2)
      end
  end.

(** C10: [init_cluster_info] carries out the plan for the options and the main
    host, the first of the server list, which becomes the current host: a host
    pattern wins over everything, an IP address and a custom domain are
    refused if the cluster provides a topology, an RDS name yields its
    instance template and, unless the user names the cluster, the cluster
    endpoint (or the proxy or instance endpoint) as identification.  A second
    call does nothing. *)
Theorem init_cluster_info_spec MYSQL_PORT s svc mc main :
  conf s svc mc → m_is_rds (f_h s) = false → m_is_rds_proxy (f_h s) = false → 0 ≤ MYSQL_PORT → 0 ≤ opt_PORT (f_ds s) →
  get_host_info_from_ds (opt_SERVER (f_ds s)) (opt_PORT (f_ds s)) = Ok main →
  if is_cluster_info_initialized (f_h s) then init_cluster_info MYSQL_PORT s = (Ok tt, s) else
  ∃ q, w_hosts (f_world s) !! q = None ∧
    let w0 := set_heap (Stored := hosts_stored) (<[q := main]> (w_hosts (f_world s))) (f_world s) in
    plan_outcome (plan_of MYSQL_PORT (f_ds s) main) svc mc (set_h (with_host (Some q) (f_h s)) (set_world w0 s))
      (init_cluster_info MYSQL_PORT s).
Proof.
  intros Hc Hr Hp Hport Hport' Hmain. unfold init_cluster_info. rewrite gets_bind.
  destruct (is_cluster_info_initialized (f_h s)) eqn:Hi; [done|].
  set (q := fresh (dom (w_hosts (f_world s)))). exists q. split; [apply fresh_host|].
  set (w0 := set_heap (Stored := hosts_stored) (<[q := main]> (w_hosts (f_world s))) (f_world s)).
  rewrite gets_bind, Hmain. unfold lift. rewrite (bind_Ok _ _ s main s) by done.
  rewrite (bind_Ok _ _ s q (set_world w0 s)) by done. rewrite modify_h_bind.
  set (s0 := set_h _ _). change (set_h (with_host (Some q) (f_h s)) (set_world w0 s)) with s0.
  assert (conf s0 svc mc) as Hc0 by exact Hc.
  assert (∀ p out, runs_plan p svc mc s0 out → plan_outcome p svc mc s0 out) as Hout.
  { intros [m|template cid rds proxy refuse] out; simpl; [by rewrite Hi|].
    intros (s1 & H1 & H2 & H3 & H4 & H5 & ->). exists s1. repeat (split; [done|]). apply finish_plan_run. }
  apply Hout. unfold plan_of, nonempty at 1.
  destruct (bool_decide (default [] (opt_HOST_PATTERN (f_ds s)) = [])); cbn [negb].
  - destruct (is_ipv4 (get_host main) || is_ipv6 (get_host main)); [by apply init_from_ip_plan|by apply init_from_name_plan].
  - apply (init_from_pattern_plan MYSQL_PORT svc mc _ _ s0 Hc0 Hp). simpl. by destruct (opt_PORT_default (f_ds s)).
Qed.

(** A cluster endpoint: its template, its identification, and two hosts. *)
Definition ex_cluster_host : str := "db.cluster-ro-xyz.us-east-2.rds.amazonaws.com".
Definition ex_new_state : fstate :=
  FState (Handler 1%positive 1%positive DEFAULT_CLUSTER_ID None None false false false false false 0 0)
    (DSource (Some ex_cluster_host) 3306 true None None None true true 30 30 30 30) (Dbc (Some 1%positive) 30 false None 0 0)
    {[1%positive := Proxy true true true (TopologyConnection (λ _, 0) (λ _, Some ex_rows))]} ex_world.

Lemma init_cluster_info_spec_witness :
  plan_of 3306 (f_ds ex_new_state) (new_host ex_cluster_host 3306) =
    Plan (Some (S!"?.xyz.us-east-2.rds.amazonaws.com", 3306)) (Some (S!"db.cluster-xyz.us-east-2.rds.amazonaws.com:3306")) true false None ∧
  ∃ q, w_hosts ex_world !! q = None ∧
    let w0 := set_heap (Stored := hosts_stored) (<[q := new_host ex_cluster_host 3306]> (w_hosts ex_world)) ex_world in
    plan_outcome (plan_of 3306 (f_ds ex_new_state) (new_host ex_cluster_host 3306)) ex_service (Container true None None "c1")
      (set_h (with_host (Some q) (f_h ex_new_state)) (set_world w0 ex_new_state)) (init_cluster_info 3306 ex_new_state).
Proof.
  split; [vm_compute; reflexivity|].
  exact (init_cluster_info_spec 3306 ex_new_state ex_service (Container true None None "c1") (new_host ex_cluster_host 3306)
    (conj eq_refl (conj eq_refl (mk_is_Some _ _ eq_refl))) eq_refl eq_refl ltac:(discriminate) ltac:(discriminate)
    ltac:(vm_compute; reflexivity)).
Defined.

(** ** Reconnecting to the writer *)

Section KeepsSource.
Context (d : DataSource).

Definition source_is (s : fstate) : Prop := f_ds s = d.

Lemma source_world {A} (m : M world A) : preserves source_is (on_world m).
Proof. intros s Hs. by rewrite on_world_eq. Qed.
Lemma source_h f : preserves source_is (modify_h f).
Proof. by intros s Hs. Qed.
Lemma source_dbc f : preserves source_is (modify_dbc f).
Proof. by intros s Hs. Qed.

Ltac solve_source := solve_preserves; first [apply source_world|apply source_h|apply source_dbc].

Lemma source_set_cluster_id cid : preserves source_is (set_cluster_id cid).
Proof. unfold set_cluster_id. solve_source. Qed.
Lemma source_initialize : preserves source_is initialize_topology.
Proof. unfold initialize_topology, current_proxy. solve_source. Qed.
Lemma source_template h p : preserves source_is (set_template h p).
Proof. unfold set_template. solve_source. Qed.

Ltac solve_branch := solve_preserves;
  first [apply source_initialize|apply source_template|apply source_set_cluster_id|apply source_h|apply source_world|done].

Lemma source_init_cluster_info MYSQL_PORT : preserves source_is (init_cluster_info MYSQL_PORT).
Proof.
  unfold init_cluster_info, init_from_pattern, init_from_ip, init_from_name, set_cluster_id_host, refuse_topology.
  solve_branch.
Qed.
Lemma source_proxy : preserves source_is current_proxy.
Proof. unfold current_proxy. solve_preserves. Qed.
Lemma source_read_only : preserves source_is is_read_only.
Proof. unfold is_read_only, current_proxy. solve_preserves. Qed.
End KeepsSource.

(** When [should_connect_to_new_writer] answers true, the server option
    was a writer cluster endpoint and is now a host of which three things hold:
    it is no cluster endpoint, its name resolves, and to another address than
    the endpoint does.  When it answers false the option is as it was. *)
Theorem should_connect_to_new_writer_sound MYSQL_PORT getaddrinfo s b s' :
  should_connect_to_new_writer MYSQL_PORT getaddrinfo s = (Ok b, s') →
  if b then
    ∃ host h ip ip', opt_SERVER (f_ds s) = Some host ∧ is_rds_writer_cluster_dns host = true ∧
      opt_SERVER (f_ds s') = Some (collapse_braces h) ∧ is_rds_cluster_dns h = false ∧
      host_to_IP getaddrinfo host = Ok ip ∧ host_to_IP getaddrinfo h = Ok ip' ∧ ip ≠ [] ∧ ip' ≠ [] ∧ ip ≠ ip'
  else f_ds s' = f_ds s.
Proof.
  unfold should_connect_to_new_writer. rewrite gets_bind.
  destruct (opt_SERVER (f_ds s)) as [host|] eqn:Ehost; [|by intros [= <- <-]].
  destruct (is_rds_writer_cluster_dns host) eqn:Hw; cbn [negb]; [|by intros [= <- <-]].
  intros H. apply bind_inv_Ok in H as (ip & s0 & Hip & H). injection Hip as Hip <-.
  case_bool_decide as Hne; [by injection H as <- <-|].
  apply bind_inv_Ok in H as ([] & s1 & E1 & H).
  assert (f_ds s1 = f_ds s) as D1 by (pose proof (source_init_cluster_info (f_ds s) MYSQL_PORT s eq_refl) as D; rewrite E1 in D; exact D).
  rewrite get_bind in H. apply bind_inv_Ok in H as (px & s2 & E2 & H).
  assert (f_ds s2 = f_ds s) as D2.
  { pose proof (source_proxy (f_ds s) s1 D1) as D. rewrite E2 in D; exact D. }
  apply bind_inv_Ok in H as (force & s3 & E3 & H).
  assert (f_ds s3 = f_ds s) as D3 by (pose proof (source_read_only (f_ds s) s2 D2) as D; rewrite E3 in D; exact D).
  apply bind_inv_Ok in H as (topology & s4 & E4 & H).
  assert (f_ds s4 = f_ds s) as D4 by (rewrite on_world_eq in E4; by injection E4 as _ <-).
  destruct topology as [t|]; [|done]. cbn [deref] in H. rewrite ret_bind in H.
  apply bind_inv_Ok in H as (writer & s5 & E5 & H).
  assert (f_ds s5 = f_ds s) as D5.
  { unfold catch_runtime in E5. unfold mbind, M_bind in E5. rewrite on_world_eq in E5.
    destruct (get_writer t (f_world s4)) as [[w|[]|] w'] in E5; first [discriminate E5|injection E5 as _ <-; exact D4]. }
  destruct writer as [w|]; [|by injection H as <- <-].
  apply bind_inv_Ok in H as (hi & s6 & E6 & H).
  assert (f_ds s6 = f_ds s) as D6 by (rewrite on_world_eq in E6; by injection E6 as _ <-).
  destruct (is_rds_cluster_dns (get_host hi)) eqn:Hc; [by injection H as <- <-|].
  apply bind_inv_Ok in H as (ip' & s7 & Hip' & H). injection Hip' as Hip' <-.
  case_bool_decide as Hne'; [by injection H as <- <-|]. case_bool_decide as Hdiff; [by injection H as <- <-|]. cbn [orb] in H.
  apply bind_inv_Ok in H as (server & s8 & E8 & H). injection E8 as E8 <-.
  rewrite modify_ds_bind in H. injection H as <- <-.
  exists host, (get_host hi), ip, ip'. split; [done|]. split; [done|]. split; [|by split_and!].
  simpl. unfold set_remove_brackets in E8. destruct (_ <? _); [by injection E8 as <-|discriminate].
Qed.

Definition ex_writer_host : str := "db.cluster-xyz.us-east-2.rds.amazonaws.com".
Definition ex_dns (host : str) : option (list str) :=
  if decide (host = ex_writer_host) then Some [S!"10.0.0.1"] else Some [S!"10.0.0.2"].
Definition ex_writer_state : fstate :=
  FState (f_h ex_new_state) (with_server (Some ex_writer_host) (f_ds ex_new_state)) (f_dbc ex_new_state) (f_proxies ex_new_state) ex_world.

(** The endpoint resolves to another address than the writer of the topology. *)
Lemma should_connect_to_new_writer_sound_witness :
  ∃ s', should_connect_to_new_writer 3306 ex_dns ex_writer_state = (Ok true, s') ∧
    opt_SERVER (f_ds s') = Some (S!"i1.xyz.us-east-2.rds.amazonaws.com") ∧
    ∃ host h ip ip', opt_SERVER (f_ds ex_writer_state) = Some host ∧ is_rds_writer_cluster_dns host = true ∧
      opt_SERVER (f_ds s') = Some (collapse_braces h) ∧ is_rds_cluster_dns h = false ∧
      host_to_IP ex_dns host = Ok ip ∧ host_to_IP ex_dns h = Ok ip' ∧ ip ≠ [] ∧ ip' ≠ [] ∧ ip ≠ ip'.
Proof.
  destruct (should_connect_to_new_writer 3306 ex_dns ex_writer_state) as [r s'] eqn:E.
  assert (r = Ok true) as -> by (change r with (r, s').1; rewrite <- E; vm_compute; reflexivity).
  exists s'. split; [reflexivity|]. split; [change s' with (Ok true, s').2; rewrite <- E; vm_compute; reflexivity|].
  exact (should_connect_to_new_writer_sound 3306 ex_dns ex_writer_state true s' E).
Defined.
