(* ===== verification/MonitorContext.v ===== *)
(** The monitoring context of one call on one connection:
    [MONITOR_CONNECTION_CONTEXT] (src/driver/monitor_connection_context.cc).
    A time point is the number of nanoseconds of [steady_clock] since its
    epoch, a duration in the options is in milliseconds. *)

From S2P Require Import Prelude CppString.

Local Open Scope Z_scope.

(** ** State *)

(** [src/driver/monitor_connection_context.h:84-102] MONITOR_CONNECTION_CONTEXT

    [connection_to_abort] is the connection, [None] for null; a
    [std::set<std::string>] is the list of its elements in their order. *)
Record MONITOR_CONNECTION_CONTEXT := Context {
  failure_detection_time : Z;
  failure_detection_interval : Z;
  failure_detection_count : Z;
  node_keys : list str;
  connection_to_abort : option positive;
  start_monitor_time : Z;
  invalid_node_start_time : Z;
  failure_count : Z;
  node_unhealthy : bool;
  active_context : bool
}.

(** [src/driver/monitor_connection_context.cc:36-50] MONITOR_CONNECTION_CONTEXT::MONITOR_CONNECTION_CONTEXT *)
Definition new_context (c : option positive) (keys : list str) (time interval count : Z) : MONITOR_CONNECTION_CONTEXT :=
  Context time interval count keys c 0 0 0 false true.

(** [src/driver/monitor_connection_context.cc:54-84] MONITOR_CONNECTION_CONTEXT::get_start_monitor_time to set_failure_count

    Getters are the projections. *)
Definition set_start_monitor_time (time : Z) (c : MONITOR_CONNECTION_CONTEXT) : MONITOR_CONNECTION_CONTEXT :=
  Context (failure_detection_time c) (failure_detection_interval c) (failure_detection_count c) (node_keys c)
    (connection_to_abort c) time (invalid_node_start_time c) (failure_count c) (node_unhealthy c) (active_context c).
Definition set_failure_count (count : Z) (c : MONITOR_CONNECTION_CONTEXT) : MONITOR_CONNECTION_CONTEXT :=
  Context (failure_detection_time c) (failure_detection_interval c) (failure_detection_count c) (node_keys c)
    (connection_to_abort c) (start_monitor_time c) (invalid_node_start_time c) count (node_unhealthy c) (active_context c).

(** [src/driver/monitor_connection_context.cc:86-114] MONITOR_CONNECTION_CONTEXT::increment_failure_count to set_node_unhealthy *)
Definition increment_failure_count (c : MONITOR_CONNECTION_CONTEXT) : MONITOR_CONNECTION_CONTEXT :=
  set_failure_count (failure_count c + 1) c.
Definition set_invalid_node_start_time (time : Z) (c : MONITOR_CONNECTION_CONTEXT) : MONITOR_CONNECTION_CONTEXT :=
  Context (failure_detection_time c) (failure_detection_interval c) (failure_detection_count c) (node_keys c)
    (connection_to_abort c) (start_monitor_time c) time (failure_count c) (node_unhealthy c) (active_context c).
Definition reset_invalid_node_start_time : MONITOR_CONNECTION_CONTEXT → MONITOR_CONNECTION_CONTEXT := set_invalid_node_start_time 0.
Definition is_invalid_node_start_time_defined (c : MONITOR_CONNECTION_CONTEXT) : bool := 0 <? invalid_node_start_time c.
Definition set_node_unhealthy (node : bool) (c : MONITOR_CONNECTION_CONTEXT) : MONITOR_CONNECTION_CONTEXT :=
  Context (failure_detection_time c) (failure_detection_interval c) (failure_detection_count c) (node_keys c)
    (connection_to_abort c) (start_monitor_time c) (invalid_node_start_time c) (failure_count c) node (active_context c).

(** [src/driver/monitor_connection_context.cc:116-122] MONITOR_CONNECTION_CONTEXT::is_active_context, invalidate *)
Definition invalidate (c : MONITOR_CONNECTION_CONTEXT) : MONITOR_CONNECTION_CONTEXT :=
  Context (failure_detection_time c) (failure_detection_interval c) (failure_detection_count c) (node_keys c)
    (connection_to_abort c) (start_monitor_time c) (invalid_node_start_time c) (failure_count c) (node_unhealthy c) false.

(** [duration_cast<milliseconds>] truncates. *)
Definition to_ms (ns : Z) : Z := Z.quot ns 1000000.

(** [src/driver/monitor_connection_context.cc:186-192] MONITOR_CONNECTION_CONTEXT::abort_connection

    The connection whose socket is closed, if any. *)
Definition abort_connection (c : MONITOR_CONNECTION_CONTEXT) : option positive :=
  match connection_to_abort c with
  | None => None
  | Some p => if negb (active_context c) then None else Some p
  end.

(** How long failures must last. *)
Definition max_invalid_node_duration (c : MONITOR_CONNECTION_CONTEXT) : Z :=
  failure_detection_interval c * Z.max 0 (failure_detection_count c).

(** [src/driver/monitor_connection_context.cc:150-184] MONITOR_CONNECTION_CONTEXT::set_connection_valid

    The context and the connection whose socket is closed. *)
Definition set_connection_valid (connection_valid : bool) (status_check_start_time current_time : Z)
    (c : MONITOR_CONNECTION_CONTEXT) : MONITOR_CONNECTION_CONTEXT * option positive :=
  if negb connection_valid then
    let c := increment_failure_count c in
    let c := if negb (is_invalid_node_start_time_defined c) then set_invalid_node_start_time status_check_start_time c else c in
    let invalid_node_duration_ms := to_ms (current_time - invalid_node_start_time c) in
    if max_invalid_node_duration c <=? invalid_node_duration_ms then
      let c := set_node_unhealthy true c in (c, abort_connection c)
    else (c, None)
  else (set_node_unhealthy false (reset_invalid_node_start_time (set_failure_count 0 c)), None).

(** [src/driver/monitor_connection_context.cc:133-147] MONITOR_CONNECTION_CONTEXT::update_connection_status *)
Definition update_connection_status (status_check_start_time current_time : Z) (is_valid : bool)
    (c : MONITOR_CONNECTION_CONTEXT) : MONITOR_CONNECTION_CONTEXT * option positive :=
  if negb (active_context c) then (c, None) else
  let total_elapsed_time := current_time - start_monitor_time c in
  if failure_detection_time c * 1000000 <? total_elapsed_time
  then set_connection_valid is_valid status_check_start_time current_time c
  else (c, None).

(** [src/driver/monitor_connection_context.cc:194-209] MONITOR_CONNECTION_CONTEXT::build_node_keys_str *)
Definition build_node_keys_str (keys : list str) : str :=
  match keys with
  | [] => "[]"
  | k :: keys' => foldl (λ s k, s ++ ", " ++ k) ("[" ++ k) keys' ++ S!"]"
  end.

(** ** A series of checks *)

(** One status check of the monitor: when it started, when it ended, and
    whether the server answered. *)
Record check := Check { started : Z; ended : Z; answered : bool }.

(** The context after a series of checks, and the sockets closed on the way. *)
Fixpoint checks (l : list check) (c : MONITOR_CONNECTION_CONTEXT) : MONITOR_CONNECTION_CONTEXT * list positive :=
  match l with
  | [] => (c, [])
  | k :: l' =>
    let '(c1, o) := update_connection_status (started k) (ended k) (answered k) c in
    let '(c2, closed) := checks l' c1 in
    (c2, match o with Some p => p :: closed | None => closed end)
  end.

(** ** The verdict on a node *)

(** The failing checks since the last answered one, [f] being those before [l]. *)
Fixpoint failing (f l : list check) : list check :=
  match l with
  | [] => f
  | k :: l' => failing (if answered k then [] else f ++ [k]) l'
  end.

(** When the failing checks [f] started. *)
Definition first_failure (f : list check) : Z := match f with [] => 0 | k :: _ => started k end.

(** The failures from the first of [f] to the end of [k] last long enough. *)
Definition too_long (c : MONITOR_CONNECTION_CONTEXT) (f : list check) (k : check) : bool :=
  max_invalid_node_duration c <=? to_ms (ended k - first_failure f).

(** The context that has seen the failing checks [f]. *)
Definition after (f : list check) (c : MONITOR_CONNECTION_CONTEXT) : MONITOR_CONNECTION_CONTEXT :=
  Context (failure_detection_time c) (failure_detection_interval c) (failure_detection_count c) (node_keys c)
    (connection_to_abort c) (start_monitor_time c) (first_failure f) (Z.of_nat (length f)) (existsb (too_long c f) f) true.

(** The sockets closed by [l] after [f]: one closing per verdict. *)
Fixpoint closings (c : MONITOR_CONNECTION_CONTEXT) (f l : list check) : list positive :=
  match l with
  | [] => []
  | k :: l' =>
    if answered k then closings c [] l' else
    (if too_long c (f ++ [k]) k then match connection_to_abort c with Some p => [p] | None => [] end else []) ++
    closings c (f ++ [k]) l'
  end.

(** A check that starts after the epoch and ends after the grace period. *)
Definition counts (c : MONITOR_CONNECTION_CONTEXT) (k : check) : Prop :=
  0 < started k ∧ start_monitor_time c + failure_detection_time c * 1000000 < ended k.

#[export] Instance counts_dec c k : Decision (counts c k).
Proof. unfold counts. apply _. Defined.

Lemma first_failure_app f k : f ≠ [] → first_failure (f ++ [k]) = first_failure f.
Proof. by destruct f. Qed.

Lemma too_long_app c f k k' : f ≠ [] → too_long c (f ++ [k]) k' = too_long c f k'.
Proof. intros Hf. unfold too_long. by rewrite first_failure_app. Qed.

Lemma existsb_app_long c f k : existsb (too_long c (f ++ [k])) (f ++ [k]) = existsb (too_long c f) f || too_long c (f ++ [k]) k.
Proof.
  rewrite existsb_app. simpl. rewrite orb_false_r. f_equal. destruct f as [|k0 f]; [done|].
  assert (∀ l, existsb (too_long c ((k0 :: f) ++ [k])) l = existsb (too_long c (k0 :: f)) l) as H; [|apply H].
  induction l as [|x l IH]; [done|]. cbn [existsb]. by rewrite IH, too_long_app.
Qed.

(** One check. *)
Lemma update_after c f k :
  Forall (λ k, 0 < started k) f → counts c k →
  update_connection_status (started k) (ended k) (answered k) (after f c) =
  if answered k then (after [] c, None)
  else (after (f ++ [k]) c, if too_long c (f ++ [k]) k then connection_to_abort c else None).
Proof.
  intros Hf [Hk1 Hk2]. unfold update_connection_status. cbn [active_context after negb start_monitor_time failure_detection_time].
  destruct (Z.ltb_spec (failure_detection_time c * 1000000) (ended k - start_monitor_time c)); [|lia].
  unfold set_connection_valid. destruct (answered k); [done|]. cbn [negb].
  set (c1 := if negb _ then _ else _).
  assert (c1 = Context (failure_detection_time c) (failure_detection_interval c) (failure_detection_count c) (node_keys c)
    (connection_to_abort c) (start_monitor_time c) (first_failure (f ++ [k])) (Z.of_nat (length (f ++ [k]))) (existsb (too_long c f) f) true) as ->.
  { unfold c1, increment_failure_count, is_invalid_node_start_time_defined, set_invalid_node_start_time, set_failure_count, after.
    cbn [invalid_node_start_time failure_count failure_detection_time failure_detection_interval failure_detection_count node_keys
      connection_to_abort start_monitor_time node_unhealthy active_context].
    rewrite length_app. simpl length. replace (Z.of_nat (length f + 1)) with (Z.of_nat (length f) + 1) by lia.
    destruct f as [|k0 f]; [done|]. apply Forall_inv in Hf. simpl. by destruct (Z.ltb_spec 0 (started k0)); [|lia]. }
  cbn [invalid_node_start_time]. change (max_invalid_node_duration _) with (max_invalid_node_duration c).
  change (max_invalid_node_duration c <=? to_ms (ended k - first_failure (f ++ [k]))) with (too_long c (f ++ [k]) k).
  unfold after. rewrite existsb_app_long.
  destruct (too_long c (f ++ [k]) k); [rewrite orb_true_r|rewrite orb_false_r]; [|done].
  unfold abort_connection, set_node_unhealthy. simpl. by destruct (connection_to_abort c).
Qed.

Lemma checks_after c f l :
  Forall (λ k, 0 < started k) f → Forall (counts c) l → checks l (after f c) = (after (failing f l) c, closings c f l).
Proof.
  intros Hf Hl. revert f Hf. induction Hl as [|k l Hk Hl IH]; intros f Hf; [done|]. cbn [checks].
  rewrite update_after by done. cbn [failing closings]. destruct (answered k); [by rewrite IH|].
  rewrite IH; [|by apply Forall_app; split; [done|]; apply Forall_singleton; destruct Hk].
  destruct (too_long c (f ++ [k]) k); [|done]. by destruct (connection_to_abort c).
Qed.

(** C15: After any series of status checks that end past the grace period, an
    active context has counted the failures since the last answered check,
    remembers when the first of these started, and holds the node for dead
    exactly if one of these checks ended the failure detection interval times
    the count (at least 0) later; the socket of the connection was closed once
    for every check with that verdict, and for no other.  The number of
    failures takes no part in the verdict, although
    docs/using-the-aws-driver/HostMonitoring.md says that a node is unhealthy
    when the counter reaches FAILURE_DETECTION_COUNT: in the witness two
    failures, the second of them slow, are enough for a count of three. *)
Theorem checks_spec conn keys time interval count start l :
  let c := set_start_monitor_time start (new_context conn keys time interval count) in
  Forall (counts c) l →
  let c' := (checks l c).1 in
  failure_count c' = Z.of_nat (length (failing [] l)) ∧
  invalid_node_start_time c' = first_failure (failing [] l) ∧
  node_unhealthy c' = existsb (λ k, interval * Z.max 0 count <=? to_ms (ended k - first_failure (failing [] l))) (failing [] l) ∧
  (checks l c).2 = closings c [] l.
Proof.
  intros c Hl. assert (c = after [] c) as E by done.
  assert (checks l c = (after (failing [] l) c, closings c [] l)) as -> by (rewrite E at 1; by apply checks_after). done.
Qed.

Lemma checks_spec_witness :
  let ms n := n * 1000000 in
  let c := set_start_monitor_time (ms 1) (new_context (Some 7%positive) [] 30 10 3) in
  let l := [Check (ms 40) (ms 41) false; Check (ms 50) (ms 51) true; Check (ms 60) (ms 61) false; Check (ms 70) (ms 95) false] in
  node_unhealthy (checks l c).1 = true ∧ failure_count (checks l c).1 = 2 ∧ (checks l c).2 = [7%positive].
Proof.
  intros ms c l. assert (Forall (counts c) l) as Hl by (apply (bool_decide_unpack _); by vm_compute).
  destruct (checks_spec (Some 7%positive) [] 30 10 3 (ms 1) l Hl) as (H1 & _ & H3 & H4).
  split; [etrans; [exact H3|]; by vm_compute|]. split; [etrans; [exact H1|]; by vm_compute|]. etrans; [exact H4|]. by vm_compute.
Defined.

(** Checks that end inside the grace period, and checks of an
    invalidated context, change nothing and close no socket. *)
Theorem checks_ignored l c :
  active_context c = false ∨ Forall (λ k, ended k ≤ start_monitor_time c + failure_detection_time c * 1000000) l →
  checks l c = (c, []).
Proof.
  intros H. induction l as [|k l IH]; [done|]. cbn [checks].
  assert (update_connection_status (started k) (ended k) (answered k) c = (c, None)) as ->.
  { unfold update_connection_status. destruct H as [->|H]; [done|]. destruct (active_context c); [|done]. cbn [negb].
    apply Forall_inv in H. destruct (Z.ltb_spec (failure_detection_time c * 1000000) (ended k - start_monitor_time c)); [lia|done]. }
  rewrite IH; [done|]. destruct H as [H|H]; [by left|right]. by apply Forall_inv_tail in H.
Qed.

Lemma checks_ignored_witness :
  let c := set_start_monitor_time 1000000 (new_context (Some 7%positive) [] 30 10 3) in
  checks [Check 2000000 3000000 false] c = (c, []) ∧ checks [Check 2000000 90000000 false] (invalidate c) = (invalidate c, []).
Proof.
  intros c. split; apply checks_ignored; [right|left]; [apply (bool_decide_unpack _); by vm_compute|reflexivity].
Defined.
