(* ===== verification/Monitor.v ===== *)
(** Enhanced failure monitoring: the monitors of the hosts, [MONITOR]
    (src/driver/monitor.cc), the container of monitors and their threads,
    [MONITOR_THREAD_CONTAINER] (src/driver/monitor_thread_container.cc), and
    [MONITOR_SERVICE] (src/driver/monitor_service.cc).

    Monitors and contexts are shared objects and live in the heaps of the
    state; the maps of the singleton container are fields of it.  The calls that
    start, stop and clear monitoring change the interval of a monitor outside
    its lock, so that they are step functions ([op_step]), composed by the
    calls and interleaved by [efm_step]; so is the thread of a monitor
    ([run_step]), a turn of whose loop is one step.  The other operations take
    the locks of the container and are atomic.  The thread pool is not part of
    the sources: its count of idle threads is a parameter. *)

From S2P Require Import Prelude CppString HostInfo MonitorContext.

Local Open Scope Z_scope.

Abbreviation loc := positive.

(** ** State *)

(** The options a monitor sets before it connects. *)
Record monitor_options := MonitorOptions {
  mo_ENABLE_CLUSTER_FAILOVER : bool;
  mo_CONNECT_TIMEOUT : Z;
  mo_NETWORK_TIMEOUT : Z;
  mo_READTIMEOUT : Z;
  mo_WRITETIMEOUT : Z;
  mo_ENABLE_FAILURE_DETECTION : bool
}.

(** [src/driver/monitor.h:80-92] MONITOR

    [connection_proxy] is null, or a connection with the answer of its
    [is_connected]; times are nanoseconds, intervals milliseconds. *)
Record MONITOR := Monitor {
  host : HOST_INFO;
  connection_check_interval : Z;
  failure_detection_timeout : Z;
  disposal_time : Z;
  ds : monitor_options;
  connection_proxy : option bool;
  contexts : list loc;
  last_context_timestamp : Z;
  stopped : bool
}.

(** [src/driver/monitor_thread_container.h:77-84] MONITOR_THREAD_CONTAINER

    [task_map] has the monitors with a task, [runs] the tasks handed to the
    pool, [closed] the connections whose sockets were closed. *)
Record efm := Efm {
  e_contexts : gmap loc MONITOR_CONNECTION_CONTEXT;
  e_monitors : gmap loc MONITOR;
  monitor_map : gmap str loc;
  task_map : gset loc;
  available_monitors : list loc;
  pool_size : Z;
  runs : list loc;
  closed : list positive;
  clock : nat → Z;
  ticks : nat
}.

Definition set_contexts (x : gmap loc MONITOR_CONNECTION_CONTEXT) (e : efm) : efm :=
  Efm x (e_monitors e) (monitor_map e) (task_map e) (available_monitors e) (pool_size e) (runs e) (closed e) (clock e) (ticks e).
Definition set_monitors (x : gmap loc MONITOR) (e : efm) : efm :=
  Efm (e_contexts e) x (monitor_map e) (task_map e) (available_monitors e) (pool_size e) (runs e) (closed e) (clock e) (ticks e).
Definition set_map (x : gmap str loc) (e : efm) : efm :=
  Efm (e_contexts e) (e_monitors e) x (task_map e) (available_monitors e) (pool_size e) (runs e) (closed e) (clock e) (ticks e).
Definition set_tasks (x : gset loc) (e : efm) : efm :=
  Efm (e_contexts e) (e_monitors e) (monitor_map e) x (available_monitors e) (pool_size e) (runs e) (closed e) (clock e) (ticks e).
Definition set_available (x : list loc) (e : efm) : efm :=
  Efm (e_contexts e) (e_monitors e) (monitor_map e) (task_map e) x (pool_size e) (runs e) (closed e) (clock e) (ticks e).
Definition set_pool (n : Z) (r : list loc) (e : efm) : efm :=
  Efm (e_contexts e) (e_monitors e) (monitor_map e) (task_map e) (available_monitors e) n r (closed e) (clock e) (ticks e).
Definition set_closed (x : list positive) (e : efm) : efm :=
  Efm (e_contexts e) (e_monitors e) (monitor_map e) (task_map e) (available_monitors e) (pool_size e) (runs e) x (clock e) (ticks e).
Definition set_ticks (n : nat) (e : efm) : efm :=
  Efm (e_contexts e) (e_monitors e) (monitor_map e) (task_map e) (available_monitors e) (pool_size e) (runs e) (closed e) (clock e) n.

(** Field updates of a monitor. *)
Definition with_contexts (l : list loc) (m : MONITOR) : MONITOR :=
  Monitor (host m) (connection_check_interval m) (failure_detection_timeout m) (disposal_time m) (ds m) (connection_proxy m) l
    (last_context_timestamp m) (stopped m).
Definition with_interval (i : Z) (m : MONITOR) : MONITOR :=
  Monitor (host m) i (failure_detection_timeout m) (disposal_time m) (ds m) (connection_proxy m) (contexts m)
    (last_context_timestamp m) (stopped m).
Definition with_timestamp (t : Z) (m : MONITOR) : MONITOR :=
  Monitor (host m) (connection_check_interval m) (failure_detection_timeout m) (disposal_time m) (ds m) (connection_proxy m) (contexts m)
    t (stopped m).
Definition with_stopped (b : bool) (m : MONITOR) : MONITOR :=
  Monitor (host m) (connection_check_interval m) (failure_detection_timeout m) (disposal_time m) (ds m) (connection_proxy m) (contexts m)
    (last_context_timestamp m) b.
Definition with_connection (o : option bool) (d : monitor_options) (m : MONITOR) : MONITOR :=
  Monitor (host m) (connection_check_interval m) (failure_detection_timeout m) (disposal_time m) d o (contexts m)
    (last_context_timestamp m) (stopped m).

(** Access to the two heaps, and the clock. *)
Definition get_mon (m : loc) : M efm MONITOR := λ e, (match e_monitors e !! m with Some x => Ok x | None => UB end, e).
Definition put_mon (m : loc) (f : MONITOR → MONITOR) : M efm unit :=
  x ← get_mon m; modify (λ e, set_monitors (<[m := f x]> (e_monitors e)) e).
Definition get_ctx (c : loc) : M efm MONITOR_CONNECTION_CONTEXT := λ e, (match e_contexts e !! c with Some x => Ok x | None => UB end, e).
Definition put_ctx (c : loc) (f : MONITOR_CONNECTION_CONTEXT → MONITOR_CONNECTION_CONTEXT) : M efm unit :=
  x ← get_ctx c; modify (λ e, set_contexts (<[c := f x]> (e_contexts e)) e).

(** [src/driver/monitor.cc:262-264] MONITOR::get_current_time *)
Definition get_current_time : M efm Z := λ e, (Ok (clock e (ticks e)), set_ticks (S (ticks e)) e).

(** ** MONITOR *)

(** [milliseconds::max()]. *)
Definition max_ms : Z := int64_max.

(** [src/driver/monitor.cc:54-73] MONITOR::MONITOR *)
Definition new_monitor (h : HOST_INFO) (timeout disposal : Z) (d : monitor_options) (proxy : option bool) : MONITOR :=
  Monitor h max_ms timeout disposal d proxy [] 0 true.

(** The intervals of the contexts. *)
Fixpoint shortest (l : list loc) (min : Z) : M efm Z :=
  match l with
  | [] => mret min
  | c :: l' => x ← get_ctx c; shortest l' (if failure_detection_interval x <? min then failure_detection_interval x else min)
  end.

(** [src/driver/monitor.cc:242-260] MONITOR::find_shortest_interval *)
Definition find_shortest_interval (m : loc) : M efm Z := x ← get_mon m; shortest (contexts x) max_ms.

(** The points of a call of [start_monitoring], [stop_monitoring] or
    [clear_contexts] of a monitor: what it does next, outside the lock or under
    it. *)
Inductive op_pc :=
  | StartCompare (context : loc)                  (** before the interval of the monitor is looked at *)
  | StartSet (context : loc) (interval : Z)       (** before it is assigned *)
  | StartStamp (context : loc)                    (** before the times are set *)
  | StartPush (context : loc)                     (** before the lock of [push_back] *)
  | StopInvalidate (context : loc)                (** before [invalidate] *)
  | StopRemove (context : loc)                    (** before the lock of [remove] *)
  | StopFind                                      (** before [find_shortest_interval] *)
  | StopSet (interval : Z)                        (** before its result is assigned *)
  | ClearContexts                                 (** before the lock of [clear] *)
  | ClearInterval                                 (** before the interval is assigned *)
  | OpDone.

(** [src/driver/monitor.cc:88-137] MONITOR::start_monitoring, stop_monitoring, clear_contexts

    One step of a call; other threads run between the steps. *)
Definition op_step (m : loc) (pc : op_pc) : M efm op_pc :=
  match pc with
  | StartCompare context =>
    c ← get_ctx context; x ← get_mon m;
    let detection_interval := failure_detection_interval c in
    mret (if detection_interval <? connection_check_interval x then StartSet context detection_interval else StartStamp context)
  | StartSet context i => put_mon m (with_interval i);; mret (StartStamp context)
  | StartStamp context =>
    current_time ← get_current_time;
    put_ctx context (set_start_monitor_time current_time);;
    put_mon m (with_timestamp current_time);;
    mret (StartPush context)
  | StartPush context => put_mon m (λ x, with_contexts (contexts x ++ [context]) x);; mret OpDone
  | StopInvalidate c => put_ctx c invalidate;; mret (StopRemove c)
  | StopRemove c => put_mon m (λ x, with_contexts (filter (λ y, y ≠ c) (contexts x)) x);; mret StopFind
  | StopFind => i ← find_shortest_interval m; mret (StopSet i)
  | StopSet i => put_mon m (with_interval i);; mret OpDone
  | ClearContexts => put_mon m (with_contexts []);; mret ClearInterval
  | ClearInterval => put_mon m (with_interval max_ms);; mret OpDone
  | OpDone => mret OpDone
  end.

(** A call that runs alone, of at most [n] steps. *)
Fixpoint op_run (m : loc) (n : nat) (pc : op_pc) : M efm unit :=
  match n with
  | O => mret tt
  | S n => pc' ← op_step m pc; op_run m n pc'
  end.

(** [src/driver/monitor.cc:88-102] MONITOR::start_monitoring *)
Definition m_start_monitoring (m context : loc) : M efm unit := op_run m 4 (StartCompare context).

(** [src/driver/monitor.cc:104-120] MONITOR::stop_monitoring *)
Definition m_stop_monitoring (m : loc) (context : option loc) : M efm unit :=
  match context with
  | None => mret tt
  | Some c => op_run m 4 (StopInvalidate c)
  end.

(** [src/driver/monitor.cc:122-128] MONITOR::is_stopped, stop *)
Definition is_stopped (m : loc) : M efm bool := x ← get_mon m; mret (stopped x).
Definition stop (m : loc) : M efm unit := put_mon m (with_stopped true).

(** [src/driver/monitor.cc:130-137] MONITOR::clear_contexts *)
Definition clear_contexts (m : loc) : M efm unit := op_run m 2 ClearContexts.

(** [src/driver/monitor.cc:185-192] MONITOR::get_connection_check_interval *)
Definition get_connection_check_interval (m : loc) : M efm Z :=
  x ← get_mon m; mret (match contexts x with [] => 0 | _ => connection_check_interval x end).

(** What the network answers: the connection [CONNECTION_HANDLER::connect]
    returns, and the result of [ping]. *)
Record network := Network { net_connect : option bool; net_ping : Z }.

(** [src/driver/monitor.h:51-51] failure_detection_timeout_default *)
Definition failure_detection_timeout_default : Z := 5.

(** [src/driver/monitor.cc:214-240] MONITOR::connect *)
Definition connect (m : loc) (n : network) : M efm bool :=
  put_mon m (λ x,
    let timeout_sec := if failure_detection_timeout x =? 0 then failure_detection_timeout_default
                       else to_uint32 (failure_detection_timeout x) in
    let d := ds x in
    with_connection (net_connect n)
      (if mo_ENABLE_CLUSTER_FAILOVER d
       then MonitorOptions true timeout_sec timeout_sec (mo_READTIMEOUT d) (mo_WRITETIMEOUT d) false
       else MonitorOptions false (mo_CONNECT_TIMEOUT d) (mo_NETWORK_TIMEOUT d) timeout_sec timeout_sec false) x);;
  mret (match net_connect n with Some b => b | None => false end).

(** [src/driver/monitor.cc:194-212] MONITOR::check_connection_status

    The validity, and the elapsed milliseconds. *)
Definition check_connection_status (m : loc) (n : network) : M efm (bool * Z) :=
  x ← get_mon m;
  match connection_proxy x with
  | Some true =>
    start ← get_current_time;
    finish ← get_current_time;
    mret (net_ping n =? 0, to_ms (finish - start))
  | _ =>
    start ← get_current_time;
    connected ← connect m n;
    finish ← get_current_time;
    mret (connected, to_ms (finish - start))
  end.

(** The loop over the contexts. *)
Fixpoint update_contexts (l : list loc) (start finish : Z) (valid : bool) : M efm unit :=
  match l with
  | [] => mret tt
  | c :: l' =>
    x ← get_ctx c;
    let '(x', o) := update_connection_status start finish valid x in
    modify (λ e, set_contexts (<[c := x']> (e_contexts e)) e);;
    (match o with Some p => modify (λ e, set_closed (closed e ++ [p]) e) | None => mret tt end);;
    update_contexts l' start finish valid
  end.

(** What an iteration of [run] ends with. *)
Inductive iteration := Stopped | Disposed | Slept (ms : Z).

(** [src/driver/monitor.h:50-50] thread_sleep_when_inactive *)
Definition thread_sleep_when_inactive : Z := 100.

(** [src/driver/monitor.cc:142-178] MONITOR::run

    One turn of the loop: its condition, and the body. *)
Definition run_iteration (m : loc) (n : network) : M efm iteration :=
  s ← is_stopped m;
  if s : bool then mret Stopped else
  x ← get_mon m;
  match contexts x with
  | _ :: _ =>
    status_check_start_time ← get_current_time;
    put_mon m (with_timestamp status_check_start_time);;
    status ← check_connection_status m n;
    x ← get_mon m;
    update_contexts (contexts x) status_check_start_time (status_check_start_time + status.2 * 1000000) status.1;;
    check_interval ← get_connection_check_interval m;
    mret (Slept (Z.max 0 (check_interval - status.2)))
  | [] =>
    now ← get_current_time;
    x ← get_mon m;
    if disposal_time x <=? to_ms (now - last_context_timestamp x) then mret Disposed
    else mret (Slept thread_sleep_when_inactive)
  end.

(** ** MONITOR_THREAD_CONTAINER *)

(** [src/driver/monitor_thread_container.cc:56-68] MONITOR_THREAD_CONTAINER::get_node *)
Fixpoint first_mapped (map : gmap str loc) (keys : list str) : option str :=
  match keys with
  | [] => None
  | k :: keys' => match map !! k with Some _ => Some k | None => first_mapped map keys' end
  end.

(** [src/driver/monitor_thread_container.cc:56-68] MONITOR_THREAD_CONTAINER::get_node

    The empty text for no node. *)
Definition get_node (keys : list str) : M efm str := gets (λ e, default [] (first_mapped (monitor_map e) keys)).

(** [src/driver/monitor_thread_container.cc:70-73] MONITOR_THREAD_CONTAINER::get_monitor *)
Definition get_monitor (node : str) : M efm (option loc) := gets (λ e, monitor_map e !! node).

(** [src/driver/monitor_thread_container.cc:147-154] MONITOR_THREAD_CONTAINER::populate_monitor_map

    The monitor may be null: [monitor_map] then maps to null, which the model
    does not represent; [create_monitor] below never returns null here. *)
Definition populate_monitor_map (keys : list str) (m : loc) : M efm unit :=
  modify (λ e, set_map (foldl (λ map k, <[k := m]> map) (monitor_map e) keys) e).

(** [src/driver/monitor_thread_container.cc:156-167] MONITOR_THREAD_CONTAINER::remove_monitor_mapping *)
Definition remove_monitor_mapping (m : loc) : M efm unit :=
  modify (λ e, set_map (filter (λ kv, kv.2 ≠ m) (monitor_map e)) e).

(** [src/driver/monitor_thread_container.cc:169-187] MONITOR_THREAD_CONTAINER::get_available_monitor *)
Definition get_available_monitor : M efm (option loc) :=
  l ← gets available_monitors;
  match l with
  | [] => mret None
  | m :: l' =>
    modify (set_available l');;
    s ← is_stopped m;
    if negb s then mret (Some m) else
    tasks ← gets task_map;
    (if bool_decide (m ∈ tasks) then stop m;; modify (λ e, set_tasks (task_map e ∖ {[m]}) e) else mret tt);;
    mret None
  end.

(** [src/driver/monitor_thread_container.cc:189-202] MONITOR_THREAD_CONTAINER::create_monitor

    With a connection handler. *)
Definition create_monitor (h : HOST_INFO) (timeout disposal : Z) (d : monitor_options) : M efm loc := λ e,
  let p := fresh (dom (e_monitors e)) in
  (Ok p, set_monitors (<[p := new_monitor h timeout disposal d None]> (e_monitors e)) e).

(** [src/driver/monitor_thread_container.cc:75-102] MONITOR_THREAD_CONTAINER::get_or_create_monitor *)
Definition get_or_create_monitor (keys : list str) (h : HOST_INFO) (timeout disposal : Z) (d : monitor_options) : M efm loc :=
  node ← get_node keys;
  m ← (if negb (bool_decide (node = [])) then m ← get_monitor node; deref m
       else
         a ← get_available_monitor;
         match a with Some m => mret m | None => create_monitor h timeout disposal d end);
  populate_monitor_map keys m;;
  mret m.

(** [src/driver/monitor_thread_container.cc:104-115] MONITOR_THREAD_CONTAINER::add_task

    The service is not null. *)
Definition add_task (m : option loc) : M efm unit :=
  match m with
  | None => throw (invalid_argument "Invalid parameters passed into MONITOR_THREAD_CONTAINER::add_task()")
  | Some m =>
    tasks ← gets task_map;
    if bool_decide (m ∈ tasks) then mret tt else
    modify (λ e, set_pool (pool_size e + 1) (runs e ++ [m]) e);;
    modify (λ e, set_tasks (task_map e ∪ {[m]}) e)
  end.

(** [src/driver/monitor_thread_container.cc:117-126] MONITOR_THREAD_CONTAINER::reset_resource *)
Definition reset_resource (m : option loc) : M efm unit :=
  match m with
  | None => mret tt
  | Some m => remove_monitor_mapping m;; modify (λ e, set_available (available_monitors e ++ [m]) e)
  end.

Section Pool.
(** The idle threads of the pool. *)
Context (n_idle : efm → Z).

(** [src/driver/monitor_thread_container.cc:128-145] MONITOR_THREAD_CONTAINER::release_resource *)
Definition release_resource (m : option loc) : M efm unit :=
  match m with
  | None => mret tt
  | Some m =>
    remove_monitor_mapping m;;
    modify (λ e, set_tasks (task_map e ∖ {[m]}) e);;
    idle ← gets n_idle;
    if 0 <? idle then modify (λ e, set_pool (pool_size e - 1) (runs e) e) else mret tt
  end.

(** [src/driver/monitor_service.cc:137-147] MONITOR_SERVICE::notify_unused *)
Definition notify_unused (m : option loc) : M efm unit := release_resource m.

(** [src/driver/monitor.cc:140-183] MONITOR::run

    The thread of a monitor: before the loop, in it, before [notify_unused],
    before the last assignment, ended. *)
Inductive run_pc := RunStart | RunLoop | RunNotify | RunEnd | RunDone.

(** [src/driver/monitor.cc:140-183] MONITOR::run *)
Definition run_step (m : loc) (n : network) (pc : run_pc) : M efm run_pc :=
  match pc with
  | RunStart => put_mon m (with_stopped false);; mret RunLoop
  | RunLoop => i ← run_iteration m n; mret (match i with Slept _ => RunLoop | _ => RunNotify end)
  | RunNotify => notify_unused (Some m);; mret RunEnd
  | RunEnd => put_mon m (with_stopped true);; mret RunDone
  | RunDone => mret RunDone
  end.
End Pool.

(** [src/driver/monitor_thread_container.cc:204-232] MONITOR_THREAD_CONTAINER::release_resources

    Between stopping the monitors and clearing the maps the code waits for
    the threads of the pool; [wait] is what they do meanwhile. *)
Definition release_resources (wait : efm → efm) : M efm unit :=
  tasks ← gets task_map;
  mapM_ stop (elements tasks);;
  modify wait;;
  modify (set_map ∅);;
  modify (set_tasks ∅);;
  modify (set_available []).

(** ** MONITOR_SERVICE *)

(** [std::make_shared] of a context. *)
Definition make_context (x : MONITOR_CONNECTION_CONTEXT) : M efm loc := λ e,
  let p := fresh (dom (e_contexts e)) in (Ok p, set_contexts (<[p := x]> (e_contexts e)) e).

(** [src/driver/monitor_service.cc:48-94] MONITOR_SERVICE::start_monitoring

    [dbc] is the connection, [None] for null; [has_ds] tells whether the data
    source is set. *)
Definition start_monitoring (dbc : option positive) (has_ds : bool) (keys : list str) (h : HOST_INFO)
    (time timeout interval count disposal : Z) (d : monitor_options) : M efm loc :=
  match dbc with
  | None => throw (invalid_argument "[MONITOR_SERVICE] Parameter dbc or ds cannot be null")
  | Some c =>
    if negb has_ds then throw (invalid_argument "[MONITOR_SERVICE] Parameter dbc or ds cannot be null") else
    match keys with
    | [] => throw (invalid_argument "[MONITOR_SERVICE] Parameter node_keys cannot be empty")
    | _ =>
      m ← get_or_create_monitor keys h timeout disposal d;
      context ← make_context (new_context (Some c) keys time interval count);
      m_start_monitoring m context;;
      add_task (Some m);;
      mret context
    end
  end.

(** [src/driver/monitor_service.cc:96-118] MONITOR_SERVICE::stop_monitoring *)
Definition stop_monitoring (context : option loc) : M efm unit :=
  match context with
  | None => mret tt
  | Some c =>
    put_ctx c invalidate;;
    x ← get_ctx c;
    node ← get_node (node_keys x);
    if bool_decide (node = []) then mret tt else
    m ← get_monitor node;
    match m with Some m => m_stop_monitoring m (Some c) | None => mret tt end
  end.

(** [src/driver/monitor_service.cc:120-135] MONITOR_SERVICE::stop_monitoring_for_all_connections *)
Definition stop_monitoring_for_all_connections (keys : list str) : M efm unit :=
  node ← get_node keys;
  if bool_decide (node = []) then mret tt else
  m ← get_monitor node;
  match m with Some m => clear_contexts m;; reset_resource (Some m) | None => mret tt end.

(** ** Running the operations *)

Lemma get_mon_bind {A} m x (k : MONITOR → M efm A) e :
  e_monitors e !! m = Some x → (get_mon m ≫= k) e = k x e.
Proof. intros Hm. apply bind_Ok. unfold get_mon. by rewrite Hm. Qed.

Lemma put_mon_bind {A} m x f (k : unit → M efm A) e :
  e_monitors e !! m = Some x → (put_mon m f ≫= k) e = k tt (set_monitors (<[m := f x]> (e_monitors e)) e).
Proof. intros Hm. unfold put_mon. by rewrite bind_assoc, (get_mon_bind m x). Qed.

Lemma put_mon_run m x f e : e_monitors e !! m = Some x → put_mon m f e = (Ok tt, set_monitors (<[m := f x]> (e_monitors e)) e).
Proof. intros Hm. unfold put_mon. by rewrite (get_mon_bind m x). Qed.

Lemma get_ctx_bind {A} c x (k : MONITOR_CONNECTION_CONTEXT → M efm A) e :
  e_contexts e !! c = Some x → (get_ctx c ≫= k) e = k x e.
Proof. intros Hm. apply bind_Ok. unfold get_ctx. by rewrite Hm. Qed.

Lemma put_ctx_bind {A} c x f (k : unit → M efm A) e :
  e_contexts e !! c = Some x → (put_ctx c f ≫= k) e = k tt (set_contexts (<[c := f x]> (e_contexts e)) e).
Proof. intros Hm. unfold put_ctx. by rewrite bind_assoc, (get_ctx_bind c x). Qed.

Lemma get_time_bind {A} (k : Z → M efm A) e : (get_current_time ≫= k) e = k (clock e (ticks e)) (set_ticks (S (ticks e)) e).
Proof. done. Qed.

(** The smallest interval of the contexts at some locations. *)
Definition min_interval (cs : gmap loc MONITOR_CONNECTION_CONTEXT) (l : list loc) : Z :=
  foldr (λ c i, match cs !! c with Some x => Z.min (failure_detection_interval x) i | None => i end) max_ms l.

Lemma min_interval_le cs l : min_interval cs l ≤ max_ms.
Proof. unfold min_interval. induction l as [|d l IH]; simpl; [done|]. destruct (cs !! d); lia. Qed.

Definition all_contexts (cs : gmap loc MONITOR_CONNECTION_CONTEXT) (l : list loc) : Prop := Forall (λ c, is_Some (cs !! c)) l.

Lemma min_interval_snoc cs l c x :
  cs !! c = Some x → min_interval cs (l ++ [c]) = Z.min (failure_detection_interval x) (min_interval cs l).
Proof.
  intros Hc. unfold min_interval. induction l as [|d l IH]; simpl; [by rewrite Hc|]. rewrite IH. destruct (cs !! d); lia.
Qed.

Lemma shortest_run e l i :
  all_contexts (e_contexts e) l → i ≤ max_ms → shortest l i e = (Ok (Z.min i (min_interval (e_contexts e) l)), e).
Proof.
  revert i. induction l as [|c l IH]; intros i Hl Hi; cbn [shortest]; [unfold min_interval; simpl; by rewrite Z.min_l|].
  apply Forall_cons in Hl as [[x Hx] Hl]. rewrite (get_ctx_bind c x) by done.
  rewrite IH; [|done|destruct (Z.ltb_spec (failure_detection_interval x) i); lia]. f_equal. f_equal.
  unfold min_interval. simpl. rewrite Hx. destruct (Z.ltb_spec (failure_detection_interval x) i); lia.
Qed.

(** The interval a check waits depends only on the intervals of the contexts. *)
Lemma min_interval_update cs c x x' l :
  cs !! c = Some x → failure_detection_interval x' = failure_detection_interval x →
  min_interval (<[c := x']> cs) l = min_interval cs l.
Proof.
  intros Hc Hx. unfold min_interval. induction l as [|d l IH]; simpl; [done|]. rewrite IH.
  destruct (decide (d = c)) as [->|Hne]; [by rewrite lookup_insert_eq, Hc, Hx|by rewrite lookup_insert_ne].
Qed.

Lemma min_interval_fresh cs c x l : all_contexts cs l → cs !! c = None → min_interval (<[c := x]> cs) l = min_interval cs l.
Proof.
  intros Hl Hc. unfold min_interval. induction Hl as [|d l [y Hd] Hl IH]; simpl; [done|]. rewrite IH.
  destruct (decide (d = c)) as [->|Hne]; [congruence|by rewrite lookup_insert_ne].
Qed.

Lemma all_contexts_insert cs c x l : all_contexts cs l → all_contexts (<[c := x]> cs) l.
Proof.
  intros Hl. eapply Forall_impl; [exact Hl|]. intros d [y Hd]. destruct (decide (d = c)) as [->|]; [rewrite lookup_insert_eq|rewrite lookup_insert_ne by done]; eauto.
Qed.

(** The contexts of a monitor exist, and its interval is the smallest of theirs. *)
Definition monitor_ok (cs : gmap loc MONITOR_CONNECTION_CONTEXT) (x : MONITOR) : Prop :=
  all_contexts cs (contexts x) ∧ connection_check_interval x = min_interval cs (contexts x).
Definition monitors_ok (e : efm) : Prop := map_Forall (λ _, monitor_ok (e_contexts e)) (e_monitors e).

Lemma monitor_ok_update cs c x x' m :
  cs !! c = Some x → failure_detection_interval x' = failure_detection_interval x → monitor_ok cs m → monitor_ok (<[c := x']> cs) m.
Proof.
  intros Hc Hx [Hl Hi]. split; [by apply all_contexts_insert|]. by rewrite (min_interval_update _ _ x).
Qed.

Lemma monitors_ok_ctx e c x x' :
  e_contexts e !! c = Some x → failure_detection_interval x' = failure_detection_interval x →
  monitors_ok e → monitors_ok (set_contexts (<[c := x']> (e_contexts e)) e).
Proof. intros Hc Hx He m y Hm. simpl in *. eapply monitor_ok_update; [done..|]. by eapply He. Qed.

Lemma monitors_ok_mon e m x : monitor_ok (e_contexts e) x → monitors_ok e → monitors_ok (set_monitors (<[m := x]> (e_monitors e)) e).
Proof. intros Hx He. by apply map_Forall_insert_2. Qed.

Lemma monitors_ok_put e m f :
  (∀ x, contexts (f x) = contexts x ∧ connection_check_interval (f x) = connection_check_interval x) →
  monitors_ok e → monitors_ok (put_mon m f e).2.
Proof.
  intros Hf He. destruct (e_monitors e !! m) as [x|] eqn:Hm.
  - rewrite (put_mon_run m x) by done. apply monitors_ok_mon; [|done]. destruct (Hf x) as [H1 H2]. destruct (He m x Hm) as [H3 H4].
    split; [by rewrite H1|]. by rewrite H2, H1.
  - unfold put_mon, mbind, M_bind, get_mon. by rewrite Hm.
Qed.

(** Calls that leave monitors and contexts alone. *)
Lemma monitors_ok_same {A} (m : M efm A) :
  (∀ e, e_monitors (m e).2 = e_monitors e ∧ e_contexts (m e).2 = e_contexts e) → preserves monitors_ok m.
Proof. intros H e He. destruct (H e) as [H1 H2]. unfold monitors_ok. by rewrite H1, H2. Qed.

Lemma ok_get_mon m : preserves monitors_ok (get_mon m).
Proof. by intros e He. Qed.
Lemma ok_get_ctx c : preserves monitors_ok (get_ctx c).
Proof. by intros e He. Qed.
Lemma ok_put_ctx c f :
  (∀ x, failure_detection_interval (f x) = failure_detection_interval x) → preserves monitors_ok (put_ctx c f).
Proof.
  intros Hf e He. unfold put_ctx, mbind, M_bind, get_ctx. destruct (e_contexts e !! c) as [x|] eqn:Hc; [|done].
  eapply monitors_ok_ctx; [exact Hc|apply Hf|done].
Qed.
Lemma ok_put_mon m f :
  (∀ x, contexts (f x) = contexts x ∧ connection_check_interval (f x) = connection_check_interval x) →
  preserves monitors_ok (put_mon m f).
Proof. intros Hf e He. by apply monitors_ok_put. Qed.
Lemma ok_time : preserves monitors_ok get_current_time.
Proof. by intros e He. Qed.
#[export] Hint Resolve ok_get_mon ok_get_ctx ok_time : odbc.

Lemma m_start_run m c x cx e :
  e_monitors e !! m = Some x → e_contexts e !! c = Some cx →
  let now := clock e (ticks e) in
  let x' := if failure_detection_interval cx <? connection_check_interval x then with_interval (failure_detection_interval cx) x else x in
  m_start_monitoring m c e = (Ok tt, set_monitors (<[m := with_contexts (contexts x ++ [c]) (with_timestamp now x')]> (e_monitors e))
    (set_contexts (<[c := set_start_monitor_time now cx]> (e_contexts e)) (set_ticks (S (ticks e)) e))).
Proof.
  intros Hm Hc now x'. unfold m_start_monitoring. cbn [op_run op_step].
  rewrite bind_assoc, (get_ctx_bind c cx), bind_assoc, (get_mon_bind m x), ret_bind by done. subst x'.
  destruct (failure_detection_interval cx <? connection_check_interval x); cbn [op_step].
  - rewrite bind_assoc, (put_mon_bind m x), ret_bind by done. cbn [op_step].
    rewrite bind_assoc, get_time_bind, bind_assoc, (put_ctx_bind c cx), bind_assoc by done.
    erewrite put_mon_bind by apply lookup_insert_eq. rewrite ret_bind. cbn [op_step].
    rewrite bind_assoc. erewrite put_mon_bind by apply lookup_insert_eq. simpl. by rewrite !insert_insert_eq.
  - rewrite bind_assoc, get_time_bind, bind_assoc, (put_ctx_bind c cx), bind_assoc by done.
    erewrite put_mon_bind by done. rewrite ret_bind. cbn [op_step].
    rewrite bind_assoc. erewrite put_mon_bind by apply lookup_insert_eq. rewrite ret_bind. cbn [op_step].
    simpl. by rewrite !insert_insert_eq.
Qed.

Lemma ok_m_start m c : preserves monitors_ok (m_start_monitoring m c).
Proof.
  intros e He. destruct (e_contexts e !! c) as [cx|] eqn:Hc.
  2: { unfold m_start_monitoring. cbn [op_run op_step]. unfold mbind, M_bind, get_ctx. by rewrite Hc. }
  destruct (e_monitors e !! m) as [x|] eqn:Hm.
  2: { unfold m_start_monitoring. cbn [op_run op_step]. rewrite bind_assoc, (get_ctx_bind c cx) by done.
       unfold mbind, M_bind, get_mon. by rewrite Hm. }
  rewrite (m_start_run m c x cx) by done. unfold monitors_ok. apply map_Forall_insert_2.
  - destruct (He m x Hm) as [Hl Hi]. simpl. split.
    + simpl. apply Forall_app. split; [by apply all_contexts_insert|]. apply Forall_singleton. rewrite lookup_insert_eq. eauto.
    + simpl. erewrite min_interval_snoc by apply lookup_insert_eq. rewrite (min_interval_update _ _ cx) by done. simpl. rewrite <- Hi.
      destruct (Z.ltb_spec (failure_detection_interval cx) (connection_check_interval x)); simpl; lia.
  - intros m' y Hy. eapply monitor_ok_update; [exact Hc|done|by eapply He].
Qed.

Lemma m_stop_run m c x cx e :
  monitors_ok e → e_monitors e !! m = Some x → e_contexts e !! c = Some cx →
  let l := filter (λ y, y ≠ c) (contexts x) in
  m_stop_monitoring m (Some c) e = (Ok tt, set_monitors (<[m := with_interval (min_interval (e_contexts e) l) (with_contexts l x)]> (e_monitors e))
    (set_contexts (<[c := invalidate cx]> (e_contexts e)) e)).
Proof.
  intros He Hm Hc l. unfold m_stop_monitoring. cbn [op_run op_step].
  rewrite bind_assoc, (put_ctx_bind c cx), ret_bind by done. cbn [op_step].
  rewrite bind_assoc, (put_mon_bind m x), ret_bind by done. cbn [op_step]. fold l.
  unfold find_shortest_interval. rewrite !bind_assoc. erewrite get_mon_bind by apply lookup_insert_eq.
  assert (all_contexts (<[c := invalidate cx]> (e_contexts e)) l) as Hl.
  { apply all_contexts_insert, list.Forall_forall. intros y [_ Hy]%list_elem_of_filter.
    destruct (He m x Hm) as [Hl _]. by apply (proj1 (list.Forall_forall _ _) Hl). }
  cbn [contexts with_contexts]. match goal with |- context [(shortest l max_ms ≫= _) ?s] => set (e1 := s) end.
  rewrite (bind_Ok _ _ e1 _ e1 (shortest_run e1 l max_ms Hl ltac:(done))), ret_bind. cbn [op_step]. rewrite bind_assoc.
  erewrite put_mon_bind by apply lookup_insert_eq. rewrite ret_bind. simpl. rewrite insert_insert_eq, (min_interval_update _ _ cx) by done.
  rewrite Z.min_r by apply min_interval_le. done.
Qed.

Lemma ok_m_stop m c : preserves monitors_ok (m_stop_monitoring m c).
Proof.
  destruct c as [c|]; [|apply preserves_ret]. intros e He. destruct (e_contexts e !! c) as [cx|] eqn:Hc.
  2: { unfold m_stop_monitoring. cbn [op_run op_step]. unfold put_ctx, mbind, M_bind, get_ctx. by rewrite Hc. }
  destruct (e_monitors e !! m) as [x|] eqn:Hm.
  2: { unfold m_stop_monitoring. cbn [op_run op_step]. rewrite bind_assoc, (put_ctx_bind c cx), ret_bind by done. cbn [op_step].
       unfold put_mon, mbind, M_bind, get_mon. simpl. rewrite Hm.
       by apply (monitors_ok_ctx e c cx). }
  rewrite (m_stop_run m c x cx) by done. unfold monitors_ok. apply map_Forall_insert_2.
  - set (l := filter _ _). assert (all_contexts (e_contexts e) l) as Hl.
    { apply list.Forall_forall. intros y [_ Hy]%list_elem_of_filter. destruct (He m x Hm) as [Hl _]. by apply (proj1 (list.Forall_forall _ _) Hl). }
    split; simpl; [by apply all_contexts_insert|]. by rewrite (min_interval_update _ _ cx).
  - intros m' y Hy. eapply monitor_ok_update; [exact Hc|done|by eapply He].
Qed.

Lemma clear_run m x e :
  e_monitors e !! m = Some x →
  clear_contexts m e = (Ok tt, set_monitors (<[m := with_interval max_ms (with_contexts [] x)]> (e_monitors e)) e).
Proof.
  intros Hm. unfold clear_contexts. cbn [op_run op_step]. rewrite bind_assoc, (put_mon_bind m x), ret_bind by done.
  cbn [op_step]. rewrite bind_assoc. erewrite put_mon_bind by apply lookup_insert_eq. simpl. by rewrite insert_insert_eq.
Qed.

Lemma ok_clear_contexts m : preserves monitors_ok (clear_contexts m).
Proof.
  intros e He. destruct (e_monitors e !! m) as [x|] eqn:Hm.
  2: { unfold clear_contexts. cbn [op_run op_step]. unfold put_mon, mbind, M_bind, get_mon. by rewrite Hm. }
  rewrite (clear_run m x) by done.
  unfold monitors_ok. simpl. apply map_Forall_insert_2; [|done]. by split; [constructor|].
Qed.

Lemma update_keeps_interval start finish valid x :
  failure_detection_interval (update_connection_status start finish valid x).1 = failure_detection_interval x.
Proof.
  unfold update_connection_status, set_connection_valid. destruct (active_context x); [|done]. cbn [negb].
  destruct (_ <? _); [|done]. destruct valid; [done|]. cbn [negb]. set (y := if negb (is_invalid_node_start_time_defined _) then _ else _).
  assert (failure_detection_interval y = failure_detection_interval x) as <- by (unfold y; by destruct (negb _)).
  by destruct (max_invalid_node_duration y <=? _).
Qed.

Lemma ok_update_contexts l start finish valid : preserves monitors_ok (update_contexts l start finish valid).
Proof.
  induction l as [|c l IH]; cbn [update_contexts]; [apply preserves_ret|].
  intros e He. destruct (e_contexts e !! c) as [x|] eqn:Hc.
  2: { unfold mbind, M_bind, get_ctx. by rewrite Hc. }
  rewrite (get_ctx_bind c x) by done. pose proof (update_keeps_interval start finish valid x) as Hi.
  destruct (update_connection_status start finish valid x) as [x' o]. rewrite modify_bind.
  eapply preserves_bind; [|intros _; exact IH|by apply (monitors_ok_ctx e c x x')].
  destruct o; [|apply preserves_ret]. by apply preserves_modify.
Qed.

Lemma ok_connect m n : preserves monitors_ok (connect m n).
Proof. unfold connect. apply preserves_bind; [by apply ok_put_mon|intros _; apply preserves_ret]. Qed.

Lemma ok_check m n : preserves monitors_ok (check_connection_status m n).
Proof. pose proof (ok_connect m n). unfold check_connection_status. solve_preserves. Qed.

Lemma ok_run_iteration m n : preserves monitors_ok (run_iteration m n).
Proof.
  pose proof (ok_check m n). unfold run_iteration, is_stopped, get_connection_check_interval.
  solve_preserves; first [by apply ok_put_mon|apply ok_update_contexts].
Qed.

Lemma ok_release n_idle m : preserves monitors_ok (release_resource n_idle m).
Proof. unfold release_resource, remove_monitor_mapping. solve_preserves; done. Qed.

Lemma ok_run_step n_idle m n pc : preserves monitors_ok (run_step n_idle m n pc).
Proof.
  pose proof (ok_run_iteration m n). pose proof (ok_release n_idle (Some m)).
  unfold run_step, notify_unused. solve_preserves; by apply ok_put_mon.
Qed.

Lemma ok_create h timeout disposal d : preserves monitors_ok (create_monitor h timeout disposal d).
Proof. intros e He. apply map_Forall_insert_2; [by split; [constructor|]|done]. Qed.

Lemma ok_get_or_create keys h timeout disposal d : preserves monitors_ok (get_or_create_monitor keys h timeout disposal d).
Proof.
  pose proof (ok_create h timeout disposal d).
  unfold get_or_create_monitor, get_node, get_monitor, get_available_monitor, populate_monitor_map, is_stopped, stop.
  solve_preserves; first [by apply ok_put_mon|done].
Qed.

Lemma ok_new_context x : preserves monitors_ok (make_context x).
Proof.
  intros e He m y Hm. simpl in *. destruct (He m y Hm) as [Hl Hi].
  assert (e_contexts e !! fresh (dom (e_contexts e)) = None) as Hf by apply not_elem_of_dom, is_fresh.
  split; [by apply all_contexts_insert|]. by rewrite min_interval_fresh.
Qed.

Lemma ok_start dbc has_ds keys h time timeout interval count disposal d :
  preserves monitors_ok (start_monitoring dbc has_ds keys h time timeout interval count disposal d).
Proof.
  unfold start_monitoring, add_task. destruct dbc as [c|]; [|apply preserves_throw]. destruct (negb has_ds); [apply preserves_throw|].
  destruct keys as [|k keys]; [apply preserves_throw|]. apply preserves_bind; [apply ok_get_or_create|intros m].
  apply preserves_bind; [apply ok_new_context|intros context]. apply preserves_bind; [apply ok_m_start|intros _].
  solve_preserves; done.
Qed.

(** ** Calls side by side *)

(** What the other operations leave: contexts keep their intervals, monitors
    their contexts and interval, and a new monitor has no contexts. *)
Definition intervals_kept (e e' : efm) : Prop :=
  ∀ c x, e_contexts e !! c = Some x →
    ∃ x', e_contexts e' !! c = Some x' ∧ failure_detection_interval x' = failure_detection_interval x.
Record quiet (e e' : efm) : Prop := {
  quiet_contexts : intervals_kept e e';
  quiet_kept m x : e_monitors e !! m = Some x →
    ∃ x', e_monitors e' !! m = Some x' ∧ contexts x' = contexts x ∧ connection_check_interval x' = connection_check_interval x;
  quiet_new m x' : e_monitors e !! m = None → e_monitors e' !! m = Some x' → contexts x' = [] ∧ connection_check_interval x' = max_ms
}.

#[export] Instance quiet_preorder : PreOrder quiet.
Proof.
  split.
  - intros e. split; [intros c x; eauto|eauto|]. intros m x' H1 H2. congruence.
  - intros e1 e2 e3 [A1 A2 A3] [B1 B2 B3]. split.
    + intros c x Hc. destruct (A1 c x Hc) as (x2 & H2 & E2). destruct (B1 c x2 H2) as (x3 & H3 & E3). exists x3. split; [done|congruence].
    + intros m x Hm. destruct (A2 m x Hm) as (x2 & H2 & E2 & F2). destruct (B2 m x2 H2) as (x3 & H3 & E3 & F3).
      exists x3. split; [done|]. split; congruence.
    + intros m x3 Hm H3. destruct (e_monitors e2 !! m) as [x2|] eqn:H2; [|by apply (B3 m)].
      destruct (A3 m x2 Hm H2) as [E2 F2]. destruct (B2 m x2 H2) as (x3' & H3' & E3 & F3).
      rewrite H3 in H3'. injection H3' as <-. split; congruence.
Qed.

Lemma quiet_same e e' : e_monitors e' = e_monitors e → e_contexts e' = e_contexts e → quiet e e'.
Proof. intros H1 H2. split; [intros c x; rewrite H2; eauto|rewrite H1; eauto|intros; congruence]. Qed.

Lemma quiet_put_mon e0 m f :
  (∀ x, contexts (f x) = contexts x ∧ connection_check_interval (f x) = connection_check_interval x) →
  preserves (quiet e0) (put_mon m f).
Proof.
  intros Hf e He. etrans; [exact He|]. unfold put_mon, mbind, M_bind, get_mon.
  destruct (e_monitors e !! m) as [x|] eqn:Hm; [|reflexivity]. simpl. split; simpl; [intros c y; eauto| |].
  - intros m' x' Hm'. destruct (decide (m' = m)) as [->|]; [|rewrite lookup_insert_ne by done; eauto].
    rewrite lookup_insert_eq. assert (x' = x) as -> by congruence. eexists. split; [done|]. apply Hf.
  - intros m' x' H1 H2. rewrite lookup_insert_ne in H2 by congruence. congruence.
Qed.

Lemma quiet_put_ctx e0 c f :
  (∀ x, failure_detection_interval (f x) = failure_detection_interval x) → preserves (quiet e0) (put_ctx c f).
Proof.
  intros Hf e He. etrans; [exact He|]. unfold put_ctx, mbind, M_bind, get_ctx.
  destruct (e_contexts e !! c) as [x|] eqn:Hc; [|reflexivity]. simpl. split; simpl; [|eauto|intros; congruence].
  intros c' x' Hc'. simpl. destruct (decide (c' = c)) as [->|]; [|rewrite lookup_insert_ne by done; eauto].
  rewrite lookup_insert_eq. assert (x' = x) as -> by congruence. eauto.
Qed.

Lemma quiet_modify e0 f : (∀ e, e_monitors (f e) = e_monitors e ∧ e_contexts (f e) = e_contexts e) → preserves (quiet e0) (modify f).
Proof. intros Hf e He. etrans; [exact He|]. apply quiet_same; apply Hf. Qed.

Ltac solve_quiet := solve_preserves; first [by (intros e He; etrans; [exact He|by apply quiet_same])|by apply quiet_put_mon|by apply quiet_put_ctx|by (etrans; [eassumption|by apply quiet_same])|done].

Lemma quiet_update_contexts e0 l start finish valid : preserves (quiet e0) (update_contexts l start finish valid).
Proof.
  induction l as [|c l IH]; cbn [update_contexts]; [apply preserves_ret|]. intros e He.
  destruct (e_contexts e !! c) as [x|] eqn:Hc; [|unfold mbind, M_bind, get_ctx; by rewrite Hc].
  rewrite (get_ctx_bind c x) by done. pose proof (update_keeps_interval start finish valid x) as Hi.
  destruct (update_connection_status start finish valid x) as [x' o]. rewrite modify_bind.
  eapply preserves_bind; [destruct o; [by apply quiet_modify|apply preserves_ret]|intros _; exact IH|].
  etrans; [exact He|]. split; simpl; [|eauto|intros; congruence].
  intros c' y Hy. simpl. destruct (decide (c' = c)) as [->|]; [|rewrite lookup_insert_ne by done; eauto].
  rewrite lookup_insert_eq. assert (y = x) as -> by congruence. eauto.
Qed.

Lemma quiet_make_context e0 x : preserves (quiet e0) (make_context x).
Proof.
  intros e He. etrans; [exact He|]. split; simpl; [|eauto|intros; congruence].
  intros c y Hc. simpl. rewrite lookup_insert_ne; [eauto|]. intros <-. by rewrite (proj1 (not_elem_of_dom _ _) (is_fresh _)) in Hc.
Qed.

Lemma quiet_create e0 h timeout disposal d : preserves (quiet e0) (create_monitor h timeout disposal d).
Proof.
  intros e He. etrans; [exact He|]. assert (e_monitors e !! fresh (dom (e_monitors e)) = None) as Hf by apply not_elem_of_dom, is_fresh.
  split; simpl; [intros c y; eauto| |].
  - intros m y Hm. rewrite lookup_insert_ne; [eauto|congruence].
  - intros m y H1 H2. destruct (decide (m = fresh (dom (e_monitors e)))) as [->|]; [|rewrite lookup_insert_ne in H2 by done; congruence].
    rewrite lookup_insert_eq in H2. by injection H2 as <-.
Qed.

Lemma quiet_get_or_create e0 keys h timeout disposal d : preserves (quiet e0) (get_or_create_monitor keys h timeout disposal d).
Proof.
  pose proof (quiet_create e0 h timeout disposal d).
  unfold get_or_create_monitor, get_node, get_monitor, get_available_monitor, populate_monitor_map, is_stopped, stop. solve_quiet.
Qed.

Lemma quiet_run_step e0 n_idle m n pc : preserves (quiet e0) (run_step n_idle m n pc).
Proof.
  assert (preserves (quiet e0) (connect m n)) by (unfold connect; solve_quiet).
  unfold run_step, run_iteration, check_connection_status, is_stopped, get_connection_check_interval, notify_unused, release_resource,
    remove_monitor_mapping. solve_preserves;
    first [apply quiet_update_contexts|by (intros e He; etrans; [exact He|by apply quiet_same])|by apply quiet_put_mon|by (etrans; [eassumption|by apply quiet_same])|exact H].
Qed.

(** Everything else that happens: the threads of the monitors, and what a call of
    the service does before and after the call of the monitor. *)
Inductive other_step (n_idle : efm → Z) : efm → efm → Prop :=
  | other_run m n pc e : other_step n_idle e (run_step n_idle m n pc e).2
  | other_monitor keys h timeout disposal d e : other_step n_idle e (get_or_create_monitor keys h timeout disposal d e).2
  | other_context x e : other_step n_idle e (make_context x e).2
  | other_task m e : other_step n_idle e (add_task m e).2
  | other_invalidate c e : other_step n_idle e (put_ctx c invalidate e).2
  | other_reset m e : other_step n_idle e (reset_resource m e).2
  | other_notify m e : other_step n_idle e (notify_unused n_idle m e).2.

Lemma quiet_of {A} (m : M efm A) e : (∀ e0, preserves (quiet e0) m) → quiet e (m e).2.
Proof. intros H. apply H. reflexivity. Qed.

Lemma other_quiet n_idle e e' : other_step n_idle e e' → quiet e e'.
Proof.
  destruct 1; apply quiet_of; intros e0.
  - apply quiet_run_step.
  - apply quiet_get_or_create.
  - apply quiet_make_context.
  - unfold add_task. solve_quiet.
  - by apply quiet_put_ctx.
  - unfold reset_resource, remove_monitor_mapping. solve_quiet.
  - unfold notify_unused, release_resource, remove_monitor_mapping. solve_quiet.
Qed.

(** The container with the calls under way: for each thread the monitor and the
    point of the call. *)
Record system := System { sy_efm : efm; sy_calls : gmap positive (loc * op_pc) }.

Definition first_pc (pc : op_pc) : bool :=
  match pc with StartCompare _ | StopInvalidate _ | ClearContexts => true | _ => false end.

(** One step of the whole; with [apart] no call starts on a monitor while another
    is under way on it. *)
Inductive efm_step (n_idle : efm → Z) (apart : bool) : system → system → Prop :=
  | step_begin t m pc e cs : cs !! t = None → is_Some (e_monitors e !! m) → first_pc pc = true →
      (apart = true → ∀ t' p, cs !! t' = Some p → p.1 ≠ m) →
      efm_step n_idle apart (System e cs) (System e (<[t := (m, pc)]> cs))
  | step_call t m pc e cs pc' e' : cs !! t = Some (m, pc) → op_step m pc e = (Ok pc', e') →
      efm_step n_idle apart (System e cs) (System e' (match pc' with OpDone => delete t cs | _ => <[t := (m, pc')]> cs end))
  | step_other e e' cs : other_step n_idle e e' → efm_step n_idle apart (System e cs) (System e' cs).

(** What is known of a monitor while a call is at a point. *)
Definition has_interval (cs : gmap loc MONITOR_CONNECTION_CONTEXT) (c : loc) (i : Z) : Prop :=
  ∃ x, cs !! c = Some x ∧ failure_detection_interval x = i.
Definition interval_at (cs : gmap loc MONITOR_CONNECTION_CONTEXT) (x : MONITOR) (pc : op_pc) : Prop :=
  let least := min_interval cs (contexts x) in
  match pc with
  | StartSet c i => has_interval cs c i ∧ connection_check_interval x = least ∧ i < least
  | StartStamp c | StartPush c => ∃ i, has_interval cs c i ∧ connection_check_interval x = Z.min i least
  | StopFind => True
  | StopSet i => i = least
  | ClearInterval => contexts x = []
  | _ => connection_check_interval x = least
  end.

Record system_ok (s : system) : Prop := {
  sy_contexts m x : e_monitors (sy_efm s) !! m = Some x → all_contexts (e_contexts (sy_efm s)) (contexts x);
  sy_under_way t m pc : sy_calls s !! t = Some (m, pc) →
    ∃ x, e_monitors (sy_efm s) !! m = Some x ∧ interval_at (e_contexts (sy_efm s)) x pc;
  sy_idle m x : e_monitors (sy_efm s) !! m = Some x → (∀ t p, sy_calls s !! t = Some p → p.1 ≠ m) →
    connection_check_interval x = min_interval (e_contexts (sy_efm s)) (contexts x);
  sy_apart t t' p p' : sy_calls s !! t = Some p → sy_calls s !! t' = Some p' → p.1 = p'.1 → t = t'
}.

(** The intervals of contexts do not change. *)
Lemma has_interval_kept e e' c i : intervals_kept e e' → has_interval (e_contexts e) c i → has_interval (e_contexts e') c i.
Proof. intros H (x & Hx & <-). destruct (H c x Hx) as (x' & ? & ?). by exists x'. Qed.

Lemma all_contexts_kept e e' l : intervals_kept e e' → all_contexts (e_contexts e) l → all_contexts (e_contexts e') l.
Proof. intros H Hl. eapply Forall_impl; [exact Hl|]. intros c [x Hx]. destruct (H c x Hx) as (x' & ? & _). eauto. Qed.

Lemma min_interval_kept e e' l :
  intervals_kept e e' → all_contexts (e_contexts e) l → min_interval (e_contexts e') l = min_interval (e_contexts e) l.
Proof.
  intros H Hl. unfold min_interval. induction Hl as [|c l [x Hx] Hl IH]; [done|]. simpl. rewrite IH, Hx.
  destruct (H c x Hx) as (x' & -> & ->). done.
Qed.

(** What is known of a monitor survives what other threads do. *)
Lemma interval_at_kept e e' x x' pc :
  intervals_kept e e' → all_contexts (e_contexts e) (contexts x) → contexts x' = contexts x →
  connection_check_interval x' = connection_check_interval x →
  interval_at (e_contexts e) x pc → interval_at (e_contexts e') x' pc.
Proof.
  intros Hq Hl Hc Hi. pose proof (min_interval_kept e e' _ Hq Hl) as Hm. unfold interval_at. cbv zeta. rewrite Hc, Hi, Hm.
  pose proof (has_interval_kept e e') as Hh.
  destruct pc; try done; [intros (? & ? & ?); split; [by apply Hh|done]|intros (i & ? & ?); exists i; split; [by apply Hh|done]..].
Qed.

Lemma kept_put_ctx e c x x' :
  e_contexts e !! c = Some x → failure_detection_interval x' = failure_detection_interval x →
  intervals_kept e (set_contexts (<[c := x']> (e_contexts e)) e).
Proof.
  intros Hc Hi c' y Hy. simpl. destruct (decide (c' = c)) as [->|]; [|rewrite lookup_insert_ne by done; eauto].
  rewrite lookup_insert_eq. assert (y = x) as -> by congruence. eauto.
Qed.

Lemma get_ctx_inv {A} c (k : MONITOR_CONNECTION_CONTEXT → M efm A) e a e' :
  (get_ctx c ≫= k) e = (Ok a, e') → ∃ x, e_contexts e !! c = Some x ∧ k x e = (Ok a, e').
Proof. unfold mbind, M_bind, get_ctx. destruct (e_contexts e !! c) as [x|]; [eauto|done]. Qed.

(** A step of a call on [m]: what is known at the next point, and what of the rest. *)
Definition called (m : loc) (e e' : efm) (pc : op_pc) : Prop :=
  intervals_kept e e' ∧ (∀ m', m' ≠ m → e_monitors e' !! m' = e_monitors e !! m') ∧
  ∃ x', e_monitors e' !! m = Some x' ∧ all_contexts (e_contexts e') (contexts x') ∧ interval_at (e_contexts e') x' pc.

(** A step that only changes the monitor. *)
Lemma called_mon m e x' pc :
  all_contexts (e_contexts e) (contexts x') → interval_at (e_contexts e) x' pc →
  called m e (set_monitors (<[m := x']> (e_monitors e)) e) pc.
Proof.
  intros Hl Hi. split; [intros c y; eauto|]. split; [intros m' Hne; by apply lookup_insert_ne|].
  exists x'. split; [apply lookup_insert_eq|]. done.
Qed.

Lemma op_step_called m pc e pc' e' x :
  op_step m pc e = (Ok pc', e') → e_monitors e !! m = Some x → all_contexts (e_contexts e) (contexts x) →
  interval_at (e_contexts e) x pc → called m e e' pc'.
Proof.
  intros H Hm Hl Hi. destruct pc; cbn [op_step] in H; cbn [interval_at] in Hi; cbv zeta in Hi.
  - apply get_ctx_inv in H as (cx & Hc & H). rewrite (get_mon_bind m x) in H by done. injection H as <- <-.
    split; [intros c y; eauto|]. split; [done|]. exists x. split; [done|]. split; [done|].
    destruct (Z.ltb_spec (failure_detection_interval cx) (connection_check_interval x)); cbn [interval_at]; cbv zeta.
    + split; [by exists cx|]. split; [done|]. lia.
    + exists (failure_detection_interval cx). split; [by exists cx|]. lia.
  - rewrite (put_mon_bind m x) in H by done. injection H as <- <-. destruct Hi as (Hc & Hi & Hlt).
    apply called_mon; [done|]. exists interval. split; [done|]. simpl. lia.
  - destruct Hi as (i & (cx & Hc & Hci) & Hi). rewrite get_time_bind, (put_ctx_bind context cx) in H by done.
    rewrite (put_mon_bind m x) in H by done. injection H as <- <-. set (cx' := set_start_monitor_time _ cx).
    pose proof (kept_put_ctx e context cx cx' Hc eq_refl) as Hk.
    split; [exact Hk|]. split; [intros m' Hne; simpl; by apply lookup_insert_ne|].
    eexists. split; [apply lookup_insert_eq|]. split; [exact (all_contexts_kept _ _ _ Hk Hl)|].
    apply (interval_at_kept _ _ x _ (StartPush context) Hk); [done..|]. exists i. split; [by exists cx|done].
  - rewrite (put_mon_bind m x) in H by done. injection H as <- <-. destruct Hi as (i & (cx & Hc & <-) & Hi).
    apply called_mon; simpl; [apply Forall_app; split; [done|]; apply Forall_singleton; eauto|].
    by rewrite (min_interval_snoc _ _ _ cx).
  - apply bind_inv_Ok in H as (u & e1 & H & E). injection E as <- <-. apply get_ctx_inv in H as (cx & Hc & H). injection H as <- <-.
    pose proof (kept_put_ctx e context cx (invalidate cx) Hc eq_refl) as Hk.
    split; [exact Hk|]. split; [done|]. exists x. split; [done|]. split; [exact (all_contexts_kept _ _ _ Hk Hl)|].
    by apply (interval_at_kept _ _ x x (StopRemove context) Hk).
  - rewrite (put_mon_bind m x) in H by done. injection H as <- <-. apply called_mon; [|done].
    simpl. apply list.Forall_forall. intros y [_ Hy]%list_elem_of_filter. by apply (proj1 (list.Forall_forall _ _) Hl).
  - unfold find_shortest_interval in H. rewrite bind_assoc, (get_mon_bind m x) in H by done.
    rewrite (bind_Ok _ _ _ _ _ (shortest_run e (contexts x) max_ms Hl ltac:(done))) in H. injection H as <- <-.
    split; [intros c y; eauto|]. split; [done|]. exists x. split; [done|]. split; [done|]. cbn [interval_at].
    apply Z.min_r, min_interval_le.
  - rewrite (put_mon_bind m x) in H by done. injection H as <- <-. by apply called_mon.
  - rewrite (put_mon_bind m x) in H by done. injection H as <- <-. apply called_mon; [by constructor|done].
  - rewrite (put_mon_bind m x) in H by done. injection H as <- <-. apply called_mon; [done|]. simpl. by rewrite Hi.
  - injection H as <- <-. split; [intros c y; eauto|]. split; [done|]. by exists x.
Qed.

Lemma step_other_ok n_idle e e' cs : other_step n_idle e e' → system_ok (System e cs) → system_ok (System e' cs).
Proof.
  intros Ho [H1 H2 H3 H4]. simpl in *. pose proof (other_quiet _ _ _ Ho) as [Hk Hm Hn]. split; simpl; [| | |exact H4].
  - intros m x' Hx'. destruct (e_monitors e !! m) as [x|] eqn:Hx.
    + destruct (Hm m x Hx) as (y & Hy & Ey & _). assert (y = x') as -> by congruence. rewrite Ey. eapply all_contexts_kept; [exact Hk|by eapply H1].
    + destruct (Hn m x' Hx Hx') as [-> _]. constructor.
  - intros t m pc Ht. destruct (H2 t m pc Ht) as (x & Hx & Hi). destruct (Hm m x Hx) as (y & Hy & Hc & Hci). exists y. split; [done|].
    by apply (interval_at_kept _ _ _ _ _ Hk (H1 _ _ Hx) Hc Hci).
  - intros m x' Hx' Hidle. destruct (e_monitors e !! m) as [x|] eqn:Hx.
    + destruct (Hm m x Hx) as (y & Hy & Hc & Hci). assert (y = x') as -> by congruence. rewrite Hci, Hc, (min_interval_kept _ _ _ Hk (H1 m x Hx)). by apply (H3 m).
    + destruct (Hn m x' Hx Hx') as [-> ->]. done.
Qed.

Lemma step_call_ok t m pc e cs pc' e' :
  cs !! t = Some (m, pc) → op_step m pc e = (Ok pc', e') → system_ok (System e cs) →
  system_ok (System e' (match pc' with OpDone => delete t cs | _ => <[t := (m, pc')]> cs end)).
Proof.
  intros Ht Hstep [H1 H2 H3 H4]. simpl in *. destruct (H2 t m pc Ht) as (x & Hx & Hi).
  destruct (op_step_called m pc e pc' e' x Hstep Hx (H1 m x Hx) Hi) as (Hk & Hother & x' & Hx' & Hl' & Hi').
  set (cs' := match pc' with OpDone => delete t cs | _ => <[t := (m, pc')]> cs end).
  assert (∀ t' p, t' ≠ t → cs' !! t' = Some p ↔ cs !! t' = Some p) as Hcs.
  { intros t' p Hne. subst cs'. destruct pc'; try (by rewrite lookup_insert_ne); by rewrite lookup_delete_ne. }
  assert (∀ p, cs' !! t = Some p → p = (m, pc') ∧ pc' ≠ OpDone) as Hcst.
  { intros p Hp. subst cs'. destruct pc'; try (rewrite lookup_insert_eq in Hp; by injection Hp as <-). by rewrite lookup_delete_eq in Hp. }
  split; simpl.
  - intros m' y Hy. destruct (decide (m' = m)) as [->|Hne]; [by simplify_eq|]. rewrite Hother in Hy by done.
    eapply all_contexts_kept; [exact Hk|by eapply H1].
  - intros t' m' pc'' Ht'. destruct (decide (t' = t)) as [->|Hne].
    + destruct (Hcst _ Ht') as [[= -> ->] _]. by exists x'.
    + apply Hcs in Ht'; [|done]. destruct (H2 t' m' pc'' Ht') as (y & Hy & Hyi).
      assert (m' ≠ m) as Hm by (intros ->; apply Hne; by apply (H4 t' t _ _ Ht' Ht)).
      exists y. rewrite Hother by done. split; [done|]. by apply (interval_at_kept _ _ _ _ _ Hk (H1 _ _ Hy)).
  - intros m' y Hy Hidle. destruct (decide (m' = m)) as [->|Hne].
    + simplify_eq. assert (pc' = OpDone) as ->; [|exact Hi'].
      destruct pc'; try done; exfalso; exact (Hidle t (m, _) (lookup_insert_eq _ _ _) eq_refl).
    + rewrite Hother in Hy by done. rewrite (min_interval_kept _ _ _ Hk (H1 m' y Hy)). apply (H3 m'); [done|].
      intros t' p Hp. destruct (decide (t' = t)) as [->|Hnt]; [rewrite Ht in Hp; injection Hp as <-; by apply not_eq_sym|].
      apply (Hidle t'). by apply Hcs.
  - intros t1 t2 p1 p2 Hp1 Hp2 Heq. assert (∀ t' p, cs' !! t' = Some p → ∃ p0, cs !! t' = Some p0 ∧ p0.1 = p.1) as Hback.
    { intros t' p Hp. destruct (decide (t' = t)) as [->|Hne]; [destruct (Hcst p Hp) as [-> _]; eauto|]. exists p. split; [by apply Hcs|done]. }
    destruct (Hback _ _ Hp1) as (q1 & Hq1 & E1), (Hback _ _ Hp2) as (q2 & Hq2 & E2). apply (H4 t1 t2 q1 q2); [done..|congruence].
Qed.

Lemma efm_step_ok n_idle s s' : efm_step n_idle true s s' → system_ok s → system_ok s'.
Proof.
  destruct 1 as [t m pc e cs Ht [x Hx] Hpc Hap|t m pc e cs pc' e' Ht Hstep|e e' cs Ho]; [|by eapply step_call_ok|by eapply step_other_ok].
  intros [H1 H2 H3 H4]. simpl in *. specialize (Hap eq_refl). split; simpl; [exact H1| | |].
  - intros t' m' pc'' Ht'. destruct (decide (t' = t)) as [->|Hne]; [|rewrite lookup_insert_ne in Ht' by done; by eapply H2].
    rewrite lookup_insert_eq in Ht'. injection Ht' as <- <-. exists x. split; [done|]. pose proof (H3 m x Hx Hap) as Hi. by destruct pc.
  - intros m' y Hy Hidle. apply (H3 m'); [done|]. intros t' p Hp. destruct (decide (t' = t)) as [->|Hne]; [congruence|].
    apply (Hidle t'). by rewrite lookup_insert_ne.
  - intros t1 t2 p1 p2 Hp1 Hp2 Heq. destruct (decide (t1 = t)) as [->|Hn1], (decide (t2 = t)) as [->|Hn2]; [done| | |].
    + rewrite lookup_insert_eq in Hp1. rewrite lookup_insert_ne in Hp2 by done. injection Hp1 as <-. by destruct (Hap t2 p2 Hp2).
    + rewrite lookup_insert_eq in Hp2. rewrite lookup_insert_ne in Hp1 by done. injection Hp2 as <-. by destruct (Hap t1 p1 Hp1).
    + rewrite lookup_insert_ne in Hp1, Hp2 by done. by apply (H4 t1 t2 p1 p2).
Qed.

Lemma system_ok_start e : monitors_ok e → system_ok (System e ∅).
Proof. intros He. split; simpl; [intros m x Hm; by apply (He m x)|done|intros m x Hm _; by apply (He m x)|done]. Qed.

(** A step of the call of a thread, in a system where it is the [n]th. *)
Lemma call_next n_idle t m pc e cs pc' e' s :
  op_step m pc e = (Ok pc', e') → cs !! t = Some (m, pc) →
  rtc (efm_step n_idle false) (System e' (match pc' with OpDone => delete t cs | _ => <[t := (m, pc')]> cs end)) s →
  rtc (efm_step n_idle false) (System e cs) s.
Proof. intros H Ht Hr. eapply rtc_l; [by eapply step_call|exact Hr]. Qed.

(** The last context of a monitor is stopped between the assignment of the interval
    of a new one and its registration. *)
Lemma interval_lost n_idle e m x c1 x1 c2 x2 :
  e_monitors e !! m = Some x → contexts x = [c1] → e_contexts e !! c1 = Some x1 → e_contexts e !! c2 = Some x2 → c1 ≠ c2 →
  failure_detection_interval x2 < connection_check_interval x →
  ∃ e' x', rtc (efm_step n_idle false) (System e ∅) (System e' ∅) ∧ e_monitors e' !! m = Some x' ∧
    contexts x' = [c2] ∧ connection_check_interval x' = max_ms ∧
    active_context <$> e_contexts e' !! c2 = Some (active_context x2).
Proof.
  intros Hm Hx H1 H2 Hne Hlt. set (i2 := failure_detection_interval x2).
  eexists _, _. split.
  - eapply rtc_l; [apply (step_begin _ _ 1%positive m (StartCompare c2)); [done|eauto|done|done]|].
    eapply call_next; [|apply lookup_insert_eq|].
    { cbn [op_step]. rewrite (get_ctx_bind c2 x2), (get_mon_bind m x) by done. rewrite (proj2 (Z.ltb_lt _ _) Hlt). reflexivity. }
    eapply call_next; [|apply lookup_insert_eq|].
    { cbn [op_step]. rewrite (put_mon_bind m x) by done. reflexivity. }
    set (e1 := set_monitors _ e).
    eapply rtc_l; [apply (step_begin _ _ 2%positive m (StopInvalidate c1)); [by vm_compute|eexists; apply lookup_insert_eq|done|done]|].
    eapply call_next; [|apply lookup_insert_eq|].
    { cbn [op_step]. rewrite (put_ctx_bind c1 x1) by done. reflexivity. }
    eapply call_next; [|apply lookup_insert_eq|].
    { cbn [op_step]. erewrite put_mon_bind by apply lookup_insert_eq. simpl. rewrite Hx, filter_cons_False, filter_nil by (by intros []). reflexivity. }
    eapply call_next; [|apply lookup_insert_eq|].
    { cbn [op_step]. unfold find_shortest_interval. rewrite bind_assoc. erewrite get_mon_bind by apply lookup_insert_eq. reflexivity. }
    eapply call_next; [|apply lookup_insert_eq|].
    { cbn [op_step]. erewrite put_mon_bind by apply lookup_insert_eq. reflexivity. }
    eapply (call_next n_idle 1%positive m (StartStamp c2)); [|by vm_compute|].
    { cbn [op_step]. rewrite get_time_bind. erewrite put_ctx_bind by (simpl; rewrite lookup_insert_ne by done; exact H2).
      erewrite put_mon_bind by apply lookup_insert_eq. reflexivity. }
    eapply call_next; [|apply lookup_insert_eq|].
    { cbn [op_step]. erewrite put_mon_bind by apply lookup_insert_eq. reflexivity. }
    cbv beta iota.
    match goal with |- rtc _ (System ?a ?b) (System ?c _) => assert (b = ∅) as -> by (by vm_compute) end. apply rtc_refl.
  - simpl. split; [apply lookup_insert_eq|]. simpl. split; [done|]. split; [done|]. by rewrite lookup_insert_eq.
Qed.

(** C14: The interval at which a monitor checks its host is the smallest failure
    detection interval of the contexts it monitors, all of which exist, as long
    as the calls that start, stop and clear monitoring on one monitor do not
    overlap.  Every call of the service that runs alone keeps this, and so do the
    steps of the threads of monitors and their disposal.  When the steps of calls
    are interleaved with one another, with those threads and with the rest of the
    service, and no call starts on a monitor while another is under way on it,
    then it holds, at any moment, of every monitor that no call is under way on.
    Calls that overlap can break it for good, because the interval is changed
    outside the lock of the contexts: from any state in which the only context of a
    monitor is stopped while one with a smaller interval is started, a run exists
    after which both calls have returned and the monitor, with the new context,
    waits [milliseconds::max()] between two checks. *)
Theorem check_interval_invariant n_idle :
  ((∀ dbc has_ds keys h time timeout interval count disposal d,
      preserves monitors_ok (start_monitoring dbc has_ds keys h time timeout interval count disposal d)) ∧
   (∀ context, preserves monitors_ok (stop_monitoring context)) ∧
   (∀ keys, preserves monitors_ok (stop_monitoring_for_all_connections keys)) ∧
   (∀ m n pc, preserves monitors_ok (run_step n_idle m n pc)) ∧
   (∀ m, preserves monitors_ok (notify_unused n_idle m))) ∧
  (∀ e s, monitors_ok e → rtc (efm_step n_idle true) (System e ∅) s →
     ∀ m x, e_monitors (sy_efm s) !! m = Some x →
       all_contexts (e_contexts (sy_efm s)) (contexts x) ∧
       ((∀ t p, sy_calls s !! t = Some p → p.1 ≠ m) →
        connection_check_interval x = min_interval (e_contexts (sy_efm s)) (contexts x))) ∧
  (∀ e m x c1 x1 c2 x2, e_monitors e !! m = Some x → contexts x = [c1] → e_contexts e !! c1 = Some x1 →
     e_contexts e !! c2 = Some x2 → c1 ≠ c2 → failure_detection_interval x2 < connection_check_interval x →
     ∃ e' x', rtc (efm_step n_idle false) (System e ∅) (System e' ∅) ∧ e_monitors e' !! m = Some x' ∧
       contexts x' = [c2] ∧ connection_check_interval x' = max_ms ∧
       active_context <$> e_contexts e' !! c2 = Some (active_context x2)).
Proof.
  split; [|split; [|apply interval_lost]].
  - split; [apply ok_start|]. split; [|split; [|split; [apply ok_run_step|apply ok_release]]].
    + intros [c|]; [|apply preserves_ret]. pose proof ok_m_stop as Hs. unfold stop_monitoring, get_node, get_monitor.
      solve_preserves; by apply ok_put_ctx.
    + intros keys. pose proof ok_clear_contexts as Hc.
      unfold stop_monitoring_for_all_connections, get_node, get_monitor, reset_resource, remove_monitor_mapping.
      solve_preserves; first [apply Hc|done].
  - intros e s He Hr m x Hm. assert (system_ok s) as [H1 _ H3 _].
    { eapply (rtc_invariant (efm_step n_idle true)); [intros; by eapply efm_step_ok|by apply system_ok_start|exact Hr]. }
    split; [by eapply H1|by apply (H3 m)].
Qed.

(** ** The maps of the container *)

Lemma populate_lookup (map : gmap str loc) (keys : list str) (m : loc) (k : str) :
  foldl (λ (map : gmap str loc) (k : str), <[k := m]> map) map keys !! k = if bool_decide (k ∈ keys) then Some m else map !! k.
Proof.
  revert map. induction keys as [|k' keys IH]; intros map; simpl; [done|]. rewrite IH.
  repeat case_bool_decide; try set_solver.
  - assert (k = k') as -> by set_solver. by rewrite lookup_insert_eq.
  - rewrite lookup_insert_ne; [done|]. set_solver.
Qed.

Lemma first_mapped_None map keys : first_mapped map keys = None ↔ ∀ k, k ∈ keys → map !! k = None.
Proof.
  induction keys as [|k keys IH]; simpl; [set_solver|]. destruct (map !! k) eqn:E.
  - split; [done|]. intros H. specialize (H k ltac:(set_solver)). congruence.
  - rewrite IH. set_solver.
Qed.

Lemma first_mapped_Some map keys k : first_mapped map keys = Some k → k ∈ keys ∧ is_Some (map !! k).
Proof.
  induction keys as [|k' keys IH]; simpl; [done|]. destruct (map !! k') eqn:E; [intros [= <-]; split; [set_solver|eauto]|].
  intros H. destruct (IH H). split; [set_solver|done].
Qed.

(** The state with the keys mapped to [m]. *)
Definition mapped (keys : list str) (m : loc) (e : efm) : efm := set_map (foldl (λ map k, <[k := m]> map) (monitor_map e) keys) e.

(** [get_or_create_monitor] maps all node keys to the monitor it returns
    and leaves the other keys alone.  The monitor is the one a key is already
    mapped to; else the first of the available monitors, if its thread still
    runs; else a new monitor of the host, without contexts. *)
Theorem get_or_create_monitor_spec keys h timeout disposal d e :
  Forall (λ k, k ≠ []) keys →
  match first_mapped (monitor_map e) keys with
  | Some k => ∃ m, monitor_map e !! k = Some m ∧ get_or_create_monitor keys h timeout disposal d e = (Ok m, mapped keys m e)
  | None =>
    match available_monitors e with
    | [] => ∃ m, e_monitors e !! m = None ∧ get_or_create_monitor keys h timeout disposal d e =
        (Ok m, mapped keys m (set_monitors (<[m := new_monitor h timeout disposal d None]> (e_monitors e)) e))
    | m :: rest => ∀ x, e_monitors e !! m = Some x →
        if stopped x then
          ∃ m' e', get_or_create_monitor keys h timeout disposal d e = (Ok m', e') ∧ available_monitors e' = rest ∧
            e_monitors e' !! m' = Some (new_monitor h timeout disposal d None) ∧ m' ≠ m ∧ task_map e' = task_map e ∖ {[m]} ∧
            (∀ k, k ∈ keys → monitor_map e' !! k = Some m')
        else get_or_create_monitor keys h timeout disposal d e = (Ok m, mapped keys m (set_available rest e))
    end
  end.
Proof.
  intros Hkeys. unfold get_or_create_monitor, get_node. rewrite gets_bind.
  destruct (first_mapped (monitor_map e) keys) as [k|] eqn:Hk; cbn [default from_option id].
  - destruct (first_mapped_Some _ _ _ Hk) as [Hin [m Hm]]. exists m. split; [done|].
    rewrite bool_decide_false by (by apply (proj1 (list.Forall_forall _ _) Hkeys)). cbn [negb].
    unfold get_monitor. by rewrite bind_assoc, gets_bind, Hm.
  - cbn [negb]. rewrite bool_decide_true by done. cbn [negb]. rewrite bind_assoc. unfold get_available_monitor. rewrite bind_assoc, gets_bind.
    destruct (available_monitors e) as [|m rest].
    + exists (fresh (dom (e_monitors e))). split; [apply not_elem_of_dom, is_fresh|]. done.
    + intros x Hx. rewrite bind_assoc, modify_bind, bind_assoc. unfold is_stopped. rewrite bind_assoc, (get_mon_bind m x) by done.
      rewrite ret_bind. destruct (stopped x); cbn [negb]; [|done]. rewrite bind_assoc, gets_bind.
      set (e1 := set_available rest e). set (m' := fresh (dom (e_monitors e))).
      assert (e_monitors e !! m' = None) as Hm' by (apply not_elem_of_dom, is_fresh).
      assert (m' ≠ m) as Hne by (intros ->; congruence).
      case_bool_decide as Htask; simpl in Htask.
      * rewrite !bind_assoc. unfold stop. rewrite (put_mon_bind m x) by done. rewrite modify_bind, ret_bind.
        exists (fresh (dom (<[m := with_stopped true x]> (e_monitors e)))). eexists. split; [done|]. split; [done|].
        split; [apply lookup_insert_eq|]. split; [|split; [done|]].
        { intros E. pose proof (is_fresh (dom (<[m:=with_stopped true x]> (e_monitors e)))) as F. rewrite E in F. apply F, elem_of_dom. rewrite lookup_insert_eq. eauto. }
        intros k Hin. simpl. rewrite populate_lookup. by rewrite bool_decide_true.
      * rewrite !bind_assoc, !ret_bind. exists m'. eexists. split; [done|]. split; [done|]. split; [apply lookup_insert_eq|]. split; [done|].
        split; [simpl; set_solver|]. intros k Hin. simpl. rewrite populate_lookup. by rewrite bool_decide_true.
Qed.

(** ** Two hosts, a monitor each *)

Definition ex_options : monitor_options := MonitorOptions true 30 30 30 30 true.
Definition ex_monitor (h : str) (running : bool) (cs : list loc) : MONITOR :=
  Monitor (new_host h 3306) max_ms 5 60000 ex_options (Some true) cs 0 (negb running).
Definition ex_efm (available : list loc) : efm :=
  Efm ∅ {[1%positive := ex_monitor "a.xyz" true []]} {[S!"a.xyz:3306" := 1%positive]} {[1%positive]} available 1 [1%positive] []
    (λ n, Z.of_nat n * 1000000) 0.

(** A context that is stopped while one with a smaller interval is started. *)
Definition ex_two_contexts : efm :=
  let c interval := new_context (Some 9%positive) [S!"a.xyz:3306"] 100 interval 3 in
  Efm {[1%positive := c 50; 2%positive := c 10]} {[1%positive := with_interval 50 (ex_monitor "a.xyz" true [1%positive])]}
    {[S!"a.xyz:3306" := 1%positive]} {[1%positive]} [] 1 [1%positive] [] (λ n, Z.of_nat n * 1000000) 0.

Lemma check_interval_invariant_witness :
  monitors_ok ex_two_contexts ∧
  ∃ e' x', rtc (efm_step (λ _, 1) false) (System ex_two_contexts ∅) (System e' ∅) ∧ e_monitors e' !! 1%positive = Some x' ∧
    contexts x' = [2%positive] ∧ connection_check_interval x' = max_ms ∧
    active_context <$> e_contexts e' !! 2%positive = Some true.
Proof.
  split.
  - intros m x Hm. change (({[1%positive := with_interval 50 (ex_monitor "a.xyz" true [1%positive])]} : gmap loc MONITOR) !! m = Some x) in Hm.
    apply lookup_singleton_Some in Hm as [<- <-]. split; [|by vm_compute].
    apply Forall_singleton. by eexists.
  - destruct (check_interval_invariant (λ _, 1)) as (_ & _ & H).
    exact (H ex_two_contexts 1%positive _ 1%positive _ 2%positive _ eq_refl eq_refl eq_refl eq_refl ltac:(discriminate) eq_refl).
Defined.

Lemma get_or_create_monitor_spec_witness :
  let e := ex_efm [] in
  get_or_create_monitor [S!"a.xyz:3306"; S!"b.xyz:3306"] (new_host "b.xyz" 3306) 5 60000 ex_options e =
    (Ok 1%positive, mapped [S!"a.xyz:3306"; S!"b.xyz:3306"] 1%positive e) ∧
  ∃ m, e_monitors e !! m = None ∧ get_or_create_monitor [S!"b.xyz:3306"] (new_host "b.xyz" 3306) 5 60000 ex_options e =
    (Ok m, mapped [S!"b.xyz:3306"] m (set_monitors (<[m := new_monitor (new_host "b.xyz" 3306) 5 60000 ex_options None]> (e_monitors e)) e)).
Proof.
  intros e. split.
  - pose proof (get_or_create_monitor_spec [S!"a.xyz:3306"; S!"b.xyz:3306"] (new_host "b.xyz" 3306) 5 60000 ex_options e) as H.
    destruct H as (m & Hm & E); [repeat constructor; discriminate|].
    assert (m = 1%positive) as -> by (apply (f_equal (default m)) in Hm; exact (eq_sym Hm)). exact E.
  - exact (get_or_create_monitor_spec [S!"b.xyz:3306"] (new_host "b.xyz" 3306) 5 60000 ex_options e ltac:(repeat constructor; discriminate)).
Defined.

(** ** The monitor of a lost host *)

Lemma stop_all_run keys k m x e :
  first_mapped (monitor_map e) keys = Some k → k ≠ [] → monitor_map e !! k = Some m → e_monitors e !! m = Some x →
  stop_monitoring_for_all_connections keys e =
    (Ok tt, set_available (available_monitors e ++ [m]) (set_map (filter (λ kv, kv.2 ≠ m) (monitor_map e))
       (set_monitors (<[m := with_interval max_ms (with_contexts [] x)]> (e_monitors e)) e))).
Proof.
  intros Hk Hne Hm Hx. unfold stop_monitoring_for_all_connections, get_node. rewrite gets_bind, Hk. cbn [default from_option id].
  rewrite bool_decide_false by done. unfold get_monitor. rewrite gets_bind, Hm.
  by rewrite (bind_Ok _ _ _ _ _ (clear_run m x e Hx)).
Qed.

(** When a connection is moved from one host to another while the
    monitor of the old host runs, the monitor of the old host becomes the
    monitor of the new one: [set_connection] makes it available, and the
    next monitored call, of a host that has no monitor, takes it from the
    queue without a look at its host.  The new connection is then judged by
    pings to the old host. *)
Theorem available_monitor_changes_host e keys k m x keys' h conn time timeout interval count disposal d :
  first_mapped (monitor_map e) keys = Some k → k ≠ [] → monitor_map e !! k = Some m → e_monitors e !! m = Some x →
  stopped x = false → available_monitors e = [] → keys' ≠ [] → (∀ k', k' ∈ keys' → monitor_map e !! k' = None) →
  ∃ e1 e2 c x', stop_monitoring_for_all_connections keys e = (Ok tt, e1) ∧
    start_monitoring (Some conn) true keys' h time timeout interval count disposal d e1 = (Ok c, e2) ∧
    e_monitors e2 !! m = Some x' ∧ host x' = host x ∧ c ∈ contexts x' ∧
    (∀ k', k' ∈ keys' → monitor_map e2 !! k' = Some m).
Proof.
  intros Hk Hne Hm Hx Hrun Hav Hkeys' Hnew. pose proof (stop_all_run keys k m x e Hk Hne Hm Hx) as Hstop.
  rewrite Hav in Hstop. match type of Hstop with _ = (_, ?s) => set (e1 := s) in * end.
  assert (∀ k', k' ∈ keys' → monitor_map e1 !! k' = None) as Hnew1.
  { intros k' Hin. simpl. apply map_lookup_filter_None. left. by apply Hnew. }
  assert (get_or_create_monitor keys' h timeout disposal d e1 = (Ok m, mapped keys' m (set_available [] e1))) as Hget.
  { unfold get_or_create_monitor, get_node. rewrite gets_bind, (proj2 (first_mapped_None _ _) Hnew1). cbn [default from_option id].
    rewrite bool_decide_true by done. cbn [negb]. rewrite bind_assoc. unfold get_available_monitor. rewrite bind_assoc, gets_bind.
    cbn [available_monitors e1 set_available app]. rewrite bind_assoc, modify_bind, bind_assoc. unfold is_stopped. rewrite bind_assoc.
    erewrite get_mon_bind by apply lookup_insert_eq. rewrite ret_bind. cbn [stopped with_interval with_contexts]. by rewrite Hrun. }
  set (e2 := mapped keys' m (set_available [] e1)) in *.
  set (c := fresh (dom (e_contexts e2))). set (cx := new_context (Some conn) keys' time interval count).
  set (e3 := set_contexts (<[c := cx]> (e_contexts e2)) e2).
  pose proof (m_start_run m c (with_interval max_ms (with_contexts [] x)) cx e3 ltac:(apply lookup_insert_eq) ltac:(apply lookup_insert_eq)) as Hs.
  cbv zeta in Hs. match type of Hs with _ = (_, ?s) => set (e4 := s) in * end.
  assert (∃ e5, add_task (Some m) e4 = (Ok tt, e5) ∧ e_monitors e5 = e_monitors e4 ∧ monitor_map e5 = monitor_map e4) as (e5 & Ha & Hm5 & Hmap5).
  { unfold add_task. rewrite gets_bind. case_bool_decide; [by exists e4|]. rewrite modify_bind. eexists. split; [done|]. done. }
  exists e1, e5, c. eexists. split; [done|]. split.
  { unfold start_monitoring. cbn [negb]. destruct keys' as [|k0 keys']; [done|].
    rewrite (bind_Ok _ _ _ _ _ Hget). rewrite (bind_Ok _ _ e2 c e3) by done. by rewrite (bind_Ok _ _ _ _ _ Hs), (bind_Ok _ _ _ _ _ Ha). }
  rewrite Hm5, Hmap5. split; [apply lookup_insert_eq|]. split; [by destruct (_ <? _)|]. split; [simpl; set_solver|].
  intros k' Hin. simpl. rewrite populate_lookup. by rewrite bool_decide_true.
Qed.

Lemma available_monitor_changes_host_witness :
  ∃ e1 e2 c x', stop_monitoring_for_all_connections [S!"a.xyz:3306"] (ex_efm []) = (Ok tt, e1) ∧
    start_monitoring (Some 9%positive) true [S!"b.xyz:3306"] (new_host "b.xyz" 3306) 100 5 10 3 60000 ex_options e1 = (Ok c, e2) ∧
    e_monitors e2 !! 1%positive = Some x' ∧ host x' = new_host "a.xyz" 3306 ∧ c ∈ contexts x' ∧
    (∀ k', k' ∈ [S!"b.xyz:3306"] → monitor_map e2 !! k' = Some 1%positive).
Proof.
  exact (available_monitor_changes_host (ex_efm []) [S!"a.xyz:3306"] (S!"a.xyz:3306") 1%positive (ex_monitor "a.xyz" true [])
    [S!"b.xyz:3306"] (new_host "b.xyz" 3306) 9%positive 100 5 10 3 60000 ex_options eq_refl ltac:(discriminate) eq_refl eq_refl eq_refl
    eq_refl ltac:(discriminate) ltac:(intros k' Hk; apply list_elem_of_singleton in Hk; rewrite Hk; reflexivity)).
Defined.

(** ** Disposal of a monitor that is being used *)

(** The threads of a caller and of an idle monitor: the monitor decides to
    end, and calls [notify_unused] between the caller's [get_or_create_monitor]
    and its registration of the context; later the caller stops monitoring. *)
Definition disposed_while_starting (n_idle : efm → Z) (conn : positive) (keys : list str) (h : HOST_INFO)
    (time timeout interval count disposal : Z) (d : monitor_options) : M efm (loc * loc) :=
  m ← get_or_create_monitor keys h timeout disposal d;
  notify_unused n_idle (Some m);;
  c ← make_context (new_context (Some conn) keys time interval count);
  m_start_monitoring m c;;
  add_task (Some m);;
  stop_monitoring (Some c);;
  mret (m, c).

(** With contexts a monitor does not dispose of itself. *)
Lemma busy_not_disposed m n x e i e' :
  e_monitors e !! m = Some x → contexts x ≠ [] → run_iteration m n e = (Ok i, e') → i ≠ Disposed.
Proof.
  intros Hm Hc. unfold run_iteration, is_stopped. rewrite bind_assoc, (get_mon_bind m x) by done. rewrite ret_bind.
  destruct (stopped x); [by intros [= <- _]|]. rewrite (get_mon_bind m x) by done. destruct (contexts x); [done|].
  intros H. rewrite get_time_bind in H. apply bind_inv_Ok in H as (? & ? & _ & H). apply bind_inv_Ok in H as (? & ? & _ & H).
  apply bind_inv_Ok in H as (? & ? & _ & H). apply bind_inv_Ok in H as (? & ? & _ & H). apply bind_inv_Ok in H as (? & ? & _ & H).
  by injection H as <- _.
Qed.

(** If an idle monitor disposes of itself while a caller that already
    looked it up registers a context, the monitor runs on without being in the
    map: the caller's [stop_monitoring] does not find it any more, the
    context stays registered although it is invalidated, and because a
    monitor with contexts never disposes of itself its thread goes on
    checking the host. *)
Theorem context_left_behind n_idle e keys k m x h conn time timeout interval count disposal d :
  first_mapped (monitor_map e) keys = Some k → k ≠ [] → monitor_map e !! k = Some m → e_monitors e !! m = Some x → contexts x = [] →
  ∃ c e', disposed_while_starting n_idle conn keys h time timeout interval count disposal d e = (Ok (m, c), e') ∧
    m ∈ task_map e' ∧ (∀ k', k' ∈ keys → monitor_map e' !! k' = None) ∧
    active_context <$> e_contexts e' !! c = Some false ∧ contexts <$> e_monitors e' !! m = Some [c] ∧
    (∀ n i e'', run_iteration m n e' = (Ok i, e'') → i ≠ Disposed).
Proof.
  intros Hk Hne Hm Hx Hc. unfold disposed_while_starting.
  assert (get_or_create_monitor keys h timeout disposal d e = (Ok m, mapped keys m e)) as Hget.
  { unfold get_or_create_monitor, get_node. rewrite gets_bind, Hk. cbn [default from_option id].
    rewrite bool_decide_false by done. cbn [negb]. unfold get_monitor. by rewrite bind_assoc, gets_bind, Hm. }
  rewrite (bind_Ok _ _ _ _ _ Hget). set (e1 := mapped keys m e).
  assert (∃ e2, notify_unused n_idle (Some m) e1 = (Ok tt, e2) ∧ e_monitors e2 = e_monitors e ∧ e_contexts e2 = e_contexts e ∧
    m ∉ task_map e2 ∧ ∀ k', k' ∈ keys → monitor_map e2 !! k' = None) as (e2 & En & Hm2 & Hc2 & Ht2 & Hmap2).
  { unfold notify_unused, release_resource, remove_monitor_mapping. rewrite !modify_bind, gets_bind.
    match goal with |- context [0 <? n_idle ?s] => set (s1 := s) end.
    assert (∀ k', k' ∈ keys → monitor_map s1 !! k' = None) as Hmap.
    { intros k' Hin. simpl. apply map_lookup_filter_None. right. intros v Hv. rewrite populate_lookup, bool_decide_true in Hv by done.
      injection Hv as <-. simpl. by intros []. }
    destruct (0 <? n_idle s1); eexists; (split; [done|]); (split; [done|]); (split; [done|]); (split; [simpl; set_solver|exact Hmap]). }
  rewrite (bind_Ok _ _ _ _ _ En). set (c := fresh (dom (e_contexts e2))). set (cx := new_context (Some conn) keys time interval count).
  set (e3 := set_contexts (<[c := cx]> (e_contexts e2)) e2).
  rewrite (bind_Ok _ _ e2 c e3) by done.
  pose proof (m_start_run m c x cx e3 ltac:(simpl; by rewrite Hm2) ltac:(apply lookup_insert_eq)) as Hs. cbv zeta in Hs.
  rewrite (bind_Ok _ _ _ _ _ Hs). clear Hs. match goal with |- context [(add_task _ ≫= _) ?s] => set (e4 := s) end.
  set (e5 := set_tasks (task_map e4 ∪ {[m]}) (set_pool (pool_size e4 + 1) (runs e4 ++ [m]) e4)).
  rewrite (bind_Ok _ _ _ tt e5) by (unfold add_task; rewrite gets_bind, bool_decide_false by exact Ht2; done).
  set (now := clock e3 (ticks e3)). set (cx' := set_start_monitor_time now cx).
  set (e6 := set_contexts (<[c := invalidate cx']> (e_contexts e5)) e5).
  rewrite (bind_Ok _ _ _ tt e6).
  2: { unfold stop_monitoring. erewrite put_ctx_bind by apply lookup_insert_eq. erewrite get_ctx_bind by apply lookup_insert_eq.
       unfold get_node. rewrite gets_bind. rewrite (proj2 (first_mapped_None _ _)); [done|]. intros k' Hin. by apply Hmap2. }
  exists c, e6. split; [done|]. split; [simpl; set_solver|]. split; [exact Hmap2|].
  assert (e_monitors e6 !! m = Some (with_contexts (contexts x ++ [c]) (with_timestamp now
    (if failure_detection_interval cx <? connection_check_interval x then with_interval (failure_detection_interval cx) x else x)))) as H6
    by apply lookup_insert_eq.
  split; [simpl; by rewrite lookup_insert_eq|]. split; [rewrite H6; simpl; by rewrite Hc|].
  intros n i e''. eapply busy_not_disposed; [exact H6|]. simpl. by destruct (contexts x).
Qed.

Lemma context_left_behind_witness :
  ∃ c e', disposed_while_starting (λ _, 1) 9%positive [S!"a.xyz:3306"] (new_host "a.xyz" 3306) 100 5 10 3 60000 ex_options (ex_efm []) =
      (Ok (1%positive, c), e') ∧
    1%positive ∈ task_map e' ∧ (∀ k', k' ∈ [S!"a.xyz:3306"] → monitor_map e' !! k' = None) ∧
    active_context <$> e_contexts e' !! c = Some false ∧ contexts <$> e_monitors e' !! 1%positive = Some [c] ∧
    (∀ n i e'', run_iteration 1%positive n e' = (Ok i, e'') → i ≠ Disposed).
Proof.
  exact (context_left_behind (λ _, 1) (ex_efm []) [S!"a.xyz:3306"] (S!"a.xyz:3306") 1%positive (ex_monitor "a.xyz" true [])
    (new_host "a.xyz" 3306) 9%positive 100 5 10 3 60000 ex_options eq_refl ltac:(discriminate) eq_refl eq_refl eq_refl).
Defined.
