(* ===== verification/EfmProxy.v ===== *)
(** The proxy that monitors the calls of a connection: [EFM_PROXY]
    (src/driver/efm_proxy.cc).  Every call that reaches the server is
    bracketed by the start and the stop of its monitoring. *)

From S2P Require Import Prelude CppString HostInfo MonitorContext Monitor.

Local Open Scope Z_scope.

(** The options of failure detection. *)
Record efm_options := EfmOptions {
  opt_ENABLE_FAILURE_DETECTION : bool;
  opt_FAILURE_DETECTION_TIME : Z;
  opt_FAILURE_DETECTION_TIMEOUT : Z;
  opt_FAILURE_DETECTION_INTERVAL : Z;
  opt_FAILURE_DETECTION_COUNT : Z;
  opt_MONITOR_DISPOSAL_TIME : Z;
  opt_NETWORK_TIMEOUT : Z;
  opt_monitor : monitor_options
}.

(** [src/driver/efm_proxy.h:89-97] EFM_PROXY

    [ep_ds] is [None] for a null data source; [ep_node_keys] is the set in
    its order; host, port and connection are those of the proxies below. *)
Record EFM_PROXY := EfmProxy {
  ep_dbc : option positive;
  ep_ds : option efm_options;
  ep_node_keys : list str;
  ep_host : str;
  ep_port : Z;
  ep_connected : bool
}.

(** The state of a call: the proxy and the monitoring. *)
Definition pstate : Type := EFM_PROXY * efm.

Definition on_efm {A} (m : M efm A) : M pstate A := λ s, let '(r, e) := m s.2 in (r, (s.1, e)).

(** [src/driver/efm_proxy.cc:50-71] EFM_PROXY::start_monitoring *)
Definition start_monitoring : M pstate (option loc) :=
  p ← gets fst;
  match ep_ds p with
  | None => mret None
  | Some o =>
    if negb (opt_ENABLE_FAILURE_DETECTION o) then mret None else
    let timeout := if opt_FAILURE_DETECTION_TIMEOUT o =? 0
                   then (if opt_NETWORK_TIMEOUT o =? 0 then failure_detection_timeout_default else opt_NETWORK_TIMEOUT o)
                   else opt_FAILURE_DETECTION_TIMEOUT o in
    c ← on_efm (Monitor.start_monitoring (ep_dbc p) true (ep_node_keys p) (new_host (ep_host p) (ep_port p))
                  (opt_FAILURE_DETECTION_TIME o) timeout (opt_FAILURE_DETECTION_INTERVAL o)
                  (opt_FAILURE_DETECTION_COUNT o) (opt_MONITOR_DISPOSAL_TIME o) (opt_monitor o));
    mret (Some c)
  end.

(** [close_socket] of the connection. *)
Definition close_socket : M pstate unit :=
  p ← gets fst;
  match ep_dbc p with
  | Some c => modify (λ s, (s.1, set_closed (closed s.2 ++ [c]) s.2))
  | None => mret tt
  end.

(** [src/driver/efm_proxy.cc:73-81] EFM_PROXY::stop_monitoring *)
Definition stop_monitoring (context : option loc) : M pstate unit :=
  p ← gets fst;
  match ep_ds p with
  | None => mret tt
  | Some o =>
    if negb (opt_ENABLE_FAILURE_DETECTION o) then mret tt else
    match context with
    | None => mret tt
    | Some c =>
      on_efm (Monitor.stop_monitoring (Some c));;
      x ← on_efm (get_ctx c);
      if node_unhealthy x && ep_connected p then close_socket else mret tt
    end
  end.

(** [src/driver/efm_proxy.cc:148-201] EFM_PROXY::select_db, query, real_query, store_result, use_result, next_result, more_results, stmt_next_result

    [call] is the call on the next proxy. *)
Definition monitored {A} (call : M pstate A) : M pstate A :=
  context ← start_monitoring;
  ret ← call;
  stop_monitoring context;;
  mret ret.

(** [src/driver/efm_proxy.cc:214-340] EFM_PROXY::free_result, fetch_row, real_escape_string, bind_param, stmt_init and the other statement calls *)
Definition monitored_statement {A} (call : M pstate A) : M pstate A := monitored call.

Definition set_node_keys (keys : list str) (p : EFM_PROXY) : EFM_PROXY :=
  EfmProxy (ep_dbc p) (ep_ds p) keys (ep_host p) (ep_port p) (ep_connected p).

(** [src/driver/efm_proxy.cc:83-104] EFM_PROXY::generate_node_keys

    [answer] is what the query for the host and the port returns, [None] when
    it fails, else the first columns of its rows; with monitoring turned off
    the query goes to the next proxy directly.  A null column is read. *)
Definition generate_node_keys (answer : option (list (option str))) : M pstate unit :=
  p ← gets fst;
  let own := ep_host p ++ S!":" ++ to_string (ep_port p) in
  keys ← (if ep_connected p then
            _ ← deref (ep_ds p);
            match answer with
            | None => mret [own]
            | Some rows => texts ← lift (foldr (λ c r, match c, r with Some t, Ok l => Ok (t :: l) | _, _ => UB end) (Ok []) rows);
                           mret (foldl (λ s t, set_insert t s) [own] texts)
            end
          else mret [own]);
  modify (λ s, (set_node_keys keys s.1, s.2)).

(** [src/driver/efm_proxy.cc:135-146] EFM_PROXY::real_connect

    Connecting is not monitored. *)
Definition real_connect (call : M pstate bool) (answer : option (list (option str))) : M pstate bool :=
  ret ← call; generate_node_keys answer;; mret ret.

(** [src/driver/efm_proxy.cc:111-119] EFM_PROXY::set_connection

    [moved] is the proxy after the connection was moved into the chain. *)
Definition set_connection (moved : EFM_PROXY → EFM_PROXY) (answer : option (list (option str))) : M pstate unit :=
  modify (λ s, (moved s.1, s.2));;
  p ← gets fst;
  (match ep_node_keys p with [] => mret tt | keys => on_efm (stop_monitoring_for_all_connections keys) end);;
  generate_node_keys answer.

(** ** The bracket around a call *)

(** Whether the proxy monitors its calls. *)
Definition detection_on (p : EFM_PROXY) : bool :=
  match ep_ds p with Some o => opt_ENABLE_FAILURE_DETECTION o | None => false end.

Lemma on_efm_bind {A B} (m : M efm A) (k : A → M pstate B) p e a e' :
  m e = (Ok a, e') → (on_efm m ≫= k) (p, e) = k a (p, e').
Proof. intros E. unfold on_efm, mbind, M_bind. simpl. by rewrite E. Qed.

Lemma stop_none s : stop_monitoring None s = (Ok tt, s).
Proof. destruct s as [p e]. unfold stop_monitoring. rewrite gets_bind. simpl. destruct (ep_ds p) as [o|]; [|done]. by destruct (negb _). Qed.

(** With failure detection off a call is just passed on. *)
Theorem monitored_off {A} (call : M pstate A) p e :
  detection_on p = false → monitored call (p, e) = call (p, e).
Proof.
  intros Hoff. unfold monitored. rewrite (bind_Ok _ _ _ None (p, e)).
  - unfold mbind, M_bind. destruct (call (p, e)) as [[a|x|] s]; [|done..]. by rewrite stop_none.
  - unfold start_monitoring. rewrite gets_bind. simpl. unfold detection_on in Hoff. destruct (ep_ds p) as [o|]; [|done]. by rewrite Hoff.
Qed.

Lemma monitored_off_witness :
  let p := EfmProxy (Some 9%positive) None [] "a.xyz" 3306 true in
  monitored (mret 5) (p, ex_efm []) = (Ok 5, (p, ex_efm [])).
Proof. intros p. exact (monitored_off (mret 5) p (ex_efm []) eq_refl). Defined.

(** With failure detection on, a call that returns is reported with its
    own result; its context is then invalid and no longer among those of the
    monitor its keys are mapped to; the other contexts stay, and the socket is
    closed exactly if the context had found the node dead while the
    connection is still up. *)
Theorem monitored_on {A} (call : M pstate A) p e e1 c a p' e2 cx k m x :
  start_monitoring (p, e) = (Ok (Some c), (p, e1)) → call (p, e1) = (Ok a, (p', e2)) →
  detection_on p' = true → monitors_ok e2 → e_contexts e2 !! c = Some cx →
  first_mapped (monitor_map e2) (node_keys cx) = Some k → k ≠ [] → monitor_map e2 !! k = Some m → e_monitors e2 !! m = Some x →
  ∃ e3, monitored call (p, e) = (Ok a, (p', e3)) ∧
    active_context <$> e_contexts e3 !! c = Some false ∧
    contexts <$> e_monitors e3 !! m = Some (filter (λ y, y ≠ c) (contexts x)) ∧
    closed e3 = closed e2 ++ (if node_unhealthy cx && ep_connected p' then match ep_dbc p' with Some d => [d] | None => [] end else []).
Proof.
  intros Hstart Hcall Hon Hok Hc Hk Hne Hm Hx. unfold monitored. rewrite (bind_Ok _ _ _ _ _ Hstart), (bind_Ok _ _ _ _ _ Hcall).
  set (e2' := set_contexts (<[c := invalidate cx]> (e_contexts e2)) e2).
  assert (monitors_ok e2') as Hok' by (by apply (monitors_ok_ctx e2 c cx)).
  pose proof (m_stop_run m c x (invalidate cx) e2' Hok' Hx ltac:(apply lookup_insert_eq)) as Hs. cbv zeta in Hs.
  match type of Hs with _ = (_, ?s) => set (e3 := s) in * end.
  assert (Monitor.stop_monitoring (Some c) e2 = (Ok tt, e3)) as E.
  { unfold Monitor.stop_monitoring. rewrite (put_ctx_bind c cx) by done. erewrite get_ctx_bind by apply lookup_insert_eq.
    unfold get_node. rewrite gets_bind. cbn [node_keys invalidate monitor_map set_contexts]. rewrite Hk. cbn [default from_option id].
    rewrite bool_decide_false by done. unfold get_monitor. rewrite gets_bind. cbn [monitor_map set_contexts]. rewrite Hm. exact Hs. }
  assert (e_contexts e3 !! c = Some (invalidate (invalidate cx))) as Hc3 by apply lookup_insert_eq.
  assert (stop_monitoring (Some c) (p', e2) = (if node_unhealthy cx && ep_connected p' then close_socket (p', e3) else (Ok tt, (p', e3)))) as Estop.
  { unfold stop_monitoring. rewrite gets_bind. simpl. unfold detection_on in Hon. destruct (ep_ds p') as [o|]; [|done]. rewrite Hon. cbn [negb].
    rewrite (on_efm_bind _ _ _ _ _ _ E), (on_efm_bind _ _ _ _ (invalidate (invalidate cx)) e3) by (unfold get_ctx; by rewrite Hc3).
    simpl. by destruct (node_unhealthy cx && ep_connected p'). }
  assert (contexts <$> e_monitors e3 !! m = Some (filter (λ y, y ≠ c) (contexts x))) as Hm3 by (simpl; by rewrite lookup_insert_eq).
  assert (active_context <$> e_contexts e3 !! c = Some false) as Ha3 by (by rewrite Hc3).
  unfold mbind, M_bind. rewrite Estop. destruct (node_unhealthy cx && ep_connected p').
  - unfold close_socket, gets, mbind, M_bind. simpl. destruct (ep_dbc p') as [d|].
    + exists (set_closed (closed e3 ++ [d]) e3). split; [done|]. split; [exact Ha3|]. split; [exact Hm3|done].
    + exists e3. split; [done|]. split; [exact Ha3|]. split; [exact Hm3|]. by rewrite app_nil_r.
  - exists e3. split; [done|]. split; [exact Ha3|]. split; [exact Hm3|]. by rewrite app_nil_r.
Qed.

Lemma monitored_on_witness :
  let o := EfmOptions true 100 5 10 3 60000 30 ex_options in
  let p := EfmProxy (Some 9%positive) (Some o) [S!"a.xyz:3306"] "a.xyz" 3306 true in
  ∃ e3, monitored (mret 5) (p, ex_efm []) = (Ok 5, (p, e3)) ∧ active_context <$> e_contexts e3 !! 1%positive = Some false ∧
    contexts <$> e_monitors e3 !! 1%positive = Some [].
Proof.
  intros o p. destruct (start_monitoring (p, ex_efm [])) as [r [p1 e1]] eqn:E.
  assert (r = Ok (Some 1%positive)) as -> by (transitivity (start_monitoring (p, ex_efm [])).1; [rewrite E|vm_compute]; reflexivity).
  assert (p1 = p) as -> by (transitivity (start_monitoring (p, ex_efm [])).2.1; [rewrite E|vm_compute]; reflexivity).
  assert (monitors_ok e1) as Hok.
  { pose proof (ok_start (Some 9%positive) true [S!"a.xyz:3306"] (new_host "a.xyz" 3306) 100 5 10 3 60000
      ex_options (ex_efm []) ltac:(apply map_Forall_singleton; split; [constructor|reflexivity])) as H.
    replace e1 with (start_monitoring (p, ex_efm [])).2.2 by (rewrite E; reflexivity). revert H. vm_compute. exact (λ H, H). }
  assert (e1 = (start_monitoring (p, ex_efm [])).2.2) as E1 by (rewrite E; reflexivity).
  destruct (monitored_on (mret 5) p (ex_efm []) e1 1%positive 5 p e1 (default (new_context None [] 0 0 0) (e_contexts e1 !! 1%positive))
    (S!"a.xyz:3306") 1%positive (default (ex_monitor [] true []) (e_monitors e1 !! 1%positive)) E eq_refl eq_refl Hok) as (e3 & H1 & H2 & H3 & _);
    [rewrite E1; vm_compute; reflexivity..|discriminate|rewrite E1; vm_compute; reflexivity|rewrite E1; vm_compute; reflexivity|].
  exists e3. split; [exact H1|]. split; [exact H2|]. etrans; [exact H3|]. rewrite E1. vm_compute. reflexivity.
Defined.
