(* ===== verification/Transcode.v ===== *)
(** Unicode transcoding (src/util/unicode_transcode.cc): one character between
    UTF-8 octets, UTF-16 code units and UTF-32.

    Octets, units and characters are [Z]; a pointer to read from is the list of
    what lies behind it, and reading past its end is undefined.  The number of
    units consumed or produced is a [nat], 0 for an invalid sequence. *)

From S2P Require Import Prelude.

Local Open Scope Z_scope.

(** A read through a pointer. *)
Definition at_ptr (i : list Z) : res Z := match i with a :: _ => Ok a | [] => UB end.

(** [src/util/unicode_transcode.cc:48-63] utf16toutf32 *)
Definition utf16toutf32 (i : list Z) : res (nat * Z) :=
  a ← at_ptr i;
  if (0xd800 <=? a) && (a <=? 0xdbff) then
    let u := Z.lor 0x10000 (Z.shiftl (Z.land a 0x3ff) 10) in
    b ← at_ptr (tail i);
    if (b <? 0xdc00) || (0xdfff <? b) then mret (0%nat, u)
    else mret (2%nat, Z.lor u (Z.land b 0x3ff))
  else mret (1%nat, a).

(** Conversion to [UTF16] and [UTF8]. *)
Definition to_u16 (z : Z) : Z := z mod 2 ^ 16.
Definition to_u8 (z : Z) : Z := z mod 2 ^ 8.

(** [src/util/unicode_transcode.cc:74-89] utf32toutf16

    The units written; their number is the result. *)
Definition utf32toutf16 (i : Z) : list Z :=
  if i <? 0xffff then [Z.land i 0xffff]
  else if i <? 0x10ffff then
    let i := to_uint32 (i - 0x10000) in
    [to_u16 (Z.lor 0xd800 (Z.shiftr i 10)); to_u16 (Z.lor 0xdc00 (Z.land i 0x3ff))]
  else [].

(** The loop of [utf8toutf32] over the continuation octets. *)
Fixpoint continuation (x : nat) (i : list Z) (u : Z) : res (option Z) :=
  match x with
  | O => mret (Some u)
  | S x' =>
    c ← at_ptr i;
    let u := Z.lor (to_uint32 (Z.shiftl u 6)) (Z.land c 0x3f) in
    if negb (Z.shiftr c 6 =? 2) then mret None else continuation x' (tail i) u
  end.

(** [src/util/unicode_transcode.cc:102-137] utf8toutf32

    Which first octet starts a sequence of which length, and the bits of it
    that count. *)
Definition utf8toutf32 (i : list Z) : res (nat * Z) :=
  a ← at_ptr i;
  if a <? 0x80 then mret (1%nat, a) else
  let '(len, u) :=
    if a <? 0xe0 then (2%nat, Z.land a 0x1f)
    else if a <? 0xf0 then (3%nat, Z.land a 0x0f)
    else (4%nat, Z.land a 0x07) in
  r ← continuation (pred len) (tail i) u;
  match r with Some u => mret (len, u) | None => mret (0%nat, u) end.

(** The continuation octets of [utf32toutf8], the highest bits first. *)
Fixpoint trail (x : nat) (i : Z) : list Z :=
  match x with
  | O => []
  | S x' => to_u8 (Z.lor (Z.shiftl 1 7) (Z.land (Z.shiftr i (6 * Z.of_nat x')) 0x3f)) :: trail x' i
  end.

(** [src/util/unicode_transcode.cc:149-182] utf32toutf8

    The octets written; their number is the result. *)
Definition utf32toutf8 (i : Z) : list Z :=
  if i <? 0x80 then [Z.land i 0x7f]
  else if i <? 0x800 then to_u8 (Z.lor (Z.shiftl 3 6) (Z.shiftr i 6)) :: trail 1 i
  else if i <? 0x10000 then to_u8 (Z.lor (Z.shiftl 7 5) (Z.shiftr i 12)) :: trail 2 i
  else if i <? 0x10ffff then to_u8 (Z.lor (Z.shiftl 0xf 4) (Z.shiftr i 18)) :: trail 3 i
  else [].

(** ** Bits as arithmetic *)

(** A mask of low bits is a remainder, and setting bits that are clear is a
    sum. *)
Lemma land_low n a : 0 ≤ n → Z.land a (Z.ones n) = a mod 2 ^ n.
Proof. intros Hn. by rewrite Z.land_ones. Qed.

(** The two directions of one step: the top bits over [n] low bits. *)
Lemma shiftr_div n a : 0 ≤ n → Z.shiftr a n = a / 2 ^ n.
Proof. apply Z.shiftr_div_pow2. Qed.

Ltac bits_to_arith :=
  repeat match goal with
  | |- context [Z.land ?a 0x3ff] => change (Z.land a 0x3ff) with (Z.land a (Z.ones 10)); rewrite (land_low 10 a) by done
  | |- context [Z.land ?a 0xffff] => change (Z.land a 0xffff) with (Z.land a (Z.ones 16)); rewrite (land_low 16 a) by done
  | |- context [Z.land ?a 0x3f] => change (Z.land a 0x3f) with (Z.land a (Z.ones 6)); rewrite (land_low 6 a) by done
  | |- context [Z.land ?a 0x7f] => change (Z.land a 0x7f) with (Z.land a (Z.ones 7)); rewrite (land_low 7 a) by done
  | |- context [Z.land ?a 0x1f] => change (Z.land a 0x1f) with (Z.land a (Z.ones 5)); rewrite (land_low 5 a) by done
  | |- context [Z.land ?a 0x0f] => change (Z.land a 0x0f) with (Z.land a (Z.ones 4)); rewrite (land_low 4 a) by done
  | |- context [Z.land ?a 0x07] => change (Z.land a 0x07) with (Z.land a (Z.ones 3)); rewrite (land_low 3 a) by done
  | |- context [Z.shiftr ?a ?n] => rewrite (shiftr_div n a) by lia
  end.

(** *** UTF-8 *)

(** A continuation octet holds six bits. *)
Definition octet (i : Z) : Z := 0x80 + i mod 64.

Lemma trail_S x i : 0 ≤ i → trail (S x) i = octet (i / 2 ^ (6 * Z.of_nat x)) :: trail x i.
Proof.
  intros Hi. cbn [trail]. f_equal. bits_to_arith. unfold octet, to_u8.
  pose proof (Z.mod_pos_bound (i / 2 ^ (6 * Z.of_nat x)) 64 ltac:(lia)).
  change (Z.shiftl 1 7) with (2 * 2 ^ 6). change 64 with (2 ^ 6) in *. rewrite lor_high by lia. rewrite Z.mod_small; lia.
Qed.

Lemma octet_read x rest i u :
  0 ≤ i → 0 ≤ u < 2 ^ 26 →
  continuation (S x) (octet i :: rest) u = continuation x rest (u * 64 + i mod 64).
Proof.
  intros Hi Hu. cbn [continuation at_ptr]. unfold mbind, res_bind. cbn [at_ptr tail].
  pose proof (Z.mod_pos_bound i 64 ltac:(lia)) as Hm.
  assert (Z.shiftr (octet i) 6 = 2) as ->. { rewrite shiftr_div by lia. unfold octet. change (2 ^ 6) with 64. Z.to_euclidean_division_equations; lia. }
  cbn [negb Z.eqb Pos.eqb]. f_equal.
  change 0x3f with (Z.ones 6). rewrite (land_low 6) by lia. rewrite Z.shiftl_mul_pow2 by lia.
  assert (octet i mod 2 ^ 6 = i mod 64) as -> by (unfold octet; change (2 ^ 6) with 64; Z.to_euclidean_division_equations; lia).
  unfold to_uint32. rewrite Z.mod_small by lia. rewrite lor_high by lia. done.
Qed.

(** The remaining octets of a character, read back. *)
Lemma trail_read x i rest :
  0 ≤ i < 0x10ffff → (x ≤ 3)%nat → continuation x (trail x i ++ rest) (i / 2 ^ (6 * Z.of_nat x)) = Ok (Some i).
Proof.
  intros Hi. induction x as [|x IH]; intros Hx; [cbn; by rewrite Z.div_1_r|].
  rewrite trail_S by lia. cbn [app]. rewrite octet_read.
  - rewrite <- IH by lia. f_equal.
    replace (6 * Z.of_nat (S x)) with (6 * Z.of_nat x + 6) by lia. rewrite Z.pow_add_r by lia.
    rewrite <- Z.div_div by lia. change (2 ^ 6) with 64.
    pose proof (Z.div_mod (i / 2 ^ (6 * Z.of_nat x)) 64 ltac:(lia)). lia.
  - apply Z.div_pos; lia.
  - split; [apply Z.div_pos; lia|]. apply Z.div_lt_upper_bound; [lia|]. assert (0 < 2 ^ (6 * Z.of_nat (S x))) by lia. nia.
Qed.

(** The first octet tells the length and the high bits. *)
Lemma lead_octet n a i : 0 ≤ i → i / 2 ^ n < 2 ^ 5 → 0 ≤ n →
  to_u8 (Z.lor (a * 2 ^ 5) (Z.shiftr i n)) = to_u8 (a * 2 ^ 5 + i / 2 ^ n).
Proof.
  intros Hi Hb Hn. rewrite shiftr_div by done. rewrite lor_high; [done|lia|]. split; [by apply Z.div_pos; [|lia]|done].
Qed.

(** The encoding of a character from its first octet and length. *)
Lemma utf8_lead len lead n i rest :
  0 ≤ i < 0x10ffff → 0x80 ≤ lead < 256 → n = 6 * Z.of_nat (pred len) →
  (if lead <? 0xe0 then (2%nat, Z.land lead 0x1f) else if lead <? 0xf0 then (3%nat, Z.land lead 0x0f) else (4%nat, Z.land lead 0x07))
    = (len, i / 2 ^ n) → (pred len ≤ 3)%nat →
  utf8toutf32 (lead :: trail (pred len) i ++ rest) = Ok (len, i).
Proof.
  intros Hi Hl -> Hlen Hle. unfold utf8toutf32. cbn [at_ptr tail]. unfold mbind, res_bind.
  rewrite (proj2 (Z.ltb_ge lead 0x80)) by lia. rewrite Hlen, trail_read by done. done.
Qed.

Lemma utf8_utf32 i rest :
  0 ≤ i < 0x10ffff → utf8toutf32 (utf32toutf8 i ++ rest) = Ok (length (utf32toutf8 i), i).
Proof.
  intros Hi. unfold utf32toutf8.
  destruct (Z.ltb_spec i 0x80); [|destruct (Z.ltb_spec i 0x800); [|destruct (Z.ltb_spec i 0x10000); [|destruct (Z.ltb_spec i 0x10ffff); [|lia]]]].
  - bits_to_arith. rewrite Z.mod_small by (change (2 ^ 7) with 128; lia). unfold utf8toutf32. cbn [app at_ptr]. unfold mbind, res_bind.
    by rewrite (proj2 (Z.ltb_lt _ _)) by lia.
  - change (Z.shiftl 3 6) with (6 * 2 ^ 5). rewrite lead_octet by first [lia|apply Z.div_lt_upper_bound; lia].
    assert (0 ≤ i / 2 ^ 6 < 2 ^ 5) by (split; [apply Z.div_pos; lia|apply Z.div_lt_upper_bound; lia]).
    unfold to_u8. rewrite Z.mod_small by lia. apply (utf8_lead 2 _ 6); [done|lia|done| |lia].
    rewrite (proj2 (Z.ltb_lt _ _)) by lia. f_equal. bits_to_arith.
    rewrite Z.add_comm, Z.mod_add by lia. apply Z.mod_small; lia.
  - change (Z.shiftl 7 5) with (7 * 2 ^ 5). rewrite lead_octet by first [lia|apply Z.div_lt_upper_bound; lia].
    assert (0 ≤ i / 2 ^ 12 < 2 ^ 4) by (split; [apply Z.div_pos; lia|apply Z.div_lt_upper_bound; lia]).
    unfold to_u8. rewrite Z.mod_small by lia. apply (utf8_lead 3 _ 12); [done|lia|done| |lia].
    rewrite (proj2 (Z.ltb_ge _ _)), (proj2 (Z.ltb_lt _ _)) by lia. f_equal. bits_to_arith.
    replace (7 * 2 ^ 5) with (14 * 2 ^ 4) by lia. rewrite Z.add_comm, Z.mod_add by lia. apply Z.mod_small; lia.
  - change (Z.shiftl 0xf 4) with (30 * 2 ^ 3). rewrite shiftr_div by lia.
    assert (0 ≤ i / 2 ^ 18 < 2 ^ 3) by (split; [apply Z.div_pos; lia|apply Z.div_lt_upper_bound; lia]).
    rewrite lor_high by lia. unfold to_u8. rewrite Z.mod_small by lia. apply (utf8_lead 4 _ 18); [done|lia|done| |lia].
    rewrite !(proj2 (Z.ltb_ge _ _)) by lia. f_equal. bits_to_arith.
    rewrite Z.add_comm, Z.mod_add by lia. apply Z.mod_small; lia.
Qed.

(** *** UTF-16 *)

(** What [utf16toutf32] makes of a surrogate pair for [0x10000 + v]. *)
Lemma pair_read v rest :
  0 ≤ v < 2 ^ 20 →
  utf16toutf32 (to_u16 (Z.lor 0xd800 (Z.shiftr v 10)) :: to_u16 (Z.lor 0xdc00 (Z.land v 0x3ff)) :: rest) = Ok (2%nat, Z.lor 0x10000 v).
Proof.
  intros Hv. bits_to_arith.
  assert (0 ≤ v / 2 ^ 10 < 2 ^ 10) as Hh by (split; [apply Z.div_pos; lia|apply Z.div_lt_upper_bound; lia]).
  pose proof (Z.mod_pos_bound v (2 ^ 10) ltac:(lia)) as Hl.
  change 0xd800 with (54 * 2 ^ 10). change 0xdc00 with (55 * 2 ^ 10). rewrite !lor_high by lia.
  unfold to_u16. rewrite !Z.mod_small by lia. unfold utf16toutf32. cbn [at_ptr tail]. unfold mbind, res_bind.
  rewrite (proj2 (Z.leb_le _ _)), (proj2 (Z.leb_le _ _)), (proj2 (Z.ltb_ge _ _)), (proj2 (Z.ltb_ge _ _)) by lia. cbn [andb orb].
  assert (∀ a b, 0 ≤ b < 2 ^ 10 → Z.land (a * 2 ^ 10 + b) 0x3ff = b) as Hland
    by (intros a b Hb; bits_to_arith; rewrite Z.add_comm, Z.mod_add by lia; apply Z.mod_small; lia).
  rewrite !Hland by lia. rewrite <- Z.lor_assoc, Z.shiftl_mul_pow2, lor_high by lia.
  rewrite (Z.div_mod v (2 ^ 10)) at 3 by lia. by rewrite (Z.mul_comm (2 ^ 10)).
Qed.

(** [|] instead of [+] loses bit 16: only the characters of the planes with an
    odd number come back. *)
Lemma lor_plane v : 0 ≤ v → Z.lor 0x10000 v = 0x10000 + v ↔ Z.even (v / 2 ^ 16) = true.
Proof.
  intros Hv. pose proof (Z.add_lor_land 0x10000 v) as Hsum. rewrite <- shiftr_div by lia.
  assert (Z.land 0x10000 v = 0 ↔ Z.testbit v 16 = false) as Hland.
  { split.
    - intros H. apply (f_equal (λ z, Z.testbit z 16)) in H. by rewrite Z.land_spec in H.
    - intros H. apply Z.bits_inj'. intros m Hm. change 0x10000 with (2 ^ 16). rewrite Z.land_spec, Z.pow2_bits_eqb, Z.bits_0 by lia.
      destruct (Z.eqb_spec 16 m) as [<-|]; [by rewrite H|done]. }
  rewrite Z.testbit_odd in Hland. rewrite <- Z.negb_odd, negb_true_iff, <- Hland. lia.
Qed.

Lemma utf16_utf32 i rest :
  0 ≤ i < 0x10ffff → i ≠ 0xffff → ¬ (0xd800 ≤ i ≤ 0xdbff) →
  utf16toutf32 (utf32toutf16 i ++ rest) =
    Ok (length (utf32toutf16 i), if i <? 0x10000 then i else Z.lor 0x10000 (i - 0x10000)).
Proof.
  intros Hi Hf Hs. unfold utf32toutf16. destruct (Z.ltb_spec i 0xffff).
  - bits_to_arith. rewrite Z.mod_small by (change (2 ^ 16) with 65536; lia). unfold utf16toutf32. cbn [app at_ptr]. unfold mbind, res_bind.
    rewrite (proj2 (Z.ltb_lt i 0x10000)) by lia.
    destruct (Z.leb_spec 0xd800 i), (Z.leb_spec i 0xdbff); try done. lia.
  - destruct (Z.ltb_spec i 0x10ffff); [|lia]. rewrite (proj2 (Z.ltb_ge i 0x10000)) by lia.
    unfold to_uint32. rewrite Z.mod_small by lia. cbn [app]. rewrite pair_read by lia. done.
Qed.

(** A character below U+10FFFF is read back from its UTF-8 octets.  One that
    is neither U+FFFF nor a high surrogate is read back from its UTF-16 units if
    it is in the basic plane or in a supplementary plane with an odd number;
    in the planes 2, 4, ..., 16 it is read as another character.  U+10FFFF has no
    encoding at all, and U+FFFF is written as two units. *)
Theorem transcode_roundtrip i rest :
  0 ≤ i < 0x10ffff → i ≠ 0xffff → ¬ (0xd800 ≤ i ≤ 0xdbff) →
  utf8toutf32 (utf32toutf8 i ++ rest) = Ok (length (utf32toutf8 i), i) ∧
  (∃ u, utf16toutf32 (utf32toutf16 i ++ rest) = Ok (length (utf32toutf16 i), u) ∧
        (u = i ↔ i < 0x10000 ∨ Z.odd (i / 0x10000) = true)) ∧
  utf32toutf8 0x10ffff = [] ∧ utf32toutf16 0x10ffff = [] ∧ utf32toutf16 0xffff = [0xffff; 0xdfff].
Proof.
  intros Hi Hf Hs. split; [by apply utf8_utf32|]. split; [|done].
  eexists. split; [by apply utf16_utf32|]. destruct (Z.ltb_spec i 0x10000); [split; [by left|done]|].
  pose proof (lor_plane (i - 0x10000) ltac:(lia)) as Hp.
  replace ((i - 0x10000) / 2 ^ 16) with (Z.pred (i / 0x10000)) in Hp by (change (2 ^ 16) with 0x10000; Z.to_euclidean_division_equations; lia).
  rewrite Z.even_pred in Hp. replace (0x10000 + (i - 0x10000)) with i in Hp by lia. rewrite Hp. split; [by right|by intros [?|?]; [lia|]].
Qed.

(** U+20000, the first character of plane 2, is read as U+10000. *)
Lemma transcode_roundtrip_witness :
  utf8toutf32 (utf32toutf8 0x20000) = Ok (4%nat, 0x20000) ∧ utf16toutf32 (utf32toutf16 0x20000) = Ok (2%nat, 0x10000) ∧
  ∃ u, utf16toutf32 (utf32toutf16 0x1d11e ++ []) = Ok (2%nat, u) ∧ u = 0x1d11e.
Proof.
  destruct (transcode_roundtrip 0x20000 [] ltac:(lia) ltac:(lia) ltac:(lia)) as (H8 & (u & H16 & _) & _).
  split; [exact H8|]. split; [vm_compute; reflexivity|].
  destruct (transcode_roundtrip 0x1d11e [] ltac:(lia) ltac:(lia) ltac:(lia)) as (_ & (w & Hw & Hi) & _).
  exists w. split; [exact Hw|]. apply Hi. right. vm_compute. reflexivity.
Defined.
