(* ===== verification/StringUtil.v ===== *)
(** The string functions of src/util/stringutil.cc on wide strings.

    An [SQLWCHAR] is 16 bits wide (unixODBC, Windows); the branches for wider
    ones are left out.  A string in memory is the list of what lies behind its
    pointer: a reading loop that runs off the end is undefined, and so is a
    write past the end of a buffer.  Allocations succeed. *)

From S2P Require Import Prelude Transcode.

Local Open Scope Z_scope.

(** [SQL_NTS]: the length is to be found by the terminator. *)
Definition SQL_NTS : Z := -3.

(** ** Reading *)

(** [src/util/stringutil.cc:718-724] sqlwcharlen *)
Fixpoint sqlwcharlen (wstr : list Z) : res nat :=
  match wstr with
  | [] => UB
  | c :: w => if c =? 0 then Ok 0%nat else n ← sqlwcharlen w; Ok (S n)
  end.

(** The capitalization in [sqlwcharcasecmp], on 16 bits. *)
Definition capital (c : Z) : Z := if 97 <=? c then to_u16 (c - 32) else c.

(** [src/util/stringutil.cc:669-689] sqlwcharcasecmp

    1 for different strings. *)
Fixpoint sqlwcharcasecmp (s1 s2 : list Z) : res Z :=
  a ← at_ptr s1;
  if a =? 0 then b ← at_ptr s2; mret (if a =? b then 0 else 1) else
  b ← at_ptr s2;
  if b =? 0 then mret (if a =? b then 0 else 1) else
  if negb (capital a =? capital b) then mret 1 else
  match s1, s2 with _ :: s1', _ :: s2' => sqlwcharcasecmp s1' s2' | _, _ => UB end.

(** [src/util/stringutil.cc:697-710] sqlwcharchr

    The rest of the string from the character on. *)
Fixpoint sqlwcharchr (wstr : list Z) (wchr : Z) : res (option (list Z)) :=
  match wstr with
  | [] => UB
  | c :: w => if c =? 0 then Ok None else if c =? wchr then Ok (Some wstr) else sqlwcharchr w wchr
  end.

(** Unsigned long is 64 bits wide. *)
Definition to_ulong (z : Z) : Z := z mod 2 ^ 64.

(** The loop of [sqlwchartoul]. *)
Fixpoint toul_from (wstr : list Z) (r : Z) : res Z :=
  match wstr with
  | [] => UB
  | c :: w => if c =? 0 then Ok r
              else if (c <? 48) || (57 <? c) then Ok r
              else toul_from w (to_ulong (to_ulong (r * 10) + (c - 48)))
  end.

(** [src/util/stringutil.cc:751-768] sqlwchartoul *)
Definition sqlwchartoul (wstr : option (list Z)) : res Z :=
  match wstr with None => Ok 0 | Some w => toul_from w 0 end.

(** ** Buffers *)

Definition write (i : nat) (v : Z) : M (list Z) unit := λ b,
  if decide (i < length b)%nat then (Ok tt, <[i := v]> b) else (UB, b).
Definition read (i : nat) : M (list Z) Z := λ b,
  (match b !! i with Some c => Ok c | None => UB end, b).

(** The number of decimal digits, counted by division. *)
Fixpoint count_digits (fuel : nat) (v1 : Z) : nat :=
  match fuel with O => O | S f => if 0 <? v1 then S (count_digits f (v1 / 10)) else O end.

(** The digits are written from the last one. *)
Fixpoint write_digits (fuel : nat) (v1 : Z) (chars : nat) : M (list Z) unit :=
  match fuel with
  | O => mret tt
  | S f => if 0 <? v1 then write (pred chars) (48 + v1 mod 10);; write_digits f (v1 / 10) (pred chars) else mret tt
  end.

(** [src/util/stringutil.cc:774-782] sqlwcharfromul

    Twenty digits are enough for 64 bits. *)
Definition sqlwcharfromul (v : Z) : M (list Z) unit :=
  let chars := count_digits 20 v in
  write chars 0;;
  write_digits 20 v chars.

(** [src/util/stringutil.cc:792-805] sqlwcharncat2

    The loop, then the whole: what is left of [n], and how many were copied. *)
Fixpoint ncat_loop (src : list Z) (dest : nat) (n : Z) : M (list Z) (nat * Z) :=
  match src with
  | [] => undefined
  | c :: src' => if (c =? 0) || (n =? 0) then mret (dest, n) else write dest c;; ncat_loop src' (S dest) (n - 1)
  end.
Definition sqlwcharncat2 (src : list Z) (n : option Z) : M (list Z) (nat * option Z) :=
  match n with
  | None => mret (0%nat, n)
  | Some k =>
    if k =? 0 then mret (0%nat, n) else
    b ← get;
    orig_dest ← lift (sqlwcharlen b);
    r ← ncat_loop src orig_dest k;
    (if r.2 =? 0 then write (pred r.1) 0 else write r.1 0);;
    mret ((r.1 - orig_dest)%nat, Some r.2)
  end.

(** The loop of [sqlwcharncpy]: [n--] is evaluated, and wraps around, also
    when it ends the loop. *)
Fixpoint ncpy_loop (src : list Z) (dest : nat) (n : Z) : M (list Z) (nat * Z) :=
  match src with
  | [] => undefined
  | c :: src' => if c =? 0 then mret (dest, n)
                 else if n =? 0 then mret (dest, to_size_t (n - 1))
                 else write dest c;; ncpy_loop src' (S dest) (n - 1)
  end.

(** [src/util/stringutil.cc:811-822] sqlwcharncpy

    Where the terminator went.  With nothing copied and [n] zero, the place
    before the buffer is written to. *)
Definition sqlwcharncpy (src : list Z) (n : Z) : M (list Z) nat :=
  r ← ncpy_loop src 0 n;
  if r.2 =? 0 then (match r.1 with O => undefined | S d => write d 0 end);; mret r.1
  else write r.1 0;; mret r.1.

(** [src/util/stringutil.cc:733-742] sqlwchardup

    The copy and its terminator use [charlen] even when it is [SQL_NTS], as a
    size and as an index. *)
Definition sqlwchardup (wstr : list Z) (charlen : Z) : res (list Z) :=
  chars ← (if charlen =? SQL_NTS then n ← sqlwcharlen wstr; mret (Z.of_nat n) else mret charlen);
  if (charlen <? 0) || (chars <? charlen) || (Z.of_nat (length wstr) <? charlen) then UB
  else mret (take (Z.to_nat charlen) wstr ++ [0]).

(** ** Between wide strings and UTF-8 *)

(** The loop of [sqlwchar_as_utf8_ext] over [n] units: the octets, and whether
    a character took four of them.  An invalid pair ends it. *)
Fixpoint utf8_loop (fuel : nat) (str : list Z) (n : nat) (used4 : bool) : res (list Z * bool) :=
  match fuel, n with
  | _, O => mret ([], used4)
  | O, _ => UB
  | S f, _ =>
    r ← utf16toutf32 str;
    match r with
    | (O, _) => mret ([], used4)
    | (k, u) =>
      let o := utf32toutf8 u in
      rest ← utf8_loop f (drop k str) (n - k) (used4 || (length o =? 4)%nat);
      mret (o ++ rest.1, rest.2)
    end
  end.

(** [src/util/stringutil.cc:283-371] sqlwchar_as_utf8_ext

    [str] is the memory behind the pointer, [None] the null pointer; without
    a length the terminator is looked for. *)
Definition sqlwchar_as_utf8_ext (str : option (list Z)) (len : option Z) : res (list Z * bool) :=
  match str with
  | None => mret ([], false)
  | Some w =>
    n ← (match len with Some n => mret n | None => k ← sqlwcharlen w; mret (Z.of_nat k) end);
    if n <=? 0 then mret ([], false) else utf8_loop (Z.to_nat n) w (Z.to_nat n) false
  end.

(** [src/util/stringutil.cc:383-407] sqlwchar_as_utf8

    [None] for an empty string. *)
Definition sqlwchar_as_utf8 (str : option (list Z)) (len : Z) : res (option (list Z)) :=
  match str with
  | None => mret None
  | Some w =>
    n ← (if len =? SQL_NTS then k ← sqlwcharlen w; mret (Z.of_nat k) else mret len);
    if n <=? 0 then mret None
    else r ← sqlwchar_as_utf8_ext str (Some n); mret (Some r.1)
  end.

(** [src/util/stringutil.cc:410-414] sqlwchar_as_utf8_simple *)
Definition sqlwchar_as_utf8_simple (s : option (list Z)) : res (option (list Z)) := sqlwchar_as_utf8 s SQL_NTS.

(** Writing some units one after the other. *)
Fixpoint write_units (pos : nat) (l : list Z) : M (list Z) unit :=
  match l with [] => mret tt | u :: l' => write pos u;; write_units (S pos) l' end.

(** The loop of [utf8_as_sqlwchar]: [in] from the octet [i] on, up to
    [in_len]. *)
Fixpoint wide_loop (fuel : nat) (i : list Z) (left : Z) (pos : nat) (out_max : Z) : M (list Z) nat :=
  match fuel with
  | O => undefined
  | S f =>
    if (0 <? left) && (Z.of_nat pos <? out_max) then
      r ← lift (utf8toutf32 i);
      match r with
      | (O, _) => mret pos
      | (k, u) =>
        let l := utf32toutf16 u in
        write_units pos l;;
        wide_loop f (drop k i) (left - Z.of_nat k) (pos + length l)%nat out_max
      end
    else mret pos
  end.

(** [SQLSMALLINT] is 16 bits wide. *)
Definition to_int16 (z : Z) : Z := let u := z mod 2 ^ 16 in if u <? 2 ^ 15 then u else u - 2 ^ 16.

(** [src/util/stringutil.cc:427-456] utf8_as_sqlwchar *)
Definition utf8_as_sqlwchar (out_max : Z) (i : list Z) (in_len : Z) : M (list Z) Z :=
  pos ← wide_loop (S (Z.to_nat in_len)) i in_len 0 out_max;
  write pos 0;;
  mret (to_int16 (Z.of_nat pos)).

(** The loop of [sqlchar_as_sqlwchar]: the octets up to the given end or a
    null octet. *)
Fixpoint sqlwchar_loop (fuel : nat) (pos : list Z) (left : Z) (errors : Z) : res (list Z * Z) :=
  match fuel with
  | O => UB
  | S f =>
    if 0 <? left then
      c ← at_ptr pos;
      if c =? 0 then mret ([], errors) else
      r ← utf8toutf32 pos;
      match r with
      | (O, _) => mret ([], errors + 1)
      | (k, u) =>
        rest ← sqlwchar_loop f (drop k pos) (left - Z.of_nat k) errors;
        mret (utf32toutf16 u ++ rest.1, rest.2)
      end
    else mret ([], errors)
  end.

(** The length of a string of octets. *)
Fixpoint strlen (s : list Z) : res nat :=
  match s with [] => UB | c :: s' => if c =? 0 then Ok 0%nat else n ← strlen s'; Ok (S n) end.

(** [src/util/stringutil.cc:110-194] sqlchar_as_sqlwchar

    [to_utf8] converts a string of another character set, and counts its
    errors; [None] for a string in UTF-8.  [None] for an empty string. *)
Definition sqlchar_as_sqlwchar (to_utf8 : option (list Z → list Z * Z)) (str : option (list Z)) (len : Z) : res (option (list Z) * Z) :=
  match str with
  | None => mret (None, 0)
  | Some s =>
    n ← (if len =? SQL_NTS then k ← strlen s; mret (Z.of_nat k) else mret len);
    if n =? 0 then mret (None, 0) else
    let '(s, n, errors) := match to_utf8 with
                           | None => (s, n, 0)
                           | Some f => let '(u8, e) := f (take (Z.to_nat n) s) in (u8, Z.of_nat (length u8), e)
                           end in
    r ← sqlwchar_loop (S (Z.to_nat n)) s n errors;
    mret (Some r.1, r.2)
  end.

(** ** Numbers and brackets *)

(** [src/util/stringutil.cc:1734-1758] escape_brackets *)
Definition escape_brackets (val : list Z) (add_start_end : bool) : list Z :=
  if negb add_start_end && bool_decide (125 ∉ val) then val
  else (if add_start_end then [123] else []) ++ (c ← val; if c =? 125 then [125; 125] else [c]) ++
       (if add_start_end then [125] else []).

(** The digits of [myodbc_ll2str], the last one first into a buffer of 65. *)
Definition dig_vec_upper : str := "0123456789ABCDEFGHIJKLMNOPQRSTUVWXYZ".

Fixpoint ll_digits (fuel : nat) (uval radix : Z) (acc : str) : res str :=
  if uval =? 0 then mret acc else
  match fuel with
  | O => UB
  | S f => match dig_vec_upper !! Z.to_nat (uval - (uval / radix) * radix) with
           | Some d => ll_digits f (uval / radix) radix (d :: acc)
           | None => UB
           end
  end.

(** [src/util/stringutil.cc:1418-1467] myodbc_ll2str

    The text, [None] for a bad radix.  The two loops of the source differ in
    the width of their division; sixty-four digits fit the buffer. *)
Definition myodbc_ll2str (val radix : Z) : res (option str) :=
  let uval := val mod 2 ^ 64 in
  if radix <? 0 then
    if (radix <? -36) || (-2 <? radix) then mret None else
    let '(sign, uval) := if val <? 0 then (S!"-", (0 - uval) mod 2 ^ 64) else ([], uval) in
    if uval =? 0 then mret (Some (sign ++ S!"0")) else d ← ll_digits 64 uval (- radix) []; mret (Some (sign ++ d))
  else
    if (36 <? radix) || (radix <? 2) then mret None else
    if uval =? 0 then mret (Some (S!"0")) else d ← ll_digits 64 uval radix []; mret (Some d).

(** ** Texts *)

(** The characters that both encodings carry: not the terminator, and not one
    of those the UTF-16 functions damage. *)
Definition plain (c : Z) : Prop :=
  0 < c < 0x10ffff ∧ c ≠ 0xffff ∧ ¬ (0xd800 ≤ c ≤ 0xdbff) ∧ (c < 0x10000 ∨ Z.odd (c / 0x10000) = true).

#[export] Instance plain_dec c : Decision (plain c).
Proof. unfold plain. apply _. Defined.

Definition text16 (cs : list Z) : list Z := cs ≫= utf32toutf16.
Definition text8 (cs : list Z) : list Z := cs ≫= utf32toutf8.

Lemma plain_utf16 c rest : plain c → utf16toutf32 (utf32toutf16 c ++ rest) = Ok (length (utf32toutf16 c), c).
Proof.
  intros (Hc & Hf & Hs & Hp). rewrite utf16_utf32 by lia. f_equal. f_equal.
  destruct (Z.ltb_spec c 0x10000); [done|]. destruct Hp as [|Hp]; [lia|].
  rewrite (proj2 (lor_plane (c - 0x10000) ltac:(lia))); [lia|].
  replace ((c - 0x10000) / 2 ^ 16) with (Z.pred (c / 0x10000)) by (change (2 ^ 16) with 0x10000; Z.to_euclidean_division_equations; lia).
  by rewrite Z.even_pred.
Qed.

Lemma plain_utf8 c rest : plain c → utf8toutf32 (utf32toutf8 c ++ rest) = Ok (length (utf32toutf8 c), c).
Proof. intros (Hc & _). apply utf8_utf32. lia. Qed.

Lemma utf16_length c : plain c → (1 ≤ length (utf32toutf16 c) ≤ 2)%nat.
Proof.
  intros (Hc & _). unfold utf32toutf16. destruct (Z.ltb_spec c 0xffff); [simpl; lia|]. destruct (Z.ltb_spec c 0x10ffff); [simpl; lia|lia].
Qed.

Lemma utf8_length c : plain c → (1 ≤ length (utf32toutf8 c))%nat.
Proof.
  intros (Hc & _). unfold utf32toutf8.
  destruct (Z.ltb_spec c 0x80); [simpl; lia|]. destruct (Z.ltb_spec c 0x800); [simpl; lia|].
  destruct (Z.ltb_spec c 0x10000); [simpl; lia|]. destruct (Z.ltb_spec c 0x10ffff); [simpl; lia|lia].
Qed.

Lemma utf16_nonzero c u : plain c → u ∈ utf32toutf16 c → u ≠ 0.
Proof.
  intros (Hc & Hf & _). unfold utf32toutf16. destruct (Z.ltb_spec c 0xffff).
  - intros ->%list_elem_of_singleton. bits_to_arith. rewrite Z.mod_small by (change (2 ^ 16) with 65536; lia). lia.
  - destruct (Z.ltb_spec c 0x10ffff); [|lia]. unfold to_uint32. rewrite Z.mod_small by lia. bits_to_arith.
    assert (0 ≤ (c - 0x10000) / 2 ^ 10 < 2 ^ 10) by (split; [apply Z.div_pos; lia|apply Z.div_lt_upper_bound; lia]).
    pose proof (Z.mod_pos_bound (c - 0x10000) (2 ^ 10) ltac:(lia)).
    change 0xd800 with (54 * 2 ^ 10). change 0xdc00 with (55 * 2 ^ 10). rewrite !lor_high by lia. unfold to_u16. rewrite !Z.mod_small by lia.
    intros [->|[->|?%elem_of_nil]%elem_of_cons]%elem_of_cons; [lia|lia|done].
Qed.

Lemma sqlwcharlen_app l rest : Forall (λ u, u ≠ 0) l → sqlwcharlen (l ++ 0 :: rest) = Ok (length l).
Proof.
  induction 1 as [|u l Hu Hl IH]; [done|]. cbn [app sqlwcharlen]. rewrite (proj2 (Z.eqb_neq u 0) Hu), IH. done.
Qed.

Lemma text16_nonzero cs : Forall plain cs → Forall (λ u, u ≠ 0) (text16 cs).
Proof.
  intros Hcs. apply Forall_forall. intros u (c & Hu & Hc)%list_elem_of_bind. eapply utf16_nonzero; [|done].
  by apply (proj1 (Forall_forall _ _) Hcs).
Qed.

Lemma utf8_loop_text cs rest fuel b :
  Forall plain cs → (length (text16 cs) ≤ fuel)%nat →
  ∃ b', utf8_loop fuel (text16 cs ++ rest) (length (text16 cs)) b = Ok (text8 cs, b').
Proof.
  intros Hcs. revert fuel b. induction Hcs as [|c cs Hc Hcs IH]; intros fuel b Hf; [by exists b; destruct fuel|].
  unfold text16, text8 in *. cbn [mbind list_bind] in *. rewrite length_app in *. pose proof (utf16_length c Hc) as Hl.
  destruct fuel as [|fuel]; [lia|]. destruct (length (utf32toutf16 c)) as [|k] eqn:Ek; [lia|].
  cbn [utf8_loop Nat.add]. rewrite <- app_assoc, plain_utf16 by done. cbn [mbind res_bind]. rewrite Ek.
  replace (drop (S k) _) with (mbind utf32toutf16 cs ++ rest) by (rewrite <- Ek; by rewrite drop_app_length).
  replace (S (k + length (mbind utf32toutf16 cs)) - S k)%nat with (length (mbind utf32toutf16 cs)) by lia.
  destruct (IH fuel (b || (length (utf32toutf8 c) =? 4)%nat) ltac:(lia)) as [b' E]. exists b'. by rewrite E.
Qed.

(** *** Writing into a buffer *)

Lemma write_bind {B} i v (k : unit → M (list Z) B) b : (i < length b)%nat → (write i v ≫= k) b = k tt (<[i := v]> b).
Proof. intros Hi. unfold mbind, M_bind, write. by rewrite decide_True. Qed.

Lemma lift_bind {S A B} (r : res A) (k : A → M S B) a s : r = Ok a → (lift r ≫= k) s = k a s.
Proof. by intros ->. Qed.

(** A buffer with [l] laid over it from [pos] on. *)
Definition overlay (pos : nat) (l b : list Z) : list Z := take pos b ++ l ++ drop (pos + length l) b.

Lemma overlay_length pos l b : (pos + length l ≤ length b)%nat → length (overlay pos l b) = length b.
Proof. intros H. unfold overlay. rewrite !length_app, length_take, length_drop. lia. Qed.

Lemma overlay_nil pos b : overlay pos [] b = b.
Proof. unfold overlay. rewrite Nat.add_0_r. apply take_drop. Qed.

Lemma overlay_cons pos u l b :
  (pos + S (length l) ≤ length b)%nat → overlay (S pos) l (<[pos := u]> b) = overlay pos (u :: l) b.
Proof.
  intros H. unfold overlay. rewrite (take_S_r _ _ u), take_insert_ge, drop_insert_lt by first [lia|apply list_lookup_insert_eq; lia].
  rewrite <- app_assoc. cbn. by rewrite Nat.add_succ_r.
Qed.

Lemma overlay_app pos l1 l2 b :
  (pos + length (l1 ++ l2) ≤ length b)%nat → overlay (pos + length l1) l2 (overlay pos l1 b) = overlay pos (l1 ++ l2) b.
Proof.
  rewrite length_app. intros H. unfold overlay.
  assert (take (pos + length l1) (take pos b ++ l1 ++ drop (pos + length l1) b) = take pos b ++ l1) as ->.
  { rewrite app_assoc, take_app_length'; [done|]. rewrite length_app, length_take. lia. }
  rewrite <- !app_assoc. do 3 f_equal. rewrite app_assoc.
  rewrite drop_app_ge by (rewrite length_app, length_take; lia). rewrite drop_drop. f_equal. rewrite !length_app, length_take. lia.
Qed.

Lemma write_overlay pos u b : (pos < length b)%nat → write pos u b = (Ok tt, overlay pos [u] b).
Proof.
  intros H. unfold write. rewrite decide_True by done. f_equal.
  rewrite <- (overlay_nil (S pos) (<[pos := u]> b)). by apply overlay_cons; simpl; lia.
Qed.

Lemma write_units_run pos l b :
  (pos + length l ≤ length b)%nat → write_units pos l b = (Ok tt, overlay pos l b).
Proof.
  revert pos b. induction l as [|u l IH]; intros pos b H; simpl in H; [by rewrite overlay_nil|].
  cbn [write_units]. rewrite write_bind, IH by (rewrite ?length_insert; lia). by rewrite overlay_cons by lia.
Qed.

Lemma wide_loop_step fuel i left pos out_max u k b :
  0 < left → Z.of_nat pos < out_max → utf8toutf32 i = Ok (S k, u) → (pos + length (utf32toutf16 u) ≤ length b)%nat →
  wide_loop (S fuel) i left pos out_max b =
  wide_loop fuel (drop (S k) i) (left - Z.of_nat (S k)) (pos + length (utf32toutf16 u)) out_max (overlay pos (utf32toutf16 u) b).
Proof.
  intros Hl Hp Hu Hb. cbn [wide_loop]. rewrite (proj2 (Z.ltb_lt _ _)), (proj2 (Z.ltb_lt _ _)) by lia. cbn [andb].
  rewrite (lift_bind _ _ _ _ Hu). by rewrite (bind_Ok _ _ _ _ _ (write_units_run _ _ _ Hb)).
Qed.

Lemma wide_loop_end fuel i left pos out_max b :
  left ≤ 0 ∨ out_max ≤ Z.of_nat pos → wide_loop (S fuel) i left pos out_max b = (Ok pos, b).
Proof.
  intros H. cbn [wide_loop]. destruct (Z.ltb_spec 0 left), (Z.ltb_spec (Z.of_nat pos) out_max); [lia|done..].
Qed.

Lemma wide_loop_text cs rest fuel pos out_max b :
  Forall plain cs → (length (text8 cs) < fuel)%nat →
  (pos + length (text16 cs) ≤ length b)%nat → Z.of_nat (pos + length (text16 cs)) ≤ out_max →
  wide_loop fuel (text8 cs ++ rest) (Z.of_nat (length (text8 cs))) pos out_max b =
    (Ok (pos + length (text16 cs))%nat, overlay pos (text16 cs) b).
Proof.
  intros Hcs. revert fuel pos b. unfold text16, text8 in *. induction Hcs as [|c cs Hc Hcs IH]; intros fuel pos b Hf Hb Hm.
  - destruct fuel; [simpl in Hf; lia|]. rewrite wide_loop_end by (left; done). by rewrite overlay_nil, Nat.add_0_r.
  - cbn [mbind list_bind] in *. rewrite !length_app in *. pose proof (utf16_length c Hc). pose proof (utf8_length c Hc).
    destruct fuel as [|fuel]; [lia|]. destruct (length (utf32toutf8 c)) as [|k] eqn:Ek; [lia|].
    rewrite <- app_assoc. rewrite (wide_loop_step _ _ _ _ _ c k); [|lia|lia|by rewrite plain_utf8, Ek|lia].
    rewrite <- Ek, drop_app_length. replace (Z.of_nat (_ + _) - _) with (Z.of_nat (length (mbind utf32toutf8 cs))) by lia.
    rewrite IH by (rewrite ?overlay_length; lia). f_equal; [f_equal; rewrite ?length_app; lia|]. rewrite overlay_app; [done|]. rewrite length_app; lia.
Qed.

(** *** Both directions *)

Lemma to_int16_small z : 0 ≤ z < 2 ^ 15 → to_int16 z = z.
Proof. intros Hz. unfold to_int16. rewrite Z.mod_small by lia. cbv zeta. destruct (Z.ltb_spec z (2 ^ 15)); lia. Qed.

(** A text of plain characters comes through the conversions between wide
    strings and UTF-8: the octets of a terminated wide string are its UTF-8
    encoding, none at all for the empty string, and the units written for the
    octets are the UTF-16 encoding with a terminator, into a buffer of one unit
    more than [out_max], the rest of it left as it is. *)
Theorem wide_text_roundtrip cs rest out_max b :
  Forall plain cs → Z.of_nat (length (text16 cs)) ≤ out_max < 2 ^ 15 → out_max + 1 ≤ Z.of_nat (length b) →
  sqlwchar_as_utf8 (Some (text16 cs ++ 0 :: rest)) SQL_NTS = Ok (if decide (cs = []) then None else Some (text8 cs)) ∧
  utf8_as_sqlwchar out_max (text8 cs ++ rest) (Z.of_nat (length (text8 cs))) b =
    (Ok (Z.of_nat (length (text16 cs))), text16 cs ++ 0 :: drop (S (length (text16 cs))) b).
Proof.
  intros Hcs Hm Hb. split.
  - unfold sqlwchar_as_utf8. change (SQL_NTS =? SQL_NTS) with true. cbn [mbind res_bind].
    rewrite sqlwcharlen_app by by apply text16_nonzero. cbn [mbind res_bind mret res_ret]. case_decide as Hnil; [by subst|].
    assert (0 < length (text16 cs))%nat as Hl.
    { destruct Hcs as [|c cs' Hc _]; [done|]. pose proof (utf16_length c Hc). unfold text16. cbn. rewrite length_app. lia. }
    rewrite (proj2 (Z.leb_gt _ _)) by lia. unfold sqlwchar_as_utf8_ext. cbn [mbind res_bind mret res_ret].
    rewrite (proj2 (Z.leb_gt _ _)) by lia. rewrite Nat2Z.id.
    destruct (utf8_loop_text cs (0 :: rest) (length (text16 cs)) false Hcs ltac:(lia)) as [b' ->]. done.
  - unfold utf8_as_sqlwchar. rewrite Nat2Z.id. rewrite (bind_Ok _ _ _ _ _ (wide_loop_text cs rest _ 0 out_max b Hcs (Nat.lt_succ_diag_r _) ltac:(lia) ltac:(lia))).
    rewrite Nat.add_0_l. rewrite (bind_Ok _ _ _ _ _ (write_overlay (length (text16 cs)) 0 (overlay 0 (text16 cs) b) ltac:(rewrite overlay_length; lia))).
    unfold mret, M_ret. rewrite to_int16_small by lia. f_equal.
    rewrite (overlay_app 0 (text16 cs) [0]) by (rewrite length_app; simpl; lia).
    unfold overlay. rewrite length_app, firstn_O, <- app_assoc. cbn. do 3 f_equal. lia.
Qed.

(** The text U+E9, U+20AC, U+1D11E, and a buffer of eight units. *)
Lemma wide_text_roundtrip_witness :
  sqlwchar_as_utf8 (Some (text16 [0xe9; 0x20ac; 0x1d11e] ++ [0])) SQL_NTS = Ok (Some [195; 169; 226; 130; 172; 240; 157; 132; 158]) ∧
  utf8_as_sqlwchar 7 (text8 [0xe9; 0x20ac; 0x1d11e]) 9 (repeat 7 8) = (Ok 4, [233; 8364; 55348; 56606; 0; 7; 7; 7]).
Proof.
  destruct (wide_text_roundtrip [0xe9; 0x20ac; 0x1d11e] [] 7 (repeat 7 8)) as [H1 H2];
    [apply (bool_decide_unpack _); by vm_compute|vm_compute; done|vm_compute; done|].
  rewrite app_nil_r in H2. split; [exact H1|exact H2].
Defined.

(** *** Where the conversion writes *)

Lemma utf8_reads i : (4 ≤ length i)%nat → ∃ k u, utf8toutf32 i = Ok (k, u).
Proof.
  intros Hi. destruct i as [|a [|b [|c [|d i]]]]; simpl in Hi; try lia. unfold utf8toutf32. cbn [at_ptr mbind res_bind tail].
  repeat (case_match; simplify_eq/=; eauto).
Qed.

Lemma utf16_units u : (length (utf32toutf16 u) ≤ 2)%nat.
Proof. unfold utf32toutf16. repeat case_match; simpl; lia. Qed.

Lemma overlay_suffix n pos l b : (pos + length l ≤ n)%nat → (pos + length l ≤ length b)%nat → drop n (overlay pos l b) = drop n b.
Proof.
  intros Hn Hb. unfold overlay. rewrite app_assoc, drop_app_ge by (rewrite length_app, length_take; lia).
  rewrite drop_drop. f_equal. rewrite length_app, length_take. lia.
Qed.

Lemma wide_loop_bounds fuel i left pos out_max b :
  0 ≤ out_max → left < Z.of_nat fuel → (0 < fuel)%nat → left + 3 ≤ Z.of_nat (length i) →
  Z.of_nat pos ≤ out_max + 1 → out_max + 2 ≤ Z.of_nat (length b) →
  ∃ n b', wide_loop fuel i left pos out_max b = (Ok n, b') ∧ Z.of_nat n ≤ out_max + 1 ∧ length b' = length b ∧
          drop (Z.to_nat out_max + 1) b' = drop (Z.to_nat out_max + 1) b.
Proof.
  revert i left pos b. induction fuel as [|fuel IH]; intros i left pos b Ho Hf Hz Hi Hp Hb; [lia|].
  assert (∃ n b', (Ok pos, b) = (Ok n, b') ∧ Z.of_nat n ≤ out_max + 1 ∧ length b' = length b ∧
          drop (Z.to_nat out_max + 1) b' = drop (Z.to_nat out_max + 1) b) as Hend by (exists pos, b; done).
  destruct (decide (left ≤ 0 ∨ out_max ≤ Z.of_nat pos)) as [He|He]; [by rewrite wide_loop_end|].
  destruct (utf8_reads i ltac:(lia)) as (k & u & Hu). destruct k as [|k].
  - cbn [wide_loop]. rewrite (proj2 (Z.ltb_lt _ _)), (proj2 (Z.ltb_lt _ _)) by lia. cbn [andb]. by rewrite (lift_bind _ _ _ _ Hu).
  - pose proof (utf16_units u) as Hw. rewrite (wide_loop_step _ _ _ _ _ u k) by first [done|lia].
    edestruct (IH (drop (S k) i) (left - Z.of_nat (S k)) (pos + length (utf32toutf16 u))%nat (overlay pos (utf32toutf16 u) b))
      as (n & b' & -> & Hn & Hl & Hd); rewrite ?overlay_length by lia; rewrite ?length_drop; [lia..|].
    exists n, b'. rewrite Hd, Hl. split; [done|]. split; [done|]. split; [apply overlay_length; lia|apply overlay_suffix; lia].
Qed.

(** Whatever the octets are, the conversion returns, the units and their
    terminator lie within [out_max + 2] units, and what comes behind them is left
    alone; at least three octets can be read behind the given ones.  The
    length of the buffer alone, which is what [out_max] is documented to be, is
    not enough: two octets that fill a buffer of two have their terminator
    behind it, and a character of two units that starts at the last unit ends
    behind it. *)
Theorem utf8_as_sqlwchar_bounds out_max i in_len b :
  0 ≤ out_max < 2 ^ 15 - 1 → 0 ≤ in_len → in_len + 3 ≤ Z.of_nat (length i) → out_max + 2 ≤ Z.of_nat (length b) →
  (∃ n b', utf8_as_sqlwchar out_max i in_len b = (Ok n, b') ∧ 0 ≤ n ≤ out_max + 1 ∧ b' !! Z.to_nat n = Some 0 ∧
           length b' = length b ∧ drop (Z.to_nat out_max + 2) b' = drop (Z.to_nat out_max + 2) b) ∧
  (utf8_as_sqlwchar 2 [97; 98; 0; 0; 0] 2 [7; 7]).1 = UB ∧
  (utf8_as_sqlwchar 1 [240; 157; 132; 158; 0; 0; 0] 4 [7]).1 = UB.
Proof.
  intros Ho Hl Hi Hb. split; [|split; vm_compute; reflexivity].
  destruct (wide_loop_bounds (S (Z.to_nat in_len)) i in_len 0 out_max b) as (n & b' & E & Hn & Hlen & Hd); [lia..|].
  unfold utf8_as_sqlwchar. rewrite (bind_Ok _ _ _ _ _ E), write_bind by lia. unfold mret, M_ret.
  rewrite to_int16_small by lia. exists (Z.of_nat n), (<[n := 0]> b'). split; [done|]. split; [lia|].
  rewrite Nat2Z.id, list_lookup_insert_eq, length_insert, drop_insert_lt by lia. split; [done|]. split; [done|].
  assert (∀ l : list Z, drop (Z.to_nat out_max + 2) l = drop 1 (drop (Z.to_nat out_max + 1) l)) as Hdrop
    by (intros l; rewrite drop_drop; f_equal; lia). by rewrite !Hdrop, Hd.
Qed.

(** A truncated character at the end of a full buffer. *)
Lemma utf8_as_sqlwchar_bounds_witness :
  ∃ n b', utf8_as_sqlwchar 2 [97; 240; 157; 132; 158; 98; 0; 0; 0] 6 [7; 7; 7; 7; 7] = (Ok n, b') ∧ n = 3 ∧ b' = [97; 55348; 56606; 0; 7].
Proof.
  destruct (utf8_as_sqlwchar_bounds 2 [97; 240; 157; 132; 158; 98; 0; 0; 0] 6 [7; 7; 7; 7; 7] ltac:(lia) ltac:(lia)) as ((n & b' & E & _) & _);
    [simpl; lia|simpl; lia|].
  exists n, b'. split; [exact E|]. vm_compute in E. injection E as <- <-. done.
Defined.

(** *** Numbers as text *)

(** The decimal digits of a number, none for zero. *)
Fixpoint dec_digits (fuel : nat) (v : Z) : list Z :=
  match fuel with O => [] | S f => if 0 <? v then dec_digits f (v / 10) ++ [48 + v mod 10] else [] end.

Lemma count_digits_length fuel v : count_digits fuel v = length (dec_digits fuel v).
Proof.
  revert v. induction fuel as [|f IH]; intros v; [done|]. cbn. destruct (0 <? v); [|done]. rewrite IH, length_app. simpl. lia.
Qed.

Lemma overlay_snoc l d b : (length l < length b)%nat → overlay 0 l (<[length l := d]> b) = overlay 0 (l ++ [d]) b.
Proof.
  intros H. rewrite <- (overlay_app 0 l [d]) by (rewrite length_app; simpl; lia). unfold overlay.
  rewrite !firstn_O, !Nat.add_0_l. cbn [app]. rewrite take_app_length. f_equal.
  rewrite (drop_S _ d) by (apply list_lookup_insert_eq; lia). rewrite drop_insert_lt by lia. cbn. f_equal.
  rewrite drop_app_ge, drop_drop by lia. f_equal. lia.
Qed.

Lemma write_digits_run fuel v b :
  (length (dec_digits fuel v) ≤ length b)%nat →
  write_digits fuel v (length (dec_digits fuel v)) b = (Ok tt, overlay 0 (dec_digits fuel v) b).
Proof.
  revert v b. induction fuel as [|f IH]; intros v b Hb; [by rewrite overlay_nil|]. cbn [write_digits dec_digits] in *.
  destruct (0 <? v); [|by rewrite overlay_nil]. rewrite length_app in *. cbn [length] in *.
  rewrite Nat.add_1_r. cbn [pred]. rewrite write_bind, IH by (rewrite ?length_insert; lia). by rewrite overlay_snoc by lia.
Qed.

(** Reading the digits back, on top of a number read before. *)
Lemma toul_digits fuel v r rest :
  0 ≤ r → 0 ≤ v < 10 ^ Z.of_nat fuel → r * 10 ^ Z.of_nat (length (dec_digits fuel v)) + v < 2 ^ 64 →
  toul_from (dec_digits fuel v ++ rest) r = toul_from rest (r * 10 ^ Z.of_nat (length (dec_digits fuel v)) + v).
Proof.
  revert v r rest. induction fuel as [|f IH]; intros v r rest Hr Hv Hmax.
  - assert (v = 0) as -> by lia. cbn. f_equal. lia.
  - cbn [dec_digits] in *. destruct (Z.ltb_spec 0 v); [|cbn; f_equal; lia].
    rewrite length_app in *. cbn [length] in *. rewrite Nat.add_1_r, Nat2Z.inj_succ, Z.pow_succ_r in * by lia.
    pose proof (Z.mod_pos_bound v 10 ltac:(lia)). pose proof (Z.div_mod v 10 ltac:(lia)).
    rewrite <- app_assoc. rewrite IH; [|lia| |nia].
    + cbn [app toul_from]. rewrite (proj2 (Z.eqb_neq _ _)), (proj2 (Z.ltb_ge _ _)), (proj2 (Z.ltb_ge _ _)) by lia. cbn [orb].
      set (R := r * 10 ^ _ + v / 10).
      assert (0 < 10 ^ Z.of_nat (length (dec_digits f (v / 10)))) by lia.
      assert (0 ≤ v / 10) by (apply Z.div_pos; lia). assert (0 ≤ R) by (unfold R; nia).
      unfold to_ulong. rewrite (Z.mod_small (R * 10)), Z.mod_small by (unfold R in *; lia). f_equal. unfold R. lia.
    + split; [apply Z.div_pos; lia|]. apply Z.div_lt_upper_bound; lia.
Qed.

Lemma dec_digits_length v : 0 ≤ v < 2 ^ 64 → (length (dec_digits 20 v) ≤ 20)%nat.
Proof.
  intros _. generalize 20%nat as f. intros f. revert v. induction f as [|f IH]; intros v; [done|]. cbn [dec_digits].
  destruct (0 <? v); [|simpl; lia]. rewrite length_app. specialize (IH (v / 10)). simpl. lia.
Qed.

(** A number written as a wide string by [sqlwcharfromul] is what [sqlwchartoul]
    reads, whatever the buffer of at least twenty-one units held; zero is
    written as the empty string, and no digit wraps around up to
    [ULONG_MAX]. *)
Theorem ulong_text_roundtrip v b :
  0 ≤ v < 2 ^ 64 → (21 ≤ length b)%nat →
  ∃ b', sqlwcharfromul v b = (Ok tt, b') ∧ sqlwchartoul (Some b') = Ok v ∧ length b' = length b.
Proof.
  intros Hv Hb. pose proof (dec_digits_length v Hv). unfold sqlwcharfromul. rewrite count_digits_length.
  rewrite write_bind, write_digits_run by (rewrite ?length_insert; lia).
  rewrite overlay_snoc by lia. eexists. split; [done|]. split; [|apply overlay_length; rewrite length_app; cbn [length]; lia].
  unfold overlay. rewrite firstn_O. cbn [app sqlwchartoul]. rewrite <- app_assoc, toul_digits by lia. done.
Qed.

(** [ULONG_MAX] has twenty digits. *)
Lemma ulong_text_roundtrip_witness :
  ∃ b', sqlwcharfromul (2 ^ 64 - 1) (repeat 7 22) = (Ok tt, b') ∧ sqlwchartoul (Some b') = Ok (2 ^ 64 - 1) ∧ take 3 b' = [49; 56; 52].
Proof.
  destruct (ulong_text_roundtrip (2 ^ 64 - 1) (repeat 7 22) ltac:(lia)) as (b' & E & H & _); [simpl; lia|].
  exists b'. split; [exact E|]. split; [exact H|]. vm_compute in E. injection E as <-. done.
Defined.

(** *** Comparison without case *)

(** Two units that [sqlwcharcasecmp] does not tell apart: the letters in both
    cases, and the six units from the bracket to the backquote with those 32
    behind them. *)
Definition same_letter (a b : Z) : bool :=
  (a =? b) || ((65 <=? a) && (a <=? 96) && (b =? a + 32)) || ((65 <=? b) && (b <=? 96) && (a =? b + 32)).

Lemma capital_same a b : 0 < a < 2 ^ 16 → 0 < b < 2 ^ 16 → (capital a =? capital b) = same_letter a b.
Proof.
  intros Ha Hb. unfold capital, to_u16, same_letter. apply Bool.eq_iff_eq_true.
  rewrite !orb_true_iff, !andb_true_iff, !Z.eqb_eq, !Z.leb_le.
  destruct (Z.leb_spec 97 a), (Z.leb_spec 97 b); rewrite ?Z.mod_small by lia; lia.
Qed.

(** Two strings are the same for [sqlwcharcasecmp] when they have the same
    length and their units are the same or the two cases of one letter, which is
    what it is for; but a bracket and the brace 32 behind it are the same as well,
    and so are a backquote and unit 128, although they are no letters. *)
Theorem sqlwcharcasecmp_spec s t r1 r2 :
  Forall (λ a, 0 < a < 2 ^ 16) s → Forall (λ a, 0 < a < 2 ^ 16) t →
  sqlwcharcasecmp (s ++ 0 :: r1) (t ++ 0 :: r2) = Ok (if decide (Forall2 same_letter s t) then 0 else 1) ∧
  sqlwcharcasecmp [91; 96; 0] [123; 128; 0] = Ok 0.
Proof.
  intros Hs Ht. split; [|done]. revert t Ht. induction Hs as [|a s Ha Hs IH]; intros t' [|b t Hb Ht].
  - rewrite decide_True by constructor. done.
  - cbn [app sqlwcharcasecmp at_ptr mbind res_bind mret res_ret]. rewrite Z.eqb_refl, (proj2 (Z.eqb_neq 0 b)) by lia.
    rewrite decide_False; [done|]. intros H. inversion H.
  - cbn [app sqlwcharcasecmp at_ptr mbind res_bind mret res_ret]. rewrite Z.eqb_refl, (proj2 (Z.eqb_neq a 0)) by lia.
    rewrite decide_False; [done|]. intros H. inversion H.
  - cbn [app sqlwcharcasecmp at_ptr mbind res_bind mret res_ret].
    rewrite (proj2 (Z.eqb_neq a 0)), (proj2 (Z.eqb_neq b 0)), capital_same by lia.
    destruct (same_letter a b) eqn:E; cbn [negb].
    + rewrite IH by done. f_equal. apply decide_ext. split; [intros H; constructor; [by rewrite E|done]|]. intros H. by inversion H.
    + rewrite decide_False; [done|]. intros H. inversion H; subst. by rewrite E in *.
Qed.

Lemma sqlwcharcasecmp_spec_witness :
  sqlwcharcasecmp ([80; 119; 68] ++ [0]) ([112; 87; 100] ++ [0]) = Ok 0 ∧ sqlwcharcasecmp ([80; 119] ++ [0]) ([112; 86] ++ [0]) = Ok 1.
Proof.
  split.
  - exact (proj1 (sqlwcharcasecmp_spec [80; 119; 68] [112; 87; 100] [] [] ltac:(repeat constructor; lia) ltac:(repeat constructor; lia))).
  - exact (proj1 (sqlwcharcasecmp_spec [80; 119] [112; 86] [] [] ltac:(repeat constructor; lia) ltac:(repeat constructor; lia))).
Defined.

(** *** Numbers in a radix *)

Definition digit_value (c : ascii) : Z := let n := Z.of_nat (nat_of_ascii c) in if n <? 58 then n - 48 else n - 55.
Definition digits_value (radix : Z) (ds : str) : Z := fold_left (λ v c, v * radix + digit_value c) ds 0.

Lemma dig_vec_value n : 0 ≤ n < 36 → ∃ c, dig_vec_upper !! Z.to_nat n = Some c ∧ digit_value c = n.
Proof.
  intros Hn. assert (Forall (λ k, ∃ c, dig_vec_upper !! k = Some c ∧ digit_value c = Z.of_nat k) (seq 0 36)) as H
    by (repeat (constructor; [eexists; split; reflexivity|]); constructor).
  rewrite Forall_forall in H. destruct (H (Z.to_nat n)) as (c & Hc & Hv); [apply elem_of_seq; lia|]. exists c. split; [done|lia].
Qed.

Lemma fold_digits radix ds v : fold_left (λ v c, v * radix + digit_value c) ds v = v * radix ^ Z.of_nat (length ds) + digits_value radix ds.
Proof.
  unfold digits_value. revert v. induction ds as [|c ds IH]; intros v; [cbn; lia|].
  cbn [fold_left length]. rewrite IH, (IH (0 * radix + _)), Nat2Z.inj_succ, Z.pow_succ_r by lia. lia.
Qed.

Lemma ll_digits_value fuel uval radix acc :
  2 ≤ radix ≤ 36 → 0 ≤ uval < radix ^ Z.of_nat fuel →
  ∃ ds, ll_digits fuel uval radix acc = Ok (ds ++ acc) ∧ (length ds ≤ fuel)%nat ∧ digits_value radix ds = uval.
Proof.
  intros Hr. revert uval acc. induction fuel as [|f IH]; intros uval acc Hu.
  - assert (uval = 0) as -> by lia. by exists [].
  - cbn [ll_digits]. destruct (Z.eqb_spec uval 0) as [->|Hz]; [exists []; split; [done|]; split; [simpl; lia|done]|].
    pose proof (Z.mod_pos_bound uval radix ltac:(lia)) as Hm. pose proof (Z.div_mod uval radix ltac:(lia)) as Hd.
    destruct (dig_vec_value (uval - (uval / radix) * radix) ltac:(lia)) as (c & -> & Hc).
    rewrite Nat2Z.inj_succ, Z.pow_succ_r in Hu by lia.
    destruct (IH (uval / radix) (c :: acc)) as (ds & -> & Hl & Hv).
    { split; [apply Z.div_pos; lia|]. apply Z.div_lt_upper_bound; lia. }
    exists (ds ++ [c]). rewrite <- app_assoc. split; [done|]. rewrite length_app. split; [simpl; lia|].
    unfold digits_value in *. rewrite fold_left_app. cbn. lia.
Qed.

Lemma pow_radix radix : 2 ≤ radix → 2 ^ 64 ≤ radix ^ Z.of_nat 64.
Proof. intros Hr. apply Z.pow_le_mono_l. lia. Qed.

(** The text of a 64-bit integer in a radix from 2 to 36: the digits have its
    value and there are at most 64 of them.  A negative radix takes the integer
    as signed, and gives the sign and the digits of the absolute value, also for
    the least integer, whose negation overflows; a positive one takes it as
    unsigned.  A radix of another size gives no text. *)
Theorem ll2str_value val radix :
  - 2 ^ 63 ≤ val < 2 ^ 63 → 2 ≤ radix ≤ 36 →
  (∃ ds, myodbc_ll2str val (- radix) = Ok (Some ((if val <? 0 then S!"-" else []) ++ ds)) ∧
         digits_value radix ds = Z.abs val ∧ (length ds ≤ 64)%nat) ∧
  (∃ ds, myodbc_ll2str val radix = Ok (Some ds) ∧ digits_value radix ds = val mod 2 ^ 64 ∧ (length ds ≤ 64)%nat) ∧
  ∀ r, Z.abs r < 2 ∨ 36 < Z.abs r → myodbc_ll2str val r = Ok None.
Proof.
  intros Hv Hr. pose proof (pow_radix radix ltac:(lia)) as Hp. pose proof (Z.mod_pos_bound val (2 ^ 64) ltac:(lia)) as Hm.
  split; [|split].
  - assert ((if val <? 0 then (S!"-", (0 - val mod 2 ^ 64) mod 2 ^ 64) else ([], val mod 2 ^ 64)) =
            (if val <? 0 then S!"-" else [], Z.abs val)) as Hs.
    { destruct (Z.ltb_spec val 0); f_equal; [|rewrite Z.mod_small; lia].
      rewrite Zminus_mod_idemp_r, <- (Z.mod_add (0 - val) 0), Z.mod_small by lia. lia. }
    unfold myodbc_ll2str. rewrite (proj2 (Z.ltb_lt (- radix) 0)), (proj2 (Z.ltb_ge (- radix) (-36))), (proj2 (Z.ltb_ge (-2) (- radix))) by lia.
    cbn [orb]. rewrite Hs. clear Hs. destruct (Z.eqb_spec (Z.abs val) 0) as [Hz|Hz].
    { assert (val = 0) as -> by lia. exists (S!"0"). split; [done|]. split; [done|simpl; lia]. }
    rewrite Z.opp_involutive. destruct (ll_digits_value 64 (Z.abs val) radix []) as (ds & -> & Hl & Hd); [lia..|].
    exists ds. rewrite app_nil_r. split; [done|]. by split.
  - unfold myodbc_ll2str. rewrite (proj2 (Z.ltb_ge radix 0)), (proj2 (Z.ltb_ge 36 radix)), (proj2 (Z.ltb_ge radix 2)) by lia. cbn [orb].
    destruct (Z.eqb_spec (val mod 2 ^ 64) 0) as [->|Hz]; [exists (S!"0"); split; [done|]; split; [done|simpl; lia]|].
    destruct (ll_digits_value 64 (val mod 2 ^ 64) radix []) as (ds & -> & Hl & Hd); [lia..|].
    exists ds. rewrite app_nil_r. split; [done|]. by split.
  - intros r Hr'. unfold myodbc_ll2str. destruct (Z.ltb_spec r 0).
    + destruct (Z.ltb_spec r (-36)); [done|]. rewrite (proj2 (Z.ltb_lt (-2) r)) by lia. done.
    + destruct (Z.ltb_spec 36 r); [done|]. rewrite (proj2 (Z.ltb_lt r 2)) by lia. done.
Qed.

(** The least integer, in decimal and as sixty-four bits. *)
Lemma ll2str_value_witness :
  myodbc_ll2str (- 2 ^ 63) (-10) = Ok (Some (S!"-9223372036854775808")) ∧
  ∃ ds, myodbc_ll2str (- 2 ^ 63) 2 = Ok (Some ds) ∧ digits_value 2 ds = 2 ^ 63.
Proof.
  split.
  - destruct (ll2str_value (- 2 ^ 63) 10 ltac:(lia) ltac:(lia)) as ((ds & E & _) & _). vm_compute in E. vm_compute. exact (eq_refl _).
  - destruct (ll2str_value (- 2 ^ 63) 2 ltac:(lia) ltac:(lia)) as (_ & (ds & E & V & _) & _). exists ds. split; [exact E|exact V].
Defined.
