(* ===== verification/DataSource.v ===== *)
(** The options of a data source (src/util/installer.h, src/util/installer.cc):
    the classes of options, reading and writing connection strings, the
    numeric options and the copy of a data source.

    A [SQLWSTRING] is the list of its units, without a terminator; a pointer to
    units is the list of what lies behind it.  Asking the installer of the driver
    manager is left out ([lookup], [add], [exists]).  MFA is enabled. *)

From S2P Require Import Prelude Transcode StringUtil.

Local Open Scope Z_scope.

(** ** Names *)

(** [src/util/installer.h:377-388] STR_OPTIONS_LIST *)
Definition STR_OPTIONS_LIST : list string :=
  ["DSN"; "DRIVER"; "DESCRIPTION"; "SERVER"; "UID"; "PWD"; "PWD1"; "PWD2"; "PWD3"; "DATABASE"; "SOCKET"; "INITSTMT";
   "CHARSET"; "SSL_KEY"; "SSL_CERT"; "SSL_CA"; "SSL_CAPATH"; "SSL_CIPHER"; "SSL_MODE"; "RSAKEY"; "SAVEFILE";
   "PLUGIN_DIR"; "DEFAULT_AUTH"; "LOAD_DATA_LOCAL_DIR"; "OCI_CONFIG_FILE"; "OCI_CONFIG_PROFILE";
   "AUTHENTICATION_KERBEROS_MODE"; "TLS_VERSIONS"; "SSL_CRL"; "SSL_CRLPATH"; "SSLVERIFY"; "OPENTELEMETRY";
   "AUTH_MODE"; "AUTH_REGION"; "AUTH_HOST"; "AUTH_SECRET_ID"; "HOST_PATTERN"; "CLUSTER_ID"; "FAILOVER_MODE";
   "CUSTOM_ENDPOINT_REGION"; "FED_AUTH_MODE"; "IDP_USERNAME"; "IDP_PASSWORD"; "IDP_ENDPOINT"; "IAM_ROLE_ARN";
   "IAM_IDP_ARN"; "APP_ID"; "FED_AUTH_HOST"; "FED_AUTH_REGION"].

(** [src/util/installer.h:390-396] INT_OPTIONS_LIST *)
Definition INT_OPTIONS_LIST : list string :=
  ["PORT"; "READTIMEOUT"; "WRITETIMEOUT"; "CLIENT_INTERACTIVE"; "PREFETCH"; "TOPOLOGY_REFRESH_RATE";
   "FAILOVER_TIMEOUT"; "FAILOVER_TOPOLOGY_REFRESH_RATE"; "FAILOVER_WRITER_RECONNECT_INTERVAL";
   "FAILOVER_READER_CONNECT_TIMEOUT"; "CONNECT_TIMEOUT"; "NETWORK_TIMEOUT"; "AUTH_PORT"; "AUTH_EXPIRATION";
   "FAILURE_DETECTION_TIME"; "FAILURE_DETECTION_INTERVAL"; "FAILURE_DETECTION_COUNT"; "FAILURE_DETECTION_TIMEOUT";
   "MONITOR_DISPOSAL_TIME"; "CUSTOM_ENDPOINT_INFO_REFRESH_RATE_MS"; "WAIT_FOR_CUSTOM_ENDPOINT_INFO_TIMEOUT_MS";
   "CUSTOM_ENDPOINT_MONITOR_EXPIRATION_MS"; "IDP_PORT"; "CLIENT_SOCKET_TIMEOUT"; "CLIENT_CONNECT_TIMEOUT";
   "FED_AUTH_PORT"; "FED_AUTH_EXPIRATION"].

(** [src/util/installer.h:400-413] BOOL_OPTIONS_LIST *)
Definition BOOL_OPTIONS_LIST : list string :=
  ["FOUND_ROWS"; "BIG_PACKETS"; "COMPRESSED_PROTO"; "NO_BIGINT"; "SAFE"; "AUTO_RECONNECT"; "AUTO_IS_NULL";
   "NO_BINARY_RESULT"; "CAN_HANDLE_EXP_PWD"; "ENABLE_CLEARTEXT_PLUGIN"; "GET_SERVER_PUBLIC_KEY"; "NO_PROMPT";
   "DYNAMIC_CURSOR"; "NO_DEFAULT_CURSOR"; "NO_LOCALE"; "PAD_SPACE"; "NO_CACHE"; "FULL_COLUMN_NAMES"; "IGNORE_SPACE";
   "NAMED_PIPE"; "NO_CATALOG"; "NO_SCHEMA"; "USE_MYCNF"; "NO_TRANSACTIONS"; "FORWARD_CURSOR"; "MULTI_STATEMENTS";
   "COLUMN_SIZE_S32"; "MIN_DATE_TO_ZERO"; "ZERO_DATE_TO_MIN"; "DFLT_BIGINT_BIND_STR"; "LOG_QUERY"; "NO_SSPS";
   "NO_TLS_1_2"; "NO_TLS_1_3"; "NO_DATE_OVERFLOW"; "ENABLE_LOCAL_INFILE"; "ENABLE_DNS_SRV"; "MULTI_HOST";
   "ENABLE_CLUSTER_FAILOVER"; "GATHER_PERF_METRICS"; "GATHER_PERF_METRICS_PER_INSTANCE"; "ENABLE_FAILURE_DETECTION";
   "WAIT_FOR_CUSTOM_ENDPOINT_INFO"; "ENABLE_CUSTOM_ENDPOINT_MONITORING"; "ENABLE_SSL"].

(** [src/util/installer.h:438-441] ALIAS_OPTIONS_LIST *)
Definition ALIAS_OPTIONS_LIST : list (string * string) :=
  [("UID", "USER"); ("PWD", "PASSWORD"); ("PWD1", "PASSWORD1"); ("PWD2", "PASSWORD2"); ("PWD3", "PASSWORD3");
   ("DATABASE", "DB"); ("SSL_KEY", "SSLKEY"); ("SSL_CERT", "SSLCERT"); ("SSL_CA", "SSLCA");
   ("SSL_CAPATH", "SSLCAPATH"); ("SSL_CIPHER", "SSLCIPHER"); ("SSL_MODE", "SSLMODE")].

(** [src/util/installer.h:513-545] FLAG_FOUND_ROWS

    The option of each bit, in the order of [BIT_OPTIONS_LIST]. *)
Definition BIT_OPTIONS_LIST : list (string * Z) :=
  [("FOUND_ROWS", 2 ^ 1); ("BIG_PACKETS", 2 ^ 3); ("NO_PROMPT", 2 ^ 4); ("DYNAMIC_CURSOR", 2 ^ 5);
   ("NO_DEFAULT_CURSOR", 2 ^ 7); ("NO_LOCALE", 2 ^ 8); ("PAD_SPACE", 2 ^ 9); ("FULL_COLUMN_NAMES", 2 ^ 10);
   ("COMPRESSED_PROTO", 2 ^ 11); ("IGNORE_SPACE", 2 ^ 12); ("NAMED_PIPE", 2 ^ 13); ("NO_BIGINT", 2 ^ 14);
   ("NO_CATALOG", 2 ^ 15); ("USE_MYCNF", 2 ^ 16); ("SAFE", 2 ^ 17); ("NO_TRANSACTIONS", 2 ^ 18);
   ("LOG_QUERY", 2 ^ 19); ("NO_CACHE", 2 ^ 20); ("FORWARD_CURSOR", 2 ^ 21); ("AUTO_RECONNECT", 2 ^ 22);
   ("AUTO_IS_NULL", 2 ^ 23); ("ZERO_DATE_TO_MIN", 2 ^ 24); ("MIN_DATE_TO_ZERO", 2 ^ 25);
   ("MULTI_STATEMENTS", 2 ^ 26); ("COLUMN_SIZE_S32", 2 ^ 27); ("NO_BINARY_RESULT", 2 ^ 28);
   ("DFLT_BIGINT_BIND_STR", 2 ^ 29)].

(** [src/util/installer.cc:87-293] W_DSN

    The names of the options as they are written: the name of the constant
    without [W_], but for these. *)
Definition W_ (X : string) : string :=
  default X (snd <$> find (λ p, String.eqb p.1 X)
  [("SSL_KEY", "SSL-KEY"); ("SSL_CERT", "SSL-CERT"); ("SSL_CA", "SSL-CA"); ("SSL_CAPATH", "SSL-CAPATH");
   ("SSL_CIPHER", "SSL-CIPHER"); ("CLIENT_INTERACTIVE", "INTERACTIVE"); ("SSL_MODE", "SSL-MODE");
   ("AUTHENTICATION_KERBEROS_MODE", "AUTHENTICATION-KERBEROS-MODE"); ("TLS_VERSIONS", "TLS-VERSIONS");
   ("SSL_CRL", "SSL-CRL"); ("SSL_CRLPATH", "SSL-CRLPATH"); ("AUTH_MODE", "AUTHENTICATION_MODE");
   ("AUTH_REGION", "AWS_REGION"); ("AUTH_HOST", "IAM_HOST"); ("AUTH_PORT", "IAM_PORT");
   ("AUTH_EXPIRATION", "IAM_EXPIRATION_TIME"); ("AUTH_SECRET_ID", "SECRET_ID");
   ("FED_AUTH_REGION", "FED_AWS_REGION"); ("FED_AUTH_EXPIRATION", "FED_AUTH_EXPIRATION_TIME")]).

(** A literal in units. *)
Definition wide (s : string) : list Z := (λ c, Z.of_nat (nat_of_ascii c)) <$> String.list_ascii_of_string s.

(** [src/util/installer.h:415-416] FULL_OPTIONS_LIST *)
Definition FULL_OPTIONS_LIST : list string := STR_OPTIONS_LIST ++ INT_OPTIONS_LIST ++ BOOL_OPTIONS_LIST.

(** The order of a [std::map] with wide strings as keys. *)
Fixpoint wide_lt (a b : list Z) : bool :=
  match a, b with
  | _, [] => false
  | [], _ => true
  | x :: a', y :: b' => if x =? y then wide_lt a' b' else x <? y
  end.

(** [std::map::emplace]: an entry that is there stays. *)
Fixpoint emplace (k : list Z) (v : string) (m : list (list Z * string)) : list (list Z * string) :=
  match m with
  | [] => [(k, v)]
  | (k', v') :: m' => if bool_decide (k = k') then m
                      else if wide_lt k k' then (k, v) :: m else (k', v') :: emplace k v m'
  end.

(** [src/util/installer.cc:1033-1043] DataSource

    The map from names to options, which the constructor fills. *)
Definition m_opt_map : list (list Z * string) :=
  Eval vm_compute in
  let full := fold_left (λ m X, emplace (wide (W_ X)) X m) FULL_OPTIONS_LIST [] in
  fold_left (λ m XY, emplace (wide (W_ XY.2)) XY.1 m) ALIAS_OPTIONS_LIST full.

(** ** Options *)

(** [src/util/installer.h:76] opt_type *)
Inductive opt_type := STRING | INT | BOOL.

#[export] Instance opt_type_eq_dec : EqDecision opt_type.
Proof. solve_decision. Defined.

(** The values of the three classes: [optionStr], [optionVal<int>],
    [optionVal<bool>]. *)
Inductive value :=
  | Str (m_is_null : bool) (m_wstr m_str : list Z)
  | Int (m_val : Z)
  | Bool (m_val : bool).

(** [src/util/installer.h:74-104] optionBase *)
Record optionBase := Option { m_is_set : bool; m_is_default : bool; m_value : value }.

Definition get_type (o : optionBase) : opt_type :=
  match m_value o with Str _ _ _ => STRING | Int _ => INT | Bool _ => BOOL end.

Definition err_msg_not_set : exn := c_string "Option is used without being set".
Definition err_msg_null : exn := c_string "Option value is nullptr".

(** [src/util/installer.h:178-184] set_null *)
Definition set_null : optionBase := Option true false (Str true [] []).

(** [src/util/installer.cc:441-450] set *)
Definition set (val : list Z) (is_default : bool) : res optionBase :=
  r ← sqlwchar_as_utf8_ext (Some (val ++ [0])) (Some (to_int32 (Z.of_nat (length val))));
  mret (Option true is_default (Str false val r.1)).

(** The units up to the terminator, as the constructor of a [SQLWSTRING] from a
    pointer takes them. *)
Definition c_str (p : list Z) : res (list Z) := n ← sqlwcharlen p; mret (take n p).

(** The closing brackets of the loop of [set_remove_brackets]: of two in a row
    one is left. *)
Fixpoint collapse (l : list Z) : list Z :=
  match l with
  | a :: (b :: l'') as l' => if (a =? 125) && (b =? 125) then a :: collapse l'' else a :: collapse l'
  | _ => l
  end.

(** [src/util/installer.cc:764-807] set_remove_brackets

    The text goes to a buffer of 1024 units with its terminator.  The octets
    are converted from the new string, but as many units as the text had before
    brackets were taken out. *)
Definition set_remove_brackets (val_char : option (list Z)) (len : Z) : res optionBase :=
  match val_char with
  | None => mret set_null
  | Some p =>
    val_str ← (if negb (len =? SQL_NTS)
               then if len <? 0 then Throw (length_error "basic_string::_M_create")
                    else if Z.of_nat (length p) <? len then UB else mret (take (Z.to_nat len) p)
               else c_str p);
    let out := collapse val_str in
    if (1024 <=? length out)%nat then UB else
    m_wstr ← c_str (out ++ [0]);
    r ← sqlwchar_as_utf8_ext (Some (m_wstr ++ [0])) (Some (to_int32 (Z.of_nat (length val_str))));
    mret (Option true false (Str false m_wstr r.1))
  end.

(** [src/util/installer.h:117-124] optionVal

    A number as a wide string, written into 64 units. *)
Definition number_text (v : Z) : res (list Z) :=
  match sqlwcharfromul (to_ulong v) (repeat 0 64) with
  | (Ok _, numbuf) => c_str numbuf
  | (Throw e, _) => Throw e
  | (UB, _) => UB
  end.

(** An option as a [SQLWSTRING]. *)
Definition wstring (o : optionBase) : res (list Z) :=
  match m_value o with
  | Str m_is_null m_wstr _ => if m_is_null then Throw err_msg_null else mret m_wstr
  | Int m_val => if negb (m_is_set o) then Throw err_msg_not_set else number_text m_val
  | Bool m_val => if negb (m_is_set o) then Throw err_msg_not_set else number_text (if m_val then 1 else 0)
  end.

(** [src/util/installer.h:139-142] optionVal

    The assignment of a wide string, which each class has its own of. *)
Definition assign (o : optionBase) (val : list Z) : res optionBase :=
  match m_value o with
  | Str _ _ _ => set val false
  | Int _ => n ← sqlwchartoul (Some (val ++ [0])); mret (Option true false (Int (to_int32 n)))
  | Bool _ => n ← sqlwchartoul (Some (val ++ [0])); mret (Option true false (Bool (negb (n =? 0))))
  end.

(** ** The data source

    The options by the names of their members. *)
Abbreviation DataSource := (gmap string optionBase).

(** An option that is there; every member is. *)
Definition opt (X : string) : M DataSource optionBase := λ ds,
  (match ds !! X with Some o => Ok o | None => UB end, ds).
Definition set_opt (X : string) (o : optionBase) : M DataSource unit := modify <[X := o]>.

(** [optionVal] and [optionStr] as Booleans. *)
Definition opt_true (o : optionBase) : bool :=
  match m_value o with
  | Str m_is_null m_wstr _ => m_is_set o && negb m_is_null && negb (bool_decide (m_wstr = []))
  | Int m_val => negb (m_val =? 0)
  | Bool m_val => m_val
  end.

(** [src/util/installer.cc:1258-1262] set_numeric_options *)
Definition set_numeric_options (options : Z) : M DataSource unit :=
  mapM_ (λ XF, set_opt XF.1 (Option true false (Bool (0 <? Z.land options XF.2)))) BIT_OPTIONS_LIST.

(** [src/util/installer.cc:1265-1273] get_numeric_options

    An option that is not set throws. *)
Fixpoint get_bits (l : list (string * Z)) (options : Z) : M DataSource Z :=
  match l with
  | [] => mret options
  | (X, F) :: l' =>
    o ← opt X;
    if negb (m_is_set o) then throw err_msg_not_set
    else get_bits l' (if opt_true o then Z.lor options F else options)
  end.
Definition get_numeric_options : M DataSource Z := get_bits BIT_OPTIONS_LIST 0.

(** [toupper] of the "C" locale; other units are left alone. *)
Definition toupper_unit (c : Z) : Z := if (97 <=? c) && (c <=? 122) then c - 32 else c.

(** [src/util/installer.cc:917-925] get_opt

    The member that the name stands for. *)
Definition get_opt (name : list Z) : option string :=
  let wname := toupper_unit <$> name in
  snd <$> find (λ kX, bool_decide (kX.1 = wname)) m_opt_map.

(** [src/util/installer.cc:911-915] set_val *)
Definition set_val (name val : list Z) : M DataSource unit :=
  match get_opt name with
  | Some X => o ← opt X; o' ← lift (assign o val); set_opt X o'
  | None => mret tt
  end.

(** [src/util/installer.cc:1045-1089] reset *)
Definition reset : DataSource :=
  let set_default v := Option true true v in
  let ints := [("PORT", 3306); ("TOPOLOGY_REFRESH_RATE", 30000); ("FAILOVER_TIMEOUT", 60000);
    ("FAILOVER_READER_CONNECT_TIMEOUT", 30000); ("FAILOVER_TOPOLOGY_REFRESH_RATE", 5000);
    ("FAILOVER_WRITER_RECONNECT_INTERVAL", 5000); ("CONNECT_TIMEOUT", 30); ("NETWORK_TIMEOUT", 30);
    ("FAILURE_DETECTION_TIME", 30000); ("FAILURE_DETECTION_INTERVAL", 5000); ("FAILURE_DETECTION_COUNT", 3);
    ("MONITOR_DISPOSAL_TIME", 60000); ("FAILURE_DETECTION_TIMEOUT", 5);
    ("WAIT_FOR_CUSTOM_ENDPOINT_INFO_TIMEOUT_MS", 5000); ("CUSTOM_ENDPOINT_INFO_REFRESH_RATE_MS", 30000);
    ("CUSTOM_ENDPOINT_MONITOR_EXPIRATION_MS", 900000); ("AUTH_PORT", 3306); ("AUTH_EXPIRATION", 900);
    ("FED_AUTH_PORT", 3306); ("FED_AUTH_EXPIRATION", 900); ("IDP_PORT", 443);
    ("CLIENT_CONNECT_TIMEOUT", 60); ("CLIENT_SOCKET_TIMEOUT", 60)] in
  let bools := [("ENABLE_CLUSTER_FAILOVER", true); ("GATHER_PERF_METRICS", false);
    ("ENABLE_FAILURE_DETECTION", true); ("WAIT_FOR_CUSTOM_ENDPOINT_INFO", true); ("ENABLE_SSL", true)] in
  let ds := fold_left (λ ds X, <[X := set_default (Str true [] [])]> ds) STR_OPTIONS_LIST ∅ in
  let ds := fold_left (λ ds X, <[X := set_default (Int 0)]> ds) INT_OPTIONS_LIST ds in
  let ds := fold_left (λ ds X, <[X := set_default (Bool false)]> ds) BOOL_OPTIONS_LIST ds in
  let ds := <["NO_SCHEMA" := Option true false (Bool true)]> ds in
  let ds := fold_left (λ ds Xv, <[Xv.1 := set_default (Int Xv.2)]> ds) ints ds in
  fold_left (λ ds Xv, <[Xv.1 := set_default (Bool Xv.2)]> ds) bools ds.

(** [src/util/installer.cc:896-909] copy

    A string is passed through [set_remove_brackets] with its length, also a
    null one; numbers are assigned as they are. *)
Definition copy_string (ds_source : DataSource) (X : string) : M DataSource unit :=
  match ds_source !! X with
  | Some (Option is_set _ (Str null w _)) =>
    if negb is_set then throw err_msg_not_set else
    o ← lift (if null then set_remove_brackets None 0
              else n ← sqlwcharlen (w ++ [0]); set_remove_brackets (Some (w ++ [0])) (Z.of_nat n));
    set_opt X o
  | _ => undefined
  end.
Definition copy_number (ds_source : DataSource) (X : string) : M DataSource unit :=
  match ds_source !! X with Some o => set_opt X o | None => undefined end.
Definition copy (ds_source : option DataSource) : M DataSource unit :=
  match ds_source with
  | None => mret tt
  | Some src =>
    mapM_ (copy_string src) STR_OPTIONS_LIST;;
    mapM_ (copy_number src) INT_OPTIONS_LIST;;
    mapM_ (copy_number src) BOOL_OPTIONS_LIST
  end.

(** ** Writing a connection string *)

(** [src/util/installer.cc:377-400] value_needs_escaped *)
Fixpoint value_needs_escaped (s : list Z) : bool :=
  match s with
  | [] => false
  | c :: s' =>
    if c =? 0 then false
    else if ((48 <=? c) && (c <=? 57)) || ((97 <=? c) && (c <=? 122)) || ((65 <=? c) && (c <=? 90)) then value_needs_escaped s'
    else if (c =? 95) || (c =? 32) || (c =? 46) then value_needs_escaped s'
    else true
  end.

(** One round of the loop of [to_kvpair]. *)
Definition kvpair (ds : DataSource) (name_is_set : bool) (delim : Z) (kX : list Z * string) : res (list Z) :=
  match ds !! kX.2 with
  | None => UB
  | Some v =>
    driver ← sqlwcharcasecmp (wide "DRIVER" ++ [0]) (kX.1 ++ [0]);
    if negb (m_is_set v) || m_is_default v || (name_is_set && (driver =? 0)) then mret [] else
    do_escape ← (if bool_decide (get_type v = STRING) then w ← wstring v; mret (value_needs_escaped w) else mret false);
    w ← wstring v;
    mret (kX.1 ++ [61] ++ (if do_escape : bool then [123] else []) ++ escape_brackets w false ++
          (if do_escape then [125] else []) ++ [delim])
  end.

Fixpoint kvpairs (ds : DataSource) (name_is_set : bool) (delim : Z) (l : list (list Z * string)) : res (list Z) :=
  match l with
  | [] => mret []
  | kX :: l' => t ← kvpair ds name_is_set delim kX; r ← kvpairs ds name_is_set delim l'; mret (t ++ r)
  end.

(** [src/util/installer.cc:1091-1122] to_kvpair *)
Definition to_kvpair (ds : DataSource) (delim : Z) : res (list Z) :=
  match ds !! "DSN" with
  | None => UB
  | Some o => kvpairs ds (negb (m_is_default o)) delim m_opt_map
  end.

(** ** Reading a connection string *)

(** Skips spaces. *)
Fixpoint skip_spaces (p : list Z) : list Z :=
  match p with c :: p' => if c =? 32 then skip_spaces p' else p | [] => [] end.

(** The spaces at the end of an attribute.  Nothing but spaces runs off its
    beginning. *)
Fixpoint trim_attribute (rev_attribute : list Z) : res (list Z) :=
  match rev_attribute with
  | [] => UB
  | c :: a => if c =? 32 then trim_attribute a else mret (rev (c :: a))
  end.

(** The end of an escaped value: a closing bracket that is not one of two, or
    the end of the text behind two. *)
Fixpoint find_bracket_end (fuel : nat) (e : list Z) : res (option (list Z)) :=
  match fuel with
  | O => UB
  | S f =>
    r ← sqlwcharchr e 125;
    match r with
    | None => mret None
    | Some e1 =>
      b ← at_ptr (tail e1);
      if b =? 0 then mret (Some e1)
      else if b =? 125 then
        let e2 := drop 2 e1 in
        c ← at_ptr e2;
        if c =? 0 then mret (Some e2) else find_bracket_end f e2
      else mret (Some e1)
    end
  end.

(** The length of a value without the spaces at its end, unless a bracket
    follows. *)
Fixpoint trim_value (split : list Z) (e : nat) : nat :=
  match e with
  | O => O
  | S e' => if bool_decide (split !! e' = Some 32) && negb (bool_decide (split !! S e' = Some 125)) then trim_value split e' else e
  end.

(** Skips to the next attribute. *)
Fixpoint skip_delims (str : list Z) (delim : Z) : res (list Z) :=
  match str with
  | [] => UB
  | c :: str' =>
    if c =? 32 then skip_delims str' delim
    else if negb (delim =? 0) then if c =? delim then skip_delims str' delim else mret str
    else if c =? 0 then d ← at_ptr str'; if d =? 0 then mret str else skip_delims str' delim
    else mret str
  end.

(** What an attribute does: an option is assigned, the numeric options are set,
    and an unknown one is passed over.  [split] is the value and what follows,
    [e] the length of the value, less than nothing for a delimiter in front of it.
    The result is what is left to read. *)
Definition set_attribute (attribute split : list Z) (e : Z) (end_ : list Z) : M DataSource (list Z) :=
  is_option ← lift (sqlwcharcasecmp (wide "OPTION" ++ [0]) (attribute ++ [0]));
  if is_option =? 0 then n ← lift (sqlwchartoul (Some split)); set_numeric_options n;; mret end_
  else match get_opt attribute with
  | None => mret end_
  | Some X =>
    o ← opt X;
    if bool_decide (get_type o = STRING) then
      b ← lift (at_ptr split); c ← lift (at_ptr end_);
      if (b =? 123) && (c =? 125) then
        o' ← lift (set_remove_brackets (Some (tail split)) (e - 1)); set_opt X o';; mret (tail end_)
      else o' ← lift (set_remove_brackets (Some split) e); set_opt X o';; mret end_
    else val ← lift (c_str split); o' ← lift (assign o val); set_opt X o';; mret end_
  end.

(** [src/util/installer.cc:930-1030] from_kvpair

    One attribute after the other; 1 for a text without a "=" or with too long
    an attribute. *)
Fixpoint from_kvpair_loop (fuel : nat) (str : list Z) (delim : Z) : M DataSource Z :=
  match fuel with
  | O => undefined
  | S f =>
    c ← lift (at_ptr str);
    if c =? 0 then mret 0 else
    r ← lift (sqlwcharchr str 61);
    match r with
    | None => mret 1
    | Some eq =>
      let str := skip_spaces str in
      let len := (length str - length eq)%nat in
      if (1000 <=? len)%nat then mret 1 else
      attribute ← lift (trim_attribute (rev (take len str)));
      let split := skip_spaces (tail eq) in
      b ← lift (at_ptr split);
      found ← lift (if b =? 123 then find_bracket_end (length str) str else sqlwcharchr str delim);
      n ← lift (sqlwcharlen str);
      let end_ := match found with Some end_ => end_ | None => drop n str end in
      let e := Z.of_nat (length split) - Z.of_nat (length end_) in
      let e' := if 0 <? e then Z.of_nat (trim_value split (Z.to_nat e)) else e in
      rest ← set_attribute attribute split e' (if 0 <? e then drop (Z.to_nat e') split else end_);
      rest ← lift (skip_delims rest delim);
      from_kvpair_loop f rest delim
    end
  end.
Definition from_kvpair (str : list Z) (delim : Z) : M DataSource Z := from_kvpair_loop (S (length str)) str delim.

(** ** Brackets *)

Definition escape (w : list Z) : list Z := c ← w; if c =? 125 then [125; 125] else [c].

Lemma escape_cons c w : escape (c :: w) = (if c =? 125 then [125; 125] else [c]) ++ escape w.
Proof. done. Qed.

Lemma escape_plain w : 125 ∉ w → escape w = w.
Proof.
  induction w as [|c w IH]; [done|]. intros [Hc Hw]%not_elem_of_cons. rewrite escape_cons, (proj2 (Z.eqb_neq c 125)) by done.
  by rewrite IH.
Qed.

Lemma escape_brackets_false w : escape_brackets w false = escape w.
Proof.
  unfold escape_brackets. cbn [negb andb]. case_bool_decide; [by rewrite escape_plain|]. by rewrite app_nil_r.
Qed.

(** Taking brackets out undoes the escaping. *)
Lemma collapse_escape w : collapse (escape w) = w.
Proof.
  induction w as [|c w IH]; [done|]. rewrite escape_cons. destruct (Z.eqb_spec c 125) as [->|Hc].
  - cbn. by rewrite IH.
  - cbn [app]. destruct (escape w) as [|b l] eqn:E; cbn [collapse].
    + f_equal. by rewrite <- IH.
    + rewrite (proj2 (Z.eqb_neq c 125)) by done. cbn [andb]. exact (f_equal (cons c) IH).
Qed.

Definition brackets (w : list Z) : nat := length (filter (λ c, c = 125) w).

Lemma escape_length w : length (escape w) = (length w + brackets w)%nat.
Proof.
  unfold brackets. induction w as [|c w IH]; [done|]. rewrite escape_cons, length_app, IH, filter_cons.
  destruct (Z.eqb_spec c 125), (decide (c = 125)); try done; simpl; lia.
Qed.

Lemma escape_nonzero w : Forall (λ c, c ≠ 0) w → Forall (λ c, c ≠ 0) (escape w).
Proof. induction 1 as [|c w Hc Hw IH]; [done|]. rewrite escape_cons. destruct (c =? 125); repeat constructor; done. Qed.

(** ** Reading units *)

Lemma c_str_app w rest : Forall (λ c, c ≠ 0) w → c_str (w ++ 0 :: rest) = Ok w.
Proof. intros Hw. unfold c_str. rewrite sqlwcharlen_app by done. cbn. by rewrite take_app_length. Qed.

Lemma chr_found l c r : Forall (λ u, u ≠ 0 ∧ u ≠ c) l → c ≠ 0 → sqlwcharchr (l ++ c :: r) c = Ok (Some (c :: r)).
Proof.
  intros Hl Hc. induction Hl as [|u l [Hu Huc] Hl IH]; cbn [app sqlwcharchr].
  - by rewrite (proj2 (Z.eqb_neq c 0)), Z.eqb_refl.
  - by rewrite (proj2 (Z.eqb_neq u 0)), (proj2 (Z.eqb_neq u c)).
Qed.

(** Conversion to UTF-8 reads no further than the terminator. *)
Lemma utf8_terminated w n fuel b :
  Forall (λ c, c ≠ 0) w → (n ≤ S (length w))%nat → (n ≤ fuel)%nat → ∃ r, utf8_loop fuel (w ++ [0]) n b = Ok r.
Proof.
  revert w n b. induction fuel as [|f IH]; intros w n b Hw Hn Hf.
  { assert (n = O) as -> by lia. eexists; reflexivity. }
  destruct n as [|n]; [eexists; reflexivity|]. cbn [utf8_loop]. destruct w as [|a w]; simpl in Hn.
  { assert (n = O) as -> by lia. cbn. destruct f; eexists; reflexivity. }
  apply Forall_cons in Hw as [Ha Hw]. cbn [app]. unfold utf16toutf32. cbn [at_ptr mbind res_bind tail].
  destruct ((0xd800 <=? a) && (a <=? 0xdbff)).
  - destruct w as [|c w]; [cbn; eexists; reflexivity|]. cbn [app at_ptr mbind res_bind]. destruct ((c <? 0xdc00) || (0xdfff <? c)); cbn [mret res_ret mbind res_bind]; [eexists; reflexivity|].
    apply Forall_cons in Hw as [_ Hw]. cbn [mret res_ret mbind res_bind drop].
    edestruct (IH w (S n - 2)%nat) as [r ->]; [done|simpl in Hn; lia|lia|eexists; reflexivity].
  - cbn [mret res_ret mbind res_bind drop]. edestruct (IH w (S n - 1)%nat) as [r ->]; [done|lia|lia|eexists; reflexivity].
Qed.

Lemma utf8_ext_terminated w n :
  Forall (λ c, c ≠ 0) w → n ≤ Z.of_nat (S (length w)) → ∃ r, sqlwchar_as_utf8_ext (Some (w ++ [0])) (Some n) = Ok r.
Proof.
  intros Hw Hn. unfold sqlwchar_as_utf8_ext. cbn [mbind res_bind mret res_ret]. destruct (n <=? 0); [by eexists|].
  apply utf8_terminated; [done|lia|lia].
Qed.

Lemma collapse_forall (P : Z → Prop) l : Forall P l → Forall P (collapse l).
Proof.
  remember (length l) as n eqn:Hn. revert l Hn. induction n as [n IH] using lt_wf_ind. intros l -> Hl.
  destruct l as [|a [|b l]]; [done|done|]. apply Forall_cons in Hl as [Ha Hl]. pose proof (proj1 (Forall_cons _ _ _) Hl) as [Hb Hl'].
  change (collapse (a :: b :: l)) with (if (a =? 125) && (b =? 125) then a :: collapse l else a :: collapse (b :: l)).
  destruct ((a =? 125) && (b =? 125)); constructor; [done| |done|]; (eapply IH; [|reflexivity|done]); simpl; lia.
Qed.

Lemma collapse_length l : (length (collapse l) ≤ length l)%nat.
Proof.
  remember (length l) as n eqn:Hn. revert l Hn. induction n as [n IH] using lt_wf_ind. intros l ->.
  destruct l as [|a [|b l]]; [done|done|].
  change (collapse (a :: b :: l)) with (if (a =? 125) && (b =? 125) then a :: collapse l else a :: collapse (b :: l)).
  pose proof (IH (length l) ltac:(simpl; lia) l eq_refl). pose proof (IH (length (b :: l)) ltac:(simpl; lia) (b :: l) eq_refl).
  destruct ((a =? 125) && (b =? 125)); simpl in *; lia.
Qed.

(** The brackets are taken out of a text, if what is left is at most 1023 units
    and at most one unit shorter. *)
Lemma set_remove_brackets_text t rest :
  Forall (λ c, c ≠ 0) t → (length (collapse t) < 1024)%nat → (length t ≤ S (length (collapse t)))%nat →
  ∃ s, set_remove_brackets (Some (t ++ rest)) (Z.of_nat (length t)) = Ok (Option true false (Str false (collapse t) s)).
Proof.
  intros Hw Hl Hb. unfold set_remove_brackets.
  rewrite (proj2 (Z.eqb_neq _ SQL_NTS)) by (unfold SQL_NTS; lia). cbn [negb].
  rewrite (proj2 (Z.ltb_ge _ 0)) by lia. rewrite length_app, (proj2 (Z.ltb_ge (Z.of_nat (_ + _)) _)) by lia.
  rewrite Nat2Z.id, take_app_length. cbn [mbind res_bind mret res_ret].
  rewrite (proj2 (Nat.leb_gt _ _)) by lia. pose proof (collapse_forall _ t Hw) as Hw'. rewrite c_str_app by done. cbn [mbind res_bind].
  rewrite to_int32_id by (unfold in_int32, int32_min, int32_max; lia).
  destruct (utf8_ext_terminated (collapse t) (Z.of_nat (length t)) Hw' ltac:(lia)) as [r ->]. by exists r.1.
Qed.

(** An escaped text of at most 1023 units and at most one closing bracket. *)
Lemma set_remove_brackets_escaped w rest :
  Forall (λ c, c ≠ 0) w → (length w < 1024)%nat → (brackets w ≤ 1)%nat →
  ∃ s, set_remove_brackets (Some (escape w ++ rest)) (Z.of_nat (length (escape w))) = Ok (Option true false (Str false w s)).
Proof.
  intros Hw Hl Hb. pose proof (escape_length w) as He. destruct (set_remove_brackets_text (escape w) rest) as [s E];
    rewrite ?collapse_escape in *; [by apply escape_nonzero|done|lia|by exists s].
Qed.

(** The end of an escaped value, whatever stands in front of it. *)
Lemma find_bracket_end_escaped p w c rest fuel :
  Forall (λ u, u ≠ 0 ∧ u ≠ 125) p → Forall (λ u, u ≠ 0) w → c ≠ 125 → (length w < fuel)%nat →
  find_bracket_end fuel (p ++ escape w ++ 125 :: c :: rest) = Ok (Some (125 :: c :: rest)).
Proof.
  intros Hp Hw Hc. revert p fuel Hp. induction Hw as [|u w Hu Hw IH]; intros p fuel Hp Hf; (destruct fuel as [|fuel]; [lia|]).
  - cbn [find_bracket_end escape mbind list_bind app]. rewrite chr_found by done. cbn [mbind res_bind tail at_ptr].
    rewrite (proj2 (Z.eqb_neq c 125)) by done. destruct (c =? 0); done.
  - rewrite escape_cons. destruct (Z.eqb_spec u 125) as [->|Hu'].
    + cbn [find_bracket_end app]. rewrite chr_found by done. cbn [mbind res_bind tail at_ptr drop].
      change (125 =? 0) with false. change (125 =? 125) with true. rewrite ?drop_0.
      specialize (IH [] fuel ltac:(constructor) ltac:(simpl in Hf; lia)). cbn [app] in IH.
      pose proof (escape_nonzero w Hw) as Hx. destruct (escape w) as [|x l] eqn:E; cbn [app at_ptr mbind res_bind] in *; [done|].
      apply Forall_cons in Hx as [Hx _]. by rewrite (proj2 (Z.eqb_neq x 0)).
    + rewrite <- app_assoc. cbn [app]. specialize (IH (p ++ [u]) (S fuel)). rewrite <- app_assoc in IH. apply IH; [|simpl in Hf; lia].
      apply Forall_app. split; [done|]. by repeat constructor.
Qed.

(** ** One attribute *)

(** The units of a name; none of them ends it. *)
Definition name_unit (c : Z) : Prop := c ≠ 0 ∧ c ≠ 32 ∧ c ≠ 59 ∧ c ≠ 61 ∧ c ≠ 125.
#[export] Instance name_unit_dec c : Decision (name_unit c).
Proof. unfold name_unit. apply _. Defined.

Definition good_name (k : list Z) : Prop := k ≠ [] ∧ Forall name_unit k ∧ (length k < 1000)%nat.

Lemma skip_spaces_stop c p : c ≠ 32 → skip_spaces (c :: p) = c :: p.
Proof. intros Hc. cbn. by rewrite (proj2 (Z.eqb_neq c 32)). Qed.

Lemma trim_name k : k ≠ [] → Forall name_unit k → trim_attribute (rev k) = Ok k.
Proof.
  intros Hk Hn. destruct (rev k) as [|c a] eqn:E; [by destruct Hk; rewrite <- (rev_involutive k), E|].
  assert (name_unit c) as (_ & Hc & _). { apply (proj1 (Forall_forall _ _) Hn). apply list_elem_of_In, in_rev. rewrite E. by left. }
  cbn [trim_attribute]. rewrite (proj2 (Z.eqb_neq c 32)) by done. unfold mret, res_ret. by rewrite <- E, rev_involutive.
Qed.

(** A round for a name and a value that starts with no space, given its end. *)
Lemma kv_round f k v end_ ds :
  good_name k → Forall (λ c, c ≠ 0) (v ++ end_) → (∀ c p, v ++ end_ = c :: p → c ≠ 32) → v ++ end_ ≠ [] →
  (if bool_decide (head (v ++ end_) = Some 123) then find_bracket_end (length (k ++ 61 :: v ++ end_ ++ [0])) (k ++ 61 :: v ++ end_ ++ [0])
   else sqlwcharchr (k ++ 61 :: v ++ end_ ++ [0]) 59) = Ok (Some (end_ ++ [0])) →
  trim_value (v ++ end_ ++ [0]) (length v) = length v →
  from_kvpair_loop (S f) (k ++ 61 :: v ++ end_ ++ [0]) 59 ds =
  (rest ← set_attribute k (v ++ end_ ++ [0]) (Z.of_nat (length v)) (end_ ++ [0]); rest ← lift (skip_delims rest 59); from_kvpair_loop f rest 59) ds.
Proof.
  intros (Hk & Hn & Hl) Hz Hs Hne Hend Htrim. cbn [from_kvpair_loop].
  set (str := k ++ 61 :: v ++ end_ ++ [0]) in *.
  assert (sqlwcharchr str 61 = Ok (Some (61 :: v ++ end_ ++ [0]))) as Heq.
  { apply chr_found; [|done]. eapply Forall_impl; [exact Hn|]. intros c Hc. unfold name_unit in Hc. tauto. }
  assert (skip_spaces str = str) as Hskip.
  { unfold str. destruct k as [|c k]; [done|]. apply Forall_cons in Hn as [(_ & Hc & _) _]. by apply skip_spaces_stop. }
  assert (Forall (λ c, c ≠ 0) (k ++ 61 :: v ++ end_)) as Hzs.
  { apply Forall_app. split; [eapply Forall_impl; [exact Hn|intros c Hc; apply Hc]|]. by constructor. }
  assert (str = (k ++ 61 :: v ++ end_) ++ [0]) as Happ by (unfold str; rewrite <- app_assoc; cbn; by rewrite <- app_assoc).
  assert (length str - length (61%Z :: v ++ end_ ++ [0%Z]) = length k)%nat as Hlen by (unfold str; rewrite length_app; lia).
  assert (∃ b p, v ++ end_ ++ [0] = b :: p ∧ b ≠ 32 ∧ (b =? 123) = bool_decide (head (v ++ end_) = Some 123)) as (b & p & Hb & Hb32 & Hb123).
  { rewrite app_assoc. destruct (v ++ end_) as [|b p] eqn:E; [done|]. exists b, (p ++ [0]). split; [done|]. split; [by eapply Hs|].
    cbn. rewrite Bool.eq_iff_eq_true, bool_decide_eq_true, Z.eqb_eq. split; [by intros ->|by intros [=]]. }
  assert (at_ptr str = Ok (hd 0 str) ∧ hd 0 str ≠ 0) as [Hat Hhd].
  { unfold str. destruct k as [|c k]; [done|]. apply Forall_cons in Hn as [(Hc & _) _]. by split. }
  rewrite (lift_bind _ _ _ _ Hat), (proj2 (Z.eqb_neq _ _) Hhd), (lift_bind _ _ _ _ Heq). cbv beta iota zeta. rewrite Hskip, Hlen.
  rewrite (proj2 (Nat.leb_gt _ _)) by lia.
  assert (take (length k) str = k) as -> by apply take_app_length.
  rewrite (lift_bind _ _ _ _ (trim_name k Hk Hn)). cbn [tail].
  rewrite Hb, skip_spaces_stop by done. rewrite (lift_bind (at_ptr (b :: p)) _ b _ eq_refl), Hb123.
  rewrite (lift_bind _ _ _ _ Hend).
  rewrite (lift_bind _ _ (length (k ++ 61 :: v ++ end_)) _) by (rewrite Happ; by apply sqlwcharlen_app).
  rewrite <- Hb. rewrite length_app.
  replace (Z.of_nat (length v + length (end_ ++ [0])) - Z.of_nat (length (end_ ++ [0]))) with (Z.of_nat (length v)) by lia.
  destruct (0 <? Z.of_nat (length v)); [|done]. by rewrite !Nat2Z.id, Htrim, drop_app_length.
Qed.

(** ** Values *)

(** The value of an option in a connection string. *)
Definition enc (o : optionBase) : list Z :=
  match m_value o with
  | Str _ w _ => if value_needs_escaped w then [123] ++ escape w ++ [125] else w
  | Int z => dec_digits 20 (to_ulong z)
  | Bool b => dec_digits 20 (if b then 1 else 0)
  end.

(** What a connection string can carry: a string of at most 1023 units and one
    closing bracket, with no space at either end unless it is escaped for another
    unit. *)
Definition carried (o : optionBase) : Prop :=
  match m_value o with
  | Str null w _ => null = false ∧ Forall (λ c, c ≠ 0) w ∧ (length w < 1024)%nat ∧ (brackets w ≤ 1)%nat ∧
                    (value_needs_escaped w = true ∨ (head w ≠ Some 32 ∧ last w ≠ Some 32))
  | Int z => in_int32 z
  | Bool _ => True
  end.
#[export] Instance carried_dec o : Decision (carried o).
Proof. unfold carried, in_int32. destruct (m_value o); apply _. Defined.

Definition same_value (a b : value) : Prop :=
  match a, b with
  | Str n w _, Str n' w' _ => n = n' ∧ w = w'
  | Int z, Int z' => z = z'
  | Bool x, Bool y => x = y
  | _, _ => False
  end.

(** A unit that needs no escaping. *)
Definition plain_unit (c : Z) : Prop := 48 ≤ c ≤ 57 ∨ 97 ≤ c ≤ 122 ∨ 65 ≤ c ≤ 90 ∨ c = 95 ∨ c = 32 ∨ c = 46.

Lemma unescaped_plain w : Forall (λ c, c ≠ 0) w → value_needs_escaped w = false → Forall plain_unit w.
Proof.
  induction 1 as [|c w Hc Hw IH]; [done|]. cbn [value_needs_escaped]. rewrite (proj2 (Z.eqb_neq c 0)) by done.
  unfold plain_unit. destruct (((48 <=? c) && (c <=? 57)) || _ || _) eqn:E1; [|destruct ((c =? 95) || _ || _) eqn:E2; [|done]];
    intros Hv; (constructor; [|by apply IH]).
  - rewrite !orb_true_iff, !andb_true_iff, !Z.leb_le in E1. lia.
  - rewrite !orb_true_iff, !Z.eqb_eq in E2. lia.
Qed.

Lemma digits_plain fuel v : 0 ≤ v → Forall plain_unit (dec_digits fuel v) ∧ last (dec_digits fuel v) ≠ Some 32 ∧ head (dec_digits fuel v) ≠ Some 32.
Proof.
  intros Hv. assert (Forall (λ c, 48 ≤ c ≤ 57) (dec_digits fuel v)) as H.
  { revert v Hv. induction fuel as [|f IH]; intros v Hv; [done|]. cbn [dec_digits]. destruct (0 <? v); [|done].
    pose proof (Z.mod_pos_bound v 10 ltac:(lia)). apply Forall_app. split; [apply IH; apply Z.div_pos; lia|repeat constructor; lia]. }
  split; [eapply Forall_impl; [exact H|]; intros c Hc; cbv beta in Hc; unfold plain_unit; lia|]. rewrite Forall_forall in H. split; intros E.
  - apply last_Some_elem_of in E. apply H in E. lia.
  - apply head_Some_elem_of in E. apply H in E. lia.
Qed.

Lemma number_text_digits v : number_text v = Ok (dec_digits 20 (to_ulong v)).
Proof.
  unfold number_text. pose proof (Z.mod_pos_bound v (2 ^ 64) ltac:(lia)) as Hm. fold (to_ulong v) in Hm.
  pose proof (dec_digits_length (to_ulong v) Hm) as Hl. destruct (digits_plain 20 (to_ulong v) ltac:(lia)) as (Hp & _).
  unfold sqlwcharfromul. rewrite count_digits_length.
  rewrite write_bind, write_digits_run by (rewrite ?length_insert, ?repeat_length; lia).
  rewrite overlay_snoc by (rewrite repeat_length; lia). unfold overlay. rewrite firstn_O. cbn [app]. rewrite <- app_assoc.
  apply c_str_app. eapply Forall_impl; [exact Hp|]. intros c Hc. unfold plain_unit in Hc. lia.
Qed.

Lemma read_number v rest : 0 ≤ v < 2 ^ 64 → toul_from (dec_digits 20 v ++ 59 :: rest) 0 = Ok v.
Proof. intros Hv. rewrite toul_digits by lia. done. Qed.

Lemma to_int32_ulong z : in_int32 z → to_int32 (to_ulong z) = z.
Proof.
  intros Hz. rewrite <- (to_int32_id z Hz) at 2. unfold to_int32, to_ulong.
  rewrite <- (Znumtheory.Zmod_div_mod (2 ^ 32) (2 ^ 64)) by (first [lia|by exists (2 ^ 32)]). done.
Qed.

Lemma trim_value_stop split e : (e = O ∨ split !! pred e ≠ Some 32 ∨ split !! e = Some 125) → trim_value split e = e.
Proof.
  destruct e as [|e]; [done|]. cbn [trim_value pred]. intros [|[H|H]]; [done| |].
  - by rewrite bool_decide_eq_false_2.
  - rewrite (bool_decide_eq_true_2 _ H). by rewrite andb_false_r.
Qed.

(** ** The entries of the map *)

(** A name is good, is not that of the numeric options, and stands for its
    member; only that of [DRIVER] compares equal to it. *)
Definition good_entry (kX : list Z * string) : Prop :=
  good_name kX.1 ∧ sqlwcharcasecmp (wide "OPTION" ++ [0]) (kX.1 ++ [0]) = Ok 1 ∧ get_opt kX.1 = Some kX.2 ∧
  sqlwcharcasecmp (wide "DRIVER" ++ [0]) (kX.1 ++ [0]) = Ok (if bool_decide (kX.2 = "DRIVER") then 0 else 1).

Lemma good_entries : Forall good_entry m_opt_map.
Proof. apply (bool_decide_unpack _). vm_compute. exact I. Qed.

(** The members that a data source writes. *)
Definition written (ds : DataSource) (X : string) (v : optionBase) : bool :=
  m_is_set v && negb (m_is_default v) &&
  negb (bool_decide (X = "DRIVER") && match ds !! "DSN" with Some o => negb (m_is_default o) | None => false end).

Lemma wstring_enc v : m_is_set v = true → carried v →
  ∃ w, wstring v = Ok w ∧
       (if bool_decide (get_type v = STRING) then w' ← wstring v; mret (value_needs_escaped w') else mret false) =
         Ok (bool_decide (get_type v = STRING) && value_needs_escaped w) ∧
       enc v = (if bool_decide (get_type v = STRING) && value_needs_escaped w then [123] else []) ++ escape_brackets w false ++
               (if bool_decide (get_type v = STRING) && value_needs_escaped w then [125] else []).
Proof.
  intros Hset Hv. unfold wstring, enc, carried, get_type in *. rewrite Hset. cbn [negb].
  destruct (m_value v) as [null w s|z|b].
  - destruct Hv as (-> & Hz & _). exists w. rewrite bool_decide_eq_true_2 by done. split; [done|]. split; [done|]. cbn [andb].
    rewrite escape_brackets_false. destruct (value_needs_escaped w) eqn:E; [done|]. rewrite app_nil_r. cbn. symmetry. apply escape_plain.
    intros Hin. apply (proj1 (Forall_forall _ _) (unescaped_plain w Hz E)) in Hin. unfold plain_unit in Hin. lia.
  - exists (dec_digits 20 (to_ulong z)). rewrite number_text_digits. split; [done|]. split; [done|]. cbn.
    rewrite app_nil_r, escape_brackets_false, escape_plain; [done|]. intros Hin.
    assert (0 ≤ to_ulong z) as Hz by (apply Z.mod_pos_bound; lia).
    apply (proj1 (Forall_forall _ _) (proj1 (digits_plain 20 _ Hz))) in Hin. unfold plain_unit in Hin. lia.
  - exists (dec_digits 20 (if b then 1 else 0)). split; [by destruct b; rewrite number_text_digits|]. split; [done|]. by destruct b.
Qed.

Lemma kvpair_enc ds o k X v :
  ds !! "DSN" = Some o → good_entry (k, X) → ds !! X = Some v → (written ds X v = true → carried v) →
  kvpair ds (negb (m_is_default o)) 59 (k, X) = Ok (if written ds X v then k ++ 61 :: enc v ++ [59] else []).
Proof.
  intros Ho (_ & _ & _ & Hdrv) Hv Hc. unfold kvpair, written in *. cbn [fst snd] in *. rewrite Hv, Ho, Hdrv in *. cbn [mbind res_bind].
  destruct (m_is_set v) eqn:Hset; [|done]. destruct (m_is_default v); [done|]. cbn [negb orb andb] in *.
  destruct (m_is_default o); cbn [negb andb] in *; rewrite ?andb_false_r, ?andb_true_r in *; cbn [negb andb] in *.
  - destruct (wstring_enc v Hset (Hc eq_refl)) as (w & Hw & -> & ->). cbn [mbind res_bind]. rewrite Hw. cbn [mbind res_bind mret res_ret].
    by rewrite <- !app_assoc.
  - destruct (bool_decide (X = "DRIVER")); [done|]. cbn [negb Z.eqb] in *.
    destruct (wstring_enc v Hset (Hc eq_refl)) as (w & Hw & -> & ->). cbn [mbind res_bind]. rewrite Hw. cbn [mbind res_bind mret res_ret].
    by rewrite <- !app_assoc.
Qed.

Lemma plain_not c w : Forall plain_unit w → ¬ plain_unit c → c ∉ w.
Proof. intros Hw Hc Hin. apply Hc. by apply (proj1 (Forall_forall _ _) Hw). Qed.

Lemma plain_ends w : Forall plain_unit w → Forall (λ u, u ≠ 0 ∧ u ≠ 59) w.
Proof. intros Hw. eapply Forall_impl; [exact Hw|]. unfold plain_unit. cbv beta. lia. Qed.

Lemma set_attribute_known k X split e end_ ds0 o0 :
  good_entry (k, X) → ds0 !! X = Some o0 →
  set_attribute k split e end_ ds0 =
  (if bool_decide (get_type o0 = STRING) then
     b ← lift (at_ptr split); c ← lift (at_ptr end_);
     if (b =? 123) && (c =? 125) then
       o' ← lift (set_remove_brackets (Some (tail split)) (e - 1)); set_opt X o';; mret (tail end_)
     else o' ← lift (set_remove_brackets (Some split) e); set_opt X o';; mret end_
   else val ← lift (c_str split); o' ← lift (assign o0 val); set_opt X o';; mret end_) ds0.
Proof.
  intros (_ & Hopt & Hget & _) Ho. cbn [fst snd] in *. unfold set_attribute. rewrite (lift_bind _ _ _ _ Hopt). cbn [Z.eqb]. rewrite Hget.
  erewrite bind_Ok; [done|]. unfold opt. by rewrite Ho.
Qed.

Lemma set_attribute_escaped k X w t ds0 o0 :
  good_entry (k, X) → ds0 !! X = Some o0 → get_type o0 = STRING →
  Forall (λ c, c ≠ 0) w → (length w < 1024)%nat → (brackets w ≤ 1)%nat →
  ∃ s, set_attribute k ((123 :: escape w) ++ 125 :: t) (Z.of_nat (length (123 :: escape w))) (125 :: t) ds0 =
       (Ok t, <[X := Option true false (Str false w s)]> ds0).
Proof.
  intros Hg Ho Ht Hz Hl Hb. rewrite (set_attribute_known _ _ _ _ _ _ _ Hg Ho), bool_decide_eq_true_2 by done.
  destruct (set_remove_brackets_escaped w (125 :: t) Hz Hl Hb) as [s E]. exists s. cbn [app length].
  rewrite Nat2Z.inj_succ. replace (Z.succ _ - 1) with (Z.of_nat (length (escape w))) by lia. cbn [at_ptr tail].
  unfold lift, mbind, M_bind. cbn [Z.eqb Pos.eqb andb]. by rewrite E.
Qed.

Lemma set_attribute_plain k X w t ds0 o0 :
  good_entry (k, X) → ds0 !! X = Some o0 → get_type o0 = STRING → Forall plain_unit w → (length w < 1024)%nat →
  ∃ s, set_attribute k (w ++ 59 :: t) (Z.of_nat (length w)) (59 :: t) ds0 = (Ok (59 :: t), <[X := Option true false (Str false w s)]> ds0).
Proof.
  intros Hg Ho Ht Hp Hl. rewrite (set_attribute_known _ _ _ _ _ _ _ Hg Ho), bool_decide_eq_true_2 by done.
  assert (125 ∉ w) as Hb by (apply plain_not; [done|unfold plain_unit; lia]).
  assert (Forall (λ c, c ≠ 0) w) as Hz by (eapply Forall_impl; [exact Hp|]; unfold plain_unit; cbv beta; lia).
  destruct (set_remove_brackets_escaped w (59 :: t) Hz Hl) as [s E].
  { pose proof (escape_length w) as He. rewrite escape_plain in He by done. lia. }
  rewrite escape_plain in E by done. exists s.
  assert (at_ptr (w ++ 59 :: t) = Ok (hd 59 w) ∧ hd 59 w ≠ 123) as [Hat Hne].
  { destruct Hp as [|c w Hc Hw]; [done|]. split; [done|]. cbn. unfold plain_unit in Hc. lia. }
  rewrite (lift_bind _ _ _ _ Hat), (lift_bind _ _ 59) by done. rewrite (proj2 (Z.eqb_neq _ _) Hne). cbn [andb].
  by rewrite (lift_bind _ _ _ _ E).
Qed.

Lemma set_attribute_number k X n r ds0 o0 :
  good_entry (k, X) → ds0 !! X = Some o0 → get_type o0 ≠ STRING → 0 ≤ n < 2 ^ 64 → Forall (λ c, c ≠ 0) r →
  set_attribute k (dec_digits 20 n ++ 59 :: r ++ [0]) (Z.of_nat (length (dec_digits 20 n))) (59 :: r ++ [0]) ds0 =
  (Ok (59 :: r ++ [0]), <[X := Option true false (match m_value o0 with Int _ => Int (to_int32 n) | _ => Bool (negb (n =? 0)) end)]> ds0).
Proof.
  intros Hg Ho Ht Hn Hr. rewrite (set_attribute_known _ _ _ _ _ _ _ Hg Ho), bool_decide_eq_false_2 by done.
  assert (dec_digits 20 n ++ 59 :: r ++ [0] = (dec_digits 20 n ++ 59 :: r) ++ [0]) as E by (by rewrite <- app_assoc).
  rewrite (lift_bind _ _ (dec_digits 20 n ++ 59 :: r)).
  - assert (sqlwchartoul (Some ((dec_digits 20 n ++ 59 :: r) ++ [0])) = Ok n) as Hread by (rewrite <- E; by apply read_number).
    unfold assign, get_type, lift, mbind, M_bind in *. destruct (m_value o0); [done|..]; by rewrite Hread.
  - rewrite E. apply c_str_app. apply Forall_app. split; [|by constructor].
    eapply Forall_impl; [exact (proj1 (digits_plain 20 n ltac:(lia)))|]. unfold plain_unit. cbv beta. lia.
Qed.

(** The two forms of a value in front of what follows. *)
Lemma plain_round f k w r ds :
  good_name k → Forall plain_unit w → head w ≠ Some 32 → last w ≠ Some 32 → Forall (λ c, c ≠ 0) r →
  from_kvpair_loop (S f) (k ++ 61 :: w ++ 59 :: r ++ [0]) 59 ds =
  (rest ← set_attribute k (w ++ 59 :: r ++ [0]) (Z.of_nat (length w)) (59 :: r ++ [0]);
   rest ← lift (skip_delims rest 59); from_kvpair_loop f rest 59) ds.
Proof.
  intros Hk Hp Hh Hl Hr. pose proof Hk as (_ & Hn & _). apply (kv_round f k w (59 :: r) ds).
  - done.
  - apply Forall_app. split; [|by constructor]. eapply Forall_impl; [exact Hp|]. unfold plain_unit. cbv beta. lia.
  - intros c p E. destruct w as [|d w]; [by injection E as <- _|]. injection E as <- _. by intros ->.
  - by destruct w.
  - rewrite bool_decide_eq_false_2.
    + change (k ++ 61 :: w ++ (59 :: r) ++ [0]) with (k ++ (61 :: w) ++ 59 :: r ++ [0]). rewrite app_assoc. apply chr_found; [|done].
      apply Forall_app. split; [eapply Forall_impl; [exact Hn|]; unfold name_unit; cbv beta; lia|]. constructor; [done|]. by apply plain_ends.
    + destruct Hp as [|c w Hc Hw]; [done|]. intros [= ->]. unfold plain_unit in Hc. lia.
  - apply trim_value_stop. destruct (decide (w = [])) as [->|Hw]; [by left|]. right. left.
    rewrite last_lookup in Hl. rewrite lookup_app_l; [done|]. destruct w; [done|]. simpl. lia.
Qed.

Lemma escaped_round f k w r ds :
  good_name k → Forall (λ c, c ≠ 0) w → Forall (λ c, c ≠ 0) r →
  from_kvpair_loop (S f) (k ++ 61 :: (123 :: escape w) ++ 125 :: 59 :: r ++ [0]) 59 ds =
  (rest ← set_attribute k ((123 :: escape w) ++ 125 :: 59 :: r ++ [0]) (Z.of_nat (length (123 :: escape w))) (125 :: 59 :: r ++ [0]);
   rest ← lift (skip_delims rest 59); from_kvpair_loop f rest 59) ds.
Proof.
  intros Hk Hw Hr. pose proof Hk as (_ & Hn & _). apply (kv_round f k (123 :: escape w) (125 :: 59 :: r) ds).
  - done.
  - apply Forall_app. split; [constructor; [done|by apply escape_nonzero]|]. by repeat constructor.
  - by intros c p [= <- _].
  - done.
  - rewrite bool_decide_eq_true_2 by done.
    replace (k ++ 61 :: (123 :: escape w) ++ (125 :: 59 :: r) ++ [0]) with ((k ++ [61; 123]) ++ escape w ++ 125 :: 59 :: r ++ [0])
      by (by rewrite <- app_assoc).
    apply find_bracket_end_escaped; [|done|done|].
    + apply Forall_app. split; [eapply Forall_impl; [exact Hn|]; unfold name_unit; cbv beta; lia|]. by repeat constructor.
    + rewrite !length_app, escape_length. simpl. lia.
  - apply trim_value_stop. right. right. rewrite lookup_app_r by done. by rewrite Nat.sub_diag.
Qed.

(** Reading back the value of one option.  The other of the same class may
    hold anything. *)
Lemma item_round f k X v r ds0 o0 :
  good_entry (k, X) → carried v → ds0 !! X = Some o0 → get_type o0 = get_type v →
  Forall (λ c, c ≠ 0) r → (∀ c p, r = c :: p → c ≠ 32 ∧ c ≠ 59) →
  ∃ o', from_kvpair_loop (S f) (k ++ 61 :: enc v ++ 59 :: r ++ [0]) 59 ds0 = from_kvpair_loop f (r ++ [0]) 59 (<[X := o']> ds0) ∧
        m_is_set o' = true ∧ m_is_default o' = false ∧ same_value (m_value v) (m_value o').
Proof.
  intros Hg Hv Ho Ht Hr Hsep. pose proof Hg as (Hk & _).
  assert (skip_delims (59 :: r ++ [0]) 59 = Ok (r ++ [0])) as Hskip.
  { cbn [skip_delims Z.eqb Pos.eqb negb]. destruct r as [|c r]; [done|]. destruct (Hsep c r eq_refl) as [H32 H59]. cbn [app skip_delims].
    by rewrite (proj2 (Z.eqb_neq c 32)), (proj2 (Z.eqb_neq c 59)). }
  assert (∀ n, 0 ≤ n < 2 ^ 64 → get_type v ≠ STRING →
    from_kvpair_loop (S f) (k ++ 61 :: dec_digits 20 n ++ 59 :: r ++ [0]) 59 ds0 =
    from_kvpair_loop f (r ++ [0]) 59 (<[X := Option true false (match m_value o0 with Int _ => Int (to_int32 n) | _ => Bool (negb (n =? 0)) end)]> ds0)) as Hnum.
  { intros n Hn Hs. destruct (digits_plain 20 n ltac:(lia)) as (Hp & Hl & Hh). rewrite plain_round by done.
    rewrite (bind_Ok _ _ _ _ _ (set_attribute_number k X n r ds0 o0 Hg Ho ltac:(congruence) Hn Hr)). by rewrite (lift_bind _ _ _ _ Hskip). }
  unfold enc, carried, get_type in *. destruct (m_value v) as [null w s|z|b] eqn:Ev.
  - destruct Hv as (-> & Hz & Hl & Hb & Hs). assert (get_type o0 = STRING) as Hs0 by done.
    destruct (value_needs_escaped w) eqn:E.
    + destruct (set_attribute_escaped k X w (59 :: r ++ [0]) ds0 o0 Hg Ho Hs0 Hz Hl Hb) as [s' Eset].
      exists (Option true false (Str false w s')). split; [|done].
      replace (([123] ++ escape w ++ [125]) ++ 59 :: r ++ [0]) with ((123 :: escape w) ++ 125 :: 59 :: r ++ [0]) by (cbn; by rewrite <- app_assoc).
      rewrite escaped_round by done. rewrite (bind_Ok _ _ _ _ _ Eset). by rewrite (lift_bind _ _ _ _ Hskip).
    + destruct Hs as [|[Hh Hla]]; [done|]. pose proof (unescaped_plain w Hz E) as Hp.
      destruct (set_attribute_plain k X w (r ++ [0]) ds0 o0 Hg Ho Hs0 Hp Hl) as [s' Eset].
      exists (Option true false (Str false w s')). split; [|done]. rewrite plain_round by done.
      rewrite (bind_Ok _ _ _ _ _ Eset). by rewrite (lift_bind _ _ _ _ Hskip).
  - eexists. rewrite Hnum by (first [done|apply Z.mod_pos_bound; lia]). split; [done|]. split; [done|]. split; [done|].
    destruct (m_value o0); try done. cbn. by rewrite to_int32_ulong.
  - eexists. rewrite Hnum by (first [done|by destruct b]). split; [done|]. split; [done|]. split; [done|].
    destruct (m_value o0); try done. by destruct b.
Qed.

(** ** The round trip *)

Definition member_type (X : string) : opt_type :=
  if bool_decide (X ∈ STR_OPTIONS_LIST) then STRING else if bool_decide (X ∈ INT_OPTIONS_LIST) then INT else BOOL.

(** Every member is there, with a value of its class. *)
Definition typed (ds : DataSource) : Prop :=
  ∀ X, X ∈ FULL_OPTIONS_LIST → ∃ o, ds !! X = Some o ∧ get_type o = member_type X.

Lemma entries_members kX : kX ∈ m_opt_map → good_entry kX ∧ kX.2 ∈ FULL_OPTIONS_LIST.
Proof.
  revert kX. apply Forall_forall. apply Forall_and. split; [exact good_entries|].
  apply (bool_decide_unpack _). vm_compute. exact I.
Qed.

Lemma members_entries X : X ∈ FULL_OPTIONS_LIST → X ∈ m_opt_map.*2.
Proof.
  revert X. apply Forall_forall. apply (bool_decide_unpack _). vm_compute. exact I.
Qed.

Lemma typed_insert ds X o : typed ds → (X ∈ FULL_OPTIONS_LIST → get_type o = member_type X) → typed (<[X := o]> ds).
Proof.
  intros Ht Ho Y HY. destruct (decide (X = Y)) as [->|Hne].
  - exists o. rewrite lookup_insert_eq. auto.
  - rewrite lookup_insert_ne by done. by apply Ht.
Qed.

Lemma enc_nonzero v : carried v → Forall (λ c, c ≠ 0) (enc v).
Proof.
  assert (∀ n, 0 ≤ n → Forall (λ c, c ≠ 0) (dec_digits 20 n)) as Hd.
  { intros n Hn. eapply Forall_impl; [exact (proj1 (digits_plain 20 n Hn))|]. unfold plain_unit. cbv beta. lia. }
  unfold carried, enc. destruct (m_value v) as [null w s|z|b].
  - intros (_ & Hw & _). destruct (value_needs_escaped w); [|done]. apply Forall_app. split; [by repeat constructor|].
    apply Forall_app. split; [by apply escape_nonzero|by repeat constructor].
  - intros _. apply Hd. apply Z.mod_pos_bound. lia.
  - intros _. apply Hd. by destruct b.
Qed.

Section Roundtrip.
Context (ds : DataSource) (o : optionBase).
Hypothesis (Hdsn : ds !! "DSN" = Some o) (Htyped : typed ds).
Hypothesis (Hcarried : ∀ X v, ds !! X = Some v → written ds X v = true → carried v).

(** The text of some entries. *)
Definition entries_text (l : list (list Z * string)) : list Z :=
  kX ← l; match ds !! kX.2 with Some v => if written ds kX.2 v then kX.1 ++ 61 :: enc v ++ [59] else [] | None => [] end.

Lemma entries_text_cons kX l v :
  ds !! kX.2 = Some v → entries_text (kX :: l) = (if written ds kX.2 v then kX.1 ++ 61 :: enc v ++ [59] else []) ++ entries_text l.
Proof. intros Hv. unfold entries_text. cbn [mbind list_bind]. by rewrite Hv. Qed.

Lemma member_lookup X : X ∈ FULL_OPTIONS_LIST → ∃ v, ds !! X = Some v ∧ get_type v = member_type X.
Proof. apply Htyped. Qed.

Lemma kvpairs_text l :
  Forall (λ kX, good_entry kX ∧ kX.2 ∈ FULL_OPTIONS_LIST) l → kvpairs ds (negb (m_is_default o)) 59 l = Ok (entries_text l).
Proof.
  induction 1 as [|[k X] l [Hg HX] Hl IH]; [done|]. cbn [fst snd] in *. destruct (member_lookup X HX) as (v & Hv & _).
  cbn [kvpairs]. rewrite (kvpair_enc _ _ _ _ v Hdsn Hg Hv (Hcarried _ _ Hv)). cbn [mbind res_bind]. rewrite IH.
  cbn [mbind res_bind mret res_ret]. by rewrite (entries_text_cons (k, X) l v Hv).
Qed.

Lemma entries_text_ok l :
  Forall (λ kX, good_entry kX ∧ kX.2 ∈ FULL_OPTIONS_LIST) l →
  Forall (λ c, c ≠ 0) (entries_text l) ∧ ∀ c p, entries_text l = c :: p → c ≠ 32 ∧ c ≠ 59.
Proof.
  induction 1 as [|[k X] l [Hg HX] Hl IH]; [done|]. cbn [fst snd] in *. destruct (member_lookup X HX) as (v & Hv & _).
  rewrite (entries_text_cons (k, X) l v Hv). cbn [fst snd]. destruct (written ds X v) eqn:Hw; [|done]. destruct IH as [IHz _].
  pose proof Hg as ((Hk & Hn & _) & _). cbn [fst snd] in *. split.
  - rewrite <- app_assoc. apply Forall_app. split; [eapply Forall_impl; [exact Hn|]; unfold name_unit; cbv beta; lia|].
    cbn [app]. constructor; [done|]. rewrite <- app_assoc. apply Forall_app. split; [by apply enc_nonzero, (Hcarried X)|]. by constructor.
  - destruct k as [|d k]; [done|]. intros c p [= <- _]. apply Forall_cons in Hn as [Hn _]. unfold name_unit in Hn. lia.
Qed.

(** What an option reads as. *)
Definition reads_as (v : optionBase) (o' : option optionBase) : Prop :=
  ∃ o'', o' = Some o'' ∧ m_is_set o'' = true ∧ m_is_default o'' = false ∧ same_value (m_value v) (m_value o'').

Lemma same_type v o' : same_value (m_value v) (m_value o') → get_type o' = get_type v.
Proof. unfold get_type. by destruct (m_value v), (m_value o'). Qed.

Lemma read_entries l fuel ds0 :
  Forall (λ kX, good_entry kX ∧ kX.2 ∈ FULL_OPTIONS_LIST) l → (length (entries_text l) < fuel)%nat → typed ds0 →
  ∃ ds', from_kvpair_loop fuel (entries_text l ++ [0]) 59 ds0 = (Ok 0, ds') ∧ typed ds' ∧
    ∀ X v, ds !! X = Some v →
      if bool_decide (X ∈ l.*2) && written ds X v then reads_as v (ds' !! X) else ds' !! X = ds0 !! X.
Proof.
  intros Hl. revert fuel ds0. induction Hl as [|[k X] l [Hg HX] Hl IH]; intros fuel ds0 Hf Ht0.
  { exists ds0. destruct fuel as [|fuel]; [simpl in Hf; lia|]. split; [done|]. split; [done|]. done. }
  cbn [fst snd] in *. destruct (member_lookup X HX) as (v & Hv & Htv). destruct (Ht0 X HX) as (o0 & Ho0 & Hto0).
  rewrite (entries_text_cons (k, X) l v Hv) in *. cbn [fst snd] in *. destruct (written ds X v) eqn:Hw.
  - destruct (entries_text_ok l Hl) as [Hz Hsep]. destruct fuel as [|fuel]; [lia|].
    destruct (item_round fuel k X v (entries_text l) ds0 o0 Hg (Hcarried _ _ Hv Hw) Ho0 ltac:(congruence) Hz Hsep) as (o' & E & Hset & Hdef & Hsame).
    replace ((k ++ 61 :: enc v ++ [59]) ++ entries_text l) with (k ++ 61 :: enc v ++ 59 :: entries_text l) in * by (rewrite <- app_assoc; cbn; by rewrite <- app_assoc).
    rewrite <- app_assoc. cbn [app]. rewrite <- app_assoc. cbn [app]. rewrite E.
    destruct (IH fuel (<[X := o']> ds0)) as (ds' & E' & Ht' & Hds').
    { rewrite length_app in Hf. simpl in Hf. rewrite length_app in Hf. simpl in Hf. lia. }
    { apply typed_insert; [done|]. intros _. rewrite <- Htv. by apply same_type. }
    exists ds'. split; [done|]. split; [done|]. intros Y u HY. specialize (Hds' Y u HY). cbn [fmap list_fmap snd].
    destruct (decide (Y = X)) as [->|Hne].
    + rewrite Hv in HY. injection HY as <-. rewrite bool_decide_eq_true_2 by (by left). rewrite Hw in *. cbn [andb].
      destruct (bool_decide (X ∈ l.*2)); [done|]. cbn [andb] in Hds'. rewrite Hds', lookup_insert_eq. by exists o'.
    + rewrite lookup_insert_ne in Hds' by done.
      rewrite (bool_decide_ext _ (Y ∈ l.*2)); [done|]. rewrite elem_of_cons. tauto.
  - destruct (IH fuel ds0 Hf Ht0) as (ds' & E' & Ht' & Hds'). exists ds'. split; [done|]. split; [done|]. intros Y u HY.
    specialize (Hds' Y u HY). cbn [fmap list_fmap snd]. destruct (decide (Y = X)) as [->|Hne].
    + rewrite Hv in HY. injection HY as <-. rewrite Hw, andb_false_r in *. done.
    + rewrite (bool_decide_ext _ (Y ∈ l.*2)); [done|]. rewrite elem_of_cons. tauto.
Qed.
End Roundtrip.

(** C39: The connection string that a data source writes sets the same options in
    any other data source that reads it: the text is read to its end, every
    option that was written, under its name and its aliases, has the value it
    had, and every other option is left alone.  The values are those that a
    connection string can carry: strings of at most 1023 units with at most one
    closing bracket, and no space at an end unless the string is escaped. *)
Theorem connection_string_roundtrip ds ds0 :
  typed ds → typed ds0 → (∀ X v, ds !! X = Some v → written ds X v = true → carried v) →
  ∃ text ds', to_kvpair ds 59 = Ok text ∧ from_kvpair (text ++ [0]) 59 ds0 = (Ok 0, ds') ∧ typed ds' ∧
    ∀ X v, X ∈ FULL_OPTIONS_LIST → ds !! X = Some v →
      if written ds X v then reads_as v (ds' !! X) else ds' !! X = ds0 !! X.
Proof.
  intros Ht Ht0 Hc. destruct (Ht "DSN" ltac:(by left)) as (o & Ho & _).
  assert (Forall (λ kX, good_entry kX ∧ kX.2 ∈ FULL_OPTIONS_LIST) m_opt_map) as Hall.
  { apply Forall_forall. apply entries_members. }
  destruct (read_entries ds Ht Hc m_opt_map (S (length (entries_text ds m_opt_map ++ [0]))) ds0 Hall) as (ds' & E & Ht' & Hds'); [|done|].
  { rewrite length_app. lia. }
  exists (entries_text ds m_opt_map), ds'. split; [|split; [exact E|split; [exact Ht'|]]].
  - unfold to_kvpair. rewrite Ho. by apply kvpairs_text.
  - intros X v HX Hv. specialize (Hds' X v Hv). by rewrite (bool_decide_eq_true_2 _ (members_entries X HX)) in Hds'.
Qed.

Lemma typed_reset : typed reset.
Proof.
  intros X HX. revert X HX. apply Forall_forall.
  assert (Forall (λ X, (get_type <$> reset !! X) = Some (member_type X)) FULL_OPTIONS_LIST) as H
    by (apply (bool_decide_unpack _); vm_compute; exact I).
  eapply Forall_impl; [exact H|]. intros X HX. cbv beta in HX. destruct (reset !! X) as [o|]; [|done]. exists o. split; [done|]. by injection HX.
Qed.

Definition ex_ds : DataSource :=
  <["UID" := Option true false (Str false (wide "me") (wide "me"))]>
  (<["PWD" := Option true false (Str false (wide " a;b}c ") (wide " a;b}c "))]>
  (<["PORT" := Option true false (Int (-1))]> reset)).

Lemma connection_string_roundtrip_witness :
  ∃ text ds', to_kvpair ex_ds 59 = Ok text ∧ from_kvpair (text ++ [0]) 59 reset = (Ok 0, ds') ∧
    text = wide "NO_SCHEMA=1;PASSWORD={ a;b}}c };PORT=18446744073709551615;PWD={ a;b}}c };UID=me;USER=me;" ∧
    (wstring <$> ds' !! "PWD") = Some (Ok (wide " a;b}c ")).
Proof.
  assert (typed ex_ds) as Ht.
  { unfold ex_ds. do 3 (apply typed_insert; [|intros _; vm_compute; reflexivity]). exact typed_reset. }
  assert (∀ X v, ex_ds !! X = Some v → written ex_ds X v = true → carried v) as Hc.
  { apply (map_Forall_lookup (λ X v, written ex_ds X v = true → carried v)). apply (bool_decide_unpack _). vm_compute. exact I. }
  destruct (connection_string_roundtrip ex_ds reset Ht typed_reset Hc) as (text & ds' & E1 & E2 & _ & H).
  exists text, ds'. split; [exact E1|]. split; [exact E2|]. split.
  - vm_compute in E1. injection E1 as <-. vm_compute. reflexivity.
  - specialize (H "PWD" (Option true false (Str false (wide " a;b}c ") (wide " a;b}c ")))).
    destruct H as (o' & -> & _ & _ & Hsame); [apply (bool_decide_unpack _); vm_compute; exact I|vm_compute; reflexivity|].
    destruct (m_value o') as [null w s|z|b] eqn:Ev; [|destruct Hsame|destruct Hsame].
    destruct Hsame as [<- <-]. cbn [fmap option_fmap option_map]. unfold wstring. rewrite Ev. reflexivity.
Defined.

(** ** Whether reading ends *)

(** No closing bracket, and something other than spaces between the start, or
    the last delimiter, and each "=". *)
Fixpoint named (seen : bool) (l : list Z) : bool :=
  match l with
  | [] => true
  | c :: l' => if c =? 59 then named false l' else if c =? 61 then seen && named seen l'
               else if c =? 32 then named seen l' else named true l'
  end.
Definition unit_ok (c : Z) : Prop := c ≠ 0 ∧ c ≠ 125.

Lemma named_suffix s p t : named s (p ++ 59 :: t) = true → named false t = true.
Proof.
  revert s. induction p as [|c p IH]; intros s; cbn [app named]; [done|]. destruct (c =? 59); [apply IH|].
  destruct (c =? 61); [intros [_ H]%andb_true_iff; by eapply IH|]. destruct (c =? 32); apply IH.
Qed.

Lemma named_name p q : named false (p ++ 61 :: q) = true → 61 ∉ p → ∃ c, c ∈ p ∧ c ≠ 32.
Proof.
  induction p as [|c p IH]; cbn [app named]; [done|]. intros H [Hc Hp]%not_elem_of_cons.
  destruct (Z.eqb_spec c 32) as [->|Hne]; [|exists c; split; [by left|done]].
  destruct (IH H Hp) as (d & Hd & Hd32). exists d. split; [by right|done].
Qed.

Fixpoint skip_sep (l : list Z) : list Z :=
  match l with c :: l' => if (c =? 32) || (c =? 59) then skip_sep l' else l | [] => [] end.

Lemma skip_delims_sep l : Forall unit_ok l → skip_delims (l ++ [0]) 59 = Ok (skip_sep l ++ [0]).
Proof.
  induction 1 as [|c l [Hc _] Hl IH]; [done|]. cbn [app skip_delims skip_sep Z.eqb Pos.eqb negb].
  destruct (c =? 32); [done|]. by destruct (c =? 59).
Qed.

Lemma named_skip_sep l : named false l = true → named false (skip_sep l) = true.
Proof.
  induction l as [|c l IH]; [done|]. cbn [skip_sep]. destruct (Z.eqb_spec c 32) as [->|H32]; [exact IH|].
  by destruct (Z.eqb_spec c 59) as [->|H59].
Qed.

Lemma skip_sep_spec l : (length (skip_sep l) ≤ length l)%nat ∧ (Forall unit_ok l → Forall unit_ok (skip_sep l)).
Proof.
  induction l as [|c l [IHl IHf]]; [done|]. cbn [skip_sep length]. destruct ((c =? 32) || (c =? 59)); [|done].
  split; [lia|]. intros H. by apply Forall_cons in H as [_ H%IHf].
Qed.

Lemma skip_sep_spaces sp l : Forall (λ c, c = 32) sp → skip_sep (sp ++ l) = skip_sep l.
Proof. induction 1 as [|c sp -> Hs IH]; done. Qed.

Lemma skip_spaces_split l : ∃ sp l', l = sp ++ l' ∧ Forall (λ c, c = 32) sp ∧ skip_spaces (l ++ [0]) = l' ++ [0] ∧ (∀ c p, l' = c :: p → c ≠ 32).
Proof.
  induction l as [|c l (sp & l' & -> & Hsp & IH & Hl')]; [by exists [], []|]. cbn [app skip_spaces]. destruct (Z.eqb_spec c 32) as [->|Hc].
  - exists (32 :: sp), l'. split; [done|]. split; [by constructor|]. done.
  - exists [], (c :: sp ++ l'). split; [done|]. split; [done|]. split; [done|]. by intros d p [= <- _].
Qed.

Lemma chr_cases l c : Forall (λ u, u ≠ 0) l → c ≠ 0 →
  (sqlwcharchr (l ++ [0]) c = Ok None ∧ c ∉ l) ∨
  ∃ p q, l = p ++ c :: q ∧ c ∉ p ∧ sqlwcharchr (l ++ [0]) c = Ok (Some (c :: q ++ [0])).
Proof.
  intros Hl Hc. destruct (decide (c ∈ l)) as [(p & q & -> & Hp)%list_elem_of_split_l|Hin].
  - right. exists p, q. split; [done|]. split; [done|]. rewrite <- app_assoc. cbn [app]. apply chr_found; [|done].
    apply Forall_app in Hl as [Hl _]. apply Forall_forall. intros u Hu. split; [by apply (proj1 (Forall_forall _ _) Hl)|]. by intros ->.
  - left. split; [|done]. induction Hl as [|u l Hu Hl IH]; [done|]. apply not_elem_of_cons in Hin as [Huc Hin]. cbn [app sqlwcharchr].
    rewrite (proj2 (Z.eqb_neq u 0)), (proj2 (Z.eqb_neq u c)) by done. by apply IH.
Qed.

Lemma trim_attribute_ok p : (∃ c, c ∈ p ∧ c ≠ 32) → ∃ a sp, trim_attribute (rev p) = Ok a ∧ p = a ++ sp ∧ Forall (λ c, c = 32) sp.
Proof.
  induction p as [|c p IH] using rev_ind; [by intros (c & Hc%elem_of_nil & _)|]. intros (d & Hd & Hd32). rewrite rev_app_distr. cbn [rev app trim_attribute].
  destruct (Z.eqb_spec c 32) as [->|Hc].
  - destruct IH as (a & sp & Ha & -> & Hsp).
    { exists d. split; [|done]. apply elem_of_app in Hd as [Hd|Hd%list_elem_of_singleton]; done. }
    exists a, (sp ++ [32]). split; [done|]. split; [by rewrite app_assoc|]. apply Forall_app. split; [done|by constructor].
  - exists (p ++ [c]), []. rewrite rev_involutive, app_nil_r. done.
Qed.

Lemma trim_value_spaces split e :
  (e ≤ length split)%nat → (trim_value split e ≤ e)%nat ∧
  ∃ sp, drop (trim_value split e) split = sp ++ drop e split ∧ Forall (λ c, c = 32) sp.
Proof.
  induction e as [|e IH]; intros He; [split; [done|]; exists []; by split|]. cbn [trim_value].
  destruct (bool_decide_reflect (split !! e = Some 32)) as [H|H]; cbn [andb]; [|split; [done|]; exists []; by split].
  destruct (bool_decide _); cbn [negb]; [split; [done|]; exists []; by split|].
  destruct (IH ltac:(lia)) as (Hle & sp & Hsp & Hf). split; [lia|]. exists (sp ++ [32]). rewrite Hsp, (drop_S _ _ _ H), <- app_assoc. split; [done|].
  apply Forall_app. split; [done|by constructor].
Qed.

Lemma casecmp_ok s t : Forall (λ u, u ≠ 0) s → Forall (λ u, u ≠ 0) t → ∃ z, sqlwcharcasecmp (s ++ [0]) (t ++ [0]) = Ok z.
Proof.
  intros Hs. revert t. induction Hs as [|a s Ha Hs IH]; intros t Ht.
  - cbn [app sqlwcharcasecmp at_ptr mbind res_bind]. change (0 =? 0) with true. destruct t; eexists; reflexivity.
  - destruct Ht as [|b t Hb Ht]; cbn [app sqlwcharcasecmp at_ptr mbind res_bind]; rewrite (proj2 (Z.eqb_neq a 0)) by done; [eexists; reflexivity|].
    rewrite (proj2 (Z.eqb_neq b 0)) by done. destruct (negb _); [eexists; reflexivity|]. by apply IH.
Qed.

Lemma toul_ok l r : Forall (λ u, u ≠ 0) l → ∃ n, toul_from (l ++ [0]) r = Ok n.
Proof.
  intros Hl. revert r. induction Hl as [|c l Hc Hl IH]; intros r; [by exists r|]. cbn [app toul_from].
  rewrite (proj2 (Z.eqb_neq c 0)) by done. destruct ((c <? 48) || (57 <? c)); [by eexists|]. apply IH.
Qed.

Lemma set_remove_brackets_ok l len :
  Forall unit_ok l → 0 ≤ len ≤ Z.of_nat (length l) → (length l < 1024)%nat →
  ∃ o, set_remove_brackets (Some (l ++ [0])) len = Ok o ∧ get_type o = STRING.
Proof.
  intros Hl Hlen Hmax. set (w := take (Z.to_nat len) l).
  assert (Forall unit_ok w) as Hw by by apply Forall_take.
  assert (escape w = w) as Hesc. { apply escape_plain. intros H. by apply (proj1 (Forall_forall _ _) Hw) in H as [_ H]. }
  assert (length w = Z.to_nat len) as Hwl by (unfold w; rewrite length_take; lia).
  pose proof (escape_length w) as Hbr. rewrite Hesc in Hbr.
  destruct (set_remove_brackets_escaped w (drop (Z.to_nat len) l ++ [0])) as [s E]; [eapply Forall_impl; [exact Hw|]; by intros c []|lia|lia|].
  rewrite Hesc, app_assoc in E. unfold w in E at 1. rewrite take_drop, Hwl, Z2Nat.id in E by lia.
  by exists (Option true false (Str false w s)).
Qed.

Lemma assign_ok o l : Forall unit_ok l → get_type o ≠ STRING → ∃ o', assign o l = Ok o' ∧ get_type o' = get_type o.
Proof.
  intros Hl Ht. destruct (toul_ok l 0) as [n Hn]; [eapply Forall_impl; [exact Hl|]; by intros c []|].
  unfold assign, get_type, sqlwchartoul in *. destruct (m_value o); [done|..]; rewrite Hn; by eexists.
Qed.

Lemma member_typed a X : get_opt a = Some X → X ∈ FULL_OPTIONS_LIST ∧ ∃ k, good_entry (k, X) ∧ toupper_unit <$> a = k.
Proof.
  unfold get_opt. destruct (find _ m_opt_map) as [[k Y]|] eqn:E; [|done]. intros [= <-]. apply find_some in E as [Hin Heq].
  apply list_elem_of_In in Hin. apply entries_members in Hin as [Hg HY]. split; [done|]. exists k. split; [done|].
  symmetry. by apply bool_decide_eq_true in Heq.
Qed.

(** No name holds a delimiter or a closing bracket. *)
Lemma get_opt_none a c : c ∈ a → c = 59 ∨ c = 125 → get_opt a = None.
Proof.
  intros Hc Hcase. destruct (get_opt a) as [X|] eqn:E; [|done]. apply member_typed in E as (_ & k & ((_ & Hn & _) & _) & Hk).
  cbn [fst] in Hn. assert (toupper_unit c ∈ k) as Hin by (rewrite <- Hk; by apply list_elem_of_fmap_2).
  apply (proj1 (Forall_forall _ _) Hn) in Hin. unfold toupper_unit, name_unit in Hin. destruct Hcase as [-> | ->]; cbn in Hin; lia.
Qed.

Lemma bit_options_members : Forall (λ XF, XF.1 ∈ FULL_OPTIONS_LIST ∧ member_type XF.1 = BOOL) BIT_OPTIONS_LIST.
Proof. apply (bool_decide_unpack _). vm_compute. exact I. Qed.

Lemma set_bits_typed l n ds :
  Forall (λ XF, XF.1 ∈ FULL_OPTIONS_LIST ∧ member_type XF.1 = BOOL) l → typed ds →
  ∃ ds', mapM_ (λ XF, set_opt XF.1 (Option true false (Bool (0 <? Z.land n XF.2)))) l ds = (Ok tt, ds') ∧ typed ds'.
Proof.
  intros Hl. revert ds. induction Hl as [|XF l [HX Ht] Hl IH]; intros ds Hds; [by exists ds|]. cbn [mapM_]. erewrite bind_Ok by reflexivity.
  apply IH. by apply typed_insert.
Qed.

Lemma set_attribute_ok a q e end_ c ds :
  typed ds → Forall unit_ok a → Forall unit_ok q → (length q < 1024)%nat → at_ptr end_ = Ok c → c ≠ 125 →
  0 ≤ e ≤ Z.of_nat (length q) ∨ get_opt a = None →
  ∃ ds', set_attribute a (q ++ [0]) e end_ ds = (Ok end_, ds') ∧ typed ds'.
Proof.
  intros Hds Ha Hq Hmax Hend Hc He. unfold set_attribute.
  assert (Forall (λ u, u ≠ 0) a ∧ Forall (λ u, u ≠ 0) q) as [Ha0 Hq0] by (split; (eapply Forall_impl; [eassumption|by intros u []])).
  destruct (casecmp_ok (wide "OPTION") a) as [z Hz]; [apply (bool_decide_unpack _); vm_compute; exact I|done|]. rewrite (lift_bind _ _ _ _ Hz).
  destruct (z =? 0).
  { destruct (toul_ok q 0 Hq0) as [n Hn]. rewrite (lift_bind _ _ _ _ Hn).
    destruct (set_bits_typed BIT_OPTIONS_LIST n ds bit_options_members Hds) as (ds' & E & Ht). exists ds'. by rewrite (bind_Ok _ _ _ _ _ E). }
  destruct (get_opt a) as [X|] eqn:EX; [|by exists ds]. destruct He as [He|]; [|done].
  destruct (member_typed a X EX) as (HX & _). destruct (Hds X HX) as (o & Ho & Hto). rewrite (bind_Ok _ _ _ o ds) by (unfold opt; by rewrite Ho).
  destruct (bool_decide_reflect (get_type o = STRING)) as [Hs|Hs].
  - assert (∃ b, at_ptr (q ++ [0]) = Ok b) as [b Hb] by (destruct q; by eexists).
    rewrite (lift_bind _ _ _ _ Hb), (lift_bind _ _ _ _ Hend), (proj2 (Z.eqb_neq c 125)), andb_false_r by done.
    destruct (set_remove_brackets_ok q e Hq He Hmax) as (o' & Ho' & Ht'). rewrite (lift_bind _ _ _ _ Ho').
    exists (<[X := o']> ds). split; [done|]. apply typed_insert; [done|]. intros _. congruence.
  - rewrite (lift_bind _ _ _ _ (c_str_app q [] Hq0)). destruct (assign_ok o q Hq Hs) as (o' & Ho' & Ht'). rewrite (lift_bind _ _ _ _ Ho').
    exists (<[X := o']> ds). split; [done|]. apply typed_insert; [done|]. intros _. congruence.
Qed.

Lemma skip_spaces_name p : (∃ c, c ∈ p ∧ c ≠ 32) →
  ∃ sp p', p = sp ++ p' ∧ (∃ c, c ∈ p' ∧ c ≠ 32) ∧ ∀ t, skip_spaces (p ++ t) = p' ++ t.
Proof.
  induction p as [|c p IH]; [by intros (c & Hc%elem_of_nil & _)|]. intros (d & Hd & Hd32). destruct (Z.eqb_spec c 32) as [->|Hc].
  - destruct IH as (sp & p' & -> & Hp' & Hs).
    { exists d. split; [|done]. by apply elem_of_cons in Hd as [->|Hd]. }
    exists (32 :: sp), p'. split; [done|]. split; [done|]. intros t. cbn. apply Hs.
  - exists [], (c :: p). split; [done|]. split; [exists c; split; [by left|done]|]. intros t. by apply skip_spaces_stop.
Qed.

(** Where the value ends: at a delimiter, or at the end of the text. *)
Lemma found_end l b :
  Forall unit_ok l →
  ∃ found, (if b =? 123 then find_bracket_end (length (l ++ [0])) (l ++ [0]) else sqlwcharchr (l ++ [0]) 59) = Ok found ∧
    ∃ u z, l = u ++ z ∧ (z = [] ∨ ∃ t, z = 59 :: t) ∧
           (match found with Some e => e | None => drop (length l) (l ++ [0]) end) = z ++ [0].
Proof.
  intros Hl. assert (Forall (λ u, u ≠ 0) l) as Hz by (eapply Forall_impl; [exact Hl|by intros u []]).
  assert (∃ u z, l = u ++ z ∧ (z = [] ∨ ∃ t, z = 59 :: t) ∧ drop (length l) (l ++ [0]) = z ++ [0]) as Hnone.
  { exists l, []. rewrite app_nil_r, drop_app_length. split; [done|]. split; [by left|done]. }
  destruct (b =? 123).
  - exists None. split; [|done]. rewrite length_app, Nat.add_1_r. cbn [find_bracket_end].
    destruct (chr_cases l 125 Hz) as [[-> _]|(p & q & -> & _)]; [done|done|].
    apply Forall_app in Hl as [_ Hl]. apply Forall_cons in Hl as [[_ Hl] _]. done.
  - destruct (chr_cases l 59 Hz) as [[E _]|(p & q & -> & _ & E)]; [done|by exists None|].
    eexists. split; [exact E|]. exists p, (59 :: q). split; [done|]. split; [by right; exists q|done].
Qed.

Lemma suffix_drop (u z v q : list Z) : u ++ z = v ++ q → (length z ≤ length q)%nat → drop (length q - length z) q = z.
Proof.
  intros E Hl. assert (length (u ++ z) = length (v ++ q)) as Hlen by by rewrite E. rewrite !length_app in Hlen.
  rewrite <- (drop_app_length u z) at 2. rewrite E, drop_app_ge by lia. f_equal. lia.
Qed.

(** The value without the spaces at its end, unless the delimiter stands in
    front of it, which no name allows. *)
Lemma value_end a sp2 sp3 q1 u z e :
  u ++ z = ((a ++ sp2) ++ 61 :: sp3) ++ q1 → (z = [] ∨ ∃ t, z = 59 :: t) →
  Forall (λ c, c = 32) sp2 → Forall (λ c, c = 32) sp3 →
  e = Z.of_nat (length (q1 ++ [0])) - Z.of_nat (length (z ++ [0])) →
  let e' := if 0 <? e then Z.of_nat (trim_value (q1 ++ [0]) (Z.to_nat e)) else e in
  (∃ sp4, (if 0 <? e then drop (Z.to_nat e') (q1 ++ [0]) else z ++ [0]) = (sp4 ++ z) ++ [0] ∧ Forall (λ c, c = 32) sp4) ∧
  (0 ≤ e' ≤ Z.of_nat (length q1) ∨ get_opt a = None).
Proof.
  intros Esuf Hz Hsp2 Hsp3 He. rewrite !length_app in He. cbn [length] in He. cbv zeta. destruct (Z.ltb_spec 0 e) as [Hpos|Hneg].
  - destruct (trim_value_spaces (q1 ++ [0]) (Z.to_nat e)) as (Hle & sp4 & Hsp & Hf); [rewrite length_app; simpl; lia|].
    rewrite Nat2Z.id, Hsp. split; [|left; lia]. exists sp4. split; [|done]. rewrite <- app_assoc. f_equal.
    replace (Z.to_nat e) with (length q1 - length z)%nat by lia. rewrite drop_app_le by lia. f_equal. by eapply suffix_drop; [|lia].
  - split; [by exists []|]. destruct (decide (e = 0)) as [->|Hne0]; [left; lia|]. right.
    destruct Hz as [->|[t ->]]; [simpl in He; lia|]. apply (get_opt_none a 59); [|by left].
    assert (((a ++ sp2) ++ 61 :: sp3) !! length u = Some 59) as Hlook.
    { assert (length (u ++ 59%Z :: t) = length (((a ++ sp2) ++ 61%Z :: sp3) ++ q1)) as Hlen by by rewrite Esuf.
      rewrite length_app, (length_app _ q1) in Hlen. simpl in Hlen, He.
      rewrite <- (lookup_app_l _ q1) by lia. rewrite <- Esuf, lookup_app_r, Nat.sub_diag by lia. done. }
    apply list_elem_of_lookup_2 in Hlook. apply elem_of_app in Hlook as [[H|H]%elem_of_app|[H|H]%elem_of_cons]; [done| |done|].
    + by apply (proj1 (Forall_forall _ _) Hsp2) in H.
    + by apply (proj1 (Forall_forall _ _) Hsp3) in H.
Qed.

(** One round: the text is refused, or what is left is shorter. *)
Lemma kv_any_round f l ds :
  Forall unit_ok l → (length l < 1024)%nat → named false l = true → typed ds → l ≠ [] →
  from_kvpair_loop (S f) (l ++ [0]) 59 ds = (Ok 1, ds) ∨
  ∃ l' ds', from_kvpair_loop (S f) (l ++ [0]) 59 ds = from_kvpair_loop f (l' ++ [0]) 59 ds' ∧
            (length l' < length l)%nat ∧ Forall unit_ok l' ∧ named false l' = true ∧ typed ds'.
Proof.
  intros Hl Hmax Hnamed Hds Hne. assert (Forall (λ u, u ≠ 0) l) as Hz by (eapply Forall_impl; [exact Hl|by intros u []]).
  cbn [from_kvpair_loop]. assert (∃ c, at_ptr (l ++ [0]) = Ok c ∧ c ≠ 0) as (c & Hc & Hc0).
  { destruct Hz as [|c l Hc _]; [done|]. by exists c. }
  rewrite (lift_bind _ _ _ _ Hc), (proj2 (Z.eqb_neq c 0)) by done. clear c Hc Hc0.
  destruct (chr_cases l 61 Hz ltac:(done)) as [[E _]|(p & q & -> & Hp & E)]; rewrite (lift_bind _ _ _ _ E); [by left|].
  destruct (skip_spaces_name p (named_name p q Hnamed Hp)) as (sp & p1 & -> & Hp1 & Hskip).
  assert (skip_spaces (((sp ++ p1) ++ 61 :: q) ++ [0]) = (p1 ++ 61 :: q) ++ [0]) as -> by (rewrite <- !(app_assoc _ (61 :: q)); apply Hskip).
  cbv beta iota zeta.
  assert (length ((p1 ++ 61%Z :: q) ++ [0%Z]) - length (61%Z :: q ++ [0%Z]) = length p1)%nat as -> by (rewrite !length_app; simpl; rewrite length_app; simpl; lia).
  destruct (1000 <=? length p1)%nat; [by left|].
  assert (take (length p1) ((p1 ++ 61 :: q) ++ [0]) = p1) as -> by (rewrite <- app_assoc; apply take_app_length).
  destruct (trim_attribute_ok p1 Hp1) as (a & sp2 & Ea & -> & Hsp2). rewrite (lift_bind _ _ _ _ Ea). cbn [tail].
  destruct (skip_spaces_split q) as (sp3 & q1 & -> & Hsp3 & -> & _).
  assert (∃ b, at_ptr (q1 ++ [0]) = Ok b) as [b Hb] by (destruct q1; by eexists). rewrite (lift_bind _ _ _ _ Hb).
  set (l1 := (a ++ sp2) ++ 61 :: sp3 ++ q1) in *.
  assert (Forall unit_ok l1 ∧ Forall unit_ok a ∧ Forall unit_ok q1) as (Hl1 & Ha & Hq1).
  { rewrite <- app_assoc in Hl. apply Forall_app in Hl as [_ Hl]. split; [exact Hl|]. apply Forall_app in Hl as [Ha Hq].
    apply Forall_app in Ha as [Ha _]. apply Forall_cons in Hq as [_ Hq]. by apply Forall_app in Hq as [_ Hq]. }
  destruct (found_end l1 b Hl1) as (found & Efound & u & z & Elz & Hzc & Eend). rewrite (lift_bind _ _ _ _ Efound).
  assert (sqlwcharlen (l1 ++ [0]) = Ok (length l1)) as Elen by (apply (sqlwcharlen_app l1 []); eapply Forall_impl; [exact Hl1|by intros v []]).
  rewrite (lift_bind _ _ _ _ Elen), Eend. right.
  assert (length ((sp ++ a ++ sp2) ++ 61%Z :: sp3 ++ q1) = length sp + length l1)%nat as Hll by (unfold l1; rewrite <- app_assoc, length_app; done).
  assert (u ++ z = ((a ++ sp2) ++ 61 :: sp3) ++ q1) as Esuf by (rewrite <- Elz; unfold l1; by rewrite <- !app_assoc).
  destruct (value_end a sp2 sp3 q1 u z _ Esuf Hzc Hsp2 Hsp3 eq_refl) as [(sp4 & Erest & Hsp4) He].
  cbv zeta in Erest, He. rewrite Erest. match type of He with 0 ≤ ?x ≤ _ ∨ _ => set (e' := x) in * end. clearbody e'.
  assert (Forall unit_ok z) as Hz1 by (rewrite Elz in Hl1; by apply Forall_app in Hl1 as [_ Hl1]).
  assert (Forall unit_ok (sp4 ++ z)) as Hz4.
  { apply Forall_app. split; [|done]. eapply Forall_impl; [exact Hsp4|]. by intros v ->. }
  assert (∃ c, at_ptr ((sp4 ++ z) ++ [0]) = Ok c ∧ c ≠ 125) as (c & Hc & Hc125).
  { destruct Hz4 as [|c w [_ Hc] _]; [by exists 0|by exists c]. }
  assert (length q1 < 1024)%nat as Hq1l by (rewrite Hll in Hmax; unfold l1 in Hmax; rewrite !length_app in Hmax; simpl in Hmax; rewrite length_app in Hmax; lia).
  destruct (set_attribute_ok a q1 e' ((sp4 ++ z) ++ [0]) c ds Hds Ha Hq1 Hq1l Hc Hc125 He) as (ds' & Eset & Ht').
  rewrite (bind_Ok _ _ _ _ _ Eset), (lift_bind _ _ _ _ (skip_delims_sep _ Hz4)), skip_sep_spaces by done.
  exists (skip_sep z), ds'. split; [done|]. rewrite Hll. destruct (skip_sep_spec z) as [Hlz Hfz].
  assert (named false (skip_sep z) = true ∧ (length (skip_sep z) < length l1)%nat) as [Hn' Hl'].
  { destruct Hzc as [->|[t ->]]; [split; [done|unfold l1; rewrite length_app; simpl; lia]|].
    assert (named false t = true) as Hnt.
    { apply (named_suffix false (sp ++ u)). rewrite <- app_assoc, <- Elz. unfold l1. rewrite (app_assoc sp). exact Hnamed. }
    split; [by apply (named_skip_sep (59 :: t))|]. destruct (skip_sep_spec t) as [Ht _]. rewrite Elz, length_app. cbn [skip_sep length]. cbn. lia. }
  split; [lia|]. split; [by apply Hfz|]. by split.
Qed.

Lemma kv_loop_returns fuel l ds :
  Forall unit_ok l → (length l < 1024)%nat → named false l = true → typed ds → (length l < fuel)%nat →
  ∃ r ds', from_kvpair_loop fuel (l ++ [0]) 59 ds = (Ok r, ds') ∧ typed ds' ∧ (r = 0 ∨ r = 1).
Proof.
  revert l ds. induction fuel as [|f IH]; intros l ds Hl Hmax Hn Hds Hf; [lia|].
  destruct (decide (l = [])) as [->|Hne]; [exists 0, ds; split; [done|]; split; [done|by left]|].
  destruct (kv_any_round f l ds Hl Hmax Hn Hds Hne) as [->|(l' & ds' & -> & Hlt & Hl' & Hn' & Hds')].
  - exists 1, ds. split; [done|]. split; [done|by right].
  - apply IH; [done|lia|done|done|lia].
Qed.

(** A round that passes over an unknown name. *)
Lemma kv_unknown f str ds c eq a b found n rest :
  at_ptr str = Ok c → (c =? 0) = false → sqlwcharchr str 61 = Ok (Some eq) →
  let str' := skip_spaces str in let len := (length str' - length eq)%nat in let split := skip_spaces (tail eq) in
  (1000 <=? len)%nat = false → trim_attribute (rev (take len str')) = Ok a → at_ptr split = Ok b →
  (if b =? 123 then find_bracket_end (length str') str' else sqlwcharchr str' 59) = Ok found → sqlwcharlen str' = Ok n →
  let end_ := match found with Some end_ => end_ | None => drop n str' end in
  let e := Z.of_nat (length split) - Z.of_nat (length end_) in
  let e' := if 0 <? e then Z.of_nat (trim_value split (Z.to_nat e)) else e in
  sqlwcharcasecmp (wide "OPTION" ++ [0]) (a ++ [0]) = Ok 1 → get_opt a = None →
  skip_delims (if 0 <? e then drop (Z.to_nat e') split else end_) 59 = Ok rest →
  from_kvpair_loop (S f) str 59 ds = from_kvpair_loop f rest 59 ds.
Proof.
  intros Hc Hc0 Heq str' len split Hlen Ha Hb Hf Hn end_ e e' Hcmp Hget Hrest. cbn [from_kvpair_loop].
  rewrite (lift_bind _ _ _ _ Hc), Hc0, (lift_bind _ _ _ _ Heq). cbv beta iota zeta. fold str' len. rewrite Hlen, (lift_bind _ _ _ _ Ha).
  fold split. rewrite (lift_bind _ _ _ _ Hb), (lift_bind _ _ _ _ Hf), (lift_bind _ _ _ _ Hn). fold end_ e e'.
  unfold set_attribute. rewrite bind_assoc, (lift_bind _ _ _ _ Hcmp), Hget. cbn [Z.eqb]. rewrite ret_bind. by rewrite (lift_bind _ _ _ _ Hrest).
Qed.

(** C40: Reading a connection string of less than 1024 units returns, with 0 or 1 and
    every member still of its class, when there is no closing bracket in it and
    no empty name.  With a closing bracket it need not return: a value in
    brackets of an unknown name, or of a number, leaves the bracket to be read
    as the start of the next name, and when the value of that is in brackets as
    well the end that is found is the bracket itself, so that the same text is
    read again without end. *)
Theorem from_kvpair_returns l ds :
  Forall unit_ok l → (length l < 1024)%nat → named false l = true → typed ds →
  (∃ r ds', from_kvpair (l ++ [0]) 59 ds = (Ok r, ds') ∧ typed ds' ∧ (r = 0 ∨ r = 1)) ∧
  (∀ f ds, from_kvpair_loop (S f) (wide "FOO={x};PWD={y}" ++ [0]) 59 ds = from_kvpair_loop f (wide "};PWD={y}" ++ [0]) 59 ds) ∧
  (∀ f ds, from_kvpair_loop (S f) (wide "};PWD={y}" ++ [0]) 59 ds = from_kvpair_loop f (wide "};PWD={y}" ++ [0]) 59 ds).
Proof.
  intros Hl Hmax Hn Hds. split; [|split; intros f ds'].
  2: refine (kv_unknown f (wide "FOO={x};PWD={y}" ++ [0]) ds' 70 (wide "={x};PWD={y}" ++ [0]) (wide "FOO") 123
    (Some (wide "};PWD={y}" ++ [0])) 15 (wide "};PWD={y}" ++ [0]) _ _ _ _ _ _ _ _ _ _ _); vm_compute; reflexivity.
  2: refine (kv_unknown f (wide "};PWD={y}" ++ [0]) ds' 125 (wide "={y}" ++ [0]) (wide "};PWD") 123
    (Some (wide "};PWD={y}" ++ [0])) 9 (wide "};PWD={y}" ++ [0]) _ _ _ _ _ _ _ _ _ _ _); vm_compute; reflexivity.
  apply kv_loop_returns; try done. rewrite length_app. lia.
Qed.

(** A name that nothing knows, a number and an unclosed bracket. *)
Lemma from_kvpair_returns_witness :
  ∃ r ds', from_kvpair (wide "FOO = x; ;PORT=33;PWD={a;b" ++ [0]) 59 reset = (Ok r, ds') ∧ r = 0 ∧
           (wstring <$> ds' !! "PWD") = Some (Ok (wide "{a;b")).
Proof.
  destruct (from_kvpair_returns (wide "FOO = x; ;PORT=33;PWD={a;b") reset) as [(r & ds' & E & _) _];
    [apply (bool_decide_unpack _); vm_compute; exact I|apply Nat.ltb_lt; vm_compute; reflexivity|vm_compute; reflexivity|exact typed_reset|].
  exists r, ds'. split; [exact E|]. pose proof (f_equal fst E) as E1. pose proof (f_equal snd E) as E2. cbn [fst snd] in E1, E2. split.
  - vm_compute in E1. by injection E1.
  - rewrite <- E2. vm_compute. reflexivity.
Defined.

(** ** The numeric options *)

Definition mask (l : list (string * Z)) : Z := fold_right (λ XF m, Z.lor XF.2 m) 0 l.
Definition bit_flag (F : Z) : Prop := ∃ i, 0 ≤ i ∧ F = 2 ^ i.

Lemma land_flag n F acc : bit_flag F → (if 0 <? Z.land n F then Z.lor acc F else acc) = Z.lor acc (Z.land n F).
Proof.
  intros (i & Hi & ->). assert (Z.land n (2 ^ i) = if Z.testbit n i then 2 ^ i else 0) as ->.
  { destruct (Z.testbit n i) eqn:E; apply Z.bits_inj'; intros m Hm; rewrite Z.land_spec, Z.pow2_bits_eqb, ?Z.bits_0 by done;
      destruct (Z.eqb_spec i m) as [<-|Hne]; by rewrite ?E, ?andb_true_r, ?andb_false_r. }
  destruct (Z.testbit n i); [|by rewrite Z.lor_0_r]. by rewrite (proj2 (Z.ltb_lt 0 (2 ^ i))) by lia.
Qed.

Lemma set_bits_run l n ds :
  NoDup l.*1 →
  ∃ ds', mapM_ (λ XF, set_opt XF.1 (Option true false (Bool (0 <? Z.land n XF.2)))) l ds = (Ok tt, ds') ∧
    (∀ X F, (X, F) ∈ l → ds' !! X = Some (Option true false (Bool (0 <? Z.land n F)))) ∧ (∀ X, X ∉ l.*1 → ds' !! X = ds !! X).
Proof.
  revert ds. induction l as [|[X F] l IH]; intros ds Hnd; [exists ds; split; [done|]; split; [by intros X F ?%elem_of_nil|done]|].
  cbn [fmap list_fmap fst] in Hnd. apply NoDup_cons in Hnd as [HX Hnd]. cbn [mapM_]. erewrite bind_Ok by reflexivity. cbn [fst snd].
  destruct (IH (<[X := Option true false (Bool (0 <? Z.land n F))]> ds) Hnd) as (ds' & -> & Hin & Hout).
  exists ds'. split; [done|]. split.
  - intros Y G [[= -> ->]|HY]%elem_of_cons; [|by apply Hin]. by rewrite Hout, lookup_insert_eq.
  - intros Y [Hne HY]%not_elem_of_cons. by rewrite Hout, lookup_insert_ne.
Qed.

Lemma get_bits_run l n acc ds :
  Forall (λ XF, bit_flag XF.2) l → (∀ X F, (X, F) ∈ l → ds !! X = Some (Option true false (Bool (0 <? Z.land n F)))) →
  get_bits l acc ds = (Ok (Z.lor acc (Z.land n (mask l))), ds).
Proof.
  intros Hl. revert acc. induction Hl as [|[X F] l HF Hl IH]; intros acc Hds; [cbn; by rewrite Z.land_0_r, Z.lor_0_r|].
  cbn [get_bits]. rewrite (bind_Ok _ _ _ (Option true false (Bool (0 <? Z.land n F))) ds) by (unfold opt; by rewrite (Hds X F ltac:(by left))).
  cbn [m_is_set negb opt_true m_value]. cbn [snd] in HF. rewrite land_flag, IH by (first [done|intros Y G HY; apply Hds; by right]).
  cbn [mask fold_right snd]. by rewrite Z.land_lor_distr_r, Z.lor_assoc.
Qed.

(** The numeric options: setting them from a number and reading them back gives
    the bits of the number that stand for an option, all others are lost; every
    option with a bit is then set and no longer a default, so that all of them
    are written to a connection string, and no other option changes. *)
Theorem numeric_options_roundtrip n ds :
  ∃ ds', set_numeric_options n ds = (Ok tt, ds') ∧
    get_numeric_options ds' = (Ok (Z.land n 0x3fffffba), ds') ∧
    (∀ X, X ∈ BIT_OPTIONS_LIST.*1 → ∃ b, ds' !! X = Some (Option true false (Bool b))) ∧
    (∀ X, X ∉ BIT_OPTIONS_LIST.*1 → ds' !! X = ds !! X).
Proof.
  assert (NoDup BIT_OPTIONS_LIST.*1) as Hnd by (apply (bool_decide_unpack _); vm_compute; exact I).
  destruct (set_bits_run BIT_OPTIONS_LIST n ds Hnd) as (ds' & E & Hin & Hout). exists ds'. split; [exact E|]. split; [|split; [|exact Hout]].
  - unfold get_numeric_options. rewrite (get_bits_run _ n); [|repeat (constructor; [by eexists; split; [|reflexivity]|]); constructor|exact Hin].
    done.
  - intros X ([Y F] & -> & HX)%list_elem_of_fmap. by eexists; apply Hin.
Qed.

(** ** Copying *)

(** What the copy makes of an option. *)
Definition copied (o o' : optionBase) : Prop :=
  match m_value o with
  | Str true _ _ => o' = set_null
  | Str false w _ => ∃ s, o' = Option true false (Str false (collapse w) s)
  | _ => o' = o
  end.
Definition copyable (o : optionBase) : Prop :=
  match m_value o with
  | Str null w _ => m_is_set o = true ∧ (null = false → Forall (λ c, c ≠ 0) w ∧ (length w < 1024)%nat ∧ (length w ≤ S (length (collapse w)))%nat)
  | _ => True
  end.

Lemma copy_string_run src X o ds :
  src !! X = Some o → get_type o = STRING → copyable o → ∃ o', copy_string src X ds = (Ok tt, <[X := o']> ds) ∧ copied o o'.
Proof.
  intros Ho Ht Hc. unfold copy_string. rewrite Ho. destruct o as [is_set d [null w s|z|b]]; [|done|done].
  destruct Hc as [Hset Hw]. cbn [m_is_set m_value] in *. rewrite Hset. cbn [negb]. destruct null.
  - by exists set_null.
  - destruct (Hw eq_refl) as (Hz & Hl & Hb). rewrite sqlwcharlen_app by done. cbn [mbind res_bind].
    destruct (set_remove_brackets_text w [0] Hz) as [s' E].
    { pose proof (collapse_length w). lia. }
    { done. }
    exists (Option true false (Str false (collapse w) s')). split; [by rewrite (lift_bind _ _ _ _ E)|]. by exists s'.
Qed.

(** A loop that sets one option after the other. *)
Lemma copy_loop (f : string → M DataSource unit) (P : string → optionBase → Prop) l ds :
  NoDup l → (∀ X ds, X ∈ l → ∃ o', f X ds = (Ok tt, <[X := o']> ds) ∧ P X o') →
  ∃ ds', mapM_ f l ds = (Ok tt, ds') ∧ (∀ X, X ∈ l → ∃ o', ds' !! X = Some o' ∧ P X o') ∧ (∀ X, X ∉ l → ds' !! X = ds !! X).
Proof.
  intros Hnd. revert ds. induction Hnd as [|X l HX Hnd IH]; intros ds Hf; [exists ds; split; [done|]; split; [by intros X ?%elem_of_nil|done]|].
  cbn [mapM_]. destruct (Hf X ds ltac:(by left)) as (o' & E & HP). rewrite (bind_Ok _ _ _ _ _ E).
  destruct (IH (<[X := o']> ds)) as (ds' & -> & Hin & Hout); [intros Y ds'' HY; apply Hf; by right|]. exists ds'. split; [done|]. split.
  - intros Y [->|HY]%elem_of_cons; [|by apply Hin]. exists o'. by rewrite Hout, lookup_insert_eq.
  - intros Y [Hne HY]%not_elem_of_cons. by rewrite Hout, lookup_insert_ne.
Qed.

Lemma lists_disjoint :
  NoDup FULL_OPTIONS_LIST ∧ Forall (λ X, member_type X = STRING) STR_OPTIONS_LIST ∧
  Forall (λ X, member_type X = INT) INT_OPTIONS_LIST ∧ Forall (λ X, member_type X = BOOL) BOOL_OPTIONS_LIST.
Proof. apply (bool_decide_unpack _). vm_compute. exact I. Qed.

(** A copy of a data source has the numbers of its source, defaults included.
    Its strings are those of the source, null ones as well, but not as defaults
    any more, and of two closing brackets in a row one is left: the text had been
    decoded before.  A password with two brackets is another one in the copy, and
    a copy with a null string cannot be written as a connection string. *)
Theorem copy_spec src ds :
  typed src → (∀ X o, src !! X = Some o → copyable o) →
  (∃ ds', copy (Some src) ds = (Ok tt, ds') ∧
    ∀ X o, X ∈ FULL_OPTIONS_LIST → src !! X = Some o → ∃ o', ds' !! X = Some o' ∧ copied o o') ∧
  (let src' := <["PWD" := Option true false (Str false (wide "a}}b") [])]> src in
   ∃ s, (copy_string src' "PWD" ds).2 !! "PWD" = Some (Option true false (Str false (wide "a}b") s))) ∧
  wstring set_null = Throw err_msg_null.
Proof.
  intros Ht Hc. pose proof lists_disjoint as (Hnd & Hs & Hi & Hb). rewrite Forall_forall in Hs, Hi, Hb.
  pose proof Hnd as (Hnds & Hsx & (Hndi & Hix & Hndb)%NoDup_app)%NoDup_app.
  assert (∀ X, X ∈ FULL_OPTIONS_LIST → ∃ o, src !! X = Some o ∧ get_type o = member_type X ∧ copyable o) as Hget.
  { intros X HX. destruct (Ht X HX) as (o & Ho & Hto). exists o. split; [done|]. split; [done|]. by eapply Hc. }
  set (P := λ X o', ∀ o, src !! X = Some o → copied o o').
  assert (∀ X ds, X ∈ INT_OPTIONS_LIST ++ BOOL_OPTIONS_LIST → ∃ o', copy_number src X ds = (Ok tt, <[X := o']> ds) ∧ P X o') as Hnum.
  { intros X ds0 HX. destruct (Hget X) as (o & Ho & Hto & _); [by apply elem_of_app; right|]. unfold copy_number. rewrite Ho.
    exists o. split; [done|]. intros o' Ho'. rewrite Ho in Ho'. injection Ho' as <-.
    assert (get_type o ≠ STRING) as Hne by (rewrite Hto; apply elem_of_app in HX as [HX|HX]; [by rewrite Hi|by rewrite Hb]).
    unfold copied, get_type in *. by destruct (m_value o). }
  split; [|split; [|done]].
  - cbn [copy].
    destruct (copy_loop (copy_string src) P STR_OPTIONS_LIST ds Hnds) as (ds1 & E1 & H1 & _).
    { intros X ds0 HX. destruct (Hget X) as (o & Ho & Hto & Hco); [by apply elem_of_app; left|]. rewrite Hs in Hto by done.
      destruct (copy_string_run src X o ds0 Ho Hto Hco) as (o' & E & Hco'). exists o'. split; [done|]. intros o'' Ho''. by simplify_eq. }
    destruct (copy_loop (copy_number src) P INT_OPTIONS_LIST ds1 Hndi) as (ds2 & E2 & H2 & H2').
    { intros X ds0 HX. apply Hnum. by apply elem_of_app; left. }
    destruct (copy_loop (copy_number src) P BOOL_OPTIONS_LIST ds2 Hndb) as (ds3 & E3 & H3 & H3').
    { intros X ds0 HX. apply Hnum. by apply elem_of_app; right. }
    exists ds3. rewrite (bind_Ok _ _ _ _ _ E1), (bind_Ok _ _ _ _ _ E2). split; [done|]. intros X o HX Ho.
    destruct (decide (X ∈ BOOL_OPTIONS_LIST)) as [HX3|HX3]; [destruct (H3 X HX3) as (o' & Ho' & HP); exists o'; auto|rewrite H3' by done].
    destruct (decide (X ∈ INT_OPTIONS_LIST)) as [HX2|HX2]; [destruct (H2 X HX2) as (o' & Ho' & HP); exists o'; auto|rewrite H2' by done].
    destruct (H1 X) as (o' & Ho' & HP); [|exists o'; auto].
    unfold FULL_OPTIONS_LIST in HX. rewrite !elem_of_app in HX. tauto.
  - intros src'. set (o := Option true false (Str false (wide "a}}b") [])).
    destruct (copy_string_run src' "PWD" o ds) as (o' & -> & s & ->);
      [apply lookup_insert_eq|done| |exists s; cbn [snd]; by rewrite lookup_insert_eq].
    split; [done|]. intros _. split; [apply (bool_decide_unpack _); vm_compute; exact I|]. split; vm_compute; lia.
Qed.

#[export] Instance copyable_dec o : Decision (copyable o).
Proof. unfold copyable. destruct (m_value o); apply _. Defined.

Lemma copy_spec_witness :
  ∃ ds', copy (Some ex_ds) ∅ = (Ok tt, ds') ∧ (wstring <$> ds' !! "PWD") = Some (Ok (wide " a;b}c ")) ∧
         ds' !! "PORT" = Some (Option true false (Int (-1))) ∧ ds' !! "CONNECT_TIMEOUT" = Some (Option true true (Int 30)).
Proof.
  assert (typed ex_ds) as Ht.
  { unfold ex_ds. do 3 (apply typed_insert; [|intros _; vm_compute; reflexivity]). exact typed_reset. }
  assert (∀ X o, ex_ds !! X = Some o → copyable o) as Hc.
  { apply (map_Forall_lookup (λ X, copyable)). apply (bool_decide_unpack _). vm_compute. exact I. }
  destruct (copy_spec ex_ds ∅ Ht Hc) as [(ds' & E & H) _]. exists ds'. split; [exact E|].
  assert (∀ X o, ex_ds !! X = Some o → bool_decide (X ∈ FULL_OPTIONS_LIST) = true → ∃ o', ds' !! X = Some o' ∧ copied o o') as H'
    by (intros X o Ho HX; apply (H X o); [by apply bool_decide_eq_true in HX|exact Ho]).
  split; [|split].
  - destruct (H' "PWD" (Option true false (Str false (wide " a;b}c ") (wide " a;b}c ")))) as (o' & -> & s & ->);
      [vm_compute; reflexivity|vm_compute; reflexivity|]. reflexivity.
  - destruct (H' "PORT" (Option true false (Int (-1)))) as (o' & -> & ->); [vm_compute; reflexivity|vm_compute; reflexivity|done].
  - destruct (H' "CONNECT_TIMEOUT" (Option true true (Int 30))) as (o' & -> & ->); [vm_compute; reflexivity|vm_compute; reflexivity|done].
Defined.
