(* ===== verification/CacheMap.v ===== *)
(** The two caches with expiring entries: [CACHE_MAP] (src/driver/cache_map.cc)
    and [SLIDING_EXPIRATION_CACHE] (src/driver/sliding_expiration_cache.cc)
    with its clean-up thread
    (src/driver/sliding_expiration_cache_with_clean_up_thread.cc).

    Time is the number of nanoseconds of [steady_clock]; every call of
    [now()] takes the next reading.  The order in which an [unordered_map] is
    visited is that of [map_to_list]; nothing depends on it. *)

From S2P Require Import Prelude CppString.

Local Open Scope Z_scope.

(** ** The clock *)

(** The readings of the clock, and how many have been taken. *)
Record clock := Clock { readings : nat → Z; taken : nat }.

Definition now (c : clock) : Z := readings c (taken c).
Definition tick (c : clock) : clock := Clock (readings c) (S (taken c)).

(** [steady_clock] never goes back. *)
Definition steady (c : clock) : Prop := ∀ i j, (i ≤ j)%nat → readings c i ≤ readings c j.

(** [shared_ptr<CACHE_ITEM>]: the item and its expiration time. *)
Record CACHE_ITEM (V : Type) := CacheItem { item : V; expiration_time : Z }.
Arguments CacheItem {V} item expiration_time.
Arguments item {V} c.
Arguments expiration_time {V} c.

Section CacheMap.
Context {V : Type}.

(** [src/driver/cache_map.h:38-71] CACHE_MAP *)
Record CACHE_MAP := CacheMap {
  cache : gmap str (CACHE_ITEM V);
  clean_up_time_nanos : Z;
  time : clock
}.

Definition set_cache (m : gmap str (CACHE_ITEM V)) (c : CACHE_MAP) : CACHE_MAP := CacheMap m (clean_up_time_nanos c) (time c).

(** [steady_clock::now()]. *)
Definition read_clock : M CACHE_MAP Z := λ c, (Ok (now (time c)), CacheMap (cache c) (clean_up_time_nanos c) (tick (time c))).

(** [src/driver/cache_map.h:49-49] CACHE_ITEM::is_expired *)
Definition is_expired (i : CACHE_ITEM V) : M CACHE_MAP bool := t ← read_clock; mret (expiration_time i <? t).

(** [src/driver/cache_map.h:67-67] CACHE_MAP::clean_up_time_interval_nanos *)
Definition clean_up_time_interval_nanos : Z := 60000000000.

(** The loop of [clean_up] over the keys. *)
Fixpoint erase_expired (keys : list str) : M CACHE_MAP unit :=
  match keys with
  | [] => mret tt
  | k :: keys' =>
    c ← get;
    i ← deref (cache c !! k);
    e ← is_expired i;
    (if e : bool then modify (λ c, set_cache (delete k (cache c)) c) else mret tt);;
    erase_expired keys'
  end.

(** [src/driver/cache_map.cc:77-93] CACHE_MAP::clean_up *)
Definition clean_up : M CACHE_MAP unit :=
  t ← read_clock;
  c ← get;
  if clean_up_time_nanos c <? t then
    t' ← read_clock;
    modify (λ c, CacheMap (cache c) (t' + clean_up_time_interval_nanos) (time c));;
    c ← get;
    erase_expired (map_to_list (cache c)).*1
  else mret tt.

(** [src/driver/cache_map.cc:36-41] CACHE_MAP::put *)
Definition put (key : str) (value : V) (item_expiration_nanos : Z) : M CACHE_MAP unit :=
  t ← read_clock;
  modify (λ c, set_cache (<[key := CacheItem value (t + item_expiration_nanos)]> (cache c)) c);;
  clean_up.

(** [src/driver/cache_map.cc:43-49] CACHE_MAP::get *)
Definition get_item (key : str) (default_value : V) : M CACHE_MAP V :=
  c ← get;
  match cache c !! key with
  | None => mret default_value
  | Some i => e ← is_expired i; if negb e then mret (item i) else mret default_value
  end.

(** [src/driver/cache_map.cc:51-57] CACHE_MAP::get

    With the expiration of a new item.  If the clean-up has removed the item
    that was just put, a null pointer is read. *)
Definition get_or_put (key : str) (default_value : V) (item_expiration_nanos : Z) : M CACHE_MAP V :=
  c ← get;
  fresh ← (match cache c !! key with None => mret true | Some i => is_expired i end);
  (if fresh : bool then put key default_value item_expiration_nanos else mret tt);;
  c ← get;
  i ← deref (cache c !! key);
  mret (item i).

(** [src/driver/cache_map.cc:59-65] CACHE_MAP::remove *)
Definition remove (key : str) : M CACHE_MAP unit :=
  modify (λ c, set_cache (delete key (cache c)) c);; clean_up.

(** [src/driver/cache_map.cc:67-75] CACHE_MAP::size, clear *)
Definition size : M CACHE_MAP nat := gets (λ c, base.size (cache c)).
Definition clear : M CACHE_MAP unit := modify (set_cache ∅).

(** ** What the cache promises

    A map from keys to items with an expiration time, from which nothing is
    ever cleaned up: an item is there until it expires. *)
Definition promised (a : gmap str (CACHE_ITEM V)) (key : str) (t : Z) : option V :=
  match a !! key with
  | Some i => if expiration_time i <? t then None else Some (item i)
  | None => None
  end.

(** The cache holds a part of the map, and all of it that has not expired. *)
Definition represents (c : CACHE_MAP) (a : gmap str (CACHE_ITEM V)) : Prop :=
  steady (time c) ∧ cache c ⊆ a ∧ ∀ k i, a !! k = Some i → now (time c) ≤ expiration_time i → cache c !! k = Some i.

(** Time goes on, and only expired items are removed. *)
Definition cleaned (c c' : CACHE_MAP) : Prop :=
  readings (time c') = readings (time c) ∧ (taken (time c) ≤ taken (time c'))%nat ∧ cache c' ⊆ cache c ∧
  ∀ k i, cache c !! k = Some i → now (time c') ≤ expiration_time i → cache c' !! k = Some i.

Lemma now_mono c c' : steady (time c) → cleaned c c' → now (time c) ≤ now (time c').
Proof. intros Hs (Hr & Ht & _). unfold now. rewrite Hr. by apply Hs. Qed.

Lemma cleaned_steady c c' : steady (time c) → cleaned c c' → steady (time c').
Proof. intros Hs (Hr & _) i j. unfold steady in Hs. rewrite Hr. apply Hs. Qed.

Lemma cleaned_refl c : cleaned c c.
Proof. done. Qed.

Lemma cleaned_trans c1 c2 c3 : steady (time c1) → cleaned c1 c2 → cleaned c2 c3 → cleaned c1 c3.
Proof.
  intros Hs H12 H23. pose proof (now_mono _ _ (cleaned_steady _ _ Hs H12) H23) as Hle.
  destruct H12 as (R1 & T1 & S1 & K1), H23 as (R2 & T2 & S2 & K2).
  split; [congruence|]. split; [lia|]. split; [by etrans|]. intros k i Hk Hi. apply K2; [|done]. apply K1; [done|lia].
Qed.

Lemma represents_cleaned c c' a : represents c a → cleaned c c' → represents c' a.
Proof.
  intros (Hs & Hsub & Hlive) Hc. split; [by eapply cleaned_steady|]. pose proof (now_mono _ _ Hs Hc).
  destruct Hc as (_ & _ & Hsub' & Hk). split; [by etrans|]. intros k i Hi He. apply Hk; [|done]. apply Hlive; [done|lia].
Qed.

Lemma tick_cleaned c : cleaned c (CacheMap (cache c) (clean_up_time_nanos c) (tick (time c))).
Proof. split; [done|]. split; [simpl; lia|]. done. Qed.

Lemma read_clock_bind {A} (k : Z → M CACHE_MAP A) c :
  (read_clock ≫= k) c = k (now (time c)) (CacheMap (cache c) (clean_up_time_nanos c) (tick (time c))).
Proof. done. Qed.

Lemma erase_expired_run keys c :
  steady (time c) → NoDup keys → Forall (λ k, is_Some (cache c !! k)) keys →
  ∃ c', erase_expired keys c = (Ok tt, c') ∧ cleaned c c' ∧ clean_up_time_nanos c' = clean_up_time_nanos c.
Proof.
  revert c. induction keys as [|k keys IH]; intros c Hs Hnd Hin; [by exists c|].
  apply NoDup_cons in Hnd as [Hk Hnd]. apply Forall_cons in Hin as [[i Hi] Hin]. cbn [erase_expired].
  rewrite get_bind, Hi. cbn [deref]. rewrite ret_bind. unfold is_expired. rewrite bind_assoc, read_clock_bind, ret_bind.
  set (c1 := CacheMap (cache c) (clean_up_time_nanos c) (tick (time c))).
  destruct (Z.ltb_spec (expiration_time i) (now (time c))) as [He|He].
  - rewrite modify_bind. set (c2 := set_cache (delete k (cache c1)) c1).
    assert (cleaned c c2) as H2.
    { split; [done|]. split; [simpl; lia|]. split; [apply delete_subseteq|]. intros k' i' Hk' Hi'. simpl.
      destruct (decide (k' = k)) as [->|Hne]; [|by rewrite lookup_delete_ne].
      exfalso. assert (i' = i) as -> by (simpl in Hk'; congruence). assert (now (time c) ≤ now (time c2)) by (apply Hs; simpl; lia). lia. }
    destruct (IH c2) as (c' & E & Hc' & Ht); [by eapply cleaned_steady|done| |].
    { apply list.Forall_forall. intros y Hy. simpl. rewrite lookup_delete_ne by (intros ->; done). by apply (proj1 (list.Forall_forall _ _) Hin). }
    exists c'. split; [done|]. split; [by eapply cleaned_trans|]. by rewrite Ht.
  - rewrite ret_bind. destruct (IH c1) as (c' & E & Hc' & Ht); [done|done|done|]. exists c'. split; [done|]. split; [|done].
    eapply cleaned_trans; [done|apply tick_cleaned|done].
Qed.

Lemma clean_up_run c : steady (time c) → ∃ c', clean_up c = (Ok tt, c') ∧ cleaned c c'.
Proof.
  intros Hs. unfold clean_up. rewrite read_clock_bind, get_bind. set (c1 := CacheMap (cache c) (clean_up_time_nanos c) (tick (time c))).
  assert (cleaned c c1) as H1 by apply tick_cleaned.
  destruct (clean_up_time_nanos c1 <? now (time c)); [|by exists c1].
  rewrite read_clock_bind, modify_bind, get_bind.
  match goal with |- context [erase_expired _ ?s] => set (c2 := s) end.
  assert (cleaned c c2) as H2 by (split; [done|]; split; [simpl; lia|]; done).
  destruct (erase_expired_run (map_to_list (cache c2)).*1 c2) as (c' & E & Hc' & _).
  - by eapply cleaned_steady.
  - apply NoDup_fst_map_to_list.
  - apply list.Forall_forall. intros k ([k' i] & -> & Hi)%list_elem_of_fmap. apply elem_of_map_to_list in Hi. by exists i.
  - exists c'. split; [done|]. by eapply cleaned_trans.
Qed.

Lemma get_item_run k d c :
  ∃ c', get_item k d c = (Ok match cache c !! k with Some i => if expiration_time i <? now (time c) then d else item i | None => d end, c') ∧
    cleaned c c' ∧ cache c' = cache c.
Proof.
  unfold get_item. rewrite get_bind. destruct (cache c !! k) as [i|]; [|by exists c].
  unfold is_expired. rewrite bind_assoc, read_clock_bind, ret_bind.
  exists (CacheMap (cache c) (clean_up_time_nanos c) (tick (time c))). split; [by destruct (_ <? _)|]. split; [apply tick_cleaned|done].
Qed.

(** The cache with the new entry, before the clean-up. *)
Definition with_item (k : str) (v : V) (n : Z) (c : CACHE_MAP) : CACHE_MAP :=
  CacheMap (<[k := CacheItem v (now (time c) + n)]> (cache c)) (clean_up_time_nanos c) (tick (time c)).

Lemma put_run k v n c : steady (time c) → ∃ c', put k v n c = (Ok tt, c') ∧ cleaned (with_item k v n c) c'.
Proof.
  intros Hs. unfold put. rewrite read_clock_bind, modify_bind. by destruct (clean_up_run (with_item k v n c)) as (c' & E & Hc'); [|exists c'].
Qed.

Lemma remove_run k c : steady (time c) → ∃ c', remove k c = (Ok tt, c') ∧ cleaned (set_cache (delete k (cache c)) c) c'.
Proof.
  intros Hs. unfold remove. rewrite modify_bind. by destruct (clean_up_run (set_cache (delete k (cache c)) c)) as (c' & E & Hc'); [|exists c'].
Qed.

(** C38: The cache keeps its promise whatever the clean-up removes, as long
    as the clock does not go back: [put] binds the key until the expiration,
    [get_item] answers with the item exactly if one was put that has not expired,
    and with the default value otherwise, [remove] and [clear] unbind. *)
Theorem cache_map_refines c a :
  represents c a →
  (∀ k v n, ∃ c', put k v n c = (Ok tt, c') ∧ represents c' (<[k := CacheItem v (now (time c) + n)]> a)) ∧
  (∀ k d, ∃ c', get_item k d c = (Ok (default d (promised a k (now (time c)))), c') ∧ represents c' a) ∧
  (∀ k, ∃ c', remove k c = (Ok tt, c') ∧ represents c' (delete k a)) ∧
  (∃ c', clear c = (Ok tt, c') ∧ represents c' ∅).
Proof.
  intros Hrep. pose proof Hrep as (Hs & Hsub & Hlive). split; [|split; [|split]].
  - intros k v n. destruct (put_run k v n c Hs) as (c' & E & Hc'). exists c'. split; [done|]. eapply represents_cleaned; [|exact Hc'].
    split; [done|]. split; [simpl; by apply insert_mono|]. intros k' i Hi Ht. simpl.
    destruct (decide (k' = k)) as [->|Hne]; [rewrite lookup_insert_eq in Hi |- *; done|].
    rewrite lookup_insert_ne in Hi |- * by done. apply Hlive; [done|].
    assert (now (time c) ≤ now (time (with_item k v n c))) by (apply Hs; simpl; lia). lia.
  - intros k d. destruct (get_item_run k d c) as (c' & E & Hc' & _). exists c'. split; [|by eapply represents_cleaned].
    rewrite E. unfold promised. f_equal. f_equal. destruct (cache c !! k) as [i|] eqn:Hi.
    + rewrite (lookup_weaken _ _ _ _ Hi Hsub). by destruct (_ <? _).
    + destruct (a !! k) as [i|] eqn:Ha; [|done].
      destruct (Z.ltb_spec (expiration_time i) (now (time c))); [done|]. rewrite (Hlive k i) in Hi; [done|done|lia].
  - intros k. destruct (remove_run k c Hs) as (c' & E & Hc'). exists c'. split; [done|]. eapply represents_cleaned; [|exact Hc'].
    split; [done|]. split; [simpl; by apply delete_mono|]. intros k' i Hi Ht. simpl.
    destruct (decide (k' = k)) as [->|Hne]; [by rewrite lookup_delete_eq in Hi|]. rewrite lookup_delete_ne in Hi |- * by done.
    by apply Hlive.
  - exists (set_cache ∅ c). split; [done|]. by split.
Qed.
End CacheMap.
Arguments CACHE_MAP V : clear implicits.

(** An entry that lives for ten nanoseconds: visible, then expired and cleaned up. *)
Lemma cache_map_refines_witness :
  let c : CACHE_MAP Z := CacheMap ∅ 0 (Clock (λ n, Z.of_nat n * 5) 0) in
  ∃ c', put "k" 7 10 c = (Ok tt, c') ∧
    represents c' {[S!"k" := CacheItem 7 10]} ∧ (get_item "k" 0 c').1 = Ok 0.
Proof.
  intros c. assert (represents c ∅) as Hc.
  { split; [|split; [apply map_empty_subseteq|intros k i Hi; discriminate]]. intros i j Hij. simpl. lia. }
  destruct (cache_map_refines c ∅ Hc) as (Hput & _). destruct (Hput (S!"k") 7 10) as (c' & E & Hc').
  exists c'. split; [exact E|]. split; [exact Hc'|].
  assert (c' = (put "k" 7 10 c).2) as -> by (rewrite E; reflexivity). vm_compute. reflexivity.
Defined.
