(* ===== verification/SlidingCache.v ===== *)
(** The cache whose entries live on while they are used:
    [SLIDING_EXPIRATION_CACHE] (src/driver/sliding_expiration_cache.h,
    src/driver/sliding_expiration_cache.cc) and the turn of its clean-up thread
    (src/driver/sliding_expiration_cache_with_clean_up_thread.cc).  Items that
    leave the cache are handed to a disposal function; the model lists them. *)

From S2P Require Import Prelude CppString CacheMap.

Local Open Scope Z_scope.

Section SlidingCache.
Context {V : Type}.

(** [src/driver/sliding_expiration_cache.h:39-143] SLIDING_EXPIRATION_CACHE

    [should_dispose_func] is [None] for the null pointer, [has_disposal_func]
    tells whether [item_disposal_func] is set, [disposed] are the items given
    to it; [should_stop] is the flag of the clean-up thread. *)
Record SLIDING_CACHE := SlidingCache {
  cache : gmap str (CACHE_ITEM V);
  clean_up_interval_nanos : Z;
  clean_up_time_nanos : Z;
  should_dispose_func : option (V → bool);
  has_disposal_func : bool;
  disposed : list V;
  time : clock;
  is_initialized : bool;
  should_stop : bool
}.

Definition set_cache (m : gmap str (CACHE_ITEM V)) (c : SLIDING_CACHE) : SLIDING_CACHE :=
  SlidingCache m (clean_up_interval_nanos c) (clean_up_time_nanos c) (should_dispose_func c) (has_disposal_func c) (disposed c)
    (time c) (is_initialized c) (should_stop c).
Definition set_clean_up_time (t : Z) (c : SLIDING_CACHE) : SLIDING_CACHE :=
  SlidingCache (cache c) (clean_up_interval_nanos c) t (should_dispose_func c) (has_disposal_func c) (disposed c)
    (time c) (is_initialized c) (should_stop c).
Definition set_disposed (l : list V) (c : SLIDING_CACHE) : SLIDING_CACHE :=
  SlidingCache (cache c) (clean_up_interval_nanos c) (clean_up_time_nanos c) (should_dispose_func c) (has_disposal_func c) l
    (time c) (is_initialized c) (should_stop c).
Definition set_time (t : clock) (c : SLIDING_CACHE) : SLIDING_CACHE :=
  SlidingCache (cache c) (clean_up_interval_nanos c) (clean_up_time_nanos c) (should_dispose_func c) (has_disposal_func c) (disposed c)
    t (is_initialized c) (should_stop c).
Definition set_thread (initialized stop : bool) (c : SLIDING_CACHE) : SLIDING_CACHE :=
  SlidingCache (cache c) (clean_up_interval_nanos c) (clean_up_time_nanos c) (should_dispose_func c) (has_disposal_func c) (disposed c)
    (time c) initialized stop.

(** [steady_clock::now()]. *)
Definition read_clock : M SLIDING_CACHE Z := λ c, (Ok (now (time c)), set_time (tick (time c)) c).

(** [src/driver/sliding_expiration_cache.h:69-76] CACHE_ITEM::should_clean_up *)
Definition should_clean_up (i : CACHE_ITEM V) : M SLIDING_CACHE bool :=
  t ← read_clock;
  c ← get;
  mret ((expiration_time i <? t) && match should_dispose_func c with Some f => f (item i) | None => true end).

(** The disposal of an item. *)
Definition dispose (v : V) : M SLIDING_CACHE unit :=
  modify (λ c, if has_disposal_func c then set_disposed (disposed c ++ [v]) c else c).

(** [src/driver/sliding_expiration_cache.h:131-141] SLIDING_EXPIRATION_CACHE::remove_if_expired *)
Definition remove_if_expired (key : str) : M SLIDING_CACHE unit :=
  c ← get;
  match cache c !! key with
  | None => mret tt
  | Some i =>
    e ← should_clean_up i;
    if e : bool then dispose (item i);; modify (λ c, set_cache (delete key (cache c)) c) else mret tt
  end.

(** [src/driver/sliding_expiration_cache.cc:38-47] SLIDING_EXPIRATION_CACHE::remove_and_dispose *)
Definition remove_and_dispose (key : str) : M SLIDING_CACHE unit :=
  c ← get;
  match cache c !! key with
  | None => mret tt
  | Some i => dispose (item i);; modify (λ c, set_cache (delete key (cache c)) c)
  end.

(** The keys of the cache. *)
Definition keys : M SLIDING_CACHE (list str) := gets (λ c, (map_to_list (cache c)).*1).

(** [src/driver/sliding_expiration_cache.cc:49-66] SLIDING_EXPIRATION_CACHE::clean_up *)
Definition clean_up : M SLIDING_CACHE unit :=
  t ← read_clock;
  c ← get;
  if t <? clean_up_time_nanos c then mret tt else
  t' ← read_clock;
  modify (λ c, set_clean_up_time (t' + clean_up_interval_nanos c) c);;
  l ← keys;
  mapM_ remove_if_expired l.

(** [src/driver/sliding_expiration_cache.cc:73-75] SLIDING_EXPIRATION_CACHE::compute_if_absent

    With the item at hand.  [emplace] does nothing when the key is there; the
    expiration is then extended in the new item, which the map does not hold. *)
Definition emplace_item (key : str) (v : V) (item_expiration_nanos : Z) : M SLIDING_CACHE V :=
  t ← read_clock;
  c ← get;
  match cache c !! key with
  | Some _ => t' ← read_clock; mret v
  | None =>
    modify (λ c, set_cache (<[key := CacheItem v (t + item_expiration_nanos)]> (cache c)) c);;
    t' ← read_clock;
    modify (λ c, set_cache (<[key := CacheItem v (t' + item_expiration_nanos)]> (cache c)) c);;
    mret v
  end.

(** [src/driver/sliding_expiration_cache.cc:68-76] SLIDING_EXPIRATION_CACHE::compute_if_absent *)
Definition compute_if_absent (key : str) (mapping_function : str → V) (item_expiration_nanos : Z) : M SLIDING_CACHE V :=
  clean_up;;
  emplace_item key (mapping_function key) item_expiration_nanos.

(** [src/driver/sliding_expiration_cache.cc:78-85] SLIDING_EXPIRATION_CACHE::put *)
Definition put (key : str) (value : V) (item_expiration_nanos : Z) : M SLIDING_CACHE V :=
  clean_up;;
  t ← read_clock;
  modify (λ c, set_cache (<[key := CacheItem value (t + item_expiration_nanos)]> (cache c)) c);;
  t' ← read_clock;
  modify (λ c, set_cache (<[key := CacheItem value (t' + item_expiration_nanos)]> (cache c)) c);;
  mret value.

(** [src/driver/sliding_expiration_cache.cc:87-97] SLIDING_EXPIRATION_CACHE::get *)
Definition get_item (key : str) (item_expiration_nanos : Z) (default_value : V) : M SLIDING_CACHE V :=
  clean_up;;
  c ← get;
  match cache c !! key with
  | None => mret default_value
  | Some i =>
    t ← read_clock;
    modify (λ c, set_cache (<[key := CacheItem (item i) (t + item_expiration_nanos)]> (cache c)) c);;
    mret (item i)
  end.

(** [src/driver/sliding_expiration_cache.cc:99-103] SLIDING_EXPIRATION_CACHE::remove *)
Definition remove (key : str) : M SLIDING_CACHE unit := remove_and_dispose key;; clean_up.

(** [src/driver/sliding_expiration_cache.cc:105-116] SLIDING_EXPIRATION_CACHE::clear *)
Definition clear : M SLIDING_CACHE unit :=
  l ← keys; mapM_ remove_and_dispose l;; modify (set_cache ∅).

(** [src/driver/sliding_expiration_cache.cc:118-131] SLIDING_EXPIRATION_CACHE::get_entries, size *)
Definition get_entries : M SLIDING_CACHE (gmap str V) := gets (λ c, item <$> cache c).
Definition size : M SLIDING_CACHE nat := gets (λ c, base.size (cache c)).

(** [src/driver/sliding_expiration_cache.cc:133-137] SLIDING_EXPIRATION_CACHE::set_clean_up_interval_nanos *)
Definition set_clean_up_interval_nanos (n : Z) : M SLIDING_CACHE unit :=
  t ← read_clock;
  modify (λ c, SlidingCache (cache c) n (t + n) (should_dispose_func c) (has_disposal_func c) (disposed c)
                 (time c) (is_initialized c) (should_stop c)).

(** [src/driver/sliding_expiration_cache_with_clean_up_thread.cc:43-55] SLIDING_EXPIRATION_CACHE_WITH_CLEAN_UP_THREAD::init_clean_up_thread

    One turn of the thread, after its sleep; false when it ends. *)
Definition thread_turn : M SLIDING_CACHE bool :=
  c ← get;
  if should_stop c then mret false else
  t ← read_clock;
  modify (set_clean_up_time (t + clean_up_interval_nanos c));;
  l ← keys;
  mapM_ remove_if_expired l;;
  mret true.

(** [src/driver/sliding_expiration_cache_with_clean_up_thread.cc:36-60] SLIDING_EXPIRATION_CACHE_WITH_CLEAN_UP_THREAD::init_clean_up_thread

    Whether a thread is started. *)
Definition init_clean_up_thread : M SLIDING_CACHE bool :=
  c ← get;
  if negb (is_initialized c) then modify (λ c, set_thread true (should_stop c) c);; mret true else mret false.

(** [src/driver/sliding_expiration_cache_with_clean_up_thread.cc:63-78] SLIDING_EXPIRATION_CACHE_WITH_CLEAN_UP_THREAD::empty, release_resources

    Stopping the pool waits for the turn of the thread. *)
Definition empty : M SLIDING_CACHE bool := gets (λ c, bool_decide (cache c = ∅)).
Definition release_resources (wait : SLIDING_CACHE → SLIDING_CACHE) : M SLIDING_CACHE unit :=
  clear;; modify (λ c, set_thread (is_initialized c) true c);; modify wait;; modify (λ c, set_thread false (should_stop c) c).

(** ** What happens to the items *)

(** The items in the cache. *)
Definition contents (c : SLIDING_CACHE) : list V := item <$> (map_to_list (cache c)).*2.

Definition disposable (c : SLIDING_CACHE) (v : V) : Prop :=
  match should_dispose_func c with Some f => f v = true | None => True end.

(** Time goes on and items are disposed of: each one that left the cache was
    expired and may be disposed of, and every item is in the cache or was
    given to the disposal function. *)
Definition swept (c c' : SLIDING_CACHE) : Prop :=
  should_dispose_func c' = should_dispose_func c ∧ has_disposal_func c' = has_disposal_func c ∧
  clean_up_interval_nanos c' = clean_up_interval_nanos c ∧ should_stop c' = should_stop c ∧
  readings (time c') = readings (time c) ∧ (taken (time c) ≤ taken (time c'))%nat ∧
  cache c' ⊆ cache c ∧
  (∀ k i, cache c !! k = Some i → cache c' !! k = Some i ∨ expiration_time i < now (time c') ∧ disposable c (item i)) ∧
  (has_disposal_func c = true → contents c' ++ disposed c' ≡ₚ contents c ++ disposed c).

Lemma swept_steady c c' : steady (time c) → swept c c' → steady (time c').
Proof. intros Hs (_ & _ & _ & _ & Hr & _) i j. unfold steady in Hs. rewrite Hr. apply Hs. Qed.

Lemma swept_now c c' : steady (time c) → swept c c' → now (time c) ≤ now (time c').
Proof. intros Hs (_ & _ & _ & _ & Hr & Ht & _). unfold now. rewrite Hr. by apply Hs. Qed.

Lemma swept_trans c1 c2 c3 : steady (time c1) → swept c1 c2 → swept c2 c3 → swept c1 c3.
Proof.
  intros Hs H12 H23. pose proof (swept_now _ _ (swept_steady _ _ Hs H12) H23) as Hle.
  destruct H12 as (D1 & H1 & I1 & P1 & R1 & T1 & S1 & K1 & C1), H23 as (D2 & H2 & I2 & P2 & R2 & T2 & S2 & K2 & C2).
  split; [congruence|]. split; [congruence|]. split; [congruence|]. split; [congruence|]. split; [congruence|].
  split; [lia|]. split; [by etrans|]. split.
  - intros k i Hi. destruct (K1 _ _ Hi) as [Hi1|[He Hd]]; [|right; split; [lia|done]].
    destruct (K2 _ _ Hi1) as [Hi2|[He Hd]]; [by left|right; split; [done|]]. unfold disposable in *. by rewrite D1 in Hd.
  - intros Hh. rewrite C2, C1; [done|done|congruence].
Qed.

Lemma swept_same c t u : swept c (set_clean_up_time u (set_time t c)) ↔ readings t = readings (time c) ∧ (taken (time c) ≤ taken t)%nat.
Proof.
  split; [by intros (_ & _ & _ & _ & ? & ? & _)|]. intros [Hr Ht]. do 4 (split; [done|]). split; [done|]. split; [done|].
  split; [done|]. split; [by left|done].
Qed.

Lemma swept_tick c : swept c (set_time (tick (time c)) c).
Proof.
  do 5 (split; [done|]). split; [simpl; lia|]. split; [done|]. split; [by left|done].
Qed.

Lemma sliding_read_clock_bind {A} (k : Z → M SLIDING_CACHE A) c :
  (read_clock ≫= k) c = k (now (time c)) (set_time (tick (time c)) c).
Proof. done. Qed.

Lemma contents_delete c k i :
  cache c !! k = Some i → contents c ≡ₚ item i :: contents (set_cache (delete k (cache c)) c).
Proof. intros Hi. unfold contents. simpl. by rewrite <- (map_to_list_delete (cache c) k i Hi). Qed.

(** The disposal of an entry. *)
Definition disposed_of (k : str) (i : CACHE_ITEM V) (c : SLIDING_CACHE) : SLIDING_CACHE :=
  let c' := if has_disposal_func c then set_disposed (disposed c ++ [item i]) c else c in
  set_cache (delete k (cache c)) c'.

Lemma dispose_run k i c :
  (dispose (item i);; modify (λ c, set_cache (delete k (cache c)) c)) c = (Ok tt, disposed_of k i c).
Proof. unfold dispose, disposed_of. rewrite modify_bind. unfold modify. by destruct (has_disposal_func c). Qed.

Lemma disposed_of_contents k i c :
  cache c !! k = Some i → has_disposal_func c = true →
  contents (disposed_of k i c) ++ disposed (disposed_of k i c) ≡ₚ contents c ++ disposed c.
Proof.
  intros Hi Hh. unfold disposed_of. rewrite Hh. simpl. rewrite (contents_delete c k i Hi).
  replace (contents (set_cache (delete k (cache c)) (set_disposed (disposed c ++ [item i]) c)))
    with (contents (set_cache (delete k (cache c)) c)) by done.
  rewrite app_assoc, (Permutation_app_comm _ [item i]). done.
Qed.

Lemma disposed_of_swept k i c :
  cache c !! k = Some i → expiration_time i < now (time c) → disposable c (item i) → swept c (disposed_of k i c).
Proof.
  intros Hi He Hd.
  assert (∀ k' i', cache c !! k' = Some i' → cache (disposed_of k i c) !! k' = Some i' ∨ expiration_time i' < now (time c) ∧ disposable c (item i')) as Hk.
  { intros k' i' Hi'. simpl. destruct (decide (k' = k)) as [->|Hne]; [right; by simplify_map_eq|left].
    unfold disposed_of. destruct (has_disposal_func c); simpl; by rewrite lookup_delete_ne. }
  pose proof (disposed_of_contents k i c Hi) as Hc. assert (delete k (cache c) ⊆ cache c) as Hsub by apply delete_subseteq.
  unfold swept, disposed_of in *. destruct (has_disposal_func c) eqn:Hh; split_and!; try done; try (by rewrite Hh).
Qed.

Lemma remove_if_expired_run k c :
  steady (time c) → ∃ c', remove_if_expired k c = (Ok tt, c') ∧ swept c c' ∧
    ∀ i, cache c' !! k = Some i → now (time c) ≤ expiration_time i ∨ ¬ disposable c (item i).
Proof.
  intros Hs. unfold remove_if_expired. rewrite get_bind. destruct (cache c !! k) as [i|] eqn:Hi.
  - unfold should_clean_up. rewrite bind_assoc, sliding_read_clock_bind, bind_assoc, get_bind, ret_bind.
    set (c1 := set_time (tick (time c)) c). assert (swept c c1) as H1 by apply swept_tick.
    match goal with |- context [(if ?b then _ else _) _] => destruct b eqn:Hb end.
    + apply andb_true_iff in Hb as [He%Z.ltb_lt Hd]. rewrite dispose_run. exists (disposed_of k i c1). split; [done|].
      split; [|intros j Hj; simpl in Hj; by rewrite lookup_delete_eq in Hj].
      eapply swept_trans; [done|done|]. apply disposed_of_swept; [done| |].
      * assert (now (time c) ≤ now (time c1)) by (apply Hs; simpl; lia). lia.
      * unfold disposable. simpl in Hd |- *. by destruct (should_dispose_func c).
    + exists c1. split; [done|]. split; [done|]. intros j Hj. simpl in Hj. assert (j = i) as -> by congruence.
      apply andb_false_iff in Hb as [He%Z.ltb_ge|Hd]; [by left|right]. unfold disposable. simpl in Hd. destruct (should_dispose_func c); [congruence|done].
  - exists c. split; [done|]. split; [|intros j Hj; congruence]. do 5 (split; [done|]). split; [done|]. split; [done|]. split; [by left|done].
Qed.

Lemma swept_refl c : swept c c.
Proof. do 5 (split; [done|]). split; [done|]. split; [done|]. split; [by left|done]. Qed.

(** Going over a list of keys: what is left was not expired at the beginning
    or may not be disposed of. *)
Lemma sweep_run l c :
  steady (time c) → ∃ c', mapM_ remove_if_expired l c = (Ok tt, c') ∧ swept c c' ∧
    ∀ k i, k ∈ l → cache c' !! k = Some i → now (time c) ≤ expiration_time i ∨ ¬ disposable c (item i).
Proof.
  revert c. induction l as [|k l IH]; intros c Hs.
  - exists c. split; [done|]. split; [apply swept_refl|]. by intros k i Hk%elem_of_nil.
  - destruct (remove_if_expired_run k c Hs) as (c1 & E1 & H1 & K1).
    destruct (IH c1 (swept_steady _ _ Hs H1)) as (c2 & E2 & H2 & K2).
    exists c2. cbn [mapM_]. rewrite (bind_Ok _ _ _ _ _ E1). split; [done|]. split; [by eapply swept_trans|].
    pose proof (swept_now _ _ Hs H1). destruct H1 as (D1 & _), H2 as (_ & _ & _ & _ & _ & _ & S2 & _).
    intros k' i [->|Hk]%elem_of_cons Hi; [apply K1; by eapply lookup_weaken|].
    destruct (K2 _ _ Hk Hi) as [He|Hd]; [left; lia|right]. unfold disposable in *. by rewrite D1 in Hd.
Qed.

Lemma keys_bind {A} (k : list str → M SLIDING_CACHE A) c : (keys ≫= k) c = k (map_to_list (cache c)).*1 c.
Proof. done. Qed.

Lemma elem_of_keys (m : gmap str (CACHE_ITEM V)) k i : m !! k = Some i → k ∈ (map_to_list m).*1.
Proof. intros Hi. apply list_elem_of_fmap. exists (k, i). split; [done|]. by apply elem_of_map_to_list. Qed.

Lemma set_clean_up_time_swept t c c' : swept (set_clean_up_time t c) c' → swept c c'.
Proof. done. Qed.

Lemma sliding_clean_up_run c :
  steady (time c) → ∃ c', clean_up c = (Ok tt, c') ∧ swept c c' ∧
    if now (time c) <? clean_up_time_nanos c then cache c' = cache c
    else ∀ k i, cache c' !! k = Some i → now (time c) ≤ expiration_time i ∨ ¬ disposable c (item i).
Proof.
  intros Hs. unfold clean_up. rewrite sliding_read_clock_bind, get_bind. set (c1 := set_time (tick (time c)) c).
  assert (swept c c1) as H1 by apply swept_tick. change (clean_up_time_nanos c1) with (clean_up_time_nanos c).
  destruct (now (time c) <? clean_up_time_nanos c); [by exists c1|].
  rewrite sliding_read_clock_bind, modify_bind, keys_bind. set (c2 := set_time (tick (time c1)) c1).
  match goal with |- context [mapM_ _ _ ?s] => set (c3 := s) end.
  assert (swept c c2) as H2 by (eapply swept_trans; [done|exact H1|apply swept_tick]).
  destruct (sweep_run (map_to_list (cache c3)).*1 c3) as (c' & E & H3 & K); [exact (swept_steady _ _ Hs H2)|].
  apply set_clean_up_time_swept in H3.
  exists c'. split; [done|]. split; [by eapply swept_trans|]. intros k i Hi.
  pose proof (swept_now _ _ Hs H2). destruct (K k i) as [He|Hd]; [|exact Hi| |by right].
  - destruct H3 as (_ & _ & _ & _ & _ & _ & Hsub & _). eapply elem_of_keys, lookup_weaken; [exact Hi|exact Hsub].
  - left. simpl in He. simpl in H. lia.
Qed.

(** Cleaning up, by the caller or by the thread, takes items out of the
    cache only when they are expired and may be disposed of, loses none of them
    without giving it to the disposal function, and, when it is due, leaves
    no expired disposable item behind. *)
Theorem sliding_clean_up_spec c :
  steady (time c) →
  (∃ c', clean_up c = (Ok tt, c') ∧ swept c c' ∧
     if now (time c) <? clean_up_time_nanos c then cache c' = cache c
     else ∀ k i, cache c' !! k = Some i → now (time c) ≤ expiration_time i ∨ ¬ disposable c (item i)) ∧
  (if should_stop c then thread_turn c = (Ok false, c)
   else ∃ c', thread_turn c = (Ok true, c') ∧ swept c c' ∧
     ∀ k i, cache c' !! k = Some i → now (time c) ≤ expiration_time i ∨ ¬ disposable c (item i)).
Proof.
  intros Hs. split; [by apply sliding_clean_up_run|]. unfold thread_turn. rewrite get_bind.
  destruct (should_stop c); [done|]. rewrite sliding_read_clock_bind, modify_bind, keys_bind.
  set (c1 := set_time (tick (time c)) c). assert (swept c c1) as H1 by apply swept_tick.
  match goal with |- context [(mapM_ _ _ ≫= _) ?s] => set (c2 := s) end.
  destruct (sweep_run (map_to_list (cache c2)).*1 c2) as (c' & E & H2 & K); [exact (swept_steady _ _ Hs H1)|].
  apply set_clean_up_time_swept in H2.
  exists c'. rewrite (bind_Ok _ _ _ _ _ E). split; [done|]. split; [by eapply swept_trans|]. intros k i Hi.
  pose proof (swept_now _ _ Hs H1). destruct (K k i) as [He|Hd]; [|exact Hi| |by right].
  - destruct H2 as (_ & _ & _ & _ & _ & _ & Hsub & _). eapply elem_of_keys, lookup_weaken; [exact Hi|exact Hsub].
  - left. simpl in He. simpl in H. lia.
Qed.

(** An item that is looked up before it expires stays, with a new
    expiration after the time of the look-up.  [compute_if_absent] always runs
    its mapping function and returns the new item: an item in the cache is
    neither returned nor does it live longer, and the new one is not in the
    cache. *)
Theorem sliding_lookup_spec c key i n :
  steady (time c) → cache c !! key = Some i →
  ∃ c1, clean_up c = (Ok tt, c1) ∧ swept c c1 ∧
  (now (time c1) ≤ expiration_time i →
    (∀ d, ∃ c2 e, get_item key n d c = (Ok (item i), c2) ∧ now (time c) + n ≤ e ∧
       cache c2 = <[key := CacheItem (item i) e]> (cache c1)) ∧
    (∀ f, ∃ c2, compute_if_absent key f n c = (Ok (f key), c2) ∧ cache c2 = cache c1 ∧ cache c2 !! key = Some i)).
Proof.
  intros Hs Hi. destruct (sliding_clean_up_run c Hs) as (c1 & E & H1 & _). exists c1. split; [done|]. split; [done|].
  intros Ht. pose proof (swept_now _ _ Hs H1). destruct H1 as (_ & _ & _ & _ & _ & _ & _ & K & _).
  destruct (K _ _ Hi) as [Hi1|[He _]]; [|lia]. split.
  - intros d. unfold get_item. rewrite (bind_Ok _ _ _ _ _ E), get_bind, Hi1, sliding_read_clock_bind, modify_bind.
    eexists _, (now (time c1) + n). split; [done|]. split; [lia|done].
  - intros f. unfold compute_if_absent, emplace_item. rewrite (bind_Ok _ _ _ _ _ E), sliding_read_clock_bind, get_bind.
    change (cache (set_time (tick (time c1)) c1)) with (cache c1). rewrite Hi1, sliding_read_clock_bind. by eexists.
Qed.
End SlidingCache.
Arguments SLIDING_CACHE V : clear implicits.

(** An entry of a cache that is cleaned up every minute. *)
Definition ex_sliding : SLIDING_CACHE Z :=
  SlidingCache {[S!"a" := CacheItem 1 100; S!"b" := CacheItem 2 3]} 60 0 None true []
    (Clock (λ n, Z.of_nat n * 5) 1) true false.

Lemma ex_sliding_steady : steady (time ex_sliding).
Proof. intros i j Hij. simpl. lia. Qed.

Lemma sliding_clean_up_spec_witness :
  ∃ c', thread_turn ex_sliding = (Ok true, c') ∧ swept ex_sliding c' ∧ cache c' !! S!"b" = None ∧ disposed c' = [2].
Proof.
  destruct (sliding_clean_up_spec ex_sliding ex_sliding_steady) as [_ (c' & E & Hc & _)].
  exists c'. split; [exact E|]. split; [exact Hc|].
  assert (c' = (thread_turn ex_sliding).2) as -> by (rewrite E; reflexivity). split; vm_compute; reflexivity.
Defined.

Lemma sliding_lookup_spec_witness :
  ∃ c2, compute_if_absent "a" (λ _, 7) 50 ex_sliding = (Ok 7, c2) ∧ cache c2 !! S!"a" = Some (CacheItem 1 100).
Proof.
  destruct (sliding_lookup_spec ex_sliding "a" (CacheItem 1 100) 50 ex_sliding_steady) as (c1 & E & _ & H); [vm_compute; reflexivity|].
  assert (c1 = (clean_up ex_sliding).2) as Hc by (rewrite E; reflexivity).
  destruct H as [_ H]; [rewrite Hc; vm_compute; discriminate|]. destruct (H (λ _, 7)) as (c2 & E2 & _ & Hk).
  exists c2. split; [exact E2|exact Hk].
Defined.
