(* ===== verification/CustomEndpoint.v ===== *)
(** Custom cluster endpoints: what the RDS API says about one
    (src/driver/custom_endpoint_info.cc), the monitor that polls it and sets
    the allowed and blocked hosts of a topology service
    (src/driver/custom_endpoint_monitor.cc), and the proxy that starts monitors
    and waits for their first answer (src/driver/custom_endpoint_proxy.cc).

    The AWS SDK and the thread pool are not part of the repository: they are
    the classes [DBClusterEndpoint] and [ThreadPool]. *)

From S2P Require Import Prelude CppString HostInfo RdsUtils Metrics World ClusterTopology TopologyService CacheMap SlidingCache.

Local Open Scope Z_scope.

(** ** The endpoint *)

(** [Aws::RDS::Model::DBClusterEndpoint], as far as the driver reads it. *)
Class DBClusterEndpoint (E : Type) := {
  StaticMembersHasBeenSet : E → bool;
  GetStaticMembers : E → list str;
  GetExcludedMembers : E → list str;
  GetDBClusterEndpointIdentifier : E → str;
  GetDBClusterIdentifier : E → str;
  GetEndpoint : E → str;
  GetCustomEndpointType : E → str
}.

(** [src/driver/custom_endpoint_info.h:43-47] CUSTOM_ENDPOINT_ROLE_TYPE *)
Inductive CUSTOM_ENDPOINT_ROLE_TYPE := ANY | WRITER | READER.

(** [src/driver/custom_endpoint_info.h:59-70] MEMBERS_LIST_TYPE *)
Inductive MEMBERS_LIST_TYPE := STATIC_LIST | EXCLUSION_LIST.

#[export] Instance role_type_eq_dec : EqDecision CUSTOM_ENDPOINT_ROLE_TYPE.
Proof. solve_decision. Defined.
#[export] Instance members_list_type_eq_dec : EqDecision MEMBERS_LIST_TYPE.
Proof. solve_decision. Defined.

(** [src/driver/custom_endpoint_info.h:75-132] CUSTOM_ENDPOINT_INFO *)
Record CUSTOM_ENDPOINT_INFO := CustomEndpointInfo {
  ci_endpoint_identifier : str;
  ci_cluster_identifier : str;
  ci_url : str;
  ci_role_type : CUSTOM_ENDPOINT_ROLE_TYPE;
  ci_members : gset str;
  ci_member_list_type : MEMBERS_LIST_TYPE
}.

(** [src/driver/custom_endpoint_info.cc:77-84] CUSTOM_ENDPOINT_INFO::get_role_type *)
Definition get_role_type (role_type : str) : res CUSTOM_ENDPOINT_ROLE_TYPE :=
  if bool_decide (role_type = S!"ANY") then Ok ANY else
  if bool_decide (role_type = S!"WRITER") then Ok WRITER else
  if bool_decide (role_type = S!"READER") then Ok READER else
  Throw (invalid_argument "Invalid role type for custom endpoint, this should not have happened.").

(** [src/driver/custom_endpoint_info.cc:32-52] CUSTOM_ENDPOINT_INFO::from_db_cluster_endpoint *)
Definition from_db_cluster_endpoint {E} `{DBClusterEndpoint E} (response_endpoint_info : E) : res CUSTOM_ENDPOINT_INFO :=
  let '(members, members_list_type) :=
    if StaticMembersHasBeenSet response_endpoint_info then (GetStaticMembers response_endpoint_info, STATIC_LIST)
    else (GetExcludedMembers response_endpoint_info, EXCLUSION_LIST) in
  role_type ← get_role_type (GetCustomEndpointType response_endpoint_info);
  mret (CustomEndpointInfo (GetDBClusterEndpointIdentifier response_endpoint_info) (GetDBClusterIdentifier response_endpoint_info)
          (GetEndpoint response_endpoint_info) role_type (list_to_set members) members_list_type).

(** [src/driver/custom_endpoint_info.cc:54-68] CUSTOM_ENDPOINT_INFO::get_excluded_members, get_static_members *)
Definition get_excluded_members (i : CUSTOM_ENDPOINT_INFO) : gset str :=
  if bool_decide (ci_member_list_type i = EXCLUSION_LIST) then ci_members i else ∅.
Definition get_static_members (i : CUSTOM_ENDPOINT_INFO) : gset str :=
  if bool_decide (ci_member_list_type i = STATIC_LIST) then ci_members i else ∅.

(** [src/driver/custom_endpoint_info.cc:70-75] operator== *)
Definition info_eqb (current other : CUSTOM_ENDPOINT_INFO) : bool :=
  bool_decide (ci_endpoint_identifier current = ci_endpoint_identifier other) &&
  bool_decide (ci_cluster_identifier current = ci_cluster_identifier other) &&
  bool_decide (ci_url current = ci_url other) &&
  bool_decide (ci_role_type current = ci_role_type other) &&
  bool_decide (ci_member_list_type current = ci_member_list_type other).

(** ** The monitor *)

(** [ctpl::thread_pool], with the monitors whose loop was pushed. *)
Class ThreadPool (P : Type) := {
  pool_size : P → nat;
  pool_resize : nat → P → P;
  pool_push : loc → P → P;
  pool_stop : P → P
}.

(** [src/driver/custom_endpoint_monitor.h:41-81] CUSTOM_ENDPOINT_MONITOR *)
Record CUSTOM_ENDPOINT_MONITOR := EndpointMonitor {
  em_host : str;
  em_endpoint_identifier : str;
  em_region : str;
  em_refresh_rate_nanos : Z;
  em_should_stop : bool;
  em_topology_service : loc
}.

Definition em_stopped (m : CUSTOM_ENDPOINT_MONITOR) : CUSTOM_ENDPOINT_MONITOR :=
  EndpointMonitor (em_host m) (em_endpoint_identifier m) (em_region m) (em_refresh_rate_nanos m) true (em_topology_service m).

(** [shared_ptr<CUSTOM_ENDPOINT_INFO>]: null, or the address of an object that
    never changes, with the object. *)
Abbreviation info_ptr := (option (loc * CUSTOM_ENDPOINT_INFO)).

(** [CUSTOM_ENDPOINT_INFO_EXPIRATION_NANOS]: 5 minutes. *)
Definition CUSTOM_ENDPOINT_INFO_EXPIRATION_NANOS : Z := 300000000000.

(** [CACHE_CLEANUP_RATE_NANO]: a minute. *)
Definition CACHE_CLEANUP_RATE_NANO : Z := 60000000000.

Section CustomEndpoint.
Context {E P : Type} `{DBClusterEndpoint E, ThreadPool P}.

(** The store: the driver's objects, the static [custom_endpoint_cache], the
    next address of an info, the monitors, the pool of the environment they
    share, and the static [monitors]. *)
Record cstate := CState {
  c_world : world;
  custom_endpoint_cache : CACHE_MAP info_ptr;
  next_info : loc;
  c_monitors : gmap loc CUSTOM_ENDPOINT_MONITOR;
  c_pool : P;
  monitors : SLIDING_CACHE loc
}.

Definition c_set_monitors (l : gmap loc CUSTOM_ENDPOINT_MONITOR) (s : cstate) : cstate :=
  CState (c_world s) (custom_endpoint_cache s) (next_info s) l (c_pool s) (monitors s).
Definition c_set_pool (p : P) (s : cstate) : cstate :=
  CState (c_world s) (custom_endpoint_cache s) (next_info s) (c_monitors s) p (monitors s).

Definition on_service {A} (m : M world A) : M cstate A := λ s, let '(r, w) := m (c_world s) in
  (r, CState w (custom_endpoint_cache s) (next_info s) (c_monitors s) (c_pool s) (monitors s)).
Definition on_info_cache {A} (m : M (CACHE_MAP info_ptr) A) : M cstate A := λ s, let '(r, c) := m (custom_endpoint_cache s) in
  (r, CState (c_world s) c (next_info s) (c_monitors s) (c_pool s) (monitors s)).
Definition on_monitors {A} (m : M (SLIDING_CACHE loc) A) : M cstate A := λ s, let '(r, c) := m (monitors s) in
  (r, CState (c_world s) (custom_endpoint_cache s) (next_info s) (c_monitors s) (c_pool s) c).

(** A new [shared_ptr]. *)
Definition make_info (i : CUSTOM_ENDPOINT_INFO) : M cstate (loc * CUSTOM_ENDPOINT_INFO) := λ s,
  (Ok (next_info s, i), CState (c_world s) (custom_endpoint_cache s) (Pos.succ (next_info s)) (c_monitors s) (c_pool s) (monitors s)).

Definition get_em (m : loc) : M cstate CUSTOM_ENDPOINT_MONITOR := s ← get; deref (c_monitors s !! m).
Definition stop_em (m : loc) : M cstate unit := modify (λ s, c_set_monitors (alter em_stopped m (c_monitors s)) s).

(** [src/driver/custom_endpoint_monitor.cc:90-93] CUSTOM_ENDPOINT_MONITOR::has_custom_endpoint_info *)
Definition has_custom_endpoint_info (this : loc) : M cstate bool :=
  m ← get_em this;
  i ← on_info_cache (CacheMap.get_item (em_host m) None);
  mret (bool_decide (i ≠ None)).

(** [src/driver/custom_endpoint_monitor.cc:95-102] CUSTOM_ENDPOINT_MONITOR::run

    The thread is given to the pool of the environment, unless the pool already
    has one. *)
Definition run (this : loc) : M cstate unit :=
  s ← get;
  if bool_decide (pool_size (c_pool s) = 1%nat) then mret tt
  else modify (λ s, c_set_pool (pool_push this (pool_resize 1 (c_pool s))) s).

(** [src/driver/custom_endpoint_monitor.cc:152-159] CUSTOM_ENDPOINT_MONITOR::run

    The hosts an endpoint stands for. *)
Definition endpoint_hosts (i : CUSTOM_ENDPOINT_INFO) : ALLOWED_AND_BLOCKED_HOSTS :=
  if bool_decide (ci_member_list_type i = STATIC_LIST) then AllowedAndBlocked (get_static_members i) ∅
  else AllowedAndBlocked ∅ (get_excluded_members i).

(** The time on the clock of the info cache. *)
Definition c_now : M cstate Z := on_info_cache CacheMap.read_clock.

(** The comparison of two [shared_ptr]s is that of the addresses. *)
Definition same_ptr (cached : info_ptr) (new : loc * CUSTOM_ENDPOINT_INFO) : bool :=
  match cached with Some p => bool_decide (p.1 = new.1) | None => false end.

(** The rest of the refresh interval. *)
Definition remaining (this : loc) (start : Z) : M cstate Z :=
  m ← get_em this; t ← c_now; mret (Z.max 0 (em_refresh_rate_nanos m - (t - start))).

(** [src/driver/custom_endpoint_monitor.cc:120-177] CUSTOM_ENDPOINT_MONITOR::run

    One turn of the loop: how long the thread sleeps before the next one,
    nothing when it has ended.  [response] is the list of endpoints of the
    API's answer, [None] when the call throws. *)
Definition turn (this : loc) (response : option (list E)) : M cstate (option Z) :=
  m ← get_em this;
  if em_should_stop m then stop_em this;; mret None else
  start ← c_now;
  match response with
  | None => stop_em this;; mret None
  | Some [e] =>
    match from_db_cluster_endpoint e with
    | Throw _ => stop_em this;; mret None
    | UB => undefined
    | Ok i =>
      endpoint_info ← make_info i;
      cache_endpoint_info ← on_info_cache (CacheMap.get_item (em_host m) None);
      if same_ptr cache_endpoint_info endpoint_info then
        r ← remaining this start; mret (Some r)
      else
        on_service (set_allowed_and_blocked_hosts (em_topology_service m) (Some (endpoint_hosts i)));;
        on_info_cache (CacheMap.put (em_host m) (Some endpoint_info) CUSTOM_ENDPOINT_INFO_EXPIRATION_NANOS);;
        r ← remaining this start; mret (Some r)
    end
  | Some _ => mret (Some (em_refresh_rate_nanos m))
  end.

(** [src/driver/custom_endpoint_monitor.cc:181-197] CUSTOM_ENDPOINT_MONITOR::get_endpoints_as_string *)
Definition get_endpoints_as_string (custom_endpoints : list E) : str :=
  match custom_endpoints with
  | [] => S!"<no endpoints>"
  | _ => let endpoints := foldl (λ s e, s ++ GetDBClusterEndpointIdentifier e ++ S!",") (S!"[") custom_endpoints in
         take (pred (length endpoints)) endpoints ++ S!"]"
  end.

(** [src/driver/custom_endpoint_monitor.cc:199-205] CUSTOM_ENDPOINT_MONITOR::stop *)
Definition stop (this : loc) : M cstate unit :=
  stop_em this;;
  modify (λ s, c_set_pool (pool_resize 0 (pool_stop (c_pool s))) s);;
  m ← get_em this;
  on_info_cache (CacheMap.remove (em_host m)).

(** [src/driver/custom_endpoint_monitor.cc:207-207] CUSTOM_ENDPOINT_MONITOR::clear_cache *)
Definition clear_cache : M cstate unit := on_info_cache CacheMap.clear.

(** ** The proxy *)

(** [src/driver/custom_endpoint_proxy.h:39-98] CUSTOM_ENDPOINT_PROXY

    With the options of its data source and the error message it reports; a
    region that is not set or empty is [None]. *)
Record CUSTOM_ENDPOINT_PROXY := EndpointProxy {
  custom_endpoint_host : str;
  custom_endpoint_id : str;
  cp_region : str;
  should_wait_for_info : bool;
  wait_on_cached_info_duration_ms : Z;
  idle_monitor_expiration_ms : Z;
  cp_topology_service : loc;
  opt_CUSTOM_ENDPOINT_REGION : option str;
  opt_CUSTOM_ENDPOINT_INFO_REFRESH_RATE_MS : Z;
  custom_error_message : option str
}.

Definition set_endpoint (host id region : str) (p : CUSTOM_ENDPOINT_PROXY) : CUSTOM_ENDPOINT_PROXY :=
  EndpointProxy host id region (should_wait_for_info p) (wait_on_cached_info_duration_ms p) (idle_monitor_expiration_ms p)
    (cp_topology_service p) (opt_CUSTOM_ENDPOINT_REGION p) (opt_CUSTOM_ENDPOINT_INFO_REFRESH_RATE_MS p) (custom_error_message p).
Definition set_error (message : str) (p : CUSTOM_ENDPOINT_PROXY) : CUSTOM_ENDPOINT_PROXY :=
  EndpointProxy (custom_endpoint_host p) (custom_endpoint_id p) (cp_region p) (should_wait_for_info p)
    (wait_on_cached_info_duration_ms p) (idle_monitor_expiration_ms p) (cp_topology_service p) (opt_CUSTOM_ENDPOINT_REGION p)
    (opt_CUSTOM_ENDPOINT_INFO_REFRESH_RATE_MS p) (Some message).

(** The state of a call. *)
Definition pstate : Type := CUSTOM_ENDPOINT_PROXY * cstate.
Definition on_endpoints {A} (m : M cstate A) : M pstate A := λ s, let '(r, c) := m s.2 in (r, (s.1, c)).
Definition set_custom_error_message (message : str) : M pstate unit := modify (λ s, (set_error message s.1, s.2)).

(** The monitors the cache has let go are stopped. *)
Definition stop_disposed : M cstate unit :=
  s ← get;
  let l := disposed (monitors s) in
  on_monitors (modify (set_disposed []));;
  mapM_ stop l.

(** [src/driver/custom_endpoint_proxy.cc:148-153] CUSTOM_ENDPOINT_PROXY::create_custom_endpoint_monitor *)
Definition create_custom_endpoint_monitor (p : CUSTOM_ENDPOINT_PROXY) (refresh_rate_nanos : Z) : M cstate loc :=
  s ← get;
  let m := fresh (dom (c_monitors s)) in
  modify (c_set_monitors (<[m := EndpointMonitor (custom_endpoint_host p) (custom_endpoint_id p) (cp_region p)
                               refresh_rate_nanos false (cp_topology_service p)]> (c_monitors s)));;
  run m;;
  mret m.

(** [src/driver/custom_endpoint_proxy.cc:155-165] CUSTOM_ENDPOINT_PROXY::create_monitor_if_absent

    [compute_if_absent], with the mapping function running on the store. *)
Definition create_monitor_if_absent (p : CUSTOM_ENDPOINT_PROXY) : M cstate loc :=
  on_monitors clean_up;;
  stop_disposed;;
  m ← create_custom_endpoint_monitor p (opt_CUSTOM_ENDPOINT_INFO_REFRESH_RATE_MS p * 1000000);
  on_monitors (emplace_item (custom_endpoint_host p) m (idle_monitor_expiration_ms p * 1000000)).

(** The loop of [wait_for_custom_endpoint_info]; [sleep] is what happens in
    the 100 ms of a turn. *)
Fixpoint wait_loop (sleep : cstate → cstate) (fuel : nat) (monitor : loc) (timeout : Z) : M cstate bool :=
  match fuel with
  | O => undefined
  | S fuel' =>
    t ← c_now;
    if t <? timeout then
      modify sleep;;
      b ← has_custom_endpoint_info monitor;
      if b : bool then mret true else wait_loop sleep fuel' monitor timeout
    else mret false
  end.

(** [src/driver/custom_endpoint_proxy.cc:116-146] CUSTOM_ENDPOINT_PROXY::wait_for_custom_endpoint_info *)
Definition wait_for_custom_endpoint_info (sleep : cstate → cstate) (fuel : nat) (monitor : loc) : M pstate unit :=
  b ← on_endpoints (has_custom_endpoint_info monitor);
  if b : bool then mret tt else
  p ← gets fst;
  t ← on_endpoints c_now;
  b ← on_endpoints (wait_loop sleep fuel monitor (t + wait_on_cached_info_duration_ms p * 1000000));
  if b : bool then mret tt else
  set_custom_error_message (take 1023 (S!"The custom endpoint plugin timed out after " ++ to_string (wait_on_cached_info_duration_ms p) ++
    S!" ms while waiting for custom endpoint info for host " ++ custom_endpoint_host p ++ S!".")).

(** The monitor of the endpoint, and the wait for what it finds. *)
Definition ensure_monitored (sleep : cstate → cstate) (fuel : nat) : M pstate unit :=
  p ← gets fst;
  monitor ← on_endpoints (create_monitor_if_absent p);
  if should_wait_for_info p then wait_for_custom_endpoint_info sleep fuel monitor else mret tt.

(** [src/driver/custom_endpoint_proxy.cc:59-90] CUSTOM_ENDPOINT_PROXY::connect

    [next] is [connect] of the next proxy. *)
Definition connect (sleep : cstate → cstate) (fuel : nat) (host : str) (next : M pstate bool) : M pstate bool :=
  if negb (is_rds_custom_cluster_dns host) then next else
  modify (λ s, (set_endpoint host (get_rds_cluster_id host) (cp_region s.1) s.1, s.2));;
  p ← gets fst;
  if bool_decide (custom_endpoint_id p = []) then
    set_custom_error_message "Unable to parse custom endpoint identifier from URL.";; mret false
  else
  modify (λ s, (set_endpoint host (custom_endpoint_id s.1)
                  (match opt_CUSTOM_ENDPOINT_REGION s.1 with Some r => r | None => get_rds_region host end) s.1, s.2));;
  p ← gets fst;
  if bool_decide (cp_region p = []) then
    set_custom_error_message "Unable to determine connection region. If you are using a non-standard RDS URL, please set the 'custom_endpoint_region' property";;
    mret false
  else
  ensure_monitored sleep fuel;;
  next.

(** [src/driver/custom_endpoint_proxy.cc:92-114] CUSTOM_ENDPOINT_PROXY::query, real_query *)
Definition query (sleep : cstate → cstate) (fuel : nat) (next : M pstate Z) : M pstate Z :=
  p ← gets fst;
  (if bool_decide (custom_endpoint_host p ≠ []) then ensure_monitored sleep fuel else mret tt);;
  next.

(** [src/driver/custom_endpoint_proxy.cc:167-171] CUSTOM_ENDPOINT_PROXY::release_resources *)
Definition release_resources (wait : SLIDING_CACHE loc → SLIDING_CACHE loc) : M cstate unit :=
  e ← on_monitors empty;
  if negb e then on_monitors (SlidingCache.release_resources wait);; stop_disposed else mret tt.

(** ** What a turn of the monitor does *)

(** The time of the store, and the store with another info cache. *)
Definition c_clock (s : cstate) : clock := CacheMap.time (custom_endpoint_cache s).
Definition with_cache (c : CACHE_MAP info_ptr) (s : cstate) : cstate :=
  CState (c_world s) c (next_info s) (c_monitors s) (c_pool s) (monitors s).
Definition ticked (c : CACHE_MAP info_ptr) : CACHE_MAP info_ptr :=
  CacheMap.CacheMap (CacheMap.cache c) (CacheMap.clean_up_time_nanos c) (tick (CacheMap.time c)).

Lemma on_info_cache_bind {A B} (m : M (CACHE_MAP info_ptr) A) (k : A → M cstate B) s a c :
  m (custom_endpoint_cache s) = (Ok a, c) →
  (on_info_cache m ≫= k) s = k a (with_cache c s).
Proof. intros Hm. unfold on_info_cache, mbind, M_bind. by rewrite Hm. Qed.

Lemma c_now_bind {B} (k : Z → M cstate B) s :
  (c_now ≫= k) s = k (now (c_clock s)) (with_cache (ticked (custom_endpoint_cache s)) s).
Proof. done. Qed.

Lemma ticked_cleaned c : cleaned c (ticked c).
Proof. apply tick_cleaned. Qed.

Lemma get_em_bind {B} this m (k : CUSTOM_ENDPOINT_MONITOR → M cstate B) s :
  c_monitors s !! this = Some m → (get_em this ≫= k) s = k m s.
Proof. intros Hm. unfold get_em. by rewrite bind_assoc, get_bind, Hm. Qed.

Lemma on_service_bind {A B} (m : M world A) (k : A → M cstate B) s a w :
  m (c_world s) = (Ok a, w) →
  (on_service m ≫= k) s = k a (CState w (custom_endpoint_cache s) (next_info s) (c_monitors s) (c_pool s) (monitors s)).
Proof. intros Hm. unfold on_service, mbind, M_bind. by rewrite Hm. Qed.

(** The pointers in the cache are older than the next one. *)
Definition infos_older (s : cstate) : Prop :=
  ∀ k i p, CacheMap.cache (custom_endpoint_cache s) !! k = Some i → item i = Some p → (p.1 < next_info s)%positive.

Definition service_with (hosts : ALLOWED_AND_BLOCKED_HOSTS) (x : TOPOLOGY_SERVICE) : TOPOLOGY_SERVICE :=
  TopologyService (refresh_rate_in_ms x) (ts_cluster_id x) (cluster_instance_host x) (ts_metrics_container x) (Some hosts).

(** The store with other hosts for a service. *)
Definition allow (service : loc) (x : TOPOLOGY_SERVICE) (hosts : ALLOWED_AND_BLOCKED_HOSTS) (w : world) : world :=
  set_heap (<[service := service_with hosts x]> (w_services w)) w.

Lemma infos_older_put s s' k p n c :
  infos_older s → next_info s' = Pos.succ p.1 → p.1 = next_info s →
  CacheMap.cache c = CacheMap.cache (custom_endpoint_cache s) →
  cleaned (with_item k (Some p) n c) (custom_endpoint_cache s') → infos_older s'.
Proof.
  intros Hold Hn Hp Hc (_ & _ & Hsub & _) k' i q Hi Hq. eapply lookup_weaken in Hi; [|exact Hsub]. cbn in Hi.
  destruct (decide (k' = k)) as [->|Hne].
  - rewrite lookup_insert_eq in Hi. injection Hi as <-. simpl in Hq. injection Hq as <-. rewrite Hn. lia.
  - rewrite lookup_insert_ne in Hi by done. rewrite Hc in Hi. pose proof (Hold _ _ _ Hi Hq). rewrite Hn, Hp. lia.
Qed.

(** Nothing in the cache is the pointer just made. *)
Lemma same_ptr_older s k v i :
  infos_older s → v = default None (item <$> CacheMap.cache (custom_endpoint_cache s) !! k) ∨ v = None → same_ptr v (next_info s, i) = false.
Proof.
  intros Hold [->| ->]; [|done]. destruct (CacheMap.cache (custom_endpoint_cache s) !! k) as [x|] eqn:Hk; [|done].
  simpl. destruct (item x) as [p|] eqn:Hp; [|done]. pose proof (Hold _ _ _ Hk Hp). simpl. apply bool_decide_eq_false_2. lia.
Qed.

Lemma turn_run this m e i x s :
  steady (c_clock s) → infos_older s →
  c_monitors s !! this = Some m → em_should_stop m = false → 0 ≤ em_refresh_rate_nanos m →
  from_db_cluster_endpoint e = Ok i → w_services (c_world s) !! em_topology_service m = Some x →
  ∃ s' r, turn this (Some [e]) s = (Ok (Some r), s') ∧ 0 ≤ r ≤ em_refresh_rate_nanos m ∧
    c_world s' = allow (em_topology_service m) x (endpoint_hosts i) (c_world s) ∧
    infos_older s' ∧ steady (c_clock s') ∧ c_monitors s' = c_monitors s ∧
    ∃ y p, item y = Some (p, i) ∧ now (c_clock s) + CUSTOM_ENDPOINT_INFO_EXPIRATION_NANOS ≤ expiration_time y ∧
      (now (c_clock s') ≤ expiration_time y → CacheMap.cache (custom_endpoint_cache s') !! em_host m = Some y).
Proof.
  intros Hs Hold Hm Hstop Hr Hi Hx. unfold turn. rewrite (get_em_bind this m), Hstop, c_now_bind, Hi by done.
  set (c0 := custom_endpoint_cache s). set (s1 := with_cache (ticked c0) s).
  rewrite (bind_Ok (make_info i) _ s1 (next_info s, i)
    (CState (c_world s) (ticked c0) (Pos.succ (next_info s)) (c_monitors s) (c_pool s) (monitors s))) by done.
  destruct (CacheMap.get_item_run (em_host m) None (ticked c0)) as (c2 & E2 & Hc2 & Hcc2).
  match goal with |- context [(on_info_cache _ ≫= _) ?s] => set (s2 := s) end.
  rewrite (on_info_cache_bind _ _ s2 _ _ E2).
  assert (steady (CacheMap.time (ticked c0))) as Hs1 by exact (cleaned_steady _ _ Hs (ticked_cleaned c0)).
  assert (steady (CacheMap.time c2)) as Hs2 by exact (cleaned_steady _ _ Hs1 Hc2).
  rewrite (same_ptr_older s (em_host m)); [|done|change (CacheMap.cache (ticked c0)) with (CacheMap.cache (custom_endpoint_cache s)); destruct (CacheMap.cache (custom_endpoint_cache s) !! em_host m); [destruct (_ <? _)|]; eauto].
  rewrite (on_service_bind _ _ _ tt (allow (em_topology_service m) x (endpoint_hosts i) (c_world s)))
    by (unfold set_allowed_and_blocked_hosts; erewrite update_Ok by exact Hx; done).
  destruct (put_run (em_host m) (Some (next_info s, i)) CUSTOM_ENDPOINT_INFO_EXPIRATION_NANOS c2 Hs2) as (c3 & E3 & Hc3).
  match goal with |- context [(on_info_cache _ ≫= _) ?s] => set (s3 := s) end.
  rewrite (on_info_cache_bind _ _ s3 tt c3) by exact E3.
  unfold remaining. rewrite bind_assoc, (get_em_bind this m) by done. rewrite bind_assoc, c_now_bind, ret_bind.
  assert (steady (CacheMap.time c3)) as Hs3 by (eapply cleaned_steady; [|exact Hc3]; exact Hs2).
  assert (now (CacheMap.time c0) ≤ now (CacheMap.time c2)) as Hle2
    by (etrans; [exact (now_mono _ _ Hs (ticked_cleaned c0))|exact (now_mono _ _ Hs1 Hc2)]).
  assert (now (CacheMap.time c2) ≤ now (CacheMap.time (with_item (em_host m) (Some (next_info s, i)) CUSTOM_ENDPOINT_INFO_EXPIRATION_NANOS c2)))
    as Hle2' by (apply Hs2; simpl; lia).
  match type of Hle2' with _ ≤ now (CacheMap.time ?c) => assert (now (CacheMap.time c) ≤ now (CacheMap.time c3)) as Hle3 end.
  { apply now_mono; [exact Hs2|exact Hc3]. }
  eexists _, _. split; [done|]. change (c_clock s) with (CacheMap.time c0). change (c_clock (with_cache c3 s3)) with (CacheMap.time c3).
  split; [lia|]. split; [done|]. split.
  { eapply (infos_older_put s _ (em_host m) (next_info s, i) CUSTOM_ENDPOINT_INFO_EXPIRATION_NANOS c2 Hold); [done|done|by rewrite Hcc2|].
    eapply cleaned_trans; [exact Hs2|exact Hc3|apply ticked_cleaned]. }
  split; [exact Hs3|]. split; [done|].
  exists (CacheItem (Some (next_info s, i)) (now (CacheMap.time c2) + CUSTOM_ENDPOINT_INFO_EXPIRATION_NANOS)), (next_info s).
  split; [done|]. split; [simpl; lia|]. intros Hnow. destruct Hc3 as (_ & _ & _ & Hk). apply Hk; [apply lookup_insert_eq|].
  assert (now (CacheMap.time c3) ≤ now (tick (CacheMap.time c3))) by (apply Hs3; simpl; lia). simpl in Hnow |- *. unfold c_clock in Hnow. unfold now at 2 in H1. simpl in Hnow, H1. lia.
Qed.

(** The hosts of a topology a custom endpoint stands for: those of a static
    list, and, with a list of exclusions, none. *)
Definition in_endpoint (i : CUSTOM_ENDPOINT_INFO) (hosts : gmap loc HOST_INFO) (p : loc) : bool :=
  match hosts !! p with
  | Some hi => bool_decide (ci_member_list_type i = STATIC_LIST) && bool_decide (get_host_id hi ∈ ci_members i)
  | None => false
  end.

Lemma endpoint_hosts_passes i hosts p : host_passes (endpoint_hosts i) hosts p = in_endpoint i hosts p.
Proof.
  unfold host_passes, in_endpoint, endpoint_hosts, host_allowed, get_static_members. destruct (hosts !! p) as [hi|]; [|done].
  destruct (bool_decide (ci_member_list_type i = STATIC_LIST)) eqn:Hs; simpl.
  - rewrite (bool_decide_eq_false_2 (get_host_id hi ∈ ∅)) by set_solver. by rewrite andb_true_r.
  - by rewrite (bool_decide_eq_false_2 (get_host_id hi ∈ ∅)) by set_solver.
Qed.

(** A turn of the monitor with a proper answer gives the topology
    service the hosts of the endpoint, even if the endpoint did not change,
    publishes the endpoint for five minutes, and sleeps for the rest of the
    refresh interval.  With any other number of endpoints it sleeps for the
    interval and changes nothing; an exception, an invalid role or the stop
    flag ends the thread. *)
Theorem turn_spec this m s response :
  steady (c_clock s) → infos_older s → c_monitors s !! this = Some m → 0 ≤ em_refresh_rate_nanos m →
  let ends := ∃ s', turn this response s = (Ok None, s') ∧ c_world s' = c_world s ∧ em_should_stop <$> c_monitors s' !! this = Some true in
  if em_should_stop m then ends else
  match response with
  | None => ends
  | Some [e] =>
    match from_db_cluster_endpoint e with
    | Ok i => ∀ x, w_services (c_world s) !! em_topology_service m = Some x →
      ∃ s' r, turn this response s = (Ok (Some r), s') ∧ 0 ≤ r ≤ em_refresh_rate_nanos m ∧
        c_world s' = allow (em_topology_service m) x (endpoint_hosts i) (c_world s) ∧ infos_older s' ∧
        (now (c_clock s') ≤ now (c_clock s) + CUSTOM_ENDPOINT_INFO_EXPIRATION_NANOS →
         (has_custom_endpoint_info this s').1 = Ok true)
    | _ => ends
    end
  | Some _ => ∃ s', turn this response s = (Ok (Some (em_refresh_rate_nanos m)), s') ∧ c_world s' = c_world s ∧
                CacheMap.cache (custom_endpoint_cache s') = CacheMap.cache (custom_endpoint_cache s)
  end.
Proof.
  intros Hs Hold Hm Hr ends.
  assert (∀ s1, c_monitors s1 = c_monitors s → c_world s1 = c_world s →
    ∃ s', (stop_em this;; mret (@None Z)) s1 = (Ok None, s') ∧ c_world s' = c_world s ∧ em_should_stop <$> c_monitors s' !! this = Some true) as Hstop.
  { intros s1 Hm1 Hw1. eexists. split; [done|]. split; [done|]. simpl. by rewrite lookup_alter_eq, Hm1, Hm. }
  destruct (em_should_stop m) eqn:Hstopped; [|destruct response as [[|e [|e' es]]|]].
  - unfold ends, turn. rewrite (get_em_bind this m), Hstopped by done. by apply Hstop.
  - unfold turn. rewrite (get_em_bind this m), Hstopped, c_now_bind by done. by eexists.
  - destruct (from_db_cluster_endpoint e) as [i|x|] eqn:Hi.
    + intros x Hx. destruct (turn_run this m e i x s) as (s' & r & Et & Hrr & Hw & Ho & Hs' & Hmm & y & p & Hy & Ht & Hc); [done..|].
      exists s', r. split; [done|]. split; [done|]. split; [done|]. split; [done|]. intros Hnow.
      unfold has_custom_endpoint_info. rewrite (get_em_bind this m) by congruence.
      destruct (CacheMap.get_item_run (em_host m) None (custom_endpoint_cache s')) as (c & Ec & _).
      rewrite (on_info_cache_bind _ _ _ _ _ Ec), Hc by lia.
      destruct (Z.ltb_spec (expiration_time y) (now (CacheMap.time (custom_endpoint_cache s')))); [unfold c_clock in *; lia|].
      by rewrite Hy.
    + unfold ends, turn. rewrite (get_em_bind this m), Hstopped, c_now_bind, Hi by done. by apply Hstop.
    + unfold from_db_cluster_endpoint in Hi. repeat case_match; try done; unfold get_role_type in Hi; repeat case_match; done.
  - unfold turn. rewrite (get_em_bind this m), Hstopped, c_now_bind by done. by eexists.
  - unfold ends, turn. rewrite (get_em_bind this m), Hstopped, c_now_bind by done. by apply Hstop.
Qed.

(** After such a turn the filtered topology holds exactly the hosts
    whose ids are on the endpoint's static list.  For an endpoint with a list of
    exclusions it is empty: every host is filtered out. *)
Theorem custom_endpoint_filter this m e i x s p t :
  steady (c_clock s) → infos_older s → c_monitors s !! this = Some m → em_should_stop m = false → 0 ≤ em_refresh_rate_nanos m →
  from_db_cluster_endpoint e = Ok i → w_services (c_world s) !! em_topology_service m = Some x →
  store_ok (c_world s) → w_topologies (c_world s) !! p = Some t →
  let hosts := w_hosts (c_world s) in
  ∃ s' r q time w', turn this (Some [e]) s = (Ok (Some r), s') ∧
    get_filtered_topology (em_topology_service m) (Some p) (c_world s') = (Ok (Some q), w') ∧
    w_topologies w' !! q = Some (Topology (-1) time ∅ None (filter (λ h, in_endpoint i hosts h) (writers t))
                                  (filter (λ h, in_endpoint i hosts h) (readers t))).
Proof.
  intros Hs Hold Hm Hstop Hr Hi Hx Hok Ht hosts.
  destruct (turn_run this m e i x s) as (s' & r & Et & _ & Hw & _); [done..|].
  pose proof (get_filtered_topology_run (em_topology_service m) (service_with (endpoint_hosts i) x) p t
    (allow (em_topology_service m) x (endpoint_hosts i) (c_world s))) as H'.
  destruct H' as (q & time & w' & E' & _ & _ & Htp & _); [exact Hok|apply lookup_insert_eq|exact Ht|].
  exists s', r, q, time, w'. split; [exact Et|]. split; [by rewrite Hw|]. rewrite Htp, lookup_insert_eq. f_equal. f_equal;
    apply list_filter_iff; intros y; by rewrite endpoint_hosts_passes.
Qed.

(** ** Waiting for the monitor *)

(** What goes on during a sleep: the clock is steady, 100 ms go by, and the
    monitors stay. *)
Definition passes (sleep : cstate → cstate) : Prop :=
  ∀ s, steady (c_clock s) →
    steady (c_clock (sleep s)) ∧ now (c_clock s) + 100000000 ≤ now (c_clock (sleep s)) ∧
    ∀ m, is_Some (c_monitors s !! m) → is_Some (c_monitors (sleep s) !! m).

Lemma has_info_run m s :
  steady (c_clock s) → is_Some (c_monitors s !! m) →
  ∃ b s', has_custom_endpoint_info m s = (Ok b, s') ∧ steady (c_clock s') ∧ now (c_clock s) ≤ now (c_clock s') ∧
    c_monitors s' = c_monitors s.
Proof.
  intros Hs [x Hx]. unfold has_custom_endpoint_info. rewrite (get_em_bind m x) by done.
  destruct (CacheMap.get_item_run (em_host x) None (custom_endpoint_cache s)) as (c & Ec & Hc & _).
  rewrite (on_info_cache_bind _ _ _ _ _ Ec). eexists _, (with_cache c s). split; [done|].
  split; [exact (cleaned_steady _ _ Hs Hc)|]. split; [exact (now_mono _ _ Hs Hc)|done].
Qed.

Lemma wait_loop_run sleep m timeout fuel s :
  passes sleep → steady (c_clock s) → is_Some (c_monitors s !! m) →
  timeout - now (c_clock s) ≤ Z.of_nat fuel * 100000000 →
  ∃ b s', wait_loop sleep (S fuel) m timeout s = (Ok b, s') ∧
    if b : bool then ∃ s0, has_custom_endpoint_info m s0 = (Ok true, s') else timeout ≤ now (c_clock s').
Proof.
  intros Hsleep. revert s. induction fuel as [|fuel IH]; intros s Hs Hm Ht; cbn [wait_loop]; rewrite c_now_bind;
    set (s1 := with_cache (ticked (custom_endpoint_cache s)) s);
    assert (now (c_clock s) ≤ now (c_clock s1)) as Hle by (exact (now_mono _ _ Hs (ticked_cleaned _)));
    destruct (Z.ltb_spec (now (c_clock s)) timeout) as [Hlt|Hge];
    [lia|exists false, s1; split; [done|lia]| |exists false, s1; split; [done|lia]].
  rewrite modify_bind. destruct (Hsleep s1 Hs) as (Hs2 & Hn2 & Hm2).
  destruct (has_info_run m (sleep s1) Hs2 (Hm2 _ Hm)) as (b & s3 & E3 & Hs3 & Hn3 & Hm3).
  rewrite (bind_Ok _ _ _ _ _ E3). destruct b; [by exists true, s3; split; [|exists (sleep s1)]|].
  apply IH; [done|rewrite Hm3; by apply Hm2|]. lia.
Qed.

Definition timeout_message (p : CUSTOM_ENDPOINT_PROXY) : str :=
  take 1023 (S!"The custom endpoint plugin timed out after " ++ to_string (wait_on_cached_info_duration_ms p) ++
    S!" ms while waiting for custom endpoint info for host " ++ custom_endpoint_host p ++ S!".").

Lemma on_endpoints_bind {A B} (m : M cstate A) (k : A → M pstate B) p s a s' :
  m s = (Ok a, s') → (on_endpoints m ≫= k) (p, s) = k a (p, s').
Proof. intros Hm. unfold on_endpoints, mbind, M_bind. simpl. by rewrite Hm. Qed.

(** Waiting for the endpoint ends: either the last look into the cache
    saw the info, or the whole duration went by and the error message of the
    proxy says so.  One turn per 100 ms of the duration is enough fuel. *)
Theorem wait_for_custom_endpoint_info_ends sleep fuel m p s :
  passes sleep → steady (c_clock s) → is_Some (c_monitors s !! m) →
  wait_on_cached_info_duration_ms p ≤ Z.of_nat fuel * 100 →
  ∃ p' s', wait_for_custom_endpoint_info sleep (S fuel) m (p, s) = (Ok tt, (p', s')) ∧
    ((p' = p ∧ ∃ s0, has_custom_endpoint_info m s0 = (Ok true, s')) ∨
     (p' = set_error (timeout_message p) p ∧
      now (c_clock s) + wait_on_cached_info_duration_ms p * 1000000 ≤ now (c_clock s'))).
Proof.
  intros Hsleep Hs Hm Hf. unfold wait_for_custom_endpoint_info.
  destruct (has_info_run m s Hs Hm) as (b & s1 & E1 & Hs1 & Hn1 & Hm1). rewrite (on_endpoints_bind _ _ _ _ _ _ E1).
  destruct b; [exists p, s1; split; [done|left; eauto]|]. rewrite gets_bind. cbn [fst].
  set (s2 := with_cache (ticked (custom_endpoint_cache s1)) s1). rewrite (on_endpoints_bind _ _ _ _ (now (c_clock s1)) s2) by done.
  assert (now (c_clock s1) ≤ now (c_clock s2)) as Hle by (exact (now_mono _ _ Hs1 (ticked_cleaned _))).
  destruct (wait_loop_run sleep m (now (c_clock s1) + wait_on_cached_info_duration_ms p * 1000000) fuel s2) as (b & s' & E' & Hb);
    [done|exact Hs1|simpl; by rewrite Hm1|lia|].
  rewrite (on_endpoints_bind _ _ _ _ _ _ E'). destruct b; [exists p, s'; split; [done|by left]|].
  exists (set_error (timeout_message p) p), s'. split; [done|]. right. split; [done|lia].
Qed.
End CustomEndpoint.
Arguments cstate P : clear implicits.

(** ** An endpoint with a list of exclusions *)

Record ex_endpoint := ExEndpoint { ex_static : option (list str); ex_excluded : list str; ex_role : str }.

#[export] Instance ex_endpoint_api : DBClusterEndpoint ex_endpoint := {|
  StaticMembersHasBeenSet e := match ex_static e with Some _ => true | None => false end;
  GetStaticMembers e := default [] (ex_static e);
  GetExcludedMembers := ex_excluded;
  GetDBClusterEndpointIdentifier _ := S!"custom";
  GetDBClusterIdentifier _ := S!"c1";
  GetEndpoint _ := S!"custom.cluster-custom-xyz.us-east-2.rds.amazonaws.com";
  GetCustomEndpointType := ex_role |}.

(** A pool that runs what is pushed as long as it has a thread. *)
#[export] Instance ex_pool : ThreadPool (nat * list loc) := {|
  pool_size := fst;
  pool_resize n p := (n, p.2);
  pool_push m p := (p.1, p.2 ++ [m]);
  pool_stop p := (p.1, []) |}.

Definition ex_state : cstate (nat * list loc) :=
  CState (World ex_hosts {[1%positive := ex_topology]} {[1%positive := TopologyService 30000 "c1" None 1%positive None]}
            {[1%positive := Container true None None "c1"]} ∅ (Tables ∅ ∅) (Clocks (λ _, 0) (λ _, 0) 0))
    (CacheMap.CacheMap ∅ 0 (Clock (λ n, Z.of_nat n * 7) 0)) 1 {[1%positive := EndpointMonitor "h" "custom" "us-east-2" 30 false 1%positive]}
    (0%nat, []) (SlidingCache ∅ 0 0 None true [] (Clock (λ n, Z.of_nat n * 5) 0) true false).

Lemma ex_state_steady : steady (c_clock ex_state).
Proof. intros i j Hij. simpl. lia. Qed.

Lemma ex_state_older : infos_older ex_state.
Proof. intros k i p Hk. discriminate. Qed.

Lemma ex_state_ok : store_ok (c_world ex_state).
Proof. split; [apply map_Forall_singleton; split; by constructor|apply map_Forall_empty]. Qed.

Lemma turn_spec_witness :
  ∃ s' r, turn 1%positive (Some [ExEndpoint (Some [S!"i1"]) [] "ANY"]) ex_state = (Ok (Some r), s') ∧ 0 ≤ r ≤ 30 ∧
    allowed_and_blocked_hosts <$> w_services (c_world s') !! 1%positive = Some (Some (AllowedAndBlocked {[S!"i1"]} ∅)).
Proof.
  set (m := EndpointMonitor "h" "custom" "us-east-2" 30 false 1%positive). set (e := ExEndpoint (Some [S!"i1"]) [] "ANY").
  set (x := TopologyService 30000 "c1" None 1%positive None).
  set (i := CustomEndpointInfo "custom" "c1" (GetEndpoint e) ANY {[S!"i1"]} STATIC_LIST).
  assert (∃ s' r, turn 1%positive (Some [e]) ex_state = (Ok (Some r), s') ∧ 0 ≤ r ≤ 30 ∧
    c_world s' = allow 1%positive x (endpoint_hosts i) (c_world ex_state)) as (s' & r & Et & Hr & Hw).
  { pose proof (turn_spec 1%positive m ex_state (Some [e]) ex_state_steady ex_state_older eq_refl ltac:(simpl; lia)) as H.
    cbv zeta in H. change (em_should_stop m) with false in H. cbv iota in H.
    replace (from_db_cluster_endpoint e) with (Ok i) in H by (vm_compute; reflexivity).
    destruct (H x eq_refl) as (s' & r & Et & Hr & Hw & _). exists s', r. split; [exact Et|]. split; [exact Hr|exact Hw]. }
  exists s', r. split; [exact Et|]. split; [exact Hr|]. rewrite Hw. vm_compute. reflexivity.
Defined.

Lemma custom_endpoint_filter_witness :
  ∃ s' r q time w', turn 1%positive (Some [ExEndpoint None [S!"i2"] "ANY"]) ex_state = (Ok (Some r), s') ∧
    get_filtered_topology 1%positive (Some 1%positive) (c_world s') = (Ok (Some q), w') ∧
    w_topologies w' !! q = Some (Topology (-1) time ∅ None [] []).
Proof.
  set (i := CustomEndpointInfo "custom" "c1" "custom.cluster-custom-xyz.us-east-2.rds.amazonaws.com" ANY {[S!"i2"]} EXCLUSION_LIST).
  assert (from_db_cluster_endpoint (ExEndpoint None [S!"i2"] "ANY") = Ok i) as Hi by (vm_compute; reflexivity).
  destruct (custom_endpoint_filter 1%positive (EndpointMonitor "h" "custom" "us-east-2" 30 false 1%positive) _ i
    (TopologyService 30000 "c1" None 1%positive None) ex_state 1%positive ex_topology
    ex_state_steady ex_state_older eq_refl eq_refl ltac:(simpl; lia) Hi eq_refl ex_state_ok eq_refl)
    as (s' & r & q & time & w' & Et & Ef & Ht).
  exists s', r, q, time, w'. split; [exact Et|]. split; [exact Ef|]. rewrite Ht. vm_compute. reflexivity.
Defined.

(** Nothing but time passes: after 250 ms the wait gives up. *)
Definition ex_sleep (s : cstate (nat * list loc)) : cstate (nat * list loc) :=
  let c := custom_endpoint_cache s in
  with_cache (CacheMap.CacheMap (CacheMap.cache c) (CacheMap.clean_up_time_nanos c)
    (Clock (λ n, readings (CacheMap.time c) n + 100000000) (taken (CacheMap.time c)))) s.

Lemma wait_for_custom_endpoint_info_ends_witness :
  let p := EndpointProxy "h" "custom" "us-east-2" true 250 1000 1%positive None 30 None in
  ∃ s', wait_for_custom_endpoint_info ex_sleep 4 1%positive (p, ex_state) = (Ok tt, (set_error (timeout_message p) p, s')).
Proof.
  intros p. destruct (wait_for_custom_endpoint_info_ends ex_sleep 3 1%positive p ex_state) as (p' & s' & Ew & H).
  - intros s Hs. split; [intros i j Hij; simpl; specialize (Hs _ _ Hij); unfold c_clock in Hs; lia|]. split; [unfold now; simpl; unfold c_clock; lia|done].
  - exact ex_state_steady.
  - by eexists.
  - simpl. lia.
  - exists s'. destruct H as [[-> _]|[-> _]]; [|exact Ew]. exfalso.
    assert ((wait_for_custom_endpoint_info ex_sleep 4 1%positive (p, ex_state)).2.1 = p) as Hp by (rewrite Ew; reflexivity).
    revert Hp. vm_compute. discriminate.
Defined.
