(* ===== verification/QueryParsing.v ===== *)
(** Splitting a query into its statements (src/driver/query_parsing.cc), and
    what the driver makes of them: whether a transaction is open
    (src/driver/execute.cc).

    The query is changed in place while it is read; the model keeps the string
    and the index.  A reference definition that builds the statements from left
    to right is proved to be the same. *)

From S2P Require Import Prelude CppString.

(** [query_str[index]], which is a null character at the end. *)
Definition char_at (s : str) (i : nat) : ascii := default Ascii.zero (s !! i).

Definition backslash : ascii := "\"%char.
Definition is_space_like (c : ascii) : bool :=
  bool_decide (c ∈ [" "; "013"; "010"; "009"]%char).

(** [src/driver/query_parsing.cc:35-57] scan_quotation

    The index behind the closing quotation mark, or the end. *)
Fixpoint scan_loop (fuel : nat) (query_str : str) (index : nat) (quotation_mark : ascii) (escaped : bool) : nat :=
  match fuel with
  | O => index
  | S f =>
    let index := S index in
    if length query_str <=? index then index
    else if bool_decide (char_at query_str index = backslash) then scan_loop f query_str index quotation_mark (negb escaped)
    else if negb escaped && bool_decide (char_at query_str index = quotation_mark) then S index
    else scan_loop f query_str index quotation_mark false
  end.
Definition scan_quotation (query_str : str) (index : nat) (quotation_mark : ascii) : nat :=
  scan_loop (length query_str) query_str index quotation_mark false.

(** [src/driver/query_parsing.cc:62-83] is_character_unnecessary *)
Definition is_character_unnecessary (query_str : str) (index : nat) : bool :=
  if (index =? 0) || (index =? length query_str - 1) then true
  else let c := char_at query_str (S index) in is_space_like c || bool_decide (c = ";"%char).

Record parse_state := PS { query_str : str; index : nat; statements : list str }.

(** One round of the loop. *)
Definition parse_round (s : parse_state) : parse_state :=
  let '(PS q i out) := s in
  let c := char_at q i in
  if bool_decide (c = Ascii.ascii_of_nat 34) || bool_decide (c = "'"%char) then PS q (scan_quotation q i c) out
  else if is_space_like c then
    if is_character_unnecessary q i then PS (take i q ++ drop (S i) q) i out
    else PS (if bool_decide (c = " "%char) then q else <[i := " "%char]> q) (S i) out
  else if bool_decide (c = ";"%char) then
    PS (drop (S i) q) 0 (if 0 <? i then out ++ [take i q] else out)
  else PS q (S i) out.

Fixpoint parse_loop (fuel : nat) (s : parse_state) : option parse_state :=
  if length (query_str s) <=? index s then Some s else
  match fuel with O => None | S f => parse_loop f (parse_round s) end.

(** [src/driver/query_parsing.cc:92-155] parse_query_into_statements

    Every round takes a character at least; [None] would be a loop that does
    not end. *)
Definition parse_query_into_statements (original_query : str) : option (list str) :=
  s ← parse_loop (length original_query) (PS original_query 0 []);
  Some (if (0 <? index s) && (index s =? length (query_str s)) then statements s ++ [query_str s] else statements s).

(** [src/driver/execute.cc:202-216] do_query

    Whether a transaction is open after the statements: the last one that says
    so decides. *)
Fixpoint last_decision (rev_statements : list str) (transaction_open : bool) : bool :=
  match rev_statements with
  | [] => transaction_open
  | statement :: r =>
    let s := toupper <$> statement in
    if bool_decide (s = S!"START TRANSACTION") || bool_decide (s = S!"BEGIN") then true
    else if bool_decide (s = S!"COMMIT") || bool_decide (s = S!"ROLLBACK") then false
    else last_decision r transaction_open
  end.
Definition update_transaction (statements : list str) (transaction_open : bool) : bool :=
  last_decision (rev statements) transaction_open.

(** ** The reference *)

Definition is_quote (c : ascii) : bool := bool_decide (c = Ascii.ascii_of_nat 34) || bool_decide (c = "'"%char).

(** The statements of a text behind [acc]; within quotation marks, [mode] is
    the mark and whether the next character is escaped. *)
Fixpoint split_statements (mode : option (ascii * bool)) (acc s : str) : list str :=
  match s with
  | [] => if bool_decide (acc = []) then [] else [acc]
  | c :: s' =>
    match mode with
    | Some (q, escaped) =>
      if bool_decide (c = backslash) then split_statements (Some (q, negb escaped)) (acc ++ [c]) s'
      else if negb escaped && bool_decide (c = q) then split_statements None (acc ++ [c]) s'
      else split_statements (Some (q, false)) (acc ++ [c]) s'
    | None =>
      if is_quote c then split_statements (Some (c, false)) (acc ++ [c]) s'
      else if is_space_like c then
        if bool_decide (acc = []) || bool_decide (s' = []) || (let d := default Ascii.zero (head s') in is_space_like d || bool_decide (d = ";"%char))
        then split_statements None acc s'
        else split_statements None (acc ++ [" "%char]) s'
      else if bool_decide (c = ";"%char) then (if bool_decide (acc = []) then [] else [acc]) ++ split_statements None [] s'
      else split_statements None (acc ++ [c]) s'
    end
  end.

Lemma char_at_app pre c s : char_at (pre ++ c :: s) (length pre) = c.
Proof. unfold char_at. by rewrite list_lookup_middle. Qed.

(** What is scanned as quoted is what the reference passes over. *)
Lemma scan_split f pre s q escaped :
  pre ≠ [] → length s < f →
  ∃ s1 s2, s = s1 ++ s2 ∧ scan_loop f (pre ++ s) (pred (length pre)) q escaped = length pre + length s1 ∧
           ∀ acc, split_statements (Some (q, escaped)) acc s = split_statements None (acc ++ s1) s2.
Proof.
  revert pre s escaped. induction f as [|f IH]; intros pre s escaped Hpre Hf; [lia|].
  assert (S (pred (length pre)) = length pre) as Hlen by (destruct pre; [done|simpl; lia]).
  cbn [scan_loop]. rewrite Hlen. destruct s as [|c s].
  - exists [], []. rewrite (app_nil_r pre), (proj2 (Nat.leb_le _ _)) by lia. split; [done|]. split; [simpl; lia|]. intros acc. by rewrite app_nil_r.
  - rewrite (proj2 (Nat.leb_gt _ _)) by (rewrite length_app; simpl; lia). rewrite char_at_app.
    assert (∀ escaped', ∃ s1 s2, s = s1 ++ s2 ∧ scan_loop f (pre ++ c :: s) (length pre) q escaped' = length pre + length (c :: s1) ∧
              ∀ acc, split_statements (Some (q, escaped')) (acc ++ [c]) s = split_statements None (acc ++ c :: s1) s2) as Hstep.
    { intros escaped'. destruct (IH (pre ++ [c]) s escaped') as (s1 & s2 & -> & Hs & Hr); [by destruct pre|simpl in Hf; lia|].
      exists s1, s2. split; [done|]. rewrite length_app, <- app_assoc, Nat.add_1_r in Hs. cbn [pred app length] in *. split; [lia|].
      intros acc. rewrite Hr, <- app_assoc. done. }
    cbn [split_statements]. case_bool_decide as Hc.
    + destruct (Hstep (negb escaped)) as (s1 & s2 & -> & Hs & Hr). by exists (c :: s1), s2.
    + destruct (negb escaped && bool_decide (c = q)).
      * exists [c], s. split; [done|]. split; [simpl; lia|done].
      * destruct (Hstep false) as (s1 & s2 & -> & Hs & Hr). by exists (c :: s1), s2.
Qed.

Lemma parse_round_ref acc c s out :
  ∃ acc' s' out', parse_round (PS (acc ++ c :: s) (length acc) out) = PS (acc' ++ s') (length acc') out' ∧ length s' ≤ length s ∧
    out' ++ split_statements None acc' s' = out ++ split_statements None acc (c :: s).
Proof.
  unfold parse_round. rewrite char_at_app. cbn [split_statements]. fold (is_quote c). destruct (is_quote c) eqn:Hq.
  - destruct (scan_split (length (acc ++ c :: s)) (acc ++ [c]) s c false) as (s1 & s2 & -> & Hs & Hr);
      [by destruct acc|rewrite length_app; simpl; lia|].
    rewrite (length_app acc [c]), <- app_assoc in Hs. cbn [length app] in Hs. rewrite Nat.add_1_r in Hs. cbn [pred] in Hs. unfold scan_quotation. rewrite Hs.
    exists (acc ++ c :: s1), s2, out. rewrite Hr, <- !app_assoc. split; [|split; [rewrite length_app; lia|done]].
    f_equal. rewrite length_app. simpl. lia.
  - destruct (is_space_like c) eqn:Hsp.
    + assert (is_character_unnecessary (acc ++ c :: s) (length acc) =
        (bool_decide (acc = []) || bool_decide (s = []) || (let d := default Ascii.zero (head s) in is_space_like d || bool_decide (d = ";"%char)))) as ->.
      { unfold is_character_unnecessary. rewrite length_app. cbn [length].
        assert ((length acc =? 0) = bool_decide (acc = [])) as -> by by destruct acc.
        assert ((length acc =? length acc + S (length s) - 1) = bool_decide (s = [])) as ->.
        { destruct s; simpl; [by rewrite Nat.add_sub, Nat.eqb_refl|]. apply Nat.eqb_neq. lia. }
        destruct (bool_decide (acc = [])); [done|]. cbn [orb]. destruct (bool_decide_reflect (s = [])); [done|]. cbn [orb].
        assert (char_at (acc ++ c :: s) (S (length acc)) = default Ascii.zero (head s)) as ->; [|done].
        destruct s as [|d s]; [done|]. replace (acc ++ c :: d :: s) with ((acc ++ [c]) ++ d :: s) by by rewrite <- app_assoc.
        replace (S (length acc)) with (length (acc ++ [c])) by (rewrite length_app; simpl; lia). apply char_at_app. }
      destruct (_ || _).
      * exists acc, s, out. rewrite take_app_length. replace (S (length acc)) with (length acc + 1) by lia. rewrite drop_app_add. done.
      * exists (acc ++ [" "%char]), s, out. rewrite length_app, <- app_assoc, Nat.add_1_r. split; [|done]. f_equal.
        case_bool_decide; [by subst|]. by rewrite insert_app_r_alt, Nat.sub_diag by done.
    + case_bool_decide.
      * exists [], s, (if 0 <? length acc then out ++ [acc] else out). rewrite take_app_length.
        replace (S (length acc)) with (length acc + 1) by lia. rewrite drop_app_add. split; [done|]. split; [done|].
        destruct acc; [done|]. simpl. by rewrite <- app_assoc.
      * exists (acc ++ [c]), s, out. rewrite length_app, <- app_assoc, Nat.add_1_r. done.
Qed.

Lemma parse_loop_ref fuel acc s out :
  length s ≤ fuel →
  ∃ q i out', parse_loop fuel (PS (acc ++ s) (length acc) out) = Some (PS q i out') ∧ i = length q ∧
    out' ++ (if bool_decide (q = []) then [] else [q]) = out ++ split_statements None acc s.
Proof.
  revert acc s out. induction fuel as [|f IH]; intros acc s out Hf; destruct s as [|c s].
  - exists acc, (length acc), out. rewrite app_nil_r. cbn. by rewrite Nat.leb_refl.
  - simpl in Hf. lia.
  - exists acc, (length acc), out. rewrite app_nil_r. cbn. by rewrite Nat.leb_refl.
  - cbn [parse_loop query_str index]. rewrite (proj2 (Nat.leb_gt _ _)) by (rewrite length_app; simpl; lia).
    destruct (parse_round_ref acc c s out) as (acc' & s' & out' & -> & Hl & Hr).
    destruct (IH acc' s' out') as (q & i & out'' & E & Hi & Hr'); [simpl in Hf; lia|]. exists q, i, out''. by rewrite E, Hr', Hr.
Qed.

Lemma parse_is_split q : parse_query_into_statements q = Some (split_statements None [] q).
Proof.
  unfold parse_query_into_statements. destruct (parse_loop_ref (length q) [] q [] ltac:(lia)) as (q' & i & out & E & -> & Hr).
  cbn [app length] in E, Hr. rewrite E. cbn [mbind option_bind index query_str statements]. rewrite Nat.eqb_refl, andb_true_r, <- Hr.
  destruct q'; [by rewrite app_nil_r|done].
Qed.

(** ** Statements that come back *)

(** A statement of words with single spaces between them, without quotation
    marks and separators. *)
Definition word_char (c : ascii) : bool := negb (is_quote c || is_space_like c || bool_decide (c = ";"%char)).
Fixpoint spaced (after_space : bool) (s : str) : bool :=
  match s with
  | [] => negb after_space
  | c :: s' => if bool_decide (c = " "%char) then negb after_space && spaced true s' else word_char c && spaced false s'
  end.
Definition statement (s : str) : Prop := spaced true s = true.

(** A statement in a query: space around it, and the separator. *)
Definition separated (item : str * str * str) : str :=
  let '(before, s, after) := item in before ++ s ++ after ++ S!";".
Definition space (s : str) : Prop := Forall (λ c, is_space_like c = true) s.

Lemma space_no_quote c : is_space_like c = true → is_quote c = false.
Proof.
  unfold is_space_like. intros Hc%bool_decide_eq_true. repeat (apply elem_of_cons in Hc as [->|Hc]; [done|]). by apply elem_of_nil in Hc.
Qed.

Lemma split_leading ws r : space ws → split_statements None [] (ws ++ r) = split_statements None [] r.
Proof.
  induction 1 as [|c ws Hc Hws IH]; [done|]. cbn [app split_statements].
  by rewrite space_no_quote, Hc.
Qed.

Lemma split_trailing acc ws r :
  space ws → acc ≠ [] → split_statements None acc (ws ++ ";"%char :: r) = acc :: split_statements None [] r.
Proof.
  intros Hws Hacc. induction Hws as [|c ws Hc Hws IH].
  - cbn [app split_statements]. change (is_quote ";"%char) with false. change (is_space_like ";"%char) with false. cbn [bool_decide].
    rewrite bool_decide_eq_true_2 by done. by rewrite bool_decide_eq_false_2.
  - cbn [app split_statements]. rewrite space_no_quote, Hc by done.
    assert (is_space_like (default Ascii.zero (head (ws ++ ";"%char :: r))) || bool_decide (default Ascii.zero (head (ws ++ ";"%char :: r)) = ";"%char) = true) as ->.
    { destruct Hws as [|d ws Hd _]; [done|]. cbn. by rewrite Hd. }
    by rewrite orb_true_r.
Qed.

Lemma split_words b s acc r :
  spaced b s = true → (b = false → acc ≠ []) → r ≠ [] → split_statements None acc (s ++ r) = split_statements None (acc ++ s) r.
Proof.
  revert b acc. induction s as [|c s IH]; intros b acc Hs Hb Hr; [by rewrite app_nil_r|].
  cbn [spaced] in Hs. cbn [app split_statements]. replace (acc ++ c :: s) with ((acc ++ [c]) ++ s) by by rewrite <- app_assoc.
  destruct (bool_decide_reflect (c = " "%char)) as [->|Hc].
  - apply andb_true_iff in Hs as [Hneg Hs]. destruct b; [done|]. specialize (Hb eq_refl).
    change (is_quote " "%char) with false. change (is_space_like " "%char) with true. cbn [negb].
    rewrite bool_decide_eq_false_2 by done. rewrite bool_decide_eq_false_2 by (by destruct s, r). cbn [orb].
    assert (is_space_like (default Ascii.zero (head (s ++ r))) || bool_decide (default Ascii.zero (head (s ++ r)) = ";"%char) = false) as ->.
    { destruct s as [|d s]; [done|]. cbn in Hs |- *. case_bool_decide; [by subst|]. apply andb_true_iff in Hs as [Hd _].
      unfold word_char in Hd. apply negb_true_iff in Hd. apply orb_false_iff in Hd as [[_ ->]%orb_false_iff ->]. done. }
    apply (IH true); [done|by intros|done].
  - apply andb_true_iff in Hs as [Hw Hs]. unfold word_char in Hw. apply negb_true_iff in Hw.
    apply orb_false_iff in Hw as [[-> ->]%orb_false_iff ->]. apply (IH false); [done|by intros _; destruct acc|done].
Qed.

(** A query of statements, each with any space around it and a separator behind
    it, is split into exactly these statements; the quotation marks and the
    index of the code never run it out of the string or into a loop, and for any
    query the result is that of the reference.  A statement that opens a
    transaction decides until a later one ends it, but only the shortest forms
    count: after [COMMIT WORK] the transaction is taken to be still open. *)
Theorem statements_roundtrip items open q :
  Forall (λ item, space item.1.1 ∧ statement item.1.2 ∧ space item.2) items →
  parse_query_into_statements (items ≫= separated) = Some (items.*1.*2) ∧
  parse_query_into_statements q = Some (split_statements None [] q) ∧
  update_transaction [S!"begin"; S!"insert into t values (1)"] open = true ∧
  update_transaction [S!"begin"; S!"Commit"; S!"select 1"] open = false ∧
  update_transaction [S!"begin"; S!"commit work"] open = true.
Proof.
  intros Hitems. split; [|split; [apply parse_is_split|split; [|split]; vm_compute; reflexivity]].
  rewrite parse_is_split. f_equal. induction Hitems as [|[[ws s] ws'] items (Hws & Hs & Hws') Hitems IH]; [done|].
  cbn [fst snd fmap list_fmap mbind list_bind separated] in *. rewrite <- !app_assoc. rewrite split_leading by done.
  rewrite (split_words true) by (first [done|by destruct ws']).
  change (S!";" ++ ?r) with (";"%char :: r). rewrite split_trailing; [by rewrite IH|done|by destruct s].
Qed.

(** Two statements, the second in an odd layout. *)
Lemma statements_roundtrip_witness :
  parse_query_into_statements (S!"start transaction;" ++ "013"%char :: S!"  select a ;") = Some [S!"start transaction"; S!"select a"].
Proof.
  destruct (statements_roundtrip [([], S!"start transaction", []); ("013"%char :: S!"  ", S!"select a", S!" ")] true []) as [H _];
    [repeat constructor|]. exact H.
Defined.
