(* ===== verification/Transact.v ===== *)
(** Queries of the driver and transactions: what becomes of a query whose
    connection is lost ([DBC::execute_query], src/driver/connect.cc, modelled in
    FailoverHandler.v), the direct execution of a statement
    (src/driver/execute.cc), and the end of transactions
    (src/driver/transact.cc). *)

From S2P Require Import Prelude CppString World ClusterTopology TopologyService FailoverHandler QueryParsing.

Local Open Scope Z_scope.

(** ** The server *)

(** A call of the server may change anything about its proxies, what they
    answer, whether they are connected, and the status the server has told
    them, autocommit among it; the proxies and the driver's own objects stay. *)
Definition server_frame (s s' : fstate) : Prop :=
  f_h s' = f_h s ∧ f_ds s' = f_ds s ∧ f_dbc s' = f_dbc s ∧ f_world s' = f_world s ∧
  ∀ p, is_Some (f_proxies s !! p) → is_Some (f_proxies s' !! p).

Class ServerLaws `{Server} := {
  ping_frame s : ∃ r s', ping s = (Ok r, s') ∧ server_frame s s';
  real_query_frame q s : ∃ r s', real_query q s = (Ok r, s') ∧ server_frame s s'
}.

Section Transactions.
Context `{Procs : Procedures} `{Serv : Server}.

(** [SQL_SUCCESS] and [SQL_ERROR]; the kinds of completion. *)
Definition SQL_SUCCESS : Z := 0.
Definition SQL_ERROR : Z := -1.
Inductive CompletionType := SQL_COMMIT | SQL_ROLLBACK | OtherCompletion.

(** [src/driver/execute.cc:198-223] do_query

    The direct execution of a query: the result, and whether an error may still
    trigger a failover. *)
Definition execute_direct (query : str) : M fstate (Z * bool) :=
  rc ← execute_query query;
  if sql_succeeded rc then
    statements ← deref (parse_query_into_statements query);
    modify_dbc (λ d, with_transaction (update_transaction statements (transaction_open d)) d);;
    mret (rc, true)
  else mret (rc, false).

(** [src/driver/transact.cc:46-86] my_transact

    [no_transactions] is the option.  An error of the call itself is stored like
    any other. *)
Definition my_transact (no_transactions : bool) (completion : CompletionType) : M fstate Z :=
  if no_transactions then mret SQL_SUCCESS else
  let run (query : str) : M fstate Z :=
    result ← execute_query query;
    (if sql_succeeded result then modify_dbc (with_transaction false) else mret tt);;
    mret result in
  match completion with
  | SQL_COMMIT => run (S!"COMMIT")
  | SQL_ROLLBACK =>
    px ← current_proxy;
    if negb (px_transactions px) then set_error "HYC00" else run (S!"ROLLBACK")
  | OtherCompletion => set_error "HY012"
  end.

(** [src/driver/transact.cc:99-135] end_transaction

    For one connection, and for all connections of an environment, whose
    results are not looked at. *)
Definition end_transaction_dbc (no_transactions : bool) (completion : CompletionType) : M fstate Z := my_transact no_transactions completion.

Fixpoint end_transaction_env (completion : CompletionType) (conn_list : list (bool * fstate)) : res Z * list (bool * fstate) :=
  match conn_list with
  | [] => (Ok SQL_SUCCESS, [])
  | (no_transactions, dbc) :: l =>
    match my_transact no_transactions completion dbc with
    | (Ok _, dbc') => let '(r, l') := end_transaction_env completion l in (r, (no_transactions, dbc') :: l')
    | (Throw e, dbc') => (Throw e, (no_transactions, dbc') :: l)
    | (UB, dbc') => (UB, (no_transactions, dbc') :: l)
    end
  end.

(** ** What the server leaves alone *)

Context `{PLaws : !ProcedureLaws} `{SLaws : !ServerLaws}.

Definition kept (s s' : fstate) : Prop :=
  f_h s' = f_h s ∧ f_ds s' = f_ds s ∧ connection_proxy (f_dbc s') = connection_proxy (f_dbc s) ∧
  transaction_open (f_dbc s') = transaction_open (f_dbc s) ∧
  w_containers (f_world s') = w_containers (f_world s) ∧ w_topologies (f_world s') = w_topologies (f_world s) ∧
  ∀ p, is_Some (f_proxies s !! p) → is_Some (f_proxies s' !! p).

#[export] Instance kept_preorder : PreOrder kept.
Proof.
  split.
  - intros s. by do 6 (split; [done|]).
  - intros s1 s2 s3 (A1 & A2 & A3 & A4 & A5 & A6 & A7) (B1 & B2 & B3 & B4 & B5 & B6 & B7). unfold kept.
    rewrite B1, B2, B3, B4, B5, B6. do 6 (split; [done|]). auto.
Qed.

Lemma server_frame_kept s s' : server_frame s s' → kept s s'.
Proof. intros (E1 & E2 & E3 & E4 & E5). unfold kept. by rewrite E1, E2, E3, E4. Qed.

Lemma kept_error s e : kept s (set_dbc (with_error e (f_dbc s)) s).
Proof. by do 6 (split; [done|]). Qed.

(** Rewrites to the first state whatever a kept state is asked for. *)
Lemma kept_ready s s' : kept s s' → failover_ready s →
  failover_ready s' ∧ is_failover_enabled s' = is_failover_enabled s ∧ wants_reader s' = wants_reader s.
Proof.
  intros (Eh & Ed & Ec & Et & Ew & Ep & Hpx) ((p & px & Hp & Hx) & Hmc & Htop). destruct (Hpx p (mk_is_Some _ _ Hx)) as [px' Hx'].
  unfold failover_ready, has_proxy, is_failover_enabled, wants_reader. rewrite Eh, Ed, Ec, Ew, Ep, Hp.
  split; [|done]. split; [by exists p, px'|done].
Qed.

Lemma ready_proxy s : failover_ready s → ∃ p px, connection_proxy (f_dbc s) = Some p ∧ f_proxies s !! p = Some px ∧ current_proxy s = (Ok px, s).
Proof. intros ((p & px & Hp & Hx) & _). exists p, px. split; [done|]. split; [done|]. by eapply current_proxy_run. Qed.

Lemma is_server_alive_run s : ∃ alive s0, is_server_alive s = (Ok alive, s0) ∧ kept s s0.
Proof.
  unfold is_server_alive. rewrite (bind_Ok _ _ _ _ _ (on_world_Ok time0 _ _ _ eq_refl)), gets_bind.
  set (s1 := set_world _ s). assert (kept s s1) as Hs1 by (by do 6 (split; [done|])).
  set (seconds := time_at _ _). clearbody seconds. destruct (CHECK_IF_ALIVE <=? _).
  - destruct (ping_frame s1) as (r & s2 & E & Hf). rewrite bind_assoc, (bind_Ok _ _ _ _ _ E), bind_assoc, gets_bind, ret_bind, modify_dbc_bind.
    eexists _, _. split; [done|]. etrans; [exact Hs1|]. etrans; [exact (server_frame_kept _ _ Hf)|].
    by do 6 (split; [done|]).
  - rewrite ret_bind, modify_dbc_bind. eexists _, _. split; [done|]. etrans; [exact Hs1|].
    by do 6 (split; [done|]).
Qed.

Lemma set_error_run q s : set_error q s = (Ok SQL_ERROR, set_dbc (with_error (Some q) (f_dbc s)) s).
Proof. unfold set_error. by rewrite modify_dbc_bind. Qed.

(** ** A query whose connection is lost *)

(** With a transaction in progress, by the status the connection has when the
    loss is noticed, the server is told to roll back. *)
Definition needs_rollback (s : fstate) : bool :=
  match connection_proxy (f_dbc s) ≫= λ p, f_proxies s !! p with
  | Some px => (negb (px_autocommit px) && px_transactions px) || transaction_open (f_dbc s)
  | None => false
  end.
Definition rolled_back (s1 s2 : fstate) : Prop :=
  if needs_rollback s1 then ∃ r, real_query (S!"ROLLBACK") s1 = (Ok r, s2) else s2 = s1.

(** The SQLSTATE of a query whose connection was lost, from the report of the
    failover. *)
Definition lost_state (in_trans : bool) (r : report) : str :=
  if r.1.1 && in_trans then S!"08007"
  else if decide (r.1.2 = S!"08007") then S!"08007" else if decide (r.1.2 = S!"08S02") then S!"08S02" else S!"08S01".

(** From the state [s1] in which the loss was noticed: rollback, failover if it
    is enabled, and no transaction any more.  Whether a transaction was in
    progress is asked once more, after the rollback. *)
Definition lost_outcome (s s1 : fstate) (out : res Z * fstate) : Prop :=
  ∃ s2, rolled_back (set_dbc (with_error (Some (S!"HY000")) (f_dbc s1)) s1) s2 ∧
  if is_failover_enabled s then
    ∃ s3, failover_entry s2 s3 ∧
    match (if wants_reader s then failover_to_reader else failover_to_writer) s3 with
    | (Ok r, s4) => ∃ s', out = (Ok SQL_ERROR, s') ∧ transaction_open (f_dbc s') = false ∧
        dbc_error (f_dbc s') = Some (lost_state (in_transaction s2) r) ∧ f_proxies s' = f_proxies s4 ∧ f_h s' = f_h s4 ∧
        f_ds s' = with_detection (opt_ENABLE_FAILURE_DETECTION (f_ds s)) (f_ds s4)
    | (Throw e, s4) => out = (Throw e, s4)
    | (UB, s4) => out = (UB, s4)
    end
  else out = (Ok SQL_ERROR, set_dbc (with_transaction false (f_dbc s2)) s2).

(** The branch of [execute_query] for a lost connection. *)
Definition lost_branch (result : Z) : M fstate Z :=
  px ← current_proxy;
  open ← gets (λ s, transaction_open (f_dbc s));
  (if (negb (px_autocommit px) && px_transactions px) || open then real_query "ROLLBACK";; mret tt else mret tt);;
  r ← trigger_failover_if_needed (Some (S!"08S01"));
  let '(triggered, code, _) := r in
  result' ← (if triggered : bool then
               code' ← deref code;
               if decide (code' = S!"08007") then set_error "08007"
               else if decide (code' = S!"08S02") then set_error "08S02" else set_error "08S01"
             else mret result);
  modify_dbc (with_transaction false);;
  mret result'.

Lemma rollback_run s px :
  failover_ready s → current_proxy s = (Ok px, s) →
  ∃ s2, kept s s2 ∧ rolled_back s s2 ∧
    ((if (negb (px_autocommit px) && px_transactions px) || transaction_open (f_dbc s) then real_query "ROLLBACK";; mret tt else mret tt) : M fstate unit) s = (Ok tt, s2).
Proof.
  intros Hr Hpx. destruct (ready_proxy s Hr) as (p & px0 & Hp & Hx & E). rewrite Hpx in E. injection E as <-.
  unfold rolled_back, needs_rollback. rewrite Hp. simpl. rewrite Hx.
  destruct ((negb (px_autocommit px) && px_transactions px) || transaction_open (f_dbc s)).
  - destruct (real_query_frame (S!"ROLLBACK") s) as (r & s2 & E & Hf). exists s2.
    split; [exact (server_frame_kept _ _ Hf)|]. split; [by exists r|]. exact (bind_Ok _ _ _ _ _ E).
  - by exists s.
Qed.

Lemma lost_branch_run s s1 :
  kept s s1 → failover_ready s → lost_outcome s s1 (lost_branch SQL_ERROR (set_dbc (with_error (Some (S!"HY000")) (f_dbc s1)) s1)).
Proof.
  intros Hk Hr. set (s1' := set_dbc _ s1). assert (kept s s1') as Hk' by (etrans; [exact Hk|apply kept_error]).
  destruct (kept_ready s s1' Hk' Hr) as (Hr1 & _). destruct (ready_proxy s1' Hr1) as (p & px & _ & _ & Epx).
  destruct (rollback_run s1' px Hr1 Epx) as (s2 & Hk2' & Hroll & E2). exists s2. split; [exact Hroll|].
  assert (kept s s2) as Hk2 by (by etrans). destruct (kept_ready s s2 Hk2 Hr) as (Hr2 & Hen & Hwr).
  unfold lost_branch. rewrite (bind_Ok _ _ _ _ _ Epx), gets_bind, (bind_Ok _ _ _ _ _ E2).
  pose proof (trigger_failover_run s2 (S!"08S01") Hr2) as Ht. rewrite Hen, Hwr in Ht. change (starts_with "08" (S!"08S01")) with true in Ht.
  rewrite andb_true_r in Ht. destruct (is_failover_enabled s); [|by rewrite (bind_Ok _ _ _ _ _ Ht)].
  destruct Ht as (s3 & Hentry & Ht). exists s3. split; [exact Hentry|].
  destruct ((if wants_reader s then failover_to_reader else failover_to_writer) s3) as [[[[ok code] msg]|e|] s4].
  - destruct Ht as (s5 & Et & Eh & Ed & Ex & Eds). rewrite (bind_Ok _ _ _ _ _ Et).
    assert (opt_ENABLE_FAILURE_DETECTION (f_ds s2) = opt_ENABLE_FAILURE_DETECTION (f_ds s)) as Hdet by (by destruct Hk2 as (_ & -> & _)).
    rewrite Hdet in Eds. unfold reported, lost_state. cbn [fst snd].
    destruct (ok && in_transaction s2); cbv beta iota; cbn [deref]; rewrite bind_assoc, ret_bind.
    + destruct (decide (S!"08007" = S!"08007")); [|done]. rewrite (bind_Ok _ _ _ _ _ (set_error_run _ _)), modify_dbc_bind. by eexists.
    + destruct (decide (code = S!"08007")); [|destruct (decide (code = S!"08S02"))];
        rewrite (bind_Ok _ _ _ _ _ (set_error_run _ _)), modify_dbc_bind; by eexists.
  - destruct Ht as [Et _]. unfold mbind, M_bind. by rewrite Et.
  - unfold mbind, M_bind. by rewrite Ht.
Qed.

(** The whole of [execute_query], with what the server has kept. *)
Lemma execute_query_run q s :
  failover_ready s →
  ∃ px, current_proxy s = (Ok px, s) ∧
  if negb (px_connected px) then execute_query q s = (Ok SQL_ERROR, set_dbc (with_error (Some (S!"08S01")) (f_dbc s)) s)
  else ∃ alive s0, is_server_alive s = (Ok alive, s0) ∧
    if alive : bool then
      ∃ r s1, real_query q s0 = (Ok r, s1) ∧
      if r =? 0 then execute_query q s = (Ok SQL_SUCCESS, s1) ∧ kept s s1
      else if negb (is_connection_lost (error_code s1))
      then execute_query q s = (Ok SQL_ERROR, set_dbc (with_error (Some (S!"HY000")) (f_dbc s1)) s1) ∧ kept s s1
      else lost_outcome s s1 (execute_query q s)
    else lost_outcome s s0 (execute_query q s).
Proof.
  intros Hr. destruct (ready_proxy s Hr) as (p & px & Hp & Hx & Epx). exists px. split; [exact Epx|].
  unfold execute_query. rewrite (bind_Ok _ _ _ _ _ Epx). destruct (px_connected px); [|exact (set_error_run _ s)]. cbn [negb].
  destruct (is_server_alive_run s) as (alive & s0 & Ealive & Hk0). exists alive, s0. split; [exact Ealive|].
  rewrite (bind_Ok _ _ _ _ _ Ealive). destruct alive.
  - destruct (real_query_frame q s0) as (r & s1 & Eq & Hf). exists r, s1. split; [exact Eq|].
    assert (kept s s1) as Hk1 by (etrans; [exact Hk0|exact (server_frame_kept _ _ Hf)]).
    rewrite bind_assoc, (bind_Ok _ _ _ _ _ Eq), ret_bind. destruct (r =? 0); [done|]. cbn [negb].
    rewrite gets_bind, (bind_Ok _ _ _ _ _ (set_error_run (S!"HY000") s1)). cbn [orb].
    destruct (is_connection_lost (error_code s1)); [|done]. cbn [negb]. exact (lost_branch_run s s1 Hk1 Hr).
  - rewrite ret_bind. cbn [negb]. rewrite gets_bind, (bind_Ok _ _ _ _ _ (set_error_run (S!"HY000") s0)). cbn [orb].
    exact (lost_branch_run s s0 Hk0 Hr).
Qed.

(** C6: A query on a connection that is marked as lost is refused with 08S01.  A
    query that the server answers leaves the driver as it is; an error that is
    no loss is reported as HY000, and nothing is failed over.  If the server is
    not alive, or the error says that the connection is lost, ROLLBACK is sent on
    the old connection when the driver saw a transaction begin or the status of
    a server with transactions at that moment says that autocommit is off, then the failover
    of the handler runs once, if it is enabled: the query fails with 08007 when
    the failover succeeded and, as the connection stood after the ROLLBACK, a
    transaction was in progress, with 08S02 when it succeeded without one, and
    with 08S01 when it failed; there is no transaction any more and failure
    detection is as it was.  The server may answer anything, and change the
    status, autocommit included, with every query.  Without failover
    the error is HY000.  If the failover throws, so does the query, and failure
    detection stays off. *)
Theorem execute_query_spec q s :
  failover_ready s →
  ∃ px, current_proxy s = (Ok px, s) ∧
  if negb (px_connected px) then execute_query q s = (Ok SQL_ERROR, set_dbc (with_error (Some (S!"08S01")) (f_dbc s)) s)
  else ∃ alive s0, is_server_alive s = (Ok alive, s0) ∧
    if alive : bool then
      ∃ r s1, real_query q s0 = (Ok r, s1) ∧
      if r =? 0 then execute_query q s = (Ok SQL_SUCCESS, s1)
      else if negb (is_connection_lost (error_code s1))
      then execute_query q s = (Ok SQL_ERROR, set_dbc (with_error (Some (S!"HY000")) (f_dbc s1)) s1)
      else lost_outcome s s1 (execute_query q s)
    else lost_outcome s s0 (execute_query q s).
Proof.
  intros Hr. destruct (execute_query_run q s Hr) as (px & Epx & H). exists px. split; [exact Epx|].
  destruct (negb (px_connected px)); [exact H|]. destruct H as (alive & s0 & Ealive & H). exists alive, s0. split; [exact Ealive|].
  destruct alive; [|exact H]. destruct H as (r & s1 & Eq & H). exists r, s1. split; [exact Eq|].
  destruct (r =? 0); [apply H|]. destruct (negb (is_connection_lost (error_code s1))); [apply H|exact H].
Qed.

Lemma lost_closed s s1 rc s' : lost_outcome s s1 (Ok rc, s') → rc = SQL_ERROR ∧ transaction_open (f_dbc s') = false.
Proof.
  intros (s2 & _ & H). destruct (is_failover_enabled s); [|by injection H as -> ->]. destruct H as (s3 & _ & H).
  destruct ((if wants_reader s then failover_to_reader else failover_to_writer) s3) as [[r|e|] s4]; [|done..].
  destruct H as (s5 & [= -> ->] & Ht & _). done.
Qed.

(** A query either succeeds and keeps the transaction, or fails and keeps it or
    ends it. *)
Lemma execute_query_flag q s rc s' :
  failover_ready s → execute_query q s = (Ok rc, s') →
  (rc = SQL_SUCCESS ∧ transaction_open (f_dbc s') = transaction_open (f_dbc s)) ∨
  (rc = SQL_ERROR ∧ (transaction_open (f_dbc s') = transaction_open (f_dbc s) ∨ transaction_open (f_dbc s') = false)).
Proof.
  intros Hr E. destruct (execute_query_run q s Hr) as (px & _ & H).
  destruct (px_connected px); cbn [negb] in H; [|rewrite E in H; injection H as -> ->; right; split; [done|by left]].
  destruct H as (alive & s0 & _ & H). destruct alive; [|rewrite E in H; apply lost_closed in H as [-> ->]; right; split; [done|by right]].
  destruct H as (r & s1 & _ & H). destruct (r =? 0).
  - destruct H as [H Hk]. rewrite E in H. injection H as -> ->. left. split; [done|apply Hk].
  - destruct (is_connection_lost (error_code s1)); cbn [negb] in H.
    + rewrite E in H. apply lost_closed in H as [-> ->]. right. split; [done|by right].
    + destruct H as [H Hk]. rewrite E in H. injection H as -> ->. right. split; [done|]. left. apply Hk.
Qed.

(** C7: After a statement was executed directly with success, a transaction is open
    if the last statement of the query that starts or ends one starts one, and as
    before if there is none; after a failure it is as before, or closed by the
    loss of the connection.  A commit that succeeds closes it.  Ending the
    transactions of an environment always succeeds, whatever its connections
    report. *)
Theorem transaction_spec q s :
  failover_ready s →
  (∀ rc b s', execute_direct q s = (Ok (rc, b), s') →
     b = (rc =? SQL_SUCCESS) ∧
     if b : bool then transaction_open (f_dbc s') = update_transaction (split_statements None [] q) (transaction_open (f_dbc s))
     else transaction_open (f_dbc s') = transaction_open (f_dbc s) ∨ transaction_open (f_dbc s') = false) ∧
  (∀ rc s', my_transact false SQL_COMMIT s = (Ok rc, s') →
     if rc =? SQL_SUCCESS then transaction_open (f_dbc s') = false
     else transaction_open (f_dbc s') = transaction_open (f_dbc s) ∨ transaction_open (f_dbc s') = false) ∧
  (∀ completion conn_list rc conn_list', end_transaction_env completion conn_list = (Ok rc, conn_list') → rc = SQL_SUCCESS).
Proof.
  intros Hr. split; [|split].
  - intros rc b s' H. apply bind_inv_Ok in H as (rc0 & s1 & E & H).
    destruct (execute_query_flag q s rc0 s1 Hr E) as [[-> Ht]|[-> Ht]].
    + change (sql_succeeded SQL_SUCCESS) with true in H. cbv iota in H. rewrite parse_is_split in H. cbn [deref] in H.
      rewrite ret_bind, modify_dbc_bind in H. injection H as <- <- <-. split; [done|]. cbn. by rewrite Ht.
    + change (sql_succeeded SQL_ERROR) with false in H. injection H as <- <- <-. done.
  - intros rc s' H. unfold my_transact in H. apply bind_inv_Ok in H as (rc0 & s1 & E & H).
    destruct (execute_query_flag (S!"COMMIT") s rc0 s1 Hr E) as [[-> Ht]|[-> Ht]].
    + change (sql_succeeded SQL_SUCCESS) with true in H. cbv iota in H. rewrite modify_dbc_bind in H. by injection H as <- <-.
    + change (sql_succeeded SQL_ERROR) with false in H. cbv iota in H. rewrite ret_bind in H. by injection H as <- <-.
  - intros completion l. induction l as [|[nt dbc] l IH]; intros rc l'; cbn [end_transaction_env]; [by intros [= <- _]|].
    destruct (my_transact nt completion dbc) as [[r|e|] dbc']; [|done..]. specialize (IH rc). destruct (end_transaction_env completion l) as [r' l''].
    intros [= -> _]. by eapply IH.
Qed.
End Transactions.

(** ** Examples *)

(** A server that loses the connection with a query, and one that answers. *)
Definition ex_lost_server : Server := {|
  ER_CLIENT_INTERACTION_TIMEOUT := 4031; ping s := (Ok 1, s); real_query q s := (Ok 1, s); error_code s := 2013 |}.

#[export] Instance ex_lost_server_laws : @ServerLaws ex_lost_server.
Proof.
  split; intros; (exists 1, s; split; [done|]); by do 4 (split; [done|]).
Qed.

Definition ex_lost_state : fstate :=
  let s := ex_state allow_all (Some FAILOVER_MODE_READER_OR_WRITER) in
  FState (f_h s) (f_ds s) (with_transaction true (f_dbc s)) {[1%positive := ex_px true]} (f_world s).

(** A query in a transaction whose connection is lost: the failover succeeds, the
    query fails with 08007, and the transaction is gone. *)
Lemma execute_query_spec_witness :
  let run := @execute_query ex_procedures ex_lost_server (S!"select 1") ex_lost_state in
  (∃ px, current_proxy ex_lost_state = (Ok px, ex_lost_state) ∧ px_connected px = true) ∧
  run.1 = Ok (-1) ∧ dbc_error (f_dbc run.2) = Some (S!"08007") ∧ transaction_open (f_dbc run.2) = false ∧
  @lost_outcome ex_procedures ex_lost_server ex_lost_state (@is_server_alive ex_lost_server ex_lost_state).2 run.
Proof.
  assert (failover_ready ex_lost_state) as Hr.
  { split; [by exists 1%positive, (ex_px true)|]. split; [by eexists|by exists ex_topology]. }
  destruct (@execute_query_spec ex_procedures ex_lost_server ex_procedure_laws ex_lost_server_laws (S!"select 1") ex_lost_state Hr) as (px & Epx & H).
  assert (px = ex_px true) as -> by (vm_compute in Epx; by injection Epx).
  split; [exists (ex_px true); split; [exact Epx|done]|]. cbn [px_connected ex_px negb] in H. destruct H as (alive & s0 & Ealive & H).
  split; [vm_compute; reflexivity|]. split; [vm_compute; reflexivity|]. split; [vm_compute; reflexivity|]. cbv zeta.
  rewrite Ealive. cbn [snd]. destruct alive; [|exact H]. destruct H as (r & s1 & Eq & H). injection Eq as <- <-. exact H.
Defined.

(** A commit that fails with its connection, as the connection sees it and as the
    environment does. *)
Lemma transaction_spec_witness :
  let commit := @my_transact ex_procedures ex_lost_server false SQL_COMMIT ex_lost_state in
  commit.1 = Ok (-1) ∧ transaction_open (f_dbc commit.2) = false ∧
  (@end_transaction_env ex_procedures ex_lost_server SQL_COMMIT [(false, ex_lost_state)]).1 = Ok 0 ∧
  (∀ rc l, @end_transaction_env ex_procedures ex_lost_server SQL_COMMIT [(false, ex_lost_state)] = (Ok rc, l) → rc = 0).
Proof.
  assert (failover_ready ex_lost_state) as Hr.
  { split; [by exists 1%positive, (ex_px true)|]. split; [by eexists|by exists ex_topology]. }
  destruct (@transaction_spec ex_procedures ex_lost_server ex_procedure_laws ex_lost_server_laws (S!"x") ex_lost_state Hr) as (_ & _ & H).
  cbv zeta. split; [vm_compute; reflexivity|]. split; [vm_compute; reflexivity|]. split; [vm_compute; reflexivity|].
  intros rc l. apply H.
Defined.
