(* ===== verification/Parse.v ===== *)
(** The tokenizer of SQL text (src/driver/parse.cc, src/driver/parse.h): where
    the words and the parameter markers of a query are, whether it is wrapped in
    braces, and of which type it is.

    The query is the list of its bytes, a pointer into it is an offset.  The
    character set is an interface: for the bytes from a position on, the class
    of the character there and how many bytes it has. *)

From stdpp Require Import sorting.
From S2P Require Import Prelude CppString.

(** [cs->cset->ctype]: the bits of the class and the number of bytes, which is
    negated for a character that is not complete and 0 for none. *)
Class Charset := cs_ctype : list ascii → Z * Z.

(** ** Syntax *)

(** [src/driver/parse.h:46-62] QUERY_TYPE_ENUM *)
Inductive query_type_enum :=
  | myqtSelect | myqtInsert | myqtUpdate | myqtCall | myqtShow | myqtUse | myqtCreateTable | myqtCreateProc
  | myqtCreateFunc | myqtDropProc | myqtDropFunc | myqtOptimize | myqtOther.

#[export] Instance query_type_eq_dec : EqDecision query_type_enum.
Proof. solve_decision. Defined.

(** [src/driver/parse.h:64-72] QUERY_TYPE_RESOLVING *)
Inductive query_type_resolving :=
  Rule (keyword : str) (pos_from pos_thru : nat) (rule_type : query_type_enum) (and_rule or_rule : option query_type_resolving).

(** [src/driver/parse.cc:38-53] query_types_array

    Whether a query of the type returns rows. *)
Definition returns_rs (t : query_type_enum) : bool :=
  match t with myqtSelect | myqtCall | myqtShow => true | _ => false end.

(** [src/driver/parse.cc:78-107] ansi_syntax_markers

    On systems other than Windows. *)
Definition quotes : list str := [S!"'"; [Ascii.ascii_of_nat 34]; S!"`"].
Definition query_sep : list str := [S!";"; S!"\g"].
Definition escape_marker : str := S!"\".
Definition odbc_escape_open : ascii := "{"%char.
Definition odbc_escape_close : ascii := "}"%char.
Definition param_marker : str := S!"?".
Definition hash_comment_start : str := S!"#".
Definition dash_comment_start : str := S!"-- ".
Definition c_style_open_comment : str := S!"/*".
Definition c_style_close_comment : str := S!"*/".
Definition c_var_open_comment : str := S!"/*!".
Definition new_line_end : str := [Ascii.ascii_of_nat 10].

(** [src/driver/parse.cc:109-118] func_rule, proc_rule, drop_func_rule, drop_proc_rule, crt_table_rule *)
Definition func_rule := Rule (S!"FUNCTION") 1 4 myqtCreateFunc None None.
Definition proc_rule := Rule (S!"PROCEDURE") 1 4 myqtCreateProc None (Some func_rule).
Definition drop_func_rule := Rule (S!"FUNCTION") 1 4 myqtDropFunc None None.
Definition drop_proc_rule := Rule (S!"PROCEDURE") 1 4 myqtDropProc None (Some drop_func_rule).
Definition crt_table_rule := Rule (S!"TABLE") 1 2 myqtCreateTable None (Some proc_rule).

(** [src/driver/parse.cc:121-133] rule *)
Definition rules : list query_type_resolving :=
  [Rule (S!"SELECT") 0 0 myqtSelect None None; Rule (S!"CALL") 0 0 myqtCall None None;
   Rule (S!"INSERT") 0 0 myqtInsert None None; Rule (S!"UPDATE") 0 0 myqtUpdate None None;
   Rule (S!"SHOW") 0 0 myqtShow None None; Rule (S!"CREATE") 0 0 myqtOther (Some crt_table_rule) None;
   Rule (S!"DROP") 0 0 myqtOther (Some drop_proc_rule) None; Rule (S!"USE") 0 0 myqtUse None None;
   Rule (S!"OPTIMIZE") 0 0 myqtOptimize None None].

(** ** The parser *)

(** [src/driver/parse.h:150-176] MY_PARSED_QUERY *)
Record parsed_query := PQ {
  query : str;
  last_char : option nat;
  token2 : list nat;
  param_pos : list nat;
  query_type : query_type_enum
}.

(** [src/driver/parse.h:179-191] MY_PARSER *)
Record parser := Parser {
  pos : nat;
  bytes_at_pos : nat;
  ctype : Z;
  quote : option str;
  pq : parsed_query;
  hash_comment : bool;
  dash_comment : bool;
  c_style_comment : bool
}.

Definition set_pos (n : nat) (p : parser) : parser :=
  Parser n (bytes_at_pos p) (ctype p) (quote p) (pq p) (hash_comment p) (dash_comment p) (c_style_comment p).
Definition set_class (n : nat) (c : Z) (p : parser) : parser :=
  Parser (pos p) n c (quote p) (pq p) (hash_comment p) (dash_comment p) (c_style_comment p).
Definition set_quote (q : option str) (p : parser) : parser :=
  Parser (pos p) (bytes_at_pos p) (ctype p) q (pq p) (hash_comment p) (dash_comment p) (c_style_comment p).
Definition set_pq (q : parsed_query) (p : parser) : parser :=
  Parser (pos p) (bytes_at_pos p) (ctype p) (quote p) q (hash_comment p) (dash_comment p) (c_style_comment p).
Definition set_comments (h d c : bool) (p : parser) : parser :=
  Parser (pos p) (bytes_at_pos p) (ctype p) (quote p) (pq p) h d c.

Definition with_last_char (o : option nat) (q : parsed_query) : parsed_query := PQ (query q) o (token2 q) (param_pos q) (query_type q).
Definition with_tokens (l : list nat) (q : parsed_query) : parsed_query := PQ (query q) (last_char q) l (param_pos q) (query_type q).
Definition with_params (l : list nat) (q : parsed_query) : parsed_query := PQ (query q) (last_char q) (token2 q) l (query_type q).
Definition with_type (t : query_type_enum) (q : parsed_query) : parsed_query := PQ (query q) (last_char q) (token2 q) (param_pos q) t.

(** [src/driver/parse.h:203-203] END_NOT_REACHED *)
Definition end_not_reached (p : parser) : bool := pos p <? length (query (pq p)).
(** [src/driver/parse.h:206-207] IS_SPACE, IS_SPL_CHAR *)
Definition is_space (p : parser) : bool := negb (Z.land (ctype p) 8 =? 0)%Z.
Definition is_spl_char (p : parser) : bool := negb (Z.land (ctype p) 32 =? 0)%Z.

(** [src/driver/parse.cc:222-229] get_token *)
Definition get_token (q : parsed_query) (index : nat) : option nat := token2 q !! index.
(** [src/driver/parse.cc:232-239] get_param_pos *)
Definition get_param_pos (q : parsed_query) (index : nat) : option nat := param_pos q !! index.

(** [src/driver/parse.cc:842-850] parser_compare *)
Definition parser_compare (p : parser) (s : str) : bool := starts_with s (drop (pos p) (query (pq p))).

(** [src/driver/parse.cc:853-862] case_compare

    The null pointer is less than any query; [myodbc_casecmp] tells it from a
    text. *)
Definition case_compare (q : parsed_query) (at_ : option nat) (s : str) : bool :=
  match at_ with
  | None => false
  | Some i => (length s <=? length (query q) - i) && bool_decide (toupper <$> take (length s) (drop i (query q)) = toupper <$> s)
  end.

(** [src/driver/parse.cc:259-272] get_cursor_name *)
Definition get_cursor_name (q : parsed_query) : option nat :=
  let tcount := length (token2 q) in
  if (4 <? tcount) && case_compare q (get_token q (tcount - 4)) (S!"WHERE") && case_compare q (get_token q (tcount - 3)) (S!"CURRENT")
     && case_compare q (get_token q (tcount - 2)) (S!"OF")
  then get_token q (tcount - 1) else None.

Section Parser.
Context `{Charset}.

(** [src/driver/parse.cc:277-296] get_ctype *)
Definition get_ctype (p : parser) : parser :=
  if end_not_reached p then
    let '(c, byte_count) := cs_ctype (drop (pos p) (query (pq p))) in set_class (Z.abs_nat byte_count) c p
  else set_class 0 (ctype p) p.

(** [src/driver/parse.cc:207-219] init_parser

    What the parser held before is set or not read. *)
Definition init_parser (q : parsed_query) : parser := get_ctype (Parser 0 0 0 None q false false false).

(** [src/driver/parse.cc:675-684] step_char *)
Definition step_char (p : parser) : parser :=
  let p := set_pos (pos p + (if bytes_at_pos p =? 0 then 1 else bytes_at_pos p)) p in
  if end_not_reached p then get_ctype p else p.

(** The loops take as much fuel as the query has bytes: a step takes one at
    least. *)
Fixpoint steps_while (cond : parser → bool) (fuel : nat) (p : parser) : parser :=
  match fuel with
  | O => p
  | S f => if end_not_reached p && cond p then steps_while cond f (step_char p) else p
  end.

(** [src/driver/parse.cc:511-519] skip_spaces

    Whether the end has been reached. *)
Definition skip_spaces (p : parser) : bool * parser :=
  let p := steps_while (λ p, is_space p || is_spl_char p) (length (query (pq p))) p in (negb (end_not_reached p), p).

(** Whether the comment goes on. *)
Definition in_comment (p : parser) : bool :=
  (hash_comment p && negb (parser_compare p new_line_end)) || (dash_comment p && negb (parser_compare p new_line_end)) ||
  (c_style_comment p && negb (parser_compare p c_style_close_comment)).
(** [src/driver/parse.cc:522-536] skip_comment *)
Definition skip_comment (p : parser) : parser := steps_while in_comment (length (query (pq p))) p.

(** [src/driver/parse.cc:539-553] add_token *)
Definition add_token (p : parser) : parser :=
  if end_not_reached p then set_pq (with_tokens (token2 (pq p) ++ [pos p]) (pq p)) p else p.

(** A character of as many bytes as the marker, and these bytes. *)
Definition at_marker (p : parser) (s : str) : bool :=
  (bytes_at_pos p =? length s) && bool_decide (take (bytes_at_pos p) (drop (pos p) (query (pq p))) = s).

(** [src/driver/parse.cc:556-561] is_escape *)
Definition is_escape (p : parser) : bool := at_marker p escape_marker.
(** [src/driver/parse.cc:563-578] is_quote *)
Definition is_quote (p : parser) : option str := List.find (at_marker p) quotes.
(** [src/driver/parse.cc:581-609] is_comment

    The kind of comment is remembered. *)
Definition is_comment (p : parser) : bool * parser :=
  if parser_compare p hash_comment_start then (true, set_comments true false false p)
  else if parser_compare p dash_comment_start then (true, set_comments false true false p)
  else if parser_compare p c_var_open_comment then (false, set_comments false false false p)
  else if parser_compare p c_style_open_comment then (true, set_comments false false true p)
  else (false, set_comments false false false p).
(** [src/driver/parse.cc:613-618] is_closing_quote *)
Definition is_closing_quote (p : parser) : bool := match quote p with Some q => at_marker p q | None => false end.

(** [src/driver/parse.cc:687-696] open_quote *)
Definition open_quote (p : parser) (q : option str) : bool * parser :=
  match q with Some _ => (true, set_quote q p) | None => (false, p) end.

(** [src/driver/parse.cc:622-650] find_closing_quote

    The offset of the last closing quote; behind it stands the parser. *)
Fixpoint closing_loop (fuel : nat) (p : parser) (closing : option nat) : option nat * parser :=
  match fuel with
  | O => (closing, p)
  | S f =>
    if end_not_reached p then
      if is_escape p then closing_loop f (step_char (step_char p)) closing
      else if is_closing_quote p then
        let closing := Some (pos p) in
        let p := get_ctype (step_char p) in
        if bytes_at_pos p =? 0 then (closing, p) else
        let '(opened, p) := open_quote p (is_quote p) in
        if opened then closing_loop f (step_char p) closing else (closing, p)
      else closing_loop f (step_char p) closing
    else (closing, p)
  end.
Definition find_closing_quote (p : parser) : option nat * parser := closing_loop (length (query (pq p))) p None.

(** [src/driver/parse.cc:653-659] is_param_marker *)
Definition is_param_marker (p : parser) : bool := at_marker p param_marker.
(** [src/driver/parse.cc:662-672] add_parameter *)
Definition add_parameter (p : parser) : parser := set_pq (with_params (param_pos (pq p) ++ [pos p]) (pq p)) p.

(** [src/driver/parse.cc:699-715] is_query_separator *)
Definition is_query_separator (p : parser) : option parser :=
  match List.find (parser_compare p) query_sep with
  | Some s => Some (get_ctype (set_pos (pos p + length s) p))
  | None => None
  end.

(** The rest of a round, at a character outside quotes that is no space. *)
Definition tokenize_char (p : parser) : parser :=
  match is_query_separator p with
  | Some p => add_token (skip_spaces p).2
  | None =>
    let p := set_pq (with_last_char (Some (pos p)) (pq p)) p in
    let '(opened, p) := open_quote p (is_quote p) in
    if opened then step_char (add_token p) else
    let '(comment, p) := is_comment p in
    if comment then skip_comment p
    else step_char (if is_param_marker p then add_parameter p else p)
  end.

(** One round of the loop. *)
Definition tokenize_round (p : parser) : parser :=
  match quote p with
  | Some _ =>
    let '(closing, p) := find_closing_quote p in
    set_quote None (set_pq (with_last_char closing (pq p)) p)
  | None =>
    if is_space p then
      let '(ended, p) := skip_spaces (step_char p) in
      if ended then p else tokenize_char (add_token p)
    else tokenize_char p
  end.

Fixpoint tokenize_loop (fuel : nat) (p : parser) : option parser :=
  if end_not_reached p then match fuel with O => None | S f => tokenize_loop f (tokenize_round p) end else Some p.

(** [src/driver/parse.cc:719-786] tokenize

    [None] would be a loop that does not end. *)
Definition tokenize (p : parser) : option parser :=
  tokenize_loop (length (query (pq p))) (add_token (skip_spaces p).2).

(** ** The type of a query *)

(** [src/driver/parse.cc:791-823] process_rule

    The positions looked at are those of the first of the static rules, not of
    the rule at hand. *)
Definition static_rule : query_type_resolving := hd func_rule rules.
Definition last_position (p : parser) : nat :=
  let '(Rule _ from thru _ _ _) := static_rule in
  let upto := if 0 <? thru then thru else from in
  if bool_decide (token2 (pq p) = []) then upto else upto `min` (length (token2 (pq p)) - 1).
Definition first_position : nat := let '(Rule _ from _ _ _ _) := static_rule in from.

Fixpoint process_rule (p : parser) (r : query_type_resolving) : option query_type_enum :=
  let '(Rule keyword _ _ t and_rule or_rule) := r in
  if existsb (λ i, case_compare (pq p) (get_token (pq p) i) keyword) (seq first_position (S (last_position p) - first_position)) then
    match and_rule with Some r' => process_rule p r' | None => Some t end
  else match or_rule with Some r' => process_rule p r' | None => None end.

(** [src/driver/parse.cc:826-840] detect_query_type

    [None] when no rule applies; the type of the query is then left alone. *)
Fixpoint detect_query_type (p : parser) (l : list query_type_resolving) : option query_type_enum :=
  match l with
  | [] => None
  | r :: l' => match process_rule p r with Some t => Some t | None => detect_query_type p l' end
  end.

(** [src/driver/parse.cc:888-938] remove_braces

    The class of the character is asked for at the place of the opening brace,
    where a space has just been written. *)
Definition remove_braces (p : parser) : bool * parser :=
  match token2 (pq p), last_char (pq p) with
  | token :: tokens, Some l =>
    if bool_decide (query (pq p) !! token = Some odbc_escape_open) && bool_decide (query (pq p) !! l = Some odbc_escape_close) then
      let q := pq p in
      let q := PQ (<[l := " "%char]> (<[token := " "%char]> (query q))) (last_char q) (token2 q) (param_pos q) (query_type q) in
      let p := get_ctype (set_pos token (set_pq q p)) in
      let toks := if is_space p then tokens else token :: tokens in
      let toks := if bool_decide (last toks = Some l) then removelast toks else toks in
      (true, set_pq (with_last_char None (with_tokens toks (pq p))) p)
    else (false, p)
  | _, _ => (false, p)
  end.

(** [src/driver/parse.cc:865-883] parse *)
Definition parse (q : parsed_query) : option parsed_query :=
  p ← tokenize (init_parser q);
  let p := (remove_braces p).2 in
  Some (match detect_query_type p rules with Some t => with_type t (pq p) | None => pq p end).

(** [src/driver/parse.cc:147-176] reset

    A new query, with the defaults of the constructor. *)
Definition reset_query (text : str) : parsed_query := PQ text None [] [] myqtOther.
End Parser.

(** ** Where the parser stands *)

Section Positions.
Context `{Charset}.

(** Moving does not change what has been found. *)
Definition moved (p p' : parser) : Prop := pq p' = pq p ∧ pos p ≤ pos p'.

#[export] Instance moved_preorder : PreOrder moved.
Proof.
  split; [done|]. intros p1 p2 p3 [E1 H1] [E2 H2]. split; [congruence|lia].
Qed.

Lemma end_not_reached_spec p : end_not_reached p = true ↔ pos p < length (query (pq p)).
Proof. apply Nat.ltb_lt. Qed.

Lemma get_ctype_moved p : pq (get_ctype p) = pq p ∧ pos (get_ctype p) = pos p ∧ quote (get_ctype p) = quote p.
Proof. unfold get_ctype. destruct (end_not_reached p); [|done]. by destruct (cs_ctype _). Qed.

(** A step takes the character there, or a byte. *)
Definition width (p : parser) : nat := if bytes_at_pos p =? 0 then 1 else bytes_at_pos p.

Lemma step_char_pos p : pq (step_char p) = pq p ∧ pos (step_char p) = pos p + width p ∧ quote (step_char p) = quote p.
Proof.
  unfold step_char. destruct (end_not_reached _); [|done].
  destruct (get_ctype_moved (set_pos (pos p + width p) p)) as (E1 & E2 & E3). done.
Qed.

Lemma width_pos p : 0 < width p.
Proof. unfold width. destruct (Nat.eqb_spec (bytes_at_pos p) 0); lia. Qed.

Lemma step_char_moved p : moved p (step_char p) ∧ pos p < pos (step_char p).
Proof. destruct (step_char_pos p) as (E1 & E2 & _). pose proof (width_pos p). unfold moved. split; [split; [done|]|]; lia. Qed.

Lemma steps_while_moved cond f p :
  moved p (steps_while cond f p) ∧ quote (steps_while cond f p) = quote p ∧
  (length (query (pq p)) ≤ pos p + f → end_not_reached (steps_while cond f p) = true → cond (steps_while cond f p) = false).
Proof.
  revert p. induction f as [|f IH]; intros p; simpl.
  - split; [done|]. split; [done|]. intros Hf He%end_not_reached_spec. lia.
  - destruct (end_not_reached p) eqn:He; simpl; [|split; [done|]; split; [done|]; intros _ E; congruence].
    destruct (cond p) eqn:Hc; [|done].
    destruct (step_char_pos p) as (E1 & E2 & E3), (step_char_moved p) as [Hm Hlt].
    destruct (IH (step_char p)) as (Hmv & Hq & Hend). split; [by transitivity (step_char p)|]. split; [congruence|].
    intros Hf. apply Hend. rewrite E1. lia.
Qed.

Lemma steps_while_strict cond f p :
  end_not_reached p = true → cond p = true → pos p < pos (steps_while cond (S f) p).
Proof.
  intros He Hc. cbn [steps_while]. rewrite He, Hc. simpl.
  destruct (steps_while_moved cond f (step_char p)) as [[_ Hm] _]. destruct (step_char_moved p) as [_ Hs]. lia.
Qed.

Lemma skip_spaces_moved p : moved p (skip_spaces p).2 ∧ quote (skip_spaces p).2 = quote p ∧ (skip_spaces p).1 = negb (end_not_reached (skip_spaces p).2).
Proof. unfold skip_spaces. simpl. edestruct steps_while_moved as (Hm & Hq & _). done. Qed.

(** ** What has been found lies in the query *)

(** The tokens are in order, the markers are in strict order and are question
    marks. *)
Record found_in (text : str) (at_ : nat) (q : parsed_query) : Prop := {
  found_query : query q = text;
  found_tokens : StronglySorted le (token2 q);
  found_tokens_in : ∀ i, i ∈ token2 q → i ≤ at_ ∧ i < length text;
  found_params : StronglySorted lt (param_pos q);
  found_params_in : ∀ i, i ∈ param_pos q → i < at_ ∧ text !! i = Some "?"%char;
  found_last : ∀ l, last_char q = Some l → l < length text;
  found_type : query_type q = myqtOther
}.

Lemma StronglySorted_snoc {A} (R : A → A → Prop) l x : StronglySorted R l → (∀ y, y ∈ l → R y x) → StronglySorted R (l ++ [x]).
Proof.
  induction 1 as [|y l Hl IH Hy]; intros Hx; simpl; [by repeat constructor|].
  constructor; [apply IH; intros z Hz; apply Hx; by right|].
  apply Forall_app. split; [done|]. constructor; [|done]. apply Hx. by left.
Qed.

Lemma found_in_later text i j q : found_in text i q → i ≤ j → found_in text j q.
Proof.
  intros [] Hij. split; [done|done| |done| |done|done].
  - intros k Hk. destruct (found_tokens_in0 k Hk). lia.
  - intros k Hk. destruct (found_params_in0 k Hk). split; [lia|done].
Qed.

Lemma found_in_moved text p p' : found_in text (pos p) (pq p) → moved p p' → found_in text (pos p') (pq p').
Proof. intros Hf [E Hle]. rewrite E. by eapply found_in_later. Qed.

Lemma found_in_token text p : found_in text (pos p) (pq p) → found_in text (pos p) (pq (add_token p)) ∧ pos (add_token p) = pos p ∧ quote (add_token p) = quote p ∧ query (pq (add_token p)) = query (pq p) ∧ bytes_at_pos (add_token p) = bytes_at_pos p.
Proof.
  intros Hf. unfold add_token. destruct (end_not_reached p) eqn:He; [|done]. split_and!; [|done..].
  apply end_not_reached_spec in He. destruct Hf as [Hq Ht Hti Hp Hpi Hl Hqt]. rewrite Hq in He.
  split; simpl; [done| | |done..].
  - apply StronglySorted_snoc; [done|]. intros y Hy. by apply Hti.
  - intros i [Hi|Hi%list_elem_of_singleton]%elem_of_app; [by apply Hti|]. subst i. lia.
Qed.

Lemma at_marker_width p s : at_marker p s = true → s ≠ [] → width p = length s ∧ take (length s) (drop (pos p) (query (pq p))) = s.
Proof.
  unfold at_marker. intros [Hn%Nat.eqb_eq Hs%bool_decide_eq_true]%andb_prop Hne. rewrite Hn in Hs. split; [|done].
  unfold width. rewrite Hn. destruct s; done.
Qed.

Lemma at_marker_lookup p c : at_marker p [c] = true → query (pq p) !! pos p = Some c.
Proof.
  intros Hm. destruct (at_marker_width p [c]) as [_ Ht]; [done..|]. simpl in Ht.
  destruct (drop (pos p) (query (pq p))) as [|d l] eqn:Ed; [done|]. simpl in Ht. simplify_eq.
  apply (f_equal (λ l, l !! 0)) in Ed. rewrite lookup_drop in Ed. simpl in Ed. by rewrite Nat.add_0_r in Ed.
Qed.

(** A parameter is added where the character is a question mark; a step
    follows. *)
Lemma found_in_parameter text p :
  found_in text (pos p) (pq p) → is_param_marker p = true → found_in text (pos p + width p) (pq (add_parameter p)).
Proof.
  intros Hf Hm. pose proof (at_marker_lookup p _ Hm) as Hc. pose proof (width_pos p).
  eapply found_in_later in Hf as [Hq Ht Hti Hp Hpi Hl Hqt]; [|done]. rewrite Hq in Hc.
  split; simpl; [done|done| | | |done|done].
  - intros i Hi. destruct (Hti i Hi). lia.
  - apply StronglySorted_snoc; [done|]. intros y Hy. destruct (Hpi y Hy). lia.
  - intros i [Hi|Hi%list_elem_of_singleton]%elem_of_app; [destruct (Hpi i Hi); split; [lia|done]|]. subst i. split; [lia|done].
Qed.

Lemma found_in_last text i q o : found_in text i q → (∀ l, o = Some l → l < length text) → found_in text i (with_last_char o q).
Proof. by intros [] Ho. Qed.

Lemma closing_loop_moved f p c :
  let r := closing_loop f p c in
  moved p r.2 ∧ (∀ l, r.1 = Some l → c = Some l ∨ l < length (query (pq p))).
Proof.
  revert p c. induction f as [|f IH]; intros p c; cbn [closing_loop]; [split; [done|by left]|].
  destruct (end_not_reached p) eqn:He; [|split; [done|by left]].
  assert (∀ p' c', moved p p' → (∀ l, c' = Some l → c = Some l ∨ l < length (query (pq p))) →
    let r := closing_loop f p' c' in moved p r.2 ∧ (∀ l, r.1 = Some l → c = Some l ∨ l < length (query (pq p)))) as Hrec.
  { intros p' c' Hm Hc. destruct (IH p' c') as [Hm' Hl']. split; [by transitivity p'|].
    intros l Hl. destruct (Hl' l Hl) as [->|Hlt]; [by apply Hc|]. right. by destruct Hm as [<- _]. }
  destruct (step_char_moved p) as [Hs _].
  destruct (is_escape p).
  { apply Hrec; [|by left]. etransitivity; [exact Hs|]. apply step_char_moved. }
  destruct (is_closing_quote p); [|by apply Hrec; [|left]].
  set (p1 := get_ctype (step_char p)).
  assert (moved p p1) as H1. { destruct (get_ctype_moved (step_char p)) as (E & E' & _). unfold moved, p1. rewrite E, E'. apply Hs. }
  assert (∀ l, Some (pos p) = Some l → c = Some l ∨ l < length (query (pq p))) as Hc.
  { intros l [= <-]. right. by apply end_not_reached_spec. }
  destruct (bytes_at_pos p1 =? 0); [done|].
  unfold open_quote. destruct (is_quote p1) as [q|]; [|done].
  apply Hrec; [|done]. etransitivity; [exact H1|]. etransitivity; [|apply step_char_moved]. done.
Qed.

Lemma closing_loop_strict f p c : end_not_reached p = true → pos p < pos (closing_loop (S f) p c).2.
Proof.
  intros He. cbn [closing_loop]. rewrite He. destruct (step_char_moved p) as [Hs Hlt].
  assert (∀ p' c', pos p < pos p' → pos p < pos (closing_loop f p' c').2) as Hrec.
  { intros p' c' Hp. destruct (closing_loop_moved f p' c') as [[_ Hm] _]. lia. }
  destruct (is_escape p). { apply Hrec. destruct (step_char_moved (step_char p)) as [_ H2]. lia. }
  destruct (is_closing_quote p); [|by apply Hrec].
  set (p1 := get_ctype (step_char p)).
  assert (pos p < pos p1) as H1. { unfold p1. destruct (get_ctype_moved (step_char p)) as (_ & E' & _). lia. }
  destruct (bytes_at_pos p1 =? 0); [done|].
  unfold open_quote. destruct (is_quote p1) as [q|]; [|done].
  apply Hrec. destruct (step_char_moved (set_quote (Some q) p1)) as [_ H2]. simpl in H2. lia.
Qed.

Lemma is_query_separator_moved p p' :
  is_query_separator p = Some p' → moved p p' ∧ pos p < pos p' ∧ quote p' = quote p.
Proof.
  unfold is_query_separator. destruct (List.find _ query_sep) as [s|] eqn:Es; [|done]. intros [= <-].
  apply List.find_some in Es as [Hin _].
  assert (0 < length s) as Hs by (destruct Hin as [<-|[<-|[]]]; simpl; lia).
  destruct (get_ctype_moved (set_pos (pos p + length s) p)) as (E1 & E2 & E3). simpl in *.
  unfold moved. rewrite E1, E2, E3. split; [split; [done|lia]|]. split; [lia|done].
Qed.

(** An opened comment is a change of the marks alone, and does not end at
    once. *)
Lemma is_comment_opened p p' :
  is_comment p = (true, p') →
  ∃ h d c, p' = set_comments h d c p ∧ in_comment p' = true.
Proof.
  unfold is_comment, in_comment, parser_compare.
  destruct (drop (pos p) (query (pq p))) as [|c l] eqn:Ed; [done|].
  destruct (starts_with hash_comment_start _) eqn:E1; [intros [= <-]; eexists _, _, _; split; [done|]; simpl; rewrite Ed|].
  { apply starts_with_spec in E1 as [t Et]. simplify_list_eq. done. }
  destruct (starts_with dash_comment_start _) eqn:E2; [intros [= <-]; eexists _, _, _; split; [done|]; simpl; rewrite Ed|].
  { apply starts_with_spec in E2 as [t Et]. simplify_list_eq. done. }
  destruct (starts_with c_var_open_comment _); [done|].
  destruct (starts_with c_style_open_comment _) eqn:E3; [intros [= <-]; eexists _, _, _; split; [done|]; simpl; rewrite Ed|done].
  apply starts_with_spec in E3 as [t Et]. simplify_list_eq. done.
Qed.

Lemma is_comment_moved p : moved p (is_comment p).2 ∧ pos (is_comment p).2 = pos p ∧ quote (is_comment p).2 = quote p ∧ bytes_at_pos (is_comment p).2 = bytes_at_pos p.
Proof. unfold is_comment. repeat case_match; done. Qed.

Lemma skip_comment_moved p : moved p (skip_comment p) ∧ quote (skip_comment p) = quote p.
Proof. unfold skip_comment. edestruct steps_while_moved as (Hm & Hq & _). done. Qed.

Lemma skip_comment_strict p : end_not_reached p = true → in_comment p = true → pos p < pos (skip_comment p).
Proof.
  intros He Hc. unfold skip_comment. pose proof He as Hlen%end_not_reached_spec.
  destruct (length (query (pq p))) as [|n]; [lia|]. by apply steps_while_strict.
Qed.

(** A round keeps what has been found in the query and goes on. *)
Definition progress text (p p' : parser) : Prop := found_in text (pos p') (pq p') ∧ pos p < pos p'.

Lemma tokenize_char_progress text p :
  found_in text (pos p) (pq p) → end_not_reached p = true → progress text p (tokenize_char p).
Proof.
  intros Hf He. unfold tokenize_char. destruct (is_query_separator p) as [p1|] eqn:Es.
  - apply is_query_separator_moved in Es as (Hm & Hlt & _). destruct (skip_spaces_moved p1) as [Hm' _].
    assert (moved p (skip_spaces p1).2) as Hm2 by (by transitivity p1).
    destruct (found_in_token text (skip_spaces p1).2) as (Hf2 & E2 & _); [by eapply found_in_moved|].
    split; [by rewrite E2|]. rewrite E2. destruct Hm'. lia.
  - clear Es. apply end_not_reached_spec in He as Hlt.
    set (p1 := set_pq (with_last_char (Some (pos p)) (pq p)) p).
    assert (found_in text (pos p1) (pq p1)) as Hf1.
    { apply found_in_last; [done|]. intros l [= <-]. destruct Hf as [E _ _ _ _ _ _]. by rewrite <- E. }
    assert (∀ p2, found_in text (pos p2 + width p2) (pq p2) → pos p ≤ pos p2 → progress text p (step_char p2)) as Hstep.
    { intros p2 Hp2 Hle. destruct (step_char_pos p2) as (E1 & E2 & _). split; [by rewrite E1, E2|]. rewrite E2. pose proof (width_pos p2). lia. }
    unfold open_quote. destruct (is_quote p1) as [q|].
    + destruct (found_in_token text (set_quote (Some q) p1)) as (Hf2 & E2 & _); [done|].
      apply Hstep; [|rewrite E2; simpl; lia]. eapply found_in_later; [exact Hf2|]. rewrite E2. lia.
    + destruct (is_comment_moved p1) as (Hm & E & _ & _). destruct (is_comment p1) as [comment p2] eqn:Ec. simpl in Hm, E.
      assert (found_in text (pos p2) (pq p2)) as Hf2 by (by eapply found_in_moved).
      assert (pos p2 = pos p) as Ep by done. destruct comment.
      * apply is_comment_opened in Ec as (h & d & c & -> & Hin).
        destruct (skip_comment_moved (set_comments h d c p1)) as [Hm' _]. split; [by eapply found_in_moved|].
        apply (skip_comment_strict (set_comments h d c p1)); [|done]. by apply end_not_reached_spec.
      * destruct (is_param_marker p2) eqn:Epm; (apply Hstep; [|simpl; lia]); [exact (found_in_parameter text p2 Hf2 Epm)|].
        eapply found_in_later; [done|]. lia.
Qed.

Lemma tokenize_round_progress text p :
  found_in text (pos p) (pq p) → end_not_reached p = true → progress text p (tokenize_round p).
Proof.
  intros Hf He. unfold tokenize_round. destruct (quote p) as [q|].
  - unfold find_closing_quote. apply end_not_reached_spec in He as Hlt.
    pose proof (closing_loop_moved (length (query (pq p))) p None) as [Hm Hl].
    destruct (length (query (pq p))) as [|n] eqn:En; [lia|]. pose proof (closing_loop_strict n p None He) as Hs.
    destruct (closing_loop (S n) p None) as [closing p1]. simpl in *.
    split; [|done]. apply found_in_last; [exact (found_in_moved text p p1 Hf Hm)|].
    intros l Hcl. destruct (Hl l Hcl) as [|Hln]; [done|]. destruct Hf as [E _ _ _ _ _ _]. by rewrite <- E, En.
  - destruct (is_space p); [|by apply tokenize_char_progress].
    destruct (step_char_moved p) as [Hm Hlt]. destruct (skip_spaces_moved (step_char p)) as (Hm2 & _ & Hend).
    destruct (skip_spaces (step_char p)) as [ended p2]. simpl in *.
    assert (moved p p2) as Hm3 by (by transitivity (step_char p)).
    assert (found_in text (pos p2) (pq p2)) as Hf2 by (by eapply found_in_moved).
    assert (pos p < pos p2) as Hp2 by (destruct Hm2; lia).
    destruct ended; [done|]. symmetry in Hend. apply negb_false_iff, end_not_reached_spec in Hend.
    destruct (found_in_token text p2 Hf2) as (Hf3 & E3 & _ & E4 & _).
    destruct (tokenize_char_progress text (add_token p2)) as [Hf4 Hlt4]; [by rewrite E3|apply end_not_reached_spec; by rewrite E3, E4|].
    split; [done|]. lia.
Qed.

Lemma tokenize_loop_ends text f p :
  found_in text (pos p) (pq p) → length text ≤ pos p + f →
  ∃ p', tokenize_loop f p = Some p' ∧ found_in text (pos p') (pq p') ∧ end_not_reached p' = false.
Proof.
  revert p. induction f as [|f IH]; intros p Hf Hlen; simpl; (destruct (end_not_reached p) eqn:He; [|by exists p]).
  - apply end_not_reached_spec in He. destruct Hf as [E _ _ _ _ _ _]. rewrite E in He. lia.
  - destruct (tokenize_round_progress text p Hf He) as [Hf' Hlt]. apply IH; [done|lia].
Qed.

Lemma init_found text : found_in text (pos (init_parser (reset_query text))) (pq (init_parser (reset_query text))).
Proof.
  unfold init_parser. destruct (get_ctype_moved (Parser 0 0 0 None (reset_query text) false false false)) as (E1 & E2 & _).
  rewrite E1, E2. split; simpl; [done|constructor| |constructor| |done|done]; intros i Hi; inversion Hi.
Qed.

Lemma tokenize_ends text :
  ∃ p', tokenize (init_parser (reset_query text)) = Some p' ∧ found_in text (pos p') (pq p') ∧ end_not_reached p' = false.
Proof.
  unfold tokenize. pose proof (init_found text) as Hf. set (p0 := init_parser (reset_query text)) in *.
  destruct (skip_spaces_moved p0) as [Hm _].
  destruct (found_in_token text (skip_spaces p0).2) as (Hf1 & E1 & _); [by eapply found_in_moved|].
  assert (query (pq p0) = text) as -> by apply Hf.
  apply tokenize_loop_ends; [by rewrite E1|lia].
Qed.

(** Removing the braces takes tokens off the ends and touches braces only. *)
Lemma removelast_app (l : list nat) : ∃ b, l = removelast l ++ b.
Proof. destruct l as [|x l]; [by exists []|]. exists [List.last (x :: l) 0]. by apply List.app_removelast_last. Qed.

Lemma remove_braces_run p :
  let q := pq p in let q' := pq (remove_braces p).2 in
  (∃ a b, token2 q = a ++ token2 q' ++ b) ∧ param_pos q' = param_pos q ∧ length (query q') = length (query q) ∧
  (last_char q' = last_char q ∨ last_char q' = None) ∧
  query_type q' = query_type q ∧
  ∀ i c, query q !! i = Some c → c ≠ odbc_escape_open → c ≠ odbc_escape_close → query q' !! i = Some c.
Proof.
  unfold remove_braces. destruct (token2 (pq p)) as [|token tokens] eqn:Et; [simpl; rewrite Et; split; [by exists [], []; rewrite ?app_nil_r|]; auto 10|].
  destruct (last_char (pq p)) as [l|] eqn:El; [|simpl; rewrite Et, El; split; [by exists [], []; rewrite ?app_nil_r|]; auto 10].
  destruct (bool_decide _ && bool_decide _) eqn:Eb; [|simpl; rewrite Et, El; split; [by exists [], []; rewrite ?app_nil_r|]; auto 10].
  apply andb_prop in Eb as [Ho%bool_decide_eq_true Hc%bool_decide_eq_true].
  match goal with |- context [get_ctype ?x] => set (p1 := x) end.
  destruct (get_ctype_moved p1) as (E1 & _ & _). simpl. rewrite E1. simpl. split_and!; [|done| |by right|done|].
  - set (toks := if is_space (get_ctype p1) then tokens else token :: tokens).
    assert (∃ a, token :: tokens = a ++ toks) as [a ->] by (unfold toks; case_match; [by exists [token]|by exists []]).
    case_bool_decide; [|by exists a, []; rewrite app_nil_r].
    destruct (removelast_app toks) as [b Hb]. exists a, b. by rewrite <- Hb.
  - by rewrite !length_insert.
  - intros i c Hi Hco Hcc. rewrite !list_lookup_insert_ne; [done| |]; intros ->; congruence.
Qed.

(** ** The type of a query *)

(** The words that decide, at the first token. *)
Definition deciding_words : list (str * query_type_enum) :=
  [(S!"SELECT", myqtSelect); (S!"CALL", myqtCall); (S!"INSERT", myqtInsert); (S!"UPDATE", myqtUpdate);
   (S!"SHOW", myqtShow); (S!"USE", myqtUse); (S!"OPTIMIZE", myqtOptimize)].
Definition first_word_type (q : parsed_query) : query_type_enum :=
  match List.find (λ '(word, _), case_compare q (get_token q 0) word) deciding_words with
  | Some (_, t) => t
  | None => myqtOther
  end.

Lemma positions_first p : seq first_position (S (last_position p) - first_position) = [0].
Proof. unfold last_position. simpl. case_bool_decide; reflexivity. Qed.

(** Two words of different first letters do not stand at one place. *)
Definition apart (s t : str) : Prop :=
  match s, t with c :: _, d :: _ => toupper c ≠ toupper d | _, _ => False end.

Lemma case_compare_apart q o s t : case_compare q o s = true → apart s t → case_compare q o t = false.
Proof.
  destruct s as [|c s], t as [|d t]; try done. unfold case_compare. destruct o as [i|]; [|done].
  intros [_ Hc%bool_decide_eq_true]%andb_prop Hcd. apply andb_false_iff. right. apply bool_decide_eq_false. intros Hd.
  destruct (drop i (query q)) as [|b l]; simpl in *; [done|]. congruence.
Qed.

Lemma process_rule_first p keyword from thru t and_rule or_rule :
  process_rule p (Rule keyword from thru t and_rule or_rule) =
  if case_compare (pq p) (get_token (pq p) 0) keyword
  then match and_rule with Some r => process_rule p r | None => Some t end
  else match or_rule with Some r => process_rule p r | None => None end.
Proof. destruct and_rule; cbn [process_rule]; rewrite positions_first; cbn [existsb]; by rewrite orb_false_r. Qed.

(** The rules that go on from CREATE and from DROP ask for another word at the
    same place. *)
Lemma create_rule_none p : process_rule p (Rule (S!"CREATE") 0 0 myqtOther (Some crt_table_rule) None) = None.
Proof.
  unfold crt_table_rule, proc_rule, func_rule. rewrite !process_rule_first. destruct (case_compare _ _ (S!"CREATE")) eqn:E; [|done].
  by rewrite (case_compare_apart _ _ _ (S!"TABLE") E), (case_compare_apart _ _ _ (S!"PROCEDURE") E), (case_compare_apart _ _ _ (S!"FUNCTION") E).
Qed.

Lemma drop_rule_none p : process_rule p (Rule (S!"DROP") 0 0 myqtOther (Some drop_proc_rule) None) = None.
Proof.
  unfold drop_proc_rule, drop_func_rule. rewrite !process_rule_first. destruct (case_compare _ _ (S!"DROP")) eqn:E; [|done].
  by rewrite (case_compare_apart _ _ _ (S!"PROCEDURE") E), (case_compare_apart _ _ _ (S!"FUNCTION") E).
Qed.

Lemma detect_first p :
  match detect_query_type p rules with Some t => t | None => myqtOther end = first_word_type (pq p).
Proof.
  unfold first_word_type, deciding_words, rules. cbn [detect_query_type List.find].
  rewrite create_rule_none, drop_rule_none, !process_rule_first.
  by repeat match goal with |- context [case_compare ?a ?b ?c] => destruct (case_compare a b c) end.
Qed.

(** What [parse] does once the query is cut into tokens. *)
Lemma parse_run text :
  ∃ p, tokenize (init_parser (reset_query text)) = Some p ∧ found_in text (pos p) (pq p) ∧
       let q := pq (remove_braces p).2 in parse (reset_query text) = Some (with_type (first_word_type q) q).
Proof.
  destruct (tokenize_ends text) as (p & Ep & Hf & _). exists p. split; [done|]. split; [done|].
  unfold parse. rewrite Ep. cbn [mbind option_bind]. rewrite <- detect_first. destruct (detect_query_type _ _) as [t|]; [done|].
  destruct (remove_braces_run p) as (_ & _ & _ & _ & Ht & _). simpl in Ht. rewrite (found_type _ _ _ Hf) in Ht.
  destruct (pq (remove_braces p).2). simpl in *. by subst.
Qed.

Lemma found_in_sublist (R : relation nat) a l b : StronglySorted R (a ++ l ++ b) → StronglySorted R l.
Proof. intros [_ [_ (_ & H2 & _)%StronglySorted_app]]%StronglySorted_app. done. Qed.

(** C33: [parse] returns for every text and every character set, and what it finds lies in the query: the query has
    the length of the text and differs from it at most where a brace was; the tokens are in order and within it, the
    parameter markers in strict order and at question marks of the text; the last character is within it. *)
Theorem parse_finds_in_range text :
  ∃ q, parse (reset_query text) = Some q ∧ length (query q) = length text ∧
    (∀ i c, text !! i = Some c → c ≠ odbc_escape_open → c ≠ odbc_escape_close → query q !! i = Some c) ∧
    StronglySorted le (token2 q) ∧ (∀ i, i ∈ token2 q → i < length text) ∧
    StronglySorted lt (param_pos q) ∧ (∀ i, i ∈ param_pos q → text !! i = Some "?"%char) ∧
    (∀ l, last_char q = Some l → l < length text).
Proof.
  destruct (parse_run text) as (p & _ & [Hq Ht Hti Hp Hpi Hl _] & ->). eexists. split; [done|].
  destruct (remove_braces_run p) as ((a & b & Et) & Epp & Elen & Elast & _ & Hkeep). simpl in *.
  rewrite Epp, Elen, Hq. split; [done|]. split; [by rewrite <- Hq|]. rewrite Et in Ht, Hti.
  split; [by eapply found_in_sublist|]. split; [intros i Hi; apply Hti; set_solver|]. split; [done|].
  split; [intros i Hi; by apply Hpi|]. intros l El. apply Hl. destruct Elast; congruence.
Qed.

(** A blank is a space in the character set. *)
Class SpaceLaw := blank_is_space : ∀ s, Z.land (cs_ctype (" "%char :: s)).1 8 ≠ 0%Z.

Lemma first_word_type_not q :
  first_word_type q ∉ [myqtCreateTable; myqtCreateProc; myqtCreateFunc; myqtDropProc; myqtDropFunc].
Proof.
  unfold first_word_type. destruct (List.find _ deciding_words) as [[w t]|] eqn:E; [|set_solver].
  apply List.find_some in E as [Hin _]. unfold deciding_words in Hin. simpl in Hin. destruct_or!; simplify_eq; set_solver.
Qed.

Lemma remove_braces_tokens `{!SpaceLaw} p :
  let q := pq p in let q' := pq (remove_braces p).2 in
  (query q', token2 q') =
  match token2 q, last_char q with
  | t :: ts, Some l =>
    if decide (query q !! t = Some "{"%char ∧ query q !! l = Some "}"%char)
    then (<[l := " "%char]> (<[t := " "%char]> (query q)), if decide (last ts = Some l) then removelast ts else ts)
    else (query q, t :: ts)
  | ts, _ => (query q, ts)
  end.
Proof.
  unfold remove_braces. simpl. destruct (token2 (pq p)) as [|t ts] eqn:Et; [simpl; by rewrite ?Et|].
  destruct (last_char (pq p)) as [l|] eqn:El; [|simpl; by rewrite ?Et].
  case_decide as Hb.
  - destruct Hb as [Ho Hc]. rewrite !bool_decide_true by done. cbn [andb].
    match goal with |- context [get_ctype ?x] => set (p1 := x) end.
    destruct (get_ctype_moved p1) as (E1 & _ & _).
    assert (is_space (get_ctype p1) = true) as ->.
    { assert (query (pq p1) !! t = Some " "%char) as Hsp.
      { unfold p1; simpl. apply lookup_lt_Some in Ho. destruct (decide (l = t)) as [->|Hne].
        - apply list_lookup_insert_eq. by rewrite length_insert.
        - rewrite list_lookup_insert_ne by done. by apply list_lookup_insert_eq. }
      unfold get_ctype. rewrite (proj2 (end_not_reached_spec p1)) by (by eapply lookup_lt_Some).
      rewrite (drop_S (query (pq p1)) _ (pos p1) Hsp). pose proof (blank_is_space (drop (S (pos p1)) (query (pq p1)))) as Hlaw.
      destruct (cs_ctype _) as [c n]. unfold is_space, set_class. simpl in *. by destruct (Z.eqb_spec (Z.land c 8) 0). }
    simpl. rewrite E1. simpl. f_equal. by rewrite decide_bool_decide.
  - rewrite <- Et. destruct (bool_decide _ && bool_decide _) eqn:E; [|done].
    apply andb_prop in E as [E1%bool_decide_eq_true E2%bool_decide_eq_true]. by destruct Hb.
Qed.

(** the type of a query is decided by the first of the tokens left when the braces are gone, by seven words; no
    query is taken for a CREATE or a DROP statement, whatever follows. Of a query in braces both braces become spaces,
    the first token is dropped, whatever stood behind the brace, and the last one when it was the closing brace. *)
Theorem query_type_spec `{!SpaceLaw} text p :
  tokenize (init_parser (reset_query text)) = Some p →
  ∃ q, parse (reset_query text) = Some q ∧ query_type q = first_word_type q ∧
       query_type q ∉ [myqtCreateTable; myqtCreateProc; myqtCreateFunc; myqtDropProc; myqtDropFunc] ∧
       (query q, token2 q) =
       match token2 (pq p), last_char (pq p) with
       | t :: ts, Some l =>
         if decide (text !! t = Some "{"%char ∧ text !! l = Some "}"%char)
         then (<[l := " "%char]> (<[t := " "%char]> text), if decide (last ts = Some l) then removelast ts else ts)
         else (text, t :: ts)
       | ts, _ => (text, ts)
       end.
Proof.
  intros Ep. destruct (parse_run text) as (p' & Ep' & Hf & ->). simplify_eq. eexists. split; [done|]. split; [done|].
  split; [by apply first_word_type_not|]. cbn [query token2 with_type]. rewrite <- (found_query _ _ _ Hf).
  by apply remove_braces_tokens.
Qed.

(** ** The parameter markers *)

Inductive mode := Outside | Quoted (mark : ascii) | InLine | InBlock.

Definition quote_chars : list ascii := ["'"%char; Ascii.ascii_of_nat 34; "`"%char].
Definition newline : ascii := Ascii.ascii_of_nat 10.

(** The reference: the positions of the markers of a text from a position and a
    mode on, byte by byte. *)
Fixpoint markers (m : mode) (i : nat) (s : str) : list nat :=
  match s with
  | [] => []
  | c :: s' =>
    match m with
    | Quoted mark =>
      if bool_decide (c = "\"%char) then match s' with [] => [] | _ :: s'' => markers m (S (S i)) s'' end
      else markers (if bool_decide (c = mark) then Outside else m) (S i) s'
    | InLine => markers (if bool_decide (c = newline) then Outside else InLine) (S i) s'
    | InBlock => markers (if starts_with c_style_close_comment s then Outside else InBlock) (S i) s'
    | Outside =>
      if bool_decide (c ∈ quote_chars) then markers (Quoted c) (S i) s'
      else if bool_decide (c = "#"%char) || starts_with dash_comment_start s then markers InLine (S i) s'
      else if starts_with c_style_open_comment s && negb (starts_with c_var_open_comment s) then markers InBlock (S i) s'
      else (if bool_decide (c = "?"%char) then [i] else []) ++ markers Outside (S i) s'
    end
  end.

(** The bytes that mean something to one of the modes. *)
Definition marks : list ascii := quote_chars ++ ["\"; "?"; "#"; "-"; "/"; "*"]%char ++ [newline].

(** The character set does not hide a mark: it is a character of one byte, no
    part of a longer one, and, but for the end of a line, neither space nor
    control. *)
Class PlainMarks (text : str) := plain_marks : ∀ i c, text !! i = Some c →
  let '(class, n) := cs_ctype (drop i text) in
  (c ∈ marks → Z.abs_nat n = 1 ∧ (c ≠ newline → Z.land class 8 = 0 ∧ Z.land class 32 = 0)%Z) ∧
  (∀ j d, 1 ≤ j < Z.abs_nat n → text !! (i + j) = Some d → d ∉ marks).

Definition mode_ok (m : mode) : Prop := match m with Quoted q => q ∈ quote_chars | _ => True end.

Lemma starts_with_head a p c s : a ≠ c → starts_with (a :: p) (c :: s) = false.
Proof. intros Hne. simpl. by rewrite bool_decide_false. Qed.

Ltac not_mark Hc := first [let E := fresh in intros E; apply Hc; rewrite ?E; set_solver | let E := fresh in intros ->; apply Hc; set_solver].

(** Bytes that are no marks change nothing. *)
Lemma markers_plain m i c s : mode_ok m → c ∉ marks → markers m i (c :: s) = markers m (S i) s.
Proof.
  intros Hm Hc. unfold marks in Hc. destruct m as [|q| |]; cbn [markers].
  - rewrite bool_decide_false by not_mark Hc. rewrite bool_decide_false by not_mark Hc.
    unfold dash_comment_start, c_style_open_comment, c_var_open_comment. cbn [String.list_ascii_of_string].
    rewrite !starts_with_head by (intros <-; apply Hc; set_solver). cbn [orb andb].
    rewrite bool_decide_false by not_mark Hc. done.
  - simpl in Hm. rewrite bool_decide_false by not_mark Hc. rewrite bool_decide_false; [done|]. intros ->. apply Hc. set_solver.
  - rewrite bool_decide_false by not_mark Hc. done.
  - unfold c_style_close_comment. cbn [String.list_ascii_of_string]. by rewrite starts_with_head by (intros <-; apply Hc; set_solver).
Qed.

Lemma markers_skip m i s n :
  mode_ok m → (∀ j d, j < n → s !! j = Some d → d ∉ marks) → markers m i s = markers m (i + n) (drop n s).
Proof.
  intros Hm. revert i s. induction n as [|n IH]; intros i s Hs; [by rewrite Nat.add_0_r|].
  destruct s as [|c s]; [done|]. rewrite markers_plain by first [done | apply (Hs 0 c); [lia|done]].
  simpl. rewrite (IH (S i) s); [f_equal; lia|]. intros j d Hj Hd. apply (Hs (S j) d); [lia|done].
Qed.

(** Outside, the end of a line is a space like others. *)
Lemma markers_newline i s : markers Outside i (newline :: s) = markers Outside (S i) s.
Proof. done. Qed.

(** What the parser knows of the character is what the character set says. *)
Definition synced (p : parser) : Prop :=
  end_not_reached p = true →
  ctype p = (cs_ctype (drop (pos p) (query (pq p)))).1 ∧ bytes_at_pos p = Z.abs_nat (cs_ctype (drop (pos p) (query (pq p)))).2.

Lemma get_ctype_synced p : synced (get_ctype p).
Proof.
  intros He. assert (end_not_reached p = true) as He'.
  { unfold end_not_reached in *. destruct (get_ctype_moved p) as (E1 & E2 & _). by rewrite E1, E2 in He. }
  unfold get_ctype in *. rewrite He' in *. by destruct (cs_ctype (drop (pos p) (query (pq p)))) as [c n] eqn:E; simpl in *; rewrite E.
Qed.

Lemma step_char_synced p : synced (step_char p).
Proof.
  unfold step_char. destruct (end_not_reached _) eqn:E; [apply get_ctype_synced|]. intros E'. congruence.
Qed.

Definition rest (p : parser) : str := drop (pos p) (query (pq p)).
Definition tail (m : mode) (p : parser) : list nat := markers m (pos p) (rest p).

Lemma tail_end m p : end_not_reached p = false → tail m p = [].
Proof.
  intros He. unfold tail, rest. rewrite drop_ge; [done|]. unfold end_not_reached in He. by apply Nat.ltb_ge in He.
Qed.

Lemma tail_at_cons m p c : query (pq p) !! pos p = Some c → tail m p = markers m (pos p) (c :: drop (S (pos p)) (query (pq p))).
Proof. intros Hc. unfold tail, rest. by rewrite (drop_S _ _ _ Hc). Qed.

Lemma char_there p : end_not_reached p = true → ∃ c, query (pq p) !! pos p = Some c.
Proof. intros He%end_not_reached_spec. by apply lookup_lt_is_Some_2. Qed.

Lemma there_not_end p c : query (pq p) !! pos p = Some c → end_not_reached p = true.
Proof. intros Hc. apply end_not_reached_spec. by eapply lookup_lt_Some. Qed.

Section Marked.
Context (text : str) `{!PlainMarks text}.

Definition ready (p : parser) : Prop := query (pq p) = text ∧ synced p.

Lemma step_char_ready p : query (pq p) = text → ready (step_char p).
Proof. intros E. split; [|apply step_char_synced]. by destruct (step_char_pos p) as (-> & _). Qed.

Lemma ready_mark p c : ready p → text !! pos p = Some c → c ∈ marks → bytes_at_pos p = 1 ∧ (c ≠ newline → is_space p = false ∧ is_spl_char p = false).
Proof.
  intros [E Hs] Hc Hin. assert (end_not_reached p = true) as He by (eapply there_not_end; by rewrite E).
  destruct (Hs He) as [Ect Ebp]. rewrite E in Ect, Ebp. pose proof (plain_marks _ _ Hc) as Hlaw.
  unfold is_space, is_spl_char. rewrite Ect, Ebp. destruct (cs_ctype (drop (pos p) text)) as [class n]. simpl in *.
  destruct (proj1 Hlaw Hin) as [-> Hcl]. split; [done|]. intros Hn. by destruct (Hcl Hn) as [-> ->].
Qed.

Lemma ready_plain p c : ready p → text !! pos p = Some c → c ∉ marks → ∀ j d, j < width p → rest p !! j = Some d → d ∉ marks.
Proof.
  intros [E Hs] Hc Hnin j d Hj Hd. unfold rest in Hd. rewrite E, lookup_drop in Hd.
  destruct j as [|j]; [rewrite Nat.add_0_r in Hd; congruence|].
  assert (end_not_reached p = true) as He by (eapply there_not_end; by rewrite E).
  destruct (Hs He) as [_ Ebp]. rewrite E in Ebp. unfold width in Hj. pose proof (plain_marks _ _ Hc) as Hlaw.
  destruct (cs_ctype (drop (pos p) text)) as [class n]. simpl in *. rewrite Ebp in Hj.
  apply (proj2 Hlaw (S j) d); [|done]. destruct (Nat.eqb_spec (Z.abs_nat n) 0); lia.
Qed.

Lemma rest_step p : rest (step_char p) = drop (width p) (rest p).
Proof. unfold rest. destruct (step_char_pos p) as (-> & -> & _). by rewrite drop_drop. Qed.

(** One step of the parser and of the reference. *)
Lemma tail_step m m' p c :
  ready p → text !! pos p = Some c → mode_ok m →
  (c ∉ marks → m = m') →
  (c ∈ marks → ∀ s, rest p = c :: s → markers m (pos p) (c :: s) = markers m' (S (pos p)) s) →
  tail m p = tail m' (step_char p).
Proof.
  intros Hr Hc Hm Hnot Hmark. pose proof (proj1 Hr) as E. unfold tail. rewrite rest_step. destruct (step_char_pos p) as (_ & -> & _).
  destruct (decide (c ∈ marks)) as [Hin|Hnin].
  - destruct (ready_mark p c Hr Hc Hin) as [Hb _]. unfold width. rewrite Hb. cbn [Nat.eqb].
    assert (rest p = c :: drop (S (pos p)) text) as Hrest by (unfold rest; rewrite E; by apply drop_S).
    rewrite Hrest. rewrite Nat.add_1_r. by apply Hmark.
  - rewrite <- (Hnot Hnin). apply markers_skip; [done|]. by apply (ready_plain p c).
Qed.

Lemma at_marker_char p c : ready p → c ∈ marks → at_marker p [c] = bool_decide (text !! pos p = Some c).
Proof.
  intros Hr Hin. pose proof (proj1 Hr) as E. case_bool_decide as Hc.
  - destruct (ready_mark p c Hr Hc Hin) as [Hb _]. unfold at_marker. rewrite Hb, E, (drop_S _ _ _ Hc). simpl. by rewrite bool_decide_true.
  - destruct (at_marker p [c]) eqn:Em; [|done]. apply at_marker_lookup in Em. congruence.
Qed.

(** An invariant of a loop of steps. *)
Lemma steps_while_ind (P : parser → Prop) cond f p :
  (∀ p, P p → end_not_reached p = true → cond p = true → P (step_char p)) → P p → P (steps_while cond f p).
Proof.
  intros Hstep. revert p. induction f as [|f IH]; intros p Hp; simpl; [done|].
  destruct (end_not_reached p) eqn:He; simpl; [|done]. destruct (cond p) eqn:Hc; [|done]. by apply IH, Hstep.
Qed.

Lemma skip_spaces_tail p : ready p → ready (skip_spaces p).2 ∧ tail Outside p = tail Outside (skip_spaces p).2.
Proof.
  intros Hr. unfold skip_spaces. simpl.
  apply (steps_while_ind (λ p', ready p' ∧ tail Outside p = tail Outside p')); [|done].
  intros p' [Hr' ->] He Hc. split; [apply step_char_ready, Hr'|].
  destruct (char_there p' He) as [c Hch]. rewrite (proj1 Hr') in Hch.
  apply (tail_step Outside Outside p' c); [done..|].
  intros Hin s _. destruct (decide (c = newline)) as [->|Hn]; [done|].
  destruct (ready_mark p' c Hr' Hch Hin) as [_ H2]. destruct (H2 Hn) as [E1 E2]. by rewrite E1, E2 in Hc.
Qed.

Lemma parser_compare_rest p s : parser_compare p s = starts_with s (rest p).
Proof. done. Qed.

(** A comment is left where the reference leaves it. *)
Definition comment_mode (p : parser) : mode := if c_style_comment p then InBlock else InLine.
Definition one_comment (p : parser) : Prop := c_style_comment p = negb (hash_comment p || dash_comment p).

Lemma step_char_comments p :
  hash_comment (step_char p) = hash_comment p ∧ dash_comment (step_char p) = dash_comment p ∧ c_style_comment (step_char p) = c_style_comment p.
Proof.
  unfold step_char. destruct (end_not_reached _); [|done]. unfold get_ctype. destruct (end_not_reached _); [|done]. by destruct (cs_ctype _).
Qed.

Lemma in_comment_rest p :
  one_comment p → in_comment p = negb (starts_with (if c_style_comment p then c_style_close_comment else new_line_end) (rest p)).
Proof.
  unfold one_comment, in_comment. rewrite !parser_compare_rest. intros ->.
  destruct (hash_comment p), (dash_comment p); simpl; by rewrite ?orb_false_r, ?orb_diag.
Qed.

(** Where the comment ends, the reference is outside it as well. *)
Lemma comment_left p : one_comment p → in_comment p = false → tail (comment_mode p) p = tail Outside p.
Proof.
  intros Ho. rewrite in_comment_rest by done. unfold comment_mode, tail.
  intros Hc%negb_false_iff. destruct (c_style_comment p); apply starts_with_spec in Hc as [s Hs]; by rewrite Hs.
Qed.

Lemma skip_comment_tail p :
  ready p → one_comment p → ready (skip_comment p) ∧ tail (comment_mode p) p = tail Outside (skip_comment p).
Proof.
  intros Hr Ho. unfold skip_comment. set (n := length (query (pq p))).
  pose proof (steps_while_moved in_comment n p) as (_ & _ & Hend).
  assert (ready (steps_while in_comment n p) ∧ one_comment (steps_while in_comment n p) ∧
          tail (comment_mode p) p = tail (comment_mode (steps_while in_comment n p)) (steps_while in_comment n p)) as (Hr' & Ho' & ->).
  { apply (steps_while_ind (λ p', ready p' ∧ one_comment p' ∧ tail (comment_mode p) p = tail (comment_mode p') p')); [|done].
    intros p' (Hr' & Ho' & ->) He Hc. destruct (step_char_comments p') as (E1 & E2 & E3).
    split; [apply step_char_ready, Hr'|]. split; [unfold one_comment in *; congruence|].
    assert (comment_mode (step_char p') = comment_mode p') as -> by (unfold comment_mode; by rewrite E3).
    destruct (char_there p' He) as [c Hch]. rewrite (proj1 Hr') in Hch.
    apply (tail_step _ _ p' c); [done|done|unfold comment_mode; by destruct (c_style_comment p')|done|].
    intros _ s Hs. rewrite in_comment_rest, Hs in Hc by done. apply negb_true_iff in Hc.
    unfold comment_mode. destruct (c_style_comment p'); cbn [markers]; [by rewrite Hc|].
    rewrite bool_decide_false; [done|]. intros ->. done. }
  split; [done|]. destruct (end_not_reached (steps_while in_comment n p)) eqn:He; [|by rewrite !tail_end].
  apply comment_left; [done|]. apply Hend; [unfold n; lia|done].
Qed.

Lemma tail_cong m p p' : pos p = pos p' → query (pq p) = query (pq p') → tail m p = tail m p'.
Proof. intros E1 E2. unfold tail, rest. by rewrite E1, E2. Qed.

Lemma in_marks_quote q : q ∈ quote_chars → q ∈ marks.
Proof. unfold marks. set_solver. Qed.

Lemma is_quote_char p q : is_quote p = Some q → ∃ c, q = [c] ∧ c ∈ quote_chars ∧ query (pq p) !! pos p = Some c.
Proof.
  unfold is_quote. intros [Hin Hm]%List.find_some. unfold quotes in Hin. simpl in Hin.
  destruct_or!; simplify_eq; apply at_marker_lookup in Hm; eexists; (split; [done|]; split; [set_solver|done]).
Qed.

(** An opening quote, from outside. *)
Lemma quote_tail p c : ready p → text !! pos p = Some c → c ∈ quote_chars → tail Outside p = tail (Quoted c) (step_char p).
Proof.
  intros Hr Hc Hq. apply (tail_step _ _ p c); [done|done|done| |].
  - intros []. by apply in_marks_quote.
  - intros _ s _. cbn [markers]. by rewrite bool_decide_true.
Qed.

(** The character behind a backslash is passed over. *)
Lemma escape_tail p q : ready p → q ∈ quote_chars → text !! pos p = Some "\"%char → tail (Quoted q) p = tail (Quoted q) (step_char (step_char p)).
Proof.
  intros Hr Hq Hc. destruct (ready_mark p _ Hr Hc) as [Hb _]; [unfold marks; set_solver|].
  pose proof (step_char_ready p (proj1 Hr)) as Hr1. destruct (step_char_pos p) as (E1 & E2 & _).
  unfold width in E2. rewrite Hb in E2. cbn [Nat.eqb] in E2. rewrite Nat.add_1_r in E2.
  rewrite (tail_at_cons _ p "\"%char) by (by rewrite (proj1 Hr)). cbn [markers]. rewrite bool_decide_true by done.
  rewrite (proj1 Hr). replace (drop (S (pos p)) text) with (rest (step_char p)) by (unfold rest; by rewrite E1, E2, (proj1 Hr)).
  destruct (step_char_pos (step_char p)) as (_ & E4 & _). unfold tail. rewrite (rest_step (step_char p)), E4, E2.
  destruct (rest (step_char p)) as [|d s] eqn:Hrest; [by rewrite drop_nil|].
  assert (text !! pos (step_char p) = Some d) as Hd.
  { apply (f_equal (λ l, l !! 0)) in Hrest. unfold rest in Hrest. rewrite lookup_drop, Nat.add_0_r, (proj1 Hr1) in Hrest. done. }
  assert (mode_ok (Quoted q)) as Hm by done.
  destruct (decide (d ∈ marks)) as [Hin|Hnin].
  - destruct (ready_mark _ _ Hr1 Hd Hin) as [Hb1 _]. unfold width. rewrite Hb1. cbn [Nat.eqb drop]. by rewrite Nat.add_1_r.
  - pose proof (ready_plain _ _ Hr1 Hd Hnin) as Hpl. rewrite Hrest in Hpl. rewrite <- markers_skip by done. by rewrite markers_plain.
Qed.

(** What is passed over as quoted is what the reference passes over. *)
Lemma closing_loop_tail f p q c :
  ready p → quote p = Some [q] → q ∈ quote_chars → length text ≤ pos p + f →
  let r := closing_loop f p c in ready r.2 ∧ tail (Quoted q) p = tail Outside r.2.
Proof.
  revert p q c. induction f as [|f IH]; intros p q c Hr Eq Hq Hf; cbn [closing_loop].
  { assert (end_not_reached p = false) by (unfold end_not_reached; rewrite (proj1 Hr); apply Nat.ltb_ge; lia). split; [done|]. simpl. by rewrite !tail_end. }
  destruct (end_not_reached p) eqn:He; [|by rewrite !tail_end].
  destruct (step_char_moved p) as [_ Hlt]. pose proof (step_char_ready p (proj1 Hr)) as Hr1.
  destruct (step_char_pos p) as (E1 & E2 & E3).
  unfold is_escape, escape_marker. cbn [String.list_ascii_of_string]. rewrite at_marker_char by (try done; unfold marks; set_solver).
  case_bool_decide as Hesc.
  { rewrite (escape_tail p q Hr Hq Hesc). destruct (step_char_pos (step_char p)) as (_ & _ & E6). destruct (step_char_moved (step_char p)) as [_ Hlt2].
    apply IH; [by apply step_char_ready, Hr1|congruence|done|lia]. }
  unfold is_closing_quote. rewrite Eq, at_marker_char by (try done; by apply in_marks_quote).
  destruct (char_there p He) as [ch Hch]. rewrite (proj1 Hr) in Hch.
  case_bool_decide as Hclose.
  - rewrite (tail_step (Quoted q) Outside p q Hr Hclose); [|done|intros []; by apply in_marks_quote|].
    2: { intros _ s _. cbn [markers]. rewrite bool_decide_false by (intros ->; congruence). by rewrite bool_decide_true. }
    set (p1 := get_ctype (step_char p)). destruct (get_ctype_moved (step_char p)) as (E4 & E5 & E6). fold p1 in E4, E5, E6.
    assert (ready p1) as Hrp1 by (split; [rewrite E4, E1; apply Hr|apply get_ctype_synced]).
    rewrite (tail_cong Outside (step_char p) p1) by (by rewrite ?E4, ?E5).
    destruct (bytes_at_pos p1 =? 0); [done|]. unfold open_quote. destruct (is_quote p1) as [s|] eqn:Es; [|done].
    apply is_quote_char in Es as (c' & -> & Hc' & Hat). rewrite (proj1 Hrp1) in Hat.
    set (p2 := set_quote (Some [c']) p1). rewrite (tail_cong Outside p1 p2) by done.
    assert (ready p2) as Hr2 by apply Hrp1. rewrite (quote_tail p2 c' Hr2 Hat Hc').
    destruct (step_char_pos p2) as (_ & _ & E9). destruct (step_char_moved p2) as [_ Hlt2].
    assert (pos p2 = pos p1) as Ep2 by done.
    apply IH; [by apply step_char_ready, Hr2|by rewrite E9|done|lia].
  - rewrite (tail_step (Quoted q) (Quoted q) p ch Hr Hch); [|done..|].
    2: { intros _ s _. cbn [markers]. rewrite !bool_decide_false by (intros ->; congruence). done. }
    apply IH; [done|congruence|done|lia].
Qed.

(** ** The markers found are those of the reference *)

Definition mode_of (p : parser) : mode := match quote p with Some (q :: _) => Quoted q | _ => Outside end.
Definition remaining (p : parser) : list nat := param_pos (pq p) ++ tail (mode_of p) p.
Definition good (p : parser) : Prop := ready p ∧ ∀ q, quote p = Some q → ∃ c, q = [c] ∧ c ∈ quote_chars.

(** Going from [p] to [p'] keeps what has been and will be found. *)
Definition accounted (p p' : parser) : Prop := good p' ∧ remaining p' = remaining p.

Lemma add_token_same p : ∃ l, add_token p = set_pq (with_tokens l (pq p)) p.
Proof. unfold add_token. destruct (end_not_reached p); [by eexists|]. exists (token2 (pq p)). by destruct p as [? ? ? ? [] ? ? ?]. Qed.

Lemma accounted_outside p p' :
  quote p = None → ready p' → quote p' = None → param_pos (pq p') = param_pos (pq p) → tail Outside p = tail Outside p' → accounted p p'.
Proof.
  intros Eq Hr Eq' Ep Et. split; [split; [done|by rewrite Eq']|]. unfold remaining, mode_of. by rewrite Eq, Eq', Ep, Et.
Qed.

Lemma add_token_accounted p p' : accounted p p' → accounted p (add_token p').
Proof. destruct (add_token_same p') as [l ->]. by intros [[] ]. Qed.

Lemma skip_spaces_accounted p : ready p → quote p = None → accounted p (skip_spaces p).2.
Proof.
  intros Hr Eq. destruct (skip_spaces_tail p Hr) as [Hr' Et]. destruct (skip_spaces_moved p) as ([Epq _] & Eq' & _).
  apply accounted_outside; [done..|congruence|by rewrite Epq|done].
Qed.

Lemma accounted_trans p1 p2 p3 : accounted p1 p2 → accounted p2 p3 → accounted p1 p3.
Proof. intros [_ E1] [H3 E2]. split; [done|congruence]. Qed.

(** A separator means nothing to the reference. *)
Lemma separator_accounted p p' : ready p → quote p = None → is_query_separator p = Some p' → accounted p p'.
Proof.
  intros Hr Eq Hsep. destruct (is_query_separator_moved p p' Hsep) as ([Epq _] & _ & Eq').
  unfold is_query_separator in Hsep. destruct (List.find _ query_sep) as [s|] eqn:Es; [|done]. simplify_eq.
  apply List.find_some in Es as [Hin Hc]. rewrite parser_compare_rest in Hc. apply starts_with_spec in Hc as [t Ht].
  set (p1 := set_pos (pos p + length s) p) in *. destruct (get_ctype_moved p1) as (_ & E2 & _).
  apply accounted_outside; [done|split; [by rewrite Epq; apply Hr|apply get_ctype_synced]|congruence|by rewrite Epq|].
  unfold tail. rewrite E2, Ht. unfold rest. rewrite Epq, E2.
  assert (drop (pos p1) (query (pq p)) = t) as ->.
  { unfold p1. simpl. rewrite <- drop_drop. unfold rest in Ht. rewrite Ht. by rewrite drop_app_length. }
  unfold p1. cbn [pos set_pos]. unfold query_sep in Hin. simpl in Hin. destruct Hin as [<-|[<-|[]]]; simpl; f_equal; lia.
Qed.

(** The character at which nothing begins. *)
Lemma outside_step p c :
  ready p → text !! pos p = Some c → is_quote p = None → (is_comment p).1 = false →
  tail Outside p = (if is_param_marker p then [pos p] else []) ++ tail Outside (step_char p).
Proof.
  intros Hr Hc Hnq Hnc. unfold is_param_marker, param_marker. cbn [String.list_ascii_of_string].
  rewrite at_marker_char by (try done; unfold marks; set_solver). rewrite Hc.
  destruct (decide (c ∈ marks)) as [Hin|Hnin].
  2: { rewrite bool_decide_false by (intros [= ->]; apply Hnin; unfold marks; set_solver). by apply (tail_step _ _ p c). }
  destruct (ready_mark p c Hr Hc Hin) as [Hb _].
  assert (c ∉ quote_chars) as Hq.
  { intros Hcq. unfold is_quote in Hnq. assert ([c] ∈ quotes) as Hcs by (unfold quotes, quote_chars in *; set_solver).
    assert (at_marker p [c] = true) as Hm by (rewrite at_marker_char by done; by apply bool_decide_eq_true).
    apply list_elem_of_In in Hcs. by rewrite (List.find_none _ _ Hnq _ Hcs) in Hm. }
  assert (rest p = c :: drop (S (pos p)) text) as Hrest by (unfold rest; rewrite (proj1 Hr); by apply drop_S).
  unfold tail at 1. rewrite Hrest. cbn [markers]. rewrite bool_decide_false by done.
  unfold is_comment in Hnc. rewrite !parser_compare_rest, Hrest in Hnc.
  destruct (starts_with hash_comment_start _) eqn:Eh; [done|]. simpl in Eh. rewrite andb_true_r in Eh.
  destruct (starts_with dash_comment_start _); [done|].
  rewrite bool_decide_false by (intros ->; by apply bool_decide_eq_false in Eh). cbn [orb].
  assert (starts_with c_style_open_comment (c :: drop (S (pos p)) text) && negb (starts_with c_var_open_comment (c :: drop (S (pos p)) text)) = false) as ->.
  { revert Hnc. destruct (starts_with c_var_open_comment _), (starts_with c_style_open_comment _); done. }
  unfold tail. rewrite rest_step, Hrest. destruct (step_char_pos p) as (_ & -> & _). unfold width. rewrite Hb. cbn [Nat.eqb drop]. rewrite Nat.add_1_r.
  by rewrite (bool_decide_ext (Some c = Some "?"%char) (c = "?"%char)) by naive_solver.
Qed.

Lemma comment_opens p p' c :
  ready p → text !! pos p = Some c → is_quote p = None → is_comment p = (true, p') →
  ready p' ∧ one_comment p' ∧ tail Outside p = tail (comment_mode p') p'.
Proof.
  intros Hr Hc Hnq Hcm.
  assert (rest p = c :: drop (S (pos p)) text) as Hrest by (unfold rest; rewrite (proj1 Hr); by apply drop_S).
  unfold is_comment in Hcm. rewrite !parser_compare_rest in Hcm. unfold tail.
  destruct (starts_with hash_comment_start (rest p)) eqn:Eh; [|destruct (starts_with dash_comment_start (rest p)) eqn:Ed;
    [|destruct (starts_with c_var_open_comment (rest p)) eqn:Ev; [done|destruct (starts_with c_style_open_comment (rest p)) eqn:Eo; [|done]]]];
  simplify_eq; (split; [apply Hr|]); (split; [done|]); unfold comment_mode; cbn [c_style_comment set_comments pos];
  change (rest (set_comments ?h ?d ?k p)) with (rest p).
  - apply starts_with_spec in Eh as [t Et]. rewrite Et. done.
  - apply starts_with_spec in Ed as [t Et]. rewrite Et. done.
  - apply starts_with_spec in Eo as [t Et]. rewrite Et in Ev |- *. simpl in Ev |- *. by rewrite Ev.
Qed.

Lemma tokenize_char_accounted p : ready p → quote p = None → end_not_reached p = true → accounted p (tokenize_char p).
Proof.
  intros Hr Eq He. unfold tokenize_char. destruct (is_query_separator p) as [p1|] eqn:Es.
  { pose proof (separator_accounted p p1 Hr Eq Es) as Ha. destruct (is_query_separator_moved p p1 Es) as (_ & _ & Eq1).
    apply add_token_accounted. eapply accounted_trans; [exact Ha|]. apply skip_spaces_accounted; [apply Ha|congruence]. }
  clear Es. set (p1 := set_pq (with_last_char (Some (pos p)) (pq p)) p).
  assert (ready p1) as Hr1 by apply Hr. assert (quote p1 = None) as Eq1 by done.
  destruct (char_there p He) as [c Hc]. rewrite (proj1 Hr) in Hc.
  assert (text !! pos p1 = Some c) as Hc1 by done.
  eapply (accounted_trans p p1); [by apply accounted_outside|]. clearbody p1. clear p Hr Eq He Hc.
  unfold open_quote. destruct (is_quote p1) as [q|] eqn:Eiq.
  - apply is_quote_char in Eiq as (c' & -> & Hq & Hat). rewrite (proj1 Hr1) in Hat. simplify_eq.
    destruct (add_token_same (set_quote (Some [c]) p1)) as [l ->]. set (p2 := set_pq _ _).
    assert (ready p2) as Hr2 by apply Hr1. destruct (step_char_pos p2) as (E1 & _ & E3).
    split; [split; [by apply step_char_ready, Hr2|intros q; rewrite E3; intros [= <-]; by exists c]|].
    unfold remaining, mode_of. rewrite E1, E3, Eq1. simpl. by rewrite <- (quote_tail p2 c Hr2 Hc1 Hq).
  - destruct (is_comment p1) as [comment p2] eqn:Ecm. destruct comment.
    + destruct (comment_opens p1 p2 c Hr1 Hc1 Eiq Ecm) as (Hr2 & Ho & Et). destruct (skip_comment_tail p2 Hr2 Ho) as [Hr3 Et'].
      destruct (is_comment_moved p1) as (Hm & _ & Eq2 & _). rewrite Ecm in Hm, Eq2. simpl in Hm, Eq2.
      destruct (skip_comment_moved p2) as [[E1 _] E3].
      apply accounted_outside; [done..|congruence|by rewrite E1, (proj1 Hm)|congruence].
    + pose proof (outside_step p1 c Hr1 Hc1 Eiq) as Ht. rewrite Ecm in Ht. specialize (Ht eq_refl).
      destruct (is_comment_moved p1) as (Hm & Ep2 & Eq2 & Eb2). rewrite Ecm in Hm, Ep2, Eq2, Eb2. simpl in Hm, Ep2, Eq2, Eb2.
      assert (query (pq p2) = text) as Eqt by (rewrite (proj1 Hm); apply Hr1).
      assert (∀ p3, query (pq p3) = text → pos p3 = pos p2 → bytes_at_pos p3 = bytes_at_pos p2 → quote p3 = quote p2 →
        param_pos (pq p3) = param_pos (pq p1) ++ (if is_param_marker p1 then [pos p1] else []) → accounted p1 (step_char p3)) as Hstep.
      { intros p3 Et3 E3 Eb3 Eq3 Ep3. destruct (step_char_pos p3) as (F1 & F2 & F3), (step_char_pos p1) as (G1 & G2 & _).
        split; [split; [by apply step_char_ready|rewrite F3, Eq3, Eq2, Eq1; done]|].
        unfold remaining, mode_of. rewrite F3, Eq3, Eq2, Eq1, F1, Ep3, Ht, <- app_assoc. do 2 f_equal.
        apply tail_cong; [unfold width in F2, G2; by rewrite F2, G2, E3, Ep2, Eb3, Eb2|rewrite F1, G1, Et3; symmetry; apply Hr1]. }
      assert (is_param_marker p2 = is_param_marker p1) as Epm.
      { unfold is_param_marker, at_marker. rewrite Ep2, Eb2, (proj1 Hm). done. }
      rewrite Epm in *. destruct (is_param_marker p1); apply Hstep; try done; simpl; rewrite (proj1 Hm); [by rewrite Ep2|by rewrite app_nil_r].
Qed.

Lemma tokenize_round_accounted p : good p → end_not_reached p = true → accounted p (tokenize_round p).
Proof.
  intros [Hr Hq] He. unfold tokenize_round. destruct (quote p) as [s|] eqn:Eq.
  - destruct (Hq s eq_refl) as (c & -> & Hc). unfold find_closing_quote.
    pose proof (closing_loop_tail (length (query (pq p))) p c None Hr Eq Hc) as Ht.
    destruct (closing_loop_moved (length (query (pq p))) p None) as [[Epq _] _].
    destruct (closing_loop _ p None) as [closing p1]. simpl in Epq, Ht.
    destruct Ht as [Hr1 Et]; [rewrite (proj1 Hr); lia|].
    split; [split; [apply Hr1|done]|]. unfold remaining, mode_of. rewrite Eq. simpl. rewrite Et, Epq. f_equal; try done. by apply tail_cong; simpl; rewrite ?Epq.
  - destruct (is_space p) eqn:Esp; [|by apply tokenize_char_accounted].
    destruct (char_there p He) as [c Hc]. rewrite (proj1 Hr) in Hc.
    destruct (step_char_pos p) as (E1 & _ & E3). pose proof (step_char_ready p (proj1 Hr)) as Hr1.
    assert (accounted p (step_char p)) as Ha.
    { apply accounted_outside; [done|done|congruence|by rewrite E1|]. apply (tail_step _ _ p c); [done..|].
      intros Hin s _. destruct (decide (c = newline)) as [->|Hn]; [done|].
      destruct (ready_mark p c Hr Hc Hin) as [_ H2]. destruct (H2 Hn). congruence. }
    pose proof (skip_spaces_accounted (step_char p) Hr1) as Hs. destruct (skip_spaces_moved (step_char p)) as (_ & Eq2 & Hend).
    destruct (skip_spaces (step_char p)) as [ended p2]. simpl in Hs, Eq2, Hend.
    pose proof (accounted_trans _ _ _ Ha (Hs ltac:(congruence))) as Ha2. destruct ended; [done|].
    symmetry in Hend. apply negb_false_iff in Hend. pose proof (add_token_accounted _ _ Ha2) as Ha3.
    eapply accounted_trans; [exact Ha3|]. destruct (add_token_same p2) as [l El].
    apply tokenize_char_accounted; [apply Ha3|rewrite El; simpl; congruence|rewrite El; done].
Qed.

Lemma tokenize_loop_accounted f p p' : good p → tokenize_loop f p = Some p' → accounted p p'.
Proof.
  revert p. induction f as [|f IH]; intros p Hg; simpl; destruct (end_not_reached p) eqn:He; try done; try (intros [= <-]; by split).
  intros Hl. pose proof (tokenize_round_accounted p Hg He) as Ha. eapply accounted_trans; [exact Ha|]. apply IH; [apply Ha|done].
Qed.

Lemma tokenize_markers p : tokenize (init_parser (reset_query text)) = Some p → param_pos (pq p) = markers Outside 0 text.
Proof.
  unfold tokenize. set (p0 := init_parser (reset_query text)). intros Hl.
  assert (pq p0 = reset_query text ∧ pos p0 = 0 ∧ quote p0 = None) as (E1 & E2 & E3) by apply (get_ctype_moved (Parser 0 0 0 None (reset_query text) false false false)).
  assert (ready p0) as Hr by (split; [by rewrite E1|apply get_ctype_synced]).
  pose proof (add_token_accounted _ _ (skip_spaces_accounted p0 Hr E3)) as Ha.
  pose proof (tokenize_loop_accounted _ _ p (proj1 Ha) Hl) as Hb. pose proof (accounted_trans _ _ _ Ha Hb) as [_ Hrem].
  destruct (tokenize_ends text) as (p'' & Ep & _ & Hend). unfold tokenize in Ep. fold p0 in Ep. simplify_eq.
  unfold remaining at 1 in Hrem. rewrite (tail_end _ p Hend), app_nil_r in Hrem. rewrite Hrem.
  unfold remaining, mode_of, tail, rest. rewrite E3, E1, E2. done.
Qed.
End Marked.

(** C34: for a text whose marks the character set does not hide, the parameter markers of [parse] are those of a
    definition that reads the text byte by byte with a mode: outside, within quotation marks, within a comment up to
    the end of the line, and within a comment between slash and star. *)
Theorem parse_markers text `{!PlainMarks text} :
  ∃ q, parse (reset_query text) = Some q ∧ param_pos q = markers Outside 0 text.
Proof.
  destruct (parse_run text) as (p & Ep & _ & ->). eexists. split; [done|]. simpl.
  destruct (remove_braces_run p) as (_ & Epp & _). simpl in Epp. rewrite Epp. by apply tokenize_markers.
Qed.
End Positions.

(** ** Examples

    A character set of single bytes and pairs: UTF-8 without the longer
    characters. *)

#[export] Instance ex_charset : Charset := λ s,
  match s with
  | [] => (0, 0)%Z
  | c :: s' =>
    let n := N_of_ascii c in
    if (n <? 128)%N then
      ((if ((9 <=? n) && (n <=? 13))%N then 40 else if (n <? 32)%N || (n =? 127)%N then 32 else if (n =? 32)%N then 72 else 0)%Z, 1%Z)
    else if ((194 <=? n) && (n <? 224))%N then
      match s' with
      | d :: _ => (0, if ((128 <=? N_of_ascii d) && (N_of_ascii d <? 192))%N then 2 else 0)%Z
      | [] => (0, -102)%Z
      end
    else (0, 0)%Z
  end.

#[export] Instance ex_space : SpaceLaw.
Proof. by intros s. Qed.

Definition mark_ok `{Charset} (text : str) (i : nat) : bool :=
  match text !! i with
  | None => true
  | Some c =>
    let '(class, n) := cs_ctype (drop i text) in
    implb (bool_decide (c ∈ marks)) ((Z.abs_nat n =? 1) && (bool_decide (c = newline) || ((Z.land class 8 =? 0)%Z && (Z.land class 32 =? 0)%Z))) &&
    forallb (λ d, negb (bool_decide (d ∈ marks))) (take (pred (Z.abs_nat n)) (drop (S i) text))
  end.

Lemma mark_ok_plain `{Charset} text : forallb (mark_ok text) (seq 0 (length text)) = true → PlainMarks text.
Proof.
  intros Hall i c Hc. assert (mark_ok text i = true) as Hi.
  { rewrite List.forallb_forall in Hall. apply Hall, List.in_seq. apply lookup_lt_Some in Hc. lia. }
  unfold mark_ok in Hi. rewrite Hc in Hi. destruct (cs_ctype (drop i text)) as [class n]. apply andb_prop in Hi as [H1 H2]. split.
  - intros Hin. rewrite bool_decide_true in H1 by done. simpl in H1. apply andb_prop in H1 as [Hn%Nat.eqb_eq H1]. split; [done|].
    intros Hne. rewrite bool_decide_false in H1 by done. simpl in H1. apply andb_prop in H1 as [H3%Z.eqb_eq H4%Z.eqb_eq]. done.
  - intros j d Hj Hd. rewrite List.forallb_forall in H2. specialize (H2 d).
    apply negb_true_iff, bool_decide_eq_false in H2; [done|]. apply list_elem_of_In, list_elem_of_lookup. exists (pred j).
    rewrite lookup_take_lt by lia. rewrite lookup_drop. rewrite <- Hd. f_equal. lia.
Qed.

(** Marks in quotes, one behind a letter of two bytes, and in the three kinds of comment. *)
Definition ex_query : str :=
  S!"select 'it\'s ?', " ++ [Ascii.ascii_of_nat 34; "?"%char; Ascii.ascii_of_nat 34; Ascii.ascii_of_nat 34; "?"%char; Ascii.ascii_of_nat 34] ++
  S!", " ++ [Ascii.ascii_of_nat 195; Ascii.ascii_of_nat 169; "?"%char] ++ S!" -- ?" ++ [newline] ++ S!"/* ? */ ? # ?".

(** After a comment a star is taken for the beginning of the next one: the
    marker of [2/*c*/*?] is not found. *)
Lemma parse_markers_witness :
  (∃ q, parse (reset_query ex_query) = Some q ∧ param_pos q = markers Outside 0 ex_query) ∧ markers Outside 0 ex_query = [28; 43] ∧
  (∃ q, parse (reset_query (S!"select 2/*c*/*?")) = Some q ∧ param_pos q = markers Outside 0 (S!"select 2/*c*/*?")) ∧
  markers Outside 0 (S!"select 2/*c*/*?") = [].
Proof.
  assert (forallb (mark_ok ex_query) (seq 0 (length ex_query)) = true) as E1 by (vm_compute; reflexivity).
  assert (forallb (mark_ok (S!"select 2/*c*/*?")) (seq 0 (length (S!"select 2/*c*/*?"))) = true) as E2 by (vm_compute; reflexivity).
  split; [exact (parse_markers ex_query (PlainMarks0 := mark_ok_plain ex_query E1))|]. split; [reflexivity|].
  split; [exact (parse_markers _ (PlainMarks0 := mark_ok_plain _ E2))|reflexivity].
Defined.

Definition ex_tokenized (text : str) : parser := default (init_parser (reset_query text)) (tokenize (init_parser (reset_query text))).

(** A call is recognised when a space stands behind the brace, and not
    otherwise. *)
Lemma query_type_spec_witness :
  (∃ q, parse (reset_query (S!"{call f()}")) = Some q ∧ query_type q = first_word_type q ∧
        query q = S!" call f() " ∧ query_type q = myqtOther) ∧
  (∃ q, parse (reset_query (S!"{ call f() }")) = Some q ∧ query_type q = first_word_type q ∧ query_type q = myqtCall).
Proof.
  split.
  - assert (tokenize (init_parser (reset_query (S!"{call f()}"))) = Some (ex_tokenized (S!"{call f()}"))) as E by (vm_compute; reflexivity).
    destruct (query_type_spec _ _ E) as (q & Hq & Ht & _ & Hb).
    exists q. split; [done|]. split; [done|]. vm_compute in Hq. injection Hq as <-. by split.
  - assert (tokenize (init_parser (reset_query (S!"{ call f() }"))) = Some (ex_tokenized (S!"{ call f() }"))) as E by (vm_compute; reflexivity).
    destruct (query_type_spec _ _ E) as (q & Hq & Ht & _ & Hb).
    exists q. split; [done|]. split; [done|]. vm_compute in Hq. by injection Hq as <-.
Defined.
