(* ===== verification/AuthToken.v ===== *)
(** Authentication with tokens: the cache of tokens (src/driver/auth_util.cc,
    src/driver/auth_util.h) and the proxy for IAM authentication
    (src/driver/iam_proxy.cc).

    What the SDK answers is an interface; every call of it is numbered, so that
    answers may change. The system clock may go back. *)

From S2P Require Import Prelude CppString CacheMap DataSource.

Local Open Scope Z_scope.

(** ** The interface of the SDK *)

Class AwsSdk := {
  AWSCredentials : Type;
  no_credentials : AWSCredentials;
  IsEmpty : AWSCredentials → bool;
  IsExpired : AWSCredentials → bool;
  (** [DefaultAWSCredentialsProviderChain().GetAWSCredentials()] *)
  GetAWSCredentials : nat → AWSCredentials;
  (** [RDSClient::GenerateConnectAuthToken], for the region and the credentials
      of the client. *)
  GenerateConnectAuthToken : str → AWSCredentials → nat → str → str → Z → str → str
}.

(** [Aws::Region::US_EAST_1] *)
Definition US_EAST_1 : str := S!"us-east-1".

(** [src/driver/auth_util.h:40-58] TOKEN_INFO *)
Record TOKEN_INFO := TokenInfo { token : str; expiration_time : Z }.

(** [src/driver/auth_util.h:60-81] AUTH_UTIL

    The client: its region and its credentials. *)
Record AUTH_UTIL `{AwsSdk} := AuthUtil { client_region : str; client_credentials : AWSCredentials }.
Arguments AuthUtil {_}.
Arguments client_region {_}.
Arguments client_credentials {_}.

(** ** The state

    The cache of a class of proxies, the clock, the number of calls of the SDK,
    the message of the proxy, and what the calls of the next proxy act on. *)
Record auth_state (W : Type) := AuthState {
  token_cache : gmap str TOKEN_INFO;
  wall : clock;
  calls : nat;
  custom_error_message : option str;
  next : W
}.
Arguments AuthState {W}.
Arguments token_cache {W}.
Arguments wall {W}.
Arguments calls {W}.
Arguments custom_error_message {W}.
Arguments next {W}.

(** ** Options *)

(** The octets of an option as a C string. *)
Definition octets (l : list Z) : str := (λ z, ascii_of_N (Z.to_N (z mod 256))) <$> l.
Fixpoint c_string_of (s : str) : str :=
  match s with c :: s' => if bool_decide (c = Ascii.zero) then [] else c :: c_string_of s' | [] => [] end.

(** [src/util/installer.h:166-170] optionStr::get *)
Definition get_str (o : optionBase) : res (option str) :=
  match m_value o with
  | Str m_is_null _ m_str => if negb (m_is_set o) then Throw err_msg_not_set else mret (if m_is_null then None else Some (c_string_of (octets m_str)))
  | _ => UB
  end.
(** [src/util/installer.h:126-130] optionVal *)
Definition get_int (o : optionBase) : res Z :=
  match m_value o with Int m_val => if negb (m_is_set o) then Throw err_msg_not_set else mret m_val | _ => UB end.

Definition str_option (ds : DataSource) (X : string) : res (option str) := match ds !! X with Some o => get_str o | None => UB end.
Definition int_option (ds : DataSource) (X : string) : res Z := match ds !! X with Some o => get_int o | None => UB end.
Definition has_option (ds : DataSource) (X : string) : bool := match ds !! X with Some o => opt_true o | None => false end.

(** An option, or another one when it is not given. *)
Definition str_option_or (ds : DataSource) (X : string) (other : res (option str)) : res (option str) :=
  if has_option ds X then str_option ds X else other.

(** [src/util/installer.h:44-44] UNDEFINED_PORT *)
Definition UNDEFINED_PORT : Z := -1.

Section AuthToken.
Context `{Sdk : AwsSdk} {W : Type}.

Definition set_token_cache (m : gmap str TOKEN_INFO) (s : auth_state W) : auth_state W :=
  AuthState m (wall s) (calls s) (custom_error_message s) (next s).
Definition set_message (o : option str) (s : auth_state W) : auth_state W :=
  AuthState (token_cache s) (wall s) (calls s) o (next s).
Definition set_next (w : W) (s : auth_state W) : auth_state W :=
  AuthState (token_cache s) (wall s) (calls s) (custom_error_message s) w.

(** [system_clock::now()]. *)
Definition system_now : M (auth_state W) Z := λ s,
  (Ok (now (wall s)), AuthState (token_cache s) (tick (wall s)) (calls s) (custom_error_message s) (next s)).
(** A call of the SDK. *)
Definition sdk_call {A} (f : nat → A) : M (auth_state W) A := λ s,
  (Ok (f (calls s)), AuthState (token_cache s) (wall s) (S (calls s)) (custom_error_message s) (next s)).
(** [src/driver/connection_proxy.cc:426-429] CONNECTION_PROXY::set_custom_error_message *)
Definition set_custom_error_message (error_message : str) : M (auth_state W) unit := modify (set_message (Some error_message)).

(** ** The cache of tokens *)

(** [src/driver/auth_util.h:44-47] TOKEN_INFO *)
Definition new_token_info (token : str) (seconds_until_expiration : Z) : M (auth_state W) TOKEN_INFO :=
  t ← system_now; mret (TokenInfo token (t + seconds_until_expiration * 1000000000)).
(** [src/driver/auth_util.h:49-52] TOKEN_INFO::is_expired *)
Definition is_expired (info : TOKEN_INFO) : M (auth_state W) bool :=
  current_time ← system_now; mret (expiration_time info <? current_time).

(** [src/driver/auth_util.cc:38-48] AUTH_UTIL::AUTH_UTIL *)
Definition new_auth_util (region : option str) : M (auth_state W) AUTH_UTIL :=
  credentials ← sdk_call GetAWSCredentials; mret (AuthUtil (default [] region) credentials).

(** [src/driver/auth_util.cc:106-108] AUTH_UTIL::generate_token *)
Definition generate_token (u : AUTH_UTIL) (host region : str) (port : Z) (user : str) : M (auth_state W) str :=
  sdk_call (λ n, GenerateConnectAuthToken (client_region u) (client_credentials u) n host region port user).

(** [src/driver/auth_util.cc:110-113] AUTH_UTIL::build_cache_key *)
Definition build_cache_key (host region : str) (port : Z) (user : str) : str :=
  region ++ S!":" ++ host ++ S!":" ++ to_string port ++ S!":" ++ user.

(** [src/driver/auth_util.cc:61-104] AUTH_UTIL::get_auth_token

    The lock is held throughout.  The token, and whether it is a cached one. *)
Definition get_auth_token (u : AUTH_UTIL) (host region : option str) (port : Z) (user : option str)
    (time_until_expiration : Z) (force_generate_new_token : bool) : M (auth_state W) (str * bool) :=
  let host := default [] host in
  let region := default [] region in
  let user := default [] user in
  let cache_key := build_cache_key host region port user in
  cached ← (
    if force_generate_new_token then
      modify (λ s, set_token_cache (delete cache_key (token_cache s)) s);; mret None
    else
      s ← get;
      match token_cache s !! cache_key with
      | Some info =>
        expired ← is_expired info;
        if expired : bool then modify (λ s, set_token_cache (delete cache_key (token_cache s)) s);; mret None
        else mret (Some (token info))
      | None => mret None
      end);
  match cached with
  | Some tok => mret (tok, true)
  | None =>
    auth_token ← generate_token u host region port user;
    info ← new_token_info auth_token time_until_expiration;
    modify (λ s, set_token_cache (<[cache_key := info]> (token_cache s)) s);;
    mret (auth_token, false)
  end.

(** A login with a token, and another one with a fresh token when it fails with
    a cached one; the proxies of all kinds do this. *)
Definition login_with_token (u : AUTH_UTIL) (host region : option str) (port : Z) (user : option str) (time_until_expiration : Z)
    (func : str → M (auth_state W) bool) : M (auth_state W) bool :=
  '(auth_token, using_cached_token) ← get_auth_token u host region port user time_until_expiration false;
  connect_result ← func auth_token;
  if connect_result : bool then mret true
  else if using_cached_token : bool then
    '(auth_token, _) ← get_auth_token u host region port user time_until_expiration true;
    func auth_token
  else mret false.

(** ** The IAM proxy *)

(** [src/driver/iam_proxy.cc:41-45] IAM_PROXY::IAM_PROXY *)
Definition new_iam_proxy (ds : DataSource) : M (auth_state W) AUTH_UTIL :=
  region ← lift (str_option_or ds "AUTH_REGION" (mret (Some US_EAST_1)));
  new_auth_util region.

(** [src/driver/iam_proxy.cc:73-76] IAM_PROXY::clear_token_cache *)
Definition clear_token_cache : M (auth_state W) unit := modify (set_token_cache ∅).

(** The parameters of the token: the host, the region, the port, the user and
    the expiration. *)
Record token_request := TokenRequest { rq_host : option str; rq_region : option str; rq_port : Z; rq_user : option str; rq_expiration : Z }.

Definition iam_request (ds : DataSource) : res token_request :=
  auth_host ← str_option_or ds "AUTH_HOST" (str_option ds "SERVER");
  region ← str_option_or ds "AUTH_REGION" (mret (Some US_EAST_1));
  port ← int_option ds "AUTH_PORT";
  iam_port ← (if port =? UNDEFINED_PORT then int_option ds "PORT" else mret port);
  uid ← str_option ds "UID";
  expiration ← int_option ds "AUTH_EXPIRATION";
  mret (TokenRequest auth_host region (to_uint32 iam_port) uid (to_uint32 expiration)).

Definition no_credentials_message : str := S!"Could not find AWS Credentials for IAM Authentication. Please set up AWS credentials.".
Definition expired_credentials_message : str := S!"AWS Credentials for IAM Authentication are expired. Please refresh AWS credentials.".

(** [src/driver/iam_proxy.cc:78-123] IAM_PROXY::invoke_func_with_generated_token *)
Definition invoke_func_with_generated_token (u : AUTH_UTIL) (ds : DataSource) (func : str → M (auth_state W) bool) : M (auth_state W) bool :=
  rq ← lift (iam_request ds);
  connect_result ← login_with_token u (rq_host rq) (rq_region rq) (rq_port rq) (rq_user rq) (rq_expiration rq) func;
  if connect_result : bool then mret true else
  credentials ← sdk_call GetAWSCredentials;
  (if IsEmpty credentials then set_custom_error_message no_credentials_message
   else if IsExpired credentials then set_custom_error_message expired_credentials_message else mret tt);;
  mret false.

(** [src/driver/iam_proxy.cc:60-71] IAM_PROXY::connect, IAM_PROXY::change_user

    The call of the next proxy with the token as the password. *)
Definition iam_connect (u : AUTH_UTIL) (ds : DataSource) (next_connect : str → M (auth_state W) bool) : M (auth_state W) bool :=
  invoke_func_with_generated_token u ds next_connect.
Definition iam_change_user (u : AUTH_UTIL) (ds : DataSource) (next_change_user : str → M (auth_state W) bool) : M (auth_state W) bool :=
  invoke_func_with_generated_token u ds next_change_user.
End AuthToken.

(** ** Keys *)

(** The text up to the first separator is told from what follows. *)
Lemma app_sep_inj (c : ascii) a a' b b' : c ∉ a → c ∉ a' → a ++ c :: b = a' ++ c :: b' → a = a' ∧ b = b'.
Proof.
  revert a'. induction a as [|x a IH]; intros [|y a'] Ha Ha' E; simplify_list_eq; [done|set_solver|set_solver|].
  destruct (IH a') as [-> ->]; [set_solver|set_solver|done|done].
Qed.

Lemma colon_not_in_number z : ":"%char ∉ to_string z.
Proof. intros Hz. pose proof (to_string_chars z) as H. rewrite Forall_forall in H. by destruct (H _ Hz). Qed.

(** two requests have the same key in the cache of tokens only when they are for the same host, region, port and
    user, as long as the names of the region and of the host have no colon; with colons in the name of the host two
    different requests may share a key. *)
Theorem build_cache_key_inj host region port user host' region' port' user' :
  ":"%char ∉ region → ":"%char ∉ host → ":"%char ∉ region' → ":"%char ∉ host' →
  build_cache_key host region port user = build_cache_key host' region' port' user' →
  host = host' ∧ region = region' ∧ port = port' ∧ user = user'.
Proof.
  intros Hr Hh Hr' Hh' E. unfold build_cache_key in E.
  apply app_sep_inj in E as [-> E]; [|done..]. simpl in E. apply app_sep_inj in E as [-> E]; [|done..].
  apply app_sep_inj in E as [Ep ->]; [|apply colon_not_in_number..]. apply to_string_inj in Ep as ->. done.
Qed.

Lemma build_cache_key_inj_witness :
  (":"%char ∉ S!"us-east-1" ∧ ":"%char ∉ S!"db" ∧ S!"db" = S!"db" ∧ S!"us-east-1" = S!"us-east-1" ∧ 3306 = 3306 ∧ S!"a:b" = S!"a:b") ∧
  build_cache_key (S!"h:1") (S!"r") 2 (S!"u") = build_cache_key (S!"h") (S!"r") 1 (S!"2:u").
Proof.
  assert (":"%char ∉ S!"us-east-1") as H1 by (apply (bool_decide_unpack _); vm_compute; exact I).
  assert (":"%char ∉ S!"db") as H2 by (apply (bool_decide_unpack _); vm_compute; exact I).
  split; [|reflexivity]. split; [done|]. split; [done|].
  exact (build_cache_key_inj (S!"db") (S!"us-east-1") 3306 (S!"a:b") (S!"db") (S!"us-east-1") 3306 (S!"a:b") H1 H2 H1 H2 eq_refl).
Defined.

(** ** What a token is *)

Section Tokens.
Context `{Sdk : AwsSdk} {W : Type}.
Implicit Types (s : auth_state W) (u : AUTH_UTIL).

(** The cached token of a key that has not expired. *)
Definition live (s : auth_state W) (key : str) : option str :=
  match token_cache s !! key with
  | Some info => if expiration_time info <? now (wall s) then None else Some (token info)
  | None => None
  end.

Definition request_key (rq : token_request) : str :=
  build_cache_key (default [] (rq_host rq)) (default [] (rq_region rq)) (rq_port rq) (default [] (rq_user rq)).
Definition generated (u : AUTH_UTIL) (rq : token_request) (n : nat) : str :=
  GenerateConnectAuthToken (client_region u) (client_credentials u) n (default [] (rq_host rq)) (default [] (rq_region rq)) (rq_port rq) (default [] (rq_user rq)).
Definition token_of (u : AUTH_UTIL) (rq : token_request) (force : bool) : M (auth_state W) (str * bool) :=
  get_auth_token u (rq_host rq) (rq_region rq) (rq_port rq) (rq_user rq) (rq_expiration rq) force.

(** The token was generated now and is in the cache, to expire when the clock
    has gone on by the time asked for. *)
Definition renewed (u : AUTH_UTIL) (rq : token_request) (s s' : auth_state W) : Prop :=
  calls s' = S (calls s) ∧ readings (wall s') = readings (wall s) ∧ custom_error_message s' = custom_error_message s ∧ next s' = next s ∧
  ∃ k, (taken (wall s) ≤ k < taken (wall s'))%nat ∧
    token_cache s' = <[request_key rq := TokenInfo (generated u rq (calls s)) (readings (wall s) k + rq_expiration rq * 1000000000)]> (token_cache s).

Lemma get_auth_token_live u rq s tok :
  live s (request_key rq) = Some tok →
  token_of u rq false s = (Ok (tok, true), AuthState (token_cache s) (tick (wall s)) (calls s) (custom_error_message s) (next s)).
Proof.
  unfold live, token_of, get_auth_token, request_key. intros Hl.
  destruct (token_cache s !! _) as [info|] eqn:Ec; [|done]. destruct (expiration_time info <? now (wall s)) eqn:Ee; [done|]. simplify_eq.
  unfold mbind, M_bind, get. rewrite Ec. unfold is_expired, mbind, M_bind, system_now. cbn. by rewrite Ee.
Qed.

Lemma get_auth_token_fresh u rq force s :
  force = true ∨ live s (request_key rq) = None →
  ∃ s', token_of u rq force s = (Ok (generated u rq (calls s), false), s') ∧ renewed u rq s s'.
Proof.
  unfold live, token_of, get_auth_token, request_key, renewed. intros Hl. set (key := build_cache_key _ _ _ _) in *.
  destruct force.
  - eexists. split; [reflexivity|]. simpl. split_and!; try done. exists (taken (wall s)). split; [lia|]. by rewrite insert_delete_eq.
  - destruct Hl as [|Hl]; [done|]. unfold mbind, M_bind, get. destruct (token_cache s !! key) as [info|] eqn:Ec.
    + unfold is_expired, mbind, M_bind, system_now. cbn. destruct (expiration_time info <? now (wall s)) eqn:Ee; [|done].
      eexists. split; [reflexivity|]. simpl. split_and!; try done. exists (S (taken (wall s))). split; [lia|]. by rewrite insert_delete_eq.
    + eexists. split; [reflexivity|]. simpl. split_and!; try done. exists (taken (wall s)). split; [lia|done].
Qed.

(** ** Passwords are tokens for the request *)

(** A token that the SDK has generated for a host, a region, a port and a
    user. *)
Definition genuine (host region : str) (port : Z) (user tok : str) : Prop :=
  ∃ u n, tok = GenerateConnectAuthToken (client_region u) (client_credentials u) n host region port user.

Definition cache_ok (s : auth_state W) : Prop :=
  ∀ key info, token_cache s !! key = Some info →
    ∃ host region port user, ":"%char ∉ region ∧ ":"%char ∉ host ∧ key = build_cache_key host region port user ∧ genuine host region port user (token info).

Definition request_ok (rq : token_request) : Prop := ":"%char ∉ default [] (rq_region rq) ∧ ":"%char ∉ default [] (rq_host rq).
Definition genuine_for (rq : token_request) (tok : str) : Prop :=
  genuine (default [] (rq_host rq)) (default [] (rq_region rq)) (rq_port rq) (default [] (rq_user rq)) tok.

Lemma live_genuine rq s tok : cache_ok s → request_ok rq → live s (request_key rq) = Some tok → genuine_for rq tok.
Proof.
  unfold live. intros Hok [Hr Hh] Hl. destruct (token_cache s !! request_key rq) as [info|] eqn:Ec; [|done].
  destruct (expiration_time info <? now (wall s)); [done|]. simplify_eq.
  destruct (Hok _ _ Ec) as (host & region & port & user & Hr' & Hh' & Hk & Hg).
  unfold request_key, build_cache_key in Hk. apply app_sep_inj in Hk as [E1 Hk]; [|done..]. simpl in Hk. apply app_sep_inj in Hk as [E2 Hk]; [|done..].
  apply app_sep_inj in Hk as [E3%to_string_inj E4]; [|apply colon_not_in_number..]. unfold genuine_for. by rewrite E1, E2, E3, E4.
Qed.

Lemma renewed_ok u rq s s' : cache_ok s → request_ok rq → renewed u rq s s' → cache_ok s'.
Proof.
  intros Hok [Hr Hh] (_ & _ & _ & _ & k & _ & Ec) key info. rewrite Ec. intros [[<- <-]|[_ Hl]]%lookup_insert_Some; [|by eapply Hok].
  eexists _, _, _, _. split; [exact Hr|]. split; [exact Hh|]. split; [reflexivity|]. by exists u, (calls s).
Qed.

Lemma token_of_genuine u rq force s :
  cache_ok s → request_ok rq →
  ∃ tok cached s', token_of u rq force s = (Ok (tok, cached), s') ∧ genuine_for rq tok ∧ cache_ok s'.
Proof.
  intros Hok Hrq. assert (force = true ∨ live s (request_key rq) = None → ∃ tok cached s', token_of u rq force s = (Ok (tok, cached), s') ∧ genuine_for rq tok ∧ cache_ok s') as Hfresh.
  { intros Hf. destruct (get_auth_token_fresh u rq force s Hf) as (s' & -> & Hn). eexists _, _, _. split; [reflexivity|].
    split; [by eexists _, _|by eapply renewed_ok]. }
  destruct force; [by apply Hfresh; left|]. destruct (live s (request_key rq)) as [tok|] eqn:El; [|by apply Hfresh; right].
  rewrite (get_auth_token_live u rq s tok El). eexists _, _, _. split; [reflexivity|]. split; [by eapply live_genuine|done].
Qed.

Definition login (u : AUTH_UTIL) (rq : token_request) (func : str → M (auth_state W) bool) : M (auth_state W) bool :=
  login_with_token u (rq_host rq) (rq_region rq) (rq_port rq) (rq_user rq) (rq_expiration rq) func.

(** The call of the next proxy is made with genuine tokens only: it might as
    well do something else with any other password. *)
Lemma login_genuine u rq func func' s :
  cache_ok s → request_ok rq → (∀ tok, genuine_for rq tok → preserves cache_ok (func tok)) →
  (∀ tok s, genuine_for rq tok → func tok s = func' tok s) →
  login u rq func s = login u rq func' s ∧ cache_ok (login u rq func s).2.
Proof.
  intros Hok Hrq Hp Hf. unfold login, login_with_token.
  change (get_auth_token u (rq_host rq) (rq_region rq) (rq_port rq) (rq_user rq) (rq_expiration rq)) with (token_of u rq).
  destruct (token_of_genuine u rq false s Hok Hrq) as (tok & cached & s1 & E1 & Hg & Hok1).
  rewrite !(bind_Ok _ _ _ _ _ E1). unfold mbind at 1 3 5, M_bind at 1 3 5. rewrite <- (Hf tok s1 Hg).
  pose proof (Hp tok Hg s1 Hok1) as Hok2. destruct (func tok s1) as [[[|]|e|] s2]; try (by split). simpl in Hok2.
  destruct cached; [|by split].
  destruct (token_of_genuine u rq true s2 Hok2 Hrq) as (tok' & cached' & s3 & E3 & Hg' & Hok3).
  rewrite !(bind_Ok _ _ _ _ _ E3). rewrite <- (Hf tok' s3 Hg'). split; [done|]. by apply (Hp tok' Hg' s3).
Qed.
End Tokens.

(** ** The IAM proxy *)

Section Iam.
Context `{Sdk : AwsSdk}.

(** C35: the IAM proxy logs in with genuine tokens only, for the host, the region, the port and the user of the data
    source: with any other call that does the same for such tokens it does the same; and the cache keeps holding
    genuine tokens under their keys. *)
Theorem iam_password_genuine {W} (u : AUTH_UTIL) ds rq (func func' : str → M (auth_state W) bool) s :
  iam_request ds = Ok rq → request_ok rq → cache_ok s →
  (∀ tok, genuine_for rq tok → preserves cache_ok (func tok)) →
  (∀ tok s, genuine_for rq tok → func tok s = func' tok s) →
  iam_connect u ds func s = iam_connect u ds func' s ∧ cache_ok (iam_connect u ds func s).2.
Proof.
  intros Erq Hrq Hok Hp Hf. unfold iam_connect, invoke_func_with_generated_token. rewrite Erq. unfold mbind, M_bind, lift.
  change (login_with_token u (rq_host rq) (rq_region rq) (rq_port rq) (rq_user rq) (rq_expiration rq)) with (login (W := W) u rq).
  destruct (login_genuine u rq func func' s Hok Hrq Hp Hf) as [<- Hok1].
  split; [done|]. destruct (login u rq func s) as [[[|]|e|] s1]; try done. simpl in Hok1 |- *. unfold sdk_call.
  destruct (IsEmpty _); [done|]. by destruct (IsExpired _).
Qed.

(** A next proxy that accepts some passwords; the ones tried are listed. *)
Definition try_login (accepts : str → bool) (tok : str) : M (auth_state (list str)) bool :=
  modify (λ s, set_next (next s ++ [tok]) s);; mret (accepts tok).

(** Whether a fresh token is needed, and the passwords that are tried. *)
Definition needs_fresh (accepts : str → bool) (cached : option str) : bool :=
  match cached with Some tok => negb (accepts tok) | None => true end.
Definition attempts (accepts : str → bool) (cached : option str) (fresh : str) : list str :=
  option_list cached ++ (if needs_fresh accepts cached then [fresh] else []).

Lemma login_run (u : AUTH_UTIL) rq accepts s :
  let cached := live s (request_key rq) in let fresh := generated u rq (calls s) in
  ∃ s', login u rq (try_login accepts) s = (Ok (existsb accepts (attempts accepts cached fresh)), s') ∧
    next s' = next s ++ attempts accepts cached fresh ∧ custom_error_message s' = custom_error_message s ∧
    if needs_fresh accepts cached
    then calls s' = S (calls s) ∧ token <$> token_cache s' !! request_key rq = Some fresh
    else calls s' = calls s ∧ token_cache s' = token_cache s.
Proof.
  intros cached fresh. unfold login, login_with_token, attempts.
  change (get_auth_token u (rq_host rq) (rq_region rq) (rq_port rq) (rq_user rq) (rq_expiration rq)) with (token_of (W := list str) u rq).
  destruct cached as [tok|] eqn:El; subst cached.
  - rewrite (bind_Ok _ _ _ _ _ (get_auth_token_live u rq s tok El)). cbn beta iota. unfold try_login. rewrite bind_assoc, modify_bind. cbn [needs_fresh option_list existsb app].
    rewrite ret_bind. simpl. destruct (accepts tok); simpl; [eexists; split; [reflexivity|done]|]. set (s1 := set_next _ _).
    destruct (get_auth_token_fresh u rq true s1) as (s2 & E2 & Hc & _ & Hm & Hn & k & _ & Ec); [by left|].
    rewrite (bind_Ok _ _ _ _ _ E2). eexists. split; [by rewrite orb_false_r|]. simpl. rewrite Hn, Hm, Ec, Hc. simpl.
    rewrite lookup_insert_eq, <- app_assoc. done.
  - destruct (get_auth_token_fresh u rq false s) as (s2 & E2 & Hc & _ & Hm & Hn & k & _ & Ec); [by right|].
    rewrite (bind_Ok _ _ _ _ _ E2). cbn beta iota. unfold try_login. rewrite bind_assoc, modify_bind, ret_bind. cbn [needs_fresh option_list existsb app].
    exists (set_next (next s2 ++ [fresh]) s2). split; [simpl; fold fresh; by destruct (accepts fresh)|]. simpl. rewrite Hn, Hm, Ec, Hc.
    by rewrite lookup_insert_eq.
Qed.

(** C36: a login of the IAM proxy tries the cached token that has not expired, if there is one, and a freshly generated
    one when there is none or it is refused; it succeeds when one of them is accepted. So it fails only when a fresh
    token is refused, and then the message tells whether credentials are missing or expired. The fresh token replaces
    the cached one. *)
Theorem iam_connect_spec (u : AUTH_UTIL) ds rq accepts s :
  iam_request ds = Ok rq →
  let cached := live s (request_key rq) in let fresh := generated u rq (calls s) in let tried := attempts accepts cached fresh in
  ∃ s', iam_connect u ds (try_login accepts) s = (Ok (existsb accepts tried), s') ∧
    next s' = next s ++ tried ∧
    (if needs_fresh accepts cached then token <$> token_cache s' !! request_key rq = Some fresh else token_cache s' = token_cache s) ∧
    if existsb accepts tried then custom_error_message s' = custom_error_message s
    else fresh ∈ tried ∧
         let credentials := GetAWSCredentials (S (calls s)) in
         custom_error_message s' = if IsEmpty credentials then Some no_credentials_message
                                   else if IsExpired credentials then Some expired_credentials_message else custom_error_message s.
Proof.
  intros Erq cached fresh tried. unfold iam_connect, invoke_func_with_generated_token. rewrite Erq.
  destruct (login_run u rq accepts s) as (s1 & E1 & Hn & Hm & Hc). fold cached fresh in E1, Hn, Hc. fold tried in E1, Hn.
  unfold login in E1. unfold mbind at 1, M_bind at 1, lift. rewrite (bind_Ok _ _ _ _ _ E1).
  destruct (existsb accepts tried) eqn:Et.
  - eexists. split; [reflexivity|]. split; [done|]. split; [by destruct (needs_fresh accepts cached); destruct Hc|done].
  - assert (needs_fresh accepts cached = true) as Hf.
    { unfold tried, attempts in Et. destruct cached as [tok|]; [|done]. simpl in Et |- *. by destruct (accepts tok). }
    rewrite Hf in Hc |- *. destruct Hc as [Hcalls Hcache]. unfold mbind, M_bind, sdk_call. cbn. rewrite Hcalls.
    destruct (IsEmpty _); [|destruct (IsExpired _)]; (eexists; split; [reflexivity|]); simpl; (split; [done|]); (split; [done|]);
      (split; [unfold tried, attempts; rewrite Hf; set_solver|done]).
Qed.
End Iam.

(** ** Examples *)

Section Examples.

#[local] Instance ex_sdk : AwsSdk := {|
  AWSCredentials := bool; no_credentials := false; IsEmpty := negb; IsExpired := λ _, false;
  GetAWSCredentials := λ n, Nat.even n;
  GenerateConnectAuthToken := λ _ _ n host _ _ _, host ++ S!"/" ++ to_string (Z.of_nat n) |}.

Definition ex_str (s : string) : optionBase := Option true false (Str false (wide s) (wide s)).
Definition ex_ds : DataSource := <["UID" := ex_str "u"]> (<["SERVER" := ex_str "db"]> reset).
Definition ex_rq : token_request := TokenRequest (Some (S!"db")) (Some US_EAST_1) 3306 (Some (S!"u")) 900.
Definition ex_util : AUTH_UTIL := AuthUtil US_EAST_1 true.

(** A token of before is cached; the clock has not reached its end. *)
Definition ex_auth : auth_state (list str) :=
  AuthState {[ request_key ex_rq := TokenInfo (S!"db/3") 5 ]} (Clock (λ n, Z.of_nat n) 2) 7 None [].

Lemma ex_request : iam_request ex_ds = Ok ex_rq.
Proof. vm_compute. reflexivity. Qed.

Lemma ex_request_ok : request_ok ex_rq.
Proof. split; apply (bool_decide_unpack _); vm_compute; exact I. Qed.

Lemma ex_cache_ok : cache_ok ex_auth.
Proof.
  intros key info Hk. unfold ex_auth in Hk. cbn [token_cache] in Hk. apply lookup_singleton_Some in Hk as [<- <-]. eexists _, _, _, _. split; [exact (proj1 ex_request_ok)|].
  split; [exact (proj2 ex_request_ok)|]. split; [reflexivity|]. by exists ex_util, 3%nat.
Qed.

(** The cached token is refused, the fresh one is accepted. *)
Lemma iam_connect_spec_witness :
  iam_request ex_ds = Ok ex_rq ∧
  ∃ s', iam_connect ex_util ex_ds (try_login (λ tok, bool_decide (tok = S!"db/7"))) ex_auth = (Ok true, s') ∧
        next s' = [S!"db/3"; S!"db/7"] ∧ token <$> token_cache s' !! request_key ex_rq = Some (S!"db/7").
Proof.
  split; [exact ex_request|].
  destruct (iam_connect_spec ex_util ex_ds ex_rq (λ tok, bool_decide (tok = S!"db/7")) ex_auth ex_request) as (s' & E & Hn & Hc & _).
  exists s'. split; [exact E|]. split; [exact Hn|exact Hc].
Defined.

Lemma iam_password_genuine_witness :
  iam_request ex_ds = Ok ex_rq ∧ request_ok ex_rq ∧ cache_ok ex_auth ∧
  iam_connect ex_util ex_ds (try_login (λ _, false)) ex_auth =
  iam_connect ex_util ex_ds (λ tok, if bool_decide (tok = []) then throw (runtime_error []) else try_login (λ _, false) tok) ex_auth.
Proof.
  split; [exact ex_request|]. split; [exact ex_request_ok|]. split; [exact ex_cache_ok|].
  apply (iam_password_genuine ex_util ex_ds ex_rq _ _ ex_auth ex_request ex_request_ok ex_cache_ok).
  - intros tok _ s Hs. exact Hs.
  - intros tok s (u & n & ->). by rewrite bool_decide_false.
Defined.
End Examples.
