(* ===== verification/SdkHelper.v ===== *)
(** The count of the users of the AWS SDK (src/driver/aws_sdk_helper.h,
    src/driver/aws_sdk_helper.cc).

    The count is atomic; the calls that start and stop the SDK come after it, in
    another step, so other threads may act in between. *)

From S2P Require Import Prelude.

Local Open Scope Z_scope.

Inductive thread := Idle | Must_init | Must_shutdown.
#[export] Instance thread_eq_dec : EqDecision thread.
Proof. solve_decision. Defined.

(** [src/driver/aws_sdk_helper.h:41-53] AWS_SDK_HELPER *)
Record sdk_state := SdkState { sdk_reference_count : Z; initialized : bool; threads : list thread }.

(** [src/driver/aws_sdk_helper.cc:35-42] AWS_SDK_HELPER::operator++ *)
Definition incr (i : nat) (s : sdk_state) : sdk_state :=
  let count := sdk_reference_count s + 1 in
  SdkState count (initialized s) (if 1 =? count then <[i := Must_init]> (threads s) else threads s).
(** [src/driver/aws_sdk_helper.cc:44-51] AWS_SDK_HELPER::operator-- *)
Definition decr (i : nat) (s : sdk_state) : sdk_state :=
  let count := sdk_reference_count s - 1 in
  SdkState count (initialized s) (if 0 =? count then <[i := Must_shutdown]> (threads s) else threads s).
(** The call of the SDK that is due. *)
Definition call_sdk (i : nat) (s : sdk_state) : sdk_state :=
  match threads s !! i with
  | Some Must_init => SdkState (sdk_reference_count s) true (<[i := Idle]> (threads s))
  | Some Must_shutdown => SdkState (sdk_reference_count s) false (<[i := Idle]> (threads s))
  | _ => s
  end.

(** A thread takes a reference, gives one back, or makes the call that is
    due. *)
Inductive step : sdk_state → sdk_state → Prop :=
  | step_incr i s : threads s !! i = Some Idle → step s (incr i s)
  | step_decr i s : threads s !! i = Some Idle → 0 < sdk_reference_count s → step s (decr i s)
  | step_call i s : threads s !! i = Some Must_init ∨ threads s !! i = Some Must_shutdown → step s (call_sdk i s).

(** The operators one after the other. *)
Inductive serial : sdk_state → sdk_state → Prop :=
  | serial_incr i s : threads s !! i = Some Idle → serial s (call_sdk i (incr i s))
  | serial_decr i s : threads s !! i = Some Idle → 0 < sdk_reference_count s → serial s (call_sdk i (decr i s)).

Definition start (n : nat) : sdk_state := SdkState 0 false (repeat Idle n).

Definition serial_inv (s : sdk_state) : Prop :=
  Forall (λ t, t = Idle) (threads s) ∧ 0 ≤ sdk_reference_count s ∧ initialized s = (0 <? sdk_reference_count s).

Lemma idle_insert l i : Forall (λ t, t = Idle) l → <[i := Idle]> l = l.
Proof.
  intros Hl. destruct (decide (i < length l)%nat) as [Hi|Hi]; [|apply list_insert_ge; lia].
  apply lookup_lt_is_Some_2 in Hi as [t Ht]. rewrite Forall_lookup in Hl. rewrite <- (Hl _ _ Ht). by apply list_insert_id.
Qed.

Lemma idle_call i s t : threads s = t → Forall (λ t, t = Idle) t → call_sdk i s = s.
Proof.
  intros <- Hl. unfold call_sdk. destruct (threads s !! i) as [t|] eqn:Et; [|done]. rewrite Forall_lookup in Hl. by rewrite (Hl _ _ Et).
Qed.

Lemma serial_keeps s s' : serial_inv s → serial s s' → serial_inv s'.
Proof.
  intros (Hl & Hc & Hi) Hs. destruct Hs as [i s Ht|i s Ht Hpos].
  - unfold incr. destruct (Z.eqb_spec 1 (sdk_reference_count s + 1)) as [E|E].
    + unfold call_sdk. cbn [threads]. rewrite list_lookup_insert_eq by (by eapply lookup_lt_Some). cbn [sdk_reference_count threads].
      rewrite list_insert_insert_eq, idle_insert by done. split; [done|]. split; [simpl; lia|]. simpl. symmetry. apply Z.ltb_lt. lia.
    + rewrite (idle_call _ _ (threads s)) by done. split; [done|]. split; [simpl; lia|]. simpl. rewrite Hi.
      rewrite (proj2 (Z.ltb_lt 0 (sdk_reference_count s))) by lia. symmetry. apply Z.ltb_lt. lia.
  - unfold decr. destruct (Z.eqb_spec 0 (sdk_reference_count s - 1)) as [E|E].
    + unfold call_sdk. cbn [threads]. rewrite list_lookup_insert_eq by (by eapply lookup_lt_Some). cbn [sdk_reference_count threads].
      rewrite list_insert_insert_eq, idle_insert by done. split; [done|]. split; [simpl; lia|]. simpl. symmetry. apply Z.ltb_ge. lia.
    + rewrite (idle_call _ _ (threads s)) by done. split; [done|]. split; [simpl; lia|]. simpl. rewrite Hi.
      rewrite (proj2 (Z.ltb_lt 0 (sdk_reference_count s))) by lia. symmetry. apply Z.ltb_lt. lia.
Qed.

(** A thread gives back the last reference, another one takes one and starts
    the SDK before the first one stops it. *)
Lemma race_step1 : rtc step (start 2) (SdkState 0 true [Must_shutdown; Idle]).
Proof.
  apply (rtc_l _ _ (incr 0 (start 2))); [by constructor|]. apply (rtc_l _ _ (call_sdk 0 (incr 0 (start 2)))); [apply step_call; by left|].
  apply rtc_once. exact (step_decr 0 (SdkState 1 true [Idle; Idle]) eq_refl eq_refl).
Qed.

(** when the operators do not overlap the SDK is initialized just when it has users; when they do, it may be shut
    down with a user left and no call due. *)
Theorem sdk_helper_spec n :
  (∀ s, rtc serial (start n) s → initialized s = (0 <? sdk_reference_count s)) ∧
  (∃ s, rtc step (start 2) s ∧ threads s = [Idle; Idle] ∧ sdk_reference_count s = 1 ∧ initialized s = false).
Proof.
  split.
  - intros s Hs. enough (serial_inv s) as (_ & _ & ?) by done. eapply (rtc_invariant serial serial_inv); [exact serial_keeps| |exact Hs].
    split; [by apply Forall_forall; intros t ->%list_elem_of_In%List.repeat_spec|done].
  - exists (SdkState 1 false [Idle; Idle]). split; [|done]. etransitivity; [exact race_step1|].
    apply (rtc_l _ _ (SdkState 1 true [Must_shutdown; Must_init])); [exact (step_incr 1 (SdkState 0 true [Must_shutdown; Idle]) eq_refl)|].
    apply (rtc_l _ _ (SdkState 1 true [Must_shutdown; Idle])); [exact (step_call 1 (SdkState 1 true [Must_shutdown; Must_init]) (or_introl eq_refl))|].
    apply rtc_once. exact (step_call 0 (SdkState 1 true [Must_shutdown; Idle]) (or_intror eq_refl)).
Qed.
