(* ===== verification/Saml.v ===== *)
(** Federated authentication: the HTTP client (src/driver/saml_http_client.cc),
    the SAML exchanges with Okta (src/driver/okta_proxy.cc) and with ADFS
    (src/driver/adfs_proxy.cc), the credentials for an assertion
    (src/driver/saml_util.cc) and the two proxies.

    The HTTP library, the JSON library and the security token service are
    interfaces.  A loop of redirections that does not end is [no_return]. *)

From stdpp Require Import sorting.
From S2P Require Import Prelude CppString Regex CacheMap DataSource AuthToken.

Local Open Scope Z_scope.

(** ** The interfaces *)

(** What a server answers: [httplib::Response].  The headers are in the order of
    the multimap. *)
Record response := Response { status : Z; reason : str; headers : list (str * str); body : str }.

(** Where a client connects to, and how. *)
Record http_config := HttpConfig { host : str; connect_timeout : Z; socket_timeout : Z; enable_ssl : bool }.

(** [httplib::Client]: a request may fail.  [Get] with [set_follow_location]
    follows redirections. *)
Class HttpLib := {
  http_Post : http_config → nat → str → str → str → option response;
  http_Get : http_config → nat → bool → str → option str → option response
}.

(** [nlohmann::json]: reading a text, whether a value is empty, a member as a
    string, a value as a string, and the text of an object of two members. *)
Class JsonLib := {
  json : Type;
  json_parse : str → res json;
  json_empty : json → bool;
  json_member : json → str → res str;
  json_as_string : json → res str;
  json_dump : list (str * str) → str
}.

(** [STSClient::AssumeRoleWithSAML], in a region, for a role and an identity
    provider. *)
Class StsClient `{AwsSdk} := AssumeRoleWithSAML : nat → option str → option str → option str → str → option AWSCredentials.

(** A value that is a text, or one that was read. *)
Inductive json_value `{JsonLib} := JText (s : str) | JParsed (j : json).
Definition jv_empty `{JsonLib} (v : json_value) : bool := match v with JText _ => false | JParsed j => json_empty j end.
Definition jv_string `{JsonLib} (v : json_value) : res str := match v with JText s => mret s | JParsed j => json_as_string j end.
Definition jv_member `{JsonLib} (v : json_value) (key : str) : res str :=
  match v with JText _ => Throw (json_exception (S!"cannot use operator[] with a string argument")) | JParsed j => json_member j key end.

(** A [std::string] from a pointer. *)
Definition std_string (p : option str) : res str := match p with Some s => mret s | None => UB end.

Definition dq : str := [Ascii.ascii_of_nat 34].

(** ** The HTTP client *)

Section Http.
Context `{Http : HttpLib} `{Json : JsonLib} {W : Type}.

(** [catch (SAML_HTTP_EXCEPTION& e)] *)
Definition catch_http {A} (m : M (auth_state W) A) (h : str → M (auth_state W) A) : M (auth_state W) A := λ s,
  match m s with (Throw (saml_http_exception w), s') => h w s' | r => r end.

(** [src/driver/saml_http_client.cc:35-35] MAX_REDIRECT_COUNT *)
Definition MAX_REDIRECT_COUNT : Z := 20.

Definition content (content_type : str) (r : response) : M (auth_state W) json_value :=
  if strcaseeq content_type (S!"application/json") then j ← lift (json_parse (body r)); mret (JParsed j) else mret (JText (body r)).

(** The cookies that are sent back. *)
Definition cookies (l : list (str * str)) : str :=
  concat ((λ x, x.2 ++ S!";") <$> filter (λ x, strcaseeq x.1 (S!"Set-Cookie") = true) l).

Definition location (r : response) : option str := snd <$> List.find (λ x, strcaseeq x.1 (S!"location")) (headers r).

(** One round of the loop: the next answer and the count of the redirections
    that are left. *)
Definition follow (cfg : http_config) (st : response * Z) : M (auth_state W) (response * Z) :=
  match location st.1 with
  | Some path =>
    r ← sdk_call (λ n, http_Get cfg n false path (Some (cookies (headers st.1))));
    r ← deref r;
    mret (r, st.2 - 1)
  | None => mret st
  end.

Fixpoint redirect_loop (fuel : nat) (cfg : http_config) (content_type : str) (st : response * Z) : M (auth_state W) json_value :=
  if (status st.1 =? 302) && (0 <? st.2) then
    match fuel with
    | O => throw no_return
    | S f =>
      st ← follow cfg st;
      if status st.1 =? 200 then content content_type st.1 else redirect_loop f cfg content_type st
    end
  else throw (saml_http_exception (to_string (status st.1) ++ S!" " ++ reason st.1)).

(** [src/driver/saml_http_client.cc:54-97] SAML_HTTP_CLIENT::post

    With fuel for the redirections. *)
Definition post_with (fuel : nat) (cfg : http_config) (path value content_type : str) : M (auth_state W) json_value :=
  res ← sdk_call (λ n, http_Post cfg n path value content_type);
  match res with
  | None => throw (saml_http_exception (S!"Post request failed"))
  | Some r => if status r =? 200 then content content_type r else redirect_loop fuel cfg content_type (r, MAX_REDIRECT_COUNT)
  end.
Definition post (cfg : http_config) (path value content_type : str) : M (auth_state W) json_value :=
  post_with (Z.to_nat MAX_REDIRECT_COUNT) cfg path value content_type.

(** [src/driver/saml_http_client.cc:99-110] SAML_HTTP_CLIENT::get

    Without headers of its own. *)
Definition get (cfg : http_config) (path : str) : M (auth_state W) json_value :=
  res ← sdk_call (λ n, http_Get cfg n true path None);
  match res with
  | None => throw (saml_http_exception (S!"Get request failed"))
  | Some r => if status r =? 200 then mret (JText (body r)) else throw (saml_http_exception (to_string (status r) ++ S!" " ++ reason r))
  end.
End Http.

(** ** Okta *)

(** [src/driver/okta_proxy.cc:191-198] OKTA_SAML_UTIL::replace_all

    An empty [from] is found again at the end of what it was replaced by. *)
Fixpoint replace_loop (fuel : nat) (str_ from to : str) (start_pos : nat) : option str :=
  match fuel with
  | O => None
  | S f =>
    match find from (drop start_pos str_) with
    | None => Some str_
    | Some i => let p := (start_pos + i)%nat in replace_loop f (replace str_ p (length from) to) from to (p + length to)
    end
  end.
Definition replace_all (str_ from to : str) : option str := replace_loop (S (length str_)) str_ from to 0.

(** [src/driver/okta_proxy.h:39-41] SAML_RESPONSE_PATTERN *)
Definition OKTA_SAML_RESPONSE_PATTERN : std_regex := Eval vm_compute in
  mk_regex true (S!"name=\" ++ dq ++ S!"SAMLResponse\" ++ dq ++ S!".+value=\" ++ dq ++ S!"(.+)\" ++ dq ++ S!"/\>").

Section Okta.
Context `{Http : HttpLib} `{Json : JsonLib} {W : Type}.

(** [src/driver/okta_proxy.cc:43-53] OKTA_PROXY::OKTA_PROXY

    The client of the proxy; that of ADFS is made in the same way. *)
Definition client_config (ds : DataSource) : res http_config :=
  endpoint ← str_option ds "IDP_ENDPOINT"; endpoint ← std_string endpoint;
  port ← int_option ds "IDP_PORT";
  connect ← int_option ds "CLIENT_CONNECT_TIMEOUT"; socket ← int_option ds "CLIENT_SOCKET_TIMEOUT";
  mret (HttpConfig (S!"https://" ++ endpoint ++ S!":" ++ to_string port) connect socket (has_option ds "ENABLE_SSL")).

(** [src/driver/okta_proxy.cc:140-144] OKTA_SAML_UTIL::get_saml_url *)
Definition get_saml_url (ds : DataSource) : res str :=
  app_id ← str_option ds "APP_ID"; app_id ← std_string app_id;
  mret (S!"/app/" ++ S!"amazon_aws" ++ S!"/" ++ app_id ++ S!"/sso/saml").

(** [src/driver/okta_proxy.cc:146-164] OKTA_SAML_UTIL::get_session_token *)
Definition get_session_token (cfg : http_config) (ds : DataSource) : M (auth_state W) str :=
  username ← lift (str_option ds "IDP_USERNAME"); username ← lift (std_string username);
  password ← lift (str_option ds "IDP_PASSWORD"); password ← lift (std_string password);
  res ← catch_http (post cfg (S!"/api/v1/authn") (json_dump [(S!"username", username); (S!"password", password)]) (S!"application/json"))
    (λ e, throw (saml_http_exception (S!"Failed to get session token from Okta : " ++ e ++ S!". Please verify your Okta credentials.")));
  if jv_empty res then mret [] else lift (jv_member res (S!"sessionToken")).

(** [src/driver/okta_proxy.cc:166-189] OKTA_SAML_UTIL::get_saml_assertion *)
Definition okta_assertion (cfg : http_config) (ds : DataSource) : M (auth_state W) str :=
  token ← get_session_token cfg ds;
  url ← lift (get_saml_url ds);
  res ← catch_http (get cfg (url ++ S!"?onetimetoken=" ++ token))
    (λ e, throw (saml_http_exception (S!"Failed to get SAML assertion from Okta : " ++ e ++
                                      S!". Please verify your Okta identity provider configuration on AWS.")));
  body ← lift (jv_string res);
  match regex_search body OKTA_SAML_RESPONSE_PATTERN with
  | Some m =>
    saml ← deref (replace_all (m_str m 1) (S!"&#x2b;") (S!"+"));
    deref (replace_all saml (S!"&#x3d;") (S!"="))
  | None => mret []
  end.
End Okta.

(** ** ADFS *)

(** [src/driver/adfs_proxy.h:40-44] FORM_ACTION_PATTERN *)
Definition FORM_ACTION_PATTERN : std_regex := Eval vm_compute in
  mk_regex true (S!"<form.*?action=\" ++ dq ++ S!"([^\" ++ dq ++ S!"]+)\" ++ dq).
Definition ADFS_SAML_RESPONSE_PATTERN : std_regex := Eval vm_compute in
  mk_regex true (dq ++ S!"SAMLResponse" ++ dq ++ S!"\W+value=" ++ dq ++ S!"(.*?)" ++ dq ++ S!"(\s*/>)").
Definition INPUT_TAG_PATTERN : std_regex := Eval vm_compute in mk_regex true (S!"<input id=(.*)").

(** [src/driver/adfs_proxy.cc:88-121] ADFS_SAML_UTIL::unescape_html_entity *)
Fixpoint unescape_loop (fuel : nat) (html : str) (i : nat) (retval : str) : str :=
  match fuel with
  | O => retval
  | S f =>
    match html !! i with
    | None => retval
    | Some c =>
      if negb (bool_decide (c = "&"%char)) then unescape_loop f html (S i) (retval ++ [c])
      else if bool_decide (substr html i 4 = S!"&lt;") then unescape_loop f html (i + 4) (retval ++ ["<"%char])
      else if bool_decide (substr html i 4 = S!"&gt;") then unescape_loop f html (i + 4) (retval ++ [">"%char])
      else if bool_decide (substr html i 5 = S!"&amp;") then unescape_loop f html (i + 5) (retval ++ ["&"%char])
      else if bool_decide (substr html i 6 = S!"&apos;") then unescape_loop f html (i + 6) (retval ++ ["'"%char])
      else if bool_decide (substr html i 6 = S!"&quot;") then unescape_loop f html (i + 6) (retval ++ dq)
      else unescape_loop f html (S i) (retval ++ [c])
    end
  end.
Definition unescape_html_entity (html : str) : str := unescape_loop (length html) html 0 [].

(** [src/driver/adfs_proxy.cc:145-156] ADFS_SAML_UTIL::get_value_by_key *)
Definition get_value_by_key (input key : str) : str :=
  match regex_search input (mk_regex false (S!"(" ++ key ++ S!")\s*=\s*" ++ dq ++ S!"(.*?)" ++ dq)) with
  | Some m => unescape_html_entity (m_str m 2)
  | None => []
  end.

(** [src/driver/adfs_proxy.cc:123-143] ADFS_SAML_UTIL::get_input_tags_from_html

    [hashSet] holds the names in lower case.  A tag takes a character at
    least. *)
Fixpoint input_tags (fuel : nat) (source : str) (hashSet : list str) : list str :=
  match fuel with
  | O => []
  | S f =>
    match regex_search source INPUT_TAG_PATTERN with
    | None => []
    | Some matches =>
      let tag := whole matches in
      let tagName := tolower <$> get_value_by_key tag (S!"name") in
      if negb (bool_decide (tagName = [])) && negb (bool_decide (tagName ∈ hashSet))
      then tag :: input_tags f (suffix matches) (tagName :: hashSet)
      else input_tags f (suffix matches) hashSet
    end
  end.
Definition get_input_tags_from_html (body : str) : list str := input_tags (S (length body)) body [].

(** [std::map::insert]: an entry that is there stays. *)
Fixpoint map_insert (k v : str) (m : list (str * str)) : list (str * str) :=
  match m with
  | [] => [(k, v)]
  | (k', v') :: m' => if str_ltb k k' then (k, v) :: m else if str_ltb k' k then (k', v') :: map_insert k v m' else m
  end.

Definition contains (s sub : str) : bool := bool_decide (is_Some (find sub s)).

(** The parameter that a tag stands for. *)
Definition tag_parameter (username password inputTag : str) : option (str * str) :=
  let name := get_value_by_key inputTag (S!"name") in
  let value := get_value_by_key inputTag (S!"value") in
  let nameLower := tolower <$> name in
  if contains nameLower (S!"username") then Some (name, username)
  else if contains nameLower (S!"authmethod") && negb (bool_decide (value = [])) then Some (name, value)
  else if contains nameLower (S!"password") then Some (name, password)
  else if negb (bool_decide (name = [])) then Some (name, value)
  else None.

Definition join_parameters (l : list (str * str)) : str :=
  fold_left (λ s p, s ++ (if bool_decide (s = []) then [] else S!"&") ++ p.1 ++ S!"=" ++ p.2) l [].

Definition parameters (username password : str) (tags : list str) : list (str * str) :=
  fold_left (λ m tag, match tag_parameter username password tag with Some (k, v) => map_insert k v m | None => m end) tags [].

(** [src/driver/adfs_proxy.cc:158-190] ADFS_SAML_UTIL::get_parameters_from_html

    The options are read for each tag, but do not change. *)
Definition get_parameters_from_html (ds : DataSource) (body : str) : res str :=
  match get_input_tags_from_html body with
  | [] => mret []
  | tags =>
    username ← str_option ds "IDP_USERNAME"; username ← std_string username;
    password ← str_option ds "IDP_PASSWORD"; password ← std_string password;
    mret (join_parameters (parameters username password tags))
  end.

Section Adfs.
Context `{Http : HttpLib} `{Json : JsonLib} {W : Type}.

(** [src/driver/adfs_proxy.cc:192-202] ADFS_SAML_UTIL::get_form_action_body *)
Definition get_form_action_body (cfg : http_config) (url params : str) : M (auth_state W) str :=
  res ← catch_http (post cfg url params (S!"application/x-www-form-urlencoded"))
    (λ e, throw (saml_http_exception (S!"Failed to get SAML Assertion from ADFS : " ++ e ++ S!". Please verify your ADFS credentials.")));
  if jv_empty res then mret [] else lift (jv_string res).

(** [src/driver/adfs_proxy.cc:64-86] ADFS_SAML_UTIL::get_saml_assertion *)
Definition adfs_assertion (cfg : http_config) (ds : DataSource) : M (auth_state W) str :=
  res ← catch_http (get cfg (S!"/adfs/ls/IdpInitiatedSignOn.aspx?loginToRp=urn:amazon:webservices"))
    (λ e, throw (saml_http_exception (S!"Failed to get sign-in page from ADFS: " ++ e ++ S!". Please verify your IDP endpoint.")));
  body ← lift (jv_string res);
  match regex_search body FORM_ACTION_PATTERN with
  | None => mret []
  | Some m =>
    let form_action := unescape_html_entity (m_str m 1) in
    params ← lift (get_parameters_from_html ds body);
    content ← get_form_action_body cfg form_action params;
    match regex_search content ADFS_SAML_RESPONSE_PATTERN with
    | Some m => mret (m_str m 1)
    | None => mret []
    end
  end.
End Adfs.

(** ** The proxies *)

Section Proxies.
Context `{Http : HttpLib} `{Json : JsonLib} `{Sdk : AwsSdk} `{Sts : !StsClient} {W : Type}.

(** [src/driver/saml_util.cc:40-74] SAML_UTIL::get_aws_credentials

    The host is not used. *)
Definition get_aws_credentials (region role_arn idp_arn : option str) (assertion : str) : M (auth_state W) AWSCredentials :=
  outcome ← sdk_call (λ n, AssumeRoleWithSAML n region role_arn idp_arn assertion);
  mret (default no_credentials outcome).

(** What the two proxies ask a token for; of the port they make different
    things. *)
Definition fed_request (ds : DataSource) (port : res Z) : res token_request :=
  region ← str_option_or ds "FED_AUTH_REGION" (mret (Some US_EAST_1));
  auth_host ← str_option_or ds "FED_AUTH_HOST" (str_option ds "SERVER");
  auth_port ← port;
  uid ← str_option ds "UID";
  expiration ← int_option ds "AUTH_EXPIRATION";
  mret (TokenRequest auth_host region (to_uint32 auth_port) uid (to_uint32 expiration)).

Definition okta_request (ds : DataSource) : res token_request :=
  fed_request ds (auth_port ← int_option ds "FED_AUTH_PORT"; if auth_port =? UNDEFINED_PORT then int_option ds "PORT" else mret auth_port).
Definition adfs_request (ds : DataSource) : res token_request := fed_request ds (int_option ds "FED_AUTH_PORT").

Definition okta_message : str :=
  S!"Unable to generate temporary AWS credentials from the SAML assertion. Please ensure the Okta identity provider is correctly configured with AWS.".
Definition adfs_message : str :=
  S!"Unable to generate temporary AWS credentials from the SAML assertion. Please ensure the ADFS identity provider is correctly configured with AWS.".

(** What [OKTA_PROXY::invoke_func_with_fed_credentials] and
    [ADFS_PROXY::connect] have in common. *)
Definition fed_connect (get_saml_assertion : M (auth_state W) str) (request : res token_request) (message : str) (ds : DataSource)
    (func : str → M (auth_state W) bool) : M (auth_state W) bool :=
  region ← lift (str_option_or ds "FED_AUTH_REGION" (mret (Some US_EAST_1)));
  assertion ← catch_http (a ← get_saml_assertion; mret (Some a)) (λ e, set_custom_error_message e;; mret None);
  match assertion with
  | None => mret false
  | Some assertion =>
    iam_role_arn ← lift (str_option ds "IAM_ROLE_ARN");
    idp_arn ← lift (str_option ds "IAM_IDP_ARN");
    credentials ← get_aws_credentials region iam_role_arn idp_arn assertion;
    let auth_util := AuthUtil (default [] region) credentials in
    rq ← lift request;
    connect_result ← login_with_token auth_util (rq_host rq) (rq_region rq) (rq_port rq) (rq_user rq) (rq_expiration rq) func;
    if connect_result : bool then mret true else
    (if IsEmpty credentials then set_custom_error_message message else mret tt);;
    mret false
  end.

(** [src/driver/okta_proxy.cc:61-111] OKTA_PROXY::invoke_func_with_fed_credentials *)
Definition okta_connect (cfg : http_config) (ds : DataSource) (func : str → M (auth_state W) bool) : M (auth_state W) bool :=
  fed_connect (okta_assertion cfg ds) (okta_request ds) okta_message ds func.
(** [src/driver/adfs_proxy.cc:216-265] ADFS_PROXY::connect *)
Definition adfs_connect (cfg : http_config) (ds : DataSource) (func : str → M (auth_state W) bool) : M (auth_state W) bool :=
  fed_connect (adfs_assertion cfg ds) (adfs_request ds) adfs_message ds func.
End Proxies.

(** ** Texts *)

(** The entities of the five characters that HTML escapes. *)
Definition escape_char (c : ascii) : str :=
  if bool_decide (c = "<"%char) then S!"&lt;" else if bool_decide (c = ">"%char) then S!"&gt;"
  else if bool_decide (c = "&"%char) then S!"&amp;" else if bool_decide (c = "'"%char) then S!"&apos;"
  else if bool_decide (c = Ascii.ascii_of_nat 34) then S!"&quot;" else [c].
Definition escape_html (s : str) : str := concat (escape_char <$> s).

Lemma substr_drop html i n t : drop i html = t → substr html i n = take n t.
Proof. by intros <-. Qed.

Lemma lookup_of_drop html i (c : ascii) t : drop i html = c :: t → html !! i = Some c.
Proof. intros Hd. apply (f_equal (λ l, l !! 0%nat)) in Hd. by rewrite lookup_drop, Nat.add_0_r in Hd. Qed.

(** An entity is read in one round. *)
Lemma unescape_step f html i acc c t :
  drop i html = escape_char c ++ t →
  unescape_loop (S f) html i acc = unescape_loop f html (i + length (escape_char c)) (acc ++ [c]).
Proof.
  assert (∀ w : str, escape_char c = w → drop i html = w ++ t → (w = S!"&lt;" ∧ c = "<"%char) ∨ (w = S!"&gt;" ∧ c = ">"%char) ∨
    (w = S!"&amp;" ∧ c = "&"%char) ∨ (w = S!"&apos;" ∧ c = "'"%char) ∨ (w = S!"&quot;" ∧ c = Ascii.ascii_of_nat 34) ∨ (w = [c] ∧ c ≠ "&"%char)) as Hcases.
  { intros w <- _. unfold escape_char. repeat case_bool_decide; auto 10. }
  intros Hd. specialize (Hcases _ eq_refl Hd). cbn [unescape_loop].
  destruct Hcases as [[E ->]|[[E ->]|[[E ->]|[[E ->]|[[E ->]|[E Hc]]]]]]; rewrite E in Hd |- *; cbn [app String.list_ascii_of_string] in Hd;
    rewrite (lookup_of_drop _ _ _ _ Hd), ?(substr_drop _ _ _ _ Hd); try reflexivity.
  rewrite bool_decide_false by done. cbn [negb length]. by rewrite Nat.add_1_r.
Qed.

Lemma escape_char_pos c : (1 ≤ length (escape_char c))%nat.
Proof. unfold escape_char. repeat case_bool_decide; simpl; lia. Qed.

Lemma unescape_escaped s f html i acc :
  drop i html = escape_html s → (length (escape_html s) ≤ f)%nat → unescape_loop f html i acc = acc ++ s.
Proof.
  revert f i acc. induction s as [|c s IH]; intros f i acc Hd Hf.
  - rewrite app_nil_r. destruct f as [|f]; [done|]. simpl. assert (html !! i = None) as ->; [|done].
    apply lookup_ge_None. apply (f_equal length) in Hd. rewrite length_drop in Hd. simpl in Hd. lia.
  - change (escape_html (c :: s)) with (escape_char c ++ escape_html s) in *. rewrite length_app in Hf.
    pose proof (escape_char_pos c). destruct f as [|f]; [lia|]. rewrite (unescape_step _ _ _ _ c _ Hd), IH.
    + by rewrite <- app_assoc.
    + rewrite <- drop_drop, Hd. by rewrite drop_app_length.
    + lia.
Qed.

(** reading the entities of a text whose five special characters were written as entities gives the text back. *)
Theorem unescape_roundtrip s : unescape_html_entity (escape_html s) = s.
Proof. unfold unescape_html_entity. by rewrite (unescape_escaped s). Qed.

(** The text with every occurrence of [from] replaced, from left to right; [skip]
    characters belong to one that has been. *)
Fixpoint replaced (from to : str) (skip : nat) (s : str) : str :=
  match s with
  | [] => []
  | c :: s' =>
    match skip with
    | S k => replaced from to k s'
    | O => if starts_with from s then to ++ replaced from to (pred (length from)) s' else c :: replaced from to 0 s'
    end
  end.

Lemma replaced_skip from to k s : replaced from to k s = replaced from to 0 (drop k s).
Proof. revert k. induction s as [|c s IH]; intros [|k]; simpl; done. Qed.

Lemma replaced_before from to a b :
  (∀ j, (j < length a)%nat → starts_with from (drop j (a ++ b)) = false) → replaced from to 0 (a ++ b) = a ++ replaced from to 0 b.
Proof.
  induction a as [|c a IH]; intros Hb; [done|]. change ((c :: a) ++ b) with (c :: (a ++ b)) in *. cbn [replaced].
  assert (starts_with from (c :: a ++ b) = false) as -> by (apply (Hb 0%nat); simpl; lia). rewrite IH; [done|]. intros j Hj. apply (Hb (S j)). simpl. lia.
Qed.

Lemma replaced_at from to b : from ≠ [] → replaced from to 0 (from ++ b) = to ++ replaced from to 0 b.
Proof.
  intros Hf. pose proof (starts_with_app from b) as Hs. destruct from as [|c f]; [done|].
  change ((c :: f) ++ b) with (c :: (f ++ b)) in *. cbn [replaced]. rewrite Hs. f_equal. simpl. rewrite replaced_skip. by rewrite drop_app_length.
Qed.

Lemma replace_loop_run f from to pre s :
  from ≠ [] → (length s < f)%nat → replace_loop f (pre ++ s) from to (length pre) = Some (pre ++ replaced from to 0 s).
Proof.
  intros Hf. revert pre s. induction f as [|f IH]; intros pre s Hlen; [lia|]. cbn [replace_loop]. rewrite drop_app_length.
  destruct (find from s) as [i|] eqn:Ei.
  - destruct (find_Some_spec _ _ _ Ei) as (a & b & -> & <- & Hmin).
    rewrite replaced_before by exact Hmin. rewrite replaced_at by done.
    unfold replace.
    assert (take (length pre + length a) (pre ++ a ++ from ++ b) = pre ++ a) as -> by (rewrite app_assoc, <- length_app; apply take_app_length).
    assert (drop (length pre + length a + length from) (pre ++ a ++ from ++ b) = b) as ->.
    { rewrite !app_assoc, <- !length_app. by rewrite drop_app_length. }
    replace (length pre + length a + length to)%nat with (length ((pre ++ a) ++ to)) by (rewrite !length_app; lia).
    rewrite app_assoc. rewrite IH; [by rewrite <- !app_assoc|]. rewrite !length_app in Hlen. destruct from; [done|]. simpl in Hlen. lia.
  - f_equal. f_equal. rewrite find_None_spec in Ei. clear IH Hlen pre. symmetry.
    rewrite <- (app_nil_r s) at 1. rewrite replaced_before; [by rewrite app_nil_r|]. intros j Hj.
    destruct (starts_with from (drop j (s ++ []))) eqn:Es; [|done]. rewrite app_nil_r in Es. apply starts_with_spec in Es as [t Et].
    exfalso. apply (Ei (take j s) t). by rewrite <- Et, take_drop.
Qed.

(** [replace_all] returns, for a text to look for that is not empty, the text in which its occurrences are
    replaced from left to right; what was put in is not looked at again. *)
Theorem replace_all_spec s from to : from ≠ [] → replace_all s from to = Some (replaced from to 0 s).
Proof. intros Hf. unfold replace_all. apply (replace_loop_run _ from to [] s); [done|lia]. Qed.

Lemma replace_all_spec_witness :
  S!"&#x2b;" ≠ [] ∧ replace_all (S!"a&#x2b;&#x2b;b") (S!"&#x2b;") (S!"+") = Some (replaced (S!"&#x2b;") (S!"+") 0 (S!"a&#x2b;&#x2b;b")) ∧
  replaced (S!"&#x2b;") (S!"+") 0 (S!"a&#x2b;&#x2b;b") = S!"a++b".
Proof. split; [done|]. split; [by apply replace_all_spec|reflexivity]. Defined.

(** ** Redirections *)

(** Where the redirections of an answer lead: to a page, to another answer, to a
    request that fails, or nowhere, when an answer does not say where to. *)
Inductive journey := Arrived (r : response) | Refused (r : response) | Broken | Astray.

Fixpoint redirected `{HttpLib} (cfg : http_config) (left_ : nat) (n : nat) (r : response) : journey * nat :=
  if status r =? 302 then
    match left_ with
    | O => (Refused r, n)
    | S k =>
      match location r with
      | None => (Astray, n)
      | Some path =>
        match http_Get cfg n false path (Some (cookies (headers r))) with
        | None => (Broken, S n)
        | Some r' => if status r' =? 200 then (Arrived r', S n) else redirected cfg k (S n) r'
        end
      end
    end
  else (Refused r, n).

Section Redirections.
Context `{Http : HttpLib} `{Json : JsonLib} {W : Type}.

Definition with_calls (n : nat) (s : auth_state W) : auth_state W :=
  AuthState (token_cache s) (wall s) n (custom_error_message s) (next s).

Lemma sdk_call_bind {A B} (f : nat → A) (k : A → M (auth_state W) B) s :
  (sdk_call f ≫= k) s = k (f (calls s)) (with_calls (S (calls s)) s).
Proof. done. Qed.

Definition outcome_of (content_type : str) (j : journey) : M (auth_state W) json_value :=
  match j with
  | Arrived r => content content_type r
  | Refused r => throw (saml_http_exception (to_string (status r) ++ S!" " ++ reason r))
  | Broken => undefined
  | Astray => throw no_return
  end.

Lemma redirect_loop_run fuel cfg ct left_ r (s : auth_state W) :
  (left_ ≤ fuel)%nat →
  redirect_loop fuel cfg ct (r, Z.of_nat left_) s =
  let '(j, n) := redirected cfg left_ (calls s) r in outcome_of ct j (with_calls n s).
Proof.
  assert (∀ s : auth_state W, with_calls (calls s) s = s) as Hsame by by intros [].
  assert (∀ fuel st (s : auth_state W), status st.1 = 302 → 0 < st.2 → location st.1 = None → redirect_loop fuel cfg ct st s = (Throw no_return, s)) as Hspin.
  { clear. induction fuel as [|fuel IH]; intros st s Es Hp Hl; cbn [redirect_loop]; rewrite Es, (proj2 (Z.ltb_lt 0 st.2)) by done; [done|].
    cbn [Z.eqb Pos.eqb andb]. unfold follow. rewrite Hl, ret_bind, Es. by apply IH. }
  revert left_ r s. induction fuel as [|fuel IH]; intros left_ r s Hle.
  - assert (left_ = 0%nat) as -> by lia. cbn. destruct (status r =? 302); simpl; by rewrite Hsame.
  - destruct left_ as [|k].
    { cbn [redirect_loop redirected fst snd Z.of_nat]. rewrite Z.ltb_irrefl, andb_false_r. destruct (status r =? 302); simpl; by rewrite Hsame. }
    cbn [redirected]. destruct (status r =? 302) eqn:Es.
    2: { cbn [redirect_loop fst]. rewrite Es. simpl. by rewrite Hsame. }
    destruct (location r) as [path|] eqn:El.
    2: { rewrite Hspin; [simpl; by rewrite Hsame|by apply Z.eqb_eq|simpl; lia|done]. }
    cbn [redirect_loop fst snd]. rewrite Es, (proj2 (Z.ltb_lt 0 (Z.of_nat (S k)))) by lia. cbn [andb].
    unfold follow. cbn [fst snd]. rewrite El, bind_assoc, sdk_call_bind, bind_assoc.
    destruct (http_Get cfg (calls s) false path _) as [r'|]; [|done]. cbn [deref]. rewrite ret_bind, ret_bind. cbn [fst snd].
    destruct (status r' =? 200); [done|]. replace (Z.of_nat (S k) - 1) with (Z.of_nat k) by lia. rewrite IH by lia. simpl.
    by destruct (redirected cfg k (S (calls s)) r') as [j n].
Qed.

(** a post request follows at most twenty redirections and ends with the page it arrives at, with an exception that
    has the last answer, or, when a request of a redirection fails, in undefined behaviour; but a redirection that does
    not say where to is followed for ever, whatever the fuel. *)
Theorem post_redirects fuel cfg path value ct (s : auth_state W) :
  (20 ≤ fuel)%nat →
  post_with fuel cfg path value ct s =
  match http_Post cfg (calls s) path value ct with
  | None => (Throw (saml_http_exception (S!"Post request failed")), with_calls (S (calls s)) s)
  | Some r =>
    if status r =? 200 then content ct r (with_calls (S (calls s)) s)
    else let '(j, n) := redirected cfg 20 (S (calls s)) r in outcome_of ct j (with_calls n s)
  end.
Proof.
  intros Hf. unfold post_with. rewrite sdk_call_bind. destruct (http_Post cfg (calls s) path value ct) as [r|]; [|done].
  destruct (status r =? 200); [done|]. change MAX_REDIRECT_COUNT with (Z.of_nat 20). rewrite redirect_loop_run by done. simpl.
  by destruct (redirected cfg 20 (S (calls s)) r) as [j n].
Qed.

(** The requests of a journey are one for each redirection. *)
Lemma redirected_calls cfg k n r : (n ≤ (redirected cfg k n r).2 ≤ n + k)%nat.
Proof.
  revert n r. induction k as [|k IH]; intros n r; simpl; destruct (status r =? 302); simpl; try lia.
  destruct (location r); simpl; [|lia]. destruct (http_Get _ _ _ _ _) as [r'|]; simpl; [|lia].
  destruct (status r' =? 200); simpl; [lia|]. specialize (IH (S n) r'). lia.
Qed.
End Redirections.

(** ** The form of ADFS *)

(** Whether two texts are the names of one parameter. *)
Lemma elem_of_map_insert k v m p : p ∈ map_insert k v m → p = (k, v) ∨ p ∈ m.
Proof.
  induction m as [|[k' v'] m IH]; simpl; [set_solver|]. destruct (str_ltb k k'); [set_solver|]. destruct (str_ltb k' k); [|set_solver].
  intros [->|H]%elem_of_cons; [set_solver|]. destruct (IH H); set_solver.
Qed.

Lemma map_insert_keys k v m : ∀ x, x ∈ (map_insert k v m).*1 ↔ x = k ∨ x ∈ m.*1.
Proof.
  intros x. induction m as [|[k' v'] m IH]; simpl; [set_solver|]. destruct (str_ltb k k') eqn:E1; [set_solver|]. destruct (str_ltb k' k) eqn:E2; [set_solver|].
  assert (k = k') as -> by (by apply str_ltb_connected). set_solver.
Qed.

Definition key_lt (p q : str * str) : Prop := str_ltb p.1 q.1 = true.

Lemma map_insert_sorted k v m : StronglySorted key_lt m → StronglySorted key_lt (map_insert k v m).
Proof.
  induction 1 as [|[k' v'] m Hm IH Hall]; simpl; [by repeat constructor|].
  destruct (str_ltb k k') eqn:E1; [|destruct (str_ltb k' k) eqn:E2; [|by constructor]].
  - constructor; [by constructor|]. constructor; [done|]. eapply Forall_impl; [exact Hall|]. intros q Hq. by eapply str_ltb_trans.
  - constructor; [done|]. apply Forall_forall. intros q [->|Hq]%elem_of_map_insert; [done|]. rewrite Forall_forall in Hall. by apply Hall.
Qed.

Lemma parameters_app u p tags tag : parameters u p (tags ++ [tag]) = match tag_parameter u p tag with Some (k, v) => map_insert k v (parameters u p tags) | None => parameters u p tags end.
Proof. unfold parameters. by rewrite fold_left_app. Qed.

(** the parameters that are posted to ADFS are in strict order of their names, come each from a tag, and there is
    one for every tag that has a name; a tag whose name has "username" in it stands for the user's name, one with
    "password" in it for the password. *)
Theorem form_parameters_spec username password tags :
  StronglySorted key_lt (parameters username password tags) ∧
  (∀ p, p ∈ parameters username password tags → ∃ tag, tag ∈ tags ∧ tag_parameter username password tag = Some p) ∧
  (∀ tag, tag ∈ tags → get_value_by_key tag (S!"name") ≠ [] → get_value_by_key tag (S!"name") ∈ (parameters username password tags).*1) ∧
  (∀ k v, (k, v) ∈ parameters username password tags →
     (contains (tolower <$> k) (S!"username") = true → v = username) ∧
     (contains (tolower <$> k) (S!"username") = false → contains (tolower <$> k) (S!"authmethod") = false →
      contains (tolower <$> k) (S!"password") = true → v = password)).
Proof.
  assert (∀ tag k v, tag_parameter username password tag = Some (k, v) →
    k = get_value_by_key tag (S!"name") ∧
    (contains (tolower <$> k) (S!"username") = true → v = username) ∧
    (contains (tolower <$> k) (S!"username") = false → contains (tolower <$> k) (S!"authmethod") = false →
      contains (tolower <$> k) (S!"password") = true → v = password)) as Htag.
  { intros tag k v. unfold tag_parameter. repeat case_match; intros E; simplify_eq; split_and!; try done; intros; try match goal with H : _ && _ = true |- _ => apply andb_prop in H as [? ?] end; congruence. }
  assert (∀ tag, get_value_by_key tag (S!"name") ≠ [] → is_Some (tag_parameter username password tag)) as Hsome.
  { intros tag Hn. unfold tag_parameter. rewrite (bool_decide_false (get_value_by_key tag (S!"name") = [])) by done. by repeat case_match. }
  assert (StronglySorted key_lt (parameters username password tags) ∧
    (∀ p, p ∈ parameters username password tags → ∃ tag, tag ∈ tags ∧ tag_parameter username password tag = Some p) ∧
    (∀ tag, tag ∈ tags → get_value_by_key tag (S!"name") ≠ [] → get_value_by_key tag (S!"name") ∈ (parameters username password tags).*1)) as (H1 & H2 & H3).
  { induction tags as [|tag tags (IH1 & IH2 & IH3)] using rev_ind; [split; [constructor|]; split; [intros p Hp; by apply not_elem_of_nil in Hp|intros tag Hp; by apply not_elem_of_nil in Hp]|].
    rewrite parameters_app. destruct (tag_parameter username password tag) as [[k v]|] eqn:Et.
    - split; [by apply map_insert_sorted|]. split.
      + intros p [->|Hp]%elem_of_map_insert; [exists tag; set_solver|]. destruct (IH2 p Hp) as (t & Ht & E). exists t. set_solver.
      + intros t [Ht| ->%list_elem_of_singleton]%elem_of_app Hn; apply map_insert_keys; [right; by apply IH3|]. left. by destruct (Htag _ _ _ Et) as [-> _].
    - split; [done|]. split; [intros p Hp; destruct (IH2 p Hp) as (t & Ht & E); exists t; set_solver|].
      intros t [Ht| ->%list_elem_of_singleton]%elem_of_app Hn; [by apply IH3|]. destruct (Hsome tag Hn) as [? E]. congruence. }
  split; [done|]. split; [done|]. split; [done|]. intros k v Hkv. destruct (H2 _ Hkv) as (tag & _ & Et). apply (Htag _ _ _ Et).
Qed.

(** ** The proxies of federated authentication *)

Section Federated.
Context `{Http : HttpLib} `{Json : JsonLib} `{Sdk : AwsSdk} `{Sts : !StsClient}.

(** What a login does with the outcome of the exchange: with an assertion a
    token is made with the credentials it is worth and tried as a password; an
    error of the exchange is the message of the proxy. *)
Definition follows_assertion (connect : (str → M (auth_state (list str)) bool) → M (auth_state (list str)) bool)
    (assertion : M (auth_state (list str)) str) (region role idp : option str) (rq : token_request) (message : str) : Prop :=
  ∀ accepts s,
  match assertion s with
  | (Ok a, s1) =>
    let credentials := default no_credentials (AssumeRoleWithSAML (calls s1) region role idp a) in
    let fresh := generated (AuthUtil (default [] region) credentials) rq (S (calls s1)) in
    let cached := live s1 (request_key rq) in
    let tried := attempts accepts cached fresh in
    ∃ s', connect (try_login accepts) s = (Ok (existsb accepts tried), s') ∧ next s' = next s1 ++ tried ∧
      (if needs_fresh accepts cached then token <$> token_cache s' !! request_key rq = Some fresh else token_cache s' = token_cache s1) ∧
      custom_error_message s' =
        if negb (existsb accepts tried) && IsEmpty credentials then Some message else custom_error_message s1
  | (Throw (saml_http_exception e), s1) => connect (try_login accepts) s = (Ok false, set_message (Some e) s1)
  | (Throw e, s1) => connect (try_login accepts) s = (Throw e, s1)
  | (UB, s1) => connect (try_login accepts) s = (UB, s1)
  end.

Lemma lift_ok_bind {S A B} (a : A) (k : A → M S B) s : (lift (Ok a) ≫= k) s = k a s.
Proof. done. Qed.

Lemma fed_connect_run assertion request message ds region role idp rq :
  str_option_or ds "FED_AUTH_REGION" (mret (Some US_EAST_1)) = Ok region →
  str_option ds "IAM_ROLE_ARN" = Ok role → str_option ds "IAM_IDP_ARN" = Ok idp → request = Ok rq →
  follows_assertion (fed_connect assertion request message ds) assertion region role idp rq message.
Proof.
  intros Er Ero Ei Erq accepts s. unfold fed_connect. rewrite Er, Ero, Ei, Erq, lift_ok_bind.
  match goal with |- context [(catch_http ?m ?h ≫= ?k) s] => set (caught := catch_http m h); set (rest := k) end.
  assert (caught s = match assertion s with
    | (Ok a, s1) => (Ok (Some a), s1) | (Throw (saml_http_exception e), s1) => (Ok None, set_message (Some e) s1)
    | (Throw e, s1) => (Throw e, s1) | (UB, s1) => (UB, s1) end) as Ec.
  { unfold caught, catch_http, mbind, M_bind. by destruct (assertion s) as [[a|[]|] s1]. }
  clearbody caught. unfold mbind, M_bind. rewrite Ec. destruct (assertion s) as [[a|[]|] s1]; try done. clear Ec caught. unfold rest.
  rewrite !lift_ok_bind. unfold get_aws_credentials. rewrite bind_assoc, sdk_call_bind, ret_bind, lift_ok_bind.
  set (u := AuthUtil _ _). set (s2 := with_calls _ _).
  destruct (login_run u rq accepts s2) as (s3 & E3 & Hn & Hm & Hc). unfold login in E3.
  rewrite (bind_Ok _ _ _ _ _ E3). change (calls s2) with (S (calls s1)) in *. change (live s2 (request_key rq)) with (live s1 (request_key rq)) in *.
  set (tried := attempts _ _ _) in *. exists (if existsb accepts tried then s3 else if IsEmpty (client_credentials u) then set_message (Some message) s3 else s3).
  destruct (existsb accepts tried).
  - split; [done|]. split; [exact Hn|]. split; [by destruct (needs_fresh _ _); destruct Hc|done].
  - split; [cbn [client_credentials u]; by destruct (IsEmpty _)|]. destruct (IsEmpty (client_credentials u)) eqn:Ee; cbn [client_credentials u] in Ee; rewrite Ee;
      (split; [exact Hn|]); (split; [by destruct (needs_fresh _ _); destruct Hc|done]).
Qed.

(** a login through Okta or ADFS ends without trying a password when the exchange fails, with its error as the
    message; otherwise it tries the cached token and a fresh one, which is made with the credentials the assertion is
    worth, and its message tells when there are none. Without a port of its own a token is for the port of the
    connection with Okta, but for the largest number with ADFS. *)
Theorem fed_connect_spec cfg ds region role idp rq rq' :
  str_option_or ds "FED_AUTH_REGION" (mret (Some US_EAST_1)) = Ok region →
  str_option ds "IAM_ROLE_ARN" = Ok role → str_option ds "IAM_IDP_ARN" = Ok idp →
  okta_request ds = Ok rq → adfs_request ds = Ok rq' →
  follows_assertion (okta_connect cfg ds) (okta_assertion cfg ds) region role idp rq okta_message ∧
  follows_assertion (adfs_connect cfg ds) (adfs_assertion cfg ds) region role idp rq' adfs_message ∧
  (int_option ds "FED_AUTH_PORT" = Ok UNDEFINED_PORT → ∀ port, int_option ds "PORT" = Ok port →
   rq_port rq = to_uint32 port ∧ rq_port rq' = 4294967295).
Proof.
  intros Er Ero Ei Eq Eq'. split; [by apply fed_connect_run|]. split; [by apply fed_connect_run|].
  intros Ep port Epo. unfold okta_request, adfs_request, fed_request in Eq, Eq'. rewrite Er, Ep in Eq, Eq'.
  unfold mbind, res_bind in Eq, Eq'. cbn [mret res_ret Z.eqb UNDEFINED_PORT Pos.eqb] in Eq, Eq'. rewrite Epo in Eq.
  destruct (str_option_or ds "FED_AUTH_HOST" _); [|done..]. destruct (str_option ds "UID"); [|done..].
  destruct (int_option ds "AUTH_EXPIRATION"); [|done..]. injection Eq as <-. injection Eq' as <-. by split.
Qed.
End Federated.

(** ** Examples *)

Section Examples.

Definition ex_tag (name value : string) : str :=
  S!"<input id=x name=" ++ dq ++ S!name ++ dq ++ S!" value=" ++ dq ++ S!value ++ dq ++ S!"/>" ++ [Ascii.ascii_of_nat 10].

(** The sign-in page, with a form of three fields, and the answer to it. *)
Definition ex_page : str :=
  S!"<form action=" ++ dq ++ S!"/go?a=1&amp;b=2" ++ dq ++ S!">" ++ [Ascii.ascii_of_nat 10] ++
  ex_tag "UserName" "" ++ ex_tag "Password" "" ++ ex_tag "Kmsi" "true" ++ ex_tag "username" "".
Definition ex_answer : str := S!"<input name=" ++ dq ++ S!"SAMLResponse" ++ dq ++ S!" value=" ++ dq ++ S!"QUJD" ++ dq ++ S!" />".

(** A server that redirects once; a path under which it redirects to nowhere; the
    form is posted to the unescaped address. *)
#[local] Instance ex_http : HttpLib := {|
  http_Post := λ _ _ path value _,
    if bool_decide (path = S!"/lost") then Some (Response 302 (S!"Found") [] [])
    else if bool_decide (path = S!"/go?a=1&b=2") && bool_decide (value = S!"Kmsi=true&Password=p&UserName=u")
    then Some (Response 302 (S!"Found") [(S!"Location", S!"/next"); (S!"set-cookie", S!"c=1")] [])
    else None;
  http_Get := λ _ _ follow path cookie,
    if bool_decide (path = S!"/next") && bool_decide (cookie = Some (S!"c=1;")) then Some (Response 200 (S!"OK") [] ex_answer)
    else if follow then Some (Response 200 (S!"OK") [] ex_page) else None |}.

#[local] Instance ex_json : JsonLib := {|
  json := unit; json_parse := λ _, Ok tt; json_empty := λ _, true; json_member := λ _ _, Ok []; json_as_string := λ _, Ok [];
  json_dump := λ _, [] |}.
#[local] Existing Instance ex_sdk.
#[local] Instance ex_sts : StsClient := λ _ _ _ _ assertion, if bool_decide (assertion = S!"QUJD") then Some true else None.

Definition ex_cfg : http_config := HttpConfig (S!"https://idp:443") 60 60 true.
Definition ex_fed_ds : DataSource :=
  <["IDP_USERNAME" := ex_str "u"]> (<["IDP_PASSWORD" := ex_str "p"]> (<["APP_ID" := ex_str "app"]> (<["IAM_ROLE_ARN" := ex_str "role"]>
  (<["IAM_IDP_ARN" := ex_str "idp"]> (<["FED_AUTH_PORT" := Option true false (Int (-1))]> ex_ds))))).
Definition ex_start : auth_state (list str) := AuthState ∅ (Clock (λ n, Z.of_nat n) 0) 0 None [].

Lemma post_redirects_witness :
  (20 ≤ 20)%nat ∧
  post_with 20 ex_cfg (S!"/lost") [] [] ex_start = (Throw no_return, with_calls 1 ex_start) ∧
  post_with 20 ex_cfg (S!"/go?a=1&b=2") (S!"Kmsi=true&Password=p&UserName=u") [] ex_start = (Ok (JText ex_answer), with_calls 2 ex_start).
Proof.
  split; [lia|]. split.
  - etransitivity; [exact (post_redirects 20 ex_cfg (S!"/lost") [] [] ex_start (le_n 20))|]. vm_compute. reflexivity.
  - etransitivity; [exact (post_redirects 20 ex_cfg (S!"/go?a=1&b=2") (S!"Kmsi=true&Password=p&UserName=u") [] ex_start (le_n 20))|].
    vm_compute. reflexivity.
Defined.

Definition ex_okta_rq : token_request := TokenRequest (Some (S!"db")) (Some US_EAST_1) 3306 (Some (S!"u")) 900.
Definition ex_adfs_rq : token_request := TokenRequest (Some (S!"db")) (Some US_EAST_1) 4294967295 (Some (S!"u")) 900.

Lemma ex_fed_options :
  str_option_or ex_fed_ds "FED_AUTH_REGION" (mret (Some US_EAST_1)) = Ok (Some US_EAST_1) ∧
  str_option ex_fed_ds "IAM_ROLE_ARN" = Ok (Some (S!"role")) ∧ str_option ex_fed_ds "IAM_IDP_ARN" = Ok (Some (S!"idp")) ∧
  okta_request ex_fed_ds = Ok ex_okta_rq ∧ adfs_request ex_fed_ds = Ok ex_adfs_rq ∧
  int_option ex_fed_ds "FED_AUTH_PORT" = Ok UNDEFINED_PORT ∧ int_option ex_fed_ds "PORT" = Ok 3306.
Proof. vm_compute. split_and!; reflexivity. Qed.

(** The exchange with ADFS yields the assertion of the answer. *)
Lemma ex_assertion : (adfs_assertion ex_cfg ex_fed_ds ex_start).1 = Ok (S!"QUJD").
Proof. vm_compute. reflexivity. Qed.

Lemma fed_connect_spec_witness :
  okta_request ex_fed_ds = Ok ex_okta_rq ∧
  follows_assertion (okta_connect ex_cfg ex_fed_ds) (okta_assertion ex_cfg ex_fed_ds) (Some US_EAST_1) (Some (S!"role")) (Some (S!"idp")) ex_okta_rq okta_message ∧
  follows_assertion (adfs_connect ex_cfg ex_fed_ds) (adfs_assertion ex_cfg ex_fed_ds) (Some US_EAST_1) (Some (S!"role")) (Some (S!"idp")) ex_adfs_rq adfs_message ∧
  rq_port ex_okta_rq = to_uint32 3306 ∧ rq_port ex_adfs_rq = 4294967295.
Proof.
  destruct ex_fed_options as (E1 & E2 & E3 & E4 & E5 & E6 & E7).
  destruct (fed_connect_spec ex_cfg ex_fed_ds _ _ _ _ _ E1 E2 E3 E4 E5) as (H1 & H2 & H3).
  split; [exact E4|]. split; [exact H1|]. split; [exact H2|]. exact (H3 E6 3306 E7).
Defined.
End Examples.
