(* ===== verification/Secrets.v ===== *)
(** Authentication with a secret (src/driver/secrets_manager_proxy.cc,
    src/driver/secrets_manager_proxy.h): the cache of secrets and the proxy that
    logs in with the user and the password of one.

    The service and the JSON library are interfaces. *)

From S2P Require Import Prelude CppString Regex RdsUtils CacheMap DataSource AuthToken.

Local Open Scope Z_scope.

(** [SecretsManagerClient::GetSecretValue], in a region, and
    [Aws::Utils::Json::JsonValue]: an answer is a text or the message of an
    error. *)
Class SecretsManager := GetSecretValue : nat → str → str → str + str.
Class SecretJson := {
  JsonValue : Type;
  default_json : JsonValue;
  read_json : str → str + JsonValue;
  GetString : JsonValue → str → option str
}.

(** [src/driver/secrets_manager_proxy.cc:48-48] SECRETS_ARN_PATTERN *)
Definition SECRETS_ARN_PATTERN : std_regex := Eval vm_compute in mk_regex false "arn:aws:secretsmanager:([-a-zA-Z0-9]+):.*".

(** [src/driver/secrets_manager_proxy.cc:208-217] SECRETS_MANAGER_PROXY::try_parse_region_from_secret *)
Definition try_parse_region_from_secret (secret region : str) : bool * str :=
  match regex_search secret SECRETS_ARN_PATTERN with
  | Some matches => if (1 <? Z.of_nat (m_size SECRETS_ARN_PATTERN)) then (true, m_str matches 1) else (false, region)
  | None => (false, region)
  end.

Section Secrets.
Context `{Sm : SecretsManager} `{Json : SecretJson} {W : Type}.

(** [src/driver/secrets_manager_proxy.h:41-73] SECRETS_MANAGER_PROXY

    The cache of the class, the secret and the message of the proxy, and what
    the calls of the next proxy act on. *)
Record secrets_state := SecretsState {
  secrets_cache : gmap (str * str) JsonValue;
  sm_calls : nat;
  secret_key : str * str;
  secret_json_value : JsonValue;
  sm_message : option str;
  sm_next : W
}.

Definition set_secrets_cache (m : gmap (str * str) JsonValue) (s : secrets_state) : secrets_state :=
  SecretsState m (sm_calls s) (secret_key s) (secret_json_value s) (sm_message s) (sm_next s).
Definition set_secret (v : JsonValue) (s : secrets_state) : secrets_state :=
  SecretsState (secrets_cache s) (sm_calls s) (secret_key s) v (sm_message s) (sm_next s).
Definition set_sm_message (m : str) (s : secrets_state) : secrets_state :=
  SecretsState (secrets_cache s) (sm_calls s) (secret_key s) (secret_json_value s) (Some m) (sm_next s).
Definition set_sm_next (w : W) (s : secrets_state) : secrets_state :=
  SecretsState (secrets_cache s) (sm_calls s) (secret_key s) (secret_json_value s) (sm_message s) w.

(** [src/driver/secrets_manager_proxy.cc:54-76] SECRETS_MANAGER_PROXY::SECRETS_MANAGER_PROXY

    The key of the secret: its name and the region. *)
Definition new_secret_key (ds : DataSource) : res (str * str) :=
  secret_ID ← (if has_option ds "AUTH_SECRET_ID" then str_option ds "AUTH_SECRET_ID" else mret None);
  region ← (if has_option ds "AUTH_REGION" then r ← str_option ds "AUTH_REGION"; mret (default [] r) else mret []);
  let region := match secret_ID with
    | Some id => if bool_decide (region = []) then (try_parse_region_from_secret id region).2 else region
    | None => region
    end in
  mret (default [] secret_ID, if bool_decide (region = []) then US_EAST_1 else region).

(** [src/driver/secrets_manager_proxy.cc:179-190] SECRETS_MANAGER_PROXY::parse_json_value *)
Definition parse_json_value (json_string : str) : M secrets_state bool :=
  match read_json json_string with
  | inl error_message => modify (set_sm_message error_message);; mret false
  | inr v => modify (set_secret v);; mret true
  end.

(** [src/driver/secrets_manager_proxy.cc:160-177] SECRETS_MANAGER_PROXY::fetch_latest_credentials *)
Definition fetch_latest_credentials : M secrets_state bool :=
  s ← get;
  modify (λ s, SecretsState (secrets_cache s) (S (sm_calls s)) (secret_key s) (secret_json_value s) (sm_message s) (sm_next s));;
  match GetSecretValue (sm_calls s) (secret_key s).2 (secret_key s).1 with
  | inl error_message => modify (set_sm_message error_message);; mret false
  | inr secret_string => parse_json_value secret_string
  end.

(** [src/driver/secrets_manager_proxy.cc:141-158] SECRETS_MANAGER_PROXY::update_secret

    Under the lock of the cache.  Whether the secret was fetched. *)
Definition update_secret (force_re_fetch : bool) : M secrets_state bool :=
  s ← get;
  match secrets_cache s !! secret_key s with
  | Some v => if negb force_re_fetch then modify (set_secret v);; mret false else
      fetched ← fetch_latest_credentials;
      (if fetched : bool then modify (λ s, set_secrets_cache (<[secret_key s := secret_json_value s]> (secrets_cache s)) s) else mret tt);;
      mret fetched
  | None =>
      fetched ← fetch_latest_credentials;
      (if fetched : bool then modify (λ s, set_secrets_cache (<[secret_key s := secret_json_value s]> (secrets_cache s)) s) else mret tt);;
      mret fetched
  end.

Definition USERNAME_KEY : str := S!"username".
Definition PASSWORD_KEY : str := S!"password".

(** [src/driver/secrets_manager_proxy.cc:192-206] SECRETS_MANAGER_PROXY::get_from_secret_json_value *)
Definition get_from_secret_json_value (key : str) : M secrets_state str :=
  s ← get;
  match GetString (secret_json_value s) key with
  | Some value => mret value
  | None => modify (set_sm_message (S!"Unable to extract the " ++ key ++ S!" from secrets manager response."));; mret []
  end.

Definition missing_message : str := S!"Missing required config parameter for Secrets Manager: Secret ID".
Definition failed_message : str := S!"Failed to fetch username or password from Secrets Manager.".

(** [src/driver/secrets_manager_proxy.cc:107-139] SECRETS_MANAGER_PROXY::invoke_func_with_retrieved_secret

    [access_denied] is whether the error of the next proxy is
    [ER_ACCESS_DENIED_ERROR]. *)
Definition invoke_func_with_retrieved_secret (access_denied : M secrets_state bool) (func : str → str → M secrets_state bool) : M secrets_state bool :=
  s ← get;
  if bool_decide ((secret_key s).1 = []) then modify (set_sm_message missing_message);; mret false else
  fetched ← update_secret false;
  username ← get_from_secret_json_value USERNAME_KEY;
  password ← get_from_secret_json_value PASSWORD_KEY;
  if bool_decide (username = []) || bool_decide (password = []) then modify (set_sm_message failed_message);; mret false else
  ret ← func username password;
  retry ← (if negb ret then denied ← access_denied; mret (denied && negb fetched) else mret false);
  if retry : bool then
    fetched ← update_secret true;
    if fetched : bool then
      username ← get_from_secret_json_value USERNAME_KEY;
      password ← get_from_secret_json_value PASSWORD_KEY;
      func username password
    else mret ret
  else mret ret.

(** [src/driver/secrets_manager_proxy.cc:95-105] SECRETS_MANAGER_PROXY::connect, SECRETS_MANAGER_PROXY::change_user

    The call of the next proxy with the user and the password. *)
Definition secrets_connect := invoke_func_with_retrieved_secret.
Definition secrets_change_user := invoke_func_with_retrieved_secret.
End Secrets.
Arguments secrets_state {Json} W.

(** ** The region of a secret *)

(** A pattern behind a literal. *)
Fixpoint seq_lit (l : str) (r : regex) : regex := match l with [] => r | c :: l' => RSeq (RChar c) (seq_lit l' r) end.

Lemma mtch_seq_lit l r st st' :
  mtch false (seq_lit l r) st st' ↔ ∃ t, rest st = l ++ t ∧ mtch false r (MState (pos st + length l) t (caps st)) st'.
Proof.
  revert st. induction l as [|c l IH]; intros st; cbn [seq_lit mtch].
  - cbn [length app]. rewrite Nat.add_0_r. split; [intros H; exists (rest st); by destruct st|intros (t & <- & H); by destruct st].
  - split.
    + intros (st1 & (d & s & Hr & Hd & ->) & H). apply IH in H as (t & Ht & H). simpl in *. apply bool_decide_eq_true in Hd as <-.
      exists t. split; [by rewrite Hr, Ht|]. cbn [length]. by rewrite <- plus_n_Sm.
    + intros (t & Hr & H). exists (MState (S (pos st)) (l ++ t) (caps st)). split.
      * exists c, (l ++ t). split; [done|]. split; [by apply bool_decide_eq_true|done].
      * apply IH. exists t. split; [done|]. cbn [length] in H. by rewrite <- plus_n_Sm in H.
Qed.

Definition region_class : cclass := CClass false [("-"%char, "-"%char); ("a"%char, "z"%char); ("A"%char, "Z"%char); ("0"%char, "9"%char)].
Definition arn_tail : regex := RSeq (RGroup 1 (RRep 1 None true (RClass region_class))) (RSeq (RChar ":"%char) (RRep 0 None true RAny)).

Lemma arn_pattern_shape : SECRETS_ARN_PATTERN = StdRegex false (seq_lit (S!"arn:aws:secretsmanager:") arn_tail).
Proof. reflexivity. Qed.

Lemma region_colon c : in_class false region_class c = true → c ≠ ":"%char.
Proof. intros H ->. by vm_compute in H. Qed.

Lemma lang_seq_lit l r w : lang false r w → lang false (seq_lit l r) (l ++ w).
Proof.
  intros Hw. induction l as [|c l IH]; [done|]. exists [c], (l ++ w). split; [done|]. split; [|done]. exists c. split; [done|]. by apply bool_decide_eq_true.
Qed.

Lemma colon_split (a b x y : str) : Forall (λ c, c ≠ ":"%char) a → Forall (λ c, c ≠ ":"%char) b → a ++ ":"%char :: x = b ++ ":"%char :: y → a = b.
Proof.
  intros Ha Hb E. apply (app_sep_inj ":"%char a b x y) in E as [-> _]; [done|..]; intros Hin; [rewrite Forall_forall in Ha; by apply (Ha _ Hin)|rewrite Forall_forall in Hb; by apply (Hb _ Hin)].
Qed.

(** the region of the name of a secret is the part that follows "arn:aws:secretsmanager:", whatever comes behind its
    colon. *)
Theorem region_from_arn region rest_ other :
  region ≠ [] → Forall (λ c, in_class false region_class c = true) region →
  try_parse_region_from_secret (S!"arn:aws:secretsmanager:" ++ region ++ S!":" ++ rest_) other = (true, region).
Proof.
  intros Hne Hcl. unfold try_parse_region_from_secret. rewrite arn_pattern_shape. set (L := S!"arn:aws:secretsmanager:"). set (text := L ++ region ++ S!":" ++ rest_).
  assert (lang false (seq_lit L arn_tail) (L ++ region ++ S!":")) as Hl.
  { apply lang_seq_lit. exists region, (S!":"). split; [done|]. split; [by apply lang_some_of|]. exists (S!":"), []. split; [done|].
    split; [by eexists|]. exists []. split; [done|]. split; [constructor|]. split; simpl; lia. }
  destruct (mtch_complete false (seq_lit L arn_tail) eq_refl (MState 0 text []) _ rest_ Hl) as (st & Hst & _).
  { unfold text. simpl. by rewrite <- !app_assoc. }
  destruct (regex_search_front text (StdRegex false (seq_lit L arn_tail)) st Hst) as (st' & -> & Hm). clear st Hst Hl.
  cbn [icase pattern] in Hm. apply mtch_seq_lit in Hm as (t & Ht & (s1 & H1 & s2 & H2 & H3)). apply app_inv_head in Ht as <-.
  apply mtch_group_inv in H1 as (w & t1 & Hw & Hr & ->); [|done]. apply lang_some_of in Hw as [_ Hw]. simpl in Hr.
  apply mtch_plain_inv in H2 as (w2 & t2 & (c & -> & Hc%bool_decide_eq_true) & Hr2 & ->); [|done]. simpl in Hr2. subst c t1.
  apply mtch_plain_inv in H3 as (w3 & t3 & _ & _ & ->); [|done].
  apply colon_split in Hr as <-; [|by eapply Forall_impl; [done|]; intros c; apply region_colon..]. done.
Qed.

Lemma region_from_arn_witness :
  S!"eu-west-1" ≠ [] ∧ Forall (λ c, in_class false region_class c = true) (S!"eu-west-1") ∧
  try_parse_region_from_secret (S!"arn:aws:secretsmanager:eu-west-1:123:secret:db") [] = (true, S!"eu-west-1").
Proof.
  assert (Forall (λ c, in_class false region_class c = true) (S!"eu-west-1")) as H by (apply (bool_decide_unpack _); vm_compute; exact I).
  split; [done|]. split; [exact H|]. exact (region_from_arn (S!"eu-west-1") (S!"123:secret:db") [] ltac:(done) H).
Defined.

(** ** Logging in with a secret *)

Section Logins.
Context `{Sm : SecretsManager} `{Json : SecretJson} {W : Type}.
Implicit Types s : secrets_state W.

(** A value that was read from what the service answered for a key. *)
Definition genuine_secret (key : str * str) (v : JsonValue) : Prop :=
  ∃ n text, GetSecretValue n key.2 key.1 = inr text ∧ read_json text = inr v.

Definition credentials_of (v : JsonValue) : str * str := (default [] (GetString v USERNAME_KEY), default [] (GetString v PASSWORD_KEY)).

Definition secrets_ok (key : str * str) (s : secrets_state W) : Prop :=
  secret_key s = key ∧ (∀ k v, secrets_cache s !! k = Some v → genuine_secret k v) ∧
  (secret_json_value s = default_json ∨ genuine_secret key (secret_json_value s)).

(** The secret that the service has at its next call. *)
Definition latest (s : secrets_state W) : option JsonValue :=
  match GetSecretValue (sm_calls s) (secret_key s).2 (secret_key s).1 with
  | inr text => match read_json text with inr v => Some v | inl _ => None end
  | inl _ => None
  end.

Lemma latest_genuine s v : latest s = Some v → genuine_secret (secret_key s) v.
Proof.
  unfold latest, genuine_secret. destruct (GetSecretValue _ _ _) as [|text] eqn:E; [done|]. destruct (read_json text) as [|v'] eqn:Er; [done|].
  intros [= ->]. by exists (sm_calls s), text.
Qed.

(** What [update_secret] does: a cached secret is taken, unless a new one is to be
    fetched; a fetched one goes to the cache. *)
Lemma update_secret_run force s :
  match (if force : bool then None else secrets_cache s !! secret_key s) with
  | Some v => update_secret force s = (Ok false, set_secret v s)
  | None =>
    match latest s with
    | Some v => ∃ s', update_secret force s = (Ok true, s') ∧ secrets_cache s' = <[secret_key s := v]> (secrets_cache s) ∧
        secret_key s' = secret_key s ∧ secret_json_value s' = v ∧ sm_next s' = sm_next s
    | None => ∃ s', update_secret force s = (Ok false, s') ∧ secrets_cache s' = secrets_cache s ∧
        secret_key s' = secret_key s ∧ secret_json_value s' = secret_json_value s ∧ sm_next s' = sm_next s
    end
  end.
Proof.
  unfold update_secret, latest, fetch_latest_credentials, parse_json_value. unfold mbind, M_bind, get, modify, mret, M_ret.
  destruct (secrets_cache s !! secret_key s) as [v|]; destruct force; cbn; try reflexivity;
    (destruct (GetSecretValue _ _ _) as [e|text]; [eexists; split; [reflexivity|done]|]; destruct (read_json text) as [e|v'];
     [eexists; split; [reflexivity|done]|]; eexists; split; [reflexivity|done]).
Qed.

Lemma get_from_secret_run key s :
  ∃ s', get_from_secret_json_value key s = (Ok (default [] (GetString (secret_json_value s) key)), s') ∧
    secrets_cache s' = secrets_cache s ∧ secret_key s' = secret_key s ∧ secret_json_value s' = secret_json_value s ∧ sm_next s' = sm_next s ∧
    sm_calls s' = sm_calls s.
Proof.
  unfold get_from_secret_json_value, mbind, M_bind, get, modify. destruct (GetString (secret_json_value s) key) as [v|]; by eexists.
Qed.

Lemma secrets_ok_same key s s' :
  secrets_ok key s → secrets_cache s' = secrets_cache s → secret_key s' = secret_key s → secret_json_value s' = secret_json_value s → secrets_ok key s'.
Proof. intros (H1 & H2 & H3) E1 E2 E3. unfold secrets_ok. by rewrite E1, E2, E3. Qed.

Lemma update_secret_ok key force s :
  secrets_ok key s → ∃ b s', update_secret force s = (Ok b, s') ∧ secrets_ok key s' ∧ (b = true → genuine_secret key (secret_json_value s')).
Proof.
  intros Hok. pose proof Hok as (Hk & Hc & Hv). pose proof (update_secret_run force s) as Hrun.
  destruct (if force then None else _) as [v|] eqn:Ev.
  - exists false, (set_secret v s). split; [done|]. split; [|done]. split; [done|]. split; [done|]. right. apply Hc. destruct force; [done|]. by rewrite Hk in Ev.
  - destruct (latest s) as [v|] eqn:El; destruct Hrun as (s' & E & Ec & Ek & Ej & _).
    + apply latest_genuine in El as Hg. rewrite Hk in Hg. exists true, s'. split; [done|]. rewrite Ej. split; [|done]. split; [congruence|]. rewrite Ec, Ej. split; [|by right].
      intros k v'. rewrite Hk. intros [[<- <-]|[_ Hl]]%lookup_insert_Some; [done|by eapply Hc].
    + exists false, s'. split; [done|]. split; [by eapply secrets_ok_same|done].
Qed.

(** A login takes the user and the password from one secret. *)
Lemma read_credentials key s :
  secrets_ok key s →
  ∃ s', (∀ k : str → str → M (secrets_state W) bool,
        (username ← get_from_secret_json_value USERNAME_KEY; password ← get_from_secret_json_value PASSWORD_KEY; k username password) s =
        k (credentials_of (secret_json_value s)).1 (credentials_of (secret_json_value s)).2 s') ∧
    secrets_ok key s' ∧ secret_json_value s' = secret_json_value s ∧ secrets_cache s' = secrets_cache s ∧ secret_key s' = secret_key s ∧
    sm_next s' = sm_next s ∧ sm_calls s' = sm_calls s.
Proof.
  intros Hok. destruct (get_from_secret_run USERNAME_KEY s) as (s1 & E1 & Ec1 & Ek1 & Ej1 & En1 & El1).
  destruct (get_from_secret_run PASSWORD_KEY s1) as (s2 & E2 & Ec2 & Ek2 & Ej2 & En2 & El2).
  exists s2. split; [intros k; by rewrite (bind_Ok _ _ _ _ _ E1), (bind_Ok _ _ _ _ _ E2), Ej1|].
  split; [eapply secrets_ok_same; [exact Hok|congruence..]|]. split_and!; congruence.
Qed.

Definition from_secret (key : str * str) (username password : str) : Prop :=
  ∃ v, genuine_secret key v ∧ credentials_of v = (username, password).

(** Two runs go on alike, and keep an invariant. *)
Lemma bind_same {T A B} (P : T → Prop) (m m' : M T A) (k k' : A → M T B) (x : T) :
  m x = m' x → P (m x).2 → (∀ a y, m x = (Ok a, y) → P y → k a y = k' a y ∧ P (k a y).2) →
  (m ≫= k) x = (m' ≫= k') x ∧ P ((m ≫= k) x).2.
Proof.
  intros E HP Hk. unfold mbind, M_bind. rewrite <- E. destruct (m x) as [[a|e|] y]; [by apply Hk|done..].
Qed.

(** the proxy logs in with the user and the password of one secret that the service gave for its key, and with
    nothing else: with any other call of the next proxy that does the same for these it does the same; the cache keeps
    holding secrets of the service under their keys. *)
Theorem secrets_login_genuine key access_denied (func func' : str → str → M (secrets_state W) bool) s :
  (∀ k, GetString default_json k = None) → secrets_ok key s → preserves (secrets_ok key) access_denied →
  (∀ u p, from_secret key u p → preserves (secrets_ok key) (func u p)) →
  (∀ u p s, from_secret key u p → func u p s = func' u p s) →
  secrets_connect access_denied func s = secrets_connect access_denied func' s ∧ secrets_ok key (secrets_connect access_denied func s).2.
Proof.
  intros Hdef Hok Hden Hp Hf. unfold secrets_connect, invoke_func_with_retrieved_secret. rewrite !get_bind.
  case_bool_decide as Hkey; [split; [done|]; by eapply secrets_ok_same|].
  destruct (update_secret_ok key false s Hok) as (fetched & s1 & E1 & Hok1 & _). rewrite !(bind_Ok _ _ _ _ _ E1).
  destruct (read_credentials key s1 Hok1) as (s2 & Hread & Hok2 & _). rewrite !Hread. clear Hread E1.
  set (u := (credentials_of (secret_json_value s1)).1). set (p := (credentials_of (secret_json_value s1)).2).
  destruct (bool_decide (u = []) || bool_decide (p = [])) eqn:Ee; [split; [done|]; by eapply secrets_ok_same|].
  assert (from_secret key u p) as Hfrom.
  { destruct Hok1 as (_ & _ & [Hd|Hg]); [|exists (secret_json_value s1); split; [done|by apply surjective_pairing]].
    unfold u, credentials_of in Ee. by rewrite Hd, Hdef in Ee. }
  apply bind_same; [by apply Hf|by apply (Hp u p Hfrom)|]. intros ret s3 _ Hok3. destruct ret; [by split|]. cbn [negb].
  apply bind_same; [done|apply bind_at; [by apply Hden|intros denied; apply preserves_ret]|]. intros retry s4 _ Hok4. destruct retry; [|by split].
  destruct (update_secret_ok key true s4 Hok4) as (fetched' & s5 & E5 & Hok5 & Hg5). rewrite !(bind_Ok _ _ _ _ _ E5).
  destruct fetched'; [|by split]. destruct (read_credentials key s5 Hok5) as (s6 & Hread & Hok6 & _). rewrite !Hread.
  assert (from_secret key (credentials_of (secret_json_value s5)).1 (credentials_of (secret_json_value s5)).2) as Hfrom'
    by (exists (secret_json_value s5); split; [by apply Hg5|by apply surjective_pairing]).
  rewrite <- (Hf _ _ s6 Hfrom'). split; [done|]. by apply (Hp _ _ Hfrom' s6).
Qed.

End Logins.

Section Retries.
Context `{Sm : SecretsManager} `{Json : SecretJson}.
Abbreviation state := (secrets_state (list (str * str))).

(** A next proxy that accepts some users with their passwords; what is tried is
    listed. *)
Definition try_secret (accepts : str * str → bool) (username password : str) : M state bool :=
  modify (λ s, set_sm_next (sm_next s ++ [(username, password)]) s);; mret (accepts (username, password)).

Definition complete (v : JsonValue) : Prop := (credentials_of v).1 ≠ [] ∧ (credentials_of v).2 ≠ [].

(** The secret a login starts with, and the one it goes on with: a cached one is
    replaced by the service's when it is denied. *)
Definition first_secret (s : state) : option JsonValue :=
  match secrets_cache s !! secret_key s with Some v => Some v | None => latest s end.
Definition second_secret (accepts : str * str → bool) (denied : bool) (s : state) (v : JsonValue) : option JsonValue :=
  if negb (accepts (credentials_of v)) && denied && bool_decide (is_Some (secrets_cache s !! secret_key s)) then latest s else None.

(** C37: a login with a secret tries the cached one, or the service's when there is none; when a cached one is denied, it
    fetches the secret anew and tries that one, so a secret that has been changed is picked up. It succeeds when one of
    them is accepted, and the one tried last is in the cache. *)
Theorem secrets_connect_spec accepts denied (s : state) v :
  (secret_key s).1 ≠ [] → first_secret s = Some v → complete v →
  let second := second_secret accepts denied s v in
  let tried := credentials_of <$> v :: option_list second in
  ∃ s', secrets_connect (mret denied) (try_secret accepts) s = (Ok (existsb accepts tried), s') ∧
    sm_next s' = sm_next s ++ tried ∧ secrets_cache s' !! secret_key s = Some (default v second).
Proof.
  intros Hkey Hfirst [Hu Hp] second tried. unfold secrets_connect, invoke_func_with_retrieved_secret. rewrite get_bind, bool_decide_false by done.
  pose proof (update_secret_run false s) as Hrun. cbn beta iota in Hrun. unfold first_secret in Hfirst.
  assert (∃ fetched s1, update_secret false s = (Ok fetched, s1) ∧ secret_json_value s1 = v ∧ secret_key s1 = secret_key s ∧
    secrets_cache s1 !! secret_key s = Some v ∧ sm_next s1 = sm_next s ∧ fetched = negb (bool_decide (is_Some (secrets_cache s !! secret_key s))) ∧
    (fetched = false → sm_calls s1 = sm_calls s)) as (fetched & s1 & E1 & Ej & Ek & Ec & En & Ef & Ecalls).
  { destruct (secrets_cache s !! secret_key s) as [v0|] eqn:Ev.
    - simplify_eq. exists false, (set_secret v s). by rewrite bool_decide_true by done.
    - rewrite Hfirst in Hrun. destruct Hrun as (s1 & E1 & Ec & Ek & Ej & En). exists true, s1. rewrite Ec, lookup_insert_eq.
      by rewrite bool_decide_false by (by intros []). }
  rewrite (bind_Ok _ _ _ _ _ E1). clear E1 Hrun.
  destruct (get_from_secret_run USERNAME_KEY s1) as (s2 & E2 & Ec2 & Ek2 & Ej2 & En2 & El2). rewrite (bind_Ok _ _ _ _ _ E2).
  destruct (get_from_secret_run PASSWORD_KEY s2) as (s3 & E3 & Ec3 & Ek3 & Ej3 & En3 & El3). rewrite (bind_Ok _ _ _ _ _ E3).
  rewrite Ej2, Ej. change (default [] (GetString v USERNAME_KEY)) with (credentials_of v).1. change (default [] (GetString v PASSWORD_KEY)) with (credentials_of v).2.
  rewrite !bool_decide_false by done. cbn [orb]. set (u := (credentials_of v).1). set (p := (credentials_of v).2).
  unfold tried, second, second_secret. clear tried second. rewrite <- (negb_involutive (bool_decide _)), <- Ef. cbn [fmap list_fmap existsb].
  assert (try_secret accepts u p s3 = (Ok (accepts (credentials_of v)), set_sm_next (sm_next s3 ++ [credentials_of v]) s3)) as E4
    by (unfold try_secret; rewrite modify_bind; unfold u, p; by rewrite <- surjective_pairing).
  rewrite (bind_Ok _ _ _ _ _ E4). set (s4 := set_sm_next _ _).
  assert (secrets_cache s4 !! secret_key s = Some v ∧ secret_key s4 = secret_key s ∧ sm_next s4 = sm_next s ++ [credentials_of v] ∧ sm_calls s4 = sm_calls s1) as (Ec4 & Ek4 & En4 & El4).
  { unfold s4. simpl. rewrite Ec3, Ec2, Ek3, Ek2, En3, En2, En, El3, El2. done. }
  clearbody s4. destruct (accepts (credentials_of v)) eqn:Ea; cbn [negb andb orb option_list].
  { rewrite ret_bind. exists s4. cbn. by rewrite ?Ea. }
  rewrite bind_assoc, ret_bind, ret_bind. destruct (denied && negb fetched) eqn:Er; cbn [option_list].
  2: { exists s4. cbn. by rewrite ?Ea. }
  apply andb_prop in Er as [_ Hf%negb_true_iff]. subst fetched.
  assert (latest s4 = latest s) as El by (unfold latest; rewrite Ek4, El4, Ecalls by done; done).
  pose proof (update_secret_run true s4) as Hrun. cbn beta iota in Hrun. rewrite El in Hrun. destruct (latest s) as [v'|].
  - destruct Hrun as (s5 & E5 & Ec5 & Ek5 & Ej5 & En5). rewrite (bind_Ok _ _ _ _ _ E5).
    destruct (get_from_secret_run USERNAME_KEY s5) as (s6 & E6 & Ec6 & Ek6 & Ej6 & En6 & _). rewrite (bind_Ok _ _ _ _ _ E6).
    destruct (get_from_secret_run PASSWORD_KEY s6) as (s7 & E7 & Ec7 & Ek7 & Ej7 & En7 & _). rewrite (bind_Ok _ _ _ _ _ E7).
    rewrite Ej6, Ej5. unfold try_secret. rewrite modify_bind. eexists. split; [unfold mret, M_ret; cbn; by rewrite ?Ea, ?orb_false_r|].
    simpl. rewrite En7, En6, En5, En4, Ec7, Ec6, Ec5, Ek4, lookup_insert_eq, <- app_assoc. done.
  - destruct Hrun as (s5 & E5 & Ec5 & Ek5 & Ej5 & En5). rewrite (bind_Ok _ _ _ _ _ E5). exists s5. cbn. rewrite ?Ea, Ec5, En5. done.
Qed.
End Retries.

(** ** Examples *)

Section Examples.

(** The service has the password "old" at first and "new" later. *)
#[local] Instance ex_sm : SecretsManager := λ n _ _, inr (if (n <? 3)%nat then S!"old" else S!"new").
#[local] Instance ex_secret_json : SecretJson := {|
  JsonValue := option str; default_json := None; read_json := λ s, inr (Some s);
  GetString := λ v key, match v with Some p => Some (if bool_decide (key = USERNAME_KEY) then S!"u" else p) | None => None end |}.

Definition ex_secret_key : str * str := (S!"db", US_EAST_1).
Definition ex_secrets : secrets_state (list (str * str)) := SecretsState {[ ex_secret_key := Some (S!"old") ]} 5 ex_secret_key None None [].

Lemma ex_secrets_ok : secrets_ok ex_secret_key ex_secrets.
Proof.
  split; [done|]. split; [|by left]. intros k v Hk. unfold ex_secrets in Hk. cbn [secrets_cache] in Hk.
  apply lookup_singleton_Some in Hk as [<- <-]. by exists 0%nat, (S!"old").
Qed.

(** The password has been changed: the new one is fetched. *)
Lemma secrets_connect_spec_witness :
  (secret_key ex_secrets).1 ≠ [] ∧ first_secret ex_secrets = Some (Some (S!"old")) ∧ complete (Some (S!"old")) ∧
  ∃ s', secrets_connect (mret true) (try_secret (λ up, bool_decide (up = (S!"u", S!"new")))) ex_secrets = (Ok true, s') ∧
        sm_next s' = [(S!"u", S!"old"); (S!"u", S!"new")] ∧ secrets_cache s' !! ex_secret_key = Some (Some (S!"new")).
Proof.
  assert ((secret_key ex_secrets).1 ≠ []) as H1 by done. assert (first_secret ex_secrets = Some (Some (S!"old"))) as H2 by reflexivity.
  assert (complete (Some (S!"old"))) as H3 by done. split; [done|]. split; [done|]. split; [done|].
  exact (secrets_connect_spec (λ up, bool_decide (up = (S!"u", S!"new"))) true ex_secrets _ H1 H2 H3).
Defined.

Lemma secrets_login_genuine_witness :
  (∀ k, GetString default_json k = None) ∧ secrets_ok ex_secret_key ex_secrets ∧
  secrets_connect (mret true) (try_secret (λ _, false)) ex_secrets =
  secrets_connect (mret true) (λ u p, if bool_decide (u = []) then throw (runtime_error []) else try_secret (λ _, false) u p) ex_secrets.
Proof.
  split; [done|]. split; [exact ex_secrets_ok|].
  apply (secrets_login_genuine ex_secret_key (mret true) _ _ ex_secrets); [done|exact ex_secrets_ok|apply preserves_ret| |].
  - intros u p _ s Hs. exact Hs.
  - intros u p s (v & (n & text & _ & [= <-]) & [= <- <-]). by rewrite bool_decide_false.
Defined.
End Examples.
