(* ===== verification/Numeric.v ===== *)
(** Exact numerics, [SQL_NUMERIC_STRUCT] (src/driver/utility.cc): a sign, a
    precision, a scale and sixteen bytes.  Text is read into them, and they are
    printed, with an array of eight [unsigned int] of which sixteen bits hold
    the number and the others what is carried.

    The first part is the code; then come the value of an array of limbs and
    what each pass does to it, reading a text, and printing. *)

From S2P Require Import Prelude CppString.

Local Open Scope Z_scope.

(** ** The code *)

(** [SQLCHAR] and [SQLSCHAR]. *)
Definition to_uint8 (z : Z) : Z := z mod 2 ^ 8.
Definition to_int8 (z : Z) : Z := let u := z mod 2 ^ 8 in if u <? 2 ^ 7 then u else u - 2 ^ 8.

(** A [SQL_NUMERIC_STRUCT] (sqltypes.h of the driver manager). *)
Record SQL_NUMERIC_STRUCT := Numeric { precision : Z; scale : Z; sign : Z; val : list Z }.

(** [src/driver/utility.cc:2720-2734] sqlnum_scale

    Every caller passes a number of digits, which is not negative. *)
Definition sqlnum_scale (ary : list Z) (s : nat) : list Z :=
  Nat.iter s (λ ary, (λ x, to_uint32 (x * 10)) <$> ary) ary.

(** [src/driver/utility.cc:2744-2752] sqlnum_unscale_le

    The loop goes from the last element to the first. *)
Fixpoint sqlnum_unscale_le (ary : list Z) : list Z :=
  match ary with
  | x :: rest =>
    match sqlnum_unscale_le rest with
    | y :: rest' => to_uint32 (x + Z.shiftl (y mod 10) 16) :: y / 10 :: rest'
    | [] => [x]
    end
  | [] => []
  end.

(** [src/driver/utility.cc:2762-2770] sqlnum_unscale_be

    The elements from the one whose value is [x] on. *)
Fixpoint unscale_from (x : Z) (rest : list Z) : list Z :=
  match rest with
  | [] => [x]
  | y :: rest' => x / 10 :: unscale_from (to_uint32 (y + Z.shiftl (x mod 10) 16)) rest'
  end.

(** [src/driver/utility.cc:2762-2770] sqlnum_unscale_be *)
Definition sqlnum_unscale_be (ary : list Z) (start : nat) : list Z :=
  take start ary ++ match drop start ary with [] => [] | x :: rest => unscale_from x rest end.

(** [src/driver/utility.cc:2783-2787] sqlnum_carry

    The elements with what is carried into the first. *)
Fixpoint carry_from (c : Z) (ary : list Z) : list Z :=
  match ary with
  | [] => []
  | [x] => [to_uint32 (x + c)]
  | x :: rest => let x := to_uint32 (x + c) in Z.land x 0xffff :: carry_from (Z.shiftr x 16) rest
  end.

(** [src/driver/utility.cc:2779-2788] sqlnum_carry *)
Definition sqlnum_carry (ary : list Z) : list Z := carry_from 0 ary.

(** [strtoul(s, NULL, 10)] of at most four characters. *)
Definition strtoul (s : str) : Z :=
  match skip_spaces s with
  | "-"%char :: s' => (- Z.of_N (digits_value (leading_digits s'))) mod 2 ^ 64
  | "+"%char :: s' => Z.of_N (digits_value (leading_digits s'))
  | s' => Z.of_N (digits_value (leading_digits s'))
  end.

(** [a[0]], and an assignment to it. *)
Definition first (ary : list Z) : Z := ary !!! 0%nat.
Definition set_first (x : Z) (ary : list Z) : list Z := <[0%nat := x]> ary.

(** The locals of [sqlnum_from_str] that its loops change; [decpt] is an index
    into [numstr] after the sign. *)
Record conversion := Conversion {
  build_up : list Z; decpt : option nat; overflow : Z; c_precision : Z; c_scale : Z }.

(** [src/driver/utility.cc:2859-2868] sqlnum_from_str

    One group of digits is shifted in. *)
Definition add_group (ary : list Z) (curdigs : str) : list Z :=
  let usedig := length curdigs in
  let curnum := to_uint32 (strtoul curdigs) in
  let ary := sqlnum_scale ary (if bool_decide (last curdigs = Some "."%char) then usedig - 1 else usedig)%nat in
  sqlnum_carry (set_first (to_uint32 (first ary + curnum)) ary).

(** [src/driver/utility.cc:2837-2871] sqlnum_from_str

    The loop over groups of digits from [i] on; the flag is [goto end].  A turn
    takes at least one character. *)
Fixpoint read_groups (fuel : nat) (numstr : str) (len i : nat) (st : conversion) : conversion * bool :=
  match fuel with
  | O => (st, false)
  | S fuel' =>
    if (len <=? i)%nat then (st, false) else
    let usedig := if (i + 4 <? len)%nat then 4%nat else (len - i)%nat in
    let '(usedig, st) :=
      match decpt st with
      | Some d =>
        if (i <=? d)%nat && (d <? i + usedig)%nat then
          let usedig := (d - i + 1)%nat in
          (usedig, Conversion (build_up st) None (overflow st) (to_uint8 (c_precision st - 1))
                     (to_int8 (Z.of_nat (len - (i + usedig)))))
        else (usedig, st)
      | None => (usedig, st)
      end in
    if overflow st =? 0 then
      let ary := add_group (build_up st) (take usedig (drop i numstr)) in
      let overflow := if Z.land (ary !!! 7%nat) (Z.lnot 0xffff) =? 0 then overflow st else 1 in
      read_groups fuel' numstr len (i + usedig) (Conversion ary (decpt st) overflow (c_precision st) (c_scale st))
    else (st, true)
  end.

(** [src/driver/utility.cc:2876-2881] sqlnum_from_str *)
Fixpoint scale_up (fuel : nat) (reqscale : Z) (st : conversion) : conversion :=
  match fuel with
  | O => st
  | S fuel' =>
    if c_scale st <? reqscale then
      scale_up fuel' reqscale (Conversion (sqlnum_carry (sqlnum_scale (build_up st) 1)) (decpt st) (overflow st)
                                 (c_precision st) (to_int8 (c_scale st + 1)))
    else st
  end.

(** [src/driver/utility.cc:2886-2897] sqlnum_from_str *)
Fixpoint scale_down (fuel : nat) (reqscale : Z) (st : conversion) : conversion :=
  match fuel with
  | O => st
  | S fuel' =>
    if (reqscale <? c_scale st) && (0 <? c_scale st) then
      let ary := sqlnum_unscale_le (build_up st) in
      scale_down fuel' reqscale
        (Conversion (set_first (first ary / 10) ary) (decpt st)
           (if first ary mod 10 =? 0 then overflow st else 2)
           (to_uint8 (c_precision st - 1)) (to_int8 (c_scale st - 1)))
    else st
  end.

(** [src/driver/utility.cc:2903-2917] sqlnum_from_str

    [tmp] is [tmp_prec_calc]; the flag is [goto end]. *)
Fixpoint scale_whole (fuel : nat) (reqscale : Z) (tmp : list Z) (st : conversion) : conversion * bool :=
  match fuel with
  | O => (st, false)
  | S fuel' =>
    if reqscale <? c_scale st then
      let tmp := sqlnum_unscale_le tmp in
      if first tmp mod 10 =? 0 then
        let ary := sqlnum_unscale_le (build_up st) in
        scale_whole fuel' reqscale (set_first (first tmp / 10) tmp)
          (Conversion (set_first (first ary / 10) ary) (decpt st) (overflow st)
             (to_uint8 (c_precision st - 1)) (to_int8 (c_scale st - 1)))
      else (Conversion (build_up st) (decpt st) 1 (c_precision st) (c_scale st), true)
    else (st, false)
  end.

(** [src/driver/utility.cc:2924-2933] sqlnum_from_str

    The loop runs at least once and stops at 0, a precision below 0 wraps. *)
Fixpoint strip_zeros (fuel : nat) (tmp : list Z) (temp_precision : Z) : Z :=
  match fuel with
  | O => temp_precision
  | S fuel' =>
    let tmp := sqlnum_unscale_le tmp in
    let i := first tmp mod 10 in
    let temp_precision := if i =? 0 then to_uint8 (temp_precision - 1) else temp_precision in
    if (i =? 0) && (0 <? temp_precision) then strip_zeros fuel' (set_first (first tmp / 10) tmp) temp_precision
    else temp_precision
  end.

(** [src/driver/utility.cc:2941-2946] sqlnum_from_str *)
Definition pack (ary : list Z) : list Z := ary ≫= λ x, [Z.land x 0xff; Z.land (Z.shiftr x 8) 0xff].

(** A scale is in [-128, 127] and a precision in [0, 255], so that no loop over
    them runs more often. *)
Definition byte_fuel : nat := 300.

(** [src/driver/utility.cc:2803-2951] sqlnum_from_str

    The struct, and what [overflow_ptr] gets. *)
Definition sqlnum_from_str (numstr : str) (sqlnum : SQL_NUMERIC_STRUCT) : SQL_NUMERIC_STRUCT * Z :=
  let reqscale := scale sqlnum in
  let reqprec := precision sqlnum in
  let point := fst <$> list_find (λ c, c = "."%char) numstr in
  let negative := bool_decide (head numstr = Some "-"%char) in
  let '(sgn, numstr, dot) :=
    if negative then (0, tail numstr, pred <$> point) else (1, numstr, point) in
  let len := length numstr in
  let finish st v := (Numeric (c_precision st) (c_scale st) sgn v, overflow st) in
  let zeros := replicate 16 0 in
  let '(st, over) := read_groups len numstr len 0
      (Conversion (replicate 8 0) dot 0 (to_uint8 (Z.of_nat len)) 0) in
  if over then finish st zeros else
  let st :=
    if (0 <? reqscale) && (c_scale st <? reqscale) then scale_up byte_fuel reqscale st
    else if reqscale <? c_scale st then scale_down byte_fuel reqscale st
    else st in
  let '(st, over) :=
    if reqscale <? 0 then scale_whole byte_fuel reqscale (build_up st) st else (st, false) in
  if over then finish st zeros else
  let temp_precision := strip_zeros byte_fuel (build_up st) (c_precision st) in
  let st := Conversion (build_up st) (decpt st) (if reqprec <? temp_precision then 1 else overflow st)
              (c_precision st) (c_scale st) in
  finish st (pack (build_up st)).

(** *** Printing

    The text grows to the left from the last byte of a buffer.  [room] are the
    bytes in front of it, the nearest first; writing when there are none is
    undefined. *)
Definition push (c : ascii) (buf : str * str) : res (str * str) :=
  match buf with (_ :: room, text) => Ok (room, c :: text) | ([], _) => UB end.

(** [src/driver/utility.cc:3001-3002] sqlnum_to_str

    [while (!expanded[max_space]) ++max_space], which does not stop at the end of
    the array: [mem] is the array and the words behind it. *)
Fixpoint skip_empty (mem : list Z) (max_space : nat) : res nat :=
  match mem with
  | [] => UB
  | x :: mem' => if x =? 0 then skip_empty mem' (S max_space) else Ok max_space
  end.

(** Where the digits are taken from, and how many there are. *)
Record printing := Printing { expanded : list Z; max_space : nat; calcprec : Z }.

(** [src/driver/utility.cc:2998-3028] sqlnum_to_str

    The loop over [j]; [turns] is what is left of its 39 turns. *)
Fixpoint print_digits (turns : nat) (beyond : list Z) (reqscale j : Z) (st : printing) (buf : str * str)
    : res (printing * (str * str)) :=
  match turns with
  | O => Ok (st, buf)
  | S turns' =>
    let ary := expanded st in
    max_space ← skip_empty (drop (max_space st) (ary ++ beyond)) (max_space st);
    if (7 <=? max_space)%nat && (ary !!! 7%nat =? 0) then
      if bool_decide (buf.2 = []) then
        buf ← push "0" buf; Ok (Printing ary max_space 1, buf)
      else Ok (Printing ary max_space (calcprec st), buf)
    else
      let ary := if (7 <=? max_space)%nat then ary else sqlnum_unscale_be ary max_space in
      buf ← push (ascii_of_N (Z.to_N (48 + ary !!! 7%nat mod 10))) buf;
      let ary := <[7%nat := ary !!! 7%nat / 10]> ary in
      buf ← (if j =? reqscale - 1 then push "." buf else Ok buf);
      print_digits turns' beyond reqscale (j + 1) (Printing ary max_space (calcprec st + 1)) buf
  end.

(** [src/driver/utility.cc:3035-3039] sqlnum_to_str *)
Fixpoint leading_zeros (fuel : nat) (calcprec reqscale : Z) (buf : str * str) : res (Z * (str * str)) :=
  match fuel with
  | O => Ok (reqscale, buf)
  | S fuel' =>
    if calcprec <? reqscale then
      buf ← push "0" buf; leading_zeros fuel' calcprec (reqscale - 1) buf
    else Ok (reqscale, buf)
  end.

(** [src/driver/utility.cc:3047-3078] sqlnum_to_str

    The end of the text is looked for with [strlen] from the byte in front of
    the text, which is not written yet: when it is 0 the cut is made in front of
    it.  [None] is [SQLNUM_TRUNC_WHOLE]. *)
Definition cut_decimals (calcprec reqprec reqscale : Z) (buf : str * str) : res (option (Z * (str * str))) :=
  let k := Z.to_nat (Z.min (calcprec - reqprec) reqscale) in
  let calcprec := calcprec - Z.of_nat k in
  match buf with
  | ([], _) => UB
  | (c :: room, text) =>
    if bool_decide (c = Ascii.zero) then
      if (length room <? k)%nat then UB else
      if reqprec <? calcprec then Ok None else
      if (length room =? k)%nat then UB else
      let room := replicate k Ascii.zero ++ drop k room in
      Ok (Some (calcprec, (c :: if bool_decide (room !! k = Some "."%char) then <[k := Ascii.zero]> room else room, text)))
    else
      if reqprec <? calcprec then Ok None else
      let text := take (length text - k) text in
      Ok (Some (calcprec, (c :: room, if bool_decide (last text = Some "."%char) then take (length text - 1) text else text)))
  end.

(** [src/driver/utility.cc:3084-3088] sqlnum_to_str

    The digits move to the left and zeros follow them; [-128 * -1] is [-128]
    again in an [SQLSCHAR], and the copy leaves the buffer. *)
Definition trailing_zeros_for (reqscale : Z) (buf : str * str) : res (str * str) :=
  if reqscale =? -128 then UB else
  let k := Z.to_nat (- reqscale) in
  let '(room, text) := buf in
  if (length room <? k)%nat then UB else Ok (drop k room, text ++ replicate k "0"%char).

(** [src/driver/utility.cc:2994-2995] sqlnum_to_str

    The bytes as eight big-endian elements. *)
Fixpoint expand (val : list Z) : list Z :=
  match val with
  | lo :: hi :: val' => expand val' ++ [Z.lor (Z.shiftl hi 8) lo]
  | _ => []
  end.

(** [src/driver/utility.cc:2994-3042] sqlnum_to_str

    Printing up to where decimals are cut off: [calcprec], [reqscale] and the
    buffer. *)
Definition print_number (beyond : list Z) (room : str) (val : list Z) (reqscale : Z) : res (Z * Z * (str * str)) :=
  '(st, buf) ← print_digits 39 beyond reqscale 0 (Printing (expand val) 0 0) (room, []);
  let calcprec := calcprec st in
  '(reqscale, buf) ←
    (if calcprec <? reqscale then
       '(reqscale, buf) ← leading_zeros byte_fuel calcprec reqscale buf;
       buf ← push "." buf; buf ← push "0" buf; Ok (reqscale, buf)
     else Ok (reqscale, buf));
  Ok (calcprec, reqscale, buf).

(** [src/driver/utility.cc:2973-3104] sqlnum_to_str

    The struct, the text at [numbegin] ([None] when it is not written) and the
    truncation: 1 for decimals, 2 for the whole number. *)
Definition sqlnum_to_str (beyond : list Z) (room : str) (sqlnum : SQL_NUMERIC_STRUCT) (reqprec reqscale : Z)
    : res (SQL_NUMERIC_STRUCT * option str * Z) :=
  let final_scale := reqscale in
  '(calcprec, reqscale, buf) ← print_number beyond room (val sqlnum) reqscale;
  cut ← (if (reqprec <? calcprec) && (0 <? reqscale) then
           r ← cut_decimals calcprec reqprec reqscale buf;
           Ok (match r with Some (calcprec, buf) => Some (calcprec, buf, 1) | None => None end)
         else Ok (Some (calcprec, buf, 0)));
  match cut with
  | None => Ok (Numeric (precision sqlnum) final_scale (sign sqlnum) (val sqlnum), None, 2)
  | Some (calcprec, buf, trunc) =>
    buf ← (if reqscale <? 0 then trailing_zeros_for reqscale buf else Ok buf);
    buf ← (if sign sqlnum =? 0 then push "-" buf else Ok buf);
    Ok (Numeric (to_uint8 calcprec) final_scale (sign sqlnum) (val sqlnum), Some buf.2, trunc)
  end.

(** ** The value of an array of limbs *)

Fixpoint eval (ary : list Z) : Z :=
  match ary with [] => 0 | x :: rest => x + 2 ^ 16 * eval rest end.

(** What the array holds between two passes: eight elements of sixteen bits. *)
Definition limb (x : Z) : Prop := 0 ≤ x < 2 ^ 16.
Definition limbs (ary : list Z) : Prop := length ary = 8%nat ∧ Forall limb ary.

(** All elements but the last are of sixteen bits. *)
Fixpoint carried (ary : list Z) : Prop :=
  match ary with
  | [] => True
  | [x] => 0 ≤ x
  | x :: rest => limb x ∧ carried rest
  end.

Lemma eval_bound ary : Forall limb ary → 0 ≤ eval ary < 2 ^ (16 * Z.of_nat (length ary)).
Proof.
  induction 1 as [|x ary Hx Hary IH]; [simpl; lia|]. unfold limb in Hx. cbn [eval length].
  replace (16 * Z.of_nat (S (length ary))) with (16 + 16 * Z.of_nat (length ary)) by lia.
  rewrite Z.pow_add_r by lia. nia.
Qed.

Lemma carried_limb ary : carried ary → eval ary < 2 ^ (16 * Z.of_nat (length ary)) → Forall limb ary.
Proof.
  induction ary as [|x [|y ary] IH]; [done|..].
  - simpl. intros Hx Hv. repeat constructor; lia.
  - intros [Hx Hc] Hv. constructor; [done|]. apply IH; [done|]. unfold limb in Hx.
    revert Hv. generalize (y :: ary). intros l. cbn [eval length].
    replace (16 * Z.of_nat (S (length l))) with (16 + 16 * Z.of_nat (length l)) by lia.
    rewrite Z.pow_add_r by lia. nia.
Qed.

Lemma eval_scaled ary k : eval ((λ x, x * k) <$> ary) = eval ary * k.
Proof. induction ary as [|x ary IH]; [done|]. cbn [fmap list_fmap eval]. rewrite IH. ring. Qed.

(** Multiplying does not wrap while there is room for the factor. *)
Lemma sqlnum_scale_small s b ary :
  Forall (λ x, 0 ≤ x < b) ary → b * 10 ^ Z.of_nat s ≤ 2 ^ 32 →
  sqlnum_scale ary s = (λ x, x * 10 ^ Z.of_nat s) <$> ary.
Proof.
  intros Hary. unfold sqlnum_scale. induction s as [|s IH]; intros Hb.
  - simpl. rewrite <- (list_fmap_id ary) at 1. apply list_fmap_ext. intros i x _. unfold id. lia.
  - rewrite Nat2Z.inj_succ, Z.pow_succ_r in Hb by lia. rewrite Nat.iter_succ, IH by nia.
    rewrite <- list_fmap_compose. apply list_fmap_ext. intros i x Hx. unfold compose.
    rewrite Nat2Z.inj_succ, Z.pow_succ_r by lia. unfold to_uint32.
    apply (Forall_lookup_1 _ _ _ _ Hary) in Hx. rewrite Z.mod_small; [lia|]. nia.
Qed.

Lemma eval_cons x ary : eval (x :: ary) = x + 2 ^ 16 * eval ary.
Proof. done. Qed.

Lemma carry_from_cons c x y ary :
  carry_from c (x :: y :: ary) =
  Z.land (to_uint32 (x + c)) 0xffff :: carry_from (Z.shiftr (to_uint32 (x + c)) 16) (y :: ary).
Proof. done. Qed.

(** Carrying keeps the value and leaves sixteen bits in all elements but the
    last. *)
Lemma carry_from_eval c ary :
  ary ≠ [] → 0 ≤ c < 2 ^ 16 → Forall (λ x, 0 ≤ x < 2 ^ 32 - 2 ^ 16) ary →
  eval (carry_from c ary) = c + eval ary ∧ carried (carry_from c ary).
Proof.
  intros Hne. revert c. induction ary as [|x ary IH]; intros c Hc Hary; [done|].
  apply Forall_cons in Hary as [Hx Hary]. destruct ary as [|y ary].
  - simpl. unfold to_uint32. rewrite Z.mod_small by lia. lia.
  - rewrite carry_from_cons. unfold to_uint32. rewrite Z.mod_small by lia.
    change 0xffff with (Z.ones 16). rewrite Z.land_ones, Z.shiftr_div_pow2 by lia.
    pose proof (Z.div_mod (x + c) (2 ^ 16)) as Hdm. pose proof (Z.mod_pos_bound (x + c) (2 ^ 16)) as Hmp.
    destruct (IH ltac:(done) ((x + c) / 2 ^ 16)) as [Hv Hca]; [nia|done|].
    rewrite eval_cons, Hv, (eval_cons x). split; [lia|].
    destruct (carry_from ((x + c) / 2 ^ 16) (y :: ary)) eqn:E; [simpl; lia|].
    split; [unfold limb; lia|done].
Qed.

Lemma carry_from_length c ary : length (carry_from c ary) = length ary.
Proof. revert c. induction ary as [|x [|y ary] IH]; intros c; [done..|]. rewrite carry_from_cons. cbn [length]. by rewrite IH. Qed.

(** [ary[7] & ~0xffff]. *)
Lemma high_bits x : 0 ≤ x → (Z.land x (Z.lnot 0xffff) =? 0) = (x <? 2 ^ 16).
Proof.
  intros Hx. rewrite <- Z.ldiff_land. change 0xffff with (Z.ones 16).
  rewrite Z.ldiff_ones_r, Z.shiftl_mul_pow2, Z.shiftr_div_pow2 by lia.
  pose proof (Z.div_mod x (2 ^ 16)). pose proof (Z.mod_pos_bound x (2 ^ 16)).
  destruct (Z.eqb_spec (x / 2 ^ 16 * 2 ^ 16) 0), (Z.ltb_spec x (2 ^ 16)); try done; nia.
Qed.

(** One pass of [sqlnum_unscale_le] divides by ten what follows the first
    element, which gets the remainder. *)
Lemma sqlnum_unscale_le_eval x rest :
  Forall limb (x :: rest) →
  ∃ d rest', sqlnum_unscale_le (x :: rest) = d :: rest' ∧ 10 * (2 ^ 16 * eval rest') + d = eval (x :: rest) ∧
    0 ≤ d < 10 * 2 ^ 16 ∧ Forall limb rest' ∧ length rest' = length rest.
Proof.
  revert x. induction rest as [|y rest IH]; intros x [Hx Hrest]%Forall_cons; unfold limb in Hx.
  - exists x, []. simpl. split_and!; [done|lia..|constructor|done].
  - destruct (IH y Hrest) as (d & rest' & E & Hv & Hd & Hl & Hlen).
    assert (sqlnum_unscale_le (x :: y :: rest) = to_uint32 (x + Z.shiftl (d mod 10) 16) :: d / 10 :: rest') as ->.
    { change (sqlnum_unscale_le (x :: y :: rest)) with
        (match sqlnum_unscale_le (y :: rest) with
         | y :: rest' => to_uint32 (x + Z.shiftl (y mod 10) 16) :: y / 10 :: rest' | [] => [x] end). by rewrite E. }
    pose proof (Z.div_mod d 10). pose proof (Z.mod_pos_bound d 10).
    rewrite Z.shiftl_mul_pow2 by lia. unfold to_uint32. rewrite Z.mod_small by lia.
    exists (x + d mod 10 * 2 ^ 16), (d / 10 :: rest'). rewrite (eval_cons x), <- Hv, eval_cons.
    split_and!; [done|lia..| |simpl; lia]. constructor; [|done]. unfold limb. lia.
Qed.

(** The digit an array gives up, and what is left: the code's
    [sqlnum_unscale_le(a); i = a[0] % 10; a[0] /= 10]. *)
Lemma unscale_spec ary :
  limbs ary →
  let ary' := sqlnum_unscale_le ary in
  first ary' mod 10 = eval ary mod 10 ∧
  limbs (set_first (first ary' / 10) ary') ∧ eval (set_first (first ary' / 10) ary') = eval ary / 10.
Proof.
  intros [Hlen Hary]. destruct ary as [|x rest]; [done|].
  destruct (sqlnum_unscale_le_eval x rest Hary) as (d & rest' & E & Hv & Hd & Hl & Hlen'). simpl in Hlen.
  rewrite <- Hv. intros ary'. subst ary'. rewrite E. unfold first, set_first. cbn [lookup_total list_lookup_total insert list_insert].
  pose proof (Z.div_mod d 10). pose proof (Z.mod_pos_bound d 10).
  rewrite eval_cons. replace (10 * (2 ^ 16 * eval rest') + d) with (d + 2 ^ 16 * eval rest' * 10) by lia.
  split; [|split].
  - by rewrite Z.mod_add.
  - split; [simpl; lia|]. constructor; [unfold limb; lia|done].
  - by rewrite Z.div_add.
Qed.

(** ** Reading *)

Definition digits (s : str) : Prop := Forall (λ c, is_digit c = true) s.
Definition number (s : str) : Z := Z.of_N (digits_value s).

Lemma number_app s t : number (s ++ t) = number s * 10 ^ Z.of_nat (length t) + number t.
Proof. unfold number. rewrite digits_value_app, N2Z.inj_add, N2Z.inj_mul, N2Z.inj_pow. by rewrite nat_N_Z. Qed.

Lemma number_bound s : digits s → 0 ≤ number s < 10 ^ Z.of_nat (length s).
Proof.
  intros Hs%digits_value_bound. unfold number. rewrite <- nat_N_Z.
  change 10 with (Z.of_N 10). rewrite <- N2Z.inj_pow. lia.
Qed.

Lemma is_digit_not_space c : is_digit c = true → is_space c = false ∧ c ≠ "-"%char ∧ c ≠ "+"%char ∧ c ≠ "."%char.
Proof.
  intros H. split; [|by split_and!; intros ->]. unfold is_digit, is_space in *.
  apply andb_true_iff in H as [H1%N.leb_le H2%N.leb_le]. destruct (N.eqb_spec (N_of_ascii c) 32); [lia|].
  destruct (N.leb_spec (N_of_ascii c) 13); [lia|]. by rewrite andb_false_r.
Qed.

(** [strtoul] of digits that may be followed by the point. *)
Lemma strtoul_digits g t : digits g → t = [] ∨ t = ["."%char] → strtoul (g ++ t) = number g.
Proof.
  intros Hg Ht. unfold strtoul, number.
  assert (leading_digits (g ++ t) = g) as Hlead.
  { induction Hg as [|c g Hc Hg IH]; [by destruct Ht as [-> | ->]|]. simpl. by rewrite Hc, IH. }
  destruct g as [|c g]; [by destruct Ht as [-> | ->]|].
  destruct (is_digit_not_space c (Forall_inv Hg)) as (Hs & Hm & Hp & _). cbn [app skip_spaces]. rewrite Hs.
  cbn [app] in Hlead. destruct c as [[] [] [] [] [] [] [] []]; try done; exact (f_equal (λ s, Z.of_N (digits_value s)) Hlead).
Qed.

(** A group of at most four digits is shifted in without loss. *)
Lemma add_group_spec ary g t :
  limbs ary → digits g → (length g ≤ 4)%nat → t = [] ∨ t = ["."%char] →
  eval ary * 10 ^ Z.of_nat (length g) + number g < 2 ^ 128 →
  limbs (add_group ary (g ++ t)) ∧
  eval (add_group ary (g ++ t)) = eval ary * 10 ^ Z.of_nat (length g) + number g.
Proof.
  intros [Hlen Hary] Hg Hg4 Ht Hv. unfold add_group.
  rewrite strtoul_digits by done. pose proof (number_bound g Hg) as Hn.
  assert (10 ^ Z.of_nat (length g) ≤ 10 ^ 4) as Hpow by (apply Z.pow_le_mono_r; lia).
  assert (to_uint32 (number g) = number g) as -> by (apply Z.mod_small; lia).
  assert ((if bool_decide (last (g ++ t) = Some "."%char) then length (g ++ t) - 1 else length (g ++ t))%nat = length g) as ->.
  { destruct Ht as [-> | ->].
    - rewrite app_nil_r. rewrite bool_decide_false; [done|]. intros (g' & ->)%last_Some.
      apply Forall_app in Hg as [_ Hdot%Forall_inv]. done.
    - rewrite last_snoc, bool_decide_true, length_app by done. simpl. lia. }
  set (k := 10 ^ Z.of_nat (length g)) in *.
  rewrite (sqlnum_scale_small _ (2 ^ 16)) by (done || (fold k; lia)). fold k.
  destruct ary as [|x ary]; [done|]. apply Forall_cons in Hary as [Hx Hary]. unfold limb in Hx.
  unfold first, set_first. cbn [fmap list_fmap lookup_total list_lookup_total insert list_insert].
  unfold to_uint32. rewrite Z.mod_small by nia.
  destruct (carry_from_eval 0 (x * k + number g :: ((λ x, x * k) <$> ary))) as [He Hc]; [done|done| |].
  - constructor; [nia|]. apply Forall_fmap. eapply Forall_impl; [exact Hary|]. unfold limb, compose. intros y Hy. nia.
  - rewrite !eval_cons, eval_scaled in *. fold sqlnum_carry in *. unfold sqlnum_carry.
    split; [split|]; [rewrite carry_from_length; simpl in *; by rewrite length_fmap| |lia].
    apply carried_limb; [done|]. rewrite carry_from_length. simpl length. rewrite length_fmap.
    simpl in Hlen. injection Hlen as ->. change (16 * Z.of_nat 8) with 128. lia.
Qed.

(** What a conversion holds after some text: all but the array is fixed. *)
Definition reading (st : conversion) (v prec sc : Z) : Prop :=
  limbs (build_up st) ∧ eval (build_up st) = v ∧ decpt st = None ∧ overflow st = 0 ∧ c_precision st = prec ∧ c_scale st = sc.

Lemma top_limb ary : limbs ary → (Z.land (ary !!! 7%nat) (Z.lnot 0xffff) =? 0) = true.
Proof.
  intros [Hlen Hary]. assert (limb (ary !!! 7%nat)) as [H0 H1].
  { eapply Forall_lookup_1; [exact Hary|]. apply list_lookup_lookup_total_lt. lia. }
  rewrite high_bits by done. lia.
Qed.

(** Text behind the point, or without one. *)
Lemma read_digits fuel numstr i st v prec sc :
  digits (drop i numstr) → (length numstr - i ≤ fuel)%nat → reading st v prec sc →
  v * 10 ^ Z.of_nat (length numstr - i) + number (drop i numstr) < 2 ^ 128 →
  ∃ st', read_groups fuel numstr (length numstr) i st = (st', false) ∧
    reading st' (v * 10 ^ Z.of_nat (length numstr - i) + number (drop i numstr)) prec sc.
Proof.
  revert i st v. induction fuel as [|fuel IH]; intros i st v Hd Hf Hst Hv.
  { exists st. split; [done|]. rewrite drop_ge by lia.
    replace (length numstr - i)%nat with 0%nat by lia. by rewrite Z.mul_1_r, Z.add_0_r. }
  cbn [read_groups]. destruct (Nat.leb_spec (length numstr) i) as [Hi|Hi].
  { exists st. split; [done|]. rewrite drop_ge by lia.
    replace (length numstr - i)%nat with 0%nat by lia. by rewrite Z.mul_1_r, Z.add_0_r. }
  set (u := if (i + 4 <? length numstr)%nat then 4%nat else (length numstr - i)%nat).
  assert (0 < u ≤ 4 ∧ i + u ≤ length numstr)%nat as Hu by (subst u; destruct (Nat.ltb_spec (i + 4) (length numstr)); lia).
  clearbody u. destruct st as [ary dp ov pr s], Hst as (Hl & He & Hdp & Hov & Hpr & Hs). simpl in Hl, He, Hdp, Hov, Hpr, Hs. subst.
  cbn [decpt overflow]. rewrite Z.eqb_refl. cbn [build_up c_precision c_scale decpt].
  set (g := take u (drop i numstr)). set (r := drop (i + u) numstr).
  assert (drop i numstr = g ++ r) as Hgr by (subst g r; rewrite <- drop_drop, take_drop; done).
  assert (length g = u) as Hgl by (subst g; rewrite length_take, length_drop; lia).
  assert (length r = (length numstr - (i + u))%nat) as Hrl by (subst r; by rewrite length_drop).
  rewrite Hgr in Hd. apply Forall_app in Hd as [Hdg Hdr]. pose proof (number_bound r Hdr) as Hbr.
  rewrite Hgr, number_app in Hv |- *.
  replace (Z.of_nat (length numstr - i)) with (Z.of_nat (length g) + Z.of_nat (length r)) in Hv |- * by lia.
  rewrite Z.pow_add_r in Hv |- * by lia. pose proof (number_bound g Hdg) as Hbg.
  set (k := 10 ^ Z.of_nat (length g)) in *. set (m := 10 ^ Z.of_nat (length r)) in *.
  pose proof (proj1 (eval_bound ary (proj2 Hl))).
  destruct (add_group_spec ary g [] Hl Hdg) as [Hl' He']; [lia|by left|fold k; nia|].
  rewrite app_nil_r in Hl', He'. rewrite (top_limb _ Hl').
  destruct (IH (i + u)%nat (Conversion (add_group ary g) None 0 prec sc) (eval ary * k + number g))
    as (st' & E & Hst'); [done|lia|done| |].
  - fold r. rewrite <- Hrl. fold m. nia.
  - exists st'. split; [exact E|]. fold r in Hst'. rewrite <- Hrl in Hst'. fold m in Hst'.
    replace (eval ary * (k * m) + (number g * m + number r)) with ((eval ary * k + number g) * m + number r) by ring. done.
Qed.

(** Text up to and behind the point. *)
Lemma read_point fuel ds fs i st v :
  let numstr := ds ++ "."%char :: fs in
  digits ds → digits fs → (length numstr - i ≤ fuel)%nat → (i ≤ length ds)%nat → (length fs ≤ 127)%nat →
  limbs (build_up st) → eval (build_up st) = v → decpt st = Some (length ds) → overflow st = 0 →
  v * 10 ^ Z.of_nat (length (drop i ds ++ fs)) + number (drop i ds ++ fs) < 2 ^ 128 →
  ∃ st', read_groups fuel numstr (length numstr) i st = (st', false) ∧
    reading st' (v * 10 ^ Z.of_nat (length (drop i ds ++ fs)) + number (drop i ds ++ fs))
      (to_uint8 (c_precision st - 1)) (Z.of_nat (length fs)).
Proof.
  intros numstr Hds Hfs. assert (length numstr = length ds + S (length fs))%nat as Hlen by (subst numstr; by rewrite length_app).
  revert i st v. induction fuel as [|fuel IH]; intros i st v Hf Hi Hf127 Hl He Hdp Hov Hv; [lia|].
  cbn [read_groups]. destruct (Nat.leb_spec (length numstr) i) as [|_]; [lia|]. rewrite Hdp, Hov.
  destruct st as [ary dp ov pr s]. simpl in Hl, He, Hdp, Hov. subst. cbn [build_up c_precision c_scale overflow].
  set (u := if (i + 4 <? length numstr)%nat then 4%nat else (length numstr - i)%nat).
  assert (0 < u ≤ 4 ∧ i + u ≤ length numstr ∧ (length ds < i + u ∨ u = 4))%nat as Hu
    by (subst u; destruct (Nat.ltb_spec (i + 4) (length numstr)); lia).
  clearbody u. pose proof (proj1 (eval_bound ary (proj2 Hl))) as He0.
  set (g := take u (drop i ds)). set (r := drop (i + u) ds).
  assert (drop i ds = g ++ r) as Hgr by (subst g r; rewrite <- drop_drop, take_drop; done).
  pose proof (Forall_drop _ i _ Hds) as Hdi. rewrite Hgr in Hdi, Hv |- *. apply Forall_app in Hdi as [Hdg Hdr].
  rewrite <- app_assoc, number_app in Hv |- *. rewrite length_app, Nat2Z.inj_add, Z.pow_add_r in Hv |- * by lia.
  assert (length g ≤ 4)%nat as Hg4 by (subst g; rewrite length_take; lia).
  pose proof (number_bound (r ++ fs) ltac:(by apply Forall_app)) as Hbr. pose proof (number_bound g Hdg) as Hbg.
  set (k := 10 ^ Z.of_nat (length g)) in *. set (m := 10 ^ Z.of_nat (length (r ++ fs))) in *.
  assert (∀ t, t = [] ∨ t = ["."%char] → limbs (add_group ary (g ++ t)) ∧ eval (add_group ary (g ++ t)) = eval ary * k + number g)
    as Hadd by (intros t Ht; apply add_group_spec; [done..|fold k; nia]).
  replace (eval ary * (k * m) + (number g * m + number (r ++ fs)))
    with ((eval ary * k + number g) * m + number (r ++ fs)) in Hv |- * by ring.
  destruct (Nat.leb_spec i (length ds)) as [_|]; [|lia].
  destruct (Nat.ltb_spec (length ds) (i + u)) as [Hin|Hout]; cbn [andb].
  - assert (r = []) as Hr by (subst r; by rewrite drop_ge by lia).
    assert (m = 10 ^ Z.of_nat (length fs)) as Hm by (subst m; by rewrite Hr). clearbody m. rewrite Hr in *. cbn [app] in *.
    assert (take (length ds - i + 1) (drop i numstr) = g ++ ["."%char]) as ->.
    { subst numstr. rewrite drop_app_le, take_app_ge by (rewrite ?length_drop; lia). rewrite length_drop.
      replace (length ds - i + 1 - (length ds - i))%nat with 1%nat by lia. rewrite Hgr, app_nil_r. done. }
    assert (i + (length ds - i + 1) = length ds + 1)%nat as -> by lia.
    assert (drop (length ds + 1) numstr = fs) as Hrest by (subst numstr; by rewrite drop_app_add').
    destruct (Hadd ["."%char]) as [Hl' He']; [by right|]. cbn [build_up decpt overflow c_precision c_scale].
    rewrite Z.eqb_refl, (top_limb _ Hl').
    assert (length numstr - (length ds + 1) = length fs)%nat as Hfl by lia.
    destruct (read_digits fuel numstr (length ds + 1)
      (Conversion (add_group ary (g ++ ["."%char])) None 0 (to_uint8 (pr - 1))
         (to_int8 (Z.of_nat (length numstr - (length ds + 1))))) (eval ary * k + number g)
      (to_uint8 (pr - 1)) (to_int8 (Z.of_nat (length numstr - (length ds + 1))))) as (st' & E & Hst');
      [by rewrite Hrest|lia|split_and!; [exact Hl'|exact He'|done..]|by rewrite Hrest, Hfl, <- Hm|].
    exists st'. split; [exact E|]. rewrite Hrest, Hfl, <- Hm in Hst'.
    assert (to_int8 (Z.of_nat (length fs)) = Z.of_nat (length fs)) as Hi8.
    { unfold to_int8. rewrite Z.mod_small by lia. destruct (Z.ltb_spec (Z.of_nat (length fs)) (2 ^ 7)); lia. }
    revert Hst'. unfold reading. cbn [c_precision c_scale]. by rewrite Hi8.
  - destruct Hu as (_ & _ & [|Hu4]); [lia|]. cbn [build_up decpt overflow c_precision c_scale]. rewrite Z.eqb_refl.
    assert (take u (drop i numstr) = g ++ []) as ->.
    { subst numstr. rewrite drop_app_le, take_app_le, app_nil_r by (rewrite ?length_drop; lia). done. }
    destruct (Hadd []) as [Hl' He']; [by left|]. rewrite (top_limb _ Hl').
    apply (IH (i + u)%nat (Conversion (add_group ary (g ++ [])) (Some (length ds)) 0 pr s)); done || lia.
Qed.

Lemma to_int8_small z : -128 ≤ z ≤ 127 → to_int8 z = z.
Proof.
  intros Hz. unfold to_int8. destruct (decide (0 ≤ z)).
  - rewrite Z.mod_small by lia. destruct (Z.ltb_spec z (2 ^ 7)); lia.
  - replace (z mod 2 ^ 8) with (z + 2 ^ 8); [destruct (Z.ltb_spec (z + 2 ^ 8) (2 ^ 7)); lia|].
    rewrite <- (Z.mod_add z 1), Z.mod_small by lia. lia.
Qed.

Lemma to_uint8_small z : 0 ≤ z < 256 → to_uint8 z = z.
Proof. apply Z.mod_small. Qed.

Lemma times_ten ary :
  limbs ary → eval ary * 10 < 2 ^ 128 →
  limbs (sqlnum_carry (sqlnum_scale ary 1)) ∧ eval (sqlnum_carry (sqlnum_scale ary 1)) = eval ary * 10.
Proof.
  intros [Hlen Hary] Hv. rewrite (sqlnum_scale_small _ (2 ^ 16)) by done.
  destruct (carry_from_eval 0 ((λ x, x * 10 ^ Z.of_nat 1) <$> ary)) as [He Hc]; [by destruct ary|done| |].
  { apply Forall_fmap. eapply Forall_impl; [exact Hary|]. unfold limb, compose. intros y Hy. lia. }
  rewrite eval_scaled in He. unfold sqlnum_carry, limbs. rewrite He, carry_from_length, length_fmap.
  split; [split|]; [done| |lia]. apply carried_limb; [done|]. rewrite He, carry_from_length, length_fmap, Hlen.
  change (16 * Z.of_nat 8) with 128. lia.
Qed.

(** Scaling up, when the number still fits. *)
Lemma scale_up_spec fuel reqscale st v prec sc :
  reading st v prec sc → 0 ≤ sc → reqscale ≤ 127 → reqscale - sc ≤ Z.of_nat fuel → sc ≤ reqscale →
  v * 10 ^ (reqscale - sc) < 2 ^ 128 → reading (scale_up fuel reqscale st) (v * 10 ^ (reqscale - sc)) prec reqscale.
Proof.
  revert st v sc. induction fuel as [|fuel IH]; intros st v sc Hst Hsc H127 Hf Hle Hv.
  { assert (sc = reqscale) as -> by lia. rewrite Z.sub_diag, Z.mul_1_r. done. }
  pose proof Hst as (Hl & He & Hdp & Hov & Hpr & Hs). cbn [scale_up]. rewrite Hs.
  destruct (Z.ltb_spec sc reqscale); [|assert (sc = reqscale) as -> by lia; by rewrite Z.sub_diag, Z.mul_1_r].
  replace (reqscale - sc) with (1 + (reqscale - (sc + 1))) in Hv |- * by lia.
  rewrite Z.pow_add_r, Z.pow_1_r, Z.mul_assoc in Hv |- * by lia.
  pose proof (proj1 (eval_bound _ (proj2 Hl))) as H0. rewrite He in H0.
  assert (0 < 10 ^ (reqscale - (sc + 1))) by (apply Z.pow_pos_nonneg; lia).
  destruct (times_ten (build_up st) Hl) as [Hl' He']; [rewrite He; nia|].
  apply IH; [|lia..]. rewrite He in He'. split_and!; try done. cbn [c_scale]. apply to_int8_small. lia.
Qed.

(** Scaling down drops decimals, and [overflow] tells whether one was not 0. *)
Lemma scale_down_spec fuel reqscale st ov :
  limbs (build_up st) → decpt st = None → overflow st = ov → 0 ≤ reqscale →
  reqscale ≤ c_scale st ≤ 127 → c_scale st - reqscale ≤ Z.of_nat fuel → c_scale st - reqscale ≤ c_precision st < 256 →
  let v := eval (build_up st) in
  let k := c_scale st - reqscale in
  let st' := scale_down fuel reqscale st in
  limbs (build_up st') ∧ eval (build_up st') = v / 10 ^ k ∧ decpt st' = None ∧
  overflow st' = (if v mod 10 ^ k =? 0 then ov else 2) ∧ c_precision st' = c_precision st - k ∧ c_scale st' = reqscale.
Proof.
  revert st ov. induction fuel as [|fuel IH]; intros st ov Hl Hdp Hov Hr Hs Hf Hp v k.
  { assert (k = 0) as -> by lia. intros st'. simpl in st'. subst st'. rewrite Z.div_1_r, Z.mod_1_r, Z.eqb_refl.
    split_and!; done || lia. }
  cbn [scale_down]. destruct (Z.ltb_spec reqscale (c_scale st)) as [Hlt|].
  2:{ assert (k = 0) as -> by lia. cbn [andb]. rewrite Z.div_1_r, Z.mod_1_r, Z.eqb_refl.
      split_and!; done || lia. }
  destruct (Z.ltb_spec 0 (c_scale st)); [|lia]. cbn [andb].
  destruct (unscale_spec _ Hl) as (Hd & Hl' & He').
  set (ary := sqlnum_unscale_le (build_up st)) in *. rewrite Hd.
  rewrite to_uint8_small, to_int8_small by lia.
  set (st1 := Conversion _ _ _ _ _).
  destruct (IH st1 (if v mod 10 =? 0 then ov else 2)) as (H1 & H2 & H3 & H4 & H5 & H6);
    [done|done|subst st1; cbn [overflow]; by rewrite Hov|done|subst st1; cbn [c_scale]; lia..|
     subst st1; cbn [c_scale c_precision]; lia|].
  subst st1. cbn [c_scale c_precision build_up] in *. rewrite He' in *. fold v in H1, H2, H3, H4, H5, H6 |- *.
  assert (k = 1 + (c_scale st - 1 - reqscale)) as -> by lia. set (j := c_scale st - 1 - reqscale) in *.
  assert (0 < 10 ^ j) by (apply Z.pow_pos_nonneg; lia).
  rewrite Z.pow_add_r, Z.pow_1_r by lia. split_and!; [done|rewrite H2, Z.div_div; [done|done|assumption]|done| |lia|done].
  rewrite H4. rewrite Z.rem_mul_r by lia.
  pose proof (Z.mod_pos_bound v 10). pose proof (Z.mod_pos_bound (v / 10) (10 ^ j)).
  destruct (Z.eqb_spec (v mod 10) 0), (Z.eqb_spec ((v / 10) mod 10 ^ j) 0), (Z.eqb_spec (v mod 10 + 10 * ((v / 10) mod 10 ^ j)) 0);
    done || lia.
Qed.

(** The digits that count for the precision: of the [p] digits of a number that
    is not 0, the zeros at its end do not. *)
Definition significant (p v r : Z) : Prop :=
  (v = 0 ∧ r = 0) ∨
  (v ≠ 0 ∧ ∃ k, 0 ≤ k ∧ (10 ^ k | v) ∧ ¬ (10 ^ (k + 1) | v) ∧ r = Z.max 0 (p - k)).

Lemma trailing_zeros v : v ≠ 0 → ∃ k, 0 ≤ k ∧ (10 ^ k | v) ∧ ¬ (10 ^ (k + 1) | v).
Proof.
  induction v as [v IH] using (induction_ltof1 _ Z.abs_nat). unfold ltof in IH. intros Hv.
  destruct (decide (v mod 10 = 0)) as [Hz|Hnz].
  - pose proof (Z.div_mod v 10) as Hdm. destruct (IH (v / 10)) as (k & Hk & [q Hq] & Hn); [lia|lia|].
    exists (k + 1). split_and!; [lia| |].
    + exists q. rewrite Z.pow_add_r, Z.pow_1_r by lia. lia.
    + intros [q' Hq']. apply Hn. exists q'. rewrite Z.pow_add_r, Z.pow_1_r in Hq' by lia. lia.
  - exists 0. split_and!; [lia|by apply Z.divide_1_l|]. intros [q Hq]. rewrite Z.pow_1_r in Hq. apply Hnz. rewrite Hq. by rewrite Z.mod_mul.
Qed.

Lemma strip_zeros_0 fuel tmp p :
  limbs tmp → eval tmp = 0 → 0 < p < 256 → p ≤ Z.of_nat fuel → strip_zeros fuel tmp p = 0.
Proof.
  revert tmp p. induction fuel as [|fuel IH]; intros tmp p Hl He Hp Hf; [lia|].
  destruct (unscale_spec tmp Hl) as (Hd & Hl' & He'). rewrite He in Hd, He'. cbn [strip_zeros]. rewrite Hd.
  change (0 mod 10 =? 0) with true. cbn [andb]. rewrite to_uint8_small by lia. destruct (Z.ltb_spec 0 (p - 1)); [|lia].
  apply IH; done || lia.
Qed.

Lemma strip_zeros_spec fuel tmp p :
  limbs tmp → 0 ≤ p < 256 → 256 < Z.of_nat fuel → (p = 0 → eval tmp = 0) →
  significant p (eval tmp) (strip_zeros fuel tmp p).
Proof.
  intros Hl Hp Hf Hp0. destruct (decide (eval tmp = 0)) as [He|Hne].
  { left. split; [done|]. destruct (decide (p = 0)) as [->|]; [|apply strip_zeros_0; done || lia].
    destruct fuel as [|fuel]; [lia|]. destruct (unscale_spec tmp Hl) as (Hd & Hl' & He'). rewrite He in Hd, He'.
    cbn [strip_zeros]. rewrite Hd. change (strip_zeros fuel (set_first (first (sqlnum_unscale_le tmp) / 10) (sqlnum_unscale_le tmp)) 255 = 0).
    apply strip_zeros_0; done || lia. }
  right. split; [done|]. assert (0 < p) as Hpos by (destruct (decide (p = 0)); [by destruct Hne; apply Hp0|lia]).
  assert (p ≤ Z.of_nat fuel) as Hf' by lia. clear Hf Hp0.
  revert tmp p Hl Hp Hne Hpos Hf'. induction fuel as [|fuel IH]; intros tmp p Hl Hp Hne Hpos Hf; [lia|].
  destruct (unscale_spec tmp Hl) as (Hd & Hl' & He'). cbn [strip_zeros]. rewrite Hd.
  pose proof (Z.div_mod (eval tmp) 10) as Hdm.
  destruct (Z.eqb_spec (eval tmp mod 10) 0) as [Hz|Hnz]; cbn [andb].
  - rewrite to_uint8_small by lia. destruct (Z.ltb_spec 0 (p - 1)).
    + destruct (IH _ (p - 1) Hl') as (k & Hk & Hdiv & Hndiv & ->); [lia|lia|lia|lia|]. rewrite He' in Hdiv, Hndiv.
      exists (k + 1). split_and!; [lia| | |lia].
      * destruct Hdiv as [q Hq]. exists q. rewrite Z.pow_add_r, Z.pow_1_r by lia. lia.
      * intros [q Hq]. apply Hndiv. exists q. rewrite Z.pow_add_r, Z.pow_1_r in Hq by lia. lia.
    + destruct (trailing_zeros (eval tmp) Hne) as (k & Hk & Hdiv & Hndiv). exists k. split_and!; [done..|].
      assert (k ≠ 0); [|lia]. intros ->. apply Hndiv. rewrite Z.pow_1_r. exists (eval tmp / 10). lia.
  - exists 0. split_and!; [lia|by apply Z.divide_1_l| |lia]. intros [q Hq]. rewrite Z.pow_1_r in Hq. apply Hnz. rewrite Hq. by rewrite Z.mod_mul.
Qed.

(** The number in the bytes of a struct, least significant first. *)
Fixpoint bytes_value (bs : list Z) : Z :=
  match bs with [] => 0 | b :: bs' => b + 256 * bytes_value bs' end.

Definition byte (b : Z) : Prop := 0 ≤ b < 256.

Lemma pack_spec ary :
  Forall limb ary →
  bytes_value (pack ary) = eval ary ∧ Forall byte (pack ary) ∧ length (pack ary) = (2 * length ary)%nat.
Proof.
  unfold pack. induction 1 as [|x ary Hx Hary (Hv & Hb & Hl)]; [done|]. unfold limb in Hx. unfold byte in *.
  cbn [mbind list_bind app bytes_value eval length] in *. rewrite Hv, Hl.
  change 0xff with (Z.ones 8). rewrite !Z.land_ones, Z.shiftr_div_pow2 by lia.
  pose proof (Z.div_mod x 256 ltac:(done)). pose proof (Z.mod_pos_bound x 256 ltac:(done)).
  change (2 ^ 8) with 256 in *. rewrite (Z.mod_small (x / 256)) by lia.
  split_and!; [lia| |lia]. repeat constructor; done || lia.
Qed.

(** A number as text: a sign, digits, and the point with the decimals. *)
Definition decimal_text (negative : bool) (ds : str) (frac : option str) : str :=
  (if negative then ["-"%char] else []) ++ ds ++ match frac with Some fs => "."%char :: fs | None => [] end.

Lemma list_find_point ds t : digits ds → list_find (λ c, c = "."%char) (ds ++ "."%char :: t) = Some (length ds, "."%char).
Proof.
  intros Hds. apply list_find_Some. split_and!; [|done|].
  - by rewrite list_lookup_middle.
  - intros j y Hj Hlt. rewrite lookup_app_l in Hj by done. eapply (Forall_lookup_1 _ _ _ _ Hds) in Hj.
    exact (proj2 (proj2 (proj2 (is_digit_not_space _ Hj)))). 
Qed.

Lemma list_find_no_point ds : digits ds → list_find (λ c, c = "."%char) ds = None.
Proof. intros Hds. apply list_find_None. eapply Forall_impl; [exact Hds|]. intros c Hc. exact (proj2 (proj2 (proj2 (is_digit_not_space _ Hc)))). Qed.

(** What the first lines find in a text: the sign, the rest and the point. *)
Lemma text_parts negative ds frac :
  digits ds → let text := decimal_text negative ds frac in
  let point := fst <$> list_find (λ c, c = "."%char) text in
  bool_decide (head text = Some "-"%char) = negative ∧
  (if negative then (0, tail text, pred <$> point) else (1, text, point)) =
    (if negative then 0 else 1, decimal_text false ds frac, (λ _, length ds) <$> frac).
Proof.
  intros Hds text point. unfold decimal_text in text |- *.
  assert (∀ b, fst <$> list_find (λ c, c = "."%char) ((if b : bool then ["-"%char] else []) ++ ds ++
     match frac with Some fs => "."%char :: fs | None => [] end) = (λ _, if b then S (length ds) else length ds) <$> frac) as Hpoint.
  { intros b. assert (list_find (λ c, c = "."%char) (ds ++ match frac with Some fs => "."%char :: fs | None => [] end) =
      (λ _, (length ds, "."%char)) <$> frac) as Hl.
    { destruct frac as [fs|]; [by apply list_find_point|]. rewrite app_nil_r. by apply list_find_no_point. }
    destruct b; cbn [app list_find]; rewrite ?(decide_False (P := "-"%char = "."%char)) by done; rewrite Hl; by destruct frac. }
  subst text point. rewrite Hpoint. destruct negative; cbn [app head tail].
  - split; [done|]. by destruct frac.
  - split; [|done]. apply bool_decide_eq_false. intros Hh. destruct ds as [|c ds]; [by destruct frac|].
    simpl in Hh. injection Hh as ->. by apply Forall_inv in Hds.
Qed.

(** The reading part: all digits of a text whose number fits in 128 bits. *)
Lemma read_text ds frac :
  let text := decimal_text false ds frac in let fs := default [] frac in
  digits ds → digits fs → (length text ≤ 127)%nat → number (ds ++ fs) < 2 ^ 128 →
  ∃ st, read_groups (length text) text (length text) 0
      (Conversion (replicate 8 0) ((λ _, length ds) <$> frac) 0 (to_uint8 (Z.of_nat (length text))) 0) = (st, false) ∧
    reading st (number (ds ++ fs)) (Z.of_nat (length ds + length fs)) (Z.of_nat (length fs)).
Proof.
  intros text fs Hds Hfs Hlen Hn.
  assert (limbs (replicate 8 0)) as H0 by (split; [done|]; repeat constructor; done).
  rewrite to_uint8_small by lia.
  unfold decimal_text in text. subst fs. destruct frac as [fs|]; cbn [default app fmap option_fmap option_map] in *.
  - subst text. rewrite length_app in Hlen. simpl in Hlen.
    edestruct (read_point (length (ds ++ "."%char :: fs)) ds fs 0
      (Conversion (replicate 8 0) (Some (length ds)) 0 (Z.of_nat (length (ds ++ "."%char :: fs))) 0) 0) as (st & E & Hst); try done; try lia.
    exists st. split; [exact E|]. cbn [c_precision] in Hst. rewrite to_uint8_small in Hst by (rewrite length_app; simpl; lia).
    replace (Z.of_nat (length (ds ++ "."%char :: fs)) - 1) with (Z.of_nat (length ds + length fs)) in Hst
      by (rewrite length_app; simpl; lia). exact Hst.
  - subst text. rewrite !app_nil_r in *.
    edestruct (read_digits (length ds) ds 0 (Conversion (replicate 8 0) None 0 (Z.of_nat (length ds)) 0) 0) as (st & E & Hst);
      [done|lia|split_and!; done|done|].
    exists st. split; [exact E|]. rewrite Nat.add_0_r. exact Hst.
Qed.

(** The scaling part, in the three cases of the code. *)
Lemma scale_text st n prec sc reqscale :
  reading st n prec sc → 0 ≤ sc ≤ 127 → sc ≤ prec < 256 → 0 ≤ reqscale ≤ 127 → 0 ≤ n →
  n * 10 ^ Z.max 0 (reqscale - sc) < 2 ^ 128 →
  let st' :=
    if (0 <? reqscale) && (c_scale st <? reqscale) then scale_up byte_fuel reqscale st
    else if reqscale <? c_scale st then scale_down byte_fuel reqscale st
    else st in
  limbs (build_up st') ∧
  eval (build_up st') = (if sc <=? reqscale then n * 10 ^ (reqscale - sc) else n / 10 ^ (sc - reqscale)) ∧
  overflow st' = (if (reqscale <? sc) && negb (n mod 10 ^ (sc - reqscale) =? 0) then 2 else 0) ∧
  c_precision st' = prec - Z.max 0 (sc - reqscale) ∧ c_scale st' = reqscale.
Proof.
  assert (Z.of_nat byte_fuel = 300) as Hbf by done.
  intros Hst Hsc Hprec Hreq Hn Hv. pose proof Hst as (Hl & He & Hdp & Hov & Hpr & Hs). rewrite Hs.
  destruct (Z.ltb_spec sc reqscale) as [Hup|Hle].
  - destruct (Z.ltb_spec 0 reqscale); [|lia]. cbn [andb]. rewrite Z.max_r in Hv by lia.
    destruct (scale_up_spec byte_fuel reqscale st n prec sc Hst) as (H1 & H2 & H3 & H4 & H5 & H6); [lia..|exact Hv|].
    destruct (Z.leb_spec sc reqscale); [|lia]. destruct (Z.ltb_spec reqscale sc); [lia|]. cbn [andb].
    split_and!; done || lia.
  - rewrite andb_false_r. destruct (Z.ltb_spec reqscale sc) as [Hlt|].
    + destruct (Z.leb_spec sc reqscale); [lia|].
      destruct (scale_down_spec byte_fuel reqscale st 0) as (H1 & H2 & H3 & H4 & H5 & H6); [done..|lia|lia|lia|lia|].
      rewrite Hs, ?He, ?Hpr in *. cbn [andb]. split_and!; [done|done| |lia|done].
      rewrite H4. by destruct (n mod 10 ^ (sc - reqscale) =? 0).
    + assert (sc = reqscale) as -> by lia. rewrite Z.leb_refl, Z.sub_diag, Z.mul_1_r. cbn [andb].
      split_and!; done || lia.
Qed.

(** What is asked of a struct: the scale and the precision it is given with. *)
Definition request (prec sc : Z) : SQL_NUMERIC_STRUCT := Numeric prec sc 0 [].

(** The conversion of a text, on all of it. *)
Lemma sqlnum_from_str_run negative ds frac reqprec reqscale :
  let fs := default [] frac in
  let n := number (ds ++ fs) in
  let sc := Z.of_nat (length fs) in
  let v := if sc <=? reqscale then n * 10 ^ (reqscale - sc) else n / 10 ^ (sc - reqscale) in
  let prec := Z.of_nat (length ds) + Z.min sc reqscale in
  let lost := (reqscale <? sc) && negb (n mod 10 ^ (sc - reqscale) =? 0) in
  digits ds → digits fs → (length ds + length fs < 127)%nat → 0 ≤ reqscale ≤ 127 →
  n * 10 ^ Z.max 0 (reqscale - sc) < 2 ^ 128 →
  ∃ bs r,
    sqlnum_from_str (decimal_text negative ds frac) (request reqprec reqscale) =
      (Numeric prec reqscale (if negative then 0 else 1) bs, if reqprec <? r then 1 else if lost then 2 else 0) ∧
    bytes_value bs = v ∧ Forall byte bs ∧ length bs = 16%nat ∧ significant prec v r.
Proof.
  intros fs n sc v prec lost Hds Hfs Hlen Hreq Hv.
  assert (digits (ds ++ fs)) as Hdf by (by apply Forall_app). pose proof (number_bound _ Hdf) as Hn. fold n in Hn.
  assert (0 < 10 ^ Z.max 0 (reqscale - sc)) by (apply Z.pow_pos_nonneg; lia).
  destruct (read_text ds frac Hds Hfs) as (st & Eread & Hst).
  { unfold decimal_text. subst fs. destruct frac; cbn [app]; rewrite length_app; simpl in *; lia. }
  { fold fs n. nia. }
  fold fs n sc in Hst. unfold sqlnum_from_str. cbn [request scale precision].
  destruct (text_parts negative ds frac Hds) as [-> ->]. rewrite Eread.
  destruct (scale_text st n _ sc reqscale Hst) as (Hl & He & Hov & Hpr & Hs); [lia..|].
  set (st1 := if _ && _ then scale_up _ _ _ else _) in *. fold v in He. fold lost in Hov.
  destruct (Z.ltb_spec reqscale 0); [lia|]. cbn [c_precision c_scale overflow build_up].
  assert (c_precision st1 = prec) as Hp by lia.
  destruct (pack_spec (build_up st1) (proj2 Hl)) as (Hbv & Hbb & Hbl). rewrite (proj1 Hl) in Hbl.
  exists (pack (build_up st1)), (strip_zeros byte_fuel (build_up st1) (c_precision st1)).
  split; [by rewrite Hov, Hp, Hs|]. split; [by rewrite Hbv|]. split; [done|]. split; [done|].
  rewrite <- He, <- Hp. apply strip_zeros_spec; [done|lia|done|].
  intros Hp0. rewrite He. subst v. rewrite length_app, Nat2Z.inj_add in Hn.
  destruct (Z.leb_spec sc reqscale) as [Hle|Hgt].
  - assert (Z.of_nat (length ds) + Z.of_nat (length fs) = 0) as Hz by lia. rewrite Hz in Hn. replace n with 0 by lia. done.
  - apply Z.div_small. split; [lia|]. replace (sc - reqscale) with (Z.of_nat (length ds) + Z.of_nat (length fs)) by lia. lia.
Qed.

(** reading a decimal number into a struct with a scale that is not
    negative.  The number is scaled exactly to the scale asked for, what does not
    fit behind the point is cut off, the bytes hold the result, and the overflow
    flag is 2 when a decimal that is cut off is not 0 and 1 when the digits that
    count are more than the precision asked for. *)
Theorem sqlnum_from_str_spec negative ds frac reqprec reqscale :
  let fs := default [] frac in
  let n := number (ds ++ fs) in
  let sc := Z.of_nat (length fs) in
  let v := if sc <=? reqscale then n * 10 ^ (reqscale - sc) else n / 10 ^ (sc - reqscale) in
  let prec := Z.of_nat (length ds) + Z.min sc reqscale in
  let lost := (reqscale <? sc) && negb (n mod 10 ^ (sc - reqscale) =? 0) in
  digits ds → digits fs → (length ds + length fs < 127)%nat → 0 ≤ reqscale ≤ 127 →
  n * 10 ^ Z.max 0 (reqscale - sc) < 2 ^ 128 →
  ∃ bs r,
    sqlnum_from_str (decimal_text negative ds frac) (request reqprec reqscale) =
      (Numeric prec reqscale (if negative then 0 else 1) bs, if reqprec <? r then 1 else if lost then 2 else 0) ∧
    bytes_value bs = v ∧ Forall byte bs ∧ length bs = 16%nat ∧ significant prec v r.
Proof. apply sqlnum_from_str_run. Qed.

(** ** Printing *)

(** The value of a big-endian array. *)
Definition evalb (ary : list Z) : Z := foldl (λ a x, a * 2 ^ 16 + x) 0 ary.

Lemma evalb_snoc ary x : evalb (ary ++ [x]) = evalb ary * 2 ^ 16 + x.
Proof. unfold evalb. by rewrite foldl_app. Qed.

Lemma evalb_cons x ary : evalb (x :: ary) = x * 2 ^ (16 * Z.of_nat (length ary)) + evalb ary.
Proof.
  induction ary as [|y ary IH] using rev_ind; [unfold evalb; simpl; lia|].
  rewrite app_comm_cons, !evalb_snoc, IH, length_app. simpl length.
  replace (16 * Z.of_nat (length ary + 1)) with (16 * Z.of_nat (length ary) + 16) by lia.
  rewrite Z.pow_add_r by lia. ring.
Qed.

Lemma evalb_app ary ary' : evalb (ary ++ ary') = evalb ary * 2 ^ (16 * Z.of_nat (length ary')) + evalb ary'.
Proof.
  induction ary' as [|y ary' IH] using rev_ind; [rewrite app_nil_r; unfold evalb; simpl; lia|].
  rewrite app_assoc, !evalb_snoc, IH, length_app. simpl length.
  replace (16 * Z.of_nat (length ary' + 1)) with (16 * Z.of_nat (length ary') + 16) by lia.
  rewrite Z.pow_add_r by lia. ring.
Qed.

Lemma evalb_zeros ary : Forall (λ x, x = 0) ary → evalb ary = 0.
Proof.
  induction ary as [|x ary IH] using rev_ind; [done|]. intros [H ->%Forall_inv]%Forall_app.
  rewrite evalb_snoc, IH by done. done.
Qed.

Lemma evalb_0 ary : Forall limb ary → evalb ary = 0 → Forall (λ x, x = 0) ary.
Proof.
  assert (∀ l, Forall limb l → 0 ≤ evalb l) as Hpos.
  { induction l as [|x l IH] using rev_ind; [done|]. intros [Hl Hx%Forall_inv]%Forall_app. rewrite evalb_snoc.
    unfold limb in Hx. specialize (IH Hl). lia. }
  induction ary as [|x ary IH] using rev_ind; [constructor|]. intros [Hl Hx%Forall_inv]%Forall_app.
  rewrite evalb_snoc. unfold limb in Hx. intros He. specialize (Hpos _ Hl).
  apply Forall_app. split; [apply IH; [done|lia]|]. repeat constructor. lia.
Qed.

(** Dividing by ten from the first element that is not empty. *)
Lemma unscale_from_spec x rest :
  0 ≤ x < 10 * 2 ^ 16 → Forall limb rest →
  ∃ l d, unscale_from x rest = l ++ [d] ∧ length l = length rest ∧ Forall limb l ∧ 0 ≤ d < 10 * 2 ^ 16 ∧
    10 * (evalb l * 2 ^ 16) + d = evalb (x :: rest).
Proof.
  revert x. induction rest as [|y rest IH]; intros x Hx Hrest.
  { exists [], x. split_and!; first [done | unfold evalb; simpl; lia]. }
  apply Forall_cons in Hrest as [Hy Hrest]. unfold limb in Hy.
  pose proof (Z.div_mod x 10 ltac:(done)). pose proof (Z.mod_pos_bound x 10 ltac:(done)).
  cbn [unscale_from]. rewrite Z.shiftl_mul_pow2 by lia. unfold to_uint32. rewrite Z.mod_small by lia.
  destruct (IH (y + x mod 10 * 2 ^ 16)) as (l & d & E & Hlen & Hl & Hd & Hv); [lia|done|].
  exists (x / 10 :: l), d. rewrite E. split_and!; [done|simpl; lia|constructor; [unfold limb; lia|done]|lia|lia|].
  rewrite evalb_cons, Hlen. rewrite evalb_cons in Hv. rewrite (evalb_cons x), evalb_cons. simpl length.
  replace (16 * Z.of_nat (S (length rest))) with (16 * Z.of_nat (length rest) + 16) by lia.
  rewrite Z.pow_add_r by lia. nia.
Qed.

(** One turn: the digit taken off a number that is not 0.  [gone] says that the
    elements in front of [k] are empty. *)
Definition gone (k : nat) (ary : list Z) : Prop := Forall (λ x, x = 0) (take k ary).

Lemma skip_empty_spec mem k : 
  match skip_empty mem k with
  | Ok k' => ∃ i x, k' = (k + i)%nat ∧ Forall (λ x, x = 0) (take i mem) ∧ mem !! i = Some x ∧ x ≠ 0
  | Throw _ => False
  | UB => Forall (λ x, x = 0) mem
  end.
Proof.
  revert k. induction mem as [|x mem IH]; intros k; simpl; [constructor|].
  destruct (Z.eqb_spec x 0) as [->|Hx].
  - specialize (IH (S k)). destruct (skip_empty mem (S k)) as [k'|e|]; [|done|by constructor].
    destruct IH as (i & y & -> & Hi & Hl & Hy). exists (S i), y. split_and!; [lia| |done|done]. by constructor.
  - exists 0%nat, x. split_and!; [lia|constructor|done|done].
Qed.

(** Which element is found: none of the array when the number is 0. *)
Lemma skip_empty_array ary beyond k :
  length ary = 8%nat → Forall limb ary → gone k ary → (k ≤ 7)%nat →
  if decide (evalb ary = 0) then
    match skip_empty (drop k (ary ++ beyond)) k with
    | Ok k' => (8 ≤ k')%nat ∧ gone k' ary | Throw _ => False | UB => Forall (λ x, x = 0) beyond end
  else ∃ k', skip_empty (drop k (ary ++ beyond)) k = Ok k' ∧ (k' ≤ 7)%nat ∧ gone k' ary.
Proof.
  intros Hlen Hl Hg Hk. pose proof (skip_empty_spec (drop k (ary ++ beyond)) k) as Hs.
  assert (∀ i, Forall (λ x, x = 0) (take i (drop k (ary ++ beyond))) → gone (k + i) ary) as Hgone.
  { intros i Hi. unfold gone. rewrite <- take_take_drop. apply Forall_app. split; [exact Hg|].
    rewrite drop_app_le in Hi by lia. rewrite take_app in Hi. by apply Forall_app in Hi as [Hi _]. }
  assert (∀ n, (8 ≤ n)%nat → gone n ary → evalb ary = 0) as Hall.
  { intros n Hn H. apply evalb_zeros. unfold gone in H. by rewrite take_ge in H by lia. }
  case_decide as Hz.
  - pose proof (evalb_0 _ Hl Hz) as Hz'. destruct (skip_empty _ k) as [k'|e|]; [|done|].
    + destruct Hs as (i & x & -> & Hi & Hx & Hne). split; [|by apply Hgone].
      destruct (decide (8 ≤ k + i)%nat) as [|Hlt]; [done|]. exfalso. apply Hne.
      rewrite lookup_drop, lookup_app_l in Hx by lia. by apply (Forall_lookup_1 _ _ _ _ Hz' Hx).
    + rewrite drop_app_le in Hs by lia. by apply Forall_app in Hs as [_ Hs].
  - destruct (skip_empty _ k) as [k'|e|]; [|done|].
    + destruct Hs as (i & x & -> & Hi & Hx & Hne). exists (k + i)%nat. split; [done|]. split; [|by apply Hgone].
      destruct (decide (k + i ≤ 7)%nat) as [|Hlt]; [done|]. exfalso. apply Hz, (Hall (k + i)%nat); [lia|by apply Hgone].
    + exfalso. apply Hz, (Hall (k + 8)%nat); [lia|]. apply Hgone. by apply Forall_take.
Qed.

(** The digit that a turn prints, and the array after it. *)
Lemma digit_step ary k :
  length ary = 8%nat → Forall limb ary → gone k ary → (k ≤ 7)%nat →
  let ary1 := if (7 <=? k)%nat then ary else sqlnum_unscale_be ary k in
  let ary2 := <[7%nat := ary1 !!! 7%nat / 10]> ary1 in
  ary1 !!! 7%nat mod 10 = evalb ary mod 10 ∧ length ary2 = 8%nat ∧ Forall limb ary2 ∧ gone k ary2 ∧
  evalb ary2 = evalb ary / 10.
Proof.
  intros Hlen Hl Hg Hk.
  assert (∃ l d, (if (7 <=? k)%nat then ary else sqlnum_unscale_be ary k) = l ++ [d] ∧ length l = 7%nat ∧ Forall limb l ∧
    0 ≤ d < 10 * 2 ^ 16 ∧ 10 * (evalb l * 2 ^ 16) + d = evalb ary ∧ gone k (l ++ [0])) as (l & d & -> & Hl7 & Hll & Hd & Hv & Hgl).
  { destruct (Nat.leb_spec 7 k) as [Hk7|Hk7].
    - assert (k = 7%nat) as -> by lia. destruct ary as [|d l _] using rev_ind; [done|].
      rewrite length_app in Hlen. simpl in Hlen. apply Forall_app in Hl as [Hll Hd%Forall_inv].
      unfold gone in Hg. rewrite take_app_le, take_ge in Hg by lia. unfold limb in Hd.
      exists l, d. rewrite evalb_snoc, (evalb_zeros _ Hg). split_and!; try done || lia.
      unfold gone. by rewrite take_app_le, take_ge by lia.
    - unfold sqlnum_unscale_be. destruct (drop k ary) as [|x rest] eqn:Edrop.
      { apply (f_equal length) in Edrop. rewrite length_drop in Edrop. simpl in Edrop. lia. }
      pose proof (f_equal length Edrop) as Hdl. rewrite length_drop in Hdl. simpl in Hdl.
      assert (ary = take k ary ++ x :: rest) as Heq by (by rewrite <- Edrop, take_drop).
      pose proof Hl as Hl'. rewrite Heq in Hl'. apply Forall_app in Hl' as [Hlt Hlr]. apply Forall_cons in Hlr as [Hx Hrest]. unfold limb in Hx.
      destruct (unscale_from_spec x rest) as (l & d & E & Hll & Hlim & Hd & Hv); [lia|done|].
      exists (take k ary ++ l), d. rewrite E, <- app_assoc. split_and!; try done || lia.
      + rewrite length_app, length_take. lia.
      + by apply Forall_app.
      + rewrite Heq at 2. rewrite !evalb_app, (evalb_zeros (take k ary)) by done. lia.
      + unfold gone. rewrite <- app_assoc, take_app_le, take_take by (rewrite length_take; lia).
        rewrite Nat.min_id. exact Hg. }
  intros ary1 ary2. assert (ary1 !!! 7%nat = d) as Hd7.
  { subst ary1. rewrite lookup_total_app_r by lia. by rewrite Hl7. }
  assert (ary2 = l ++ [d / 10]) as E2.
  { subst ary2. rewrite Hd7. subst ary1. rewrite insert_app_r_alt by lia. by rewrite Hl7. }
  pose proof (Z.div_mod d 10 ltac:(done)). pose proof (Z.mod_pos_bound d 10 ltac:(done)).
  rewrite Hd7, E2, <- Hv, evalb_snoc. replace (10 * (evalb l * 2 ^ 16) + d) with (d + evalb l * 2 ^ 16 * 10) by lia.
  split_and!.
  - by rewrite Z.mod_add.
  - rewrite length_app. simpl. lia.
  - apply Forall_app. split; [done|]. repeat constructor; lia.
  - unfold gone in Hgl |- *. rewrite take_app_le in Hgl |- * by lia. done.
  - rewrite Z.div_add by done. lia.
Qed.

Definition digit_char (d : Z) : ascii := ascii_of_N (Z.to_N (48 + d)).

Lemma digit_char_spec d : 0 ≤ d < 10 → is_digit (digit_char d) = true ∧ number [digit_char d] = d.
Proof.
  intros Hd. assert (d = 0 ∨ d = 1 ∨ d = 2 ∨ d = 3 ∨ d = 4 ∨ d = 5 ∨ d = 6 ∨ d = 7 ∨ d = 8 ∨ d = 9) as Hc by lia.
  by destruct_or! Hc; subst.
Qed.

(** A state of the loop over digits that stands for the number [e]. *)
Definition printed (st : printing) (e : Z) : Prop :=
  length (expanded st) = 8%nat ∧ Forall limb (expanded st) ∧ gone (max_space st) (expanded st) ∧
  (max_space st ≤ 7)%nat ∧ evalb (expanded st) = e.

Lemma gone_7 ary : length ary = 8%nat → gone 7 ary → ary !!! 7%nat = 0 → evalb ary = 0.
Proof.
  intros Hlen Hg H7. apply evalb_zeros. rewrite <- (take_drop 7 ary). apply Forall_app. split; [exact Hg|].
  rewrite (drop_S ary (ary !!! 7%nat) 7) by (apply list_lookup_lookup_total_lt; lia).
  rewrite drop_ge by lia. repeat constructor. done.
Qed.

(** A turn on a number that is not 0. *)
Lemma print_digits_turn turns beyond reqscale j st e buf :
  printed st e → e ≠ 0 →
  ∃ st1, printed st1 (e / 10) ∧ calcprec st1 = calcprec st + 1 ∧
    print_digits (S turns) beyond reqscale j st buf =
      buf ← push (digit_char (e mod 10)) buf;
      buf ← (if j =? reqscale - 1 then push "." buf else Ok buf);
      print_digits turns beyond reqscale (j + 1) st1 buf.
Proof.
  intros (Hlen & Hl & Hg & Hk & He) Hne.
  pose proof (skip_empty_array (expanded st) beyond (max_space st) Hlen Hl Hg Hk) as Hs.
  rewrite decide_False in Hs by lia. destruct Hs as (k & Es & Hk' & Hgk).
  destruct (digit_step (expanded st) k Hlen Hl Hgk Hk') as (Hd & H2 & H3 & H4 & H5).
  cbn [print_digits]. rewrite Es. cbn [mbind res_bind].
  assert ((7 <=? k)%nat && (expanded st !!! 7%nat =? 0) = false) as ->.
  { destruct (Nat.leb_spec 7 k); [|done]. assert (k = 7%nat) as -> by lia. apply Z.eqb_neq. intros H7.
    apply Hne. rewrite <- He. by apply gone_7. }
  set (ary1 := if (7 <=? k)%nat then _ else _) in *. rewrite He in *. unfold digit_char. rewrite <- Hd. eexists. split; [|split; [|reflexivity]]; [by split_and!|done].
Qed.

(** What the loop puts in front of the text, from the [j]th digit on: the digits
    of the number, with the point in front of the last [reqscale] of all. *)
Definition spelled (reqscale j e n : Z) (t : str) : Prop :=
  if decide (j < reqscale) then
    (∃ ds fs, t = ds ++ "."%char :: fs ∧ digits ds ∧ digits fs ∧ number (ds ++ fs) = e ∧
       Z.of_nat (length fs) = reqscale - j ∧ n = Z.of_nat (length ds + length fs)) ∨
    (digits t ∧ number t = e ∧ n = Z.of_nat (length t) ∧ n < reqscale - j)
  else digits t ∧ number t = e ∧ n = Z.of_nat (length t).

Lemma number_snoc s d : 0 ≤ d < 10 → number (s ++ [digit_char d]) = number s * 10 + d.
Proof. intros [_ Hd]%digit_char_spec. rewrite number_app, Hd. done. Qed.

Lemma spelled_snoc reqscale j e n t :
  0 ≤ e → spelled reqscale (j + 1) (e / 10) n t →
  spelled reqscale j e (n + 1) (t ++ (if j =? reqscale - 1 then ["."%char] else []) ++ [digit_char (e mod 10)]).
Proof.
  intros He Hs. pose proof (Z.div_mod e 10 ltac:(done)). pose proof (Z.mod_pos_bound e 10 ltac:(done)) as Hm.
  destruct (digit_char_spec _ Hm) as [Hdig Hnum]. unfold spelled in *.
  destruct (Z.eqb_spec j (reqscale - 1)) as [Hj|Hj].
  - rewrite decide_False in Hs by lia. rewrite decide_True by lia. destruct Hs as (Hd & Hn & ->). left.
    exists t, [digit_char (e mod 10)]. rewrite number_snoc, Hn by done. split_and!; try done.
    + by repeat constructor.
    + lia.
    + simpl. lia.
    + simpl. lia.
  - destruct (decide (j < reqscale)) as [Hlt|Hge].
    + rewrite decide_True in Hs by lia. destruct Hs as [(ds & fs & -> & Hds & Hfs & Hn & Hlen & ->)|(Hd & Hn & -> & Hlt')].
      * left. exists ds, (fs ++ [digit_char (e mod 10)]). rewrite (app_assoc ds fs), number_snoc, Hn, length_app by done. simpl.
        rewrite <- app_assoc. split_and!; try done || lia. apply Forall_app. split; [done|]. by repeat constructor.
      * right. cbn [app]. rewrite number_snoc, Hn, length_app by done. simpl.
        split_and!; try lia. apply Forall_app. split; [done|]. by repeat constructor.
    + rewrite decide_False in Hs by lia. destruct Hs as (Hd & Hn & ->). cbn [app].
      rewrite number_snoc, Hn, length_app by done. simpl. split_and!; try lia.
      apply Forall_app. split; [done|]. by repeat constructor.
Qed.

Definition digit_count (e n : Z) : Prop := 0 ≤ n ∧ (e = 0 → n = 0) ∧ (e ≠ 0 → 10 ^ (n - 1) ≤ e).

Lemma digit_count_S e n : e ≠ 0 → 0 ≤ e → digit_count (e / 10) n → digit_count e (n + 1).
Proof.
  intros Hne He (Hn & Hz & Hnz). pose proof (Z.div_mod e 10 ltac:(done)). pose proof (Z.mod_pos_bound e 10 ltac:(done)).
  split_and!; [lia|lia|]. intros _. replace (n + 1 - 1) with n by lia.
  destruct (decide (e / 10 = 0)) as [Hd|Hd]; [rewrite Hz by done; lia|]. specialize (Hnz Hd).
  destruct (decide (n = 0)) as [->|]; [lia|]. replace n with (1 + (n - 1)) by lia. rewrite Z.pow_add_r by lia. lia.
Qed.

(** The loop prints the number when a word behind the array is not 0. *)
Lemma print_digits_run turns beyond (reqscale j : Z) st e (room text : str) :
  printed st e → 0 ≤ e < 10 ^ Z.of_nat turns → Exists (λ x, x ≠ 0) beyond → (turns + (if decide (j < reqscale)%Z then 1 else 0) ≤ length room)%nat →
  (text ≠ [] ∨ e ≠ 0) →
  ∃ st' t, print_digits turns beyond reqscale j st (room, text) = Ok (st', (drop (length t) room, t ++ text)) ∧
    (length t ≤ turns + (if decide (j < reqscale)%Z then 1 else 0))%nat ∧ calcprec st' - calcprec st ≤ Z.of_nat turns ∧
    spelled reqscale j e (calcprec st' - calcprec st) t ∧ digit_count e (calcprec st' - calcprec st).
Proof.
  revert j st e room text. induction turns as [|turns IH]; intros j st e room text Hst He Hbeyond Hroom Hne.
  { assert (e = 0) as -> by lia. exists st, []. split; [done|]. rewrite Z.sub_diag. split; [simpl; lia|]. split; [simpl; lia|]. split; [|split_and!; lia].
    unfold spelled. case_decide; [right|]; split_and!; first [done | by apply Forall_nil | simpl; lia]. }
  destruct (decide (e = 0)) as [->|Hnz].
  { destruct Hne as [Hne|]; [|done]. pose proof Hst as (Hlen & Hl & Hg & Hk & Hz).
    pose proof (skip_empty_array (expanded st) beyond (max_space st) Hlen Hl Hg Hk) as Hs. rewrite decide_True in Hs by done.
    cbn [print_digits]. destruct (skip_empty _ _) as [k|e|]; [|done|].
    2:{ exfalso. apply Exists_exists in Hbeyond as (x & Hx & Hx0). rewrite Forall_forall in Hs. by apply Hx0, Hs. }
    destruct Hs as [Hk8 Hgk]. cbn [mbind res_bind]. destruct (Nat.leb_spec 7 k); [|lia]. cbn [andb].
    assert (expanded st !!! 7%nat = 0) as -> by (apply (Forall_lookup_1 _ _ 7%nat _ (evalb_0 _ Hl Hz)), list_lookup_lookup_total_lt; lia).
    rewrite Z.eqb_refl, bool_decide_false by done. eexists _, []. split; [done|]. cbn [calcprec]. rewrite Z.sub_diag.
    split; [simpl; lia|]. split; [simpl; lia|]. split; [|split_and!; lia]. unfold spelled. case_decide; [right|]; split_and!; first [done | by apply Forall_nil | simpl; lia]. }
  destruct room as [|c room]; [cbn [length] in Hroom; lia|]. cbn [length] in Hroom.
  destruct (print_digits_turn turns beyond reqscale j st e (c :: room, text) Hst Hnz) as (st1 & Hst1 & Hc1 & ->).
  replace (push (digit_char (e mod 10)) (c :: room, text)) with (Ok (room, digit_char (e mod 10) :: text)) by done.
  cbn [mbind res_bind].
  rewrite Nat2Z.inj_succ, Z.pow_succ_r in He by lia.
  assert (0 ≤ e / 10 < 10 ^ Z.of_nat turns) as He' by (split; [apply Z.div_pos; lia|apply Z.div_lt_upper_bound; lia]).
  set (text1 := (if j =? reqscale - 1 then ["."%char] else []) ++ digit_char (e mod 10) :: text).
  set (room1 := if j =? reqscale - 1 then drop 1 room else room).
  assert ((if j =? reqscale - 1 then push "." (room, digit_char (e mod 10) :: text)
           else Ok (room, digit_char (e mod 10) :: text)) = Ok (room1, text1)) as ->.
  { subst room1 text1. destruct (Z.eqb_spec j (reqscale - 1)); [|done]. rewrite decide_True in Hroom by lia.
    destruct room; [cbn [length] in Hroom; lia|done]. }
  cbn [mbind res_bind].
  destruct (IH (j + 1) st1 (e / 10) room1 text1) as (st' & t & E & Hlt & Hn & Hsp & Hdc); [done|done|done| |by left; subst text1; destruct (j =? reqscale - 1)|].
  { subst room1. destruct (Z.eqb_spec j (reqscale - 1)); repeat case_decide; rewrite ?length_drop; lia. }
  set (p := (if j =? reqscale - 1 then ["."%char] else []) ++ [digit_char (e mod 10)]).
  exists st', (t ++ p). rewrite E. split; [|split; [|split; [|split]]].
  - f_equal. f_equal. f_equal.
    + subst room1 p. rewrite length_app, Nat.add_comm.
      destruct (j =? reqscale - 1); [by rewrite drop_drop|done].
    + subst text1 p. rewrite <- !app_assoc. done.
  - subst p. rewrite length_app. destruct (Z.eqb_spec j (reqscale - 1)); repeat case_decide; simpl; lia.
  - lia.
  - replace (calcprec st' - calcprec st) with (calcprec st' - calcprec st1 + 1) by lia. apply spelled_snoc; done || lia.
  - replace (calcprec st' - calcprec st) with (calcprec st' - calcprec st1 + 1) by lia. apply digit_count_S; done || lia.
Qed.

(** The bytes, expanded into the array. *)
Lemma expand_spec n bs :
  length bs = (2 * n)%nat → Forall byte bs →
  length (expand bs) = n ∧ Forall limb (expand bs) ∧ evalb (expand bs) = bytes_value bs.
Proof.
  revert bs. induction n as [|n IH]; intros bs Hlen Hbs; [by destruct bs|].
  destruct bs as [|lo [|hi bs]]; [simpl in Hlen; lia..|].
  apply Forall_cons in Hbs as [Hlo [Hhi Hbs]%Forall_cons]. unfold byte in *.
  destruct (IH bs) as (Hl & Hlim & Hv); [simpl in Hlen; lia|done|].
  cbn [expand]. rewrite Z.shiftl_mul_pow2, lor_high by (change (2 ^ 8) with 256; lia).
  rewrite length_app, evalb_snoc, Hl, Hv. cbn [bytes_value length]. split_and!; [lia| |lia].
  apply Forall_app. split; [done|]. repeat constructor; lia.
Qed.

Lemma bytes_value_bound bs : Forall byte bs → 0 ≤ bytes_value bs < 256 ^ Z.of_nat (length bs).
Proof.
  induction 1 as [|b bs Hb Hbs IH]; [simpl; lia|]. unfold byte in Hb. cbn [bytes_value length].
  rewrite Nat2Z.inj_succ, Z.pow_succ_r by lia. lia.
Qed.

(** The number 0 has one digit. *)
Lemma print_digits_zero turns beyond reqscale j st c room :
  printed st 0 → Exists (λ x, x ≠ 0) beyond →
  ∃ st', print_digits (S turns) beyond reqscale j st (c :: room, []) = Ok (st', (room, ["0"%char])) ∧ calcprec st' = 1.
Proof.
  intros (H1 & H2 & H3 & H4 & H5) Hbeyond.
  pose proof (skip_empty_array (expanded st) beyond (max_space st) H1 H2 H3 H4) as Hs. rewrite decide_True in Hs by lia.
  cbn [print_digits]. destruct (skip_empty _ _) as [k|e|]; [|done|].
  2:{ exfalso. apply Exists_exists in Hbeyond as (x & Hx & Hx0). rewrite Forall_forall in Hs. by apply Hx0, Hs. }
  destruct Hs as [Hk8 Hgk]. cbn [mbind res_bind]. destruct (Nat.leb_spec 7 k); [|lia]. cbn [andb].
  assert (expanded st !!! 7%nat = 0) as ->
    by (apply (Forall_lookup_1 _ _ 7%nat _ (evalb_0 _ H2 ltac:(lia))), list_lookup_lookup_total_lt; lia).
  rewrite Z.eqb_refl, bool_decide_true by done. cbn [push mbind res_bind]. eexists. split; [reflexivity|done].
Qed.

(** The zeros in front of decimals that are too few. *)
Lemma leading_zeros_run fuel n reqscale room text :
  n ≤ reqscale → reqscale - n ≤ Z.of_nat fuel → reqscale - n < Z.of_nat (length room) →
  leading_zeros fuel n reqscale (room, text) =
    Ok (n, (drop (Z.to_nat (reqscale - n)) room, replicate (Z.to_nat (reqscale - n)) "0"%char ++ text)).
Proof.
  revert reqscale room text. induction fuel as [|fuel IH]; intros reqscale room text Hle Hf Hroom.
  { assert (reqscale = n) as -> by lia. by rewrite Z.sub_diag. }
  cbn [leading_zeros]. destruct (Z.ltb_spec n reqscale).
  - destruct room as [|c room]; [simpl in Hroom; lia|]. cbn [push mbind res_bind]. simpl in Hroom.
    rewrite IH by lia. replace (Z.to_nat (reqscale - n)) with (S (Z.to_nat (reqscale - 1 - n))) by lia.
    cbn [drop]. do 3 f_equal. rewrite replicate_S_end, <- app_assoc. done.
  - assert (reqscale = n) as -> by lia. by rewrite Z.sub_diag.
Qed.

Lemma number_zeros n s : number (replicate n "0"%char ++ s) = number s.
Proof.
  rewrite number_app. assert (number (replicate n "0"%char) = 0) as ->; [|lia].
  induction n as [|n IH]; [done|]. rewrite replicate_S_end, number_app, IH. done.
Qed.

Lemma digits_zeros n : digits (replicate n "0"%char).
Proof. by apply Forall_replicate. Qed.

(** The text of a number, decimal point included, before it is cut: the loop, and
    the zeros it puts in front. *)
Definition printed_text (v reqscale : Z) (ds : str) (frac : option str) : Prop :=
  digits ds ∧ digits (default [] frac) ∧ number (ds ++ default [] frac) = v ∧ (length ds ≤ 39)%nat ∧
  (v ≠ 0 ∨ reqscale ≠ 1 → Z.of_nat (length (default [] frac)) = reqscale) ∧
  (v = 0 → reqscale = 1 → frac = None).

Lemma push_drop c k (room text : str) : (k < length room)%nat → push c (drop k room, text) = Ok (drop (S k) room, c :: text).
Proof. intros Hk. destruct (lookup_lt_is_Some_2 room k Hk) as [x Hx]. by rewrite (drop_S _ _ _ Hx). Qed.

(** The point and the zeros in front of decimals that are too few. *)
Lemma pad_decimals n reqscale k (room t : str) :
  0 ≤ n < reqscale → reqscale ≤ 127 → (k + 130 ≤ length room)%nat →
  ('(reqscale, buf) ← leading_zeros byte_fuel n reqscale (drop k room, t);
   buf ← push "." buf; buf ← push "0" buf; Ok (reqscale, buf)) =
  Ok (n, (drop (S (S (k + Z.to_nat (reqscale - n)))) room,
          decimal_text false ["0"%char] (Some (replicate (Z.to_nat (reqscale - n)) "0"%char ++ t)))).
Proof.
  intros Hn Hreq Hroom. assert (Z.of_nat byte_fuel = 300) as Hbf by done.
  rewrite leading_zeros_run by (rewrite ?length_drop; lia). cbn [mbind res_bind].
  rewrite drop_drop, push_drop by lia. cbn [mbind res_bind]. by rewrite push_drop by lia.
Qed.

Lemma print_number_run beyond room val reqprec reqscale :
  length val = 16%nat → Forall byte val → Exists (λ x, x ≠ 0) beyond → (200 ≤ length room)%nat →
  0 ≤ reqscale ≤ 127 → 1 ≤ reqprec → bytes_value val < 10 ^ reqprec →
  ∃ ds frac n reqscale' k,
    print_number beyond room val reqscale = Ok (n, reqscale', (drop k room, decimal_text false ds frac)) ∧
    printed_text (bytes_value val) reqscale ds frac ∧ n ≤ reqprec ∧ 0 ≤ reqscale' ∧ (k ≤ 170)%nat.
Proof.
  intros Hlen Hb Hbeyond Hroom Hreq Hp Hv.
  destruct (expand_spec 8 val Hlen Hb) as (Hel & Hlim & He). pose proof (bytes_value_bound val Hb) as Hbv. rewrite Hlen in Hbv.
  assert (printed (Printing (expand val) 0 0) (bytes_value val)) as Hst
    by (split; [done|]; split; [done|]; split; [by constructor|]; split; [simpl; lia|done]).
  unfold print_number. destruct (decide (bytes_value val = 0)) as [Hz|Hnz].
  - destruct room as [|c room]; [simpl in Hroom; lia|].
    rewrite Hz in Hst. destruct (print_digits_zero 38 beyond reqscale 0 _ c room Hst Hbeyond) as (st & -> & Hc).
    cbn [mbind res_bind]. rewrite Hc, Hz.
    destruct (Z.ltb_spec 1 reqscale).
    + change room with (drop 0 room) at 1. rewrite pad_decimals by (simpl in Hroom; lia). cbn [mbind res_bind].
      eexists _, _, _, _, (S (S (S (Z.to_nat (reqscale - 1))))). split; [reflexivity|]. split; [|lia].
      split; [by repeat constructor|]. cbn [default]. split; [apply Forall_app; split; [apply digits_zeros|by repeat constructor]|].
      split; [|split; [simpl; lia|split; [|lia]]].
      * exact (number_zeros (S (Z.to_nat (reqscale - 1))) ["0"%char]).
      * intros _. cbn [from_option id]. rewrite length_app, length_replicate. simpl. lia.
    + eexists ["0"%char], None, 1, reqscale, 1%nat. split; [reflexivity|]. split; [|lia].
      split; [by repeat constructor|]. split; [by constructor|]. split; [done|]. split; [simpl; lia|]. split; [simpl; lia|done].
  - destruct (print_digits_run 39 beyond reqscale 0 _ _ room [] Hst) as (st & t & -> & Ht & _ & Hsp & Hdc);
      [split; [lia|]; etrans; [apply Hbv|vm_compute; done]|done|case_decide; lia|by right|].
    rewrite app_nil_r. cbn [calcprec] in Hsp, Hdc. rewrite Z.sub_0_r in Hsp, Hdc.
    assert (calcprec st ≤ reqprec) as Hn.
    { destruct Hdc as (_ & _ & Hdc). specialize (Hdc Hnz). enough (calcprec st - 1 < reqprec) by lia.
      apply (Z.pow_lt_mono_r_iff 10); lia. }
    unfold spelled in Hsp. cbn [mbind res_bind].
    assert (length t ≤ 40)%nat by (revert Ht; case_decide; lia).
    destruct (decide (0 < reqscale)) as [Hpos|].
    + destruct Hsp as [(ds & fs & -> & Hds & Hfs & Hnum & Hfl & Hc)|(Ht' & Hnum & Hc & Hlt)].
      * rewrite length_app in *. cbn [length] in *. destruct (Z.ltb_spec (calcprec st) reqscale); [lia|]. cbn [mbind res_bind].
        eexists ds, (Some fs), _, _, _. split; [reflexivity|]. split; [|lia]. cbn [default].
        split; [done|]. split; [done|]. split; [done|]. split; [lia|]. split; [intros _; cbn [from_option id]; lia|done].
      * destruct (Z.ltb_spec (calcprec st) reqscale); [|lia]. rewrite pad_decimals by lia. cbn [mbind res_bind].
        eexists _, _, _, _, _. split; [reflexivity|]. split; [|lia].
        split; [by repeat constructor|]. cbn [default]. split; [apply Forall_app; split; [apply digits_zeros|done]|].
        split; [|split; [simpl; lia|split; [|done]]].
        -- rewrite <- Hnum. exact (number_zeros (S (Z.to_nat (reqscale - calcprec st))) t).
        -- intros _. cbn [from_option id]. rewrite length_app, length_replicate. lia.
    + destruct Hsp as (Ht' & Hnum & Hc). destruct (Z.ltb_spec (calcprec st) reqscale); [lia|]. cbn [mbind res_bind].
      eexists t, None, _, _, _. split; [unfold decimal_text; cbn [app]; rewrite app_nil_r; reflexivity|]. split; [|lia].
      split; [done|]. cbn [default]. split; [by constructor|]. rewrite app_nil_r. split; [done|]. split; [|split; [simpl; lia|done]].
      lia.
Qed.

(** Without a word behind the array nothing ends the loop before its last turn. *)
Lemma skip_empty_none mem k : Forall (λ x, x = 0) mem → skip_empty mem k = UB.
Proof. intros Hmem. revert k. induction Hmem as [|x mem -> Hmem IH]; intros k; [done|apply IH]. Qed.

Lemma print_digits_ub turns reqscale j st e buf :
  printed st e → 0 ≤ e < 10 ^ Z.of_nat turns → print_digits (S turns) [] reqscale j st buf = UB.
Proof.
  assert (∀ turns j st buf, printed st 0 → print_digits (S turns) [] reqscale j st buf = UB) as Hzero.
  { intros n j' st' buf' (H1 & H2 & H3 & H4 & H5). cbn [print_digits].
    rewrite skip_empty_none; [done|]. rewrite app_nil_r. apply Forall_drop. by apply evalb_0. }
  revert j st e buf. induction turns as [|turns IH]; intros j st e buf Hst He.
  { assert (e = 0) as -> by lia. by apply Hzero. }
  destruct (decide (e = 0)) as [->|Hnz]; [by apply Hzero|].
  destruct (print_digits_turn (S turns) [] reqscale j st e buf Hst Hnz) as (st1 & Hst1 & _ & ->).
  rewrite Nat2Z.inj_succ, Z.pow_succ_r in He by lia.
  assert (0 ≤ e / 10 < 10 ^ Z.of_nat turns) as He' by (split; [apply Z.div_pos; lia|apply Z.div_lt_upper_bound; lia]).
  destruct buf as [[|c room] text]; [done|]. cbn [push mbind res_bind].
  destruct (j =? reqscale - 1); [|by eapply IH]. destruct room as [|c' room]; [done|]. by eapply IH.
Qed.

Lemma bytes_value_inj bs bs' :
  Forall byte bs → Forall byte bs' → length bs = length bs' → bytes_value bs = bytes_value bs' → bs = bs'.
Proof.
  intros Hbs. revert bs'. induction Hbs as [|b bs Hb Hbs IH]; intros [|b' bs'] Hbs' Hlen Hv; try done.
  apply Forall_cons in Hbs' as [Hb' Hbs']. unfold byte in *. cbn [bytes_value] in Hv.
  assert (b = b' ∧ bytes_value bs = bytes_value bs') as [-> Hv'] by lia.
  f_equal. apply IH; [done|by injection Hlen|done].
Qed.

(** a number that fits the precision is printed whole and reads back.  When
    some word behind the array of the conversion is not 0 and the buffer is large
    enough, the text of a struct is its sign and the digits of its value with the
    point in front of the last [reqscale], nothing is reported as cut off, and
    reading the text with the same scale gives the bytes and the sign again. *)
Theorem sqlnum_roundtrip beyond room num reqprec reqscale reqprec' :
  length (val num) = 16%nat → Forall byte (val num) → sign num = 0 ∨ sign num = 1 →
  Exists (λ x, x ≠ 0) beyond → (200 ≤ length room)%nat →
  0 ≤ reqscale ≤ 80 → 1 ≤ reqprec → bytes_value (val num) < 10 ^ reqprec →
  ∃ n ds frac,
    let text := decimal_text (sign num =? 0) ds frac in
    sqlnum_to_str beyond room num reqprec reqscale = Ok (Numeric n reqscale (sign num) (val num), Some text, 0) ∧
    printed_text (bytes_value (val num)) reqscale ds frac ∧
    let back := (sqlnum_from_str text (request reqprec' reqscale)).1 in
    val back = val num ∧ sign back = sign num ∧ scale back = reqscale.
Proof.
  intros Hlen Hb Hsign Hbeyond Hroom Hreq Hp Hv.
  destruct (print_number_run beyond room (val num) reqprec reqscale) as (ds & frac & n & rs & k & E & Hpt & Hn & Hrs & Hk); try done; [lia|].
  exists (to_uint8 n), ds, frac. intros text. split; [|split; [done|]].
  - unfold sqlnum_to_str. rewrite E. cbn [mbind res_bind]. destruct (Z.ltb_spec reqprec n); [lia|]. cbn [andb mbind res_bind].
    destruct (Z.ltb_spec rs 0); [lia|]. subst text. destruct Hsign as [-> | ->]; [|done].
    change (0 =? 0) with true. cbn [mbind res_bind]. rewrite push_drop by lia. done.
  - destruct Hpt as (Hds & Hfs & Hnum & Hdl & Hfl & Hz). pose proof (bytes_value_bound _ Hb) as Hbv. rewrite Hlen in Hbv.
    set (v := bytes_value (val num)) in *.
    assert (v * 10 ^ Z.max 0 (reqscale - Z.of_nat (length (default [] frac))) = v ∧ Z.of_nat (length (default [] frac)) ≤ reqscale) as [Hvv Hle].
    { destruct (decide (v ≠ 0 ∨ reqscale ≠ 1)) as [Hc|Hc]; [rewrite (Hfl Hc), Z.sub_diag; change (10 ^ Z.max 0 0) with 1; lia|].
      assert (v = 0 ∧ reqscale = 1) as [Hv0 Hr1] by lia. rewrite (Hz Hv0 Hr1), Hv0. split; [done|simpl; lia]. }
    subst text. cbv zeta. destruct (sqlnum_from_str_run (sign num =? 0) ds frac reqprec' reqscale) as (bs & r & -> & Hbs & Hbb & Hbl & _);
      [done|done|lia|lia|rewrite Hnum, Hvv; change (256 ^ Z.of_nat 16) with (2 ^ 128) in Hbv; lia|].
    cbn [fst val sign scale]. rewrite Hnum in Hbs.
    destruct (Z.leb_spec (Z.of_nat (length (default [] frac))) reqscale); [|lia]. rewrite Z.max_r in Hvv by lia. rewrite Hvv in Hbs.
    split; [|split; [by destruct Hsign as [-> | ->]|done]]. apply bytes_value_inj; [done..|lia|done].
Qed.

(** the loop that looks for the first element of the array that is not 0 does
    not stop at its end: printing a number of less than 39 digits reads behind the
    array, whatever the buffer, the precision and the scale. *)
Theorem sqlnum_to_str_overruns room num reqprec reqscale :
  length (val num) = 16%nat → Forall byte (val num) → bytes_value (val num) < 10 ^ 38 →
  sqlnum_to_str [] room num reqprec reqscale = UB.
Proof.
  intros Hlen Hb Hv. pose proof (bytes_value_bound _ Hb) as Hbv.
  destruct (expand_spec 8 (val num) Hlen Hb) as (Hel & Hlim & He).
  unfold sqlnum_to_str, print_number. rewrite (print_digits_ub 38 reqscale 0 _ (bytes_value (val num))); [done| |split; [apply Hbv|exact Hv]].
  split; [done|]; split; [done|]; split; [by constructor|]; split; [simpl; lia|done].
Qed.

(** *** Witnesses and runs *)

Definition ex_num (v sgn : Z) : SQL_NUMERIC_STRUCT :=
  Numeric 0 0 sgn ((λ i, v / 256 ^ Z.of_nat i mod 256) <$> seq 0 16).

Lemma sqlnum_from_str_spec_witness :
  ∃ bs r,
    sqlnum_from_str (decimal_text true (S!"12") (Some (S!"345"))) (request 38 2) =
      (Numeric 4 2 0 bs, if 38 <? r then 1 else 2) ∧
    bytes_value bs = 1234 ∧ Forall byte bs ∧ length bs = 16%nat ∧ significant 4 1234 r.
Proof.
  apply (sqlnum_from_str_spec true (S!"12") (Some (S!"345")) 38 2);
    [by repeat constructor|by repeat constructor|simpl; lia|lia|done].
Defined.

Lemma ex_num_bytes v sgn : Forall byte (val (ex_num v sgn)).
Proof. apply Forall_fmap, Forall_forall. intros i _. unfold compose, byte. apply Z.mod_pos_bound. lia. Qed.

Lemma sqlnum_roundtrip_witness :
  ∃ n ds frac,
    let text := decimal_text true ds frac in
    sqlnum_to_str [1] (replicate 200 "x"%char) (ex_num 12345 0) 10 3 =
      Ok (Numeric n 3 0 (val (ex_num 12345 0)), Some text, 0) ∧
    printed_text (bytes_value (val (ex_num 12345 0))) 3 ds frac ∧
    let back := (sqlnum_from_str text (request 10 3)).1 in
    val back = val (ex_num 12345 0) ∧ sign back = 0 ∧ scale back = 3.
Proof.
  apply (sqlnum_roundtrip [1] (replicate 200 "x"%char) (ex_num 12345 0) 10 3 10);
    [done|apply ex_num_bytes|by left|by constructor|done|lia|lia|done].
Defined.

Lemma sqlnum_to_str_overruns_witness :
  sqlnum_to_str [] (replicate 40 "x"%char) (ex_num 12345 1) 10 3 = UB.
Proof. apply (sqlnum_to_str_overruns (replicate 40 "x"%char) (ex_num 12345 1) 10 3); [done|apply ex_num_bytes|done]. Defined.

(** Scaling up loses the high digits without a sign of it: ten to the 38th with
    two decimals is read as another number, with overflow 0, since neither the
    scaling nor the precision counts the digits that are added. *)
Lemma scaling_up_overflows :
  let '(num, overflow) := sqlnum_from_str (S!"100000000000000000000000000000000000000") (request 38 2) in
  overflow = 0 ∧ bytes_value (val num) ≠ 10 ^ 40 ∧ precision num = 39.
Proof. vm_compute. done. Qed.

(** The truncation flag replaces the one for overflow: the digits behind the point
    do not fit, one of them is cut off, and the result is reported as cut off
    only. *)
Lemma truncation_hides_overflow :
  let '(num, overflow) := sqlnum_from_str (S!"340000000000000000000000000000000000000.0001") (request 38 1) in
  overflow = 2 ∧ bytes_value (val num) ≠ 34 * 10 ^ 38.
Proof. vm_compute. done. Qed.
