(* ===== verification/Errors.v ===== *)
(** The errors of handles (src/driver/error.cc, error.h, and [myodbc_ov_init] of
    info.cc): the table of states, which depends on the version of ODBC of the last
    environment, the error a handle keeps, and how an error of the server is
    translated into a state. *)

From S2P Require Import Prelude CppString.

Local Open Scope Z_scope.

(** ** Constants of ODBC (sql.h, sqlext.h) *)

Definition SQL_SUCCESS : Z := 0.
Definition SQL_SUCCESS_WITH_INFO : Z := 1.
Definition SQL_ERROR : Z := -1.
Definition SQL_INVALID_HANDLE : Z := -2.
Definition SQL_NO_DATA_FOUND : Z := 100.

Definition SQL_OV_ODBC2 : Z := 2.
Definition SQL_OV_ODBC3 : Z := 3.
Definition SQL_OV_ODBC3_80 : Z := 380.

(** ** The table *)

(** [src/driver/error.h:77-134] myodbc_errid *)
Inductive myodbc_errid :=
  | MYERR_01000 | MYERR_01004 | MYERR_01S02 | MYERR_01S03 | MYERR_01S04 | MYERR_01S06 | MYERR_07001
  | MYERR_07005 | MYERR_07006 | MYERR_07009 | MYERR_08002 | MYERR_08003 | MYERR_24000 | MYERR_25000
  | MYERR_25S01 | MYERR_34000 | MYERR_HYT00 | MYERR_S1000 | MYERR_S1001 | MYERR_S1002 | MYERR_S1003
  | MYERR_S1004 | MYERR_S1007 | MYERR_S1009 | MYERR_S1010 | MYERR_S1011 | MYERR_S1012 | MYERR_S1013
  | MYERR_S1015 | MYERR_S1016 | MYERR_S1017 | MYERR_S1024 | MYERR_S1090 | MYERR_S1091 | MYERR_S1092
  | MYERR_S1093 | MYERR_S1095 | MYERR_S1106 | MYERR_S1107 | MYERR_S1109 | MYERR_S1C00 | MYERR_21S01
  | MYERR_23000 | MYERR_42000 | MYERR_42S01 | MYERR_42S02 | MYERR_42S12 | MYERR_42S21 | MYERR_42S22
  | MYERR_08S01 | MYERR_08004 | MYERR_08S02 | MYERR_08007.

#[export] Instance myodbc_errid_eq_dec : EqDecision myodbc_errid.
Proof. solve_decision. Defined.

(** The number of an enumerator. *)
Definition errid_index (e : myodbc_errid) : nat :=
  match e with
  | MYERR_01000 => 0 | MYERR_01004 => 1 | MYERR_01S02 => 2 | MYERR_01S03 => 3 | MYERR_01S04 => 4
  | MYERR_01S06 => 5 | MYERR_07001 => 6 | MYERR_07005 => 7 | MYERR_07006 => 8 | MYERR_07009 => 9
  | MYERR_08002 => 10 | MYERR_08003 => 11 | MYERR_24000 => 12 | MYERR_25000 => 13 | MYERR_25S01 => 14
  | MYERR_34000 => 15 | MYERR_HYT00 => 16 | MYERR_S1000 => 17 | MYERR_S1001 => 18 | MYERR_S1002 => 19
  | MYERR_S1003 => 20 | MYERR_S1004 => 21 | MYERR_S1007 => 22 | MYERR_S1009 => 23 | MYERR_S1010 => 24
  | MYERR_S1011 => 25 | MYERR_S1012 => 26 | MYERR_S1013 => 27 | MYERR_S1015 => 28 | MYERR_S1016 => 29
  | MYERR_S1017 => 30 | MYERR_S1024 => 31 | MYERR_S1090 => 32 | MYERR_S1091 => 33 | MYERR_S1092 => 34
  | MYERR_S1093 => 35 | MYERR_S1095 => 36 | MYERR_S1106 => 37 | MYERR_S1107 => 38 | MYERR_S1109 => 39
  | MYERR_S1C00 => 40 | MYERR_21S01 => 41 | MYERR_23000 => 42 | MYERR_42000 => 43 | MYERR_42S01 => 44
  | MYERR_42S02 => 45 | MYERR_42S12 => 46 | MYERR_42S21 => 47 | MYERR_42S22 => 48 | MYERR_08S01 => 49
  | MYERR_08004 => 50 | MYERR_08S02 => 51 | MYERR_08007 => 52
  end.

(** [src/driver/error.h:218-222] MYODBC3_ERR_STR *)
Record error_row := Row { row_sqlstate : str; row_message : str; row_retcode : Z }.

#[export] Instance error_row_eq_dec : EqDecision error_row.
Proof. solve_decision. Defined.

(** [src/driver/error.cc:49-106] myodbc3_errors *)
Definition myodbc3_errors_init : list error_row :=
  [ Row (S!"01000") (S!"General warning") SQL_SUCCESS_WITH_INFO;
    Row (S!"01004") (S!"String data, right truncated") SQL_SUCCESS_WITH_INFO;
    Row (S!"01S02") (S!"Option value changed") SQL_SUCCESS_WITH_INFO;
    Row (S!"01S03") (S!"No rows updated/deleted") SQL_SUCCESS_WITH_INFO;
    Row (S!"01S04") (S!"More than one row updated/deleted") SQL_SUCCESS_WITH_INFO;
    Row (S!"01S06") (S!"Attempt to fetch before the result set returned the first rowset") SQL_SUCCESS_WITH_INFO;
    Row (S!"07001") (S!"SQLBindParameter not used for all parameters") SQL_ERROR;
    Row (S!"07005") (S!"Prepared statement not a cursor-specification") SQL_ERROR;
    Row (S!"07006") (S!"Restricted data type attribute violation") SQL_ERROR;
    Row (S!"07009") (S!"Invalid descriptor index") SQL_ERROR;
    Row (S!"08002") (S!"Connection name in use") SQL_ERROR;
    Row (S!"08003") (S!"Connection does not exist") SQL_ERROR;
    Row (S!"24000") (S!"Invalid cursor state") SQL_ERROR;
    Row (S!"25000") (S!"Invalid transaction state") SQL_ERROR;
    Row (S!"25S01") (S!"Transaction state unknown") SQL_ERROR;
    Row (S!"34000") (S!"Invalid cursor name") SQL_ERROR;
    Row (S!"HYT00") (S!"Timeout expired") SQL_ERROR;
    Row (S!"HY000") (S!"General driver defined error") SQL_ERROR;
    Row (S!"HY001") (S!"Memory allocation error") SQL_ERROR;
    Row (S!"HY002") (S!"Invalid column number") SQL_ERROR;
    Row (S!"HY003") (S!"Invalid application buffer type") SQL_ERROR;
    Row (S!"HY004") (S!"Invalid SQL data type") SQL_ERROR;
    Row (S!"HY007") (S!"Associated statement is not prepared") SQL_ERROR;
    Row (S!"HY009") (S!"Invalid use of null pointer") SQL_ERROR;
    Row (S!"HY010") (S!"Function sequence error") SQL_ERROR;
    Row (S!"HY011") (S!"Attribute can not be set now") SQL_ERROR;
    Row (S!"HY012") (S!"Invalid transaction operation code") SQL_ERROR;
    Row (S!"HY013") (S!"Memory management error") SQL_ERROR;
    Row (S!"HY015") (S!"No cursor name available") SQL_ERROR;
    Row (S!"HY016") (S!"Cannot modify an implementation row descriptor") SQL_ERROR;
    Row (S!"HY017") (S!"Invalid use of an automatically allocated descriptor handle") SQL_ERROR;
    Row (S!"HY024") (S!"Invalid attribute value") SQL_ERROR;
    Row (S!"HY090") (S!"Invalid string or buffer length") SQL_ERROR;
    Row (S!"HY091") (S!"Invalid descriptor field identifier") SQL_ERROR;
    Row (S!"HY092") (S!"Invalid attribute/option identifier") SQL_ERROR;
    Row (S!"HY093") (S!"Invalid parameter number") SQL_ERROR;
    Row (S!"HY095") (S!"Function type out of range") SQL_ERROR;
    Row (S!"HY106") (S!"Fetch type out of range") SQL_ERROR;
    Row (S!"HY107") (S!"Row value out of range") SQL_ERROR;
    Row (S!"HY109") (S!"Invalid cursor position") SQL_ERROR;
    Row (S!"HYC00") (S!"Optional feature not implemented") SQL_ERROR;
    Row (S!"21S01") (S!"Column count does not match value count") SQL_ERROR;
    Row (S!"23000") (S!"Integrity constraint violation") SQL_ERROR;
    Row (S!"42000") (S!"Syntax error or access violation") SQL_ERROR;
    Row (S!"42S01") (S!"Base table or view already exists ") SQL_ERROR;
    Row (S!"42S02") (S!"Base table or view not found") SQL_ERROR;
    Row (S!"42S12") (S!"Index not found") SQL_ERROR;
    Row (S!"42S21") (S!"Column already exists") SQL_ERROR;
    Row (S!"42S22") (S!"Column not found") SQL_ERROR;
    Row (S!"08S01") (S!"Communication link failure") SQL_ERROR;
    Row (S!"08004") (S!"Server rejected the connection") SQL_ERROR;
    Row (S!"08S02") (S!"Communication link changed") SQL_ERROR;
    Row (S!"08007") (S!"Connection failure during transaction") SQL_ERROR ].


(** The entry of an error; there is one for every error ([errors_complete]). *)
Definition error_entry (t : list error_row) (e : myodbc_errid) : error_row :=
  default (Row [] [] 0) (t !! errid_index e).

Definition set_row_state (state : str) (r : error_row) : error_row := Row state (row_message r) (row_retcode r).

(** The loops over the entries from [MYERR_S1000] to [MYERR_S1C00]: the first two
    characters of their states. *)
Definition set_prefixes (a b : ascii) (t : list error_row) : list error_row :=
  imap (λ i r, if decide (errid_index MYERR_S1000 ≤ i ≤ errid_index MYERR_S1C00)%nat
               then set_row_state (a :: b :: drop 2 (row_sqlstate r)) r else r) t.

Definition set_state (e : myodbc_errid) (state : str) (t : list error_row) : list error_row :=
  alter (set_row_state state) (errid_index e) t.

(** [src/driver/error.cc:114-134] myodbc_sqlstate2_init *)
Definition myodbc_sqlstate2_init (t : list error_row) : list error_row :=
  let t := set_prefixes "S" "1" t in
  let t := set_state MYERR_07005 (S!"24000") t in
  let t := set_state MYERR_42000 (S!"37000") t in
  let t := set_state MYERR_42S01 (S!"S0001") t in
  let t := set_state MYERR_42S02 (S!"S0002") t in
  let t := set_state MYERR_42S12 (S!"S0012") t in
  let t := set_state MYERR_42S21 (S!"S0021") t in
  set_state MYERR_42S22 (S!"S0022") t.

(** [src/driver/error.cc:142-158] myodbc_sqlstate3_init *)
Definition myodbc_sqlstate3_init (t : list error_row) : list error_row :=
  let t := set_prefixes "H" "Y" t in
  let t := set_state MYERR_07005 (S!"07005") t in
  let t := set_state MYERR_42000 (S!"42000") t in
  let t := set_state MYERR_42S01 (S!"42S01") t in
  let t := set_state MYERR_42S02 (S!"42S02") t in
  let t := set_state MYERR_42S12 (S!"42S12") t in
  let t := set_state MYERR_42S21 (S!"42S21") t in
  set_state MYERR_42S22 (S!"42S22") t.

(** The globals behind it. *)
Record error_globals := Globals { myodbc3_errors : list error_row; myodbc_ov2_inited : bool }.

Definition globals_init : error_globals := Globals myodbc3_errors_init false.

(** [src/driver/info.cc:1195-1216] myodbc_ov_init

    The texts of the type numbers, which are set as well, are left out. *)
Definition myodbc_ov_init (odbc_version : Z) (g : error_globals) : error_globals :=
  if odbc_version =? SQL_OV_ODBC2 then Globals (myodbc_sqlstate2_init (myodbc3_errors g)) true
  else if myodbc_ov2_inited g then Globals (myodbc_sqlstate3_init (myodbc3_errors g)) false
  else g.

(** ** The error of a handle *)

(** [src/driver/error.h:139-146] MYERROR *)
Record MYERROR := MyError { retcode : Z; message : str; native_error : Z; sqlstate : str }.

(** [src/driver/error.h:195-202] MYERROR::clear *)
Definition no_error : MYERROR := MyError 0 [] 0 [].

Section Prefixes.
(** [MYODBC_ERROR_PREFIX], which has the version of the driver in it. *)
Context (myodbc_error_prefix : str).

Definition MYODBC_ERROR_CODE_START : Z := 500.

(** [src/driver/error.cc:160-171] MYERROR::MYERROR *)
Definition error_of_id (t : list error_row) (errid : myodbc_errid) (errtext : option str) (errcode : Z) (prefix : str) : MYERROR :=
  let r := error_entry t errid in
  MyError (row_retcode r) (prefix ++ default (row_message r) errtext)
    (if errcode =? 0 then Z.of_nat (errid_index errid) + MYODBC_ERROR_CODE_START else errcode) (row_sqlstate r).

(** [src/driver/error.cc:173-181] MYERROR::MYERROR *)
Definition error_of_state (state msg : option str) (errcode : Z) (prefix : option str) : MYERROR :=
  MyError SQL_ERROR (default myodbc_error_prefix prefix ++ default [] msg) errcode (default [] state).
End Prefixes.

(** ** Errors of the server *)

(** The numbers of mysqld_error.h that the driver names, which is a header of the
    client library. *)
Class ServerCodes := {
  ER_WRONG_VALUE_COUNT : Z; ER_DUP_ENTRY : Z; ER_DUP_KEY : Z; ER_NO_DB_ERROR : Z; ER_PARSE_ERROR : Z;
  ER_SP_DOES_NOT_EXIST : Z; ER_TABLE_EXISTS_ERROR : Z; ER_FILE_NOT_FOUND : Z; ER_NO_SUCH_TABLE : Z;
  ER_CANT_OPEN_FILE : Z; ER_BAD_TABLE_ERROR : Z; ER_NO_SUCH_INDEX : Z; ER_CANT_DROP_FIELD_OR_KEY : Z;
  ER_DUP_FIELDNAME : Z; ER_BAD_FIELD_ERROR : Z; ER_CLIENT_INTERACTION_TIMEOUT : Z; ER_MUST_CHANGE_PASSWORD_LOGIN : Z }.

(** errmsg.h. *)
Definition CR_CONNECTION_ERROR : Z := 2002.
Definition CR_SERVER_GONE_ERROR : Z := 2006.
Definition CR_SERVER_HANDSHAKE_ERR : Z := 2012.
Definition CR_SERVER_LOST : Z := 2013.
Definition CR_AUTH_PLUGIN_CANNOT_LOAD_ERROR : Z := 2059.

Section Translation.
Context `{ServerCodes}.

(** [src/driver/error.cc:203-262] translate_error

    The state that is written over the one of the handle. *)
Definition translate_error (t : list error_row) (errid : myodbc_errid) (mysql_err : Z) : str :=
  let any l := bool_decide (mysql_err ∈ (l : list Z)) in
  if any [ER_WRONG_VALUE_COUNT] then S!"21S01"
  else if any [ER_DUP_ENTRY; ER_DUP_KEY] then S!"23000"
  else if any [ER_NO_DB_ERROR] then S!"3D000"
  else if any [ER_PARSE_ERROR; ER_SP_DOES_NOT_EXIST] then row_sqlstate (error_entry t MYERR_42000)
  else if any [ER_TABLE_EXISTS_ERROR] then row_sqlstate (error_entry t MYERR_42S01)
  else if any [ER_FILE_NOT_FOUND; ER_NO_SUCH_TABLE; ER_CANT_OPEN_FILE; ER_BAD_TABLE_ERROR] then
    row_sqlstate (error_entry t MYERR_42S02)
  else if any [ER_NO_SUCH_INDEX; ER_CANT_DROP_FIELD_OR_KEY] then row_sqlstate (error_entry t MYERR_42S12)
  else if any [ER_DUP_FIELDNAME] then row_sqlstate (error_entry t MYERR_42S21)
  else if any [ER_BAD_FIELD_ERROR] then row_sqlstate (error_entry t MYERR_42S22)
  else if any [CR_SERVER_HANDSHAKE_ERR; CR_CONNECTION_ERROR; CR_SERVER_GONE_ERROR; CR_SERVER_LOST;
               ER_CLIENT_INTERACTION_TIMEOUT] then S!"08S01"
  else if any [ER_MUST_CHANGE_PASSWORD_LOGIN; CR_AUTH_PLUGIN_CANNOT_LOAD_ERROR] then S!"08004"
  else row_sqlstate (error_entry t errid).
End Translation.

(** ** Diagnostics *)

(** [src/driver/error.cc:375-419] MySQLGetDiagRec

    On the error of the handle: the result, and the state, the native error and
    the message when they are written. *)
Definition MySQLGetDiagRec (error : MYERROR) (record : Z) : Z * option (str * Z * str) :=
  if record <=? 0 then (SQL_ERROR, None)
  else if 1 <? record then (SQL_NO_DATA_FOUND, None)
  else if bool_decide (message error = []) then (SQL_NO_DATA_FOUND, Some (S!"00000", 0, []))
  else (SQL_SUCCESS, Some (sqlstate error, native_error error, message error)).

(** [src/driver/error.cc:422-440] is_odbc3_subclass *)
Definition odbc3_subclasses : list str :=
  (λ s, String.list_ascii_of_string s) <$>
  ["01S00"; "01S01"; "01S02"; "01S06"; "01S07"; "07S01";
   "08S01"; "08S02"; "08007"; "21S01"; "21S02"; "25S01"; "25S02"; "25S03";
   "42S01"; "42S02"; "42S11"; "42S12"; "42S21"; "42S22"; "HY095"; "HY097";
   "HY098"; "HY099"; "HY100"; "HY101"; "HY105"; "HY107"; "HY109"; "HY110";
   "HY111"; "HYT00"; "HYT01"; "IM001"; "IM002"; "IM003"; "IM004"; "IM005";
   "IM006"; "IM007"; "IM008"; "IM010"; "IM011"; "IM012"]%string.

(** [src/driver/error.cc:422-440] is_odbc3_subclass *)
Definition is_odbc3_subclass (state : str) : bool :=
  negb (bool_decide (state = [])) && bool_decide (state ∈ odbc3_subclasses).

(** ** Properties *)

(** Every error has an entry, and its state begins with the characters of its
    name. *)
Lemma errors_complete e : is_Some (myodbc3_errors_init !! errid_index e).
Proof. destruct e; by eexists. Qed.

(** What the table is after environments of some versions. *)
Definition table_of (odbc2 : bool) : list error_row :=
  if odbc2 then myodbc_sqlstate2_init myodbc3_errors_init else myodbc3_errors_init.

Definition globals_ok (g : error_globals) : Prop := myodbc3_errors g = table_of (myodbc_ov2_inited g).

Lemma states_of_2 b : myodbc_sqlstate2_init (table_of b) = table_of true.
Proof. destruct b; vm_compute; reflexivity. Qed.

Lemma states_of_3 b : myodbc_sqlstate3_init (table_of b) = table_of false.
Proof. destruct b; vm_compute; reflexivity. Qed.

Lemma myodbc_ov_init_ok v g : globals_ok g → globals_ok (myodbc_ov_init v g) ∧
  myodbc_ov2_inited (myodbc_ov_init v g) = (v =? SQL_OV_ODBC2).
Proof.
  unfold globals_ok, myodbc_ov_init. intros Hg. destruct (v =? SQL_OV_ODBC2); cbn [myodbc3_errors myodbc_ov2_inited].
  - by rewrite Hg, states_of_2.
  - destruct (myodbc_ov2_inited g) eqn:E; cbn [myodbc3_errors myodbc_ov2_inited].
    + by rewrite Hg, states_of_3.
    + by rewrite E.
Qed.

(** the states the driver reports are those of the version of ODBC of the
    environment in which a connection was made last: after any sequence of
    versions the table is the one of ODBC 2 if the last was 2, and the original
    one otherwise, whatever came before. *)
Theorem ov_init_last versions v :
  myodbc3_errors (foldl (λ g v, myodbc_ov_init v g) globals_init (versions ++ [v])) = table_of (v =? SQL_OV_ODBC2).
Proof.
  rewrite foldl_app. simpl. set (g := foldl _ _ _).
  assert (globals_ok g) as Hg.
  { subst g. generalize (eq_refl : globals_ok globals_init). generalize globals_init.
    induction versions as [|w l IH]; intros g Hg; [done|]. simpl. apply IH. by apply myodbc_ov_init_ok. }
  destruct (myodbc_ov_init_ok v g Hg) as [Hok <-]. exact Hok.
Qed.
