(* ===== verification/Descriptors.v ===== *)
(** Handles and their descriptors: the data of environments, connections,
    statements and descriptors (src/driver/driver.h), and the operations on the
    fields of descriptors (src/driver/desc.cc, and the tables of types in
    src/driver/utility.cc).

    Handles live in a store, and a pointer is a key of it.  A field of a
    descriptor is found in the code by its offset, here by its name; a value is a
    number of the width of its field, a pointer of the application counts as one. *)

From stdpp Require Import functions.
From S2P Require Import Prelude CppString Errors.

Local Open Scope Z_scope.

(** ** Constants *)

(** Types, sql.h and sqlext.h. *)
Definition SQL_NUMERIC : Z := 2.
Definition SQL_C_NUMERIC : Z := SQL_NUMERIC.
Definition SQL_DATETIME : Z := 9.
Definition SQL_INTERVAL : Z := 10.
Definition SQL_C_TIMESTAMP : Z := 11.
Definition SQL_VARCHAR : Z := 12.
Definition SQL_C_TYPE_DATE : Z := 91.
Definition SQL_C_TYPE_TIME : Z := 92.
Definition SQL_C_TYPE_TIMESTAMP : Z := 93.
Definition SQL_C_DEFAULT : Z := 99.
Definition SQL_CODE_DATE : Z := 1.
Definition SQL_CODE_TIME : Z := 2.
Definition SQL_CODE_TIMESTAMP : Z := 3.
(** [SQL_CODE_YEAR] to [SQL_CODE_MINUTE_TO_SECOND] are 1 to 13, and the type of an
    interval, [SQL_C_INTERVAL_*] and [SQL_INTERVAL_*], is 100 more. *)
Definition interval_type (code : Z) : Z := 100 + code.
Definition is_interval_code (code : Z) : bool := (1 <=? code) && (code <=? 13).

(** How [SQLSetDescField] is told the type of its value. *)
Definition SQL_NTS : Z := -3.
Definition SQL_IS_POINTER : Z := -4.
Definition SQL_IS_UINTEGER : Z := -5.
Definition SQL_IS_INTEGER : Z := -6.
Definition SQL_IS_USMALLINT : Z := -7.
Definition SQL_IS_SMALLINT : Z := -8.
Definition SQL_IS_ULEN : Z := -9.
Definition SQL_IS_LEN : Z := -10.

Definition SQL_UB_OFF : Z := 0.
Definition SQL_UB_VARIABLE : Z := 2.
Definition SQL_DESC_ALLOC_AUTO : Z := 1.
Definition SQL_DESC_ALLOC_USER : Z := 2.

(** ** Data *)

(** [src/driver/driver.h:184-184] desc_ref_type *)
Inductive desc_ref_type := DESC_IMP | DESC_APP.
(** [src/driver/driver.h:187-187] desc_desc_type *)
Inductive desc_desc_type := DESC_PARAM | DESC_ROW | DESC_UNKNOWN.
(** [src/driver/driver.h:190-190] fld_loc *)
Inductive fld_loc := DESC_HDR | DESC_REC.

#[export] Instance desc_ref_type_eq_dec : EqDecision desc_ref_type.
Proof. solve_decision. Defined.
#[export] Instance desc_desc_type_eq_dec : EqDecision desc_desc_type.
Proof. solve_decision. Defined.
#[export] Instance fld_loc_eq_dec : EqDecision fld_loc.
Proof. solve_decision. Defined.

(** The header fields of a descriptor. *)
Inductive hdr_field :=
  | H_alloc_type | H_array_size | H_array_status_ptr | H_bind_offset_ptr | H_bind_type | H_count | H_rows_processed_ptr.

(** The fields of a record. *)
Inductive rec_field :=
  | R_auto_unique_value | R_base_column_name | R_base_table_name | R_case_sensitive | R_catalog_name | R_concise_type
  | R_data_ptr | R_datetime_interval_code | R_datetime_interval_precision | R_display_size | R_fixed_prec_scale
  | R_indicator_ptr | R_label | R_length | R_literal_prefix | R_literal_suffix | R_local_type_name | R_name | R_nullable
  | R_num_prec_radix | R_octet_length | R_octet_length_ptr | R_parameter_type | R_precision | R_rowver | R_scale
  | R_schema_name | R_searchable | R_table_name | R_type | R_type_name | R_unnamed | R_is_unsigned | R_updatable.

#[export] Instance hdr_field_eq_dec : EqDecision hdr_field.
Proof. solve_decision. Defined.
#[export] Instance rec_field_eq_dec : EqDecision rec_field.
Proof. solve_decision. Defined.

(** A value: a number or a pointer of the application, a literal of the driver, or
    the buffer of the record's own [par]. *)
Inductive value := Num (z : Z) | Literal (s : str) | Own.

#[export] Instance value_eq_dec : EqDecision value.
Proof. solve_decision. Defined.

(** A number that is read from a value; a pointer is not one. *)
Definition num (v : value) : Z := match v with Num z => z | _ => 0 end.

(** [src/driver/driver.h:366-411] DESCREC::par_struct

    [tempbuf] is the text in its buffer up to [cur_pos]. *)
Record par_struct := Par { tempbuf : str; is_dae : Z; real_param_done : bool }.

(** [src/driver/driver.h:323-450] DESCREC

    The parts of [row] are left out. *)
Record DESCREC := DescRec {
  fields : rec_field → value; m_desc_type : desc_desc_type; m_ref_type : desc_ref_type; par : par_struct }.

(** [src/driver/driver.h:455-547] DESC *)
Record DESC := Desc {
  header : hdr_field → Z; bookmark_count : Z; desc_type : desc_desc_type; ref_type : desc_ref_type;
  bookmark2 : list DESCREC; records2 : list DESCREC; d_error : MYERROR;
  d_stmt : option positive; d_dbc : option positive; stmt_list : list positive }.

(** [src/driver/driver.h:672-672] MY_STATE *)
Inductive MY_STATE := ST_UNKNOWN | ST_PREPARED | ST_PRE_EXECUTED | ST_EXECUTED.

(** The order of the enumerators. *)
Definition state_index (s : MY_STATE) : Z :=
  match s with ST_UNKNOWN => 0 | ST_PREPARED => 1 | ST_PRE_EXECUTED => 2 | ST_EXECUTED => 3 end.

(** What freeing a statement resets. *)
Inductive work_field :=
  | W_result | W_fake_result | W_fields | W_lengths | W_current_values | W_fix_fields | W_affected_rows | W_current_row
  | W_rows_found_in_set | W_cursor_row | W_dae_type | W_result_bind | W_array | W_result_array | W_row_storage | W_buf_pos
  | W_table_name | W_dummy_state | W_pk_validated | W_pkcol_bind_done | W_pk_count | W_setpos_apd | W_ssps | W_query | W_orig_query
  | W_param_count | W_out_params_state | W_scroller_next_offset | W_rowStatusPtr_ex.

#[export] Instance work_field_eq_dec : EqDecision work_field.
Proof. solve_decision. Defined.

(** [src/driver/driver.h:1020-1085] STMT

    The implicit descriptors are members of a statement; here they have keys of
    their own and go with it.  Of the other members those are here that freeing it
    resets: numbers, pointers that are 0 for null, and texts. *)
Record STMT := Stmt {
  s_dbc : positive; ard : positive; apd : positive; ird : positive; ipd : positive; imp_ard : positive; imp_apd : positive;
  s_error : MYERROR; s_bookmarks : Z; s_state : MY_STATE; s_work : work_field → value }.

(** [src/driver/driver.h:588-665] DBC

    The lists of handles, the option of the statements that [desc_get_rec] reads,
    the prefix of messages and the error. *)
Record DBC := Dbc {
  c_env : positive; c_stmt_list : list positive; c_desc_list : list positive; c_error : MYERROR;
  c_bookmarks : Z; st_error_prefix : str; need_to_wakeup : bool }.

(** [src/driver/driver.h:564-584] ENV *)
Record ENV := Env { odbc_ver : Z; conn_list : list positive; e_error : MYERROR }.

(** Calls of the client library. *)
Inductive client_call := Thread_init | Thread_end | Stmt_fetch (ssps : Z) | Stmt_close (ssps : Z) | Drain_results | Free_result
  | Change_user (c : positive) | Close_connection (c : positive).

(** The store; [thread_count] is the counter of the thread that runs. *)
Record handles := Handles {
  envs : gmap positive ENV; dbcs : gmap positive DBC; stmts : gmap positive STMT; descs : gmap positive DESC;
  next_key : positive; thread_count : Z; globals : error_globals; client_calls : list client_call }.

Definition set_envs (m : gmap positive ENV) (h : handles) : handles :=
  Handles m (dbcs h) (stmts h) (descs h) (next_key h) (thread_count h) (globals h) (client_calls h).
Definition set_dbcs (m : gmap positive DBC) (h : handles) : handles :=
  Handles (envs h) m (stmts h) (descs h) (next_key h) (thread_count h) (globals h) (client_calls h).
Definition set_stmts (m : gmap positive STMT) (h : handles) : handles :=
  Handles (envs h) (dbcs h) m (descs h) (next_key h) (thread_count h) (globals h) (client_calls h).
Definition set_descs (m : gmap positive DESC) (h : handles) : handles :=
  Handles (envs h) (dbcs h) (stmts h) m (next_key h) (thread_count h) (globals h) (client_calls h).
Definition set_thread_count (n : Z) (h : handles) : handles :=
  Handles (envs h) (dbcs h) (stmts h) (descs h) (next_key h) n (globals h) (client_calls h).
Definition set_globals (g : error_globals) (h : handles) : handles :=
  Handles (envs h) (dbcs h) (stmts h) (descs h) (next_key h) (thread_count h) g (client_calls h).
Definition client (c : client_call) : M handles unit :=
  modify (λ h, Handles (envs h) (dbcs h) (stmts h) (descs h) (next_key h) (thread_count h) (globals h) (client_calls h ++ [c])).

(** A handle behind a pointer; a handle that has been freed is undefined. *)
Definition get_env (e : positive) : M handles ENV := h ← get; deref (envs h !! e).
Definition get_dbc (c : positive) : M handles DBC := h ← get; deref (dbcs h !! c).
Definition get_stmt (s : positive) : M handles STMT := h ← get; deref (stmts h !! s).
Definition get_desc (d : positive) : M handles DESC := h ← get; deref (descs h !! d).
Definition put_env (e : positive) (x : ENV) : M handles unit := modify (λ h, set_envs (<[e := x]> (envs h)) h).
Definition put_dbc (c : positive) (x : DBC) : M handles unit := modify (λ h, set_dbcs (<[c := x]> (dbcs h)) h).
Definition put_stmt (s : positive) (x : STMT) : M handles unit := modify (λ h, set_stmts (<[s := x]> (stmts h)) h).
Definition put_desc (d : positive) (x : DESC) : M handles unit := modify (λ h, set_descs (<[d := x]> (descs h)) h).

(** Members of a descriptor. *)
Definition with_header (f : hdr_field) (z : Z) (d : DESC) : DESC :=
  Desc (<[f := z]> (header d)) (bookmark_count d) (desc_type d) (ref_type d) (bookmark2 d) (records2 d) (d_error d)
    (d_stmt d) (d_dbc d) (stmt_list d).
Definition with_records (rs : list DESCREC) (d : DESC) : DESC :=
  Desc (header d) (bookmark_count d) (desc_type d) (ref_type d) (bookmark2 d) rs (d_error d) (d_stmt d) (d_dbc d) (stmt_list d).
Definition with_bookmarks (n : Z) (rs : list DESCREC) (d : DESC) : DESC :=
  Desc (header d) n (desc_type d) (ref_type d) rs (records2 d) (d_error d) (d_stmt d) (d_dbc d) (stmt_list d).
Definition with_error (e : MYERROR) (d : DESC) : DESC :=
  Desc (header d) (bookmark_count d) (desc_type d) (ref_type d) (bookmark2 d) (records2 d) e (d_stmt d) (d_dbc d) (stmt_list d).
Definition with_stmt_list (l : list positive) (d : DESC) : DESC :=
  Desc (header d) (bookmark_count d) (desc_type d) (ref_type d) (bookmark2 d) (records2 d) (d_error d) (d_stmt d) (d_dbc d) l.
Definition with_desc_type (t : desc_desc_type) (d : DESC) : DESC :=
  Desc (header d) (bookmark_count d) t (ref_type d) (bookmark2 d) (records2 d) (d_error d) (d_stmt d) (d_dbc d) (stmt_list d).
Definition alloc_type (d : DESC) : Z := header d H_alloc_type.
Definition with_stmt_error (e : MYERROR) (s : STMT) : STMT :=
  Stmt (s_dbc s) (ard s) (apd s) (ird s) (ipd s) (imp_ard s) (imp_apd s) e (s_bookmarks s) (s_state s) (s_work s).

(** Members of a record. *)
Definition set_field_value (f : rec_field) (v : value) (r : DESCREC) : DESCREC :=
  DescRec (<[f := v]> (fields r)) (m_desc_type r) (m_ref_type r) (par r).
Definition with_par (p : par_struct) (r : DESCREC) : DESCREC := DescRec (fields r) (m_desc_type r) (m_ref_type r) p.
Definition field_num (f : rec_field) (r : DESCREC) : Z := num (fields r f).

(** ** The tables of types *)

(** [src/driver/utility.cc:1829-1871] get_dticode_from_concise_type *)
Definition get_dticode_from_concise_type (concise_type : Z) : Z :=
  if concise_type =? SQL_C_TYPE_DATE then SQL_CODE_DATE
  else if concise_type =? SQL_C_TYPE_TIME then SQL_CODE_TIME
  else if (concise_type =? SQL_C_TIMESTAMP) || (concise_type =? SQL_C_TYPE_TIMESTAMP) then SQL_CODE_TIMESTAMP
  else if is_interval_code (concise_type - 100) then concise_type - 100
  else 0.

(** [src/driver/utility.cc:1879-1892] get_concise_type_from_datetime_code *)
Definition get_concise_type_from_datetime_code (dticode : Z) : Z :=
  if dticode =? SQL_CODE_DATE then SQL_C_TYPE_DATE
  else if dticode =? SQL_CODE_TIME then SQL_C_TYPE_DATE
  else if dticode =? SQL_CODE_TIMESTAMP then SQL_C_TYPE_TIMESTAMP
  else 0.

(** [src/driver/utility.cc:1901-1934] get_concise_type_from_interval_code *)
Definition get_concise_type_from_interval_code (dticode : Z) : Z :=
  if is_interval_code dticode then interval_type dticode else 0.

(** [src/driver/utility.cc:1940-1969] get_type_from_concise_type *)
Definition get_type_from_concise_type (concise_type : Z) : Z :=
  if (concise_type =? SQL_C_TYPE_DATE) || (concise_type =? SQL_C_TYPE_TIME) || (concise_type =? SQL_C_TYPE_TIMESTAMP) then
    SQL_DATETIME
  else if is_interval_code (concise_type - 100) then SQL_INTERVAL
  else concise_type.

(** ** Records *)

Definition empty_par : par_struct := Par [] 0 false.

(** [src/driver/driver.h:405-409] DESCREC::par_struct::reset *)
Definition par_reset (p : par_struct) : par_struct := Par [] 0 (real_param_done p).

Definition SQL_TRUE : Z := 1.
Definition SQL_FALSE : Z := 0.

(** [src/driver/desc.cc:96-107] DESCREC::desc_rec_init_apd *)
Definition desc_rec_init_apd (r : DESCREC) : DESCREC :=
  let r := set_field_value R_concise_type (Num SQL_C_DEFAULT) r in
  let r := set_field_value R_data_ptr (Num 0) r in
  let r := set_field_value R_indicator_ptr (Num 0) r in
  let r := set_field_value R_octet_length_ptr (Num 0) r in
  let r := set_field_value R_type (Num SQL_C_DEFAULT) r in
  with_par (par_reset (par r)) r.

(** [src/driver/desc.cc:113-125] DESCREC::desc_rec_init_ipd

    [SQL_NULLABLE] and [SQL_PARAM_INPUT] are 1. *)
Definition desc_rec_init_ipd (r : DESCREC) : DESCREC :=
  let r := set_field_value R_fixed_prec_scale (Num SQL_TRUE) r in
  let r := set_field_value R_local_type_name (Literal []) r in
  let r := set_field_value R_nullable (Num 1) r in
  let r := set_field_value R_parameter_type (Num 1) r in
  let r := set_field_value R_type_name (Literal (S!"VARCHAR")) r in
  let r := set_field_value R_is_unsigned (Num SQL_FALSE) r in
  set_field_value R_name (Literal []) r.

(** [src/driver/desc.cc:131-139] DESCREC::desc_rec_init_ard *)
Definition desc_rec_init_ard (r : DESCREC) : DESCREC :=
  let r := set_field_value R_concise_type (Num SQL_C_DEFAULT) r in
  let r := set_field_value R_data_ptr (Num 0) r in
  let r := set_field_value R_indicator_ptr (Num 0) r in
  let r := set_field_value R_octet_length_ptr (Num 0) r in
  set_field_value R_type (Num SQL_C_DEFAULT) r.

(** [src/driver/desc.cc:145-160] DESCREC::desc_rec_init_ird

    [SQL_NULLABLE_UNKNOWN] is 2 and [SQL_UNNAMED] is 1. *)
Definition desc_rec_init_ird (r : DESCREC) : DESCREC :=
  let r := set_field_value R_auto_unique_value (Num SQL_FALSE) r in
  let r := set_field_value R_case_sensitive (Num SQL_TRUE) r in
  let r := set_field_value R_concise_type (Num SQL_VARCHAR) r in
  let r := set_field_value R_display_size (Num 100) r in
  let r := set_field_value R_fixed_prec_scale (Num SQL_TRUE) r in
  let r := set_field_value R_length (Num 100) r in
  let r := set_field_value R_nullable (Num 2) r in
  let r := set_field_value R_type (Num SQL_VARCHAR) r in
  let r := set_field_value R_type_name (Literal (S!"VARCHAR")) r in
  let r := set_field_value R_unnamed (Num 1) r in
  set_field_value R_is_unsigned (Num SQL_FALSE) r.

(** [src/driver/desc.cc:162-176] DESCREC::reset_to_defaults *)
Definition reset_to_defaults (r : DESCREC) : DESCREC :=
  let r := with_par (par_reset (par r)) r in
  match m_desc_type r, m_ref_type r with
  | DESC_PARAM, DESC_APP => desc_rec_init_apd r
  | DESC_PARAM, DESC_IMP => desc_rec_init_ipd r
  | DESC_ROW, DESC_APP => desc_rec_init_ard r
  | DESC_ROW, DESC_IMP => desc_rec_init_ird r
  | DESC_UNKNOWN, _ => r
  end.

(** [src/driver/driver.h:435-448] DESCREC::DESCREC *)
Definition new_rec (dt : desc_desc_type) (rt : desc_ref_type) : DESCREC :=
  reset_to_defaults (DescRec (λ _, Num 0) dt rt empty_par).

(** [src/driver/desc.cc:178-185] DESCREC::par_struct::add_param_data *)
Definition add_param_data (chunk : str) (p : par_struct) : par_struct := Par (tempbuf p ++ chunk) (is_dae p) (real_param_done p).

(** [src/driver/desc.cc:81-84] DESC::reset *)
Definition desc_reset (d : DESC) : DESC := with_records [] d.

(** [src/driver/desc.cc:86-90] DESC::free_paramdata *)
Definition free_paramdata (d : DESC) : DESC := with_records ((λ r, with_par (par_reset (par r)) r) <$> records2 d) d.

(** [src/driver/driver.h:498-502] DESC::rcount

    The count is also kept in the header. *)
Definition rcount (d : DESC) : Z * DESC :=
  let n := Z.of_nat (length (records2 d)) in (n, with_header H_count n d).

(** Which record a call works on: the bookmark or a column or parameter. *)
Inductive rec_ref := Bookmark | Rec (i : nat).

(** The record, [None] for one that is not there. *)
Definition lookup_rec (d : DESC) (r : rec_ref) : option DESCREC :=
  match r with Bookmark => last (bookmark2 d) | Rec i => records2 d !! i end.

Definition update_rec (r : rec_ref) (f : DESCREC → DESCREC) (d : DESC) : DESC :=
  match r with
  | Bookmark => with_bookmarks (bookmark_count d) (alter f (length (bookmark2 d) - 1)%nat (bookmark2 d)) d
  | Rec i => with_records (alter f i (records2 d)) d
  end.

Section Driver.
Context (myodbc_error_prefix : str).

(** The prefix of the messages of a descriptor's statement, [stmt->dbc->
    st_error_prefix]; a descriptor that an application has allocated has no
    statement. *)
Definition desc_prefix (d : DESC) : M handles str :=
  s ← deref (d_stmt d); st ← get_stmt s; c ← get_dbc (s_dbc st); mret (st_error_prefix c).

(** [src/driver/desc.cc:713-720] DESC::set_error *)
Definition desc_set_error (d : positive) (state msg : str) (errcode : Z) : M handles Z :=
  x ← get_desc d;
  prefix ← desc_prefix x;
  put_desc d (with_error (MyError (retcode (d_error x)) (prefix ++ msg) errcode state) x);;
  mret SQL_ERROR.

(** [src/driver/error.cc:188-195] set_desc_error *)
Definition set_desc_error (d : positive) (state msg : str) (errcode : Z) : M handles Z :=
  x ← get_desc d;
  put_desc d (with_error (error_of_state myodbc_error_prefix (Some state) (Some msg) errcode (Some myodbc_error_prefix)) x);;
  mret SQL_ERROR.

(** [src/driver/my_prepared_stmt.cc:784-789] STMT::set_error *)
Definition stmt_set_error (s : positive) (state msg : str) (errcode : Z) : M handles Z :=
  x ← get_stmt s;
  c ← get_dbc (s_dbc x);
  let e := error_of_state myodbc_error_prefix (Some state) (Some msg) errcode (Some (st_error_prefix c)) in
  put_stmt s (with_stmt_error e x);;
  mret (retcode e).

(** The number of an error as an error code. *)
Definition errid (e : myodbc_errid) : Z := Z.of_nat (errid_index e).

(** [src/driver/desc.cc:197-241] desc_get_rec

    With [expand] the records up to the one that is asked for are made.  The
    second lookup of a bookmark that is not there is undefined. *)
Definition desc_get_rec (d : positive) (recnum : Z) (expand : bool) : M handles (option rec_ref) :=
  x ← get_desc d;
  variable ← (if recnum =? -1 then s ← deref (d_stmt x); st ← get_stmt s; mret (s_bookmarks st =? SQL_UB_VARIABLE)
              else mret false);
  if (variable : bool) then
    (if expand && (bookmark_count x =? 0) then
       put_desc d (with_bookmarks 1 (bookmark2 x ++ [new_rec (desc_type x) (ref_type x)]) x)
     else mret tt);;
    x ← get_desc d;
    (if bool_decide (bookmark2 x = []) then undefined else mret (Some Bookmark))
  else if recnum <? 0 then
    s ← deref (d_stmt x);
    stmt_set_error s (S!"07009") (S!"Invalid descriptor index") (errid MYERR_07009);;
    mret None
  else
    let n := Z.to_nat recnum in
    let have := length (records2 x) in
    (if (expand : bool) then put_desc d (with_records (records2 x ++ replicate (S n - have) (new_rec (desc_type x) (ref_type x))) x)
     else mret tt);;
    x ← get_desc d;
    let '(count, x) := rcount x in
    put_desc d x;;
    mret (if recnum <? count then Some (Rec n) else None).

(** ** The table of fields *)

(** Permissions: to read and to write an implementation or an application
    descriptor, of rows or, shifted by four bits, of parameters. *)
Definition P_RI : Z := 1.
Definition P_WI : Z := 2.
Definition P_RA : Z := 4.
Definition P_WA : Z := 8.
Definition P_ROW (p : Z) : Z := p.
Definition P_PAR (p : Z) : Z := Z.shiftl p 4.
Definition PR_RIR : Z := P_ROW P_RI.
Definition PR_RAR : Z := P_ROW P_RA.
Definition PR_WAR : Z := Z.lor (P_ROW P_WA) PR_RAR.
Definition PR_RIP : Z := P_PAR P_RI.
Definition PR_WIP : Z := Z.lor (P_PAR P_WI) PR_RIP.
(** [src/driver/driver.h:212-212] PR_RAP

    The macro says [P_RI] where the ones for rows say [P_RA]. *)
Definition PR_RAP : Z := P_PAR P_RI.
(** [src/driver/driver.h:213-213] PR_WAP *)
Definition PR_WAP : Z := Z.lor (P_PAR P_WA) PR_RAP.

(** Where a field is: its offset. *)
Inductive field_loc := Header (f : hdr_field) | Record_ (f : rec_field).

(** [src/driver/driver.h:313-318] desc_field *)
Record desc_field := Field { perms : Z; data_type : Z; offset : field_loc }.

Definition loc (f : desc_field) : fld_loc := match offset f with Header _ => DESC_HDR | Record_ _ => DESC_REC end.

Definition all_of (ps : list Z) : Z := foldr Z.lor 0 ps.
Definition HDR_FLD (f : hdr_field) (ps : list Z) (t : Z) : desc_field := Field (all_of ps) t (Header f).
Definition REC_FLD (f : rec_field) (ps : list Z) (t : Z) : desc_field := Field (all_of ps) t (Record_ f).

(** The identifiers of the fields (sql.h, sqlext.h) that the theorems name. *)
Definition SQL_DESC_ARRAY_STATUS_PTR : Z := 21.
Definition SQL_DESC_ROWS_PROCESSED_PTR : Z := 34.
Definition SQL_DESC_COUNT : Z := 1001.
Definition SQL_DESC_TYPE : Z := 1002.
Definition SQL_DESC_CONCISE_TYPE : Z := 2.
Definition SQL_DESC_DATETIME_INTERVAL_CODE : Z := 1007.
Definition SQL_DESC_DATA_PTR : Z := 1010.
Definition SQL_DESC_OCTET_LENGTH_PTR : Z := 1004.
Definition SQL_DESC_INDICATOR_PTR : Z := 1009.
Definition SQL_DESC_NAME : Z := 1011.
Definition SQL_DESC_UNNAMED : Z := 1012.
Definition SQL_DESC_PARAMETER_TYPE : Z := 33.

(** [src/driver/desc.cc:379-516] getfield

    The identifiers are those of sql.h and sqlext.h: 20 to 35 and 1001 to 1099 of
    ODBC 3, and the column attributes of ODBC 2 that are fields as well. *)
Definition field_table : list (Z * desc_field) :=
  [ (1099, HDR_FLD H_alloc_type [P_RI; P_RA] SQL_IS_SMALLINT);
    (20, HDR_FLD H_array_size [P_RA; P_WA] SQL_IS_ULEN);
    (SQL_DESC_ARRAY_STATUS_PTR, HDR_FLD H_array_status_ptr [P_RI; P_WI; P_RA; P_WA] SQL_IS_POINTER);
    (24, HDR_FLD H_bind_offset_ptr [P_RA; P_WA] SQL_IS_POINTER);
    (25, HDR_FLD H_bind_type [P_RA; P_WA] SQL_IS_INTEGER);
    (SQL_DESC_COUNT, HDR_FLD H_count [P_RI; P_WI; P_RA; P_WA] SQL_IS_LEN);
    (SQL_DESC_ROWS_PROCESSED_PTR, HDR_FLD H_rows_processed_ptr [P_RI; P_WI] SQL_IS_POINTER);
    (11, REC_FLD R_auto_unique_value [PR_RIR] SQL_IS_INTEGER);
    (22, REC_FLD R_base_column_name [PR_RIR] SQL_IS_POINTER);
    (23, REC_FLD R_base_table_name [PR_RIR] SQL_IS_POINTER);
    (12, REC_FLD R_case_sensitive [PR_RIR; PR_RIP] SQL_IS_INTEGER);
    (17, REC_FLD R_catalog_name [PR_RIR] SQL_IS_POINTER);
    (SQL_DESC_CONCISE_TYPE, REC_FLD R_concise_type [PR_WAR; PR_WAP; PR_RIR; PR_WIP] SQL_IS_SMALLINT);
    (SQL_DESC_DATA_PTR, REC_FLD R_data_ptr [PR_WAR; PR_WAP] SQL_IS_POINTER);
    (6, REC_FLD R_display_size [PR_RIR] SQL_IS_LEN);
    (9, REC_FLD R_fixed_prec_scale [PR_RIR; PR_RIP] SQL_IS_SMALLINT);
    (SQL_DESC_INDICATOR_PTR, REC_FLD R_indicator_ptr [PR_WAR; PR_WAP] SQL_IS_POINTER);
    (18, REC_FLD R_label [PR_RIR] SQL_IS_POINTER);
    (1003, REC_FLD R_length [PR_WAR; PR_WAP; PR_RIR; PR_WIP] SQL_IS_ULEN);
    (27, REC_FLD R_literal_prefix [PR_RIR] SQL_IS_POINTER);
    (28, REC_FLD R_literal_suffix [PR_RIR] SQL_IS_POINTER);
    (29, REC_FLD R_local_type_name [PR_RIR; PR_RIP] SQL_IS_POINTER);
    (SQL_DESC_NAME, REC_FLD R_name [PR_RIR; PR_WIP] SQL_NTS);
    (1008, REC_FLD R_nullable [PR_RIR; PR_RIP] SQL_IS_SMALLINT);
    (32, REC_FLD R_num_prec_radix [PR_WAR; PR_WAP; PR_RIR; PR_WIP] SQL_IS_INTEGER);
    (1013, REC_FLD R_octet_length [PR_WAR; PR_WAP; PR_RIR; PR_WIP] SQL_IS_LEN);
    (SQL_DESC_OCTET_LENGTH_PTR, REC_FLD R_octet_length_ptr [PR_WAR; PR_WAP] SQL_IS_POINTER);
    (SQL_DESC_PARAMETER_TYPE, REC_FLD R_parameter_type [PR_WIP] SQL_IS_SMALLINT);
    (1005, REC_FLD R_precision [PR_WAR; PR_WAP; PR_RIR; PR_WIP] SQL_IS_SMALLINT);
    (35, REC_FLD R_rowver [PR_RIR; PR_RIP] SQL_IS_SMALLINT);
    (1006, REC_FLD R_scale [PR_WAR; PR_WAP; PR_RIR; PR_WIP] SQL_IS_SMALLINT);
    (16, REC_FLD R_schema_name [PR_RIR] SQL_IS_POINTER);
    (13, REC_FLD R_searchable [PR_RIR] SQL_IS_SMALLINT);
    (15, REC_FLD R_table_name [PR_RIR] SQL_IS_POINTER);
    (SQL_DESC_TYPE, REC_FLD R_type [PR_WAR; PR_WAP; PR_RIR; PR_WIP] SQL_IS_SMALLINT);
    (14, REC_FLD R_type_name [PR_RIR; PR_RIP] SQL_IS_POINTER);
    (SQL_DESC_UNNAMED, REC_FLD R_unnamed [PR_RIR; PR_WIP] SQL_IS_SMALLINT);
    (8, REC_FLD R_is_unsigned [PR_RIR; PR_RIP] SQL_IS_SMALLINT);
    (10, REC_FLD R_updatable [PR_RIR] SQL_IS_SMALLINT);
    (SQL_DESC_DATETIME_INTERVAL_CODE, REC_FLD R_datetime_interval_code [PR_WAR; PR_WAP; PR_RIR; PR_WIP] SQL_IS_SMALLINT);
    (26, REC_FLD R_datetime_interval_precision [PR_WAR; PR_WAP; PR_RIR; PR_WIP] SQL_IS_INTEGER) ].

(** [src/driver/desc.cc:379-516] getfield *)
Definition getfield (fldid : Z) : option desc_field := (λ p, p.2.2) <$> list_find (λ p, p.1 = fldid) field_table.

(** ** Values *)

Definition signed (bits z : Z) : Z := let u := z mod 2 ^ bits in if u <? 2 ^ (bits - 1) then u else u - 2 ^ bits.

(** The number that a field of a type holds after an assignment; [None] for the
    types of pointers. *)
Definition cast (t z : Z) : option Z :=
  if t =? SQL_IS_SMALLINT then Some (signed 16 z)
  else if t =? SQL_IS_USMALLINT then Some (z mod 2 ^ 16)
  else if t =? SQL_IS_INTEGER then Some (signed 32 z)
  else if t =? SQL_IS_UINTEGER then Some (z mod 2 ^ 32)
  else if t =? SQL_IS_LEN then Some (signed 64 z)
  else if t =? SQL_IS_ULEN then Some (z mod 2 ^ 64)
  else None.

Definition number_types : list Z := [SQL_IS_SMALLINT; SQL_IS_USMALLINT; SQL_IS_INTEGER; SQL_IS_UINTEGER; SQL_IS_LEN; SQL_IS_ULEN].

(** [src/driver/desc.cc:319-373] apply_desc_val

    A pointer that is stored in a field of two or four bytes overwrites what is
    next to it. *)
Definition apply_desc_val (dest : value) (dest_type : Z) (src : value) (buflen : Z) : res value :=
  if bool_decide (buflen ∈ number_types) then
    Ok (match cast dest_type (num src) with Some z => Num z | None => dest end)
  else if (buflen =? SQL_NTS) || (buflen =? SQL_IS_POINTER) then
    match cast dest_type (num src) with
    | None => Ok src
    | Some z => if (dest_type =? SQL_IS_LEN) || (dest_type =? SQL_IS_ULEN) then Ok (Num z) else UB
    end
  else Ok dest.

(** What is written to [valptr]: the value of a field as the type that is asked
    for. *)
Definition read_desc_val (src : value) (src_type buflen : Z) : option value :=
  if bool_decide (buflen ∈ number_types) then
    if bool_decide (src_type ∈ number_types) then Num <$> cast buflen (num src) else None
  else if buflen =? SQL_IS_POINTER then Some src
  else None.

(** The permission that a call needs for a field of a record. *)
Definition needed (d : DESC) (app imp : Z) : Z :=
  let perms := match ref_type d with DESC_APP => app | DESC_IMP => imp end in
  match desc_type d with DESC_PARAM => P_PAR perms | DESC_ROW => P_ROW perms | DESC_UNKNOWN => perms end.

(** [(~fld->perms & perms) == perms]. *)
Definition lacks (have perms : Z) : bool := Z.land (Z.lnot have) perms =? perms.
(** [~fld->perms & p], as a condition. *)
Definition misses (have p : Z) : bool := negb (Z.land (Z.lnot have) p =? 0).

Definition is_ird (d : DESC) : bool := bool_decide (desc_type d = DESC_ROW) && bool_decide (ref_type d = DESC_IMP).
Definition is_ard (d : DESC) : bool := bool_decide (desc_type d = DESC_ROW) && bool_decide (ref_type d = DESC_APP).
Definition is_apd (d : DESC) : bool := bool_decide (desc_type d = DESC_PARAM) && bool_decide (ref_type d = DESC_APP).
Definition is_ipd (d : DESC) : bool := bool_decide (desc_type d = DESC_PARAM) && bool_decide (ref_type d = DESC_IMP).

(** The tests of [MySQLGetDescField] for the field: [true] for HY091.  As it is
    written the test for an implementation descriptor is made for fields of records
    too, with the permission of the header. *)
Definition get_refused (d : DESC) (fld : desc_field) : bool :=
  (bool_decide (loc fld = DESC_HDR) && (bool_decide (ref_type d = DESC_APP) && misses (perms fld) P_RA)) ||
  (bool_decide (ref_type d = DESC_IMP) && misses (perms fld) P_RI) ||
  (bool_decide (loc fld = DESC_REC) && lacks (perms fld) (needed d P_RA P_RI)).

(** A call of [rcount] on a descriptor. *)
Definition count_records (d : positive) : M handles DESC :=
  x ← get_desc d; put_desc d (rcount x).2;; mret (rcount x).2.

(** [src/driver/desc.cc:523-710] MySQLGetDescField

    The result and what is written to [valptr]. *)
Definition MySQLGetDescField (d : positive) (recnum fldid buflen : Z) : M handles (Z * option value) :=
  let failed (m : M handles Z) := rc ← m; mret (rc, None) in
  x ← get_desc d;
  put_desc d (with_error no_error x);;
  unprepared ← (if is_ird x then s ← deref (d_stmt x); st ← get_stmt s; mret (state_index (s_state st) <? state_index ST_PREPARED)
                else mret false);
  if (unprepared : bool) then failed (set_desc_error d (S!"HY007") (S!"Associated statement is not prepared") (errid MYERR_S1007))
  else
  match getfield fldid with
  | None => failed (set_desc_error d (S!"HY091") (S!"Invalid descriptor field identifier") (errid MYERR_S1091))
  | Some fld =>
    if get_refused x fld then
      failed (set_desc_error d (S!"HY091") (S!"Invalid descriptor field identifier") (errid MYERR_S1091))
    else
    match offset fld with
    | Record_ f =>
      let bad_index := failed (set_desc_error d (S!"07009") (S!"Invalid descriptor index") (errid MYERR_07009)) in
      if recnum <? 1 then bad_index else
      x ← count_records d;
      if header x H_count <? recnum then bad_index
      else if xorb (data_type fld =? SQL_IS_POINTER) (buflen =? SQL_IS_POINTER) then
        failed (set_desc_error d (S!"HY015") (S!"Invalid parameter type") (errid MYERR_S1015))
      else
        r ← deref (records2 x !! Z.to_nat (recnum - 1));
        mret (SQL_SUCCESS, read_desc_val (fields r f) (data_type fld) buflen)
    | Header f =>
      x ← (if fldid =? SQL_DESC_COUNT then count_records d else get_desc d);
      if xorb (data_type fld =? SQL_IS_POINTER) (buflen =? SQL_IS_POINTER) then
        failed (set_desc_error d (S!"HY015") (S!"Invalid parameter type") (errid MYERR_S1015))
      else mret (SQL_SUCCESS, read_desc_val (Num (header x f)) (data_type fld) buflen)
    end
  end.

(** The tests of [set_field] for the field: [true] for HY091. *)
Definition set_refused (d : DESC) (fld : desc_field) : bool :=
  (bool_decide (loc fld = DESC_HDR) &&
     ((bool_decide (ref_type d = DESC_APP) && misses (perms fld) P_WA) ||
      (bool_decide (ref_type d = DESC_IMP) && misses (perms fld) P_WI))) ||
  (bool_decide (loc fld = DESC_REC) && lacks (perms fld) (needed d P_WA P_WI)).

(** The fields that bind a buffer. *)
Definition binds (fldid : Z) : bool :=
  bool_decide (fldid ∈ [SQL_DESC_DATA_PTR; SQL_DESC_OCTET_LENGTH_PTR; SQL_DESC_INDICATOR_PTR]).

(** [src/driver/desc.cc:869-904] DESC::set_field

    What follows from a field of a record: the other fields of its type. *)
Definition post_set (ard : bool) (fldid : Z) (r : DESCREC) : DESCREC :=
  let r :=
    if fldid =? SQL_DESC_TYPE then
      set_field_value R_datetime_interval_code (Num 0) (set_field_value R_concise_type (fields r R_type) r)
    else if fldid =? SQL_DESC_CONCISE_TYPE then
      let c := field_num R_concise_type r in
      set_field_value R_datetime_interval_code (Num (get_dticode_from_concise_type c))
        (set_field_value R_type (Num (get_type_from_concise_type c)) r)
    else if fldid =? SQL_DESC_DATETIME_INTERVAL_CODE then
      let c := field_num R_datetime_interval_code r in
      set_field_value R_concise_type
        (Num (if field_num R_type r =? SQL_DATETIME then get_concise_type_from_datetime_code c
              else get_concise_type_from_interval_code c)) r
    else r in
  if ((fldid =? SQL_DESC_TYPE) || (fldid =? SQL_DESC_CONCISE_TYPE)) && ard && (field_num R_type r =? SQL_C_NUMERIC) then
    set_field_value R_scale (Num 0) (set_field_value R_precision (Num 38) r)
  else r.

(** The C string at an address of the application. *)
Context (c_string : Z → option str).

(** [src/driver/desc.cc:820-922] DESC::set_field

    The part for a field of a record, which has been found: the name is copied
    behind what the buffer of the record holds, and the field points to the start
    of the buffer. *)
Definition set_record_field (x : DESC) (fldid : Z) (f : rec_field) (dt : Z) (v buflen : Z) (r : DESCREC) : res DESCREC :=
  '(src, r) ← (if fldid =? SQL_DESC_NAME then
                 match c_string v with
                 | Some t => Ok (Own, with_par (add_param_data (t ++ [Ascii.zero]) (par r)) r)
                 | None => UB
                 end
               else Ok (Num v, r));
  let r := if binds fldid then r else set_field_value R_data_ptr (Num 0) r in
  w ← apply_desc_val (fields r f) dt src buflen;
  let r := set_field_value f w r in
  let r := if is_ard x || is_apd x || is_ipd x then post_set (is_ard x) fldid r else r in
  Ok (if is_apd x && binds fldid && negb (bool_decide (src = Num 0))
      then with_par (Par (tempbuf (par r)) (is_dae (par r)) true) r else r).

(** [src/driver/desc.cc:739-925] DESC::set_field

    [v] is the value as it is passed, a pointer or a number. *)
Definition set_field (d : positive) (recnum fldid v buflen : Z) : M handles Z :=
  x ← get_desc d;
  put_desc d (with_error no_error x);;
  if is_ird x && negb (bool_decide (fldid ∈ [SQL_DESC_ARRAY_STATUS_PTR; SQL_DESC_ROWS_PROCESSED_PTR])) then
    desc_set_error d (S!"HY016") (S!"Cannot modify an implementation row descriptor") (errid MYERR_S1016)
  else
  let invalid := desc_set_error d (S!"HY091") (S!"Invalid descriptor field identifier") (errid MYERR_S1091) in
  match getfield fldid with
  | None => invalid
  | Some fld =>
    if set_refused x fld then invalid else
    let buflen := if buflen =? 0 then data_type fld else buflen in
    let wrong_type := xorb (data_type fld =? SQL_IS_POINTER) (buflen =? SQL_IS_POINTER) in
    let type_error := desc_set_error d (S!"HY015") (S!"Invalid parameter type") (errid MYERR_S1015) in
    match offset fld with
    | Header f =>
      if wrong_type then type_error else
      (if fldid =? SQL_DESC_COUNT then desc_get_rec d (to_int32 (v - 1)) true;; mret tt else mret tt);;
      x ← get_desc d;
      w ← lift (apply_desc_val (Num (header x f)) (data_type fld) (Num v) buflen);
      put_desc d (with_header f (num w) x);;
      mret SQL_SUCCESS
    | Record_ f =>
      bookmarks_off ← (if recnum <? 1 then s ← deref (d_stmt x); st ← get_stmt s; mret (s_bookmarks st =? SQL_UB_OFF)
                       else mret false);
      if (bookmarks_off : bool) then
        desc_set_error d (S!"07009") (S!"Invalid descriptor index") (errid MYERR_07009)
      else
      dest ← desc_get_rec d (recnum - 1) true;
      if wrong_type then type_error
      else if (fldid =? SQL_DESC_UNNAMED) && (v =? 0) then
        desc_set_error d (S!"HY092") (S!"Invalid attribute/option identifier") (errid MYERR_S1092)
      else
        ref ← deref dest;
        x ← get_desc d;
        r ← deref (lookup_rec x ref);
        r ← lift (set_record_field x fldid f (data_type fld) v buflen r);
        put_desc d (update_rec ref (λ _, r) x);;
        mret SQL_SUCCESS
    end
  end.

(** [src/driver/desc.cc:933-956] MySQLCopyDesc

    [*dest = *src]: every member is assigned, the kind of the descriptor, its
    owners and its statements too. *)
Definition MySQLCopyDesc (src dest : positive) : M handles Z :=
  x ← get_desc dest;
  put_desc dest (with_error no_error x);;
  if is_ird x then
    set_desc_error dest (S!"HY016") (S!"Cannot modify an implementation row descriptor") (errid MYERR_S1016)
  else
  y ← get_desc src;
  unprepared ← (if is_ird y then s ← deref (d_stmt y); st ← get_stmt s; mret (state_index (s_state st) <? state_index ST_PREPARED)
                else mret false);
  if (unprepared : bool) then
    set_desc_error dest (S!"HY007") (S!"Associated statement is not prepared") (errid MYERR_S1007)
  else put_desc dest y;; mret SQL_SUCCESS.

(** [src/driver/desc.cc:980-990] stmt_SQLSetDescField

    An error of the descriptor becomes the one of the statement. *)
Definition stmt_SQLSetDescField (s d : positive) (recnum fldid v buflen : Z) : M handles Z :=
  rc ← set_field d recnum fldid v buflen;
  (if rc =? SQL_SUCCESS then mret tt
   else x ← get_desc d; st ← get_stmt s; put_stmt s (with_stmt_error (d_error x) st));;
  mret rc.
End Driver.

(** ** Types of a record *)

(** The three fields that give the type of a record agree: the concise type
    determines the verbose type and the code of a date or an interval. *)
Definition type_consistent (r : DESCREC) : Prop :=
  fields r R_type = Num (get_type_from_concise_type (field_num R_concise_type r)) ∧
  fields r R_datetime_interval_code = Num (get_dticode_from_concise_type (field_num R_concise_type r)) ∧
  fields r R_concise_type = Num (field_num R_concise_type r).





Lemma getfield_elem fldid fld : getfield fldid = Some fld → (fldid, fld) ∈ field_table.
Proof.
  unfold getfield. intros H. destruct (list_find _ _) as [[i [k g]]|] eqn:E; [|done]. simpl in H. injection H as <-.
  apply list_find_Some in E as (E & Hk & _). simpl in Hk. subst k. by apply list_elem_of_lookup_2 in E.
Qed.


Lemma fields_set f v r g : fields (set_field_value f v r) g = if decide (g = f) then v else fields r g.
Proof.
  unfold set_field_value. cbn [fields]. destruct (decide (g = f)) as [->|Hne]; [apply fn_lookup_insert|by apply fn_lookup_insert_ne].
Qed.



(** The defaults for a numeric do not touch the type. *)
Lemma post_set_other ard fldid r :
  ¬ (fldid = SQL_DESC_TYPE ∨ fldid = SQL_DESC_CONCISE_TYPE ∨ fldid = SQL_DESC_DATETIME_INTERVAL_CODE) →
  post_set ard fldid r = r.
Proof.
  intros Hn. unfold post_set. destruct (Z.eqb_spec fldid SQL_DESC_TYPE); [tauto|].
  destruct (Z.eqb_spec fldid SQL_DESC_CONCISE_TYPE); [tauto|].
  destruct (Z.eqb_spec fldid SQL_DESC_DATETIME_INTERVAL_CODE); [tauto|]. done.
Qed.



Section Consistency.
Context (pre : str) (c_string : Z → option str).

Definition desc_consistent (x : DESC) : Prop := Forall type_consistent (records2 x) ∧ Forall type_consistent (bookmark2 x).

(** What a call leaves of a descriptor: its kind, and the consistency of its
    records. *)
Definition keeps (x x' : DESC) : Prop :=
  desc_type x' = desc_type x ∧ ref_type x' = ref_type x ∧ (desc_consistent x → desc_consistent x').


(** A call that leaves the descriptor [d], which is [x] before, kept. *)
Definition kept {A} (d : positive) (x : DESC) (out : res A * handles) : Prop :=
  ∃ x', descs out.2 !! d = Some x' ∧ keeps x x'.




(** A call that changes no descriptor. *)
Lemma kept_same {A} d x (m : M handles A) h : descs h !! d = Some x → descs (m h).2 = descs h → kept d x (m h).
Proof. intros Hx E. exists x. by rewrite E. Qed.

Lemma get_desc_run d x h : descs h !! d = Some x → get_desc d h = (Ok x, h).
Proof. intros Hx. unfold get_desc. rewrite get_bind. by rewrite Hx. Qed.

Lemma kept_put d x x' h : keeps x x' → kept d x (put_desc d x' h).
Proof. intros Hk. exists x'. split; [|done]. apply lookup_insert_eq. Qed.





Lemma put_desc_bind {A} d x (k : unit → M handles A) h :
  (put_desc d x ≫= k) h = k tt (set_descs (<[d := x]> (descs h)) h).
Proof. reflexivity. Qed.







(** A number for one of the fields of the type is stored with 16 bits. *)
Lemma apply_short old v buflen :
  buflen ∈ 0 :: number_types →
  apply_desc_val old SQL_IS_SMALLINT (Num v) (if buflen =? 0 then SQL_IS_SMALLINT else buflen) = Ok (Num (signed 16 v)).
Proof.
  intros Hb. unfold apply_desc_val. rewrite bool_decide_true; [done|].
  apply elem_of_cons in Hb as [-> | Hb]; [by apply (bool_decide_unpack _); vm_compute|].
  destruct (Z.eqb_spec buflen 0); [|done]. by apply (bool_decide_unpack _); vm_compute.
Qed.








End Consistency.


(** ** Reading what has been set *)




















(** The bindings of parameters cannot be read back.  No field of a record of an
    application parameter descriptor may be read, the ones that may be set
    included: the macro for reading them grants the permission of the
    implementation descriptor, so that the call fails with HY091. *)
Theorem apd_fields_unreadable (pre : str) d x recnum fldid fld f buflen h :
  descs h !! d = Some x → is_apd x = true → getfield fldid = Some fld → offset fld = Record_ f →
  ∃ h' x', MySQLGetDescField pre d recnum fldid buflen h = (Ok (SQL_ERROR, None), h') ∧
    descs h' !! d = Some x' ∧ sqlstate (d_error x') = S!"HY091" ∧ native_error (d_error x') = errid MYERR_S1091.
Proof.
  intros Hx Ha Hg Hf. unfold MySQLGetDescField. rewrite (bind_Ok _ _ _ _ _ (get_desc_run d x h Hx)), put_desc_bind.
  set (x1 := with_error no_error x). set (h1 := set_descs _ h).
  assert (is_ird x = false ∧ desc_type x = DESC_PARAM ∧ ref_type x = DESC_APP) as (-> & Hd & Hrt).
  { unfold is_apd, is_ird in *. by destruct (desc_type x), (ref_type x). }
  rewrite ret_bind. cbn iota. rewrite Hg. assert (get_refused x fld = true) as ->.
  { unfold get_refused, needed, loc. rewrite Hd, Hrt, Hf. apply orb_true_iff. right. cbn [bool_decide andb].
    apply getfield_elem in Hg. unfold field_table in Hg.
    repeat (apply elem_of_cons in Hg as [Hg|Hg];
      [injection Hg as -> ->; cbn [offset HDR_FLD REC_FLD] in Hf; first [discriminate Hf | by vm_compute]|]).
    by apply elem_of_nil in Hg. }
  unfold set_desc_error. rewrite bind_assoc, (bind_Ok _ _ _ _ _ (get_desc_run d x1 h1 (lookup_insert_eq _ _ _))).
  rewrite bind_assoc, put_desc_bind, ret_bind. eexists _, _. split; [done|]. split; [apply lookup_insert_eq|]. done.
Qed.

(** ** What breaks the types, and other exceptions *)

(** The code for times: a verbose type of dates and times and the code of a time
    give the concise type of a date, and the three fields do not agree. *)
Lemma time_code_gives_date c_string x fldid fld v r r' :
  fldid = SQL_DESC_DATETIME_INTERVAL_CODE → getfield fldid = Some fld → is_ard x || is_apd x || is_ipd x = true →
  fields r R_type = Num SQL_DATETIME → signed 16 v = SQL_CODE_TIME →
  set_record_field c_string x fldid R_datetime_interval_code (data_type fld) v (data_type fld) r = Ok r' →
  fields r' R_datetime_interval_code = Num SQL_CODE_TIME ∧ fields r' R_concise_type = Num SQL_C_TYPE_DATE ∧ ¬ type_consistent r'.
Proof.
  intros -> [= <-] Hk Ht Hv. unfold set_record_field. rewrite Hk.
  change (SQL_DESC_DATETIME_INTERVAL_CODE =? SQL_DESC_NAME) with false. cbn iota. cbn [mbind res_bind].
  change (binds SQL_DESC_DATETIME_INTERVAL_CODE) with false. rewrite andb_false_r. cbn iota. cbn [andb].
  set (y := apply_desc_val _ _ _ _). assert (y = Ok (Num (signed 16 v))) as -> by (subst y; apply (apply_short _ v 0); by left).
  rewrite Hv. cbn [mbind res_bind]. intros [= <-]. set (r0 := set_field_value R_data_ptr (Num 0) r).
  set (r1 := post_set _ _ _). assert (r1 = set_field_value R_concise_type (Num SQL_C_TYPE_DATE)
    (set_field_value R_datetime_interval_code (Num SQL_CODE_TIME) r0)) as ->.
  { subst r1. unfold post_set. change (SQL_DESC_DATETIME_INTERVAL_CODE =? SQL_DESC_TYPE) with false.
    change (SQL_DESC_DATETIME_INTERVAL_CODE =? SQL_DESC_CONCISE_TYPE) with false.
    change (SQL_DESC_DATETIME_INTERVAL_CODE =? SQL_DESC_DATETIME_INTERVAL_CODE) with true. cbn [orb andb]. cbn iota.
    unfold field_num. rewrite !fields_set. subst r0. rewrite !decide_False by done. rewrite fields_set. simpl. by rewrite Ht. }
  unfold type_consistent, field_num. rewrite !fields_set. simpl. split; [done|]. split; [done|]. by intros (_ & H & _).
Qed.

(** An error on a descriptor that an application has allocated: it has no
    statement to take the prefix of the message from. *)
Lemma explicit_error_undefined pre c_string d x recnum fldid v buflen h :
  descs h !! d = Some x → d_stmt x = None → is_ird x = false → getfield fldid = None →
  (set_field pre c_string d recnum fldid v buflen h).1 = UB.
Proof.
  intros Hx Hs Hi Hg. unfold set_field. rewrite (bind_Ok _ _ _ _ _ (get_desc_run d x h Hx)), put_desc_bind.
  rewrite Hi, Hg. cbn [andb]. unfold desc_set_error. rewrite (bind_Ok _ _ _ _ _ (get_desc_run d _ _ (lookup_insert_eq _ _ _))).
  unfold desc_prefix. cbn [with_error d_stmt]. by rewrite Hs.
Qed.

(** A copy of a descriptor is the source in every member: how it was allocated, its
    kind, its statement and its connection, and the statements that use it. *)
Lemma copy_takes_identity pre src dest x y h h' :
  descs h !! dest = Some x → descs h !! src = Some y → dest ≠ src → is_ird x = false → is_ird y = false →
  MySQLCopyDesc pre src dest h = (Ok SQL_SUCCESS, h') → descs h' !! dest = Some y.
Proof.
  intros Hx Hy Hne Hix Hiy. unfold MySQLCopyDesc. rewrite (bind_Ok _ _ _ _ _ (get_desc_run dest x h Hx)), put_desc_bind, Hix.
  set (h1 := set_descs _ h). assert (descs h1 !! src = Some y) as H1 by (cbn; by rewrite lookup_insert_ne).
  rewrite (bind_Ok _ _ _ _ _ (get_desc_run src y h1 H1)), Hiy, ret_bind. cbn iota. rewrite put_desc_bind. intros [= <-].
  apply lookup_insert_eq.
Qed.

(** The name of a parameter is put behind the ones it had: the first one stays. *)
Lemma name_set_twice c_string x t1 t2 p1 p2 r r1 r2 fld :
  c_string p1 = Some t1 → c_string p2 = Some t2 → getfield SQL_DESC_NAME = Some fld → tempbuf (par r) = [] →
  set_record_field c_string x SQL_DESC_NAME R_name (data_type fld) p1 (data_type fld) r = Ok r1 →
  set_record_field c_string x SQL_DESC_NAME R_name (data_type fld) p2 (data_type fld) r1 = Ok r2 →
  fields r2 R_name = Own ∧ tempbuf (par r2) = t1 ++ [Ascii.zero] ++ t2 ++ [Ascii.zero].
Proof.
  intros H1 H2 [= <-] Hp. unfold set_record_field. change (SQL_DESC_NAME =? SQL_DESC_NAME) with true. cbn iota.
  rewrite H1, H2. cbn [mbind res_bind]. change (binds SQL_DESC_NAME) with false. cbn iota. rewrite !andb_false_r. cbn iota.
  assert (∀ w : value, apply_desc_val w SQL_NTS Own SQL_NTS = Ok Own) as Ha by done.
  cbn [REC_FLD data_type]. rewrite !Ha. cbn [mbind res_bind]. intros [= <-]. cbn [mbind res_bind].
  rewrite ?Ha. intros [= <-].
  assert (∀ q, post_set (is_ard x) SQL_DESC_NAME q = q) as Hq by (intros q; by apply post_set_other; intros [H|[H|H]]).
  rewrite !Hq. assert (∀ (b : bool) (q : DESCREC), (if b then q else q) = q) as Hi by (by intros []). rewrite !Hi, fields_set. split; [done|]. cbn [set_field_value with_par par add_param_data tempbuf]. 
  rewrite Hp. cbn. by rewrite <- !app_assoc.
Qed.

(** ** A concrete store *)

Definition ex_desc (dt : desc_desc_type) (rt : desc_ref_type) (rs : list DESCREC) : DESC :=
  Desc (<[H_alloc_type := SQL_DESC_ALLOC_AUTO]> (λ _, 0)) 0 dt rt [] rs no_error (Some 3%positive) (Some 2%positive) [].

(** A statement with a descriptor of rows, 4, and one of parameters, 5. *)
Definition ex_work : work_field → value := λ _, Num 0.
Definition ex_statement : STMT := Stmt 2 4 5 6 7 4 5 no_error 0 ST_UNKNOWN ex_work.
Definition ex_connection : DBC := Dbc 1 [3%positive] [] no_error 0 (S!"[driver]") false.
Definition ex_store : handles :=
  Handles ∅ {[2%positive := ex_connection]} {[3%positive := ex_statement]}
    {[4%positive := ex_desc DESC_ROW DESC_APP [new_rec DESC_ROW DESC_APP]; 5%positive := ex_desc DESC_PARAM DESC_APP []]}
    8 0 globals_init [].




Lemma apd_fields_unreadable_witness :
  ∃ h' x', MySQLGetDescField (S!"[driver]") 5 1 SQL_DESC_DATA_PTR SQL_IS_POINTER ex_store = (Ok (SQL_ERROR, None), h') ∧
    descs h' !! 5%positive = Some x' ∧ sqlstate (d_error x') = S!"HY091" ∧ native_error (d_error x') = errid MYERR_S1091.
Proof.
  apply (apd_fields_unreadable (S!"[driver]") 5 (ex_desc DESC_PARAM DESC_APP []) 1 SQL_DESC_DATA_PTR
    (REC_FLD R_data_ptr [PR_WAR; PR_WAP] SQL_IS_POINTER) R_data_ptr); reflexivity.
Defined.
