(* ===== verification/Registry.v ===== *)
(** Who owns which handle: the abstract specification of the life of handles.

    A registry keeps, of every live handle, its owner and the handles it lists or
    points to; [good] says that the lists and the pointers agree.  The operations
    are those of the code (src/driver/handle.cc) as far as ownership is concerned;
    Handles.v shows that the code does just that. *)

From S2P Require Import Prelude Descriptors.

Local Open Scope Z_scope.

(** ** Registries *)

Record env_view := EnvV { ev_ver : Z; ev_conns : list positive }.
Record dbc_view := DbcV { dv_env : positive; dv_stmts : list positive; dv_descs : list positive }.
Record stmt_view := StmtV {
  sv_dbc : positive; sv_ard : positive; sv_apd : positive; sv_ird : positive; sv_ipd : positive; sv_imp_ard : positive; sv_imp_apd : positive }.
Record desc_view := DescV {
  xv_alloc : Z; xv_type : desc_desc_type; xv_ref : desc_ref_type; xv_stmt : option positive; xv_dbc : option positive;
  xv_users : list positive }.
Record registry := Registry {
  r_env : gmap positive env_view; r_dbc : gmap positive dbc_view; r_stmt : gmap positive stmt_view; r_desc : gmap positive desc_view;
  r_next : positive }.

Definition on_env (f : gmap positive env_view → gmap positive env_view) (R : registry) : registry :=
  Registry (f (r_env R)) (r_dbc R) (r_stmt R) (r_desc R) (r_next R).
Definition on_dbc (f : gmap positive dbc_view → gmap positive dbc_view) (R : registry) : registry :=
  Registry (r_env R) (f (r_dbc R)) (r_stmt R) (r_desc R) (r_next R).
Definition on_stmt (f : gmap positive stmt_view → gmap positive stmt_view) (R : registry) : registry :=
  Registry (r_env R) (r_dbc R) (f (r_stmt R)) (r_desc R) (r_next R).
Definition on_desc (f : gmap positive desc_view → gmap positive desc_view) (R : registry) : registry :=
  Registry (r_env R) (r_dbc R) (r_stmt R) (f (r_desc R)) (r_next R).
Definition on_next (f : positive → positive) (R : registry) : registry :=
  Registry (r_env R) (r_dbc R) (r_stmt R) (r_desc R) (f (r_next R)).

Definition remove (k : positive) (l : list positive) : list positive := filter (λ t, t ≠ k) l.

Definition ev_with (l : list positive) (x : env_view) : env_view := EnvV (ev_ver x) l.
Definition dv_with_stmts (l : list positive) (y : dbc_view) : dbc_view := DbcV (dv_env y) l (dv_descs y).
Definition dv_with_descs (l : list positive) (y : dbc_view) : dbc_view := DbcV (dv_env y) (dv_stmts y) l.
Definition sv_with (t : desc_desc_type) (d : positive) (v : stmt_view) : stmt_view :=
  if decide (t = DESC_PARAM) then StmtV (sv_dbc v) (sv_ard v) d (sv_ird v) (sv_ipd v) (sv_imp_ard v) (sv_imp_apd v)
  else StmtV (sv_dbc v) d (sv_apd v) (sv_ird v) (sv_ipd v) (sv_imp_ard v) (sv_imp_apd v).
Definition xv_with (l : list positive) (w : desc_view) : desc_view :=
  DescV (xv_alloc w) (xv_type w) (xv_ref w) (xv_stmt w) (xv_dbc w) l.
Definition xv_with_type (t : desc_desc_type) (w : desc_view) : desc_view :=
  DescV (xv_alloc w) t (xv_ref w) (xv_stmt w) (xv_dbc w) (xv_users w).

(** The descriptor a statement uses for parameters or rows, and its own. *)
Definition sv_used (t : desc_desc_type) (v : stmt_view) : positive := if decide (t = DESC_PARAM) then sv_apd v else sv_ard v.
Definition sv_imp (t : desc_desc_type) (v : stmt_view) : positive := if decide (t = DESC_PARAM) then sv_imp_apd v else sv_imp_ard v.
Definition sv_own (v : stmt_view) : list positive := [sv_imp_ard v; sv_ird v; sv_imp_apd v; sv_ipd v].

Definition explicit (w : desc_view) : Prop := xv_alloc w = SQL_DESC_ALLOC_USER.
Definition remove_user (s : positive) (w : desc_view) : desc_view :=
  if decide (xv_alloc w = SQL_DESC_ALLOC_USER) then xv_with (remove s (xv_users w)) w else w.
Definition add_user (s : positive) (w : desc_view) : desc_view :=
  if decide (xv_alloc w = SQL_DESC_ALLOC_USER) then xv_with (xv_users w ++ [s]) w else w.

(** ** Operations *)

Definition r_alloc_env (v : Z) (R : registry) : registry := on_next Pos.succ (on_env <[r_next R := EnvV v []]> R).
Definition r_free_env (e : positive) (R : registry) : registry := on_env (delete e) R.
Definition r_set_ver (e : positive) (v : Z) (R : registry) : registry := on_env (alter (λ x, EnvV v (ev_conns x)) e) R.

Definition r_alloc_dbc (e : positive) (R : registry) : registry :=
  let c := r_next R in
  on_next Pos.succ (on_dbc <[c := DbcV e [] []]> (on_env (alter (λ x, ev_with (ev_conns x ++ [c]) x) e) R)).

(** The descriptors of a connection go. *)
Definition r_free_descs (c : positive) (R : registry) : registry :=
  match r_dbc R !! c with
  | Some y => on_desc (λ m, foldr delete m (dv_descs y)) (on_dbc <[c := dv_with_descs [] y]> R)
  | None => R
  end.

Definition r_free_dbc (c : positive) (R : registry) : registry :=
  match r_dbc R !! c with
  | Some y => on_dbc (delete c) (r_free_descs c (on_env (alter (λ x, ev_with (remove c (ev_conns x)) x) (dv_env y)) R))
  | None => R
  end.

Definition r_alloc_stmt (c : positive) (R : registry) : registry :=
  let s := r_next R in
  let k1 := Pos.succ s in let k2 := Pos.succ k1 in let k3 := Pos.succ k2 in let k4 := Pos.succ k3 in
  let implicit r t := DescV SQL_DESC_ALLOC_AUTO t r (Some s) (Some c) [] in
  on_next (λ _, Pos.succ k4)
    (on_dbc (alter (λ y, dv_with_stmts (dv_stmts y ++ [s]) y) c)
      (on_stmt <[s := StmtV c k1 k3 k2 k4 k1 k3]>
        (on_desc (λ m, <[k4 := implicit DESC_IMP DESC_PARAM]> (<[k3 := implicit DESC_APP DESC_PARAM]>
                        (<[k2 := implicit DESC_IMP DESC_ROW]> (<[k1 := implicit DESC_APP DESC_ROW]> m)))) R))).

Definition r_free_stmt (s : positive) (R : registry) : registry :=
  match r_stmt R !! s with
  | Some v =>
    on_desc (λ m, delete (sv_ipd v) (delete (sv_imp_apd v) (delete (sv_ird v) (delete (sv_imp_ard v) m))))
      (on_stmt (delete s)
        (on_dbc (alter (λ y, dv_with_stmts (remove s (dv_stmts y)) y) (sv_dbc v))
          (on_desc (λ m, alter (remove_user s) (sv_ard v) (alter (remove_user s) (sv_apd v) m)) R)))
  | None => R
  end.

Definition r_alloc_desc (c : positive) (R : registry) : registry :=
  let d := r_next R in
  on_next Pos.succ (on_dbc (alter (λ y, dv_with_descs (dv_descs y ++ [d]) y) c)
    (on_desc <[d := DescV SQL_DESC_ALLOC_USER DESC_UNKNOWN DESC_APP None (Some c) []]> R)).

(** The statements that use a descriptor that is freed get their own back. *)
Definition r_free_desc (d : positive) (R : registry) : registry :=
  match r_desc R !! d with
  | Some w =>
    match xv_dbc w with
    | Some c =>
      on_desc (delete d)
        (on_stmt (λ m, foldr (λ s, alter (λ v, sv_with (xv_type w) (sv_imp (xv_type w) v) v) s) m (xv_users w))
          (on_dbc (alter (λ y, dv_with_descs (remove d (dv_descs y)) y) c) R))
    | None => R
    end
  | None => R
  end.

(** A statement takes a descriptor, or its own again. *)
Definition r_leave_desc (s : positive) (t : desc_desc_type) (R : registry) : registry :=
  match r_stmt R !! s with Some v => on_desc (alter (remove_user s) (sv_used t v)) R | None => R end.
Definition r_use_own (s : positive) (t : desc_desc_type) (R : registry) : registry :=
  on_stmt (alter (λ v, sv_with t (sv_imp t v) v) s) (r_leave_desc s t R).
Definition r_use_desc (s : positive) (t : desc_desc_type) (d : positive) (R : registry) : registry :=
  on_stmt (alter (sv_with t d) s) (on_desc (alter (λ w, xv_with_type t (add_user s w)) d) (r_leave_desc s t R)).

(** ** Lists and pointers agree *)

Definition implicit_desc (R : registry) (s : positive) (v : stmt_view) (k : positive) (r : desc_ref_type) (t : desc_desc_type) : Prop :=
  r_desc R !! k = Some (DescV SQL_DESC_ALLOC_AUTO t r (Some s) (Some (sv_dbc v)) []).

(** What a statement uses: a descriptor of its own for parameters or rows, or one
    of the application for its connection that lists it. *)
Definition uses (R : registry) (s : positive) (v : stmt_view) (t : desc_desc_type) (own : list positive) : Prop :=
  sv_used t v ∈ own ∨
  ∃ w, r_desc R !! sv_used t v = Some w ∧ explicit w ∧ xv_dbc w = Some (sv_dbc v) ∧ xv_type w = t ∧ s ∈ xv_users w.

Definition env_good (R : registry) (e : positive) (x : env_view) : Prop :=
  ev_ver x ≠ 0 ∧ NoDup (ev_conns x) ∧ ∀ c, c ∈ ev_conns x ↔ dv_env <$> r_dbc R !! c = Some e.
Definition dbc_good (R : registry) (c : positive) (y : dbc_view) : Prop :=
  is_Some (r_env R !! dv_env y) ∧
  NoDup (dv_stmts y) ∧ (∀ s, s ∈ dv_stmts y ↔ sv_dbc <$> r_stmt R !! s = Some c) ∧
  NoDup (dv_descs y) ∧ (∀ d, d ∈ dv_descs y ↔ ∃ w, r_desc R !! d = Some w ∧ explicit w ∧ xv_dbc w = Some c).
Definition stmt_good (R : registry) (s : positive) (v : stmt_view) : Prop :=
  is_Some (r_dbc R !! sv_dbc v) ∧
  implicit_desc R s v (sv_imp_ard v) DESC_APP DESC_ROW ∧ implicit_desc R s v (sv_ird v) DESC_IMP DESC_ROW ∧
  implicit_desc R s v (sv_imp_apd v) DESC_APP DESC_PARAM ∧ implicit_desc R s v (sv_ipd v) DESC_IMP DESC_PARAM ∧
  uses R s v DESC_PARAM [sv_imp_apd v; sv_ipd v] ∧ uses R s v DESC_ROW [sv_imp_ard v; sv_ird v].
Definition desc_good (R : registry) (d : positive) (w : desc_view) : Prop :=
  (xv_alloc w = SQL_DESC_ALLOC_AUTO ∧ ∃ s v, xv_stmt w = Some s ∧ r_stmt R !! s = Some v ∧ d ∈ sv_own v) ∨
  (explicit w ∧ xv_stmt w = None ∧ xv_ref w = DESC_APP ∧ (∃ c, xv_dbc w = Some c ∧ is_Some (r_dbc R !! c)) ∧
   ∀ s, s ∈ xv_users w → xv_type w ≠ DESC_UNKNOWN ∧
     ∃ v, r_stmt R !! s = Some v ∧ xv_dbc w = Some (sv_dbc v) ∧ sv_used (xv_type w) v = d).

Record good (R : registry) : Prop := {
  good_env : ∀ e x, r_env R !! e = Some x → env_good R e x ∧ (e < r_next R)%positive;
  good_dbc : ∀ c y, r_dbc R !! c = Some y → dbc_good R c y ∧ (c < r_next R)%positive;
  good_stmt : ∀ s v, r_stmt R !! s = Some v → stmt_good R s v ∧ (s < r_next R)%positive;
  good_desc : ∀ d w, r_desc R !! d = Some w → desc_good R d w ∧ (d < r_next R)%positive }.

(** ** Frames *)

(** Splits a lookup in a map that an operation changed. *)
Ltac lookups := repeat match goal with
  | H : <[_ := _]> _ !! _ = Some _ |- _ => apply lookup_insert_Some in H as [[? ?]|[? H]]; subst
  | H : delete _ _ !! _ = Some _ |- _ => apply lookup_delete_Some in H as [? H]
  | H : alter _ _ _ !! _ = Some _ |- _ => apply lookup_alter_Some in H as [(? & ? & H & ?)|[? H]]; subst
  end.

Lemma elem_of_remove s t l : t ∈ remove s l ↔ t ≠ s ∧ t ∈ l.
Proof. unfold remove. by rewrite list_elem_of_filter. Qed.
Lemma NoDup_remove s l : NoDup l → NoDup (remove s l).
Proof. apply NoDup_filter. Qed.
Lemma NoDup_add k (l : list positive) : NoDup l → k ∉ l → NoDup (l ++ [k]).
Proof. intros Hl Hk. apply NoDup_app. split; [done|]. split; [|apply NoDup_singleton]. intros x Hx ->%list_elem_of_singleton. done. Qed.

(** What a descriptor keeps for the statement that uses it. *)
Definition desc_kept (R R' : registry) (s k : positive) : Prop :=
  ∀ w, r_desc R !! k = Some w → ∃ w', r_desc R' !! k = Some w' ∧
    xv_alloc w' = xv_alloc w ∧ xv_dbc w' = xv_dbc w ∧ xv_type w' = xv_type w ∧ (xv_alloc w = SQL_DESC_ALLOC_AUTO → w' = w) ∧
    (s ∈ xv_users w → s ∈ xv_users w').

Lemma desc_kept_same R R' s k : r_desc R' !! k = r_desc R !! k → desc_kept R R' s k.
Proof. intros E w Hw. exists w. rewrite E. naive_solver. Qed.

Lemma implicit_frame R R' s v k r t : desc_kept R R' s k → implicit_desc R s v k r t → implicit_desc R' s v k r t.
Proof. unfold implicit_desc. intros Hk Hw. destruct (Hk _ Hw) as (w' & Hw' & _ & _ & _ & E & _). rewrite Hw'. f_equal. by apply E. Qed.

Lemma uses_frame R R' s v t own : desc_kept R R' s (sv_used t v) → uses R s v t own → uses R' s v t own.
Proof.
  intros Hk [Ho|(w & Hw & He & Hc & Ht & Hs)]; [by left|]. right. destruct (Hk w Hw) as (w' & Hw' & H1 & H2 & H3 & _ & H5).
  exists w'. unfold explicit in *. split_and!; [done|congruence..|auto].
Qed.

Lemma stmt_good_frame R R' s v :
  (∀ c, is_Some (r_dbc R !! c) → is_Some (r_dbc R' !! c)) → (∀ k, k ∈ sv_apd v :: sv_ard v :: sv_own v → desc_kept R R' s k) →
  stmt_good R s v → stmt_good R' s v.
Proof.
  intros Hc Hk (H1 & H2 & H3 & H4 & H5 & H6 & H7). unfold sv_own in Hk. split; [auto|].
  split_and!; first [by eapply implicit_frame; [apply Hk; set_solver|]
    | by eapply uses_frame; [|eassumption]; unfold sv_used; cbn [decide]; apply Hk; set_solver].
Qed.

Lemma desc_good_frame R R' d w :
  (∀ c, is_Some (r_dbc R !! c) → is_Some (r_dbc R' !! c)) → (∀ s v, r_stmt R !! s = Some v → r_stmt R' !! s = Some v) →
  desc_good R d w → desc_good R' d w.
Proof.
  intros Hc Hs [(Ha & s & v & H1 & H2 & H3)|(He & H1 & H2 & (c & H3 & H4) & H5)].
  - left. split; [done|]. exists s, v. auto.
  - right. split_and!; [done..|eauto|]. intros s Hin. destruct (H5 s Hin) as (Ht & v & Hv & Hd & Hu). split; [done|]. exists v. auto.
Qed.

(** The parts of [good] at a handle. *)
Lemma live_dbc_env R c y : good R → r_dbc R !! c = Some y → is_Some (r_env R !! dv_env y).
Proof. intros HR Hc. by destruct (good_dbc R HR c y Hc) as [[? _] _]. Qed.
Lemma live_stmt_dbc R s v : good R → r_stmt R !! s = Some v → is_Some (r_dbc R !! sv_dbc v).
Proof. intros HR Hs. by destruct (good_stmt R HR s v Hs) as [[? _] _]. Qed.

(** A key that has not been given out is the key of nothing. *)
Lemma next_fresh R : good R →
  r_env R !! r_next R = None ∧ r_dbc R !! r_next R = None ∧ r_stmt R !! r_next R = None ∧
  ∀ k, (r_next R ≤ k)%positive → r_desc R !! k = None.
Proof.
  intros HR. split_and!.
  - destruct (r_env R !! _) eqn:E; [|done]. apply (good_env R HR) in E as [_ E]. lia.
  - destruct (r_dbc R !! _) eqn:E; [|done]. apply (good_dbc R HR) in E as [_ E]. lia.
  - destruct (r_stmt R !! _) eqn:E; [|done]. apply (good_stmt R HR) in E as [_ E]. lia.
  - intros k Hk. destruct (r_desc R !! k) eqn:E; [|done]. apply (good_desc R HR) in E as [_ E]. lia.
Qed.

(** ** Environments *)

Lemma good_alloc_env v R : v ≠ 0 → good R → good (r_alloc_env v R).
Proof.
  intros Hv HR. pose proof HR as [He Hc Hs Hd]. split; cbn.
  - intros e x H. lookups.
    + split; [|lia]. split; [done|]. split; [constructor|]. intros c. split; [by intros ?%elem_of_nil|].
      intros Hx. apply fmap_Some in Hx as (y & Hy & Heq). apply (live_dbc_env R) in Hy as [x Hx]; [|done].
      rewrite <- Heq in Hx. destruct (next_fresh R HR) as [Hn _]. congruence.
    + apply He in H as [? ?]. split; [done|lia].
  - intros c y H. apply Hc in H as [(H1 & H2) ?]. split; [|lia]. split; [|done]. cbn.
    destruct (decide (dv_env y = r_next R)) as [->|]; [rewrite lookup_insert_eq; eauto|by rewrite lookup_insert_ne].
  - intros s w H. apply Hs in H as [? ?]. split; [done|lia].
  - intros d w H. apply Hd in H as [? ?]. split; [done|lia].
Qed.

Lemma good_free_env e x R : r_env R !! e = Some x → ev_conns x = [] → good R → good (r_free_env e R).
Proof.
  intros Hx Hn HR. pose proof HR as [He Hc Hs Hd]. split; cbn; [|intros c y H|done..].
  - intros e' x' H. lookups. by apply He in H.
  - apply Hc in H as H'. destruct H' as [(H1 & H2) ?]. split; [|done]. split; [|done]. cbn.
    destruct (decide (dv_env y = e)) as [Heq|]; [|by rewrite lookup_delete_ne].
    destruct (He e x Hx) as [(_ & _ & Hl) _]. assert (c ∈ ev_conns x) as Hin by (apply Hl; rewrite H; cbn; by f_equal).
    rewrite Hn in Hin. by apply elem_of_nil in Hin.
Qed.

Lemma good_set_ver e v R : v ≠ 0 → good R → good (r_set_ver e v R).
Proof.
  intros Hv HR. pose proof HR as [He Hc Hs Hd]. split; cbn; [|intros c y H|done..].
  - intros e' x' H. lookups; apply He in H as [(H1 & H2 & H3) ?]; done.
  - apply Hc in H as [(H1 & H2) ?]. split; [|done]. split; [|done]. cbn. by rewrite lookup_alter_is_Some.
Qed.

(** ** Connections *)

Lemma good_alloc_dbc e R : is_Some (r_env R !! e) → good R → good (r_alloc_dbc e R).
Proof.
  intros [x0 Hx0] HR. pose proof HR as [He Hc Hs Hd]. destruct (next_fresh R HR) as (_ & Hnew & _ & _).
  assert (∀ c, is_Some (r_dbc R !! c) → is_Some (r_dbc (r_alloc_dbc e R) !! c)) as Hlive.
  { intros c [y Hy]. cbn. rewrite lookup_insert_ne by congruence. eauto. }
  split; cbn.
  - intros e' x H. lookups.
    + apply He in H as [(H1 & H2 & H3) ?]. split; [|lia]. split; [done|]. cbn. split.
      * apply NoDup_add; [done|]. rewrite H3. rewrite Hnew. done.
      * intros c. rewrite elem_of_app, list_elem_of_singleton, H3. destruct (decide (c = r_next R)) as [->|Hne].
        -- rewrite lookup_insert_eq. cbn. tauto.
        -- rewrite lookup_insert_ne by done. tauto.
    + apply He in H as [(H1 & H2 & H3) ?]. split; [|lia]. split; [done|]. split; [done|]. intros c. rewrite H3. cbn.
      destruct (decide (c = r_next R)) as [->|]; [|by rewrite lookup_insert_ne]. rewrite lookup_insert_eq, Hnew. cbn. split; [done|congruence].
  - intros c y H. lookups.
    + split; [|lia]. split; [cbn; rewrite lookup_alter_is_Some; eauto|]. split; [constructor|]. split; [|split; [constructor|]].
      * intros s. split; [by intros ?%elem_of_nil|]. intros (v & Hv & Heq)%fmap_Some. destruct (live_stmt_dbc R s v HR Hv) as [y Hy]. congruence.
      * intros d. split; [by intros ?%elem_of_nil|]. intros (w & Hw & Hx & Hdc).
        destruct (Hd d w Hw) as [[(Ha & _)|(_ & _ & _ & (c & Hc1 & [y Hy]) & _)] _]; [unfold explicit in Hx; rewrite Ha in Hx; discriminate Hx|]. congruence.
    + apply Hc in H as [(H1 & H2) ?]. split; [|lia]. split; [|done]. cbn. by rewrite lookup_alter_is_Some.
  - intros s v H. apply Hs in H as [H ?]. split; [|lia]. eapply stmt_good_frame; [exact Hlive| |exact H].
    intros k _. by apply desc_kept_same.
  - intros d w H. apply Hd in H as [H ?]. split; [|lia]. by eapply desc_good_frame; [exact Hlive| |exact H].
Qed.

(** A descriptor of the application that a statement uses is one of its connection. *)
Lemma implicit_not_explicit R s v k r t w : implicit_desc R s v k r t → r_desc R !! k = Some w → ¬ explicit w.
Proof. unfold implicit_desc. intros Hi Hw. rewrite Hw in Hi. injection Hi as ->. discriminate. Qed.

Lemma own_not_explicit R s v k w : stmt_good R s v → k ∈ sv_own v → r_desc R !! k = Some w → ¬ explicit w.
Proof.
  intros (_ & G1 & G2 & G3 & G4 & _) Hk Hw. unfold sv_own in Hk.
  repeat (apply elem_of_cons in Hk as [->|Hk]; [by eapply implicit_not_explicit; [|exact Hw]; eassumption|]). by apply elem_of_nil in Hk.
Qed.

Lemma used_of_dbc R s v k w :
  stmt_good R s v → k ∈ sv_apd v :: sv_ard v :: sv_own v → r_desc R !! k = Some w → explicit w →
  xv_dbc w = Some (sv_dbc v) ∧ s ∈ xv_users w.
Proof.
  intros HG Hk Hw Hx. assert (k ∉ sv_own v) as Ho by (intros Ho; by eapply own_not_explicit in Hx). pose proof HG as (_ & _ & _ & _ & _ & G5 & G6).
  apply elem_of_cons in Hk as [->|Hk]; [|apply elem_of_cons in Hk as [->|Hk]; [|done]].
  - destruct G5 as [Hi|(w' & Hw' & _ & Hdc & _ & Hs)].
    + exfalso. apply Ho. change (sv_used DESC_PARAM v) with (sv_apd v) in Hi. unfold sv_own. set_solver.
    + change (sv_used DESC_PARAM v) with (sv_apd v) in Hw'. assert (w' = w) as -> by congruence. done.
  - destruct G6 as [Hi|(w' & Hw' & _ & Hdc & _ & Hs)].
    + exfalso. apply Ho. change (sv_used DESC_ROW v) with (sv_ard v) in Hi. unfold sv_own. set_solver.
    + change (sv_used DESC_ROW v) with (sv_ard v) in Hw'. assert (w' = w) as -> by congruence. done.
Qed.

(** A connection without statements: its descriptors are used by nobody. *)
Lemma good_free_descs c y R : r_dbc R !! c = Some y → dv_stmts y = [] → good R → good (r_free_descs c R).
Proof.
  intros Hy Hn HR. pose proof HR as [He Hc Hs Hd]. unfold r_free_descs. rewrite Hy.
  destruct (Hc c y Hy) as [(H1 & H2 & H3 & H4 & H5) Hlt]. rewrite Hn in H3.
  assert (∀ s v, r_stmt R !! s = Some v → sv_dbc v ≠ c) as Hno.
  { intros s v Hv Heq. assert (s ∈ @nil positive) as Hin by (apply H3; rewrite Hv; cbn; by f_equal). by apply elem_of_nil in Hin. }
  assert (∀ c', is_Some (r_dbc R !! c') → is_Some (<[c:=dv_with_descs [] y]> (r_dbc R) !! c')) as Hlive.
  { intros c' Hx. destruct (decide (c' = c)) as [->|]; [rewrite lookup_insert_eq; eauto|by rewrite lookup_insert_ne]. }
  assert (∀ k w, r_desc R !! k = Some w → ¬ (explicit w ∧ xv_dbc w = Some c) → foldr delete (r_desc R) (dv_descs y) !! k = Some w) as Hkeep.
  { intros k w Hw Hx. rewrite lookup_foldr_delete_not_elem_of; [done|]. rewrite H5. intros (w' & Hw' & Hx'). naive_solver. }
  split; cbn.
  - intros e x H. apply He in H as [(G1 & G2 & G3) ?]. split; [|done]. split; [done|]. split; [done|]. intros c'. rewrite G3.
    cbn. destruct (decide (c' = c)) as [->|]; [rewrite lookup_insert_eq, Hy; done|by rewrite lookup_insert_ne].
  - intros c' y' H. lookups.
    + split; [|done]. split; [done|]. cbn. rewrite Hn. split; [constructor|]. split; [done|]. split; [constructor|].
      intros d. split; [by intros ?%elem_of_nil|]. intros (w & Hw & Hx).
      destruct (decide (d ∈ dv_descs y)) as [Hin|Hin]; [by rewrite lookup_foldr_delete in Hw|].
      rewrite lookup_foldr_delete_not_elem_of in Hw by done. exfalso. apply Hin, H5. by exists w.
    + apply Hc in H as [(G1 & G2 & G3 & G4 & G5) ?]. split; [|done]. split_and!; [done..|]. intros d. rewrite G5. cbn. split.
      * intros (w & Hw & Hx & Hdc). exists w. split; [|done]. apply Hkeep; [done|]. intros [_ ?]. congruence.
      * intros (w & Hw & Hx). exists w. split; [|done]. destruct (decide (d ∈ dv_descs y)) as [Hin|Hin]; [by rewrite lookup_foldr_delete in Hw|].
        by rewrite lookup_foldr_delete_not_elem_of in Hw.
  - intros s v H. apply Hs in H as H'. destruct H' as [H' ?]. split; [|done]. eapply stmt_good_frame; [exact Hlive| |exact H'].
    intros k Hk w Hw. exists w. split; [|done]. cbn. apply Hkeep; [done|].
    intros [Hx Hxc]. apply (Hno s v H). assert (xv_dbc w = Some (sv_dbc v)); [|congruence]. by apply (used_of_dbc R s v k).
  - intros d w H. assert (r_desc R !! d = Some w) as Hw.
    { destruct (decide (d ∈ dv_descs y)) as [Hin|Hin]; [by rewrite lookup_foldr_delete in H|]. by rewrite lookup_foldr_delete_not_elem_of in H. }
    apply Hd in Hw as [Hw ?]. split; [|done]. by eapply desc_good_frame; [exact Hlive| |exact Hw].
Qed.

(** A connection that has nothing left goes. *)
Lemma good_delete_dbc c y R :
  r_dbc R !! c = Some y → dv_stmts y = [] → dv_descs y = [] → good R →
  good (on_dbc (delete c) (on_env (alter (λ x, ev_with (remove c (ev_conns x)) x) (dv_env y)) R)).
Proof.
  intros Hy Hn Hm HR. pose proof HR as [He Hc Hs Hd].
  destruct (Hc c y Hy) as [(H1 & H2 & H3 & H4 & H5) Hlt]. rewrite Hn in H3. rewrite Hm in H5.
  assert (∀ s v, r_stmt R !! s = Some v → is_Some (delete c (r_dbc R) !! sv_dbc v)) as Hlive.
  { intros s v Hv. destruct (live_stmt_dbc R s v HR Hv) as [y' Hy']. rewrite lookup_delete_ne; [eauto|]. intros Heq.
    assert (s ∈ @nil positive) as Hin by (apply H3; rewrite Hv; cbn; by rewrite Heq). by apply elem_of_nil in Hin. }
  split; cbn.
  - intros e x H. lookups.
    + apply He in H as [(G1 & G2 & G3) ?]. split; [|done]. split; [done|]. split; [by apply NoDup_remove|]. cbn. intros c'.
      rewrite elem_of_remove, G3. destruct (decide (c' = c)) as [->|]; [rewrite lookup_delete_eq; naive_solver|].
      rewrite lookup_delete_ne by done. tauto.
    + apply He in H as [(G1 & G2 & G3) ?]. split; [|done]. split; [done|]. split; [done|]. cbn. intros c'. rewrite G3.
      destruct (decide (c' = c)) as [->|]; [|by rewrite lookup_delete_ne]. rewrite lookup_delete_eq, Hy. cbn. split; [congruence|done].
  - intros c' y' H. lookups. apply Hc in H as [(G1 & G2) ?]. split; [|done]. split; [|done]. cbn. by rewrite lookup_alter_is_Some.
  - intros s v H. apply Hs in H as H'. destruct H' as [(G1 & G2) ?]. split; [|done]. split; [by eapply Hlive|done].
  - intros d w H. apply Hd in H as H'. destruct H' as [[Ha|(Hx & G1 & G2 & (c' & G3 & [y' G4]) & G5)] ?]; (split; [|done]); [by left|right].
    split; [done|]. split; [done|]. split; [done|]. split; [|done]. exists c'. split; [done|].
    cbn. rewrite lookup_delete_ne; [eauto|]. intros ->. assert (d ∈ @nil positive) as Hin by (apply H5; eauto). by apply elem_of_nil in Hin.
Qed.

Lemma good_free_dbc c y R : r_dbc R !! c = Some y → dv_stmts y = [] → good R → good (r_free_dbc c R).
Proof.
  intros Hy Hn HR. pose proof (good_free_descs c y R Hy Hn HR) as HG. unfold r_free_dbc. rewrite Hy.
  eapply (good_delete_dbc c (dv_with_descs [] y)) in HG; [|unfold r_free_descs; rewrite Hy; apply lookup_insert_eq|done|done].
  unfold r_free_descs in *. rewrite Hy in HG. cbn in *. rewrite Hy. exact HG.
Qed.

(** ** Statements *)

Lemma good_alloc_stmt c R : is_Some (r_dbc R !! c) → good R → good (r_alloc_stmt c R).
Proof.
  intros [y0 Hy0] HR. pose proof HR as [He Hc Hs Hd]. destruct (next_fresh R HR) as (_ & _ & Hsn & Hdn).
  set (R' := r_alloc_stmt c R). set (n := r_next R) in *.
  assert (∀ c', dv_env <$> r_dbc R' !! c' = dv_env <$> r_dbc R !! c') as Henv.
  { intros c'. cbn. rewrite lookup_alter. case_decide as E; [subst c'; by rewrite Hy0|done]. }
  assert (∀ c', is_Some (r_dbc R !! c') → is_Some (r_dbc R' !! c')) as Hlive by (intros c' H; cbn; by rewrite lookup_alter_is_Some).
  assert (∀ k w, r_desc R !! k = Some w → r_desc R' !! k = Some w) as Hkeep.
  { intros k w Hw. assert (k < n)%positive as Hlt by by apply Hd in Hw as [_ ?]. cbn. rewrite !lookup_insert_ne by lia. done. }
  assert (∀ s v, r_stmt R !! s = Some v → r_stmt R' !! s = Some v) as Hskeep.
  { intros s v Hv. cbn. rewrite lookup_insert_ne; [done|]. intros <-. fold n in Hv. congruence. }
  split.
  - intros e x H. apply He in H as [(H1 & H2 & H3) ?]. split; [|cbn; lia]. split; [done|]. split; [done|]. intros c'. by rewrite Henv, H3.
  - intros c' y H. cbn in H. lookups; apply Hc in H as [(H1 & H2 & H3 & H4 & H5) ?]; (split; [|cbn; lia]).
    + split; [done|]. cbn. split; [apply NoDup_add; [done|]; rewrite H3; fold n; by rewrite Hsn|]. split; [|split; [done|]].
      * intros s. rewrite elem_of_app, list_elem_of_singleton, H3. fold n. destruct (decide (s = n)) as [->|].
        -- rewrite lookup_insert_eq. cbn. tauto.
        -- rewrite lookup_insert_ne by done. tauto.
      * intros d. rewrite H5. split; [intros (w & Hw & Hx); exists w; split; [by apply (Hkeep d w)|done]|].
        intros (w & Hw & Hx & Hdc). lookups; try discriminate Hx. eauto.
    + split; [done|]. cbn. split; [done|]. split; [|split; [done|]].
      * intros s. rewrite H3. fold n. destruct (decide (s = n)) as [->|]; [|by rewrite lookup_insert_ne].
        rewrite lookup_insert_eq, Hsn. cbn. split; [done|congruence].
      * intros d. rewrite H5. split; [intros (w & Hw & Hx); exists w; split; [by apply (Hkeep d w)|done]|].
        intros (w & Hw & Hx & Hdc). lookups; try discriminate Hx. eauto.
  - intros s v H. cbn in H. lookups.
    + split; [|cbn; fold n; lia]. split; [apply Hlive; eauto|]. fold n. unfold implicit_desc. cbn. fold n.
      rewrite !lookup_insert_eq. repeat (rewrite lookup_insert_ne by lia; rewrite ?lookup_insert_eq).
      split_and!; try done; left; unfold sv_used; cbn [decide]; set_solver.
    + apply Hs in H as [H ?]. split; [|cbn; lia]. eapply stmt_good_frame; [exact Hlive| |exact H].
      intros k _ w Hw. exists w. split; [by apply Hkeep|done].
  - intros d w H. cbn in H. lookups.
    5: { apply Hd in H as [H ?]. split; [|cbn; lia]. by eapply desc_good_frame; [exact Hlive|exact Hskeep|exact H]. }
    all: split; [|cbn; fold n; lia]; left; split; [done|]; eexists _, _; split; [done|]; split; [apply lookup_insert_eq|]; unfold sv_own; cbn; fold n; set_solver.
Qed.

(** What removing a user leaves of a descriptor. *)
Definition shrunk (s : positive) (w w' : desc_view) : Prop :=
  xv_alloc w' = xv_alloc w ∧ xv_type w' = xv_type w ∧ xv_ref w' = xv_ref w ∧ xv_stmt w' = xv_stmt w ∧ xv_dbc w' = xv_dbc w ∧
  (xv_alloc w = SQL_DESC_ALLOC_AUTO → w' = w) ∧ (∀ t, t ∈ xv_users w' → t ∈ xv_users w) ∧
  ∀ t, t ≠ s → t ∈ xv_users w → t ∈ xv_users w'.

Lemma shrunk_refl s w : shrunk s w w.
Proof. unfold shrunk. naive_solver. Qed.
Lemma shrunk_trans s w1 w2 w3 : shrunk s w1 w2 → shrunk s w2 w3 → shrunk s w1 w3.
Proof.
  intros (A1 & A2 & A3 & A4 & A5 & A6 & A7 & A8) (B1 & B2 & B3 & B4 & B5 & B6 & B7 & B8). unfold shrunk.
  split_and!; try congruence; [|auto..]. intros Ha. rewrite B6 by congruence. auto.
Qed.

Lemma shrunk_remove s w : shrunk s w (remove_user s w) ∧ (explicit w → s ∉ xv_users (remove_user s w)).
Proof.
  unfold remove_user, explicit. case_decide as Ha.
  - split; [|intros _; cbn; rewrite elem_of_remove; tauto]. unfold shrunk, xv_with; cbn. do 5 (split; [done|]).
    split; [by rewrite Ha|]. split; intros t; rewrite elem_of_remove; tauto.
  - split; [apply shrunk_refl|done].
Qed.

Lemma leave_inv s a (m : gmap positive desc_view) k w' :
  alter (remove_user s) a m !! k = Some w' →
  ∃ w, m !! k = Some w ∧ shrunk s w w' ∧ (k = a → explicit w → s ∉ xv_users w').
Proof.
  intros H. apply lookup_alter_Some in H as [(-> & w & Hw & ->)|[Hne H]].
  - exists w. destruct (shrunk_remove s w) as [H1 H2]. auto.
  - exists w'. split; [done|]. split; [apply shrunk_refl|]. intros ->. done.
Qed.

Lemma leave_fwd s a (m : gmap positive desc_view) k w :
  m !! k = Some w → ∃ w', alter (remove_user s) a m !! k = Some w' ∧ shrunk s w w'.
Proof.
  intros H. destruct (decide (k = a)) as [->|Hne].
  - rewrite lookup_alter_eq, H. exists (remove_user s w). split; [done|apply shrunk_remove].
  - rewrite lookup_alter_ne by done. exists w. split; [done|apply shrunk_refl].
Qed.

Lemma shrunk_kept R R' s s' k :
  s' ≠ s → (∀ w, r_desc R !! k = Some w → ∃ w', r_desc R' !! k = Some w' ∧ shrunk s w w') → desc_kept R R' s' k.
Proof.
  intros Hne H w Hw. destruct (H w Hw) as (w' & Hw' & A1 & A2 & A3 & A4 & A5 & A6 & A7 & A8). exists w'. split_and!; auto.
Qed.

(** The statements of a descriptor that was shrunk, when one of them goes. *)
Lemma desc_good_shrunk R R' s d w w' :
  shrunk s w w' → (∀ c, is_Some (r_dbc R !! c) → is_Some (r_dbc R' !! c)) →
  (∀ t v, t ≠ s → r_stmt R !! t = Some v → r_stmt R' !! t = Some v) → (explicit w → s ∉ xv_users w') →
  (xv_alloc w = SQL_DESC_ALLOC_AUTO → xv_stmt w ≠ Some s) → desc_good R d w → desc_good R' d w'.
Proof.
  intros (A1 & A2 & A3 & A4 & A5 & A6 & A7 & A8) Hc Hs Hns Hown [(Ha & t & v & H1 & H2 & H3)|(He & H1 & H2 & (c & H3 & H4) & H5)].
  - left. rewrite A6 by done. split; [done|]. exists t, v. split; [done|]. split; [|done]. apply Hs; [|done]. intros ->. by apply Hown.
  - right. unfold explicit in *. rewrite A1, A2, A3, A4, A5. split_and!; [done..|eauto|]. intros t Hin.
    destruct (H5 t (A7 t Hin)) as (Ht & v & Hv & Hd & Hu). split; [done|]. exists v. split; [|done]. apply Hs; [|done]. intros ->. by apply Hns.
Qed.

(** The descriptors a statement owns are its own. *)
Lemma own_implicit R s v k : stmt_good R s v → k ∈ sv_own v → ∃ w, r_desc R !! k = Some w ∧ xv_alloc w = SQL_DESC_ALLOC_AUTO ∧ xv_stmt w = Some s.
Proof.
  intros (_ & G1 & G2 & G3 & G4 & _) Hk. unfold sv_own, implicit_desc in *.
  repeat (apply elem_of_cons in Hk as [->|Hk]; [eexists; split; [eassumption|done]|]). by apply elem_of_nil in Hk.
Qed.

Lemma own_stmt R s v d w : good R → r_desc R !! d = Some w → xv_alloc w = SQL_DESC_ALLOC_AUTO → xv_stmt w = Some s →
  r_stmt R !! s = Some v → d ∈ sv_own v.
Proof.
  intros HR Hd Ha Hs Hv. destruct (good_desc R HR d w Hd) as [[(_ & t & v' & H1 & H2 & H3)|(He & H1 & _)] _]; [|congruence].
  assert (t = s) as -> by congruence. by assert (v' = v) as -> by congruence.
Qed.

(** The descriptors after a statement has been freed. *)
Lemma free_stmt_desc_inv R s v k w' :
  r_stmt R !! s = Some v → r_desc (r_free_stmt s R) !! k = Some w' →
  k ∉ sv_own v ∧ ∃ w, r_desc R !! k = Some w ∧ shrunk s w w' ∧ (k = sv_apd v ∨ k = sv_ard v → explicit w → s ∉ xv_users w').
Proof.
  intros Hv H. unfold r_free_stmt in H. rewrite Hv in H. cbn in H.
  apply lookup_delete_Some in H as [N1 H]. apply lookup_delete_Some in H as [N2 H].
  apply lookup_delete_Some in H as [N3 H]. apply lookup_delete_Some in H as [N4 H].
  split; [unfold sv_own; set_solver|]. apply leave_inv in H as (w1 & H & S1 & X1). apply leave_inv in H as (w & H & S2 & X2).
  exists w. split; [done|]. split; [by eapply shrunk_trans|]. destruct S1 as (A1 & _ & _ & _ & _ & _ & A7 & _), S2 as (B1 & _).
  intros [-> | ->] Hx.
  - intros Hin. by apply (X2 eq_refl Hx), A7.
  - apply X1; [done|]. unfold explicit in *. congruence.
Qed.

Lemma free_stmt_desc_fwd R s v k w :
  r_stmt R !! s = Some v → k ∉ sv_own v → r_desc R !! k = Some w → ∃ w', r_desc (r_free_stmt s R) !! k = Some w' ∧ shrunk s w w'.
Proof.
  intros Hv Hk Hw. unfold r_free_stmt. rewrite Hv. cbn. unfold sv_own in Hk.
  rewrite !lookup_delete_ne by (intros Heq; apply Hk; rewrite <- Heq; set_solver). destruct (leave_fwd s (sv_apd v) _ _ _ Hw) as (w1 & Hw1 & S1).
  destruct (leave_fwd s (sv_ard v) _ _ _ Hw1) as (w2 & Hw2 & S2). exists w2. split; [done|]. by eapply shrunk_trans.
Qed.

(** What another statement uses is not owned by this one. *)
Lemma used_not_owned R s v s' v' k :
  good R → r_stmt R !! s = Some v → r_stmt R !! s' = Some v' → s' ≠ s → k ∈ sv_apd v' :: sv_ard v' :: sv_own v' → k ∉ sv_own v.
Proof.
  intros HR Hv Hv' Hne Hk Ho. destruct (good_stmt R HR s v Hv) as [HG _]. destruct (good_stmt R HR s' v' Hv') as [HG' _].
  destruct (own_implicit R s v k HG Ho) as (w & Hw & Ha & Hs).
  assert (k ∈ sv_own v') as Ho'.
  { destruct HG' as (_ & _ & _ & _ & _ & G5 & G6). unfold uses in *.
    change (sv_used DESC_PARAM v') with (sv_apd v') in G5. change (sv_used DESC_ROW v') with (sv_ard v') in G6.
    apply elem_of_cons in Hk as [->|Hk]; [|apply elem_of_cons in Hk as [->|Hk]; [|done]].
    - destruct G5 as [Hi|(w' & Hw' & Hx & _)]; [unfold sv_own; set_solver|]. unfold explicit in Hx. assert (w' = w) as -> by congruence. by rewrite Ha in Hx.
    - destruct G6 as [Hi|(w' & Hw' & Hx & _)]; [unfold sv_own; set_solver|]. unfold explicit in Hx. assert (w' = w) as -> by congruence. by rewrite Ha in Hx. }
  destruct (own_implicit R s' v' k HG' Ho') as (w' & Hw' & _ & Hs'). congruence.
Qed.

Lemma good_free_stmt s R : is_Some (r_stmt R !! s) → good R → good (r_free_stmt s R).
Proof.
  intros [v Hv] HR. pose proof HR as [He Hc Hs Hd]. set (R' := r_free_stmt s R).
  assert (r_env R' = r_env R ∧ r_next R' = r_next R ∧ r_stmt R' = delete s (r_stmt R) ∧
    r_dbc R' = alter (λ y, dv_with_stmts (remove s (dv_stmts y)) y) (sv_dbc v) (r_dbc R)) as (Ee & En & Es & Ec).
  { subst R'. unfold r_free_stmt. by rewrite Hv. }
  assert (∀ c, is_Some (r_dbc R !! c) → is_Some (r_dbc R' !! c)) as Hlive by (intros c H; rewrite Ec; by rewrite lookup_alter_is_Some).
  assert (∀ c, dv_env <$> r_dbc R' !! c = dv_env <$> r_dbc R !! c) as Henv.
  { intros c. rewrite Ec, lookup_alter. case_decide as E; [subst c|done]. by destruct (r_dbc R !! _). }
  assert (∀ c d, (∃ w, r_desc R' !! d = Some w ∧ explicit w ∧ xv_dbc w = Some c) ↔ ∃ w, r_desc R !! d = Some w ∧ explicit w ∧ xv_dbc w = Some c) as Hex.
  { intros c d. unfold explicit. split.
    - intros (w' & Hw' & Hx & Hdc). destruct (free_stmt_desc_inv R s v d w' Hv Hw') as (_ & w & Hw & (A1 & _ & _ & _ & A5 & _) & _).
      exists w. split_and!; [done|congruence..].
    - intros (w & Hw & Hx & Hdc). destruct (free_stmt_desc_fwd R s v d w Hv) as (w' & Hw' & A1 & _ & _ & _ & A5 & _); [|done|].
      + intros Ho. destruct (good_stmt R HR s v Hv) as [HG _]. by eapply own_not_explicit.
      + exists w'. split_and!; [done|congruence..]. }
  split.
  - intros e x H. rewrite Ee in H. apply He in H as [(H1 & H2 & H3) ?]. rewrite En. split; [|done]. split; [done|]. split; [done|].
    intros c. by rewrite Henv, H3.
  - intros c y H. rewrite Ec in H. rewrite En. lookups; apply Hc in H as [(H1 & H2 & H3 & H4 & H5) ?]; (split; [|done]);
      (split; [by rewrite Ee|]); cbn.
    + split; [by apply NoDup_remove|]. split; [|split; [done|intros d; by rewrite Hex, H5]]. intros t. rewrite elem_of_remove, H3, Es.
      destruct (decide (t = s)) as [->|]; [rewrite lookup_delete_eq; naive_solver|]. rewrite lookup_delete_ne by done. tauto.
    + split; [done|]. split; [|split; [done|intros d; by rewrite Hex, H5]]. intros t. rewrite H3, Es.
      destruct (decide (t = s)) as [->|]; [|by rewrite lookup_delete_ne]. rewrite lookup_delete_eq, Hv. cbn. split; [congruence|done].
  - intros t u H. rewrite Es in H. rewrite En. apply lookup_delete_Some in H as [Hne H]. destruct (Hs t u H) as [HG ?]. split; [|done].
    eapply stmt_good_frame; [exact Hlive| |exact HG]. intros k Hk. apply (shrunk_kept _ _ s); [done|]. intros w Hw.
    apply (free_stmt_desc_fwd R s v k w Hv); [|done]. by eapply used_not_owned.
  - intros d w' H. rewrite En. destruct (free_stmt_desc_inv R s v d w' Hv H) as (Ho & w & Hw & Hsh & Hn). destruct (Hd d w Hw) as [HG ?].
    split; [|done]. eapply (desc_good_shrunk R R' s); [exact Hsh|exact Hlive| | | |exact HG].
    + intros t u Hne Hu. rewrite Es. by rewrite lookup_delete_ne.
    + intros Hx Hin. destruct Hsh as (A1 & A2 & _ & _ & _ & _ & A7 & _). destruct HG as [(Ha & _)|(_ & _ & _ & _ & H5)]; [unfold explicit in Hx; by rewrite Ha in Hx|].
      destruct (H5 s (A7 s Hin)) as (Ht & v0 & Hv0 & _ & Hu). assert (v0 = v) as -> by congruence. apply Hn; [|done|done].
      unfold sv_used in Hu. destruct (decide _); auto.
    + intros Ha Hst. apply Ho. by eapply own_stmt.
Qed.

(** ** Descriptors of the application *)

Lemma good_alloc_desc c R : is_Some (r_dbc R !! c) → good R → good (r_alloc_desc c R).
Proof.
  intros [y0 Hy0] HR. pose proof HR as [He Hc Hs Hd]. destruct (next_fresh R HR) as (_ & _ & _ & Hdn). set (R' := r_alloc_desc c R).
  assert (r_desc R !! r_next R = None) as Hnew by (apply Hdn; lia).
  assert (∀ c', is_Some (r_dbc R !! c') → is_Some (r_dbc R' !! c')) as Hlive by (intros c' H; cbn; by rewrite lookup_alter_is_Some).
  assert (∀ k w, r_desc R !! k = Some w → r_desc R' !! k = Some w) as Hkeep.
  { intros k w Hw. cbn. rewrite lookup_insert_ne; [done|]. intros <-. congruence. }
  split; cbn.
  - intros e x H. apply He in H as [(H1 & H2 & H3) ?]. split; [|lia]. split; [done|]. split; [done|]. intros c'. rewrite H3. cbn.
    rewrite lookup_alter. case_decide as E; [subst c'; by rewrite Hy0|done].
  - intros c' y H. lookups; apply Hc in H as [(H1 & H2 & H3 & H4 & H5) ?]; (split; [|lia]); (split; [done|]); cbn; (split; [done|]); (split; [done|]).
    + split; [apply NoDup_add; [done|]; rewrite H5; intros (w & Hw & _); congruence|]. intros d. rewrite elem_of_app, list_elem_of_singleton, H5.
      split; [intros [(w & Hw & Hx)| -> ]|intros (w & Hw & Hx & Hdc)].
      * exists w. split; [by apply Hkeep|done].
      * rewrite lookup_insert_eq. eexists. done.
      * lookups; [by right|left]. eauto.
    + split; [done|]. intros d. rewrite H5. split; [intros (w & Hw & Hx); exists w; split; [by apply Hkeep|done]|].
      intros (w & Hw & Hx & Hdc). lookups; [cbn in Hdc; congruence|]. eauto.
  - intros s v H. apply Hs in H as [H ?]. split; [|lia]. eapply stmt_good_frame; [exact Hlive| |exact H].
    intros k _ w Hw. exists w. split; [by apply Hkeep|done].
  - intros d w H. lookups.
    + split; [|lia]. right. split_and!; try done; [exists c; split; [done|apply Hlive; eauto]|]. by intros s ?%elem_of_nil.
    + apply Hd in H as [H ?]. split; [|lia]. by eapply desc_good_frame; [exact Hlive| |exact H].
Qed.

(** A statement that takes another descriptor keeps its own ones. *)
Lemma sv_own_with t d v : sv_own (sv_with t d v) = sv_own v.
Proof. unfold sv_with. by destruct (decide _). Qed.
Lemma sv_dbc_with t d v : sv_dbc (sv_with t d v) = sv_dbc v.
Proof. unfold sv_with. by destruct (decide _). Qed.
Lemma sv_used_with t d v : sv_used t (sv_with t d v) = d.
Proof. unfold sv_with, sv_used. by destruct (decide _). Qed.
Lemma sv_used_other t t' d v :
  t ≠ DESC_UNKNOWN → t' ≠ DESC_UNKNOWN → t' ≠ t → sv_used t' (sv_with t d v) = sv_used t' v.
Proof. unfold sv_with, sv_used. by destruct t, t'. Qed.
Lemma sv_imp_with t t' d v : sv_imp t' (sv_with t d v) = sv_imp t' v.
Proof. unfold sv_with, sv_imp. by destruct (decide (t = _)). Qed.
Lemma sv_with_twice t d d' v : sv_with t d (sv_with t d' v) = sv_with t d v.
Proof. unfold sv_with. by destruct (decide _). Qed.

(** The rows or the parameters of a statement. *)
Definition own_of (t : desc_desc_type) (v : stmt_view) : list positive :=
  if decide (t = DESC_PARAM) then [sv_imp_apd v; sv_ipd v] else [sv_imp_ard v; sv_ird v].

Lemma stmt_good_split R s v :
  stmt_good R s v ↔
  is_Some (r_dbc R !! sv_dbc v) ∧
  (implicit_desc R s v (sv_imp_ard v) DESC_APP DESC_ROW ∧ implicit_desc R s v (sv_ird v) DESC_IMP DESC_ROW ∧
   implicit_desc R s v (sv_imp_apd v) DESC_APP DESC_PARAM ∧ implicit_desc R s v (sv_ipd v) DESC_IMP DESC_PARAM) ∧
  ∀ t, t ≠ DESC_UNKNOWN → uses R s v t (own_of t v).
Proof.
  unfold stmt_good. split.
  - intros (H1 & H2 & H3 & H4 & H5 & H6 & H7). do 2 (split; [auto|]). by intros [] ?.
  - intros (H1 & (H2 & H3 & H4 & H5) & H6). do 5 (split; [done|]). split; [by apply (H6 DESC_PARAM)|by apply (H6 DESC_ROW)].
Qed.

Lemma own_of_with t t' d v : own_of t' (sv_with t d v) = own_of t' v.
Proof. unfold own_of, sv_with. by destruct (decide (t = _)). Qed.

Lemma implicit_with R s v k r t t' d : implicit_desc R s (sv_with t' d v) k r t ↔ implicit_desc R s v k r t.
Proof. unfold implicit_desc. by rewrite sv_dbc_with. Qed.

(** The descriptors of a statement that takes the descriptor [d]. *)
Lemma stmt_good_with R R' s v t d :
  t ≠ DESC_UNKNOWN →
  (∀ c, is_Some (r_dbc R !! c) → is_Some (r_dbc R' !! c)) →
  (∀ k, k ∈ sv_own v → desc_kept R R' s k) →
  (∀ t', t' ≠ DESC_UNKNOWN → t' ≠ t → uses R s v t' (own_of t' v) → uses R' s v t' (own_of t' v)) →
  uses R' s (sv_with t d v) t (own_of t v) →
  stmt_good R s v → stmt_good R' s (sv_with t d v).
Proof.
  intros Ht Hc Hk Hu Hd. rewrite !stmt_good_split, sv_dbc_with. intros (H1 & (H2 & H3 & H4 & H5) & H6). split; [auto|].
  split.
  - rewrite !implicit_with. unfold sv_own in Hk.
    assert (sv_imp_ard (sv_with t d v) = sv_imp_ard v ∧ sv_ird (sv_with t d v) = sv_ird v ∧ sv_imp_apd (sv_with t d v) = sv_imp_apd v ∧
      sv_ipd (sv_with t d v) = sv_ipd v) as (-> & -> & -> & ->) by (unfold sv_with; by destruct (decide _)).
    split_and!; (eapply implicit_frame; [apply Hk; set_solver|done]).
  - intros t' Ht'. rewrite own_of_with. destruct (decide (t' = t)) as [->|Hne]; [done|].
    specialize (Hu t' Ht' Hne (H6 t' Ht')). unfold uses in *. by rewrite sv_used_other, sv_dbc_with.
Qed.

(** The statements that get their own descriptor back. *)
Lemma lookup_foldr_alter (f : stmt_view → stmt_view) (l : list positive) (m : gmap positive stmt_view) s :
  (∀ v, f (f v) = f v) → foldr (λ s, alter f s) m l !! s = if decide (s ∈ l) then f <$> m !! s else m !! s.
Proof.
  intros Hf. induction l as [|x l IH]; [done|]. cbn [foldr]. destruct (decide (s = x)) as [->|Hne].
  - rewrite lookup_alter_eq, IH. destruct (decide (x ∈ x :: l)) as [_|Hn]; [|exfalso; apply Hn; by left]. case_decide; [|done]. rewrite <- option_fmap_compose. unfold compose.
    destruct (m !! x); cbn; [by rewrite Hf|done].
  - rewrite lookup_alter_ne by done. rewrite IH. destruct (decide (s ∈ l)), (decide (s ∈ x :: l)); [done| | |done]; exfalso; set_solver.
Qed.

(** An explicit descriptor is used with its type, and knows who uses it. *)
Lemma explicit_users R s v t d w :
  good R → r_stmt R !! s = Some v → t ≠ DESC_UNKNOWN → r_desc R !! d = Some w → explicit w →
  sv_used t v = d ↔ s ∈ xv_users w ∧ xv_type w = t.
Proof.
  intros HR Hv Ht Hw Hx. destruct (good_stmt R HR s v Hv) as [HG _]. split.
  - intros Hu. pose proof HG as (_ & _ & HU)%stmt_good_split. destruct (HU t Ht) as [Ho|(w' & Hw' & _ & _ & Hty & Hin)].
    + exfalso. eapply own_not_explicit; [exact HG| |exact Hw|exact Hx]. rewrite Hu in Ho. unfold own_of, sv_own in *. destruct (decide _); set_solver.
    + rewrite Hu in Hw'. assert (w' = w) as -> by congruence. done.
  - intros (Hin & <-). destruct (good_desc R HR d w Hw) as [[(Ha & _)|(_ & _ & _ & _ & H5)] _]; [unfold explicit in Hx; by rewrite Ha in Hx|].
    destruct (H5 s Hin) as (_ & v' & Hv' & _ & Hu). assert (v' = v) as -> by congruence. done.
Qed.

Lemma good_free_desc d w R : r_desc R !! d = Some w → explicit w → good R → good (r_free_desc d R).
Proof.
  intros Hw Hx HR. pose proof HR as [He Hc Hs Hd].
  destruct (Hd d w Hw) as [[(Ha & _)|(_ & Hst & Hrf & (c & Hdc & Hcl) & Hus)] _]; [unfold explicit in Hx; by rewrite Ha in Hx|].
  set (t := xv_type w) in *. set (f := λ v, sv_with t (sv_imp t v) v). set (R' := r_free_desc d R).
  assert (r_env R' = r_env R ∧ r_next R' = r_next R ∧ r_stmt R' = foldr (λ s, alter f s) (r_stmt R) (xv_users w) ∧
    r_dbc R' = alter (λ y, dv_with_descs (remove d (dv_descs y)) y) c (r_dbc R) ∧ r_desc R' = delete d (r_desc R)) as (Ee & En & Es & Ec & Ed).
  { subst R'. unfold r_free_desc. by rewrite Hw, Hdc. }
  assert (∀ s, r_stmt R' !! s = if decide (s ∈ xv_users w) then f <$> r_stmt R !! s else r_stmt R !! s) as Hlook.
  { intros s. rewrite Es. apply lookup_foldr_alter. intros v. unfold f. by rewrite sv_imp_with, sv_with_twice. }
  assert (∀ s, sv_dbc <$> r_stmt R' !! s = sv_dbc <$> r_stmt R !! s) as Hsd.
  { intros s. rewrite Hlook. case_decide; [|done]. destruct (r_stmt R !! s); cbn; [|done]. unfold f. by rewrite sv_dbc_with. }
  assert (∀ c, is_Some (r_dbc R !! c) → is_Some (r_dbc R' !! c)) as Hlive by (intros c' H; rewrite Ec; by rewrite lookup_alter_is_Some).
  assert (∀ s k, k ≠ d → desc_kept R R' s k) as Hkept by (intros s k Hne; apply desc_kept_same; rewrite Ed; by rewrite lookup_delete_ne).
  assert (∀ s, s ∈ xv_users w → t ≠ DESC_UNKNOWN) as Htu by (intros s Hin; by destruct (Hus s Hin)).
  split.
  - intros e x H. rewrite Ee in H. rewrite En. apply He in H as [(H1 & H2 & H3) ?]. split; [|done]. split; [done|]. split; [done|].
    intros c'. rewrite H3, Ec, lookup_alter. case_decide as E; [subst c'|done]. by destruct (r_dbc R !! _).
  - intros c' y H. rewrite Ec in H. rewrite En. lookups; apply Hc in H as [(H1 & H2 & H3 & H4 & H5) ?]; (split; [|done]);
      (split; [by rewrite Ee|]); cbn; (split; [done|]); (split; [intros s; by rewrite H3, Hsd|]).
    + split; [by apply NoDup_remove|]. intros k. rewrite elem_of_remove, H5, Ed. destruct (decide (k = d)) as [->|]; [|rewrite lookup_delete_ne by done; tauto].
      rewrite lookup_delete_eq. split; [by intros [? _]|by intros (? & ? & _)].
    + split; [done|]. intros k. rewrite H5, Ed. destruct (decide (k = d)) as [->|]; [|by rewrite lookup_delete_ne].
      rewrite lookup_delete_eq. split; [intros (w' & Hw' & _ & ?); congruence|by intros (? & ? & _)].
  - intros s u H. rewrite Hlook in H. rewrite En. assert (∀ v, stmt_good R s v → ∀ k, k ∈ sv_own v → k ≠ d) as Hown.
    { intros v HG k Hk ->. by eapply own_not_explicit. }
    case_decide as Hin.
    + destruct (r_stmt R !! s) as [v|] eqn:Hv; [|done]. cbn in H. injection H as <-. destruct (Hs s v Hv) as [HG ?]. split; [|done].
      unfold f. eapply stmt_good_with; [by eapply Htu|exact Hlive|intros k Hk; by eapply Hkept, Hown| | |exact HG].
      * intros t' Ht' Hne Hu. eapply uses_frame; [|exact Hu]. apply Hkept. intros Heq.
        apply (explicit_users R s v t' d w) in Heq as [_ Heq]; [|done..]. done.
      * left. rewrite sv_used_with. unfold sv_imp, own_of. destruct (decide _); by left.
    + destruct (Hs s u H) as [HG ?]. split; [|done]. eapply stmt_good_frame; [exact Hlive| |exact HG]. intros k Hk. apply Hkept. intros ->.
      by destruct (used_of_dbc R s u d w HG Hk Hw Hx).
  - intros k w' H. rewrite Ed in H. apply lookup_delete_Some in H as [Hne H]. rewrite En. destruct (Hd k w' H) as [HG ?]. split; [|done].
    destruct HG as [(Ha & s & v & H1 & H2 & H3)|(Hx0 & H1 & H2 & (c' & H3 & H4) & H5)].
    + left. split; [done|]. destruct (decide (s ∈ xv_users w)) as [Hin|Hin].
      * exists s, (f v). split; [done|]. split; [rewrite Hlook; by rewrite decide_True, H2|]. unfold f. by rewrite sv_own_with.
      * exists s, v. split; [done|]. split; [by rewrite Hlook, decide_False|done].
    + right. do 3 (split; [done|]). split; [eauto|]. intros s Hin. destruct (H5 s Hin) as (Ht & v & Hv & Hvd & Hu). split; [done|].
      rewrite Hlook. case_decide as Hin'; [|eauto]. exists (f v). rewrite Hv. split; [done|]. unfold f. rewrite sv_dbc_with. split; [done|].
      rewrite sv_used_other; [done|by eapply Htu|done|]. intros Heq. apply Hne. rewrite <- Hu, Heq. symmetry.
      apply (explicit_users R s v t d w); [done..|by eapply Htu|done|done|done].
Qed.

(** A descriptor that a statement may take: its own one of that kind, or one of the
    application for its connection that is not used for the other kind. *)
Definition may_use (s : positive) (v : stmt_view) (t : desc_desc_type) (w : desc_view) : Prop :=
  (xv_alloc w = SQL_DESC_ALLOC_AUTO ∧ xv_stmt w = Some s ∧ xv_type w = t) ∨
  (explicit w ∧ xv_dbc w = Some (sv_dbc v) ∧ (xv_type w = DESC_UNKNOWN ∨ xv_type w = t)).

Section UseDesc.
Context (R : registry) (s d : positive) (v : stmt_view) (t : desc_desc_type) (w : desc_view).
Context (HR : good R) (Hv : r_stmt R !! s = Some v) (Hw : r_desc R !! d = Some w) (Ht : t ≠ DESC_UNKNOWN) (Hm : may_use s v t w).

Local Definition used_before : positive := sv_used t v.
Local Definition after : registry := r_use_desc s t d R.

(** A descriptor afterwards: it lost the user, or is the one that was taken. *)
Definition changed (k : positive) (x x' : desc_view) : Prop :=
  xv_alloc x' = xv_alloc x ∧ xv_ref x' = xv_ref x ∧ xv_stmt x' = xv_stmt x ∧ xv_dbc x' = xv_dbc x ∧
  (xv_type x' = xv_type x ∨ (k = d ∧ xv_type x = DESC_UNKNOWN ∧ xv_type x' = t)) ∧
  (xv_alloc x = SQL_DESC_ALLOC_AUTO → x' = x) ∧
  (∀ u, u ≠ s → u ∈ xv_users x' ↔ u ∈ xv_users x) ∧
  (explicit x → s ∈ xv_users x' ↔ k = d ∨ (s ∈ xv_users x ∧ k ≠ used_before)).

Lemma remove_user_changed k x :
  let x1 := if decide (k = used_before) then remove_user s x else x in
  let x2 := if decide (k = d) then xv_with_type t (add_user s x1) else x1 in
  r_desc R !! k = Some x → changed k x x2.
Proof.
  intros x1 x2 Hk. assert (k = d → x = w) as Hkd by (intros ->; congruence). unfold changed.
  destruct (decide (xv_alloc x = SQL_DESC_ALLOC_USER)) as [Hx|Hx].
  - assert (xv_alloc x1 = SQL_DESC_ALLOC_USER) as Hx1 by (subst x1; unfold remove_user; repeat case_decide; done).
    assert (∀ u, u ∈ xv_users x1 ↔ u ∈ xv_users x ∧ (k = used_before → u ≠ s)) as Hu1.
    { intros u. subst x1. unfold remove_user. repeat case_decide; try done; [|tauto]. cbn. rewrite elem_of_remove. tauto. }
    assert (xv_ref x1 = xv_ref x ∧ xv_stmt x1 = xv_stmt x ∧ xv_dbc x1 = xv_dbc x ∧ xv_type x1 = xv_type x) as (A1 & A2 & A3 & A4)
      by (subst x1; unfold remove_user; by repeat case_decide).
    clearbody x1. subst x2. unfold add_user. case_decide as Hd.
    + rewrite decide_True by done. cbn. rewrite A1, A2, A3, Hx1, Hx. do 4 (split; [done|]). rewrite (Hkd Hd). destruct Hm as [(Ha & _)|(_ & _ & Hty)].
      { exfalso. rewrite (Hkd Hd) in Hx. by rewrite Ha in Hx. }
      split; [destruct Hty as [-> | ->]; auto|]. split; [done|]. split.
      * intros u Hne. rewrite elem_of_app, list_elem_of_singleton, Hu1, (Hkd Hd). tauto.
      * intros _. rewrite elem_of_app, list_elem_of_singleton. tauto.
    + do 5 (split; [congruence || (left; congruence)|]). split; [rewrite Hx; done|]. split; [intros u Hne; rewrite Hu1; tauto|].
      intros _. rewrite Hu1. destruct (decide (k = used_before)); naive_solver.
  - assert (x1 = x) as E1 by (subst x1; unfold remove_user; by repeat case_decide). assert (x2 = x) as E2.
    { subst x2. case_decide as Hd; [|done]. rewrite E1. unfold add_user. rewrite decide_False by done. specialize (Hkd Hd).
      destruct Hm as [(_ & _ & Hty)|(Hx' & _)]; [|unfold explicit in Hx'; congruence]. unfold xv_with_type. rewrite Hkd. destruct w. cbn in *. by rewrite Hty. }
    rewrite E2. do 4 (split; [done|]). split; [by left|]. split; [done|]. split; [done|]. intros Hx'. by unfold explicit in Hx'.
Qed.

Lemma after_desc k :
  r_desc after !! k =
    (λ x, let x1 := if decide (k = used_before) then remove_user s x else x in
          if decide (k = d) then xv_with_type t (add_user s x1) else x1) <$> r_desc R !! k.
Proof.
  unfold after, r_use_desc, r_leave_desc. rewrite Hv. cbn. fold used_before. destruct (decide (k = d)) as [->|Hd].
  - rewrite lookup_alter_eq. destruct (decide (d = used_before)) as [->|Hu]; [rewrite lookup_alter_eq|by rewrite lookup_alter_ne].
    by destruct (r_desc R !! used_before).
  - rewrite lookup_alter_ne by done. destruct (decide (k = used_before)) as [->|Hu]; [by rewrite lookup_alter_eq|].
    rewrite lookup_alter_ne by done. by destruct (r_desc R !! k).
Qed.

Lemma after_inv k x' : r_desc after !! k = Some x' → ∃ x, r_desc R !! k = Some x ∧ changed k x x'.
Proof.
  rewrite after_desc. intros (x & Hx & ->)%fmap_Some. exists x. split; [done|]. by apply remove_user_changed.
Qed.
Lemma after_fwd k x : r_desc R !! k = Some x → ∃ x', r_desc after !! k = Some x' ∧ changed k x x'.
Proof. intros Hx. rewrite after_desc, Hx. eexists. split; [done|]. by apply remove_user_changed. Qed.

(** A descriptor with users keeps its type. *)
Lemma changed_type k x x' u : r_desc R !! k = Some x → changed k x x' → explicit x → u ∈ xv_users x → xv_type x' = xv_type x.
Proof.
  intros Hx (_ & _ & _ & _ & [->|(_ & Hun & _)] & _) He Hu; [done|].
  destruct (good_desc R HR k x Hx) as [[(Ha & _)|(_ & _ & _ & _ & H5)] _]; [unfold explicit in He; by rewrite Ha in He|]. by destruct (H5 u Hu).
Qed.

Lemma after_kept u x k : stmt_good R u x → k ∈ sv_apd x :: sv_ard x :: sv_own x →
  (∀ y, r_desc R !! k = Some y → explicit y → u ≠ s ∨ k ≠ used_before) → desc_kept R after u k.
Proof.
  intros HG Hk Hne y Hy. destruct (after_fwd k y Hy) as (y' & Hy' & Hch). exists y'. split; [done|].
  pose proof Hch as (A1 & A2 & A3 & A4 & A5 & A6 & A7 & A8).
  destruct (decide (explicit y)) as [He|He].
  - destruct (used_of_dbc R u x k y HG Hk Hy He) as [_ Hin]. do 2 (split; [done|]). split; [by eapply changed_type|]. split; [done|].
    intros _. destruct (decide (u = s)) as [->|Hus]; [|by apply A7]. apply A8; [done|]. right. split; [done|]. destruct (Hne y Hy He); done.
  - do 2 (split; [done|]). assert (xv_alloc y = SQL_DESC_ALLOC_AUTO) as Ha.
    { destruct (good_desc R HR k y Hy) as [[(Ha & _)|(Hx & _)] _]; done. }
    specialize (A6 Ha). subst y'. done.
Qed.

Lemma after_same : r_env after = r_env R ∧ r_dbc after = r_dbc R ∧ r_next after = r_next R ∧ r_stmt after = <[s := sv_with t d v]> (r_stmt R).
Proof.
  unfold after, r_use_desc, r_leave_desc. rewrite Hv. cbn. split_and!; try done. apply map_eq. intros k.
  destruct (decide (k = s)) as [->|Hne]; [by rewrite lookup_alter_eq, lookup_insert_eq, Hv|by rewrite lookup_alter_ne, lookup_insert_ne].
Qed.

(** The descriptor that is taken is one the statement may point to. *)
Lemma taken : uses after s (sv_with t d v) t (own_of t v).
Proof.
  unfold uses. rewrite sv_used_with, sv_dbc_with. destruct Hm as [(Ha & Hst & Hty)|(Hx & Hdc & Hty)].
  - left. pose proof (own_stmt R s v d w HR Hw Ha Hst Hv) as Ho. destruct (good_stmt R HR s v Hv) as [(_ & G1 & G2 & G3 & G4 & _) _].
    unfold implicit_desc in *. unfold own_of, sv_own in *.
    assert (∀ k r t', r_desc R !! k = Some (DescV SQL_DESC_ALLOC_AUTO t' r (Some s) (Some (sv_dbc v)) []) → d = k → t = t') as Hk.
    { intros k r t' Hk ->. rewrite Hw in Hk. injection Hk as ->. done. }
    repeat (apply elem_of_cons in Ho as [Ho|Ho]; [first [apply (Hk _ _ _ G1) in Ho as E | apply (Hk _ _ _ G2) in Ho as E |
      apply (Hk _ _ _ G3) in Ho as E | apply (Hk _ _ _ G4) in Ho as E]; rewrite E, Ho; set_solver|]). by apply elem_of_nil in Ho.
  - right. destruct (after_fwd d w Hw) as (w' & Hw' & A1 & A2 & A3 & A4 & A5 & A6 & A7 & A8). exists w'.
    unfold explicit in *. split; [done|]. split; [congruence|]. split; [congruence|]. split.
    + destruct A5 as [A5|(_ & _ & A5)]; [|done]. destruct Hty as [Hty|Hty]; [|congruence]. revert A5. generalize Hw'. rewrite after_desc, Hw.
      cbn. rewrite decide_True by done. intros [= <-] _. done.
    + apply A8; [done|]. by left.
Qed.

Lemma good_use : good after.
Proof.
  pose proof HR as [He Hc Hs Hd]. destruct after_same as (Ee & Ec & En & Es).
  assert (∀ c k, (∃ x, r_desc after !! k = Some x ∧ explicit x ∧ xv_dbc x = Some c) ↔ ∃ x, r_desc R !! k = Some x ∧ explicit x ∧ xv_dbc x = Some c) as Hex.
  { intros c k. unfold explicit. split.
    - intros (x' & Hx' & H1 & H2). destruct (after_inv k x' Hx') as (x & Hx & A1 & _ & _ & A4 & _). exists x. split_and!; [done|congruence..].
    - intros (x & Hx & H1 & H2). destruct (after_fwd k x Hx) as (x' & Hx' & A1 & _ & _ & A4 & _). exists x'. split_and!; [done|congruence..]. }
  assert (∀ u, sv_dbc <$> r_stmt after !! u = sv_dbc <$> r_stmt R !! u) as Hsd.
  { intros u. rewrite Es. destruct (decide (u = s)) as [->|]; [|by rewrite lookup_insert_ne]. rewrite lookup_insert_eq, Hv. cbn. by rewrite sv_dbc_with. }
  split.
  - intros e x H. rewrite Ee in H. rewrite En. apply He in H as [(H1 & H2 & H3) ?]. split; [|done]. split; [done|]. split; [done|].
    intros c. by rewrite H3, Ec.
  - intros c y H. rewrite Ec in H. rewrite En. apply Hc in H as [(H1 & H2 & H3 & H4 & H5) ?]. split; [|done].
    split; [by rewrite Ee|]. split; [done|]. split; [intros u; by rewrite H3, Hsd|]. split; [done|]. intros k. by rewrite H5, Hex.
  - intros u x H. rewrite Es in H. rewrite En. apply lookup_insert_Some in H as [[<- <-]|[Hne H]].
    + destruct (Hs s v Hv) as [HG ?]. split; [|done]. apply (stmt_good_with R); [done|by rewrite Ec| | |apply taken|done].
      * intros k Hk. eapply after_kept; [exact HG|by do 2 right|]. intros y Hy Hx. by apply (own_not_explicit R s v k y HG Hk) in Hy.
      * intros t' Ht' Hne [Ho|(y & Hy & Hx & Hyd & Hyt & Hin)]; [by left|]. eapply uses_frame; [|right; eauto 10].
        eapply after_kept; [exact HG|destruct t'; cbn; set_solver|]. intros y' Hy' _. right. intros Heq. assert (y' = y) as -> by congruence.
        apply Hne. symmetry. rewrite <- Hyt. symmetry. eapply (explicit_users R s v t); [done|done|done|exact Hy|done|]. by rewrite Heq.
    + destruct (Hs u x H) as [HG ?]. split; [|done]. apply (stmt_good_frame R); [by rewrite Ec| |exact HG].
      intros k Hk. eapply after_kept; [exact HG|done|]. intros. by left.
  - intros k x' H. rewrite En. destruct (after_inv k x' H) as (x & Hx & Hch). destruct (Hd k x Hx) as [HG ?]. split; [|done].
    pose proof Hch as (A1 & A2 & A3 & A4 & A5 & A6 & A7 & A8).
    destruct HG as [(Ha & u & y & H1 & H2 & H3)|(Hxx & H1 & H2 & (c & H3 & H4) & H5)].
    + left. rewrite (A6 Ha). split; [done|]. destruct (decide (u = s)) as [->|Hne].
      * exists s, (sv_with t d v). split; [done|]. split; [by rewrite Es, lookup_insert_eq|]. rewrite sv_own_with. by assert (y = v) as <- by congruence.
      * exists u, y. split; [done|]. split; [by rewrite Es, lookup_insert_ne|done].
    + right. unfold explicit. rewrite A1, A2, A3, A4. do 3 (split; [done|]). split; [exists c; by rewrite Ec|]. intros u Hin.
      destruct (decide (u = s)) as [->|Hne].
      * apply (A8 Hxx) in Hin as Hin'. destruct (decide (k = d)) as [->|Hkd].
        -- assert (x = w) as -> by congruence. destruct taken as [Ho|(y & Hy & _ & Hyd & Hyt & _)].
           ++ exfalso. rewrite sv_used_with in Ho. destruct (Hs s v Hv) as [HG _]. eapply own_not_explicit; [exact HG| |exact Hw|exact Hxx].
              unfold own_of, sv_own in *. destruct (decide _); set_solver.
           ++ rewrite sv_used_with in Hy. assert (y = x') as -> by congruence. rewrite Hyt. split; [done|]. exists (sv_with t d v).
              rewrite Es, lookup_insert_eq. split; [done|]. rewrite <- A4, sv_used_with. done.
        -- destruct Hin' as [?|[Hin' Hku]]; [done|]. rewrite (changed_type k x x' s Hx Hch Hxx Hin'). destruct (H5 s Hin') as (Hxt & y & Hy & Hyd & Hyu).
           split; [done|]. assert (y = v) as -> by congruence. exists (sv_with t d v). rewrite Es, lookup_insert_eq, sv_dbc_with. split; [done|]. split; [done|].
           rewrite sv_used_other; [done..|]. intros Heq. apply Hku. unfold used_before. by rewrite <- Heq.
      * apply (A7 u Hne) in Hin. rewrite (changed_type k x x' u Hx Hch Hxx Hin). destruct (H5 u Hin) as (Hxt & y & Hy & Hyd & Hyu).
        split; [done|]. exists y. by rewrite Es, lookup_insert_ne.
Qed.
End UseDesc.

(** A statement that takes its own descriptor again. *)
Lemma imp_desc R s v t :
  stmt_good R s v → t ≠ DESC_UNKNOWN → r_desc R !! sv_imp t v = Some (DescV SQL_DESC_ALLOC_AUTO t DESC_APP (Some s) (Some (sv_dbc v)) []).
Proof. intros (_ & G1 & _ & G3 & _) Ht. by destruct t. Qed.

Lemma use_own_desc R s v t :
  good R → r_stmt R !! s = Some v → t ≠ DESC_UNKNOWN → r_use_own s t R = r_use_desc s t (sv_imp t v) R.
Proof.
  intros HR Hv Ht. destruct (good_stmt R HR s v Hv) as [HG _]. pose proof (imp_desc R s v t HG Ht) as Hi.
  unfold r_use_own, r_use_desc, r_leave_desc. rewrite Hv. unfold on_stmt, on_desc. cbn. f_equal.
  - apply map_eq. intros k. destruct (decide (k = s)) as [->|Hne]; [by rewrite !lookup_alter_eq, Hv|by rewrite !lookup_alter_ne].
  - apply map_eq. intros k. destruct (decide (k = sv_imp t v)) as [->|Hne]; [|by rewrite (lookup_alter_ne _ _ (sv_imp t v))].
    rewrite (lookup_alter_eq _ _ (sv_imp t v)). destruct (decide (sv_imp t v = sv_used t v)) as [E|Hne].
    + rewrite <- E, lookup_alter_eq, Hi. done.
    + rewrite lookup_alter_ne by done. rewrite Hi. done.
Qed.

Lemma good_use_own s v t R : r_stmt R !! s = Some v → t ≠ DESC_UNKNOWN → good R → good (r_use_own s t R).
Proof.
  intros Hv Ht HR. rewrite (use_own_desc R s v t HR Hv Ht). destruct (good_stmt R HR s v Hv) as [HG _].
  apply (good_use R s (sv_imp t v) v t _ HR Hv (imp_desc R s v t HG Ht) Ht). by left.
Qed.

(** Freeing the statements of a connection, in order. *)
Definition r_free_stmts (l : list positive) (R : registry) : registry := foldl (λ R s, r_free_stmt s R) R l.

Lemma free_stmt_dbc s v R : r_stmt R !! s = Some v →
  r_dbc (r_free_stmt s R) = alter (λ y, dv_with_stmts (remove s (dv_stmts y)) y) (sv_dbc v) (r_dbc R).
Proof. intros Hv. unfold r_free_stmt. by rewrite Hv. Qed.

Lemma remove_id s l : s ∉ l → remove s l = l.
Proof.
  unfold remove. induction l as [|x l IH]; [done|]. intros [Hx Hl]%not_elem_of_cons. rewrite filter_cons_True by done. by rewrite IH.
Qed.
Lemma remove_head s l : NoDup (s :: l) → remove s (s :: l) = l.
Proof. intros [Hs _]%NoDup_cons. rewrite <- (remove_id s l) at 2 by done. unfold remove. by rewrite filter_cons_False by naive_solver. Qed.

Lemma good_free_stmts l : ∀ c y R, r_dbc R !! c = Some y → dv_stmts y = l → good R →
  good (r_free_stmts l R) ∧ r_dbc (r_free_stmts l R) !! c = Some (dv_with_stmts [] y).
Proof.
  induction l as [|s l IH]; intros c y R Hy Hl HR.
  - split; [done|]. cbn. rewrite Hy. f_equal. destruct y. cbn in *. by rewrite Hl.
  - destruct (good_dbc R HR c y Hy) as [(_ & Hnd & Hs & _) _]. rewrite Hl in Hnd, Hs.
    assert (sv_dbc <$> r_stmt R !! s = Some c) as (v & Hv & Hvc)%fmap_Some by (apply Hs; by left).
    assert (r_dbc (r_free_stmt s R) !! c = Some (dv_with_stmts l y)) as Hy'.
    { rewrite (free_stmt_dbc s v R Hv), <- Hvc, lookup_alter_eq, Hy. cbn. by rewrite Hl, remove_head. }
    cbn [r_free_stmts foldl]. apply (IH c (dv_with_stmts l y) (r_free_stmt s R)); [done|done|]. apply good_free_stmt; [eauto|done].
Qed.
