(* ===== verification/Handles.v ===== *)
(** The life of handles (src/driver/handle.cc): environments, connections,
    statements and descriptors are allocated and freed, statements take descriptors
    of the application in place of their own (src/driver/options.cc), and a
    connection is disconnected (src/driver/connect.cc).

    A pointer to a handle that has been freed is undefined; the theorems say that
    the lists of the owners and the pointers of the statements stay right. *)

From stdpp Require Import functions.
From S2P Require Import Prelude CppString Errors Descriptors Registry.

Local Open Scope Z_scope.

(** ** Constants *)

Definition SQL_OV_ODBC3_80 : Z := 380.

(** What is freed of a statement: the options of ODBC, and two of the driver. *)
Inductive free_option := SQL_CLOSE | SQL_DROP | SQL_UNBIND | SQL_RESET_PARAMS | FREE_STMT_RESET_BUFFERS | FREE_STMT_RESET.
#[export] Instance free_option_eq_dec : EqDecision free_option.
Proof. solve_decision. Defined.

(** [OPS_UNKNOWN] is 0. *)
Definition OPS_STREAMS_PENDING : Z := 3.

(** ** Statements: small operations *)

Definition modify_stmt (s : positive) (f : STMT → STMT) : M handles unit := x ← get_stmt s; put_stmt s (f x).
Definition modify_desc (d : positive) (f : DESC → DESC) : M handles unit := x ← get_desc d; put_desc d (f x).
Definition modify_dbc (c : positive) (f : DBC → DBC) : M handles unit := x ← get_dbc c; put_dbc c (f x).
Definition modify_env (e : positive) (f : ENV → ENV) : M handles unit := x ← get_env e; put_env e (f x).

Definition with_env_error (err : MYERROR) (x : ENV) : ENV := Env (odbc_ver x) (conn_list x) err.
Definition with_conn_list (l : list positive) (x : ENV) : ENV := Env (odbc_ver x) l (e_error x).
Definition with_odbc_ver (v : Z) (x : ENV) : ENV := Env v (conn_list x) (e_error x).
Definition with_dbc_error (err : MYERROR) (x : DBC) : DBC :=
  Dbc (c_env x) (c_stmt_list x) (c_desc_list x) err (c_bookmarks x) (st_error_prefix x) (need_to_wakeup x).
Definition with_c_stmt_list (l : list positive) (x : DBC) : DBC :=
  Dbc (c_env x) l (c_desc_list x) (c_error x) (c_bookmarks x) (st_error_prefix x) (need_to_wakeup x).
Definition with_c_desc_list (l : list positive) (x : DBC) : DBC :=
  Dbc (c_env x) (c_stmt_list x) l (c_error x) (c_bookmarks x) (st_error_prefix x) (need_to_wakeup x).
Definition with_wakeup (b : bool) (x : DBC) : DBC :=
  Dbc (c_env x) (c_stmt_list x) (c_desc_list x) (c_error x) (c_bookmarks x) (st_error_prefix x) b.
Definition with_work (w : work_field → value) (x : STMT) : STMT :=
  Stmt (s_dbc x) (ard x) (apd x) (ird x) (ipd x) (imp_ard x) (imp_apd x) (s_error x) (s_bookmarks x) (s_state x) w.
Definition with_state (st : MY_STATE) (x : STMT) : STMT :=
  Stmt (s_dbc x) (ard x) (apd x) (ird x) (ipd x) (imp_ard x) (imp_apd x) (s_error x) (s_bookmarks x) st (s_work x).
Definition with_ard (d : positive) (x : STMT) : STMT :=
  Stmt (s_dbc x) d (apd x) (ird x) (ipd x) (imp_ard x) (imp_apd x) (s_error x) (s_bookmarks x) (s_state x) (s_work x).
Definition with_apd (d : positive) (x : STMT) : STMT :=
  Stmt (s_dbc x) (ard x) d (ird x) (ipd x) (imp_ard x) (imp_apd x) (s_error x) (s_bookmarks x) (s_state x) (s_work x).

(** Assignments to members, in turn. *)
Definition assign (l : list (work_field * value)) (x : STMT) : STMT :=
  with_work (foldl (λ w p, <[p.1 := p.2]> w) (s_work x) l) x.
Definition zero (f : work_field) : work_field * value := (f, Num 0).
Definition empty (f : work_field) : work_field * value := (f, Literal []).

(** A member as a condition. *)
Definition is_set (f : work_field) (x : STMT) : bool := negb (num (s_work x f) =? 0).

(** [src/driver/my_prepared_stmt.cc:654-661] STMT::reset

    The row storage is valid while it has rows and columns. *)
Definition light_reset (x : STMT) : STMT :=
  let x := assign [zero W_buf_pos] x in
  if is_set W_row_storage x then assign [zero W_row_storage; zero W_result_array] x else assign [zero W_row_storage] x.

(** [src/driver/my_prepared_stmt.cc:645-648] STMT::free_unbind *)
Definition free_unbind (s : positive) : M handles unit := x ← get_stmt s; modify_desc (ard x) desc_reset.

(** [src/driver/my_prepared_stmt.cc:663-675] STMT::free_reset_out_params *)
Definition free_reset_out_params (s : positive) : M handles unit :=
  x ← get_stmt s;
  (if num (s_work x W_out_params_state) =? OPS_STREAMS_PENDING then client (Stmt_fetch (num (s_work x W_ssps))) else mret tt);;
  modify_stmt s (assign [zero W_out_params_state]);;
  modify_desc (apd x) free_paramdata;;
  modify_stmt s (assign [zero W_dae_type; zero W_scroller_next_offset]).

(** [src/driver/my_prepared_stmt.cc:677-687] STMT::free_reset_params *)
Definition free_reset_params (s : positive) : M handles unit := x ← get_stmt s; modify_desc (apd x) (with_records []).

(** [src/driver/myutil.h:414-427] stmt_result_free *)
Definition stmt_result_free (s : positive) : M handles unit :=
  x ← get_stmt s;
  if is_set W_result x then
    (if is_set W_fake_result x then mret tt else client Free_result);;
    modify_stmt s (assign [zero W_result])
  else mret tt.

(** [src/driver/my_prepared_stmt.cc:689-717] STMT::free_fake_result

    The results that are left on the connection are fetched and freed by the client
    library. *)
Definition free_fake_result (s : positive) (clear_all_results : bool) : M handles unit :=
  x ← get_stmt s;
  if is_set W_fake_result x then stmt_result_free s
  else if clear_all_results then client Drain_results else mret tt.

(** [src/driver/my_prepared_stmt.cc:304-325] free_result_bind *)
Definition free_result_bind (x : STMT) : STMT :=
  if is_set W_result_bind x then assign [zero W_result_bind; zero W_array] x else x.

(** [src/driver/my_prepared_stmt.cc:328-344] ssps_close *)
Definition ssps_close (s : positive) : M handles unit :=
  x ← get_stmt s;
  (if is_set W_ssps x then
     modify_stmt s free_result_bind;;
     client (Stmt_close (num (s_work x W_ssps)));;
     modify_stmt s (assign [zero W_ssps])
   else mret tt);;
  modify_stmt s (assign [zero W_buf_pos]).

(** [src/driver/driver.h:511-515] DESC::stmt_list_remove

    [std::list::remove] takes every occurrence. *)
Definition stmt_list_remove (s : positive) (x : DESC) : DESC :=
  if alloc_type x =? SQL_DESC_ALLOC_USER then with_stmt_list (filter (λ t, t ≠ s) (stmt_list x)) x else x.
(** [src/driver/driver.h:517-521] DESC::stmt_list_add *)
Definition stmt_list_add (s : positive) (x : DESC) : DESC :=
  if alloc_type x =? SQL_DESC_ALLOC_USER then with_stmt_list (stmt_list x ++ [s]) x else x.

(** [src/driver/my_prepared_stmt.cc:739-757] STMT::~STMT

    The implicit descriptors are members and go with the statement. *)
Definition delete_stmt (s : positive) : M handles unit :=
  x ← get_stmt s;
  modify_stmt s (assign [zero W_lengths]);;
  (if is_set W_ssps x then client (Stmt_close (num (s_work x W_ssps)));; modify_stmt s (assign [zero W_ssps]) else mret tt);;
  modify_stmt s (assign [zero W_setpos_apd]);;
  modify_dbc (s_dbc x) (λ c, with_c_stmt_list (filter (λ t, t ≠ s) (c_stmt_list c)) c);;
  modify (λ h, set_stmts (delete s (stmts h))
    (set_descs (delete (ipd x) (delete (imp_apd x) (delete (ird x) (delete (imp_ard x) (descs h))))) h)).

(** [src/driver/myutil.h:53-53] reset_ptr

    A pointer of a header; setting it to null if it is not is setting it. *)
Definition reset_ptr (f : hdr_field) (x : DESC) : DESC := with_header f 0 x.

(** What a statement that is closed loses, before the option is looked at again. *)
Definition closed_members : list (work_field * value) :=
  [zero W_fields; zero W_result; zero W_fake_result; zero W_lengths; zero W_current_values; zero W_fix_fields;
   zero W_affected_rows; zero W_rows_found_in_set; zero W_current_row; (W_cursor_row, Num (-1)); zero W_dae_type].

(** [src/driver/handle.cc:558-669] my_SQLFreeStmtExtended

    [clear_result] is the flag [FREE_STMT_CLEAR_RESULT]; the lock and the spans of
    telemetry are left out. *)
Definition my_SQLFreeStmtExtended (s : positive) (f_option : free_option) (clear_result : bool) : M handles Z :=
  modify_stmt s light_reset;;
  if decide (f_option = SQL_UNBIND) then free_unbind s;; mret SQL_SUCCESS
  else
  free_reset_out_params s;;
  if decide (f_option = SQL_RESET_PARAMS) then free_reset_params s;; mret SQL_SUCCESS
  else
  free_fake_result s clear_result;;
  modify_stmt s (assign closed_members);;
  x ← get_stmt s;
  modify_desc (ird x) desc_reset;;
  if decide (f_option = FREE_STMT_RESET_BUFFERS) then
    modify_stmt s free_result_bind;; modify_stmt s (assign [zero W_array]);; mret SQL_SUCCESS
  else
  modify_stmt s (λ x, assign [empty W_table_name; zero W_dummy_state; zero W_pk_validated; zero W_setpos_apd;
                              zero W_pkcol_bind_done; zero W_pk_count] (with_state ST_UNKNOWN x));;
  if decide (f_option = SQL_CLOSE) then mret SQL_SUCCESS
  else
  (if clear_result then
     modify_stmt s (assign [zero W_array]);; ssps_close s;;
     modify_stmt s (λ x, if is_set W_ssps x then free_result_bind x else x)
   else mret tt);;
  modify_stmt s (assign [empty W_orig_query; empty W_query; zero W_param_count]);;
  x ← get_stmt s;
  modify_desc (apd x) (reset_ptr H_rows_processed_ptr);;
  modify_desc (ard x) (reset_ptr H_rows_processed_ptr);;
  modify_desc (ipd x) (reset_ptr H_array_status_ptr);;
  modify_desc (ird x) (reset_ptr H_array_status_ptr);;
  modify_desc (apd x) (reset_ptr H_array_status_ptr);;
  modify_desc (ard x) (reset_ptr H_array_status_ptr);;
  modify_stmt s (assign [zero W_rowStatusPtr_ex]);;
  if decide (f_option = FREE_STMT_RESET) then mret SQL_SUCCESS
  else
  modify_desc (apd x) (stmt_list_remove s);;
  modify_desc (ard x) (stmt_list_remove s);;
  delete_stmt s;;
  mret SQL_SUCCESS.

(** [src/driver/handle.cc:544-548] my_SQLFreeStmt *)
Definition my_SQLFreeStmt (s : positive) (f_option : free_option) : M handles Z := my_SQLFreeStmtExtended s f_option true.

(** ** Environments and connections *)

(** The next key that is free, for a new handle. *)
Definition new_key : M handles positive :=
  h ← get;
  put (Handles (envs h) (dbcs h) (stmts h) (descs h) (Pos.succ (next_key h)) (thread_count h) (globals h) (client_calls h));;
  mret (next_key h).

(** [src/driver/error.cc:270-275] set_env_error *)
Definition set_env_error (prefix : str) (e : positive) (errid : myodbc_errid) (errtext : option str) (errcode : Z) : M handles Z :=
  h ← get;
  let err := error_of_id (myodbc3_errors (globals h)) errid errtext errcode prefix in
  modify_env e (with_env_error err);;
  mret (retcode err).

(** [src/driver/handle.cc:203-208] DBC::set_error *)
Definition dbc_set_error (prefix : str) (c : positive) (errid : myodbc_errid) (errtext : option str) (errcode : Z) : M handles Z :=
  h ← get;
  let err := error_of_id (myodbc3_errors (globals h)) errid errtext errcode prefix in
  modify_dbc c (with_dbc_error err);;
  mret (retcode err).

(** [src/driver/my_prepared_stmt.cc:769-774] STMT::set_error *)
Definition stmt_set_error_id (s : positive) (errid : myodbc_errid) (errtext : option str) (errcode : Z) : M handles Z :=
  h ← get; x ← get_stmt s; c ← get_dbc (s_dbc x);
  let err := error_of_id (myodbc3_errors (globals h)) errid errtext errcode (st_error_prefix c) in
  put_stmt s (with_stmt_error err x);;
  mret (retcode err).

(** [src/driver/handle.cc:217-234] my_SQLAllocEnv *)
Definition my_SQLAllocEnv : M handles (Z * option positive) :=
  e ← new_key;
  put_env e (Env SQL_OV_ODBC3_80 [] no_error);;
  mret (SQL_SUCCESS, Some e).

(** [src/driver/handle.cc:255-266] my_SQLFreeEnv

    The monitors of all environments are released as well. *)
Definition my_SQLFreeEnv (e : positive) : M handles Z :=
  _ ← get_env e;
  modify (λ h, set_envs (delete e (envs h)) h);;
  mret SQL_SUCCESS.

(** [src/driver/handle.cc:66-70] ENV::add_dbc *)
Definition add_dbc (e c : positive) : M handles unit := modify_env e (λ x, with_conn_list (conn_list x ++ [c]) x).
(** [src/driver/handle.cc:72-76] ENV::remove_dbc *)
Definition remove_dbc (e c : positive) : M handles unit :=
  modify_env e (λ x, with_conn_list (filter (λ t, t ≠ c) (conn_list x)) x).
(** [src/driver/handle.cc:78-81] ENV::has_connections *)
Definition has_connections (x : ENV) : bool := negb (bool_decide (conn_list x = [])).
(** [src/driver/handle.cc:95-98] DBC::add_desc *)
Definition add_desc (c d : positive) : M handles unit := modify_dbc c (λ x, with_c_desc_list (c_desc_list x ++ [d]) x).
(** [src/driver/handle.cc:100-103] DBC::remove_desc *)
Definition remove_desc (c d : positive) : M handles unit :=
  modify_dbc c (λ x, with_c_desc_list (filter (λ t, t ≠ d) (c_desc_list x)) x).

(** [src/driver/handle.cc:83-93] DBC::DBC *)
Definition new_dbc (e : positive) : M handles positive :=
  c ← new_key;
  put_dbc c (Dbc e [] [] no_error 0 [] false);;
  x ← get_env e;
  modify (λ h, set_globals (myodbc_ov_init (odbc_ver x) (globals h)) h);;
  add_dbc e c;;
  mret c.

(** [src/driver/handle.cc:105-115] DBC::free_explicit_descriptors

    The descriptors are deleted; the statements that use them are not told. *)
Definition free_explicit_descriptors (c : positive) : M handles unit :=
  x ← get_dbc c;
  modify_dbc c (with_c_desc_list []);;
  mapM_ (λ d, _ ← get_desc d; modify (λ h, set_descs (delete d (descs h)) h)) (c_desc_list x).

(** [src/driver/handle.cc:172-185] DBC::~DBC

    The proxies, the failover handler and the topology service are left out. *)
Definition delete_dbc (c : positive) : M handles unit :=
  x ← get_dbc c;
  remove_dbc (c_env x) c;;
  free_explicit_descriptors c;;
  modify (λ h, set_dbcs (delete c (dbcs h)) h).

Section Versions.
(** The version of the client library, the one the driver is built for, the text of
    the complaint, and the prefix of messages. *)
Context (client_version MIN_MYSQL_VERSION : Z) (wrong_version : str) (MYODBC_ERROR_PREFIX : str).

(** [src/driver/handle.cc:307-347] my_SQLAllocConnect *)
Definition my_SQLAllocConnect (e : positive) : M handles (Z * option positive) :=
  h ← get;
  (if thread_count h =? 0 then client Thread_init else mret tt);;
  modify (λ h, set_thread_count (thread_count h + 1) h);;
  if client_version <? MIN_MYSQL_VERSION then
    rc ← set_env_error MYODBC_ERROR_PREFIX e MYERR_S1000 (Some wrong_version) 0; mret (rc, None)
  else
  x ← get_env e;
  if odbc_ver x =? 0 then
    rc ← set_env_error MYODBC_ERROR_PREFIX e MYERR_S1010 (Some (S!"Can't allocate connection until ODBC version specified.")) 0;
    mret (rc, None)
  else c ← new_dbc e; mret (SQL_SUCCESS, Some c).

(** [src/driver/handle.cc:426-439] my_SQLFreeConnect *)
Definition my_SQLFreeConnect (c : positive) : M handles Z :=
  delete_dbc c;;
  h ← get;
  (if thread_count h =? 0 then mret tt
   else modify (λ h, set_thread_count (thread_count h - 1) h);;
        if thread_count h - 1 =? 0 then client Thread_end else mret tt);;
  mret SQL_SUCCESS.

(** [src/driver/connect.cc:1575-1584] DBC::free_connection_stmts

    Each statement is taken from the list before it is freed; the list is the one
    of the connection, which the destructor of the statement changes too. *)
Definition free_connection_stmts (c : positive) : M handles unit :=
  x ← get_dbc c;
  mapM_ (λ s, modify_dbc c (λ x, with_c_stmt_list (tail (c_stmt_list x)) x);; _ ← my_SQLFreeStmt s SQL_DROP; mret tt) (c_stmt_list x);;
  modify_dbc c (with_c_stmt_list []).

(** [src/driver/connect.cc:1597-1629] SQLDisconnect

    The metrics and the log are left out. *)
Definition SQLDisconnect (c : positive) : M handles Z :=
  free_connection_stmts c;; client (Close_connection c);; mret SQL_SUCCESS.

(** [src/driver/handle.cc:369-375] reset_connection *)
Definition reset_connection (c : positive) : M handles unit := free_connection_stmts c;; free_explicit_descriptors c.

(** [src/driver/options.cc:421-430] MySQLSetConnectAttr

    The attribute [SQL_ATTR_RESET_CONNECTION]. *)
Definition set_reset_connection (c : positive) : M handles Z :=
  reset_connection c;; modify_dbc c (with_wakeup true);; mret SQL_SUCCESS.

(** [src/driver/handle.cc:378-417] wakeup_connection

    [fails] is the answer of the server to the change of the user. *)
Definition wakeup_connection (c : positive) (fails : bool) : M handles bool :=
  client (Change_user c);;
  if fails then mret true else modify_dbc c (with_wakeup false);; mret false.

(** [src/driver/driver.h:1142-1167] STMT::STMT

    The statement and its four descriptors. *)
Definition new_stmt (c : positive) : M handles positive :=
  y ← get_dbc c;
  s ← new_key; k1 ← new_key; k2 ← new_key; k3 ← new_key; k4 ← new_key;
  let implicit r t := Desc (<[H_alloc_type := SQL_DESC_ALLOC_AUTO]> (<[H_array_size := 1]> (λ _, 0))) 0 t r [] [] no_error (Some s) (Some c) [] in
  put_desc k1 (implicit DESC_APP DESC_ROW);;
  put_desc k2 (implicit DESC_IMP DESC_ROW);;
  put_desc k3 (implicit DESC_APP DESC_PARAM);;
  put_desc k4 (implicit DESC_IMP DESC_PARAM);;
  put_stmt s (Stmt c k1 k3 k2 k4 k1 k3 no_error (c_bookmarks y) ST_UNKNOWN (λ _, Num 0));;
  modify_dbc c (λ y, with_c_stmt_list (c_stmt_list y ++ [s]) y);;
  mret s.

(** [src/driver/handle.cc:484-504] my_SQLAllocStmt

    [fails] is the answer of the server when a pooled connection is woken up. *)
Definition my_SQLAllocStmt (c : positive) (fails : bool) : M handles (Z * option positive) :=
  x ← get_dbc c;
  failed ← (if need_to_wakeup x then wakeup_connection c fails else mret false);
  if (failed : bool) then mret (SQL_ERROR, None)
  else s ← new_stmt c; mret (SQL_SUCCESS, Some s).

(** ** Descriptors of the application *)

(** [src/driver/handle.cc:675-693] my_SQLAllocDesc *)
Definition my_SQLAllocDesc (c : positive) : M handles (Z * option positive) :=
  d ← new_key;
  put_desc d (Desc (<[H_alloc_type := SQL_DESC_ALLOC_USER]> (<[H_array_size := 1]> (λ _, 0))) 0 DESC_UNKNOWN DESC_APP [] [] no_error
                None (Some c) []);;
  add_desc c d;;
  mret (SQL_SUCCESS, Some d).

(** [src/driver/handle.cc:700-726] my_SQLFreeDesc *)
Definition my_SQLFreeDesc (d : positive) : M handles Z :=
  x ← get_desc d;
  if negb (alloc_type x =? SQL_DESC_ALLOC_USER) then
    set_desc_error MYODBC_ERROR_PREFIX d (S!"HY017") (S!"Invalid use of an automatically allocated descriptor handle.") (errid MYERR_S1017)
  else
  c ← deref (d_dbc x);
  remove_desc c d;;
  mapM_ (λ s, if is_apd x then modify_stmt s (λ z, with_apd (imp_apd z) z)
              else if is_ard x then modify_stmt s (λ z, with_ard (imp_ard z) z) else mret tt) (stmt_list x);;
  modify (λ h, set_descs (delete d (descs h)) h);;
  mret SQL_SUCCESS.

(** [src/driver/options.cc:640-696] MySQLSetStmtAttr

    The attributes [SQL_ATTR_APP_PARAM_DESC], with [desc_type] [DESC_PARAM], and
    [SQL_ATTR_APP_ROW_DESC], with [DESC_ROW]. *)
Definition set_app_desc (s : positive) (t : desc_desc_type) (desc : option positive) : M handles Z :=
  modify_stmt s (with_stmt_error no_error);;
  x ← get_stmt s;
  let dest := if decide (t = DESC_PARAM) then apd x else ard x in
  let assign_dest d := modify_stmt s (if decide (t = DESC_PARAM) then with_apd d else with_ard d) in
  modify_desc dest (stmt_list_remove s);;
  match desc with
  | None => assign_dest (if decide (t = DESC_PARAM) then imp_apd x else imp_ard x);; mret SQL_SUCCESS
  | Some d =>
    y ← get_desc d;
    if (alloc_type y =? SQL_DESC_ALLOC_AUTO) && negb (bool_decide (d_stmt y = Some s)) then
      stmt_set_error_id s MYERR_S1017 (Some (S!"Invalid use of an automatically allocated descriptor handle")) 0
    else if (alloc_type y =? SQL_DESC_ALLOC_USER) && negb (bool_decide (d_dbc y = Some (s_dbc x))) then
      stmt_set_error_id s MYERR_S1024 (Some (S!"Invalid attribute value")) 0
    else if negb (bool_decide (desc_type y = DESC_UNKNOWN)) && negb (bool_decide (desc_type y = t)) then
      stmt_set_error_id s MYERR_S1024 (Some (S!"Descriptor type mismatch")) 0
    else
      modify_desc d (stmt_list_add s);;
      modify_desc d (with_desc_type t);;
      assign_dest d;;
      mret SQL_SUCCESS
  end.

(** [src/driver/options.cc:925-962] SQLSetEnvAttr

    [SQL_ATTR_ODBC_VERSION] is 200 and [SQL_ATTR_OUTPUT_NTS] is 10001. *)
Definition SQLSetEnvAttr (e : positive) (attribute v : Z) : M handles Z :=
  x ← get_env e;
  if has_connections x then set_env_error MYODBC_ERROR_PREFIX e MYERR_S1010 None 0
  else if attribute =? 200 then
    if bool_decide (v ∈ [SQL_OV_ODBC2; SQL_OV_ODBC3; SQL_OV_ODBC3_80]) then modify_env e (with_odbc_ver v);; mret SQL_SUCCESS
    else set_env_error MYODBC_ERROR_PREFIX e MYERR_S1024 None 0
  else if (attribute =? 10001) && (v =? SQL_TRUE) then mret SQL_SUCCESS
  else set_env_error MYODBC_ERROR_PREFIX e MYERR_S1C00 None 0.
End Versions.

(** ** The registry of a store *)

Definition view_env (x : ENV) : env_view := EnvV (odbc_ver x) (conn_list x).
Definition view_dbc (y : DBC) : dbc_view := DbcV (c_env y) (c_stmt_list y) (c_desc_list y).
Definition view_stmt (z : STMT) : stmt_view := StmtV (s_dbc z) (ard z) (apd z) (ird z) (ipd z) (imp_ard z) (imp_apd z).
Definition view_desc (w : DESC) : desc_view := DescV (alloc_type w) (desc_type w) (ref_type w) (d_stmt w) (d_dbc w) (stmt_list w).

Definition shape (h : handles) : registry :=
  Registry (view_env <$> envs h) (view_dbc <$> dbcs h) (view_stmt <$> stmts h) (view_desc <$> descs h) (next_key h).

(** [m], run in a store with the registry [R], returns, and [Q] holds of what it
    returns and of the registry then. *)
Definition spec {A} (m : M handles A) (R : registry) (Q : A → registry → Prop) : Prop :=
  ∀ h, shape h = R → ∃ a h', m h = (Ok a, h') ∧ Q a (shape h').

Section Spec.
Context {A : Type}.
Implicit Types (Q : A → registry → Prop) (R : registry).

Lemma spec_ret (a : A) R Q : Q a R → spec (mret a) R Q.
Proof. intros H h <-. by exists a, h. Qed.

Lemma spec_bind {B} (m : M handles B) (k : B → M handles A) R Q :
  spec m R (λ b R', spec (k b) R' Q) → spec (m ≫= k) R Q.
Proof.
  intros H h Hh. destruct (H h Hh) as (b & h' & Hm & Hk). destruct (Hk h' eq_refl) as (a & h'' & Ha & HQ).
  exists a, h''. by rewrite (bind_Ok _ _ _ _ _ Hm).
Qed.

Lemma spec_mono (m : M handles A) R Q Q' : spec m R Q → (∀ a R', Q a R' → Q' a R') → spec m R Q'.
Proof. intros H HQ h Hh. destruct (H h Hh) as (a & h' & Hm & Ha). exists a, h'. auto. Qed.
End Spec.

Lemma spec_get R (Q : handles → registry → Prop) : (∀ h, shape h = R → Q h R) → spec get R Q.
Proof. intros H h Hh. exists h, h. split; [done|]. rewrite Hh. auto. Qed.

Lemma spec_modify f R (Q : unit → registry → Prop) : (∀ h, shape h = R → Q tt (shape (f h))) → spec (modify f) R Q.
Proof. intros H h Hh. exists tt, (f h). auto. Qed.

(** A change of what the registry does not see. *)
Lemma spec_quiet f R (Q : unit → registry → Prop) : (∀ h, shape (f h) = shape h) → Q tt R → spec (modify f) R Q.
Proof. intros Hf H. apply spec_modify. intros h <-. by rewrite Hf. Qed.
Lemma spec_client c R (Q : unit → registry → Prop) : Q tt R → spec (client c) R Q.
Proof. by apply spec_quiet. Qed.

(** A lookup in the store is one in the registry. *)
Lemma view_lookup {A B} (f : A → B) (m : gmap positive A) k v : (f <$> m) !! k = Some v → ∃ x, m !! k = Some x ∧ f x = v.
Proof. rewrite lookup_fmap. intros (x & Hx & ->)%fmap_Some. eauto. Qed.

Lemma spec_get_env e v R (Q : ENV → registry → Prop) : r_env R !! e = Some v → (∀ x, view_env x = v → Q x R) → spec (get_env e) R Q.
Proof. intros Hv HQ h <-. apply view_lookup in Hv as (x & Hx & Hvx). exists x, h. unfold get_env. rewrite get_bind, Hx. auto. Qed.
Lemma spec_get_dbc c v R (Q : DBC → registry → Prop) : r_dbc R !! c = Some v → (∀ x, view_dbc x = v → Q x R) → spec (get_dbc c) R Q.
Proof. intros Hv HQ h <-. apply view_lookup in Hv as (x & Hx & Hvx). exists x, h. unfold get_dbc. rewrite get_bind, Hx. auto. Qed.
Lemma spec_get_stmt s v R (Q : STMT → registry → Prop) : r_stmt R !! s = Some v → (∀ x, view_stmt x = v → Q x R) → spec (get_stmt s) R Q.
Proof. intros Hv HQ h <-. apply view_lookup in Hv as (x & Hx & Hvx). exists x, h. unfold get_stmt. rewrite get_bind, Hx. auto. Qed.
Lemma spec_get_desc d v R (Q : DESC → registry → Prop) : r_desc R !! d = Some v → (∀ x, view_desc x = v → Q x R) → spec (get_desc d) R Q.
Proof. intros Hv HQ h <-. apply view_lookup in Hv as (x & Hx & Hvx). exists x, h. unfold get_desc. rewrite get_bind, Hx. auto. Qed.

Lemma spec_put_env e x R (Q : unit → registry → Prop) : Q tt (on_env <[e := view_env x]> R) → spec (put_env e x) R Q.
Proof. intros H. apply spec_modify. intros h <-. unfold shape in *. cbn. by rewrite fmap_insert. Qed.
Lemma spec_put_dbc c x R (Q : unit → registry → Prop) : Q tt (on_dbc <[c := view_dbc x]> R) → spec (put_dbc c x) R Q.
Proof. intros H. apply spec_modify. intros h <-. unfold shape in *. cbn. by rewrite fmap_insert. Qed.
Lemma spec_put_stmt s x R (Q : unit → registry → Prop) : Q tt (on_stmt <[s := view_stmt x]> R) → spec (put_stmt s x) R Q.
Proof. intros H. apply spec_modify. intros h <-. unfold shape in *. cbn. by rewrite fmap_insert. Qed.
Lemma spec_put_desc d x R (Q : unit → registry → Prop) : Q tt (on_desc <[d := view_desc x]> R) → spec (put_desc d x) R Q.
Proof. intros H. apply spec_modify. intros h <-. unfold shape in *. cbn. by rewrite fmap_insert. Qed.

(** Changing a known entry. *)
Lemma insert_alter {A} (f : A → A) (m : gmap positive A) k v : m !! k = Some v → <[k := f v]> m = alter f k m.
Proof. intros H. apply map_eq. intros i. destruct (decide (i = k)) as [->|]; [by rewrite lookup_insert_eq, lookup_alter_eq, H|by rewrite lookup_insert_ne, lookup_alter_ne]. Qed.

Lemma spec_modify_env e f g v R (Q : unit → registry → Prop) :
  r_env R !! e = Some v → (∀ x, view_env (f x) = g (view_env x)) → Q tt (on_env (alter g e) R) → spec (modify_env e f) R Q.
Proof.
  intros Hv Hf HQ. apply spec_bind, (spec_get_env e v); [done|]. intros x <-. apply spec_put_env. rewrite Hf.
  unfold on_env in *. by rewrite insert_alter.
Qed.
Lemma spec_modify_dbc c f g v R (Q : unit → registry → Prop) :
  r_dbc R !! c = Some v → (∀ x, view_dbc (f x) = g (view_dbc x)) → Q tt (on_dbc (alter g c) R) → spec (modify_dbc c f) R Q.
Proof.
  intros Hv Hf HQ. apply spec_bind, (spec_get_dbc c v); [done|]. intros x <-. apply spec_put_dbc. rewrite Hf.
  unfold on_dbc in *. by rewrite insert_alter.
Qed.
Lemma spec_modify_stmt s f g v R (Q : unit → registry → Prop) :
  r_stmt R !! s = Some v → (∀ x, view_stmt (f x) = g (view_stmt x)) → Q tt (on_stmt (alter g s) R) → spec (modify_stmt s f) R Q.
Proof.
  intros Hv Hf HQ. apply spec_bind, (spec_get_stmt s v); [done|]. intros x <-. apply spec_put_stmt. rewrite Hf.
  unfold on_stmt in *. by rewrite insert_alter.
Qed.
Lemma spec_modify_desc d f g v R (Q : unit → registry → Prop) :
  r_desc R !! d = Some v → (∀ x, view_desc (f x) = g (view_desc x)) → Q tt (on_desc (alter g d) R) → spec (modify_desc d f) R Q.
Proof.
  intros Hv Hf HQ. apply spec_bind, (spec_get_desc d v); [done|]. intros x <-. apply spec_put_desc. rewrite Hf.
  unfold on_desc in *. by rewrite insert_alter.
Qed.

(** A change that the registry does not see leaves it. *)
Lemma on_env_id e R : on_env (alter id e) R = R.
Proof. unfold on_env. rewrite alter_id by done. by destruct R. Qed.
Lemma on_dbc_id c R : on_dbc (alter id c) R = R.
Proof. unfold on_dbc. rewrite alter_id by done. by destruct R. Qed.
Lemma on_stmt_id s R : on_stmt (alter id s) R = R.
Proof. unfold on_stmt. rewrite alter_id by done. by destruct R. Qed.
Lemma on_desc_id d R : on_desc (alter id d) R = R.
Proof. unfold on_desc. rewrite alter_id by done. by destruct R. Qed.

Lemma quiet_env e f R (Q : unit → registry → Prop) :
  is_Some (r_env R !! e) → (∀ x, view_env (f x) = view_env x) → Q tt R → spec (modify_env e f) R Q.
Proof. intros [v Hv] Hf HQ. apply (spec_modify_env e f id v); [done..|by rewrite on_env_id]. Qed.
Lemma quiet_dbc c f R (Q : unit → registry → Prop) :
  is_Some (r_dbc R !! c) → (∀ x, view_dbc (f x) = view_dbc x) → Q tt R → spec (modify_dbc c f) R Q.
Proof. intros [v Hv] Hf HQ. apply (spec_modify_dbc c f id v); [done..|by rewrite on_dbc_id]. Qed.
Lemma quiet_stmt s f R (Q : unit → registry → Prop) :
  is_Some (r_stmt R !! s) → (∀ x, view_stmt (f x) = view_stmt x) → Q tt R → spec (modify_stmt s f) R Q.
Proof. intros [v Hv] Hf HQ. apply (spec_modify_stmt s f id v); [done..|by rewrite on_stmt_id]. Qed.
Lemma quiet_desc d f R (Q : unit → registry → Prop) :
  is_Some (r_desc R !! d) → (∀ x, view_desc (f x) = view_desc x) → Q tt R → spec (modify_desc d f) R Q.
Proof. intros [v Hv] Hf HQ. apply (spec_modify_desc d f id v); [done..|by rewrite on_desc_id]. Qed.

Lemma assign_view l x : view_stmt (assign l x) = view_stmt x.
Proof. done. Qed.
Lemma light_reset_view x : view_stmt (light_reset x) = view_stmt x.
Proof. unfold light_reset. by destruct (is_set _ _). Qed.
Lemma free_result_bind_view x : view_stmt (free_result_bind x) = view_stmt x.
Proof. unfold free_result_bind. by destruct (is_set _ _). Qed.
Lemma reset_ptr_view f x : f ≠ H_alloc_type → view_desc (reset_ptr f x) = view_desc x.
Proof. intros Hf. unfold reset_ptr, view_desc, with_header, alloc_type. cbn. by rewrite fn_lookup_insert_ne. Qed.

(** A step of a call that the registry does not see. *)
Ltac quiet :=
  first [ apply spec_client
        | apply quiet_stmt; [by eauto | by intros; first [done | apply light_reset_view | apply free_result_bind_view] |]
        | apply quiet_desc; [by eauto | by intros; first [done | apply reset_ptr_view] |]
        | apply spec_ret ].
Ltac quiets := repeat first [ apply spec_bind; quiet | quiet ].

(** ** Statements refine the registry *)

(** The handles a statement works with are there. *)
Definition stmt_live (R : registry) (s : positive) (v : stmt_view) : Prop :=
  r_stmt R !! s = Some v ∧ is_Some (r_dbc R !! sv_dbc v) ∧
  is_Some (r_desc R !! sv_apd v) ∧ is_Some (r_desc R !! sv_ard v) ∧ is_Some (r_desc R !! sv_ird v) ∧ is_Some (r_desc R !! sv_ipd v).

Lemma good_stmt_live R s v : good R → r_stmt R !! s = Some v → stmt_live R s v.
Proof.
  intros HR Hv. destruct (good_stmt R HR s v Hv) as [(H1 & G1 & G2 & G3 & G4 & U1 & U2) _]. unfold implicit_desc, uses in *.
  change (sv_used DESC_PARAM v) with (sv_apd v) in U1. change (sv_used DESC_ROW v) with (sv_ard v) in U2.
  split; [done|]. split; [done|]. split_and!; eauto.
  - destruct U1 as [Ho|(w & Hw & _)]; [|eauto]. apply elem_of_cons in Ho as [->|Ho]; [eauto|]. apply list_elem_of_singleton in Ho as ->. eauto.
  - destruct U2 as [Ho|(w & Hw & _)]; [|eauto]. apply elem_of_cons in Ho as [->|Ho]; [eauto|]. apply list_elem_of_singleton in Ho as ->. eauto.
Qed.

Section FreeStmt.
Context (R : registry) (s : positive) (v : stmt_view) (HL : stmt_live R s v).

Lemma live_stmt : is_Some (r_stmt R !! s).
Proof. destruct HL as (H & _). eauto. Qed.
Hint Resolve live_stmt : core.

(** Reading the statement. *)
Lemma spec_stmt (Q : STMT → registry → Prop) :
  (∀ x, view_stmt x = v → Q x R) → spec (get_stmt s) R Q.
Proof. destruct HL as (H & _). by apply spec_get_stmt. Qed.

Lemma spec_free_unbind (Q : unit → registry → Prop) : Q tt R → spec (free_unbind s) R Q.
Proof.
  intros HQ. apply spec_bind, spec_stmt. intros x Hx. apply quiet_desc; [|done|done].
  destruct HL as (_ & _ & _ & H & _). by rewrite <- Hx in H.
Qed.

Lemma spec_free_reset_out_params (Q : unit → registry → Prop) : Q tt R → spec (free_reset_out_params s) R Q.
Proof.
  intros HQ. apply spec_bind, spec_stmt. intros x Hx. apply spec_bind.
  assert (spec (modify_stmt s (assign [zero W_out_params_state]);; modify_desc (apd x) free_paramdata;;
    modify_stmt s (assign [zero W_dae_type; zero W_scroller_next_offset])) R Q) as H.
  { apply spec_bind. quiet. apply spec_bind, quiet_desc; [|done|by quiet]. destruct HL as (_ & _ & H & _). by rewrite <- Hx in H. }
  destruct (_ =? _); quiet; exact H.
Qed.

Lemma spec_free_reset_params (Q : unit → registry → Prop) : Q tt R → spec (free_reset_params s) R Q.
Proof.
  intros HQ. apply spec_bind, spec_stmt. intros x Hx. apply quiet_desc; [|done|done].
  destruct HL as (_ & _ & H & _). by rewrite <- Hx in H.
Qed.

Lemma spec_free_fake_result b (Q : unit → registry → Prop) : Q tt R → spec (free_fake_result s b) R Q.
Proof.
  intros HQ. apply spec_bind, spec_stmt. intros x Hx. destruct (is_set _ _); [|destruct b; by quiet].
  apply spec_bind, spec_stmt. intros y Hy. destruct (is_set W_result y); [|by quiet]. apply spec_bind. destruct (is_set _ y); quiet; by quiet.
Qed.

Lemma spec_ssps_close (Q : unit → registry → Prop) : Q tt R → spec (ssps_close s) R Q.
Proof.
  intros HQ. apply spec_bind, spec_stmt. intros x Hx. apply spec_bind. destruct (is_set _ _); [|by quiets].
  apply spec_bind. quiet. apply spec_bind. quiet. quiet. by quiet.
Qed.
End FreeStmt.

Lemma view_remove_user s x : view_desc (stmt_list_remove s x) = remove_user s (view_desc x).
Proof.
  unfold stmt_list_remove, remove_user. cbn. destruct (Z.eqb_spec (alloc_type x) SQL_DESC_ALLOC_USER) as [E|E];
    [by rewrite decide_True|by rewrite decide_False].
Qed.
Lemma view_add_user s x : view_desc (stmt_list_add s x) = add_user s (view_desc x).
Proof.
  unfold stmt_list_add, add_user. cbn. destruct (Z.eqb_spec (alloc_type x) SQL_DESC_ALLOC_USER) as [E|E];
    [by rewrite decide_True|by rewrite decide_False].
Qed.

(** The destructor of a statement. *)
Lemma spec_delete_stmt R s v (Q : unit → registry → Prop) :
  r_stmt R !! s = Some v → is_Some (r_dbc R !! sv_dbc v) →
  Q tt (on_desc (λ m, delete (sv_ipd v) (delete (sv_imp_apd v) (delete (sv_ird v) (delete (sv_imp_ard v) m))))
         (on_stmt (delete s) (on_dbc (alter (λ y, dv_with_stmts (remove s (dv_stmts y)) y) (sv_dbc v)) R))) →
  spec (delete_stmt s) R Q.
Proof.
  intros Hv [y Hy] HQ. apply spec_bind, (spec_get_stmt s v); [done|]. intros x Hx. apply spec_bind. quiet. apply spec_bind.
  assert (spec (modify_stmt s (assign [zero W_setpos_apd]);;
    modify_dbc (s_dbc x) (λ c, with_c_stmt_list (filter (λ t, t ≠ s) (c_stmt_list c)) c);;
    modify (λ h, set_stmts (delete s (stmts h)) (set_descs (delete (ipd x) (delete (imp_apd x) (delete (ird x) (delete (imp_ard x) (descs h))))) h))) R Q) as H.
  { apply spec_bind. quiet. apply spec_bind. rewrite <- Hx in Hy.
    apply (spec_modify_dbc _ _ (λ y, dv_with_stmts (remove s (dv_stmts y)) y) y); [done..|]. apply spec_modify. intros h Hh. rewrite <- Hx in HQ.
    assert (shape (set_stmts (delete s (stmts h)) (set_descs (delete (ipd x) (delete (imp_apd x) (delete (ird x) (delete (imp_ard x) (descs h))))) h)) =
      on_desc (λ m, delete (ipd x) (delete (imp_apd x) (delete (ird x) (delete (imp_ard x) m)))) (on_stmt (delete s) (shape h))) as ->
      by (unfold shape, on_desc, on_stmt; cbn; by rewrite !fmap_delete).
    by rewrite Hh. }
  destruct (is_set _ _); [|by quiet]. apply spec_bind. quiet. quiet. exact H.
Qed.

Lemma spec_free_stmt R s v opt b (Q : Z → registry → Prop) :
  stmt_live R s v → Q SQL_SUCCESS (if decide (opt = SQL_DROP) then r_free_stmt s R else R) → spec (my_SQLFreeStmtExtended s opt b) R Q.
Proof.
  intros HL HQ. unfold my_SQLFreeStmtExtended. pose proof (live_stmt R s v HL) as Hlive. pose proof HL as (Hv & Hc & Hapd & Hard & Hird & Hipd).
  apply spec_bind. quiet. destruct (decide (opt = SQL_UNBIND)) as [->|N1].
  { apply spec_bind, (spec_free_unbind R s v HL). by quiet. }
  apply spec_bind, (spec_free_reset_out_params R s v HL). destruct (decide (opt = SQL_RESET_PARAMS)) as [->|N2].
  { apply spec_bind, (spec_free_reset_params R s v HL). by quiet. }
  apply spec_bind, (spec_free_fake_result R s v HL). apply spec_bind. quiet. apply spec_bind, (spec_get_stmt s v); [done|]. intros x Hx.
  apply spec_bind, quiet_desc; [by rewrite <- Hx in Hird|done|]. destruct (decide (opt = FREE_STMT_RESET_BUFFERS)) as [->|N3].
  { apply spec_bind. quiet. apply spec_bind. quiet. by quiet. }
  apply spec_bind. quiet. destruct (decide (opt = SQL_CLOSE)) as [->|N4]; [by quiet|].
  apply spec_bind.
  assert (∀ Q' : unit → registry → Prop, Q' tt R → spec (if b then
    modify_stmt s (assign [zero W_array]);; ssps_close s;; modify_stmt s (λ x, if is_set W_ssps x then free_result_bind x else x) else mret tt) R Q') as Hclear.
  { intros Q' HQ'. destruct b; [|by quiet]. apply spec_bind. quiet. apply spec_bind, (spec_ssps_close R s v HL).
    apply quiet_stmt; [done| |done]. intros z. destruct (is_set _ z); [apply free_result_bind_view|done]. }
  apply Hclear. apply spec_bind. quiet. apply spec_bind, (spec_get_stmt s v); [done|]. clear x Hx. intros x Hx.
  rewrite <- Hx in Hapd, Hard, Hird, Hipd. cbn in Hapd, Hard, Hird, Hipd.
  do 6 (apply spec_bind; apply quiet_desc; [done|intros; by apply reset_ptr_view|]). apply spec_bind. quiet.
  destruct (decide (opt = FREE_STMT_RESET)) as [->|N5]; [by quiet|]. assert (opt = SQL_DROP) as -> by by destruct opt.
  destruct Hapd as [wa Hwa], Hard as [wr Hwr].
  apply spec_bind, (spec_modify_desc _ _ (remove_user s) wa); [done|by intros; apply view_remove_user|].
  apply spec_bind, (spec_modify_desc _ _ (remove_user s) (if decide (ard x = apd x) then remove_user s wr else wr)).
  { cbn. destruct (decide (ard x = apd x)) as [E|E]; [rewrite E, lookup_alter_eq; rewrite E in Hwr; by rewrite Hwr|by rewrite lookup_alter_ne]. }
  { by intros; apply view_remove_user. }
  apply spec_bind, (spec_delete_stmt _ s v); [done|done|]. apply spec_ret. rewrite decide_True in HQ by done.
  unfold r_free_stmt in HQ. rewrite Hv in HQ. rewrite <- Hx in HQ |- *. exact HQ.
Qed.

(** ** The other operations refine the registry *)

Lemma spec_new_key R (Q : positive → registry → Prop) : Q (r_next R) (on_next Pos.succ R) → spec new_key R Q.
Proof. intros H h <-. eexists _, _. split; [done|]. exact H. Qed.

Lemma spec_set_env_error pre e i t n R (Q : Z → registry → Prop) :
  is_Some (r_env R !! e) → (∀ rc, Q rc R) → spec (set_env_error pre e i t n) R Q.
Proof. intros [x He] HQ. apply spec_bind, spec_get. intros h _. apply spec_bind, quiet_env; [by eauto|done|]. by apply spec_ret. Qed.

Lemma spec_alloc_env R (Q : Z * option positive → registry → Prop) :
  (∀ e, Q (SQL_SUCCESS, Some e) (r_alloc_env SQL_OV_ODBC3_80 R)) → spec my_SQLAllocEnv R Q.
Proof. intros HQ. apply spec_bind, spec_new_key. apply spec_bind, spec_put_env. by apply spec_ret. Qed.

Lemma spec_free_env e R (Q : Z → registry → Prop) :
  is_Some (r_env R !! e) → Q SQL_SUCCESS (r_free_env e R) → spec (my_SQLFreeEnv e) R Q.
Proof.
  intros [x Hx] HQ. apply spec_bind, (spec_get_env e x); [done|]. intros y _. apply spec_bind, spec_modify. intros h <-.
  apply spec_ret. unfold r_free_env, shape, on_env in *. cbn in *. by rewrite fmap_delete.
Qed.

Lemma spec_free_explicit c y R (Q : unit → registry → Prop) :
  r_dbc R !! c = Some y → (∀ d, d ∈ dv_descs y → is_Some (r_desc R !! d)) → NoDup (dv_descs y) →
  Q tt (r_free_descs c R) → spec (free_explicit_descriptors c) R Q.
Proof.
  intros Hy Hd Hnd HQ. apply spec_bind, (spec_get_dbc c y); [done|]. intros x <-.
  apply spec_bind, (spec_modify_dbc c _ (dv_with_descs []) (view_dbc x)); [done..|].
  assert (on_dbc (alter (dv_with_descs []) c) R = on_dbc <[c := dv_with_descs [] (view_dbc x)]> R) as ->.
  { unfold on_dbc. by rewrite (insert_alter (dv_with_descs [])). }
  unfold r_free_descs in HQ. rewrite Hy in HQ. cbn [view_dbc dv_descs] in *.
  set (R1 := on_dbc _ R) in *. assert (∀ d, d ∈ c_desc_list x → is_Some (r_desc R1 !! d)) as Hd1 by done. clearbody R1. clear Hd Hy.
  revert R1 HQ Hd1. induction (c_desc_list x) as [|d l IH]; intros R1 HQ Hd1.
  - apply spec_ret. by destruct R1.
  - cbn [mapM_]. destruct (Hd1 d ltac:(by left)) as [w Hw]. apply NoDup_cons in Hnd as [Hnin Hnd].
    apply spec_bind, spec_bind, (spec_get_desc d w); [done|]. intros z _. apply spec_modify. intros h <-.
    apply (IH Hnd).
    + assert (on_desc (λ m, foldr delete m l) (shape (set_descs (delete d (descs h)) h)) = on_desc (λ m, foldr delete m (d :: l)) (shape h)) as ->; [|done].
      unfold on_desc, shape. cbn. f_equal. rewrite fmap_delete. clear. induction l as [|k l IH]; [done|]. cbn. by rewrite IH, delete_delete.
    + intros k Hk. unfold shape. cbn. rewrite fmap_delete, lookup_delete_ne by (intros ->; done). apply (Hd1 k). by right.
Qed.

Lemma spec_delete_dbc c y R (Q : unit → registry → Prop) :
  r_dbc R !! c = Some y → is_Some (r_env R !! dv_env y) → (∀ d, d ∈ dv_descs y → is_Some (r_desc R !! d)) → NoDup (dv_descs y) →
  Q tt (r_free_dbc c R) → spec (delete_dbc c) R Q.
Proof.
  intros Hy [e He] Hd Hnd HQ. apply spec_bind, (spec_get_dbc c y); [done|]. intros x <-. apply spec_bind.
  apply (spec_modify_env _ _ (λ x, ev_with (remove c (ev_conns x)) x) e); [done..|].
  apply spec_bind, (spec_free_explicit c (view_dbc x)); [done..|]. apply spec_modify. intros h Hh.
  unfold r_free_dbc in HQ. rewrite Hy in HQ. cbn [view_dbc dv_env] in HQ. rewrite <- Hh in HQ.
  unfold on_dbc, shape in *. cbn in *. by rewrite fmap_delete.
Qed.

Lemma good_dbc_descs R c y : good R → r_dbc R !! c = Some y → NoDup (dv_descs y) ∧ ∀ d, d ∈ dv_descs y → is_Some (r_desc R !! d).
Proof.
  intros HR Hy. destruct (good_dbc R HR c y Hy) as [(_ & _ & _ & H1 & H2) _]. split; [done|]. intros d (w & Hw & _)%H2. eauto.
Qed.

Lemma spec_free_connect c y R (Q : Z → registry → Prop) :
  good R → r_dbc R !! c = Some y → Q SQL_SUCCESS (r_free_dbc c R) → spec (my_SQLFreeConnect c) R Q.
Proof.
  intros HR Hy HQ. destruct (good_dbc_descs R c y HR Hy) as [H1 H2]. apply spec_bind, (spec_delete_dbc c y); [done|by eapply live_dbc_env|done..|].
  apply spec_bind, spec_get. intros h _. apply spec_bind. destruct (_ =? 0); [by quiets|]. apply spec_bind, spec_quiet; [done|].
  destruct (_ =? 0); by quiets.
Qed.

(** Disconnecting: each statement is taken from the list and freed. *)
Lemma pop_free s v y l R :
  r_stmt R !! s = Some v → r_dbc R !! sv_dbc v = Some y → dv_stmts y = s :: l → NoDup (s :: l) →
  r_free_stmt s (on_dbc (alter (λ y, dv_with_stmts (tail (dv_stmts y)) y) (sv_dbc v)) R) = r_free_stmt s R.
Proof.
  intros Hv Hy Hl Hs. unfold r_free_stmt. cbn. rewrite Hv. unfold on_desc, on_stmt, on_dbc. cbn. f_equal.
  apply map_eq. intros k. destruct (decide (k = sv_dbc v)) as [->|Hne]; [|by rewrite !lookup_alter_ne].
  rewrite !lookup_alter_eq, Hy. unfold dv_with_stmts. cbn [fmap option_fmap option_map dv_stmts dv_env dv_descs]. rewrite Hl.
  cbn [tail]. rewrite remove_head by done. rewrite remove_id; [done|]. by apply NoDup_cons in Hs as [? _].
Qed.

Lemma spec_free_stmts c y R (Q : unit → registry → Prop) :
  good R → r_dbc R !! c = Some y → Q tt (r_free_stmts (dv_stmts y) R) → spec (free_connection_stmts c) R Q.
Proof.
  intros HR Hy HQ. apply spec_bind, (spec_get_dbc c y); [done|]. intros x Hx. apply spec_bind.
  assert (c_stmt_list x = dv_stmts y) as -> by by rewrite <- Hx. clear x Hx.
  remember (dv_stmts y) as l eqn:Hl. symmetry in Hl. revert y R HR Hy Hl HQ. induction l as [|s l IH]; intros y R HR Hy Hl HQ.
  - apply spec_ret. apply (spec_modify_dbc _ _ (λ y, dv_with_stmts [] y) y); [done..|].
    assert (on_dbc (alter (λ y, dv_with_stmts [] y) c) R = R) as ->; [|exact HQ]. unfold on_dbc. rewrite alter_id; [by destruct R|].
    intros z Hz. assert (z = y) as -> by congruence. destruct y. cbn in *. by subst.
  - destruct (good_dbc R HR c y Hy) as [(_ & Hnd & Hs & _) _]. rewrite Hl in Hnd, Hs.
    assert (sv_dbc <$> r_stmt R !! s = Some c) as (v & Hv & Hvc)%fmap_Some by (apply Hs; by left).
    assert (r_dbc (r_free_stmt s R) !! c = Some (dv_with_stmts l y)) as Hy'.
    { rewrite (free_stmt_dbc s v R Hv), <- Hvc, lookup_alter_eq, Hy. cbn. by rewrite Hl, remove_head. }
    cbn [mapM_]. apply spec_bind, spec_bind. apply (spec_modify_dbc _ _ (λ y, dv_with_stmts (tail (dv_stmts y)) y) y); [done..|].
    apply spec_bind, (spec_free_stmt _ s v).
    + destruct (good_stmt_live R s v HR Hv) as (H1 & H2 & H3). split; [done|]. split; [|done]. cbn. by rewrite lookup_alter_is_Some.
    + rewrite decide_True by done. subst c. rewrite (pop_free s v y l) by done. apply spec_ret.
      apply (IH (dv_with_stmts l y) (r_free_stmt s R)); [apply good_free_stmt; eauto|done|done|exact HQ].
Qed.

Lemma spec_disconnect c y R (Q : Z → registry → Prop) :
  good R → r_dbc R !! c = Some y → Q SQL_SUCCESS (r_free_stmts (dv_stmts y) R) → spec (SQLDisconnect c) R Q.
Proof. intros HR Hy HQ. apply spec_bind, (spec_free_stmts c y); [done..|]. by quiets. Qed.

Lemma spec_reset_connection c y R (Q : Z → registry → Prop) :
  good R → r_dbc R !! c = Some y → Q SQL_SUCCESS (r_free_descs c (r_free_stmts (dv_stmts y) R)) → spec (set_reset_connection c) R Q.
Proof.
  intros HR Hy HQ. apply spec_bind, spec_bind, (spec_free_stmts c y); [done..|].
  destruct (good_free_stmts _ c y R Hy eq_refl HR) as [HG Hy']. destruct (good_dbc_descs _ c _ HG Hy') as [H1 H2].
  apply (spec_free_explicit c (dv_with_stmts [] y)); [done..|]. apply spec_bind, quiet_dbc; [|done|by quiets].
  unfold r_free_descs. rewrite Hy'. cbn. rewrite lookup_insert_eq. eauto.
Qed.

Lemma spec_alloc_connect cv mv wv pre e x R (Q : Z * option positive → registry → Prop) :
  r_env R !! e = Some x → ev_ver x ≠ 0 → r_env R !! e ≠ None →
  (∀ rc, cv < mv → Q (rc, None) R) → (mv ≤ cv → ∀ c, Q (SQL_SUCCESS, Some c) (r_alloc_dbc e R)) →
  spec (my_SQLAllocConnect cv mv wv pre e) R Q.
Proof.
  intros Hx Hver _ HF HS. apply spec_bind, spec_get. intros h _. apply spec_bind.
  assert (spec (modify (λ h, set_thread_count (thread_count h + 1) h);;
    (if cv <? mv then rc ← set_env_error pre e MYERR_S1000 (Some wv) 0; mret (rc, None)
     else x ← get_env e;
       if odbc_ver x =? 0 then
         rc ← set_env_error pre e MYERR_S1010 (Some (S!"Can't allocate connection until ODBC version specified.")) 0; mret (rc, None)
       else c ← new_dbc e; mret (SQL_SUCCESS, Some c))) R Q) as H; [|destruct (_ =? 0); quiet; exact H].
  apply spec_bind, spec_quiet; [done|]. destruct (Z.ltb_spec cv mv).
  - apply spec_bind, spec_set_env_error; [by eauto|]. intros rc. by apply spec_ret, HF.
  - apply spec_bind, (spec_get_env e x); [done|]. intros y <-. destruct (Z.eqb_spec (odbc_ver y) 0); [done|].
    apply spec_bind, spec_bind, spec_new_key. apply spec_bind, spec_put_dbc.
    apply spec_bind, (spec_get_env e (view_env y)); [done|]. intros z _. apply spec_bind, spec_quiet; [done|].
    apply spec_bind, (spec_modify_env _ _ (λ x, ev_with (ev_conns x ++ [r_next R]) x) (view_env y)); [done..|].
    apply spec_ret, spec_ret. by apply HS.
Qed.

Lemma view_new_desc at_ ar rt dt st c :
  view_desc (Desc (<[H_alloc_type := at_]> (<[H_array_size := ar]> (λ _, 0))) 0 dt rt [] [] no_error st c []) = DescV at_ dt rt st c [].
Proof. unfold view_desc, alloc_type. cbn. by rewrite fn_lookup_insert. Qed.

Lemma spec_new_stmt c y R (Q : positive → registry → Prop) :
  r_dbc R !! c = Some y → Q (r_next R) (r_alloc_stmt c R) → spec (new_stmt c) R Q.
Proof.
  intros Hy HQ. apply spec_bind, (spec_get_dbc c y); [done|]. intros x _. do 5 (apply spec_bind, spec_new_key).
  do 4 (apply spec_bind, spec_put_desc; rewrite view_new_desc). apply spec_bind, spec_put_stmt.
  apply spec_bind, (spec_modify_dbc _ _ (λ y, dv_with_stmts (dv_stmts y ++ [r_next R]) y) y); [done..|]. by apply spec_ret.
Qed.

Lemma spec_alloc_stmt c b y R (Q : Z * option positive → registry → Prop) :
  r_dbc R !! c = Some y → Q (SQL_ERROR, None) R → Q (SQL_SUCCESS, Some (r_next R)) (r_alloc_stmt c R) → spec (my_SQLAllocStmt c b) R Q.
Proof.
  intros Hy HF HS. apply spec_bind, (spec_get_dbc c y); [done|]. intros x _.
  assert (spec (s ← new_stmt c; mret (SQL_SUCCESS, Some s)) R Q) as H by (apply spec_bind, (spec_new_stmt c y); [done|]; by quiet).
  apply spec_bind. destruct (need_to_wakeup x); [|by quiet]. apply spec_bind. quiet. destruct b; [by quiets|].
  apply spec_bind, quiet_dbc; [by eauto|done|]. by quiet.
Qed.

Lemma spec_alloc_desc c y R (Q : Z * option positive → registry → Prop) :
  r_dbc R !! c = Some y → Q (SQL_SUCCESS, Some (r_next R)) (r_alloc_desc c R) → spec (my_SQLAllocDesc c) R Q.
Proof.
  intros Hy HQ. apply spec_bind, spec_new_key. apply spec_bind, spec_put_desc. rewrite view_new_desc.
  apply spec_bind, (spec_modify_dbc _ _ (λ y, dv_with_descs (dv_descs y ++ [r_next R]) y) y); [done..|]. by apply spec_ret.
Qed.

Lemma spec_set_desc_error pre d st m n R (Q : Z → registry → Prop) :
  is_Some (r_desc R !! d) → Q SQL_ERROR R → spec (set_desc_error pre d st m n) R Q.
Proof.
  intros [w Hw] HQ. apply spec_bind, (spec_get_desc d w); [done|]. intros x Hx. apply spec_bind, spec_put_desc. apply spec_ret.
  assert (on_desc <[d := view_desc (with_error (error_of_state pre (Some st) (Some m) n (Some pre)) x)]> R = R) as ->; [|done].
  unfold on_desc. rewrite insert_id; [by destruct R|]. by rewrite Hw, <- Hx.
Qed.

(** Freeing a descriptor: the loop over its statements. *)
Lemma spec_give_back t (g : positive → M handles unit) f l : ∀ R (Q : unit → registry → Prop),
  (∀ s, s ∈ l → is_Some (r_stmt R !! s)) →
  (l ≠ [] → (∀ s, g s = modify_stmt s f) ∧ ∀ z, view_stmt (f z) = sv_with t (sv_imp t (view_stmt z)) (view_stmt z)) →
  Q tt (on_stmt (λ m, foldl (λ m s, alter (λ v, sv_with t (sv_imp t v) v) s m) m l) R) → spec (mapM_ g l) R Q.
Proof.
  induction l as [|s l IH]; intros R Q Hl Hg HQ; [apply spec_ret; by destruct R|]. cbn [mapM_].
  destruct (Hg ltac:(done)) as [Hgs Hf]. destruct (Hl s ltac:(by left)) as [v Hv]. apply spec_bind. rewrite Hgs.
  apply (spec_modify_stmt _ _ (λ v, sv_with t (sv_imp t v) v) v); [done..|]. apply IH; [|done|done].
  intros u Hu. cbn. rewrite lookup_alter_is_Some. apply Hl. by right.
Qed.

Lemma foldl_foldr_alter (f : stmt_view → stmt_view) l (m : gmap positive stmt_view) :
  (∀ v, f (f v) = f v) → foldl (λ m s, alter f s m) m l = foldr (λ s, alter f s) m l.
Proof.
  intros Hf. apply map_eq. intros k. rewrite lookup_foldr_alter by done. revert m. induction l as [|s l IH]; intros m; [done|].
  cbn [foldl]. rewrite IH. destruct (decide (k = s)) as [->|Hne].
  - rewrite lookup_alter_eq. destruct (decide (s ∈ s :: l)) as [_|Hn]; [|exfalso; apply Hn; by left].
    destruct (decide (s ∈ l)); [|done]. destruct (m !! s); cbn; [by rewrite Hf|done].
  - rewrite lookup_alter_ne by done. destruct (decide (k ∈ l)), (decide (k ∈ s :: l)); [done| | |done]; exfalso; set_solver.
Qed.

Lemma spec_free_desc pre d w R (Q : Z → registry → Prop) :
  good R → r_desc R !! d = Some w →
  (¬ explicit w → Q SQL_ERROR R) → (explicit w → Q SQL_SUCCESS (r_free_desc d R)) → spec (my_SQLFreeDesc pre d) R Q.
Proof.
  intros HR Hw HF HS. apply spec_bind, (spec_get_desc d w); [done|]. intros x Hx.
  assert (explicit w ↔ alloc_type x = SQL_DESC_ALLOC_USER) as Hex by by rewrite <- Hx.
  destruct (Z.eqb_spec (alloc_type x) SQL_DESC_ALLOC_USER) as [E|E]; cbn [negb].
  2: { apply spec_set_desc_error; [eauto|]. apply HF. by rewrite Hex. }
  apply Hex in E. specialize (HS E). destruct (good_desc R HR d w Hw) as [[(Ha & _)|(_ & Hst & Hrf & (c & Hdc & [y Hc]) & Hus)] _].
  { unfold explicit in E. by rewrite Ha in E. }
  assert (d_dbc x = Some c) as -> by (rewrite <- Hdc, <- Hx; done). cbn [deref]. apply spec_bind, spec_ret.
  apply spec_bind, (spec_modify_dbc _ _ (λ y, dv_with_descs (remove d (dv_descs y)) y) y); [done..|]. apply spec_bind.
  assert (stmt_list x = xv_users w) as Hxl by by rewrite <- Hx. assert (desc_type x = xv_type w ∧ ref_type x = DESC_APP) as (Hxt & Hxr).
  { rewrite <- Hrf, <- Hx. done. }
  apply (spec_give_back (xv_type w) _ (if is_apd x then λ z, with_apd (imp_apd z) z else λ z, with_ard (imp_ard z) z)).
  - intros s Hs. rewrite Hxl in Hs. destruct (Hus s Hs) as (_ & v & Hv & _). cbn. eauto.
  - unfold is_apd, is_ard. rewrite Hxt, Hxr, Hxl. destruct (xv_users w) as [|s l]; [done|intros _]. destruct (Hus s ltac:(by left)) as (Ht & _).
    by destruct (xv_type w).
  - apply spec_bind, spec_modify. intros h Hh. apply spec_ret. unfold r_free_desc in HS. rewrite Hw, Hdc in HS. rewrite Hxl in Hh.
    unfold on_stmt in Hh. cbv beta in Hh. rewrite foldl_foldr_alter in Hh by (intros u; by rewrite sv_imp_with, sv_with_twice).
    assert (shape (set_descs (delete d (descs h)) h) = on_desc (delete d) (shape h)) as -> by (unfold shape, on_desc; cbn; by rewrite fmap_delete).
    rewrite Hh. exact HS.
Qed.

Lemma alter_alter {A} (f g : A → A) (m : gmap positive A) k : alter f k (alter g k m) = alter (λ x, f (g x)) k m.
Proof.
  apply map_eq. intros i. destruct (decide (i = k)) as [->|]; [rewrite !lookup_alter_eq; by destruct (m !! k)|by rewrite !lookup_alter_ne].
Qed.

#[export] Instance may_use_dec s v t w : Decision (may_use s v t w).
Proof. unfold may_use, explicit. apply _. Defined.

(** The tests of [set_app_desc] let through what a statement may use. *)
Lemma set_app_tests R s v t d w (x : DESC) :
  good R → r_stmt R !! s = Some v → r_desc R !! d = Some w →
  alloc_type x = xv_alloc w → d_stmt x = xv_stmt w → d_dbc x = xv_dbc w → desc_type x = xv_type w →
  may_use s v t w ↔
  (alloc_type x =? SQL_DESC_ALLOC_AUTO) && negb (bool_decide (d_stmt x = Some s)) = false ∧
  (alloc_type x =? SQL_DESC_ALLOC_USER) && negb (bool_decide (d_dbc x = Some (sv_dbc v))) = false ∧
  negb (bool_decide (desc_type x = DESC_UNKNOWN)) && negb (bool_decide (desc_type x = t)) = false.
Proof.
  intros HR Hv Hw -> -> -> ->. rewrite !andb_false_iff, !negb_false_iff, !Z.eqb_neq, !bool_decide_eq_true.
  unfold may_use, explicit. destruct (good_desc R HR d w Hw) as [[(Ha & _)|(Hx & _)] _].
  - rewrite !Ha. split; [intros [(_ & ? & ?)|(H & _)]; [auto|discriminate H]|]. intros ([?|Hs] & _ & Ht); [done|].
    left. split; [done|]. split; [done|]. destruct Ht as [Ht|Ht]; [|done]. exfalso.
    pose proof (own_stmt R s v d w HR Hw Ha Hs Hv) as Ho. destruct (good_stmt R HR s v Hv) as [(_ & G1 & G2 & G3 & G4 & _) _].
    unfold implicit_desc, sv_own in *.
    repeat (apply elem_of_cons in Ho as [->|Ho]; [assert (w = w) as _ by done; simplify_eq; cbn in Ht; discriminate Ht|]). by apply elem_of_nil in Ho.
  - unfold explicit in Hx. rewrite !Hx. split; [intros [(H & _)|(_ & Hd & Ht)]; [discriminate H|auto]|]. intros (_ & [?|Hd] & Ht); [done|]. right. auto.
Qed.

Lemma spec_stmt_set_error_id R s v i m n (Q : Z → registry → Prop) :
  r_stmt R !! s = Some v → is_Some (r_dbc R !! sv_dbc v) → (∀ rc, Q rc R) → spec (stmt_set_error_id s i m n) R Q.
Proof.
  intros Hv [y Hc] HQ. apply spec_bind, spec_get. intros h _. apply spec_bind, (spec_get_stmt s v); [done|]. intros x Hx.
  rewrite <- Hx in Hc. apply spec_bind, (spec_get_dbc _ y); [done|]. intros c _. apply spec_bind, spec_put_stmt. apply spec_ret.
  match goal with |- Q _ ?R' => assert (R' = R) as ->; [|done] end. unfold on_stmt. rewrite insert_id; [by destruct R|].
  rewrite Hv, <- Hx. done.
Qed.

Lemma view_with_dest (t : desc_desc_type) d z : t ≠ DESC_UNKNOWN →
  view_stmt ((if decide (t = DESC_PARAM) then with_apd d else with_ard d) z) = sv_with t d (view_stmt z).
Proof. by destruct t. Qed.

Lemma spec_set_app_desc R s v t od (Q : Z → registry → Prop) :
  good R → r_stmt R !! s = Some v → t ≠ DESC_UNKNOWN →
  match od with
  | None => Q SQL_SUCCESS (r_use_own s t R)
  | Some d => ∃ w, r_desc R !! d = Some w ∧
      (may_use s v t w → Q SQL_SUCCESS (r_use_desc s t d R)) ∧ (¬ may_use s v t w → ∀ rc, Q rc (r_leave_desc s t R))
  end → spec (set_app_desc s t od) R Q.
Proof.
  intros HR Hv Ht HQ. pose proof (good_stmt_live R s v HR Hv) as (_ & Hc & Hapd & Hard & _ & _).
  apply spec_bind. quiet. apply spec_bind, (spec_get_stmt s v); [done|]. intros x Hx.
  assert ((if decide (t = DESC_PARAM) then apd x else ard x) = sv_used t v) as -> by by rewrite <- Hx.
  assert (is_Some (r_desc R !! sv_used t v)) as [wu Hwu] by (unfold sv_used; by destruct (decide _)).
  apply spec_bind, (spec_modify_desc _ _ (remove_user s) wu); [done|intros; by apply view_remove_user|].
  assert (on_desc (alter (remove_user s) (sv_used t v)) R = r_leave_desc s t R) as -> by (unfold r_leave_desc; by rewrite Hv).
  assert (r_stmt (r_leave_desc s t R) !! s = Some v ∧ r_dbc (r_leave_desc s t R) = r_dbc R) as [Hv' Hc'] by (unfold r_leave_desc; by rewrite Hv).
  destruct od as [d|].
  - destruct HQ as (w & Hw & HS & HF). destruct (leave_fwd s (sv_used t v) (r_desc R) d w Hw) as (w' & Hw' & A1 & A2 & A3 & A4 & A5 & A6).
    assert (r_desc (r_leave_desc s t R) !! d = Some w') as Hd by (unfold r_leave_desc; by rewrite Hv).
    apply spec_bind, (spec_get_desc d w'); [done|]. intros y Hy.
    assert (s_dbc x = sv_dbc v) as -> by by rewrite <- Hx.
    assert (may_use s v t w ↔ _) as Hm by (apply (set_app_tests R s v t d w y HR Hv Hw); [rewrite <- A1|rewrite <- A4|rewrite <- A5|rewrite <- A2]; by rewrite <- Hy).
    assert (∀ i m n, ¬ may_use s v t w → spec (stmt_set_error_id s i m n) (r_leave_desc s t R) Q) as Herr.
    { intros i m n Hn. apply (spec_stmt_set_error_id _ s v); [done|by rewrite Hc'|]. by apply HF. }
    destruct ((alloc_type y =? _) && negb (bool_decide (d_stmt y = _))); [apply Herr; rewrite Hm; by intros (? & _)|].
    destruct ((alloc_type y =? _) && _); [apply Herr; rewrite Hm; by intros (_ & ? & _)|].
    destruct (negb _ && _); [apply Herr; rewrite Hm; by intros (_ & _ & ?)|].
    assert (may_use s v t w) as Hmay by (by apply Hm).
    apply spec_bind, (spec_modify_desc _ _ (add_user s) w'); [done|intros; by apply view_add_user|].
    apply spec_bind, (spec_modify_desc _ _ (xv_with_type t) (add_user s w')); [cbn; by rewrite lookup_alter_eq, Hd|done|].
    apply spec_bind, (spec_modify_stmt _ _ (sv_with t d) v); [done|intros; by apply view_with_dest|]. apply spec_ret.
    specialize (HS Hmay). unfold r_use_desc in HS. unfold on_stmt, on_desc in *. cbn in *. by rewrite alter_alter.
  - assert ((if decide (t = DESC_PARAM) then imp_apd x else imp_ard x) = sv_imp t v) as -> by by rewrite <- Hx.
    apply spec_bind, (spec_modify_stmt _ _ (sv_with t (sv_imp t v)) v); [done|intros; by apply view_with_dest|]. apply spec_ret.
    unfold r_use_own in HQ. set (R1 := r_leave_desc s t R) in *. unfold on_stmt in *.
    rewrite <- (insert_alter (sv_with t (sv_imp t v)) _ _ v) by done. by rewrite <- (insert_alter (λ v, sv_with t (sv_imp t v) v) _ _ v) in HQ.
Qed.

(** What setting an attribute of an environment does. *)
Definition set_ver_ok (a v : Z) (x : env_view) : bool :=
  bool_decide (ev_conns x = []) && (a =? 200) && bool_decide (v ∈ [SQL_OV_ODBC2; SQL_OV_ODBC3; SQL_OV_ODBC3_80]).

Lemma spec_set_env_attr pre e x a v R (Q : Z → registry → Prop) :
  r_env R !! e = Some x → (∀ rc, Q rc (if set_ver_ok a v x then r_set_ver e v R else R)) → spec (SQLSetEnvAttr pre e a v) R Q.
Proof.
  intros Hx HQ. apply spec_bind, (spec_get_env e x); [done|]. intros y Hy. unfold set_ver_ok in HQ. unfold has_connections.
  assert (conn_list y = ev_conns x) as -> by by rewrite <- Hy.
  assert (∀ i m n, (∀ rc, Q rc R) → spec (set_env_error pre e i m n) R Q) as Herr by (intros; apply spec_set_env_error; [eauto|done]).
  case_bool_decide; cbn [negb andb] in *; [|by apply Herr]. destruct (a =? 200); cbn [andb] in *.
  - case_bool_decide; [|by apply Herr]. apply spec_bind, (spec_modify_env _ _ (λ x, EnvV v (ev_conns x)) x); [done..|]. by apply spec_ret.
  - destruct ((a =? 10001) && _); [by apply spec_ret|by apply Herr].
Qed.

Lemma good_set_env_attr e x a v R : good R → good (if set_ver_ok a v x then r_set_ver e v R else R).
Proof.
  intros HR. destruct (set_ver_ok a v x) eqn:E; [|done]. apply good_set_ver; [|done]. intros ->. unfold set_ver_ok in E.
  apply andb_true_iff in E as [_ E%bool_decide_eq_true]. revert E. apply (bool_decide_unpack _). vm_compute. exact I.
Qed.

(** ** Sequences of calls *)

(** The calls of an application that make, free and connect handles. *)
Inductive call :=
  | AllocEnv | FreeEnv (e : positive) | SetEnvAttr (e : positive) (attribute v : Z)
  | AllocConnect (e : positive) | FreeConnect (c : positive) | Disconnect (c : positive) | ResetConnection (c : positive)
  | AllocStmt (c : positive) (wakeup_fails : bool) | FreeStmt (s : positive) (o : free_option)
  | AllocDesc (c : positive) | FreeDesc (d : positive)
  | SetAppDesc (s : positive) (t : desc_desc_type) (d : option positive).

Section Calls.
Context (client_version MIN_MYSQL_VERSION : Z) (wrong_version : str) (MYODBC_ERROR_PREFIX : str).

Definition result (m : M handles (Z * option positive)) : M handles Z := r ← m; mret r.1.

Definition run (k : call) : M handles Z :=
  match k with
  | AllocEnv => result my_SQLAllocEnv
  | FreeEnv e => my_SQLFreeEnv e
  | SetEnvAttr e a v => SQLSetEnvAttr MYODBC_ERROR_PREFIX e a v
  | AllocConnect e => result (my_SQLAllocConnect client_version MIN_MYSQL_VERSION wrong_version MYODBC_ERROR_PREFIX e)
  | FreeConnect c => my_SQLFreeConnect c
  | Disconnect c => SQLDisconnect c
  | ResetConnection c => set_reset_connection c
  | AllocStmt c b => result (my_SQLAllocStmt c b)
  | FreeStmt s o => my_SQLFreeStmt s o
  | AllocDesc c => result (my_SQLAllocDesc c)
  | FreeDesc d => my_SQLFreeDesc MYODBC_ERROR_PREFIX d
  | SetAppDesc s t d => set_app_desc s t d
  end.

(** What a call needs: live handles, no connections of an environment and no
    statements of a connection that is freed, and, when a statement takes a
    descriptor it may not use, that it uses one of its own.  The first are the
    rules of ODBC; the last is not. *)
Definition permitted (R : registry) (k : call) : Prop :=
  match k with
  | AllocEnv => True
  | FreeEnv e => ∃ x, r_env R !! e = Some x ∧ ev_conns x = []
  | SetEnvAttr e _ _ | AllocConnect e => is_Some (r_env R !! e)
  | FreeConnect c => ∃ y, r_dbc R !! c = Some y ∧ dv_stmts y = []
  | Disconnect c | ResetConnection c | AllocStmt c _ | AllocDesc c => is_Some (r_dbc R !! c)
  | FreeStmt s _ => is_Some (r_stmt R !! s)
  | FreeDesc d => is_Some (r_desc R !! d)
  | SetAppDesc s t od => t ≠ DESC_UNKNOWN ∧ ∃ v, r_stmt R !! s = Some v ∧
      match od with
      | None => True
      | Some d => ∃ w, r_desc R !! d = Some w ∧ (may_use s v t w ∨ sv_used t v ∈ sv_own v)
      end
  end.

(** What a call that returns [rc] does to the registry. *)
Definition effect (k : call) (rc : Z) (R : registry) : registry :=
  match k with
  | AllocEnv => r_alloc_env SQL_OV_ODBC3_80 R
  | FreeEnv e => r_free_env e R
  | SetEnvAttr e a v =>
      match r_env R !! e with Some x => if set_ver_ok a v x then r_set_ver e v R else R | None => R end
  | AllocConnect e => if client_version <? MIN_MYSQL_VERSION then R else r_alloc_dbc e R
  | FreeConnect c => r_free_dbc c R
  | Disconnect c => match r_dbc R !! c with Some y => r_free_stmts (dv_stmts y) R | None => R end
  | ResetConnection c => match r_dbc R !! c with Some y => r_free_descs c (r_free_stmts (dv_stmts y) R) | None => R end
  | AllocStmt c _ => if rc =? SQL_SUCCESS then r_alloc_stmt c R else R
  | FreeStmt s o => if decide (o = SQL_DROP) then r_free_stmt s R else R
  | AllocDesc c => r_alloc_desc c R
  | FreeDesc d => if rc =? SQL_SUCCESS then r_free_desc d R else R
  | SetAppDesc s t None => r_use_own s t R
  | SetAppDesc s t (Some d) =>
      match r_stmt R !! s, r_desc R !! d with
      | Some v, Some w => if decide (may_use s v t w) then r_use_desc s t d R else R
      | _, _ => R
      end
  end.

Lemma spec_result m R (Q : Z → registry → Prop) : spec m R (λ r R', Q r.1 R') → spec (result m) R Q.
Proof. intros H. apply spec_bind. eapply spec_mono; [exact H|]. intros a R' HQ. by apply spec_ret. Qed.

(** A statement that leaves its own descriptor leaves nothing. *)
Lemma leave_own R s v t : good R → r_stmt R !! s = Some v → sv_used t v ∈ sv_own v → r_leave_desc s t R = R.
Proof.
  intros HR Hv Ho. destruct (good_stmt R HR s v Hv) as [HG _]. destruct (own_implicit R s v _ HG Ho) as (w & Hw & Ha & _).
  unfold r_leave_desc. rewrite Hv. unfold on_desc. rewrite alter_id; [by destruct R|]. intros y Hy. assert (y = w) as -> by congruence.
  unfold remove_user. by rewrite decide_False by (rewrite Ha; discriminate).
Qed.

(** Each call refines the operation of the registry and keeps it good. *)
Lemma call_refines R k : good R → permitted R k → spec (run k) R (λ rc R', R' = effect k rc R ∧ good R').
Proof.
  intros HR Hp. destruct k as [|e|e a x|e|c|c|c|c b|s o|c|d|s t od]; cbn [run effect permitted] in *.
  - apply spec_result, spec_alloc_env. intros e. split; [done|]. by apply good_alloc_env.
  - destruct Hp as (x & Hx & Hn). apply spec_free_env; [eauto|]. split; [done|]. by eapply good_free_env.
  - destruct Hp as [y Hy]. rewrite Hy. apply (spec_set_env_attr _ _ y); [done|]. intros rc. split; [done|]. by apply good_set_env_attr.
  - destruct Hp as [x Hx]. destruct (good_env R HR e x Hx) as [(Hver & _) _]. apply spec_result, (spec_alloc_connect _ _ _ _ _ x); [done|done|congruence|..].
    + intros rc Hlt. by rewrite (proj2 (Z.ltb_lt _ _) Hlt).
    + intros Hge c. rewrite (proj2 (Z.ltb_ge _ _) Hge). split; [done|]. by apply good_alloc_dbc.
  - destruct Hp as (y & Hy & Hn). apply (spec_free_connect c y); [done..|]. split; [done|]. by eapply good_free_dbc.
  - destruct Hp as [y Hy]. rewrite Hy. apply (spec_disconnect c y); [done..|]. split; [done|]. by apply (good_free_stmts _ c y).
  - destruct Hp as [y Hy]. rewrite Hy. apply (spec_reset_connection c y); [done..|]. split; [done|].
    destruct (good_free_stmts _ c y R Hy eq_refl HR) as [HG Hy']. by eapply good_free_descs.
  - destruct Hp as [y Hy]. apply spec_result, (spec_alloc_stmt _ _ y); [done|done|]. split; [done|]. apply good_alloc_stmt; [eauto|done].
  - destruct Hp as [v Hv]. apply (spec_free_stmt R s v); [by apply good_stmt_live|]. split; [done|]. destruct (decide _); [|done].
    apply good_free_stmt; [eauto|done].
  - destruct Hp as [y Hy]. apply spec_result, (spec_alloc_desc _ y); [done|]. split; [done|]. apply good_alloc_desc; [eauto|done].
  - destruct Hp as [w Hw]. apply (spec_free_desc _ _ w); [done|done|done|]. intros Hx. split; [done|]. by eapply good_free_desc.
  - destruct Hp as (Ht & v & Hv & Hd). apply (spec_set_app_desc R s v); [done..|]. destruct od as [d|].
    + destruct Hd as (w & Hw & Hor). exists w. rewrite Hv, Hw. split; [done|]. split.
      * intros Hm. rewrite decide_True by done. split; [done|]. by apply (good_use R s d v t w).
      * intros Hm rc. rewrite decide_False by done. destruct Hor as [?|Ho]; [done|]. by rewrite (leave_own R s v t).
    + split; [done|]. by eapply good_use_own.
Qed.

(** The stores a sequence of permitted calls reaches. *)
Inductive reachable : handles → Prop :=
  | reach_start h : shape h = Registry ∅ ∅ ∅ ∅ 1 → reachable h
  | reach_call h k : reachable h → permitted (shape h) k → reachable (run k h).2.

Lemma reachable_good h : reachable h → good (shape h).
Proof.
  induction 1 as [h Hh|h k Hr IH Hp].
  - rewrite Hh. split; intros; rewrite ?lookup_empty in *; done.
  - destruct (call_refines (shape h) k IH Hp h eq_refl) as (rc & h' & E & _ & HG). by rewrite E.
Qed.
End Calls.

(** C12: Lists and pointers agree.  Whatever permitted calls an application makes,
    in every store that is reached the connections an environment lists are the
    live ones made in it, the statements and the explicit descriptors a connection
    lists are the live ones of it, a statement points to live descriptors only, its
    own or one of its connection that knows it, and a descriptor is listed as used
    only by statements that use it. *)
Theorem handles_invariant cv mv wv pre h : reachable cv mv wv pre h → good (shape h).
Proof. apply reachable_good. Qed.

(** C11: Calls do what the registry says.  In a store with a good registry every
    permitted call returns, so that it uses no handle that has been freed, and the
    registry changes as the abstract operation says: the code that frees and resets
    statements, swaps descriptors and walks the lists of handles refines it. *)
Theorem calls_refine_registry cv mv wv pre h k :
  good (shape h) → permitted (shape h) k →
  ∃ rc h', run cv mv wv pre k h = (Ok rc, h') ∧ shape h' = effect cv mv k rc (shape h) ∧ good (shape h').
Proof. intros HG Hp. destruct (call_refines cv mv wv pre (shape h) k HG Hp h eq_refl) as (rc & h' & E & H1 & H2). by exists rc, h'. Qed.

(** ** Runs *)

(** Calls in turn, and what they return; undefined behaviour ends the run. *)
Fixpoint run_all (cv mv : Z) (wv pre : str) (ks : list call) (h : handles) : list (res Z) :=
  match ks with
  | [] => []
  | k :: ks =>
    match run cv mv wv pre k h with
    | (Ok rc, h') => Ok rc :: run_all cv mv wv pre ks h'
    | (r, _) => [r]
    end
  end.

Definition start : handles := Handles ∅ ∅ ∅ ∅ 1 0 globals_init [].
Definition ex_run : list call → list (res Z) := λ ks, run_all 80030 80000 [] (S!"[driver]") ks start.

(** An environment 1, a connection 2, two statements 3 and 8 with the descriptors 4 to
    7 and 9 to 12, and a descriptor 13 of the application. *)
Definition ex_calls : list call := [AllocEnv; AllocConnect 1; AllocStmt 2 false; AllocStmt 2 false; AllocDesc 2].

(** The descriptor is used for rows, freed, and the statement is freed after it. *)
Example use_and_free :
  ex_run (ex_calls ++ [SetAppDesc 3 DESC_ROW (Some 13%positive); FreeDesc 13; FreeStmt 3 SQL_DROP; Disconnect 2; FreeConnect 2; FreeEnv 1]) =
  replicate 11 (Ok SQL_SUCCESS).
Proof. vm_compute. reflexivity. Qed.

(** A refused descriptor.  A statement uses a descriptor of the application and
    is told to take one that belongs to another statement.  The call fails, but the
    statement has been struck from the list of the descriptor it still uses; when
    that descriptor is freed, the statement is not told, and freeing the statement
    reads memory that is no more. *)
Theorem refused_descriptor_dangles :
  ex_run (ex_calls ++ [SetAppDesc 3 DESC_ROW (Some 13%positive); SetAppDesc 3 DESC_ROW (Some 9%positive); FreeDesc 13; FreeStmt 3 SQL_DROP]) =
  replicate 6 (Ok SQL_SUCCESS) ++ [Ok SQL_ERROR; Ok SQL_SUCCESS; UB].
Proof. vm_compute. reflexivity. Qed.

(** A connection that is freed before its statements leaves them without one. *)
Example connection_freed_first :
  ex_run (ex_calls ++ [FreeConnect 2; FreeStmt 3 SQL_DROP]) = replicate 6 (Ok SQL_SUCCESS) ++ [UB].
Proof. vm_compute. reflexivity. Qed.

(** An implementation descriptor passes for one of the application. *)
Example implementation_descriptor_accepted :
  ex_run (ex_calls ++ [SetAppDesc 3 DESC_PARAM (Some 7%positive); SetAppDesc 3 DESC_ROW (Some 5%positive)]) = replicate 7 (Ok SQL_SUCCESS).
Proof. vm_compute. reflexivity. Qed.

(** The store after some calls. *)
Definition ex_run_to : call → handles → handles := λ k h, (run 80030 80000 [] (S!"[driver]") k h).2.
Definition ex_h1 : handles := ex_run_to AllocEnv start.
Definition ex_h2 : handles := ex_run_to (AllocConnect 1) ex_h1.
Definition ex_h3 : handles := ex_run_to (AllocStmt 2 false) ex_h2.
Definition ex_h4 : handles := ex_run_to (AllocDesc 2) ex_h3.

(** A descriptor that has got the members of an implicit one by copying cannot be
    freed any more. *)
Example copied_descriptor_stays :
  ((MySQLCopyDesc (S!"[driver]") 4 8;; my_SQLFreeDesc (S!"[driver]") 8) ex_h4).1 = Ok SQL_ERROR.
Proof. vm_compute. reflexivity. Qed.

Lemma ex_reachable : reachable 80030 80000 [] (S!"[driver]") ex_h4.
Proof.
  apply (reach_call _ _ _ _ ex_h3 (AllocDesc 2)); [|exists (DbcV 1 [3%positive] []); vm_compute; reflexivity].
  apply (reach_call _ _ _ _ ex_h2 (AllocStmt 2 false)); [|exists (DbcV 1 [] []); vm_compute; reflexivity].
  apply (reach_call _ _ _ _ ex_h1 (AllocConnect 1)); [|exists (EnvV 380 []); vm_compute; reflexivity].
  apply (reach_call _ _ _ _ start AllocEnv); [by apply reach_start|exact I].
Qed.

Lemma ex_permitted : permitted (shape ex_h4) (SetAppDesc 3 DESC_ROW (Some 8%positive)).
Proof.
  split; [done|]. exists (StmtV 2 4 6 5 7 4 6). split; [vm_compute; reflexivity|].
  exists (DescV 2 DESC_UNKNOWN DESC_APP None (Some 2%positive) []). split; [vm_compute; reflexivity|]. left. right. repeat split. by left.
Qed.

(** After the statement has taken the descriptor of the application. *)
Lemma handles_invariant_witness : good (shape (ex_run_to (SetAppDesc 3 DESC_ROW (Some 8%positive)) ex_h4)).
Proof.
  apply (handles_invariant 80030 80000 [] (S!"[driver]")). apply (reach_call _ _ _ _ ex_h4); [exact ex_reachable|exact ex_permitted].
Defined.

Lemma calls_refine_registry_witness :
  ∃ rc h', run 80030 80000 [] (S!"[driver]") (SetAppDesc 3 DESC_ROW (Some 8%positive)) ex_h4 = (Ok rc, h') ∧
    shape h' = effect 80030 80000 (SetAppDesc 3 DESC_ROW (Some 8%positive)) rc (shape ex_h4) ∧ good (shape h').
Proof.
  apply (calls_refine_registry 80030 80000 [] (S!"[driver]")); [|exact ex_permitted]. eapply reachable_good, ex_reachable.
Defined.
