(* ===== verification/GetData.v ===== *)
(** Reading a column piece by piece (src/driver/utility.cc): [SQLGetData] may be called
    again and again for a column, with buffers of any length, and each call copies
    the next piece of the value.  The place in the value is kept with the statement
    ([GETDATA] of src/driver/driver.h).

    The value of a column is a list of bytes, the pointer into it the number of bytes
    before it, and a buffer what has been written to it from its start. *)

From S2P Require Import Prelude CppString Errors.

Local Open Scope Z_scope.

(** ** State *)

(** [(ulong)~0L]: an offset that is not set. *)
Definition unset : Z := 2 ^ 64 - 1.
Definition to_ulong (z : Z) : Z := z mod 2 ^ 64.

(** [src/driver/driver.h:760-773] GETDATA

    [latest] is the last character that was converted, of which [latest_used] of
    [latest_bytes] bytes have been copied. *)
Record GETDATA := GetData {
  source : option Z; latest : str; latest_bytes : Z; latest_used : Z; src_offset : Z; dst_bytes : Z; dst_offset : Z }.

(** [src/driver/my_prepared_stmt.cc:759-767] STMT::reset_getdata_position *)
Definition reset_getdata_position (g : GETDATA) : GETDATA := GetData None (latest g) 0 0 unset unset unset.

Definition fresh : GETDATA := GetData None [] 0 0 unset unset unset.

(** The options of the statement that are looked at. *)
Record get_options := Options { max_length : Z; retrieve_data : bool }.

(** What a call does: its result, what it writes to the buffer, the length it writes
    to [*avail_bytes], and the state of an error. *)
Record outcome := Outcome { ret : Z; written : option str; avail : option Z; state : option str }.

Definition truncated : option str := Some (S!"01004").

(** A maximal length limits the value. *)
Definition limited (o : get_options) (n : Z) : Z := if negb (max_length o =? 0) && (max_length o <? n) then max_length o else n.

Definition set_source (s : option Z) (g : GETDATA) : GETDATA :=
  GetData s (latest g) (latest_bytes g) (latest_used g) (src_offset g) (dst_bytes g) (dst_offset g).
Definition set_latest (l : str) (n used : Z) (g : GETDATA) : GETDATA :=
  GetData (source g) l n used (src_offset g) (dst_bytes g) (dst_offset g).
Definition set_src_offset (n : Z) (g : GETDATA) : GETDATA :=
  GetData (source g) (latest g) (latest_bytes g) (latest_used g) n (dst_bytes g) (dst_offset g).
Definition set_dst (n off : Z) (g : GETDATA) : GETDATA :=
  GetData (source g) (latest g) (latest_bytes g) (latest_used g) (src_offset g) n off.

(** [n] bytes of a value from an offset; reading behind it is undefined. *)
Definition read_bytes (src : str) (off n : Z) : res str :=
  if (0 <=? off) && (off + n <=? Z.of_nat (length src)) then Ok (firstn (Z.to_nat n) (skipn (Z.to_nat off) src)) else UB.

(** ** Bytes *)

(** [src/driver/utility.cc:372-420] copy_binary_result

    [result] says whether there is a buffer, [want] whether there is a place for the
    length. *)
Definition copy_binary_result (o : get_options) (result : bool) (result_bytes : Z) (want : bool) (src : str) (g : GETDATA) : res (outcome * GETDATA) :=
  let result := result && negb (result_bytes =? 0) in
  let total := limited o (Z.of_nat (length src)) in
  let again := bool_decide (is_Some (source g)) in
  let off := default 0 (source g) in
  let src_bytes := if again then to_ulong (total - off) else total in
  if again && (src_bytes =? 0) then Ok (Outcome SQL_NO_DATA_FOUND None None None, g)
  else
  let copy_bytes := Z.min (to_ulong result_bytes) src_bytes in
  text ← (if result && retrieve_data o then t ← read_bytes src off copy_bytes; Ok (Some t) else Ok None);
  let more := to_ulong result_bytes <? src_bytes in
  Ok (Outcome (if more then SQL_SUCCESS_WITH_INFO else SQL_SUCCESS) text
        (if want && retrieve_data o then Some src_bytes else None) (if more then truncated else None),
      set_source (Some (off + copy_bytes)) g).

(** ** Hexadecimal digits *)

Definition dig_vec : str := S!"0123456789ABCDEF".
Definition hex_digit (n : nat) : ascii := nth n dig_vec Ascii.zero.
Definition hex (c : ascii) : str := [hex_digit (nat_of_ascii c / 16); hex_digit (nat_of_ascii c mod 16)].
Definition hex_text (s : str) : str := mjoin (hex <$> s).

(** [src/driver/utility.cc:920-983] copy_binhex_result

    [width] is [sizeof(T)], 1 or 2; what is written is given in units of it. *)
Definition copy_binhex_result (width : Z) (o : get_options) (result : bool) (cbValueMax : Z) (want : bool) (src : str) (g : GETDATA)
    : res (outcome * GETDATA) :=
  let dst := result && negb (cbValueMax =? 0) in
  let limit := negb (max_length o =? 0) in
  let cbValueMax := if limit then Z.min cbValueMax (max_length o + 1) else cbValueMax in
  let total := Z.of_nat (length src) in
  let total := if limit then Z.min total ((max_length o + 1) / 2) else total in
  let first := src_offset g =? unset in
  let off := if first then 0 else src_offset g in
  if negb first && (total <=? off) then Ok (Outcome SQL_NO_DATA_FOUND None None None, set_src_offset off g)
  else
  let src_length := total - off in
  let n := if negb (cbValueMax =? 0) then to_ulong (cbValueMax - 1) / 2 else 0 in
  let n := Z.min src_length n in
  text ← (if dst && retrieve_data o then t ← read_bytes src off n; Ok (Some (hex_text t ++ [Ascii.zero])) else Ok None);
  let done := src_length <=? (off + n) * width in
  Ok (Outcome (if done then SQL_SUCCESS else SQL_SUCCESS_WITH_INFO) text
        (if want && retrieve_data o then Some (src_length * 2 * width) else None) (if done then None else truncated),
      set_src_offset (off + n) g).

(** ** Bits *)

(** [src/driver/utility.cc:1002-1049] do_copy_bit_result *)
Definition do_copy_bit_result (width : Z) (o : get_options) (result : bool) (result_bytes : Z) (want : bool) (src : str) (g : GETDATA)
    : res (outcome * GETDATA) :=
  let result := result && (2 <=? result_bytes) in
  let total := limited o (Z.of_nat (length src)) in
  let again := bool_decide (is_Some (source g)) in
  let off := default 0 (source g) in
  let src_bytes := if again then to_ulong (total - off) else total in
  if again && (src_bytes =? 0) then Ok (Outcome SQL_NO_DATA_FOUND None None None, g)
  else
  text ← (if result && retrieve_data o then
            t ← read_bytes src off 1;
            Ok (Some [if bool_decide (t = [Ascii.zero]) then "0"%char else "1"%char; Ascii.zero])
          else Ok None);
  Ok (Outcome SQL_SUCCESS text (if want && retrieve_data o then Some width else None) None, set_source (Some (off + 1)) g).

(** ** Characters *)

(** What the functions of a character set say: [MY_CS_ILSEQ] and [MY_CS_ILUNI] are 0, a
    character that needs more bytes is [MY_CS_TOOSMALL] or less. *)
Definition MY_CS_TOOSMALL : Z := -101.
Definition question : Z := 63.

Section AnsiResult.
(** The character set of the column, as the length and the code of the character a
    text begins with, and that of the buffer, as the length and the bytes of a
    character in the given room. *)
Context (mb_wc : str → Z * Z) (wc_mb : Z → Z → Z * str).

(** The variables of the loop: the place in the source; the buffer, whether [result]
    is not null, how far it has moved, the bytes copied and whether they are
    closed; the counters; the place in the column. *)
Record ansi_loop := Ansi {
  a_src : Z; live : bool; pos : Z; text : str; closed : bool; used_bytes : Z; error_count : Z; a_get : GETDATA }.

Definition add_source (n : Z) (g : GETDATA) : GETDATA := set_source (Some (default 0 (source g) + n)) g.

(** One character from the source: its length and its code, and 1 for an error;
    [None] for a failure. *)
Definition read_char (rest : str) : option (Z * Z * Z) :=
  let '(cnvres, wc) := mb_wc rest in
  if cnvres =? 0 then Some (1, question, 1)
  else if (cnvres <? 0) && (MY_CS_TOOSMALL <? cnvres) then Some (Z.abs cnvres, question, 1)
  else if cnvres <? 0 then None
  else Some (cnvres, wc, 0).

Inductive flow := Continue (l : ansi_loop) | Break (l : ansi_loop) | Failed (l : ansi_loop) | Undefined.

(** [src/driver/utility.cc:578-658] copy_ansi_result

    What follows the label [convert_to_out], for a character that takes [cnvres]
    bytes of the source; [cap] is [result_end], and [again] what is done for a
    character that the character set of the buffer does not have. *)
Definition convert_to_out (retrieve : bool) (cap cnvres wc : Z) (l : ansi_loop) (again : ansi_loop → flow) : flow :=
  let '(to_cnvres, bytes) := if retrieve then wc_mb wc (if live l then cap - pos l else 7) else (1, []) in
  let g := a_get l in
  if 0 <? to_cnvres then
    let used := used_bytes l + to_cnvres in
    let src := a_src l + cnvres in
    if live l then
      let p := pos l + to_cnvres in
      let t := if retrieve then text l ++ bytes else text l in
      let g' := add_source cnvres g in
      if p =? cap then
        if negb (dst_bytes g =? unset) then Break (Ansi src true p t (closed l) used (error_count l) g')
        else Continue (Ansi src false p t retrieve used (error_count l) g')
      else Continue (Ansi src true p t (closed l) used (error_count l) g')
    else Continue (Ansi src false (pos l) (text l) (closed l) used (error_count l) g)
  else if live l && (to_cnvres <=? MY_CS_TOOSMALL) then
    let '(n, bytes) := wc_mb wc 7 in
    let used := Z.min n (cap - pos l) in
    if used <? 0 then Undefined else
    Continue (Ansi (a_src l + n) false (pos l + used) (text l ++ firstn (Z.to_nat used) bytes) retrieve
               (used_bytes l + n) (error_count l) (add_source n (set_latest bytes n used g)))
  else if (latest_bytes g =? 0) && negb (wc =? question) then
    again (Ansi (a_src l) (live l) (pos l) (text l) (closed l) (used_bytes l) (error_count l + 1) g)
  else Failed l.

(** [src/driver/utility.cc:551-659] copy_ansi_result

    The loop over the characters of the source up to [src_end]. *)
Fixpoint ansi_chars (fuel : nat) (retrieve : bool) (cap : Z) (src : str) (src_end : Z) (l : ansi_loop) : flow :=
  if a_src l <? src_end then
    match fuel with
    | O => Undefined
    | S fuel =>
      match read_char (firstn (Z.to_nat (src_end - a_src l)) (skipn (Z.to_nat (a_src l)) src)) with
      | None => Failed l
      | Some (cnvres, wc, err) =>
        let l := Ansi (a_src l) (live l) (pos l) (text l) (closed l) (used_bytes l) (error_count l + err) (a_get l) in
        match convert_to_out retrieve cap cnvres wc l (λ l, convert_to_out retrieve cap cnvres question l Failed) with
        | Continue l => ansi_chars fuel retrieve cap src src_end l
        | other => other
        end
      end
    end
  else Continue l.

(** [src/driver/utility.cc:522-549] copy_ansi_result

    The bytes of a character that were left over from an earlier call. *)
Definition leftover (retrieve : bool) (cap : Z) (l : ansi_loop) : flow :=
  let g := a_get l in
  if latest_bytes g =? 0 then Continue l
  else if negb (live l) then Undefined
  else
    let n := Z.min (latest_bytes g - latest_used g) (cap - pos l) in
    let t := if retrieve then text l ++ firstn (Z.to_nat n) (skipn (Z.to_nat (latest_used g)) (latest g)) else text l in
    let g' := set_latest (latest g) (if n + latest_used g =? latest_bytes g then 0 else latest_bytes g) (latest_used g + n) g in
    let full := pos l + n =? cap in
    Continue (Ansi (a_src l) (negb full) (pos l + n) t (full && retrieve) (used_bytes l + n) (error_count l) g').

(** [src/driver/utility.cc:492-697] copy_ansi_result

    The path with a conversion: what comes before and after the loop.  A null buffer
    of one byte is the end of itself, and is written to. *)
Definition convert_ansi (o : get_options) (result : bool) (result_bytes : Z) (want : bool) (src : str) (g : GETDATA)
    : res (outcome * GETDATA) :=
  let retrieve := retrieve_data o in
  if negb result && (result_bytes =? 1) && retrieve then UB else
  let result := result && negb (result_bytes =? 0) in
  let cap := result_bytes - 1 in
  let only_nul := result && (cap =? 0) in
  let src_end := limited o (Z.of_nat (length src)) in
  let g := set_source (Some (default 0 (source g))) g in
  if negb (dst_bytes g =? unset) && (dst_bytes g <=? dst_offset g) then
    Ok (Outcome SQL_NO_DATA_FOUND (if only_nul && retrieve then Some [Ascii.zero] else None) None None, g)
  else
  let l := Ansi (default 0 (source g)) (result && negb only_nul) 0 [] (only_nul && retrieve) 0 0 g in
  let out := match leftover retrieve cap l with
             | Continue l => ansi_chars (S (length src)) retrieve cap src src_end l
             | other => other
             end in
  let buffer (l : ansi_loop) :=
    if result && retrieve then Some (text l ++ (if closed l || live l then [Ascii.zero] else [])) else None in
  match out with
  | Undefined => UB
  | Failed l => Ok (Outcome SQL_ERROR (buffer (Ansi (a_src l) false (pos l) (text l) (closed l) (used_bytes l) (error_count l) (a_get l)))
                     None (Some (S!"HY000")), a_get l)
  | Continue l | Break l =>
    let g := a_get l in
    let g := if negb (result_bytes =? 0) && (dst_bytes g =? unset) then set_dst (used_bytes l) 0 g else g in
    let left := if negb (dst_bytes g =? unset) then to_ulong (dst_bytes g - dst_offset g) else used_bytes l in
    let step := Z.min (if result_bytes =? 0 then 0 else to_ulong (result_bytes - 1)) (used_bytes l) in
    let g := set_dst (dst_bytes g) (to_ulong (dst_offset g + step)) g in
    let more := (result_bytes =? 0) || (dst_offset g <? dst_bytes g) in
    let errors := 0 <? error_count l in
    Ok (Outcome (if more || errors then SQL_SUCCESS_WITH_INFO else SQL_SUCCESS) (buffer l)
          (if want && retrieve then Some left else None)
          (if errors then Some (S!"22018") else if more then truncated else None), g)
  end.
End AnsiResult.

(** [src/driver/utility.cc:437-490] copy_ansi_result

    [same] says whether the character sets of the column and of the buffer are the
    same: nothing is converted then. *)
Definition copy_ansi_result (mb_wc : str → Z * Z) (wc_mb : Z → Z → Z * str) (same : bool) (o : get_options) (result : bool)
    (result_bytes : Z) (want : bool) (src : str) (g : GETDATA) : res (outcome * GETDATA) :=
  if same then
    if (result_bytes =? 0) && negb (bool_decide (is_Some (source g))) then
      Ok (Outcome SQL_SUCCESS_WITH_INFO None (if want then Some (Z.of_nat (length src)) else None) truncated, g)
    else
      let result := result && negb (result_bytes =? 0) in
      let result_bytes := if result_bytes =? 0 then 0 else result_bytes - 1 in
      '(x, g) ← copy_binary_result o result result_bytes true src g;
      let nul := [Ascii.zero] in
      if bool_decide (ret x = SQL_NO_DATA_FOUND) then Ok (x, g)
      else
        let written' := if result && retrieve_data o then Some (default [] (written x) ++ nul) else written x in
        Ok (Outcome (ret x) written' (if want then avail x else None) (state x), g)
  else convert_ansi mb_wc wc_mb o result result_bytes want src g.

(** ** Wide characters *)

(** A unit of 16 bits in [latest], low byte first. *)
Definition unit_bytes (u : Z) : str := [ascii_of_nat (Z.to_nat (u mod 256)); ascii_of_nat (Z.to_nat (u / 256 mod 256))].
Definition bytes_unit (s : str) : Z :=
  match s with a :: b :: _ => Z.of_nat (nat_of_ascii a) + 256 * Z.of_nat (nat_of_ascii b) | _ => 0 end.

Section WcharResult.
(** The character set of the column, and the units of a character in UTF-16, one or
    two, or none for a character that it does not have. *)
Context (mb_wc : str → Z * Z) (to_utf16 : Z → list Z).

Record wide_loop := Wide {
  w_src : Z; w_live : bool; w_pos : Z; w_text : list Z; w_closed : bool; used_chars : Z; w_errors : Z; w_get : GETDATA }.

Inductive wide_flow := W_Continue (l : wide_loop) | W_Break (l : wide_loop) | W_Failed (l : wide_loop) | W_Undefined.

(** [src/driver/utility.cc:805-873] copy_wchar_result

    What follows the label [convert_to_out]. *)
Definition wide_to_out (retrieve : bool) (cap cnvres wc : Z) (l : wide_loop) (again : wide_loop → wide_flow) : wide_flow :=
  let g := w_get l in
  match to_utf16 wc with
  | u :: more =>
    let src := w_src l + cnvres in
    let used := used_chars l + Z.of_nat (length (u :: more)) in
    let p := w_pos l + 1 in
    let t := if retrieve then w_text l ++ [u] else w_text l in
    let g' := add_source cnvres g in
    let finish p t := if p =? cap then Wide src false p t retrieve used (w_errors l) g' else Wide src true p t (w_closed l) used (w_errors l) g' in
    if negb (w_live l) then W_Continue (Wide src false (w_pos l) (w_text l) (w_closed l) used (w_errors l) g)
    else match more with
         | [] => W_Continue (finish p t)
         | u' :: _ =>
           if negb (p =? cap) then W_Continue (finish (p + 1) (if retrieve then t ++ [u'] else t))
           else
             let g := set_latest (unit_bytes u') 2 0 g in
             if negb (dst_bytes g =? unset) then W_Break (Wide src false p t retrieve used (w_errors l) (add_source cnvres g))
             else W_Continue (Wide src false p t retrieve used (w_errors l) g)
         end
  | [] =>
    if (latest_bytes g =? 0) && negb (wc =? question) then
      again (Wide (w_src l) (w_live l) (w_pos l) (w_text l) (w_closed l) (used_chars l) (w_errors l + 1) g)
    else W_Failed l
  end.

(** [src/driver/utility.cc:777-874] copy_wchar_result

    The loop over the characters of the source. *)
Fixpoint wide_chars (fuel : nat) (retrieve : bool) (cap : Z) (src : str) (src_end : Z) (l : wide_loop) : wide_flow :=
  if w_src l <? src_end then
    match fuel with
    | O => W_Undefined
    | S fuel =>
      match read_char mb_wc (firstn (Z.to_nat (src_end - w_src l)) (skipn (Z.to_nat (w_src l)) src)) with
      | None => W_Failed l
      | Some (cnvres, wc, err) =>
        let l := Wide (w_src l) (w_live l) (w_pos l) (w_text l) (w_closed l) (used_chars l) (w_errors l + err) (w_get l) in
        match wide_to_out retrieve cap cnvres wc l (λ l, wide_to_out retrieve cap cnvres question l W_Failed) with
        | W_Continue l => wide_chars fuel retrieve cap src src_end l
        | other => other
        end
      end
    end
  else W_Continue l.

(** What a call for wide characters does. *)
Record wide_outcome := WideOutcome { w_ret : Z; w_written : option (list Z); w_avail : option Z; w_state : option str }.

(** [src/driver/utility.cc:714-912] copy_wchar_result *)
Definition copy_wchar_result (o : get_options) (result : bool) (result_len : Z) (want : bool) (src : str) (g : GETDATA)
    : res (wide_outcome * GETDATA) :=
  if negb result && (result_len =? 1) then UB else
  let result := result && negb (result_len =? 0) in
  let cap := result_len - 1 in
  let retrieve := retrieve_data o in
  let only_nul := result && (cap =? 0) in
  let src_end := limited o (Z.of_nat (length src)) in
  let g := set_source (Some (default 0 (source g))) g in
  let nul := [0] in
  if negb (dst_bytes g =? unset) && (dst_bytes g <=? dst_offset g) then
    Ok (WideOutcome SQL_NO_DATA_FOUND (if only_nul then Some nul else None) None None, g)
  else
  let live := result && negb only_nul in
  let start := Wide (default 0 (source g)) live 0 [] only_nul 0 0 g in
  let first :=
    if latest_bytes g =? 0 then W_Continue start
    else if negb live then W_Undefined
    else
      let full := 1 =? cap in
      W_Continue (Wide (w_src start) (negb full) 1 (if retrieve then [bytes_unit (latest g)] else []) (full && retrieve) 1 0
                    (set_latest (latest g) 0 (latest_used g) g)) in
  let out := match first with
             | W_Continue l => wide_chars (S (length src)) retrieve cap src src_end l
             | other => other
             end in
  let buffer (l : wide_loop) (ended : bool) :=
    if result && (retrieve || only_nul) then Some (w_text l ++ (if w_closed l || (ended && w_live l) then nul else [])) else None in
  match out with
  | W_Undefined => UB
  | W_Failed l => Ok (WideOutcome SQL_ERROR (buffer l false) None (Some (S!"HY000")), w_get l)
  | W_Continue l | W_Break l =>
    let g := w_get l in
    let g := if negb (result_len =? 0) && (dst_bytes g =? unset) then set_dst (used_chars l * 2) 0 g else g in
    let left := if negb (result_len =? 0) then to_ulong (dst_bytes g - dst_offset g) else used_chars l * 2 in
    let step := Z.min (if result_len =? 0 then 0 else to_ulong (result_len - 1)) (used_chars l) * 2 in
    let g := set_dst (dst_bytes g) (to_ulong (dst_offset g + step)) g in
    let more := (result_len =? 0) || (dst_offset g <? dst_bytes g) in
    let errors := 0 <? w_errors l in
    Ok (WideOutcome (if more || errors then SQL_SUCCESS_WITH_INFO else SQL_SUCCESS) (buffer l true)
          (if want && retrieve then Some left else None)
          (if errors then Some (S!"22018") else if more then truncated else None), g)
  end.
End WcharResult.

(** ** Pieces: the reference *)

(** What an application sees: whether it has begun to read, and what is left.  A
    buffer of [n] bytes takes [room n] bytes of the value and [close]s them; a
    buffer of no bytes asks for the length. *)
Section Pieces.
Context (room : Z → Z) (close : str).

Definition piece (n : Z) (st : bool * str) : outcome * (bool * str) :=
  let '(started, rest) := st in
  if started && bool_decide (rest = []) then (Outcome SQL_NO_DATA_FOUND None None None, st)
  else
    let len := Z.of_nat (length rest) in
    let more := (n =? 0) && negb (bool_decide (close = []) && (len =? 0)) || (room n <? len) in
    (Outcome (if more then SQL_SUCCESS_WITH_INFO else SQL_SUCCESS)
       (if n =? 0 then None else Some (firstn (Z.to_nat (room n)) rest ++ close)) (Some len) (if more then truncated else None),
     (started || negb (n =? 0) || bool_decide (close = []), skipn (Z.to_nat (room n)) rest)).

Fixpoint pieces (ns : list Z) (st : bool * str) : list outcome :=
  match ns with [] => [] | n :: ns => (piece n st).1 :: pieces ns (piece n st).2 end.
End Pieces.

(** Calls in turn. *)
Fixpoint get_all (call : Z → GETDATA → res (outcome * GETDATA)) (ns : list Z) (g : GETDATA) : res (list outcome) :=
  match ns with
  | [] => Ok []
  | n :: ns => '(x, g) ← call n g; xs ← get_all call ns g; Ok (x :: xs)
  end.

(** The same to the application: at the end of the data only the result counts. *)
Definition same_outcome (x y : outcome) : Prop := ret x = ret y ∧ (ret x ≠ SQL_NO_DATA_FOUND → x = y).

(** Calls that keep a relation to the reference give what it gives. *)
Lemma get_all_pieces (R : GETDATA → bool * str → Prop) (call : Z → GETDATA → res (outcome * GETDATA)) room close ns :
  (∀ n g st, n ∈ ns → R g st → ∃ x g', call n g = Ok (x, g') ∧ same_outcome x (piece room close n st).1 ∧ R g' (piece room close n st).2) →
  ∀ g st, R g st → ∃ xs, get_all call ns g = Ok xs ∧ Forall2 same_outcome xs (pieces room close ns st).
Proof.
  induction ns as [|n ns IH]; intros Hcall g st Hg; [exists []; by split|].
  destruct (Hcall n g st ltac:(by left) Hg) as (x & g' & E & Hx & Hg').
  destruct (IH (λ m g st Hm, Hcall m g st ltac:(by right)) g' _ Hg') as (xs & Es & Hxs).
  exists (x :: xs). split; [|by constructor]. cbn [get_all]. rewrite E. cbn [mbind res_bind]. by rewrite Es.
Qed.

(** ** Bytes in pieces *)

(** The value as far as the maximal length lets it through. *)
Definition limited_value (o : get_options) (v : str) : str := firstn (Z.to_nat (limited o (Z.of_nat (length v)))) v.

(** The place of the column, after the bytes that have been read. *)
Definition at_place (v : str) (g : GETDATA) (st : bool * str) : Prop :=
  ∃ k, (k <= length v)%nat ∧ st.2 = skipn k v ∧ source g = (if st.1 then Some (Z.of_nat k) else None) ∧ (st.1 = false → k = 0%nat).

Lemma limited_bounds o (v : str) : 0 ≤ max_length o → 0 ≤ limited o (Z.of_nat (length v)) ≤ Z.of_nat (length v).
Proof. intros Hm. unfold limited. destruct (_ && _) eqn:E; [|lia]. apply andb_true_iff in E as [_ E%Z.ltb_lt]. lia. Qed.

Lemma limited_length o (v : str) : 0 ≤ max_length o → Z.of_nat (length (limited_value o v)) = limited o (Z.of_nat (length v)).
Proof. intros Hm. pose proof (limited_bounds o v Hm). unfold limited_value. rewrite length_firstn. lia. Qed.

Lemma read_piece o (v : str) k n :
  0 ≤ max_length o → (k <= length (limited_value o v))%nat → 0 ≤ n ≤ Z.of_nat (length (limited_value o v)) - Z.of_nat k →
  read_bytes v (Z.of_nat k) n = Ok (firstn (Z.to_nat n) (skipn k (limited_value o v))).
Proof.
  intros Hm Hk Hn. pose proof (limited_bounds o v Hm) as Hb. pose proof (limited_length o v Hm) as Hl. unfold read_bytes.
  rewrite (proj2 (Z.leb_le _ _)) by lia. rewrite (proj2 (Z.leb_le _ _)) by lia. cbn [andb]. f_equal.
  rewrite Nat2Z.id. unfold limited_value. rewrite skipn_firstn_comm, firstn_firstn. f_equal. lia.
Qed.

(** One call for bytes. *)
Lemma binary_piece o v n g st :
  0 ≤ max_length o → Z.of_nat (length v) < 2 ^ 64 → 0 ≤ n < 2 ^ 64 → retrieve_data o = true → at_place (limited_value o v) g st →
  ∃ x g', copy_binary_result o true n true v g = Ok (x, g') ∧ x = (piece (λ n, n) [] n st).1 ∧
    at_place (limited_value o v) g' (piece (λ n, n) [] n st).2.
Proof.
  intros Hm Hlen Hn Hret (k & Hk & Hrest & Hsrc & Hk0). destruct st as [started rest]. cbn [fst snd] in *.
  pose proof (limited_length o v Hm) as Hl. pose proof (limited_bounds o v Hm) as Hb. set (w := limited_value o v) in *.
  unfold copy_binary_result, piece. rewrite Hret.
  assert (bool_decide (is_Some (source g)) = started) as -> by (rewrite Hsrc; destruct started; [by rewrite bool_decide_true|by rewrite bool_decide_false by by intros []]).
  assert (default 0 (source g) = Z.of_nat k) as Ed.
  { rewrite Hsrc. destruct started; [done|]. rewrite Hk0 by done. done. }
  rewrite Ed, <- Hl.
  assert (Z.of_nat (length rest) = Z.of_nat (length w) - Z.of_nat k) as Hrl by (rewrite Hrest, length_skipn; lia).
  assert ((if started then to_ulong (Z.of_nat (length w) - Z.of_nat k) else Z.of_nat (length w)) = Z.of_nat (length rest)) as ->.
  { rewrite Hrl. destruct started; [unfold to_ulong; rewrite Z.mod_small by lia; done|]. rewrite Hk0 by done. lia. }
  assert (bool_decide (rest = []) = (Z.of_nat (length rest) =? 0)) as ->.
  { destruct (Z.eqb_spec (Z.of_nat (length rest)) 0) as [E|E]; [apply bool_decide_true, length_zero_iff_nil; lia|].
    apply bool_decide_false. intros ->. done. }
  destruct (started && (Z.of_nat (length rest) =? 0)) eqn:Es.
  { eexists _, _. split; [done|]. split; [done|]. exists k. done. }
  rewrite (bool_decide_true (@nil ascii = [])) by done. cbn [andb]. rewrite orb_true_r.
  assert (to_ulong n = n) as -> by (unfold to_ulong; by rewrite Z.mod_small).
  assert (negb (n =? 0) && true = negb (n =? 0)) as -> by apply andb_true_r.
  assert ((n =? 0) && negb (Z.of_nat (length rest) =? 0) || (n <? Z.of_nat (length rest)) = (n <? Z.of_nat (length rest))) as ->.
  { destruct (Z.eqb_spec n 0); [|done]. destruct (Z.eqb_spec (Z.of_nat (length rest)) 0), (Z.ltb_spec n (Z.of_nat (length rest))); try done; lia. }
  assert (firstn (Z.to_nat (Z.min n (Z.of_nat (length rest)))) rest = firstn (Z.to_nat n) rest) as Hf.
  { destruct (Z.min_spec n (Z.of_nat (length rest))) as [[_ ->]|[? ->]]; [done|]. rewrite !firstn_all2; [done|lia|lia]. }
  destruct (Z.eqb_spec n 0) as [Hn0|Hn0]; cbn [negb mbind res_bind].
  - eexists _, _. split; [done|]. split; [done|]. exists k. subst n. cbn. replace (Z.min 0 (Z.of_nat (length rest))) with 0 by lia.
    split; [done|]. split; [done|]. split; [f_equal; lia|done].
  - rewrite (read_piece o v k) by (fold w; lia). cbn [mbind res_bind]. fold w. rewrite <- Hrest, Hf.
    eexists _, _. split; [done|]. split; [by rewrite app_nil_r|]. exists (k + Z.to_nat (Z.min n (Z.of_nat (length rest))))%nat. cbn.
    split; [lia|]. split; [|split; [f_equal; lia|done]].
    destruct (Z.min_spec n (Z.of_nat (length rest))) as [[? ->]|[? ->]].
    + rewrite Hrest, skipn_skipn. f_equal. lia.
    + rewrite skipn_all2 by lia. rewrite Nat2Z.id. symmetry. apply skipn_all2. lia.
Qed.

(** C30: Binary data in pieces.  Whatever buffers an application reads a column with,
    of one byte or more or of none, the calls give what cutting the value (up to the
    maximal length) into pieces gives: each call the bytes that come next, the
    length of what was left before it and success exactly when it fitted, and once
    everything has been read that there is no more data.  Nothing is lost, repeated
    or read behind the value. *)
Theorem binary_pieces o (v : str) ns :
  0 ≤ max_length o → Z.of_nat (length v) < 2 ^ 64 → retrieve_data o = true → Forall (λ n, 0 ≤ n < 2 ^ 64) ns →
  ∃ xs, get_all (λ n g, copy_binary_result o true n true v g) ns fresh = Ok xs ∧
    Forall2 same_outcome xs (pieces (λ n, n) [] ns (false, limited_value o v)).
Proof.
  intros Hm Hlen Hret Hns. apply (get_all_pieces (at_place (limited_value o v))).
  - intros n g st Hn Hg. rewrite Forall_forall in Hns. destruct (binary_piece o v n g st Hm Hlen (Hns n Hn) Hret Hg) as (x & g' & E & -> & Hg').
    exists (piece (λ n, n) [] n st).1, g'. done.
  - exists 0%nat. split; [lia|]. done.
Qed.

(** ** Characters in pieces *)

Section Conversion.
Context (mb_wc : str → Z * Z) (wc_mb : Z → Z → Z * str) (enc : Z → str) (out : Z → ascii).

(** The characters of the value: each is read as it is written, and takes one byte in
    the character set of the buffer. *)
Definition single_byte (ws : list Z) : Prop :=
  ∀ w, w ∈ ws → (0 < length (enc w))%nat ∧ (∀ rest, mb_wc (enc w ++ rest) = (Z.of_nat (length (enc w)), w)) ∧
    ∀ n, 1 ≤ n → wc_mb w n = (1, [out w]).

Definition encoded (ws : list Z) : str := mjoin (enc <$> ws).

Lemma encoded_app ws ws' : encoded (ws ++ ws') = encoded ws ++ encoded ws'.
Proof. unfold encoded. by rewrite fmap_app, join_app. Qed.
Lemma encoded_cons w ws : encoded (w :: ws) = enc w ++ encoded ws.
Proof. done. Qed.

Context (ws : list Z) (HS : single_byte ws).

Definition place (k : nat) : Z := Z.of_nat (length (encoded (take k ws))).
Definition total : Z := Z.of_nat (length (encoded ws)).

Lemma place_total : place (length ws) = total.
Proof. unfold place, total. by rewrite firstn_all. Qed.

Lemma place_S k w : ws !! k = Some w → place (S k) = place k + Z.of_nat (length (enc w)).
Proof.
  intros Hw. unfold place. rewrite (take_S_r _ _ w) by done. rewrite encoded_app, length_app. unfold encoded at 2. cbn.
  rewrite app_nil_r. lia.
Qed.

Lemma rest_at k : skipn (Z.to_nat (place k)) (encoded ws) = encoded (drop k ws).
Proof.
  unfold place. rewrite Nat2Z.id. rewrite <- (take_drop k ws) at 2. rewrite encoded_app.
  by rewrite skipn_app, skipn_all, Nat.sub_diag.
Qed.

(** Reading the character at a place. *)
Lemma read_at k w :
  ws !! k = Some w →
  read_char mb_wc (firstn (Z.to_nat (total - place k)) (skipn (Z.to_nat (place k)) (encoded ws))) = Some (Z.of_nat (length (enc w)), w, 0).
Proof.
  intros Hw. destruct (HS w) as (Hl & Hr & _); [by eapply list_elem_of_lookup_2|]. rewrite rest_at.
  rewrite firstn_all2.
  2: { unfold place, total. rewrite <- (take_drop k ws) at 2. rewrite encoded_app, length_app. lia. }
  rewrite (drop_S _ w) by done. rewrite encoded_cons. unfold read_char. rewrite Hr.
  destruct (Z.eqb_spec (Z.of_nat (length (enc w))) 0); [lia|]. by rewrite (proj2 (Z.ltb_ge _ 0)) by lia.
Qed.

Lemma place_lt k w : ws !! k = Some w → place k < total.
Proof.
  intros Hw. destruct (HS w) as (Hl & _); [by eapply list_elem_of_lookup_2|]. unfold place, total.
  rewrite <- (take_drop k ws) at 2. rewrite (drop_S _ w) by done. rewrite encoded_app, length_app, encoded_cons, length_app. lia.
Qed.

(** One character that is converted. *)
Lemma convert_one cap w n l again :
  w ∈ ws → (live l = true → 1 ≤ cap - pos l) →
  convert_to_out wc_mb true cap n w l again =
    if live l then
      if pos l + 1 =? cap then
        if negb (dst_bytes (a_get l) =? unset) then
          Break (Ansi (a_src l + n) true (pos l + 1) (text l ++ [out w]) (closed l) (used_bytes l + 1) (error_count l) (add_source n (a_get l)))
        else Continue (Ansi (a_src l + n) false (pos l + 1) (text l ++ [out w]) true (used_bytes l + 1) (error_count l) (add_source n (a_get l)))
      else Continue (Ansi (a_src l + n) true (pos l + 1) (text l ++ [out w]) (closed l) (used_bytes l + 1) (error_count l) (add_source n (a_get l)))
    else Continue (Ansi (a_src l + n) false (pos l) (text l) (closed l) (used_bytes l + 1) (error_count l) (a_get l)).
Proof.
  intros Hw Hroom. destruct (HS w Hw) as (_ & _ & Hc). unfold convert_to_out.
  rewrite Hc by (destruct (live l); [by apply Hroom|lia]). done.
Qed.

(** Without a buffer the characters are counted. *)
Lemma count_chars fuel cap k l :
  live l = false → a_src l = place k → (k <= length ws)%nat → (length ws - k < fuel)%nat →
  ansi_chars mb_wc wc_mb fuel true cap (encoded ws) total l =
    Continue (Ansi total false (pos l) (text l) (closed l) (used_bytes l + Z.of_nat (length ws - k)) (error_count l) (a_get l)).
Proof.
  revert k l. induction fuel as [|fuel IH]; intros k l Hlive Hsrc Hk Hfuel; [lia|]. cbn [ansi_chars]. rewrite Hsrc.
  destruct (ws !! k) as [w|] eqn:Hw.
  - rewrite (proj2 (Z.ltb_lt _ _) (place_lt k w Hw)), (read_at k w Hw), convert_one; [|by eapply list_elem_of_lookup_2|cbn; by rewrite Hlive].
    cbn [live a_src]. rewrite Hlive. apply lookup_lt_Some in Hw as Hlt. rewrite (IH (S k)); cbn; [|done|by rewrite (place_S k w)|lia|lia].
    do 2 f_equal; lia.
  - apply lookup_ge_None in Hw. assert (k = length ws) as -> by lia. rewrite place_total, Z.ltb_irrefl. destruct l; cbn in *. subst.
    rewrite place_total. do 2 f_equal. lia.
Qed.

(** What the loop leaves: [m] characters in the buffer, the place behind them, and
    the count of all the characters or, when the length is known, of these. *)
Definition copied (k m : nat) (l l' : ansi_loop) : Prop :=
  text l' = text l ++ (out <$> take m (drop k ws)) ∧ closed l' || live l' = true ∧ error_count l' = error_count l ∧
  used_bytes l' = used_bytes l + Z.of_nat (if dst_bytes (a_get l) =? unset then length ws - k else m) ∧
  a_get l' = set_source (Some (place (k + m))) (a_get l).

Definition goes_on (x : flow) (l' : ansi_loop) : Prop := x = Continue l' ∨ x = Break l'.

Lemma fill_buffer fuel cap k l :
  live l = true → closed l = false → a_src l = place k → source (a_get l) = Some (place k) → (k <= length ws)%nat → 1 ≤ cap - pos l →
  (length ws - k < fuel)%nat →
  ∃ l', goes_on (ansi_chars mb_wc wc_mb fuel true cap (encoded ws) total l) l' ∧
    copied k (Z.to_nat (Z.min (cap - pos l) (Z.of_nat (length ws - k)))) l l'.
Proof.
  revert k l. induction fuel as [|fuel IH]; intros k l Hlive Hcl Hsrc Hg Hk Hroom Hfuel; [lia|]. cbn [ansi_chars]. rewrite Hsrc.
  destruct (ws !! k) as [w|] eqn:Hw.
  - apply list_elem_of_lookup_2 in Hw as Hin. apply lookup_lt_Some in Hw as Hlt.
    rewrite (proj2 (Z.ltb_lt _ _) (place_lt k w Hw)), (read_at k w Hw), convert_one; [|done|done].
    cbn [live a_src text closed used_bytes error_count a_get pos]. rewrite Hlive, Z.add_0_r.
    assert (add_source (Z.of_nat (length (enc w))) (a_get l) = set_source (Some (place (S k))) (a_get l)) as ->.
    { unfold add_source. rewrite Hg. cbn. by rewrite (place_S k w). }
    destruct (Z.eqb_spec (pos l + 1) cap) as [Hfull|Hfull].
    + replace (Z.to_nat (Z.min (cap - pos l) (Z.of_nat (length ws - k)))) with 1%nat by lia.
      assert (take 1 (drop k ws) = [w]) as Ht by (rewrite (drop_S _ w) by done; done).
      destruct (dst_bytes (a_get l) =? unset) eqn:Eu; cbn [negb].
      * rewrite (count_chars fuel cap (S k)); [|done|cbn; by rewrite (place_S k w)|lia|lia].
        eexists. split; [by left|]. unfold copied. rewrite Nat.add_1_r, Ht, Eu. cbn [text closed live error_count used_bytes a_get orb].
        split; [done|]. split; [done|]. split; [done|]. split; [lia|done].
      * eexists. split; [by right|]. unfold copied. rewrite Nat.add_1_r, Ht, Eu. cbn [text closed live error_count used_bytes a_get orb].
        split; [done|]. split; [apply orb_true_r|]. split; [done|]. split; [lia|done].
    + destruct (IH (S k) (Ansi (place k + Z.of_nat (length (enc w))) true (pos l + 1) (text l ++ [out w]) (closed l) (used_bytes l + 1)
        (error_count l) (set_source (Some (place (S k))) (a_get l)))) as (l' & Hgo & Ht & Hc & He & Hu & Ha);
        [done|done|cbn; by rewrite (place_S k w)|done|lia|cbn; lia|lia|].
      exists l'. split; [exact Hgo|]. cbn [pos text used_bytes error_count a_get] in *.
      set (m := Z.to_nat (Z.min (cap - (pos l + 1)) (Z.of_nat (length ws - S k)))) in *.
      replace (Z.to_nat (Z.min (cap - pos l) (Z.of_nat (length ws - k)))) with (S m) by lia.
      unfold copied. rewrite Ht, Hc, He, Hu, Ha. cbn [set_source dst_bytes]. rewrite (drop_S ws w k) by done. cbn [take fmap list_fmap].
      rewrite <- app_assoc. replace (k + S m)%nat with (S k + m)%nat by lia.
      split; [done|]. split; [done|]. split; [done|]. split; [|done]. destruct (_ =? unset); lia.
  - apply lookup_ge_None in Hw. assert (k = length ws) as -> by lia. rewrite place_total, Z.ltb_irrefl. exists l.
    split; [by left|]. replace (Z.to_nat _) with 0%nat by lia. unfold copied. rewrite Nat.sub_diag, Nat.add_0_r, app_nil_r, Hlive, orb_true_r.
    split; [done|]. split; [done|]. split; [done|]. split; [destruct (_ =? unset); lia|]. rewrite <- Hg. by destruct (a_get l).
Qed.

Lemma encoded_length : (length ws <= length (encoded ws))%nat.
Proof.
  clear -HS. unfold encoded. assert (∀ w, w ∈ ws → (0 < length (enc w))%nat) as H by (intros w Hw; by destruct (HS w Hw)). clear HS.
  induction ws as [|w l IH]; [done|]. cbn. rewrite length_app. specialize (H w ltac:(by left)) as Hw.
  assert (length l <= length (mjoin (enc <$> l)))%nat; [|unfold mjoin in *; lia]. apply IH. intros x Hx. apply H. by right.
Qed.

(** Where the column is, after [k] characters. *)
Definition at_char (g : GETDATA) (st : bool * str) : Prop :=
  ∃ k, (k <= length ws)%nat ∧ st.2 = out <$> drop k ws ∧ latest_bytes g = 0 ∧
    (source g = Some (place k) ∨ (source g = None ∧ k = 0%nat)) ∧
    (if st.1 then dst_bytes g = Z.of_nat (length ws) ∧ dst_offset g = Z.of_nat k
     else dst_bytes g = unset ∧ dst_offset g = unset ∧ k = 0%nat).

(** The loop for a buffer of [n] bytes: the pieces that [convert_ansi] looks at
    afterwards. *)
Lemma ansi_run n k g :
  (k <= length ws)%nat → latest_bytes g = 0 → source g = Some (place k) → 0 ≤ n →
  let only_nul := negb (n =? 0) && (n - 1 =? 0) in
  let l := Ansi (place k) (negb (n =? 0) && negb only_nul) 0 [] (only_nul && true) 0 0 g in
  let m := Z.to_nat (Z.min (n - 1) (Z.of_nat (length ws - k))) in
  ∃ l', goes_on (match leftover true (n - 1) l with
                 | Continue l => ansi_chars mb_wc wc_mb (S (length (encoded ws))) true (n - 1) (encoded ws) total l
                 | other => other end) l' ∧
    text l' = out <$> take m (drop k ws) ∧ (n ≠ 0 → closed l' || live l' = true) ∧ error_count l' = 0 ∧
    used_bytes l' = Z.of_nat (if (dst_bytes g =? unset) || (n <=? 1) then length ws - k else m) ∧
    a_get l' = set_source (Some (place (k + m))) g.
Proof.
  intros Hk Hl Hg Hn only_nul l m. assert (leftover true (n - 1) l = Continue l) as -> by (unfold leftover; subst l; cbn [a_get]; by rewrite Hl).
  pose proof encoded_length as Hlen.
  assert (n = 0 ∨ n = 1 ∨ 2 ≤ n) as [->|[->|Hn2]] by lia.
  - cbn [negb andb Z.eqb] in *. rewrite (count_chars _ _ k) by (first [done | lia]). eexists. split; [by left|].
    assert (m = 0%nat) as -> by (subst m; lia). cbn. rewrite orb_true_r, Nat.add_0_r. split; [done|]. split; [done|]. split; [done|]. split; [lia|].
    rewrite <- Hg. by destruct g.
  - cbn [negb andb Z.eqb] in *. rewrite (count_chars _ _ k) by (first [done | lia]). eexists. split; [by left|].
    assert (m = 0%nat) as -> by (subst m; lia). cbn. rewrite orb_true_r, Nat.add_0_r. split; [done|]. split; [done|]. split; [done|]. split; [lia|].
    rewrite <- Hg. by destruct g.
  - assert (only_nul = false) as E by (subst only_nul; rewrite (proj2 (Z.eqb_neq (n - 1) 0)) by lia; apply andb_false_r).
    subst l. rewrite E. rewrite (proj2 (Z.eqb_neq n 0)) by lia. cbn [negb andb].
    destruct (fill_buffer (S (length (encoded ws))) (n - 1) k (Ansi (place k) true 0 [] false 0 0 g)) as (l' & Hgo & Ht & Hc & He & Hu & Ha);
      [done..|cbn; lia|lia|]. exists l'. split; [exact Hgo|]. cbn [pos text error_count used_bytes a_get] in *.
    rewrite Z.sub_0_r in *. rewrite (proj2 (Z.leb_gt n 1)) by lia. rewrite orb_false_r. fold m in Ht, Hu, Ha. split; [done|]. split; [done|].
    split; [done|]. split; [lia|done].
Qed.

(** The length of the text is noted by the first call that has a buffer. *)
Definition count_once (n used : Z) (g : GETDATA) : GETDATA := if negb (n =? 0) && (dst_bytes g =? unset) then set_dst used 0 g else g.

(** The counters after the loop: the length and the offset before the call, what the
    call moves the offset by, and what it reports as left. *)
Lemma counters_after (started : bool) n (k m : nat) used g :
  (k <= length ws)%nat → Z.of_nat (length ws) < unset → 0 ≤ n < 2 ^ 64 → m = Z.to_nat (Z.min (n - 1) (Z.of_nat (length ws - k))) →
  used = Z.of_nat (if (dst_bytes g =? unset) || (n <=? 1) then length ws - k else m) →
  (if started then dst_bytes g = Z.of_nat (length ws) ∧ dst_offset g = Z.of_nat k else dst_bytes g = unset ∧ dst_offset g = unset ∧ k = 0%nat) →
  let d := count_once n used g in
  latest_bytes d = latest_bytes g ∧ source d = source g ∧
  (if started || negb (n =? 0) then dst_bytes d = Z.of_nat (length ws) ∧ dst_offset d = Z.of_nat k
   else dst_bytes d = unset ∧ dst_offset d = unset ∧ k = 0%nat) ∧
  Z.min (if n =? 0 then 0 else to_ulong (n - 1)) used = Z.of_nat m ∧
  (if negb (dst_bytes d =? unset) then to_ulong (dst_bytes d - dst_offset d) else used) = Z.of_nat (length ws - k).
Proof.
  intros Hk Hlen Hn Hm Hu Hst d. assert (Z.of_nat (length ws) =? unset = false) as Hnu by lia. assert (unset < 2 ^ 64) as Hun by reflexivity.
  subst d. unfold count_once. assert (n = 0 ∨ 1 ≤ n) as [->|Hn1] by lia.
  - change (0 =? 0) with true. cbn [negb andb] in *. rewrite orb_true_r in Hu. rewrite orb_false_r. split; [done|]. split; [done|].
    destruct started; [destruct Hst as [-> ->]; rewrite Hnu; cbn [negb]; unfold to_ulong; rewrite Z.mod_small by lia|
      destruct Hst as (-> & -> & ->); change (unset =? unset) with true; cbn [negb]]; (split; [done|]); lia.
  - assert (n =? 0 = false) as -> by lia. cbn [negb andb]. rewrite orb_true_r.
    assert (to_ulong (n - 1) = n - 1) as -> by (unfold to_ulong; rewrite Z.mod_small by lia; done).
    destruct started; [destruct Hst as [Eb Eo]|destruct Hst as (Eb & Eo & Ek)]; rewrite Eb in *;
      [rewrite Hnu in *|change (unset =? unset) with true in *]; cbn [latest_bytes source set_dst dst_bytes dst_offset orb] in *;
      (split; [done|]); (split; [done|]).
    + rewrite Eb, Eo, Hnu. cbn [negb]. unfold to_ulong. rewrite Z.mod_small by lia. split; [done|]. destruct (Z.leb_spec n 1); lia.
    + subst k. assert (used =? unset = false) as -> by lia. cbn [negb]. unfold to_ulong. rewrite Z.mod_small by lia. split; [lia|]. lia.
Qed.

(** What is copied and what is left, as parts of the text that was left before. *)
Lemma piece_taken n k m rest :
  m = Z.to_nat (Z.min (n - 1) (Z.of_nat (length ws - k))) → rest = out <$> drop k ws →
  firstn (Z.to_nat (n - 1)) rest = out <$> take m (drop k ws) ∧ skipn (Z.to_nat (n - 1)) rest = out <$> drop (k + m) ws.
Proof.
  intros -> ->. rewrite <- fmap_take, <- fmap_drop, skipn_skipn.
  destruct (Z.min_spec (n - 1) (Z.of_nat (length ws - k))) as [[? ->]|[? ->]]; [split; [done|]; do 2 f_equal; lia|].
  split; [rewrite !firstn_all2; [done|rewrite length_drop; lia..]|]. rewrite !skipn_all2; [done|lia|lia].
Qed.

Lemma ansi_piece o n g st :
  max_length o = 0 → retrieve_data o = true → Z.of_nat (length ws) < unset → 0 ≤ n < 2 ^ 64 → at_char g st →
  ∃ x g', convert_ansi mb_wc wc_mb o true n true (encoded ws) g = Ok (x, g') ∧
    same_outcome x (piece (λ n, n - 1) [Ascii.zero] n st).1 ∧ at_char g' (piece (λ n, n - 1) [Ascii.zero] n st).2.
Proof.
  intros Hm Hret Hlen Hn (k & Hk & Hrest & Hl & Hsrc & Hst). destruct st as [started rest]. cbn [fst snd] in *.
  unfold convert_ansi. rewrite Hret. cbn [negb andb]. unfold limited. rewrite Hm. change (negb (0 =? 0)) with false. cbn [andb].
  set (g0 := set_source (Some (default 0 (source g))) g). fold total.
  assert (default 0 (source g) = place k) as Hp by (destruct Hsrc as [->|[-> ->]]; done).
  assert (source g0 = Some (place k)) as Hg0 by (unfold g0; cbn; by rewrite Hp).
  assert (Z.of_nat (length rest) = Z.of_nat (length ws - k)) as Hrl by (rewrite Hrest, length_fmap, length_drop; lia).
  assert (bool_decide (rest = []) = (Z.of_nat (length ws - k) =? 0)) as Hempty.
  { rewrite <- Hrl. destruct (Z.eqb_spec (Z.of_nat (length rest)) 0) as [E|E]; [apply bool_decide_true, length_zero_iff_nil; lia|].
    apply bool_decide_false. intros ->. done. }
  assert (negb (dst_bytes g0 =? unset) && (dst_bytes g0 <=? dst_offset g0) = started && bool_decide (rest = [])) as ->.
  { rewrite Hempty. change (dst_bytes g0) with (dst_bytes g). change (dst_offset g0) with (dst_offset g).
    destruct started; cbn [andb]; [|by destruct Hst as (-> & _)]. destruct Hst as [-> ->]. rewrite (proj2 (Z.eqb_neq _ _)) by lia. cbn [negb andb].
    destruct (Z.leb_spec (Z.of_nat (length ws)) (Z.of_nat k)), (Z.eqb_spec (Z.of_nat (length ws - k)) 0); lia || done. }
  unfold piece. destruct (started && bool_decide (rest = [])) eqn:Es.
  { eexists _, _. split; [done|]. split; [by split|]. exists k. split; [done|]. split; [done|]. split; [done|]. split; [by left|exact Hst]. }
  rewrite Hg0. cbn [from_option]. destruct (ansi_run n k g0 Hk Hl Hg0 ltac:(lia)) as (l' & Hgo & Ht & Hc & He & Hu & Ha).
  set (m := Z.to_nat (Z.min (n - 1) (Z.of_nat (length ws - k)))) in *. cbv zeta. cbn [id].
  match type of Hgo with goes_on ?f _ => set (fl := f) in * end.
  match goal with |- ∃ x g', match ?f with _ => _ end = _ ∧ _ => change f with fl end.
  match goal with |- ∃ x g', match fl with Continue l => @?body l | _ => _ end = _ ∧ _ =>
    assert (∃ x g', body l' = Ok (x, g') ∧ same_outcome x
      (Outcome (if (n =? 0) && true || (n - 1 <? Z.of_nat (length rest)) then SQL_SUCCESS_WITH_INFO else SQL_SUCCESS)
         (if n =? 0 then None else Some (firstn (Z.to_nat (n - 1)) rest ++ [Ascii.zero])) (Some (Z.of_nat (length rest)))
         (if (n =? 0) && true || (n - 1 <? Z.of_nat (length rest)) then truncated else None)) ∧
      at_char g' (started || negb (n =? 0) || false, skipn (Z.to_nat (n - 1)) rest)) as (x & g' & E & Hx & Hg') end.
  2: { exists x, g'. destruct Hgo as [-> | ->]; by rewrite <- E. }
  cbv beta. rewrite Ha, He. change (0 <? 0) with false. rewrite orb_false_r. cbn [dst_bytes set_source].
  change (dst_bytes g0) with (dst_bytes g). change (dst_offset g0) with (dst_offset g).
  rewrite Hrl in *. destruct (piece_taken n k m rest eq_refl Hrest) as [-> ->]. rewrite Ht.
  match goal with |- context [dst_offset ?x + _] =>
    change x with (count_once n (used_bytes l') (set_source (Some (place (k + m))) g0)) end.
  destruct (counters_after started n k m (used_bytes l') (set_source (Some (place (k + m))) g0) Hk Hlen Hn eq_refl Hu Hst)
    as (D1 & D2 & D4 & D5 & D6).
  set (d := count_once n (used_bytes l') (set_source (Some (place (k + m))) g0)) in *. cbv zeta in D1. clearbody d.
  rewrite D5, D6. clear D5 D6.
  assert (unset < 2 ^ 64) as Hun by reflexivity. assert (m = Z.to_nat (Z.min (n - 1) (Z.of_nat (length ws - k)))) as Hmm by done. clearbody m.
  cbn [dst_bytes dst_offset set_dst].
  assert ((n =? 0) || (to_ulong (dst_offset d + Z.of_nat m) <? dst_bytes d) = (n =? 0) && true || (n - 1 <? Z.of_nat (length ws - k))) as ->.
  { assert (n = 0 ∨ 1 ≤ n) as [->|Hn1] by lia; [done|]. assert (n =? 0 = false) as En by lia.
    rewrite En in *. cbn [negb orb andb] in *. rewrite orb_true_r in D4. destruct D4 as [-> ->]. unfold to_ulong. rewrite Z.mod_small by lia.
    destruct (Z.ltb_spec (Z.of_nat k + Z.of_nat m) (Z.of_nat (length ws))), (Z.ltb_spec (n - 1) (Z.of_nat (length ws - k))); lia || done. }
  eexists _, _. split; [done|]. split.
  - assert (n = 0 ∨ 1 ≤ n) as [->|Hn1] by lia; [done|]. assert (n =? 0 = false) as En by lia. rewrite En. cbn [negb andb].
    rewrite (Hc ltac:(lia)). done.
  - exists (k + m)%nat. split; [lia|]. cbn [fst snd latest_bytes source set_dst dst_bytes dst_offset]. split; [done|]. split; [by rewrite D1|].
    split; [by left|]. rewrite orb_false_r. destruct (started || negb (n =? 0)) eqn:E.
    + destruct D4 as [-> ->]. split; [done|]. unfold to_ulong. rewrite Z.mod_small by lia. lia.
    + apply orb_false_iff in E as [_ E%negb_false_iff%Z.eqb_eq]. destruct D4 as (-> & -> & ->). assert (m = 0%nat) as -> by lia. done.
Qed.
End Conversion.

(** One call when nothing is converted. *)
Lemma same_piece mb_wc wc_mb o (v : str) n g st :
  max_length o = 0 → retrieve_data o = true → Z.of_nat (length v) < 2 ^ 64 → 0 ≤ n < 2 ^ 64 → at_place v g st →
  ∃ x g', copy_ansi_result mb_wc wc_mb true o true n true v g = Ok (x, g') ∧
    same_outcome x (piece (λ n, n - 1) [Ascii.zero] n st).1 ∧ at_place v g' (piece (λ n, n - 1) [Ascii.zero] n st).2.
Proof.
  intros Hm Hret Hlen Hn Hg. assert (limited_value o v = v) as Hv.
  { unfold limited_value, limited. rewrite Hm. change (negb (0 =? 0)) with false. cbn [andb]. by rewrite Nat2Z.id, firstn_all. }
  pose proof (binary_piece o v (if n =? 0 then 0 else n - 1) g st) as Hb. rewrite Hv in Hb.
  destruct (Hb ltac:(lia) Hlen ltac:(destruct (n =? 0) eqn:E; lia) Hret Hg) as (x & g' & E & -> & Hg'). clear Hb. destruct st as [started rest].
  destruct Hg as (k & Hk & Hrest & Hsrc & Hk0). cbn [fst snd] in *. unfold copy_ansi_result. rewrite Hret.
  assert (bool_decide (is_Some (source g)) = started) as -> by (rewrite Hsrc; destruct started; [by rewrite bool_decide_true|by rewrite bool_decide_false by by intros []]).
  unfold piece in *. assert (bool_decide (@nil ascii = []) = true) as En by done. rewrite En in *. clear En.
  assert (bool_decide ([Ascii.zero] = []) = false) as -> by done. cbn [andb]. rewrite !orb_false_r.
  destruct (Z.eqb_spec n 0) as [->|Hn0]; cbn iota in E, Hg'; cbn [andb negb].
  - destruct started; cbn [negb andb orb] in *.
    + change (copy_binary_result o false 0 true v g) with (copy_binary_result o true 0 true v g). rewrite E. cbn [mbind res_bind]. destruct (bool_decide (rest = [])) eqn:Er.
      * eexists _, _. split; [done|]. split; [by split|exact Hg'].
      * apply bool_decide_eq_false in Er. assert (Z.of_nat (length rest) =? 0 = false) as El.
        { apply Z.eqb_neq. intros H. apply Er, length_zero_iff_nil. lia. }
        rewrite El. cbn [andb negb orb ret written avail state fst snd].
        rewrite bool_decide_false by done. eexists _, _. split; [done|]. split; [by split|exact Hg'].
    + eexists _, _. split; [done|]. split; [split; [done|]; intros _; cbn; by rewrite Hrest, Hk0|]. exists k. done.
  - rewrite E. cbn [mbind res_bind fst snd] in *. rewrite orb_true_r in *. destruct (started && bool_decide (rest = [])) eqn:Er.
    + eexists _, _. split; [done|]. split; [by split|exact Hg'].
    + cbn [ret written avail state fst snd orb].
      assert (n - 1 =? 0 = true → n - 1 = 0) as H0 by (by intros ?%Z.eqb_eq).
      assert ((n - 1 =? 0) && negb (true && (Z.of_nat (length rest) =? 0)) || (n - 1 <? Z.of_nat (length rest)) = (n - 1 <? Z.of_nat (length rest))) as ->.
      { destruct (n - 1 =? 0) eqn:E0; [|done]. cbn [andb]. rewrite (H0 eq_refl).
        destruct (Z.eqb_spec (Z.of_nat (length rest)) 0), (Z.ltb_spec 0 (Z.of_nat (length rest))); lia || done. }
      rewrite bool_decide_false by (by destruct (n - 1 <? _)). eexists _, _. split; [done|]. split; [|rewrite orb_true_r; exact Hg']. split; [done|]. intros _.
      cbn [ret]. f_equal. f_equal. destruct (n - 1 =? 0) eqn:E0; cbn [default from_option id]; [rewrite (H0 eq_refl); done|by rewrite app_nil_r].
Qed.

(** Characters in pieces.  Whatever buffers an application reads a column of
    characters with, the calls give what cutting the converted text into pieces
    gives, each closed by a null character: without a conversion, and with one into
    a character set of single bytes, whatever the lengths of the characters in the
    column are. *)
Theorem ansi_pieces mb_wc wc_mb enc out (same : bool) o ws ns :
  single_byte mb_wc wc_mb enc out ws → max_length o = 0 → retrieve_data o = true →
  Z.of_nat (length (encoded enc ws)) < unset → Forall (λ n, 0 ≤ n < 2 ^ 64) ns →
  ∃ xs, get_all (λ n g, copy_ansi_result mb_wc wc_mb same o true n true (encoded enc ws) g) ns fresh = Ok xs ∧
    Forall2 same_outcome xs (pieces (λ n, n - 1) [Ascii.zero] ns (false, if same then encoded enc ws else out <$> ws)).
Proof.
  intros HS Hm Hret Hlen Hns. rewrite Forall_forall in Hns. destruct same.
  - apply (get_all_pieces (at_place (encoded enc ws))); [|exists 0%nat; split; [lia|done]]. intros n g st Hn Hg.
    apply same_piece; [done|done| |by apply Hns|done]. assert (unset < 2 ^ 64) by reflexivity. lia.
  - apply (get_all_pieces (at_char enc out ws)).
    + intros n g st Hn Hg. apply ansi_piece; [done..| |by apply Hns|done]. assert (length ws <= length (encoded enc ws))%nat; [|lia].
      by eapply encoded_length.
    + exists 0%nat. split; [lia|]. split; [done|]. split; [done|]. split; [by right|]. done.
Qed.

(** ** Where pieces go wrong *)

(** A character set of two bytes for the buffer, and of three for the column: the
    letters are single bytes in both. *)
Definition ex_mb_wc (s : str) : Z * Z :=
  match s with
  | "u"%char :: _ :: _ :: _ => (3, 8364)
  | c :: _ => (1, Z.of_nat (nat_of_ascii c))
  | [] => (MY_CS_TOOSMALL, 0)
  end.
Definition ex_wc_mb (wc room : Z) : Z * str :=
  if wc =? 8364 then (if room <? 2 then (-102, []) else (2, S!"EU"))
  else (1, [ascii_of_nat (Z.to_nat wc)]).
Definition ex_options : get_options := Options 0 true.

(** The results and the texts of calls in turn. *)
Definition seen (r : res (list outcome)) : option (list (Z * option str)) :=
  match r with Ok xs => Some ((λ x, (ret x, written x)) <$> xs) | _ => None end.

(** A character that is split between two buffers moves the place in the column by
    its bytes in the buffer, not by those in the column: what follows is garbled,
    the third byte of the character is read as one of its own. *)
Example split_character :
  seen (get_all (λ n g, copy_ansi_result ex_mb_wc ex_wc_mb false ex_options true n true (S!"auxyz") g) [3; 5] fresh) =
  Some [(SQL_SUCCESS_WITH_INFO, Some (S!"aE" ++ [Ascii.zero])); (SQL_SUCCESS, Some (S!"Uyz" ++ [Ascii.zero]))].
Proof. vm_compute. reflexivity. Qed.

(** A null buffer of no bytes asks for the length of what is left; while a character
    is split it is written to. *)
Example length_of_split_character :
  get_all (λ n g, copy_ansi_result ex_mb_wc ex_wc_mb false ex_options true n true (S!"auxyz") g) [3; 0] fresh = UB.
Proof. vm_compute. reflexivity. Qed.

(** One character, "p", is a pair of surrogates in UTF-16. *)
Definition ex_wide_mb_wc (s : str) : Z * Z :=
  match s with
  | "p"%char :: _ => (1, 128512)
  | c :: _ => (1, Z.of_nat (nat_of_ascii c))
  | [] => (MY_CS_TOOSMALL, 0)
  end.
Definition ex_to_utf16 (wc : Z) : list Z := if wc =? 128512 then [55357; 56832] else [wc].

Fixpoint get_all_wide (ns : list Z) (v : str) (g : GETDATA) : list (option (Z * option (list Z))) :=
  match ns with
  | [] => []
  | n :: ns =>
    match copy_wchar_result ex_wide_mb_wc ex_to_utf16 ex_options true n true v g with
    | Ok (x, g) => Some (w_ret x, w_written x) :: get_all_wide ns v g
    | _ => [None]
    end
  end.

(** A pair that is split between the first two buffers is not passed over: its second
    unit is followed by the whole pair once more, and by what comes after it. *)
Example split_pair_repeated :
  get_all_wide [3; 4; 4] (S!"apb") fresh =
  [Some (SQL_SUCCESS_WITH_INFO, Some [97; 55357; 0]); Some (SQL_SUCCESS, Some [56832; 55357; 56832; 0]); Some (SQL_NO_DATA_FOUND, None)].
Proof. vm_compute. reflexivity. Qed.

(** Two calls for ten bytes in hexadecimal, the second of which reports success with
    two bytes left: the place is compared with what was left before the call. *)
Example hex_success_too_early :
  seen (get_all (λ n g, copy_binhex_result 1 ex_options true n true (S!"0123456789") g) [9; 9; 9] fresh) =
  Some [(SQL_SUCCESS_WITH_INFO, Some (S!"30313233" ++ [Ascii.zero])); (SQL_SUCCESS, Some (S!"34353637" ++ [Ascii.zero]));
        (SQL_SUCCESS, Some (S!"3839" ++ [Ascii.zero]))].
Proof. vm_compute. reflexivity. Qed.

(** ** Hexadecimal digits in pieces *)

Definition at_byte (v : str) (g : GETDATA) (st : bool * str) : Prop :=
  ∃ k, (k <= length v)%nat ∧ st.2 = skipn k v ∧ (if st.1 then src_offset g = Z.of_nat k else src_offset g = unset ∧ k = 0%nat).

(** What a call for hexadecimal digits gives: the digits of the bytes that fit. *)
Definition hex_piece (n : Z) (st : bool * str) : option (str * Z) * (bool * str) :=
  let '(started, rest) := st in
  if started && bool_decide (rest = []) then (None, st)
  else
    let m := Z.to_nat ((n - 1) / 2) in
    (Some (hex_text (firstn m rest), Z.of_nat (length rest) * 2), (true, skipn m rest)).

Fixpoint hex_pieces (ns : list Z) (st : bool * str) : list (option (str * Z)) :=
  match ns with [] => [] | n :: ns => (hex_piece n st).1 :: hex_pieces ns (hex_piece n st).2 end.

(** What an application sees of a call. *)
Definition hex_seen (x : outcome) : option (str * Z) :=
  if ret x =? SQL_NO_DATA_FOUND then None
  else Some (removelast (default [] (written x)), default 0 (avail x)).

Lemma binhex_piece o v n g st :
  max_length o = 0 → retrieve_data o = true → Z.of_nat (length v) < unset → 1 ≤ n < 2 ^ 64 → at_byte v g st →
  ∃ x g', copy_binhex_result 1 o true n true v g = Ok (x, g') ∧ hex_seen x = (hex_piece n st).1 ∧ at_byte v g' (hex_piece n st).2.
Proof.
  intros Hm Hret Hlen Hn (k & Hk & Hrest & Hsrc). destruct st as [started rest]. cbn [fst snd] in *. unfold copy_binhex_result. rewrite Hm, Hret.
  change (negb (0 =? 0)) with false. cbn iota. assert ((src_offset g =? unset) = negb started) as ->.
  { destruct started; [rewrite Hsrc; apply Z.eqb_neq; lia|]. by destruct Hsrc as [-> _]. }
  assert ((if negb started then 0 else src_offset g) = Z.of_nat k) as -> by (destruct started; [done|by destruct Hsrc as [_ ->]]).
  rewrite negb_involutive. assert (Z.of_nat (length rest) = Z.of_nat (length v) - Z.of_nat k) as Hrl by (rewrite Hrest, length_skipn; lia).
  unfold hex_piece. assert (bool_decide (rest = []) = (Z.of_nat (length v) <=? Z.of_nat k)) as ->.
  { destruct (Z.leb_spec (Z.of_nat (length v)) (Z.of_nat k)); [apply bool_decide_true, length_zero_iff_nil; lia|].
    apply bool_decide_false. intros ->. cbn in Hrl. lia. }
  destruct (started && _) eqn:Es.
  { eexists _, _. split; [done|]. split; [done|]. apply andb_true_iff in Es as [-> _]. exists k. done. }
  rewrite (proj2 (Z.eqb_neq n 0)) by lia. cbn [negb andb]. assert (to_ulong (n - 1) = n - 1) as -> by (unfold to_ulong; rewrite Z.mod_small; lia).
  set (m := Z.min (Z.of_nat (length v) - Z.of_nat k) ((n - 1) / 2)). assert (0 ≤ (n - 1) / 2) as Hd by (apply Z.div_pos; lia).
  assert (0 ≤ m ≤ Z.of_nat (length v) - Z.of_nat k) as Hmb by (subst m; lia).
  unfold read_bytes. rewrite (proj2 (Z.leb_le 0 (Z.of_nat k))) by lia.
  rewrite (proj2 (Z.leb_le (Z.of_nat k + m) (Z.of_nat (length v)))) by lia. cbn [andb mbind res_bind]. rewrite Nat2Z.id, <- Hrest.
  assert (firstn (Z.to_nat m) rest = firstn (Z.to_nat ((n - 1) / 2)) rest ∧ skipn (Z.to_nat m) rest = skipn (Z.to_nat ((n - 1) / 2)) rest) as [<- <-].
  { destruct (Z.min_spec (Z.of_nat (length v) - Z.of_nat k) ((n - 1) / 2)) as [[? E]|[? E]]; subst m; rewrite E; [|done].
    rewrite !firstn_all2, !skipn_all2 by lia. done. }
  eexists _, _. split; [done|]. split.
  - unfold hex_seen. cbn [ret written avail default from_option id]. rewrite removelast_last, !Z.mul_1_r, <- Hrl. by destruct (Z.of_nat (length rest) <=? _).
  - exists (k + Z.to_nat m)%nat. cbn [fst snd src_offset set_src_offset]. split; [lia|]. split; [|lia]. rewrite Hrest, skipn_skipn. f_equal. lia.
Qed.

(** Binary data as digits in pieces.  Whatever buffers an application reads a
    column as hexadecimal digits with, each call gives the digits of the bytes that
    come next and the number of digits that were left before it, until there is no
    more data: nothing is lost or repeated.  (The result does not always tell that
    data is left, [hex_success_too_early].) *)
Theorem binhex_pieces o (v : str) ns :
  max_length o = 0 → retrieve_data o = true → Z.of_nat (length v) < unset → Forall (λ n, 1 ≤ n < 2 ^ 64) ns →
  ∃ xs, get_all (λ n g, copy_binhex_result 1 o true n true v g) ns fresh = Ok xs ∧ hex_seen <$> xs = hex_pieces ns (false, v).
Proof.
  intros Hm Hret Hlen Hns. assert (at_byte v fresh (false, v)) as Hg by (exists 0%nat; split; [lia|done]). revert Hg.
  generalize fresh (false, v). induction ns as [|n ns IH]; intros g st Hg; [by exists []|]. apply Forall_cons in Hns as [Hn Hns].
  destruct (binhex_piece o v n g st Hm Hret Hlen Hn Hg) as (x & g' & E & Hx & Hg'). destruct (IH Hns g' _ Hg') as (xs & Es & Hxs).
  exists (x :: xs). cbn [get_all hex_pieces]. rewrite E. cbn [mbind res_bind]. rewrite Es. split; [done|]. cbn. by rewrite Hx, Hxs.
Qed.

(** Witnesses: a text of eight bytes is read with buffers of four. *)
Lemma binary_pieces_witness :
  ∃ xs, get_all (λ n g, copy_binary_result (Options 6 true) true n true (S!"abcdefgh") g) [4; 4; 4] fresh = Ok xs ∧
    Forall2 same_outcome xs (pieces (λ n, n) [] [4; 4; 4] (false, limited_value (Options 6 true) (S!"abcdefgh"))).
Proof.
  apply (binary_pieces (Options 6 true) (S!"abcdefgh") [4; 4; 4]); [cbn; lia|cbn; lia|reflexivity|repeat constructor; lia].
Defined.

Lemma ansi_pieces_witness :
  ∃ xs, get_all (λ n g, copy_ansi_result ex_mb_wc (λ wc _, ex_wc_mb wc 7) false ex_options true n true (encoded (λ w, [ascii_of_nat (Z.to_nat w)]) [97; 98; 99]) g) [3; 3; 3] fresh = Ok xs ∧
    Forall2 same_outcome xs (pieces (λ n, n - 1) [Ascii.zero] [3; 3; 3] (false, (λ w, ascii_of_nat (Z.to_nat w)) <$> [97; 98; 99])).
Proof.
  apply (ansi_pieces ex_mb_wc (λ wc _, ex_wc_mb wc 7) (λ w, [ascii_of_nat (Z.to_nat w)]) (λ w, ascii_of_nat (Z.to_nat w)) false ex_options [97; 98; 99] [3; 3; 3]).
  - intros w Hw. repeat (apply elem_of_cons in Hw as [-> | Hw]; [split; [vm_compute; lia|]; split; reflexivity|]). by apply elem_of_nil in Hw.
  - reflexivity.
  - reflexivity.
  - vm_compute. reflexivity.
  - repeat constructor; lia.
Defined.

Lemma binhex_pieces_witness :
  ∃ xs, get_all (λ n g, copy_binhex_result 1 ex_options true n true (S!"012345") g) [9; 9; 9] fresh = Ok xs ∧
    hex_seen <$> xs = hex_pieces [9; 9; 9] (false, S!"012345").
Proof.
  apply (binhex_pieces ex_options (S!"012345") [9; 9; 9]); [reflexivity|reflexivity|vm_compute; reflexivity|repeat constructor; lia].
Defined.
