(* ===== verification/DateTime.v ===== *)
(** Dates, times and timestamps as text (src/driver/utility.cc, execute.cc,
    my_prepared_stmt.cc, results.cc): what a structure of the application is
    sent as, and what a text of the server, or of the application, is read as.

    A C string is the list of its bytes, without the null character that ends it. *)

From S2P Require Import Prelude CppString HostList Numeric Errors.

Local Open Scope Z_scope.

(** ** Structures *)

Record SQL_DATE_STRUCT := Date { d_year : Z; d_month : Z; d_day : Z }.
Record SQL_TIME_STRUCT := Time { t_hour : Z; t_minute : Z; t_second : Z }.
Record SQL_TIMESTAMP_STRUCT := Timestamp {
  year : Z; month : Z; day : Z; hour : Z; minute : Z; second : Z; fraction : Z }.

#[export] Instance SQL_TIMESTAMP_STRUCT_eq_dec : EqDecision SQL_TIMESTAMP_STRUCT.
Proof. solve_decision. Defined.
#[export] Instance SQL_TIME_STRUCT_eq_dec : EqDecision SQL_TIME_STRUCT.
Proof. solve_decision. Defined.

(** ** Reading *)

(** The index of the first place, before [limit], where [p] begins. *)
Fixpoint find_before (p : str) (limit : nat) (s : str) : option nat :=
  match limit, s with
  | S limit, _ :: s' => if starts_with p s then Some O else S <$> find_before p limit s'
  | _, _ => None
  end.

(** [src/driver/utility.cc:3803-3810] get_fractional_part

    The loop that fills the [n] places of the buffer: a character that is no digit is
    never passed. *)
Fixpoint fill_fraction (n : nat) (rest : str) : str :=
  match n with
  | O => []
  | S n =>
    match rest with
    | c :: rest' => if is_digit c then c :: fill_fraction n rest' else "0"%char :: fill_fraction n rest
    | [] => "0"%char :: fill_fraction n []
    end
  end.

(** [src/driver/utility.cc:3760-3822] get_fractional_part

    [decimal_point] is the one of the locale; a negative length stands for that of
    the string. *)
Definition get_fractional_part (decimal_point : str) (s : str) (len : Z) (dont_use_set_locale : bool) : option nat * Z :=
  let len := if len <? 0 then Z.of_nat (length s) else len in
  let '(decptr, n) :=
    if dont_use_set_locale then (fst <$> list_find (λ c, c = "."%char) s, 1)
    else (if bool_decide (decimal_point = []) then None else find_before decimal_point (Z.to_nat len) s, Z.of_nat (length decimal_point)) in
  match decptr with
  | Some i =>
    if Z.of_nat i <? len - n then
      let from := (i + Z.to_nat n)%nat in
      (Some i, number (firstn 9 (fill_fraction 10 (firstn (Z.to_nat len - from) (skipn from s)))))
    else (None, 0)
  | None => (None, 0)
  end.

Inductive ts_result := Ts (t : SQL_TIMESTAMP_STRUCT) | SQLTS_NULL_DATE | SQLTS_BAD_DATE.

Definition DATETIME_DIGITS : nat := 14.

(** [digits_at b i n]: the number of the [n] digits of a buffer from the place [i]. *)
Definition digits_at (b : str) (i n : nat) : Z := number (firstn n (skipn i b)).
Definition zeros_at (b : str) (i : nat) : bool := bool_decide (firstn 2 (skipn i b) = S!"00").

(** [src/driver/utility.cc:2203-2229] str_to_ts

    The digits that were found, with a century and zeros. *)
Definition full_digits (ds : str) : str :=
  let ds := match ds with
            | c :: _ =>
              if bool_decide (length ds = 6%nat) || bool_decide (length ds = 12%nat) then
                (if (N_of_ascii c <=? N_of_ascii "6"%char)%N then S!"20" else S!"19") ++ ds
              else ds
            | [] => ds
            end in
  ds ++ replicate (DATETIME_DIGITS - length ds) "0"%char.

(** [src/driver/utility.cc:2155-2254] str_to_ts *)
Definition str_to_ts (decimal_point : str) (s : str) (len : Z) (zeroToMin dont_use_set_locale : bool) : res ts_result :=
  let len := if len <? 0 then Z.of_nat (length s) else len in
  let '(decptr, fraction) := get_fractional_part decimal_point s len dont_use_set_locale in
  let stop := match decptr with Some i => i | None => Z.to_nat len end in
  let ds := List.filter is_digit (firstn stop s) in
  if bool_decide (DATETIME_DIGITS < length ds)%nat then Ok SQLTS_BAD_DATE
  else if bool_decide (S (length s) < stop)%nat then UB
  else
    let b := full_digits ds in
    let null := zeros_at b 4 || zeros_at b 6 in
    if null && negb zeroToMin then Ok SQLTS_NULL_DATE
    else
      let month := if zeros_at b 4 then 1 else digits_at b 4 2 in
      let day := if zeros_at b 6 then 1 else digits_at b 6 2 in
      Ok (Ts (Timestamp (digits_at b 0 4) month day (digits_at b 8 2) (digits_at b 10 2) (digits_at b 12 2) fraction)).

(** [src/driver/utility.cc:2270-2292] str_to_time_st

    The texts that are terminated in the buffer, of which there are [num] before this
    one, with [room] bytes left. *)
Fixpoint time_tokens (room : nat) (num : nat) (tok : str) (s : str) : list str :=
  match room, s with
  | S room, c :: s' =>
    if is_digit c then time_tokens room num (tok ++ [c]) s'
    else if bool_decide (num < 2)%nat then tok :: time_tokens room (S num) [] s'
    else [tok]
  | _, _ => [tok]
  end.

(** An addition of [int]s: an overflow is undefined. *)
Definition add_int (a b : Z) : res Z :=
  if (int32_min <=? a + b) && (a + b <=? int32_max) then Ok (a + b) else UB.

(** [atoi] of a token, 0 when there is none. *)
Definition token_int (t : option str) : Z := match t with Some s => to_int32 (atol s) | None => 0 end.
Definition to_u16 (z : Z) : Z := z mod 65536.

(** [src/driver/utility.cc:2261-2317] str_to_time_st *)
Definition str_to_time_st (s : str) : res SQL_TIME_STRUCT :=
  let tokens := time_tokens 23 0 [] s in
  let int_hour := token_int (tokens !! 0%nat) in
  let int_min := token_int (tokens !! 1%nat) in
  let int_sec := token_int (tokens !! 2%nat) in
  '(int_min, int_sec) ← (if 59 <? int_sec then m ← add_int int_min (int_sec / 60); Ok (m, int_sec mod 60) else Ok (int_min, int_sec));
  '(int_hour, int_min) ← (if 59 <? int_min then h ← add_int int_hour (int_min / 60); Ok (h, int_min mod 60) else Ok (int_hour, int_min));
  Ok (Time (to_u16 (if int_hour <? 65536 then int_hour else 65535)) (to_u16 int_min) (to_u16 int_sec)).

Fixpoint skip_others (s : str) : str :=
  match s with c :: s' => if is_digit c then s else skip_others s' | [] => [] end.

(** [src/driver/utility.cc:2344-2356] str_to_date

    The numbers that are read, [i] at most, the first of at most [S n] digits and the
    others of at most two. *)
Fixpoint date_fields (i n : nat) (s : str) : list Z :=
  match i, s with
  | S i, c :: s' =>
    let ds := firstn n (leading_digits s') in
    number (c :: ds) :: date_fields i 1 (skip_others (skipn (length ds) s'))
  | _, _ => []
  end.

(** [src/driver/utility.cc:2326-2376] str_to_date

    [None] is the result 1. *)
Definition str_to_date (s : str) (len : nat) (zeroToMin : bool) : res (option SQL_DATE_STRUCT) :=
  if bool_decide (length s < len)%nat then UB else
  let t := skip_others (firstn len s) in
  let n := length (leading_digits t) in
  let year_length := if bool_decide (n = 4%nat) || bool_decide (n = 8%nat) || bool_decide (14 <= n)%nat then 4%nat else 2%nat in
  let date := date_fields 3 (year_length - 1) t in
  let y := default 0 (date !! 0%nat) in
  let at_least_1 (i : nat) := match date !! i with Some v => if v =? 0 then 1 else v | None => 1 end in
  let bad := bool_decide (length date <= 1)%nat || bool_decide (date !! 1%nat = Some 0) || bool_decide (date !! 2%nat = Some 0) in
  if bad && negb zeroToMin then Ok None else Ok (Some (Date y (at_least_1 1%nat) (at_least_1 2%nat))).

(** [src/driver/utility.cc:2397-2414] str_to_time_as_long

    At most [i] numbers, modulo [2^32], and what follows them. *)
Fixpoint long_fields (i : nat) (s : str) : list Z * str :=
  match i, s with
  | S i, c :: s' =>
    let ds := leading_digits s' in
    let '(l, rest) := long_fields i (skip_others (skipn (length ds) s')) in
    (to_uint32 (number (c :: ds)) :: l, rest)
  | _, _ => ([], s)
  end.

(** [src/driver/utility.cc:2387-2422] str_to_time_as_long

    A text without digits has an uninitialised variable returned. *)
Fixpoint time_as_long (fuel : nat) (s : str) : res Z :=
  match s, fuel with
  | [], _ => Ok 0
  | _, O => UB
  | _, S fuel =>
    let '(date, rest) := long_fields 3 (skip_others s) in
    if negb (bool_decide (rest = [])) then time_as_long fuel rest
    else
      match date with
      | [] => UB
      | [a; b; c] => if 10000 <? a then Ok a else Ok (a * 10000 + (b * 100 + c))
      | a :: _ => Ok a
      end
  end.

Definition str_to_time_as_long (s : str) (len : nat) : res Z :=
  if bool_decide (length s < len)%nat then UB else time_as_long len (firstn len s).

(** [src/driver/utility.cc:3865-3876] complete_timestamp

    [n] pairs from the text, then zeros to the end of the buffer; [i] counts. *)
Definition separator (i : nat) : ascii := if bool_decide (i < 2)%nat then "-"%char else if bool_decide (i = 2%nat) then " "%char else ":"%char.

Fixpoint pairs (n i : nat) (value : str) : res str :=
  match n with
  | O => Ok (mjoin ((λ j, [("0"%char : ascii); "0"%char; separator j]) <$> seq i (6 - i)))
  | S n =>
    match value with
    | a :: b :: value => t ← pairs n (S i) value; Ok (a :: b :: separator i :: t)
    | _ => UB
    end
  end.

(** [src/driver/utility.cc:3825-3879] complete_timestamp

    The 20 bytes that are written to the buffer; [Ok None] is a null pointer.  The
    string ends with a null character, behind which it is not read. *)
Definition complete_timestamp (value : str) (len : Z) : res (option str) :=
  let value := value ++ [Ascii.zero] in
  let short := (len =? 6) || (len =? 10) || (len =? 12) in
  match value with
  | c :: d :: value' =>
    let century := if short then (if (N_of_ascii c <=? N_of_ascii "6"%char)%N then S!"20" else S!"19") else [c; d] in
    let len := if short then len else to_size_t (len - 2) in
    match (if short then value else value') with
    | y :: y' :: rest =>
      let n := Z.to_nat ((Z.land len 30 - 2) / 2) in
      if bool_decide (rest = []) || bool_decide (rest = S!"0") then UB
      else if bool_decide (firstn 2 rest = S!"00") then Ok None
      else if bool_decide (5 < n)%nat then UB
      else t ← pairs n 1 rest; Ok (Some (century ++ [y; y'; "-"%char] ++ t))
    | _ => UB
    end
  | _ => UB
  end.

(** [src/driver/execute.cc:821-824] is_ts_char *)
Definition is_ts_char (c : ascii) : bool := bool_decide (c ∈ S!"0123456789-:").

Fixpoint drop_others (s : str) : str :=
  match s with c :: s' => if is_ts_char c then s else drop_others s' | [] => [] end.

(** [src/driver/execute.cc:831-851] get_date_time_substr *)
Definition get_date_time_substr (data : str) : option str :=
  match drop_others data with
  | [] => None
  | c :: t => Some (c :: rev (drop_others (rev t)))
  end.

(** ** Writing *)

(** The conversions [%d] and [%0nd] of [printf]. *)
Definition format_d (z : Z) : str := to_string z.
Definition pad (n : nat) (s : str) : str := replicate (n - length s) "0"%char ++ s.
Definition format_0d (n : nat) (z : Z) : str := if z <? 0 then "-"%char :: pad (n - 1) (to_string (- z)) else pad n (to_string z).

(** The comparison [time->month == time->day == 1]. *)
Definition equal_equal_1 (a b : Z) : bool := a =? b.

Definition clock (h m s : Z) : str := format_0d 2 h ++ ":" ++ format_0d 2 m ++ ":" ++ format_0d 2 s.
Definition calendar (y m d : Z) : str := format_0d 4 y ++ "-" ++ format_0d 2 m ++ "-" ++ format_0d 2 d.

(** [src/driver/execute.cc:663-679] convert_c_type2str *)
Definition date_text (MIN_DATE_TO_ZERO : bool) (d : SQL_DATE_STRUCT) : str :=
  if MIN_DATE_TO_ZERO && (d_year d =? 0) && equal_equal_1 (d_month d) (d_day d) then S!"0000-00-00"
  else calendar (d_year d) (d_month d) (d_day d).

(** [src/driver/execute.cc:680-694] convert_c_type2str

    [None] is the error 22008. *)
Definition time_text (t : SQL_TIME_STRUCT) : option str :=
  if 23 <? t_hour t then None else Some (clock (t_hour t) (t_minute t) (t_second t)).

(** [src/driver/execute.cc:714-738] convert_c_type2str

    The place of the last character that is kept of [b], from [pos] backwards. *)
Fixpoint last_kept (b : str) (pos : nat) : nat :=
  match pos with
  | O => O
  | S p => if bool_decide (b !! pos = Some "0"%char) then last_kept b p else pos
  end.

Definition fraction_text (f : Z) : str :=
  if f =? 0 then [] else let b := "." ++ format_0d 9 (to_int32 f) in firstn (S (last_kept b 9)) b.

(** [src/driver/execute.cc:695-744] convert_c_type2str *)
Definition timestamp_text (MIN_DATE_TO_ZERO : bool) (t : SQL_TIMESTAMP_STRUCT) : str :=
  (if MIN_DATE_TO_ZERO && (year t =? 0) && equal_equal_1 (month t) (day t) then S!"0000-00-00" else calendar (year t) (month t) (day t)) ++
  " " ++ clock (hour t) (minute t) (second t) ++ fraction_text (fraction t).

(** [src/driver/execute.cc:767-808] convert_c_type2str

    [quoted] when the statement is not prepared by the server; [seconds] for an
    interval from hours to seconds. *)
Definition interval_text (quoted seconds : bool) (h m s : Z) : str :=
  let q := if quoted then S!"'" else [] in
  q ++ format_d (to_int32 h) ++ ":" ++ format_0d 2 (to_int32 m) ++ ":" ++ (if seconds then format_0d 2 (to_int32 s) else S!"00") ++ q.

(** ** The binary protocol *)

(** A value of the client library. *)
Record MYSQL_TIME := MysqlTime {
  m_year : Z; m_month : Z; m_day : Z; m_hour : Z; m_minute : Z; m_second : Z; second_part : Z; neg : bool }.

(** [snprintf] to [n] bytes, one of which is the null character. *)
Definition snprintf (n : nat) (s : str) : str := firstn (n - 1) s.

(** What a buffer with the string [b] holds after [s] is written from the place
    [at_]: behind the end of [b] it is not seen. *)
Definition overwrite (b : str) (at_ : nat) (s : str) : str := if bool_decide (length b < at_)%nat then b else firstn at_ b ++ s.

(** [src/driver/my_prepared_stmt.cc:1119-1137] ssps_get_string

    The string in the buffer and the length that is reported. *)
Definition ssps_timestamp (t : MYSQL_TIME) : str * Z :=
  let b := snprintf 20 (calendar (m_year t) (m_month t) (m_day t) ++ " " ++ clock (m_hour t) (m_minute t) (m_second t)) in
  if 0 <? second_part t then (overwrite b 19 (snprintf 8 ("." ++ format_0d 6 (second_part t))), 26) else (b, 19).

(** [src/driver/my_prepared_stmt.cc:1138-1147] ssps_get_string *)
Definition ssps_date (t : MYSQL_TIME) : str * Z := (snprintf 11 (calendar (m_year t) (m_month t) (m_day t)), 10).

(** [src/driver/my_prepared_stmt.cc:1148-1163] ssps_get_string *)
Definition ssps_time (t : MYSQL_TIME) : str * Z :=
  let b := snprintf 10 ((if neg t then S!"-" else []) ++ clock (m_hour t) (m_minute t) (m_second t)) in
  let len := if neg t then 9%nat else 8%nat in
  if 0 <? second_part t then (overwrite b len (snprintf 8 ("." ++ format_0d 6 (second_part t))), Z.of_nat len + 7) else (b, Z.of_nat len).

(** ** Columns *)

(** The types of columns that are told apart. *)
Inductive column_type := MYSQL_TYPE_TIMESTAMP | MYSQL_TYPE_DATETIME | MYSQL_TYPE_DATE | MYSQL_TYPE_TIME | Other_type.

(** What a conversion gives: a value, with the warning 01S07 when part of it is lost,
    the indicator SQL_NULL_DATA, or an error. *)
Inductive column (A : Type) := Value (a : A) (lossy : bool) | Null_data | Refused (state : str).
Arguments Value {A}. Arguments Null_data {A}. Arguments Refused {A}.

Section Columns.
(** Whether there is a buffer, the option ZERO_DATE_TO_MIN, and the local date a
    number of days from now. *)
Context (bound ZERO_DATE_TO_MIN : bool) (date_after : Z → Z * Z * Z).

(** [src/driver/results.cc:661-684] sql_get_data *)
Definition column_date (s : str) (length : nat) : res (column SQL_DATE_STRUCT) :=
  r ← str_to_date s length ZERO_DATE_TO_MIN;
  Ok match r with Some d => Value d false | None => Null_data end.

(** [src/driver/results.cc:685-727] sql_get_data *)
Definition column_interval (ty : column_type) (seconds : bool) (s : str) : res (column SQL_TIME_STRUCT) :=
  match ty with
  | MYSQL_TYPE_TIME =>
    ts ← str_to_time_st s;
    if negb bound then UB
    else if seconds then Ok (Value ts false)
    else Ok (Value (Time (t_hour ts) (t_minute ts) 0) (0 <? t_second ts))
  | _ => Ok (Refused (S!"07006"))
  end.

(** [src/driver/results.cc:728-816] sql_get_data *)
Definition column_time (ty : column_type) (s : str) : res (column SQL_TIME_STRUCT) :=
  match ty with
  | MYSQL_TYPE_TIMESTAMP | MYSQL_TYPE_DATETIME =>
    r ← str_to_ts [] s (-3) ZERO_DATE_TO_MIN true;
    Ok match r with
       | SQLTS_BAD_DATE => Refused (S!"22018")
       | SQLTS_NULL_DATE => Null_data
       | Ts ts => Value (Time (hour ts) (minute ts) (second ts)) (bound && (0 <? fraction ts))
       end
  | MYSQL_TYPE_DATE => Ok (Value (Time 0 0 0) false)
  | _ =>
    ts ← str_to_time_st s;
    if 23 <? t_hour ts then Ok (Refused (S!"22007"))
    else Ok (Value ts (negb ((get_fractional_part [] s (-3) true).2 =? 0)))
  end.

(** [src/driver/results.cc:818-875] sql_get_data *)
Definition column_timestamp (ty : column_type) (s : str) : res (column SQL_TIMESTAMP_STRUCT) :=
  match ty with
  | MYSQL_TYPE_TIME =>
    ts ← str_to_time_st s;
    if negb bound then UB else
    let days := if 23 <? t_hour ts then t_hour ts / 24 else 0 in
    let '(y, m, d) := date_after days in
    Ok (Value (Timestamp y m d (if 23 <? t_hour ts then t_hour ts mod 24 else t_hour ts) (t_minute ts) (t_second ts) 0) false)
  | _ =>
    r ← str_to_ts [] s (-3) ZERO_DATE_TO_MIN true;
    Ok match r with
       | SQLTS_BAD_DATE => Refused (S!"22018")
       | SQLTS_NULL_DATE => Null_data
       | Ts ts => Value ts false
       end
  end.
End Columns.

(** ** What a conversion loses *)

Example ex_timestamp : str_to_ts [] (S!"2024-02-29 23:59:58.0125") (-3) false true = Ok (Ts (Timestamp 2024 2 29 23 59 58 12500000)).
Proof. vm_compute. reflexivity. Qed.

(** The sign of a time counts as a separator: what is read has no hours. *)
Example negative_time : str_to_time_st (S!"-01:02:03") = Ok (Time 0 1 2).
Proof. vm_compute. reflexivity. Qed.

(** The fraction of a time is taken for a text behind a timestamp, and returned as the
    whole of it. *)
Example fraction_as_time : str_to_time_as_long (S!"10:20:30.5") 10 = Ok 5.
Proof. vm_compute. reflexivity. Qed.

(** Hours and minutes alone are read as seconds, or minutes and seconds. *)
Example hours_and_minutes : str_to_time_as_long (S!"10:20") 5 = Ok 10 ∧ str_to_time_as_long (S!"1020") 4 = Ok 1020.
Proof. split; vm_compute; reflexivity. Qed.

(** A time of three digits for the hours loses the last one of its seconds when it is
    negative, and has its fraction written over it. *)
Example long_hours :
  ssps_time (MysqlTime 0 0 0 838 59 59 0 true) = (S!"-838:59:5", 9) ∧
  ssps_time (MysqlTime 0 0 0 838 59 59 7 false) = (S!"838:59:5.000007", 15).
Proof. split; vm_compute; reflexivity. Qed.

(** Any day of the year 0 whose month has the same number is sent as no date. *)
Example equal_month_and_day : date_text true (Date 0 5 5) = S!"0000-00-00".
Proof. vm_compute. reflexivity. Qed.

(** A century is guessed for ten digits by one routine, and not by the other. *)
Example ten_digits :
  complete_timestamp (S!"2401020304") 10 = Ok (Some (S!"2024-01-02 03:04:00:")) ∧
  str_to_ts [] (S!"2401020304") 10 false true = Ok (Ts (Timestamp 2401 2 3 4 0 0 0)).
Proof. split; vm_compute; reflexivity. Qed.

Example complete_long : complete_timestamp (S!"2024-01-02 03:04") 16 = UB.
Proof. vm_compute. reflexivity. Qed.

(** ** Numbers of a fixed width *)

Lemma pos_digits_length fuel n w : (n < 10 ^ N.of_nat w)%N → (1 <= w)%nat → (length (pos_digits fuel n []) <= w)%nat.
Proof.
  revert n w. induction fuel as [|fuel IH]; intros n w Hn Hw; [cbn; lia|]. cbn [pos_digits].
  destruct (N.ltb_spec n 10) as [|Hge]; [cbn; lia|]. rewrite pos_digits_app, length_app. cbn [length].
  assert (2 <= w)%nat as Hw2. { destruct w as [|[|w]]; [lia| |lia]. cbn in Hn. lia. }
  enough (length (pos_digits fuel (n / 10) []) <= w - 1)%nat by lia. apply IH; [|lia].
  apply N.Div0.div_lt_upper_bound. replace (N.of_nat w) with (N.succ (N.of_nat (w - 1))) in Hn by lia. rewrite N.pow_succ_r' in Hn. lia.
Qed.

(** A number of [w] digits is printed as [w] digits, and read back. *)
Lemma format_0d_spec w z : (1 <= w)%nat → 0 ≤ z < 10 ^ Z.of_nat w →
  length (format_0d w z) = w ∧ digits (format_0d w z) ∧ number (format_0d w z) = z.
Proof.
  intros Hw Hz. unfold format_0d, pad. rewrite (proj2 (Z.ltb_ge z 0)) by lia.
  assert (to_string z = N_to_string (Z.to_N z)) as -> by (destruct z; done || lia).
  destruct (N_to_string_value (Z.to_N z)) as [Hv Hd]. assert (length (N_to_string (Z.to_N z)) <= w)%nat as Hl.
  { apply pos_digits_length; [|done]. apply N2Z.inj_lt. rewrite Z2N.id, N2Z.inj_pow, nat_N_Z by lia. lia. }
  split; [rewrite length_app, length_replicate; lia|]. split; [apply Forall_app; split; [apply digits_zeros|done]|].
  rewrite number_app. assert (∀ n, number (replicate n "0"%char) = 0) as H0.
  { intros n. induction n as [|n IH]; [done|]. change (number (["0"%char : ascii] ++ replicate n "0"%char) = 0). by rewrite number_app, IH. }
  rewrite H0. unfold number. rewrite Hv. lia.
Qed.

Lemma two_digits z : 0 ≤ z < 100 → ∃ a b, format_0d 2 z = [a; b] ∧ is_digit a = true ∧ is_digit b = true ∧ number [a; b] = z.
Proof.
  intros Hz. destruct (format_0d_spec 2 z) as (Hl & Hd & Hn); [lia|lia|]. destruct (format_0d 2 z) as [|a [|b [|c l]]]; try done.
  apply Forall_cons in Hd as [Ha Hd]. apply Forall_cons in Hd as [Hb _]. by exists a, b.
Qed.

Lemma four_digits z : 0 ≤ z < 10000 →
  ∃ a b c d, format_0d 4 z = [a; b; c; d] ∧ is_digit a = true ∧ is_digit b = true ∧ is_digit c = true ∧ is_digit d = true ∧
    number [a; b; c; d] = z.
Proof.
  intros Hz. destruct (format_0d_spec 4 z) as (Hl & Hd & Hn); [lia|lia|].
  destruct (format_0d 4 z) as [|a [|b [|c [|d [|e l]]]]]; try done.
  apply Forall_cons in Hd as [Ha Hd]. apply Forall_cons in Hd as [Hb Hd]. apply Forall_cons in Hd as [Hc Hd]. apply Forall_cons in Hd as [He _].
  by exists a, b, c, d.
Qed.

(** Two digits that are not both 0. *)
Lemma not_zeros a b : is_digit a = true → is_digit b = true → number [a; b] ≠ 0 → bool_decide ([a; b] = S!"00") = false.
Proof. intros _ _ Hn. apply bool_decide_false. intros [= -> ->]. by apply Hn. Qed.

(** *** The fraction *)

Lemma last_kept_spec b pos : (pos < length b)%nat →
  (last_kept b pos <= pos)%nat ∧ firstn (S (last_kept b pos)) b ++ replicate (pos - last_kept b pos) "0"%char = firstn (S pos) b.
Proof.
  induction pos as [|p IH]; intros Hp; [cbn [last_kept]; split; [lia|]; rewrite Nat.sub_diag; apply app_nil_r|]. cbn [last_kept].
  destruct (bool_decide (b !! S p = Some "0"%char)) eqn:E; [|split; [lia|]; rewrite Nat.sub_diag; apply app_nil_r].
  apply bool_decide_eq_true in E. destruct IH as [Hle IH]; [lia|]. split; [lia|]. replace (S p - last_kept b p)%nat with (S (p - last_kept b p)) by lia.
  rewrite replicate_S_end, app_assoc, IH. symmetry. by apply take_S_r.
Qed.

Lemma fill_fraction_digits n ds : digits ds → (length ds <= n)%nat → fill_fraction n ds = ds ++ replicate (n - length ds) "0"%char.
Proof.
  revert ds. induction n as [|n IH]; intros ds Hds Hn; [by destruct ds; [|cbn in Hn; lia]|]. destruct ds as [|c ds]; cbn [fill_fraction].
  - rewrite (IH []) by (cbn; lia || constructor). cbn [app length]. by rewrite Nat.sub_0_r.
  - apply Forall_cons in Hds as [-> Hds]. cbn in Hn. rewrite IH by (done || lia). done.
Qed.

(** The fraction of a timestamp is written as some digits, which are read back. *)
Lemma fraction_text_read f : 0 < f < 10 ^ 9 →
  ∃ ds, fraction_text f = "." ++ ds ∧ ds ≠ [] ∧ digits ds ∧ number (firstn 9 (fill_fraction 10 ds)) = f.
Proof.
  intros Hf. unfold fraction_text. rewrite (proj2 (Z.eqb_neq f 0)) by lia. assert (to_int32 f = f) as ->.
  { unfold to_int32. rewrite Z.mod_small by lia. cbv zeta. by rewrite (proj2 (Z.ltb_lt f (2 ^ 31))) by lia. }
  destruct (format_0d_spec 9 f) as (Hl & Hd & Hn); [lia|lia|]. set (fs := format_0d 9 f) in *. change ("." ++ fs) with ("."%char :: fs).
  destruct (last_kept_spec ("."%char :: fs) 9) as [Hle Hk]; [cbn; lia|]. set (k := last_kept ("."%char :: fs) 9) in *.
  cbn [firstn app] in Hk. injection Hk as Hk. assert (firstn 9 fs = fs) as Hall by (apply take_ge; lia). rewrite Hall in Hk.
  assert (digits (firstn k fs)) as Hdk by (by apply Forall_take). assert (length (firstn k fs) = k) as Hlk by (rewrite length_take; lia).
  exists (firstn k fs). split; [done|]. split; [|split; [done|]].
  - intros E. rewrite E in Hk. assert (k = 0%nat) as Hk0 by (rewrite E in Hlk; done). rewrite <- Hk, Hk0 in Hn. by apply (Z.lt_neq 0 f); [lia|].
  - rewrite fill_fraction_digits by (done || lia). rewrite Hlk, take_app, firstn_all2, Hlk by lia. rewrite <- Hk in Hn. etrans; [|exact Hn].
    do 2 f_equal. rewrite take_replicate. f_equal. lia.
Qed.

(** ** Timestamps *)

Definition valid_timestamp (t : SQL_TIMESTAMP_STRUCT) : Prop :=
  0 ≤ year t < 10000 ∧ 1 ≤ month t < 100 ∧ 1 ≤ day t < 100 ∧ 0 ≤ hour t < 100 ∧ 0 ≤ minute t < 100 ∧ 0 ≤ second t < 100 ∧
  0 ≤ fraction t < 10 ^ 9.

Lemma digit_no_point c : is_digit c = true → c ≠ "."%char.
Proof. by intros H ->. Qed.

Lemma find_point l t : Forall (λ c, c ≠ "."%char) l → list_find (λ c, c = "."%char) (l ++ "."%char :: t) = Some (length l, "."%char).
Proof.
  induction 1 as [|c l Hc Hl IH]; [done|]. cbn [app list_find length]. rewrite decide_False by done. by rewrite IH.
Qed.

Lemma find_no_point l : Forall (λ c, c ≠ "."%char) l → list_find (λ c, c = "."%char) l = None.
Proof. induction 1 as [|c l Hc Hl IH]; [done|]. cbn [list_find]. rewrite decide_False by done. by rewrite IH. Qed.

(** The fraction behind a text without a point, and the place where it begins. *)
Lemma fraction_behind dp l f : Forall (λ c, c ≠ "."%char) l → 0 ≤ f < 10 ^ 9 →
  get_fractional_part dp (l ++ fraction_text f) (Z.of_nat (length (l ++ fraction_text f))) true =
    (if f =? 0 then None else Some (length l), f) ∧
  firstn (length l) (l ++ fraction_text f) = l.
Proof.
  intros Hl Hf. split; [|by rewrite take_app_length]. unfold get_fractional_part.
  rewrite (proj2 (Z.ltb_ge (Z.of_nat _) 0)) by lia. destruct (Z.eqb_spec f 0) as [->|Hf0].
  { change (fraction_text 0) with (@nil ascii). by rewrite app_nil_r, find_no_point. }
  destruct (fraction_text_read f) as (ds & -> & Hne & Hds & Hr); [lia|]. change ("." ++ ds) with ("."%char :: ds).
  rewrite find_point by done. cbn [fst fmap option_fmap option_map]. rewrite (proj2 (Z.ltb_lt _ _)).
  2: { rewrite length_app. cbn [length]. destruct ds; [done|]. cbn [length]. lia. }
  do 2 f_equal. rewrite <- Hr. do 3 f_equal. change (Z.to_nat 1) with 1%nat. rewrite (cons_middle _ l ds), app_assoc, Nat2Z.id.
  rewrite drop_app_length' by (by rewrite length_app). apply firstn_all2. rewrite !length_app. cbn [length]. lia.
Qed.

(** The digits of the date and the time of a timestamp. *)
Definition shown (a b c d e f g h i j k l m n : ascii) : str :=
  [a; b; c; d; "-"%char; e; f; "-"%char; g; h; " "%char; i; j; ":"%char; k; l; ":"%char; m; n].

Lemma timestamp_shown mz t : valid_timestamp t → (mz = true → year t = 0 → month t ≠ day t) →
  ∃ a b c d e f g h i j k l m n,
    timestamp_text mz t = shown a b c d e f g h i j k l m n ++ fraction_text (fraction t) ∧
    Forall (λ c, is_digit c = true) [a; b; c; d; e; f; g; h; i; j; k; l; m; n] ∧
    number [a; b; c; d] = year t ∧ number [e; f] = month t ∧ number [g; h] = day t ∧
    number [i; j] = hour t ∧ number [k; l] = minute t ∧ number [m; n] = second t.
Proof.
  intros (Hy & Hmo & Hd & Hh & Hmi & Hs & _) Hz. unfold timestamp_text, calendar, clock.
  assert (mz && (year t =? 0) && equal_equal_1 (month t) (day t) = false) as ->.
  { unfold equal_equal_1. destruct mz; [|done]. destruct (Z.eqb_spec (year t) 0); [|done]. apply Z.eqb_neq. by apply Hz. }
  destruct (four_digits (year t) Hy) as (a & b & c & d & -> & Ha & Hb & Hc & Hdd & Hny).
  destruct (two_digits (month t)) as (e & f & -> & He & Hf & Hnm); [lia|]. destruct (two_digits (day t)) as (g & h & -> & Hg & Hhh & Hnd); [lia|].
  destruct (two_digits (hour t) Hh) as (i & j & -> & Hi & Hj & Hnh). destruct (two_digits (minute t) Hmi) as (k & l & -> & Hk & Hl & Hnmi).
  destruct (two_digits (second t) Hs) as (m & n & -> & Hm & Hn & Hns). exists a, b, c, d, e, f, g, h, i, j, k, l, m, n.
  split; [done|]. split; [by repeat constructor|]. by rewrite Hny, Hnm, Hnd, Hnh, Hnmi, Hns.
Qed.

Lemma shown_no_point a b c d e f g h i j k l m n :
  Forall (λ c, is_digit c = true) [a; b; c; d; e; f; g; h; i; j; k; l; m; n] → Forall (λ c, c ≠ "."%char) (shown a b c d e f g h i j k l m n).
Proof.
  intros H. rewrite Forall_forall in H. unfold shown. repeat constructor; try done; apply digit_no_point, H;
    repeat first [by left | right].
Qed.

Lemma filter_digit c l : is_digit c = true → List.filter is_digit (c :: l) = c :: List.filter is_digit l.
Proof. intros H. unfold List.filter. by rewrite H. Qed.

Lemma filter_other c l : is_digit c = false → List.filter is_digit (c :: l) = List.filter is_digit l.
Proof. intros H. unfold List.filter. by rewrite H. Qed.

Lemma shown_digits a b c d e f g h i j k l m n :
  Forall (λ c, is_digit c = true) [a; b; c; d; e; f; g; h; i; j; k; l; m; n] →
  List.filter is_digit (shown a b c d e f g h i j k l m n) = [a; b; c; d; e; f; g; h; i; j; k; l; m; n].
Proof.
  intros H. rewrite !Forall_cons in H. destruct H as (Ha & Hb & Hc & Hd & He & Hf & Hg & Hh & Hi & Hj & Hk & Hl & Hm & Hn & _). unfold shown.
  do 4 (rewrite filter_digit by assumption). repeat (rewrite filter_other by reflexivity; rewrite !filter_digit by assumption). reflexivity.
Qed.

(** Two digits that are not 00. *)
Lemma not_zeros_at b i x y t : skipn i b = x :: y :: t → number [x; y] ≠ 0 → zeros_at b i = false.
Proof. intros E Hn. unfold zeros_at. rewrite E. apply bool_decide_false. intros [= -> ->]. by apply Hn. Qed.

Lemma str_to_ts_text dp mz z t : valid_timestamp t → (mz = true → year t = 0 → month t ≠ day t) →
  str_to_ts dp (timestamp_text mz t) (-3) z true = Ok (Ts t).
Proof.
  intros Ht Hz. destruct (timestamp_shown mz t Ht Hz) as (a & b & c & d & e & f & g & h & i & j & k & l & m & n & -> & Hds & Hy & Hmo & Hd & Hh & Hmi & Hs).
  pose proof (shown_no_point _ _ _ _ _ _ _ _ _ _ _ _ _ _ Hds) as Hnp. pose proof (shown_digits _ _ _ _ _ _ _ _ _ _ _ _ _ _ Hds) as Hfil.
  set (s := shown a b c d e f g h i j k l m n) in *. assert (length s = 19%nat) as Hls by done.
  destruct Ht as (_ & Hmo1 & Hd1 & _ & _ & _ & Hf). unfold str_to_ts. change (-3 <? 0) with true. cbv beta iota zeta.
  destruct (fraction_behind dp s (fraction t) Hnp Hf) as [-> Htake].
  assert (match (if fraction t =? 0 then None else Some (length s)) with Some i => i | None => Z.to_nat (Z.of_nat (length (s ++ fraction_text (fraction t)))) end = length s) as ->.
  { destruct (Z.eqb_spec (fraction t) 0) as [->|]; [|done]. change (fraction_text 0) with (@nil ascii). rewrite app_nil_r. lia. }
  rewrite Htake, Hfil. change (bool_decide (DATETIME_DIGITS < _)%nat) with false.
  rewrite (bool_decide_false (S (length (s ++ _)) < _)%nat) by (rewrite length_app; lia). cbv iota. set (dgs := full_digits _).
  assert (dgs = [a; b; c; d; e; f; g; h; i; j; k; l; m; n]) as -> by done.
  rewrite (not_zeros_at _ 4 e f [g; h; i; j; k; l; m; n]), (not_zeros_at _ 6 g h [i; j; k; l; m; n]) by (done || lia). cbv iota beta zeta.
  cbn [orb andb]. unfold digits_at. cbn [firstn skipn]. rewrite Hy, Hmo, Hd, Hh, Hmi, Hs. by destruct t.
Qed.

(** The first three numbers of a text that begins with a date. *)
Lemma date_read a b c d e f g h (rest : str) z :
  Forall (λ c, is_digit c = true) [a; b; c; d; e; f; g; h] → number [e; f] ≠ 0 → number [g; h] ≠ 0 →
  match rest with x :: _ => is_digit x = false | [] => True end →
  let s := [a; b; c; d; "-"%char; e; f; "-"%char; g; h] ++ rest in
  str_to_date s (length s) z = Ok (Some (Date (number [a; b; c; d]) (number [e; f]) (number [g; h]))).
Proof.
  intros H Hm Hd Hrest s. rewrite !Forall_cons in H. destruct H as (Ha & Hb & Hc & Hdd & He & Hf & Hg & Hh & _).
  unfold str_to_date. rewrite bool_decide_false by lia. rewrite firstn_all.
  assert (skip_others s = s) as -> by (subst s; cbn [app skip_others]; by rewrite Ha).
  assert (leading_digits s = [a; b; c; d]) as ->.
  { subst s. unfold app, leading_digits. rewrite Ha, Hb, Hc, Hdd. reflexivity. }
  assert (date_fields 3 3 s = [number [a; b; c; d]; number [e; f]; number [g; h]]) as E.
  { subst s. unfold app, date_fields at 1. fold date_fields. unfold leading_digits at 1 2. fold leading_digits.
    rewrite Hb, Hc, Hdd. change (is_digit "-"%char) with false. cbn [firstn length skipn skip_others].
    change (is_digit "-"%char) with false. cbv iota. rewrite He. cbn [date_fields leading_digits]. rewrite Hf.
    change (is_digit "-"%char) with false. cbn [firstn length skipn skip_others]. change (is_digit "-"%char) with false. cbv iota. rewrite Hg.
    cbn [date_fields leading_digits]. rewrite Hh. cbn [firstn]. done. }
  change ((if _ || _ || _ then 4 else 2) - 1)%nat with 3%nat. rewrite E. cbn [lookup list_lookup default from_option].
  rewrite (proj2 (Z.eqb_neq _ 0) Hm), (proj2 (Z.eqb_neq _ 0) Hd). rewrite !bool_decide_false by (cbn; lia || congruence). done.
Qed.

(** ** Times *)

Lemma time_tokens_digits room num tok ds s : digits ds → (length ds <= room)%nat →
  time_tokens room num tok (ds ++ s) = time_tokens (room - length ds) num (tok ++ ds) s.
Proof.
  intros Hds. revert room tok. induction Hds as [|c ds Hc Hds IH]; intros room tok Hr; [by rewrite app_nil_r, Nat.sub_0_r|].
  cbn [length] in Hr. destruct room as [|room]; [lia|]. cbn [app time_tokens]. rewrite Hc, IH by lia. by rewrite <- app_assoc.
Qed.

Lemma time_tokens_end room num tok s : match s with x :: _ => is_digit x = false | [] => True end → (2 <= num)%nat → time_tokens room num tok s = [tok].
Proof. intros Hs Hn. destruct room, s as [|x s]; cbn; try done. rewrite Hs, bool_decide_false by lia. done. Qed.

Lemma time_tokens_colon room num tok s : (num < 2)%nat →
  time_tokens (S room) num tok (":"%char :: s) = tok :: time_tokens room (S num) [] s.
Proof. intros Hn. cbn [time_tokens]. change (is_digit ":") with false. cbv iota. by rewrite bool_decide_true by lia. Qed.

(** What the text of a time is cut into. *)
Lemma clock_tokens hs ms ss rest : digits hs → digits ms → digits ss → (length hs + length ms + length ss <= 21)%nat →
  match rest with x :: _ => is_digit x = false | [] => True end →
  time_tokens 23 0 [] (hs ++ ":" ++ ms ++ ":" ++ ss ++ rest) = [hs; ms; ss].
Proof.
  intros Hh Hm Hs Hl Hr. change (":" ++ ms ++ ":" ++ ss ++ rest) with (":"%char :: ms ++ ":"%char :: ss ++ rest).
  rewrite time_tokens_digits by (done || lia). replace (23 - length hs)%nat with (S (22 - length hs)) by lia.
  rewrite time_tokens_colon by lia. f_equal. rewrite time_tokens_digits by (done || lia).
  replace (22 - length hs - length ms)%nat with (S (21 - length hs - length ms)) by lia.
  rewrite time_tokens_colon by lia. f_equal. rewrite time_tokens_digits by (done || lia). by apply time_tokens_end; [|lia].
Qed.

Lemma atol_digits ds : digits ds → number ds ≤ int64_max → atol ds = number ds.
Proof.
  intros Hds Hn. destruct ds as [|c ds]; [done|]. pose proof (Forall_inv Hds) as Hc. cbn beta in Hc.
  destruct (is_digit_not_space c Hc) as (Hs & _ & _ & _). unfold atol. cbn [skip_spaces]. rewrite Hs.
  assert (Z.min int64_max (Z.of_N (digits_value (leading_digits (c :: ds)))) = number (c :: ds)) as Hval.
  { rewrite leading_digits_all by done. fold (number (c :: ds)). lia. }
  destruct c as [[] [] [] [] [] [] [] []]; try done; exact Hval.
Qed.

Lemma token_digits ds : digits ds → number ds < 2 ^ 31 → token_int (Some ds) = number ds.
Proof.
  intros Hds Hn. pose proof (number_bound ds Hds) as [H0 _]. unfold token_int. rewrite atol_digits by (done || (unfold int64_max; lia)).
  unfold to_int32. rewrite Z.mod_small by lia. cbv zeta. by rewrite (proj2 (Z.ltb_lt _ _) Hn).
Qed.

(** The seconds of a time. *)
Definition seconds (t : SQL_TIME_STRUCT) : Z := t_hour t * 3600 + t_minute t * 60 + t_second t.

Lemma carried h m s : 0 ≤ h → 0 ≤ m → 0 ≤ s → h + m + s < 2 ^ 31 →
  ∃ t, ('(int_min, int_sec) ← (if 59 <? s then m' ← add_int m (s / 60); Ok (m', s mod 60) else Ok (m, s));
        '(int_hour, int_min) ← (if 59 <? int_min then h' ← add_int h (int_min / 60); Ok (h', int_min mod 60) else Ok (h, int_min));
        Ok (Time (to_u16 (if int_hour <? 65536 then int_hour else 65535)) (to_u16 int_min) (to_u16 int_sec))) = Ok t ∧
    0 ≤ t_hour t ∧ 0 ≤ t_minute t < 60 ∧ 0 ≤ t_second t < 60 ∧
    let total := h * 3600 + m * 60 + s in
    if total <? 65536 * 3600 then seconds t = total else t_hour t = 65535.
Proof.
  intros Hh Hm Hs Hb. assert (∀ a b, 0 ≤ a → 0 ≤ b → a + b < 2 ^ 31 → add_int a b = Ok (a + b)) as Hadd.
  { intros a b Ha Hb' Hab. unfold add_int. rewrite (proj2 (Z.leb_le _ _)), (proj2 (Z.leb_le _ _)) by (unfold int32_min, int32_max; lia). done. }
  assert (∀ z, 0 ≤ z < 65536 → to_u16 z = z) as Hu by (intros z Hz; unfold to_u16; by rewrite Z.mod_small).
  assert (∀ H M S, 0 ≤ H → 0 ≤ M < 60 → 0 ≤ S < 60 → H * 3600 + M * 60 + S = h * 3600 + m * 60 + s →
    let t := Time (to_u16 (if H <? 65536 then H else 65535)) (to_u16 M) (to_u16 S) in
    0 ≤ t_hour t ∧ 0 ≤ t_minute t < 60 ∧ 0 ≤ t_second t < 60 ∧
    let total := h * 3600 + m * 60 + s in if total <? 65536 * 3600 then seconds t = total else t_hour t = 65535) as Hend.
  { intros H M S HH HM HS E t. subst t. unfold seconds. cbn [t_hour t_minute t_second]. rewrite (Hu M), (Hu S) by lia.
    destruct (Z.ltb_spec H 65536) as [Hl|Hl]; rewrite Hu by lia; (split; [lia|]); (split; [lia|]); (split; [lia|]); cbv zeta;
      destruct (Z.ltb_spec (h * 3600 + m * 60 + s) (65536 * 3600)); lia. }
  pose proof (Z.div_mod s 60) as Ds. pose proof (Z.mod_pos_bound s 60) as Bs.
  destruct (Z.ltb_spec 59 s) as [H1|H1].
  - rewrite Hadd by lia. cbn [mbind res_bind]. pose proof (Z.div_mod (m + s / 60) 60) as Dm. pose proof (Z.mod_pos_bound (m + s / 60) 60) as Bm.
    destruct (Z.ltb_spec 59 (m + s / 60)) as [H2|H2].
    + rewrite Hadd by lia. cbn [mbind res_bind]. eexists. split; [done|]. apply Hend; lia.
    + eexists. split; [done|]. apply Hend; lia.
  - cbn [mbind res_bind]. pose proof (Z.div_mod m 60) as Dm. pose proof (Z.mod_pos_bound m 60) as Bm.
    destruct (Z.ltb_spec 59 m) as [H2|H2].
    + rewrite Hadd by lia. cbn [mbind res_bind]. eexists. split; [done|]. apply Hend; lia.
    + eexists. split; [done|]. apply Hend; lia.
Qed.

(** C31: Timestamps.  What a timestamp of an application is sent as is read back as the
    same timestamp, and as its date and its time, the latter with a warning when a
    fraction of a second is lost; unless the option MIN_DATE_TO_ZERO takes its date
    for none. *)
Theorem timestamp_roundtrip (bound z mz : bool) date_after ty t :
  valid_timestamp t → (mz = true → year t = 0 → month t ≠ day t) → ty ≠ MYSQL_TYPE_TIME →
  let s := timestamp_text mz t in
  column_timestamp bound z date_after ty s = Ok (Value t false) ∧
  column_date z s (length s) = Ok (Value (Date (year t) (month t) (day t)) false) ∧
  column_time bound z MYSQL_TYPE_DATETIME s = Ok (Value (Time (hour t) (minute t) (second t)) (bound && (0 <? fraction t))).
Proof.
  intros Ht Hz Hty s. subst s. split; [|split].
  - unfold column_timestamp. destruct ty; try done; by rewrite (str_to_ts_text [] mz z t Ht Hz).
  - unfold column_date. destruct (timestamp_shown mz t Ht Hz) as (a & b & c & d & e & f & g & h & i & j & k & l & m & n & E & Hds & Hy & Hmo & Hd & _).
    rewrite E. destruct Ht as (_ & Hmb & Hdb & _).
    pose proof (date_read a b c d e f g h (" "%char :: i :: j :: ":"%char :: k :: l :: ":"%char :: m :: n :: fraction_text (fraction t)) z) as H.
    rewrite Hy, Hmo, Hd in H. unfold shown. cbv zeta in H. cbn [app] in H |- *. rewrite H; [done|by apply (Forall_take _ 8%nat) in Hds|lia|lia|done].
  - unfold column_time. by rewrite (str_to_ts_text [] mz z t Ht Hz).
Qed.

(** Times.  Numbers of hours, minutes and seconds with colons between them are read as
    the time that has so many seconds, with less than sixty minutes and seconds,
    whatever follows that is no digit; hours beyond the type are given as 65535. *)
Theorem time_value hs ms ss rest :
  digits hs → digits ms → digits ss → (length hs + length ms + length ss <= 21)%nat → number hs + number ms + number ss < 2 ^ 31 →
  match rest with x :: _ => is_digit x = false | [] => True end →
  ∃ t, str_to_time_st (hs ++ ":" ++ ms ++ ":" ++ ss ++ rest) = Ok t ∧ 0 ≤ t_hour t ∧ 0 ≤ t_minute t < 60 ∧ 0 ≤ t_second t < 60 ∧
    let total := number hs * 3600 + number ms * 60 + number ss in
    if total <? 65536 * 3600 then seconds t = total else t_hour t = 65535.
Proof.
  intros Hh Hm Hs Hl Hn Hr. unfold str_to_time_st. rewrite clock_tokens by done.
  pose proof (number_bound hs Hh) as [? _]. pose proof (number_bound ms Hm) as [? _]. pose proof (number_bound ss Hs) as [? _].
  cbn [lookup list_lookup]. rewrite !token_digits by (done || lia). by apply carried.
Qed.

(** *** The number of a time *)

Lemma leading_digits_app ds s : digits ds → match s with x :: _ => is_digit x = false | [] => True end → leading_digits (ds ++ s) = ds.
Proof.
  intros Hds Hs. induction Hds as [|c ds Hc Hds IH]; [|cbn; by rewrite Hc, IH]. destruct s as [|x s]; [done|]. cbn. by rewrite Hs.
Qed.

Lemma long_fields_digits i ds s : digits ds → ds ≠ [] → match s with x :: _ => is_digit x = false | [] => True end →
  long_fields (S i) (ds ++ s) = (to_uint32 (number ds) :: (long_fields i (skip_others s)).1, (long_fields i (skip_others s)).2).
Proof.
  intros Hds Hne Hs. destruct ds as [|c ds]; [done|]. apply Forall_cons in Hds as [Hc Hds]. cbn [app long_fields].
  rewrite leading_digits_app by done. rewrite drop_app_length. by destruct (long_fields i _).
Qed.

Lemma skip_others_digits ds s : digits ds → ds ≠ [] → skip_others (ds ++ s) = ds ++ s.
Proof. intros Hds Hne. destruct ds as [|c ds]; [done|]. apply Forall_inv in Hds. cbn. by rewrite Hds. Qed.

Lemma to_uint32_small z : 0 ≤ z < 2 ^ 32 → to_uint32 z = z.
Proof. intros H. unfold to_uint32. by rewrite Z.mod_small. Qed.

(** Three numbers are a time, and one is returned as it is. *)
Lemma three_numbers hs ms ss : digits hs → digits ms → digits ss → hs ≠ [] → ms ≠ [] → ss ≠ [] →
  number hs ≤ 10000 → number ms < 2 ^ 32 → number ss < 2 ^ 32 →
  let s := hs ++ ":" ++ ms ++ ":" ++ ss in
  str_to_time_as_long s (length s) = Ok (number hs * 10000 + (number ms * 100 + number ss)).
Proof.
  intros Hh Hm Hs Nh Nm Ns Bh Bm Bs s. unfold str_to_time_as_long. rewrite bool_decide_false by lia. rewrite firstn_all.
  pose proof (number_bound hs Hh) as [? _]. pose proof (number_bound ms Hm) as [? _]. pose proof (number_bound ss Hs) as [? _].
  subst s. change (":" ++ ms ++ ":" ++ ss) with (":"%char :: ms ++ ":"%char :: ss). set (s := hs ++ _).
  assert (long_fields 3 (skip_others s) = ([number hs; number ms; number ss], [])) as E.
  { subst s. rewrite skip_others_digits, long_fields_digits by done. cbn [skip_others]. change (is_digit ":") with false. cbv iota.
    rewrite skip_others_digits, long_fields_digits by done. cbn [skip_others]. change (is_digit ":") with false. cbv iota.
    rewrite <- (app_nil_r ss), skip_others_digits, long_fields_digits by done. cbn [fst snd skip_others long_fields].
    rewrite app_nil_r, !to_uint32_small by lia. done. }
  destruct s as [|c s'] eqn:Es; [subst s; by destruct hs|]. cbn [length time_as_long]. rewrite E. cbn [negb bool_decide].
  rewrite bool_decide_true by done. cbn [negb]. by rewrite (proj2 (Z.ltb_ge _ _)).
Qed.

Lemma skip_others_length s : (length (skip_others s) <= length s)%nat.
Proof. induction s as [|c s IH]; cbn; [done|]. destruct (is_digit c); cbn; lia. Qed.

Lemma skip_others_head s : match skip_others s with x :: _ => is_digit x = true | [] => Forall (λ c, is_digit c = false) s end.
Proof.
  induction s as [|c s IH]; cbn; [done|]. destruct (is_digit c) eqn:E; [done|]. destruct (skip_others s); [by constructor|done].
Qed.

Lemma long_fields_rest i s : let '(l, rest) := long_fields i s in
  (length rest <= length s)%nat ∧ (s = [] ∨ i = 0%nat ∨ l ≠ []) ∧
  (i ≠ 0%nat → s ≠ [] → (length rest < length s)%nat) ∧
  (match s with x :: _ => is_digit x = true | [] => True end → match rest with x :: _ => is_digit x = true | [] => True end).
Proof.
  revert s. induction i as [|i IH]; intros s; [by destruct s; cbn; (split; [done|]); (split; [by auto|])|].
  destruct s as [|c s]; [cbn; (split; [done|]); (split; [by left|]); done|]. cbn [long_fields].
  set (t := skipn _ s). specialize (IH (skip_others t)). pose proof (skip_others_length t) as Ht. pose proof (skip_others_head t) as Hh.
  assert (length t <= length s)%nat as Hl by (subst t; rewrite length_skipn; lia).
  destruct (long_fields i (skip_others t)) as [l rest]. destruct IH as (H1 & _ & _ & H4). cbn [length].
  split; [lia|]. split; [by right; right|]. split; [lia|]. intros _. apply H4. by destruct (skip_others t).
Qed.

Lemma time_as_long_run fuel t : (length t <= fuel)%nat → (time_as_long fuel t ≠ UB ↔ t = [] ∨ Exists (λ c, is_digit c = true) t).
Proof.
  revert t. induction fuel as [|fuel IH]; intros t Hl; (destruct t as [|c t]; [split; [by left|done]|]); cbn [length] in Hl; [lia|].
  cbn [time_as_long]. pose proof (skip_others_head (c :: t)) as Hh. pose proof (skip_others_length (c :: t)) as Hlen. cbn [length] in Hlen.
  pose proof (long_fields_rest 3 (skip_others (c :: t))) as Hr. destruct (skip_others (c :: t)) as [|x u] eqn:Eu.
  - cbn. split; [done|]. intros [|He]; [done|]. exfalso. apply Exists_exists in He as (y & Hy & Ey). rewrite Forall_forall in Hh.
    by rewrite (Hh y Hy) in Ey.
  - assert (Exists (λ c, is_digit c = true) (c :: t)) as He.
    { destruct (Exists_dec (λ c, is_digit c = true) (c :: t)) as [|Hn]; [done|]. exfalso.
      assert (∀ v, ¬ Exists (λ c, is_digit c = true) v → skip_others v = []) as Hskip.
      { clear. intros v. induction v as [|y v IH]; intros Hn; [done|]. cbn. destruct (is_digit y) eqn:E; [exfalso; apply Hn; by left|].
        apply IH. intros Hv. apply Hn. by right. }
      by rewrite Hskip in Eu. }
    destruct (long_fields 3 (x :: u)) as [l rest]. destruct Hr as (_ & Hne & Hlt & Hhead). specialize (Hhead Hh). specialize (Hlt ltac:(lia) ltac:(done)).
    cbn [length] in Hlt, Hlen. split; [by right|]. intros _. destruct rest as [|y rest]; cbn [negb bool_decide].
    + rewrite bool_decide_true by done. destruct Hne as [|[|Hne]]; [done|lia|]. destruct l as [|a [|b [|d [|]]]]; try done. cbn. by destruct (10000 <? a).
    + rewrite bool_decide_false by done. apply IH; [lia|]. right. by left.
Qed.

(** The number of a time.  Reading a time as a number ends for every text; its
    result is defined exactly when the text is empty or has a digit. *)
Theorem time_as_long_defined s len :
  str_to_time_as_long s len ≠ UB ↔ (len <= length s)%nat ∧ (len = 0%nat ∨ Exists (λ c, is_digit c = true) (firstn len s)).
Proof.
  unfold str_to_time_as_long. destruct (decide (length s < len)%nat) as [Hlt|Hge].
  { rewrite bool_decide_true by done. split; [by intros []|lia]. }
  rewrite bool_decide_false by done. assert (length (firstn len s) = len) as Hl by (rewrite length_take; lia).
  rewrite time_as_long_run by lia. split; intros H; (split; [lia|] || destruct H as [_ H]); destruct H as [H|H]; try (by right); left.
  - rewrite <- Hl, H. done.
  - by apply length_zero_iff_nil; lia.
Qed.

(** ** Timestamps without separators *)

Lemma str_to_ts_plain dp s z : Forall (λ c, c ≠ "."%char) s → (length (List.filter is_digit s) <= 14)%nat →
  str_to_ts dp s (-3) z true =
    let b := full_digits (List.filter is_digit s) in
    let null := zeros_at b 4 || zeros_at b 6 in
    if null && negb z then Ok SQLTS_NULL_DATE
    else Ok (Ts (Timestamp (digits_at b 0 4) (if zeros_at b 4 then 1 else digits_at b 4 2) (if zeros_at b 6 then 1 else digits_at b 6 2)
           (digits_at b 8 2) (digits_at b 10 2) (digits_at b 12 2) 0)).
Proof.
  intros Hs Hl. unfold str_to_ts, get_fractional_part. change (-3 <? 0) with true. cbv beta iota zeta. rewrite (proj2 (Z.ltb_ge _ 0)) by lia.
  rewrite find_no_point by done. cbn [fmap option_fmap option_map]. rewrite Nat2Z.id, firstn_all. unfold DATETIME_DIGITS.
  rewrite !bool_decide_false by lia. done.
Qed.

Lemma filter_digits ds : digits ds → List.filter is_digit ds = ds.
Proof. induction 1 as [|c ds Hc Hds IH]; [done|]. by rewrite filter_digit, IH. Qed.

(** A text that shows the digits of another is read in the same way. *)
Lemma shown_agrees dp z ds a b c d e f g h i j k l m n :
  digits ds → (length ds <= 14)%nat → full_digits ds = [a; b; c; d; e; f; g; h; i; j; k; l; m; n] →
  str_to_ts dp (firstn 19 (shown a b c d e f g h i j k l m n ++ S!":")) (-3) z true = str_to_ts dp ds (-3) z true.
Proof.
  intros Hds Hl Hfull. assert (Forall (λ c, is_digit c = true) [a; b; c; d; e; f; g; h; i; j; k; l; m; n]) as Hall.
  { rewrite <- Hfull. unfold full_digits. apply Forall_app. split; [|apply digits_zeros]. destruct ds as [|x ds]; [done|].
    destruct (bool_decide _ || _); [|exact Hds]. apply Forall_app. split; [|exact Hds]. destruct (_ <=? _)%N; by repeat constructor. }
  change (firstn 19 (shown a b c d e f g h i j k l m n ++ S!":")) with (shown a b c d e f g h i j k l m n).
  rewrite !str_to_ts_plain; rewrite ?shown_digits, ?filter_digits by done; [|eapply Forall_impl; [exact Hds|apply digit_no_point]|done|by apply shown_no_point|cbn; lia].
  rewrite Hfull. done.
Qed.

(** The digits of the month are those behind the first four of the completed digits. *)
Lemma month_given c d (t : str) : zeros_at (c :: d :: t) 0 = false →
  bool_decide (c :: d :: t = []) || bool_decide (c :: d :: t = S!"0") = false ∧ bool_decide (firstn 2 (c :: d :: t) = S!"00") = false.
Proof. intros H. split; [by rewrite !bool_decide_false|exact H]. Qed.

(** A text of [n] digits, with a century or not, and its completion to the digits shown. *)
Ltac completed n short :=
  unfold full_digits in *; cbn [length] in *; change (bool_decide (n = 6%nat) || bool_decide (n = 12%nat)) with short in *;
  cbv iota in *; unfold complete_timestamp; cbn [app]; let z := eval cbv in (Z.of_nat n) in change (Z.of_nat n) with z;
  cbn [Z.eqb Pos.eqb orb].

Ltac shown_by c d t Hm :=
  destruct (month_given c d t Hm) as [-> ->]; do 14 eexists; (split; [reflexivity|]); (split; [reflexivity|lia]).

(** Two readings of a timestamp.  Six, eight, twelve or fourteen digits, of which
    those of the month are not 00, are completed to the text of a timestamp; it is
    read as the same timestamp as the digits. *)
Theorem complete_timestamp_agrees dp z ds :
  digits ds → length ds ∈ [6; 8; 12; 14]%nat → zeros_at (full_digits ds) 4 = false →
  ∃ b, complete_timestamp ds (Z.of_nat (length ds)) = Ok (Some b) ∧ length b = 20%nat ∧
    str_to_ts dp (firstn 19 b) (-3) z true = str_to_ts dp ds (-3) z true.
Proof.
  intros Hds Hl Hm.
  assert (∃ a b c d e f g h i j k l m n, full_digits ds = [a; b; c; d; e; f; g; h; i; j; k; l; m; n] ∧
    complete_timestamp ds (Z.of_nat (length ds)) = Ok (Some (shown a b c d e f g h i j k l m n ++ S!":")) ∧ (length ds <= 14)%nat)
    as (a & b & c & d & e & f & g & h & i & j & k & l & m & n & Hfull & E & Hlen).
  2: { eexists. split; [exact E|]. split; [done|]. by apply shown_agrees. }
  repeat (apply elem_of_cons in Hl as [Hl|Hl]); [..|by apply elem_of_nil in Hl]; rewrite Hl; clear Hds.
  - destruct ds as [|a [|b [|c [|d [|e [|f [|g ds]]]]]]]; try done. completed 6%nat true.
    destruct (N_of_ascii a <=? N_of_ascii "6"%char)%N; shown_by c d [e; f; Ascii.zero] Hm.
  - destruct ds as [|a [|b [|c [|d [|e [|f [|g [|h [|i ds]]]]]]]]]; try done. completed 8%nat false. shown_by e f [g; h; Ascii.zero] Hm.
  - destruct ds as [|a [|b [|c [|d [|e [|f [|g [|h [|i [|j [|k [|l [|m ds]]]]]]]]]]]]]; try done. completed 12%nat true.
    destruct (N_of_ascii a <=? N_of_ascii "6"%char)%N; shown_by c d [e; f; g; h; i; j; k; l; Ascii.zero] Hm.
  - destruct ds as [|a [|b [|c [|d [|e [|f [|g [|h [|i [|j [|k [|l [|m [|n [|o ds]]]]]]]]]]]]]]]; try done. completed 14%nat false.
    shown_by e f [g; h; i; j; k; l; m; n; Ascii.zero] Hm.
Qed.

(** Witnesses: a timestamp with a fraction, a time with too many minutes, the digits of
    a day. *)
Definition ex_ts : SQL_TIMESTAMP_STRUCT := Timestamp 2024 2 29 23 59 58 12500000.

Lemma timestamp_roundtrip_witness :
  timestamp_text true ex_ts = S!"2024-02-29 23:59:58.0125" ∧
  column_timestamp true false (λ _, (0, 0, 0)) MYSQL_TYPE_DATETIME (timestamp_text true ex_ts) = Ok (Value ex_ts false).
Proof.
  split; [reflexivity|]. apply (timestamp_roundtrip true false true (λ _, (0, 0, 0)) MYSQL_TYPE_DATETIME ex_ts).
  - vm_compute. repeat split; discriminate.
  - discriminate.
  - discriminate.
Defined.

Lemma time_value_witness : ∃ t, str_to_time_st (S!"1:59:61") = Ok t ∧ 0 ≤ t_hour t ∧ 0 ≤ t_minute t < 60 ∧ 0 ≤ t_second t < 60 ∧
  let total := number (S!"1") * 3600 + number (S!"59") * 60 + number (S!"61") in
  if total <? 65536 * 3600 then seconds t = total else t_hour t = 65535.
Proof.
  apply (time_value (S!"1") (S!"59") (S!"61") []); [repeat constructor..|cbn; lia|reflexivity|exact I].
Defined.

Lemma complete_timestamp_agrees_witness : ∃ b, complete_timestamp (S!"20240229") 8 = Ok (Some b) ∧ length b = 20%nat ∧
  str_to_ts [] (firstn 19 b) (-3) true true = str_to_ts [] (S!"20240229") (-3) true true.
Proof.
  apply (complete_timestamp_agrees [] true (S!"20240229")); [repeat constructor| |reflexivity]. right. by left.
Defined.
