(* ===== verification/TempBuf.v ===== *)
(** The buffer a query is put together in (src/driver/utility.cc, parse.h): memory that
    grows, and a place in it behind what has been written. *)

From S2P Require Import Prelude.

Section TempBuf.
(** What the memory that is got for a place holds. *)
Context (uninitialised : nat → ascii).

(** [src/driver/parse.h:121-147] tempBuf

    [buf_len] is the length of [buf]; the null pointer is the empty one. *)
Record tempBuf := TempBuf { buf : str; cur_pos : nat }.

Definition buf_len (b : tempBuf) : nat := length (buf b).

(** What has been written, and whether the place is in the memory. *)
Definition content (b : tempBuf) : str := take (cur_pos b) (buf b).
Definition in_memory (b : tempBuf) : Prop := cur_pos b ≤ buf_len b.

Definition new_memory (from len : nat) : str := uninitialised <$> seq from len.

(** Bytes written over others, [None] behind the end. *)
Definition write_at (at_ : nat) (s m : str) : res str :=
  if bool_decide (at_ + length s ≤ length m) then Ok (take at_ m ++ s ++ drop (at_ + length s) m) else UB.

(** [src/driver/utility.cc:3897-3913] tempBuf::extend_buffer *)
Definition extend_buffer (len : nat) (b : tempBuf) : res tempBuf :=
  if bool_decide (buf_len b < cur_pos b) then Throw (c_string (S!"Position is outside of buffer"))
  else if bool_decide (buf_len b - cur_pos b < len) then Ok (TempBuf (buf b ++ new_memory (buf_len b) len) (cur_pos b))
  else Ok b.

(** [src/driver/utility.cc:3916-3921] tempBuf::extend_buffer

    [to] is given as its distance from the start. *)
Definition extend_buffer_at (to len : nat) (b : tempBuf) : res tempBuf := extend_buffer len (TempBuf (buf b) to).

(** [src/driver/utility.cc:3923-3935] tempBuf::add_to_buffer *)
Definition add_to_buffer (from : str) (b : tempBuf) : res tempBuf :=
  let len := length from in
  if bool_decide (buf_len b < cur_pos b) then Throw (c_string (S!"Position is outside of buffer"))
  else
    let extend_by := if bool_decide (len ≤ buf_len b - cur_pos b) then 0 else buf_len b - cur_pos b + len in
    b ← extend_buffer extend_by b;
    m ← write_at (cur_pos b) from (buf b);
    Ok (TempBuf m (cur_pos b + len)).

(** [src/driver/utility.cc:3937-3944] tempBuf::add_to_buffer *)
Definition add_to_buffer_at (to : nat) (from : str) (b : tempBuf) : res tempBuf :=
  let b := TempBuf (buf b) to in
  if bool_decide (buf_len b < cur_pos b) then Throw (c_string (S!"Position is outside of buffer")) else add_to_buffer from b.

(** [src/driver/utility.cc:3947-3950] tempBuf::remove_trail_zeroes

    The place behind the last byte that is not null. *)
Fixpoint trail_zeroes (m : str) (pos : nat) : res nat :=
  match pos with
  | O => Ok O
  | S p => match m !! p with Some c => if bool_decide (c = Ascii.zero) then trail_zeroes m p else Ok pos | None => UB end
  end.

Definition remove_trail_zeroes (b : tempBuf) : res tempBuf := p ← trail_zeroes (buf b) (cur_pos b); Ok (TempBuf (buf b) p).

(** [src/driver/utility.cc:3952-3955] tempBuf::reset *)
Definition reset (b : tempBuf) : tempBuf := TempBuf (buf b) 0.

(** [src/driver/utility.cc:3882-3886] tempBuf::tempBuf *)
Definition new_tempBuf (size : nat) : tempBuf := TempBuf (new_memory 0 size) 0.

(** [src/driver/utility.cc:3970-3982] tempBuf::operator=

    The memory that is left is not freed. *)
Definition assign (b : tempBuf) : res tempBuf :=
  m ← (if bool_decide (buf_len b = 0) then Ok [] else write_at 0 (content b) (new_memory 0 (buf_len b)));
  Ok (TempBuf m (cur_pos b)).

(** [src/driver/driver.h:1106] STMT::buf_add_pos *)
Definition buf_add_pos (n : nat) (b : tempBuf) : tempBuf := TempBuf (buf b) (cur_pos b + n).

(** What a caller writes to the memory behind the place, [STMT::endbuf]. *)
Definition write_end (s : str) (b : tempBuf) : res tempBuf := m ← write_at (cur_pos b) s (buf b); Ok (TempBuf m (cur_pos b)).

(** ** The buffer is a text that is appended to *)

Lemma length_new_memory from len : length (new_memory from len) = len.
Proof. unfold new_memory. by rewrite length_fmap, length_seq. Qed.

Lemma length_content b : in_memory b → length (content b) = cur_pos b.
Proof. intros H. apply length_take_le. exact H. Qed.

Lemma write_at_spec at_ s m : at_ + length s ≤ length m →
  ∃ m', write_at at_ s m = Ok m' ∧ length m' = length m ∧ take at_ m' = take at_ m ∧ take (at_ + length s) m' = take at_ m ++ s.
Proof.
  intros H. unfold write_at. rewrite bool_decide_true by done. eexists. split; [done|].
  split; [rewrite !length_app, length_take, length_drop; lia|]. assert (length (take at_ m) = at_) as Hl by (rewrite length_take; lia).
  split; [by rewrite take_app_length'|]. rewrite app_assoc, take_app_length'; [done|]. rewrite length_app. lia.
Qed.

Lemma extend_buffer_spec len b : in_memory b →
  ∃ b', extend_buffer len b = Ok b' ∧ in_memory b' ∧ content b' = content b ∧ cur_pos b' = cur_pos b ∧
    cur_pos b + len ≤ buf_len b' ∧ buf_len b ≤ buf_len b'.
Proof.
  intros Hin. unfold in_memory, buf_len, content in *. unfold extend_buffer, buf_len. rewrite bool_decide_false by lia.
  destruct (decide (length (buf b) - cur_pos b < len)) as [Hlt|Hge].
  - rewrite bool_decide_true by done. eexists. split; [done|]. cbn [buf cur_pos]. rewrite length_app, length_new_memory.
    split; [lia|]. split; [by rewrite take_app_le by lia|]. split; [done|]. lia.
  - rewrite bool_decide_false by done. exists b. split; [done|]. split; [done|]. split; [done|]. split; [done|]. lia.
Qed.

Lemma add_to_buffer_spec from b : in_memory b →
  ∃ b', add_to_buffer from b = Ok b' ∧ in_memory b' ∧ content b' = content b ++ from.
Proof.
  intros Hin. unfold add_to_buffer. unfold in_memory in *. rewrite bool_decide_false by lia.
  destruct (extend_buffer_spec (if bool_decide (length from ≤ buf_len b - cur_pos b) then 0 else buf_len b - cur_pos b + length from) b Hin)
    as (b1 & -> & Hin1 & Hc & Hp & Hroom & Hmore). cbn [mbind res_bind].
  assert (cur_pos b1 + length from ≤ length (buf b1)) as Hfit.
  { unfold buf_len in *. rewrite Hp. destruct (decide (length from ≤ length (buf b) - cur_pos b)); [|rewrite bool_decide_false in Hroom by done]; lia. }
  destruct (write_at_spec _ _ _ Hfit) as (m & -> & Hlen & _ & Htake). cbn [mbind res_bind]. eexists. split; [done|].
  unfold content, buf_len in *. cbn [buf cur_pos]. rewrite Htake, Hc, Hlen. split; [lia|done].
Qed.

Lemma add_to_buffer_grows from b b' : add_to_buffer from b = Ok b' → buf_len b ≤ buf_len b'.
Proof.
  unfold add_to_buffer, extend_buffer. intros H. destruct (bool_decide (buf_len b < cur_pos b)); [done|].
  assert (∀ at_ m m', write_at at_ from m = Ok m' → length m' = length m) as Hw.
  { unfold write_at. intros at_ m m'. destruct (decide (at_ + length from ≤ length m)) as [Hl|]; [rewrite bool_decide_true by done|by rewrite bool_decide_false].
    intros [= <-]. rewrite !length_app, length_take, length_drop. lia. }
  unfold buf_len. destruct (bool_decide _); cbn [mbind res_bind buf cur_pos] in H;
    (destruct (write_at _ _ _) as [m| |] eqn:E; [|done..]); injection H as <-; apply Hw in E; cbn [buf]; rewrite E, ?length_app; lia.
Qed.

(** Memory that is written to behind the text, and counted. *)
Lemma write_end_fits s k b : in_memory b → cur_pos b + length s ≤ buf_len b → k ≤ length s →
  ∃ b', write_end s b = Ok b' ∧ in_memory (buf_add_pos k b') ∧ content (buf_add_pos k b') = content b ++ take k s ∧ buf_len b' = buf_len b.
Proof.
  intros Hin Hs Hk. unfold write_end. destruct (write_at_spec (cur_pos b) s (buf b)) as (m & -> & Hlen & _ & Htake); [exact Hs|]. cbn [mbind res_bind].
  eexists. split; [done|]. unfold buf_add_pos, in_memory, content, buf_len in *. cbn [buf cur_pos]. split; [lia|]. split; [|done].
  assert (take (cur_pos b + k) m = take (cur_pos b + k) (take (cur_pos b + length s) m)) as -> by (rewrite take_take; f_equal; lia).
  rewrite Htake, take_app_ge by (rewrite length_take; lia). do 2 f_equal. rewrite length_take. lia.
Qed.

Lemma write_end_spec n s k b : in_memory b → length s ≤ n → k ≤ length s →
  ∃ b', (b ← extend_buffer n b; b ← write_end s b; Ok (buf_add_pos k b)) = Ok b' ∧ in_memory b' ∧ content b' = content b ++ take k s.
Proof.
  intros Hin Hs Hk. destruct (extend_buffer_spec n b Hin) as (b1 & -> & Hin1 & Hc & Hp & Hroom & _). cbn [mbind res_bind].
  destruct (write_end_fits s k b1) as (b2 & -> & Hin2 & Hc2 & _); [done|lia|done|]. cbn [mbind res_bind]. eexists. split; [done|]. by rewrite Hc2, Hc.
Qed.

Fixpoint strip (m : str) : str := match m with c :: m' => if bool_decide (c = Ascii.zero) then strip m' else m | [] => [] end.

Lemma trail_zeroes_spec m pos : pos ≤ length m → ∃ p, trail_zeroes m pos = Ok p ∧ p ≤ pos ∧ take p m = rev (strip (rev (take pos m))).
Proof.
  induction pos as [|p IH]; intros Hp; [by exists 0|]. cbn [trail_zeroes]. destruct (m !! p) as [c|] eqn:E; [|apply lookup_ge_None in E; lia].
  rewrite (take_S_r _ _ _ E), rev_app_distr. cbn [rev app strip]. destruct (bool_decide (c = Ascii.zero)).
  - destruct IH as (q & -> & Hq & Ht); [lia|]. exists q. split; [done|]. split; [lia|done].
  - exists (S p). split; [done|]. split; [done|]. cbn [rev]. by rewrite rev_involutive, (take_S_r _ _ _ E).
Qed.

(** *** Operations in turn *)

(** [Write n s k]: [n] bytes are asked for, [s] written to them, [k] of it counted. *)
Inductive op := Add (s : str) | Add_at (to : nat) (s : str) | Write (n : nat) (s : str) (k : nat) | Trim | Copy | Reset.

Definition step (o : op) (b : tempBuf) : res tempBuf :=
  match o with
  | Add s => add_to_buffer s b
  | Add_at to s => add_to_buffer_at to s b
  | Write n s k => b ← extend_buffer n b; b ← write_end s b; Ok (buf_add_pos k b)
  | Trim => remove_trail_zeroes b
  | Copy => assign b
  | Reset => Ok (reset b)
  end.

Fixpoint run (os : list op) (b : tempBuf) : res tempBuf := match os with [] => Ok b | o :: os => b ← step o b; run os b end.

(** What they do to a text, [None] for an operation that is not permitted. *)
Definition spec_step (o : op) (t : str) : option str :=
  match o with
  | Add s => Some (t ++ s)
  | Add_at to s => if bool_decide (to ≤ length t) then Some (take to t ++ s) else None
  | Write n s k => if bool_decide (length s ≤ n ∧ k ≤ length s) then Some (t ++ take k s) else None
  | Trim => Some (rev (strip (rev t)))
  | Copy => Some t
  | Reset => Some []
  end.

Fixpoint spec_run (os : list op) (t : str) : option str := match os with [] => Some t | o :: os => t ← spec_step o t; spec_run os t end.

Lemma step_refines o b t : in_memory b → spec_step o (content b) = Some t → ∃ b', step o b = Ok b' ∧ in_memory b' ∧ content b' = t.
Proof.
  intros Hin Ht. destruct o as [s|to s|n s k| | |]; cbn [spec_step step] in *.
  - injection Ht as <-. by apply add_to_buffer_spec.
  - destruct (decide (to ≤ length (content b))) as [Hto|Hto]; [rewrite bool_decide_true in Ht by done|by rewrite bool_decide_false in Ht].
    injection Ht as <-. rewrite length_content in Hto by done. unfold add_to_buffer_at, in_memory, buf_len in *. cbn [buf cur_pos].
    rewrite bool_decide_false by lia. destruct (add_to_buffer_spec s (TempBuf (buf b) to)) as (b' & -> & Hin' & Hc).
    { unfold in_memory, buf_len. cbn [buf cur_pos]. lia. } exists b'. split; [done|]. split; [done|]. rewrite Hc. unfold content. cbn [buf cur_pos].
    by rewrite take_take, Nat.min_l.
  - destruct (decide (length s ≤ n ∧ k ≤ length s)) as [[Hs Hk]|Hs]; [rewrite bool_decide_true in Ht by done|by rewrite bool_decide_false in Ht].
    injection Ht as <-. by apply write_end_spec.
  - injection Ht as <-. unfold remove_trail_zeroes. destruct (trail_zeroes_spec (buf b) (cur_pos b) Hin) as (p & -> & Hp & Htp). cbn [mbind res_bind].
    eexists. split; [done|]. unfold in_memory, content, buf_len in *. cbn [buf cur_pos]. split; [lia|done].
  - injection Ht as <-. unfold assign, in_memory, content, buf_len in *. destruct (decide (length (buf b) = 0)) as [E|E].
    + rewrite bool_decide_true by done. cbn [mbind res_bind]. eexists. split; [done|]. apply length_zero_iff_nil in E. cbn [buf cur_pos].
      rewrite E in *. done.
    + rewrite bool_decide_false by done. destruct (write_at_spec 0 (take (cur_pos b) (buf b)) (new_memory 0 (length (buf b)))) as (m & -> & Hl & _ & Ht).
      { rewrite length_new_memory, length_take. lia. } cbn [mbind res_bind]. eexists. split; [done|]. cbn [buf cur_pos].
      rewrite length_new_memory in Hl. split; [lia|]. cbn [app] in Ht. rewrite length_take in Ht. replace (0 + cur_pos b `min` length (buf b)) with (cur_pos b) in Ht by lia.
      done.
  - injection Ht as <-. eexists. split; [done|]. split; [unfold in_memory; cbn; lia|done].
Qed.
End TempBuf.

(** The query buffer.  From any size on, and whatever new memory holds, the operations of the
    buffer do to what has been written what they do to a text: it is appended to, cut
    and continued at a place, copied, and cleared.  No byte outside the memory is
    written, as long as a caller keeps to what it has asked for. *)
Theorem tempBuf_refines uninitialised size os t :
  spec_run os [] = Some t →
  ∃ b, run uninitialised os (new_tempBuf uninitialised size) = Ok b ∧ in_memory b ∧ content b = t.
Proof.
  assert (∀ os t b, in_memory b → spec_run os (content b) = Some t → ∃ b', run uninitialised os b = Ok b' ∧ in_memory b' ∧ content b' = t) as H.
  { clear. induction os as [|o os IH]; intros t b Hin Ht; cbn [run spec_run] in *; [injection Ht as <-; by exists b|].
    apply bind_Some in Ht as (t1 & Ht1 & Ht). destruct (step_refines uninitialised o b t1 Hin Ht1) as (b1 & -> & Hin1 & <-). by apply IH. }
  intros Ht. apply H; [unfold in_memory; cbn; lia|exact Ht].
Qed.

(** A caller that writes one byte more than it has asked for, the null character that
    ends what it writes, may write behind the memory. *)
Example one_byte_more : run (λ _, Ascii.zero) [Add (S!"abcd"); Write 4 (S!"3031" ++ [Ascii.zero]) 4] (new_tempBuf (λ _, Ascii.zero) 4) = UB.
Proof. reflexivity. Qed.

Lemma tempBuf_refines_witness : ∃ b,
  run (λ _, "x"%char) [Add (S!"SELECT "); Write 8 (S!"'a'") 3; Copy; Add (S!";")] (new_tempBuf (λ _, "x"%char) 4) = Ok b ∧ in_memory b ∧ content b = S!"SELECT 'a';".
Proof. apply (tempBuf_refines (λ _, "x"%char) 4 [Add (S!"SELECT "); Write 8 (S!"'a'") 3; Copy; Add (S!";")]). reflexivity. Defined.
