(* ===== verification/Escape.v ===== *)
(** Text in the literals and the names of a query (src/driver/utility.cc):
    [myodbc_escape_string], for the catalog functions.

    The character set of the connection is a parameter, and so is the reading of a
    literal by the server, with the rules of its manual. *)

From S2P Require Import Prelude CppString.

Section Escape.
(** [use_mb], the length of the character of several bytes that a text begins with, or 0,
    and the length that is announced by a byte. *)
Context (use_mb : bool) (my_ismbchar : str → nat) (my_mbcharlen : ascii → nat).

(** A character of several bytes at the start. *)
Definition mb (s : str) : nat := if use_mb then my_ismbchar s else 0.

(** [src/driver/utility.cc:2652-2688] myodbc_escape_string

    What is put behind a backslash, or a back-tick, for a byte, if anything. *)
Definition escape_for (escape_id : bool) (c : ascii) : option ascii :=
  if escape_id then (if bool_decide (c = "`"%char) then Some c else None)
  else if use_mb && bool_decide (1 < my_mbcharlen c) then Some c
  else if bool_decide (c = Ascii.zero) then Some "0"%char
  else if bool_decide (c = "010"%char) then Some "n"%char
  else if bool_decide (c = "013"%char) then Some "r"%char
  else if bool_decide (c ∈ ["\"%char; "'"%char; "034"%char; "_"%char; "%"%char]) then Some c
  else if bool_decide (c = "026"%char) then Some "Z"%char
  else None.

(** [src/driver/utility.cc:2630-2708] myodbc_escape_string

    The text that is written to [room] bytes, and whether there was too much. *)
Fixpoint escape_loop (fuel : nat) (escape_id : bool) (room : nat) (from : str) : str * bool :=
  match fuel, from with
  | S fuel, c :: from' =>
    match mb from with
    | O =>
      match escape_for escape_id c with
      | Some e =>
        if bool_decide (room < 2) then ([], true)
        else
          let '(t, over) := escape_loop fuel escape_id (room - 2) from' in
          ((if bool_decide (e = "`"%char) then "`"%char else "\"%char) :: e :: t, over)
      | None =>
        if bool_decide (room < 1) then ([], true)
        else let '(t, over) := escape_loop fuel escape_id (room - 1) from' in (c :: t, over)
      end
    | n =>
      if bool_decide (room < n) then ([], true)
      else let '(t, over) := escape_loop fuel escape_id (room - n) (drop n from) in (take n from ++ t, over)
    end
  | _, _ => ([], false)
  end.

(** [src/driver/utility.cc:2618-2711] myodbc_escape_string

    The bytes that are written to the buffer, the last a null character, and the length
    that is returned, [None] for all ones; a length of 0 stands for a buffer of twice
    the length of the text, and one byte more. *)
Definition myodbc_escape_string (to_length : nat) (from : str) (escape_id : bool) : str * option nat :=
  let room := if bool_decide (to_length = 0) then 2 * length from else to_length - 1 in
  let '(t, over) := escape_loop (length from) escape_id room from in
  (t ++ [Ascii.zero], if over then None else Some (length t)).

(** ** The literals of the server

    How the server reads a literal, as its manual documents it for the mode in which a
    backslash is an escape: [lit] takes the text behind the first quote, and gives the
    value and what follows the last one. *)

(** What a backslash and a byte stand for: before the wildcards of LIKE, the backslash
    stays. *)
Definition escaped (e : ascii) : str :=
  if bool_decide (e = "0"%char) then [Ascii.zero]
  else if bool_decide (e = "b"%char) then ["008"%char]
  else if bool_decide (e = "n"%char) then ["010"%char]
  else if bool_decide (e = "r"%char) then ["013"%char]
  else if bool_decide (e = "t"%char) then ["009"%char]
  else if bool_decide (e = "Z"%char) then ["026"%char]
  else if bool_decide (e ∈ ["_"%char; "%"%char]) then ["\"%char; e]
  else [e].

Definition prepend (t : str) (r : option (str * str)) : option (str * str) := prod_map (app t) id <$> r.

Record literal_rules (lit : str → option (str * str)) : Prop := {
  lit_end rest : head rest ≠ Some "'"%char → lit ("'"%char :: rest) = Some ([], rest);
  lit_escape e s : lit ("\"%char :: e :: s) = prepend (escaped e) (lit s);
  lit_char s n : mb s = S n → lit s = prepend (take (S n) s) (lit (drop (S n) s));
  lit_byte c s : mb (c :: s) = 0 → c ≠ "'"%char → c ≠ "\"%char → lit (c :: s) = prepend [c] (lit s)
}.

(** A text with a backslash before each byte that LIKE takes for a wildcard. *)
Definition quoted_wildcard (c : ascii) : str := if bool_decide (c ∈ ["_"%char; "%"%char]) then ["\"%char; c] else [c].
Fixpoint without_wildcards (fuel : nat) (s : str) : str :=
  match fuel, s with
  | S fuel, c :: s' => match mb s with O => quoted_wildcard c ++ without_wildcards fuel s' | n => take n s ++ without_wildcards fuel (drop n s) end
  | _, _ => []
  end.

(** ** What is written is read *)

(** The laws of a character set: a character of several bytes is told by its own bytes, and
    by its first one; the bytes of ASCII are characters of their own. *)
Definition charset_laws : Prop :=
  (∀ s n, my_ismbchar s = S n → S n ≤ length s ∧ ∀ t, my_ismbchar (take (S n) s ++ t) = S n) ∧
  (∀ c s, my_ismbchar (c :: s) ≠ 0 → 1 < my_mbcharlen c) ∧
  (∀ c, (N_of_ascii c < 128)%N → my_mbcharlen c ≤ 1).

Lemma escape_loop_room fuel id room from : length (escape_loop fuel id room from).1 ≤ room.
Proof.
  revert room from. induction fuel as [|fuel IH]; intros room from; [cbn; lia|]. destruct from as [|c from]; [cbn; lia|]. cbn [escape_loop].
  destruct (mb (c :: from)) as [|n].
  - destruct (escape_for id c) as [e|].
    + destruct (decide (room < 2)); [rewrite bool_decide_true by done; cbn; lia|rewrite bool_decide_false by done].
      specialize (IH (room - 2) from). destruct (escape_loop fuel id (room - 2) from) as [t over]. cbn in *. lia.
    + destruct (decide (room < 1)); [rewrite bool_decide_true by done; cbn; lia|rewrite bool_decide_false by done].
      specialize (IH (room - 1) from). destruct (escape_loop fuel id (room - 1) from) as [t over]. cbn in *. lia.
  - destruct (decide (room < S n)); [rewrite bool_decide_true by done; cbn; lia|rewrite bool_decide_false by done].
    specialize (IH (room - S n) (drop (S n) (c :: from))). destruct (escape_loop fuel id (room - S n) _) as [t over]. cbn [fst] in *.
    rewrite length_app, length_take. lia.
Qed.

Context (laws : charset_laws).

Lemma mb_spec s n : mb s = S n → S n ≤ length s ∧ ∀ t, mb (take (S n) s ++ t) = S n.
Proof. unfold mb. destruct use_mb; [|done]. apply laws. Qed.

Lemma mb_single c s : my_mbcharlen c ≤ 1 → mb (c :: s) = 0.
Proof.
  intros H. unfold mb. destruct use_mb; [|done]. destruct (decide (my_ismbchar (c :: s) = 0)) as [|Hn]; [done|].
  apply laws in Hn. lia.
Qed.

Lemma mb_ascii c s : (N_of_ascii c < 128)%N → mb (c :: s) = 0.
Proof. intros H. by apply mb_single, laws. Qed.

(** Twice the room is enough. *)
Lemma escape_loop_fits fuel id room from : 2 * length from ≤ room → (escape_loop fuel id room from).2 = false.
Proof.
  revert room from. induction fuel as [|fuel IH]; intros room from Hr; [done|]. destruct from as [|c from]; [done|]. cbn [escape_loop].
  destruct (mb (c :: from)) as [|n] eqn:E.
  - cbn [length] in Hr. destruct (escape_for id c) as [e|].
    + rewrite bool_decide_false by lia. specialize (IH (room - 2) from ltac:(lia)). by destruct (escape_loop fuel id (room - 2) from).
    + rewrite bool_decide_false by lia. specialize (IH (room - 1) from ltac:(lia)). by destruct (escape_loop fuel id (room - 1) from).
  - apply mb_spec in E as [E _]. rewrite bool_decide_false by lia. specialize (IH (room - S n) (drop (S n) (c :: from))).
    rewrite length_drop in IH. specialize (IH ltac:(lia)). by destruct (escape_loop fuel id (room - S n) _).
Qed.

(** The byte behind a backslash is not the back-tick's concern; one without is neither a
    quote nor a backslash, and begins no other character. *)
Lemma escape_for_literal c :
  match escape_for false c with
  | Some e => escaped e = quoted_wildcard c ∧ e ≠ "`"%char
  | None => c ≠ "'"%char ∧ c ≠ "\"%char ∧ quoted_wildcard c = [c] ∧ ∀ s, mb (c :: s) = 0
  end.
Proof.
  unfold escape_for. destruct (use_mb && bool_decide (1 < my_mbcharlen c)) eqn:E.
  - apply andb_true_iff in E as [_ E%bool_decide_eq_true]. assert (∀ a, (N_of_ascii a < 128)%N → c ≠ a) as H.
    { intros a Ha ->. apply laws in Ha. lia. }
    assert (c ∉ ["_"%char; "%"%char]) as Hw by (rewrite !not_elem_of_cons; split_and!; [by apply H|by apply H|by apply not_elem_of_nil]).
    unfold escaped, quoted_wildcard. rewrite !bool_decide_false by (done || by apply H). split; [done|by apply H].
  - repeat match goal with |- context [bool_decide (c = ?x)] => destruct (decide (c = x)) as [->|];
      [rewrite bool_decide_true by done; by split|rewrite (bool_decide_false (c = x)) by done] end.
    destruct (decide (c ∈ ["\"%char; "'"%char; "034"%char; "_"%char; "%"%char])) as [Hin|Hin].
    + rewrite bool_decide_true by done. repeat (apply elem_of_cons in Hin as [->|Hin]; [by split|]). by apply elem_of_nil in Hin.
    + rewrite bool_decide_false by done. destruct (decide (c = "026"%char)) as [->|]; [rewrite bool_decide_true by done; by split|].
      rewrite bool_decide_false by done. rewrite !not_elem_of_cons in Hin. destruct Hin as (H1 & H2 & H3 & H4 & H5 & _). split; [done|]. split; [done|].
      split; [unfold quoted_wildcard; rewrite bool_decide_false; [done|]; rewrite !not_elem_of_cons; split_and!; try done; by apply not_elem_of_nil|].
      intros s. unfold mb in *. destruct use_mb; [|done]. cbn [andb] in E. apply bool_decide_eq_false in E.
      destruct (decide (my_ismbchar (c :: s) = 0)) as [|Hn]; [done|]. apply laws in Hn. lia.
Qed.

Lemma prepend_app a b r : prepend a (prepend b r) = prepend (a ++ b) r.
Proof. unfold prepend. destruct r as [[x y]|]; [|done]. cbn. unfold prod_map, id. cbn. by rewrite app_assoc. Qed.

Lemma prepend_some a b rest : prepend a (Some (b, rest)) = Some (a ++ b, rest).
Proof. done. Qed.

Context (lit : str → option (str * str)) (rules : literal_rules lit).

Lemma read_escaped fuel room from rest t : length from ≤ fuel → escape_loop fuel false room from = (t, false) → head rest ≠ Some "'"%char →
  lit (t ++ "'"%char :: rest) = Some (without_wildcards fuel from, rest).
Proof.
  intros Hf Ht Hrest. revert room from t Hf Ht. induction fuel as [|fuel IH]; intros room from t Hf Ht.
  { destruct from; [|cbn in Hf; lia]. injection Ht as <-. by apply lit_end. }
  destruct from as [|c from]; [injection Ht as <-; by apply lit_end|].
  cbn [length] in Hf. cbn [escape_loop] in Ht. cbn [without_wildcards]. destruct (mb (c :: from)) as [|n] eqn:Em.
  - pose proof (escape_for_literal c) as Hc. destruct (escape_for false c) as [e|].
    + destruct Hc as [Hu Hq]. destruct (decide (room < 2)); [by rewrite bool_decide_true in Ht|rewrite bool_decide_false in Ht by done].
      destruct (escape_loop fuel false (room - 2) from) as [t' over] eqn:E. rewrite (bool_decide_false (e = _)) in Ht by done.
      injection Ht as <- ->. cbn [app]. rewrite (lit_escape _ rules), (IH (room - 2) from t' ltac:(lia) E), Hu. apply prepend_some.
    + destruct Hc as (Hq & Hb & Hw & Hm). destruct (decide (room < 1)); [by rewrite bool_decide_true in Ht|rewrite bool_decide_false in Ht by done].
      destruct (escape_loop fuel false (room - 1) from) as [t' over] eqn:E. injection Ht as <- ->.
      cbn [app]. rewrite (lit_byte _ rules), (IH (room - 1) from t' ltac:(lia) E), Hw by done. apply prepend_some.
  - destruct (mb_spec _ _ Em) as [Hn Hmb]. destruct (decide (room < S n)); [by rewrite bool_decide_true in Ht|rewrite bool_decide_false in Ht by done].
    destruct (escape_loop fuel false (room - S n) (drop (S n) (c :: from))) as [t' over] eqn:E. assert (over = false) as -> by congruence.
    assert (t = take (S n) (c :: from) ++ t') as -> by congruence. rewrite <- app_assoc, (lit_char _ rules _ n) by apply Hmb.
    rewrite take_app_length', drop_app_length' by (rewrite length_take; lia).
    rewrite (IH (room - S n) (drop (S n) (c :: from)) t'); [apply prepend_some|rewrite length_drop; cbn [length]; lia|exact E].
Qed.
End Escape.

(** C20: Escaping. [myodbc_escape_string] keeps to its buffer, and has room enough when no
    length is given; when it reports no overflow, a server that reads backslashes as escapes
    finds, between quotes, the name it was given, with a backslash before each [_] and [%]
    that is no part of another character, so that LIKE takes them for themselves (a
    backslash of the name is read as a single one, which LIKE takes for an escape); the
    literal ends where it was meant to, whatever the bytes of the name, if no third quote
    follows at once. (How the server reads is a parameter with the rules of its manual; with
    NO_BACKSLASH_ESCAPES it has others, and the function does not ask for the mode.) *)
Theorem escape_roundtrip use_mb my_ismbchar my_mbcharlen to_length from lit :
  charset_laws my_ismbchar my_mbcharlen → literal_rules use_mb my_ismbchar lit →
  let '(w, r) := myodbc_escape_string use_mb my_ismbchar my_mbcharlen to_length from false in
  length w ≤ (if bool_decide (to_length = 0) then 2 * length from + 1 else to_length) ∧
  (to_length = 0 → r ≠ None) ∧
  ∀ k rest, r = Some k → head rest ≠ Some "'"%char →
    lit (take k w ++ "'"%char :: rest) = Some (without_wildcards use_mb my_ismbchar (length from) from, rest).
Proof.
  intros laws rules. unfold myodbc_escape_string. set (room := if bool_decide _ then _ else _).
  pose proof (escape_loop_room use_mb my_ismbchar my_mbcharlen (length from) false room from) as Hroom.
  pose proof (escape_loop_fits use_mb my_ismbchar my_mbcharlen laws (length from) false room from) as Hfit.
  destruct (escape_loop use_mb my_ismbchar my_mbcharlen (length from) false room from) as [t over] eqn:E. cbn [fst snd] in *.
  split; [|split].
  - rewrite length_app. cbn [length]. subst room. destruct (decide (to_length = 0)) as [Hz|Hz]; [rewrite bool_decide_true in * by done; lia|].
    rewrite bool_decide_false in * by done. lia.
  - intros Hz. subst room. rewrite bool_decide_true in Hfit by done. by rewrite Hfit.
  - intros k rest Hk Hrest. destruct over; [done|]. injection Hk as <-. rewrite take_app_length.
    by apply (read_escaped use_mb my_ismbchar my_mbcharlen laws lit rules (length from) room from rest t).
Qed.

(** For a name of the schema, the catalog functions escape as for a name in back-ticks
    though they put it between quotes: a quote ends the literal. *)
Example schema_not_escaped : (myodbc_escape_string false (λ _, 0) (λ _, 1) 1024 (S!"a' OR '1'='1") true).1 = S!"a' OR '1'='1" ++ [Ascii.zero].
Proof. vm_compute. reflexivity. Qed.

(** A witness: a character set where the byte 200 and one behind it are a character. *)
Definition ex_ismbchar (s : str) : nat := match s with "200"%char :: _ :: _ => 2 | _ => 0 end.
Definition ex_mbcharlen (c : ascii) : nat := if bool_decide (c = "200"%char) then 2 else 1.

Fixpoint ex_literal (s : str) : option (str * str) :=
  match s with
  | [] => None
  | "'"%char :: s' => match s' with "'"%char :: s'' => prepend ["'"%char] (ex_literal s'') | _ => Some ([], s') end
  | "\"%char :: s' => match s' with e :: s'' => prepend (escaped e) (ex_literal s'') | [] => None end
  | "200"%char :: s' => match s' with d :: s'' => prepend ["200"%char; d] (ex_literal s'') | [] => prepend ["200"%char] (ex_literal s') end
  | c :: s' => prepend [c] (ex_literal s')
  end.

Lemma ex_charset_laws : charset_laws ex_ismbchar ex_mbcharlen.
Proof.
  split; [|split].
  - intros [|c [|d s]] n; cbn; [done|destruct c as [[] [] [] [] [] [] [] []]; done|].
    destruct c as [[] [] [] [] [] [] [] []]; try done. intros [= <-]. cbn. split; [lia|done].
  - intros c [|d s]; destruct c as [[] [] [] [] [] [] [] []]; vm_compute; try done; intros _; constructor.
  - intros c Hc. unfold ex_mbcharlen. destruct (decide (c = "200"%char)) as [->|]; [vm_compute in Hc; done|]. by rewrite bool_decide_false.
Qed.

Lemma ex_literal_rules : literal_rules true ex_ismbchar ex_literal.
Proof.
  split.
  - intros [|c rest] H; [done|]. destruct c as [[] [] [] [] [] [] [] []]; done.
  - done.
  - intros [|c [|d s]] n; [done|destruct c as [[] [] [] [] [] [] [] []]; done|]. destruct c as [[] [] [] [] [] [] [] []]; try done. by intros [= <-].
  - intros c s Hm Hq Hb. destruct c as [[] [] [] [] [] [] [] []]; try done. by destruct s.
Qed.

(** The name [a_'] is read as a pattern of it alone. *)
Lemma escape_roundtrip_witness :
  let '(w, r) := myodbc_escape_string true ex_ismbchar ex_mbcharlen 0 (S!"a_'") false in
  length w ≤ (if bool_decide (0 = 0) then 2 * length (S!"a_'") + 1 else 0) ∧
  (0 = 0 → r ≠ None) ∧
  ∀ k rest, r = Some k → head rest ≠ Some "'"%char →
    ex_literal (take k w ++ "'"%char :: rest) = Some (without_wildcards true ex_ismbchar (length (S!"a_'")) (S!"a_'"), rest).
Proof. exact (escape_roundtrip true ex_ismbchar ex_mbcharlen 0 (S!"a_'") ex_literal ex_charset_laws ex_literal_rules). Defined.

Example escaped_example :
  myodbc_escape_string true ex_ismbchar ex_mbcharlen 0 (S!"a_'") false = (S!"a\_\'" ++ [Ascii.zero], Some 5) ∧
  without_wildcards true ex_ismbchar 3 (S!"a_'") = S!"a\_'" ∧ ex_literal (S!"a\_\' AND") = None ∧ ex_literal (S!"a\_\'' AND") = Some (S!"a\_'", S!" AND").
Proof. vm_compute. repeat split. Qed.
