(* ===== verification/Params.v ===== *)
(** Parameters of statements (src/driver/execute.cc): the text a query is sent as, in
    which each marker is replaced by the text of its parameter, or the values that
    are bound to a statement the server has prepared. *)

From S2P Require Import Prelude CppString HostList StringUtil Numeric Errors Descriptors GetData TempBuf DateTime.

Local Open Scope Z_scope.

(** ** Types and data *)

(** The types of sql.h and sqlext.h. *)
Definition SQL_C_CHAR : Z := 1.
Definition SQL_C_WCHAR : Z := -8.
Definition SQL_C_BINARY : Z := -2.
Definition SQL_BIT : Z := -7.
Definition SQL_DECIMAL : Z := 3.
Definition SQL_C_DATE : Z := 9.
Definition SQL_C_TIME : Z := 10.
Definition SQL_FLOAT : Z := 6.
Definition SQL_REAL : Z := 7.
Definition SQL_DOUBLE : Z := 8.
(** [SQL_CHAR], [SQL_VARCHAR], [SQL_LONGVARCHAR], [SQL_WCHAR], [SQL_WVARCHAR] and
    [SQL_WLONGVARCHAR]; [SQL_BINARY], [SQL_VARBINARY] and [SQL_LONGVARBINARY]. *)
Definition char_types : list Z := [1; 12; -1; -8; -9; -10].
Definition binary_types : list Z := [-2; -3; -4].
Definition hour_to_minute : Z := interval_type 11.
Definition hour_to_second : Z := interval_type 12.

Definition SQL_NULL_DATA : Z := -1.
Definition SQL_DATA_AT_EXEC : Z := -2.
Definition SQL_COLUMN_IGNORE : Z := -6.
Definition SQL_LEN_DATA_AT_EXEC_OFFSET : Z := -100.
Definition SQL_SETPARAM_VALUE_MAX : Z := -1.

(** [src/driver/myutil.h:213-215] is_binary_sql_type *)
Definition is_binary_sql_type (ty : Z) : bool := bool_decide (ty ∈ binary_types).

(** [src/driver/myutil.h:477-479] IS_DATA_AT_EXEC *)
Definition IS_DATA_AT_EXEC (l : option Z) : bool :=
  match l with Some l => (l =? SQL_DATA_AT_EXEC) || (l <=? SQL_LEN_DATA_AT_EXEC_OFFSET) | None => false end.

(** What a pointer of the application to a parameter is a pointer to. *)
Inductive c_data (float : Type) :=
  | Bytes (s : str) | Units (w : list Z) | Integer (z : Z) | Floating (f : float) | A_date (d : SQL_DATE_STRUCT)
  | A_time (t : SQL_TIME_STRUCT) | A_timestamp (t : SQL_TIMESTAMP_STRUCT) | A_numeric (n : SQL_NUMERIC_STRUCT) | An_interval (h m s : Z).
Arguments Bytes {float}. Arguments Units {float}. Arguments Integer {float}. Arguments Floating {float}. Arguments A_date {float}.
Arguments A_time {float}. Arguments A_timestamp {float}. Arguments A_numeric {float}. Arguments An_interval {float}.

(** The records of a parameter in the application and the implementation descriptor.
    [cell] is what the pointer to the data gives for a row, and [first_cell] what it
    gives without the row; a null pointer gives nothing. *)
Record param (float : Type) := Param {
  a_concise_type : Z; a_type : Z; a_octet_length : Z; cell : nat → option (c_data float); first_cell : option (c_data float);
  octet_length_ptr : option (nat → Z); indicator_ptr : option (nat → Z); par_val : option (c_data float * Z);
  i_concise_type : Z; i_type : Z; i_precision : Z; i_scale : Z }.
Arguments a_concise_type {float}. Arguments a_type {float}. Arguments a_octet_length {float}. Arguments cell {float}.
Arguments first_cell {float}. Arguments octet_length_ptr {float}. Arguments indicator_ptr {float}. Arguments par_val {float}.
Arguments i_concise_type {float}. Arguments i_type {float}. Arguments i_precision {float}. Arguments i_scale {float}.

Inductive buffer_type := MYSQL_TYPE_STRING | MYSQL_TYPE_BLOB | MYSQL_TYPE_TINY.

(** What is bound. *)
Record MYSQL_BIND := Bind { b_buffer : str; b_type : buffer_type; length_value : Z; is_null_value : bool }.

(** The members of the statement that are written: its buffer, the bind of the parameter, the
    place in a column, and the state of its error. *)
Record insertion := Insertion { tempbuf : tempBuf; bind : option MYSQL_BIND; getdata : GETDATA; err : option str }.

Definition set_tempbuf (b : tempBuf) (i : insertion) : insertion := Insertion b (bind i) (getdata i) (err i).
Definition set_bind (b : option MYSQL_BIND) (i : insertion) : insertion := Insertion (tempbuf i) b (getdata i) (err i).
Definition set_getdata (g : GETDATA) (i : insertion) : insertion := Insertion (tempbuf i) (bind i) g (err i).
Definition set_err (e : str) (i : insertion) : insertion := Insertion (tempbuf i) (bind i) (getdata i) (Some e).

(** An error is set, and returned. *)
Definition set_error (state : str) : M insertion Z := modify (set_err state);; mret SQL_ERROR.

(** The memory behind a pointer and a length: some bytes and the null character
    behind them. *)
Definition text_of (mem : option str) (len : Z) : res str :=
  match mem with
  | Some m => if (0 <=? len) && (len <=? Z.of_nat (S (length m))) then Ok (firstn (Z.to_nat len) (m ++ [Ascii.zero])) else UB
  | None => if len =? 0 then Ok [] else UB
  end.

(** A C string, up to its first null character. *)
Fixpoint c_str (m : str) : str := match m with c :: m' => if bool_decide (c = Ascii.zero) then [] else c :: c_str m' | [] => [] end.

Fixpoint c_units (w : list Z) : list Z := match w with u :: w' => if u =? 0 then [] else u :: c_units w' | [] => [] end.

Section Params.
(** What the code relies on: the memory, the bytes in which it holds a structure or a
    float, the float and its text, the escaping of the
    client library; the character sets of the connection; its options; the locale;
    whether the server does without backslashes, and what it understands; the
    options of the statement, and whether it is prepared by the server. *)
Context {float : Type} (d2str : float → bool → str) (uninitialised : nat → ascii) (object_bytes : c_data float → list Z)
  (stack : list Z) (room : str)
  (real_escape_string : str → str) (cxn_charset ansi_charset : Z) (NO_DATE_OVERFLOW MIN_DATE_TO_ZERO NO_LOCALE : bool)
  (thousands_sep decimal_point : str) (no_backslashes utf8mb4 : bool) (options : get_options) (ssps_used setpos_op : bool).

Definition UTF8_CHARSET_NUMBER : Z := 33.

Definition add (s : str) : M insertion unit :=
  i ← get; b ← lift (add_to_buffer uninitialised s (tempbuf i)); modify (set_tempbuf b).

Definition is_bound : M insertion bool := gets (λ i, bool_decide (is_Some (bind i))).

(** [src/driver/execute.cc:424-434] put_null_param *)
Definition put_null_param : M insertion unit :=
  i ← get;
  match bind i with
  | Some b => if ssps_used then modify (set_bind (Some (Bind (b_buffer b) (b_type b) (length_value b) true))) else add (S!"NULL")
  | None => add (S!"NULL")
  end.

(** [src/driver/execute.cc:438-449] put_default_value *)
Definition put_default_value : M insertion unit :=
  i ← get;
  match bind i with
  | Some b => if ssps_used then modify (set_bind (Some (Bind (b_buffer b) (b_type b) (length_value b) true))) else add (S!"DEFAULT")
  | None => add (S!"DEFAULT")
  end.

(** [src/driver/execute.cc:491-509] bind_param

    The memory of the buffer is as long as it has to be. *)
Definition bind_param (value : str) (ty : buffer_type) : M insertion unit :=
  i ← get;
  b ← deref (bind i);
  modify (set_bind (Some (Bind value ty (Z.of_nat (length value)) (is_null_value b)))).

(** [src/driver/execute.cc:513-526] put_param_value *)
Definition put_param_value (value : str) : M insertion unit :=
  b ← is_bound; if b : bool then bind_param value MYSQL_TYPE_STRING else add value.

(** [src/driver/execute.cc:529-555] check_c2sql_conversion_supported *)
Definition check_c2sql_conversion_supported (p : param float) : M insertion Z :=
  if ((a_type p =? SQL_DATETIME) && (i_type p =? SQL_INTERVAL)) || ((a_type p =? SQL_INTERVAL) && (i_type p =? SQL_DATETIME)) then
    set_error (S!"07006")
  else if is_interval_code (a_concise_type p - 100) && negb ((a_concise_type p =? hour_to_minute) || (a_concise_type p =? hour_to_second)) then
    set_error (S!"07006")
  else mret SQL_SUCCESS.

(** The types of a fixed size, from [SQL_C_BIT] to the intervals. *)
Definition fixed_types : list Z :=
  [-7; -6; -26; -28; 5; -15; -17; 4; -16; -18; -25; -27; 7; 8; 9; 91; 10; 92; 11; 93; 2; hour_to_minute; hour_to_second].

Definition ascii_bytes (l : list Z) : str := (λ z, ascii_of_nat (Z.to_nat z)) <$> l.

(** [src/driver/execute.cc:569-815] convert_c_type2str

    The result, and the text that replaces the data, whose length is [length]; a null
    pointer is dereferenced but for wide strings. *)
Definition convert_c_type2str (p : param float) (data : option (c_data float)) (length : Z) : M insertion (Z * option str) :=
  match data with
  | None =>
    if a_concise_type p =? SQL_C_WCHAR then mret (SQL_SUCCESS, Some [])
    else if bool_decide (a_concise_type p ∈ fixed_types) then undefined
    else e ← set_error (S!"07006"); mret (e, None)
  | Some (Units w) =>
    r ← lift (sqlwchar_as_utf8_ext (Some w) (Some (length / 2)));
    if r.2 && negb utf8mb4 then e ← set_error (S!"HY000"); mret (e, None) else mret (SQL_SUCCESS, Some (ascii_bytes r.1))
  | Some (Integer z) => mret (SQL_SUCCESS, Some (to_string z))
  | Some (Floating f) => mret (SQL_SUCCESS, Some (d2str f (negb ((i_concise_type p =? SQL_NUMERIC) || (i_concise_type p =? SQL_DECIMAL)))))
  | Some (A_date d) => mret (SQL_SUCCESS, Some (date_text MIN_DATE_TO_ZERO d))
  | Some (A_time t) =>
    match time_text t with Some s => mret (SQL_SUCCESS, Some s) | None => e ← set_error (S!"22008"); mret (e, None) end
  | Some (A_timestamp t) => mret (SQL_SUCCESS, Some (timestamp_text MIN_DATE_TO_ZERO t))
  | Some (A_numeric n) =>
    r ← lift (sqlnum_to_str stack room n (to_uint8 (i_precision p)) (i_scale p));
    let '(_, text, trunc) := r in
    if trunc =? 1 then set_error (S!"01S07");; mret (SQL_SUCCESS_WITH_INFO, text)
    else if trunc =? 2 then mret (SQL_ERROR, text)
    else mret (SQL_SUCCESS, text)
  | Some (An_interval h m s) => mret (SQL_SUCCESS, Some (interval_text (negb ssps_used) (a_concise_type p =? hour_to_second) h m s))
  | Some (Bytes s) => e ← set_error (S!"07006"); mret (e, None)
  end.

(** [src/driver/execute.cc:1239-1254] insert_param

    Separators of thousands are left out and the decimal point is replaced, from a C
    string of which [n] bytes are looked at. *)
Fixpoint fix_number (sep point : str) (fuel n : nat) (from : str) : str :=
  match fuel, n, from with
  | S fuel, S _, c :: from' =>
    if negb (bool_decide (sep = [])) && starts_with sep from then fix_number sep point fuel (n - length sep) (skipn (length sep) from)
    else if negb (bool_decide (point = [])) && starts_with point from then
      "."%char :: fix_number sep point fuel (n - length point) (skipn (length point) from)
    else c :: fix_number sep point fuel (n - 1) from'
  | _, _, _ => []
  end.

(** The bytes of an integer, from the lowest on, by its C type. *)
Fixpoint le_bytes (w : nat) (z : Z) : list Z := match w with O => [] | S w => z mod 256 :: le_bytes w (z / 256) end.
Definition int_width (ty : Z) : nat :=
  if bool_decide (ty ∈ [-7; -6; -26; -28]) then 1 else if bool_decide (ty ∈ [5; -15; -17]) then 2
  else if bool_decide (ty ∈ [-25; -27]) then 8 else 4.
Definition memory_of (ty : Z) (d : c_data float) : list Z :=
  match d with Integer z => le_bytes (int_width ty) z | d => object_bytes d end.

(** [strlen] over bytes, nothing when none of them is zero: what is behind them is read. *)
Definition strlen_bytes (l : list Z) : option Z := (λ r, Z.of_nat r.1) <$> list_find (λ b, b = 0) l.

(** [src/driver/execute.cc:909-932] insert_param

    The length of data that has none, or [SQL_NTS]: the place of the null character or
    byte, whatever the data is. *)
Definition terminated_length (p : param float) (d : c_data float) : res Z :=
  match d with
  | Units w => Ok (if a_concise_type p =? SQL_C_WCHAR then Z.of_nat (length (c_units w)) * 2 else 0)
  | Bytes m => Ok (Z.of_nat (length (c_str m)))
  | _ => match strlen_bytes (memory_of (a_concise_type p) d) with Some n => Ok n | None => UB end
  end.

(** [src/driver/execute.cc:896-958] insert_param

    What is to be inserted: nothing more, after [NULL] or [DEFAULT], or some data and
    its length.  The length of data that is no text is replaced later. *)
Definition param_data (p : param float) (row : nat) : M insertion (option (option (c_data float) * Z)) :=
  let octets := (λ f, f row) <$> octet_length_ptr p in
  let data := cell p row in
  if bool_decide (((λ f, f row) <$> indicator_ptr p) = Some SQL_NULL_DATA) then put_null_param;; mret None
  else
    match octets with
    | None | Some (-3) =>
      let cut := bool_decide (octets = None) && (0 <? a_octet_length p) && negb (a_octet_length p =? SQL_SETPARAM_VALUE_MAX) in
      match data with
      | Some d => len ← lift (terminated_length p d); mret (Some (data, if cut then Z.min len (a_octet_length p) else len))
      | None => mret (Some (None, 0))
      end
    | Some l =>
      if (l =? SQL_COLUMN_IGNORE) || ((l =? 0) && (a_concise_type p =? SQL_C_DEFAULT) && match par_val p with None => true | Some _ => false end) then
        put_default_value;; mret None
      else if IS_DATA_AT_EXEC octets then
        match par_val p with Some (d, n) => mret (Some (Some d, n)) | None => put_default_value;; mret None end
      else mret (Some (data, l))
    end.

(** What is put into the query for a parameter, and what is left to be done with the text:
    it is bound or quoted, or all is done. *)
Inductive next := Finish (result : Z) | Quote (convert : bool).

(** [src/driver/execute.cc:1121-1199] insert_param

    The types of times. *)
Definition insert_time (p : param float) (mem : option str) (len : Z) (result : Z) : M insertion next :=
  b ← is_bound;
  let quote (s : str) := if b : bool then s else "'" ++ s ++ "'" in
  if (a_concise_type p =? SQL_C_TIMESTAMP) || (a_concise_type p =? SQL_C_TYPE_TIMESTAMP) then
    match first_cell p with
    | Some (A_timestamp t) =>
      if 23 <? hour t then e ← set_error (S!"22008"); mret (Finish e)
      else if negb (fraction t =? 0) then e ← set_error (S!"22008"); mret (Finish e)
      else put_param_value (quote (clock (hour t) (minute t) (second t)));; mret (Finish result)
    | _ => undefined
    end
  else
    m ← deref mem;
    if negb ((get_fractional_part [] (c_str m) len true).2 =? 0) then e ← set_error (S!"22008"); mret (Finish e)
    else
      text ← lift (text_of mem len);
      time ← lift (str_to_time_as_long text (length text));
      let hours := to_int32 (time / 10000) in
      if 23 <? hours then e ← set_error (S!"22008"); mret (Finish e)
      else
        let t := to_int32 time in
        put_param_value (quote (clock hours (Z.rem (Z.quot t 100) 100) (Z.rem t 100)));; mret (Finish result).

(** [src/driver/execute.cc:993-1065] insert_param

    The types of dates and timestamps: [Quote] goes on with the types of binary data.
    A text that is no date leaves the structure as it was. *)
Definition insert_date (p : param float) (mem : option str) (len : Z) (convert : bool) (result : Z) : M insertion next :=
  m ← deref mem;
  b ← is_bound;
  if bool_decide (head m = Some "{"%char) then
    text ← lift (text_of mem len);
    (if b : bool then bind_param (default [] (get_date_time_substr text)) MYSQL_TYPE_STRING else add text);;
    mret (Finish result)
  else if (i_concise_type p =? SQL_C_DATE) || (i_concise_type p =? SQL_C_TYPE_DATE) then
    r ← lift (str_to_ts [] (c_str m) len true true);
    if NO_DATE_OVERFLOW then mret (Quote convert)
    else
      match r with
      | Ts t =>
        if (hour t =? 0) && (minute t =? 0) && (second t =? 0) && (fraction t =? 0) then mret (Quote convert)
        else e ← set_error (S!"22008"); mret (Finish e)
      | _ => undefined
      end
  else mret (Quote convert).

(** [src/driver/execute.cc:1046-1065] insert_param *)
Definition insert_binary (convert : bool) : M insertion next :=
  b ← is_bound;
  if b : bool then mret (Quote false)
  else (if negb (cxn_charset =? ansi_charset) then add (S!"_binary") else mret tt);; mret (Quote convert).

(** [src/driver/execute.cc:991-1272] insert_param

    By the type of the parameter in the query. *)
Definition insert_by_type (p : param float) (mem : option str) (len : Z) (convert : bool) (result : Z) : M insertion next :=
  let ty := i_concise_type p in
  let one_of (l : list Z) := bool_decide (ty ∈ l) in
  let otherwise :=
    if convert : bool then mret (Quote convert)
    else text ← lift (text_of mem len); put_param_value text;; mret (Finish result) in
  b ← is_bound;
  if one_of [SQL_C_DATE; SQL_C_TYPE_DATE; SQL_C_TYPE_TIMESTAMP; SQL_C_TIMESTAMP] then
    r ← insert_date p mem len convert result;
    match r with Quote convert => insert_binary convert | done => mret done end
  else if one_of binary_types then insert_binary convert
  else if one_of char_types then
    if (b : bool) && (if a_concise_type p =? SQL_C_WCHAR then negb (cxn_charset =? UTF8_CHARSET_NUMBER) else negb (cxn_charset =? ansi_charset)) then
      text ← lift (text_of mem len); bind_param text MYSQL_TYPE_BLOB;; mret (Finish result)
    else mret (Quote convert)
  else if one_of [hour_to_minute; hour_to_second] then
    if (a_concise_type p =? hour_to_minute) || (a_concise_type p =? hour_to_second) then
      text ← lift (text_of mem len); put_param_value text;; mret (Finish result)
    else set_error (S!"07006");; mret (Finish result)
  else if one_of [SQL_C_TIME; SQL_C_TYPE_TIME] then insert_time p mem len result
  else if one_of [SQL_BIT] then
    m ← deref mem;
    (if b : bool then bind_param [if to_int32 (atol (c_str m)) =? 0 then Ascii.zero else Ascii.one] MYSQL_TYPE_TINY
     else if convert : bool then mret tt
     else text ← lift (text_of mem 1); add text);;
    mret (Finish result)
  else if one_of [SQL_FLOAT; SQL_REAL; SQL_DOUBLE] then
    if convert : bool then
      text ← lift (text_of mem len);
      let sep := if NO_LOCALE then thousands_sep else S!"," in
      let point := if NO_LOCALE then decimal_point else S!"." in
      let text := c_str text in
      let number := fix_number sep point (length text) (length text) text in
      if bool_decide (128 < length number)%nat then undefined
      else put_param_value (if bool_decide (number = []) then S!"0" else number);; mret (Finish result)
    else otherwise
  else otherwise.

(** [src/driver/execute.cc:1274-1309] insert_param

    The text is bound, or written as a literal. *)
Definition insert_literal (p : param float) (text : str) : M insertion unit :=
  b ← is_bound;
  if (b : bool) && negb setpos_op then bind_param text MYSQL_TYPE_STRING
  else if no_backslashes && is_binary_sql_type (i_concise_type p) then
    add (S!" 0x");;
    i ← get;
    buf ← lift (extend_buffer uninitialised (length text * 2) (tempbuf i));
    r ← lift (copy_binhex_result 1 options true (Z.of_nat (length text) * 2 + 1) true text (getdata i));
    let '(x, g) := r in
    buf ← lift (write_end (default [] (written x)) buf);
    modify (set_tempbuf (buf_add_pos (Z.to_nat (default 0 (avail x))) buf));;
    modify (set_getdata g)
  else
    add (S!"'");;
    i ← get;
    buf ← lift (extend_buffer uninitialised (length text * 2) (tempbuf i));
    let escaped := real_escape_string text in
    buf ← lift (write_end (escaped ++ [Ascii.zero]) buf);
    modify (set_tempbuf (buf_add_pos (length escaped) buf));;
    add (S!"'").

(** [src/driver/execute.cc:863-1325] insert_param *)
Definition insert_param (p : param float) (row : nat) : M insertion Z :=
  d ← param_data p row;
  match d with
  | None => mret SQL_SUCCESS
  | Some (data, len) =>
    rc ← check_c2sql_conversion_supported p;
    if bool_decide (rc = SQL_ERROR) then mret rc
    else
      let convert := (a_concise_type p =? SQL_C_BINARY) || (a_concise_type p =? SQL_C_CHAR) in
      r ← (if convert then mret (SQL_SUCCESS, match data with Some (Bytes m) => Some m | _ => None end, len)
           else '(rc, text) ← convert_c_type2str p data len; mret (rc, text, Z.of_nat (length (default [] text))));
      let '(rc, mem, len) := r in
      if bool_decide (rc = SQL_ERROR) then mret SQL_ERROR
      else
        n ← insert_by_type p mem len convert rc;
        match n with
        | Finish result => mret result
        | Quote convert => text ← lift (text_of mem len); insert_literal p text;; mret rc
        end
  end.

(** A parameter as [insert_params] finds it: the place of its marker, its records, whether it
    was given, and its bind. *)
Record marker := Marker { place : nat; given : option (param float); real_param_done : bool; its_bind : option MYSQL_BIND }.

(** [src/driver/execute.cc:342-392] insert_params

    The parameters in turn, from the place [from] of the query: the result, the place behind
    the last marker, whether there was a warning, and what was bound. *)
Fixpoint insert_each (dummy : bool) (query : str) (row from : nat) (info : bool) (ps : list marker)
    : M insertion (Z * nat * bool * list (option MYSQL_BIND)) :=
  match ps with
  | [] => mret (SQL_SUCCESS, from, info, [])
  | m :: ps =>
    if dummy || (bool_decide (is_Some (given m)) && real_param_done m) then
      p ← deref (given m);
      (if ssps_used then modify (set_bind (its_bind m))
       else if bool_decide (place m < from)%nat then undefined
       else modify (set_bind None);; add (firstn (place m - from) (skipn from query)));;
      rc ← insert_param p row;
      b ← gets bind;
      if bool_decide (rc = SQL_ERROR) then mret (rc, from, info, [b])
      else
        '(rc, from, info, bs) ← insert_each dummy query row (S (place m)) (info || bool_decide (rc = SQL_SUCCESS_WITH_INFO)) ps;
        mret (rc, from, info, b :: bs)
    else e ← set_error (S!"07001"); mret (e, from, info, [])
  end.

(** [src/driver/execute.cc:331-421] insert_params

    The result, the final query when there is one, and what was bound. *)
Definition insert_params (dummy : bool) (query : str) (row : nat) (ps : list marker) : M insertion (Z * option str * list (option MYSQL_BIND)) :=
  '(rc, from, info, bs) ← insert_each dummy query row 0 false ps;
  if bool_decide (rc = SQL_ERROR) then mret (rc, None, bs)
  else
    let rc := if info : bool then SQL_SUCCESS_WITH_INFO else rc in
    if ssps_used then mret (rc, None, bs)
    else
      add (skipn from query);;
      text ← gets (λ i, content (tempbuf i));
      mret (rc, Some text, bs).
End Params.

(** ** The text of parameters *)

Section Text.
Context {float : Type} (d2str : float → bool → str) (uninitialised : nat → ascii) (object_bytes : c_data float → list Z)
  (stack : list Z) (room : str)
  (real_escape_string : str → str) (cxn_charset ansi_charset : Z) (NO_DATE_OVERFLOW MIN_DATE_TO_ZERO NO_LOCALE : bool)
  (thousands_sep decimal_point : str) (no_backslashes utf8mb4 : bool) (options : get_options).

(** A statement that is put together by the driver. *)
Notation "'insert'" := (insert_param d2str uninitialised object_bytes stack room real_escape_string cxn_charset ansi_charset NO_DATE_OVERFLOW
  MIN_DATE_TO_ZERO NO_LOCALE thousands_sep decimal_point no_backslashes utf8mb4 options false false).

(** A state of the buffer without a bind that has room up to [n] bytes. *)
Definition ready (n : nat) (i : insertion) : Prop := in_memory (tempbuf i) ∧ (n <= buf_len (tempbuf i))%nat ∧ bind i = None.

(** What a step does that appends to the query and changes nothing else. *)
Definition appends {A} (m : M insertion A) (a : A) (s : str) : Prop :=
  ∀ n i, ready n i → (length (content (tempbuf i)) + length s <= n)%nat →
  ∃ i', m i = (Ok a, i') ∧ ready n i' ∧ content (tempbuf i') = content (tempbuf i) ++ s ∧ getdata i' = getdata i ∧ err i' = err i.

Lemma appends_add s : appends (add uninitialised s) tt s.
Proof.
  intros n i (Hin & Hn & Hb) _. destruct (add_to_buffer_spec uninitialised s (tempbuf i) Hin) as (b & E & Hin' & Hc).
  exists (set_tempbuf b i). unfold add, get, mbind, M_bind. cbn. rewrite E. split; [done|].
  apply add_to_buffer_grows in E. split; [split; [done|]; split; [cbn; lia|done]|]. done.
Qed.

Lemma appends_bind {A B} (m : M insertion A) (k : A → M insertion B) a b s t :
  appends m a s → appends (k a) b t → appends (m ≫= k) b (s ++ t).
Proof.
  intros Hm Hk n i Hi Hl. rewrite length_app in Hl. destruct (Hm n i Hi) as (i1 & E1 & Hi1 & Hc1 & Hg1 & He1); [lia|].
  destruct (Hk n i1 Hi1) as (i2 & E2 & Hi2 & Hc2 & Hg2 & He2); [rewrite Hc1, length_app; lia|].
  exists i2. unfold mbind, M_bind. rewrite E1, E2. rewrite Hc2, Hc1, Hg2, Hg1, He2, He1, app_assoc. done.
Qed.

(** Nothing is appended by the first, or by the second. *)
Lemma appends_before {A B} (m : M insertion A) (k : A → M insertion B) a b t : appends m a [] → appends (k a) b t → appends (m ≫= k) b t.
Proof. apply (appends_bind m k a b []). Qed.

Lemma appends_after {A B} (m : M insertion A) (k : A → M insertion B) a b s : appends m a s → appends (k a) b [] → appends (m ≫= k) b s.
Proof. intros Hm Hk. rewrite <- (app_nil_r s). by eapply appends_bind. Qed.

Lemma appends_ret {A} (a : A) : appends (mret a) a [].
Proof. intros n i Hi _. exists i. by rewrite app_nil_r. Qed.

Lemma appends_bound : appends is_bound false [].
Proof. intros n i Hi _. exists i. rewrite app_nil_r. destruct Hi as (? & ? & Hb). unfold is_bound, gets. rewrite Hb. done. Qed.

Lemma appends_lift {A} (r : res A) a : r = Ok a → appends (lift r) a [].
Proof. intros -> n i Hi _. exists i. by rewrite app_nil_r. Qed.

Lemma appends_put s : appends (put_param_value uninitialised s) tt s.
Proof. eapply appends_before; [apply appends_bound|]. apply appends_add. Qed.

(** Escaped text is written with a null character behind it, over which the quote is put. *)
Lemma appends_escaped text : (length (real_escape_string text) <= length text * 2)%nat →
  appends (i ← get;
           buf ← lift (extend_buffer uninitialised (length text * 2) (tempbuf i));
           buf ← lift (write_end (real_escape_string text ++ [Ascii.zero]) buf);
           modify (set_tempbuf (buf_add_pos (length (real_escape_string text)) buf));;
           add uninitialised (S!"'")) tt (real_escape_string text ++ S!"'").
Proof.
  intros Hesc n i (Hin & Hn & Hb) Hl. set (esc := real_escape_string text) in *. rewrite length_app in Hl. change (length (S!"'")) with 1%nat in Hl.
  destruct (extend_buffer_spec uninitialised (length text * 2) (tempbuf i) Hin) as (b1 & E1 & Hin1 & Hc1 & Hp1 & _ & Hmore).
  rewrite length_content in Hl by done.
  destruct (write_end_fits (esc ++ [Ascii.zero]) (length esc) b1) as (b2 & E2 & Hin2 & Hc2 & Hlen2); [done| |rewrite length_app; lia|].
  { rewrite length_app. cbn [length]. lia. }
  rewrite take_app_length in Hc2. set (i2 := set_tempbuf (buf_add_pos (length esc) b2) i).
  destruct (appends_add (S!"'") n i2) as (i3 & E3 & Hi3 & Hc3 & Hg3 & He3).
  { split; [done|]. split; [cbn; unfold buf_len in *; cbn; lia|done]. }
  { cbn [i2 set_tempbuf tempbuf]. rewrite Hc2, Hc1, length_app, length_content by done. change (length (S!"'")) with 1%nat. lia. }
  exists i3. split.
  { unfold mbind, M_bind, get, lift. rewrite E1, E2. exact E3. }
  split; [exact Hi3|]. rewrite Hc3, Hg3, He3. cbn [i2 set_tempbuf tempbuf getdata err]. rewrite Hc2, Hc1, <- app_assoc. done.
Qed.

Lemma appends_literal (p : param float) text :
  (length (real_escape_string text) <= length text * 2)%nat → no_backslashes && is_binary_sql_type (i_concise_type p) = false →
  appends (insert_literal uninitialised real_escape_string no_backslashes options false p text) tt
    (S!"'" ++ real_escape_string text ++ S!"'").
Proof.
  intros Hesc Hbin. unfold insert_literal. eapply appends_before; [apply appends_bound|]. cbn [andb]. rewrite Hbin. eapply appends_bind; [apply appends_add|]. by apply appends_escaped.
Qed.

(** ** What is inserted for a parameter *)

(** The literal of a text. *)
Definition literal (text : str) : str := S!"'" ++ real_escape_string text ++ S!"'".

Definition is_char_or_binary (ty : Z) : bool := (ty =? SQL_C_CHAR) || (ty =? SQL_C_BINARY).

Lemma appends_unbound {A} (k : insertion → M insertion A) a s : (∀ i, bind i = None → appends (k i) a s) → appends (get ≫= k) a s.
Proof. intros H n i Hi Hl. destruct Hi as (H1 & H2 & H3). by apply (H i H3 n i). Qed.

(** A parameter that is not null. *)
Definition not_null (p : param float) (row : nat) : Prop := ∀ g, indicator_ptr p = Some g → g row ≠ SQL_NULL_DATA.

(** Data that is there. *)
Lemma not_null_data (p : param float) row : not_null p row → bool_decide (((λ f, f row) <$> indicator_ptr p) = Some SQL_NULL_DATA) = false.
Proof.
  intros Hi. apply bool_decide_false. destruct (indicator_ptr p) as [g|] eqn:Eg; cbn; [|done]. intros [= E]. by apply (Hi g).
Qed.

Lemma bytes_given (p : param float) row d f : not_null p row → cell p row = Some d → octet_length_ptr p = Some f → 0 <= f row →
  a_concise_type p ≠ SQL_C_DEFAULT → param_data uninitialised object_bytes false p row = mret (Some (Some d, f row)).
Proof.
  intros Hi Hd Ho H0 Hz. unfold param_data. rewrite Hd, not_null_data, Ho by done. cbn [fmap option_fmap option_map].
  unfold SQL_COLUMN_IGNORE. cbn [IS_DATA_AT_EXEC]. destruct (f row) as [|l|l] eqn:El; [| |lia]; cbn [Z.eqb]; cbn [orb andb]; [|done].
  by rewrite (proj2 (Z.eqb_neq _ _) Hz).
Qed.

(** An integer whose length is given, or whose bytes have an end for [strlen]. *)
Definition integer_ends (p : param float) (row : nat) (z : Z) : Prop :=
  match octet_length_ptr p with Some f => 0 ≤ f row | None => is_Some (strlen_bytes (le_bytes (int_width (a_concise_type p)) z)) end.

Lemma integer_given (p : param float) row z : not_null p row → cell p row = Some (Integer z) → integer_ends p row z → a_concise_type p ≠ SQL_C_DEFAULT →
  ∃ l, param_data uninitialised object_bytes false p row = mret (Some (Some (Integer z), l)).
Proof.
  intros Hi Hd Ho Hc. unfold integer_ends in Ho. destruct (octet_length_ptr p) as [f|] eqn:Ef.
  - exists (f row). by apply bytes_given.
  - destruct Ho as [n Hn]. unfold param_data. rewrite Hd, not_null_data, Ef by done. cbn [fmap option_fmap option_map]. eexists.
    unfold terminated_length, memory_of. rewrite Hn. reflexivity.
Qed.

(** The types of text and of integers need no check. *)
Lemma no_check (p : param float) : (a_type p =? SQL_DATETIME) || (a_type p =? SQL_INTERVAL) = false → is_interval_code (a_concise_type p - 100) = false →
  check_c2sql_conversion_supported p = mret SQL_SUCCESS.
Proof.
  intros H Hi. unfold check_c2sql_conversion_supported. apply orb_false_iff in H as [-> ->]. cbn [andb orb]. by rewrite Hi.
Qed.

(** A type of text is none of the others. *)
Lemma char_type_apart ty : ty ∈ char_types →
  bool_decide (ty ∈ [SQL_C_DATE; SQL_C_TYPE_DATE; SQL_C_TYPE_TIMESTAMP; SQL_C_TIMESTAMP]) = false ∧ bool_decide (ty ∈ binary_types) = false.
Proof.
  unfold char_types. intros H. repeat (apply elem_of_cons in H as [-> |H]; [by split; vm_compute|]). by apply elem_of_nil in H.
Qed.

(** The types of numbers that have no case of their own. *)
Lemma number_type_apart ty : ty ∈ [4; 5; -5; -6; 2; 3] →
  bool_decide (ty ∈ [SQL_C_DATE; SQL_C_TYPE_DATE; SQL_C_TYPE_TIMESTAMP; SQL_C_TIMESTAMP]) = false ∧ bool_decide (ty ∈ binary_types) = false ∧
  bool_decide (ty ∈ char_types) = false ∧ bool_decide (ty ∈ [hour_to_minute; hour_to_second]) = false ∧
  bool_decide (ty ∈ [SQL_C_TIME; SQL_C_TYPE_TIME]) = false ∧ bool_decide (ty ∈ [SQL_BIT]) = false ∧
  bool_decide (ty ∈ [SQL_FLOAT; SQL_REAL; SQL_DOUBLE]) = false.
Proof.
  intros H. repeat (apply elem_of_cons in H as [-> |H]; [by vm_compute|]). by apply elem_of_nil in H.
Qed.

Lemma integer_type_apart ty : ty ∈ [4; -16; -18; -25; -27; 5; -15; -17] →
  is_interval_code (ty - 100) = false ∧ (ty =? SQL_C_BINARY) || (ty =? SQL_C_CHAR) = false ∧ ty ≠ SQL_C_DEFAULT.
Proof.
  intros H. repeat (apply elem_of_cons in H as [-> |H]; [by vm_compute|]). by apply elem_of_nil in H.
Qed.

Lemma text_of_all s : text_of (Some s) (Z.of_nat (length s)) = Ok s.
Proof.
  unfold text_of. rewrite (proj2 (Z.leb_le 0 _)), (proj2 (Z.leb_le _ _)) by lia. cbn [andb]. by rewrite Nat2Z.id, take_app_length.
Qed.

(** What is done with a text or bytes. *)
Lemma insert_bytes_start (p : param float) row m f : not_null p row → octet_length_ptr p = Some f → 0 ≤ f row → cell p row = Some (Bytes m) →
  is_char_or_binary (a_concise_type p) = true → (a_type p =? SQL_DATETIME) || (a_type p =? SQL_INTERVAL) = false →
  insert p row =
    (n ← insert_by_type uninitialised cxn_charset ansi_charset NO_DATE_OVERFLOW NO_LOCALE thousands_sep decimal_point p (Some m) (f row) true SQL_SUCCESS;
     match n with
     | Finish result => mret result
     | Quote _ => text ← lift (text_of (Some m) (f row)); insert_literal uninitialised real_escape_string no_backslashes options false p text;; mret SQL_SUCCESS
     end).
Proof.
  intros Hi Ho H0 Hd Hc Ht. unfold insert_param. rewrite (bytes_given p row (Bytes m) f) by (done || by intros E; rewrite E in Hc).
  cbn [mbind M_bind mret M_ret]. rewrite no_check; [|done|by unfold is_char_or_binary in Hc; apply orb_true_iff in Hc as [->%Z.eqb_eq| ->%Z.eqb_eq]].
  unfold is_char_or_binary in Hc. rewrite orb_comm in Hc. rewrite Hc. done.
Qed.

Context (escaped_length : ∀ s, (length (real_escape_string s) <= length s * 2)%nat).

(** ** Bytes in hexadecimal digits *)

Lemma length_hex_text s : length (hex_text s) = (length s * 2)%nat.
Proof. induction s as [|c s IH]; [done|]. change (hex_text (c :: s)) with (hex c ++ hex_text s). rewrite length_app, IH. done. Qed.

(** The digits of a binary parameter begin at the place that the last one has left. *)
Lemma insert_hex (p : param float) text n i off :
  max_length options = 0 → retrieve_data options = true → no_backslashes = true → i_concise_type p ∈ binary_types →
  Z.of_nat (length text) < 2 ^ 62 → ready n i → src_offset (getdata i) = Z.of_nat off → (off <= length text)%nat ∨ Z.of_nat off < unset →
  (length (content (tempbuf i)) + 4 + length text * 2 <= n)%nat →
  ∃ i', insert_literal uninitialised real_escape_string no_backslashes options false p text i = (Ok tt, i') ∧ ready n i' ∧
    content (tempbuf i') = content (tempbuf i) ++ S!" 0x" ++ hex_text (skipn off text) ∧
    src_offset (getdata i') = Z.of_nat (Nat.max off (length text)) ∧ err i' = err i.
Proof.
  intros Hmax Hret Hnb Hty Hlen Hi Hoff Hun Hroom. unfold insert_literal.
  destruct (appends_bound n i Hi) as (i1 & E1 & _); [cbn; lia|]. assert (i1 = i) as -> by (unfold is_bound, gets in E1; congruence).
  unfold mbind at 1, M_bind at 1. rewrite E1. cbn [andb]. rewrite Hnb. unfold is_binary_sql_type. rewrite bool_decide_true by done. cbn [andb].
  destruct (appends_add (S!" 0x") n i Hi) as (i2 & E2 & Hi2 & Hc2 & Hg2 & He2); [change (length (S!" 0x")) with 3%nat; lia|].
  unfold mbind at 1, M_bind at 1. rewrite E2. unfold mbind at 1, M_bind at 1, get at 1. destruct Hi2 as (Hin2 & Hn2 & Hb2).
  destruct (extend_buffer_spec uninitialised (length text * 2) (tempbuf i2) Hin2) as (b1 & E3 & Hin3 & Hc3 & Hp3 & _ & Hmore).
  unfold mbind at 1, M_bind at 1, lift at 1. rewrite E3. cbv beta iota. rewrite Hg2.
  assert (length (content (tempbuf i2)) = (length (content (tempbuf i)) + 3)%nat) as Hl2 by (rewrite Hc2, length_app; done).
  rewrite length_content in Hl2 by done.
  assert (∃ x g, copy_binhex_result 1 options true (Z.of_nat (length text) * 2 + 1) true text (getdata i) = Ok (x, g) ∧
    src_offset g = Z.of_nat (Nat.max off (length text)) ∧ (Z.to_nat (default 0%Z (avail x)) <= length (default [] (written x)))%nat ∧
    (length (default [] (written x)) <= length text * 2 + 1)%nat ∧
    firstn (Z.to_nat (default 0 (avail x))) (default [] (written x)) = hex_text (skipn off text)) as (x & g & Ex & Hgo & Hav & Hwr & Htx).
  { unfold copy_binhex_result. rewrite Hmax, Hret, Hoff. change (negb (0 =? 0)) with false. cbn iota.
    rewrite (proj2 (Z.eqb_neq (Z.of_nat off) unset)) by (assert (2 ^ 62 < unset) by reflexivity; lia). cbn [negb andb].
    destruct (Z.leb_spec (Z.of_nat (length text)) (Z.of_nat off)) as [Hle|Hgt].
    - eexists _, _. split; [done|]. cbn. rewrite Nat.max_l by lia. split; [done|]. split; [lia|]. split; [lia|]. by rewrite skipn_all2 by lia.
    - rewrite (proj2 (Z.eqb_neq (Z.of_nat (length text) * 2 + 1) 0)) by lia. cbn [negb andb].
      assert (to_ulong (Z.of_nat (length text) * 2 + 1 - 1) / 2 = Z.of_nat (length text)) as ->.
      { unfold to_ulong. rewrite Z.mod_small by lia. replace (Z.of_nat (length text) * 2 + 1 - 1) with (Z.of_nat (length text) * 2) by lia. by rewrite Z.div_mul. }
      rewrite Z.min_l by lia. unfold read_bytes. rewrite (proj2 (Z.leb_le 0 (Z.of_nat off))), (proj2 (Z.leb_le _ (Z.of_nat (length text)))) by lia.
      cbn [andb mbind res_bind]. rewrite Nat2Z.id. assert (firstn (Z.to_nat (Z.of_nat (length text) - Z.of_nat off)) (skipn off text) = skipn off text) as ->.
      { apply firstn_all2. rewrite length_skipn. lia. }
      eexists _, _. split; [done|]. cbn [src_offset set_src_offset avail written default from_option id]. rewrite Nat.max_r by lia.
      split; [lia|].
      rewrite length_app, length_hex_text, length_skipn. change (length [Ascii.zero]) with 1%nat. split; [lia|]. split; [lia|].
      rewrite take_app_le by (rewrite length_hex_text, length_skipn; lia). apply firstn_all2. rewrite length_hex_text, length_skipn. lia. }
  unfold mbind at 1, M_bind at 1, lift at 1. rewrite Ex. cbv beta iota.
  destruct (write_end_fits (default [] (written x)) (Z.to_nat (default 0 (avail x))) b1) as (b2 & E4 & Hin4 & Hc4 & Hl4); [done|lia|done|].
  unfold mbind at 1, M_bind at 1, lift at 1. rewrite E4. cbv beta iota. eexists. split; [reflexivity|]. cbn [tempbuf bind getdata err set_tempbuf set_getdata].
  split; [split; [done|]; split; [cbn; unfold buf_len in *; cbn; lia|done]|]. split; [|split; [done|by rewrite He2]].
  rewrite Hc4, Hc3, Hc2, Htx, <- app_assoc. done.
Qed.

(** ** Numbers as text *)

Lemma fix_number_verbatim fuel s : Forall (λ c, c ≠ ","%char) s → (length s <= fuel)%nat → fix_number (S!",") (S!".") fuel (length s) s = s.
Proof.
  revert fuel. induction s as [|c s IH]; intros fuel Hs Hf; [by destruct fuel|]. apply Forall_cons in Hs as [Hc Hs].
  destruct fuel as [|fuel]; cbn [length] in Hf; [lia|]. cbn [fix_number length].
  change (starts_with (S!",") (c :: s)) with (bool_decide (","%char = c) && true). rewrite (bool_decide_false (","%char = c)) by congruence.
  change (starts_with (S!".") (c :: s)) with (bool_decide ("."%char = c) && true).
  change (bool_decide (S!"," = [])) with false. change (bool_decide (S!"." = [])) with false. cbn [andb negb].
  destruct (decide ("."%char = c)) as [<-|]; [rewrite bool_decide_true by done|rewrite (bool_decide_false ("."%char = c)) by done]; cbn [andb].
  - change (skipn (length (S!".")) ("."%char :: s)) with s. replace (S (length s) - length (S!"."))%nat with (length s) by (cbn; lia).
    by rewrite IH by (done || lia).
  - replace (S (length s) - 1)%nat with (length s) by lia. by rewrite IH by (done || lia).
Qed.
Lemma binary_type_apart ty : ty ∈ binary_types →
  bool_decide (ty ∈ [SQL_C_DATE; SQL_C_TYPE_DATE; SQL_C_TYPE_TIMESTAMP; SQL_C_TIMESTAMP]) = false ∧ bool_decide (ty ∈ binary_types) = true.
Proof.
  unfold binary_types. intros H. repeat (apply elem_of_cons in H as [-> |H]; [by split; vm_compute|]). by apply elem_of_nil in H.
Qed.

Lemma time_type_apart ty : ty ∈ [SQL_C_TIME; SQL_C_TYPE_TIME] →
  bool_decide (ty ∈ [SQL_C_DATE; SQL_C_TYPE_DATE; SQL_C_TYPE_TIMESTAMP; SQL_C_TIMESTAMP]) = false ∧ bool_decide (ty ∈ binary_types) = false ∧
  bool_decide (ty ∈ char_types) = false ∧ bool_decide (ty ∈ [hour_to_minute; hour_to_second]) = false.
Proof. intros H. repeat (apply elem_of_cons in H as [-> |H]; [by vm_compute|]). by apply elem_of_nil in H. Qed.

Lemma float_type_apart ty : ty ∈ [SQL_FLOAT; SQL_REAL; SQL_DOUBLE] →
  bool_decide (ty ∈ [SQL_C_DATE; SQL_C_TYPE_DATE; SQL_C_TYPE_TIMESTAMP; SQL_C_TIMESTAMP]) = false ∧ bool_decide (ty ∈ binary_types) = false ∧
  bool_decide (ty ∈ char_types) = false ∧ bool_decide (ty ∈ [hour_to_minute; hour_to_second]) = false ∧
  bool_decide (ty ∈ [SQL_C_TIME; SQL_C_TYPE_TIME]) = false ∧ bool_decide (ty ∈ [SQL_BIT]) = false.
Proof. intros H. repeat (apply elem_of_cons in H as [-> |H]; [by vm_compute|]). by apply elem_of_nil in H. Qed.

(** A parameter of characters or bytes, all of [m]. *)
Definition given_bytes (p : param float) (row : nat) (m : str) : Prop :=
  not_null p row ∧ (∃ f, octet_length_ptr p = Some f ∧ f row = Z.of_nat (length m)) ∧ cell p row = Some (Bytes m) ∧
  is_char_or_binary (a_concise_type p) = true ∧ (a_type p =? SQL_DATETIME) || (a_type p =? SQL_INTERVAL) = false.

Lemma insert_given_bytes (p : param float) row m : given_bytes p row m →
  insert p row =
    (n ← insert_by_type uninitialised cxn_charset ansi_charset NO_DATE_OVERFLOW NO_LOCALE thousands_sep decimal_point p (Some m)
           (Z.of_nat (length m)) true SQL_SUCCESS;
     match n with
     | Finish result => mret result
     | Quote _ => text ← lift (text_of (Some m) (Z.of_nat (length m)));
                  insert_literal uninitialised real_escape_string no_backslashes options false p text;; mret SQL_SUCCESS
     end).
Proof. intros (Hi & (f & Ho & Hf) & Hd & Hc & Ht). rewrite <- Hf. apply insert_bytes_start; try done. rewrite Hf. lia. Qed.

Lemma insert_binary_parameter (p : param float) row m n i off : given_bytes p row m → i_concise_type p ∈ binary_types →
  cxn_charset = ansi_charset → max_length options = 0 → retrieve_data options = true → no_backslashes = true →
  Z.of_nat (length m) < 2 ^ 62 → ready n i → src_offset (getdata i) = Z.of_nat off → Z.of_nat off < 2 ^ 62 →
  (length (content (tempbuf i)) + 4 + length m * 2 <= n)%nat →
  ∃ i', insert p row i = (Ok SQL_SUCCESS, i') ∧ ready n i' ∧
    content (tempbuf i') = content (tempbuf i) ++ S!" 0x" ++ hex_text (skipn off m) ∧
    src_offset (getdata i') = Z.of_nat (Nat.max off (length m)) ∧ err i' = err i.
Proof.
  intros Hp Hty Hcs Hmax Hret Hnb Hlen Hi Hoff Hun Hroom. rewrite (insert_given_bytes p row m Hp).
  destruct (insert_hex p m n i off Hmax Hret Hnb Hty Hlen Hi Hoff) as (i' & E & H); [right; assert (2 ^ 62 < unset) by reflexivity; lia|done|].
  exists i'. split; [|exact H]. assert (is_bound i = (Ok false, i)) as Eb by (unfold is_bound, gets; by destruct Hi as (_ & _ & ->)).
  rewrite (bind_Ok _ _ i (Quote true) i).
  - rewrite (bind_Ok _ _ i m i) by (unfold lift; by rewrite text_of_all). by rewrite (bind_Ok _ _ i tt i' E).
  - unfold insert_by_type, insert_binary. destruct (binary_type_apart _ Hty) as [-> ->]. cbv zeta. rewrite (bind_Ok _ _ i false i Eb).
    rewrite (bind_Ok _ _ i false i Eb). by rewrite (proj2 (Z.eqb_eq _ _) Hcs).
Qed.

(** Text for a type of floating point is not quoted. *)
Lemma insert_number_text (p : param float) row m n i : given_bytes p row m → i_concise_type p ∈ [SQL_FLOAT; SQL_REAL; SQL_DOUBLE] → NO_LOCALE = false →
  m ≠ [] → Forall (λ c, c ≠ ","%char) m → Ascii.zero ∉ m → ready n i → (length (content (tempbuf i)) + length m <= n)%nat →
  if bool_decide (length m <= 128)%nat then
    ∃ i', insert p row i = (Ok SQL_SUCCESS, i') ∧ ready n i' ∧ content (tempbuf i') = content (tempbuf i) ++ m
  else (insert p row i).1 = UB.
Proof.
  intros Hp Hty Hloc Hne Hcomma Hnul Hi Hroom. rewrite (insert_given_bytes p row m Hp).
  destruct (float_type_apart _ Hty) as (H1 & H2 & H3 & H4 & H5 & H6). unfold insert_by_type. cbv zeta. rewrite H1, H2, H3, H4, H5, H6.
  rewrite (bool_decide_true (i_concise_type p ∈ _)) by done. rewrite text_of_all, Hloc.
  assert (c_str m = m) as Hcm.
  { clear -Hnul. induction m as [|c m IH]; [done|]. apply not_elem_of_cons in Hnul as [Hc Hm]. cbn. rewrite bool_decide_false by congruence. by rewrite IH. }
  assert (fix_number (S!",") (S!".") (length m) (length m) m = m) as Hfix by (by apply fix_number_verbatim).
  assert (is_bound i = (Ok false, i)) as Eb by (unfold is_bound, gets; by destruct Hi as (_ & _ & ->)).
  destruct (decide (length m <= 128)%nat) as [Hle|Hgt].
  - rewrite bool_decide_true by done. destruct (appends_put m n i Hi Hroom) as (i' & E & Hi' & Hc & _). exists i'. split; [|done].
    rewrite (bind_Ok _ _ i (Finish SQL_SUCCESS) i'); [done|]. rewrite (bind_Ok _ _ i false i Eb), (bind_Ok _ _ i m i) by done. cbv zeta.
    rewrite Hcm, Hfix. rewrite (bool_decide_false (128 < length m)%nat) by lia. rewrite (bool_decide_false (m = [])) by done.
    by rewrite (bind_Ok _ _ i tt i' E).
  - rewrite bool_decide_false by done. unfold mbind at 1, M_bind at 1. rewrite (bind_Ok _ _ i false i Eb), (bind_Ok _ _ i m i) by done. cbv zeta.
    rewrite Hcm, Hfix. by rewrite (bool_decide_true (128 < length m)%nat) by lia.
Qed.

(** A time as text. *)
Lemma insert_time_text (p : param float) row hs ms ss : given_bytes p row (hs ++ ":" ++ ms ++ ":" ++ ss) → i_concise_type p ∈ [SQL_C_TIME; SQL_C_TYPE_TIME] →
  digits hs → digits ms → digits ss → hs ≠ [] → ms ≠ [] → ss ≠ [] → number hs < 24 → number ms < 100 → number ss < 100 →
  appends (insert p row) SQL_SUCCESS ("'" ++ clock (number hs) (number ms) (number ss) ++ "'").
Proof.
  intros Hp Hty Hh Hm Hs Nh Nm Ns Bh Bm Bs. rewrite (insert_given_bytes p row _ Hp). set (m := hs ++ ":" ++ ms ++ ":" ++ ss) in *.
  pose proof (number_bound hs Hh) as [Zh _]. pose proof (number_bound ms Hm) as [Zm _]. pose proof (number_bound ss Hs) as [Zs _].
  assert (Forall (λ c, is_digit c = true ∨ c = ":"%char) m) as Hall.
  { subst m. assert (∀ l, digits l → Forall (λ c, is_digit c = true ∨ c = ":"%char) l) as Hl by (intros l Hl; eapply Forall_impl; [exact Hl|by left]).
    assert (Forall (λ c, is_digit c = true ∨ c = ":"%char) (S!":")) as Hcol by (constructor; [by right|constructor]).
    rewrite !Forall_app. split; [by apply Hl|]. split; [exact Hcol|]. split; [by apply Hl|]. split; [exact Hcol|by apply Hl]. }
  assert (a_concise_type p = 1 ∨ a_concise_type p = -2) as Hcc.
  { destruct Hp as (_ & _ & _ & Hc & _). unfold is_char_or_binary in Hc. apply orb_true_iff in Hc as [->%Z.eqb_eq| ->%Z.eqb_eq]; [by left|by right]. }
  destruct (time_type_apart _ Hty) as (H1 & H2 & H3 & H4). unfold insert_by_type. cbv zeta. rewrite H1, H2, H3, H4, (bool_decide_true (i_concise_type p ∈ _)) by done.
  eapply (appends_after _ _ (Finish SQL_SUCCESS)); [|apply appends_ret]. eapply appends_before; [apply appends_bound|]. unfold insert_time.
  eapply appends_before; [apply appends_bound|]. cbv zeta iota.
  assert ((a_concise_type p =? SQL_C_TIMESTAMP) || (a_concise_type p =? SQL_C_TYPE_TIMESTAMP) = false) as -> by (by destruct Hcc as [-> | ->]).
  eapply (appends_before _ _ m); [apply appends_ret|].
  assert (c_str m = m) as ->.
  { clearbody m. clear -Hall. induction Hall as [|c l Hc Hl IH]; [done|]. cbn. rewrite bool_decide_false by (intros ->; by destruct Hc). by rewrite IH. }
  assert ((get_fractional_part [] m (Z.of_nat (length m)) true).2 = 0) as ->.
  { unfold get_fractional_part. rewrite (proj2 (Z.ltb_ge _ 0)) by lia. rewrite find_no_point; [done|]. eapply Forall_impl; [exact Hall|].
    intros c Hc ->. by destruct Hc. }
  change (negb (0 =? 0)) with false. cbv iota. eapply appends_before; [apply appends_lift, text_of_all|].
  eapply appends_before; [apply appends_lift, three_numbers; done || lia|]. cbv zeta.
  set (t := number hs * 10000 + (number ms * 100 + number ss)). assert (0 ≤ t < 240000) as Ht by lia.
  assert (∀ z, 0 ≤ z < 240000 → to_int32 z = z) as Hi32.
  { intros z Hz. unfold to_int32. rewrite Z.mod_small by lia. cbv zeta. by rewrite (proj2 (Z.ltb_lt z (2 ^ 31))) by lia. }
  assert (t / 10000 = number hs) as Eh by (symmetry; apply (Z.div_unique t 10000 _ (number ms * 100 + number ss)); lia).
  assert (t / 100 = number hs * 100 + number ms) as Ehm by (symmetry; apply (Z.div_unique t 100 _ (number ss)); lia).
  rewrite Eh, (Hi32 (number hs)), (Hi32 t) by lia. rewrite (proj2 (Z.ltb_ge 23 _)) by lia.
  rewrite Z.quot_div_nonneg, !Z.rem_mod_nonneg, Ehm by lia.
  assert ((number hs * 100 + number ms) mod 100 = number ms) as -> by (rewrite Z.add_comm, Z.mod_add, Z.mod_small; lia).
  assert (t mod 100 = number ss) as -> by (subst t; rewrite (Z.mod_eq _ 100), Ehm by lia; lia).
  eapply (appends_after _ _ tt); [apply appends_put|apply appends_ret].
Qed.

(** The types for which text is written in quotes: those of characters, and of whole and
    exact numbers. *)
Definition quoted_types : list Z := char_types ++ [4; 5; -5; -6; 2; 3].

Lemma quoted_not_binary ty : ty ∈ quoted_types → is_binary_sql_type ty = false.
Proof.
  intros [Hty|Hty]%elem_of_app; unfold is_binary_sql_type; [by apply char_type_apart|by apply number_type_apart].
Qed.

Lemma insert_by_type_quoted (p : param float) m len : i_concise_type p ∈ quoted_types →
  appends (insert_by_type uninitialised cxn_charset ansi_charset NO_DATE_OVERFLOW NO_LOCALE thousands_sep decimal_point p m len true SQL_SUCCESS) (Quote true) [].
Proof.
  intros [Hty|Hty]%elem_of_app; unfold insert_by_type; cbv zeta; (eapply appends_before; [apply appends_bound|]).
  - destruct (char_type_apart _ Hty) as [-> ->]. rewrite (bool_decide_true (i_concise_type p ∈ char_types)) by done. apply appends_ret.
  - destruct (number_type_apart _ Hty) as (-> & -> & -> & -> & -> & -> & ->). apply appends_ret.
Qed.

(** ** What is inserted for a parameter, all in all *)

(** The parameters whose text is told here, and that text: nothing, text for a type of
    characters or of whole or exact numbers, integers for a type without a case of its own, and
    times as text. *)
Inductive inserted (p : param float) (row : nat) : str → Prop :=
  | Inserted_null f : indicator_ptr p = Some f → f row = SQL_NULL_DATA → inserted p row (S!"NULL")
  | Inserted_default f : not_null p row → octet_length_ptr p = Some f → f row = SQL_COLUMN_IGNORE →
      inserted p row (S!"DEFAULT")
  | Inserted_text m f : not_null p row → octet_length_ptr p = Some f →
      0 ≤ f row ≤ Z.of_nat (length m) → cell p row = Some (Bytes m) → is_char_or_binary (a_concise_type p) = true →
      (a_type p =? SQL_DATETIME) || (a_type p =? SQL_INTERVAL) = false → i_concise_type p ∈ quoted_types →
      inserted p row (literal (firstn (Z.to_nat (f row)) m))
  | Inserted_integer z : not_null p row → integer_ends p row z →
      cell p row = Some (Integer z) → a_concise_type p ∈ [4; -16; -18; -25; -27; 5; -15; -17] →
      (a_type p =? SQL_DATETIME) || (a_type p =? SQL_INTERVAL) = false → i_concise_type p ∈ [4; 5; -5; -6; 2; 3] →
      inserted p row (to_string z)
  | Inserted_time hs ms ss : given_bytes p row (hs ++ ":" ++ ms ++ ":" ++ ss) → i_concise_type p ∈ [SQL_C_TIME; SQL_C_TYPE_TIME] →
      digits hs → digits ms → digits ss → hs ≠ [] → ms ≠ [] → ss ≠ [] → number hs < 24 → number ms < 100 → number ss < 100 →
      inserted p row ("'" ++ clock (number hs) (number ms) (number ss) ++ "'").

Lemma insert_text (p : param float) row t : inserted p row t → appends (insert p row) SQL_SUCCESS t.
Proof.
  intros H. destruct H as [f Hi Hn|f Hi Ho Hf|m f Hi Ho Hf Hd Hc Ht Hty|z Hi Ho Hd Hc Ht Hty|hs ms ss Hp Hty Hh Hm Hs Nh Nm Ns Bh Bm Bs].
  - unfold insert_param, param_data. rewrite Hi. cbn [fmap option_fmap option_map]. rewrite bool_decide_true by (by rewrite Hn).
    eapply (appends_after _ _ None); [|apply appends_ret]. eapply (appends_after _ _ tt); [|apply appends_ret].
    unfold put_null_param. apply appends_unbound. intros i ->. apply appends_add.
  - unfold insert_param, param_data. rewrite not_null_data, Ho by done. cbn [fmap option_fmap option_map]. rewrite Hf. cbn [Z.eqb SQL_COLUMN_IGNORE Pos.eqb orb].
    eapply (appends_after _ _ None); [|apply appends_ret]. eapply (appends_after _ _ tt); [|apply appends_ret].
    unfold put_default_value. apply appends_unbound. intros i ->. apply appends_add.
  - rewrite (insert_bytes_start p row m f) by (done || lia).
    eapply (appends_before _ _ (Quote true)).
    + by apply insert_by_type_quoted.
    + assert (text_of (Some m) (f row) = Ok (firstn (Z.to_nat (f row)) m)) as Etext.
      { unfold text_of. rewrite (proj2 (Z.leb_le 0 _)), (proj2 (Z.leb_le _ _)) by lia. cbn [andb]. by rewrite take_app_le by lia. }
      cbv beta iota. eapply appends_before; [apply (appends_lift _ _ Etext)|]. unfold literal.
      eapply appends_after; [|apply appends_ret]. apply appends_literal; [apply escaped_length|].
      apply andb_false_iff. right. by apply quoted_not_binary.
  - unfold insert_param. destruct (integer_type_apart _ Hc) as (Hna & Hnc & Hdef). destruct (number_type_apart _ Hty) as (H1 & H2 & H3 & H4 & H5 & H6 & H7).
    destruct (integer_given p row z Hi Hd Ho) as [l ->]; [done|].
    eapply appends_before; [apply appends_ret|]. rewrite no_check by done. eapply appends_before; [apply appends_ret|].
    change (bool_decide (SQL_SUCCESS = SQL_ERROR)) with false. cbv iota zeta. rewrite Hnc.
    eapply (appends_before _ _ (SQL_SUCCESS, Some (to_string z), Z.of_nat (length (to_string z)))).
    { eapply (appends_before _ _ (SQL_SUCCESS, Some (to_string z))); apply appends_ret. }
    cbv beta iota. change (bool_decide (SQL_SUCCESS = SQL_ERROR)) with false. cbv iota.
    eapply (appends_after _ _ (Finish SQL_SUCCESS)); [|apply appends_ret]. unfold insert_by_type.
    eapply appends_before; [apply appends_bound|]. cbv zeta. rewrite H1, H2, H3, H4, H5, H6, H7.
    eapply appends_before; [apply appends_lift, text_of_all|]. eapply (appends_after _ _ tt); [apply appends_put|apply appends_ret].
  - by apply insert_time_text.
Qed.

Lemma to_string_not_nil z : to_string z ≠ [].
Proof.
  assert (∀ m, N_to_string m ≠ []) as H; [|by destruct z; [apply H|apply H|]].
  intros m. unfold N_to_string. cbn [pos_digits]. destruct (_ <? 10)%N; [done|]. rewrite pos_digits_app. intros [_ ?]%app_eq_nil. done.
Qed.

(** What is inserted does not end in a null character. *)
Lemma inserted_last (p : param float) row t : inserted p row t → ∃ u c, t = u ++ [c] ∧ c ≠ Ascii.zero.
Proof.
  intros [f _ _|f _ _ _|m f _ _ _ _ _ _ _|z _ _ _ _ _ _|hs ms ss _ _ _ _ _ _ _ _ _ _ _].
  - by exists (S!"NUL"), "L"%char.
  - by exists (S!"DEFAUL"), "T"%char.
  - exists (S!"'" ++ real_escape_string (take (Z.to_nat (f row)) m)), "'"%char. by rewrite <- app_assoc.
  - pose proof (to_string_chars z) as Hc. pose proof (to_string_not_nil z) as Hn. destruct (exists_last Hn) as (u & c & E). exists u, c. split; [done|].
    rewrite E, Forall_app in Hc. destruct Hc as [_ Hc%Forall_inv]. intros ->. by destruct Hc.
  - eexists (S!"'" ++ _), "'"%char. by rewrite <- app_assoc.
Qed.

(** ** The final query *)

Notation "'insert_all'" := (insert_each d2str uninitialised object_bytes stack room real_escape_string cxn_charset ansi_charset NO_DATE_OVERFLOW
  MIN_DATE_TO_ZERO NO_LOCALE thousands_sep decimal_point no_backslashes utf8mb4 options false false).

(** The query from a place on, with texts in the places of markers. *)
Fixpoint spliced (query : str) (from : nat) (places : list nat) (ts : list str) : str :=
  match places, ts with
  | place :: places, t :: ts => firstn (place - from) (skipn from query) ++ t ++ spliced query (S place) places ts
  | _, _ => skipn from query
  end.

(** Markers that were given parameters with these texts, in ascending places. *)
Definition marks (row : nat) (m : marker) (t : str) : Prop :=
  ∃ p, given m = Some p ∧ real_param_done m = true ∧ inserted p row t.

Fixpoint ascending (from : nat) (ps : list (marker (float := float))) : Prop :=
  match ps with [] => True | m :: ps => (from <= place m)%nat ∧ ascending (S (place m)) ps end.

Lemma insert_each_text dummy query row from ps ts :
  Forall2 (marks row) ps ts → ascending from ps →
  ∃ last bs t, appends (insert_all dummy query row from false ps) (SQL_SUCCESS, last, false, bs) t ∧
    t ++ skipn last query = spliced query from (place <$> ps) ts.
Proof.
  intros H. revert from. induction H as [|m t ps ts (p & Hg & Hd & Hp) H IH]; intros from Ha.
  { exists from, [], []. split; [apply appends_ret|done]. }
  destruct Ha as [Hfrom Ha]. destruct (IH _ Ha) as (last & bs & t' & Happ & Ht). clear IH. pose proof (insert_text p row t Hp) as Hins.
  exists last, (None :: bs), (firstn (place m - from) (skipn from query) ++ t ++ t').
  split; [|cbn [fmap list_fmap spliced]; by rewrite <- Ht, <- !app_assoc]. cbn [insert_each]. rewrite Hg, Hd.
  rewrite (bool_decide_true (is_Some (Some p))) by done. cbn [andb]. rewrite orb_true_r.
  eapply (appends_before _ _ p); [apply appends_ret|]. eapply (appends_bind _ _ tt).
  { rewrite bool_decide_false by lia. eapply (appends_before _ _ tt); [|apply appends_add].
    intros n i (Hin & Hn & Hb) _. exists i. rewrite app_nil_r. split; [|by repeat split]. unfold modify. destruct i. cbn in Hb. subst. done. }
  eapply appends_bind; [exact Hins|]. eapply (appends_before _ _ None).
  { intros n i Hi _. exists i. rewrite app_nil_r. destruct Hi as (? & ? & Hb). unfold gets. by rewrite Hb. }
  change (bool_decide (SQL_SUCCESS = SQL_ERROR)) with false. change (false || bool_decide (SQL_SUCCESS = SQL_SUCCESS_WITH_INFO)) with false. cbv iota.
  eapply appends_after; [exact Happ|]. apply appends_ret.
Qed.

(** The final query, behind what is in the buffer. *)
Lemma insert_params_text dummy query row ps ts n i : Forall2 (marks row) ps ts → ascending 0 ps →
  let text := spliced query 0 (place <$> ps) ts in ready n i → (length (content (tempbuf i)) + length text <= n)%nat →
  ∃ bs i', insert_params d2str uninitialised object_bytes stack room real_escape_string cxn_charset ansi_charset NO_DATE_OVERFLOW MIN_DATE_TO_ZERO
    NO_LOCALE thousands_sep decimal_point no_backslashes utf8mb4 options false false dummy query row ps i =
      (Ok (SQL_SUCCESS, Some (content (tempbuf i) ++ text), bs), i') ∧
    ready n i' ∧ content (tempbuf i') = content (tempbuf i) ++ text ∧ getdata i' = getdata i ∧ err i' = err i.
Proof.
  intros Hps Ha text Hi Hsize. subst text. destruct (insert_each_text dummy query row 0 ps ts Hps Ha) as (last & bs & t & Happ & Ht).
  rewrite <- Ht in Hsize |- *. rewrite length_app in Hsize. destruct (Happ n i Hi) as (i1 & E1 & Hi1 & Hc1 & Hg1 & He1); [lia|].
  destruct (appends_add (skipn last query) n i1 Hi1) as (i2 & E2 & Hi2 & Hc2 & Hg2 & He2); [rewrite Hc1, length_app; lia|].
  exists bs, i2. split; [|split; [done|split; [by rewrite Hc2, Hc1, <- app_assoc|by rewrite Hg2, Hg1, He2, He1]]].
  unfold insert_params, mbind, M_bind. unfold mbind, M_bind in E1. rewrite E1. cbv beta iota.
  change (bool_decide (SQL_SUCCESS = SQL_ERROR)) with false. cbv iota beta zeta. rewrite E2. unfold gets. cbv iota. by rewrite Hc2, Hc1, <- app_assoc.
Qed.
End Text.

(** C18: The final query, for a statement the driver puts together.  Let each marker have a
    parameter that is null, or to be ignored, or characters or bytes given with their length
    for a type of characters or of whole or exact numbers, or a time as text given with its length for a type of times, or
    an integer for a type of whole or exact numbers, with its length or with a zero byte in it
    (without a pointer to the length the driver looks for the end of a text in every integer,
    and reads behind one that has no zero byte).  Then the query that is sent is the one of the
    application with the text of the parameter in the place of each marker: [NULL], [DEFAULT],
    the escaped text in quotes, the time in quotes, or the digits.  It is enough that the
    buffer has room for it, and that escaping at most doubles the length. *)
Theorem insert_params_spec {float : Type} (d2str : float → bool → str) uninitialised object_bytes stack room real_escape_string cxn_charset ansi_charset
    NO_DATE_OVERFLOW MIN_DATE_TO_ZERO NO_LOCALE thousands_sep decimal_point no_backslashes utf8mb4 options dummy query row ps ts size g :
  (∀ s, (length (real_escape_string s) <= length s * 2)%nat) →
  Forall2 (marks real_escape_string row) ps ts → ascending 0 ps →
  let text := spliced query 0 (place <$> ps) ts in
  (length text <= size)%nat →
  ∃ bs i', insert_params d2str uninitialised object_bytes stack room real_escape_string cxn_charset ansi_charset NO_DATE_OVERFLOW MIN_DATE_TO_ZERO
    NO_LOCALE thousands_sep decimal_point no_backslashes utf8mb4 options false false dummy query row ps
    (Insertion (new_tempBuf uninitialised size) None g None) = (Ok (SQL_SUCCESS, Some text, bs), i') ∧ getdata i' = g ∧ err i' = None.
Proof.
  intros Hesc Hps Ha text Hsize. set (i0 := Insertion _ None g None). assert (ready size i0) as Hi0.
  { unfold ready, in_memory, buf_len. cbn. rewrite length_new_memory. split; [lia|done]. }
  destruct (insert_params_text d2str uninitialised object_bytes stack room real_escape_string cxn_charset ansi_charset NO_DATE_OVERFLOW MIN_DATE_TO_ZERO
    NO_LOCALE thousands_sep decimal_point no_backslashes utf8mb4 options Hesc dummy query row ps ts size i0 Hps Ha Hi0) as (bs & i1 & E & _ & _ & Hg & He); [exact Hsize|].
  exists bs, i1. by rewrite E.
Qed.

(** C19: Binary parameters without backslashes.  When the server does without backslash escapes, binary parameters
    are written as hexadecimal digits, from the place in a column that was left by the one
    before: of the second parameter of a new statement only the bytes behind the length
    of the first are sent. *)
Theorem binary_parameters {float : Type} (d2str : float → bool → str) uninitialised object_bytes stack room real_escape_string charset
    NO_DATE_OVERFLOW MIN_DATE_TO_ZERO NO_LOCALE thousands_sep decimal_point utf8mb4 (p1 p2 : param float) row (m1 m2 : str) size :
  given_bytes p1 row m1 → given_bytes p2 row m2 → i_concise_type p1 ∈ binary_types → i_concise_type p2 ∈ binary_types →
  Z.of_nat (length m1) < 2 ^ 61 → Z.of_nat (length m2) < 2 ^ 61 → (8 + length m1 * 2 + length m2 * 2 <= size)%nat →
  let insert := insert_param d2str uninitialised object_bytes stack room real_escape_string charset charset NO_DATE_OVERFLOW MIN_DATE_TO_ZERO
    NO_LOCALE thousands_sep decimal_point true utf8mb4 (Options 0 true) false false in
  let new_getdata := GetData None [] 0 0 0 0 0 in
  ∃ i', (insert p1 row;; insert p2 row) (Insertion (new_tempBuf uninitialised size) None new_getdata None) = (Ok SQL_SUCCESS, i') ∧
    content (tempbuf i') = S!" 0x" ++ hex_text m1 ++ S!" 0x" ++ hex_text (skipn (length m1) m2) ∧ err i' = None.
Proof.
  intros H1 H2 T1 T2 L1 L2 Hsize insert g0. set (i0 := Insertion _ None g0 None). assert (ready size i0) as Hi0.
  { unfold ready, in_memory, buf_len. cbn. rewrite length_new_memory. split; [lia|done]. }
  assert (content (tempbuf i0) = []) as Hc0 by done. assert (length (@nil ascii) = 0%nat) as Hnil by done.
  destruct (insert_binary_parameter d2str uninitialised object_bytes stack room real_escape_string charset charset NO_DATE_OVERFLOW MIN_DATE_TO_ZERO
    NO_LOCALE thousands_sep decimal_point true utf8mb4 (Options 0 true) p1 row m1 size i0 0) as (i1 & E1 & Hi1 & Hc1 & Ho1 & He1);
    [done..|lia|done|done|done|rewrite Hc0; lia|]. rewrite Hc0 in Hc1. cbn [app] in Hc1.
  assert (length (content (tempbuf i1)) = (3 + length m1 * 2)%nat) as Hl1 by (rewrite Hc1, length_app, length_hex_text; done).
  destruct (insert_binary_parameter d2str uninitialised object_bytes stack room real_escape_string charset charset NO_DATE_OVERFLOW MIN_DATE_TO_ZERO
    NO_LOCALE thousands_sep decimal_point true utf8mb4 (Options 0 true) p2 row m2 size i1 (length m1)) as (i2 & E2 & Hi2 & Hc2 & Ho2 & He2);
    [done..|lia|done|exact Ho1|lia|rewrite Hl1; lia|].
  exists i2. split; [|split; [|by rewrite He2, He1]].
  - unfold insert. rewrite (bind_Ok _ _ i0 SQL_SUCCESS i1 E1). exact E2.
  - rewrite Hc2, Hc1, <- app_assoc. done.
Qed.

(** Numbers as text.  Text for a parameter of a floating point type is put into the query as it
    is, without quotes or escapes, whatever it says: an application that passes on
    what it was given lets the query be changed.  Text of more than 128 bytes is written behind
    the buffer on the stack. *)
Theorem number_parameter_verbatim {float : Type} (d2str : float → bool → str) uninitialised object_bytes stack room real_escape_string cxn_charset ansi_charset
    NO_DATE_OVERFLOW MIN_DATE_TO_ZERO thousands_sep decimal_point no_backslashes utf8mb4 options (p : param float) row (m : str) n i :
  given_bytes p row m → i_concise_type p ∈ [SQL_FLOAT; SQL_REAL; SQL_DOUBLE] → m ≠ [] → Forall (λ c, c ≠ ","%char) m → Ascii.zero ∉ m →
  ready n i → (length (content (tempbuf i)) + length m <= n)%nat →
  let r := insert_param d2str uninitialised object_bytes stack room real_escape_string cxn_charset ansi_charset NO_DATE_OVERFLOW MIN_DATE_TO_ZERO
    false thousands_sep decimal_point no_backslashes utf8mb4 options false false p row i in
  if bool_decide (length m <= 128)%nat then r.1 = Ok SQL_SUCCESS ∧ content (tempbuf r.2) = content (tempbuf i) ++ m else r.1 = UB.
Proof.
  intros Hp Hty Hne Hcomma Hnul Hi Hroom r.
  pose proof (insert_number_text d2str uninitialised object_bytes stack room real_escape_string cxn_charset ansi_charset NO_DATE_OVERFLOW MIN_DATE_TO_ZERO
    false thousands_sep decimal_point no_backslashes utf8mb4 options p row m n i Hp Hty eq_refl Hne Hcomma Hnul Hi Hroom) as H.
  destruct (bool_decide _); [|exact H]. destruct H as (i' & E & _ & Hc). subst r. by rewrite E.
Qed.

(** ** Examples *)

(** A parameter of text of some types, and one that is a number. *)
Definition ex_text (ty : Z) (m : str) : param unit :=
  Param unit SQL_C_CHAR SQL_C_CHAR 0 (λ _, Some (Bytes m)) None (Some (λ _, Z.of_nat (length m))) None None ty ty 0 0.
Definition ex_integer (len : option (nat → Z)) (z : Z) : param unit :=
  Param unit (-16) (-16) 0 (λ _, Some (Integer z)) None len None None 4 4 0 0.
Definition ex_escape (s : str) : str := mjoin ((λ c, if bool_decide (c = "'"%char) then ["\"%char; c] else [c]) <$> s).

(** A statement of a connection without the odd options, with a buffer of [size]. *)
Definition ex_insert (size : nat) (p : param unit) : res Z * insertion :=
  insert_param (λ _ _, []) (λ _, Ascii.zero) (λ _, []) [] [] ex_escape 33 33 false false false [] [] false true (Options 0 true) false false p 0
    (Insertion (new_tempBuf (λ _, Ascii.zero) size) None (GetData None [] 0 0 0 0 0) None).

(** Text for a type of intervals is refused, and the call succeeds: the marker is
    replaced by nothing. *)
Example interval_text_vanishes :
  let '(r, i) := ex_insert 64 (ex_text hour_to_second (S!"1:00:00")) in r = Ok SQL_SUCCESS ∧ content (tempbuf i) = [] ∧ err i = Some (S!"07006").
Proof. vm_compute. repeat split. Qed.

(** Text for a bit is replaced by nothing, too. *)
Example bit_text_vanishes : let '(r, i) := ex_insert 64 (ex_text SQL_BIT (S!"1")) in r = Ok SQL_SUCCESS ∧ content (tempbuf i) = [] ∧ err i = None.
Proof. vm_compute. repeat split. Qed.

(** Text for a date that begins with a brace is sent as it is. *)
Example brace_verbatim :
  let '(r, i) := ex_insert 64 (ex_text SQL_C_TYPE_DATE (S!"{d '2024-01-02'}); DROP TABLE t; --")) in
  r = Ok SQL_SUCCESS ∧ content (tempbuf i) = S!"{d '2024-01-02'}); DROP TABLE t; --".
Proof. vm_compute. repeat split. Qed.

(** The bytes of an integer are taken for a text when there is no pointer to its length:
    behind -5, which has no zero byte, the memory is read on. *)
Example integer_without_length :
  (ex_insert 64 (ex_integer None 5)).1 = Ok SQL_SUCCESS ∧ (ex_insert 64 (ex_integer None (-5))).1 = UB ∧
  (ex_insert 64 (ex_integer (Some (λ _, 4)) (-5))).1 = Ok SQL_SUCCESS.
Proof. vm_compute. repeat split. Qed.

(** A text of quotes fills the room for it, and the null character behind it is written
    out of the memory. *)
Example quotes_overrun : (ex_insert 5 (ex_text 12 (S!"''"))).1 = UB.
Proof. vm_compute. reflexivity. Qed.

Lemma ex_escape_length s : (length (ex_escape s) <= length s * 2)%nat.
Proof.
  induction s as [|c s IH]; [done|]. change (ex_escape (c :: s)) with ((if bool_decide (c = "'"%char) then ["\"%char; c] else [c]) ++ ex_escape s).
  rewrite length_app. cbn [length]. destruct (bool_decide _); cbn [length]; lia.
Qed.

(** Witnesses: a query with two markers, two binary parameters, and a number that is not one. *)
Definition ex_markers : list (marker (float := unit)) :=
  [Marker 7 (Some (ex_text 12 (S!"it's"))) true None; Marker 10 (Some (ex_integer (Some (λ _, 4)) (-5))) true None;
   Marker 13 (Some (ex_integer None 12)) true None].

Lemma insert_params_spec_witness :
  spliced (S!"SELECT ?, ?, ?;") 0 [7; 10; 13]%nat [literal ex_escape (S!"it's"); to_string (-5); to_string 12] = S!"SELECT 'it\'s', -5, 12;" ∧
  ∃ bs i', insert_params (λ _ _, []) (λ _, Ascii.zero) (λ _, []) [] [] ex_escape 33 33 false false false [] [] false true (Options 0 true) false false
    false (S!"SELECT ?, ?, ?;") 0 ex_markers (Insertion (new_tempBuf (λ _, Ascii.zero) 64) None fresh None) =
    (Ok (SQL_SUCCESS, Some (spliced (S!"SELECT ?, ?, ?;") 0 (place <$> ex_markers) [literal ex_escape (S!"it's"); to_string (-5); to_string 12]), bs), i') ∧
    getdata i' = fresh ∧ err i' = None.
Proof.
  split; [reflexivity|]. apply (insert_params_spec (λ (_ : unit) _, []) (λ _, Ascii.zero) (λ _, []) [] [] ex_escape 33 33 false false false [] [] false true
    (Options 0 true) false (S!"SELECT ?, ?, ?;") 0 ex_markers [literal ex_escape (S!"it's"); to_string (-5); to_string 12] 64 fresh).
  - exact ex_escape_length.
  - repeat constructor; eexists; (split; [reflexivity|]); (split; [reflexivity|]).
    + apply (Inserted_text ex_escape (ex_text 12 (S!"it's")) 0 (S!"it's") (λ _, 4)); [intros g [=]|reflexivity|cbn; lia|reflexivity..|].
      apply (bool_decide_unpack _); vm_compute; exact I.
    + apply (Inserted_integer ex_escape (ex_integer (Some (λ _, 4)) (-5)) 0 (-5)); [intros g [=]|cbn; lia|reflexivity| |reflexivity|];
        apply (bool_decide_unpack _); vm_compute; exact I.
    + apply (Inserted_integer ex_escape (ex_integer None 12) 0 12); [intros g [=]|eexists; reflexivity|reflexivity| |reflexivity|];
        apply (bool_decide_unpack _); vm_compute; exact I.
  - cbn. lia.
  - vm_compute. lia.
Defined.

Lemma ex_given ty m : given_bytes (ex_text ty m) 0 m.
Proof. split; [intros g [=]|]. split; [by eexists|]. done. Qed.

Lemma binary_parameters_witness :
  let insert := insert_param (λ (_ : unit) _, []) (λ _, Ascii.zero) (λ _, []) [] [] ex_escape 33 33 false false false [] [] true true (Options 0 true) false false in
  ∃ i', (insert (ex_text (-3) (S!"ab")) 0%nat;; insert (ex_text (-3) (S!"cdef")) 0%nat)
      (Insertion (new_tempBuf (λ _, Ascii.zero) 64) None (GetData None [] 0 0 0 0 0) None) = (Ok SQL_SUCCESS, i') ∧
    content (tempbuf i') = S!" 0x" ++ hex_text (S!"ab") ++ S!" 0x" ++ hex_text (skipn (length (S!"ab")) (S!"cdef")) ∧ err i' = None.
Proof.
  apply (binary_parameters (λ (_ : unit) _, []) (λ _, Ascii.zero) (λ _, []) [] [] ex_escape 33 false false false [] [] true
    (ex_text (-3) (S!"ab")) (ex_text (-3) (S!"cdef")) 0 (S!"ab") (S!"cdef") 64); try apply ex_given;
    first [apply (bool_decide_unpack _); vm_compute; exact I|vm_compute; reflexivity|cbn; lia].
Defined.

Lemma number_parameter_verbatim_witness :
  content (tempbuf (ex_insert 64 (ex_text SQL_DOUBLE (S!"1 OR 1=1"))).2) = S!"1 OR 1=1".
Proof.
  apply (number_parameter_verbatim (λ (_ : unit) _, []) (λ _, Ascii.zero) (λ _, []) [] [] ex_escape 33 33 false false [] [] false true
    (Options 0 true) (ex_text SQL_DOUBLE (S!"1 OR 1=1")) 0 (S!"1 OR 1=1") 64
    (Insertion (new_tempBuf (λ _, Ascii.zero) 64) None (GetData None [] 0 0 0 0 0) None)); [apply ex_given|..].
  - apply (bool_decide_unpack _); vm_compute; exact I.
  - discriminate.
  - apply (bool_decide_unpack _); vm_compute; exact I.
  - apply (bool_decide_unpack _); vm_compute; exact I.
  - split; [apply (bool_decide_unpack _); vm_compute; exact I|]. split; [vm_compute; lia|reflexivity].
  - vm_compute. lia.
Defined.
