(* ===== verification/Scroller.v ===== *)
(** Large results in pieces (src/driver/my_stmt.cc, src/driver/utility.cc): a query that
    selects rows gets a LIMIT clause with fields of a fixed width, in which the place
    of the next piece is written each time the rows of the last one are used up. *)

From S2P Require Import Prelude CppString Parse Errors TempBuf.

Local Open Scope Z_scope.

Definition MAX32_BUFF_SIZE : nat := 11.
Definition MAX64_BUFF_SIZE : nat := 21.
(** An unsigned number of [w] bits. *)
Definition wrap (w z : Z) : Z := z mod 2 ^ w.

(** ** Words of a query

    A pointer into a query is an offset; at the offset that is its length stands
    the null byte that ends it. *)

Section Scroller.
Context {charset : Charset}.

(** The character sets look at the bytes from a place to an end. *)
Definition char_class (s : str) : Z := (cs_ctype s).1.
(** [src/driver/utility.cc:4133-4139] myodbc_isspace *)
Definition myodbc_isspace (s : str) : bool := negb (Z.land (char_class s) 8 =? 0).
(** [src/driver/utility.cc:4141-4147] myodbc_isnum *)
Definition myodbc_isnum (s : str) : bool := negb (Z.land (char_class s) 4 =? 0).

(** The bytes from [b] to [e], and the byte at a place. *)
Definition slice (q : str) (b e : nat) : str := drop b (take e q).
Definition char_at (q : str) (i : nat) : ascii := default Ascii.zero (q !! i).
(** A byte is below 0 as a [char] when its first bit is set. *)
Definition negative (c : ascii) : bool := (127 <? N_of_ascii c)%N.

(** [src/driver/utility.cc:2544-2562] myodbc_casecmp

    Whether it is 0, for two texts that are not null and a length that is the one
    of the second. *)
Fixpoint same_word (s t : str) : bool :=
  match t with
  | [] => true
  | y :: t => match s with x :: s => bool_decide (toupper x = toupper y) && same_word s t | [] => false end
  end.

(** The space before [pos], in a query that starts at 0. *)
Fixpoint space_before (q : str) (end_ pos : nat) : option nat :=
  match pos with
  | O => None
  | S p => if negative (char_at q p) || negb (myodbc_isspace (slice q p end_)) then space_before q end_ p else Some p
  end.

(** [src/driver/parse.cc:299-314] mystr_get_prev_token

    The token, and what is remembered for the one before it. *)
Definition mystr_get_prev_token (q : str) (query : nat) : nat * nat :=
  match space_before q query query with Some p => (S p, p) | None => (0%nat, 0%nat) end.

(** The loop, in which a place is left for one before it. *)
Fixpoint find_token_from (fuel : nat) (q : str) (before : nat) (target : str) : option nat :=
  match fuel with
  | O => None
  | S f =>
    let '(token, before) := mystr_get_prev_token q before in
    if (token =? 0)%nat then None else if same_word (drop token q) target then Some token else find_token_from f q before target
  end.
(** [src/driver/parse.cc:340-355] find_token *)
Definition find_token (q : str) (end_ : nat) (target : str) : option nat := find_token_from (S end_) q end_ target.

(** ** The LIMIT clause of a query *)

(** [src/driver/driver.h:676-685] MY_LIMIT_CLAUSE *)
Record MY_LIMIT_CLAUSE := Limit { offset : Z; row_count : Z; begin : nat; end_ : nat }.

(** [atoll] and [atol], of a text that starts with a digit; a number that is too
    great for them is left undefined by C. *)
Definition atoll (s : str) : res Z :=
  let n := Z.of_N (digits_value (leading_digits s)) in if n <? 2 ^ 63 then Ok n else UB.

Fixpoint skip_while (f : str → bool) (s : str) : str :=
  match s with c :: s' => if f s then skip_while f s' else s | [] => [] end.
Fixpoint collect_while (f : str → bool) (s : str) : str * str :=
  match s with c :: s' => if f s then let '(d, r) := collect_while f s' in (c :: d, r) else ([], s) | [] => ([], []) end.

(** What is collected goes to 30 bytes, and a null byte behind it. *)
Definition limit_number (d : str) : res Z := if (30 <=? length d)%nat then UB else atoll d.

(** [src/driver/utility.cc:3995-4048] get_limit_numbers

    Of the bytes from [query] to the end: the offset, the rows and the bytes that
    are left.  Both numbers are 0 before. *)
Definition get_limit_numbers (query : str) : res (Z * Z * str) :=
  let query := skip_while myodbc_isspace query in
  let '(d, query) := collect_while myodbc_isnum query in
  if bool_decide (d = []) then Ok (0, 0, query) else
  offs_out ← limit_number d;
  let query := skip_while (λ s, negb (myodbc_isnum s)) query in
  if bool_decide (query = []) then Ok (0, wrap 32 offs_out, query) else
  let '(d, query) := collect_while myodbc_isnum query in
  rows_out ← limit_number d;
  Ok (offs_out, wrap 32 rows_out, query).

(** The words of the locking clause, from the last to the first. *)
Definition for_update : list str := [S!"UPDATE"; S!"FOR"].
Definition lock_in_share_mode : list str := [S!"MODE"; S!"SHARE"; S!"IN"; S!"LOCK"].
Fixpoint words_before (q : str) (before token : nat) (check : list str) : option nat :=
  match check with
  | [] => Some token
  | w :: check =>
    let '(token, before) := mystr_get_prev_token q before in
    if same_word (drop token q) w then words_before q before token check else None
  end.
(** [src/driver/utility.cc:4061-4084] check_row_locking *)
Definition check_row_locking (q : str) (is_share_mode : bool) : option nat :=
  words_before q (length q) 0 (if is_share_mode then lock_in_share_mode else for_update).

(** Back over the null byte and the spaces at the end. *)
Fixpoint trail (q : str) (query_end : nat) : nat :=
  match query_end with
  | O => O
  | S p => if bool_decide (char_at q query_end = Ascii.zero) || myodbc_isspace (slice q query_end (length q)) then trail q p else query_end
  end.

(** [src/driver/utility.cc:4087-4130] find_position4limit *)
Definition find_position4limit (q : str) : res MY_LIMIT_CLAUSE :=
  match find_token q (length q) (S!"LIMIT") with
  | Some limit_pos =>
    '(offs, rows, rest) ← get_limit_numbers (drop (limit_pos + 5) q);
    Ok (Limit offs rows limit_pos (length q - length rest))
  | None =>
    match check_row_locking q false ∪ check_row_locking q true with
    | Some (S p) => Ok (Limit 0 0 p p)
    | Some O => UB
    | None =>
      let query_end := trail q (length q) in
      Ok (if bool_decide (char_at q query_end = ";"%char) then Limit 0 0 query_end query_end else Limit 0 0 (length q) (length q))
    end
  end.

(** [src/driver/my_stmt.cc:680-715] scrollable

    [is_select] is what [stmt->query.is_select_statement] tells. *)
Definition scrollable (is_select : bool) (q : str) : bool :=
  if negb is_select then false else
  let '(_, before_token) := mystr_get_prev_token q (length q) in
  let '(prev, _) := mystr_get_prev_token q before_token in
  if (prev =? 0)%nat then false else
  same_word (drop prev q) (S!"FROM") || bool_decide (is_Some (find_token q (prev - 1) (S!"FROM"))).

(** ** The scroller *)

(** What the memory that is got for a place holds. *)
Context (uninitialised : nat → ascii).

(** [src/driver/my_stmt.cc:540-569] calc_prefetch_number *)
Definition calc_prefetch_number (selected app_fetchs max_rows : Z) : Z :=
  if selected =? 0 then 0 else
  let result :=
    if 1 <? app_fetchs then
      let result := if selected <? app_fetchs then wrap 32 app_fetchs else selected in
      if 0 <? selected mod app_fetchs then wrap 32 (wrap 64 (app_fetchs * (selected / app_fetchs + 1))) else result
    else selected in
  if (0 <? max_rows) && (max_rows <? result) then wrap 32 max_rows else result.

(** [src/driver/driver.h:687-702] MY_LIMIT_SCROLLER

    [query] is got from the buffer once, when the statement is made:
    [query_valid] tells that the memory has not been moved since. *)
Record MY_LIMIT_SCROLLER := Scroll {
  sbuf : tempBuf;
  query_valid : bool;
  offset_pos : nat;
  srow_count : Z;
  start_offset : Z;
  next_offset : Z;
  total_rows : Z;
  query_len : nat
}.

Definition new_scroller : MY_LIMIT_SCROLLER := Scroll (new_tempBuf uninitialised 1024) true 0 0 0 0 0 0.

(** [src/driver/driver.h:701-701] reset *)
Definition reset (s : MY_LIMIT_SCROLLER) : MY_LIMIT_SCROLLER :=
  Scroll (sbuf s) (query_valid s) 0 (srow_count s) (start_offset s) 0 (total_rows s) (query_len s).
Definition set_row_count (z : Z) (s : MY_LIMIT_SCROLLER) : MY_LIMIT_SCROLLER :=
  Scroll (sbuf s) (query_valid s) (offset_pos s) z (start_offset s) (next_offset s) (total_rows s) (query_len s).
Definition set_next_offset (z : Z) (s : MY_LIMIT_SCROLLER) : MY_LIMIT_SCROLLER :=
  Scroll (sbuf s) (query_valid s) (offset_pos s) (srow_count s) (start_offset s) z (total_rows s) (query_len s).

(** [src/driver/my_stmt.cc:571-574] scroller_exists *)
Definition scroller_exists (s : MY_LIMIT_SCROLLER) : bool := (0 <? offset_pos s)%nat.

(** Bytes written through [query]. *)
Definition poke (at_ : nat) (t : str) (s : MY_LIMIT_SCROLLER) : res MY_LIMIT_SCROLLER :=
  if query_valid s then
    m ← write_at at_ t (buf (sbuf s));
    Ok (Scroll (TempBuf m (cur_pos (sbuf s))) (query_valid s) (offset_pos s) (srow_count s) (start_offset s) (next_offset s) (total_rows s) (query_len s))
  else UB.

(** [src/driver/driver.h:700-700] extend_buf

    Memory that is got anew makes the pointers into the old one indeterminate. *)
Definition extend_buf (new_size : nat) (s : MY_LIMIT_SCROLLER) : res MY_LIMIT_SCROLLER :=
  b ← extend_buffer uninitialised new_size (sbuf s);
  Ok (Scroll b (query_valid s && bool_decide (buf_len b = buf_len (sbuf s))) (offset_pos s) (srow_count s) (start_offset s) (next_offset s) (total_rows s) (query_len s)).

(** [%*u] and [%*llu]: a number in a field. *)
Definition field (w : nat) (z : Z) : str := replicate (w - length (to_string z)) " "%char ++ to_string z.
Definition nul : str := [Ascii.zero].

(** [src/driver/my_stmt.cc:577-625] scroller_create *)
Definition scroller_create (max_rows : Z) (q : str) (s : MY_LIMIT_SCROLLER) : res MY_LIMIT_SCROLLER :=
  let len2add := (7 + MAX64_BUFF_SIZE + MAX32_BUFF_SIZE)%nat in
  limit ← find_position4limit q;
  let found := negb (begin limit =? end_ limit)%nat in
  let total := max_rows `max` 0 in
  let total := if found then (if 0 <? total then row_count limit `min` total else row_count limit) else total in
  let rows := if (total <? srow_count s) && found then wrap 32 total else srow_count s in
  let qlen := (length q + len2add)%nat in
  s ← extend_buf (qlen + 1) (Scroll (sbuf s) (query_valid s) (offset_pos s) rows (offset limit) (offset limit `max` 0) total qlen);
  s ← poke 0 (replicate qlen " "%char) s;
  s ← poke 0 (take (begin limit) q) s;
  s ← poke (begin limit) (S!" LIMIT ") s;
  let s := Scroll (sbuf s) (query_valid s) (begin limit + 7) (srow_count s) (start_offset s) (next_offset s) (total_rows s) (query_len s) in
  s ← poke (offset_pos s + MAX64_BUFF_SIZE - 1) (S!"," ++ field (MAX32_BUFF_SIZE - 1) (srow_count s) ++ nul) s;
  s ← poke (offset_pos s + MAX64_BUFF_SIZE + MAX32_BUFF_SIZE - 1) (drop (end_ limit) q) s;
  poke (query_len s) nul s.

(** [src/driver/my_stmt.cc:629-638] scroller_move

    Returns the new [next_offset]. *)
Definition scroller_move (s : MY_LIMIT_SCROLLER) : res MY_LIMIT_SCROLLER :=
  s ← poke (offset_pos s) (field (MAX64_BUFF_SIZE - 1) (next_offset s) ++ nul) s;
  s ← poke (offset_pos s + MAX64_BUFF_SIZE - 1) (S!",") s;
  Ok (set_next_offset (wrap 64 (next_offset s + srow_count s)) s).

(** The 64 bits of a [long long]. *)
Definition signed64 (z : Z) : Z := let u := wrap 64 z in if u <? 2 ^ 63 then u else u - 2 ^ 64.

(** The text that is sent. *)
Definition query_text (s : MY_LIMIT_SCROLLER) : res str := if query_valid s then Ok (take (query_len s) (buf (sbuf s))) else UB.

(** [src/driver/my_stmt.cc:641-676] scroller_prefetch

    [exec] runs a query and gets its rows, or fails; [None] tells that there is
    no piece left, and nothing has been sent. *)
Definition scroller_prefetch {R} (exec : str → option R) (s : MY_LIMIT_SCROLLER) : res (MY_LIMIT_SCROLLER * option (option R)) :=
  let prepared :=
    if (0 <? total_rows s) && (wrap 64 (total_rows s + start_offset s) <=? next_offset s) then
      let count := signed64 (total_rows s - (next_offset s - srow_count s - start_offset s)) in
      if 0 <? count then
        s ← poke (offset_pos s + MAX64_BUFF_SIZE) (field (MAX32_BUFF_SIZE - 1) (wrap 32 count) ++ nul) s;
        s ← poke (offset_pos s + MAX64_BUFF_SIZE + MAX32_BUFF_SIZE - 1) (S!" ") s;
        Ok (Some s)
      else Ok None
    else Ok (Some s) in
  p ← prepared;
  match p with
  | None => Ok (s, None)
  | Some s => t ← query_text s; Ok (s, Some (exec t))
  end.

(** ** The rows of a statement *)

Context {row : Type} (server : str → option (list row)).

(** A statement that has run: its scroller, and the rows of the current piece that
    have not been fetched. *)
Record scrolled := Scrolled { scroller : MY_LIMIT_SCROLLER; rows : list row }.

(** [src/driver/execute.cc:112-129] do_query

    [None] when the query fails. *)
Definition do_query (opt_PREFETCH array_size max_rows : Z) (q : str) (s : MY_LIMIT_SCROLLER) : res (option scrolled) :=
  let s := set_row_count (calc_prefetch_number opt_PREFETCH array_size max_rows) (reset s) in
  s ← scroller_create max_rows q s;
  s ← scroller_move s;
  t ← query_text s;
  Ok (Scrolled s <$> server t).

(** The next row, [None] when there is none or the query fails. *)
Definition fetch_next (st : scrolled) : res (scrolled * option row) :=
  match rows st with
  | r :: rest => Ok (Scrolled (scroller st) rest, Some r)
  | [] =>
    s ← scroller_move (scroller st);
    '(s, fetched) ← scroller_prefetch server s;
    Ok (match fetched with
        | None | Some None => (Scrolled s [], None)
        | Some (Some []) => (Scrolled s [], None)
        | Some (Some (r :: rest)) => (Scrolled s rest, Some r)
        end)
  end.

(** [src/driver/results.cc:2369-2415] my_SQLExtendedFetch

    The rows of a rowset of at most [n], without the buffers they go to. *)
Fixpoint fetch_rows (n : nat) (st : scrolled) : res (scrolled * list row) :=
  match n with
  | O => Ok (st, [])
  | S n =>
    '(st, r) ← fetch_next st;
    match r with
    | None => Ok (st, [])
    | Some r => '(st, rs) ← fetch_rows n st; Ok (st, r :: rs)
    end
  end.

(** ** Where the clause goes *)

Lemma space_before_lt q e pos p : space_before q e pos = Some p → (p < pos)%nat.
Proof.
  induction pos as [|pos IH]; cbn [space_before]; [done|]. destruct (negative _ || _); [|intros [= <-]; lia].
  intros H. specialize (IH H). lia.
Qed.

Lemma prev_token_le q query : let '(token, before) := mystr_get_prev_token q query in
  (token ≤ query)%nat ∧ (before ≤ token)%nat ∧ (token ≠ 0%nat → before < query)%nat.
Proof.
  unfold mystr_get_prev_token. destruct (space_before q query query) as [p|] eqn:E; [|lia]. apply space_before_lt in E. lia.
Qed.

(** The loop ends before its fuel does: with more fuel it finds the same. *)
Lemma find_token_fuel q target fuel fuel' before : (before < fuel)%nat → (fuel ≤ fuel')%nat →
  find_token_from fuel' q before target = find_token_from fuel q before target.
Proof.
  revert fuel' before. induction fuel as [|f IH]; intros fuel' before Hf Hle; [lia|]. destruct fuel' as [|f']; [lia|].
  cbn [find_token_from]. pose proof (prev_token_le q before) as Hp. destruct (mystr_get_prev_token q before) as [token before'].
  destruct (Nat.eqb_spec token 0) as [|Hne]; [done|]. destruct (same_word _ _); [done|]. apply IH; [|lia]. destruct Hp as (_ & _ & Hp). specialize (Hp Hne). lia.
Qed.

Lemma find_token_from_spec fuel q before target i :
  find_token_from fuel q before target = Some i → (i ≤ before)%nat ∧ i ≠ 0%nat ∧ same_word (drop i q) target = true.
Proof.
  revert before. induction fuel as [|f IH]; intros before; cbn [find_token_from]; [done|].
  pose proof (prev_token_le q before) as Hp. destruct (mystr_get_prev_token q before) as [token before'].
  destruct (Nat.eqb_spec token 0) as [|Hne]; [done|]. destruct (same_word (drop token q) target) eqn:E; [intros [= <-]; split_and!; (done || lia)|].
  intros H. apply IH in H as (H1 & H2 & H3). split_and!; try done. destruct Hp as (_ & _ & Hp). specialize (Hp Hne). lia.
Qed.

Lemma same_word_length s t : same_word s t = true → (length t ≤ length s)%nat.
Proof.
  revert s. induction t as [|y t IH]; intros s; [simpl; lia|]. destruct s as [|x s]; cbn [same_word]; [done|].
  intros [_ H]%andb_prop. apply IH in H. simpl. lia.
Qed.

Lemma skip_while_length f s : (length (skip_while f s) ≤ length s)%nat.
Proof. induction s as [|c s IH]; cbn [skip_while]; [lia|]. destruct (f _); simpl in *; lia. Qed.

Lemma collect_while_app f s : (collect_while f s).1 ++ (collect_while f s).2 = s.
Proof. induction s as [|c s IH]; cbn [collect_while]; [done|]. destruct (f _); [|done]. destruct (collect_while f s) as [d r]. cbn in *. by rewrite IH. Qed.

Lemma get_limit_numbers_length s o r rest : get_limit_numbers s = Ok (o, r, rest) → (length rest ≤ length s)%nat.
Proof.
  unfold get_limit_numbers. pose proof (skip_while_length myodbc_isspace s) as H1. set (s1 := skip_while _ s) in *.
  pose proof (f_equal length (collect_while_app myodbc_isnum s1)) as H2. destruct (collect_while myodbc_isnum s1) as [d s2]. cbn [fst snd] in H2. rewrite length_app in H2.
  case_bool_decide; [intros [= <- <- <-]; lia|]. destruct (limit_number d); cbn [mbind res_bind]; [|done..].
  pose proof (skip_while_length (λ s, negb (myodbc_isnum s)) s2) as H3. set (s3 := skip_while _ s2) in *.
  case_bool_decide; [intros [= <- <- <-]; lia|].
  pose proof (f_equal length (collect_while_app myodbc_isnum s3)) as H4. destruct (collect_while myodbc_isnum s3) as [d' s4]. cbn [fst snd] in H4. rewrite length_app in H4.
  destruct (limit_number d'); cbn [mbind res_bind]; [|done..]. intros [= <- <- <-]. lia.
Qed.

Lemma words_before_le q before token check i : (token ≤ before ∨ token ≤ length q)%nat → (before ≤ length q)%nat →
  words_before q before token check = Some i → (i ≤ length q)%nat.
Proof.
  revert before token. induction check as [|w check IH]; intros before token Ht Hb; cbn [words_before]; [intros [= <-]; lia|].
  pose proof (prev_token_le q before) as Hp. destruct (mystr_get_prev_token q before) as [token' before'].
  destruct (same_word _ _); [|done]. apply IH; lia.
Qed.

Lemma trail_le q e : (trail q e ≤ e)%nat.
Proof. induction e as [|e IH]; cbn [trail]; [done|]. destruct (_ || _); lia. Qed.

Lemma position_in_query q limit : find_position4limit q = Ok limit → (begin limit ≤ end_ limit)%nat ∧ (end_ limit ≤ length q)%nat.
Proof.
  unfold find_position4limit. destruct (find_token q (length q) (S!"LIMIT")) as [i|] eqn:E.
  - apply find_token_from_spec in E as (_ & _ & Hw). apply same_word_length in Hw. change (length (S!"LIMIT")) with 5%nat in Hw. rewrite length_drop in Hw.
    destruct (get_limit_numbers (drop (i + 5) q)) as [[[o r] rest]| |] eqn:El; cbn [mbind res_bind]; [|done..].
    intros [= <-]. cbn [begin end_]. apply get_limit_numbers_length in El. rewrite length_drop in El. lia.
  - destruct (check_row_locking q false ∪ check_row_locking q true) as [[|p]|] eqn:El; [done| |].
    + intros [= <-]. cbn [begin end_]. split; [lia|]. apply union_Some in El as [El|[_ El]]; apply words_before_le in El; lia.
    + pose proof (trail_le q (length q)). intros [= <-]. case_bool_decide; cbn [begin end_]; lia.
Qed.

(** ** What is written to the buffer *)

Definition with_mem (m : str) (s : MY_LIMIT_SCROLLER) : MY_LIMIT_SCROLLER :=
  Scroll (TempBuf m (cur_pos (sbuf s))) (query_valid s) (offset_pos s) (srow_count s) (start_offset s) (next_offset s) (total_rows s) (query_len s).

Lemma poke_mid a t x b at_ s : query_valid s = true → buf (sbuf s) = a ++ x ++ b → length x = length t → at_ = length a →
  poke at_ t s = Ok (with_mem (a ++ t ++ b) s).
Proof.
  intros Hv Hm Hx ->. unfold poke, write_at. rewrite Hv, Hm, bool_decide_true by (rewrite !length_app; lia). cbn [mbind res_bind].
  rewrite take_app_length, drop_app_ge by lia. replace (length a + length t - length a)%nat with (length x) by lia. rewrite drop_app_length.
  unfold with_mem. by rewrite Hv.
Qed.

(** The text with its fields. *)
Definition laid_text (pre o c tail : str) : str := pre ++ S!" LIMIT " ++ o ++ S!"," ++ c ++ tail.

Record laid (pre o c tail : str) (s : MY_LIMIT_SCROLLER) : Prop := {
  laid_valid : query_valid s = true;
  laid_pos : offset_pos s = (length pre + 7)%nat;
  laid_len : query_len s = length (laid_text pre o c tail);
  laid_o : length o = 20%nat;
  laid_c : length c = 10%nat;
  laid_buf : ∃ more, buf (sbuf s) = laid_text pre o c tail ++ more
}.

Lemma laid_query pre o c tail s : laid pre o c tail s → query_text s = Ok (laid_text pre o c tail).
Proof. intros [Hv _ Hl _ _ [more Hb]]. unfold query_text. by rewrite Hv, Hb, Hl, take_app_length. Qed.

(** What follows the fields at first: the end of the query, over a null byte and
    spaces. *)
Definition first_tail (q : str) (limit : MY_LIMIT_CLAUSE) : str :=
  drop (end_ limit) q ++ drop (length q - end_ limit) (nul ++ replicate (length q - begin limit) " "%char).

Lemma length_field w z : 0 ≤ z < 10 ^ Z.of_nat w → w ≠ 0%nat → length (field w z) = w.
Proof.
  intros Hz Hw. unfold field. rewrite length_app, length_replicate. assert (length (to_string z) ≤ w)%nat; [|lia].
  destruct z as [|p|p]; [|apply length_N_to_string; [|done]|lia]. 1: { cbn. lia. }
  apply N2Z.inj_lt. rewrite N2Z.inj_pow, nat_N_Z, Z2N.id by lia. lia.
Qed.

Lemma length_field_64 z : 0 ≤ z < 2 ^ 64 → length (field (MAX64_BUFF_SIZE - 1) z) = 20%nat.
Proof. intros Hz. apply length_field; [|done]. change (10 ^ Z.of_nat (MAX64_BUFF_SIZE - 1)) with 100000000000000000000. lia. Qed.
Lemma length_field_32 z : 0 ≤ z < 2 ^ 32 → length (field (MAX32_BUFF_SIZE - 1) z) = 10%nat.
Proof. intros Hz. apply length_field; [|done]. change (10 ^ Z.of_nat (MAX32_BUFF_SIZE - 1)) with 10000000000. lia. Qed.

Lemma replicate_split {A} (n k : nat) (x : A) : (k ≤ n)%nat → replicate n x = replicate k x ++ replicate (n - k) x.
Proof. intros H. rewrite <- replicate_add. f_equal. lia. Qed.

(** What [scroller_create] sets beside the text. *)
Definition create_total (max_rows : Z) (limit : MY_LIMIT_CLAUSE) : Z :=
  let total := max_rows `max` 0 in
  if negb (begin limit =? end_ limit)%nat then (if 0 <? total then row_count limit `min` total else row_count limit) else total.
Definition create_rows (max_rows rc : Z) (limit : MY_LIMIT_CLAUSE) : Z :=
  let total := create_total max_rows limit in
  if (total <? rc) && negb (begin limit =? end_ limit)%nat then wrap 32 total else rc.

Ltac scroll := cbn [mbind res_bind with_mem sbuf buf cur_pos query_valid offset_pos srow_count start_offset next_offset total_rows query_len].

Lemma length_limit : length (S!" LIMIT ") = 7%nat.
Proof. reflexivity. Qed.
Lemma length_comma : length (S!",") = 1%nat.
Proof. reflexivity. Qed.

Lemma length_laid pre o c tail : length (laid_text pre o c tail) = (length pre + 8 + length o + length c + length tail)%nat.
Proof. unfold laid_text. rewrite !length_app, length_limit, length_comma. lia. Qed.

Lemma length_first_tail q limit : (begin limit ≤ end_ limit)%nat → (end_ limit ≤ length q)%nat → length (first_tail q limit) = (1 + (length q - begin limit))%nat.
Proof. intros. unfold first_tail. rewrite !length_app, !length_drop, length_app, length_replicate. change (length nul) with 1%nat. lia. Qed.

Lemma extend_buf_fits n s : cur_pos (sbuf s) = 0%nat → (n ≤ buf_len (sbuf s))%nat → query_valid s = true → extend_buf n s = Ok s.
Proof.
  intros Hc Hn Hv. unfold extend_buf, extend_buffer. rewrite Hc, bool_decide_false, bool_decide_false by lia. scroll. rewrite bool_decide_true, Hv by done.
  destruct s. cbn in *. by subst.
Qed.

Lemma memory_parts (m : str) n : (n < length m)%nat → ∃ x y rest, m = x ++ y :: rest ∧ length x = n.
Proof.
  intros H. exists (take n m). destruct (drop n m) as [|y rest] eqn:E; [apply (f_equal length) in E; rewrite length_drop in E; simpl in E; lia|].
  exists y, rest. rewrite <- E, take_drop, length_take. split; [done|lia].
Qed.

(** ... and how, when the memory is large enough. *)
Lemma scroller_create_run max_rows q limit s :
  find_position4limit q = Ok limit → query_valid s = true → cur_pos (sbuf s) = 0%nat → (length q + 40 ≤ buf_len (sbuf s))%nat →
  0 ≤ create_rows max_rows (srow_count s) limit < 2 ^ 32 →
  ∃ s', scroller_create max_rows q s = Ok s' ∧
    laid (take (begin limit) q) (replicate 20 " "%char) (field 10 (create_rows max_rows (srow_count s) limit)) (first_tail q limit) s' ∧
    srow_count s' = create_rows max_rows (srow_count s) limit ∧ start_offset s' = offset limit ∧
    next_offset s' = offset limit `max` 0 ∧ total_rows s' = create_total max_rows limit.
Proof.
  intros Hl Hv Hc Hlen Hr. destruct (position_in_query q limit Hl) as [Hbe Heq]. pose proof (length_first_tail q limit Hbe Heq) as Hft.
  unfold scroller_create. rewrite Hl. cbn [mbind res_bind]. fold (create_total max_rows limit). fold (create_rows max_rows (srow_count s) limit).
  pose proof (length_field_32 _ Hr) as Hf. change (MAX32_BUFF_SIZE - 1)%nat with 10%nat in *.
  set (rc := create_rows max_rows (srow_count s) limit) in *. clearbody rc. change (7 + MAX64_BUFF_SIZE + MAX32_BUFF_SIZE)%nat with 39%nat.
  rewrite extend_buf_fits by (cbn [sbuf query_valid]; (done || lia)). scroll.
  destruct s as [[m cur] v op rc0 so no to ql]. unfold buf_len in *. cbn [sbuf buf cur_pos query_valid] in *. subst v cur.
  destruct (memory_parts m (length q + 39)) as (x & y & rest & -> & Hx); [lia|].
  set (pre := take (begin limit) q) in *. assert (length pre = begin limit) as Hpre by (unfold pre; rewrite length_take; lia).
  rewrite (poke_mid [] (replicate (length q + 39) " "%char) x (y :: rest)) by (rewrite ?length_replicate; done). scroll.
  rewrite (replicate_split (length q + 39) (begin limit)) by lia.
  rewrite (poke_mid [] pre (replicate (begin limit) " "%char) (replicate (length q + 39 - begin limit) " "%char ++ y :: rest)) by (rewrite ?length_replicate, ?app_assoc; done). scroll.
  rewrite (replicate_split (length q + 39 - begin limit) 7) by lia.
  rewrite (poke_mid pre (S!" LIMIT ") (replicate 7 " "%char) (replicate (length q + 39 - begin limit - 7) " "%char ++ y :: rest)) by (rewrite ?length_replicate, <- ?app_assoc; done). scroll.
  rewrite (replicate_split (length q + 39 - begin limit - 7) 20) by lia. rewrite (replicate_split (length q + 39 - begin limit - 7 - 20) 12) by lia.
  replace (length q + 39 - begin limit - 7 - 20 - 12)%nat with (length q - begin limit)%nat by lia.
  rewrite (poke_mid (pre ++ S!" LIMIT " ++ replicate 20 " "%char) (S!"," ++ field 10 rc ++ nul) (replicate 12 " "%char) (replicate (length q - begin limit) " "%char ++ y :: rest))
    by (rewrite ?length_app, ?Hf, ?length_replicate, ?Hpre, ?length_limit, <- ?app_assoc; cbn [length nul]; try done; unfold MAX64_BUFF_SIZE; lia). scroll.
  set (blank := nul ++ replicate (length q - begin limit) " "%char). set (tl := drop (end_ limit) q).
  assert (length tl = length q - end_ limit)%nat as Htl by (unfold tl; by rewrite length_drop).
  rewrite (poke_mid (pre ++ S!" LIMIT " ++ replicate 20 " "%char ++ S!"," ++ field 10 rc) tl (take (length q - end_ limit) blank) (drop (length q - end_ limit) blank ++ y :: rest));
    [|done|rewrite <- !app_assoc; do 5 f_equal; rewrite (app_assoc (take _ _)), take_drop; unfold blank; by rewrite <- app_assoc
     |unfold blank; rewrite length_take, length_app, length_replicate; cbn [length nul]; lia
     |rewrite !length_app, Hf, length_replicate, Hpre, length_limit, length_comma; unfold MAX64_BUFF_SIZE, MAX32_BUFF_SIZE; lia]. scroll.
  assert (length (laid_text pre (replicate 20 " "%char) (field 10 rc) (first_tail q limit)) = length q + 39)%nat as Hlt
    by (rewrite length_laid, length_replicate, Hft, Hf, Hpre; lia).
  rewrite (poke_mid (laid_text pre (replicate 20 " "%char) (field 10 rc) (first_tail q limit)) nul [y] rest);
    [|done|unfold laid_text, first_tail; fold blank tl; by rewrite <- !app_assoc|done|done].
  eexists. split; [done|]. scroll. split; [|done]. split; scroll; try done; [by rewrite Hpre|by eexists].
Qed.

(** The fields are written over. *)
Lemma poke_fields pre o c tail o' s : laid pre o c tail s → length o' = 20%nat →
  ∃ s', (poke (offset_pos s) (o' ++ nul) s ≫= λ s, poke (offset_pos s + MAX64_BUFF_SIZE - 1) (S!",") s) = Ok s' ∧
    laid pre o' c tail s' ∧ ∃ m, s' = with_mem m s.
Proof.
  intros [Hv Hp Hl Ho Hc [more Hb]] Ho'. unfold laid_text in Hb. rewrite <- !app_assoc in Hb.
  rewrite (poke_mid (pre ++ S!" LIMIT ") (o' ++ nul) (o ++ S!",") (c ++ tail ++ more));
    [|done|by rewrite Hb, <- !app_assoc|rewrite !length_app; cbn; lia|rewrite length_app, length_limit; done].
  scroll. rewrite (poke_mid (pre ++ S!" LIMIT " ++ o') (S!",") nul (c ++ tail ++ more));
    [|done|scroll; by rewrite <- !app_assoc|done|scroll; rewrite !length_app, length_limit, Hp, Ho'; unfold MAX64_BUFF_SIZE; lia].
  scroll. eexists. split; [done|]. split; [|by eexists]. rewrite length_laid in Hl.
  split; scroll; try done; [rewrite length_laid; lia|]. exists more. unfold laid_text. by rewrite <- !app_assoc.
Qed.

Lemma poke_count pre o c x tail c' s : laid pre o c (x :: tail) s → length c' = 10%nat →
  ∃ s', (poke (offset_pos s + MAX64_BUFF_SIZE) (c' ++ nul) s ≫= λ s, poke (offset_pos s + MAX64_BUFF_SIZE + MAX32_BUFF_SIZE - 1) (S!" ") s) = Ok s' ∧
    laid pre o c' (" "%char :: tail) s' ∧ ∃ m, s' = with_mem m s.
Proof.
  intros [Hv Hp Hl Ho Hc [more Hb]] Hc'. unfold laid_text in Hb. rewrite <- !app_assoc in Hb.
  rewrite (poke_mid (pre ++ S!" LIMIT " ++ o ++ S!",") (c' ++ nul) (c ++ [x]) (tail ++ more));
    [|done|by rewrite Hb, <- !app_assoc|rewrite !length_app; cbn; lia|rewrite !length_app, length_limit, length_comma; unfold MAX64_BUFF_SIZE; lia].
  scroll. rewrite (poke_mid (pre ++ S!" LIMIT " ++ o ++ S!"," ++ c') (S!" ") nul (tail ++ more));
    [|done|scroll; by rewrite <- !app_assoc|done|scroll; rewrite !length_app, length_limit, length_comma, Hp, Hc', Ho; unfold MAX64_BUFF_SIZE, MAX32_BUFF_SIZE; lia].
  scroll. eexists. split; [done|]. split; [|by eexists]. rewrite length_laid in Hl.
  split; scroll; try done; [rewrite length_laid; simpl in *; lia|]. exists more. unfold laid_text. by rewrite <- !app_assoc.
Qed.

(** The texts that are sent. *)
Definition piece_text (q : str) (limit : MY_LIMIT_CLAUSE) (o c : Z) (tail : str) : str :=
  laid_text (take (begin limit) q) (field 20 o) (field 10 c) tail.

(** ** The rows that are fetched *)

(** What the server is asked to do: of the rows of the query without its clause, the
    ones from an offset, at most a number of them. *)
Definition pages (pre tail : str) (all : list row) : Prop :=
  ∀ o c t, 0 ≤ o < 2 ^ 63 → 0 ≤ c < 2 ^ 32 → t = tail ∨ t = " "%char :: List.tl tail →
    server (laid_text pre (field 20 o) (field 10 c) t) = Some (take (Z.to_nat c) (drop (Z.to_nat o) all)).

(** The rows from an offset on, at most [total] of them if there is such a bound. *)
Definition from_to (start total from : Z) (all : list row) : list row :=
  let l := drop (Z.to_nat from) all in if 0 <? total then take (Z.to_nat (start + total - from)) l else l.

Definition remaining (all : list row) (s : MY_LIMIT_SCROLLER) : list row :=
  from_to (start_offset s) (total_rows s) (next_offset s) all.

(** The last piece has been asked for. *)
Definition at_end (s : MY_LIMIT_SCROLLER) : Prop := 0 < total_rows s ∧ total_rows s + start_offset s ≤ next_offset s.

Record scrolling (pre tail : str) (s : MY_LIMIT_SCROLLER) : Prop := {
  scrolling_laid : ∃ o c t, laid pre o c t s ∧ (t = tail ∨ t = " "%char :: List.tl tail) ∧ (at_end s ∨ (c = field 10 (srow_count s) ∧ t = tail));
  scrolling_rows : 0 < srow_count s < 2 ^ 32;
  scrolling_start : 0 ≤ start_offset s ≤ next_offset s;
  scrolling_total : 0 ≤ total_rows s ∧ total_rows s + start_offset s < 2 ^ 64
}.

Lemma wrap_small w z : 0 ≤ z < 2 ^ w → wrap w z = z.
Proof. apply Z.mod_small. Qed.

Lemma signed64_small z : - 2 ^ 63 ≤ z < 2 ^ 63 → signed64 z = z.
Proof.
  intros Hz. unfold signed64, wrap. destruct (Z.ltb_spec z 0).
  - replace (z mod 2 ^ 64) with (z + 2 ^ 64); [destruct (Z.ltb_spec (z + 2 ^ 64) (2 ^ 63)); lia|].
    rewrite <- (Z.mod_small (z + 2 ^ 64) (2 ^ 64)) by lia. rewrite <- (Z_mod_plus_full z 1 (2 ^ 64)). f_equal.
  - rewrite Z.mod_small by lia. destruct (Z.ltb_spec z (2 ^ 63)); lia.
Qed.

Lemma scroller_move_run pre o c tail s : laid pre o c tail s → 0 ≤ next_offset s < 2 ^ 64 →
  ∃ m, scroller_move s = Ok (set_next_offset (wrap 64 (next_offset s + srow_count s)) (with_mem m s)) ∧
    laid pre (field 20 (next_offset s)) c tail (set_next_offset (wrap 64 (next_offset s + srow_count s)) (with_mem m s)).
Proof.
  intros Hl Hn. unfold scroller_move. change (MAX64_BUFF_SIZE - 1)%nat with 20%nat.
  destruct (poke_fields pre o c tail (field 20 (next_offset s)) s Hl (length_field_64 _ Hn)) as (s' & E & Hl' & m & ->). exists m.
  destruct (poke (offset_pos s) (field 20 (next_offset s) ++ nul) s) as [s1| |] eqn:E1; [|done..].
  cbn [mbind res_bind] in *. rewrite (E : poke _ _ s1 = _). cbn [mbind res_bind with_mem next_offset srow_count]. split; [done|].
  destruct Hl'. by split.
Qed.

(** The last piece is cut, a piece behind it is not asked for. *)
Lemma from_to_end start total from all : 0 < total → start + total ≤ from → from_to start total from all = [].
Proof. intros. unfold from_to. rewrite (proj2 (Z.ltb_lt 0 total)) by done. replace (Z.to_nat (start + total - from)) with 0%nat by lia. done. Qed.

Lemma from_to_split start total from n all : 0 ≤ from → 0 ≤ n → total ≤ 0 ∨ from + n ≤ start + total →
  from_to start total from all = take (Z.to_nat n) (drop (Z.to_nat from) all) ++ from_to start total (from + n) all.
Proof.
  intros Hf Hn Ht. unfold from_to. rewrite Z2Nat.inj_add, <- drop_drop by done. set (l := drop (Z.to_nat from) all).
  destruct (Z.ltb_spec 0 total); [|by rewrite take_drop]. replace (start + total - from) with (n + (start + total - (from + n))) by lia.
  rewrite Z2Nat.inj_add by lia. rewrite <- (take_drop (Z.to_nat n) l) at 1.
  destruct (decide (Z.to_nat n ≤ length l)%nat).
  - rewrite take_app_ge by (rewrite length_take; lia). f_equal. f_equal. rewrite length_take. lia.
  - rewrite (drop_ge l), take_nil, app_nil_r by lia. by rewrite take_ge by (rewrite length_take; lia).
Qed.

Lemma from_to_last start total from n all : 0 ≤ from → 0 < total → start + total - from ≤ n → 0 ≤ n →
  from_to start total from all = take (Z.to_nat (start + total - from)) (drop (Z.to_nat from) all) ++ from_to start total (from + n) all.
Proof.
  intros Hf Ht Hle Hn. rewrite (from_to_end _ _ (from + n)), app_nil_r by lia. unfold from_to. by rewrite (proj2 (Z.ltb_lt 0 total)).
Qed.

Lemma from_to_nil start total from n all : 0 ≤ from → 0 < n → take (Z.to_nat n) (drop (Z.to_nat from) all) = [] → from_to start total (from + n) all = [].
Proof.
  intros Hf Hn Hnil. assert (drop (Z.to_nat (from + n)) all = []) as Hd.
  { apply drop_ge. apply (f_equal length) in Hnil. rewrite length_take, length_drop in Hnil. simpl in Hnil. lia. }
  unfold from_to. rewrite Hd. destruct (0 <? total); [apply take_nil|done].
Qed.

Ltac fields := cbn [mjoin option_join default with_mem set_next_offset sbuf offset_pos start_offset total_rows next_offset srow_count query_len query_valid app].

Lemma res_bind_then {A B C} (m : res A) (f : A → res B) (g : B → res C) b : (m ≫= f) = Ok b → (m ≫= (λ a, f a ≫= g)) = g b.
Proof. destruct m; cbn [mbind res_bind]; [|done..]. by intros ->. Qed.

(** The next piece is asked for, or there is none left. *)
Lemma next_piece pre tail all s : pages pre tail all → scrolling pre tail s → tail ≠ [] → next_offset s + srow_count s < 2 ^ 63 →
  ∃ s' out, (s ← scroller_move s; scroller_prefetch server s) = Ok (s', out) ∧ scrolling pre tail s' ∧
    next_offset s' = next_offset s + srow_count s ∧ srow_count s' = srow_count s ∧
    remaining all s = default [] (mjoin out) ++ remaining all s' ∧ (default [] (mjoin out) = [] → remaining all s' = []).
Proof.
  intros Hpages [(o & c & t & Hl & Ht & Hc) Hrows Hstart Htotal] Htail Hn.
  destruct (scroller_move_run _ _ _ _ _ Hl) as (m & -> & Hl'); [lia|]. cbn [mbind res_bind].
  rewrite wrap_small in * by lia. unfold scroller_prefetch, remaining.
  cbn [set_next_offset with_mem total_rows start_offset next_offset srow_count]. rewrite (wrap_small 64 (_ + start_offset s)) by lia.
  destruct ((0 <? total_rows s) && (total_rows s + start_offset s <=? next_offset s + srow_count s)) eqn:Eb.
  - apply andb_prop in Eb as [Hpos%Z.ltb_lt Hle%Z.leb_le].
    assert (total_rows s - (next_offset s + srow_count s - srow_count s - start_offset s) = start_offset s + total_rows s - next_offset s) as -> by lia.
    rewrite signed64_small by lia. destruct (Z.ltb_spec 0 (start_offset s + total_rows s - next_offset s)) as [Hcount|Hzero].
    + destruct Hc as [[_ Hc]|[-> ->]]; [lia|]. destruct tail as [|x tail]; [done|].
      rewrite (wrap_small 32) by lia. change (MAX32_BUFF_SIZE - 1)%nat with 10%nat.
      edestruct (poke_count _ _ _ _ _ (field 10 (start_offset s + total_rows s - next_offset s)) _ Hl') as (s2 & E & Hl2 & m2 & ->); [apply length_field_32; lia|].
      cbn [set_next_offset with_mem offset_pos] in E |- *. rewrite (res_bind_then _ _ _ _ E). cbn [mbind res_bind].
      rewrite (laid_query _ _ _ _ _ Hl2). cbn [mbind res_bind]. rewrite (Hpages _ _ (" "%char :: tail)) by (try lia; by right).
      do 2 eexists. split; [done|]. split; [|split; [done|split; [done|split]]].
      * split; fields; try lia. do 3 eexists. split; [exact Hl2|]. split; [by right|]. left. split; fields; lia.
      * fields. apply from_to_last; lia.
      * intros _. fields. apply from_to_end; lia.
    + cbn [mbind res_bind]. do 2 eexists. split; [done|]. split; [|split; [done|split; [done|split]]].
      * split; fields; try lia. do 3 eexists. split; [exact Hl'|]. split; [done|]. left. split; fields; lia.
      * fields. by rewrite !from_to_end by lia.
      * intros _. fields. apply from_to_end; lia.
  - apply andb_false_iff in Eb. rewrite Z.ltb_ge, Z.leb_gt in Eb. destruct Hc as [[Hc1 Hc2]|[-> ->]]; [lia|]. cbn [mbind res_bind]. rewrite (laid_query _ _ _ _ _ Hl'). cbn [mbind res_bind].
    rewrite Hpages by (try lia; by left). do 2 eexists. split; [done|]. split; [|split; [done|split; [done|split]]].
    + split; fields; try lia. do 3 eexists. split; [exact Hl'|]. split; [by left|]. by right.
    + fields. apply from_to_split; lia.
    + fields. apply from_to_nil; lia.
Qed.

Lemma fetch_next_run pre tail all st : pages pre tail all → tail ≠ [] → scrolling pre tail (scroller st) →
  next_offset (scroller st) + srow_count (scroller st) < 2 ^ 63 →
  ∃ st' r, fetch_next st = Ok (st', r) ∧ scrolling pre tail (scroller st') ∧ srow_count (scroller st') = srow_count (scroller st) ∧
    next_offset (scroller st') ≤ next_offset (scroller st) + srow_count (scroller st) ∧
    rows st ++ remaining all (scroller st) = match r with None => [] | Some x => x :: rows st' ++ remaining all (scroller st') end.
Proof.
  intros Hpages Htail Hs Hn. pose proof (scrolling_rows _ _ _ Hs) as Hr. unfold fetch_next. destruct st as [s [|x rest]]; cbn [rows scroller] in *.
  2: { do 2 eexists. split; [done|]. cbn [rows scroller]. split; [done|]. split; [done|]. split; [lia|done]. }
  destruct (next_piece pre tail all s Hpages Hs Htail Hn) as (s' & out & E & Hs' & Hn' & Hr' & Hrem & Hlast).
  destruct (scroller_move s) as [s1| |]; [|done..]. cbn [mbind res_bind] in E |- *. rewrite E. cbn [mbind res_bind app].
  destruct out as [[[|x rest]|]|]; do 2 eexists; (split; [done|]); cbn [rows scroller]; (split; [done|]); (split; [done|]); (split; [lia|]); rewrite Hrem; [|done|..];
    rewrite (Hlast eq_refl); done.
Qed.

Lemma fetch_pieces_run pre tail all n st : pages pre tail all → tail ≠ [] → scrolling pre tail (scroller st) →
  next_offset (scroller st) + Z.of_nat n * srow_count (scroller st) < 2 ^ 63 →
  ∃ st', fetch_rows n st = Ok (st', take n (rows st ++ remaining all (scroller st))).
Proof.
  intros Hpages Htail. revert st. induction n as [|n IH]; intros st Hs Hn; cbn [fetch_rows]; [by eexists|].
  pose proof (scrolling_rows _ _ _ Hs) as Hr.
  destruct (fetch_next_run pre tail all st Hpages Htail Hs) as (st1 & r & -> & Hs1 & Hr1 & Hn1 & ->); [lia|]. cbn [mbind res_bind].
  destruct r as [x|]; [|by eexists]. destruct (IH st1 Hs1) as (st2 & ->); [lia|]. by eexists.
Qed.

(** ** From the query to its rows *)

Lemma calc_prefetch_bounds selected app_fetchs max_rows : 0 < selected → 0 ≤ app_fetchs → selected + app_fetchs < 2 ^ 32 → 0 ≤ max_rows →
  let r := calc_prefetch_number selected app_fetchs max_rows in
  0 < r ≤ selected + app_fetchs ∧ (0 < max_rows → r ≤ max_rows) ∧
  ((max_rows = 0 ∨ r < max_rows) → selected ≤ r ∧ (1 < app_fetchs → (app_fetchs | r) ∧ r < selected + app_fetchs)).
Proof.
  intros Hs Ha Hsum Hm. unfold calc_prefetch_number. rewrite (proj2 (Z.eqb_neq selected 0)) by lia.
  set (result := if 1 <? app_fetchs then _ else selected).
  assert (0 < result ≤ selected + app_fetchs ∧ selected ≤ result ∧ (1 < app_fetchs → (app_fetchs | result) ∧ result < selected + app_fetchs)) as (H1 & H2 & H3).
  { unfold result. destruct (Z.ltb_spec 1 app_fetchs); [|lia]. pose proof (Z.div_mod selected app_fetchs). pose proof (Z.mod_pos_bound selected app_fetchs).
    pose proof (Z.div_pos selected app_fetchs). destruct (Z.ltb_spec 0 (selected mod app_fetchs)).
    - rewrite !wrap_small; [|nia|rewrite wrap_small; nia]. split; [nia|]. split; [nia|]. intros _. split; [apply Z.divide_factor_l|nia].
    - destruct (Z.ltb_spec selected app_fetchs); [rewrite Z.mod_small in *; lia|]. split; [lia|]. split; [lia|]. intros _. split; [|lia].
      exists (selected / app_fetchs). lia. }
  clearbody result. destruct (Z.ltb_spec 0 max_rows); cbn [andb]; [|split_and!; [lia..|done]].
  destruct (Z.ltb_spec max_rows result); [rewrite wrap_small by lia|]; (split; [lia|]; split; [lia|]); [intros [?|?]; lia|done].
Qed.

Lemma limit_number_bounds d n : limit_number d = Ok n → 0 ≤ n < 2 ^ 63.
Proof. unfold limit_number, atoll. destruct (30 <=? length d)%nat; [done|]. destruct (Z.ltb_spec (Z.of_N (digits_value (leading_digits d))) (2 ^ 63)); [intros [= <-]; lia|done]. Qed.

Lemma wrap_bounds w z : 0 ≤ w → 0 ≤ wrap w z < 2 ^ w.
Proof. intros. apply Z.mod_pos_bound. lia. Qed.

Lemma get_limit_numbers_bounds s o r rest : get_limit_numbers s = Ok (o, r, rest) → 0 ≤ o < 2 ^ 63 ∧ 0 ≤ r < 2 ^ 32.
Proof.
  unfold get_limit_numbers. destruct (collect_while _ _) as [d s1]. case_bool_decide; [intros [= <- <- <-]; lia|].
  destruct (limit_number d) as [n| |] eqn:E; cbn [mbind res_bind]; [|done..]. apply limit_number_bounds in E.
  case_bool_decide; [intros [= <- <- <-]; split; [lia|by apply wrap_bounds]|].
  destruct (collect_while _ _) as [d' s2]. destruct (limit_number d') as [n'| |]; cbn [mbind res_bind]; [|done..]. intros [= <- <- <-]. split; [lia|by apply wrap_bounds].
Qed.

Lemma position_bounds q limit : find_position4limit q = Ok limit →
  0 ≤ offset limit < 2 ^ 63 ∧ 0 ≤ row_count limit < 2 ^ 32 ∧ (begin limit = end_ limit → offset limit = 0).
Proof.
  unfold find_position4limit. destruct (find_token q (length q) (S!"LIMIT")) as [i|] eqn:E.
  - apply find_token_from_spec in E as (_ & _ & Hw). apply same_word_length in Hw. change (length (S!"LIMIT")) with 5%nat in Hw. rewrite length_drop in Hw.
    destruct (get_limit_numbers (drop (i + 5) q)) as [[[o r] rest]| |] eqn:El; cbn [mbind res_bind]; [|done..].
    intros [= <-]. cbn. pose proof (get_limit_numbers_length _ _ _ _ El) as Hlen. rewrite length_drop in Hlen. apply get_limit_numbers_bounds in El. lia.
  - destruct (_ ∪ _) as [[|p]|]; [done|intros [= <-]; cbn; lia|]. intros [= <-]. case_bool_decide; cbn; lia.
Qed.

Lemma create_facts selected app_fetchs max_rows limit :
  0 < selected → 0 ≤ app_fetchs → selected + app_fetchs < 2 ^ 32 → 0 ≤ max_rows < 2 ^ 63 →
  0 ≤ row_count limit < 2 ^ 32 → (begin limit ≠ end_ limit → 0 < row_count limit) →
  let r := create_rows max_rows (calc_prefetch_number selected app_fetchs max_rows) limit in
  0 < r ≤ selected + app_fetchs ∧ (0 < create_total max_rows limit → r ≤ create_total max_rows limit) ∧ 0 ≤ create_total max_rows limit < 2 ^ 63.
Proof.
  intros Hs Ha Hsum Hm Hr Hpos. destruct (calc_prefetch_bounds selected app_fetchs max_rows) as (Hb & Hle & _); try lia.
  set (rc := calc_prefetch_number selected app_fetchs max_rows) in *. clearbody rc. unfold create_rows, create_total. rewrite (Z.max_l max_rows 0) by lia.
  destruct (Nat.eqb_spec (begin limit) (end_ limit)) as [_|Hne]; cbn [negb]; [rewrite andb_false_r; lia|]. specialize (Hpos Hne). rewrite andb_true_r.
  set (total := if 0 <? max_rows then row_count limit `min` max_rows else row_count limit).
  assert (0 < total < 2 ^ 32) as Ht by (unfold total; destruct (Z.ltb_spec 0 max_rows); lia). clearbody total.
  destruct (Z.ltb_spec total rc); [rewrite wrap_small by lia|]; lia.
Qed.

(** The rows between the offset and the bounds that have been read. *)
Definition wanted (max_rows : Z) (limit : MY_LIMIT_CLAUSE) (all : list row) : list row :=
  from_to (offset limit) (create_total max_rows limit) (offset limit) all.

(** The first piece is asked for. *)
Lemma do_query_run opt_PREFETCH array_size max_rows q limit s all :
  find_position4limit q = Ok limit → query_valid s = true → cur_pos (sbuf s) = 0%nat → (length q + 40 ≤ buf_len (sbuf s))%nat →
  let rc := create_rows max_rows (calc_prefetch_number opt_PREFETCH array_size max_rows) limit in
  0 ≤ rc < 2 ^ 32 → offset limit + rc < 2 ^ 63 → pages (take (begin limit) q) (first_tail q limit) all →
  ∃ s2, do_query opt_PREFETCH array_size max_rows q s = Ok (Some (Scrolled s2 (take (Z.to_nat rc) (drop (Z.to_nat (offset limit)) all)))) ∧
    laid (take (begin limit) q) (field 20 (offset limit)) (field 10 rc) (first_tail q limit) s2 ∧
    srow_count s2 = rc ∧ start_offset s2 = offset limit ∧ next_offset s2 = offset limit + rc ∧ total_rows s2 = create_total max_rows limit.
Proof.
  intros Hl Hv Hc Hlen rc Hrc Hsmall Hpages. destruct (position_bounds q limit Hl) as (Ho & _ & _).
  unfold do_query. set (s0 := set_row_count _ (reset s)).
  destruct (scroller_create_run max_rows q limit s0 Hl) as (s1 & -> & Hlaid & Hs1 & Hs2 & Hs3 & Hs4); [done..|exact Hrc|].
  change (srow_count s0) with (calc_prefetch_number opt_PREFETCH array_size max_rows) in Hs1, Hlaid. fold rc in Hs1, Hlaid. clearbody rc s0. cbn [mbind res_bind].
  rewrite (Z.max_l (offset limit) 0) in Hs3 by lia. assert (wrap 64 (next_offset s1 + srow_count s1) = offset limit + rc) as Hw by (rewrite wrap_small; lia).
  destruct (scroller_move_run _ _ _ _ _ Hlaid) as (m & -> & Hlaid'); [lia|]. rewrite Hw in Hlaid' |- *. cbn [mbind res_bind].
  rewrite (laid_query _ _ _ _ _ Hlaid'). cbn [mbind res_bind]. rewrite Hs3, Hpages by (try lia; by left). cbn [fmap option_fmap option_map].
  eexists. split; [done|]. rewrite Hs3 in Hlaid'. split; [exact Hlaid'|]. fields. by rewrite Hs1, Hs2, Hs4.
Qed.

(** A clause that asks for no rows: no piece has any. *)
Lemma fetch_none pre o c tail all s : pages pre tail all → laid pre o (field 10 c) tail s → c = 0 → srow_count s = 0 → total_rows s = 0 → 0 ≤ next_offset s < 2 ^ 63 →
  ∀ n, ∃ st', fetch_rows n (Scrolled s []) = Ok (st', []).
Proof.
  intros Hpages Hl -> Hr Ht Hn [|n]; [by eexists|]. cbn [fetch_rows]. unfold fetch_next. cbn [rows scroller].
  destruct (scroller_move_run _ _ _ _ _ Hl) as (m & -> & Hl'); [lia|]. cbn [mbind res_bind]. unfold scroller_prefetch. fields. rewrite Ht. cbn [Z.ltb Z.compare andb mbind res_bind].
  rewrite (laid_query _ _ _ _ _ Hl'). cbn [mbind res_bind]. rewrite Hpages by (try lia; by left). cbn [Z.to_nat take]. by eexists.
Qed.

Lemma pieces_run opt_PREFETCH array_size max_rows q limit s all n :
  find_position4limit q = Ok limit → query_valid s = true → cur_pos (sbuf s) = 0%nat → (length q + 40 ≤ buf_len (sbuf s))%nat →
  0 < opt_PREFETCH → 0 ≤ array_size → opt_PREFETCH + array_size < 2 ^ 32 → 0 ≤ max_rows < 2 ^ 63 →
  offset limit + Z.of_nat (S n) * (opt_PREFETCH + array_size) < 2 ^ 63 → (begin limit ≠ end_ limit → 0 < row_count limit) →
  pages (take (begin limit) q) (first_tail q limit) all →
  ∃ st st', do_query opt_PREFETCH array_size max_rows q s = Ok (Some st) ∧ fetch_rows n st = Ok (st', take n (wanted max_rows limit all)).
Proof.
  intros Hl Hv Hc Hlen Hsel Happ Hsum Hmax Hsmall Hpos Hpages.
  destruct (position_bounds q limit Hl) as (Ho & Hr & _). destruct (position_in_query q limit Hl) as [Hbe Heq].
  destruct (create_facts opt_PREFETCH array_size max_rows limit) as (Hrc & Hle & Htot); [done..|].
  destruct (do_query_run opt_PREFETCH array_size max_rows q limit s all) as (s2 & -> & Hlaid & Hs1 & Hs2 & Hs3 & Hs4); [done..|lia|nia|done|].
  set (rc := create_rows _ _ limit) in *. clearbody rc. set (st := Scrolled s2 _). exists st.
  assert (scrolling (take (begin limit) q) (first_tail q limit) s2) as Hscroll.
  { split; rewrite ?Hs1, ?Hs2, ?Hs3, ?Hs4; try lia. do 3 eexists. split; [exact Hlaid|]. split; [by left|]. by right. }
  assert (first_tail q limit ≠ []) as Hne by (intros H; apply (f_equal length) in H; rewrite length_first_tail in H by done; simpl in H; lia).
  destruct (fetch_pieces_run _ _ all n st Hpages Hne Hscroll) as (st' & ->).
  { unfold st. cbn [scroller]. rewrite Hs1, Hs3. nia. }
  exists st'. split; [done|]. do 3 f_equal. unfold st, remaining, wanted. cbn [rows scroller]. rewrite Hs2, Hs3, Hs4. symmetry. apply from_to_split; lia.
Qed.

Lemma no_pieces_run opt_PREFETCH array_size max_rows q limit s all n :
  find_position4limit q = Ok limit → query_valid s = true → cur_pos (sbuf s) = 0%nat → (length q + 40 ≤ buf_len (sbuf s))%nat →
  0 < opt_PREFETCH → 0 ≤ array_size → opt_PREFETCH + array_size < 2 ^ 32 → 0 ≤ max_rows < 2 ^ 63 → begin limit ≠ end_ limit → row_count limit = 0 →
  pages (take (begin limit) q) (first_tail q limit) all →
  ∃ st st', do_query opt_PREFETCH array_size max_rows q s = Ok (Some st) ∧ fetch_rows n st = Ok (st', []).
Proof.
  intros Hl Hv Hc Hlen Hsel Happ Hsum Hmax Hne Hzero Hpages. destruct (position_bounds q limit Hl) as (Ho & _ & _).
  assert (create_total max_rows limit = 0) as Htot.
  { unfold create_total. rewrite (proj2 (Nat.eqb_neq _ _)) by done. cbn [negb]. rewrite Hzero. destruct (Z.ltb_spec 0 (max_rows `max` 0)); lia. }
  destruct (calc_prefetch_bounds opt_PREFETCH array_size max_rows) as (Hb & _ & _); [lia..|].
  assert (create_rows max_rows (calc_prefetch_number opt_PREFETCH array_size max_rows) limit = 0) as Hrc.
  { unfold create_rows. rewrite Htot, (proj2 (Nat.eqb_neq _ _)) by done. rewrite (proj2 (Z.ltb_lt _ _)) by lia. done. }
  destruct (do_query_run opt_PREFETCH array_size max_rows q limit s all) as (s2 & -> & Hlaid & Hs1 & Hs2 & Hs3 & Hs4); [done..|rewrite Hrc; lia|rewrite Hrc; lia|done|].
  rewrite Hrc in *. eexists. cbn [Z.to_nat take]. destruct (fetch_none _ _ 0 _ all s2 Hpages Hlaid) with (n := n) as (st' & E); [done..|by rewrite Hs4|lia|].
  exists st'. done.
Qed.


(** ** A clause that is written can be read again *)

(** The classes of the characters in question, in every character set of the
    driver. *)
Class AsciiClasses : Prop := {
  digit_is_num c s : is_digit c = true → myodbc_isnum (c :: s) = true;
  digit_no_space c s : is_digit c = true → myodbc_isspace (c :: s) = false;
  space_is_space s : myodbc_isspace (" "%char :: s) = true;
  space_no_num s : myodbc_isnum (" "%char :: s) = false;
  comma_no_num s : myodbc_isnum (","%char :: s) = false;
  semicolon_no_num s : myodbc_isnum (";"%char :: s) = false
}.

Lemma skip_spaces_field `{AsciiClasses} k c t : is_digit c = true → skip_while myodbc_isspace (replicate k " "%char ++ c :: t) = c :: t.
Proof. intros Hc. induction k as [|k IH]; cbn [replicate app skip_while]; [by rewrite digit_no_space|by rewrite space_is_space]. Qed.

Lemma skip_blank_field `{AsciiClasses} k c t : is_digit c = true → skip_while (λ s, negb (myodbc_isnum s)) (replicate k " "%char ++ c :: t) = c :: t.
Proof. intros Hc. induction k as [|k IH]; cbn [replicate app skip_while]; [by rewrite digit_is_num|by rewrite space_no_num]. Qed.

Lemma collect_digits `{AsciiClasses} d t : Forall (λ c, is_digit c = true) d → (t = [] ∨ myodbc_isnum t = false) → collect_while myodbc_isnum (d ++ t) = (d, t).
Proof.
  intros Hd Ht. induction Hd as [|c d Hc Hd IH]; cbn [app collect_while].
  - destruct t as [|c t]; [done|]. destruct Ht as [|Ht]; [done|]. cbn [collect_while]. by rewrite Ht.
  - rewrite digit_is_num by done. by rewrite IH.
Qed.

Lemma to_string_digits z : 0 ≤ z → Forall (λ c, is_digit c = true) (to_string z) ∧ Z.of_N (digits_value (to_string z)) = z ∧ to_string z ≠ [].
Proof.
  intros Hz. assert (to_string z = N_to_string (Z.to_N z)) as -> by (by destruct z). destruct (N_to_string_value (Z.to_N z)) as [Hv Hd]. rewrite Hv.
  split; [done|]. split; [lia|]. unfold N_to_string. cbn [pos_digits]. destruct (_ <? 10)%N; [done|]. rewrite pos_digits_app. intros [_ ?]%app_eq_nil. done.
Qed.

Lemma limit_number_of z w : 0 ≤ z < 2 ^ 63 → length (field w z) = w → (w < 30)%nat → limit_number (to_string z) = Ok z.
Proof.
  intros Hz Hl Hw. unfold limit_number, atoll, field in *. rewrite length_app, length_replicate in Hl. rewrite (proj2 (Nat.leb_gt 30 _)) by lia.
  destruct (to_string_digits z) as (Hd & Hv & _); [lia|]. rewrite leading_digits_all, Hv, (proj2 (Z.ltb_lt _ _)) by (done || lia). done.
Qed.

Lemma limit_written_reads `{AsciiClasses} pre o c tail :
  0 ≤ o < 2 ^ 63 → 0 ≤ c < 2 ^ 32 → (tail = [] ∨ myodbc_isnum tail = false) →
  get_limit_numbers (drop (length pre + 6) (laid_text pre (field 20 o) (field 10 c) tail)) = Ok (o, c, tail).
Proof.
  intros Ho Hc Ht. pose proof (length_field_64 o) as Hlo. pose proof (length_field_32 c Hc) as Hlc.
  assert (drop (length pre + 6) (laid_text pre (field 20 o) (field 10 c) tail) = " "%char :: field 20 o ++ ","%char :: field 10 c ++ tail) as ->.
  { unfold laid_text. rewrite <- drop_drop, drop_app_length. reflexivity. }
  pose proof (limit_number_of o 20 Ho (Hlo ltac:(lia)) ltac:(lia)) as Eo. pose proof (limit_number_of c 10 ltac:(lia) Hlc ltac:(lia)) as Ec.
  destruct (to_string_digits o) as (Hdo & _ & Hno); [lia|]. destruct (to_string_digits c) as (Hdc & _ & Hnc); [lia|].
  unfold field in *. set (no := to_string o) in *. set (nc := to_string c) in *. clearbody no nc. rewrite <- !app_assoc.
  unfold get_limit_numbers. cbn [skip_while]. rewrite space_is_space.
  destruct no as [|d0 no]; [done|]. pose proof (Forall_inv Hdo) as Hd0. cbn [app]. rewrite skip_spaces_field by done.
  rewrite (app_comm_cons no _ d0), collect_digits by (done || right; apply comma_no_num). rewrite bool_decide_false by done. rewrite Eo. cbn [mbind res_bind skip_while].
  rewrite comma_no_num. cbn [negb]. destruct nc as [|c0 nc]; [done|]. pose proof (Forall_inv Hdc) as Hc0. cbn [app]. rewrite skip_blank_field by done.
  rewrite bool_decide_false by done. rewrite (app_comm_cons nc _ c0), collect_digits by done. rewrite Ec. cbn [mbind res_bind]. by rewrite wrap_small.
Qed.

(** the clause of a piece, read the way the driver reads the clause of a query,
    is the piece: fields of 20 and of 10 characters hold every offset below 2^63 and
    every number of rows below 2^32. *)
Theorem limit_written_is_read `{AsciiClasses} pre o c tail :
  0 ≤ o < 2 ^ 63 → 0 ≤ c < 2 ^ 32 → (tail = [] ∨ myodbc_isnum tail = false) →
  get_limit_numbers (drop (length pre + 6) (laid_text pre (field 20 o) (field 10 c) tail)) = Ok (o, c, tail).
Proof. apply limit_written_reads. Qed.

(** ** The LIMIT clause of SQL

    The clause a query has, and the rows it selects out of the ones of the query
    without it. *)
Inductive clause := No_limit | Limit_rows (n : Z) | Limit_offset_rows (o n : Z).

#[global] Instance clause_eq_dec : EqDecision clause.
Proof. solve_decision. Defined.

Definition selects (c : clause) (all : list row) : list row :=
  match c with
  | No_limit => all
  | Limit_rows n => take (Z.to_nat n) all
  | Limit_offset_rows o n => take (Z.to_nat n) (drop (Z.to_nat o) all)
  end.

(** With the bound on the rows of the statement (SQL_ATTR_MAX_ROWS), 0 for none. *)
Definition rows_asked (c : clause) (max_rows : Z) (all : list row) : list row :=
  if 0 <? max_rows then take (Z.to_nat max_rows) (selects c all) else selects c all.

Definition spaces (k : nat) : str := replicate k " "%char.

(** How a clause is written. *)
Inductive clause_written (word : str) : clause → str → Prop :=
  | Written_rows k n : 0 ≤ n < 2 ^ 32 → clause_written word (Limit_rows n) (word ++ spaces (S k) ++ to_string n)
  | Written_offset_rows k j l o n : 0 ≤ o < 2 ^ 63 → 0 ≤ n < 2 ^ 32 →
      clause_written word (Limit_offset_rows o n) (word ++ spaces (S k) ++ to_string o ++ spaces j ++ S!"," ++ spaces l ++ to_string n).

Definition offset_of (c : clause) : Z := match c with Limit_offset_rows o _ => o | _ => 0 end.
Definition count_of (c : clause) : Z := match c with No_limit => 0 | Limit_rows n | Limit_offset_rows _ n => n end.

(** A query with a clause: what is before it, and what is kept behind it.

    Without a clause, the place is the one that is found for one.  Else the word is
    the last one of the query that starts with LIMIT; behind one number there are only
    spaces and semicolons, and they are dropped; a second number does not go on. *)
Inductive has_clause (q : str) : clause → str → str → Prop :=
  | Has_none pre kept : q = pre ++ kept → find_position4limit q = Ok (Limit 0 0 (length pre) (length pre)) → has_clause q No_limit pre kept
  | Has_clause c word text pre kept ending :
      q = pre ++ text ++ ending → clause_written word c text → length word = 5%nat → find_token q (length q) (S!"LIMIT") = Some (length pre) →
      match c with Limit_rows _ => Forall (λ x, x = " "%char ∨ x = ";"%char) ending ∧ kept = [] | _ => (ending = [] ∨ myodbc_isnum ending = false) ∧ kept = ending end →
      has_clause q c pre kept.

Definition limit_of (c : clause) (q pre kept : str) : MY_LIMIT_CLAUSE := Limit (offset_of c) (count_of c) (length pre) (length q - length kept).

Lemma written_numbers `{AsciiClasses} k n rest : 0 ≤ n < 2 ^ 63 → (rest = [] ∨ myodbc_isnum rest = false) →
  collect_while myodbc_isnum (skip_while myodbc_isspace (spaces k ++ to_string n ++ rest)) = (to_string n, rest) ∧
  (∀ l, skip_while (λ s, negb (myodbc_isnum s)) (spaces l ++ to_string n ++ rest) = to_string n ++ rest) ∧ to_string n ≠ [] ∧ limit_number (to_string n) = Ok n.
Proof.
  intros Hn Hr. destruct (to_string_digits n) as (Hd & _ & Hne); [lia|].
  pose proof (limit_number_of n 20 Hn (length_field_64 n ltac:(lia)) ltac:(lia)) as Hnum. set (t := to_string n) in *. clearbody t.
  destruct t as [|d t]; [done|]. pose proof (Forall_inv Hd) as Hd0. unfold spaces. cbn [app].
  rewrite skip_spaces_field, app_comm_cons by done. rewrite collect_digits by done. split; [done|]. split; [|done]. intros l. cbn [app]. by apply skip_blank_field.
Qed.

Lemma skip_ending `{AsciiClasses} ending : Forall (λ x, x = " "%char ∨ x = ";"%char) ending → skip_while (λ s, negb (myodbc_isnum s)) ending = [].
Proof. induction 1 as [|x l [-> | ->] _ IH]; cbn [skip_while]; [done|rewrite space_no_num; done|rewrite semicolon_no_num; done]. Qed.

Lemma skip_comma `{AsciiClasses} j l t : skip_while (λ s, negb (myodbc_isnum s)) (spaces j ++ S!"," ++ spaces l ++ t) = skip_while (λ s, negb (myodbc_isnum s)) (spaces l ++ t).
Proof.
  generalize (spaces l ++ t). intros u. induction j as [|j IH].
  - change (skip_while (λ s, negb (myodbc_isnum s)) (","%char :: u) = skip_while (λ s, negb (myodbc_isnum s)) u). cbn [skip_while]. by rewrite comma_no_num.
  - unfold spaces. cbn [replicate app skip_while]. rewrite space_no_num. exact IH.
Qed.

(** The numbers of a clause that is written are found. *)
Lemma written_found `{AsciiClasses} c word text ending : clause_written word c text → length word = 5%nat →
  match c with Limit_rows _ => Forall (λ x, x = " "%char ∨ x = ";"%char) ending | _ => ending = [] ∨ myodbc_isnum ending = false end →
  get_limit_numbers (drop 5 (text ++ ending)) = Ok (offset_of c, count_of c, match c with Limit_rows _ => [] | _ => ending end).
Proof.
  intros Hw Hlen Hend. destruct Hw as [k n Hn|k j l o n Ho Hn]; rewrite <- !app_assoc, <- Hlen, drop_app_length; unfold get_limit_numbers.
  - destruct (written_numbers (S k) n ending) as (-> & _ & Hne & Hnum); [lia| |].
    { destruct Hend as [|x e [-> | ->] _]; [by left|right; apply space_no_num|right; apply semicolon_no_num]. }
    rewrite bool_decide_false by done. rewrite Hnum. cbn [mbind res_bind]. rewrite skip_ending, bool_decide_true by done. by rewrite wrap_small.
  - destruct (written_numbers (S k) o (spaces j ++ S!"," ++ spaces l ++ to_string n ++ ending)) as (-> & _ & Hne & Hnum); [lia| |].
    { right. destruct j; [exact (comma_no_num _)|exact (space_no_num _)]. }
    rewrite bool_decide_false by done. rewrite Hnum. cbn [mbind res_bind]. rewrite skip_comma.
    destruct (written_numbers 0 n ending) as (_ & Hskip & Hne' & Hnum'); [lia|done|]. rewrite Hskip.
    rewrite bool_decide_false by (intros [? _]%app_eq_nil; done). destruct (to_string_digits n) as (Hd & _ & _); [lia|].
    rewrite collect_digits by done. rewrite Hnum'. cbn [mbind res_bind]. by rewrite wrap_small.
Qed.

Lemma drop_end (a b : str) : drop (length (a ++ b) - length b) (a ++ b) = b.
Proof. rewrite length_app. replace (length a + length b - length b)%nat with (length a) by lia. apply drop_app_length. Qed.

Lemma clause_found `{AsciiClasses} q c pre kept : has_clause q c pre kept →
  find_position4limit q = Ok (limit_of c q pre kept) ∧ take (length pre) q = pre ∧ drop (length q - length kept) q = kept ∧
  0 ≤ offset_of c < 2 ^ 63 ∧ 0 ≤ count_of c < 2 ^ 32 ∧ (c = No_limit ↔ length pre = (length q - length kept)%nat).
Proof.
  intros [pre' kept' -> Hp|c' word text pre' kept' ending -> Hw Hlen Hf Hend].
  - unfold limit_of. rewrite length_app. replace (length pre' + length kept' - length kept')%nat with (length pre') by lia.
    rewrite take_app_length, drop_app_length. split_and!; (done || cbn; lia).
  - assert (5 < length text)%nat as Htext.
    { destruct Hw as [k n Hn|k j l o n Ho Hn]; rewrite !length_app, Hlen; cbn [length spaces replicate]; lia. }
    assert (match c' with Limit_rows _ => Forall (λ x, x = " "%char ∨ x = ";"%char) ending | _ => ending = [] ∨ myodbc_isnum ending = false end) as He by (destruct c'; apply Hend).
    assert (kept' = match c' with Limit_rows _ => [] | _ => ending end) as -> by (destruct c'; apply Hend).
    unfold find_position4limit. rewrite Hf, <- drop_drop, drop_app_length, (written_found c' word) by done. cbn [mbind res_bind]. rewrite take_app_length.
    split; [done|]. split; [done|]. split.
    { rewrite app_assoc. destruct c'; [apply drop_end| |apply drop_end]. by rewrite drop_ge by (cbn [length]; lia). }
    split; [destruct Hw; cbn; lia|]. split; [destruct Hw; cbn; lia|]. rewrite !length_app. clear -Htext Hw. destruct Hw; cbn [length]; split; (done || lia).
Qed.

(** What has been read is what the clause selects. *)
Lemma wanted_asked c q pre kept max_rows all : 0 ≤ max_rows → 0 ≤ offset_of c → 0 ≤ count_of c →
  (c = No_limit ↔ length pre = (length q - length kept)%nat) → (c ≠ No_limit → 0 < count_of c) →
  wanted max_rows (limit_of c q pre kept) all = rows_asked c max_rows all.
Proof.
  intros Hm Ho Hc Hnone Hpos. unfold wanted, from_to, create_total, rows_asked, limit_of. cbn [begin end_ offset row_count]. rewrite (Z.max_l max_rows 0) by lia.
  destruct (Nat.eqb_spec (length pre) (length q - length kept)) as [He|He]; cbn [negb].
  - apply Hnone in He as ->. cbn [offset_of selects]. destruct (0 <? max_rows); [|done]. by replace (0 + max_rows - 0) with max_rows by lia.
  - assert (c ≠ No_limit) as Hne by (intros ->; apply He, Hnone; done). specialize (Hpos Hne).
    assert (selects c all = take (Z.to_nat (count_of c)) (drop (Z.to_nat (offset_of c)) all)) as -> by (destruct c; done).
    destruct (Z.ltb_spec 0 max_rows); rewrite (proj2 (Z.ltb_lt 0 _)) by lia; [rewrite take_take; f_equal; lia|f_equal; lia].
Qed.

Lemma asked_none c max_rows all : c ≠ No_limit → count_of c = 0 → rows_asked c max_rows all = [].
Proof. intros Hc Hz. assert (selects c all = []) as E by (destruct c; cbn in *; subst; done). unfold rows_asked. rewrite E. destruct (_ <? _); [apply take_nil|done]. Qed.

(** The end of a query that is sent: what is kept, over a null byte and spaces. *)
Definition sent_tail (q pre kept : str) : str := kept ++ drop (length kept) (nul ++ spaces (length q - length pre)).

(** C17: a statement that is run with prefetching gives its rows.  Let the query have
    no LIMIT clause (then one is put at its end, or before what locks the rows or a
    semicolon), or LIMIT n, or LIMIT o, n (LIMIT n OFFSET o is left out: the driver
    takes n for the offset), as its last word that starts with LIMIT, with o below 2^63, n
    below 2^32, and behind LIMIT n only spaces and semicolons (the driver drops what is
    there); let the server, asked for some rows from an offset on, give these rows of the
    query without its clause; and let the text fit into the memory of the statement.  Then
    however many rows are fetched, with however many pieces, they are the rows that SQL says
    the clause selects (the first n, or n of them behind the first o), at most as many as the
    bound on the rows of the statement, in their order, none twice and none left out; the end
    is found when there are no more.  (The sizes of the rowset and of the pieces are below
    2^32, the places of the rows that are asked for below 2^63.) *)
Theorem prefetch_delivers `{AsciiClasses} opt_PREFETCH array_size max_rows q c pre kept s all n :
  has_clause q c pre kept →
  query_valid s = true → cur_pos (sbuf s) = 0%nat → (length q + 40 ≤ buf_len (sbuf s))%nat →
  0 < opt_PREFETCH → 0 ≤ array_size → opt_PREFETCH + array_size < 2 ^ 32 → 0 ≤ max_rows < 2 ^ 63 →
  offset_of c + Z.of_nat (S n) * (opt_PREFETCH + array_size) < 2 ^ 63 →
  pages pre (sent_tail q pre kept) all →
  ∃ st st', do_query opt_PREFETCH array_size max_rows q s = Ok (Some st) ∧ fetch_rows n st = Ok (st', take n (rows_asked c max_rows all)).
Proof.
  intros Hq Hv Hcur Hlen Hsel Happ Hsum Hmax Hsmall Hpages. destruct (clause_found q c pre kept Hq) as (Hl & Hpre & Hkept & Ho & Hcount & Hnone).
  destruct (position_in_query q _ Hl) as [_ Hend]. cbn [limit_of end_] in Hend.
  assert (length kept ≤ length q)%nat as Hkl by (pose proof (f_equal length Hkept) as Hd; rewrite length_drop in Hd; lia).
  assert (first_tail q (limit_of c q pre kept) = sent_tail q pre kept) as Htail.
  { unfold first_tail, sent_tail. cbn [limit_of end_ begin]. rewrite Hkept. by replace (length q - (length q - length kept))%nat with (length kept) by lia. }
  rewrite <- Htail in Hpages. rewrite <- Hpre in Hpages at 1.
  destruct (decide (c = No_limit ∨ 0 < count_of c)) as [Hpos|Hzero].
  - destruct (pieces_run opt_PREFETCH array_size max_rows q (limit_of c q pre kept) s all n) as (st & st' & E & E'); [done..|cbn [limit_of begin end_ row_count]; tauto|done|].
    exists st, st'. split; [done|]. rewrite E', wanted_asked; try (done || lia). tauto.
  - assert (c ≠ No_limit ∧ count_of c = 0) as [Hne Hz] by (split; [tauto|lia]).
    destruct (no_pieces_run opt_PREFETCH array_size max_rows q (limit_of c q pre kept) s all n) as (st & st' & E & E'); [done..|cbn [limit_of begin end_]; tauto|done|done|].
    exists st, st'. rewrite asked_none, take_nil by done. done.
Qed.

(** Memory that is moved leaves [query] behind: a query whose text does not fit
    into the first memory is written to memory that has been given back. *)
Lemma moved_memory max_rows q limit s :
  find_position4limit q = Ok limit → cur_pos (sbuf s) = 0%nat → (buf_len (sbuf s) < length q + 40)%nat → scroller_create max_rows q s = UB.
Proof.
  intros Hl Hc Hlen. unfold scroller_create. rewrite Hl. cbn [mbind res_bind]. unfold extend_buf, extend_buffer. scroll. rewrite Hc, bool_decide_false by lia.
  unfold buf_len in *. rewrite bool_decide_true by (unfold MAX64_BUFF_SIZE, MAX32_BUFF_SIZE; lia). scroll.
  rewrite bool_decide_false; [by rewrite andb_false_r|]. rewrite length_app, length_new_memory. lia.
Qed.

End Scroller.

(** ** Queries *)

(** The classes of the ASCII characters. *)
Definition ascii_charset : Charset := λ s,
  match s with
  | c :: _ => (if is_digit c then 4 else if CppString.is_space c then 8 else 0, 1)
  | [] => (0, 0)
  end.

Lemma ascii_classes : @AsciiClasses ascii_charset.
Proof.
  split; [|intros c s Hc|done..]; unfold myodbc_isnum, myodbc_isspace, char_class, cs_ctype, ascii_charset; cbn [fst]; [intros c s -> |rewrite Hc]; done.
Qed.

Definition zeros : nat → ascii := λ _, Ascii.zero.
Definition ex_scroller : MY_LIMIT_SCROLLER := new_scroller zeros.

(** [LIMIT 10 OFFSET 5], which asks for ten rows, is read as an offset of ten and
    five rows: the rows 10 to 14 are got in place of the rows 5 to 14. *)
Example limit_offset_swapped :
  @find_position4limit ascii_charset (S!"SELECT a FROM t LIMIT 10 OFFSET 5") = Ok (Limit 10 5 16 33).
Proof. reflexivity. Qed.

(** Behind one number everything is skipped in search of the other: what locks the
    rows is not sent. *)
Example locking_lost :
  @find_position4limit ascii_charset (S!"SELECT a FROM t LIMIT 5 FOR UPDATE") = Ok (Limit 0 5 16 34) ∧
  @find_position4limit ascii_charset (S!"SELECT a FROM t LIMIT 1, 5 FOR UPDATE") = Ok (Limit 1 5 16 26).
Proof. split; reflexivity. Qed.

(** Any word that starts with LIMIT is taken for the clause. *)
Example limit_prefix :
  @find_position4limit ascii_charset (S!"SELECT a FROM t ORDER BY limit_date") = Ok (Limit 0 0 25 30).
Proof. reflexivity. Qed.

(** A number of rows is cut to 32 bits. *)
Example limit_cut : @find_position4limit ascii_charset (S!"SELECT a FROM t LIMIT 4294967296") = Ok (Limit 0 0 16 32).
Proof. reflexivity. Qed.

(** The clause goes before what locks the rows, or a semicolon. *)
Example limit_before_locking :
  @find_position4limit ascii_charset (S!"SELECT a FROM t FOR UPDATE") = Ok (Limit 0 0 15 15) ∧
  @find_position4limit ascii_charset (S!"SELECT a FROM t LOCK IN SHARE MODE") = Ok (Limit 0 0 15 15) ∧
  @find_position4limit ascii_charset (S!"SELECT a FROM t;  ") = Ok (Limit 0 0 15 15).
Proof. split_and!; reflexivity. Qed.

Definition ex_select : str := S!"SELECT id FROM t ORDER BY id limit 2, 7".

(** A server that reads the clause, of a table of sixteen rows. *)
Definition ex_rows : list Z := seqZ 1 16.
Definition ex_server (t : str) : option (list Z) :=
  match @get_limit_numbers ascii_charset (drop (29 + 6) t) with
  | Ok (o, c, _) => Some (take (Z.to_nat c) (drop (Z.to_nat o) ex_rows))
  | _ => None
  end.

Lemma ex_pages : pages ex_server (take 29 ex_select) (sent_tail ex_select (take 29 ex_select) []) ex_rows.
Proof.
  pose proof ascii_classes. intros o c t Ho Hc Ht. unfold ex_server.
  rewrite (limit_written_reads (take 29 ex_select) o c t Ho Hc); [done|]. destruct Ht as [-> | ->]; right; reflexivity.
Qed.

Lemma ex_clause : @has_clause ascii_charset ex_select (Limit_offset_rows 2 7) (take 29 ex_select) [].
Proof.
  apply (Has_clause _ _ (S!"limit") (S!"limit 2, 7") _ _ []); [reflexivity| |reflexivity|reflexivity|by split; [left|]].
  apply (Written_offset_rows (S!"limit") 0 0 1 2 7); lia.
Qed.

(** Seven rows from the third on, of a rowset of four in pieces of three. *)
Lemma prefetch_delivers_witness :
  (∃ st st', @do_query ascii_charset zeros Z ex_server 3 1 0 ex_select ex_scroller = Ok (Some st) ∧ fetch_rows ex_server 4 st = Ok (st', [3; 4; 5; 6])) ∧
  (∃ st st', @do_query ascii_charset zeros Z ex_server 3 1 0 ex_select ex_scroller = Ok (Some st) ∧ fetch_rows ex_server 20 st = Ok (st', [3; 4; 5; 6; 7; 8; 9])).
Proof.
  split; [exact (@prefetch_delivers ascii_charset zeros Z ex_server ascii_classes 3 1 0 ex_select _ _ _ ex_scroller ex_rows 4 ex_clause
    eq_refl eq_refl ltac:(apply (bool_decide_unpack _); vm_compute; exact I) ltac:(lia) ltac:(lia) ltac:(lia) ltac:(lia) ltac:(cbn; lia) ex_pages)|].
  exact (@prefetch_delivers ascii_charset zeros Z ex_server ascii_classes 3 1 0 ex_select _ _ _ ex_scroller ex_rows 20 ex_clause
    eq_refl eq_refl ltac:(apply (bool_decide_unpack _); vm_compute; exact I) ltac:(lia) ltac:(lia) ltac:(lia) ltac:(lia) ltac:(cbn; lia) ex_pages).
Defined.

Lemma limit_written_is_read_witness :
  @get_limit_numbers ascii_charset (drop (3 + 6) (laid_text (S!"abc") (field 20 (2 ^ 63 - 1)) (field 10 4294967295) (S!";"))) = Ok (2 ^ 63 - 1, 4294967295, S!";").
Proof. apply (@limit_written_is_read ascii_charset ascii_classes (S!"abc")); [lia|lia|right; reflexivity]. Defined.
