(* ===== verification/Types.v ===== *)
(** What a column is to an application (src/driver/utility.cc): the SQL type of a field
    of a result, its sizes, the C type its values are converted to, and what the
    catalog functions say of the same column. *)

From S2P Require Import Prelude CppString Errors Descriptors Params.

Local Open Scope Z_scope.

(** ** Types *)

(** [src/include/mysql-8.0/field_types.h:52-90] enum_field_types *)
Inductive field_type :=
  | MYSQL_TYPE_DECIMAL | MYSQL_TYPE_TINY | MYSQL_TYPE_SHORT | MYSQL_TYPE_LONG | MYSQL_TYPE_FLOAT | MYSQL_TYPE_DOUBLE | MYSQL_TYPE_NULL
  | MYSQL_TYPE_TIMESTAMP | MYSQL_TYPE_LONGLONG | MYSQL_TYPE_INT24 | MYSQL_TYPE_DATE | MYSQL_TYPE_TIME | MYSQL_TYPE_DATETIME | MYSQL_TYPE_YEAR
  | MYSQL_TYPE_NEWDATE | MYSQL_TYPE_VARCHAR | MYSQL_TYPE_BIT | MYSQL_TYPE_TIMESTAMP2 | MYSQL_TYPE_DATETIME2 | MYSQL_TYPE_TIME2 | MYSQL_TYPE_TYPED_ARRAY
  | MYSQL_TYPE_INVALID | MYSQL_TYPE_BOOL | MYSQL_TYPE_JSON | MYSQL_TYPE_NEWDECIMAL | MYSQL_TYPE_ENUM | MYSQL_TYPE_SET | MYSQL_TYPE_TINY_BLOB
  | MYSQL_TYPE_MEDIUM_BLOB | MYSQL_TYPE_LONG_BLOB | MYSQL_TYPE_BLOB | MYSQL_TYPE_VAR_STRING | MYSQL_TYPE_STRING | MYSQL_TYPE_GEOMETRY.

#[export] Instance field_type_eq_dec : EqDecision field_type.
Proof. solve_decision. Defined.

(** [src/include/mysql-8.0/mysql.h:120-142] MYSQL_FIELD

    The members that are read; the names of the column and the rest are not. *)
Record MYSQL_FIELD := Field {
  ftype : field_type; flength : Z; max_len : Z; flags : Z; decimals : Z; charsetnr : Z; org_table_length : Z }.

Definition UNSIGNED_FLAG : Z := 32.
Definition BINARY_FLAG : Z := 128.
Definition NUM_FLAG : Z := 32768.
Definition flag (m : Z) (f : MYSQL_FIELD) : bool := negb (Z.land (flags f) m =? 0).
Definition is_unsigned (f : MYSQL_FIELD) : bool := flag UNSIGNED_FLAG f.

Definition BINARY_CHARSET_NUMBER : Z := 63.
Definition INT_MAX32 : Z := 2 ^ 31 - 1.
Definition SQL_NO_TOTAL : Z := -4.

(** The types of sql.h and sqlext.h that other files do not have. *)
Definition SQL_UNKNOWN_TYPE : Z := 0.
Definition SQL_CHAR : Z := 1.
Definition SQL_INTEGER : Z := 4.
Definition SQL_SMALLINT : Z := 5.
Definition SQL_DATE : Z := 9.
Definition SQL_TIME : Z := 10.
Definition SQL_TIMESTAMP : Z := 11.
Definition SQL_TYPE_DATE : Z := 91.
Definition SQL_TYPE_TIME : Z := 92.
Definition SQL_TYPE_TIMESTAMP : Z := 93.
Definition SQL_LONGVARCHAR : Z := -1.
Definition SQL_BINARY : Z := -2.
Definition SQL_VARBINARY : Z := -3.
Definition SQL_LONGVARBINARY : Z := -4.
Definition SQL_BIGINT : Z := -5.
Definition SQL_TINYINT : Z := -6.
Definition SQL_WCHAR : Z := -8.
Definition SQL_WVARCHAR : Z := -9.
Definition SQL_WLONGVARCHAR : Z := -10.
Definition SQL_C_BIT : Z := -7.
Definition SQL_C_TINYINT : Z := -6.
Definition SQL_C_STINYINT : Z := -26.
Definition SQL_C_UTINYINT : Z := -28.
Definition SQL_C_SHORT : Z := 5.
Definition SQL_C_SSHORT : Z := -15.
Definition SQL_C_USHORT : Z := -17.
Definition SQL_C_LONG : Z := 4.
Definition SQL_C_SLONG : Z := -16.
Definition SQL_C_ULONG : Z := -18.
Definition SQL_C_FLOAT : Z := 7.
Definition SQL_C_DOUBLE : Z := 8.
Definition SQL_C_SBIGINT : Z := -25.
Definition SQL_C_UBIGINT : Z := -27.

(** The statement and its connection, as far as they matter: the version of ODBC, the
    character set of the connection and its options. *)
Record column_env := Env {
  odbc_ver : Z; unicode : bool; ansi_charset : Z; ansi_mbmaxlen : Z;
  opt_NO_BINARY_RESULT : bool; opt_NO_BIGINT : bool; opt_COLUMN_SIZE_S32 : bool; opt_PAD_SPACE : bool }.

Section Types.
(** The character sets of the client library: the longest character of one, in
    bytes. *)
Context (get_charset : Z → option Z).

(** [src/util/stringutil.cc:841-1166] charset_collation_info

    The longest characters; the number of an entry is its place. *)
Definition charset_maxlens : list Z := [
    0; 2; 1; 1; 1; 1; 1; 1; 1; 1; 1; 1; 3; 2; 1; 1; 1; 0; 1; 2; 1; 1; 1; 1; 2; 1; 1;
    1; 2; 1; 1; 1; 1; 3; 1; 2; 1; 1; 1; 1; 1; 1; 1; 1; 1; 4; 4; 1; 1; 1; 1; 1; 1; 1;
    4; 4; 4; 1; 1; 1; 4; 4; 4; 1; 1; 1; 1; 1; 1; 1; 1; 1; 1; 1; 1; 1; 3; 1; 1; 1; 1;
    1; 1; 3; 2; 2; 2; 2; 2; 1; 2; 3; 1; 1; 1; 2; 2; 3; 3; 1; 0; 4; 4; 4; 4; 4; 4; 4;
    4; 4; 4; 4; 4; 4; 4; 4; 4; 4; 4; 4; 4; 4; 4; 4; 4; 0; 0; 0; 2; 2; 2; 2; 2; 2; 2;
    2; 2; 2; 2; 2; 2; 2; 2; 2; 2; 2; 2; 2; 2; 2; 2; 2; 0; 0; 0; 0; 0; 0; 0; 2; 4; 4;
    4; 4; 4; 4; 4; 4; 4; 4; 4; 4; 4; 4; 4; 4; 4; 4; 4; 4; 4; 4; 4; 4; 0; 0; 0; 0; 0;
    0; 0; 0; 3; 3; 3; 3; 3; 3; 3; 3; 3; 3; 3; 3; 3; 3; 3; 3; 3; 3; 3; 3; 3; 3; 3; 3;
    0; 0; 0; 0; 0; 0; 0; 3; 4; 4; 4; 4; 4; 4; 4; 4; 4; 4; 4; 4; 4; 4; 4; 4; 4; 4; 4;
    4; 4; 4; 4; 4; 4; 4; 4; 0; 0; 0; 0; 4; 4; 4; 4; 4; 4; 4; 4; 4; 4; 4; 4; 4; 4; 4;
    4; 4; 0; 4; 4; 4; 0; 4; 4; 4; 4; 4; 4; 4; 4; 4; 4; 4; 4; 4; 4; 4; 4; 4; 4; 0; 4;
    4; 4; 0; 4; 0; 0; 4; 4; 4; 4; 4; 4; 4; 4; 4; 4; 4; 4; 4; 4; 4; 4; 4; 4; 4; 4; 4 ].

(** [src/util/stringutil.cc:1169-1175] get_charset_maxlen *)
Definition get_charset_maxlen (num : Z) : Z := if num <? 324 then nth (Z.to_nat num) charset_maxlens 0 else 0.

(** ** The SQL type of a field *)

(** [src/driver/utility.cc:1157-1159] get_sql_data_type *)
Definition field_is_binary (e : column_env) (f : MYSQL_FIELD) : bool :=
  (charsetnr f =? BINARY_CHARSET_NUMBER) && ((0 <? org_table_length f) || negb (opt_NO_BINARY_RESULT e)).

Definition text_type (e : column_env) (f : MYSQL_FIELD) (binary wide narrow : Z) : Z :=
  if field_is_binary e f then binary else if unicode e && negb (charsetnr f =? ansi_charset e) then wide else narrow.

Definition odbc3 (e : column_env) (new old : Z) : Z := if odbc_ver e =? SQL_OV_ODBC3 then new else old.
Definition with_unsigned (f : MYSQL_FIELD) (s : str) : str := if is_unsigned f then s ++ S!" unsigned" else s.

(** [src/driver/utility.cc:1155-1379] get_sql_data_type

    The type and its name. *)
Definition get_sql_data_type (e : column_env) (f : MYSQL_FIELD) : Z * str :=
  let b := field_is_binary e f in
  let name (x y : str) := if b then x else y in
  let long := text_type e f SQL_LONGVARBINARY SQL_WLONGVARCHAR SQL_LONGVARCHAR in
  match ftype f with
  | MYSQL_TYPE_BIT => (if 1 <? flength f then SQL_BINARY else SQL_BIT, S!"bit")
  | MYSQL_TYPE_DECIMAL | MYSQL_TYPE_NEWDECIMAL => (SQL_DECIMAL, S!"decimal")
  | MYSQL_TYPE_TINY => if flag NUM_FLAG f then (SQL_TINYINT, with_unsigned f (S!"tinyint")) else (SQL_CHAR, with_unsigned f (S!"char"))
  | MYSQL_TYPE_SHORT => (SQL_SMALLINT, with_unsigned f (S!"smallint"))
  | MYSQL_TYPE_INT24 => (SQL_INTEGER, with_unsigned f (S!"mediumint"))
  | MYSQL_TYPE_LONG => (SQL_INTEGER, with_unsigned f (S!"integer"))
  | MYSQL_TYPE_LONGLONG => if opt_NO_BIGINT e then (SQL_INTEGER, with_unsigned f (S!"int")) else (SQL_BIGINT, with_unsigned f (S!"bigint"))
  | MYSQL_TYPE_FLOAT => (SQL_REAL, with_unsigned f (S!"float"))
  | MYSQL_TYPE_DOUBLE => (SQL_DOUBLE, with_unsigned f (S!"double"))
  | MYSQL_TYPE_NULL => (SQL_VARCHAR, S!"null")
  | MYSQL_TYPE_YEAR => (SQL_SMALLINT, S!"year")
  | MYSQL_TYPE_TIMESTAMP => (odbc3 e SQL_TYPE_TIMESTAMP SQL_TIMESTAMP, S!"timestamp")
  | MYSQL_TYPE_DATETIME => (odbc3 e SQL_TYPE_TIMESTAMP SQL_TIMESTAMP, S!"datetime")
  | MYSQL_TYPE_NEWDATE | MYSQL_TYPE_DATE => (odbc3 e SQL_TYPE_DATE SQL_DATE, S!"date")
  | MYSQL_TYPE_TIME => (odbc3 e SQL_TYPE_TIME SQL_TIME, S!"time")
  | MYSQL_TYPE_STRING => (text_type e f SQL_BINARY SQL_WCHAR SQL_CHAR, name (S!"binary") (S!"char"))
  | MYSQL_TYPE_VARCHAR | MYSQL_TYPE_VAR_STRING => (text_type e f SQL_VARBINARY SQL_WVARCHAR SQL_VARCHAR, name (S!"varbinary") (S!"varchar"))
  | MYSQL_TYPE_TINY_BLOB => (long, name (S!"tinyblob") (S!"tinytext"))
  | MYSQL_TYPE_BLOB =>
    (long, if flength f =? 255 then name (S!"tinyblob") (S!"tinytext")
           else if flength f =? 16777215 then name (S!"mediumblob") (S!"mediumtext")
           else if flength f =? 4294967295 then name (S!"longblob") (S!"longtext")
           else name (S!"blob") (S!"text"))
  | MYSQL_TYPE_MEDIUM_BLOB => (long, name (S!"mediumblob") (S!"mediumtext"))
  | MYSQL_TYPE_LONG_BLOB => (long, name (S!"longblob") (S!"longtext"))
  | MYSQL_TYPE_ENUM => (SQL_CHAR, S!"enum")
  | MYSQL_TYPE_SET => (SQL_CHAR, S!"set")
  | MYSQL_TYPE_GEOMETRY => (SQL_LONGVARBINARY, S!"geometry")
  | MYSQL_TYPE_JSON => (if unicode e then SQL_WLONGVARCHAR else SQL_LONGVARCHAR, S!"json")
  | _ => (SQL_UNKNOWN_TYPE, [])
  end.

(** ** The SQL type in the catalog *)

(** [src/driver/utility.cc:1069-1101] sql_data_types_map *)
Definition sql_data_types_map : list (str * Z) :=
  [ (S!"bit", SQL_BIT); (S!"decimal", SQL_DECIMAL); (S!"char", SQL_CHAR); (S!"tinyint", SQL_TINYINT); (S!"smallint", SQL_SMALLINT);
    (S!"mediumint", SQL_INTEGER); (S!"int", SQL_INTEGER); (S!"bigint", SQL_BIGINT); (S!"float", SQL_REAL); (S!"double", SQL_DOUBLE);
    (S!"year", SQL_SMALLINT); (S!"timestamp", SQL_TIMESTAMP); (S!"datetime", SQL_TIMESTAMP); (S!"date", SQL_TYPE_DATE); (S!"time", SQL_TIME);
    (S!"binary", SQL_BINARY); (S!"varbinary", SQL_VARBINARY); (S!"varchar", SQL_VARCHAR); (S!"tinyblob", SQL_LONGVARBINARY);
    (S!"tinytext", SQL_LONGVARCHAR); (S!"mediumblob", SQL_LONGVARBINARY); (S!"mediumtext", SQL_LONGVARCHAR); (S!"blob", SQL_LONGVARBINARY);
    (S!"text", SQL_LONGVARCHAR); (S!"longblob", SQL_LONGVARBINARY); (S!"longtext", SQL_LONGVARCHAR); (S!"enum", SQL_CHAR); (S!"set", SQL_CHAR);
    (S!"geometry", SQL_LONGVARBINARY); (S!"JSON", SQL_LONGVARCHAR); (S!"json", SQL_LONGVARCHAR) ].

(** [src/driver/utility.cc:1103-1106] get_sql_data_type_from_str

    [at] throws for a name that is not there. *)
Definition get_sql_data_type_from_str (mysql_type_name : str) : res Z :=
  match list_find (λ p, p.1 = mysql_type_name) sql_data_types_map with
  | Some (_, (_, t)) => Ok t
  | None => Throw (runtime_error (S!"map::at"))
  end.

(** [src/driver/utility.cc:1108-1143] compute_sql_data_type

    [octet_length] is a character. *)
Definition compute_sql_data_type (e : column_env) (sql_type : Z) (octet_length : ascii) (col_size : Z) : Z :=
  let wide := (N_of_ascii "1" <? N_of_ascii octet_length)%N && unicode e in
  if sql_type =? SQL_TIMESTAMP then (if odbc_ver e =? SQL_OV_ODBC3 then SQL_TYPE_TIMESTAMP else sql_type)
  else if sql_type =? SQL_TYPE_DATE then (if odbc_ver e <? SQL_OV_ODBC3 then SQL_DATE else sql_type)
  else if sql_type =? SQL_TIME then (if odbc_ver e =? SQL_OV_ODBC3 then SQL_TYPE_TIME else sql_type)
  else if sql_type =? SQL_CHAR then (if wide then SQL_WCHAR else sql_type)
  else if sql_type =? SQL_VARCHAR then (if wide then SQL_WVARCHAR else sql_type)
  else if sql_type =? SQL_LONGVARCHAR then (if wide then SQL_WLONGVARCHAR else sql_type)
  else if sql_type =? SQL_BIT then (if 1 <? col_size then SQL_BINARY else sql_type)
  else sql_type.

(** ** Sizes *)

(** A length of the client library is an [unsigned long]. *)
Definition to_ulong (z : Z) : Z := z mod 2 ^ 64.

(** [src/driver/utility.cc:1449-1455] cap_length *)
Definition cap_length (e : column_env) (real_length : Z) : Z :=
  if opt_COLUMN_SIZE_S32 e && (INT_MAX32 <? real_length) then INT_MAX32 else real_length.

(** The sizes of the types whose values have all the same. *)
Definition per_type (f : MYSQL_FIELD) (tiny short int24 long float double null date time stamp year : Z) (other : Z) : Z :=
  match ftype f with
  | MYSQL_TYPE_TINY => tiny | MYSQL_TYPE_SHORT => short | MYSQL_TYPE_INT24 => int24 | MYSQL_TYPE_LONG => long
  | MYSQL_TYPE_FLOAT => float | MYSQL_TYPE_DOUBLE => double | MYSQL_TYPE_NULL => null
  | MYSQL_TYPE_DATE => date | MYSQL_TYPE_TIME => time | MYSQL_TYPE_TIMESTAMP | MYSQL_TYPE_DATETIME | MYSQL_TYPE_NEWDATE => stamp
  | MYSQL_TYPE_YEAR => year
  | _ => other
  end.

(** [src/driver/utility.cc:1478-1568] get_column_size

    An [SQLULEN]: [SQL_NO_TOTAL] is a large number. *)
Definition get_column_size (e : column_env) (f : MYSQL_FIELD) : Z :=
  let length := cap_length e (flength f `max` max_len f) in
  per_type f (if flag NUM_FLAG f then 3 else 1) 5 8 10 7 15 0 10 8 19 4
    match ftype f with
    | MYSQL_TYPE_LONGLONG => if opt_NO_BIGINT e then 10 else if is_unsigned f then 20 else 19
    | MYSQL_TYPE_DECIMAL | MYSQL_TYPE_NEWDECIMAL =>
      to_ulong (length - (if is_unsigned f then 0 else 1) - (if decimals f =? 0 then 0 else 1))
    | MYSQL_TYPE_BIT => if length =? 1 then 1 else to_ulong (length + 7) / 8
    | MYSQL_TYPE_ENUM | MYSQL_TYPE_SET | MYSQL_TYPE_VARCHAR | MYSQL_TYPE_VAR_STRING | MYSQL_TYPE_STRING =>
      if charsetnr f =? BINARY_CHARSET_NUMBER then length else length / default 1 (get_charset (charsetnr f))
    | MYSQL_TYPE_TINY_BLOB | MYSQL_TYPE_MEDIUM_BLOB | MYSQL_TYPE_LONG_BLOB | MYSQL_TYPE_BLOB | MYSQL_TYPE_GEOMETRY => length
    | MYSQL_TYPE_JSON => (2 ^ 32 - 1) / 4
    | _ => to_ulong SQL_NO_TOTAL
    end.

(** [src/driver/utility.cc:1583-1615] get_decimal_digits *)
Definition get_decimal_digits (f : MYSQL_FIELD) : Z :=
  match ftype f with
  | MYSQL_TYPE_DECIMAL | MYSQL_TYPE_NEWDECIMAL => signed 16 (decimals f)
  | MYSQL_TYPE_TINY | MYSQL_TYPE_SHORT | MYSQL_TYPE_LONG | MYSQL_TYPE_LONGLONG | MYSQL_TYPE_INT24 | MYSQL_TYPE_YEAR
  | MYSQL_TYPE_TIME | MYSQL_TYPE_TIMESTAMP | MYSQL_TYPE_DATETIME => 0
  | MYSQL_TYPE_BIT => if flength f =? 1 then 0 else SQL_NO_TOTAL
  | _ => SQL_NO_TOTAL
  end.

(** [src/driver/utility.cc:1627-1723] get_transfer_octet_length

    [SQL_DATE_STRUCT] and [SQL_TIME_STRUCT] have 6 bytes, [SQL_TIMESTAMP_STRUCT]
    has 16. *)
Definition get_transfer_octet_length (e : column_env) (f : MYSQL_FIELD) : Z :=
  let length := flength f `min` INT_MAX32 in
  let text :=
    let length := if negb (charsetnr f =? ansi_charset e) && negb (charsetnr f =? BINARY_CHARSET_NUMBER) then length * ansi_mbmaxlen e else length in
    if opt_COLUMN_SIZE_S32 e && (INT_MAX32 <? length) then INT_MAX32 else length in
  per_type f 1 2 3 4 4 8 1 6 6 16 1
    match ftype f with
    | MYSQL_TYPE_LONGLONG => 20
    | MYSQL_TYPE_DECIMAL | MYSQL_TYPE_NEWDECIMAL => flength f
    | MYSQL_TYPE_BIT => to_ulong (flength f + 7) / 8
    | MYSQL_TYPE_STRING =>
      if opt_PAD_SPACE e then
        let csmaxlen := get_charset_maxlen (charsetnr f) in
        if csmaxlen =? 0 then SQL_NO_TOTAL else (max_len f `max` flength f) / csmaxlen
      else text
    | MYSQL_TYPE_ENUM | MYSQL_TYPE_SET | MYSQL_TYPE_VARCHAR | MYSQL_TYPE_VAR_STRING | MYSQL_TYPE_TINY_BLOB | MYSQL_TYPE_MEDIUM_BLOB
    | MYSQL_TYPE_LONG_BLOB | MYSQL_TYPE_BLOB | MYSQL_TYPE_GEOMETRY | MYSQL_TYPE_JSON => text
    | _ => SQL_NO_TOTAL
    end.

(** [src/driver/utility.cc:1735-1820] get_display_size *)
Definition get_display_size (e : column_env) (f : MYSQL_FIELD) : Z :=
  let mbmaxlen := default 1 (get_charset (charsetnr f)) in
  let sign := if is_unsigned f then 1 else 0 in
  per_type f (3 + sign) (5 + sign) (8 + sign) (10 + sign) 14 24 1 10 8 19 4
    match ftype f with
    | MYSQL_TYPE_LONGLONG => 20
    | MYSQL_TYPE_DECIMAL | MYSQL_TYPE_NEWDECIMAL => flength f
    | MYSQL_TYPE_BIT => if flength f =? 1 then 1 else to_ulong (flength f + 7) / 8 * 2
    | MYSQL_TYPE_ENUM | MYSQL_TYPE_SET | MYSQL_TYPE_VARCHAR | MYSQL_TYPE_VAR_STRING | MYSQL_TYPE_STRING
    | MYSQL_TYPE_TINY_BLOB | MYSQL_TYPE_MEDIUM_BLOB | MYSQL_TYPE_LONG_BLOB | MYSQL_TYPE_BLOB | MYSQL_TYPE_GEOMETRY =>
      let length := if charsetnr f =? BINARY_CHARSET_NUMBER then to_ulong (flength f * 2) else flength f / mbmaxlen in
      if opt_COLUMN_SIZE_S32 e && (INT_MAX32 <? length) then INT_MAX32 else length
    | MYSQL_TYPE_JSON => (2 ^ 32 - 1) / 4
    | _ => SQL_NO_TOTAL
    end.

(** ** C types *)

(** [src/driver/utility.cc:1977-2017] unireg_to_c_datatype *)
Definition unireg_to_c_datatype (f : MYSQL_FIELD) : Z :=
  match ftype f with
  | MYSQL_TYPE_BIT => if 1 <? flength f then SQL_C_BINARY else SQL_C_BIT
  | MYSQL_TYPE_TINY => SQL_C_TINYINT
  | MYSQL_TYPE_YEAR | MYSQL_TYPE_SHORT => SQL_C_SHORT
  | MYSQL_TYPE_INT24 | MYSQL_TYPE_LONG => SQL_C_LONG
  | MYSQL_TYPE_FLOAT => SQL_C_FLOAT
  | MYSQL_TYPE_DOUBLE => SQL_C_DOUBLE
  | MYSQL_TYPE_TIMESTAMP | MYSQL_TYPE_DATETIME => SQL_C_TIMESTAMP
  | MYSQL_TYPE_NEWDATE | MYSQL_TYPE_DATE => SQL_C_DATE
  | MYSQL_TYPE_TIME => SQL_C_TIME
  | MYSQL_TYPE_BLOB | MYSQL_TYPE_TINY_BLOB | MYSQL_TYPE_MEDIUM_BLOB | MYSQL_TYPE_LONG_BLOB | MYSQL_TYPE_JSON => SQL_C_BINARY
  | _ => SQL_C_CHAR
  end.

(** [src/driver/utility.cc:2025-2065] default_c_type *)
Definition default_c_type (sql_data_type : Z) : Z :=
  let t := sql_data_type in
  if t =? SQL_BIGINT then SQL_C_SBIGINT
  else if t =? SQL_BIT then SQL_C_BIT
  else if t =? SQL_TINYINT then SQL_C_TINYINT
  else if t =? SQL_SMALLINT then SQL_C_SHORT
  else if t =? SQL_INTEGER then SQL_C_LONG
  else if (t =? SQL_REAL) || (t =? SQL_FLOAT) then SQL_C_FLOAT
  else if t =? SQL_DOUBLE then SQL_C_DOUBLE
  else if (t =? SQL_BINARY) || (t =? SQL_VARBINARY) || (t =? SQL_LONGVARBINARY) then SQL_C_BINARY
  else if (t =? SQL_DATE) || (t =? SQL_TYPE_DATE) then SQL_C_DATE
  else if (t =? SQL_TIME) || (t =? SQL_TYPE_TIME) then SQL_C_TIME
  else if (t =? SQL_TIMESTAMP) || (t =? SQL_TYPE_TIMESTAMP) then SQL_C_TIMESTAMP
  else SQL_C_CHAR.

(** [src/driver/utility.cc:2073-2111] bind_length

    [SQL_NUMERIC_STRUCT] has 19 bytes. *)
Definition bind_length (sql_data_type length : Z) : Z :=
  let t := sql_data_type in
  if bool_decide (t ∈ [SQL_C_BIT; SQL_C_TINYINT; SQL_C_STINYINT; SQL_C_UTINYINT]) then 1
  else if bool_decide (t ∈ [SQL_C_SHORT; SQL_C_SSHORT; SQL_C_USHORT]) then 2
  else if bool_decide (t ∈ [SQL_C_LONG; SQL_C_SLONG; SQL_C_ULONG]) then 4
  else if t =? SQL_C_FLOAT then 4
  else if t =? SQL_C_DOUBLE then 8
  else if bool_decide (t ∈ [SQL_C_DATE; SQL_C_TYPE_DATE; SQL_C_TIME; SQL_C_TYPE_TIME]) then 6
  else if bool_decide (t ∈ [SQL_C_TIMESTAMP; SQL_C_TYPE_TIMESTAMP]) then 16
  else if bool_decide (t ∈ [SQL_C_SBIGINT; SQL_C_UBIGINT]) then 8
  else if t =? SQL_C_NUMERIC then 19
  else length.

End Types.

(** ** The catalog and the results agree *)

(** The name that the information schema has for the type of a column, where a
    number or a time is in it. *)
Definition schema_name (f : MYSQL_FIELD) : option str :=
  match ftype f with
  | MYSQL_TYPE_BIT => Some (S!"bit")
  | MYSQL_TYPE_NEWDECIMAL => Some (S!"decimal")
  | MYSQL_TYPE_TINY => if flag NUM_FLAG f then Some (S!"tinyint") else None
  | MYSQL_TYPE_SHORT => Some (S!"smallint")
  | MYSQL_TYPE_INT24 => Some (S!"mediumint")
  | MYSQL_TYPE_LONG => Some (S!"int")
  | MYSQL_TYPE_LONGLONG => Some (S!"bigint")
  | MYSQL_TYPE_FLOAT => Some (S!"float")
  | MYSQL_TYPE_DOUBLE => Some (S!"double")
  | MYSQL_TYPE_YEAR => Some (S!"year")
  | MYSQL_TYPE_TIMESTAMP => Some (S!"timestamp")
  | MYSQL_TYPE_DATETIME => Some (S!"datetime")
  | MYSQL_TYPE_DATE => Some (S!"date")
  | MYSQL_TYPE_TIME => Some (S!"time")
  | _ => None
  end.

(** the two ways to the SQL type of a column, from the field of a result and from
    the name of its type in the information schema, lead to the same type, for
    numbers, bits, dates and times, in an application of version 2 or 3 of ODBC.  The
    option that hides BIGINT is one of results only. *)
Theorem catalog_agrees e f name octet_length :
  schema_name f = Some name → odbc_ver e = SQL_OV_ODBC2 ∨ odbc_ver e = SQL_OV_ODBC3 → opt_NO_BIGINT e = false →
  ∃ t, get_sql_data_type_from_str name = Ok t ∧ compute_sql_data_type e t octet_length (flength f) = (get_sql_data_type e f).1.
Proof.
  unfold schema_name, get_sql_data_type. intros Hn Hv Hb. rewrite Hb. destruct e as [v u ac am nb ni cs ps]. cbn in Hv.
  destruct (ftype f); try discriminate Hn; try destruct (flag NUM_FLAG f); simplify_eq/=; (eexists; split; [reflexivity|]);
    unfold compute_sql_data_type, odbc3; cbn [odbc_ver fst]; try reflexivity; destruct Hv as [-> | ->]; reflexivity.
Qed.

(** In version 3.80, which is the one of an environment that says nothing, a date is a
    [SQL_DATE] in results and a [SQL_TYPE_DATE] in the catalog, and times are those of
    version 2 in both. *)
Example date_of_version_380 octet_length :
  let e := Env SQL_OV_ODBC3_80 true 8 1 false false false false in
  let f := Field MYSQL_TYPE_DATE 10 0 0 0 63 0 in
  get_sql_data_type_from_str (S!"date") = Ok SQL_TYPE_DATE ∧ compute_sql_data_type e SQL_TYPE_DATE octet_length 0 = SQL_TYPE_DATE ∧
  (get_sql_data_type e f).1 = SQL_DATE ∧
  (get_sql_data_type e (Field MYSQL_TYPE_DATETIME 19 0 0 0 63 0)).1 = SQL_TIMESTAMP.
Proof. split_and!; reflexivity. Qed.

(** ** Numbers fit into their display size *)

(** The bits of the integer types, and their values. *)
Definition int_bits (t : field_type) : option Z :=
  match t with
  | MYSQL_TYPE_TINY => Some 8 | MYSQL_TYPE_SHORT => Some 16 | MYSQL_TYPE_INT24 => Some 24
  | MYSQL_TYPE_LONG => Some 32 | MYSQL_TYPE_LONGLONG => Some 64 | _ => None
  end.

Definition int_value (bits : Z) (unsigned : bool) (v : Z) : Prop := if unsigned then 0 ≤ v < 2 ^ bits else - 2 ^ (bits - 1) ≤ v < 2 ^ (bits - 1).

Lemma length_to_string v w : 0 ≤ v < 10 ^ Z.of_nat w → w ≠ 0%nat → (length (to_string v) ≤ w)%nat.
Proof.
  intros Hv Hw. destruct v as [|p|p]; [cbn; lia| |lia]. apply length_N_to_string; [|done].
  apply N2Z.inj_lt. rewrite N2Z.inj_pow, nat_N_Z. cbn in *. lia.
Qed.

Lemma length_to_string_neg v w : - 10 ^ Z.of_nat w < v < 0 → w ≠ 0%nat → (length (to_string v) ≤ S w)%nat.
Proof.
  intros Hv Hw. destruct v as [|p|p]; [lia|lia|]. cbn [to_string length]. apply le_n_S. apply length_N_to_string; [|done].
  apply N2Z.inj_lt. rewrite N2Z.inj_pow, nat_N_Z. cbn in *. lia.
Qed.

Ltac digits H n := apply (Z.le_trans _ _ _ (H n ltac:(cbn; lia) ltac:(done))); lia.

(** the text of a value of an integer column has at most as many characters as the
    display size of the column, when the column is unsigned.  When it is signed the
    same holds for what is not negative; the sign has a place in the size of
    unsigned columns only, so that a negative number may have one character more. *)
Theorem display_size_fits get_charset e f bits v :
  int_bits (ftype f) = Some bits → int_value bits (is_unsigned f) v →
  Z.of_nat (length (to_string v)) ≤ get_display_size get_charset e f + (if v <? 0 then 1 else 0).
Proof.
  assert (∀ w, 0 ≤ v < 10 ^ Z.of_nat w → w ≠ 0%nat → Z.of_nat (length (to_string v)) ≤ Z.of_nat w) as Hp
    by (intros w H1 H2; apply Nat2Z.inj_le, length_to_string; done).
  assert (∀ w, - 10 ^ Z.of_nat w < v < 0 → w ≠ 0%nat → Z.of_nat (length (to_string v)) ≤ Z.of_nat (S w)) as Hm
    by (intros w H1 H2; apply Nat2Z.inj_le, length_to_string_neg; done).
  unfold get_display_size, per_type, int_value. destruct (ftype f); intros [= <-] Hv; destruct (is_unsigned f), (Z.ltb_spec v 0); try lia.
  all: first [digits Hp 3%nat | digits Hm 3%nat | digits Hp 5%nat | digits Hm 5%nat | digits Hp 8%nat | digits Hm 8%nat
    | digits Hp 10%nat | digits Hm 10%nat | digits Hp 20%nat | digits Hm 19%nat].
Qed.

Example negative_too_long :
  let e := Env SQL_OV_ODBC3 true 8 1 false false false false in
  get_display_size (λ _, None) e (Field MYSQL_TYPE_LONG 11 0 NUM_FLAG 0 63 0) = 10 ∧ length (to_string (- 2147483648)) = 11%nat.
Proof. split; reflexivity. Qed.

Lemma display_size_fits_witness :
  Z.of_nat (length (to_string 255)) ≤
  get_display_size (λ _, None) (Env SQL_OV_ODBC3 true 8 1 false false false false) (Field MYSQL_TYPE_TINY 3 0 (NUM_FLAG + UNSIGNED_FLAG) 0 63 0) + 0.
Proof.
  apply (display_size_fits (λ _, None) (Env SQL_OV_ODBC3 true 8 1 false false false false) (Field MYSQL_TYPE_TINY 3 0 (NUM_FLAG + UNSIGNED_FLAG) 0 63 0) 8 255);
    [reflexivity|split; [lia|reflexivity]].
Defined.

Lemma catalog_agrees_witness :
  ∃ t, get_sql_data_type_from_str (S!"datetime") = Ok t ∧
    compute_sql_data_type (Env SQL_OV_ODBC3 true 8 1 false false false false) t "1" 19 = SQL_TYPE_TIMESTAMP.
Proof.
  exact (catalog_agrees (Env SQL_OV_ODBC3 true 8 1 false false false false) (Field MYSQL_TYPE_DATETIME 19 0 0 0 63 5) (S!"datetime") "1"
    eq_refl (or_intror eq_refl) eq_refl).
Defined.

(** ** Sizes that are capped *)

(** With the option that caps sizes, the sizes of texts and of binary data fit into 32
    bits, but for the octets of a CHAR column that is padded, whose length is divided
    only. *)
Theorem sizes_capped get_charset e f :
  opt_COLUMN_SIZE_S32 e = true → 0 ≤ flength f < 2 ^ 64 → 0 ≤ max_len f < 2 ^ 64 → (∀ n m, get_charset n = Some m → 1 ≤ m) → 0 ≤ ansi_mbmaxlen e →
  ftype f ∈ [MYSQL_TYPE_ENUM; MYSQL_TYPE_SET; MYSQL_TYPE_VARCHAR; MYSQL_TYPE_VAR_STRING; MYSQL_TYPE_STRING; MYSQL_TYPE_TINY_BLOB;
             MYSQL_TYPE_MEDIUM_BLOB; MYSQL_TYPE_LONG_BLOB; MYSQL_TYPE_BLOB; MYSQL_TYPE_GEOMETRY] →
  0 ≤ get_column_size get_charset e f ≤ INT_MAX32 ∧ 0 ≤ get_display_size get_charset e f ≤ INT_MAX32 ∧
  (opt_PAD_SPACE e = false → 0 ≤ get_transfer_octet_length e f ≤ INT_MAX32).
Proof.
  intros He Hl Hm Hcs Ha Ht.
  assert (0 ≤ cap_length e (flength f `max` max_len f) ≤ INT_MAX32) as Hcap.
  { unfold cap_length. rewrite He. cbn [andb]. unfold INT_MAX32. destruct (Z.ltb_spec (2 ^ 31 - 1) (flength f `max` max_len f)); lia. }
  assert (∀ z n, 0 ≤ z → 0 ≤ z / default 1 (get_charset n) ≤ z) as Hdiv.
  { intros z n Hz. assert (1 ≤ default 1 (get_charset n)) by (destruct (get_charset n) eqn:E; cbn; [by eapply Hcs|lia]).
    split; [apply Z.div_pos; lia|apply Z.div_le_upper_bound; nia]. }
  assert (∀ z, 0 ≤ z → 0 ≤ (if opt_COLUMN_SIZE_S32 e && (INT_MAX32 <? z) then INT_MAX32 else z) ≤ INT_MAX32) as Hsize.
  { intros z Hz. rewrite He. cbn [andb]. unfold INT_MAX32 in *. destruct (Z.ltb_spec (2 ^ 31 - 1) z); lia. }
  assert (0 ≤ to_ulong (flength f * 2)) as Hu by (apply Z.mod_pos_bound; lia).
  pose proof (Hdiv _ (charsetnr f) (proj1 Hl)) as Hd1. pose proof (Hdiv _ (charsetnr f) (proj1 Hcap)) as Hd2.
  assert (0 ≤ flength f `min` INT_MAX32) as Hmin by (unfold INT_MAX32; lia).
  assert (0 ≤ (if negb (charsetnr f =? ansi_charset e) && negb (charsetnr f =? BINARY_CHARSET_NUMBER) then flength f `min` INT_MAX32 * ansi_mbmaxlen e else flength f `min` INT_MAX32)) as Htext
    by (destruct (_ && _); nia).
  unfold get_column_size, get_display_size, get_transfer_octet_length, per_type. apply (bool_decide_eq_true_2 _) in Ht.
  destruct (ftype f); try discriminate Ht; clear Ht; (split; [|split; [|intros Hpad; try rewrite Hpad]]); try (destruct (charsetnr f =? BINARY_CHARSET_NUMBER)); try apply Hsize; lia.
Qed.

(** A CHAR column of a charset of four bytes, padded: the option is not looked at. *)
Example padded_not_capped :
  get_transfer_octet_length (Env SQL_OV_ODBC3 true 8 1 false false true true) (Field MYSQL_TYPE_STRING (2 ^ 34) 0 0 0 255 5) = 2 ^ 32.
Proof. reflexivity. Qed.
