(* ===== verification/Column.v ===== *)
(** The value of a column (src/driver/results.cc, my_stmt.cc, my_prepared_stmt.cc): the
    conversion of what the server has sent, in the text protocol or in the one of
    statements that it has prepared, to the C type that the application asks for. *)

From S2P Require Import Prelude CppString HostList Numeric Errors Descriptors GetData DateTime Params Types.

Local Open Scope Z_scope.

(** ** Numbers in text *)

(** The bytes up to the first null byte. *)
Fixpoint c_str (s : str) : str := match s with c :: s' => if bool_decide (c = Ascii.zero) then [] else c :: c_str s' | [] => [] end.

(** [strtol] and [strtoll], which have 64 bits both. *)
Definition strtoll : str → Z := atol.
(** [strtoul] and [strtoull]: a number that is too great is the greatest one, a sign
    negates modulo 2^64. *)
Definition strtoull (s : str) : Z :=
  let n (s : str) := Z.of_N (digits_value (leading_digits s)) in
  match skip_spaces s with
  | "-"%char :: s' => if n s' <? 2 ^ 64 then (- n s') mod 2 ^ 64 else 2 ^ 64 - 1
  | "+"%char :: s' => n s' `min` (2 ^ 64 - 1)
  | s' => n s' `min` (2 ^ 64 - 1)
  end.

Definition to_int16 (z : Z) : Z := signed 16 z.
Definition to_uint16 (z : Z) : Z := z mod 2 ^ 16.
Definition to_int64 (z : Z) : Z := signed 64 z.
Definition to_uint64 (z : Z) : Z := z mod 2 ^ 64.

(** ** The two protocols *)

Section Column.
(** The doubles, which are read from text and made of numbers by the client library
    and the processor, and what a [float] holds of one. *)
Context {double : Type} (strtod : str → double) (double_of_Z : Z → double) (to_float : double → double).

(** What the conversion of a column asks for.  A value is given by its bytes; behind
    them stands a null byte.  The last member gives the text of a value with its
    length, and the same as a C string. *)
Class Protocol := {
  is_null : option str → bool;
  get_int : str → res Z;
  get_uint : str → res Z;
  get_int64 : str → res Z;
  get_uint64 : str → res Z;
  get_double : str → res double;
  get_string : str → res (str * str)
}.

(** [src/driver/my_stmt.cc:315-405] get_int, get_uint, get_int64, get_uint64, get_string, get_double, is_null

    A statement that is not prepared by the server: the value is a text. *)
Definition text_protocol : Protocol := {|
  is_null v := bool_decide (v = None);
  get_int v := Ok (to_int32 (strtoll (c_str v)));
  get_uint v := Ok (to_uint32 (strtoull (c_str v)));
  get_int64 v := Ok (strtoll (c_str v));
  get_uint64 v := Ok (strtoull (c_str v));
  get_double v := Ok (strtod v);
  get_string v := Ok (v, c_str v)
|}.

(** ** Columns of prepared statements *)

(** [MYSQL_BIND] of the client library: the type and the bytes of the buffer, their
    number, what follows the buffer as far as a null byte, and the same memory as a
    time, or a number with a point. *)
Record MYSQL_BIND := Bind {
  buffer_type : field_type; buffer : str; buffer_length : Z; behind : str; as_time : MYSQL_TIME; as_number : double;
  data_length : Z; bind_null : bool; bind_unsigned : bool }.

(** [src/driver/my_prepared_stmt.cc:433-525] allocate_buffer_for_field

    The type and the size of the buffer of a column; [MYSQL_TIME] has 40 bytes. *)
Definition allocate_buffer_for_field (f : MYSQL_FIELD) (outparams : bool) : field_type * Z :=
  match ftype f with
  | MYSQL_TYPE_TINY => (ftype f, 1)
  | MYSQL_TYPE_SHORT | MYSQL_TYPE_YEAR => (ftype f, 2)
  | MYSQL_TYPE_INT24 | MYSQL_TYPE_LONG => (ftype f, 4)
  | MYSQL_TYPE_DOUBLE | MYSQL_TYPE_FLOAT => (MYSQL_TYPE_STRING, 24)
  | MYSQL_TYPE_LONGLONG => (ftype f, 8)
  | Types.MYSQL_TYPE_TIMESTAMP | Types.MYSQL_TYPE_DATE | Types.MYSQL_TYPE_TIME | Types.MYSQL_TYPE_DATETIME => (ftype f, 40)
  | MYSQL_TYPE_TINY_BLOB | MYSQL_TYPE_MEDIUM_BLOB | MYSQL_TYPE_LONG_BLOB | MYSQL_TYPE_BLOB | MYSQL_TYPE_STRING | MYSQL_TYPE_VAR_STRING | MYSQL_TYPE_JSON =>
    (ftype f, if (0 <? flength f) && (flength f <? 1025) then flength f + 1 else 1024)
  | MYSQL_TYPE_DECIMAL | MYSQL_TYPE_NEWDECIMAL => (ftype f, 64)
  | MYSQL_TYPE_BIT => (ftype f, if outparams then 30 else to_ulong (flength f + 7) / 8)
  | _ => (ftype f, 0)
  end.

Definition byte_at (s : str) (i : nat) : Z := Z.of_N (N_of_ascii (default Ascii.zero (s !! i))).
(** The number in [n] bytes, the lowest first. *)
Fixpoint little_endian (n : nat) (s : str) : Z :=
  match n, s with
  | S n, c :: s => Z.of_N (N_of_ascii c) + 256 * little_endian n s
  | _, _ => 0
  end.

(** [src/driver/my_prepared_stmt.cc:1294-1309] binary2numeric

    The highest byte first; the loop never ends for more bytes than the type has. *)
Definition binary2numeric (src : str) : res Z :=
  if (8 <? length src)%nat then UB else Ok (foldl (λ a c, a * 256 + Z.of_N (N_of_ascii c)) 0 src).
Definition binary2ll (src : str) : res Z := n ← binary2numeric src; Ok (to_int64 n).
Definition binary2ull (src : str) : res Z := n ← binary2numeric src; Ok (to_uint64 n).

(** What a conversion of a double to 64 bits gives, signed or not. *)
Context (int_of_double : bool → double → Z).
(** [myodbc_d2str]. *)
Context (double_text : double → str).

(** The text in a buffer, and the C string that begins there. *)
Definition buffer_text (b : MYSQL_BIND) : str * str := (take (Z.to_nat (data_length b)) (buffer b), c_str (buffer b ++ behind b)).

(** [src/driver/my_prepared_stmt.cc:1322-1435] ssps_get_int64

    The cases of numbers: a byte is read as a [char], with its sign, for columns
    without a sign too. *)
Definition integer_in (b : MYSQL_BIND) : Z :=
  if bind_null b then 0
  else if buffer_length b =? 1 then signed 8 (little_endian 1 (buffer b))
  else if buffer_length b =? 2 then (if bind_unsigned b then id else signed 16) (little_endian 2 (buffer b))
  else if buffer_length b =? 4 then (if bind_unsigned b then id else signed 32) (little_endian 4 (buffer b))
  else if buffer_length b =? 8 then (if bind_unsigned b then id else signed 64) (little_endian 8 (buffer b))
  else 0.

(** The texts of times; those of numbers follow. *)
Definition time_string (b : MYSQL_BIND) : option (str * Z) :=
  match buffer_type b with
  | Types.MYSQL_TYPE_TIMESTAMP | Types.MYSQL_TYPE_DATETIME => Some (ssps_timestamp (as_time b))
  | Types.MYSQL_TYPE_DATE => Some (ssps_date (as_time b))
  | Types.MYSQL_TYPE_TIME => Some (ssps_time (as_time b))
  | _ => None
  end.

Definition is_integer_type (t : field_type) : bool :=
  match t with
  | MYSQL_TYPE_YEAR | MYSQL_TYPE_TINY | MYSQL_TYPE_SHORT | MYSQL_TYPE_INT24 | MYSQL_TYPE_LONG | MYSQL_TYPE_LONGLONG => true
  | _ => false
  end.
Definition is_text_type (t : field_type) : bool :=
  match t with
  | MYSQL_TYPE_DECIMAL | MYSQL_TYPE_NEWDECIMAL | MYSQL_TYPE_STRING | MYSQL_TYPE_BLOB | MYSQL_TYPE_VARCHAR | MYSQL_TYPE_VAR_STRING => true
  | _ => false
  end.

(** [src/driver/my_prepared_stmt.cc:1322-1435] ssps_get_int64

    Of type [long long] when [sgn], else [unsigned long long]. *)
Definition ssps_get_int64 (sgn : bool) (b : MYSQL_BIND) : res Z :=
  let cast z := if sgn then to_int64 z else to_uint64 z in
  match buffer_type b with
  | MYSQL_TYPE_FLOAT | MYSQL_TYPE_DOUBLE => Ok (int_of_double sgn (if bind_null b then double_of_Z 0 else as_number b))
  | MYSQL_TYPE_BIT => n ← binary2numeric (take (Z.to_nat (data_length b)) (buffer b)); Ok (cast n)
  | t =>
    if is_integer_type t then Ok (cast (integer_in b))
    else if bind_null b && (is_text_type t || bool_decide (is_Some (time_string b))) then UB
    else match time_string b with
         | Some (s, _) => Ok (cast (strtoll s))
         | None => if is_text_type t then Ok (cast (strtoll (buffer_text b).2)) else Ok 0
         end
  end.

(** [src/driver/my_prepared_stmt.cc:1107-1217] ssps_get_string

    The types of which no case speaks get the buffer, and keep the length of the
    call.  For a null it is a null pointer, which a caller reads through. *)
Definition ssps_get_string (length_ : Z) (b : MYSQL_BIND) : res (str * str) :=
  if bind_null b then UB else
  match time_string b with
  | Some (s, n) => Ok (take (Z.to_nat n) s, s)
  | None =>
    if is_integer_type (buffer_type b) || bool_decide (buffer_type b = MYSQL_TYPE_BIT) then
      n ← ssps_get_int64 (negb (bind_unsigned b)) b; Ok (to_string n, to_string n)
    else Ok match buffer_type b with
            | MYSQL_TYPE_FLOAT | MYSQL_TYPE_DOUBLE => let s := double_text (as_number b) in (s, s)
            | MYSQL_TYPE_LONG_BLOB | MYSQL_TYPE_JSON => buffer_text b
            | t => if is_text_type t then buffer_text b else (take (Z.to_nat length_) (buffer b), (buffer_text b).2)
            end
  end.

(** [src/driver/my_prepared_stmt.cc:1221-1290] ssps_get_double *)
Definition ssps_get_double (b : MYSQL_BIND) : res double :=
  if bind_null b then Ok (double_of_Z 0)
  else if is_integer_type (buffer_type b) || bool_decide (buffer_type b = MYSQL_TYPE_BIT) then
    n ← ssps_get_int64 (negb (bind_unsigned b)) b; Ok (double_of_Z n)
  else match buffer_type b with
       | MYSQL_TYPE_FLOAT | MYSQL_TYPE_DOUBLE => Ok (as_number b)
       | t => if is_text_type t || bool_decide (is_Some (time_string b)) then t ← ssps_get_string 0 b; Ok (strtod t.1) else Ok (double_of_Z 0)
       end.

(** [src/driver/my_stmt.cc:315-405] get_int, get_uint, get_int64, get_uint64, get_string, get_double, is_null

    A prepared statement: the value of the call is not looked at. *)
Definition binary_protocol (b : MYSQL_BIND) : Protocol := {|
  is_null _ := bind_null b;
  get_int _ := n ← ssps_get_int64 true b; Ok (to_int32 n);
  get_uint _ := n ← ssps_get_int64 false b; Ok (to_uint32 n);
  get_int64 _ := ssps_get_int64 true b;
  get_uint64 _ := ssps_get_int64 false b;
  get_double _ := ssps_get_double b;
  get_string v := ssps_get_string (Z.of_nat (length v)) b
|}.

(** ** Which conversions there are *)

(** [src/driver/results.cc:46-51] is_binary_ctype *)
Definition is_binary_ctype (cType : Z) : bool := bool_decide (cType ∈ [SQL_C_CHAR; SQL_C_BINARY; SQL_C_WCHAR]).

(** [src/driver/results.cc:58-82] odbc_supported_conversion *)
Definition odbc_supported_conversion (sqlType cType : Z) : bool :=
  if sqlType =? SQL_BIT then
    if bool_decide (cType ∈ [SQL_C_DATE; SQL_C_TYPE_DATE; SQL_C_TIME; SQL_C_TYPE_TIME; SQL_C_TIMESTAMP; SQL_C_TYPE_TIMESTAMP]) then false
    else is_binary_ctype cType
  else if sqlType =? SQL_BINARY then is_binary_ctype cType
  else true.

Definition number_ctypes : list Z :=
  [SQL_C_BIT; SQL_C_TINYINT; SQL_C_STINYINT; SQL_C_UTINYINT; SQL_C_SHORT; SQL_C_SSHORT; SQL_C_USHORT; SQL_C_LONG; SQL_C_SLONG; SQL_C_ULONG;
   SQL_C_FLOAT; SQL_C_DOUBLE; SQL_C_SBIGINT; SQL_C_UBIGINT; SQL_C_NUMERIC].
Definition time_ctypes : list Z := [SQL_C_TIMESTAMP; SQL_C_DATE; SQL_C_TIME; SQL_C_TYPE_TIMESTAMP; SQL_C_TYPE_DATE; SQL_C_TYPE_TIME].

(** [src/driver/results.cc:90-140] driver_supported_conversion

    The first case falls through to the second. *)
Definition driver_supported_conversion (f : MYSQL_FIELD) (cType : Z) : bool :=
  match ftype f with
  | MYSQL_TYPE_BIT => bool_decide (cType ∈ number_ctypes) || bool_decide (cType ∈ time_ctypes)
  | MYSQL_TYPE_STRING => bool_decide (cType ∈ time_ctypes)
  | _ => false
  end.

(** [src/include/mysql-8.0/mysql.h:118] IS_LONGDATA *)
Definition IS_LONGDATA (t : field_type) : bool :=
  match t with
  | MYSQL_TYPE_TINY_BLOB | MYSQL_TYPE_MEDIUM_BLOB | MYSQL_TYPE_LONG_BLOB | MYSQL_TYPE_BLOB | MYSQL_TYPE_VAR_STRING | MYSQL_TYPE_STRING => true
  | _ => false
  end.

(** [src/driver/results.cc:510-513] sql_get_data *)
Definition shown_in_hex (f : MYSQL_FIELD) : bool :=
  flag BINARY_FLAG f && (charsetnr f =? BINARY_CHARSET_NUMBER) && IS_LONGDATA (ftype f) && (decimals f =? 0).

(** ** The conversion *)

(** What is written to the buffer of the application: numbers of a width, structures,
    characters, or only the precision and the scale of a numeric. *)
Inductive stored :=
  | S_int (bytes z : Z) | S_float (d : double) | S_double (d : double) | S_date (d : SQL_DATE_STRUCT) | S_time (t : SQL_TIME_STRUCT)
  | S_timestamp (t : SQL_TIMESTAMP_STRUCT) | S_interval (ty : Z) (t : SQL_TIME_STRUCT) | S_numeric (n : SQL_NUMERIC_STRUCT)
  | S_numeric_type (precision scale : Z) | S_bytes (s : str) | S_wide (s : list Z).

(** What a call does, beside the place in the column: its result, what it writes, the
    length or indicator, and the state of an error. *)
Record answer := Answer { a_ret : Z; a_stored : option stored; a_ind : option Z; a_state : option str }.

Definition refuse (state : str) : answer := Answer SQL_ERROR None None (Some state).
Definition of_outcome (x : outcome) : answer := Answer (ret x) (S_bytes <$> written x) (avail x) (state x).
Definition of_wide (x : wide_outcome) : answer := Answer (w_ret x) (S_wide <$> w_written x) (w_avail x) (w_state x).

(** A record of the descriptor of the application. *)
Record ard_record := Ard { concise_type : Z; ard_precision : Z; ard_scale : Z }.

(** The character sets of the column and of the connection, as in [GetData]; the option
    ZERO_DATE_TO_MIN and the local date a number of days from now, as in [DateTime]. *)
Context (mb_wc : str → Z * Z) (wc_mb : Z → Z → Z * str) (same : bool) (to_utf16 : Z → list Z).
Context (ZERO_DATE_TO_MIN : bool) (date_after : Z → Z * Z * Z) (e : column_env) (o : get_options).

Section Conversion.
Context `{Protocol}.
Context (f : MYSQL_FIELD) (bound : bool).

(** A value of a fixed size. *)
Definition fixed (size : Z) (r : res stored) : res answer :=
  if bound then x ← r; Ok (Answer SQL_SUCCESS (Some x) (Some size) None) else Ok (Answer SQL_SUCCESS None (Some size) None).

Definition of_column {A} (as_stored : A → stored) (size : Z) (c : column A) : answer :=
  match c with
  | Value a lossy => Answer (if lossy then SQL_SUCCESS_WITH_INFO else SQL_SUCCESS) (if bound then Some (as_stored a) else None) (Some size)
                       (if lossy then Some (S!"01S07") else None)
  | Null_data => Answer SQL_SUCCESS None (Some SQL_NULL_DATA) None
  | Refused s => refuse s
  end.

Definition column_type_of (t : field_type) : column_type :=
  match t with
  | Types.MYSQL_TYPE_TIMESTAMP => DateTime.MYSQL_TYPE_TIMESTAMP
  | Types.MYSQL_TYPE_DATETIME => DateTime.MYSQL_TYPE_DATETIME
  | Types.MYSQL_TYPE_DATE => DateTime.MYSQL_TYPE_DATE
  | Types.MYSQL_TYPE_TIME => DateTime.MYSQL_TYPE_TIME
  | _ => Other_type
  end.

(** [src/driver/results.cc:626-632] sql_get_data *)
Definition looks_like_date (v : str) : bool :=
  (10 <=? length v)%nat && bool_decide (v !! 4%nat = Some "-"%char) && bool_decide (v !! 7%nat = Some "-"%char) &&
  bool_decide (default Ascii.zero (v !! 10%nat) ∈ [Ascii.zero; " "%char]).
Definition date_number (v : str) : Z :=
  to_int32 (to_int32 (atol (c_str v)) * 10000 + to_int32 (atol (c_str (drop 5 v))) * 100 + to_int32 (atol (c_str (drop 8 v)))).

(** [src/driver/results.cc:414-429] sql_get_data

    The precision and the scale of a numeric, from the record or not; what is written of
    it before the value is looked at. *)
Definition numeric_type (arrec : option ard_record) : Z * Z :=
  match arrec with Some r => (to_uint8 (ard_precision r), to_int8 (ard_scale r)) | None => (38, 0) end.
Definition numeric_start (fCType : Z) (arrec : option ard_record) : option stored :=
  if (fCType =? SQL_C_NUMERIC) && bound then let '(prec, sc) := numeric_type arrec in Some (S_numeric_type prec sc) else None.
Definition written_over (x : option stored) (a : answer) : answer :=
  Answer (a_ret a) (match a_stored a with Some y => Some y | None => x end) (a_ind a) (a_state a).

(** [src/driver/results.cc:892-925] sql_get_data

    [bits] is the number in a BIT column; the size of the indicator is another one
    there. *)
Definition numeric_answer (bits : option Z) (arrec : option ard_record) (v : str) : res answer :=
  if negb bound then Ok (Answer SQL_SUCCESS None None None) else
  '(text, size) ← match bits with
                  | None => t ← get_string v; Ok (t.2, 19)
                  | Some n => Ok (to_string n, 8)
                  end;
  let '(prec, sc) := numeric_type arrec in
  let '(n, overflow) := sqlnum_from_str text (Numeric prec sc 0 []) in
  Ok (if overflow =? 1 then Answer SQL_ERROR (Some (S_numeric n)) (Some size) (Some (S!"22003"))
      else if overflow =? 2 then Answer SQL_SUCCESS_WITH_INFO (Some (S_numeric n)) (Some size) (Some (S!"01S07"))
      else Answer SQL_SUCCESS (Some (S_numeric n)) (Some size) None).

Definition SQL_ARD_TYPE : Z := -99.
Definition no_data (g : GETDATA) (a : answer) : answer :=
  if bool_decide (is_Some (source g)) && negb (a_ret a =? SQL_ERROR) then Answer SQL_NO_DATA_FOUND (a_stored a) (a_ind a) (a_state a) else a.
Definition done (g : GETDATA) (r : res answer) : res (answer * GETDATA) := a ← r; Ok (no_data g a, g).
Definition copied (r : res (outcome * GETDATA)) : res (answer * GETDATA) := '(x, g) ← r; Ok (of_outcome x, g).

(** [src/driver/results.cc:504-551] sql_get_data

    Characters and bytes; [n] bytes of a timestamp that is short are made up. *)
Definition get_text (fCType cbValueMax : Z) (v : str) (g : GETDATA) : res (answer * GETDATA) :=
  if (fCType =? SQL_C_CHAR) && shown_in_hex f then copied (copy_binhex_result 1 o bound (to_int32 cbValueMax) true v g)
  else
    completed ← (if bool_decide (ftype f = Types.MYSQL_TYPE_TIMESTAMP) && (length v <? 19)%nat
                 then t ← complete_timestamp v (Z.of_nat (length v)); Ok (option_map (take 19%nat) t)
                 else Ok (Some v));
    match completed with
    | None => done g (Ok (Answer SQL_SUCCESS None (Some SQL_NULL_DATA) None))
    | Some v =>
      if fCType =? SQL_C_BINARY then copied (copy_binary_result o bound cbValueMax true v g)
      else t ← get_string v; copied (copy_ansi_result mb_wc wc_mb same o bound cbValueMax true t.1 g)
    end.

(** [src/driver/results.cc:553-571] sql_get_data *)
Definition get_wide (cbValueMax : Z) (v : str) (g : GETDATA) : res (answer * GETDATA) :=
  t ← get_string v;
  let len := to_int32 (to_ulong cbValueMax / 2) in
  if shown_in_hex f then
    '(x, g) ← copy_binhex_result 2 o bound len true t.1 g;
    Ok (Answer (ret x) (S_wide ∘ fmap (λ c, Z.of_N (N_of_ascii c)) <$> written x) (avail x) (state x), g)
  else '(x, g) ← copy_wchar_result mb_wc to_utf16 o bound len true t.1 g; Ok (of_wide x, g).

(** [src/driver/results.cc:573-892] sql_get_data

    What has a fixed size.  [bits] is the number in a BIT column, when it has been
    read as one. *)
Definition get_fixed (fCType : Z) (arrec : option ard_record) (bits : option Z) (v : str) : res answer :=
  let number (get : str → res Z) (size : Z) (cast : Z → Z) := fixed size (n ← (match bits with Some n => Ok n | None => get v end); Ok (S_int size (cast n))) in
  let floating := match bits with Some n => Ok (double_of_Z n) | None => get_double v end in
  let among (l : list Z) := bool_decide (fCType ∈ l) in
  if among [SQL_C_BIT] then number get_int 1 (λ n, if 0 <? n then 1 else 0)
  else if among [SQL_C_TINYINT; SQL_C_STINYINT] then number get_int 1 to_int8
  else if among [SQL_C_UTINYINT] then number get_uint 1 to_uint8
  else if among [SQL_C_SHORT; SQL_C_SSHORT] then number get_int 2 to_int16
  else if among [SQL_C_USHORT] then number get_uint 2 to_uint16
  else if among [SQL_C_LONG; SQL_C_SLONG] then
    if bool_decide (bits = None) && looks_like_date v then fixed 4 (Ok (S_int 4 (date_number v))) else number get_int64 4 to_int32
  else if among [SQL_C_ULONG] then number get_uint64 4 to_uint32
  else if among [SQL_C_FLOAT] then fixed 4 (d ← floating; Ok (S_float (to_float d)))
  else if among [SQL_C_DOUBLE] then fixed 8 (d ← floating; Ok (S_double d))
  else if among [SQL_C_DATE; SQL_C_TYPE_DATE] then
    t ← get_string v; c ← column_date ZERO_DATE_TO_MIN t.1 (length t.1); Ok (of_column S_date 6 c)
  else if among [hour_to_second; hour_to_minute] then
    t ← get_string v; c ← column_interval bound (column_type_of (ftype f)) (fCType =? hour_to_second) t.2; Ok (of_column (S_interval fCType) 28 c)
  else if among [SQL_C_TIME; SQL_C_TYPE_TIME] then
    t ← get_string v; c ← column_time bound ZERO_DATE_TO_MIN (column_type_of (ftype f)) t.2; Ok (of_column S_time 6 c)
  else if among [SQL_C_TIMESTAMP; SQL_C_TYPE_TIMESTAMP] then
    t ← get_string v; c ← column_timestamp bound ZERO_DATE_TO_MIN date_after (column_type_of (ftype f)) t.2; Ok (of_column S_timestamp 16 c)
  else if among [SQL_C_SBIGINT] then number get_int64 8 to_int64
  else if among [SQL_C_UBIGINT] then number get_uint64 8 to_uint64
  else if among [SQL_C_NUMERIC] then numeric_answer bits arrec v
  else Ok (refuse (S!"07006")).

(** [src/driver/results.cc:463-480] sql_get_data

    A BIT column: copied, as characters too; the number for [SQL_C_UBIGINT] is
    computed, and left. *)
Definition get_value (fCType cbValueMax : Z) (arrec : option ard_record) (v : str) (g : GETDATA) : res (answer * GETDATA) :=
  let convert (bits : option Z) :=
    if (fCType =? SQL_C_CHAR) || (fCType =? SQL_C_BINARY) then get_text fCType cbValueMax v g
    else if fCType =? SQL_C_WCHAR then get_wide cbValueMax v g
    else done g (get_fixed fCType arrec bits v) in
  if bool_decide (ftype f = MYSQL_TYPE_BIT) then
    if fCType =? SQL_C_BIT then copied (copy_binary_result o bound cbValueMax true v g)
    else if fCType =? SQL_C_CHAR then copied (do_copy_bit_result 1 o bound cbValueMax true v g)
    else if fCType =? SQL_C_WCHAR then
      '(x, g) ← do_copy_bit_result 2 o bound cbValueMax true v g;
      Ok (Answer (ret x) (S_wide ∘ fmap (λ c, Z.of_N (N_of_ascii c)) <$> written x) (avail x) (state x), g)
    else if fCType =? SQL_C_UBIGINT then _ ← binary2ull v; convert None
    else n ← binary2ll v; convert (Some n)
  else convert None.

(** [src/driver/results.cc:381-941] sql_get_data

    [bound] tells whether there is a buffer, [ind] whether there is a place for the
    indicator.  A numeric has its precision and scale whatever comes of the value.
    Streams are left out. *)
Definition sql_get_data (fCType cbValueMax : Z) (ind : bool) (arrec : option ard_record) (value : option str) (g : GETDATA) : res (answer * GETDATA) :=
  let convert (fCType cbValueMax : Z) :=
    if is_null value then
      if negb ind then Ok (refuse (S!"22002"), g) else Ok (no_data g (Answer SQL_SUCCESS None (Some SQL_NULL_DATA) None), g)
    else if negb (odbc_supported_conversion (get_sql_data_type e f).1 fCType) && negb (driver_supported_conversion f fCType) then Ok (refuse (S!"07006"), g)
    else
      '(a, g) ← get_value fCType cbValueMax arrec (default [] value) g;
      Ok (Answer (a_ret a) (a_stored a) (if ind then a_ind a else None) (a_state a), g) in
  let run (fCType cbValueMax : Z) := '(a, g) ← convert fCType cbValueMax; Ok (written_over (numeric_start fCType arrec) a, g) in
  if fCType =? SQL_C_DEFAULT then
    let t := unireg_to_c_datatype f in run t (if cbValueMax =? 0 then bind_length t 0 else cbValueMax)
  else if fCType =? SQL_ARD_TYPE then
    match arrec with None => Ok (refuse (S!"07009"), g) | Some r => run (concise_type r) cbValueMax end
  else run fCType cbValueMax.

(** [src/driver/results.cc:343-361] fix_padding

    [irrec] gives the type and the octet length of the column; the value that is
    passed on, with its length.  A null pointer has spaces as well, and a negative
    length is one that no string can have. *)
Definition fix_padding (fCType : Z) (value : option str) (cbValueMax : Z) (type octet_length : Z) : res (option str) :=
  if opt_PAD_SPACE e && ((type =? SQL_CHAR) || (type =? SQL_WCHAR)) && bool_decide (fCType ∈ [SQL_C_CHAR; SQL_C_WCHAR; SQL_C_BINARY]) then
    if octet_length `min` cbValueMax <? 0 then Throw (length_error (S!"basic_string::_M_replace_aux")) else
    let data_len := Z.to_nat (octet_length `min` cbValueMax) in
    let s := default [] value in
    Ok (Some (take data_len s ++ replicate (data_len - length s) " "%char))
  else Ok value.
End Conversion.

(** [src/driver/results.cc:1524-1564] SQLGetData

    The conversion of a column, of the value that has been padded. *)
Definition get_column `{Protocol} (f : MYSQL_FIELD) (type octet_length : Z) (TargetType : Z) (bound : bool) (BufferLength : Z) (ind : bool)
    (arrec : option ard_record) (value : option str) (g : GETDATA) : res (answer * GETDATA) :=
  value ← fix_padding TargetType value BufferLength type octet_length;
  sql_get_data f bound TargetType BufferLength ind arrec value g.

End Column.

(** ** Numbers that are written and read *)

Lemma digit_no_zero c : is_digit c = true → c ≠ Ascii.zero.
Proof. intros Hc ->. discriminate Hc. Qed.

Lemma c_str_plain s : Ascii.zero ∉ s → c_str s = s.
Proof.
  induction s as [|c s IH]; [done|]. rewrite not_elem_of_cons. intros [Hc Hs]. cbn [c_str]. rewrite bool_decide_false by (intros ->; done). by rewrite IH.
Qed.

Lemma to_string_cases v : to_string v = (if v <? 0 then "-"%char :: N_to_string (Z.to_N (- v)) else N_to_string (Z.to_N v)).
Proof. by destruct v. Qed.

Lemma N_to_string_facts n : let s := N_to_string n in
  Z.of_N (digits_value s) = Z.of_N n ∧ leading_digits s = s ∧ Forall (λ c, is_digit c = true) s ∧ ∃ c t, s = c :: t ∧ is_digit c = true.
Proof.
  intros s. destruct (N_to_string_value n) as [Hv Hd]. fold s in Hv, Hd. split; [by rewrite Hv|]. split; [by apply leading_digits_all|]. split; [done|].
  destruct s as [|c t] eqn:E; [|by exists c, t; split; [|by apply Forall_inv in Hd]].
  exfalso. unfold s, N_to_string in E. cbn [pos_digits] in E. destruct (n <? 10)%N; [done|]. rewrite pos_digits_app in E. by apply app_eq_nil in E as [_ ?].
Qed.

Lemma c_str_to_string v : c_str (to_string v) = to_string v.
Proof.
  apply c_str_plain. intros Hz. pose proof (to_string_chars v) as Hc. rewrite Forall_forall in Hc. destruct (Hc _ Hz) as [H|H]; discriminate H.
Qed.

Lemma strtoll_to_string v : - 2 ^ 63 ≤ v < 2 ^ 63 → strtoll (to_string v) = v.
Proof.
  intros Hv. destruct (Z.ltb_spec v 0) as [Hn|Hn]; [|apply atol_to_string; unfold int64_max; lia].
  rewrite to_string_cases, (proj2 (Z.ltb_lt _ _) Hn). destruct (N_to_string_facts (Z.to_N (- v))) as (E1 & E2 & _). unfold strtoll, atol.
  change (skip_spaces ("-"%char :: N_to_string (Z.to_N (- v)))) with ("-"%char :: N_to_string (Z.to_N (- v))).
  cbv beta iota. rewrite E2, E1. unfold int64_max. lia.
Qed.

Lemma strtoull_to_string v : - 2 ^ 63 ≤ v < 2 ^ 64 → strtoull (to_string v) = v mod 2 ^ 64.
Proof.
  intros Hv. rewrite to_string_cases. unfold strtoull. destruct (Z.ltb_spec v 0) as [Hn|Hn].
  - destruct (N_to_string_facts (Z.to_N (- v))) as (E1 & E2 & _).
    change (skip_spaces ("-"%char :: N_to_string (Z.to_N (- v)))) with ("-"%char :: N_to_string (Z.to_N (- v))).
    cbv beta iota zeta. rewrite E2, E1, (proj2 (Z.ltb_lt _ _)) by lia. f_equal. lia.
  - destruct (N_to_string_facts (Z.to_N v)) as (E1 & E2 & _ & c & t & E & Hc). set (s := N_to_string (Z.to_N v)) in *. clearbody s. subst s.
    destruct (is_digit_not_space c Hc) as (Hs & Hm & Hp & _). cbn [skip_spaces]. rewrite Hs.
    assert (Z.of_N (digits_value (leading_digits (c :: t))) `min` (2 ^ 64 - 1) = v mod 2 ^ 64) as Hval by (rewrite E2, E1, Z.mod_small by lia; lia).
    destruct c as [[] [] [] [] [] [] [] []]; try done; exact Hval.
Qed.

(** ** Integers in buffers *)

(** The bytes of a number in a buffer of [n] bytes. *)
Fixpoint le_bytes (n : nat) (v : Z) : str :=
  match n with O => [] | S n => ascii_of_N (Z.to_N (v mod 256)) :: le_bytes n (v / 256) end.

Lemma length_le_bytes n v : length (le_bytes n v) = n.
Proof. revert v. induction n as [|n IH]; intros v; cbn; [done|]. by rewrite IH. Qed.

Lemma little_endian_le_bytes n v : little_endian n (le_bytes n v) = v mod 2 ^ (8 * Z.of_nat n).
Proof.
  revert v. induction n as [|n IH]; intros v; cbn [little_endian le_bytes]; [by rewrite Z.mod_1_r|].
  rewrite IH. pose proof (Z.mod_pos_bound v 256). rewrite N_ascii_embedding, Z2N.id by lia.
  replace (8 * Z.of_nat (S n)) with (8 + 8 * Z.of_nat n) by lia. rewrite Z.pow_add_r by lia. change (2 ^ 8) with 256.
  rewrite Z.rem_mul_r by lia. done.
Qed.

Lemma signed_mod w v : 0 < w → - 2 ^ (w - 1) ≤ v < 2 ^ (w - 1) → signed w (v mod 2 ^ w) = v.
Proof.
  intros Hw Hv. assert (2 ^ w = 2 * 2 ^ (w - 1)) as E by (rewrite <- Z.pow_succ_r by lia; f_equal; lia).
  unfold signed. rewrite Z.mod_mod by lia. destruct (Z.ltb_spec v 0) as [H0|H0].
  - replace (v mod 2 ^ w) with (v + 2 ^ w); [destruct (Z.ltb_spec (v + 2 ^ w) (2 ^ (w - 1))); lia|].
    apply (Z.mod_unique_pos _ _ (-1)); lia.
  - rewrite Z.mod_small by lia. destruct (Z.ltb_spec v (2 ^ (w - 1))); lia.
Qed.

(** ** Both protocols give the same numbers *)

Section Agreement.
Context {double : Type} (strtod : str → double) (double_of_Z : Z → double) (to_float : double → double).
Context (int_of_double : bool → double → Z) (double_text : double → str).
Context (mb_wc : str → Z * Z) (wc_mb : Z → Z → Z * str) (same : bool) (to_utf16 : Z → list Z).
Context (ZERO_DATE_TO_MIN : bool) (date_after : Z → Z * Z * Z) (e : column_env) (o : get_options).

#[local] Abbreviation text := (text_protocol strtod).
#[local] Abbreviation binary := (binary_protocol strtod double_of_Z int_of_double double_text).
#[local] Abbreviation get_data P := (@sql_get_data _ double_of_Z to_float mb_wc wc_mb same to_utf16 ZERO_DATE_TO_MIN date_after e o P).

(** The types that are read with a sign. *)
Definition signed_ctypes : list Z := [SQL_C_BIT; SQL_C_TINYINT; SQL_C_STINYINT; SQL_C_SHORT; SQL_C_SSHORT; SQL_C_LONG; SQL_C_SLONG; SQL_C_SBIGINT].
(** Those whose conversion is not one of numbers and texts. *)
Definition other_ctypes : list Z := [SQL_C_BINARY; SQL_C_FLOAT; SQL_C_DOUBLE; SQL_C_DEFAULT; SQL_ARD_TYPE].

(** What a conversion asks of a protocol, for two of them. *)
Record same_value (P Q : @Protocol double) (fCType : Z) (u w : str) : Prop := {
  same_null : @is_null _ P (Some u) = @is_null _ Q (Some w);
  same_int : fCType ∈ signed_ctypes → @get_int _ P u = @get_int _ Q w ∧ @get_int64 _ P u = @get_int64 _ Q w;
  same_uint : @get_uint _ P u = @get_uint _ Q w;
  same_uint64 : @get_uint64 _ P u = @get_uint64 _ Q w;
  same_string : @get_string _ P u = @get_string _ Q w;
  same_no_date : looks_like_date u = false ∧ looks_like_date w = false
}.

Lemma same_fixed P Q f bound fCType arrec u w : same_value P Q fCType u w → fCType ∉ other_ctypes →
  @get_fixed _ double_of_Z to_float ZERO_DATE_TO_MIN date_after P f bound fCType arrec None u =
  @get_fixed _ double_of_Z to_float ZERO_DATE_TO_MIN date_after Q f bound fCType arrec None w.
Proof.
  intros [_ Hint Huint Huint64 Hstr [Hdu Hdw]] Ho. unfold get_fixed, numeric_answer. rewrite Huint, Huint64, Hstr, Hdu, Hdw, !andb_false_r.
  assert (∀ l, bool_decide (fCType ∈ l) = true → Forall (.∈ signed_ctypes) l → @get_int _ P u = @get_int _ Q w ∧ @get_int64 _ P u = @get_int64 _ Q w) as Hs
    by (intros l Hl%bool_decide_eq_true Hsub; rewrite Forall_forall in Hsub; apply Hint, Hsub, Hl).
  assert (∀ c, c ∈ other_ctypes → bool_decide (fCType ∈ [c]) = false) as Hno
    by (intros c Hc; apply bool_decide_eq_false; intros ->%list_elem_of_singleton; done).
  rewrite (Hno SQL_C_FLOAT), (Hno SQL_C_DOUBLE) by (apply (bool_decide_unpack _); vm_compute; exact I).
  repeat match goal with |- context [@bool_decide (fCType ∈ ?l) ?d] =>
    let E := fresh "E" in destruct (@bool_decide (fCType ∈ l) d) eqn:E;
      [try (destruct (Hs _ E) as [E1 E2]; [apply (bool_decide_unpack _); vm_compute; exact I|]; rewrite ?E1, ?E2); reflexivity|clear E] end.
  reflexivity.
Qed.

(** The bytes of the buffer of an integer column, and what a prepared statement has
    there for a value. *)
Definition int_size (t : field_type) : nat :=
  match t with MYSQL_TYPE_TINY => 1 | MYSQL_TYPE_SHORT => 2 | MYSQL_TYPE_LONGLONG => 8 | _ => 4 end.
Definition int_bind (f : MYSQL_FIELD) (v : Z) (after : str) (t : MYSQL_TIME) (d : double) : MYSQL_BIND :=
  Bind (ftype f) (le_bytes (int_size (ftype f)) v) (Z.of_nat (int_size (ftype f))) after t d (Z.of_nat (int_size (ftype f))) false (is_unsigned f).

Lemma int_bind_allocated f bits v after t d : int_bits (ftype f) = Some bits →
  let b := int_bind f v after t d in allocate_buffer_for_field f false = (buffer_type b, buffer_length b) ∧ Z.of_nat (length (buffer b)) = buffer_length b.
Proof. unfold int_bind, allocate_buffer_for_field. cbn. rewrite length_le_bytes. destruct (ftype f); intros [= <-]; done. Qed.

(** A column of a byte without a sign, with a value that has the highest bit. *)
Definition high_byte (f : MYSQL_FIELD) (v : Z) : Prop := ftype f = MYSQL_TYPE_TINY ∧ is_unsigned f = true ∧ 128 ≤ v.

Lemma integer_in_bind f bits v after t d :
  int_bits (ftype f) = Some bits → int_value bits (is_unsigned f) v → ¬ high_byte f v → integer_in (int_bind f v after t d) = v.
Proof.
  unfold int_value, high_byte, integer_in, int_bind. cbn [bind_null buffer buffer_length bind_unsigned]. rewrite ?little_endian_le_bytes.
  destruct (ftype f) eqn:Et; intros [= <-] Hv Hh; cbn [int_size]; rewrite !little_endian_le_bytes;
    change (8 * Z.of_nat 1) with 8; change (8 * Z.of_nat 2) with 16; change (8 * Z.of_nat 4) with 32; change (8 * Z.of_nat 8) with 64;
    repeat match goal with |- context [Z.of_nat ?n =? ?k] => let b := eval vm_compute in (Z.of_nat n =? k) in change (Z.of_nat n =? k) with b end;
    cbv iota; destruct (is_unsigned f); unfold id; try (rewrite Z.mod_small by lia; lia); try (apply signed_mod; lia).
  apply signed_mod; [lia|]. destruct (Z.le_gt_cases 128 v); [exfalso; by apply Hh|lia].
Qed.

Lemma int_bits_facts t bits : int_bits t = Some bits → is_integer_type t = true ∧ 0 < bits ≤ 64 ∧ (int_size t < 10)%nat.
Proof. destruct t; intros [= <-]; cbn; lia || (split; [done|split; lia]). Qed.

Lemma int_value_bounds bits u v : 0 < bits ≤ 64 → int_value bits u v → - 2 ^ 63 ≤ v < 2 ^ 64 ∧ (u = true → 0 ≤ v) ∧ (u = false → v < 2 ^ 63).
Proof.
  intros Hb Hv. assert (2 ^ (bits - 1) ≤ 2 ^ 63) by (apply Z.pow_le_mono_r; lia). assert (2 ^ bits ≤ 2 ^ 64) by (apply Z.pow_le_mono_r; lia).
  unfold int_value in Hv. destruct u; split_and!; try done; lia.
Qed.

Lemma ssps_get_int64_bind sgn f bits v after t d :
  int_bits (ftype f) = Some bits → int_value bits (is_unsigned f) v → ¬ high_byte f v →
  ssps_get_int64 double_of_Z int_of_double sgn (int_bind f v after t d) = Ok (if sgn then to_int64 v else to_uint64 v).
Proof.
  intros Hb Hv Hh. pose proof (integer_in_bind f bits v after t d Hb Hv Hh) as E.
  unfold ssps_get_int64. rewrite E. change (buffer_type (int_bind f v after t d)) with (ftype f). destruct (ftype f); try discriminate Hb; reflexivity.
Qed.

Lemma to_string_no_dash v i : (0 < i)%nat → to_string v !! i ≠ Some "-"%char.
Proof.
  intros Hi. assert (∀ n j, N_to_string n !! j ≠ Some "-"%char) as Hn.
  { intros n j Hj. destruct (N_to_string_facts n) as (_ & _ & Hd & _). eapply Forall_lookup_1 in Hj; [|exact Hd]. discriminate Hj. }
  rewrite to_string_cases. destruct (v <? 0); [|apply Hn]. destruct i as [|i]; [lia|]. apply Hn.
Qed.

Lemma to_string_no_date v : looks_like_date (to_string v) = false.
Proof.
  unfold looks_like_date. rewrite (bool_decide_eq_false_2 (to_string v !! 4%nat = _)) by (apply to_string_no_dash; lia). by rewrite andb_false_r.
Qed.

Lemma integers_same f bits v after t d fCType :
  int_bits (ftype f) = Some bits → int_value bits (is_unsigned f) v → ¬ high_byte f v → (fCType ∈ signed_ctypes → v < 2 ^ 63) →
  same_value text (binary (int_bind f v after t d)) fCType (to_string v) (le_bytes (int_size (ftype f)) v).
Proof.
  intros Hb Hv Hh Hsigned. destruct (int_bits_facts _ _ Hb) as (Hi & Hbits & Hsize). destruct (int_value_bounds _ _ _ Hbits Hv) as (Hr & Hu & Hs).
  pose proof (λ sgn, ssps_get_int64_bind sgn f bits v after t d Hb Hv Hh) as E.
  assert (v < 2 ^ 63 → to_int64 v = v) as H64.
  { intros Hlt. unfold to_int64. rewrite <- (signed_mod 64 v) at 2 by lia. unfold signed. by rewrite Z.mod_mod by lia. }
  split; cbn [text_protocol binary_protocol is_null get_int get_uint get_int64 get_uint64 get_string]; rewrite ?c_str_to_string, ?E.
  - done.
  - intros Hc. specialize (Hsigned Hc). cbn [mbind res_bind]. rewrite strtoll_to_string, H64 by lia. done.
  - cbn [mbind res_bind]. by rewrite strtoull_to_string by lia.
  - by rewrite strtoull_to_string by lia.
  - unfold ssps_get_string. cbn [int_bind bind_null time_string buffer_type bind_unsigned].
    assert (∀ A (x y : A), (match ftype f with Types.MYSQL_TYPE_TIMESTAMP | Types.MYSQL_TYPE_DATETIME | Types.MYSQL_TYPE_DATE | Types.MYSQL_TYPE_TIME => x | _ => y end) = y) as Hm
      by (intros; destruct (ftype f); try discriminate Hb; done).
    unfold time_string. cbn [buffer_type int_bind]. rewrite Hi. cbn [orb].
    assert (to_string (if negb (is_unsigned f) then to_int64 v else to_uint64 v) = to_string v) as Hs1.
    { destruct (is_unsigned f); cbn [negb]; [unfold to_uint64; rewrite Z.mod_small by (specialize (Hu eq_refl); lia)|rewrite H64 by auto]; done. }
    fold (int_bind f v after t d). rewrite E. cbn [mbind res_bind]. rewrite Hs1. destruct (ftype f); try discriminate Hb; done.
  - split; [apply to_string_no_date|]. unfold looks_like_date. rewrite length_le_bytes, (proj2 (Nat.leb_gt _ _)) by done. done.
Qed.

(** The C types of integers: their bytes, and whether they have a sign. *)
Definition int_ctype (c : Z) : option (Z * bool) :=
  if bool_decide (c ∈ [SQL_C_TINYINT; SQL_C_STINYINT]) then Some (1, true)
  else if bool_decide (c ∈ [SQL_C_UTINYINT]) then Some (1, false)
  else if bool_decide (c ∈ [SQL_C_SHORT; SQL_C_SSHORT]) then Some (2, true)
  else if bool_decide (c ∈ [SQL_C_USHORT]) then Some (2, false)
  else if bool_decide (c ∈ [SQL_C_LONG; SQL_C_SLONG]) then Some (4, true)
  else if bool_decide (c ∈ [SQL_C_ULONG]) then Some (4, false)
  else if bool_decide (c ∈ [SQL_C_SBIGINT]) then Some (8, true)
  else if bool_decide (c ∈ [SQL_C_UBIGINT]) then Some (8, false)
  else None.

Lemma same_value_data P Q f bits bound fCType cbValueMax ind arrec u w g :
  int_bits (ftype f) = Some bits → same_value P Q fCType u w → fCType ∉ other_ctypes →
  get_data P f bound fCType cbValueMax ind arrec (Some u) g = get_data Q f bound fCType cbValueMax ind arrec (Some w) g.
Proof.
  intros Hb Hs Ho. pose proof (same_fixed P Q f bound fCType arrec u w Hs Ho) as Hf. destruct Hs as [Hnull _ _ _ Hstr _].
  assert (∀ c, c ∈ other_ctypes → (fCType =? c) = false) as Hno by (intros c Hc; apply Z.eqb_neq; intros ->; done).
  unfold sql_get_data. rewrite (Hno SQL_C_DEFAULT), (Hno SQL_ARD_TYPE), Hnull by (apply (bool_decide_unpack _); vm_compute; exact I).
  change (default [] (Some u)) with u. change (default [] (Some w)) with w.
  assert (get_value double_of_Z to_float mb_wc wc_mb same to_utf16 ZERO_DATE_TO_MIN date_after o f bound fCType cbValueMax arrec u g (H := P) =
          get_value double_of_Z to_float mb_wc wc_mb same to_utf16 ZERO_DATE_TO_MIN date_after o f bound fCType cbValueMax arrec w g (H := Q)) as ->; [|done].
  assert (shown_in_hex f = false) as Hhex by (unfold shown_in_hex; destruct (ftype f); try discriminate Hb; cbn; by rewrite !andb_false_r).
  assert (ftype f ≠ MYSQL_TYPE_BIT ∧ ftype f ≠ Types.MYSQL_TYPE_TIMESTAMP) as [Hnb Hnt]
    by (destruct (ftype f); try discriminate Hb; split; discriminate).
  unfold get_value, get_text, get_wide. rewrite Hhex, Hstr, Hf, (Hno SQL_C_BINARY) by (apply (bool_decide_unpack _); vm_compute; exact I).
  rewrite (bool_decide_eq_false_2 (ftype f = MYSQL_TYPE_BIT)), (bool_decide_eq_false_2 (ftype f = Types.MYSQL_TYPE_TIMESTAMP)) by done.
  rewrite !andb_false_r. cbn [andb mbind res_bind]. by rewrite Hstr.
Qed.

(** Integers of such a column are sent padded. *)
Definition ZEROFILL_FLAG : Z := 64.

(** C29: for a value of an integer column both protocols give an application the same: the
    same result and the same bytes in its buffers, for every C type but bytes and floating
    point (whose conversions are not those of the text of the number), when the number has
    not 64 bits or is not read with a sign. The text protocol sends the number in decimal
    ([integer_text], a law of the server), but for columns with ZEROFILL, which are left
    out: those it sends padded with zeros, which an application that asks for characters
    gets, while a prepared statement gives it the number without them. Of columns of one
    byte without a sign only the values below 128 are the same. *)
Theorem protocols_agree integer_text f bits v after t d bound fCType cbValueMax ind arrec g :
  (∀ f v, flag ZEROFILL_FLAG f = false → integer_text f v = to_string v) → flag ZEROFILL_FLAG f = false →
  int_bits (ftype f) = Some bits → int_value bits (is_unsigned f) v → ¬ high_byte f v → fCType ∉ other_ctypes →
  (fCType ∈ signed_ctypes → v < 2 ^ 63) →
  get_data (binary (int_bind f v after t d)) f bound fCType cbValueMax ind arrec (Some (le_bytes (int_size (ftype f)) v)) g =
  get_data text f bound fCType cbValueMax ind arrec (Some (integer_text f v)) g.
Proof.
  intros Htext Hz Hb Hv Hh Ho Hs. rewrite (Htext f v Hz). symmetry. apply (same_value_data text (binary (int_bind f v after t d)) f bits); [done|by apply (integers_same f bits)|done].
Qed.

Lemma integer_supported f bits fCType : int_bits (ftype f) = Some bits → odbc_supported_conversion (get_sql_data_type e f).1 fCType = true.
Proof.
  intros Hb. unfold get_sql_data_type. destruct (ftype f); try discriminate Hb; try (destruct (flag NUM_FLAG f)); try (destruct (opt_NO_BIGINT e)); reflexivity.
Qed.

Lemma stored_signed w v : 0 < w → - 2 ^ (w - 1) ≤ v < 2 ^ (w - 1) → signed w v = v.
Proof. intros Hw Hv. rewrite <- (signed_mod w v) at 2 by done. unfold signed. rewrite Z.mod_mod; [done|]. apply Z.pow_nonzero; lia. Qed.

(** What the text protocol reads from the text of a number. *)
Lemma text_numbers v :
  (- 2 ^ 31 ≤ v < 2 ^ 31 → @get_int _ text (to_string v) = Ok v) ∧ (0 ≤ v < 2 ^ 32 → @get_uint _ text (to_string v) = Ok v) ∧
  (- 2 ^ 63 ≤ v < 2 ^ 63 → @get_int64 _ text (to_string v) = Ok v) ∧ (0 ≤ v < 2 ^ 64 → @get_uint64 _ text (to_string v) = Ok v).
Proof.
  cbn [text_protocol get_int get_uint get_int64 get_uint64]. rewrite c_str_to_string.
  split_and!; intros Hv; rewrite ?strtoll_to_string, ?strtoull_to_string by lia; f_equal.
  - by apply (stored_signed 32).
  - unfold to_uint32. rewrite !Z.mod_small; [done|lia|rewrite Z.mod_small; lia].
  - rewrite Z.mod_small; lia.
Qed.
(** an integer that fits into the C type that is asked for is what the application
    gets, whatever the column, with the size of the type as its length. *)
Theorem integer_value_delivered f bits v fCType size sgn cbValueMax ind arrec g :
  int_bits (ftype f) = Some bits → int_value bits (is_unsigned f) v → int_ctype fCType = Some (size, sgn) → int_value (8 * size) (negb sgn) v →
  source g = None →
  get_data text f true fCType cbValueMax ind arrec (Some (to_string v)) g =
  Ok (Answer SQL_SUCCESS (Some (S_int size v)) (if ind then Some size else None) None, g).
Proof.
  intros Hb Hbits Hc Hv Hg. pose proof (to_string_no_date v) as Hdate. destruct (text_numbers v) as (T1 & T2 & T3 & T4).
  assert (get_fixed double_of_Z to_float ZERO_DATE_TO_MIN date_after f true fCType arrec None (to_string v) (H := text) =
    Ok (Answer SQL_SUCCESS (Some (S_int size v)) (Some size) None) ∧ fCType ∉ other_ctypes) as [Hfixed Ho].
  { unfold int_ctype in Hc.
    repeat match type of Hc with context [@bool_decide (fCType ∈ ?l) ?d] =>
      destruct (@bool_decide_reflect (fCType ∈ l) d) as [Hin|_];
        [rewrite !elem_of_cons, ?elem_of_nil in Hin; injection Hc as <- <-; unfold int_value in Hv; cbn [negb] in Hv|] end; [..|discriminate Hc].
    all: destruct_or! Hin; try done; subst fCType; (split; [|apply (bool_decide_unpack _); vm_compute; exact I]).
    all: unfold get_fixed; repeat match goal with |- context [@bool_decide (?c ∈ ?l) ?d] => let b := eval vm_compute in (@bool_decide (c ∈ l) d) in change (@bool_decide (c ∈ l) d) with b end; cbv iota.
    all: unfold fixed; rewrite ?Hdate, ?andb_false_r; cbv iota; rewrite ?T1, ?T2, ?T3, ?T4 by lia; cbn [mbind res_bind]; do 4 f_equal.
    all: first [apply (stored_signed 8); lia | apply (stored_signed 16); lia | apply (stored_signed 32); lia | apply (stored_signed 64); lia | apply Z.mod_small; lia]. }
  assert (∀ c, c ∈ SQL_C_CHAR :: SQL_C_WCHAR :: other_ctypes → (fCType =? c) = false) as Hno.
  { intros c [->|[->|Hin]%elem_of_cons]%elem_of_cons; apply Z.eqb_neq; intros ->; [discriminate Hc|discriminate Hc|done]. }
  unfold sql_get_data, get_value. rewrite (Hno SQL_C_DEFAULT), (Hno SQL_ARD_TYPE), (Hno SQL_C_CHAR), (Hno SQL_C_WCHAR), (Hno SQL_C_BINARY)
    by (apply (bool_decide_unpack _); vm_compute; exact I).
  rewrite (integer_supported f bits fCType Hb). change (default [] (Some (to_string v))) with (to_string v).
  rewrite (bool_decide_eq_false_2 (ftype f = MYSQL_TYPE_BIT)) by (destruct (ftype f); discriminate). cbn [orb negb andb text_protocol is_null].
  rewrite Hfixed. unfold done, no_data. rewrite Hg. by destruct ind.
Qed.

(** ** The size of what is written *)

(** The size of what is written, or of the structure a part of which is. *)
Definition size_of (x : @stored double) : Z :=
  match x with
  | S_int n _ => n | S_float _ => 4 | S_double _ => 8 | S_date _ => 6 | S_time _ => 6 | S_timestamp _ => 16 | S_interval _ _ => 28
  | S_numeric _ | S_numeric_type _ _ => 19 | S_bytes s => Z.of_nat (length s) | S_wide s => 2 * Z.of_nat (length s)
  end.

(** The C types of a fixed size that the binding knows. *)
Definition fixed_ctypes : list Z :=
  [SQL_C_BIT; SQL_C_TINYINT; SQL_C_STINYINT; SQL_C_UTINYINT; SQL_C_SHORT; SQL_C_SSHORT; SQL_C_USHORT; SQL_C_LONG; SQL_C_SLONG; SQL_C_ULONG;
   SQL_C_FLOAT; SQL_C_DOUBLE; SQL_C_DATE; SQL_C_TYPE_DATE; SQL_C_TIME; SQL_C_TYPE_TIME; SQL_C_TIMESTAMP; SQL_C_TYPE_TIMESTAMP;
   SQL_C_SBIGINT; SQL_C_UBIGINT; SQL_C_NUMERIC].

(** An answer writes a value of a size into a buffer that there is, and says so, or
    writes nothing. *)
Definition sized (bound : bool) (n : Z) (r : res (@answer double)) : Prop :=
  ∀ a, r = Ok a → ∀ x, a_stored a = Some x → bound = true ∧ size_of x = n ∧ (a_ind a = Some n ∨ (n = 19 ∧ a_ind a = Some 8)).

Lemma fixed_sized bound n r : (∀ x, r = Ok x → size_of x = n) → sized bound n (fixed bound n r).
Proof.
  intros Hr a. unfold fixed. destruct bound; [destruct r as [x| |]; [|done..]|]; intros [= <-] y; cbn; [|done]. intros [= <-]. split_and!; [done|by apply Hr|by left].
Qed.

Lemma of_column_sized {A} bound n (f : A → @stored double) c : (∀ x, size_of (f x) = n) → sized bound n (Ok (of_column bound f n c)).
Proof. intros Hf a [= <-] x. destruct c as [y []| |s]; cbn; [..|done|done]; (destruct bound; [|done]); intros [= <-]; (split_and!; [done|apply Hf|by left]). Qed.

Lemma bind_sized {A} bound n (r : res A) (k : A → res (@answer double)) : (∀ x, sized bound n (k x)) → sized bound n (r ≫= k).
Proof. intros Hk. destruct r as [x| |]; cbn; [apply Hk|done..]. Qed.

Lemma numeric_sized P bound bits arrec v : sized bound 19 (@numeric_answer double P bound bits arrec v).
Proof.
  unfold numeric_answer. destruct bound; cbn [negb]; [|by intros a [= <-]].
  assert (∀ text size, size = 19 ∨ size = 8 → sized true 19 (let '(prec, sc) := numeric_type arrec in
    let '(n, overflow) := sqlnum_from_str text (Numeric prec sc 0 []) in
    Ok (if overflow =? 1 then Answer SQL_ERROR (Some (S_numeric n)) (Some size) (Some (S!"22003"))
        else if overflow =? 2 then Answer SQL_SUCCESS_WITH_INFO (Some (S_numeric n)) (Some size) (Some (S!"01S07"))
        else Answer SQL_SUCCESS (Some (S_numeric n)) (Some size) None))) as H.
  { intros text size Hsize. destruct (numeric_type arrec) as [prec sc]. destruct (sqlnum_from_str _ _) as [n overflow].
    intros a [= <-] x. destruct (overflow =? 1), (overflow =? 2); cbn; intros [= <-]; (split_and!; [done..|]); destruct Hsize as [-> | ->]; auto. }
  destruct bits; [|destruct (get_string v); [|done..]]; cbn [mbind res_bind]; apply H; auto.
Qed.

Ltac size_cases := first [apply fixed_sized | apply bind_sized; intros ? | apply numeric_sized | apply of_column_sized].

Lemma get_fixed_sized P f bound fCType arrec bits v : fCType ∈ fixed_ctypes →
  sized bound (bind_length fCType 0) (@get_fixed double double_of_Z to_float ZERO_DATE_TO_MIN date_after P f bound fCType arrec bits v).
Proof.
  intros Hin. unfold fixed_ctypes in Hin. rewrite !elem_of_cons, elem_of_nil in Hin. destruct_or! Hin; try done; subst fCType.
  all: match goal with |- sized _ ?b _ => let n := eval vm_compute in b in change b with n end.
  all: unfold get_fixed; repeat match goal with |- context [@bool_decide (?c ∈ ?l) ?d] => let b := eval vm_compute in (@bool_decide (c ∈ l) d) in change (@bool_decide (c ∈ l) d) with b end; cbv iota zeta beta.
  all: try destruct (bool_decide (bits = None) && looks_like_date v); repeat size_cases; try done.
  all: try (match goal with |- ∀ x, (?r ≫= _) = Ok x → _ => destruct r end; cbn; [intros x [= <-]|done..]; done).
  all: try (intros x [= <-]; done).
Qed.

Lemma done_same g (r : res (@answer double)) x g' : done g r = Ok (x, g') → g' = g ∧ ∃ a, r = Ok a ∧ a_stored x = a_stored a ∧ a_ind x = a_ind a.
Proof.
  unfold done. destruct r as [a| |]; [|done..]. intros [= <- <-]. split; [done|]. exists a. split; [done|]. unfold no_data. by destruct (_ && _).
Qed.

(** Only the C types with a size of their own get as far as [get_fixed]. *)
Lemma get_value_fixed P f bound fCType cbValueMax arrec v g x g' :
  fCType ∈ fixed_ctypes → (ftype f = MYSQL_TYPE_BIT → fCType ≠ SQL_C_BIT) →
  get_value double_of_Z to_float mb_wc wc_mb same to_utf16 ZERO_DATE_TO_MIN date_after o f bound fCType cbValueMax arrec v g (H := P) = Ok (x, g') →
  ∃ bits, done g (@get_fixed double double_of_Z to_float ZERO_DATE_TO_MIN date_after P f bound fCType arrec bits v) = Ok (x, g').
Proof.
  intros Hin Hbit. assert ((fCType =? SQL_C_CHAR) = false ∧ (fCType =? SQL_C_WCHAR) = false ∧ (fCType =? SQL_C_BINARY) = false) as (E1 & E2 & E3).
  { split_and!; apply Z.eqb_neq; intros ->; revert Hin; apply (bool_decide_unpack _); vm_compute; exact I. }
  unfold get_value. rewrite E1, E2, E3. cbn [orb]. case_bool_decide as Ht; [|by eexists].
  rewrite (proj2 (Z.eqb_neq fCType SQL_C_BIT)) by auto. destruct (fCType =? SQL_C_UBIGINT).
  - destruct (binary2ull v) as [?| |]; [|done..]. cbn [mbind res_bind]. by eexists.
  - destruct (binary2ll v) as [n| |]; [|done..]. cbn [mbind res_bind]. by eexists.
Qed.

Lemma sql_get_data_sized P f bound fCType cbValueMax ind arrec value g a g' :
  fCType ∈ fixed_ctypes → (ftype f = MYSQL_TYPE_BIT → fCType ≠ SQL_C_BIT) →
  get_data P f bound fCType cbValueMax ind arrec value g = Ok (a, g') →
  g' = g ∧ ∀ x, a_stored a = Some x → bound = true ∧ size_of x = bind_length fCType 0 ∧
    (ind = true → a_ind a = Some (bind_length fCType 0) ∨ (fCType = SQL_C_NUMERIC ∧ a_ind a = Some 8) ∨ numeric_start bound fCType arrec = Some x).
Proof.
  intros Hin Hbit. assert ((fCType =? SQL_C_DEFAULT) = false ∧ (fCType =? SQL_ARD_TYPE) = false) as (E1 & E2).
  { split; apply Z.eqb_neq; intros ->; revert Hin; apply (bool_decide_unpack _); vm_compute; exact I. }
  assert (bind_length fCType 0 = 19 → fCType = SQL_C_NUMERIC) as Hn.
  { unfold fixed_ctypes in Hin. rewrite !elem_of_cons, elem_of_nil in Hin. by destruct_or! Hin; subst fCType. }
  assert (∀ x, numeric_start bound fCType arrec = Some x → bound = true ∧ size_of x = bind_length fCType 0) as Hstart.
  { unfold numeric_start. intros x. destruct (Z.eqb_spec fCType SQL_C_NUMERIC) as [->|]; [|done]. destruct bound; [|done]. destruct (numeric_type arrec). by intros [= <-]. }
  assert (∀ b, a_stored b = None → ∀ x, a_stored (written_over (numeric_start bound fCType arrec) b) = Some x → bound = true ∧ size_of x = bind_length fCType 0 ∧
    numeric_start bound fCType arrec = Some x) as Hnone.
  { intros b Hb x. cbn. rewrite Hb. intros Hx. destruct (Hstart x Hx). done. }
  unfold sql_get_data. rewrite E1, E2. destruct (is_null value).
  { assert (∀ b : @answer double, a_stored b = None → a_stored (no_data g b) = None) as Hnd by (intros b Hb; unfold no_data; by destruct (_ && _)).
    destruct ind; intros [= <- <-]; (split; [done|]); intros x Hx; [destruct (Hnone _ (Hnd (Answer SQL_SUCCESS None (Some SQL_NULL_DATA) None) eq_refl) x Hx) as (? & ? & ?)|destruct (Hnone (refuse _) eq_refl x Hx) as (? & ? & ?)]; auto. }
  destruct (_ && _); [intros [= <- <-]; split; [done|]; intros x Hx; destruct (Hnone (refuse _) eq_refl x Hx) as (? & ? & ?); auto|].
  destruct (get_value _ _ _ _ _ _ _ _ _ _ _ _ _ _ _ _) as [[x g1]| |] eqn:E; [|done..]. intros [= <- <-].
  destruct (get_value_fixed _ _ _ _ _ _ _ _ _ _ Hin Hbit E) as [bits (-> & y & Hy & Hs & Hi)%done_same]. split; [done|].
  intros z Hz. cbn [written_over a_stored] in Hz. destruct (a_stored x) as [x0|] eqn:Ex.
  2:{ destruct (Hnone (Answer 0 None None None) eq_refl z Hz) as (? & ? & ?). auto. }
  injection Hz as <-. symmetry in Hs. destruct (get_fixed_sized P f bound fCType arrec bits _ Hin _ Hy _ Hs) as (Hb & Hsz & Hind).
  split_and!; [done..|]. cbn [a_ind written_over]. intros ->. rewrite Hi. destruct Hind as [?|[? ?]]; auto.
Qed.

(** Padding is for texts and bytes. *)
Lemma get_column_fixed P f type octet_length fCType bound cbValueMax ind arrec value g : fCType ∈ fixed_ctypes →
  get_column double_of_Z to_float mb_wc wc_mb same to_utf16 ZERO_DATE_TO_MIN date_after e o f type octet_length fCType bound cbValueMax ind arrec value g (H := P) =
  get_data P f bound fCType cbValueMax ind arrec value g.
Proof.
  intros Hin. unfold get_column, fix_padding. rewrite (bool_decide_eq_false_2 (fCType ∈ [SQL_C_CHAR; SQL_C_WCHAR; SQL_C_BINARY])); [by rewrite andb_false_r|].
  intros Hc. revert Hin. rewrite !elem_of_cons, elem_of_nil in Hc. destruct_or! Hc; try done; subst fCType; apply (bool_decide_unpack _); vm_compute; exact I.
Qed.

(** for the C types of a fixed size a call writes what has the size that a binding
    gives to the type, whatever length of the buffer the application states, and says
    so; of a numeric without a value it writes the precision and scale; it writes nothing when there is no buffer.  The place in the column, of which
    pieces are counted, stays.  It is so in both protocols.  BIT columns read as
    [SQL_C_BIT] are copied like bytes; a number that one gives to an [SQL_C_NUMERIC] is
    written with the size of another type. *)
Theorem fixed_sizes P f bound fCType cbValueMax ind arrec value g a g' :
  fCType ∈ fixed_ctypes → (ftype f = MYSQL_TYPE_BIT → fCType ≠ SQL_C_BIT) →
  get_data P f bound fCType cbValueMax ind arrec value g = Ok (a, g') →
  g' = g ∧ ∀ x, a_stored a = Some x → bound = true ∧ size_of x = bind_length fCType 0 ∧
    (ind = true → a_ind a = Some (bind_length fCType 0) ∨ (fCType = SQL_C_NUMERIC ∧ a_ind a = Some 8) ∨ numeric_start bound fCType arrec = Some x).
Proof. apply sql_get_data_sized. Qed.
End Agreement.

(** ** Concrete columns *)

Module ColumnExamples.
Definition env : column_env := Env SQL_OV_ODBC3 true 8 1 false false false false.
Definition options : get_options := Options 0 true.
Definition column (t : field_type) (len flags : Z) : MYSQL_FIELD := Field t len 0 flags 0 63 0.
Definition one_byte (s : str) : Z * Z := match s with [] => (0, 0) | c :: _ => (1, Z.of_N (N_of_ascii c)) end.
Definition to_byte (n _ : Z) : Z * str := (1, [ascii_of_N (Z.to_N n)]).
(** Doubles are not looked at. *)
Definition text : @Protocol () := text_protocol (λ _, ()).
Definition binary (b : MYSQL_BIND) : @Protocol () := binary_protocol (λ _, ()) (λ _, ()) (λ _ _, 0) (λ _, []) b.
Definition time : MYSQL_TIME := MysqlTime 2024 5 6 0 0 0 0 false.
Definition get (P : @Protocol ()) (f : MYSQL_FIELD) (fCType n : Z) (v : str) : res (@answer () * GETDATA) :=
  sql_get_data (λ _, ()) id one_byte to_byte false (λ n, [n]) false (λ _, (2024, 5, 6)) env options f true fCType n true None (Some v) fresh (H := P).
Definition written (r : res (@answer () * GETDATA)) : option (@stored ()) := match r with Ok (a, _) => a_stored a | _ => None end.

(** A byte without a sign, from 128 on: what a prepared statement has is another
    number, and another text. *)
Example high_byte_read :
  let f := column MYSQL_TYPE_TINY 3 (NUM_FLAG + UNSIGNED_FLAG) in let P := binary (int_bind f 200 [Ascii.zero] time ()) in
  written (get text f SQL_C_SLONG 4 (S!"200")) = Some (S_int 4 200) ∧ written (get P f SQL_C_SLONG 4 []) = Some (S_int 4 (-56)) ∧
  written (get P f SQL_C_CHAR 30 []) = Some (S_bytes (S!"18446744073709551560" ++ [Ascii.zero])).
Proof. vm_compute. auto. Qed.

(** A date as a number: all of it in the one protocol, its year in the other. *)
Example date_as_number :
  let f := column Types.MYSQL_TYPE_DATE 10 BINARY_FLAG in
  let P := binary (Bind Types.MYSQL_TYPE_DATE (replicate 40 Ascii.zero) 40 [Ascii.zero] time () 40 false false) in
  written (get text f SQL_C_SLONG 4 (S!"2024-05-06")) = Some (S_int 4 20240506) ∧
  written (get P f SQL_C_SLONG 4 (replicate 40 Ascii.zero)) = Some (S_int 4 2024).
Proof. vm_compute. auto. Qed.

(** The bit 1 as [SQL_C_UBIGINT] is read as if its bytes were digits. *)
Example bit_as_ubigint :
  let f := column MYSQL_TYPE_BIT 8 UNSIGNED_FLAG in let one := [ascii_of_nat 1] in
  written (get text f SQL_C_SBIGINT 8 one) = Some (S_int 8 1) ∧ written (get text f SQL_C_UBIGINT 8 one) = Some (S_int 8 0).
Proof. vm_compute. auto. Qed.

(** A null in a column that is padded becomes spaces; a value is cut to the buffer
    before its pieces are counted. *)
Example null_padded :
  let e := Env SQL_OV_ODBC3 true 8 1 false false false true in
  fix_padding e SQL_C_CHAR None 10 SQL_CHAR 3 = Ok (Some (S!"   ")) ∧
  fix_padding e SQL_C_CHAR (Some (S!"abcdef")) 4 SQL_CHAR 6 = Ok (Some (S!"abcd")).
Proof. vm_compute. auto. Qed.

(** Nine bytes of bits. *)
Example long_bits : binary2numeric (replicate 9 Ascii.zero) = UB.
Proof. done. Qed.
End ColumnExamples.

Lemma protocols_agree_witness :
  let f := ColumnExamples.column MYSQL_TYPE_SHORT 6 NUM_FLAG in
  ColumnExamples.get (ColumnExamples.binary (int_bind f (-300) [Ascii.zero] ColumnExamples.time ())) f SQL_C_SLONG 4 (le_bytes 2 (-300)) =
  ColumnExamples.get ColumnExamples.text f SQL_C_SLONG 4 (to_string (-300)).
Proof.
  apply (protocols_agree (λ _, ()) (λ _, ()) id (λ _ _, 0) (λ _, []) ColumnExamples.one_byte ColumnExamples.to_byte false (λ n, [n]) false (λ _, (2024, 5, 6))
    ColumnExamples.env ColumnExamples.options (λ f v, if flag ZEROFILL_FLAG f then S!"0" ++ to_string v else to_string v)
    (ColumnExamples.column MYSQL_TYPE_SHORT 6 NUM_FLAG) 16 (-300)).
  - intros f v Hz. by rewrite Hz.
  - reflexivity.
  - reflexivity.
  - split; [done|reflexivity].
  - intros [? _]. discriminate.
  - apply (bool_decide_unpack _). vm_compute. exact I.
  - intros _. reflexivity.
Defined.

Lemma integer_value_delivered_witness :
  ColumnExamples.get ColumnExamples.text (ColumnExamples.column MYSQL_TYPE_LONG 11 NUM_FLAG) SQL_C_SSHORT 0 (to_string (-300)) =
  Ok (Answer SQL_SUCCESS (Some (S_int 2 (-300))) (Some 2) None, fresh).
Proof.
  apply (integer_value_delivered (λ _, ()) (λ _, ()) id ColumnExamples.one_byte ColumnExamples.to_byte false (λ n, [n]) false (λ _, (2024, 5, 6))
    ColumnExamples.env ColumnExamples.options (ColumnExamples.column MYSQL_TYPE_LONG 11 NUM_FLAG) 32 (-300) SQL_C_SSHORT 2 true 0 true None fresh).
  - reflexivity.
  - split; [done|reflexivity].
  - reflexivity.
  - split; [done|reflexivity].
  - reflexivity.
Defined.

Lemma fixed_sizes_witness : size_of (@S_date () (Date 2024 5 6)) = bind_length SQL_C_TYPE_DATE 0.
Proof.
  destruct (fixed_sizes (λ _, ()) id ColumnExamples.one_byte ColumnExamples.to_byte false (λ n, [n]) false (λ _, (2024, 5, 6))
    ColumnExamples.env ColumnExamples.options ColumnExamples.text (ColumnExamples.column Types.MYSQL_TYPE_DATE 10 BINARY_FLAG) true SQL_C_TYPE_DATE 0 true None
    (Some (S!"2024-05-06")) fresh (Answer SQL_SUCCESS (Some (S_date (Date 2024 5 6))) (Some 6) None) fresh) as [_ H].
  - apply (bool_decide_unpack _). vm_compute. exact I.
  - discriminate.
  - vm_compute. reflexivity.
  - exact (proj1 (proj2 (H _ eq_refl))).
Defined.
