(* ===== verification/Fetch.v ===== *)
(** Fetching (src/driver/results.cc, my_prepared_stmt.cc, my_stmt.cc): the rowset that a
    call of SQLFetch, SQLFetchScroll or SQLExtendedFetch moves to, its rows, and what is
    written to the buffers that are bound to the columns. *)

From S2P Require Import Prelude CppString HostList Numeric Errors Descriptors GetData DateTime TempBuf StringUtil Params Scroller Types Column.

Local Open Scope Z_scope.

Definition SQL_NO_DATA : Z := 100.
Definition SQL_FETCH_NEXT : Z := 1.
Definition SQL_FETCH_FIRST : Z := 2.
Definition SQL_FETCH_LAST : Z := 3.
Definition SQL_FETCH_PRIOR : Z := 4.
Definition SQL_FETCH_ABSOLUTE : Z := 5.
Definition SQL_FETCH_RELATIVE : Z := 6.
Definition SQL_FETCH_BOOKMARK : Z := 8.
Definition SQL_ROW_SUCCESS : Z := 0.
Definition SQL_ROW_NOROW : Z := 3.
Definition SQL_ROW_ERROR : Z := 5.
Definition SQL_ROW_SUCCESS_WITH_INFO : Z := 6.
Definition SQL_CURSOR_FORWARD_ONLY : Z := 0.
Definition SQL_CURSOR_DYNAMIC : Z := 2.

(** ** Where bound columns are *)

(** [src/driver/utility.cc:3123-3137] ptr_offset_adjust

    Pointers are numbers of 64 bits, [None] is the null pointer. *)
Definition ptr_offset_adjust (ptr bind_offset : option Z) (bind_type default_size row : Z) : option Z :=
  let offset := to_uint64 (default 0 bind_offset + (if bind_type =? 0 then default_size else bind_type) * row) in
  (λ p, to_uint64 (p + offset)) <$> ptr.

(** [src/driver/results.cc:143-152] sqlreturn2row_status *)
Definition sqlreturn2row_status (r : Z) : Z :=
  if r =? SQL_SUCCESS then SQL_ROW_SUCCESS else if r =? SQL_SUCCESS_WITH_INFO then SQL_ROW_SUCCESS_WITH_INFO else SQL_ROW_ERROR.

Definition SQL_SUCCEEDED (r : Z) : bool := (r =? SQL_SUCCESS) || (r =? SQL_SUCCESS_WITH_INFO).

Section Fetch.
Context {double : Type}.

(** The parameters of [sql_get_data]. *)
Record conversions := Conversions {
  k_double_of_Z : Z → double; k_to_float : double → double; k_mb_wc : str → Z * Z; k_wc_mb : Z → Z → Z * str; k_same : bool;
  k_to_utf16 : Z → list Z; k_zero_date : bool; k_date_after : Z → Z * Z * Z; k_env : column_env; k_options : get_options }.
Context (k : conversions).

(** What a column of a row has: what the conversion asks of it, and its value. *)
Record cell := Cell { protocol : @Protocol double; value : option str }.
Abbreviation row := (list cell).

(** A bound column: the field, the type and the octet length in the descriptor of the
    result, and the record of the descriptor of the application. *)
Record column := Col {
  field_ : MYSQL_FIELD; ir_type : Z; ir_octet_length : Z;
  concise_type_ : Z; data_ptr : option Z; octet_length : Z; octet_length_ptr : option Z; ard_numeric : Z * Z }.

(** [src/driver/driver.h:226] ARD_IS_BOUND *)
Definition ARD_IS_BOUND (c : column) : bool := bool_decide (is_Some (data_ptr c)) || bool_decide (is_Some (octet_length_ptr c)).

(** What is written to the memory of the application: values, lengths or indicators,
    the status of a row in the array of the call and in the one of the descriptor, and
    numbers of rows. *)
Inductive effect :=
  | W_value (addr : Z) (x : @stored double) | W_indicator (addr n : Z)
  | W_status (i v : Z) | W_status_ird (i v : Z) | W_rows (n : Z) | W_processed (n : Z).

Definition write_value (p : option Z) (x : option (@stored double)) : list effect :=
  match p, x with Some a, Some x => [W_value a x] | _, _ => [] end.
Definition write_indicator (p : option Z) (n : option Z) : list effect :=
  match p, n with Some a, Some n => [W_indicator a n] | _, _ => [] end.

(** What the rows of a rowset have in common. *)
Record binding := Binding { bind_offset : option Z; bind_type : Z; columns : list column }.

(** What is left of the conversion of a row: its result, what it has written, the place
    in the column and the last error. *)
Record filled := Filled { f_ret : Z; f_effects : list effect; f_getdata : GETDATA; f_error : option str }.

Definition worse (res tmp : Z) : Z :=
  if tmp =? SQL_SUCCESS then res
  else if tmp =? SQL_SUCCESS_WITH_INFO then (if res =? SQL_SUCCESS then tmp else res)
  else SQL_ERROR.

(** [src/driver/results.cc:1856-1911] fill_fetch_buffers

    One column. *)
Definition fill_column (b : binding) (rownum : Z) (c : column) (x : cell) (f : filled) : res filled :=
  if negb (ARD_IS_BOUND c) then Ok f else
  let target := ptr_offset_adjust (data_ptr c) (bind_offset b) (bind_type b) (to_int32 (octet_length c)) rownum in
  let pcbValue := ptr_offset_adjust (octet_length_ptr c) (bind_offset b) (bind_type b) 8 rownum in
  let arrec := Ard (concise_type_ c) (ard_numeric c).1 (ard_numeric c).2 in
  '(a, g) ← get_column (k_double_of_Z k) (k_to_float k) (k_mb_wc k) (k_wc_mb k) (k_same k) (k_to_utf16 k) (k_zero_date k) (k_date_after k)
    (k_env k) (k_options k) (field_ c) (ir_type c) (ir_octet_length c) (concise_type_ c) (bool_decide (is_Some target)) (octet_length c)
    (bool_decide (is_Some pcbValue)) (Some arrec) (value x) (reset_getdata_position (f_getdata f)) (H := protocol x);
  Ok (Filled (worse (f_ret f) (a_ret a)) (f_effects f ++ write_value target (a_stored a) ++ write_indicator pcbValue (a_ind a)) g
             (match a_state a with Some s => Some s | None => f_error f end)).

(** [src/driver/results.cc:1843-1916] fill_fetch_buffers *)
Fixpoint fill_columns (b : binding) (rownum : Z) (cs : list column) (values : row) (f : filled) : res filled :=
  match cs, values with
  | [], _ => Ok f
  | c :: cs, x :: values => f ← fill_column b rownum c x f; fill_columns b rownum cs values f
  | _ :: _, [] => UB
  end.
Definition fill_fetch_buffers (b : binding) (values : row) (rownum : Z) (g : GETDATA) : res filled :=
  fill_columns b rownum (columns b) values (Filled SQL_SUCCESS [] g None).

(** ** Bookmarks *)

Definition SQL_C_VARBOOKMARK : Z := SQL_C_BINARY.

(** [src/driver/results.cc:167-337] sql_get_bookmark_data

    [P] is what the conversion asks of the column whose number is given, which is not
    the one of the bookmark.  Wide characters fall through to the numbers of one byte.
    The null byte behind a text is written wherever it is. *)
Definition sql_get_bookmark_data (P : @Protocol double) (fCType : Z) (rgbValue : option Z) (cbValueMax : Z) (pcbValue : option Z) (v : str)
    (arrec : option ard_record) (g : GETDATA) : res filled :=
  let opts := k_options k in
  let fails (state : str) := Ok (Filled SQL_ERROR [] g (Some state)) in
  let ended (l : list effect) (size : Z) :=
    Ok (Filled (if bool_decide (is_Some (source g)) then SQL_NO_DATA_FOUND else SQL_SUCCESS) (l ++ write_indicator pcbValue (Some size)) g None) in
  let store (l : list effect) (size : Z) (get : res (@stored double)) :=
    if bool_decide (is_Some rgbValue) && retrieve_data opts then x ← get; ended (l ++ write_value rgbValue (Some x)) size else ended l size in
  let int l := store l 1 (n ← @get_int _ P v; Ok (S_int 1 (to_int8 n))) in
  let convert (fCType : Z) :=
    let among (l : list Z) := bool_decide (fCType ∈ l) in
    if among [SQL_C_CHAR; SQL_C_BINARY] then
      '(x, g) ← copy_binary_result opts (bool_decide (is_Some rgbValue)) cbValueMax true v g;
      let l := write_value rgbValue (S_bytes <$> written x) ++ write_indicator pcbValue (avail x) in
      let copied := Z.of_nat (length v) `min` to_uint64 cbValueMax in
      if SQL_SUCCEEDED (ret x) then
        match rgbValue with
        | Some p => Ok (Filled (ret x) (l ++ [W_value (p + copied) (S_bytes [Ascii.zero])]) g (state x))
        | None => if copied =? 0 then Ok (Filled (ret x) l g (state x)) else UB
        end
      else Ok (Filled (ret x) l g (state x))
    else if among [SQL_C_WCHAR] then
      let units := to_int32 (to_uint64 cbValueMax / 2) in
      let first := write_indicator pcbValue (Some units) in
      if retrieve_data opts then
        match rgbValue, utf8_as_sqlwchar units ((λ c, Z.of_N (N_of_ascii c)) <$> v) (Z.of_nat (length v)) (repeat 0 (S (Z.to_nat units))) with
        | Some _, (Ok n, b) =>
          let l := write_value rgbValue (Some (S_wide (take (S (Z.to_nat n)) b))) in
          if n =? 0 then Ok (Filled SQL_SUCCESS_WITH_INFO l g (Some (S!"01004"))) else int (l ++ first)
        | _, _ => UB
        end
      else int first
    else if among [SQL_C_TINYINT; SQL_C_STINYINT] then int []
    else if among [SQL_C_UTINYINT] then store [] 1 (n ← @get_uint _ P v; Ok (S_int 1 (to_uint8 n)))
    else if among [SQL_C_SHORT; SQL_C_SSHORT] then store [] 2 (n ← @get_int _ P v; Ok (S_int 2 (to_int16 n)))
    else if among [SQL_C_USHORT] then store [] 2 (n ← @get_uint _ P v; Ok (S_int 2 (to_uint16 n)))
    else if among [SQL_C_LONG; SQL_C_SLONG] then
      store [] 4 (if looks_like_date v then Ok (S_int 4 (date_number v)) else n ← @get_int64 _ P v; Ok (S_int 4 (to_int32 n)))
    else if among [SQL_C_ULONG] then store [] 4 (n ← @get_uint64 _ P v; Ok (S_int 4 (to_uint32 n)))
    else if among [SQL_C_FLOAT] then store [] 4 (d ← @get_double _ P v; Ok (S_float (k_to_float k d)))
    else if among [SQL_C_DOUBLE] then store [] 8 (d ← @get_double _ P v; Ok (S_double d))
    else if among [SQL_C_SBIGINT] then store [] 8 (n ← @get_int64 _ P v; Ok (S_int 8 n))
    else if among [SQL_C_UBIGINT] then store [] 8 (n ← @get_uint64 _ P v; Ok (S_int 8 n))
    else fails (S!"07006") in
  if to_uint64 cbValueMax <? 8 then fails (S!"HY090")
  else if fCType =? SQL_C_DEFAULT then convert SQL_C_VARBOOKMARK
  else if fCType =? SQL_ARD_TYPE then match arrec with None => fails (S!"07009") | Some r => convert (concise_type r) end
  else convert fCType.

(** [src/driver/results.cc:1782-1833] fill_fetch_bookmark_buffers

    [c] is the record of the bookmark column; column 0 is the first one of the result. *)
Definition fill_fetch_bookmark_buffers (b : binding) (bookmarks : Z) (c : option column) (values : row) (bookmark rownum : Z) (g : GETDATA) : res filled :=
  if negb (bookmarks =? SQL_UB_VARIABLE) then Ok (Filled SQL_ERROR [] g (Some (S!"HY092"))) else
  match c with
  | Some c =>
    if negb (ARD_IS_BOUND c) then Ok (Filled SQL_SUCCESS [] g None) else
    let target := ptr_offset_adjust (data_ptr c) (bind_offset b) (bind_type b) (to_int32 (octet_length c)) rownum in
    let pcbValue := ptr_offset_adjust (octet_length_ptr c) (bind_offset b) (bind_type b) 8 rownum in
    match values with
    | [] => UB
    | x :: _ =>
      f ← sql_get_bookmark_data (protocol x) (concise_type_ c) target (octet_length c) pcbValue (to_string (to_uint64 bookmark))
        (Some (Ard (concise_type_ c) (ard_numeric c).1 (ard_numeric c).2)) (reset_getdata_position g);
      Ok (Filled (worse SQL_SUCCESS (f_ret f)) (f_effects f) (f_getdata f) (f_error f))
    end
  | None => Ok (Filled SQL_SUCCESS [] g None)
  end.

(** ** Results *)

(** What the client library does with the rows of a result, of type [C], in which
    the type of places is [place]; a row may be there or not, or the server may fail.  The last
    one runs a query, and gets its result. *)
Inductive fetched := Row (r : row) | No_more | Failed.
Class Results (C place : Type) := {
  client_num_rows : C → Z;
  client_fetch : C → fetched * C;
  client_data_seek : Z → C → C;
  client_row_seek : place → C → place * C;
  client_row_tell : C → place;
  null_offset : place;
  client_query : str → C → option C
}.
Context {C place : Type} `{Results C place}.

(** [src/driver/driver.h:731-738] OUT_PARAM_STATE *)
Inductive out_param_state := OPS_UNKNOWN | OPS_BEING_FETCHED | OPS_PREFETCHED | OPS_STREAMS_PENDING.
#[global] Instance out_param_state_eq_dec : EqDecision out_param_state.
Proof. solve_decision. Defined.

(** The members of a statement that fetching uses.  [client] is there when there is a
    result; [result_array] has the rows that catalog functions have made.  What has
    been written to the application stands in [effects], in its order. *)
Record STMT := Stmt {
  client : option C; result_array : option (list row); fix_fields : option (row → row); array : row; current_values : option row; end_of_set : place; sc : MY_LIMIT_SCROLLER;
  current_row : Z; rows_found_in_set : Z; cursor_row : Z; out_params_state : out_param_state;
  getdata : GETDATA; error : option str; effects : list effect }.

(** What a call does not change: whether the server has prepared the statement, the options, the number of rows of a rowset, the
    bindings, which pointers there are ([rows_processed_ptr] and [array_status_ptr] of
    the descriptor), and whether the connection is lost when rows have been fetched,
    with the result that the handling of its loss leaves. *)
Record settings := Settings {
  ssps : bool; cursor_type : Z; opt_SAFE : bool; opt_NO_CACHE : bool; array_size : Z; bookmarks : Z; bookmark_insert : bool; bound : binding; bookmark_column : option column;
  has_processed : bool; has_status_ird : bool; lost : option Z }.
Context (o : settings).

(** [src/driver/myutil.h:48-49] if_forward_cache *)
Definition if_forward_cache : bool := (cursor_type o =? SQL_CURSOR_FORWARD_ONLY) && opt_NO_CACHE o.
(** [src/driver/my_prepared_stmt.cc:639-642] is_dynamic_cursor *)
Definition is_dynamic_cursor : bool := cursor_type o =? SQL_CURSOR_DYNAMIC.

Definition with_client (c : C) (s : STMT) : STMT :=
  Stmt (Some c) (result_array s) (fix_fields s) (array s) (current_values s) (end_of_set s) (sc s) (current_row s) (rows_found_in_set s) (cursor_row s) (out_params_state s) (getdata s) (error s) (effects s).
Definition with_values (v : option row) (s : STMT) : STMT :=
  Stmt (client s) (result_array s) (fix_fields s) (array s) v (end_of_set s) (sc s) (current_row s) (rows_found_in_set s) (cursor_row s) (out_params_state s) (getdata s) (error s) (effects s).
Definition with_end (e : place) (s : STMT) : STMT :=
  Stmt (client s) (result_array s) (fix_fields s) (array s) (current_values s) e (sc s) (current_row s) (rows_found_in_set s) (cursor_row s) (out_params_state s) (getdata s) (error s) (effects s).
Definition with_scroller (x : MY_LIMIT_SCROLLER) (s : STMT) : STMT :=
  Stmt (client s) (result_array s) (fix_fields s) (array s) (current_values s) (end_of_set s) x (current_row s) (rows_found_in_set s) (cursor_row s) (out_params_state s) (getdata s) (error s) (effects s).
Definition with_place (r n : Z) (s : STMT) : STMT :=
  Stmt (client s) (result_array s) (fix_fields s) (array s) (current_values s) (end_of_set s) (sc s) r n (cursor_row s) (out_params_state s) (getdata s) (error s) (effects s).
Definition with_cursor_row (r : Z) (s : STMT) : STMT :=
  Stmt (client s) (result_array s) (fix_fields s) (array s) (current_values s) (end_of_set s) (sc s) (current_row s) (rows_found_in_set s) r (out_params_state s) (getdata s) (error s) (effects s).
Definition with_row (r : Z) (s : STMT) : STMT := with_place r (rows_found_in_set s) s.
Definition with_found (n : Z) (s : STMT) : STMT := with_place (current_row s) n s.
Definition with_out_state (x : out_param_state) (s : STMT) : STMT :=
  Stmt (client s) (result_array s) (fix_fields s) (array s) (current_values s) (end_of_set s) (sc s) (current_row s) (rows_found_in_set s) (cursor_row s) x (getdata s) (error s) (effects s).
Definition with_getdata (g : GETDATA) (s : STMT) : STMT :=
  Stmt (client s) (result_array s) (fix_fields s) (array s) (current_values s) (end_of_set s) (sc s) (current_row s) (rows_found_in_set s) (cursor_row s) (out_params_state s) g (error s) (effects s).
Definition with_error (e : option str) (s : STMT) : STMT :=
  Stmt (client s) (result_array s) (fix_fields s) (array s) (current_values s) (end_of_set s) (sc s) (current_row s) (rows_found_in_set s) (cursor_row s) (out_params_state s) (getdata s) e (effects s).
Definition emit (l : list effect) (s : STMT) : STMT :=
  Stmt (client s) (result_array s) (fix_fields s) (array s) (current_values s) (end_of_set s) (sc s) (current_row s) (rows_found_in_set s) (cursor_row s) (out_params_state s) (getdata s) (error s) (effects s ++ l).

Abbreviation run := (M STMT).

(** The result; a null pointer when there is none. *)
Definition the_client : run C := s ← get; deref (client s).
Definition on_client (f : C → C) : run () := c ← the_client; modify (with_client (f c)).

(** [src/driver/my_prepared_stmt.cc:784-789] set_error *)
Definition set_error (sqlstate : str) : run () := modify (with_error (Some sqlstate)).

(** [src/driver/my_stmt.cc:188-201] num_rows *)
Definition num_rows : run Z :=
  s ← get; c ← the_client;
  let x := sc s in
  mret ((if scroller_exists x && (0 <? next_offset x) then next_offset x - srow_count x else 0) + client_num_rows c).

(** [src/driver/my_stmt.cc:204-244] fetch_row

    A server that fails is an error of a prepared statement only. *)
Definition fetch_row : run (option row) :=
  c ← the_client;
  let '(r, c) := client_fetch c in
  modify (with_client c);;
  match r with
  | Row r => mret (Some r)
  | No_more => mret None
  | Failed => set_error (S!"HY000");; throw (myerror SQL_ERROR)
  end.

(** [src/driver/my_stmt.cc:273-296] data_seek, row_tell *)
Definition data_seek (n : Z) : run () := on_client (client_data_seek n).
Definition row_tell : run place := c ← the_client; mret (client_row_tell c).
(** [src/driver/my_stmt.cc:260-270] row_seek *)
Definition row_seek (e : place) : run place := c ← the_client; let '(e, c) := client_row_seek e c in modify (with_client c);; mret e.

(** [src/driver/my_stmt.cc:629-638] scroller_move *)
Definition move : run Z := s ← get; x ← lift (scroller_move (sc s)); modify (with_scroller x);; mret (to_int64 (next_offset x)).
(** [src/driver/my_stmt.cc:641-676] scroller_prefetch *)
Definition prefetch : run Z :=
  s ← get; c ← the_client;
  '(x, r) ← lift (scroller_prefetch (λ q, client_query q c) (sc s));
  modify (with_scroller x);;
  match r with
  | None => mret SQL_NO_DATA
  | Some None => mret SQL_ERROR
  | Some (Some c) => modify (with_client c);; mret SQL_SUCCESS
  end.

(** ** Where a rowset begins *)

(** Arithmetic on a [long]. *)
Definition long (z : Z) : run Z := if (- 2 ^ 63 <=? z) && (z <? 2 ^ 63) then mret z else undefined.

(** [src/driver/my_prepared_stmt.cc:799-859] compute_cur_row

    The row that is asked for, from 0 on. *)
Definition asked_row (fFetchType irow max_row : Z) : run Z :=
  s ← get;
  let size := to_int64 (array_size o) in
  let cur := current_row s in
  let from_begin (cur_row : Z) : run Z := if cur_row <? 0 then m ← long (- irow); mret (if m <=? size then 0 else cur_row) else mret cur_row in
  if fFetchType =? SQL_FETCH_NEXT then if cur <? 0 then mret 0 else long (cur + rows_found_in_set s)
  else if fFetchType =? SQL_FETCH_PRIOR then mret (if cur <=? 0 then -1 else to_int64 (cur - array_size o))
  else if fFetchType =? SQL_FETCH_FIRST then mret 0
  else if fFetchType =? SQL_FETCH_LAST then long (max_row - size)
  else if fFetchType =? SQL_FETCH_ABSOLUTE then
    if irow <? 0 then from_begin (max_row + irow) else mret (irow - 1)
  else if fFetchType =? SQL_FETCH_RELATIVE then
    cur_row ← long (cur + irow);
    if 0 <? cur then from_begin cur_row else mret cur_row
  else if fFetchType =? SQL_FETCH_BOOKMARK then from_begin irow
  else set_error (S!"HY106");; throw (myerror SQL_ERROR).

(** [src/driver/my_prepared_stmt.cc:873-873] compute_cur_row

    The pieces of the scroller are passed until the row is in one; a piece without
    rows would be asked for without end. *)
Fixpoint move_to (fuel : nat) (cur_row : Z) : run () :=
  match fuel with
  | O => throw no_return
  | S n => max_row ← move; if max_row <? cur_row then move_to n cur_row else mret tt
  end.

(** [src/driver/my_prepared_stmt.cc:799-906] compute_cur_row *)
Definition compute_cur_row (fFetchType irow : Z) : run Z :=
  max_row ← num_rows;
  let max_row := to_int64 max_row in
  cur_row ← asked_row fFetchType irow max_row;
  if cur_row <? 0 then
    modify (with_place (-1) 0);; data_seek 0;; throw (myerror SQL_NO_DATA_FOUND)
  else
    s ← get;
    cur_row ← (if max_row <? cur_row then
                 if scroller_exists (sc s) then
                   move_to (S (Z.to_nat cur_row)) cur_row;;
                   r ← prefetch;
                   if r =? SQL_NO_DATA then throw (myerror SQL_NO_DATA_FOUND)
                   else if r =? SQL_ERROR then set_error (S!"HY000");; throw (myerror SQL_ERROR)
                   else mret cur_row
                 else mret max_row
               else mret cur_row);
    s ← get;
    (if bool_decide (result_array s = None) && negb if_forward_cache then
       if negb (cursor_type o =? SQL_CURSOR_DYNAMIC) && negb (cur_row =? 0) && (cur_row =? current_row s + rows_found_in_set s)
       then row_seek (end_of_set s);; mret tt
       else data_seek cur_row
     else mret tt);;
    modify (with_row cur_row);;
    mret cur_row.

(** ** Fetching a rowset *)

(** The query of a dynamic cursor is run again before each call. *)
Context (my_SQLExecute : run Z).

(** [src/driver/cursor.cc:286-324] set_current_cursor_data

    The list of the rows is walked; a pointer behind its end is not there. *)
Definition set_current_cursor_data (irow : Z) : run () :=
  s ← get; c ← the_client;
  let row_pos := if irow =? 0 then current_row s else current_row s + irow - 1 in
  if cursor_row s =? row_pos then mret tt else
  (if ssps o then data_seek row_pos;; ((λ s, (Ok tt, (fetch_row s).2)) : run ())
   else if if_forward_cache || ((0 <? client_num_rows c) && (client_num_rows c <? row_pos)) then undefined
   else data_seek (row_pos `max` 0));;
  modify (with_cursor_row row_pos).

(** [src/driver/results.cc:1436-1451] set_dynamic_result *)
Definition set_dynamic_result : run bool :=
  s ← get;
  rc ← my_SQLExecute;
  modify (with_place (current_row s) (rows_found_in_set s));;
  (if SQL_SUCCEEDED rc then set_current_cursor_data 0 else mret tt);;
  mret (negb (rc =? 0)).

(** [src/driver/results.cc:2371-2428] my_SQLExtendedFetch

    The next row, with the place where the rowset begins; [None] ends the loop. *)
Definition next_values (i cur_row : Z) (save_position : place) : run (option (row * place)) :=
  s ← get;
  match result_array s with
  | Some rows =>
    v ← deref (if cur_row <? 0 then None else rows !! Z.to_nat cur_row);
    (if i =? 0 then modify (with_values (Some v)) else mret tt);;
    mret (Some (v, save_position))
  | None =>
    save_position ← (if i =? 0 then row_tell else mret save_position);
    got ← (if bool_decide (out_params_state s = OPS_UNKNOWN) then
             r ← fetch_row;
             match r with
             | Some v => mret (Some (v, save_position))
             | None =>
               if scroller_exists (sc s) then
                 _ ← move;
                 rc ← prefetch;
                 if negb (rc =? SQL_SUCCESS) then mret None else
                 r ← fetch_row;
                 match r with Some v => e ← row_tell; mret (Some (v, e)) | None => mret None end
               else mret None
             end
           else mret (Some (array s, save_position)));
    match got with
    | None => mret None
    | Some (v, e) =>
      let v := match fix_fields s with Some f => f v | None => v end in
      modify (with_values (Some v));;
      mret (Some (v, e))
    end
  end.

(** The place in the column and the error that a conversion leaves, and what it has
    written. *)
Definition after_fill (f : filled) (s : STMT) : STMT :=
  emit (f_effects f) (with_error (match f_error f with Some e => Some e | None => error s end) (with_getdata (f_getdata f) s)).
Definition fill (f : GETDATA → res filled) : run Z := s ← get; f ← lift (f (getdata s)); modify (after_fill f);; mret (f_ret f).

(** [src/driver/results.cc:2460-2478] my_SQLExtendedFetch

    The result of the call after one more row. *)
Definition combine (i res row_res row_book : Z) : Z :=
  if negb (res =? row_res) || negb (res =? row_book) then
    if SQL_SUCCEEDED row_res then SQL_SUCCESS_WITH_INFO else if i =? 0 then SQL_ERROR else SQL_SUCCESS_WITH_INFO
  else res.

(** The status of a row, in both arrays. *)
Definition status (rgf upd : bool) (i v : Z) : list effect :=
  (if rgf then [W_status i v] else []) ++ (if upd && has_status_ird o then [W_status_ird i v] else []).

(** [src/driver/results.cc:2368-2496] my_SQLExtendedFetch *)
Fixpoint fetch_loop (n : nat) (fFetchType irow : Z) (rgf upd : bool) (i cur_row res row_book : Z) (save_position : place) : run (Z * Z * place) :=
  match n with
  | O => mret (i, res, save_position)
  | S n =>
    r ← next_values i cur_row save_position;
    match r with
    | None => mret (i, res, save_position)
    | Some (values, save_position) =>
      row_book ← (if (fFetchType =? SQL_FETCH_BOOKMARK) && (bookmarks o =? SQL_UB_VARIABLE)
                  then fill (fill_fetch_bookmark_buffers (bound o) (bookmarks o) (bookmark_column o) values (irow + i + 1) (to_uint32 i))
                  else mret row_book);
      row_res ← fill (fill_fetch_buffers (bound o) values (to_uint32 i));
      modify (emit (status rgf upd i (sqlreturn2row_status row_res)));;
      fetch_loop n fFetchType irow rgf upd (i + 1) (cur_row + 1) (combine i res row_res row_book) row_book save_position
    end
  end.

(** [src/driver/results.cc:2283-2356] my_SQLExtendedFetch

    What comes before the rows: the number of those to fetch, and the first one, or the
    result of the call. *)
Definition start_fetch (fFetchType irow : Z) : run (Z * Z + Z) :=
  s ← get;
  (if bool_decide (client s = None) then set_error (S!"24000");; throw (myerror SQL_ERROR) else mret tt);;
  if bool_decide (out_params_state s = OPS_BEING_FETCHED) then mret (inr SQL_NO_DATA_FOUND) else
  (if bool_decide (out_params_state s = OPS_STREAMS_PENDING) then on_client (λ c, (client_fetch c).2) else mret tt);;
  (if bool_decide (out_params_state s = OPS_UNKNOWN) then mret tt else modify (with_out_state OPS_BEING_FETCHED));;
  (if (cursor_type o =? SQL_CURSOR_FORWARD_ONLY) && negb (fFetchType =? SQL_FETCH_NEXT) && negb (opt_SAFE o)
   then set_error (S!"HY106");; throw (myerror SQL_ERROR) else mret tt);;
  failed ← (if is_dynamic_cursor then set_dynamic_result else mret false);
  (if failed : bool then set_error (S!"HY000");; throw (myerror SQL_ERROR) else mret tt);;
  max_row ← num_rows;
  modify (λ s, with_values None (with_getdata (reset_getdata_position (getdata s)) s));;
  cur_row ← compute_cur_row fFetchType irow;
  s ← get;
  let rows_to_fetch :=
    if scroller_exists (sc s) || (if_forward_cache && bool_decide (result_array s = None)) || ((fFetchType =? SQL_FETCH_BOOKMARK) && bookmark_insert o)
    then array_size o else to_uint64 ((to_int64 max_row - cur_row) `min` to_int64 (array_size o)) in
  mret (inl (if (rows_to_fetch =? 0) && negb (bool_decide (out_params_state s = OPS_UNKNOWN)) then 1 else rows_to_fetch, cur_row)).

(** [src/driver/results.cc:2498-2546] my_SQLExtendedFetch

    What comes after the rows, of which there were [i]. *)
Definition end_fetch (rgf upd : bool) (i res : Z) (save_position : place) : run Z :=
  modify (with_found (to_uint32 i));;
  (if upd && has_processed o then modify (emit [W_processed i]) else mret tt);;
  modify (emit (seqZ i (array_size o - i) ≫= λ j, status rgf upd j (if bool_decide (is_Some (lost o)) then SQL_ROW_ERROR else SQL_ROW_NOROW)));;
  s ← get;
  (if SQL_SUCCEEDED res && bool_decide (result_array s = None) && negb if_forward_cache then e ← row_seek save_position; modify (with_end e) else mret tt);;
  if SQL_SUCCEEDED res && (to_uint32 i <? array_size o) then
    match lost o with Some r => mret r | None => mret (if to_uint32 i =? 0 then SQL_NO_DATA_FOUND else res) end
  else mret res.

(** [src/driver/results.cc:2255-2554] my_SQLExtendedFetch

    The result, and what is assigned to [*pcrow]; [rgf] tells whether there is an array
    for the status of the rows. *)
Definition my_SQLExtendedFetch (fFetchType irow : Z) (rgf upd : bool) : run (Z * option Z) :=
  catch_myerror
    (x ← start_fetch fFetchType irow;
     match x with
     | inr r => mret (r, None)
     | inl (rows_to_fetch, cur_row) =>
       if rows_to_fetch =? 0 then
         modify (with_found 0);;
         (if upd && has_processed o then modify (emit [W_processed 0]) else mret tt);;
         mret (SQL_NO_DATA_FOUND, Some 0)
       else
         '(i, res, e) ← fetch_loop (Z.to_nat rows_to_fetch) fFetchType irow rgf upd 0 cur_row SQL_SUCCESS SQL_SUCCESS null_offset;
         r ← end_fetch rgf upd i res e;
         mret (r, Some i)
     end)
    (λ r, (r, None)).

Definition assign (there : bool) (n : option Z) : run () := if there then match n with Some n => modify (emit [W_rows n]) | None => mret tt end else mret tt.

(** [src/driver/results.cc:2564-2584] SQLExtendedFetch *)
Definition SQLExtendedFetch (fFetchType irow : Z) (pcrow rgf : bool) : run Z :=
  '(r, n) ← my_SQLExtendedFetch fFetchType irow rgf true; assign pcrow (Some (default 0 n));; mret r.

(** [src/driver/results.cc:2633-2646] SQLFetch *)
Definition SQLFetch : run Z :=
  '(r, n) ← my_SQLExtendedFetch SQL_FETCH_NEXT 0 (has_status_ird o) false; assign (has_processed o) n;; mret r.

(** [src/driver/results.cc:2594-2625] SQLFetchScroll

    [bookmark] is the number in the memory that [bookmark_ptr] points to, when it is not
    null. *)
Definition SQLFetchScroll (FetchOrientation FetchOffset : Z) (bookmark : option Z) : run Z :=
  let go (offset : Z) : run Z := '(r, n) ← my_SQLExtendedFetch FetchOrientation offset (has_status_ird o) false; assign (has_processed o) n;; mret r in
  match bookmark with
  | Some b =>
    if negb (FetchOrientation =? SQL_FETCH_BOOKMARK) then go FetchOffset
    else if negb (bookmarks o =? SQL_UB_VARIABLE) then set_error (S!"HY092");; mret SQL_ERROR
    else if bool_decide (bookmark_column o = None) then mret SQL_ERROR
    else offset ← long (FetchOffset + b); go offset
  | None => go FetchOffset
  end.

(** ** The rowsets of the standard *)

(** Where a cursor is in a result: before its rows, at one, from 0 on, or after them. *)
Inductive rowset := Before | At (start : Z) | After.

Definition place_of (rows current : Z) : rowset := if current <? 0 then Before else if rows <=? current then After else At current.
Definition clip (rows start : Z) : rowset := if start <? rows then At start else After.

(** The tables of the reference of SQLFetchScroll, for a result of [rows] rows, rowsets
    of [size] rows, and a cursor at a rowset that has [count] of them. *)
Definition absolute (rows size offset : Z) : rowset :=
  if 0 <? offset then clip rows (offset - 1)
  else if offset =? 0 then Before
  else if - offset <=? rows then At (rows + offset)
  else if - offset <=? size then clip rows 0 else Before.

Definition odbc_start (fFetchType offset rows size count : Z) (p : rowset) : rowset :=
  if fFetchType =? SQL_FETCH_NEXT then match p with Before => clip rows 0 | At r => clip rows (r + count) | After => After end
  else if fFetchType =? SQL_FETCH_PRIOR then
    match p with
    | Before => Before
    | At r => if r =? 0 then Before else if r <? size then At 0 else At (r - size)
    | After => if rows <? size then clip rows 0 else At (rows - size)
    end
  else if fFetchType =? SQL_FETCH_FIRST then clip rows 0
  else if fFetchType =? SQL_FETCH_LAST then if size <=? rows then At (rows - size) else clip rows 0
  else if fFetchType =? SQL_FETCH_ABSOLUTE then absolute rows size offset
  else
    match p with
    | Before => if 0 <? offset then absolute rows size offset else Before
    | At r => if (r =? 0) && (offset <? 0) then Before
              else if r + offset <? 0 then (if size <? - offset then Before else At 0) else clip rows (r + offset)
    | After => if offset <? 0 then absolute rows size offset else After
    end.

(** Where the code does something else: it finds no rowset where the standard has the
    first one, when that overlaps the rows before the result. *)
Definition too_short (fFetchType rows size : Z) (p : rowset) : bool :=
  if fFetchType =? SQL_FETCH_PRIOR then match p with Before => false | At r => (0 <? r) && (r <? size) | After => rows <? size end
  else (fFetchType =? SQL_FETCH_LAST) && (rows <? size).

Definition code_start (fFetchType offset rows size count : Z) (p : rowset) : rowset :=
  if too_short fFetchType rows size p then Before else odbc_start fFetchType offset rows size count p.

Definition scroll_types : list Z := [SQL_FETCH_NEXT; SQL_FETCH_PRIOR; SQL_FETCH_FIRST; SQL_FETCH_LAST; SQL_FETCH_ABSOLUTE; SQL_FETCH_RELATIVE].

(** ** Results that are stored *)

(** What the documentation of the client library says of results that are stored there:
    their rows can be counted, read in turn, and gone to by number or place.  Nothing is
    said of the position that a seek to another number or to no place leaves. *)
Class StoredResults := {
  at_row : C → list row → nat → Prop;
  points : place → list row → nat → Prop;
  at_num_rows c rows n : at_row c rows n → client_num_rows c = Z.of_nat (length rows);
  at_fetch c rows n r : at_row c rows n → rows !! n = Some r → ∃ c', client_fetch c = (Row r, c') ∧ at_row c' rows (S n);
  at_data_seek c rows n m : at_row c rows n → (m < length rows)%nat → at_row (client_data_seek (Z.of_nat m) c) rows m;
  at_other_seek c rows n z : at_row c rows n → ∃ m, at_row (client_data_seek z c) rows m;
  at_tell c rows n : at_row c rows n → points (client_row_tell c) rows n;
  at_row_seek c rows n e m : at_row c rows n → points e rows m → ∃ c', client_row_seek e c = (client_row_tell c, c') ∧ at_row c' rows m;
  at_null_seek c rows n : at_row c rows n → ∃ c' m, client_row_seek null_offset c = (client_row_tell c, c') ∧ at_row c' rows m
}.
Context `{!StoredResults}.

(** A statement with the rows [rows]: what it says of its rowset is so, and the place
    behind the rowset is the one of the row after it. *)
Record cursor_at (rows : list row) (s : STMT) : Prop := {
  ca_client : ∃ c n, client s = Some c ∧ at_row c rows n;
  ca_plain : result_array s = None ∧ fix_fields s = None ∧ out_params_state s = OPS_UNKNOWN ∧ scroller_exists (sc s) = false;
  ca_place : -1 ≤ current_row s ≤ Z.of_nat (length rows) ∧ 0 ≤ rows_found_in_set s ∧ current_row s + rows_found_in_set s ≤ Z.of_nat (length rows);
  ca_none : current_row s = -1 → rows_found_in_set s = 0;
  ca_ended : rows_found_in_set s = 0 → current_row s ≤ 0 ∨ current_row s = Z.of_nat (length rows);
  ca_known : end_of_set s = null_offset ∨ ∃ m, points (end_of_set s) rows m;
  ca_end : 0 < rows_found_in_set s → points (end_of_set s) rows (Z.to_nat (current_row s + rows_found_in_set s))
}.

(** The settings the theorems are about: neither a forward cursor that does not store
    its rows, nor one whose query is run again. *)
Definition scrolls : Prop :=
  if_forward_cache = false ∧ is_dynamic_cursor = false ∧ 0 < array_size o < 2 ^ 32.

Lemma long_ok z s : - 2 ^ 63 ≤ z < 2 ^ 63 → long z s = (Ok z, s).
Proof. intros [H1 H2]. unfold long. by rewrite (proj2 (Z.leb_le _ _) H1), (proj2 (Z.ltb_lt _ _) H2). Qed.

Lemma to_int64_id z : - 2 ^ 63 ≤ z < 2 ^ 63 → to_int64 z = z.
Proof. intros Hz. by apply (stored_signed 64). Qed.

Lemma to_int64_bounds z : - 2 ^ 63 ≤ to_int64 z < 2 ^ 63.
Proof.
  unfold to_int64, signed. pose proof (Z.mod_pos_bound z (2 ^ 64) ltac:(lia)) as Hz. change (2 ^ (64 - 1)) with (2 ^ 63).
  destruct (Z.ltb_spec (z mod 2 ^ 64) (2 ^ 63)); lia.
Qed.

Lemma num_rows_at rows s : cursor_at rows s → num_rows s = (Ok (Z.of_nat (length rows)), s).
Proof.
  intros [(c & n & Hc & Hat) (_ & _ & _ & Hs) _ _ _ _ _]. unfold num_rows, the_client.
  rewrite get_bind. unfold mbind, M_bind, get, deref. rewrite Hc, Hs. cbn. by rewrite (at_num_rows _ _ _ Hat).
Qed.

(** The row that is asked for is in the rowset that the code moves to. *)
Definition lands (rows : Z) (p : rowset) (asked : Z) : Prop :=
  match p with Before => asked < 0 | At r => 0 ≤ r < rows ∧ asked = r | After => rows ≤ asked end.

(** Comparisons, and arithmetic that stays in its range. *)
Ltac fetch_cases :=
  repeat match goal with
  | |- context [long ?z ?s] => rewrite (long_ok z s) by lia
  | |- context [to_int64 ?z] => rewrite (to_int64_id z) by lia
  | |- context [?a <? ?b] => destruct (Z.ltb_spec a b); cbn [andb orb negb]
  | |- context [?a <=? ?b] => destruct (Z.leb_spec a b); cbn [andb orb negb]
  | |- context [?a =? ?b] => destruct (Z.eqb_spec a b); cbn [andb orb negb]
  end.

Lemma asked_row_lands rows s fFetchType irow :
  cursor_at rows s → scrolls → rows ≠ [] → Z.of_nat (length rows) < 2 ^ 31 → fFetchType ∈ scroll_types → - 2 ^ 62 < irow < 2 ^ 62 →
  let n := Z.of_nat (length rows) in
  ∃ asked, asked_row fFetchType irow n s = (Ok asked, s) ∧
    lands n (code_start fFetchType irow n (array_size o) (rows_found_in_set s) (place_of n (current_row s))) asked.
Proof.
  intros [_ _ (Hr & Hf & Hle) Hnone Hended _ _] (_ & _ & Hsize) Hne Hn Hft Hi n.
  assert (0 < n) as Hn0 by (unfold n; destruct rows; [done|cbn; lia]). fold n in Hr, Hle, Hended, Hn.
  unfold scroll_types in Hft. rewrite !elem_of_cons, elem_of_nil in Hft.
  unfold asked_row. rewrite get_bind, (to_int64_id (array_size o)) by lia. clearbody n.
  set (cur := current_row s) in *. set (found := rows_found_in_set s) in *. set (size := array_size o) in *. clearbody cur found size.
  unfold code_start, too_short, odbc_start, place_of, absolute, clip, lands.
  destruct_or! Hft; try done; subst fFetchType;
    repeat match goal with |- context [?a =? ?b] => let e := eval vm_compute in (a =? b) in match e with true => idtac | false => idtac end; change (a =? b) with e end; cbn [negb andb orb].
  all: unfold mbind, M_bind; fetch_cases; cbn [andb orb]; fetch_cases; (eexists; split; [reflexivity|]); lia.
Qed.

(** There is a result, with these rows. *)
Definition has_rows (rows : list row) (s : STMT) : Prop := ∃ c n, client s = Some c ∧ at_row c rows n.

Lemma the_client_at rows s : has_rows rows s → ∃ c n, the_client s = (Ok c, s) ∧ at_row c rows n.
Proof. intros (c & n & Hc & Hat). exists c, n. split; [|done]. unfold the_client. rewrite get_bind. by rewrite Hc. Qed.

Lemma data_seek_at rows s m : has_rows rows s → (m < length rows)%nat → ∃ c, data_seek (Z.of_nat m) s = (Ok (), with_client c s) ∧ at_row c rows m.
Proof.
  intros Hs Hm. destruct (the_client_at rows s Hs) as (c & n & E & Hat). unfold data_seek, on_client. rewrite (bind_Ok _ _ _ _ _ E).
  eexists. split; [reflexivity|]. by eapply at_data_seek.
Qed.

Lemma data_seek_any rows s z : has_rows rows s → ∃ c m, data_seek z s = (Ok (), with_client c s) ∧ at_row c rows m.
Proof.
  intros Hs. destruct (the_client_at rows s Hs) as (c & n & E & Hat). unfold data_seek, on_client. rewrite (bind_Ok _ _ _ _ _ E).
  destruct (at_other_seek _ _ _ z Hat) as [m Hm]. eexists _, m. by split.
Qed.

Lemma row_seek_at rows s m e : has_rows rows s → points e rows m → ∃ c e', row_seek e s = (Ok e', with_client c s) ∧ at_row c rows m.
Proof.
  intros Hs He. destruct (the_client_at rows s Hs) as (c & n & E & Hat). unfold row_seek. rewrite (bind_Ok _ _ _ _ _ E).
  destruct (at_row_seek _ _ _ _ _ Hat He) as (c' & -> & Hc'). eexists _, _. split; [reflexivity|done].
Qed.

Lemma row_seek_any rows s : cursor_at rows s → ∃ c m e', row_seek (end_of_set s) s = (Ok e', with_client c s) ∧ at_row c rows m.
Proof.
  intros Hcur. pose proof (ca_client _ _ Hcur) as Hs. destruct (ca_known _ _ Hcur) as [Hn|[m Hm]].
  - destruct (the_client_at rows s Hs) as (c & n & E & Hat). unfold row_seek. rewrite (bind_Ok _ _ _ _ _ E), Hn.
    destruct (at_null_seek _ _ _ Hat) as (c' & m & -> & Hc'). eexists _, m, _. split; [reflexivity|done].
  - destruct (row_seek_at rows s m _ Hs Hm) as (c & e & E & Hat). by exists c, m, e.
Qed.

(** The position and the place in the statement that a move leaves. *)
Definition moved (rows : list row) (s : STMT) (p : rowset) (out : res Z * STMT) : Prop :=
  match p with
  | Before => ∃ c m, out = (Throw (myerror SQL_NO_DATA_FOUND), with_client c (with_place (-1) 0 s)) ∧ at_row c rows m
  | At r => 0 ≤ r < Z.of_nat (length rows) ∧ ∃ c, out = (Ok r, with_row r (with_client c s)) ∧ at_row c rows (Z.to_nat r)
  | After => ∃ c m, let n := Z.of_nat (length rows) in out = (Ok n, with_row n (with_client c s)) ∧ at_row c rows m
  end.

Lemma compute_cur_row_run rows s fFetchType irow :
  cursor_at rows s → scrolls → rows ≠ [] → Z.of_nat (length rows) < 2 ^ 31 → fFetchType ∈ scroll_types → - 2 ^ 62 < irow < 2 ^ 62 →
  let n := Z.of_nat (length rows) in
  moved rows s (code_start fFetchType irow n (array_size o) (rows_found_in_set s) (place_of n (current_row s))) (compute_cur_row fFetchType irow s).
Proof.
  intros Hs Ho Hne Hn Hft Hi n. destruct (asked_row_lands rows s fFetchType irow Hs Ho Hne Hn Hft Hi) as (asked & E & Hlands). fold n in E, Hlands.
  assert (0 < length rows)%nat as Hn0 by (destruct rows; [done|cbn; lia]).
  unfold compute_cur_row. rewrite (bind_Ok _ _ _ _ _ (num_rows_at rows s Hs)). fold n. cbv zeta. rewrite (to_int64_id n) by lia.
  rewrite (bind_Ok _ _ _ _ _ E). destruct (ca_plain _ _ Hs) as (Harr & _ & _ & Hsc). destruct Ho as (Hfwd & Hdyn & _).
  destruct (code_start _ _ _ _ _ _) as [|r|]; cbn [lands moved] in *.
  - rewrite (proj2 (Z.ltb_lt _ _) Hlands), modify_bind.
    destruct (data_seek_at rows (with_place (-1) 0 s) 0 (ca_client _ _ Hs) Hn0) as (c & Es & Hat).
    exists c, 0%nat. split; [|done]. change (Z.of_nat 0) with 0 in Es. by rewrite (bind_Ok _ _ _ _ _ Es).
  - destruct Hlands as [Hr ->]. split; [done|]. rewrite (proj2 (Z.ltb_ge r 0)), get_bind, (proj2 (Z.ltb_ge n r)), ret_bind, get_bind by lia.
    rewrite (bool_decide_eq_true_2 _ Harr), Hfwd. cbn [negb andb]. unfold is_dynamic_cursor in Hdyn. rewrite Hdyn. cbn [negb andb].
    destruct (negb (r =? 0) && (r =? current_row s + rows_found_in_set s)) eqn:Eend.
    + apply andb_true_iff in Eend as [Hnz%negb_true_iff%Z.eqb_neq Hend%Z.eqb_eq].
      pose proof (ca_ended _ _ Hs) as Hz. pose proof (ca_none _ _ Hs) as Hz'. destruct (ca_place _ _ Hs) as (? & ? & ?). fold n in Hz.
      destruct (row_seek_at rows s _ _ (ca_client _ _ Hs) (ca_end _ _ Hs ltac:(lia))) as (c & e & Es & Hat).
      exists c. rewrite bind_assoc, (bind_Ok _ _ _ _ _ Es), ret_bind, modify_bind, Hend. done.
    + destruct (data_seek_at rows s (Z.to_nat r) (ca_client _ _ Hs) ltac:(lia)) as (c & Es & Hat). rewrite Z2Nat.id in Es by lia.
      exists c. rewrite (bind_Ok _ _ _ _ _ Es), modify_bind. done.
  - rewrite (proj2 (Z.ltb_ge asked 0)), get_bind by lia. rewrite Hsc.
    assert ((if n <? asked then mret n else mret asked : run Z) s = (Ok n, s)) as Ei by (destruct (Z.ltb_spec n asked); [done|by replace asked with n by lia]).
    rewrite (bind_Ok _ _ _ _ _ Ei), get_bind, (bool_decide_eq_true_2 _ Harr), Hfwd. cbn [negb andb]. unfold is_dynamic_cursor in Hdyn. rewrite Hdyn. cbn [negb andb].
    destruct (negb (n =? 0) && _).
    + destruct (row_seek_any rows s Hs) as (c & m & e & Es & Hat). exists c, m. rewrite bind_assoc, (bind_Ok _ _ _ _ _ Es), ret_bind, modify_bind. done.
    + destruct (data_seek_any rows s n (ca_client _ _ Hs)) as (c & m & Es & Hat). exists c, m. rewrite (bind_Ok _ _ _ _ _ Es), modify_bind. done.
Qed.

(** ** The rows of a rowset *)

(** The conversion of rows that are written from row [i] of the buffers on. *)
Fixpoint fill_rows (i : Z) (g : GETDATA) (rs : list row) : res (list filled) :=
  match rs with
  | [] => Ok []
  | r :: rs => f ← fill_fetch_buffers (bound o) r i g; fs ← fill_rows (i + 1) (f_getdata f) rs; Ok (f :: fs)
  end.

(** What is written for them, with their status, and the result of the call. *)
Fixpoint rows_written (rgf upd : bool) (i : Z) (fs : list filled) : list effect :=
  match fs with [] => [] | f :: fs => f_effects f ++ status rgf upd i (sqlreturn2row_status (f_ret f)) ++ rows_written rgf upd (i + 1) fs end.
Fixpoint combined (i res : Z) (fs : list filled) : Z :=
  match fs with [] => res | f :: fs => combined (i + 1) (combine i res (f_ret f) SQL_SUCCESS) fs end.

Definition plain (s : STMT) : Prop := result_array s = None ∧ fix_fields s = None ∧ out_params_state s = OPS_UNKNOWN ∧ scroller_exists (sc s) = false.

Lemma next_values_run rows s i cur_row save c n r :
  client s = Some c → at_row c rows n → plain s → rows !! n = Some r →
  ∃ c', next_values i cur_row save s = (Ok (Some (r, if i =? 0 then client_row_tell c else save)), with_values (Some r) (with_client c' s)) ∧ at_row c' rows (S n).
Proof.
  intros Hc Hat (Harr & Hfix & Hout & Hsc) Hr. destruct (at_fetch _ _ _ _ Hat Hr) as (c' & Ef & Hat'). exists c'. split; [|done].
  unfold next_values. rewrite get_bind, Harr. assert (the_client s = (Ok c, s)) as Ec by (unfold the_client; rewrite get_bind; by rewrite Hc).
  assert ((if i =? 0 then row_tell else mret save : run place) s = (Ok (if i =? 0 then client_row_tell c else save), s)) as Et.
  { destruct (i =? 0); [|done]. unfold row_tell. by rewrite (bind_Ok _ _ _ _ _ Ec). }
  assert (fetch_row s = (Ok (Some r), with_client c' s)) as Er by (unfold fetch_row; rewrite (bind_Ok _ _ _ _ _ Ec), Ef; done).
  rewrite (bind_Ok _ _ _ _ _ Et), (bool_decide_eq_true_2 _ Hout), bind_assoc, (bind_Ok _ _ _ _ _ Er), ret_bind, Hfix. done.
Qed.

(** The statement after the rows, but for the result of the client. *)
Fixpoint rows_done (rgf upd : bool) (i : Z) (rs : list row) (fs : list filled) (s : STMT) : STMT :=
  match rs, fs with
  | r :: rs, f :: fs => rows_done rgf upd (i + 1) rs fs (emit (status rgf upd i (sqlreturn2row_status (f_ret f))) (after_fill f (with_values (Some r) s)))
  | _, _ => s
  end.

Lemma rows_done_client rgf upd rs : ∀ i fs s c, rows_done rgf upd i rs fs (with_client c s) = with_client c (rows_done rgf upd i rs fs s).
Proof. induction rs as [|r rs IH]; intros i [|f fs] s c; [done..|]. cbn [rows_done]. rewrite <- IH. done. Qed.

Lemma fetch_loop_run rows rgf upd fFetchType irow : fFetchType ≠ SQL_FETCH_BOOKMARK → ∀ rs fs i cur_row res save s c n,
  client s = Some c → at_row c rows n → plain s → rs `prefix_of` drop n rows → fill_rows i (getdata s) rs = Ok fs → 0 ≤ i → i + Z.of_nat (length rs) < 2 ^ 32 →
  ∃ c', fetch_loop (length rs) fFetchType irow rgf upd i cur_row res SQL_SUCCESS save s =
    (Ok (i + Z.of_nat (length rs), combined i res fs, if (i =? 0) && bool_decide (rs ≠ []) then client_row_tell c else save), with_client c' (rows_done rgf upd i rs fs s)) ∧
    at_row c' rows (n + length rs).
Proof.
  intros Hft rs. induction rs as [|r rs IH]; intros fs i cur_row res save s c n Hc Hat Hp Hpre Hfill Hi Hsum.
  { exists c. injection Hfill as <-. split; [|by rewrite Nat.add_0_r]. cbn. rewrite Z.add_0_r, andb_false_r. by destruct s; cbn in Hc; subst. }
  cbn [fill_rows] in Hfill. destruct (fill_fetch_buffers _ r i _) as [f| |] eqn:Ef; [|done..]. cbn [mbind res_bind] in Hfill.
  destruct (fill_rows (i + 1) _ rs) as [fs'| |] eqn:Efs; [|done..]. injection Hfill as <-.
  assert (rows !! n = Some r ∧ rs `prefix_of` drop (S n) rows) as [Hr Hpre'].
  { destruct Hpre as [t Ht]. rewrite <- (Nat.add_0_r n), <- lookup_drop, Ht, Nat.add_0_r. split; [done|]. exists t.
    rewrite <- (drop_drop rows n 1) || rewrite <- Nat.add_1_r, <- drop_drop. rewrite Ht. done. }
  destruct (next_values_run rows s i cur_row save c n r Hc Hat Hp Hr) as (c1 & En & Hat1).
  cbn [length fetch_loop]. rewrite (bind_Ok _ _ _ _ _ En). rewrite (proj2 (Z.eqb_neq _ _) Hft). cbn [andb]. rewrite ret_bind.
  set (s1 := with_values (Some r) (with_client c1 s)).
  assert (fill (fill_fetch_buffers (bound o) r (to_uint32 i)) s1 = (Ok (f_ret f), after_fill f s1)) as Efill.
  { unfold fill. rewrite get_bind. change (getdata s1) with (getdata s). cbn [length] in Hsum. unfold to_uint32. rewrite (Z.mod_small i) by lia. rewrite Ef. done. }
  rewrite (bind_Ok _ _ _ _ _ Efill), modify_bind.
  set (s2 := emit _ (after_fill f s1)).
  destruct (IH fs' (i + 1) (cur_row + 1) (combine i res (f_ret f) SQL_SUCCESS) (if i =? 0 then client_row_tell c else save) s2 c1 (S n)) as (c' & -> & Hat'); try done; [cbn [length] in Hsum; lia..|].
  exists c'. rewrite (proj2 (Z.eqb_neq (i + 1) 0)), Nat2Z.inj_succ by lia. cbn [andb]. rewrite andb_true_r. cbn [combined rows_done].
  split; [|by replace (n + S (length rs))%nat with (S n + length rs)%nat by lia].
  f_equal; [do 3 f_equal; lia|].
  change s2 with (with_client c1 (emit (status rgf upd i (sqlreturn2row_status (f_ret f))) (after_fill f (with_values (Some r) s)))).
  by rewrite rows_done_client.
Qed.

Lemma rows_done_facts rgf upd rs : ∀ i fs s, length fs = length rs → let s' := rows_done rgf upd i rs fs s in
  plain s' = plain s ∧ current_row s' = current_row s ∧ rows_found_in_set s' = rows_found_in_set s ∧ end_of_set s' = end_of_set s ∧
  effects s' = effects s ++ rows_written rgf upd i fs ∧ current_values s' = match last rs with Some r => Some r | None => current_values s end.
Proof.
  induction rs as [|r rs IH]; intros i [|f fs] s Hl; try discriminate Hl; [by rewrite app_nil_r|].
  cbn [rows_done]. injection Hl as Hl. destruct (IH (i + 1) fs (emit (status rgf upd i (sqlreturn2row_status (f_ret f))) (after_fill f (with_values (Some r) s))) Hl) as (-> & -> & -> & -> & -> & ->).
  split_and!; try done; [cbn; by rewrite <- !app_assoc|]. rewrite last_cons. by destruct (last rs).
Qed.

Lemma fill_rows_length rs : ∀ i g fs, fill_rows i g rs = Ok fs → length fs = length rs.
Proof.
  induction rs as [|r rs IH]; intros i g fs; cbn [fill_rows]; [by intros [= <-]|].
  destruct (fill_fetch_buffers _ r i g) as [f| |]; [|done..]. cbn [mbind res_bind]. destruct (fill_rows _ _ rs) as [fs'| |] eqn:E; [|done..].
  intros [= <-]. cbn. f_equal. by eapply IH.
Qed.

Lemma cursor_start rows s : cursor_at rows s → cursor_at rows (with_values None (with_getdata (reset_getdata_position (getdata s)) s)).
Proof. by intros []. Qed.

Lemma start_fetch_run rows s fFetchType irow :
  cursor_at rows s → scrolls → fFetchType = SQL_FETCH_NEXT ∨ cursor_type o ≠ SQL_CURSOR_FORWARD_ONLY ∨ opt_SAFE o = true →
  let n := Z.of_nat (length rows) in let s1 := with_values None (with_getdata (reset_getdata_position (getdata s)) s) in
  n < 2 ^ 31 → fFetchType ≠ SQL_FETCH_BOOKMARK →
  match compute_cur_row fFetchType irow s1 with
  | (Ok r, s') => plain s' → 0 ≤ r → start_fetch fFetchType irow s = (Ok (inl (to_uint64 ((n - r) `min` array_size o), r)), s')
  | (Throw x, s') => start_fetch fFetchType irow s = (Throw x, s')
  | (UB, s') => True
  end.
Proof.
  intros Hs (Hfwd & Hdyn & Hsize) Hty n s1 Hn Hft. destruct (ca_client _ _ Hs) as (c & m & Hc & _). destruct (ca_plain _ _ Hs) as (Harr & Hfix & Hout & Hsc).
  unfold start_fetch. rewrite get_bind. rewrite (bool_decide_eq_false_2 (client s = None)) by by rewrite Hc. rewrite ret_bind, Hout.
  repeat match goal with |- context [@bool_decide (OPS_UNKNOWN = ?x) ?d] => let b := eval vm_compute in (@bool_decide (OPS_UNKNOWN = x) d) in change (@bool_decide (OPS_UNKNOWN = x) d) with b end; cbv iota.
  assert ((cursor_type o =? SQL_CURSOR_FORWARD_ONLY) && negb (fFetchType =? SQL_FETCH_NEXT) && negb (opt_SAFE o) = false) as ->.
  { destruct Hty as [-> | [Hty | ->]]; [by rewrite andb_false_r|by rewrite (proj2 (Z.eqb_neq _ _) Hty)|by rewrite andb_false_r]. }
  rewrite !ret_bind, Hdyn, !ret_bind. rewrite (bind_Ok _ _ _ _ _ (num_rows_at rows s Hs)), modify_bind. fold s1 n.
  destruct (compute_cur_row fFetchType irow s1) as [[r|x|] s'] eqn:E; [|unfold mbind, M_bind; by rewrite E|done].
  intros (Harr' & _ & Hout' & Hsc') Hr. rewrite (bind_Ok _ _ _ _ _ E), get_bind, Hsc', Hfwd, Hout'. cbn [orb andb]. rewrite (proj2 (Z.eqb_neq _ _) Hft). cbn [andb].
  rewrite (to_int64_id n), (to_int64_id (array_size o)) by lia. rewrite bool_decide_eq_true_2 by done. by rewrite andb_false_r.
Qed.

(** What comes behind the rows of a rowset: their number, and the status of the rows of the
    buffers that are not used. *)
Definition rowset_end (rgf upd : bool) (i : Z) : list effect :=
  (if upd && has_processed o then [W_processed i] else []) ++ (seqZ i (array_size o - i) ≫= λ j, status rgf upd j SQL_ROW_NOROW).

Lemma end_fetch_run rows s rgf upd i res save c n m :
  client s = Some c → at_row c rows n → points save rows m → result_array s = None → if_forward_cache = false → lost o = None → 0 < i < 2 ^ 32 →
  let s1 := emit (rowset_end rgf upd i) (with_found i s) in
  if SQL_SUCCEEDED res then ∃ c', end_fetch rgf upd i res save s = (Ok res, with_end (client_row_tell c) (with_client c' s1)) ∧ at_row c' rows m
  else end_fetch rgf upd i res save s = (Ok res, s1).
Proof.
  intros Hc Hat Hsave Harr Hfwd Hlost Hi s1.
  assert (to_uint32 i = i) as Eu by (unfold to_uint32; apply Z.mod_small; lia).
  unfold end_fetch. rewrite Eu, Hlost, Hfwd, modify_bind. change (bool_decide (is_Some (@None Z))) with false. cbv iota.
  assert ((if upd && has_processed o then modify (emit [W_processed i]) else mret tt : run ()) (with_found i s) =
    (Ok (), emit (if upd && has_processed o then [W_processed i] else []) (with_found i s))) as Ep.
  { destruct (upd && has_processed o); [done|]. cbn. unfold emit. cbn. by rewrite app_nil_r. }
  rewrite (bind_Ok _ _ _ _ _ Ep), modify_bind, get_bind. unfold rowset_end in s1.
  assert (emit (seqZ i (array_size o - i) ≫= λ j, status rgf upd j SQL_ROW_NOROW) (emit (if upd && has_processed o then [W_processed i] else []) (with_found i s)) = s1) as ->
    by (subst s1; unfold emit; cbn; by rewrite app_assoc).
  change (result_array s1) with (result_array s). rewrite (bool_decide_eq_true_2 _ Harr). cbn [negb]. rewrite !andb_true_r.
  destruct (SQL_SUCCEEDED res); cbn [andb].
  - assert (has_rows rows s1) as Hrows by (exists c, n; by split).
    destruct (row_seek_at rows s1 m save Hrows Hsave) as (c' & e & Es & Hat').
    assert (e = client_row_tell c) as ->.
    { unfold row_seek in Es. assert (the_client s1 = (Ok c, s1)) as Ec by (unfold the_client; rewrite get_bind; change (client s1) with (client s); by rewrite Hc).
      rewrite (bind_Ok _ _ _ _ _ Ec) in Es. destruct (at_row_seek _ _ _ _ _ Hat Hsave) as (c2 & E2 & _). rewrite E2 in Es. cbn in Es. by injection Es as <-. }
    exists c'. split; [|done]. rewrite bind_assoc, (bind_Ok _ _ _ _ _ Es), modify_bind.
    destruct (i <? array_size o); [|done]. rewrite (proj2 (Z.eqb_neq i 0)) by lia. done.
  - rewrite ret_bind. done.
Qed.

(** What a call does when it moves to a rowset: it ends before or behind the rows, or
    fetches those that there are. *)
Definition rowset_fetched (rows : list row) (s : STMT) (rgf upd : bool) (p : rowset) (out : res (Z * option Z) * STMT) : Prop :=
  let n := Z.of_nat (length rows) in
  match p with
  | Before => ∃ s', out = (Ok (SQL_NO_DATA_FOUND, None), s') ∧ cursor_at rows s' ∧ current_row s' = -1 ∧ rows_found_in_set s' = 0 ∧ effects s' = effects s
  | After => ∃ s', out = (Ok (SQL_NO_DATA_FOUND, Some 0), s') ∧ cursor_at rows s' ∧ current_row s' = n ∧ rows_found_in_set s' = 0 ∧
      effects s' = effects s ++ (if upd && has_processed o then [W_processed 0] else [])
  | At r => let rs := take (Z.to_nat (array_size o)) (drop (Z.to_nat r) rows) in let m := Z.of_nat (length rs) in
      0 < m ∧ ∀ fs, fill_rows 0 (reset_getdata_position (getdata s)) rs = Ok fs →
      ∃ s', let ret := combined 0 SQL_SUCCESS fs in
        out = (Ok (ret, Some m), s') ∧ current_row s' = r ∧ rows_found_in_set s' = m ∧ current_values s' = last rs ∧
        effects s' = effects s ++ rows_written rgf upd 0 fs ++ rowset_end rgf upd m ∧ (SQL_SUCCEEDED ret = true → cursor_at rows s')
  end.

Lemma cursor_moved rows s c e r n :
  cursor_at rows s → has_rows rows (with_client c s) → (e = null_offset ∨ ∃ m, points e rows m) → -1 ≤ r ≤ Z.of_nat (length rows) → 0 ≤ n → r + n ≤ Z.of_nat (length rows) →
  (r = -1 → n = 0) → (n = 0 → r ≤ 0 ∨ r = Z.of_nat (length rows)) → (0 < n → points e rows (Z.to_nat (r + n))) →
  cursor_at rows (with_end e (with_place r n (with_client c s))).
Proof. intros [] ???????. split; cbn; auto. Qed.

Lemma fetch_rowset_run rows s fFetchType irow rgf upd :
  cursor_at rows s → scrolls → rows ≠ [] → Z.of_nat (length rows) < 2 ^ 31 → fFetchType ∈ scroll_types → - 2 ^ 62 < irow < 2 ^ 62 → lost o = None →
  fFetchType = SQL_FETCH_NEXT ∨ cursor_type o ≠ SQL_CURSOR_FORWARD_ONLY ∨ opt_SAFE o = true →
  let n := Z.of_nat (length rows) in
  rowset_fetched rows s rgf upd (code_start fFetchType irow n (array_size o) (rows_found_in_set s) (place_of n (current_row s))) (my_SQLExtendedFetch fFetchType irow rgf upd s).
Proof.
  intros Hs Ho Hne Hn Hft Hi Hlost Hty n. set (s1 := with_values None (with_getdata (reset_getdata_position (getdata s)) s)).
  assert (fFetchType ≠ SQL_FETCH_BOOKMARK) as Hb by (intros ->; revert Hft; apply (bool_decide_unpack _); vm_compute; exact I).
  assert (0 < n) as Hn0 by (unfold n; destruct rows; [done|cbn; lia]).
  pose proof (cursor_start rows s Hs) as Hs1. fold s1 in Hs1. pose proof Ho as (Hfwd & _ & Hsize).
  pose proof (compute_cur_row_run rows s1 fFetchType irow Hs1 Ho Hne Hn Hft Hi) as Hrun. cbv zeta in Hrun. fold n in Hrun.
  change (rows_found_in_set s1) with (rows_found_in_set s) in Hrun. change (current_row s1) with (current_row s) in Hrun.
  pose proof (start_fetch_run rows s fFetchType irow Hs Ho Hty Hn Hb) as Hstart. cbv zeta in Hstart. fold s1 n in Hstart.
  unfold my_SQLExtendedFetch. destruct (code_start _ _ _ _ _ _) as [|r|]; cbn [moved rowset_fetched] in *.
  - destruct Hrun as (c & m & E & Hat). rewrite E in Hstart. unfold catch_myerror, mbind, M_bind. rewrite Hstart. eexists. split; [reflexivity|].
    split; [|done]. by apply (cursor_moved rows s1 c (end_of_set s) (-1) 0); try lia; [|exists c, m|exact (ca_known _ _ Hs)].
  - destruct Hrun as (Hr & c & E & Hat). fold n in Hr. rewrite E in Hstart. pose proof (Hstart (ca_plain _ _ Hs1) ltac:(lia)) as Es.
    set (rs := take _ _). assert (Z.of_nat (length rs) = (n - r) `min` array_size o) as Hlen by (unfold rs, n; rewrite length_take, length_drop; lia).
    split; [lia|]. intros fs Hfill.
    assert (to_uint64 ((n - r) `min` array_size o) = Z.of_nat (length rs)) as Hu by (unfold to_uint64; rewrite Z.mod_small; lia). rewrite Hu in Es.
    destruct (fetch_loop_run rows rgf upd fFetchType irow Hb rs fs 0 r SQL_SUCCESS null_offset (with_row r (with_client c s1)) c (Z.to_nat r)) as (c1 & El & Hat1); try done; [exact (ca_plain _ _ Hs1)|apply prefix_take|lia|].
    set (s2 := with_client c1 _) in El.
    assert (length fs = length rs) as Hfs by by eapply fill_rows_length.
    destruct (rows_done_facts rgf upd rs 0 fs (with_row r (with_client c s1)) Hfs) as (Hpl & Hcur & Hfound & Hend & Heff & Hval).
    assert (rows_found_in_set s2 = rows_found_in_set s ∧ current_row s2 = r) as [Hf2 Hc2] by (split; [exact Hfound|exact Hcur]).
    pose proof (end_fetch_run rows s2 rgf upd (Z.of_nat (length rs)) (combined 0 SQL_SUCCESS fs) (client_row_tell c) c1 (Z.to_nat r + length rs) (Z.to_nat r)
      eq_refl Hat1 (at_tell _ _ _ Hat)) as He.
    cbv zeta in He. set (s3 := emit (rowset_end rgf upd (Z.of_nat (length rs))) (with_found (Z.of_nat (length rs)) s2)) in He.
    assert (plain s2) as Hp2 by (change (plain s2) with (plain (rows_done rgf upd 0 rs fs (with_row r (with_client c s1)))); rewrite Hpl; exact (ca_plain _ _ Hs1)).
    specialize (He (proj1 Hp2) Hfwd Hlost ltac:(lia)).
    assert (catch_myerror (x ← start_fetch fFetchType irow; match x with
      | inr r => mret (r, None)
      | inl (rows_to_fetch, cur_row) =>
        if rows_to_fetch =? 0 then modify (with_found 0);; (if upd && has_processed o then modify (emit [W_processed 0]) else mret tt);; mret (SQL_NO_DATA_FOUND, Some 0)
        else '(i, res, e) ← fetch_loop (Z.to_nat rows_to_fetch) fFetchType irow rgf upd 0 cur_row SQL_SUCCESS SQL_SUCCESS null_offset;
          r ← end_fetch rgf upd i res e; mret (r, Some i) end) (λ r, (r, None)) s =
      catch_myerror (r ← end_fetch rgf upd (Z.of_nat (length rs)) (combined 0 SQL_SUCCESS fs) (client_row_tell c); mret (r, Some (Z.of_nat (length rs)))) (λ r, (r, None)) s2) as ->.
    { unfold catch_myerror. rewrite (bind_Ok _ _ _ _ _ Es). rewrite (proj2 (Z.eqb_neq _ 0)), Nat2Z.id by lia. rewrite (bind_Ok _ _ _ _ _ El).
      rewrite Z.add_0_l, bool_decide_eq_true_2 by (intros ->; cbn in Hlen; lia). done. }
    unfold catch_myerror. destruct (SQL_SUCCEEDED (combined 0 SQL_SUCCESS fs)).
    + destruct He as (c' & He & Hat'). rewrite (bind_Ok _ _ _ _ _ He). eexists. split; [reflexivity|].
      split; [exact Hc2|]. split; [done|]. split; [etrans; [exact Hval|]; destruct (last rs) eqn:El'; [done|]; by apply last_None in El' as ->|].
      split; [cbn; rewrite Heff; by rewrite <- app_assoc|]. intros _.
      split; cbn [with_end with_client client end_of_set current_row rows_found_in_set s3 emit with_found with_place]; rewrite ?Hc2.
      * by exists c', (Z.to_nat r).
      * exact Hp2.
      * lia.
      * lia.
      * lia.
      * right. eexists. by apply at_tell in Hat1.
      * intros _. replace (Z.to_nat (r + Z.of_nat (length rs))) with (Z.to_nat r + length rs)%nat by lia. by apply at_tell.
    + rewrite (bind_Ok _ _ _ _ _ He). eexists. split; [reflexivity|].
      split; [exact Hc2|]. split; [done|]. split; [etrans; [exact Hval|]; destruct (last rs) eqn:El'; [done|]; by apply last_None in El' as ->|].
      split; [cbn; rewrite Heff; by rewrite <- app_assoc|done].
  - destruct Hrun as (c & m & E & Hat). rewrite E in Hstart. pose proof (Hstart (ca_plain _ _ Hs1) ltac:(lia)) as Es.
    rewrite Z.sub_diag, Z.min_l in Es by lia. change (to_uint64 0) with 0 in Es. unfold catch_myerror. rewrite (bind_Ok _ _ _ _ _ Es). cbn [Z.eqb].
    rewrite modify_bind. set (s2 := with_found 0 _).
    assert (cursor_at rows s2) as Hs2.
    { apply (cursor_moved rows s1 c (end_of_set s) n 0); try lia; [done|by exists c, m|exact (ca_known _ _ Hs)]. }
    exists (emit (if upd && has_processed o then [W_processed 0] else []) s2). destruct (upd && has_processed o).
    + split; [reflexivity|]. split; [by destruct Hs2|done].
    + split; [|split; [by destruct Hs2|done]]. unfold mbind, M_bind. cbn. f_equal. unfold s2, emit. cbn. by rewrite app_nil_r.
Qed.

(** ** The result of a call *)

(** Of the results of its rows: one row gives its own, more rows give an error never. *)
Definition call_result (rets : list Z) : Z :=
  match rets with [r] => r | _ => if forallb (λ r, r =? SQL_SUCCESS) rets then SQL_SUCCESS else SQL_SUCCESS_WITH_INFO end.

Definition row_results : list Z := [SQL_SUCCESS; SQL_SUCCESS_WITH_INFO; SQL_ERROR].

Lemma worse_result res tmp : res ∈ row_results → worse res tmp ∈ row_results.
Proof.
  intros Hr. unfold worse. destruct (tmp =? SQL_SUCCESS); [done|]. destruct (tmp =? SQL_SUCCESS_WITH_INFO) eqn:E; [|apply (bool_decide_unpack _); vm_compute; exact I].
  apply Z.eqb_eq in E as ->. destruct (res =? SQL_SUCCESS); [apply (bool_decide_unpack _); vm_compute; exact I|done].
Qed.

Lemma fill_columns_result b i cs : ∀ vs f f', fill_columns b i cs vs f = Ok f' → f_ret f ∈ row_results → f_ret f' ∈ row_results.
Proof.
  induction cs as [|c cs IH]; intros vs f f'; cbn [fill_columns]; [by intros [= <-]|]. destruct vs as [|x vs]; [done|].
  destruct (fill_column b i c x f) as [f1| |] eqn:E; [|done..]. cbn [mbind res_bind]. intros Hf Hr. eapply IH; [exact Hf|].
  unfold fill_column in E. destruct (negb (ARD_IS_BOUND c)); [by injection E as <-|]. destruct (get_column _ _ _ _ _ _ _ _ _ _ _ _ _ _ _ _ _ _ _ _) as [[a g]| |]; [|done..].
  cbn [mbind res_bind] in E. injection E as <-. by apply worse_result.
Qed.

Lemma fill_rows_results rs : ∀ i g fs, fill_rows i g rs = Ok fs → Forall (λ f, f_ret f ∈ row_results) fs.
Proof.
  induction rs as [|r rs IH]; intros i g fs; cbn [fill_rows]; [by intros [= <-]|].
  destruct (fill_fetch_buffers _ r i g) as [f| |] eqn:E; [|done..]. cbn [mbind res_bind]. destruct (fill_rows _ _ rs) as [fs'| |] eqn:Efs; [|done..].
  intros [= <-]. constructor; [|by eapply IH]. eapply fill_columns_result; [exact E|]. apply (bool_decide_unpack _); vm_compute; exact I.
Qed.

Lemma combined_later fs : ∀ i res, 0 < i → Forall (λ f, f_ret f ∈ row_results) fs → res ∈ row_results →
  combined i res fs = match fs with [] => res | _ => if forallb (λ r, r =? SQL_SUCCESS) (res :: (f_ret <$> fs)) then SQL_SUCCESS else SQL_SUCCESS_WITH_INFO end.
Proof.
  induction fs as [|f fs IH]; intros i res Hi Hfs Hres; [done|]. apply Forall_cons in Hfs as [Hf Hfs]. cbn [combined].
  assert (combine i res (f_ret f) SQL_SUCCESS = if (res =? SQL_SUCCESS) && (f_ret f =? SQL_SUCCESS) then SQL_SUCCESS else SQL_SUCCESS_WITH_INFO) as ->.
  { unfold combine. rewrite (proj2 (Z.eqb_neq i 0)) by lia. unfold row_results in *. rewrite !elem_of_cons, !elem_of_nil in Hf, Hres. by destruct_or! Hf; destruct_or! Hres; try done; subst; rewrite ?Hf, ?Hres. }
  rewrite IH; [|lia|done|destruct (_ && _); apply (bool_decide_unpack _); vm_compute; exact I].
  cbn [forallb fmap list_fmap]. destruct (res =? SQL_SUCCESS), (f_ret f =? SQL_SUCCESS); cbn [andb]; destruct fs; done.
Qed.

Lemma combined_result fs : Forall (λ f, f_ret f ∈ row_results) fs → combined 0 SQL_SUCCESS fs = call_result (f_ret <$> fs).
Proof.
  intros Hfs. destruct fs as [|f fs]; [done|]. apply Forall_cons in Hfs as [Hf Hfs]. cbn [combined].
  assert (combine 0 SQL_SUCCESS (f_ret f) SQL_SUCCESS = f_ret f) as -> by (unfold row_results in Hf; rewrite !elem_of_cons, elem_of_nil in Hf; destruct_or! Hf; try done; by rewrite Hf).
  rewrite combined_later by (done || lia). by destruct fs.
Qed.

Lemma call_result_ok rets : Forall (λ r, SQL_SUCCEEDED r = true) rets → SQL_SUCCEEDED (call_result rets) = true.
Proof. intros Hr. unfold call_result. destruct rets as [|r [|r' rets]]; [done|by apply Forall_inv in Hr|]. by destruct (forallb _ _). Qed.

(** C21: a call of SQLFetchScroll on a stored result, of 1 to 2^31 - 1 rows, moves to the rowset that
    the ODBC reference gives for the type of the fetch (bookmarks apart), the offset and the place of
    the cursor, with two exceptions: a cursor that has not been used counts as one at the first row,
    which only SQL_FETCH_RELATIVE tells; and where the reference gives the first rowset because less
    than a rowset is before the cursor, or in all, the cursor moves before the rows.  It is no
    dynamic cursor and none whose rows are not stored, and a forward-only one only for
    SQL_FETCH_NEXT or with the option for safe cursors (else the call fails with HY106); the connection is not lost.  It
    converts the rows of the rowset, each into its place, tells the status of each
    row, and that there are none in the rest; beyond the rows it writes to no buffer.  The
    result is that of the row when there is one, and else success, with information when a row
    has any or fails.  Unless it fails the cursor stays consistent. *)
Theorem fetch_scroll_spec rows s fFetchType irow :
  cursor_at rows s → scrolls → rows ≠ [] → Z.of_nat (length rows) < 2 ^ 31 → fFetchType ∈ scroll_types → - 2 ^ 62 < irow < 2 ^ 62 → lost o = None →
  fFetchType = SQL_FETCH_NEXT ∨ cursor_type o ≠ SQL_CURSOR_FORWARD_ONLY ∨ opt_SAFE o = true →
  let n := Z.of_nat (length rows) in let p := place_of n (current_row s) in let size := array_size o in
  let ends (r : Z) (written : list effect) := ∃ s', SQLFetchScroll fFetchType irow None s = (Ok SQL_NO_DATA_FOUND, s') ∧
    cursor_at rows s' ∧ current_row s' = r ∧ rows_found_in_set s' = 0 ∧ effects s' = effects s ++ written in
  if too_short fFetchType n size p then ends (-1) []
  else match odbc_start fFetchType irow n size (rows_found_in_set s) p with
  | Before => ends (-1) []
  | After => ends n (if has_processed o then [W_rows 0] else [])
  | At r =>
    let rs := take (Z.to_nat size) (drop (Z.to_nat r) rows) in let m := Z.of_nat (length rs) in
    0 < m ∧ ∀ fs, fill_rows 0 (reset_getdata_position (getdata s)) rs = Ok fs →
    ∃ s', let ret := call_result (f_ret <$> fs) in
      SQLFetchScroll fFetchType irow None s = (Ok ret, s') ∧ current_row s' = r ∧ rows_found_in_set s' = m ∧ current_values s' = last rs ∧
      effects s' = effects s ++ rows_written (has_status_ird o) false 0 fs ++ rowset_end (has_status_ird o) false m ++ (if has_processed o then [W_rows m] else []) ∧
      (SQL_SUCCEEDED ret = true → cursor_at rows s')
  end.
Proof.
  intros Hs Ho Hne Hn Hft Hi Hlost Hty n p size ends.
  pose proof (fetch_rowset_run rows s fFetchType irow (has_status_ird o) false Hs Ho Hne Hn Hft Hi Hlost Hty) as Hrun. cbv zeta in Hrun. fold n size p in Hrun.
  unfold code_start in Hrun.
  assert (rowset_fetched rows s (has_status_ird o) false Before (my_SQLExtendedFetch fFetchType irow (has_status_ird o) false s) → ends (-1) []) as Hbefore.
  { intros (s' & E & ? & ? & ? & ?). exists s'. unfold SQLFetchScroll. cbv beta iota zeta. rewrite (bind_Ok _ _ _ _ _ E), app_nil_r. by destruct (has_processed o). }
  destruct (too_short _ _ _ _); [exact (Hbefore Hrun)|]. destruct (odbc_start _ _ _ _ _ _) as [|r|]; cbn [rowset_fetched] in Hrun; [exact (Hbefore Hrun)|..].
  - destruct Hrun as [Hm Hrun]. split; [exact Hm|]. intros fs Hfs. destruct (Hrun fs Hfs) as (s' & E & Hr & Hf & Hv & Heff & Hcur).
    rewrite (combined_result fs (fill_rows_results _ _ _ _ Hfs)) in E, Hcur. unfold SQLFetchScroll.
    exists (emit (if has_processed o then [W_rows (Z.of_nat (length (take (Z.to_nat (array_size o)) (drop (Z.to_nat r) rows))))] else []) s').
    split; [|split; [done|]; split; [done|]; split; [done|]; split; [cbn [emit effects]; by rewrite Heff, <- !app_assoc|intros Hok; by destruct (Hcur Hok)]].
    unfold SQLFetchScroll. cbv beta iota zeta. rewrite (bind_Ok _ _ _ _ _ E). destruct (has_processed o); [done|]. unfold emit. rewrite app_nil_r. by destruct s'.
  - destruct Hrun as (s' & E & Hcur & Hr & Hf & Heff). unfold SQLFetchScroll. cbn [andb] in Heff. rewrite app_nil_r in Heff.
    exists (emit (if has_processed o then [W_rows 0] else []) s'). split; [|split; [by destruct Hcur|]; split; [done|]; split; [done|]; cbn; by rewrite Heff].
    unfold SQLFetchScroll. cbv beta iota zeta. rewrite (bind_Ok _ _ _ _ _ E). destruct (has_processed o); [done|]. unfold emit. rewrite app_nil_r. by destruct s'.
Qed.

(** ** All rows *)

Fixpoint fetches (m : nat) : run (list Z) :=
  match m with O => mret [] | S m => r ← SQLFetch; rs ← fetches m; mret (r :: rs) end.

Lemma next_start rows s irow : cursor_at rows s → 0 ≤ current_row s →
  let n := Z.of_nat (length rows) in
  code_start SQL_FETCH_NEXT irow n (array_size o) (rows_found_in_set s) (place_of n (current_row s)) = clip n (current_row s + rows_found_in_set s).
Proof.
  intros Hs Hc n. destruct (ca_place _ _ Hs) as (? & ? & ?). unfold code_start, too_short, odbc_start, place_of, clip.
  repeat match goal with |- context [?a =? ?b] => let e := eval vm_compute in (a =? b) in match e with true => idtac | false => idtac end; change (a =? b) with e end; cbn [negb andb orb].
  destruct (Z.ltb_spec (current_row s) 0); [lia|]. destruct (Z.leb_spec n (current_row s)); [|done]. rewrite (proj2 (Z.ltb_ge _ _)) by lia. done.
Qed.

Section AllRows.
(** Rows whose conversion gives a result [t], and writes [w], whatever has been read
    before. *)
Context (rows : list row) (w : row → Z → list effect) (t : row → Z).
Definition converts : Prop := ∀ r i g, r ∈ rows → ∃ f, fill_fetch_buffers (bound o) r i g = Ok f ∧ f_effects f = w r i ∧ f_ret f = t r ∧ SQL_SUCCEEDED (t r) = true.

(** The rows of the rowset number [j], from 0 on, and what the call for it writes. *)
Definition rowset_rows (j : nat) : list row := take (Z.to_nat (array_size o)) (drop (j * Z.to_nat (array_size o)) rows).
Fixpoint rows_effects (i : Z) (rs : list row) : list effect :=
  match rs with [] => [] | r :: rs => w r i ++ status (has_status_ird o) false i (sqlreturn2row_status (t r)) ++ rows_effects (i + 1) rs end.
Definition rowset_effects (j : nat) : list effect :=
  let rs := rowset_rows j in let m := Z.of_nat (length rs) in
  (if m =? 0 then [] else rows_effects 0 rs ++ rowset_end (has_status_ird o) false m) ++ (if has_processed o then [W_rows m] else []).
Definition rowset_result (j : nat) : Z :=
  let rs := rowset_rows j in if bool_decide (rs = []) then SQL_NO_DATA_FOUND else call_result (t <$> rs).

Lemma converted rs : converts → (∀ r, r ∈ rs → r ∈ rows) → ∀ i g, ∃ fs, fill_rows i g rs = Ok fs ∧ f_ret <$> fs = t <$> rs ∧ rows_written (has_status_ird o) false i fs = rows_effects i rs.
Proof.
  intros Hc. induction rs as [|r rs IH]; intros Hin i g; [by exists []|].
  destruct (Hc r i g) as (f & Ef & Hw & Ht & _); [apply Hin, elem_of_cons; by left|].
  destruct (IH (λ x Hx, Hin x (proj2 (elem_of_cons _ _ _) (or_intror Hx))) (i + 1) (f_getdata f)) as (fs & Efs & Hts & Hws).
  exists (f :: fs). cbn. rewrite Ef. cbn [mbind res_bind]. rewrite Efs, Hws, Hw, Ht. cbn. by rewrite <- Hts.
Qed.

Lemma rowset_rows_in j r : r ∈ rowset_rows j → r ∈ rows.
Proof. intros Hr. apply elem_of_take in Hr as (i & Hr & _). rewrite lookup_drop in Hr. by eapply list_elem_of_lookup_2. Qed.

(** The cursor behind the first [j] rowsets. *)
Definition behind (j : nat) (s : STMT) : Prop :=
  cursor_at rows s ∧ 0 ≤ current_row s ∧ current_row s + rows_found_in_set s = Z.of_nat ((j * Z.to_nat (array_size o)) `min` length rows).

Lemma fetch_next_rowset j s : converts → scrolls → rows ≠ [] → Z.of_nat (length rows) < 2 ^ 31 → lost o = None → behind j s →
  ∃ s', SQLFetch s = (Ok (rowset_result j), s') ∧ effects s' = effects s ++ rowset_effects j ∧ behind (S j) s'.
Proof.
  intros Hc Ho Hne Hn Hlost (Hs & Hcur & Hsum). pose proof Ho as (_ & _ & Hsize).
  pose proof (fetch_rowset_run rows s SQL_FETCH_NEXT 0 (has_status_ird o) false Hs Ho Hne Hn ltac:(apply (bool_decide_unpack _); vm_compute; exact I) ltac:(lia) Hlost (or_introl eq_refl)) as Hrun.
  cbv zeta in Hrun. rewrite (next_start rows s 0 Hs Hcur), Hsum in Hrun. set (size := Z.to_nat (array_size o)) in *. unfold clip in Hrun. unfold SQLFetch.
  destruct (Z.ltb_spec (Z.of_nat ((j * size) `min` length rows)) (Z.of_nat (length rows))) as [Hlt|Hge]; cbn [rowset_fetched] in Hrun.
  - assert ((j * size) `min` length rows = j * size)%nat as Ej by lia. rewrite Ej, Nat2Z.id in Hrun. fold size in Hrun.
    change (take size (drop (j * size) rows)) with (rowset_rows j) in Hrun. destruct Hrun as [Hm Hrun].
    destruct (converted (rowset_rows j) Hc (rowset_rows_in j) 0 (reset_getdata_position (getdata s))) as (fs & Efs & Hts & Hws).
    destruct (Hrun fs Efs) as (s' & E & Hr & Hf & _ & Heff & Hok). rewrite (combined_result fs (fill_rows_results _ _ _ _ Efs)), Hts in E, Hok.
    assert (rowset_rows j ≠ []) as Hrs by (intros Hrs; rewrite Hrs in Hm; cbn in Hm; lia).
    rewrite (bind_Ok _ _ _ _ _ E). unfold rowset_result, rowset_effects. rewrite (bool_decide_eq_false_2 _ Hrs), (proj2 (Z.eqb_neq _ 0)) by lia.
    exists (emit (if has_processed o then [W_rows (Z.of_nat (length (rowset_rows j)))] else []) s').
    split; [destruct (has_processed o); [done|]; unfold emit; rewrite app_nil_r; by destruct s'|].
    split; [cbn [emit effects]; by rewrite Heff, Hws, <- !app_assoc|].
    assert (cursor_at rows s') as Hs'.
    { apply Hok, call_result_ok, Forall_fmap, Forall_forall. intros r Hr'. destruct (Hc r 0 (getdata s) (rowset_rows_in _ _ Hr')) as (? & _ & _ & _ & ?). done. }
    split; [by destruct Hs'|]. cbn [emit current_row rows_found_in_set]. rewrite Hr, Hf. split; [lia|].
    unfold rowset_rows. rewrite length_take, length_drop. fold size. lia.
  - destruct Hrun as (s' & E & Hs' & Hr & Hf & Heff). rewrite (bind_Ok _ _ _ _ _ E). cbn [andb] in Heff. rewrite app_nil_r in Heff.
    assert (rowset_rows j = []) as Hrs by (unfold rowset_rows; fold size; rewrite drop_ge by lia; apply take_nil).
    unfold rowset_result, rowset_effects. rewrite Hrs. cbn [length Z.of_nat Z.eqb app]. rewrite bool_decide_eq_true_2 by done.
    exists (emit (if has_processed o then [W_rows 0] else []) s').
    split; [destruct (has_processed o); [done|]; unfold emit; rewrite app_nil_r; by destruct s'|].
    split; [cbn [emit effects]; by rewrite Heff|]. split; [by destruct Hs'|]. cbn [emit current_row rows_found_in_set]. rewrite Hr, Hf. split; [lia|]. nia.
Qed.

Lemma fetches_from j m s : converts → scrolls → rows ≠ [] → Z.of_nat (length rows) < 2 ^ 31 → lost o = None → behind j s →
  ∃ s', fetches m s = (Ok (rowset_result <$> seq j m), s') ∧ effects s' = effects s ++ mjoin (rowset_effects <$> seq j m).
Proof.
  intros Hc Ho Hne Hn Hlost. revert j s. induction m as [|m IH]; intros j s Hb.
  { exists s. by rewrite app_nil_r. }
  destruct (fetch_next_rowset j s Hc Ho Hne Hn Hlost Hb) as (s1 & E & Heff & Hb1). destruct (IH (S j) s1 Hb1) as (s' & E' & Heff').
  exists s'. cbn [fetches seq fmap list_fmap mjoin list_join]. rewrite (bind_Ok _ _ _ _ _ E), (bind_Ok _ _ _ _ _ E'). split; [done|]. by rewrite Heff', Heff, <- app_assoc.
Qed.

Lemma rowsets_join m : mjoin (rowset_rows <$> seq 0 m) = take (m * Z.to_nat (array_size o)) rows.
Proof.
  set (size := Z.to_nat (array_size o)). assert (∀ j, mjoin (rowset_rows <$> seq j m) = take (m * size) (drop (j * size) rows)) as Hj; [|by rewrite Hj].
  induction m as [|m IH]; intros j; [done|]. cbn [seq fmap list_fmap mjoin list_join]. rewrite IH. unfold rowset_rows. fold size.
  replace (S j * size)%nat with (j * size + size)%nat by lia. rewrite <- drop_drop. replace (S m * size)%nat with (size + m * size)%nat by lia.
  by rewrite take_add_app || rewrite <- take_take_drop.
Qed.

(** C22: an application that calls SQLFetch again and again on a result that has just been
    made gets all of its rows, in their order and none twice: the call number [j] writes
    the rows of the rowset number [j], which together are the rows of the result, and
    then there is no data.  This holds for rows whose conversion succeeds. *)
Theorem fetches_deliver s m :
  converts → scrolls → rows ≠ [] → Z.of_nat (length rows) < 2 ^ 31 → lost o = None →
  cursor_at rows s → current_row s = 0 → rows_found_in_set s = 0 →
  (∃ s', fetches m s = (Ok (rowset_result <$> seq 0 m), s') ∧ effects s' = effects s ++ mjoin (rowset_effects <$> seq 0 m)) ∧
  mjoin (rowset_rows <$> seq 0 m) = take (m * Z.to_nat (array_size o)) rows ∧
  (∀ j, rowset_result j = SQL_NO_DATA_FOUND ↔ (length rows ≤ j * Z.to_nat (array_size o))%nat).
Proof.
  intros Hc Ho Hne Hn Hlost Hs Hcur Hf. split; [|split; [apply rowsets_join|]].
  - apply fetches_from; try done. split; [done|]. rewrite Hcur, Hf. split; lia.
  - intros j. destruct Ho as (_ & _ & Hsize). assert (rowset_rows j = [] ↔ (length rows ≤ j * Z.to_nat (array_size o))%nat) as Hj.
    { unfold rowset_rows. rewrite <- length_zero_iff_nil, length_take, length_drop. lia. }
    unfold rowset_result. rewrite <- Hj. case_bool_decide as Hrs; [by split|]. split; [|by intros ?]. intros E. exfalso.
    assert (SQL_SUCCEEDED (call_result (t <$> rowset_rows j)) = true) as Hok; [|rewrite E in Hok; done].
    apply call_result_ok, Forall_fmap, Forall_forall. intros r Hr. destruct (Hc r 0 (getdata s) (rowset_rows_in _ _ Hr)) as (? & _ & _ & _ & ?). done.
Qed.
End AllRows.

(** ** Where the calls write *)

Section Bounds.
(** A column whose C type has a size of its own, bound with that size. *)
Definition fixed_column (c : column) : Prop :=
  concise_type_ c ∈ fixed_ctypes ∧ (ftype (field_ c) = MYSQL_TYPE_BIT → concise_type_ c ≠ SQL_C_BIT) ∧ octet_length c = bind_length (concise_type_ c) 0.

(** The place for row [i] in an array of the application that begins at [p], whose
    elements have a size, or are in rows of the size of the binding. *)
Definition element (p size i : Z) : Z :=
  to_uint64 (p + to_uint64 (default 0 (bind_offset (bound o)) + (if bind_type (bound o) =? 0 then size else bind_type (bound o)) * i)).

(** Values are written to the elements of the arrays that are bound to the columns, with
    the size of the element; so are lengths; and the status of rows to the arrays for it. *)
Definition in_bounds (e : effect) : Prop :=
  match e with
  | W_value a x => ∃ c p i, c ∈ columns (bound o) ∧ data_ptr c = Some p ∧ 0 ≤ i < array_size o ∧ a = element p (octet_length c) i ∧ size_of x = octet_length c
  | W_indicator a _ => ∃ c p i, c ∈ columns (bound o) ∧ octet_length_ptr c = Some p ∧ 0 ≤ i < array_size o ∧ a = element p 8 i
  | W_status i _ | W_status_ird i _ => 0 ≤ i < array_size o
  | W_rows _ | W_processed _ => True
  end.
Definition written_in_bounds (s : STMT) : Prop := Forall in_bounds (effects s).

Lemma fill_column_bounds c i x f f' : fixed_column c → c ∈ columns (bound o) → 0 ≤ i < array_size o →
  fill_column (bound o) i c x f = Ok f' → Forall in_bounds (f_effects f) → Forall in_bounds (f_effects f').
Proof.
  intros (Hct & Hbit & Hlen) Hc Hi. unfold fill_column. destruct (negb (ARD_IS_BOUND c)); [by intros [= <-]|].
  rewrite get_column_fixed by done. set (target := ptr_offset_adjust _ _ _ _ _). set (pcbValue := ptr_offset_adjust _ _ _ _ _).
  destruct (sql_get_data _ _ _ _ _ _ _ _ _ _ _ _ _ _ _ _ _ _) as [[a g]| |] eqn:E; [|done..]. intros [= <-] Hf. cbn [f_effects].
  destruct (sql_get_data_sized _ _ _ _ _ _ _ _ _ _ _ _ _ _ _ _ _ _ _ _ _ Hct Hbit E) as [_ Hsize].
  apply Forall_app. split; [done|]. apply Forall_app. split.
  - destruct target as [t|] eqn:Et; [|constructor]. destruct (a_stored a) as [y|]; [|constructor]. apply Forall_singleton.
    destruct (Hsize y eq_refl) as (_ & Hy & _). subst target. unfold ptr_offset_adjust in Et. destruct (data_ptr c) as [p|] eqn:Ep; [|done]. injection Et as <-.
    assert (to_int32 (octet_length c) = octet_length c) as El.
    { rewrite Hlen. clear -Hct. unfold fixed_ctypes in Hct. rewrite !elem_of_cons, elem_of_nil in Hct. by destruct_or! Hct; try done; rewrite Hct. }
    exists c, p, i. rewrite El. split_and!; try done; [lia..|by rewrite Hlen].
  - destruct pcbValue as [t|] eqn:Et; [|constructor]. destruct (a_ind a) as [y|]; [|constructor]. apply Forall_singleton.
    subst pcbValue. unfold ptr_offset_adjust in Et. destruct (octet_length_ptr c) as [p|] eqn:Ep; [|done]. injection Et as <-. exists c, p, i. split_and!; try done; lia.
Qed.

Lemma fill_columns_bounds i cs : ∀ vs f f', Forall fixed_column cs → (∀ c, c ∈ cs → c ∈ columns (bound o)) → 0 ≤ i < array_size o →
  fill_columns (bound o) i cs vs f = Ok f' → Forall in_bounds (f_effects f) → Forall in_bounds (f_effects f').
Proof.
  induction cs as [|c cs IH]; intros vs f f' Hcs Hin Hi; cbn [fill_columns]; [by intros [= <-]|]. destruct vs as [|x vs]; [done|].
  apply Forall_cons in Hcs as [Hc Hcs]. destruct (fill_column (bound o) i c x f) as [f1| |] eqn:E; [|done..]. cbn [mbind res_bind]. intros Hf Hb.
  apply (IH vs f1 f' Hcs (λ c' Hc', Hin c' (proj2 (elem_of_cons _ _ _) (or_intror Hc'))) Hi Hf).
  apply (fill_column_bounds c i x f f1 Hc (Hin c (proj2 (elem_of_cons _ _ _) (or_introl eq_refl))) Hi E Hb).
Qed.

Context (Hcols : Forall fixed_column (columns (bound o))) (Hsize : 0 < array_size o < 2 ^ 32) (Hexec : preserves written_in_bounds my_SQLExecute).

Lemma keeps_emit l : Forall in_bounds l → preserves written_in_bounds (modify (emit l)).
Proof. intros Hl. apply preserves_modify. intros s Hs. by apply Forall_app. Qed.
Lemma keeps_modify f : (∀ s, effects (f s) = effects s) → preserves written_in_bounds (modify f).
Proof. intros Hf. apply preserves_modify. intros s. unfold written_in_bounds. by rewrite Hf. Qed.

Lemma status_bounds rgf upd i v : 0 ≤ i < array_size o → Forall in_bounds (status rgf upd i v).
Proof. intros Hi. unfold status. destruct rgf, (upd && has_status_ird o); repeat constructor; lia. Qed.

#[local] Ltac keeps := repeat (solve_preserves; try (apply keeps_modify; done); try match goal with |- preserves _ (let '(_, _) := ?x in _) => destruct x end).

Lemma keeps_the_client : preserves written_in_bounds the_client.
Proof. unfold the_client. keeps. Qed.
#[local] Hint Resolve keeps_the_client : odbc.
Lemma keeps_set_error e : preserves written_in_bounds (set_error e).
Proof. by apply keeps_modify. Qed.
#[local] Hint Resolve keeps_set_error : odbc.
Lemma keeps_fetch_row : preserves written_in_bounds fetch_row.
Proof. unfold fetch_row. keeps. Qed.
Lemma keeps_num_rows : preserves written_in_bounds num_rows.
Proof. unfold num_rows. keeps. Qed.
Lemma keeps_data_seek z : preserves written_in_bounds (data_seek z).
Proof. unfold data_seek, on_client. keeps. Qed.
Lemma keeps_row_tell : preserves written_in_bounds row_tell.
Proof. unfold row_tell. keeps. Qed.
Lemma keeps_row_seek e : preserves written_in_bounds (row_seek e).
Proof. unfold row_seek. keeps. Qed.
Lemma keeps_move : preserves written_in_bounds move.
Proof. unfold move. keeps. Qed.
Lemma keeps_prefetch : preserves written_in_bounds prefetch.
Proof. unfold prefetch. keeps. Qed.
Lemma keeps_long z : preserves written_in_bounds (long z).
Proof. unfold long. keeps. Qed.
#[local] Hint Resolve keeps_fetch_row keeps_num_rows keeps_data_seek keeps_row_tell keeps_row_seek keeps_move keeps_prefetch keeps_long : odbc.
Lemma keeps_move_to n z : preserves written_in_bounds (move_to n z).
Proof. induction n as [|n IH]; cbn [move_to]; keeps. Qed.
Lemma keeps_asked_row t irow m : preserves written_in_bounds (asked_row t irow m).
Proof. unfold asked_row. keeps. Qed.
#[local] Hint Resolve keeps_move_to keeps_asked_row : odbc.
Lemma keeps_compute t irow : preserves written_in_bounds (compute_cur_row t irow).
Proof. unfold compute_cur_row. keeps. Qed.
Lemma keeps_cursor_data z : preserves written_in_bounds (set_current_cursor_data z).
Proof.
  unfold set_current_cursor_data. keeps.
Qed.
#[local] Hint Resolve keeps_compute keeps_cursor_data Hexec : odbc.
Lemma keeps_dynamic : preserves written_in_bounds set_dynamic_result.
Proof. unfold set_dynamic_result. keeps. Qed.
Lemma keeps_next_values i r e : preserves written_in_bounds (next_values i r e).
Proof. unfold next_values. keeps. Qed.
#[local] Hint Resolve keeps_dynamic keeps_next_values : odbc.
Lemma keeps_start t irow : preserves written_in_bounds (start_fetch t irow).
Proof. unfold start_fetch, on_client. keeps. Qed.

(** Moves of the scroller leave it there. *)
Lemma poke_exists i t x y : poke i t x = Ok y → scroller_exists y = scroller_exists x.
Proof. unfold poke. destruct (query_valid x); [|done]. destruct (write_at _ _ _); [|done..]. by intros [= <-]. Qed.

Lemma scroller_move_exists x y : scroller_move x = Ok y → scroller_exists y = scroller_exists x.
Proof.
  unfold scroller_move. destruct (poke _ _ x) as [x1| |] eqn:E1; [|done..]. cbn [mbind res_bind]. destruct (poke _ _ x1) as [x2| |] eqn:E2; [|done..].
  intros [= <-]. rewrite <- (poke_exists _ _ _ _ E1), <- (poke_exists _ _ _ _ E2). done.
Qed.

Lemma scroller_prefetch_exists {R} (exec : str → option R) x y r : scroller_prefetch exec x = Ok (y, r) → scroller_exists y = scroller_exists x.
Proof.
  unfold scroller_prefetch. destruct (_ && _).
  - destruct (0 <? _); [|by intros [= <- _]]. destruct (poke _ _ x) as [x1| |] eqn:E1; [|done..]. cbn [mbind res_bind]. destruct (poke _ _ x1) as [x2| |] eqn:E2; [|done..].
    cbn [mbind res_bind]. destruct (query_text x2); [|done..]. intros [= <- _]. by rewrite (poke_exists _ _ _ _ E2), (poke_exists _ _ _ _ E1).
  - cbn [mbind res_bind]. destruct (query_text x); [|done..]. by intros [= <- _].
Qed.

Definition scrolling_kept (b : bool) (s : STMT) : Prop := scroller_exists (sc s) = b.

Lemma move_kept b : preserves (scrolling_kept b) move.
Proof.
  intros s Hs. unfold move. rewrite get_bind. unfold mbind, M_bind, lift. destruct (scroller_move (sc s)) as [x| |] eqn:E; [|done..].
  etrans; [exact (scroller_move_exists _ _ E)|exact Hs].
Qed.
Lemma prefetch_kept b : preserves (scrolling_kept b) prefetch.
Proof.
  intros s Hs. unfold prefetch. rewrite get_bind. unfold the_client, mbind, M_bind, get, lift, deref. destruct (client s) as [c|]; [|done]. cbn.
  destruct (scroller_prefetch _ (sc s)) as [[x r]| |] eqn:E; [|done..]. cbn. pose proof (scroller_prefetch_exists _ _ _ _ E) as Hx.
  destruct r as [[c'|]|]; (etrans; [exact Hx|exact Hs]).
Qed.
#[local] Hint Resolve move_kept prefetch_kept : odbc.
Lemma move_to_kept b n z : preserves (scrolling_kept b) (move_to n z).
Proof. induction n as [|n IH]; cbn [move_to]; solve_preserves. Qed.

Lemma asked_row_state t irow m s a s' : asked_row t irow m s = (Ok a, s') → s' = s.
Proof.
  unfold asked_row, long, set_error. rewrite get_bind. cbv beta zeta. unfold mbind, M_bind, mret, M_ret, undefined, throw, modify.
  repeat match goal with |- context [if ?b then _ else _] => destruct b end; by intros [= _ <-] || done.
Qed.

Lemma data_seek_kept b z : preserves (scrolling_kept b) (data_seek z).
Proof. unfold data_seek, on_client, the_client. solve_preserves. Qed.
Lemma row_seek_kept b e : preserves (scrolling_kept b) (row_seek e).
Proof. unfold row_seek, the_client. solve_preserves. Qed.
#[local] Hint Resolve move_to_kept data_seek_kept row_seek_kept : odbc.

Lemma num_rows_state s m s' : num_rows s = (Ok m, s') → s' = s.
Proof. unfold num_rows, the_client. rewrite get_bind. unfold mbind, M_bind, get, deref. destruct (client s); [|done]. by intros [= _ <-]. Qed.

Lemma compute_le t irow s r s' : compute_cur_row t irow s = (Ok r, s') →
  scroller_exists (sc s') = scroller_exists (sc s) ∧
  (scroller_exists (sc s) = false → ∃ m, num_rows s = (Ok m, s) ∧ r ≤ to_int64 m ∧ (0 ≤ r ∨ r = to_int64 m)).
Proof.
  unfold compute_cur_row. intros (m & s1 & Em & E)%bind_inv_Ok. pose proof (num_rows_state _ _ _ Em) as ->. cbv zeta in E.
  apply bind_inv_Ok in E as (a & s2 & Ea & E). apply asked_row_state in Ea as ->.
  destruct (Z.ltb_spec a 0) as [Ha|Ha]; [rewrite modify_bind in E; by apply bind_inv_Ok in E as (? & ? & _ & ?)|].
  rewrite get_bind in E. apply bind_inv_Ok in E as (cur & s3 & Ec & E). rewrite get_bind in E. apply bind_inv_Ok in E as ([] & s4 & Es & E).
  rewrite modify_bind in E. injection E as <- <-.
  assert (scrolling_kept (scroller_exists (sc s)) s3) as H3 by (refine (preserves_Ok _ _ _ _ _ _ Ec _); [|done]; unfold set_error; solve_preserves; done).
  assert (scrolling_kept (scroller_exists (sc s)) s4) as H4 by (refine (preserves_Ok _ _ _ _ _ _ Es H3); solve_preserves).
  split; [exact H4|]. intros Hno. exists m. split; [done|]. rewrite Hno in Ec.
  destruct (Z.ltb_spec (to_int64 m) a); injection Ec as <- _; lia.
Qed.
Lemma start_le t irow s n r s' : start_fetch t irow s = (Ok (inl (n, r)), s') → 0 ≤ n ≤ array_size o.
Proof.
  unfold start_fetch. rewrite get_bind. intros ([] & s1 & _ & E)%bind_inv_Ok. destruct (bool_decide (out_params_state s = OPS_BEING_FETCHED)); [done|].
  apply bind_inv_Ok in E as ([] & s2 & _ & E). apply bind_inv_Ok in E as ([] & s3 & _ & E). apply bind_inv_Ok in E as ([] & s4 & _ & E).
  apply bind_inv_Ok in E as (failed & s5 & _ & E). apply bind_inv_Ok in E as ([] & s6 & _ & E). apply bind_inv_Ok in E as (m & s7 & Em & E).
  pose proof (num_rows_state _ _ _ Em) as ->. rewrite modify_bind in E. set (s7 := with_values _ _) in E.
  apply bind_inv_Ok in E as (cur & s8 & Ec & E). rewrite get_bind in E. injection E as <- _ _.
  assert (∀ z, z ≤ array_size o → 0 ≤ z → 0 ≤ (if (z =? 0) && negb (bool_decide (out_params_state s8 = OPS_UNKNOWN)) then 1 else z) ≤ array_size o) as Hone.
  { intros z Hz1 Hz2. destruct (_ && _); lia. }
  apply Hone.
  all: destruct (scroller_exists (sc s8)) eqn:Esc; cbn [orb]; [lia|].
  all: destruct (_ || _); [lia|].
  all: destruct (compute_le _ _ _ _ _ Ec) as [Hsc Hle]; rewrite Esc in Hsc; destruct (Hle (eq_sym Hsc)) as (m' & Em' & Hr & Hpos).
  all: assert (m' = m) as -> by (unfold num_rows, the_client in Em, Em'; rewrite !get_bind in Em, Em'; unfold mbind, M_bind, get, deref in Em, Em'; change (client s7) with (client s6) in Em'; change (sc s7) with (sc s6) in Em'; destruct (client s6); [injection Em as <-; by injection Em' as <-|done]).
  all: pose proof (to_int64_bounds m) as Hb; rewrite (to_int64_id (array_size o)) by lia; unfold to_uint64; rewrite Z.mod_small; lia.
Qed.
Lemma keeps_fill (fl : GETDATA → res filled) : (∀ g f, fl g = Ok f → Forall in_bounds (f_effects f)) → preserves written_in_bounds (fill fl).
Proof.
  intros Hf s Hs. unfold fill. rewrite get_bind. unfold mbind, M_bind, lift. destruct (fl (getdata s)) as [f| |] eqn:E; [|done..].
  cbn. unfold written_in_bounds. cbn. apply Forall_app. split; [exact Hs|by eapply Hf].
Qed.

Lemma keeps_loop n t irow rgf upd : t ≠ SQL_FETCH_BOOKMARK → ∀ i r res rb e, 0 ≤ i → i + Z.of_nat n ≤ array_size o →
  preserves written_in_bounds (fetch_loop n t irow rgf upd i r res rb e).
Proof.
  intros Ht. induction n as [|n IH]; intros i r res rb e Hi Hn; [apply preserves_ret|]. cbn [fetch_loop]. rewrite (proj2 (Z.eqb_neq _ _) Ht). cbn [andb].
  apply preserves_bind; [apply keeps_next_values|]. intros [[values save]|]; [|apply preserves_ret]. apply preserves_bind; [apply preserves_ret|]. intros rb'.
  apply preserves_bind; [|intros rr; apply preserves_bind; [apply keeps_emit, status_bounds; lia|intros _; apply IH; lia]].
  apply keeps_fill. intros g f Ef. assert (to_uint32 i = i) as Eu by (unfold to_uint32; apply Z.mod_small; lia). rewrite Eu in Ef.
  apply (fill_columns_bounds i _ _ _ _ Hcols (λ c Hc, Hc) ltac:(lia) Ef). constructor.
Qed.

Lemma loop_index n t irow rgf upd : ∀ i r res rb e s i' res' e' s', fetch_loop n t irow rgf upd i r res rb e s = (Ok (i', res', e'), s') → i ≤ i'.
Proof.
  induction n as [|n IH]; intros i r res rb e s i' res' e' s'; cbn [fetch_loop]; [by intros [= <- _ _ _]|].
  intros (x & s1 & _ & E)%bind_inv_Ok. destruct x as [[values save]|]; [|by injection E as <- _ _ _].
  apply bind_inv_Ok in E as (rb' & s2 & _ & E). apply bind_inv_Ok in E as (rr & s3 & _ & E). apply bind_inv_Ok in E as ([] & s4 & _ & E). apply IH in E. lia.
Qed.

Lemma keeps_end rgf upd i res e : 0 ≤ i → preserves written_in_bounds (end_fetch rgf upd i res e).
Proof.
  intros Hi. unfold end_fetch. apply preserves_bind; [by apply keeps_modify|]. intros _.
  apply preserves_bind; [destruct (_ && _); [|apply preserves_ret]; apply keeps_emit; by repeat constructor|]. intros _.
  apply preserves_bind; [|intros _; keeps]. apply keeps_emit, Forall_forall. intros x Hx. apply list_elem_of_bind in Hx as (j & Hx & Hj).
  apply elem_of_seqZ in Hj. revert x Hx. apply Forall_forall, status_bounds. lia.
Qed.

(** C23: whatever the server answers, and wherever the cursor is, a call that fetches rows
    writes values and lengths only to the elements of the arrays that are bound to the
    columns, with the numbers of the rows of a rowset, and the status of rows only to
    that many elements of the arrays for it: nothing that has been written before or
    after is outside.  This is for columns whose C types have a size of their own, bound
    with that size, and fetches without bookmarks. *)
Theorem fetch_in_bounds fFetchType irow rgf upd : fFetchType ≠ SQL_FETCH_BOOKMARK → preserves written_in_bounds (my_SQLExtendedFetch fFetchType irow rgf upd).
Proof.
  intros Ht. unfold my_SQLExtendedFetch. apply preserves_catch. intros s Hs. apply bind_keeps; [by apply keeps_start|]. intros [[n r]|r] s1 E H1; [|exact H1].
  apply start_le in E. destruct (n =? 0).
  - revert s1 H1. change (preserves written_in_bounds (modify (with_found 0);; (if upd && has_processed o then modify (emit [W_processed 0]) else mret tt);; mret (SQL_NO_DATA_FOUND, Some 0) : run (Z * option Z))).
    apply preserves_bind; [by apply keeps_modify|]. intros _. apply preserves_bind; [|intros _; apply preserves_ret]. destruct (_ && _); [|apply preserves_ret]. apply keeps_emit. by repeat constructor.
  - apply bind_keeps; [by apply keeps_loop; [|lia..|]|]. intros [[i res] e] s2 E2 H2. apply loop_index in E2.
    apply bind_keeps; [by apply keeps_end|]. intros r' s3 _ H3. exact H3.
Qed.
End Bounds.
End Fetch.

(** ** A result that is a list *)

(** A stored result of the client library: its rows, and the number of the next one. *)
Record stored_result {double : Type} := Stored { all_rows : list (list (@cell double)); next_row : nat }.
Arguments stored_result : clear implicits.
Arguments Stored {double}.

#[export] Instance list_results {double} : @Results double (stored_result double) (option nat) := {
  client_num_rows c := Z.of_nat (length (all_rows c));
  client_fetch c := match all_rows c !! next_row c with Some r => (Row r, Stored (all_rows c) (S (next_row c))) | None => (No_more, c) end;
  client_data_seek z c := Stored (all_rows c) (if (0 <=? z) && (z <? Z.of_nat (length (all_rows c))) then Z.to_nat z else length (all_rows c));
  client_row_seek e c := (Some (next_row c), Stored (all_rows c) (default (length (all_rows c)) e));
  client_row_tell c := Some (next_row c);
  null_offset := None;
  client_query _ _ := None
}.

#[export] Instance list_stored {double} : @StoredResults double (stored_result double) (option nat) _.
Proof.
  refine {| at_row c rows n := all_rows c = rows ∧ next_row c = n; points e rows n := e = Some n |}.
  - by intros c rows n [<- <-].
  - intros c rows n r [<- <-] Hr. cbn. rewrite Hr. by eexists.
  - intros c rows n m [<- <-] Hm. split; [done|]. cbn. rewrite (proj2 (Z.leb_le 0 _)), (proj2 (Z.ltb_lt _ _)) by lia. cbn. lia.
  - intros c rows n z [<- <-]. by eexists.
  - by intros c rows n [<- <-].
  - intros c rows n e m [<- <-] ->. by eexists.
  - intros c rows n [<- <-]. by eexists _, _.
Defined.

(** ** Concrete results *)

Module FetchExamples.
Import ColumnExamples.
Definition k : @conversions () :=
  Conversions (λ _, ()) id one_byte to_byte false (λ n, [n]) false (λ _, (2024, 5, 6)) env options.
Abbreviation stmt := (@STMT () (stored_result ()) (option nat)).
Definition number (v : option str) : list (@cell ()) := [Cell text v].
(** One column of numbers, bound to four bytes a row from 1000 on, with or without
    indicators from 2000 on. *)
Definition int_column (ind : bool) : Fetch.column :=
  Col (column MYSQL_TYPE_LONG 11 NUM_FLAG) SQL_INTEGER 4 SQL_C_SLONG (Some 1000) 4 (if ind then Some 2000 else None) (0, 0).
Definition set (ind : bool) (cursor size : Z) : settings :=
  Settings false cursor false false size 0 false (Binding None 0 [int_column ind]) None true true None.
Definition start (rows : list (option str)) : stmt :=
  Stmt (Some (Stored (number <$> rows) 0)) None None [] None None (new_scroller (λ _, Ascii.zero)) 0 0 (-1) OPS_UNKNOWN fresh None [].
Definition no_execute : M stmt Z := mret SQL_ERROR.
Definition fetch (ind : bool) (size : Z) (n : nat) (rows : list (option str)) : res (list Z) * stmt := fetches k (set ind 0 size) no_execute n (start rows).
Definition scroll (size : Z) (calls : list (Z * Z)) (rows : list (option str)) : res (list Z) * stmt :=
  foldl (λ out c, match out with
                  | (Ok l, s) => let '(r, s) := SQLFetchScroll k (set true 3 size) no_execute c.1 c.2 None s in (r ← r; Ok (l ++ [r]), s)
                  | _ => out end) (Ok [], start rows) calls.
(** The numbers that have been written, with their places. *)
Definition numbers (s : stmt) : list (Z * Z) := omap (λ e, match e with W_value a (S_int _ z) => Some (a, z) | _ => None end) (effects s).

(** Rowsets of two rows of five. *)
Example three_rowsets : let '(r, s) := fetch true 2 4 (Some <$> [S!"10"; S!"11"; S!"12"; S!"13"; S!"14"]) in
  r = Ok [0; 0; 0; 100] ∧ numbers s = [(1000, 10); (1004, 11); (1000, 12); (1004, 13); (1000, 14)].
Proof. by vm_compute. Qed.

(** A row that cannot be converted, here a null without a place for its indicator: the
    place behind the rowset is not noted, and the row is read again in the place of all
    that follow. *)
Example stuck_behind_error : let '(r, s) := fetch false 1 5 [Some (S!"10"); None; Some (S!"12"); Some (S!"13")] in
  r = Ok [0; -1; -1; -1; 100] ∧ numbers s = [(1000, 10)] ∧ current_row s = 4.
Proof. by vm_compute. Qed.

(** Both rows of a rowset fail, and the call succeeds. *)
Example all_rows_fail : (fetch false 2 1 [None; None]).1 = Ok [1].
Proof. by vm_compute. Qed.

(** The last rowset of a result that is shorter than a rowset, and the one before the
    second row. *)
Example last_of_few : (scroll 3 [(SQL_FETCH_LAST, 0)] (Some <$> [S!"10"; S!"11"])).1 = Ok [100].
Proof. by vm_compute. Qed.
Example prior_of_few : (scroll 2 [(SQL_FETCH_ABSOLUTE, 2); (SQL_FETCH_PRIOR, 0)] (Some <$> [S!"10"; S!"11"; S!"12"])).1 = Ok [0; 100].
Proof. by vm_compute. Qed.

(** A cursor that has not been used counts as one that is at the first row. *)
Example relative_first : let '(r, s) := scroll 1 [(SQL_FETCH_RELATIVE, 1)] (Some <$> [S!"10"; S!"11"]) in r = Ok [0] ∧ numbers s = [(1000, 11)].
Proof. by vm_compute. Qed.

(** A bookmark that is bound has the number of the row from 1 on; a fetch counts it from
    0 on, so that it goes to the row behind the one whose bookmark it is given. *)
Definition bookmark_set : settings :=
  Settings false 3 false false 1 SQL_UB_VARIABLE false (Binding None 0 [int_column true]) (Some (Fetch.Col (column MYSQL_TYPE_LONGLONG 20 NUM_FLAG) 0 8 SQL_C_UBIGINT (Some 5000) 8 None (0, 0))) true true None.
Definition by_bookmark (b : Z) : res Z * stmt :=
  SQLFetchScroll k bookmark_set no_execute SQL_FETCH_BOOKMARK 0 (Some b) (start (Some <$> [S!"10"; S!"11"; S!"12"; S!"13"])).
Example bookmark_of_next_row :
  (let '(r, s) := by_bookmark 1 in r = Ok 0 ∧ numbers s = [(5000, 2); (1000, 11)]) ∧ (let '(r, s) := by_bookmark 2 in r = Ok 0 ∧ numbers s = [(5000, 3); (1000, 12)]).
Proof. by vm_compute. Qed.

(** A bookmark as wide characters is overwritten with a number of one byte; as a text of
    as many characters as the buffer has bytes it is ended behind the buffer. *)
Example bookmark_as_wide_text :
  f_effects <$> (match sql_get_bookmark_data k text SQL_C_WCHAR (Some 1000) 8 None (S!"12") None fresh with Ok f => Some f | _ => None end) =
  Some [W_value 1000 (S_wide [49; 50; 0]); W_value 1000 (S_int 1 12)].
Proof. by vm_compute. Qed.
Example bookmark_behind_buffer :
  f_effects <$> (match sql_get_bookmark_data k text SQL_C_CHAR (Some 1000) 8 None (S!"12345678") None fresh with Ok f => Some f | _ => None end) =
  Some [W_value 1000 (S_bytes (S!"12345678")); W_value 1008 (S_bytes [Ascii.zero])].
Proof. by vm_compute. Qed.
End FetchExamples.

Module FetchWitness.
Import FetchExamples.
Definition five : list (option str) := Some <$> [S!"10"; S!"11"; S!"12"; S!"13"; S!"14"].

Lemma started rows : cursor_at (number <$> rows) (start rows).
Proof. split; cbn; [by eexists _, _|done|lia|done|intros _; left; lia|by left|lia]. Qed.

Lemma scrolling_set : scrolls (set true 3 2).
Proof. by repeat split. Qed.
Lemma forward_set : scrolls (set true 0 2).
Proof. by repeat split. Qed.

(** Numbers of a few digits are converted whatever has been read before. *)
Lemma numbers_convert : converts k (set true 0 2) (number <$> five)
  (λ r i, match r with Cell _ (Some v) :: _ => [W_value (to_uint64 (1000 + to_uint64 (4 * i))) (S_int 4 (to_int32 (strtoll (c_str v)))); W_indicator (to_uint64 (2000 + to_uint64 (8 * i))) 4] | _ => [] end)
  (λ _, SQL_SUCCESS).
Proof.
  intros r i g Hr. unfold five in Hr. cbn [fmap list_fmap] in Hr. repeat (apply elem_of_cons in Hr as [-> | Hr]; [by eexists|]). by apply elem_of_nil in Hr.
Qed.
End FetchWitness.

Lemma fetch_scroll_spec_witness :
  ∃ s', SQLFetchScroll FetchExamples.k (FetchExamples.set true 3 2) FetchExamples.no_execute SQL_FETCH_LAST 0 None (FetchExamples.start FetchWitness.five) = (Ok SQL_SUCCESS, s') ∧
    current_row s' = 3 ∧ rows_found_in_set s' = 2.
Proof.
  destruct (fetch_scroll_spec FetchExamples.k (FetchExamples.set true 3 2) FetchExamples.no_execute (FetchExamples.number <$> FetchWitness.five) (FetchExamples.start FetchWitness.five) SQL_FETCH_LAST 0)
    as [_ H]; [apply FetchWitness.started|apply FetchWitness.scrolling_set|done|done|apply (bool_decide_unpack _); vm_compute; exact I|done|done|by right; left|].
  destruct (H _ eq_refl) as (s' & E & Hr & Hf & _). exists s'. split; [exact E|]. split; [exact Hr|exact Hf].
Defined.

Lemma fetches_deliver_witness :
  ∃ s', fetches FetchExamples.k (FetchExamples.set true 0 2) FetchExamples.no_execute 4 (FetchExamples.start FetchWitness.five) = (Ok [0; 0; 0; 100], s').
Proof.
  destruct (fetches_deliver FetchExamples.k (FetchExamples.set true 0 2) FetchExamples.no_execute (FetchExamples.number <$> FetchWitness.five) _ _ (FetchExamples.start FetchWitness.five) 4
    FetchWitness.numbers_convert FetchWitness.forward_set) as [(s' & E & _) _]; [done|done|done|apply FetchWitness.started|done|done|].
  exists s'. exact E.
Defined.

Lemma fetch_in_bounds_witness :
  Forall (in_bounds (FetchExamples.set true 0 2))
    (effects (SQLFetch FetchExamples.k (FetchExamples.set true 0 2) FetchExamples.no_execute (FetchExamples.start FetchWitness.five)).2).
Proof.
  pose proof (fetch_in_bounds FetchExamples.k (FetchExamples.set true 0 2) FetchExamples.no_execute) as H.
  assert (effects (SQLFetch FetchExamples.k (FetchExamples.set true 0 2) FetchExamples.no_execute (FetchExamples.start FetchWitness.five)).2 =
    effects (my_SQLExtendedFetch FetchExamples.k (FetchExamples.set true 0 2) FetchExamples.no_execute SQL_FETCH_NEXT 0 true false (FetchExamples.start FetchWitness.five)).2 ++ [W_rows 2]) as -> by by vm_compute.
  apply Forall_app. split; [|by repeat constructor].
  apply H; [|done| |done|].
  - apply Forall_singleton. split; [apply (bool_decide_unpack _); vm_compute; exact I|done].
  - by intros s Hs.
  - constructor.
Defined.
