(* ===== verification/SetPos.v ===== *)
(** Positioned updates (src/driver/cursor.cc): SQLSetPos and SQLBulkOperations, the
    statements that they send for the rows of a rowset. *)

From S2P Require Import Prelude CppString HostList FailoverHandler Numeric Errors Descriptors GetData DateTime TempBuf Params Scroller Types Column Fetch.

Local Open Scope Z_scope.

Definition SQL_POSITION : Z := 0.
Definition SQL_REFRESH : Z := 1.
Definition SQL_UPDATE : Z := 2.
Definition SQL_DELETE : Z := 3.
Definition SQL_ADD : Z := 4.
Definition SQL_UPDATE_BY_BOOKMARK : Z := 5.
Definition SQL_DELETE_BY_BOOKMARK : Z := 6.
Definition SQL_FETCH_BY_BOOKMARK : Z := 7.
Definition SQL_LOCK_NO_CHANGE : Z := 0.
Definition SQL_ROW_DELETED : Z := 1.
Definition SQL_ROW_UPDATED : Z := 2.
Definition SQL_ROW_ADDED : Z := 4.
Definition SQL_NEED_DATA : Z := 99.
Definition ER_ALL_COLUMNS_IGNORED : Z := 537.
Definition MY_MAX_PK_PARTS : nat := 32.
Definition DAE_NORMAL : Z := 1.
Definition DAE_SETPOS_INSERT : Z := 2.
Definition DAE_SETPOS_UPDATE : Z := 3.
Definition DAE_SETPOS_DONE : Z := 10.
Definition sql_select_unlimited : Z := 2 ^ 64 - 1.

(** A table that the server has sent: the names and types of its columns, and its rows. *)
Record table := Table { t_fields : list (str * field_type); t_rows : list (list (option str)) }.

(** What the statements of this file use of a connection of type [D]: DBC::execute_query,
    which is in FailoverHandler, the result that is stored of the last query, the
    number of rows that it has changed, and the state of the error of the connection. *)
Class Connection (D : Type) := {
  run_query : str → D → Z * D;
  store_result : D → option table * D;
  affected_rows : D → Z;
  set_affected_rows : Z → D → D;
  error_state_of : D → option str
}.

(** What Fetch does not say of a result: the row in the buffers that are bound to a
    prepared statement, which was fetched last. *)
Class BoundRow (double C : Type) := bound_row : C → option (list (@cell double)).

(** [src/driver/utility.cc:2470-2476] myodbc_append_quoted_name_std

    A null pointer is read through. *)
Definition myodbc_append_quoted_name_std (s : str) (name : option str) : res str :=
  match name with Some n => Ok (s ++ S!"`" ++ n ++ S!"`") | None => UB end.

(** The names of a column of a result, beside its field: its name and table in the
    server, which may be null, the table in the query, and the schema. *)
Record field_names := Names { org_name : option str; org_table : option str; in_table : str; db : str }.

(** What [insert_param] relies on, see Params. *)
Record insert_env (float : Type) := InsertEnv {
  n_d2str : float → bool → str; n_uninitialised : nat → ascii; n_object_bytes : c_data float → list Z; n_stack : list Z; n_room : str; n_escape : str → str; n_cxn_charset : Z;
  n_ansi_charset : Z; n_NO_DATE_OVERFLOW : bool; n_MIN_DATE_TO_ZERO : bool; n_NO_LOCALE : bool; n_thousands_sep : str; n_decimal_point : str;
  n_no_backslashes : bool; n_utf8mb4 : bool }.
Arguments n_d2str {float}. Arguments n_uninitialised {float}. Arguments n_object_bytes {float}. Arguments n_stack {float}. Arguments n_room {float}. Arguments n_escape {float}.
Arguments n_cxn_charset {float}. Arguments n_ansi_charset {float}. Arguments n_NO_DATE_OVERFLOW {float}. Arguments n_MIN_DATE_TO_ZERO {float}.
Arguments n_NO_LOCALE {float}. Arguments n_thousands_sep {float}. Arguments n_decimal_point {float}. Arguments n_no_backslashes {float}.
Arguments n_utf8mb4 {float}.

(** The memory of the application: what a pointer to a value of a C type gives, the
    [SQLLEN] at an address, the text there, and what [strlen] says of it.  The last
    member gives the value of a C type that is in some bytes. *)
Record memory (float : Type) := Memory {
  m_data : Z → Z → c_data float; m_len : Z → Z; m_text : Z → str; m_strlen : Z → Z; m_cast : Z → str → c_data float }.
Arguments m_data {float}. Arguments m_len {float}. Arguments m_text {float}. Arguments m_strlen {float}. Arguments m_cast {float}.

(** [src/driver/driver.h:719-729] MYCURSOR

    The count of [pkcol] is its length; that columns have been bound is noted and not
    looked at. *)
Record MYCURSOR := Cursor { cursor_name : str; pkcol : list str; pk_validated : bool }.

(** A record of the descriptor [setpos_apd], the copy of a record of the application:
    its type, whether its data come at execution, and what has come; [None] is a
    buffer without memory. *)
Record apd_rec := Apd { ap_type : Z; is_dae : bool; par : option str }.

(** [src/driver/driver.h:1052-1065] STMT

    The members for data at execution. *)
Record dae_state := Dae { dae_type : Z; setpos_apd : option (list apd_rec); current_param : nat; setpos_row : Z; setpos_lock : Z }.

Section SetPos.
Context {double float C place D : Type} `{!@Results double C place} `{!BoundRow double C} `{!Connection D}.
Context (k : @conversions double) (my_SQLExecute : M (@STMT double C place) Z) (n : insert_env float) (mem : memory float) (text_protocol : @Protocol double).
(** The columns of the result; the number of records of the descriptor of the
    application, which may be less; the options of the statement: whether SQLExtendedFetch has
    left a pointer for the status of rows, and the limit of rows; and what the descriptor of parameters adds to
    pointers. *)
Context (names : list field_names) (ard_count : nat) (status_ex : bool) (max_rows apd_offset : Z).

(** A statement: what fetching uses, its settings, the connection and its limit of
    rows, and the members of this file.  [sent] has the queries in the order in which
    they were sent. *)
Record POS := Pos {
  stm : @STMT double C place; opts : settings; conn : D; sent : list str; select_limit : Z; table_name : str; cursor : MYCURSOR;
  buffer : tempBuf; affected : Z; dae : dae_state; bookmark_added : bool }.

Definition with_stm t (s : POS) : POS := Pos t (opts s) (conn s) (sent s) (select_limit s) (table_name s) (cursor s) (buffer s) (affected s) (dae s) (bookmark_added s).
Definition with_opts o (s : POS) : POS := Pos (stm s) o (conn s) (sent s) (select_limit s) (table_name s) (cursor s) (buffer s) (affected s) (dae s) (bookmark_added s).
Definition with_conn c (s : POS) : POS := Pos (stm s) (opts s) c (sent s) (select_limit s) (table_name s) (cursor s) (buffer s) (affected s) (dae s) (bookmark_added s).
Definition with_sent l (s : POS) : POS := Pos (stm s) (opts s) (conn s) l (select_limit s) (table_name s) (cursor s) (buffer s) (affected s) (dae s) (bookmark_added s).
Definition with_select_limit z (s : POS) : POS := Pos (stm s) (opts s) (conn s) (sent s) z (table_name s) (cursor s) (buffer s) (affected s) (dae s) (bookmark_added s).
Definition with_table t (s : POS) : POS := Pos (stm s) (opts s) (conn s) (sent s) (select_limit s) t (cursor s) (buffer s) (affected s) (dae s) (bookmark_added s).
Definition with_cursor c (s : POS) : POS := Pos (stm s) (opts s) (conn s) (sent s) (select_limit s) (table_name s) c (buffer s) (affected s) (dae s) (bookmark_added s).
Definition with_buffer b (s : POS) : POS := Pos (stm s) (opts s) (conn s) (sent s) (select_limit s) (table_name s) (cursor s) b (affected s) (dae s) (bookmark_added s).
Definition with_affected z (s : POS) : POS := Pos (stm s) (opts s) (conn s) (sent s) (select_limit s) (table_name s) (cursor s) (buffer s) z (dae s) (bookmark_added s).
Definition with_dae d (s : POS) : POS := Pos (stm s) (opts s) (conn s) (sent s) (select_limit s) (table_name s) (cursor s) (buffer s) (affected s) d (bookmark_added s).
Definition with_added b (s : POS) : POS := Pos (stm s) (opts s) (conn s) (sent s) (select_limit s) (table_name s) (cursor s) (buffer s) (affected s) (dae s) b.

Abbreviation pos := (M POS).

(** A step of Fetch, with the settings of the moment. *)
Definition on_stmt {A} (m : settings → M (@STMT double C place) A) : pos A := λ s, let '(r, t) := m (opts s) (stm s) in (r, with_stm t s).
Definition error_state (state : str) : pos unit := modify (λ s, with_stm (with_error (Some state) (stm s)) s).
Definition fails (state : str) : pos Z := error_state state;; mret SQL_ERROR.
Definition emits (l : list (@effect double)) : pos unit := modify (λ s, with_stm (emit l (stm s)) s).
Definition fields : pos (list column) := s ← get; mret (columns (bound (opts s))).

(** ** Queries *)

(** DBC::execute_query, noted. *)
Definition execute (q : str) : pos Z :=
  s ← get;
  let '(rc, c) := run_query q (conn s) in
  modify (λ s, with_sent (sent s ++ [q]) (with_conn c s));;
  mret rc.

(** [src/driver/utility.cc:3150-3175] set_sql_select_limit *)
Definition set_sql_select_limit (lim_value : Z) : pos Z :=
  s ← get;
  if (lim_value =? select_limit s) || ((lim_value =? sql_select_unlimited) && (select_limit s =? 0)) then mret SQL_SUCCESS
  else
    let limited := (0 <? lim_value) && (lim_value <? sql_select_unlimited) in
    rc ← execute (S!"set @@sql_select_limit=" ++ if limited then to_string lim_value else S!"DEFAULT");
    (if SQL_SUCCEEDED rc then modify (with_select_limit (if limited then lim_value else 0)) else mret tt);;
    mret rc.

(** [src/driver/utility.cc:57-84] exec_stmt_query, exec_stmt_query_std *)
Definition exec_stmt_query (q : str) : pos Z :=
  rc ← set_sql_select_limit max_rows;
  if negb (SQL_SUCCEEDED rc) then mret rc
  else modify (λ s, with_buffer (TempBuf.reset (buffer s)) s);; execute q.

(** A query and its stored result. *)
Definition query_table (q : str) : pos (option table) :=
  rc ← exec_stmt_query q;
  if negb (rc =? 0) then mret None
  else s ← get; let '(t, c) := store_result (conn s) in modify (with_conn c);; mret t.

(** ** The table and its key *)

(** [src/driver/cursor.cc:70-106] find_used_table

    The loop: [None] when the columns are not of one table. *)
Fixpoint used_table (found : option str) (fs : list field_names) : option (option str) :=
  match fs with
  | [] => Some found
  | f :: fs =>
    match org_table f with
    | None => used_table found fs
    | Some t =>
      let first := default t found in
      if bool_decide (t = first) then used_table (Some first) fs else None
    end
  end.

(** [src/driver/cursor.cc:70-106] find_used_table *)
Definition find_used_table : pos (option str) :=
  s ← get;
  if negb (bool_decide (table_name s = [])) then mret (Some (table_name s)) else
  match used_table None names with
  | None => error_state (S!"HY000");; mret None
  | Some (Some t) => modify (with_table t);; mret (Some t)
  | Some None => mret None
  end.

(** [src/driver/cursor.cc:179-198] have_field_in_result *)
Definition have_field_in_result (name : option str) : bool := existsb (λ f, myodbc_strcasecmp_eq name (org_name f)) names.

(** [src/driver/cursor.cc:244-271] check_if_usable_unique_key_exists

    The rows of SHOW KEYS. *)
Fixpoint scan_keys (rows : list (list (option str))) (seq_in_index : Z) (pk : list str) : res (list str) :=
  match rows with
  | [] => Ok pk
  | row :: rows =>
    if bool_decide (MY_MAX_PK_PARTS ≤ length pk)%nat then Ok pk else
    match row with
    | _ :: Some non_unique :: _ :: Some seq :: column :: _ =>
      let seq := to_int32 (atol (c_str seq)) in
      if seq <=? seq_in_index then Ok pk
      else if bool_decide (head non_unique = Some "1"%char) then scan_keys rows seq_in_index pk
      else if negb (seq =? seq_in_index + 1) then scan_keys rows seq_in_index pk
      else if have_field_in_result column then
        match column with Some c => scan_keys rows seq (pk ++ [c]) | None => UB end
      else scan_keys rows 0 []
    | _ => UB
    end
  end.

(** [src/driver/cursor.cc:210-278] check_if_usable_unique_key_exists *)
Definition check_if_usable_unique_key_exists : pos bool :=
  s ← get;
  if pk_validated (cursor s) then mret (negb (bool_decide (pkcol (cursor s) = []))) else
  f ← deref (head names);
  t ← query_table (S!"SHOW KEYS FROM `" ++ n_escape n (default (in_table f) (org_table f)) ++ S!"`");
  match t with
  | None => error_state (S!"HY000");; mret false
  | Some t =>
    pk ← lift (scan_keys (t_rows t) 0 (pkcol (cursor s)));
    modify (λ s, with_cursor (Cursor (cursor_name (cursor s)) pk true) s);;
    mret (negb (bool_decide (pk = [])))
  end.

(** ** Values *)

(** [insert_param] with the buffer of the statement, for a parameter whose pointers are to
    variables of the caller; what the descriptor of parameters adds to pointers makes
    them wild.  There is no bind, so that it is not asked whether SQLSetPos is running. *)
Definition insert_one (p : param float) : pos Z :=
  s ← get;
  if negb (apd_offset =? 0) then undefined else
  let '(r, i) := insert_param (n_d2str n) (n_uninitialised n) (n_object_bytes n) (n_stack n) (n_room n) (n_escape n) (n_cxn_charset n) (n_ansi_charset n)
    (n_NO_DATE_OVERFLOW n) (n_MIN_DATE_TO_ZERO n) (n_NO_LOCALE n) (n_thousands_sep n) (n_decimal_point n) (n_no_backslashes n) (n_utf8mb4 n)
    (k_options k) (ssps (opts s)) false p 0 (Insertion (buffer s) None (Fetch.getdata (stm s)) None) in
  modify (λ s, with_buffer (tempbuf i) (with_stm (with_error (match err i with Some e => Some e | None => error (stm s) end)
    (with_getdata (Params.getdata i) (stm s))) s));;
  lift r.

Definition add_text (t : str) : pos unit := s ← get; b ← lift (add_to_buffer (n_uninitialised n) t (buffer s)); modify (with_buffer b).

(** What is in the buffer, which is emptied. *)
Definition take_buffer : pos str := s ← get; modify (with_buffer (TempBuf.reset (buffer s)));; mret (content (buffer s)).

(** A pointer to data: null, to the application, or to the data of a record. *)
Inductive pointer := Null | App (a : Z) | Data (s : str).
Definition to_app (p : option Z) : pointer := match p with Some a => App a | None => Null end.
Definition to_par (p : option str) : pointer := match p with Some s => Data s | None => Null end.

(** [strlen] of what it points to; the memory behind the data of a record is not set. *)
Definition strlen (p : pointer) : res Z :=
  match p with
  | Null => UB
  | App a => Ok (m_strlen mem a)
  | Data s => if bool_decide (Ascii.zero ∈ s) then Ok (Z.of_nat (length (c_str s))) else UB
  end.
Definition data_at (concise : Z) (p : pointer) : option (c_data float) :=
  match p with Null => None | App a => Some (m_data mem concise a) | Data s => Some (m_cast mem concise s) end.

(** The parameter for a value: lengths and indicators point to [len]. *)
Definition value_param (concise ty : Z) (p : pointer) (len : Z) (dae : option str) (i_concise i_ty i_prec i_scale : Z) : param float :=
  Param float concise ty 0 (λ _, data_at concise p) (data_at concise p) (Some (λ _, len)) (Some (λ _, len))
    ((λ s, (m_cast mem concise s, Z.of_nat (length s))) <$> dae) i_concise i_ty i_prec i_scale.

(** [src/driver/cursor.cc:415-437] copy_rowdata

    The length of the parameter; memory is not short. *)
Definition copy_rowdata (p : param float) (len : Z) : pos Z :=
  s ← get;
  b ← lift (extend_buffer (n_uninitialised n) (Z.to_nat (if 0 <? len then len + 1 else 7)) (buffer s));
  modify (with_buffer b);;
  rc ← insert_one p;
  if negb (SQL_SUCCEEDED rc) then mret rc
  else
    s ← get;
    b ← lift (remove_trail_zeroes (buffer s));
    modify (with_buffer b);;
    add_text (S!",");;
    mret SQL_SUCCESS.

(** ** The WHERE clause *)

(** The row that the data of the cursor are taken from: the one in the bound buffers, or
    the one at the place of the result. *)
Definition cursor_data : pos (list (@cell double)) :=
  s ← get;
  c ← deref (client (stm s));
  if ssps (opts s) then deref (bound_row c) else match (client_fetch c).1 with Row r => mret r | _ => undefined end.

(** The text of a value, a C string, or null. *)
Definition cell_text (x : @cell double) : res (option str) :=
  let P := protocol x in
  if @is_null _ P (value x) then Ok None else t ← @get_string _ P (default [] (value x)); Ok (Some t.2).

(** [src/driver/cursor.cc:445-497] insert_field_std

    The condition for a column, behind its name and an equals sign; the first of the
    results is true when it fails. *)
Definition insert_field_std (str_ : str) (nSrcCol : nat) : pos (bool * str) :=
  s ← get;
  c ← deref (columns (bound (opts s)) !! nSrcCol);
  row ← cursor_data;
  x ← deref (row !! nSrcCol);
  t ← lift (cell_text x);
  match t with
  | Some t =>
    let length := Z.of_nat (length (c_str t)) in
    rc ← insert_one (Param float SQL_C_CHAR SQL_C_DEFAULT 0 (λ _, Some (Bytes t)) (Some (Bytes t)) (Some (λ _, length)) (Some (λ _, length)) None
                       (get_sql_data_type (k_env k) (field_ c)).1 0 0 0);
    if negb (SQL_SUCCEEDED rc) then mret (true, str_)
    else add_text (S!" AND ");; b ← take_buffer; mret (false, str_ ++ b)
  | None => mret (false, take (length str_ - 1) str_ ++ S!" IS NULL AND ")
  end.

(** [src/driver/cursor.cc:516-534] insert_pk_fields_std

    The columns of the result from number [ncol] on; how many of them are in the key,
    or nothing when one fails. *)
Fixpoint pk_conditions (fs : list field_names) (ncol : nat) (str_ : str) (pk_count : nat) : pos (option (nat * str)) :=
  match fs with
  | [] => mret (Some (pk_count, str_))
  | f :: fs =>
    s ← get;
    if existsb (λ c, myodbc_strcasecmp_eq (Some c) (org_name f)) (pkcol (cursor s)) then
      q ← lift (myodbc_append_quoted_name_std str_ (org_name f));
      r ← insert_field_std (q ++ S!"=") ncol;
      if r.1 : bool then mret None else pk_conditions fs (S ncol) r.2 (S pk_count)
    else pk_conditions fs (S ncol) str_ pk_count
  end.

(** [src/driver/cursor.cc:507-546] insert_pk_fields_std *)
Definition insert_pk_fields_std (str_ : str) : pos (Z * str) :=
  r ← pk_conditions names 0 str_ 0;
  match r with
  | None => mret (SQL_ERROR, str_)
  | Some (pk_count, q) =>
    s ← get;
    if bool_decide (pk_count = length (pkcol (cursor s))) then mret (SQL_SUCCESS, q) else error_state (S!"HY000");; mret (SQL_ERROR, q)
  end.

(** [src/driver/cursor.cc:603-648] append_all_fields_std

    The columns of the table; the first column of the result of the name is taken. *)
Fixpoint all_conditions (ts : list (str * field_type)) (str_ : str) : pos (option str) :=
  match ts with
  | [] => mret (Some str_)
  | (name, ty) :: ts =>
    if bool_decide (ty = MYSQL_TYPE_FLOAT) || bool_decide (ty = MYSQL_TYPE_DOUBLE) || bool_decide (ty = MYSQL_TYPE_DECIMAL) then
      error_state (S!"HY000");; mret None
    else
      match list_find (λ f, org_name f = Some name) names with
      | None => mret None
      | Some (j, _) =>
        q ← lift (myodbc_append_quoted_name_std str_ (Some name));
        r ← insert_field_std (q ++ S!"=") j;
        if r.1 : bool then mret None else all_conditions ts r.2
      end
  end.

(** [src/driver/cursor.cc:555-652] append_all_fields_std *)
Definition append_all_fields_std (str_ : str) : pos (Z * str) :=
  t ← find_used_table;
  match t with
  | None => mret (SQL_ERROR, str_)
  | Some table_name =>
    t ← query_table (S!"SELECT * FROM `" ++ table_name ++ S!"` LIMIT 0");
    match t with
    | None => error_state (S!"HY000");; mret (SQL_ERROR, str_)
    | Some t =>
      if negb (bool_decide (length (t_fields t) = length names)) then mret (SQL_ERROR, str_)
      else r ← all_conditions (t_fields t) str_; match r with None => mret (SQL_ERROR, str_) | Some q => mret (SQL_SUCCESS, q) end
    end
  end.

(** [src/driver/cursor.cc:660-704] build_where_clause_std *)
Definition build_where_clause_std (str_ : str) (irow : Z) : pos (Z * str) :=
  on_stmt (λ o, set_current_cursor_data o irow);;
  let q := str_ ++ S!" WHERE " in
  key ← check_if_usable_unique_key_exists;
  '(rc, q) ← (if key : bool then insert_pk_fields_std q else append_all_fields_std q);
  if negb (rc =? SQL_SUCCESS) then
    (if key : bool then mret tt else error_state (S!"HY000"));; mret (SQL_ERROR, q)
  else
    s ← get;
    let q := if bool_decide (5 < length q)%nat then take (length q - 5) q else q in
    mret (SQL_SUCCESS, q ++ S!" LIMIT " ++ (if irow =? 0 then to_string (to_uint64 (array_size (opts s))) else S!"1")).

(** ** The SET clause *)

(** What the loop over the columns carries along: the length of the last column and the number of
    those that are ignored. *)
Record set_state := SetState { st_length : Z; st_ignored : nat; st_query : str }.

(** [src/driver/cursor.cc:733-812] build_set_clause_std

    One column, with a record [c] that may be there or not: the macro for records that are bound has no
    parentheses, so that its negation is false for a record that is there. *)
Definition set_column (irow : Z) (ncol : nat) (f : field_names) (c : column) (st : set_state) : pos (option set_state) :=
  s ← get;
  let ignore := Some (SetState (st_length st) (S (st_ignored st)) (st_query st)) in
  if negb (bool_decide (ncol < ard_count)%nat) then mret ignore else
  let o := opts s in
  let at_row (p : option Z) size := ptr_offset_adjust p (bind_offset (bound o)) (bind_type (bound o)) size irow in
  let pcbValue := m_len mem <$> at_row (octet_length_ptr c) 8 in
  if bool_decide (pcbValue = Some SQL_COLUMN_IGNORE) then mret ignore else
  let length := match pcbValue with
                | Some l => l
                | None => if bool_decide (concise_type_ c ∈ [SQL_CHAR; SQL_VARCHAR; SQL_LONGVARCHAR]) then SQL_NTS else st_length st
                end in
  q ← lift (myodbc_append_quoted_name_std (st_query st) (org_name f));
  apd ← match setpos_apd (dae s) with Some l => deref (l !! ncol) | None => mret (Apd SQL_C_DEFAULT false None) end;
  let ptr := if negb (dae_type (dae s) =? 0) && is_dae apd then to_par (par apd)
             else to_app (at_row (data_ptr c) (bind_length (concise_type_ c) (octet_length c))) in
  length ← (if length =? SQL_NTS then lift (strlen ptr) else mret length);
  rc ← copy_rowdata (value_param (concise_type_ c) (ap_type apd) ptr length (par apd) (get_sql_data_type (k_env k) (field_ c)).1 0
                       (ard_numeric c).1 (ard_numeric c).2) length;
  if negb (rc =? SQL_SUCCESS) then mret None
  else b ← take_buffer; mret (Some (SetState length (st_ignored st) (q ++ S!"=" ++ b))).

Fixpoint set_columns (irow : Z) (ncol : nat) (fs : list (field_names * column)) (st : set_state) : pos (option set_state) :=
  match fs with
  | [] => mret (Some st)
  | (f, c) :: fs => r ← set_column irow ncol f c st; match r with Some st => set_columns irow (S ncol) fs st | None => mret None end
  end.

(** [src/driver/cursor.cc:712-820] build_set_clause_std *)
Definition build_set_clause_std (irow : Z) (query : str) : pos (Z * str) :=
  cs ← fields;
  let irow := if irow =? 0 then 0 else irow - 1 in
  r ← set_columns irow 0 (zip names cs) (SetState 0 0 (query ++ S!" SET "));
  match r with
  | None => mret (SQL_ERROR, query)
  | Some st =>
    if bool_decide (st_ignored st = length names) then mret (ER_ALL_COLUMNS_IGNORED, st_query st)
    else mret (SQL_SUCCESS, take (length (st_query st) - 1) (st_query st))
  end.

(** ** The status of rows *)

(** [src/driver/cursor.cc:52-62] global_set_affected_rows *)
Definition global_set_affected_rows (rows : Z) : pos unit := modify (λ s, with_affected rows (with_conn (set_affected_rows rows (conn s)) s)).

(** The status of one row, in both arrays that are there. *)
Definition set_status (i v : Z) : pos unit :=
  s ← get;
  emits ((if status_ex then [W_status i v] else []) ++ (if has_status_ird (opts s) then [W_status_ird i v] else [])).
Definition set_statuses (rows v : Z) : pos unit :=
  s ← get;
  emits ((if has_status_ird (opts s) then (λ i, W_status_ird i v) <$> seqZ 0 rows else []) ++
         (if status_ex then (λ i, W_status i v) <$> seqZ 0 rows else [])).

(** [src/driver/cursor.cc:374-407] update_setpos_status *)
Definition update_setpos_status (irow rows status : Z) : pos Z :=
  global_set_affected_rows rows;;
  if negb (irow =? 0) && (1 <? rows) then error_state (S!"01S04");; mret SQL_SUCCESS_WITH_INFO
  else set_statuses rows status;; mret SQL_SUCCESS.

(** What a positioned statement, which is another one than the cursor, keeps of its
    execution: the rows affected, whether it has an array for the status of rows, its
    current row, the status and the error that are set, and whether it counts as executed. *)
Record positioned := Positioned { p_affected : Z; p_has_status : bool; p_current_row : Z; p_status : list (Z * Z); p_error : option str; p_executed : bool }.
Definition with_p_affected z (p : positioned) : positioned := Positioned z (p_has_status p) (p_current_row p) (p_status p) (p_error p) (p_executed p).
Definition with_p_error e (p : positioned) : positioned := Positioned (p_affected p) (p_has_status p) (p_current_row p) (p_status p) (Some e) (p_executed p).
Definition with_p_status l (p : positioned) : positioned := Positioned (p_affected p) (p_has_status p) (p_current_row p) l (p_error p) (p_executed p).

(** [src/driver/cursor.cc:344-366] update_status

    The array is written from the current row on. *)
Definition update_status (status : Z) (p : positioned) : Z * positioned :=
  if p_affected p =? 0 then (SQL_SUCCESS_WITH_INFO, with_p_error (S!"01S03") p)
  else if 1 <? p_affected p then (SQL_SUCCESS_WITH_INFO, with_p_error (S!"01S04") p)
  else (SQL_SUCCESS,
        if p_has_status p then with_p_status (p_status p ++ [(p_current_row p, status)]) p else p).

(** [src/driver/cursor.cc:829-847] my_pos_delete_std *)
Definition my_pos_delete_std (irow : Z) (str_ : str) (p : positioned) : pos (Z * positioned) :=
  '(rc, q) ← build_where_clause_std str_ irow;
  if negb (SQL_SUCCEEDED rc) then mret (rc, p)
  else
    rc ← exec_stmt_query q;
    s ← get;
    if SQL_SUCCEEDED rc then
      mret (update_status SQL_ROW_DELETED (with_p_affected (affected_rows (conn s)) p))
    else mret (rc, p).

(** ** Deleting and updating rows *)

(** The rows of the rowset that are asked for: all, but at least one, or the one with a
    number, and none of them is looked at before. *)
Definition rows_asked (irow rows_found : Z) : list Z := if irow =? 0 then seqZ 1 (1 `max` rows_found) else [irow].

(** [src/driver/cursor.cc:1120-1138] setpos_delete_std

    The rows in turn: the result of the last one, or of the one that ends the loop, with
    the number of rows that were deleted. *)
Fixpoint delete_rows (query : str) (rows : list Z) (count rc : Z) : pos (Z + Z * Z) :=
  match rows with
  | [] => mret (inr (rc, count))
  | r :: rows =>
    '(rc, q) ← build_where_clause_std query (to_uint16 r);
    if negb (SQL_SUCCEEDED rc) then mret (inl rc)
    else
      rc ← exec_stmt_query q;
      s ← get;
      delete_rows query rows (if rc =? 0 then to_uint64 (count + affected_rows (conn s)) else count) rc
  end.

(** After a deletion a dynamic cursor has fewer rows. *)
Definition rows_gone (count : Z) : pos unit :=
  s ← get;
  if is_dynamic_cursor (opts s) then modify (λ s, with_stm (with_found (to_uint32 (rows_found_in_set (stm s) - count)) (stm s)) s) else mret tt.

(** [src/driver/cursor.cc:1090-1152] setpos_delete_std *)
Definition setpos_delete_std (irow : Z) (query : str) : pos Z :=
  t ← find_used_table;
  match t with
  | None => mret SQL_ERROR
  | Some t =>
    query ← lift (myodbc_append_quoted_name_std query (Some t));
    s ← get;
    r ← delete_rows query (rows_asked irow (rows_found_in_set (stm s))) 0 SQL_SUCCESS;
    match r with
    | inl rc => mret rc
    | inr (rc, count) =>
      rc ← (if rc =? SQL_SUCCESS then update_setpos_status irow count SQL_ROW_DELETED else mret rc);
      rows_gone count;;
      mret rc
    end
  end.

(** [src/driver/cursor.cc:1281-1322] setpos_update_std

    A row whose columns are all ignored is passed when all rows are asked for. *)
Fixpoint update_rows (irow : Z) (query : str) (rows : list Z) (count rc : Z) : pos (Z + Z * Z) :=
  match rows with
  | [] => mret (inr (rc, count))
  | r :: rows =>
    '(rc, q) ← build_set_clause_std r query;
    if rc =? ER_ALL_COLUMNS_IGNORED then
      if irow =? 0 then update_rows irow query rows count SQL_SUCCESS else error_state (S!"21S02");; mret (inl SQL_ERROR)
    else if rc =? SQL_ERROR then mret (inl SQL_ERROR)
    else
      '(rc, q) ← build_where_clause_std q (to_uint16 r);
      if negb (SQL_SUCCEEDED rc) then mret (inl rc)
      else
        rc ← exec_stmt_query q;
        s ← get;
        if rc =? 0 then update_rows irow query rows (to_uint64 (count + affected_rows (conn s))) rc
        else if SQL_SUCCEEDED rc then update_rows irow query rows count rc
        else modify (λ s, with_stm (with_error (error_state_of (conn s)) (stm s)) s);; mret (inl rc)
  end.

(** [src/driver/cursor.cc:1255-1328] setpos_update_std *)
Definition setpos_update_std (irow : Z) (query : str) : pos Z :=
  t ← find_used_table;
  match t with
  | None => mret SQL_ERROR
  | Some t =>
    query ← lift (myodbc_append_quoted_name_std query (Some t));
    s ← get;
    r ← update_rows irow query (rows_asked irow (rows_found_in_set (stm s))) 0 SQL_SUCCESS;
    match r with
    | inl rc => mret rc
    | inr (rc, count) => if rc =? SQL_SUCCESS then update_setpos_status irow count SQL_ROW_UPDATED else mret rc
    end
  end.

(** ** Rows by their bookmarks *)

(** [IS_BOOKMARK_VARIABLE], and the record of the bookmark, of which it is not known
    whether it is there; it always counts as bound. *)
Definition bookmark_record : pos (option column) :=
  s ← get;
  if negb (bookmarks (opts s) =? SQL_UB_VARIABLE) then error_state (S!"HY092");; mret None
  else c ← deref (bookmark_column (opts s)); mret (Some c).

(** The number in the text of the bookmark of a row. *)
Definition bookmark_at (c : column) (row : Z) : pos Z :=
  s ← get;
  a ← deref (ptr_offset_adjust (data_ptr c) (bind_offset (bound (opts s))) (bind_type (bound (opts s))) (to_int32 (octet_length c)) row);
  mret (atol (c_str (m_text mem a))).

(** [src/driver/cursor.cc:1033-1072] setpos_delete_bookmark_std *)
Fixpoint delete_marked (query : str) (c : column) (rows : list Z) (count rc : Z) : pos (Z + Z * Z) :=
  match rows with
  | [] => mret (inr (rc, count))
  | r :: rows =>
    b ← bookmark_at c r;
    '(rc, q) ← build_where_clause_std query (to_uint16 b);
    if negb (SQL_SUCCEEDED rc) then mret (inl rc)
    else
      rc ← exec_stmt_query q;
      s ← get;
      let count := if rc =? 0 then to_uint64 (count + affected_rows (conn s)) else count in
      set_status b SQL_ROW_DELETED;;
      delete_marked query c rows count rc
  end.

(** [src/driver/cursor.cc:994-1082] setpos_delete_bookmark_std *)
Definition setpos_delete_bookmark_std (query : str) : pos Z :=
  t ← find_used_table;
  match t with
  | None => mret SQL_ERROR
  | Some t =>
    query ← lift (myodbc_append_quoted_name_std query (Some t));
    c ← bookmark_record;
    match c with
    | None => mret SQL_ERROR
    | Some c =>
      s ← get;
      r ← delete_marked query c (seqZ 0 (array_size (opts s))) 0 SQL_SUCCESS;
      match r with
      | inl rc => mret rc
      | inr (rc, count) => global_set_affected_rows count;; rows_gone count;; mret rc
      end
    end
  end.

(** [src/driver/cursor.cc:1194-1243] setpos_update_bookmark_std *)
Fixpoint update_marked (query : str) (c : column) (rows : list Z) (count rc : Z) : pos (Z + Z * Z) :=
  match rows with
  | [] => mret (inr (rc, count))
  | r :: rows =>
    b ← bookmark_at c r;
    '(rc, q) ← build_set_clause_std b query;
    if rc =? ER_ALL_COLUMNS_IGNORED then error_state (S!"21S02");; mret (inl SQL_ERROR)
    else if rc =? SQL_ERROR then mret (inl SQL_ERROR)
    else
      '(rc, q) ← build_where_clause_std q (to_uint16 b);
      if negb (SQL_SUCCEEDED rc) then mret (inl rc)
      else
        rc ← exec_stmt_query q;
        s ← get;
        let count := if rc =? 0 then to_uint64 (count + affected_rows (conn s)) else count in
        set_status b SQL_ROW_UPDATED;;
        update_marked query c rows count rc
  end.

(** [src/driver/cursor.cc:1160-1247] setpos_update_bookmark_std *)
Definition setpos_update_bookmark_std (query : str) : pos Z :=
  t ← find_used_table;
  match t with
  | None => mret SQL_ERROR
  | Some t =>
    query ← lift (myodbc_append_quoted_name_std query (Some t));
    c ← bookmark_record;
    match c with
    | None => mret SQL_ERROR
    | Some c =>
      s ← get;
      r ← update_marked query c (seqZ 0 (array_size (opts s))) 0 SQL_SUCCESS;
      match r with inl rc => mret rc | inr (rc, count) => global_set_affected_rows count;; mret rc end
    end
  end.

(** [src/driver/results.cc:1925-2244] myodbc_single_fetch

    One row by its number, the only way in which it is called: what the row is.  The
    number of the row is returned as the number of rows. *)
Definition single_row (o : settings) (irow : Z) : M (@STMT double C place) (Z * option Z + Z) :=
  max_row ← num_rows;
  let max_row := to_int64 max_row in
  modify (λ s, with_values None (with_getdata (reset_getdata_position (Fetch.getdata s)) s));;
  let cur_row := if irow <? 0 then (if (max_row + irow <? 0) && (- irow <=? to_int64 (array_size o)) then 0 else max_row + irow) else irow - 1 in
  let none := with_error (Some (S!"01S07")) in
  if cur_row <? 0 then modify (λ s, with_place (-1) 0 s);; Fetch.data_seek 0;; modify none;; mret (inl (SQL_SUCCESS_WITH_INFO, None))
  else
    s ← get;
    r ← (if max_row <? cur_row then
           if scroller_exists (sc s) then
             move_to (S (Z.to_nat cur_row)) cur_row;;
             r ← prefetch;
             if r =? SQL_NO_DATA then modify none;; mret (inl (SQL_SUCCESS_WITH_INFO, None))
             else if r =? SQL_ERROR then Fetch.set_error (S!"HY000");; mret (inl (SQL_ERROR, None))
             else mret (inr cur_row)
           else mret (inr max_row)
         else mret (inr cur_row));
    match r with
    | inl rc => mret (inl rc)
    | inr cur_row =>
      s ← get;
      (if bool_decide (result_array s = None) && negb (if_forward_cache o) then
         if negb (cursor_type o =? SQL_CURSOR_DYNAMIC) && negb (cur_row =? 0) && (cur_row =? current_row s + rows_found_in_set s)
         then row_seek (end_of_set s);; mret tt
         else Fetch.data_seek cur_row
       else mret tt);;
      modify (with_row cur_row);;
      let unbounded := scroller_exists (sc s) || (if_forward_cache o && bool_decide (result_array s = None)) in
      let rows_to_fetch := if unbounded then array_size o else (max_row - cur_row) `min` to_int64 (array_size o) in
      if (rows_to_fetch =? 0) && bool_decide (out_params_state s = OPS_UNKNOWN) then
        modify (with_found 0);; modify none;; mret (inl (SQL_SUCCESS_WITH_INFO, Some 0))
      else mret (inr cur_row)
    end.

(** [src/driver/results.cc:1925-2244] myodbc_single_fetch

    The row is read, and written to the place of the buffers that its number in the
    result gives; so is its status, which is then set to the one of no row. *)
Definition myodbc_single_fetch (o : settings) (irow : Z) : M (@STMT double C place) (Z * option Z) :=
  catch_myerror
    (s ← get;
     if bool_decide (client s = None) then Fetch.set_error (S!"24000");; mret (SQL_ERROR, None) else
     x ← single_row o irow;
     match x with
     | inl r => mret r
     | inr cur_row =>
       save_position ← row_tell;
       r ← fetch_row;
       '(r, save_position) ← (match r with
            | Some v => mret (Some v, save_position)
            | None =>
              s ← get;
              if scroller_exists (sc s) then
                _ ← move;
                rc ← prefetch;
                if negb (rc =? SQL_SUCCESS) then mret (None, save_position) else
                r ← fetch_row;
                match r with Some v => e ← row_tell; mret (Some v, e) | None => mret (None, save_position) end
              else mret (None, save_position)
            end);
       let status v := emit (if status_ex || has_status_ird o then [W_status cur_row v] else []) in
       res ← (match r with
              | None => mret SQL_SUCCESS
              | Some v =>
                s ← get;
                let v := match fix_fields s with Some f => f v | None => v end in
                modify (with_values (Some v));;
                row_res ← fill (fill_fetch_buffers k (bound o) v (to_uint32 cur_row));
                modify (status (sqlreturn2row_status row_res));;
                mret (if row_res =? SQL_SUCCESS then SQL_SUCCESS
                      else if SQL_SUCCEEDED row_res then SQL_SUCCESS_WITH_INFO else if cur_row =? 0 then SQL_ERROR else SQL_SUCCESS_WITH_INFO)
              end);
       modify (with_found 1);;
       modify (status (if bool_decide (is_Some (lost o)) then SQL_ROW_ERROR else SQL_ROW_NOROW));;
       (if SQL_SUCCEEDED res && negb (if_forward_cache o) then e ← row_seek save_position; modify (with_end e) else mret tt);;
       mret (if SQL_SUCCEEDED res && (1 <? array_size o) && bool_decide (is_Some (lost o)) then SQL_ERROR else res, Some cur_row)
     end)
    (λ r, (r, None)).

Definition with_array_size (z : Z) (o : settings) : settings :=
  Settings (ssps o) (cursor_type o) (opt_SAFE o) (opt_NO_CACHE o) z (bookmarks o) (bookmark_insert o) (bound o) (bookmark_column o)
    (has_processed o) (has_status_ird o) (lost o).

(** [src/driver/cursor.cc:958-983] fetch_bookmark

    The bookmarks from row [pos_] of the rowset on; the result, and the row after the last one that succeeds. *)
Fixpoint fetch_marked (fuel : nat) (c : column) (pos_ : Z) : pos (Z * Z) :=
  match fuel with
  | O => mret (SQL_SUCCESS, pos_)
  | S fuel =>
    on_stmt (λ _, Fetch.data_seek pos_);;
    b ← bookmark_at c (pos_ - 1);
    '(rc, row) ← on_stmt (λ o, myodbc_single_fetch o b);
    s ← get;
    (match row with Some r => if has_processed (opts s) then emits [W_rows r] else mret tt | None => mret tt end);;
    if negb (rc =? SQL_SUCCESS) then mret (rc, pos_) else fetch_marked fuel c (pos_ + 1)
  end.

(** [src/driver/cursor.cc:930-986] fetch_bookmark *)
Definition fetch_bookmark : pos Z :=
  c ← bookmark_record;
  match c with
  | None => mret SQL_ERROR
  | Some c =>
    s ← get;
    let size := array_size (opts s) in
    modify (λ s, with_opts (with_array_size 1 (opts s)) s);;
    '(rc, pos_) ← fetch_marked (Z.to_nat (1 `max` size)) c 1;
    modify (λ s, with_opts (with_array_size size (opts s)) s);;
    modify (λ s, with_stm (with_found (to_uint32 (pos_ - 1)) (stm s)) s);;
    mret rc
  end.

(** ** Adding rows *)

(** The two records of a parameter and the length of a row, which are the same variables for
    all columns: what is not set stays. *)
Record param_state := ParamState { pa_concise : Z; pa_type : Z; pa_ptr : pointer; pi_concise : Z; pi_type : Z; pi_prec : Z; pi_scale : Z; p_length : option Z }.

(** The types of the parameter for a column that has a record: a time is an interval when
    it is bound as one. *)
Definition param_types (c : column) (ps : param_state) : param_state :=
  let concise := concise_type_ c in
  let ty := Descriptors.get_type_from_concise_type concise in
  let sql := (get_sql_data_type (k_env k) (field_ c)).1 in
  let interval := (ty =? SQL_INTERVAL) && ((concise =? hour_to_second) || (concise =? hour_to_minute)) && ((sql =? SQL_TYPE_TIME) || (sql =? SQL_TIME)) in
  ParamState concise ty (pa_ptr ps) (if interval then concise else sql) (if interval then ty else pi_type ps) (ard_numeric c).1 (ard_numeric c).2 (p_length ps).

(** [src/driver/cursor.cc:1393-1470] batch_insert_std

    One column: its text goes behind what is in the buffer. *)
Definition insert_column (count : Z) (ncol : nat) (c : column) (ps : param_state) : pos (option param_state) :=
  s ← get;
  let o := opts s in
  let at_row (p : option Z) size := ptr_offset_adjust p (bind_offset (bound o)) (bind_type (bound o)) size count in
  let there := bool_decide (ncol < ard_count)%nat in
  apd ← match setpos_apd (dae s) with Some l => deref (l !! ncol) | None => mret (Apd SQL_C_DEFAULT false None) end;
  let ps := if bool_decide (setpos_apd (dae s) = None)
            then ParamState SQL_C_DEFAULT SQL_C_DEFAULT Null (pi_concise ps) (pi_type ps) (pi_prec ps) (pi_scale ps) (p_length ps) else ps in
  let ind_or_len :=
    if negb there then 0
    else if is_dae apd then Z.of_nat (length (default [] (par apd)))
    else match at_row (octet_length_ptr c) 8 with Some a => m_len mem a | None => octet_length c end in
  let ps :=
    if negb there then ps
    else
      let ps := param_types c ps in
      let ptr := if negb (dae_type (dae s) =? 0) && is_dae apd then to_par (par apd)
                 else to_app (at_row (data_ptr c) (bind_length (concise_type_ c) (octet_length c))) in
      ParamState (pa_concise ps) (pa_type ps) ptr (pi_concise ps) (pi_type ps) (pi_prec ps) (pi_scale ps) (p_length ps) in
  len ← (if ind_or_len =? SQL_NTS then
           match pa_ptr ps with Null => mret (p_length ps) | p => l ← lift (strlen p); mret (Some l) end
         else mret (Some ind_or_len));
  l ← deref len;
  rc ← copy_rowdata (value_param (pa_concise ps) (pa_type ps) (pa_ptr ps) l (par apd) (pi_concise ps) (pi_type ps) (pi_prec ps) (pi_scale ps)) l;
  mret (if rc =? SQL_SUCCESS then Some (ParamState (pa_concise ps) (pa_type ps) (pa_ptr ps) (pi_concise ps) (pi_type ps) (pi_prec ps) (pi_scale ps) (Some l)) else None).

Fixpoint insert_columns (count : Z) (ncol : nat) (cs : list column) (ps : param_state) : pos (option param_state) :=
  match cs with
  | [] => mret (Some ps)
  | c :: cs => r ← insert_column count ncol c ps; match r with Some ps => insert_columns count (S ncol) cs ps | None => mret None end
  end.

(** [src/driver/cursor.cc:1379-1495] batch_insert_std

    The rows from [count] on: a statement is sent when it is as long as the buffer, and
    after the last row; [query_length] is what the next one begins with. *)
Fixpoint insert_rows (rows : nat) (count : Z) (query_length : nat) (query : str) (ps : param_state) : pos Z :=
  match rows with
  | O => mret SQL_SUCCESS
  | S rows =>
    cs ← fields;
    r ← insert_columns count 0 cs ps;
    match r with
    | None => mret SQL_ERROR
    | Some ps =>
      b ← take_buffer;
      let query := query ++ S!"(" ++ take (length b - 1) b ++ S!")," in
      s ← get;
      if bool_decide (buf_len (buffer s) <= length query + length b)%nat || bool_decide (rows = 0%nat) then
        rc ← exec_stmt_query (take (length query - 1) query);
        if negb (rc =? SQL_SUCCESS) then mret SQL_ERROR
        else insert_rows rows (count + 1) query_length (take query_length query) ps
      else insert_rows rows (count + 1) query_length query ps
    end
  end.

(** [src/driver/cursor.cc:1498-1550] batch_insert_std

    The bookmarks of the rows behind those of the result. *)
Fixpoint add_bookmarks (c : column) (rows : list Z) : pos Z :=
  match rows with
  | [] => mret SQL_SUCCESS
  | i :: rows =>
    s ← get;
    let o := opts s in
    let P := match client (stm s) with Some cl => if ssps o then match bound_row cl with Some (x :: _) => protocol x | _ => text_protocol end else text_protocol | None => text_protocol end in
    rc ← on_stmt (λ o, fill (λ g, sql_get_bookmark_data k P (concise_type_ c)
           (ptr_offset_adjust (data_ptr c) (bind_offset (bound o)) (bind_type (bound o)) (to_int32 (octet_length c)) i) (octet_length c)
           (ptr_offset_adjust (octet_length_ptr c) (bind_offset (bound o)) (bind_type (bound o)) 8 i) (to_string (i + 1))
           (Some (Ard (concise_type_ c) (ard_numeric c).1 (ard_numeric c).2)) (reset_getdata_position g)));
    if SQL_SUCCEEDED rc then add_bookmarks c rows else mret SQL_ERROR
  end.

(** [src/driver/cursor.cc:1353-1567] batch_insert_std

    When a number of a row is given, the row of the arrays is the first one
    nevertheless. *)
Definition batch_insert_std (irow : Z) (query : str) : pos Z :=
  modify (with_added false);;
  s ← get;
  let size := array_size (opts s) in
  let batch := (irow =? 0) && (1 <? size) in
  let insert_count := if batch then size else 1 in
  rc ← insert_rows (Z.to_nat insert_count) 0 (if batch then length query else 0%nat) query
         (ParamState SQL_C_DEFAULT SQL_C_DEFAULT Null 0 0 0 0 None);
  if negb (rc =? SQL_SUCCESS) then mret rc else
  rc ← (if bookmarks (opts s) =? SQL_UB_VARIABLE then
          c ← deref (bookmark_column (opts s));
          max_row ← on_stmt (λ _, num_rows);
          if ARD_IS_BOUND c then
            rc ← add_bookmarks c (seqZ (to_int64 max_row) (to_int32 insert_count - to_int64 max_row));
            if SQL_SUCCEEDED rc then modify (λ s, with_added true (with_opts (with_array_size insert_count (opts s)) s));; mret SQL_SUCCESS else mret SQL_ERROR
          else mret SQL_SUCCESS
        else mret SQL_SUCCESS);
  if negb (rc =? SQL_SUCCESS) then mret rc else
  global_set_affected_rows insert_count;;
  (s ← get;
   emits ((if has_status_ird (opts s) then (λ i, W_status_ird i SQL_ROW_ADDED) <$> reverse (seqZ 0 insert_count) else []) ++
          (if status_ex then (λ i, W_status i SQL_ROW_ADDED) <$> reverse (seqZ 0 insert_count) else [])));;
  mret SQL_SUCCESS.

(** ** Data at execution *)

(** [src/driver/desc.cc:248-265] desc_find_dae_rec *)
Definition is_dae_column (o : settings) (c : column) : bool :=
  IS_DATA_AT_EXEC (m_len mem <$> ptr_offset_adjust (octet_length_ptr c) (bind_offset (bound o)) (bind_type (bound o)) 8 0).
Definition desc_find_dae_rec (o : settings) : option nat := fst <$> list_find (λ c, is_dae_column o c) (take ard_count (columns (bound o))).

(** [src/driver/cursor.cc:1574-1609] setpos_dae_check_and_init

    The descriptor of the application is copied. *)
Definition setpos_dae_check_and_init (irow fLock dae_type_ : Z) : pos Z :=
  s ← get;
  match (if dae_type (dae s) =? DAE_SETPOS_DONE then None else desc_find_dae_rec (opts s)) with
  | Some rec =>
    if (irow =? 0) && (1 <? array_size (opts s)) then fails (S!"HYC00")
    else
      let copy := (λ c, Apd (Descriptors.get_type_from_concise_type (concise_type_ c)) false None) <$> take ard_count (columns (bound (opts s))) in
      modify (with_dae (Dae dae_type_ (Some copy) rec irow fLock));;
      mret SQL_NEED_DATA
  | None => mret SQL_SUCCESS
  end.

(** ** SQLSetPos *)

(** A dynamic cursor runs its query again. *)
Definition refresh_dynamic (unless_dae : bool) : pos bool :=
  s ← get;
  if (negb unless_dae || (dae_type (dae s) =? 0)) && is_dynamic_cursor (opts s) then on_stmt (λ o, set_dynamic_result o my_SQLExecute) else mret false.

(** [src/driver/cursor.cc:1682-1712] my_SQLSetPos

    SQL_POSITION. *)
Definition set_position (irow : Z) : pos Z :=
  s ← get;
  if irow =? 0 then fails (S!"HY109")
  else if rows_found_in_set (stm s) <? irow then fails (S!"HY107")
  else
    failed ← refresh_dynamic false;
    if failed : bool then fails (S!"HY000")
    else
      on_stmt (λ _,
        s ← get;
        modify (with_cursor_row (current_row s + (irow - 1)));;
        Fetch.data_seek (current_row s + (irow - 1));;
        r ← fetch_row;
        modify (λ s, with_values r (with_getdata (reset_getdata_position (Fetch.getdata s)) s));;
        (match fix_fields s with Some f => v ← deref r; modify (with_values (Some (f v))) | None => mret tt end);;
        Fetch.data_seek (current_row s + (irow - 1)));;
      mret SQL_SUCCESS.

(** [src/driver/cursor.cc:1783-1789] my_SQLSetPos *)
Fixpoint append_column_names (q : str) (fs : list field_names) : res str :=
  match fs with
  | [] => Ok q
  | f :: fs => q ← myodbc_append_quoted_name_std q (org_name f); append_column_names (if bool_decide (fs = []) then q else q ++ S!",") fs
  end.

(** [src/driver/cursor.cc:1752-1797] my_SQLSetPos

    SQL_ADD. *)
Definition set_add (irow fLock : Z) : pos Z :=
  failed ← refresh_dynamic true;
  if failed : bool then fails (S!"HY000") else
  t ← find_used_table;
  match t with
  | None => mret SQL_ERROR
  | Some t =>
    rc ← setpos_dae_check_and_init irow fLock DAE_SETPOS_INSERT;
    if negb (rc =? 0) then mret rc
    else
      let schema := match head names with Some f => if bool_decide (db f = []) then [] else S!"`" ++ db f ++ S!"`." | None => [] end in
      q ← lift (myodbc_append_quoted_name_std (S!"INSERT INTO " ++ schema) (Some t));
      q ← lift (append_column_names (q ++ S!"(") names);
      batch_insert_std irow (q ++ S!") VALUES ")
  end.

(** [src/driver/cursor.cc:1632-1823] my_SQLSetPos

    The numbers of rows are cut to 16 bits where rows are deleted or updated. *)
Definition my_SQLSetPos (irow fOption fLock : Z) : pos Z :=
  catch_myerror
    (modify (λ s, with_stm (with_error None (stm s)) s);;
     s ← get;
     let st := stm s in
     if bool_decide (client st = None) then fails (S!"HY010")
     else if if_forward_cache (opts s) && (negb (fOption =? SQL_POSITION) || (irow <? to_uint64 (current_row st))) then fails (S!"HY109")
     else
       too_far ← (if fOption =? SQL_ADD then mret false else n ← on_stmt (λ _, num_rows); mret (n <? irow));
       if too_far : bool then fails (S!"HY107")
       else if negb (fLock =? SQL_LOCK_NO_CHANGE) then fails (S!"HYC00")
       else if fOption =? SQL_POSITION then set_position irow
       else if fOption =? SQL_DELETE then
         if rows_found_in_set st <? irow then fails (S!"HY107")
         else
           failed ← refresh_dynamic false;
           if failed : bool then fails (S!"HY000") else setpos_delete_std (to_uint16 irow) (S!"DELETE FROM ")
       else if fOption =? SQL_UPDATE then
         if rows_found_in_set st <? irow then fails (S!"HY107")
         else
           failed ← refresh_dynamic true;
           if failed : bool then fails (S!"HY000")
           else
             rc ← setpos_dae_check_and_init irow fLock DAE_SETPOS_UPDATE;
             if negb (rc =? 0) then mret rc else setpos_update_std (to_uint16 irow) (S!"UPDATE ")
       else if fOption =? SQL_ADD then set_add irow fLock
       else if fOption =? SQL_REFRESH then
         '(rc, rows) ← on_stmt (λ o, my_SQLExtendedFetch k o my_SQLExecute SQL_FETCH_ABSOLUTE irow (status_ex || has_status_ird o) false);
         s ← get;
         (match rows with Some r => if has_processed (opts s) then emits [W_rows r] else mret tt | None => mret tt end);;
         mret rc
       else fails (S!"HY009"))
    (λ r, r).

(** [src/driver/cursor.cc:1879-1893] SQLSetPos

    While the call runs, values are not bound to the statement that the server has
    prepared. *)
Definition SQLSetPos (irow fOption fLock : Z) : pos Z := my_SQLSetPos irow fOption fLock.

(** [src/driver/cursor.cc:1901-1973] SQLBulkOperations *)
Definition SQLBulkOperations (Operation : Z) : pos Z :=
  modify (λ s, with_stm (with_error None (stm s)) s);;
  s ← get;
  if bool_decide (client (stm s) = None) then fails (S!"HY010") else
  modify (with_added false);;
  if Operation =? SQL_ADD then my_SQLSetPos 0 SQL_ADD SQL_LOCK_NO_CHANGE
  else if Operation =? SQL_UPDATE_BY_BOOKMARK then
    if rows_found_in_set (stm s) =? 0 then mret SQL_SUCCESS
    else
      failed ← refresh_dynamic true;
      if failed : bool then fails (S!"HY000")
      else
        rc ← setpos_dae_check_and_init 0 SQL_LOCK_NO_CHANGE DAE_SETPOS_UPDATE;
        if negb (rc =? 0) then mret rc else setpos_update_bookmark_std (S!"UPDATE ")
  else if Operation =? SQL_DELETE_BY_BOOKMARK then
    failed ← refresh_dynamic false;
    if failed : bool then fails (S!"HY000") else setpos_delete_bookmark_std (S!"DELETE FROM ")
  else if Operation =? SQL_FETCH_BY_BOOKMARK then fetch_bookmark
  else fails (S!"HYC00").

(** ** Data that come at execution *)

(** [src/driver/execute.cc:1745-1784] find_next_dae_param

    The first of the columns whose data come at execution, which are counted from [i] on. *)
Fixpoint next_dae (o : settings) (i : nat) (cs : list column) : option (nat * column) :=
  match cs with
  | [] => None
  | c :: cs => if is_dae_column o c then Some (i, c) else next_dae o (S i) cs
  end.

(** What is left of data when they are forgotten: their memory. *)
Definition par_reset (p : option str) : option str := match p with Some _ => Some [] | None => None end.

(** [src/driver/execute.cc:1745-1784] find_next_dae_param

    The next record whose data come at execution, from the place behind the last one on, and
    the token of the application for it.  This is for positioned operations, whose records
    are those of the descriptor of the application. *)
Definition find_next_dae_param : pos (option (option Z)) :=
  s ← get;
  let o := opts s in
  let d := dae s in
  apds ← deref (setpos_apd d);
  match next_dae o (current_param d) (drop (current_param d) (take ard_count (columns (bound o)))) with
  | Some (i, c) =>
    a ← deref (apds !! i);
    modify (with_dae (Dae (dae_type d) (Some (<[i := Apd (ap_type a) true (par_reset (par a))]> apds)) (S i) (setpos_row d) (setpos_lock d)));;
    mret (Some (ptr_offset_adjust (data_ptr c) (bind_offset (bound o)) (bind_type (bound o)) (bind_length (concise_type_ c) (octet_length c)) 0))
  | None => mret None
  end.

Definition end_dae (t : Z) (apd : option (list apd_rec)) (s : POS) : POS :=
  with_dae (Dae t apd (current_param (dae s)) (setpos_row (dae s)) (setpos_lock (dae s))) s.

(** [src/driver/execute.cc:1787-1815] execute_dae

    The positioned operations; a statement without parameters at execution is not
    spoken of. *)
Definition execute_dae : pos Z :=
  s ← get;
  let fOption := if dae_type (dae s) =? DAE_SETPOS_INSERT then SQL_ADD else SQL_UPDATE in
  modify (λ s, end_dae DAE_SETPOS_DONE (setpos_apd (dae s)) s);;
  rc ← my_SQLSetPos (setpos_row (dae s)) fOption (setpos_lock (dae s));
  modify (λ s, end_dae 0 None s);;
  mret rc.

(** [src/driver/execute.cc:1858-1916] SQLParamData

    The result, and the token.  What is done for a statement that is executed, or has
    parameters that are streams, is a parameter. *)
Definition SQLParamData (of_execution : pos (Z * option (option Z))) : pos (Z * option (option Z)) :=
  s ← get;
  if (dae_type (dae s) =? DAE_NORMAL) || bool_decide (out_params_state (stm s) = OPS_STREAMS_PENDING) then of_execution
  else if negb ((dae_type (dae s) =? DAE_SETPOS_INSERT) || (dae_type (dae s) =? DAE_SETPOS_UPDATE)) then rc ← fails (S!"HY010"); mret (rc, None)
  else
    r ← find_next_dae_param;
    match r with
    | Some token => mret (SQL_NEED_DATA, Some token)
    | None => rc ← execute_dae; mret (rc, None)
    end.

(** The bytes of wide characters up to a null one. *)
Fixpoint wide_str (m : str) : str :=
  match m with
  | a :: b :: m => if bool_decide (a = Ascii.zero) && bool_decide (b = Ascii.zero) then [] else a :: b :: wide_str m
  | _ => []
  end.

(** [src/driver/execute.cc:1927-1971] SQLPutData

    The data are the bytes of the pointer; for a statement that is executed they go to
    another descriptor. *)
Definition SQLPutData (of_execution : pos Z) (rgbValue : option str) (cbValue : Z) : pos Z :=
  s ← get;
  if bool_decide (rgbValue = None) && negb ((cbValue =? 0) || (cbValue =? -5) || (cbValue =? SQL_NULL_DATA)) then fails (S!"HY009")
  else if bool_decide (is_Some rgbValue) && (cbValue <? 0) && negb ((cbValue =? SQL_NTS) || (cbValue =? SQL_NULL_DATA)) then fails (S!"HY090")
  else if dae_type (dae s) =? DAE_NORMAL then of_execution
  else
    apds ← deref (setpos_apd (dae s));
    match current_param (dae s) with
    | O => if bookmarks (opts s) =? SQL_UB_VARIABLE then undefined else fails (S!"07009")
    | S i =>
      match apds !! i with
      | None => mret SQL_ERROR
      | Some a =>
        let set a := modify (λ s, end_dae (dae_type (dae s)) (Some (<[i := a]> apds)) s) in
        if cbValue =? SQL_NULL_DATA then set (Apd (ap_type a) false (par_reset (par a)));; mret SQL_SUCCESS
        else
          chunk ← (if cbValue =? SQL_NTS then
                     v ← deref rgbValue;
                     mret (if bool_decide (concise_type_ <$> columns (bound (opts s)) !! i = Some SQL_C_WCHAR) then wide_str v else c_str v)
                   else lift (text_of rgbValue cbValue));
          set (Apd (ap_type a) (is_dae a) (Some (default [] (par a) ++ chunk)));;
          mret SQL_SUCCESS
      end
    end.

End SetPos.
