(* ===== verification/Positioned.v ===== *)
(** Positioned deletions and updates: the statements that are sent for the rows of a
    rowset, by the key of their table and with the values that the application has bound
    or gives at execution, and which key that is.  Concrete cursors are at the end. *)

From S2P Require Import Prelude CppString HostList FailoverHandler Numeric Errors Descriptors GetData DateTime TempBuf Params Scroller Types Column Fetch SetPos.
Local Open Scope Z_scope.

Section Keys.
Context (names : list field_names).

(** A key of a table, as SHOW KEYS has it: whether it is unique, and its columns, which
    are null where they are expressions. *)
Record key := Key { key_unique : bool; key_columns : list (option str) }.

(** The rows of SHOW KEYS for a key: its columns are numbered from 1 on. *)
Definition key_row (unique : bool) (seq : nat) (c : option str) (row : list (option str)) : Prop :=
  ∃ a nu b sq rest, row = a :: Some nu :: b :: Some sq :: c :: rest ∧
    (head nu = Some "1"%char ↔ unique = false) ∧ to_int32 (atol (c_str sq)) = Z.of_nat seq.
Fixpoint key_rows (unique : bool) (seq : nat) (cs : list (option str)) (rows : list (list (option str))) : Prop :=
  match cs, rows with
  | [], [] => True
  | c :: cs, r :: rows => key_row unique seq c r ∧ key_rows unique (S seq) cs rows
  | _, _ => False
  end.
Definition show_keys (keys : list key) (rows : list (list (option str))) : Prop :=
  ∃ parts, rows = concat parts ∧ Forall2 (λ k, key_rows (key_unique k) 1 (key_columns k)) keys parts.

(** A key that tells rows apart by columns that the result has. *)
Definition usable (k : key) : bool := key_unique k && forallb (have_field_in_result names) (key_columns k).

Definition all_named : Prop := Forall (λ f, org_name f ≠ None) names.

Lemma null_not_in_result : all_named → have_field_in_result names None = false.
Proof.
  intros H. unfold have_field_in_result. induction H as [|f fs Hf H IH]; [done|]. cbn [existsb]. rewrite IH. destruct (org_name f); [done|by destruct Hf].
Qed.

Lemma head_dec nu u : (head nu = Some "1"%char ↔ u = false) → bool_decide (head nu = Some "1"%char) = negb u.
Proof. intros H. destruct u; cbn; [apply bool_decide_false|apply bool_decide_true; by apply H]. intros E. by apply H in E. Qed.

(** A key in which a column was missing, or that is not unique: its other columns are
    passed. *)
Lemma scan_passed unique cs rows seq rest : key_rows unique seq cs rows → (1 < seq)%nat ∨ unique = false → (0 < seq)%nat →
  scan_keys names (rows ++ rest) 0 [] = scan_keys names rest 0 [].
Proof.
  revert rows seq. induction cs as [|c cs IH]; intros rows seq Hr Hs H0; destruct rows as [|row rows]; try done.
  destruct Hr as [(a & nu & b & sq & r & -> & Hu & Hq) Hr]. cbn [app scan_keys]. rewrite Hq, (head_dec nu unique Hu).
  rewrite bool_decide_false by (cbn; unfold MY_MAX_PK_PARTS; lia). rewrite (proj2 (Z.leb_gt _ _)) by lia.
  destruct unique; cbn [negb]; [|apply (IH _ (S seq)); [done|by right|lia]].
  destruct Hs as [Hs|]; [|done]. rewrite (proj2 (Z.eqb_neq _ _)) by lia. apply (IH _ (S seq)); [done|left; lia|lia].
Qed.

(** What has been found stays when the next row begins a key. *)
Lemma scan_done keys parts done_ seq : Forall2 (λ k, key_rows (key_unique k) 1 (key_columns k)) keys parts → Forall (λ k, key_columns k ≠ []) keys → (1 <= seq)%nat →
  scan_keys names (concat parts) (Z.of_nat seq) done_ = Ok done_.
Proof.
  intros H Hne Hs. destruct H as [|k rows keys parts Hk H]; [done|]. apply Forall_cons in Hne as [Hne _]. destruct (key_columns k) as [|c cs]; [done|].
  destruct rows as [|row rows]; [done|]. destruct Hk as [(a & nu & b & sq & r & -> & Hu & Hq) Hk]. cbn [concat app scan_keys].
  destruct (bool_decide _); [done|]. rewrite Hq. by rewrite (proj2 (Z.leb_le _ _)) by lia.
Qed.

(** A unique key from its column number [seq] on, when the ones before are in the
    result. *)
Lemma scan_unique keys parts : all_named → Forall2 (λ k, key_rows (key_unique k) 1 (key_columns k)) keys parts → Forall (λ k, key_columns k ≠ []) keys →
  ∀ cs rows seq pk, key_rows true (S seq) cs rows → (seq + length cs <= MY_MAX_PK_PARTS)%nat → length pk = seq → cs ≠ [] ∨ (1 <= seq)%nat →
  scan_keys names (rows ++ concat parts) (Z.of_nat seq) pk =
  if forallb (have_field_in_result names) cs then Ok (pk ++ omap id cs) else scan_keys names (concat parts) 0 [].
Proof.
  intros Hn H Hne. induction cs as [|c cs IH]; intros rows seq pk Hr Hl Hpk Hs; destruct rows as [|row rows]; try done.
  { destruct Hs as [|Hs]; [done|]. cbn [app forallb omap list_omap]. rewrite app_nil_r. by eapply scan_done. }
  destruct Hr as [(a & nu & b & sq & r & -> & Hu & Hq) Hr]. cbn [length] in Hl. cbn [app scan_keys]. rewrite Hq, (head_dec nu true Hu).
  rewrite bool_decide_false by lia. rewrite (proj2 (Z.leb_gt _ _)) by lia. cbn [negb]. rewrite (proj2 (Z.eqb_eq _ _)) by lia. cbn [negb forallb].
  destruct (have_field_in_result names c) eqn:Ec; cbn [andb].
  - destruct c as [c|]; [|by rewrite null_not_in_result in Ec]. rewrite (IH rows (S seq) (pk ++ [c])); [|done|lia|rewrite length_app; cbn; lia|right; lia].
    by rewrite <- app_assoc.
  - eapply scan_passed; [exact Hr|left; lia|lia].
Qed.

Lemma scan_keys_first keys parts : all_named → Forall2 (λ k, key_rows (key_unique k) 1 (key_columns k)) keys parts →
  Forall (λ k, key_columns k ≠ [] ∧ (length (key_columns k) <= MY_MAX_PK_PARTS)%nat) keys →
  scan_keys names (concat parts) 0 [] = Ok (match filter usable keys with k :: _ => omap id (key_columns k) | [] => [] end).
Proof.
  intros Hn H Hk. induction H as [|k rows keys parts Hr H IH]; [done|]. apply Forall_cons in Hk as [[Hne Hl] Hk].
  rewrite filter_cons_bool. cbn [concat]. destruct (usable k) eqn:Eu; unfold usable in Eu.
  - apply andb_prop in Eu as [Eq Ef]. rewrite Eq in Hr. change 0 with (Z.of_nat 0).
    rewrite (scan_unique keys parts Hn H (Forall_impl _ _ _ Hk (λ k H, proj1 H)) (key_columns k) rows 0 []) by (done || left; done || cbn; lia). by rewrite Ef.
  - rewrite <- IH by done. destruct (key_unique k) eqn:Eq.
    + change 0 with (Z.of_nat 0) at 1. rewrite (scan_unique keys parts Hn H (Forall_impl _ _ _ Hk (λ k H, proj1 H)) (key_columns k) rows 0 []) by (done || left; done || cbn; lia).
      cbn [andb] in Eu. by rewrite Eu.
    + eapply scan_passed; [exact Hr|by right|lia].
Qed.
End Keys.

(** ** The text of a value in a condition *)

Section Statements.
Context {double float C place D : Type} `{HR : !@Results double C place} `{HB : !BoundRow double C} `{HD : !Connection D}.
Context (k : @conversions double) (my_SQLExecute : M (@STMT double C place) Z) (n : insert_env float) (mem : memory float).
Context (names : list field_names) (ard_count : nat) (status_ex : bool) (max_rows : Z).
Context (escaped_length : ∀ s, (length (n_escape n s) <= length s * 2)%nat).

Abbreviation pos := (M (@POS double C place D)).
Abbreviation P := (@POS double C place D).
Abbreviation insert := (insert_param (n_d2str n) (n_uninitialised n) (n_object_bytes n) (n_stack n) (n_room n) (n_escape n) (n_cxn_charset n) (n_ansi_charset n)
    (n_NO_DATE_OVERFLOW n) (n_MIN_DATE_TO_ZERO n) (n_NO_LOCALE n) (n_thousands_sep n) (n_decimal_point n) (n_no_backslashes n) (n_utf8mb4 n)
    (k_options k) false false).

(** ** Steps that write to the buffer only *)

(** The buffer is empty, and is as long as [room]. *)
Definition emptied (room : nat) (b : tempBuf) : Prop := cur_pos b = 0%nat ∧ (room <= buf_len b)%nat.

Lemma emptied_content room b : emptied room b → content b = [].
Proof. intros [H _]. unfold content. by rewrite H. Qed.
Lemma emptied_in room b : emptied room b → in_memory b.
Proof. intros [H _]. unfold in_memory. rewrite H. lia. Qed.

(** A step whose only effect is on the buffer, which holds what it held and [t]. *)
Definition buffers {A} (room : nat) (m : pos A) (a : A) (t : str) : Prop :=
  ∀ s : P, in_memory (buffer s) → (room <= buf_len (buffer s))%nat → (length (content (buffer s)) + length t <= room)%nat →
  ∃ b, m s = (Ok a, with_buffer b s) ∧ in_memory b ∧ (room <= buf_len b)%nat ∧ content b = content (buffer s) ++ t.

Lemma same_stm (s : P) : with_stm (with_error (error (stm s)) (with_getdata (Fetch.getdata (stm s)) (stm s))) s = s.
Proof. by destruct s as [[] ]. Qed.

Lemma buffers_insert room (p : param float) t (s : P) : ssps (opts s) = false →
  appends (insert p 0%nat) SQL_SUCCESS t →
  in_memory (buffer s) → (room <= buf_len (buffer s))%nat → (length (content (buffer s)) + length t <= room)%nat →
  ∃ b, insert_one k n 0 p s = (Ok SQL_SUCCESS, with_buffer b s) ∧ in_memory b ∧ (room <= buf_len b)%nat ∧ content b = content (buffer s) ++ t.
Proof.
  intros Hs Ha Hin Hroom Hl. destruct (Ha room (Insertion (buffer s) None (Fetch.getdata (stm s)) None)) as (i & E & (Hi & Hr & _) & Hc & Hg & He); [done|exact Hl|].
  exists (tempbuf i). split; [|done]. unfold insert_one. rewrite get_bind. change (negb (0 =? 0)) with false. cbv iota. rewrite Hs. rewrite E. cbv beta iota.
  rewrite modify_bind. unfold lift. rewrite Hg, He. cbn [Params.getdata Params.err]. by rewrite same_stm.
Qed.

Lemma buffers_add room t : buffers room (add_text n t) tt t.
Proof.
  intros s Hin Hroom _. destruct (add_to_buffer_spec (n_uninitialised n) t (buffer s) Hin) as (b & E & Hin' & Hc). exists b.
  unfold add_text. rewrite get_bind. unfold mbind, M_bind, lift. rewrite E. split; [done|]. split; [done|]. apply add_to_buffer_grows in E. split; [lia|done].
Qed.

Lemma take_buffer_spec room (s : P) : in_memory (buffer s) → (room <= buf_len (buffer s))%nat →
  ∃ b, take_buffer s = (Ok (content (buffer s)), with_buffer b s) ∧ emptied room b.
Proof. intros Hin Hroom. exists (TempBuf.reset (buffer s)). done. Qed.

(** ** The condition for a column *)

Section Positioned.
Context `{HS : !@StoredResults double C place HR}.
Context (rows : list (list (@cell double))) (o : settings).

Lemma with_buffer_twice b b' (s : P) : with_buffer b (with_buffer b' s) = with_buffer b s.
Proof. done. Qed.

(** The result is stored, and at a row. *)
Definition at_the_row (s : P) (r : nat) : Prop := ∃ c, client (stm s) = Some c ∧ at_row c rows r.

Lemma cursor_data_at (s : P) r row : ssps (opts s) = false → at_the_row s r → rows !! r = Some row → cursor_data s = (Ok row, s).
Proof.
  intros Hs (c & Hc & Hat) Hr. unfold cursor_data. rewrite get_bind. unfold mbind, M_bind. rewrite Hc. cbn [deref mret M_ret]. rewrite Hs.
  destruct (at_fetch _ _ _ _ Hat Hr) as (c' & -> & _). done.
Qed.

(** The text of a value: none for a null. *)
Definition value_text (v : option str) (x : @cell double) : Prop := cell_text x = Ok v.

Definition condition (name : str) (v : option str) : str :=
  S!"`" ++ name ++ S!"`" ++ match v with Some t => S!"=" ++ literal (n_escape n) t | None => S!" IS NULL" end.

Lemma take_last (q : str) c : take (length (q ++ [c]) - 1) (q ++ [c]) = q.
Proof. rewrite length_app. cbn [length]. replace (length q + 1 - 1)%nat with (length q) by lia. apply take_app_length. Qed.

Lemma insert_field_text room (s : P) r row c x q name v ncol : opts s = o → ssps o = false → at_the_row s r → rows !! r = Some row →
  columns (bound o) !! ncol = Some c → row !! ncol = Some x → value_text v x → (get_sql_data_type (k_env k) (field_ c)).1 ∈ quoted_types →
  (∀ t, v = Some t → Ascii.zero ∉ t ∧ (length (literal (n_escape n) t) + 5 <= room)%nat) → emptied room (buffer s) →
  ∃ b, insert_field_std k n 0 (q ++ S!"`" ++ name ++ S!"`" ++ S!"=") ncol s = (Ok (false, q ++ condition name v ++ S!" AND "), with_buffer b s) ∧ emptied room b.
Proof.
  intros Ho Hp Hat Hr Hc Hx Hv Hty Ht He. unfold insert_field_std. rewrite get_bind, Ho, Hc. cbn [deref]. rewrite ret_bind.
  rewrite (bind_Ok _ _ _ _ _ (cursor_data_at s r row ltac:(by rewrite Ho) Hat Hr)), Hx. cbn [deref]. rewrite ret_bind.
  assert (lift (cell_text x) s = (Ok v, s)) as Ev by (unfold lift; by rewrite Hv). rewrite (bind_Ok _ _ _ _ _ Ev). clear Ev.
  destruct v as [t|]; [|exists (buffer s); split; [|done]].
  - destruct (Ht t eq_refl) as [Hz Hl]. rewrite (c_str_plain t Hz).
    set (p := Param float _ _ _ _ _ _ _ _ _ _ _ _).
    assert (inserted (n_escape n) p 0 (literal (n_escape n) t)) as Hg.
    { rewrite <- (take_ge t (Z.to_nat (Z.of_nat (length t)))) at 1 by lia.
      apply (Inserted_text _ _ _ t (λ _, Z.of_nat (length t))); try done; [intros g [= <-]; unfold SQL_NULL_DATA; lia|lia]. }
    assert (content (buffer s) = []) as Hb by by eapply emptied_content. rewrite <- Ho in Hp.
    destruct (buffers_insert room p (literal (n_escape n) t) s Hp) as (b1 & E1 & Hin1 & Hr1 & Hc1);
      [by apply insert_text|by eapply emptied_in|apply He|rewrite Hb; cbn [length]; lia|].
    rewrite (bind_Ok _ _ _ _ _ E1). change (negb (SQL_SUCCEEDED SQL_SUCCESS)) with false. cbv iota.
    destruct (buffers_add room (S!" AND ") (with_buffer b1 s) Hin1 Hr1) as (b2 & E2 & Hin2 & Hr2 & Hc2).
    { cbn [buffer with_buffer]. rewrite Hc1, Hb. cbn [app]. change (length (S!" AND ")) with 5%nat. lia. }
    rewrite (bind_Ok _ _ _ _ _ E2). destruct (take_buffer_spec room (with_buffer b2 (with_buffer b1 s)) Hin2 Hr2) as (b3 & E3 & He3).
    exists b3. split; [|done]. rewrite (bind_Ok _ _ _ _ _ E3). unfold mret, M_ret. f_equal. f_equal. f_equal.
    cbn [buffer with_buffer]. rewrite Hc2. cbn [buffer with_buffer]. rewrite Hc1, Hb. unfold condition. rewrite <- !app_assoc. done.
  - unfold mret, M_ret. unfold condition. f_equal; [|by destruct s]. f_equal. f_equal.
    replace (q ++ S!"`" ++ name ++ S!"`" ++ S!"=") with ((q ++ S!"`" ++ name ++ S!"`") ++ ["="%char]) by (by rewrite <- !app_assoc).
    rewrite take_last, <- !app_assoc. done.
Qed.

(** ** The WHERE clause of a row *)

Definition in_key (pk : list str) (f : field_names) : bool := existsb (λ c, myodbc_strcasecmp_eq (Some c) (org_name f)) pk.

(** The conditions that tell a row apart, of the columns of the key in the order of the
    result. *)
Inductive key_conditions (pk : list str) (room : nat) : list field_names → list column → list (@cell double) → list str → Prop :=
  | Conditions_nil : key_conditions pk room [] [] [] []
  | Conditions_other f fs c cs x row l : in_key pk f = false → key_conditions pk room fs cs row l → key_conditions pk room (f :: fs) (c :: cs) (x :: row) l
  | Conditions_key f fs c cs x row l name v : in_key pk f = true → org_name f = Some name → value_text v x →
      (get_sql_data_type (k_env k) (field_ c)).1 ∈ quoted_types → (∀ t, v = Some t → Ascii.zero ∉ t ∧ (length (literal (n_escape n) t) + 5 <= room)%nat) →
      key_conditions pk room fs cs row l → key_conditions pk room (f :: fs) (c :: cs) (x :: row) (condition name v :: l).

Definition with_and (l : list str) : str := mjoin ((λ t, t ++ S!" AND ") <$> l).
Fixpoint and_joined (l : list str) : str := match l with [] => [] | [t] => t | t :: l => t ++ S!" AND " ++ and_joined l end.

Lemma with_and_joined l : l ≠ [] → with_and l = and_joined l ++ S!" AND ".
Proof.
  induction l as [|t l IH]; [done|]. intros _. destruct l as [|u l].
  { unfold with_and. cbn [fmap list_fmap mjoin list_join]. by rewrite app_nil_r. }
  change (with_and (t :: u :: l)) with ((t ++ S!" AND ") ++ with_and (u :: l)). rewrite IH by done. cbn [and_joined]. by rewrite <- !app_assoc.
Qed.

Lemma pk_conditions_text pk room fs cs row l : key_conditions pk room fs cs row l → ∀ pre_c pre_x (s : P) r q count,
  opts s = o → ssps o = false → pkcol (cursor s) = pk → at_the_row s r → rows !! r = Some (pre_x ++ row) → columns (bound o) = pre_c ++ cs →
  length pre_c = length pre_x → emptied room (buffer s) →
  ∃ b, pk_conditions k n 0 fs (length pre_x) q count s = (Ok (Some ((count + length l)%nat, q ++ with_and l)), with_buffer b s) ∧ emptied room b.
Proof.
  induction 1 as [|f fs c cs x row l Hk Hl IH|f fs c cs x row l name v Hk Hn Hv Hty Ht Hl IH]; intros pre_c pre_x s r q count Ho Hp Hpk Hat Hr Hc Hlen He.
  - exists (buffer s). split; [|done]. cbn [pk_conditions]. unfold mret, M_ret. rewrite Nat.add_0_r. change (with_and []) with (@nil ascii). rewrite app_nil_r. by destruct s.
  - cbn [pk_conditions]. rewrite get_bind, Hpk. unfold in_key in Hk. rewrite Hk.
    specialize (IH (pre_c ++ [c]) (pre_x ++ [x]) s r q count Ho Hp Hpk Hat). rewrite <- !app_assoc in IH.
    rewrite !length_app in IH. cbn [length] in IH. rewrite !Nat.add_1_r in IH. apply IH; [done|done|by rewrite Hlen|done].
  - cbn [pk_conditions]. rewrite get_bind, Hpk. unfold in_key in Hk. rewrite Hk, Hn. unfold myodbc_append_quoted_name_std.
    rewrite (bind_Ok _ _ s (q ++ S!"`" ++ name ++ S!"`") s) by done.
    destruct (insert_field_text room s r (pre_x ++ x :: row) c x q name v (length pre_x) Ho Hp Hat Hr) as (b1 & E1 & He1);
      [by rewrite Hc, <- Hlen, list_lookup_middle|by rewrite list_lookup_middle|done..|].
    rewrite <- !app_assoc. rewrite (bind_Ok _ _ _ _ _ E1). cbv beta iota.
    destruct (IH (pre_c ++ [c]) (pre_x ++ [x]) (with_buffer b1 s) r (q ++ condition name v ++ S!" AND ") (S count)) as (b2 & E2 & He2); try done.
    { by rewrite <- app_assoc. }
    { by rewrite <- app_assoc. }
    { rewrite !length_app, Hlen. done. }
    exists b2. split; [|done]. rewrite length_app in E2. cbn [length] in E2. rewrite Nat.add_1_r in E2. cbn [fst snd]. rewrite E2.
    cbn [length]. rewrite Nat.add_succ_r, <- Nat.add_succ_l. change (with_and (condition name v :: l)) with ((condition name v ++ S!" AND ") ++ with_and l).
    by rewrite <- !app_assoc.
Qed.

(** A statement with a stored result, which stands at the row [m], and a key; the buffer is
    empty.  The place of the cursor that is noted may be another one. *)
Record prepared (pk : list str) (room m : nat) (s : P) : Prop := {
  pr_opts : opts s = o;
  pr_at : cursor_at rows (stm s);
  pr_stands : at_the_row s m;
  pr_key : pk_validated (cursor s) = true ∧ pkcol (cursor s) = pk;
  pr_limit : select_limit s = max_rows;
  pr_buffer : emptied room (buffer s)
}.

(** The row whose key is read for the row at a place: when the place is the one that is noted
    ([cursor_row]), the result is not moved, and it is the row where the result stands. *)
Definition key_place (noted : Z) (m : nat) (p : Z) : nat := if noted =? p then m else Z.to_nat p.
Fixpoint key_places (noted : Z) (m : nat) (ps : list Z) : list nat :=
  match ps with [] => [] | p :: ps => let j := key_place noted m p in j :: key_places p j ps end.

(** They are the rows asked for when the place that is noted is none or is where the result
    stands. *)
Lemma key_places_own noted m ps : noted < 0 ∨ noted = Z.of_nat m → Forall (Z.le 0) ps → key_places noted m ps = Z.to_nat <$> ps.
Proof.
  intros Hn Hp. revert noted m Hn. induction Hp as [|p ps Hp Hps IH]; intros noted m Hn; [done|]. cbn [key_places fmap list_fmap].
  assert (key_place noted m p = Z.to_nat p) as ->; [|f_equal; apply IH; lia].
  unfold key_place. destruct (Z.eqb_spec noted p); [|done]. destruct Hn; lia.
Qed.

(** The places of rows by their numbers in the rowset. *)
Definition places (s : P) (rs : list Z) : list Z := (λ r, current_row (stm s) + r - 1) <$> rs.

(** What the clauses of a statement leave as it is. *)
Definition framed (s s' : P) : Prop :=
  current_row (stm s') = current_row (stm s) ∧ rows_found_in_set (stm s') = rows_found_in_set (stm s) ∧ conn s' = conn s ∧ sent s' = sent s ∧
  table_name s' = table_name s ∧ dae s' = dae s ∧ affected s' = affected s.

Lemma framed_refl s : framed s s.
Proof. done. Qed.
Lemma framed_trans s1 s2 s3 : framed s1 s2 → framed s2 s3 → framed s1 s3.
Proof. intros (?&?&?&?&?&?&?) (?&?&?&?&?&?&?). repeat split; congruence. Qed.

Context (plain : ssps o = false ∧ if_forward_cache o = false).

Lemma cursor_at_client s c m z : cursor_at rows s → at_row c rows m → cursor_at rows (with_cursor_row z (with_client c s)).
Proof. intros [? ? ? ? ? ? ?] Hm. split; try done. by eexists _, _. Qed.

Lemma prepared_buffer pk room m s b : prepared pk room m s → emptied room b → prepared pk room m (with_buffer b s).
Proof. intros [? ? ? ? ? ?] Hb. by split. Qed.

Lemma set_current_at pk room m s r : prepared pk room m s → 0 ≤ current_row (stm s) → 1 ≤ r → current_row (stm s) + r - 1 < Z.of_nat (length rows) →
  let p := current_row (stm s) + r - 1 in
  ∃ s', on_stmt (λ o, set_current_cursor_data o r) s = (Ok tt, s') ∧ prepared pk room (key_place (cursor_row (stm s)) m p) s' ∧ framed s s' ∧
    cursor_row (stm s') = p.
Proof.
  intros [Ho Ha (c & Hc & Hat) Hk Hl Hb] H0 H1 Hlt p. unfold on_stmt, set_current_cursor_data, key_place.
  rewrite get_bind. unfold the_client. unfold mbind at 1, M_bind at 1. rewrite get_bind, Hc. cbn [deref mret M_ret]. rewrite (proj2 (Z.eqb_neq r 0)) by lia.
  fold p. destruct (Z.eqb_spec (cursor_row (stm s)) p) as [E|E].
  - exists s. split; [by destruct s|]. split; [split; try done; by eexists|]. done.
  - rewrite Ho. destruct plain as [-> ->]. rewrite (at_num_rows _ _ _ Hat). cbn [orb]. rewrite (proj2 (Z.ltb_ge _ p)) by lia.
    rewrite andb_false_r. rewrite Z.max_l by lia. unfold Fetch.data_seek, on_client.
    unfold mbind, M_bind, the_client. rewrite get_bind, Hc. cbn [deref mret M_ret modify].
    pose proof (at_data_seek c rows m (Z.to_nat p) Hat ltac:(lia)) as Hs. rewrite Z2Nat.id in Hs by lia. eexists. split; [reflexivity|].
    split; [split; try done; [by eapply cursor_at_client|by eexists]|done].
Qed.

(** The conditions of a row by its number. *)
Definition row_conditions (pk : list str) (room j : nat) (l : list str) : Prop :=
  ∃ row, rows !! j = Some row ∧ key_conditions pk room names (columns (bound o)) row l ∧ length l = length pk ∧ pk ≠ [].

Definition where_text (l : list str) : str := S!" WHERE " ++ and_joined l ++ S!" LIMIT 1".

Lemma insert_pk_text pk room j s q l : prepared pk room j s → row_conditions pk room j l →
  ∃ b, insert_pk_fields_std k n names 0 q s = (Ok (SQL_SUCCESS, q ++ with_and l), with_buffer b s) ∧ emptied room b.
Proof.
  intros [Ho Ha Hat [Hv Hk] Hl Hb] (row & Hr & Hc & Hlen & _).
  destruct (pk_conditions_text pk room names _ row l Hc [] [] s j q 0) as (b & E & He); try done; [by destruct plain|].
  exists b. split; [|done]. unfold insert_pk_fields_std. rewrite (bind_Ok _ _ _ _ _ E). cbv beta iota. rewrite get_bind. cbn [cursor with_buffer].
  rewrite Hk, bool_decide_true by done. done.
Qed.

Lemma where_clause_text pk room m s r q l : prepared pk room m s → 0 ≤ current_row (stm s) → 1 ≤ r → current_row (stm s) + r - 1 < Z.of_nat (length rows) →
  let p := current_row (stm s) + r - 1 in let j := key_place (cursor_row (stm s)) m p in
  row_conditions pk room j l →
  ∃ s', build_where_clause_std k n names max_rows 0 q r s = (Ok (SQL_SUCCESS, q ++ where_text l), s') ∧ prepared pk room j s' ∧ framed s s' ∧ cursor_row (stm s') = p.
Proof.
  intros Hp H0 H1 Hlt p j Hrow. destruct (set_current_at pk room m s r Hp H0 H1 Hlt) as (s1 & E1 & Hp1 & Hf1 & Hcr). fold p j in Hp1, Hcr.
  pose proof Hrow as (row & _ & _ & Hlen & Hne).
  unfold build_where_clause_std. rewrite (bind_Ok _ _ _ _ _ E1). cbv zeta.
  assert (check_if_usable_unique_key_exists n names max_rows s1 = (Ok true, s1)) as Ek.
  { unfold check_if_usable_unique_key_exists. rewrite get_bind. destruct (pr_key _ _ _ _ Hp1) as [-> ->]. by rewrite bool_decide_false. }
  rewrite (bind_Ok _ _ _ _ _ Ek). destruct (insert_pk_text pk room j s1 (q ++ S!" WHERE ") l Hp1 Hrow) as (b & E2 & Hb).
  rewrite (bind_Ok _ _ _ _ _ E2). cbv beta iota. change (negb (SQL_SUCCESS =? SQL_SUCCESS)) with false. cbv iota. rewrite get_bind.
  assert (l ≠ []) as Hl by (intros ->; by destruct pk). rewrite with_and_joined by done. rewrite (proj2 (Z.eqb_neq r 0)) by lia.
  rewrite (app_assoc (q ++ S!" WHERE ")), length_app. change (length (S!" AND ")) with 5%nat. rewrite bool_decide_true by (rewrite !length_app; cbn; lia).
  replace (length ((q ++ S!" WHERE ") ++ and_joined l) + 5 - 5)%nat with (length ((q ++ S!" WHERE ") ++ and_joined l)) by lia. rewrite take_app_length.
  eexists. split; [unfold mret, M_ret; do 3 f_equal; unfold where_text; by rewrite <- !app_assoc|].
  split; [by apply prepared_buffer|]. split; [by eapply framed_trans|done].
Qed.

(** ** Statements that are sent *)

(** The server runs each statement with success; the rows that all of them affect, and the
    connection after them. *)
Inductive accepts : list str → D → Z → D → Prop :=
  | Accepts_none d : accepts [] d 0 d
  | Accepts_one q qs d d1 total d2 : run_query q d = (SQL_SUCCESS, d1) → accepts qs d1 total d2 → accepts (q :: qs) d (affected_rows d1 + total) d2.

(** What statements that are sent change. *)
Definition after_statements (qs : list str) (d : D) (s s' : P) : Prop :=
  current_row (stm s') = current_row (stm s) ∧ rows_found_in_set (stm s') = rows_found_in_set (stm s) ∧ conn s' = d ∧ sent s' = sent s ++ qs ∧
  table_name s' = table_name s ∧ dae s' = dae s ∧ affected s' = affected s.

Lemma exec_accepted pk room m q d (s : P) : prepared pk room m s → run_query q (conn s) = (SQL_SUCCESS, d) →
  ∃ s', exec_stmt_query max_rows q s = (Ok SQL_SUCCESS, s') ∧ prepared pk room m s' ∧ after_statements [q] d s s' ∧ cursor_row (stm s') = cursor_row (stm s).
Proof.
  intros [Ho Ha Hn Hk Hl Hb] Hq. unfold exec_stmt_query, set_sql_select_limit.
  assert ((max_rows =? select_limit s) || ((max_rows =? sql_select_unlimited) && (select_limit s =? 0)) = true) as Hlim by (by rewrite Hl, Z.eqb_refl).
  unfold mbind, M_bind, get, modify. rewrite Hlim. cbn [mret M_ret negb SQL_SUCCEEDED orb]. change (negb (SQL_SUCCEEDED SQL_SUCCESS)) with false. cbv iota.
  unfold execute. rewrite get_bind. cbn [conn with_buffer]. rewrite Hq. eexists. split; [reflexivity|]. split; [split; try done|done].
  destruct Hb as [_ Hb]. by split.
Qed.

Lemma to_uint64_add a b : to_uint64 (to_uint64 a + b) = to_uint64 (a + b).
Proof. unfold to_uint64. by rewrite Zplus_mod_idemp_l. Qed.

Definition deletion (t : str) (l : list str) : str := S!"DELETE FROM `" ++ t ++ S!"`" ++ where_text l.

(** The rows of the rowset whose numbers are given. *)
Definition in_rowset (s : P) (r : Z) : Prop := 1 ≤ r < 2 ^ 16 ∧ current_row (stm s) + r - 1 < Z.of_nat (length rows).

Lemma to_uint16_small r : 1 ≤ r < 2 ^ 16 → to_uint16 r = r.
Proof. intros H. unfold to_uint16. apply Z.mod_small. lia. Qed.

Lemma delete_rows_text pk room query rs ls : ∀ m (s : P) count total d,
  prepared pk room m s → 0 ≤ current_row (stm s) → Forall (in_rowset s) rs →
  Forall2 (row_conditions pk room) (key_places (cursor_row (stm s)) m (places s rs)) ls →
  accepts ((λ l, query ++ where_text l) <$> ls) (conn s) total d →
  ∃ m' s', delete_rows k n names max_rows 0 query rs (to_uint64 count) SQL_SUCCESS s = (Ok (inr (SQL_SUCCESS, to_uint64 (count + total))), s') ∧
    prepared pk room m' s' ∧ after_statements ((λ l, query ++ where_text l) <$> ls) d s s'.
Proof.
  revert ls. induction rs as [|r rs IH]; intros ls m s count total d Hp H0 Hr Hl Ha; inversion Hl as [|? l ? ls' Hrl Hls]; subst.
  - inversion Ha; subst. exists m, s. cbn [delete_rows]. rewrite Z.add_0_r. split; [done|]. split; [done|]. repeat split. cbn. by rewrite app_nil_r.
  - apply Forall_cons in Hr as [[Hr1 Hr2] Hr]. inversion Ha as [|q qs d0 d1 tot d2 Hq Hqs]; subst. cbn [delete_rows].
    rewrite (to_uint16_small r Hr1). destruct (where_clause_text pk room m s r query l Hp H0 ltac:(lia) Hr2 Hrl) as (s1 & E1 & Hp1 & Hf1 & Hcr1).
    rewrite (bind_Ok _ _ _ _ _ E1). cbv beta iota. change (negb (SQL_SUCCEEDED SQL_SUCCESS)) with false. cbv iota.
    destruct Hf1 as (F1 & F2 & F3 & F4 & F5 & F6 & F7). rewrite <- F3 in Hq.
    destruct (exec_accepted pk room _ _ _ s1 Hp1 Hq) as (s2 & E2 & Hp2 & (A1 & A2 & A3 & A4 & A5 & A6 & A7) & Hcr2). rewrite (bind_Ok _ _ _ _ _ E2), get_bind.
    change (SQL_SUCCESS =? 0) with true. cbv iota. rewrite A3, to_uint64_add.
    assert (current_row (stm s2) = current_row (stm s)) as Hcur by congruence.
    destruct (IH ls' _ s2 (count + affected_rows d1) tot d Hp2) as (m3 & s3 & E3 & Hp3 & B1 & B2 & B3 & B4 & B5 & B6 & B7); [by rewrite Hcur| | |by rewrite A3|].
    { eapply Forall_impl; [exact Hr|]. intros z. unfold in_rowset. by rewrite Hcur. }
    { unfold places. by rewrite Hcr2, Hcr1, Hcur. }
    exists m3, s3. rewrite E3. split; [by rewrite Z.add_assoc|]. split; [done|]. repeat split; try congruence. rewrite B4, A4, F4, <- app_assoc. done.
Qed.

Lemma places_nonneg (s : P) rs : 0 ≤ current_row (stm s) → Forall (in_rowset s) rs → Forall (Z.le 0) (places s rs).
Proof. intros H0 Hr. apply Forall_fmap. eapply Forall_impl; [exact Hr|]. intros r [H _]. cbn. lia. Qed.

(** The table of the statement is [t], known or to be found. *)
Definition of_table (t : str) (s : P) : Prop := t ≠ [] ∧ (table_name s = t ∨ table_name s = [] ∧ used_table None names = Some (Some t)).

Lemma find_table pk room m t (s : P) : prepared pk room m s → of_table t s →
  ∃ s', find_used_table names s = (Ok (Some t), s') ∧ prepared pk room m s' ∧ framed (with_table t s) s' ∧ cursor_row (stm s') = cursor_row (stm s).
Proof.
  intros Hp [Hne Ht]. unfold find_used_table. rewrite get_bind. destruct Ht as [Ht|[Ht Hu]].
  - rewrite Ht, bool_decide_false by done. exists s. split; [done|]. split; [done|]. split; [|done]. by repeat split.
  - rewrite Ht, Hu. change (negb (bool_decide ([] = []))) with false. cbv iota. exists (with_table t s). split; [done|]. destruct Hp. split; [by split|]. done.
Qed.

(** What is set after the statements, when they affect [total] rows. *)
Lemma status_set irow total status (s : P) :
  ∃ s', update_setpos_status status_ex irow total status s =
        (Ok (if negb (irow =? 0) && (1 <? total) then SQL_SUCCESS_WITH_INFO else SQL_SUCCESS), s') ∧
    sent s' = sent s ∧ affected s' = total ∧ conn s' = set_affected_rows total (conn s) ∧ opts s' = opts s ∧
    rows_found_in_set (stm s') = rows_found_in_set (stm s) ∧ current_row (stm s') = current_row (stm s).
Proof.
  unfold update_setpos_status, global_set_affected_rows. rewrite modify_bind. destruct (_ && _).
  - eexists. split; [reflexivity|]. done.
  - unfold set_statuses, mbind, M_bind, get. eexists. split; [reflexivity|]. done.
Qed.

Lemma rows_gone_static (s : P) total : is_dynamic_cursor (opts s) = false → rows_gone total s = (Ok tt, s).
Proof. intros H. unfold rows_gone. by rewrite get_bind, H. Qed.

Lemma setpos_delete_text pk room m t irow ls (s : P) total d : is_dynamic_cursor o = false → prepared pk room m s → of_table t s →
  0 ≤ current_row (stm s) → Forall (in_rowset s) (rows_asked irow (rows_found_in_set (stm s))) →
  Forall2 (row_conditions pk room) (key_places (cursor_row (stm s)) m (places s (rows_asked irow (rows_found_in_set (stm s))))) ls →
  accepts (deletion t <$> ls) (conn s) total d →
  ∃ s', setpos_delete_std k n names status_ex max_rows 0 irow (S!"DELETE FROM ") s =
          (Ok (if negb (irow =? 0) && (1 <? to_uint64 total) then SQL_SUCCESS_WITH_INFO else SQL_SUCCESS), s') ∧
    sent s' = sent s ++ (deletion t <$> ls) ∧ affected s' = to_uint64 total ∧ conn s' = set_affected_rows (to_uint64 total) d ∧
    rows_found_in_set (stm s') = rows_found_in_set (stm s) ∧ current_row (stm s') = current_row (stm s).
Proof.
  intros Hdyn Hp Ht H0 Hr Hl Ha. destruct (find_table pk room m t s Hp Ht) as (s1 & E1 & Hp1 & (F1 & F2 & F3 & F4 & F5 & F6 & F7) & Fcr).
  unfold setpos_delete_std. rewrite (bind_Ok _ _ _ _ _ E1). unfold myodbc_append_quoted_name_std.
  rewrite (bind_Ok _ _ s1 (S!"DELETE FROM " ++ S!"`" ++ t ++ S!"`") s1) by done. rewrite get_bind, F2. cbn [stm with_table].
  assert (deletion t <$> ls = (λ l, (S!"DELETE FROM " ++ S!"`" ++ t ++ S!"`") ++ where_text l) <$> ls) as Eq.
  { apply list_fmap_ext. intros i l _. unfold deletion. by rewrite <- !app_assoc. }
  rewrite Eq in Ha |- *. cbn [stm conn with_table] in F1, F3.
  destruct (delete_rows_text pk room (S!"DELETE FROM " ++ S!"`" ++ t ++ S!"`") (rows_asked irow (rows_found_in_set (stm s))) ls m s1 0 total d)
    as (m2 & s2 & E2 & Hp2 & A1 & A2 & A3 & A4 & A5 & A6 & A7); [done|by rewrite F1| |unfold places; by rewrite F1, Fcr|by rewrite F3|].
  { eapply Forall_impl; [exact Hr|]. intros z. unfold in_rowset. by rewrite F1. }
  change (to_uint64 0) with 0 in E2. rewrite Z.add_0_l in E2. rewrite (bind_Ok _ _ _ _ _ E2). cbv beta iota. change (SQL_SUCCESS =? SQL_SUCCESS) with true. cbv iota.
  destruct (status_set irow (to_uint64 total) SQL_ROW_DELETED s2) as (s3 & E3 & B1 & B2 & B3 & B4 & B5 & B6). rewrite (bind_Ok _ _ _ _ _ E3).
  assert (is_dynamic_cursor (opts s3) = false) as Hd by (rewrite B4, (pr_opts _ _ _ _ Hp2); done).
  rewrite (bind_Ok _ _ _ _ _ (rows_gone_static s3 (to_uint64 total) Hd)). exists s3. split; [done|]. cbn [stm sent with_table] in F2, F4.
  split; [by rewrite B1, A4, F4|]. split; [done|]. split; [by rewrite B3, A3|]. split; [by rewrite B5, A2|by rewrite B6, A1].
Qed.

Lemma prepared_error pk room m e (s : P) : prepared pk room m s → prepared pk room m (with_stm (with_error e (stm s)) s).
Proof. intros [Ho Ha Hn Hk Hl Hb]. split; try done. by destruct Ha. Qed.

Lemma rows_asked_in pk room m irow (s : P) : prepared pk room m s → 0 ≤ current_row (stm s) → 0 ≤ irow ≤ rows_found_in_set (stm s) → 0 < rows_found_in_set (stm s) < 2 ^ 16 →
  Forall (in_rowset s) (rows_asked irow (rows_found_in_set (stm s))).
Proof.
  intros [_ [_ _ (Hc1 & Hc2 & Hc3) _ _ _ _] _ _ _ _] H0 Hi Hf. unfold rows_asked, in_rowset. destruct (Z.eqb_spec irow 0).
  - apply Forall_forall. intros z Hz%elem_of_seqZ. lia.
  - apply Forall_singleton. lia.
Qed.

Lemma setpos_start pk room m irow (s : P) : prepared pk room m s → (irow <=? Z.of_nat (length rows)) = true →
  (let s0 := with_stm (with_error None (stm s)) s in
   bool_decide (client (stm s0) = None) = false ∧ if_forward_cache (opts s0) = false ∧ on_stmt (λ _, num_rows) s0 = (Ok (Z.of_nat (length rows)), s0)).
Proof.
  intros Hp Hi s0. pose proof (prepared_error pk room m None s Hp) as [Ho Ha _ _ _ _]. pose proof Ha as [(c & m' & Hc & Hm) _ _ _ _ _ _]. fold s0 in Ho, Ha, Hc.
  split; [by rewrite Hc|]. split; [rewrite Ho; by destruct plain|]. unfold on_stmt. rewrite (num_rows_at rows _ Ha). by destruct s.
Qed.

(** ** The SET clause *)






















(** What a call does when nothing is refused. *)
Definition update_step (irow : Z) : pos Z :=
  rc ← setpos_dae_check_and_init mem ard_count irow SQL_LOCK_NO_CHANGE DAE_SETPOS_UPDATE;
  if negb (rc =? 0) then mret rc else setpos_update_std k n mem names ard_count status_ex max_rows 0 (to_uint16 irow) (S!"UPDATE ").

Lemma setpos_checked pk room at_ irow fOption (s : P) (m : pos Z) : prepared pk room at_ s → is_dynamic_cursor o = false → 0 ≤ irow ≤ rows_found_in_set (stm s) →
  fOption = SQL_DELETE ∧ m = setpos_delete_std k n names status_ex max_rows 0 (to_uint16 irow) (S!"DELETE FROM ") ∨ fOption = SQL_UPDATE ∧ m = update_step irow → ∀ text,
  my_SQLSetPos k my_SQLExecute n mem text names ard_count status_ex max_rows 0 irow fOption SQL_LOCK_NO_CHANGE s =
  catch_myerror m (λ r, r) (with_stm (with_error None (stm s)) s).
Proof.
  intros Hp Hd Hi Hm text. assert (irow <=? Z.of_nat (length rows) = true) as Hle.
  { pose proof Hp as [_ [_ _ (Hc1 & Hc2 & Hc3) He _ _ _] _ _ _ _]. apply Z.leb_le. destruct (decide (current_row (stm s) = -1)) as [E1|]; [|lia].
    specialize (He E1). lia. }
  destruct (setpos_start pk room at_ irow s Hp Hle) as (Hc & Hfw & Hnum). set (s0 := with_stm (with_error None (stm s)) s) in *.
  pose proof (pr_opts _ _ _ _ (prepared_error pk room at_ None s Hp)) as Ho. fold s0 in Ho.
  assert (∀ b, refresh_dynamic my_SQLExecute b s0 = (Ok false, s0)) as Edyn by (intros b; unfold refresh_dynamic; rewrite get_bind, Ho, Hd; by rewrite andb_false_r).
  unfold my_SQLSetPos, catch_myerror. rewrite modify_bind. fold s0. rewrite get_bind. cbv zeta. rewrite Hc, Hfw. cbn [andb].
  rewrite (bind_Ok _ _ s0 false s0).
  2:{ destruct Hm as [[-> _]|[-> _]]; cbv iota; [change (SQL_DELETE =? SQL_ADD) with false|change (SQL_UPDATE =? SQL_ADD) with false]; cbv iota;
      rewrite (bind_Ok _ _ _ _ _ Hnum); apply Z.leb_le in Hle; by rewrite (proj2 (Z.ltb_ge _ _)). }
  change (negb (SQL_LOCK_NO_CHANGE =? SQL_LOCK_NO_CHANGE)) with false. cbv iota.
  destruct Hm as [[-> ->]|[-> ->]].
  - change (SQL_DELETE =? SQL_POSITION) with false. change (SQL_DELETE =? SQL_DELETE) with true. cbv iota.
    rewrite (proj2 (Z.ltb_ge _ _)) by (cbn; lia). by rewrite (bind_Ok _ _ _ _ _ (Edyn false)).
  - change (SQL_UPDATE =? SQL_POSITION) with false. change (SQL_UPDATE =? SQL_DELETE) with false. change (SQL_UPDATE =? SQL_UPDATE) with true. cbv iota.
    rewrite (proj2 (Z.ltb_ge _ _)) by (cbn; lia). by rewrite (bind_Ok _ _ _ _ _ (Edyn true)).
Qed.


(** ** Data at execution *)

Section AtExecution.
Context (text : @Protocol double) (of_execution : pos (Z * option (option Z))) (put_of_execution : pos Z).

Abbreviation param_data := (SQLParamData k my_SQLExecute n mem text names ard_count status_ex max_rows 0 of_execution).








End AtExecution.

End Positioned.

(** C24: Positioned deletes.  SQLSetPos with SQL_DELETE, for a stored result with a known key, of a
    statement neither prepared by the server nor dynamic, with fewer than 2^16 rows in the rowset,
    sends one DELETE for each row asked for, all of the rowset or the one with the number, if the
    server accepts each.  It has the conditions of the key of one row (columns of types of
    characters or of whole or exact numbers, without null characters, whose literals fit the
    buffer) and is limited to one row; the rows they affect are added up, and the rowset stays
    where it was.  More than one row for a single number is a warning.  The key is that of the row
    asked for when the driver has noted no place of the cursor, or the one where the result stands.
    Else the first row asked for, if its place is the one noted, is told apart by the key of the
    row where the result stands, as after fetching the same rowset again: another row is deleted
    ([key_places]). *)
Theorem positioned_delete_spec `{HS : !@StoredResults double C place HR} (text : @Protocol double) rows o pk room m t irow ls (s : P) total d :
  ssps o = false → if_forward_cache o = false → is_dynamic_cursor o = false → prepared rows o pk room m s → of_table t s →
  0 ≤ current_row (stm s) → 0 ≤ irow ≤ rows_found_in_set (stm s) → 0 < rows_found_in_set (stm s) < 2 ^ 16 →
  let at_places := places s (rows_asked irow (rows_found_in_set (stm s))) in
  Forall2 (row_conditions rows o pk room) (key_places (cursor_row (stm s)) m at_places) ls →
  accepts (deletion t <$> ls) (conn s) total d →
  (∃ s', SQLSetPos k my_SQLExecute n mem text names ard_count status_ex max_rows 0 irow SQL_DELETE SQL_LOCK_NO_CHANGE s =
          (Ok (if negb (irow =? 0) && (1 <? to_uint64 total) then SQL_SUCCESS_WITH_INFO else SQL_SUCCESS), s') ∧
    sent s' = sent s ++ (deletion t <$> ls) ∧ affected s' = to_uint64 total ∧ conn s' = set_affected_rows (to_uint64 total) d ∧
    rows_found_in_set (stm s') = rows_found_in_set (stm s) ∧ current_row (stm s') = current_row (stm s)) ∧
  (cursor_row (stm s) < 0 ∨ cursor_row (stm s) = Z.of_nat m → key_places (cursor_row (stm s)) m at_places = Z.to_nat <$> at_places).
Proof.
  intros Hs Hf Hd Hp Ht H0 Hi Hfd at_places Hl Ha. pose proof (rows_asked_in rows o pk room m irow s Hp H0 Hi Hfd) as Hr.
  split; [|intros Hn; apply (key_places_own _ _ _ Hn), (places_nonneg rows); [exact H0|exact Hr]].
  pose proof (prepared_error rows o pk room m None s Hp) as Hp0.
  destruct (setpos_delete_text rows o (conj Hs Hf) pk room m t irow ls _ total d Hd Hp0) as (s' & E & H); try done.
  exists s'. split; [|exact H]. unfold SQLSetPos.
  rewrite (setpos_checked rows o (conj Hs Hf) pk room m irow SQL_DELETE s _ Hp Hd Hi (or_introl (conj eq_refl eq_refl)) text).
  unfold catch_myerror, to_uint16. rewrite Z.mod_small by lia. by rewrite E.
Qed.





(** ** The key of the table *)

Lemma named_columns ks : all_named names → forallb (have_field_in_result names) ks = true → ks ≠ [] → omap id ks ≠ [].
Proof.
  intros Hn Hk Hne. destruct ks as [|c ks]; [done|]. cbn [forallb] in Hk. apply andb_prop in Hk as [Hc _].
  destruct c as [c|]; [done|]. by rewrite null_not_in_result in Hc.
Qed.

(** C27: The key that rows are told apart by.  From what SHOW KEYS answers the first unique key
    is taken all of whose columns are in the result, with its columns in order, and there is none
    when no key is like that.  The loop that resumes behind a column that is missing finds
    the same one. *)
Theorem usable_key_spec (s : P) keys f fs t d1 d2 : names = f :: fs → all_named names → pk_validated (cursor s) = false → pkcol (cursor s) = [] → select_limit s = max_rows →
  let q := S!"SHOW KEYS FROM `" ++ n_escape n (default (in_table f) (org_table f)) ++ S!"`" in
  run_query q (conn s) = (SQL_SUCCESS, d1) → store_result d1 = (Some t, d2) → show_keys keys (t_rows t) →
  Forall (λ k, key_columns k ≠ [] ∧ (length (key_columns k) <= MY_MAX_PK_PARTS)%nat) keys →
  ∃ s', check_if_usable_unique_key_exists n names max_rows s = (Ok (existsb (usable names) keys), s') ∧
    pk_validated (cursor s') = true ∧ pkcol (cursor s') = match filter (λ k, usable names k) keys with k :: _ => omap id (key_columns k) | [] => [] end ∧
    sent s' = sent s ++ [q] ∧ conn s' = d2 ∧ stm s' = stm s.
Proof.
  intros Hnames Hn Hv Hpk Hlim q Hq Hst (parts & Hrows & Hkeys) Hk. unfold check_if_usable_unique_key_exists. rewrite get_bind, Hv.
  assert (head names = Some f) as -> by (by rewrite Hnames). cbn [deref]. rewrite ret_bind. fold q.
  unfold query_table, exec_stmt_query, set_sql_select_limit.
  assert ((max_rows =? select_limit s) || ((max_rows =? sql_select_unlimited) && (select_limit s =? 0)) = true) as El by (by rewrite Hlim, Z.eqb_refl).
  rewrite !bind_assoc, get_bind, El, ret_bind. change (negb (SQL_SUCCEEDED SQL_SUCCESS)) with false. cbv iota. rewrite bind_assoc, modify_bind.
  unfold execute. rewrite !bind_assoc, get_bind. cbn [conn with_buffer]. rewrite Hq. rewrite bind_assoc, modify_bind, ret_bind. change (negb (SQL_SUCCESS =? 0)) with false. cbv iota.
  rewrite bind_assoc, get_bind. cbn [conn with_conn with_sent with_buffer]. rewrite Hst. rewrite bind_assoc, modify_bind, ret_bind. rewrite Hpk, Hrows.
  rewrite (scan_keys_first names keys parts Hn Hkeys Hk). unfold lift, mbind, M_bind, modify, mret, M_ret. eexists. split; [apply f_equal2; [|reflexivity]; f_equal|split_and!; reflexivity].
  clear -Hn Hk. induction Hk as [|k keys [Hne _] Hk IH]; [done|]. rewrite filter_cons_bool. cbn [existsb]. destruct (usable names k) eqn:Eu; [|exact IH].
  unfold usable in Eu. apply andb_prop in Eu as [_ Eu]. cbn [orb]. rewrite bool_decide_false; [reflexivity|]. by apply named_columns.
Qed.
End Statements.

(** ** Concrete cursors *)

(** A connection on which each statement affects one row; a query is answered with a
    table.  The results of the next statements are noted, all others succeed. *)
Record link := Link { l_answer : option table; l_results : list Z; l_affected : Z }.
#[export] Instance link_connection : Connection link := {
  run_query q d := (default SQL_SUCCESS (head (l_results d)), Link (l_answer d) (tail (l_results d)) 1);
  store_result d := (l_answer d, d);
  affected_rows := l_affected;
  set_affected_rows z d := Link (l_answer d) (l_results d) z;
  error_state_of _ := None
}.
(** No rows are bound: the results are those of plain statements. *)
#[export] Instance stored_bound {double} : BoundRow double (stored_result double) := λ _, None.

Module SetPosExamples.
Import ColumnExamples.
Definition k : @conversions () := FetchExamples.k.
Definition n : insert_env () := InsertEnv () (λ _ _, []) (λ _, Ascii.zero) (λ _, []) [] [] ex_escape 8 8 false false false [] [] false true.
Abbreviation stmt := (@POS () (stored_result ()) (option nat) link).

(** A table of numbers, its key, and names; the names are bound to 20 bytes a row from 3000 on, with their
    lengths from 4000 on, and the key is ignored. *)
Definition names : list field_names := [Names (Some (S!"id")) (Some (S!"t")) (S!"t") []; Names (Some (S!"name")) (Some (S!"t")) (S!"t") []].
Definition name_column (data len : option Z) : Fetch.column :=
  Col (Field MYSQL_TYPE_VAR_STRING 60 0 0 0 8 1) 12 60 SQL_C_CHAR data 20 len (0, 0).
Definition bound_name : Fetch.column := name_column (Some 3000) (Some 4000).
Definition unbound : Fetch.column := Col (Field MYSQL_TYPE_VAR_STRING 60 0 0 0 8 1) 12 60 SQL_C_DEFAULT None 0 None (0, 0).
Definition set (size : Z) (cs : list Fetch.column) : settings :=
  Settings false 3 false false size 0 false (Binding None 0 cs) None true true None.
Definition row (r : option str * option str) : list (@cell ()) := [Cell text r.1; Cell text r.2].

(** The memory of an application: the indicators of the key say that it is ignored, and
    those of the names are as [ind] says of each row. *)
Definition mem (ind : Z → Z) (values : list str) : memory () :=
  let value a := default [] (values !! Z.to_nat ((a - 3000) / 20)) in
  Memory () (λ _ a, Bytes (value a)) (λ a, if a <? 4000 then SQL_COLUMN_IGNORE else ind ((a - 4000) / 8)) value (λ a, Z.of_nat (length (value a))) (λ _ m, Bytes m).

(** A statement that is at a rowset of [found] rows. *)
Definition at_rowset (o : settings) (d : link) (current found : nat) (rows : list (option str * option str)) : stmt :=
  Pos (Stmt (Some (Stored (row <$> rows) current)) None None [] None (Some (current + found)%nat) (new_scroller (λ _, Ascii.zero)) (Z.of_nat current) (Z.of_nat found) (-1) OPS_UNKNOWN fresh None [])
    o d [] 0 (S!"t") (Cursor [] [S!"id"] true) (new_tempBuf (λ _, Ascii.zero) 64) 0 (Dae 0 None 0 0 0) false.
Definition no_execute : M (@STMT () (stored_result ()) (option nat)) Z := mret SQL_ERROR.
Definition call (names : list field_names) (m : memory ()) (irow op : Z) : M stmt Z :=
  SQLSetPos k no_execute n m text names 2 false 0 0 irow op SQL_LOCK_NO_CHANGE.
Definition SetPos := call names.
Definition some_names (l : list (str * str)) : list (option str * option str) := (λ p, (Some p.1, Some p.2)) <$> l.
Definition five := some_names [(S!"10", S!"a"); (S!"11", S!"b"); (S!"12", S!"c"); (S!"13", S!"d"); (S!"14", S!"e")].
Definition no_mem : memory () := mem (λ _, SQL_NTS) [].
Definition both : settings := set 2 [FetchExamples.int_column true; bound_name].
Definition good : link := Link None [] 1.
Definition third : stmt := at_rowset both good 2 2 five.

(** The second row of a rowset that begins at the third; both rows, whose names are a
    text and null. *)
Example delete_second : let '(r, s) := SetPos no_mem 2 SQL_DELETE third in
  r = Ok SQL_SUCCESS ∧ sent s = [S!"DELETE FROM `t` WHERE `id`='13' LIMIT 1"] ∧ affected s = 1.
Proof. by vm_compute. Qed.
Example update_both : let '(r, s) := SetPos (mem (λ i, if i =? 0 then 4 else SQL_NULL_DATA) [S!"it's"; S!"x"]) 0 SQL_UPDATE third in
  r = Ok SQL_SUCCESS ∧ sent s = [S!"UPDATE `t` SET `name`='it\'s' WHERE `id`='12' LIMIT 1"; S!"UPDATE `t` SET `name`=NULL WHERE `id`='13' LIMIT 1"].
Proof. by vm_compute. Qed.

(** The place of the cursor that was noted is not forgotten when rows are fetched: when the
    rowset has been fetched again, the second row of it is its first one. *)
Definition twice : M stmt Z :=
  SetPos no_mem 2 SQL_DELETE;;
  on_stmt (λ o, SQLFetchScroll k o no_execute SQL_FETCH_ABSOLUTE 3 None);;
  SetPos no_mem 2 SQL_DELETE.
Example wrong_row_deleted : sent (twice third).2 = [S!"DELETE FROM `t` WHERE `id`='13' LIMIT 1"; S!"DELETE FROM `t` WHERE `id`='12' LIMIT 1"].
Proof. by vm_compute. Qed.

(** The status of the first rows is set, not the one of the row that is deleted. *)
Example status_of_first : effects (stm (SetPos no_mem 2 SQL_DELETE third).2) = [W_status_ird 0 SQL_ROW_DELETED].
Proof. by vm_compute. Qed.

(** A statement that fails is passed when another one follows. *)
Example failure_passed : let '(r, s) := SetPos no_mem 0 SQL_DELETE (at_rowset both (Link None [SQL_ERROR] 0) 2 2 five) in
  r = Ok SQL_SUCCESS ∧ affected s = 1.
Proof. by vm_compute. Qed.

(** A rowset without rows, all of which are to be deleted: the row that the cursor is at is. *)
Example delete_none : let '(r, s) := SetPos no_mem 0 SQL_DELETE (at_rowset both good 2 0 five) in
  r = Ok SQL_SUCCESS ∧ sent s = [S!"DELETE FROM `t` WHERE `id`='12' LIMIT 1"].
Proof. by vm_compute. Qed.

(** A column that is not bound is set to its default. *)
Example unbound_set : let '(r, s) := SetPos no_mem 1 SQL_UPDATE (at_rowset (set 2 [FetchExamples.int_column true; unbound]) good 2 2 five) in
  r = Ok SQL_SUCCESS ∧ sent s = [S!"UPDATE `t` SET `name`=DEFAULT WHERE `id`='12' LIMIT 1"].
Proof. by vm_compute. Qed.

(** The length of a column without a place for it is the one of the column before: it is null when
    that one is. *)
Definition numbers : list Fetch.column := [bound_name; FetchExamples.int_column false].
Example length_carried : let '(r, s) := SetPos (mem (λ _, SQL_NULL_DATA) [S!"a"]) 1 SQL_UPDATE (at_rowset (set 2 numbers) good 2 2 five) in
  r = Ok SQL_SUCCESS ∧ sent s = [S!"UPDATE `t` SET `id`=NULL,`name`=NULL WHERE `id`='12' LIMIT 1"].
Proof. by vm_compute. Qed.

(** A key that is null does not tell rows apart, a key is cut at a null character, and the names of columns are not
    escaped. *)
Example null_key : sent (SetPos no_mem 1 SQL_DELETE (at_rowset both good 0 1 [(None, None)])).2 = [S!"DELETE FROM `t` WHERE `id` IS NULL LIMIT 1"].
Proof. by vm_compute. Qed.
Example key_cut : sent (SetPos no_mem 1 SQL_DELETE (at_rowset both good 0 1 [(Some (["1"; Ascii.zero; "2"]%char), None)])).2 = [S!"DELETE FROM `t` WHERE `id`='1' LIMIT 1"].
Proof. by vm_compute. Qed.
Example backtick : sent (call [Names (Some (S!"id")) (Some (S!"t")) (S!"t") []; Names (Some (S!"a`b")) (Some (S!"t")) (S!"t") []] (mem (λ _, 1) [S!"x"]) 1 SQL_UPDATE (at_rowset both good 0 1 five)).2 =
  [S!"UPDATE `t` SET `a`b`='x' WHERE `id`='10' LIMIT 1"].
Proof. by vm_compute. Qed.

(** The row that is added is the first one of the arrays, whatever its number. *)
Example add_second : sent (SetPos (mem (λ _, 1) [S!"x"; S!"y"]) 2 SQL_ADD third).2 = [S!"INSERT INTO `t`(`id`,`name`) VALUES (DEFAULT,'x')"].
Proof. by vm_compute. Qed.
(** A null that comes at execution is not null when it is inserted. *)
Definition null_at_execution : M stmt (Z * option (option Z)) :=
  SetPos (mem (λ _, SQL_DATA_AT_EXEC) []) 0 SQL_ADD;;
  SQLParamData k no_execute n (mem (λ _, SQL_DATA_AT_EXEC) []) text names 2 false 0 0 undefined;;
  SQLPutData undefined (Some []) SQL_NULL_DATA;;
  SQLParamData k no_execute n (mem (λ _, SQL_DATA_AT_EXEC) []) text names 2 false 0 0 undefined.
Example null_inserted : sent (null_at_execution (at_rowset (set 1 [FetchExamples.int_column true; bound_name]) good 0 1 five)).2 =
  [S!"INSERT INTO `t`(`id`,`name`) VALUES (DEFAULT,DEFAULT)"].
Proof. by vm_compute. Qed.

(** A row that is fetched by its bookmark, here the fourth one, is written to the place that its
    number in the result has in the buffers, and its status is the one of no row. *)
Definition marked : settings :=
  Settings false 3 false false 1 SQL_UB_VARIABLE false (Binding None 0 [FetchExamples.int_column true]) (Some (Fetch.Col (ColumnExamples.column MYSQL_TYPE_LONGLONG 20 NUM_FLAG) 0 8 SQL_C_CHAR (Some 5000) 8 None (0, 0))) true true None.
Definition bookmark_mem : memory () := Memory () (λ _ _, Bytes []) (λ _, 0) (λ a, S!"4") (λ _, 1) (λ _ m, Bytes m).
Example fetched_outside :
  effects (stm (SQLBulkOperations k no_execute n bookmark_mem text names 1 true 0 0 SQL_FETCH_BY_BOOKMARK (at_rowset marked good 0 1 five)).2) =
  [W_value 1012 (S_int 4 13); W_indicator 2024 4; W_status 3 0; W_status 3 SQL_ROW_NOROW; W_rows 3].
Proof. by vm_compute. Qed.
End SetPosExamples.

Module SetPosWitness.
Import SetPosExamples.

Lemma third_at o d : cursor_at (row <$> five) (stm (at_rowset o d 2 2 five)).
Proof. split; cbn; [by eexists _, 2%nat|done|lia|done|lia|right; by eexists|done]. Qed.

Lemma third_prepared o d : prepared 0 (row <$> five) o [S!"id"] 64 2 (at_rowset o d 2 2 five).
Proof. split; [done|apply third_at|by eexists|done|done|done]. Qed.

Lemma accepted qs : accepts qs good (Z.of_nat (length qs)) good.
Proof.
  induction qs as [|q qs IH]; [constructor|]. cbn [length]. rewrite Nat2Z.inj_succ, <- Z.add_1_l. 
  change (1 + Z.of_nat (length qs)) with (affected_rows good + Z.of_nat (length qs)). by eapply (Accepts_one _ _ _ good).
Qed.

Lemma third_conditions o j r l : columns (bound o) = columns (bound both) → five !! j = Some r → l = [condition n (S!"id") r.1] →
  row_conditions k n names (row <$> five) o [S!"id"] 64 j l.
Proof.
  intros Ho Hr ->. exists (row r). split; [by rewrite list_lookup_fmap, Hr|]. split; [|done]. rewrite Ho. cbn [columns bound both set].
  apply list_elem_of_lookup_2 in Hr. unfold five in Hr. cbn [some_names fmap list_fmap] in Hr.
  repeat (apply elem_of_cons in Hr as [-> | Hr]; [|]); [..|by apply elem_of_nil in Hr].
  all: eapply Conditions_key; [reflexivity|reflexivity|reflexivity|apply (bool_decide_unpack _); vm_compute; exact I|..].
  all: try (apply Conditions_other; [reflexivity|apply Conditions_nil]).
  all: intros t [= <-]; (split; [apply (bool_decide_unpack _); vm_compute; exact I|vm_compute; lia]).
Qed.


End SetPosWitness.

Lemma positioned_delete_spec_witness :
  ∃ s', SetPosExamples.SetPos SetPosExamples.no_mem 0 SQL_DELETE SetPosExamples.third = (Ok SQL_SUCCESS, s') ∧
    sent s' = [S!"DELETE FROM `t` WHERE `id`='12' LIMIT 1"; S!"DELETE FROM `t` WHERE `id`='13' LIMIT 1"] ∧ affected s' = 2.
Proof.
  destruct (positioned_delete_spec SetPosExamples.k SetPosExamples.no_execute SetPosExamples.n SetPosExamples.no_mem SetPosExamples.names 2 false 0 ex_escape_length
    ColumnExamples.text (SetPosExamples.row <$> SetPosExamples.five) SetPosExamples.both [S!"id"] 64 2 (S!"t") 0
    [[condition SetPosExamples.n (S!"id") (Some (S!"12"))]; [condition SetPosExamples.n (S!"id") (Some (S!"13"))]] SetPosExamples.third 2 SetPosExamples.good)
    as [(s' & E & Hs & Ha & _) _].
  - reflexivity.
  - reflexivity.
  - reflexivity.
  - apply SetPosWitness.third_prepared.
  - split; [done|by left].
  - cbn. lia.
  - cbn. lia.
  - cbn. lia.
  - apply Forall2_cons. split; [by eapply SetPosWitness.third_conditions; reflexivity|]. apply Forall2_cons. split; [by eapply SetPosWitness.third_conditions; reflexivity|constructor].
  - by apply (SetPosWitness.accepted [_; _]).
  - exists s'. split; [exact E|]. split; [exact Hs|exact Ha].
Defined.



Lemma usable_key_spec_witness :
  let keys := [Key false [Some (S!"name")]; Key true [Some (S!"id"); Some (S!"missing")]; Key true [Some (S!"ID")]] in
  let row nu seq c := [Some (S!"t"); Some nu; Some (S!"k"); Some seq; c] in
  let t := Table [] [row (S!"1") (S!"1") (Some (S!"name")); row (S!"0") (S!"1") (Some (S!"id")); row (S!"0") (S!"2") (Some (S!"missing")); row (S!"0") (S!"1") (Some (S!"ID"))] in
  let s := with_cursor (Cursor [] [] false) (with_conn (Link (Some t) [] 0) SetPosExamples.third) in
  ∃ s', check_if_usable_unique_key_exists SetPosExamples.n SetPosExamples.names 0 s = (Ok true, s') ∧ pkcol (cursor s') = [S!"ID"] ∧ sent s' = [S!"SHOW KEYS FROM `t`"].
Proof.
  intros keys row t s.
  destruct (usable_key_spec SetPosExamples.n SetPosExamples.names 0 s keys (Names (Some (S!"id")) (Some (S!"t")) (S!"t") []) [Names (Some (S!"name")) (Some (S!"t")) (S!"t") []]
    t (Link (Some t) [] 1) (Link (Some t) [] 1)) as (s' & E & _ & Hk & Hs & _).
  - reflexivity.
  - by repeat constructor.
  - reflexivity.
  - reflexivity.
  - reflexivity.
  - reflexivity.
  - reflexivity.
  - exists [take 1 (t_rows t); take 2 (drop 1 (t_rows t)); drop 3 (t_rows t)]. split; [reflexivity|].
    repeat constructor; eexists _, _, _, _, _; (split; [reflexivity|]); (split; [by split|reflexivity]).
  - apply (bool_decide_unpack _). vm_compute. exact I.
  - exists s'. split; [exact E|]. split; [exact Hk|exact Hs].
Defined.
