(* ===== verification/CurrentOf.v ===== *)
(** Positioned statements (src/driver/cursor.cc, src/driver/execute.cc): the cursor that the
    words WHERE CURRENT OF name, deletions of its row, and the names of cursors. *)

From S2P Require Import Prelude CppString Parse HostList FailoverHandler Numeric Errors Descriptors GetData DateTime TempBuf Params Scroller Types Column Fetch SetPos Positioned.

Local Open Scope Z_scope.

Definition MYSQL_MAX_CURSOR_LEN : Z := 18.

(** [src/driver/utility.cc:2544-2562] myodbc_casecmp

    Whether the first [n] characters agree, where the end of a text is one of them. *)
Fixpoint casecmp (n : nat) (s t : str) : res bool :=
  match n with
  | O => Ok true
  | S n =>
    match s, t with
    | [], _ :: _ | _ :: _, [] => Ok false
    | [], [] => match n with O => Ok true | _ => UB end
    | a :: s, b :: t => if bool_decide (toupper a = toupper b) then casecmp n s t else Ok false
    end
  end.

(** ** The cursor that a statement names *)

(** What the words at the end of a statement say: nothing; a place in the text, and the number of the
    statement of the connection that has the cursor; or the place, when there is none. *)
Inductive target := No_cursor | At_cursor (place index : nat) | No_such_cursor (place : nat).

(** [src/driver/cursor.cc:141-156] check_if_positioned_cursor_exists

    The statements of the connection, whether they have a result and the names of their cursors. *)
Fixpoint find_cursor (name : str) (stmts : list (bool * str)) : option nat :=
  match stmts with
  | [] => None
  | (result, cursor) :: stmts =>
    if result && negb (bool_decide (cursor = [])) && myodbc_strcasecmp_eq (Some (c_str cursor)) (Some name) then Some 0%nat else S <$> find_cursor name stmts
  end.

(** [src/driver/cursor.cc:118-170] check_if_positioned_cursor_exists

    The name goes on to the end of the text.  The message that there is no such cursor is
    put together in a buffer of 200 characters. *)
Definition no_such_cursor (name : str) : str := S!"Cursor '" ++ name ++ S!"' does not exist or does not have a result set.".
Definition check_if_positioned_cursor_exists (q : parsed_query) (stmts : list (bool * str)) : res target :=
  match get_cursor_name q with
  | None => Ok No_cursor
  | Some i =>
    let place := (default 0 (get_token q (length (token2 q) - 4)) - 1)%nat in
    let name := c_str (drop i (query q)) in
    match find_cursor name stmts with
    | Some j => Ok (At_cursor place j)
    | None => if bool_decide (length (no_such_cursor name) < 200)%nat then Ok (No_such_cursor place) else UB
    end
  end.

Section CurrentOf.
Context {double float C place D : Type} `{HR : !@Results double C place} `{HB : !BoundRow double C} `{HD : !Connection D}.
Context (k : @conversions double) (n : insert_env float) (names : list field_names) (max_rows : Z).
Abbreviation pos := (M (@POS double C place D)).
(** What is done for an update, which is executed by a statement of its own. *)
Context (my_pos_update_std : str → positioned → pos (Z * positioned)).

(** [src/driver/execute.cc:1334-1367] do_my_pos_cursor_std

    The statement of the cursor is the state; [invalid] says that there is none of the name, and the state is
    the one of another statement. *)
Definition do_my_pos_cursor_std (invalid : bool) (pszQuery : str) (p : positioned) : pos (Z * positioned) :=
  if invalid then mret (SQL_ERROR, with_p_error (S!"HY000") p)
  else
    let query := CppString.skip_spaces pszQuery in
    delete ← lift (casecmp 6 query (S!"delete"));
    update ← lift (if delete : bool then Ok false else casecmp 6 query (S!"update"));
    '(rc, p) ← (if delete : bool then my_pos_delete_std k n names max_rows 0 1 query p
                else if update : bool then my_pos_update_std query p
                else mret (SQL_ERROR, with_p_error (S!"HY000") p));
    mret (rc, if SQL_SUCCEEDED rc then Positioned (p_affected p) (p_has_status p) (p_current_row p) (p_status p) (p_error p) true else p).

(** [src/driver/execute.cc:1473-1494] my_SQLExecute

    A statement that names a cursor: its text is ended before the words.  The state is the statement
    of the cursor, or the last one of the connection when there is no cursor of the name. *)
Definition execute_current_of (q : parsed_query) (t : target) (p : positioned) : option (pos (Z * positioned)) :=
  match t with
  | No_cursor => None
  | At_cursor place _ | No_such_cursor place =>
    Some (s ← get;
          if if_forward_cache (opts s) then mret (SQL_ERROR, with_p_error (S!"HY010") p)
          else do_my_pos_cursor_std (match t with No_such_cursor _ => true | _ => false end) (c_str (take place (query q))) p)
  end.

(** ** Names of cursors *)

(** [src/driver/cursor.cc:1826-1851] MySQLSetCursorName *)
Definition MySQLSetCursorName (name : option str) (len : Z) : pos Z :=
  modify (λ s, with_stm (with_error None (stm s)) s);;
  match name with
  | None => fails (S!"HY009")
  | Some m =>
    let len := if len =? SQL_NTS then to_int16 (Z.of_nat (length (c_str m))) else len in
    if len <? 0 then fails (S!"HY009")
    else
      reserved ← (if (len =? 0) || (MYSQL_MAX_CURSOR_LEN <? len) then mret true
                  else a ← lift (casecmp 6 (c_str m) (S!"SQLCUR")); if a : bool then mret true else lift (casecmp 7 (c_str m) (S!"SQL_CUR")));
      if reserved : bool then fails (S!"34000")
      else
        name ← lift (text_of (Some m) len);
        modify (λ s, with_cursor (Cursor name (pkcol (cursor s)) (pk_validated (cursor s))) s);;
        mret SQL_SUCCESS
  end.

(** [src/driver/cursor.cc:333-336] set_dynamic_cursor_name *)
Definition set_dynamic_cursor_name (cursor_count : Z) : str := S!"SQL_CUR" ++ to_string cursor_count.

(** [src/driver/cursor.cc:1861-1869] MySQLGetCursorName

    The name, and how many cursors of the connection have been named. *)
Definition MySQLGetCursorName (cursor_count : Z) : pos (str * Z) :=
  s ← get;
  if bool_decide (cursor_name (cursor s) = []) then
    let name := set_dynamic_cursor_name cursor_count in
    modify (λ s, with_cursor (Cursor name (pkcol (cursor s)) (pk_validated (cursor s))) s);;
    mret (c_str name, to_uint32 (cursor_count + 1))
  else mret (c_str (cursor_name (cursor s)), cursor_count).
End CurrentOf.

(** ** The cursor that is found *)



Section Deletions.
Context {double float C place D : Type} `{HR : !@Results double C place} `{HB : !BoundRow double C} `{HD : !Connection D}.
Context (k : @conversions double) (n : insert_env float) (names : list field_names) (max_rows : Z).
Context (escaped_length : ∀ s, (length (n_escape n s) <= length s * 2)%nat).
Abbreviation P := (@POS double C place D).


End Deletions.

(** ** Names of cursors *)

Lemma casecmp_prefix m : ∀ s t, length t = m → Forall (λ c, toupper c ≠ Ascii.zero) t → Forall (λ c, c ≠ Ascii.zero) t →
  casecmp m s t = Ok (bool_decide (toupper <$> take m s = toupper <$> t)).
Proof.
  induction m as [|m IH]; intros s t Hl Hu Hz; [by destruct t|]. destruct t as [|b t]; [done|]. injection Hl as Hl. destruct s as [|a s]; [done|].
  apply Forall_cons in Hu as [_ Hu]. apply Forall_cons in Hz as [_ Hz]. cbn [casecmp take fmap list_fmap].
  destruct (decide (toupper a = toupper b)) as [E|E].
  - rewrite bool_decide_true by done. rewrite (IH s t Hl Hu Hz). f_equal. apply bool_decide_ext. rewrite E. split; [by intros ->|by intros [=]].
  - rewrite !bool_decide_false; [done|by intros [=]|done].
Qed.

(** The beginning of a text that is read up to some length is the one of the C string. *)
Lemma shared_beginning w : ∀ z (m : str), Ascii.zero ∉ toupper <$> w → toupper <$> take (length w) (take z (m ++ [Ascii.zero])) = toupper <$> w →
  toupper <$> take (length w) (c_str m) = toupper <$> w.
Proof.
  induction w as [|b w IH]; [done|]. intros [|z] [|c m] [Hb Hw]%not_elem_of_cons; cbn [length take app fmap list_fmap c_str]; intros [= Ec E]; [by destruct Hb|].
  rewrite bool_decide_false by (intros ->; by destruct Hb). cbn [take fmap list_fmap]. rewrite Ec. f_equal. by eapply IH.
Qed.

Lemma fails_not_ok {double C place D : Type} st (s s' : @POS double C place D) : fails st s ≠ (Ok SQL_SUCCESS, s').
Proof. intros [=]. Qed.

(** Names that are made are apart from those that are set.  A name that an application
    has set for a cursor is never one that the driver makes, whatever its case, so that no
    positioned statement can mean two cursors by it. *)
Theorem cursor_names_apart {double C place D : Type} (name : str) len (s s' : @POS double C place D) count :
  MySQLSetCursorName (Some name) len s = (Ok SQL_SUCCESS, s') → toupper <$> cursor_name (cursor s') ≠ toupper <$> set_dynamic_cursor_name count.
Proof.
  intros H E. unfold MySQLSetCursorName in H. rewrite modify_bind in H. cbv zeta in H. set (s0 := with_stm _ s) in H.
  set (z := if len =? SQL_NTS then to_int16 (Z.of_nat (length (c_str name))) else len) in H.
  destruct (z <? 0); [by apply fails_not_ok in H|].
  destruct ((z =? 0) || (MYSQL_MAX_CURSOR_LEN <? z)); [rewrite ret_bind in H; by apply fails_not_ok in H|].
  rewrite (casecmp_prefix 6 _ (S!"SQLCUR")), (casecmp_prefix 7 _ (S!"SQL_CUR")) in H by (done || (apply (bool_decide_unpack _); vm_compute; exact I)).
  rewrite bind_assoc in H. set (a := bool_decide (toupper <$> take 6 _ = _)) in H. set (b := bool_decide (toupper <$> take 7 _ = _)) in H.
  rewrite (bind_Ok _ _ s0 a s0) in H by done. destruct a; [rewrite ret_bind in H; by apply fails_not_ok in H|].
  rewrite (bind_Ok _ _ s0 b s0) in H by done. destruct b eqn:E7; [by apply fails_not_ok in H|]. apply bool_decide_eq_false in E7. apply E7. clear E7.
  unfold text_of in H. destruct (_ && _); [|done]. cbv [lift mbind M_bind modify mret M_ret] in H. injection H as <-. cbn [cursor with_cursor cursor_name] in E.
  apply (shared_beginning (S!"SQL_CUR") (Z.to_nat z)); [apply (bool_decide_unpack _); vm_compute; exact I|].
  change (length (S!"SQL_CUR")) with 7%nat. rewrite fmap_take, E. done.
Qed.

(** ** Concrete statements *)

Module CurrentOfExamples.
Import SetPosExamples.
(** A text as the driver has read it, and two cursors. *)
Definition parsed (text : str) : parsed_query := default (reset_query []) (parse (reset_query text)).
Definition two : list (bool * str) := [(true, S!"other"); (true, S!"cur")].
Definition idle : positioned := Positioned 0 true 0 [] None false.
Definition no_update (_ : str) (_ : positioned) : M stmt (Z * positioned) := undefined.
(** The statement with the text runs, the state is the one of its cursor. *)
Definition run (text : str) : M stmt (Z * positioned) :=
  t ← lift (check_if_positioned_cursor_exists (parsed text) two);
  default undefined (execute_current_of k n names 0 no_update (parsed text) t idle).

(** The row is the first one of the rowset, whatever row the cursor has been set to. *)
Example first_of_rowset :
  sent ((SetPos no_mem 2 SQL_POSITION;; run (S!"DELETE FROM t WHERE CURRENT OF cur")) third).2 = [S!"DELETE FROM t WHERE `id`='12' LIMIT 1"].
Proof. by vm_compute. Qed.

(** A name in quotes is two tokens, so that the statement names no cursor and goes to the
    server as it is. *)
Example quoted_name : check_if_positioned_cursor_exists (parsed (S!"DELETE FROM t WHERE CURRENT OF `cur`")) two = Ok No_cursor.
Proof. by vm_compute. Qed.

(** A separator at the end belongs to the name.  That there is no such cursor is reported as
    a general error. *)
Example separator_in_name : let '(r, s) := run (S!"DELETE FROM t WHERE CURRENT OF cur;") third in
  (λ x, (x.1, p_error x.2)) <$> (match r with Ok x => Some x | _ => None end) = Some (SQL_ERROR, Some (S!"HY000")).
Proof. by vm_compute. Qed.

(** A long name that is not found is written behind the buffer for the message. *)
Example long_name : check_if_positioned_cursor_exists (parsed (S!"DELETE FROM t WHERE CURRENT OF " ++ replicate 150 "x"%char)) two = UB.
Proof. vm_compute. reflexivity. Qed.
End CurrentOfExamples.


Lemma cursor_names_apart_witness :
  let s' := (MySQLSetCursorName (Some (S!"sql_cu7")) SQL_NTS SetPosExamples.third).2 in
  cursor_name (cursor s') = S!"sql_cu7" ∧ toupper <$> cursor_name (cursor s') ≠ toupper <$> set_dynamic_cursor_name 7.
Proof.
  intros s'. split; [vm_compute; reflexivity|]. apply (cursor_names_apart (S!"sql_cu7") SQL_NTS SetPosExamples.third s').
  assert ((MySQLSetCursorName (Some (S!"sql_cu7")) SQL_NTS SetPosExamples.third).1 = Ok SQL_SUCCESS) as E by (vm_compute; reflexivity).
  rewrite <- E. unfold s'. apply surjective_pairing.
Defined.
